(* ===== verification/_CoqProject ===== *)
-Q . S2P
Prelude.v
Sorting.v
Bytes.v
Utf8.v
Float64.v
Json.v
Url.v
ProviderConfig.v
ProviderCompile.v
ProviderCompileFacts.v
RuntimeError.v
Endpoint.v
Framing.v
Decode.v
DecodeRuns.v
Runner.v
HttpSend.v
LoreModel.v
LoreEngine.v
LoreSelect.v
LoreMatch.v
LoreRefine.v
LoreCache.v
LoreImport.v
LoreExamples.v
ToolSchema.v
ToolPolicy.v
ToolApproval.v
ToolExamples.v
ToolMcp.v
PromptTemplate.v
PromptSchema.v
PromptRegexFacts.v
PromptValidate.v
PromptCompile.v
PromptCompileFacts.v
PromptImport.v
PromptExamples.v
TokenCount.v
RunStreamFacts.v
RunExamples.v
MemoryConfig.v
MemoryBudget.v
MemoryChunk.v
MemorySummary.v
MemorySummaryFacts.v
MemoryRetrieval.v
MemoryRetrievalFacts.v
MemoryStorage.v
MemoryExamples.v
Persona.v
PersonaStorage.v
PersonaExamples.v
AssetModel.v
ImportPath.v
ImportPng.v
ImportPngFacts.v
AssetDetect.v
ImportZip.v
ImportZipFacts.v
AssetCatalog.v
Faults.v
AssetFs.v
AssetStore.v
AssetSessions.v
AssetMaintenance.v
AssetLedger.v
AssetRollback.v
AssetSurvival.v
AssetGuarantees.v
AssetIngest.v
AssetExamples.v
ChatModel.v
ChatStore.v
ChatInvariant.v
ChatHistory.v
ChatGuarantees.v
StreamBridge.v
StreamFacts.v
StreamGuarantees.v
