(* ===== verification/Prelude.v ===== *)
(** * LorePia: a verification development

    LorePia is a chat client: it compiles a prompt from a character, a lorebook and
    long-term memory, sends it to a model provider, decodes the streamed response,
    and may run tools the model asks for.  This library models the crates that carry
    that logic as executable functions and proves what they promise.

    ** Parts of the program and the files that model them

    Foundations: [Prelude] (results, the error-and-state monad [ST], machine-width
    arithmetic, list lemmas, the proof automation), [Sorting] (lexicographic
    comparisons and sorting, with uniqueness of the sorted list), [Bytes] (byte
    strings and the parts of [str] the sources use), [Utf8] (the UTF-8 decoder of
    [std], characters, whitespace, [trim]), [Json] ([serde_json::Value] with its
    accessors; the parser is a class of parameters).

    Provider runtime, [crates/lorepia-provider-runtime/src]:
    - [RuntimeError] models [error.rs] and [event.rs];
    - [Framing] models [framing/sse.rs] and [framing/ndjson.rs].  Both framers are
      instances of one interface, [LineFramer], over which the common [push] loop
      is written once; its laws ([LineFramerLaws]) give independence of chunking
      for both.  [push] recurses on the buffered bytes by a measure, so it is total;
    - [Decode] models [decode/*.rs], a decoder per provider as a state-passing
      function; [DecodeRuns] holds the facts about one frame and about whole
      streams;
    - [Runner] models the response side of [runner.rs]: header checks, HTTP errors,
      the consumption loop and the delivery of events.  What the network, the clock,
      the cancellation token and the consumer's channel do is a list of inputs;
    - [Url] is what the sources use of URLs and IP addresses; [Endpoint] models
      [endpoint.rs] and proves it, [HttpSend] models
      [credential.rs] and [client.rs] up to the request handed to the HTTP client;
    - [TokenCount] models [token_count.rs] and proves it;
    - [RunStreamFacts] models the two entry points of [runner.rs], which compile, count,
      resolve, send and consume, and proves them; a run records the requests it sent, the
      events it delivered and its result.  [RunExamples] holds the witnesses.

    Lorebook, [crates/lorepia-lorebook/src]:
    - [LoreModel] models [model.rs] and the limits of [lib.rs], and says
      what validation accepts;
    - [LoreEngine] and [LoreSelect] model [normalize.rs] and [engine.rs]: compiled
      catalogs, bounded matching, ordering, packing and the engine with its cache;
    - these and [LoreMatch] prove the stages correct, and [LoreRefine] composes them into
      a refinement of [spec_select], a specification with no index, candidate list, limit or sort;
    - [LoreCache] is the engine shared by several callers: the lock is taken twice by
      [select], so lookups, stores and catalog replacements interleave as the steps
      of a transition system, with invariants by induction over reachable states;
    - [LoreImport] models [import.rs]; [LoreExamples] evaluates the development on a
      concrete catalog with a concrete matcher, and holds the witnesses.

    Tool runtime, [crates/lorepia-tool-runtime/src]:
    - [ToolSchema] models [json.rs] and [schema.rs] and proves them;
    - [ToolPolicy] models [policy.rs] and [registry.rs], [ToolApproval] proves the
      approval protocol over sequences of host operations; [ToolExamples] holds the
      witnesses and a concrete host;
    - [ToolMcp] models [mcp.rs].

    Provider requests, [crates/lorepia-providers/src]: [ProviderConfig] models [config.rs],
    [capabilities.rs] and [error.rs], [ProviderCompile] models [compile.rs] for all six
    providers, and [ProviderCompileFacts] proves what a compiled request contains by
    reading its JSON body back in the format of the provider.  [Float64] is the part of
    binary64 the sampling options need.

    Prompts, [crates/lorepia-prompt/src]:
    - [PromptTemplate] models [template.rs]; [PromptSchema] models [schema.rs] and
      [regex_pipeline.rs], with their facts in [PromptRegexFacts];
    - [PromptValidate] models [validate.rs], [PromptCompile] models [compile.rs], and
      [PromptCompileFacts] proves it against an independent specification and composes
      it with [ProviderCompile], from the preset to the body that is sent;
    - [PromptImport] models [import.rs]; [PromptExamples] holds the witnesses.

    Memory, [crates/lorepia-memory/src]:
    - [MemoryConfig] models [error.rs], [id.rs] and [config.rs], [MemoryBudget] models
      [budget.rs], [MemoryChunk] models [chunk.rs];
    - [MemorySummary] models [session.rs], [summary.rs] and [artifact.rs], [MemoryRetrieval] models
      [retrieval.rs]; [MemorySummaryFacts] and [MemoryRetrievalFacts] prove them;
    - [MemoryStorage] models [storage.rs]; [MemoryExamples] runs one chat from a preset
      to a materialised selection and holds the witnesses.

    Personas, [crates/lorepia-persona/src]: [Persona] models [id.rs], [error.rs] and
    [catalog.rs] and proves them over histories of operations,
    [PersonaStorage] models and proves [storage.rs], [PersonaExamples] evaluates both.

    Card import, [crates/lorepia-import/src]:
    - [ImportPath] models [path_policy.rs] with the limits of [model.rs];
    - [ImportPng] models [png_policy.rs] and [ImportPngFacts] proves it equivalent to a
      grammar of accepted files;
    - [ImportZip] models the archive checks of [service.rs] (end record, central
      directory, local headers, entry types and ratios), proved in [ImportZipFacts].

    Assets, [crates/lorepia-assets/src]:
    - [AssetModel] models [model.rs] and [error.rs], [AssetDetect] models [mime.rs];
    - [Faults] is the setting of the store: a monad over a world with a disk and a count
      of effects, in which every effect may fail as an oracle says, and a program logic
      for it with a postcondition for success and one for failure, so that a
      theorem speaks of every point at which an operation can be interrupted;
    - [AssetCatalog] is the SQLite catalog (tables, triggers and constraints) of
      [catalog.rs]; [AssetFs] models [secure_fs.rs] over directories, entries and
      inodes, with one rule per operation;
    - [AssetStore], [AssetSessions] and [AssetMaintenance] model [store.rs]: ingest and
      quarantine; references, import sessions, rollback, recovery and backup pins;
      reconciliation, sweeping, cleaning up and opening, with the migrations;
    - [AssetLedger] proves the catalog's invariant for every operation, [AssetRollback]
      the completion of an interrupted rollback and termination of recovery,
      [AssetSurvival] that a referenced object outlives
      operations, [AssetGuarantees] and [AssetIngest] state this over sequences of
      operations; [AssetExamples] runs the store and holds the witnesses.

    Conversation storage, [crates/lorepia-storage]:
    - [ChatModel] models [error.rs], [id.rs], [model.rs] and the validations of [store.rs];
    - [ChatStore] models the calls of [store.rs] on the tables of the schema, with the
      constraints of [migrations/*.sql], the row checks and the recovery of [migration.rs];
    - [ChatInvariant] is the invariant of the tables and the facts about single
      statements and the stream journal; [ChatHistory] is the active path as a list and
      the preservation of the invariant by every call; [ChatGuarantees] states what holds
      after any history of calls, with an abstract journal that the store refines.

    Provider stream broker, [apps/desktop-mobile/src-tauri/src/provider_stream.rs] with the
    storage errors of [storage_commands.rs]:
    - [StreamBridge] models it over [ChatStore]: the state machine of a stream, the registry,
      the command that starts a stream and the request it builds, the bridge that forwards
      the provider's events to the reader and to the store, and the sections that the
      acknowledgement, cancel, reset and snapshot commands and the watchdog run beside it;
      at every await of the bridge an oracle chooses which of those steps are taken;
    - [StreamFacts] is the invariant of a stream and a rule per operation of the bridge, in
      the logic of [Faults]; [StreamGuarantees] states what holds at every await, what holds
      of the start command, the registry and the history, and holds the witnesses.

    ** How the code is rendered

    A Rust integer is a [Z]; checked and saturating operations are written out with
    the bound of their type, and where the code adds or subtracts unchecked the
    theorems show the result is in range.  [Result] is [result], [?] is its bind;
    a method that mutates [self] is a function in [ST], which also says what an
    early error leaves in the state.  A [Vec] is a list; a [BTreeMap] is an ordered
    association list where its order matters (the selection cache) and a [gmap]
    where it does not (the approval ledger, the tool registry).  Indexing is [!!];
    the proofs show the indexes the code uses are in range.

    Code of other crates is a parameter: [SerdeJson] and [ToolJson] for
    [serde_json], [LoreLib] for NFKC, lowercase tables, Aho-Corasick, regular
    expressions and SHA-256, [ToolCrypto] for HMAC, [UrlLib] for URL parsing,
    [HttpLib] for header values and request building, [CountJson] for counting answers,
    [ProviderJson] for the numbers of request bodies, [PromptRegexLib] and
    [PromptImportLib] for the regex engine and the JSON of prompt presets, [MemoryLib]
    for the separator regex, SHA-256 and the JSON of a pinned preset, [PresetJson] and
    [PersonaJson] for stored presets and personas, [EnvelopeJson] for the lorebook
    envelope, [PathLib] for NFC and the case tables,
    [ImportLib] and [ZipLib] for SHA-256, CRC-32, the PNG decoder and the archive reader,
    [AssetSystem] for faults, clock, UUIDs, cancellation and read sizes, [StreamSystem] and
    [StartSystem] for the scheduler, the clock, refused storage calls and the channel of a
    stream; the exact token counter is an argument.
    What a theorem needs of them is a class of laws ([LoreLaws], [ChunkLaws],
    [EnvelopeJsonLaws], [PresetJsonLaws], [PersonaJsonLaws], [UrlLaws],
    [HttpLaws], [PathLaws]) or a hypothesis, each satisfied by a concrete instance in the example
    modules.  Collision resistance is never assumed outright: theorems
    that need it name the messages that must not collide.

    ** What the theorems show

    - Framing: events do not depend on how the network cuts the stream, they are
      those of a reference semantics, and memory is bounded by the frame limit.
    - Decoding: one terminal outcome, last; at most one response identity; errors
      never contain provider text.
    - Runner: completion means that every byte received was framed and decoded and every
      event delivered, in order; error bodies are never reflected; compressed bodies are
      refused.
    - Sending: a credential only ever goes to its own endpoint, over HTTPS, to addresses
      outside a table of reserved blocks and in one header, while the rest of the request
      does not depend on it; a prompt is counted, by the provider and on the input
      that is sent, before anything is generated from it.
    - Lorebook: selection refines its specification, stays within its limits, fails
      only by a limit and succeeds when limits suffice; cached answers are the fresh
      ones under any interleaving; untrusted imports are inert; export round-trips.
    - Tools: schema checks are exact and total, execution needs a valid, registered,
      allowlisted and approved call, an approval is bound to its call and used at
      most once on a clock that does not go back (and a counterexample otherwise).
    - Provider requests: the target is an official origin, the body carries exactly the
      conversation and the options, additional parameters only extend it.
    - Prompts: rendering is the one-pass substitution of the grammar, transforms are
      bounded substitution by the enabled rules, a compiled prompt is the specified
      sequence of messages and reaches the wire within the context; imports are inert.
    - Memory: the presets that the constructors, creation and edits give are exactly the
      well-formed ones; budgets add up and fit the context; chunks partition the artifact; a plan
      partitions the messages, a changed source is detected, artifacts stay well formed;
      a selection is sound, within its shares, maximal and fails only for its inputs, and
      what is inserted is the current text; stored presets load unchanged.
    - Personas: the catalog stays well formed over every history, its default resolves
      and reaches the prompt of its own chat only; the stored catalog round-trips and
      whatever is loaded is well formed.
    - Import: accepted archive paths stay below the root, have distinct portable keys and clash
      only where a directory is listed after the file it would lie in; a PNG
      is accepted exactly when it follows the grammar of the policy; an accepted archive
      agrees with its local headers and its expansion is bounded.
    - Assets: whatever fails, the totals are those of the tables and every row passes the
      constraints of the schema; promotion is atomic; an interrupted rollback, repeated,
      ends where an uninterrupted one does; bytes ingested into a store without a pending
      move or a misplaced copy of the object are read back after any operations that spare
      their reference; the quota holds.  Two counterexamples show what recovery of stale
      intents and of misplaced files can do to a good object otherwise.
    - Conversations: after any history of calls the rows pass the program's own checks; a
      failed call changes nothing; the journal of a stream is an append-only log that ends
      once; a restart interrupts exactly what was running and keeps its text and numbers; the incremental
      change of the active path gives the whole ancestry; pages cover the path once.
    - Streams: under every interleaving the reader is sent consecutively numbered events, an
      acknowledged event is durable, a published end is the end of the stored turn and the
      stored text is a prefix of what was sent; rows, slots and registry stay in step through
      a start, and the history of a request is the newest closed turns that fit.  A theorem
      shows the case in which a refused write leaves the turn open.

    ** Fuel and bounds

    Recursion is structural or by a measure except in these places, where the fuel is
    computed from the input or the state:
    - the explicit stack of [validate_json_limits] and the recursion of
      [validate_schema] take the number of nodes of the document, and
      [ToolSchema] shows that this is enough;
    - the chunk and segment loops of [ImportPng], [AssetDetect] and [ImportZip] take the
      length of the input, and lemmas beside them show that it is never used up;
    - loops that read a file take its length; [rollback_loop] takes the number of
      references of the owner and [recover_loop] that of sessions and references:
      running out is a result of its own, which [recovery_terminates] excludes;
    - [ancestors] takes the number of messages and one more, [ancestors_line] shows that
      this reaches the root;
    - a run of the bridge is watched up to an arbitrary await, its [cutoff], which is also
      the fuel of its loops: the theorems about it hold for every cutoff, so at every await.

    ** Not modelled

    The options of the HTTP client other than pinned addresses; of the asset store, a loss
    of power (a write is durable at once and [sync] changes nothing, which is what a
    process that stops leaves behind, so a missing sync is not noticed), the text of the
    schema and its fingerprint, overflow of SQLite's own sums, the Windows
    variants, the bytes of a snapshot file and other processes that change the
    directories; of conversation storage, the files, migrations, snapshots and the WAL;
    of the broker, commands that run between the awaits of the start command, reading the
    credential from the vault (a parameter), the wait of an owner reset for its streams, the timer that evicts an ended stream and panics of storage tasks;
    backup, the import service above the archive checks, safety reports, the credential
    vault, the other commands of the Tauri application and its front end.  They are file
    protocols, platform calls or forwarding. *)

From Stdlib Require Export ZArith Lia Ascii.
From stdpp Require Export base tactics list strings gmap option numbers.

#[global] Open Scope Z_scope.

(** ** Results

    [result E A] is Rust's [Result<A, E>]; [?] is the monadic bind. *)

Inductive result (E A : Type) : Type :=
  | Ok (a : A)
  | Err (e : E).
Arguments Ok {E A} a.
Arguments Err {E A} e.

#[export] Instance result_ret E : MRet (result E) := fun A a => Ok a.
#[export] Instance result_bind E : MBind (result E) := fun A B f m =>
  match m with Ok a => f a | Err e => Err e end.
#[export] Instance result_fmap E : FMap (result E) := fun A B f m =>
  match m with Ok a => Ok (f a) | Err e => Err e end.

#[export] Instance result_eq_dec E A `{EqDecision E, EqDecision A} :
  EqDecision (result E A).
Proof. solve_decision. Defined.

Definition is_ok {E A} (r : result E A) : bool :=
  match r with Ok _ => true | Err _ => false end.

(** [Option::ok_or]. *)
Definition ok_or {E A} (o : option A) (e : E) : result E A :=
  match o with Some a => Ok a | None => Err e end.

(** [Option::is_some]. *)
Definition is_some {A} (o : option A) : bool := match o with Some _ => true | None => false end.

(** [Result::map_err]. *)
Definition map_err {E F A} (f : E -> F) (r : result E A) : result F A :=
  match r with Ok a => Ok a | Err e => Err (f e) end.

(** A guard: [if cond { return Err(e) }]. *)
Definition ensure {E} (ok : bool) (e : E) : result E unit :=
  if ok then Ok tt else Err e.

(** [iter().map(f).collect::<Result<Vec<_>>>()]: left to right, stopping at the
    first error. *)
Fixpoint mapM_result {E A B} (f : A -> result E B) (l : list A) : result E (list B) :=
  match l with
  | [] => Ok []
  | x :: l' => y ← f x; ys ← mapM_result f l'; mret (y :: ys)
  end.

(** [for x in l { f(x)? }]. *)
Fixpoint forM_result {E A} (f : A -> result E unit) (l : list A) : result E unit :=
  match l with
  | [] => Ok tt
  | x :: l' => f x ≫= fun _ => forM_result f l'
  end.

(** [for x in l { acc = f(acc, x)? }]. *)
Fixpoint foldM_result {E A B} (f : B -> A -> result E B) (acc : B) (l : list A) : result E B :=
  match l with
  | [] => Ok acc
  | x :: l' => acc' ← f acc x; foldM_result f acc' l'
  end.

(** ** Segments

    [segments sep l] cuts [l] at the elements satisfying [sep]: the closed
    segments, each ended by a separator, and the open one at the end.  Lines of a
    byte stream and events of a line stream are both segments. *)

Fixpoint segments {A} (sep : A -> bool) (l : list A) : list (list A) * list A :=
  match l with
  | [] => ([], [])
  | x :: l' =>
      let '(closed, open) := segments sep l' in
      if sep x then ([] :: closed, open)
      else match closed with
           | s :: closed' => ((x :: s) :: closed', open)
           | [] => ([], x :: open)
           end
  end.

(** ** Stateful computations

    A method taking [&mut self] and returning a [Result] both changes the state
    and yields a value or an error; the state survives an error, because Rust
    keeps the mutations made before a [?] returns. *)

Definition ST (S E A : Type) : Type := S -> S * result E A.

#[export] Instance ST_ret S E : MRet (ST S E) := fun A a s => (s, Ok a).
#[export] Instance ST_bind S E : MBind (ST S E) := fun A B f m s =>
  match m s with
  | (s', Ok a) => f a s'
  | (s', Err e) => (s', Err e)
  end.

Definition st_get {S E} : ST S E S := fun s => (s, Ok s).
Definition st_put {S E} (s : S) : ST S E unit := fun _ => (s, Ok tt).
Definition st_modify {S E} (f : S -> S) : ST S E unit := fun s => (f s, Ok tt).
Definition st_lift {S E A} (r : result E A) : ST S E A := fun s => (s, r).

(** ** Machine integers

    Lengths and counters are [Z] values; the width shows up at the operations
    that can leave it. *)

Definition U8_MAX : Z := 2 ^ 8 - 1.
Definition U16_MAX : Z := 2 ^ 16 - 1.
Definition U32_MAX : Z := 2 ^ 32 - 1.
Definition U64_MAX : Z := 2 ^ 64 - 1.
Definition USIZE_MAX : Z := U64_MAX.

Definition checked_add (max a b : Z) : option Z :=
  if a + b <=? max then Some (a + b) else None.

Definition saturating_add (max a b : Z) : Z := Z.min max (a + b).

Definition saturating_sub (a b : Z) : Z := Z.max 0 (a - b).

(** The length of a vector or string, as the code's [usize]. *)
Definition len {A} (l : list A) : Z := Z.of_nat (length l).

(** ** Automation *)

Create HintDb lorepia.

(** Split the boolean tests of the code into arithmetic facts. *)
Ltac zify_bool :=
  repeat match goal with
  | H : (_ && _) = true |- _ => apply andb_true_iff in H; destruct H
  | H : (_ || _) = false |- _ => apply orb_false_iff in H; destruct H
  | H : negb _ = true |- _ => apply negb_true_iff in H
  | H : negb _ = false |- _ => apply negb_false_iff in H
  | H : (_ <=? _) = true |- _ => apply Z.leb_le in H
  | H : (_ <=? _) = false |- _ => apply Z.leb_gt in H
  | H : (_ <? _) = true |- _ => apply Z.ltb_lt in H
  | H : (_ <? _) = false |- _ => apply Z.ltb_ge in H
  | H : (_ >? _) = true |- _ => rewrite Z.gtb_ltb in H
  | H : (_ >? _) = false |- _ => rewrite Z.gtb_ltb in H
  | H : (_ =? _) = true |- _ => apply Z.eqb_eq in H
  | H : (_ =? _) = false |- _ => apply Z.eqb_neq in H
  end.

(** Case on the scrutinee of a [match] or [if] in a hypothesis, keeping the
    equation, and drop the impossible branches. *)
Ltac case_hyp H :=
  match type of H with
  | context [match ?x with _ => _ end] =>
      lazymatch x with
      | context [match _ with _ => _ end] => fail
      | _ => let E := fresh "E" in destruct x eqn:E; simplify_eq/=
      end
  end.

Ltac case_goal :=
  match goal with
  | |- context [match ?x with _ => _ end] =>
      lazymatch x with
      | context [match _ with _ => _ end] => fail
      | _ => let E := fresh "E" in destruct x eqn:E; simplify_eq/=
      end
  end.

(** [H] is a computation that starts with an early return and did not take it; [E] is
    what that says of the condition. *)
Ltac pass_guard H E :=
  match type of H with
  | (if ?b then _ else _) = _ => destruct b eqn:E; [discriminate H|]
  end.
Tactic Notation "pass" "guard" hyp(H) "as" ident(E) := pass_guard H E.
Tactic Notation "pass" "guard" hyp(H) := let E := fresh "G" in pass_guard H E.

(** ** Generic lemmas *)

Section results.
Context {E A B : Type}.
Implicit Types (m : result E A) (f : A -> result E B).

Lemma bind_Ok m f b : m ≫= f = Ok b -> exists a, m = Ok a /\ f a = Ok b.
Proof. destruct m; simpl; [eauto | discriminate]. Qed.

Lemma bind_Err m f e :
  m ≫= f = Err e -> m = Err e \/ exists a, m = Ok a /\ f a = Err e.
Proof. destruct m; simpl; intros; [right; eauto | left; congruence]. Qed.

Lemma Ok_inj (a b : A) : Ok a = Ok b :> result E A -> a = b.
Proof. congruence. Qed.

Lemma ensure_Ok (b : bool) (e : E) u : ensure b e = Ok u -> b = true.
Proof. destruct b; simpl; congruence. Qed.

Lemma ensure_Err (b : bool) (e e' : E) : ensure b e = Err e' -> b = false /\ e' = e.
Proof. destruct b; simpl; intros; simplify_eq; auto. Qed.

Lemma ok_or_Ok (o : option A) (e : E) a : ok_or o e = Ok a -> o = Some a.
Proof. destruct o; simpl; congruence. Qed.

Lemma forM_result_Ok (f : A -> result E unit) l u :
  forM_result f l = Ok u <-> Forall (fun x => f x = Ok tt) l.
Proof.
  destruct u. induction l as [|x l IH]; simpl; [done|].
  split.
  - destruct (f x) as [[]|] eqn:Hx; simpl; [|done].
    intros H. constructor; [done | by apply IH].
  - inversion 1 as [|? ? Hx Hl]; subst. rewrite Hx. simpl. by apply IH.
Qed.

End results.

Section results2.
Context {E A B : Type}.

Lemma mapM_result_Ok (f : A -> result E B) l ys :
  mapM_result f l = Ok ys <-> Forall2 (fun x y => f x = Ok y) l ys.
Proof.
  revert ys. induction l as [|x l IH]; intros ys; simpl.
  { split; [intros [=<-]; constructor | inversion 1; done]. }
  split.
  - destruct (f x) as [y|] eqn:Hy; simpl; [|done].
    destruct (mapM_result f l) as [ys'|] eqn:Hys; simpl; [|done].
    intros [= <-]. constructor; [done | by apply IH].
  - inversion 1 as [|? y ? ys' Hy Hys]; subst.
    rewrite Hy; simpl. apply IH in Hys. by rewrite Hys.
Qed.

Lemma forM_result_ext (f g : A -> result E unit) l :
  (forall x, x ∈ l -> f x = g x) -> forM_result f l = forM_result g l.
Proof.
  induction l as [|x l IH]; intros Hfg; cbn [forM_result]; [done|].
  rewrite (Hfg x) by left. destruct (g x); cbn; [|done]. apply IH. intros y Hy. apply Hfg. by right.
Qed.

Lemma forM_result_Err (f : A -> result E unit) l e :
  forM_result f l = Err e -> exists x, x ∈ l /\ f x = Err e.
Proof.
  induction l as [|x l IH]; cbn [forM_result]; [done|].
  destruct (f x) as [[]|e'] eqn:Hx; cbn; [|intros [= <-]; exists x; split; [left|done]].
  intros (y & Hy & Hf)%IH. exists y. split; [by right|done].
Qed.

Lemma foldM_result_app (f : B -> A -> result E B) acc l1 l2 :
  foldM_result f acc (l1 ++ l2) =
  (acc' ← foldM_result f acc l1; foldM_result f acc' l2).
Proof.
  revert acc. induction l1 as [|x l1 IH]; intros acc; simpl; [done|].
  destruct (f acc x); simpl; auto.
Qed.

(** Invariants of a fallible fold. *)
Lemma foldM_result_inv (P : B -> Prop) (f : B -> A -> result E B) acc l acc' :
  (forall a x a', P a -> f a x = Ok a' -> P a') ->
  P acc -> foldM_result f acc l = Ok acc' -> P acc'.
Proof.
  intros Hstep. revert acc. induction l as [|x l IH]; simpl; intros acc HP H.
  { congruence. }
  destruct (f acc x) as [a|] eqn:Hf; simpl in H; [|done]. eauto.
Qed.
End results2.

Lemma checked_add_Some max a b c : checked_add max a b = Some c -> c = a + b /\ c <= max.
Proof. unfold checked_add. destruct (Z.leb_spec (a + b) max); [|done]. by intros [= <-]. Qed.

Lemma checked_add_fits max a b : a + b <= max -> checked_add max a b = Some (a + b).
Proof. intros Hle. unfold checked_add. by rewrite (proj2 (Z.leb_le _ _) Hle). Qed.

Lemma gtb_false a b : a <= b -> (a >? b) = false.
Proof. lia. Qed.

Lemma gtb_true a b : b < a -> (a >? b) = true.
Proof. lia. Qed.

Section lists.
Context {A : Type}.
Implicit Types l : list A.

Lemma len_nonneg l : 0 <= len l.
Proof. unfold len; lia. Qed.

Lemma len_nil : len (@nil A) = 0.
Proof. done. Qed.

Lemma len_cons x l : len (x :: l) = 1 + len l.
Proof. unfold len; simpl; lia. Qed.

Lemma len_app l1 l2 : len (l1 ++ l2) = len l1 + len l2.
Proof. unfold len. rewrite length_app. lia. Qed.

Lemma len_0_nil l : len l = 0 -> l = [].
Proof. destruct l; unfold len; simpl; [done|lia]. Qed.
End lists.

Section segments.
Context {A : Type} (sep : A -> bool).

Lemma segments_open (a : list A) :
  forallb (fun x => negb (sep x)) a = true -> segments sep a = ([], a).
Proof.
  induction a as [|x a IH]; [done|]. cbn [forallb segments]. intros [Hx Ha]%andb_true_iff.
  apply negb_true_iff in Hx. by rewrite IH, Hx.
Qed.

(** A last element closes the open segment or extends it. *)
Lemma segments_snoc (l : list A) x :
  segments sep (l ++ [x]) =
  if sep x then ((segments sep l).1 ++ [(segments sep l).2], [])
  else ((segments sep l).1, (segments sep l).2 ++ [x]).
Proof.
  induction l as [|y l IH]; cbn [app segments].
  { by destruct (sep x). }
  rewrite IH. destruct (segments sep l) as [[|s c] o]; cbn [fst snd];
    destruct (sep x), (sep y); done.
Qed.

(** The first separator closes the first segment. *)
Lemma segments_cons (a : list A) x l :
  forallb (fun x => negb (sep x)) a = true -> sep x = true ->
  segments sep (a ++ x :: l) = (a :: (segments sep l).1, (segments sep l).2).
Proof.
  intros Ha Hx. induction a as [|y a IH].
  - cbn [app segments]. destruct (segments sep l). by rewrite Hx.
  - cbn [forallb] in Ha. apply andb_true_iff in Ha as [Hy%negb_true_iff Ha].
    cbn [app segments]. by rewrite IH, Hy.
Qed.

(** The first segment, closed or open, extends any separator-free prefix. *)
Lemma segments_prefix (a l : list A) :
  forallb (fun x => negb (sep x)) a = true ->
  exists x rest, (segments sep (a ++ l)).1 ++ [(segments sep (a ++ l)).2] = (a ++ x) :: rest.
Proof.
  induction a as [|y a IH]; cbn [app forallb].
  { intros _. destruct (segments sep l) as [[|s c] o]; cbn; eauto. }
  intros [Hy%negb_true_iff Ha]%andb_true_iff. destruct (IH Ha) as (x & rest & Hr).
  cbn [segments]. destruct (segments sep (a ++ l)) as [[|s c] o];
    cbn in Hr; simplify_eq; rewrite Hy; cbn; eauto.
Qed.
End segments.

(** Deciding a [Forall] whose head is known to hold. *)
Lemma Forall_head_true {A} (P : A -> Prop) `{forall x, Decision (P x)} x l :
  P x -> bool_decide (Forall P (x :: l)) = bool_decide (Forall P l).
Proof.
  intros Hx. apply bool_decide_ext. split; [by inversion 1 | by constructor].
Qed.

Lemma list_elem_of_filter_bool {A} (p : A -> bool) (l : list A) x :
  x ∈ List.filter p l <-> p x = true /\ x ∈ l.
Proof. rewrite !list_elem_of_In, filter_In. tauto. Qed.

Lemma NoDup_filter_list {A} (p : A -> bool) (l : list A) : NoDup l -> NoDup (List.filter p l).
Proof.
  induction 1 as [|x l Hx Hl IH]; cbn [List.filter]; [constructor|].
  destruct (p x); [|done]. constructor; [|done].
  rewrite list_elem_of_filter_bool. tauto.
Qed.

Lemma NoDup_omap {A B} (f : A -> option B) (l : list A) :
  (forall a b y, f a = Some y -> f b = Some y -> a = b) -> NoDup l -> NoDup (omap f l).
Proof.
  intros Hinj. induction 1 as [|x l Hx Hl IH]; cbn [omap list_omap]; [constructor|].
  destruct (f x) as [y|] eqn:Hy; [|done]. constructor; [|done].
  intros (z & Hz & Hfz)%list_elem_of_omap. by rewrite (Hinj x z y Hy Hfz) in Hx.
Qed.

Lemma existsb_false_Forall {A} (f : A -> bool) (l : list A) :
  existsb f l = false <-> Forall (fun x => f x = false) l.
Proof.
  induction l as [|x l IH]; cbn [existsb]; [by split; constructor|].
  rewrite orb_false_iff, IH, Forall_cons_iff. done.
Qed.

Lemma NoDup_map_inj {A B} (f : A -> B) (l : list A) x y :
  NoDup (map f l) -> x ∈ l -> y ∈ l -> f x = f y -> x = y.
Proof.
  induction l as [|z l IH]; [by intros _ ?%not_elem_of_nil|]. cbn [map]. intros [Hz Hnd]%list.NoDup_cons.
  intros [->|Hx]%elem_of_cons [->|Hy]%elem_of_cons Hf; [done| | |by apply IH].
  - exfalso. apply Hz. rewrite Hf. by apply list_elem_of_fmap_2.
  - exfalso. apply Hz. rewrite <- Hf. by apply list_elem_of_fmap_2.
Qed.

Lemma Forall2_exists_list {A B} (P : A -> B -> Prop) (Q : B -> Prop) (l : list A) :
  (forall x, x ∈ l -> exists y, P x y /\ Q y) -> exists l', Forall2 P l l' /\ Forall Q l'.
Proof.
  induction l as [|x l IH]; intros Hl; [exists []; split; constructor|].
  destruct (Hl x ltac:(left)) as (y & Hy & Hq). destruct IH as (l' & Hp & Hqs); [intros z Hz; apply Hl; by right|].
  exists (y :: l'). split; by constructor.
Qed.

Lemma Forall_rev_iff {A} (P : A -> Prop) (l : list A) : Forall P (rev l) <-> Forall P l.
Proof.
  rewrite !Forall_forall. split; intros H x Hx; apply H; [by apply in_rev in Hx|by apply in_rev].
Qed.

#[export] Hint Resolve len_nonneg : lorepia.
#[export] Hint Rewrite @len_nil @len_cons @len_app : lorepia.

(** Normalise lengths and close arithmetic goals about them. *)
Ltac len_lia :=
  repeat match goal with
  | |- context [len ?l] => lazymatch goal with
      | _ : 0 <= len l |- _ => fail
      | _ => pose proof (len_nonneg l) end
  end;
  autorewrite with lorepia in *; lia.
