(* ===== verification/Sorting.v ===== *)
(** * Comparison functions and sorting

    [Ordering::then_with] and [sort_unstable_by] as the crates use them: an
    insertion sort by a comparison function.  Sorting gives a sorted permutation,
    and when no two elements compare equal the result does not depend on the
    algorithm or on the order of the input. *)

From stdpp Require Import sorting.
From S2P Require Import Prelude.

(** [Ordering::then_with]. *)
Definition then_with (a b : comparison) : comparison := match a with Eq => b | _ => a end.

Fixpoint sort_insert {A} (cmp : A -> A -> comparison) (item : A) (sorted : list A) :
    list A :=
  match sorted with
  | [] => [item]
  | y :: rest =>
      match cmp item y with
      | Gt => y :: sort_insert cmp item rest
      | _ => item :: y :: rest
      end
  end.

Definition sort_by {A} (cmp : A -> A -> comparison) (l : list A) : list A :=
  foldr (sort_insert cmp) [] l.

(** ** Comparison functions *)

Class Comparison {A} (cmp : A -> A -> comparison) : Prop := {
  cmp_antisym a b : cmp a b = CompOpp (cmp b a);
  cmp_trans a b c : cmp a b = Lt -> cmp b c = Lt -> cmp a c = Lt;
  cmp_eq_l a b c : cmp a b = Eq -> cmp a c = cmp b c;
}.

Lemma Z_compare_cmp {A} (f : A -> Z) : Comparison (fun a b => Z.compare (f a) (f b)).
Proof.
  split.
  - intros a b. apply Z.compare_antisym.
  - intros a b c. rewrite !Z.compare_lt_iff. lia.
  - intros a b c ->%Z.compare_eq. done.
Qed.

Lemma flip_cmp {A} (cmp : A -> A -> comparison) `{!Comparison cmp} :
  Comparison (fun a b => cmp b a).
Proof.
  split.
  - intros a b. apply cmp_antisym.
  - intros a b c Hab Hbc. by eapply cmp_trans.
  - intros a b c He. rewrite (cmp_antisym c a), (cmp_antisym c b). f_equal.
    symmetry. by apply cmp_eq_l.
Qed.

Lemma then_with_cmp {A} (f g : A -> A -> comparison)
    `{!Comparison f, !Comparison g} :
  Comparison (fun a b => then_with (f a b) (g a b)).
Proof.
  split.
  - intros a b. rewrite (cmp_antisym (cmp := f) a b), (cmp_antisym (cmp := g) a b).
    by destruct (f b a).
  - intros a b c. unfold then_with.
    destruct (f a b) eqn:Hab; try done; destruct (f b c) eqn:Hbc; try done; intros Hg Hg'.
    + rewrite (cmp_eq_l (cmp := f) a b c), Hbc by done. by eapply cmp_trans.
    + by rewrite (cmp_eq_l (cmp := f) a b c), Hbc.
    + pose proof (cmp_eq_l (cmp := f) b c a Hbc) as He.
      rewrite (cmp_antisym (cmp := f) a c), <- He, <- (cmp_antisym (cmp := f) a b), Hab. done.
    + by rewrite (cmp_trans (cmp := f) a b c).
  - intros a b c. unfold then_with. destruct (f a b) eqn:Hab; try done. intros Hg.
    rewrite (cmp_eq_l (cmp := f) a b c), (cmp_eq_l (cmp := g) a b c) by done. done.
Qed.

Lemma then_with_Eq a b : then_with a b = Eq <-> a = Eq /\ b = Eq.
Proof. destruct a; cbn; intuition congruence. Qed.

(** ** Sorting *)

Section sorting.
Context {A : Type} (cmp : A -> A -> comparison) `{!Comparison cmp}.

Definition cmp_le (a b : A) : Prop := cmp a b <> Gt.

Lemma sort_insert_perm x l : sort_insert cmp x l ≡ₚ x :: l.
Proof.
  induction l as [|y l IH]; cbn [sort_insert]; [done|]. destruct (cmp x y); try done.
  rewrite IH. apply Permutation_swap.
Qed.

Lemma sort_by_perm l : sort_by cmp l ≡ₚ l.
Proof.
  induction l as [|x l IH]; [done|]. cbn [sort_by foldr]. rewrite sort_insert_perm.
  by constructor.
Qed.

#[local] Instance cmp_le_trans : Transitive cmp_le.
Proof.
  intros a b c. unfold cmp_le. intros Hab Hbc.
  destruct (cmp a b) eqn:E1; [by rewrite (cmp_eq_l a b c)| |done].
  destruct (cmp b c) eqn:E2; [|by rewrite (cmp_trans a b c)|done].
  rewrite cmp_antisym, <- (cmp_eq_l b c a), <- cmp_antisym, E1 by done. done.
Qed.

Lemma sort_insert_sorted x l :
  StronglySorted cmp_le l -> StronglySorted cmp_le (sort_insert cmp x l).
Proof.
  induction 1 as [|y l Hs IH Hall]; cbn [sort_insert]; [by repeat constructor|].
  assert (Hle : cmp_le x y -> StronglySorted cmp_le (x :: y :: l)).
  { intros Hxy. constructor; [by constructor|]. constructor; [done|].
    eapply Forall_impl; [|exact Hall]. intros z Hz. by transitivity y. }
  destruct (cmp x y) eqn:Hc.
  - apply Hle. unfold cmp_le. congruence.
  - apply Hle. unfold cmp_le. congruence.
  - constructor; [done|]. rewrite sort_insert_perm. constructor; [|done].
    unfold cmp_le. rewrite cmp_antisym, Hc. done.
Qed.

Lemma sort_by_sorted l : StronglySorted cmp_le (sort_by cmp l).
Proof. induction l; [constructor|]. by apply sort_insert_sorted. Qed.

(** Two arrangements of the same distinct elements sort to the same list. *)
Lemma sort_by_unique l1 l2 :
  l1 ≡ₚ l2 -> (forall a b, a ∈ l1 -> b ∈ l1 -> cmp a b = Eq -> a = b) ->
  sort_by cmp l1 = sort_by cmp l2.
Proof.
  intros Hp Heq. eapply (StronglySorted_unique_strong cmp_le).
  - intros a b Ha Hb. unfold cmp_le. rewrite (cmp_antisym (cmp := cmp) b a). intros Hab Hba.
    apply Heq.
    + by rewrite sort_by_perm in Ha.
    + by rewrite sort_by_perm, <- Hp in Hb.
    + by destruct (cmp a b).
  - apply sort_by_sorted.
  - apply sort_by_sorted.
  - by rewrite !sort_by_perm.
Qed.
End sorting.

(** Sorting indexes by what they point at sorts what they point at. *)
Lemma sort_by_map {A B} (cmpA : A -> A -> comparison) (cmpB : B -> B -> comparison)
    (f : A -> option B) l :
  (forall a b x y, f a = Some x -> f b = Some y -> cmpA a b = cmpB x y) ->
  (forall a, a ∈ l -> is_Some (f a)) ->
  omap f (sort_by cmpA l) = sort_by cmpB (omap f l).
Proof.
  intros Hcmp. induction l as [|a l IH]; intros Hl; [done|].
  destruct (Hl a) as [x Hx]; [left|]. cbn [sort_by foldr].
  change (foldr (sort_insert cmpA) [] l) with (sort_by cmpA l).
  assert (Hin : forall b, b ∈ sort_by cmpA l -> is_Some (f b)).
  { intros b Hb. apply Hl. right. by rewrite sort_by_perm in Hb. }
  cbn [omap list_omap]. rewrite Hx. cbn [sort_by foldr].
  change (foldr (sort_insert cmpB) [] (omap f l)) with (sort_by cmpB (omap f l)).
  rewrite <- IH by (intros b Hb; apply Hl; by right). clear IH Hl.
  induction (sort_by cmpA l) as [|b s IHs]; cbn [sort_insert].
  { cbn. by rewrite Hx. }
  destruct (Hin b) as [y Hy]; [left|].
  assert (Hs : omap f (b :: s) = y :: omap f s) by (cbn; by rewrite Hy).
  rewrite Hs. cbn [sort_insert]. rewrite (Hcmp a b x y) by done.
  destruct (cmpB x y); cbn [omap list_omap]; rewrite ?Hx, ?Hy; try done.
  rewrite IHs; [done|]. intros c Hc. apply Hin. by right.
Qed.
