(* ===== verification/Bytes.v ===== *)
(** * Bytes and byte strings

    A Rust [u8] is an [ascii] (eight bits, so its range is built in); [Vec<u8>],
    [&[u8]] and the UTF-8 contents of a [String] or [&str] are lists of them.
    The file models the byte and [str] operations of the standard library that
    the crates call: ASCII classes, prefix/suffix/substring tests, [split_once],
    [split], the byte-wise [Ord], and the fixed-width integer encodings
    [to_le_bytes] and [to_be_bytes]. *)

From S2P Require Import Prelude Sorting.

Abbreviation byte := ascii.
Abbreviation bytes := (list ascii).
Abbreviation str := (list ascii).

(** A string literal of the source. *)
Definition lit (s : string) : str := String.list_ascii_of_string s.

Definition byte_val (b : byte) : Z := Z.of_N (N_of_ascii b).
Definition byte_of (z : Z) : byte := ascii_of_N (Z.to_N z).

Definition byte_eqb (a b : byte) : bool := Ascii.eqb a b.

Fixpoint str_eqb (a b : str) : bool :=
  match a, b with
  | [], [] => true
  | x :: a', y :: b' => byte_eqb x y && str_eqb a' b'
  | _, _ => false
  end.

Definition is_empty {A} (l : list A) : bool :=
  match l with [] => true | _ => false end.

(** ** ASCII classes *)

Definition in_range (b : byte) (lo hi : Z) : bool :=
  (lo <=? byte_val b) && (byte_val b <=? hi).

Definition is_ascii_digit (b : byte) : bool := in_range b 48 57.
Definition is_ascii_uppercase (b : byte) : bool := in_range b 65 90.
Definition is_ascii_lowercase (b : byte) : bool := in_range b 97 122.
Definition is_ascii_alphabetic (b : byte) : bool :=
  is_ascii_uppercase b || is_ascii_lowercase b.
Definition is_ascii_alphanumeric (b : byte) : bool :=
  is_ascii_alphabetic b || is_ascii_digit b.

Definition to_ascii_lowercase_byte (b : byte) : byte :=
  if is_ascii_uppercase b then byte_of (byte_val b + 32) else b.
Definition to_ascii_lowercase (s : str) : str := map to_ascii_lowercase_byte s.

(** [matches!(byte, b'a' | b'b' | ...)] against the characters of a literal. *)
Definition one_of (chars : string) (b : byte) : bool :=
  existsb (byte_eqb b) (lit chars).

Definition SLASH : byte := byte_of 47.

(** ** Searching and splitting *)

Fixpoint starts_with (s prefix : str) : bool :=
  match prefix, s with
  | [], _ => true
  | p :: prefix', c :: s' => byte_eqb c p && starts_with s' prefix'
  | _ :: _, [] => false
  end.

Definition ends_with (s suffix : str) : bool := starts_with (rev s) (rev suffix).

(** [str::contains(&str)]. *)
Fixpoint contains (s needle : str) : bool :=
  starts_with s needle ||
  match s with [] => false | _ :: s' => contains s' needle end.

(** [iter().position(|byte| *byte == c)] together with the two slices around
    the position: what precedes the first [c] and what follows it.  This is also
    [str::split_once(c)] for an ASCII [c]. *)
Fixpoint split_once (c : byte) (s : str) : option (str * str) :=
  match s with
  | [] => None
  | x :: s' =>
      if byte_eqb x c then Some ([], s')
      else match split_once c s' with
           | Some (before, after) => Some (x :: before, after)
           | None => None
           end
  end.

(** [str::split(c)]: always at least one piece. *)
Fixpoint split_on (c : byte) (s : str) : list str :=
  match s with
  | [] => [[]]
  | x :: s' =>
      if byte_eqb x c then [] :: split_on c s'
      else match split_on c s' with
           | piece :: rest => (x :: piece) :: rest
           | [] => [[x]]
           end
  end.

(** [&content[start..end]] *)
Definition slice (content : str) (start stop : nat) : str := take (stop - start) (drop start content).

(** [[String]::join(sep)]. *)
Fixpoint join (sep : str) (pieces : list str) : str :=
  match pieces with
  | [] => []
  | [p] => p
  | p :: rest => p ++ sep ++ join sep rest
  end.

(** ** The byte-wise order of [str] *)

Fixpoint str_cmp (a b : str) : comparison :=
  match a with
  | [] => if b is [] then Eq else Lt
  | x :: a' =>
      match b with
      | [] => Gt
      | y :: b' =>
          match byte_val x ?= byte_val y with
          | Eq => str_cmp a' b'
          | different => different
          end
      end
  end.

(** ** Fixed-width integer encodings *)

(** [n] bytes, least significant first. *)
Fixpoint le_bytes (n : nat) (z : Z) : bytes :=
  match n with
  | O => []
  | S n' => byte_of (z mod 256) :: le_bytes n' (z / 256)
  end.

(** [u64::to_le_bytes] and [u64::to_be_bytes]. *)
Definition u64_to_le_bytes (z : Z) : bytes := le_bytes 8 z.
Definition u64_to_be_bytes (z : Z) : bytes := rev (le_bytes 8 z).

(** [u64::from_le_bytes]. *)
Fixpoint from_le_bytes (bs : bytes) : Z :=
  match bs with
  | [] => 0
  | b :: bs' => byte_val b + 256 * from_le_bytes bs'
  end.

(** ** Lemmas *)

Lemma byte_val_range b : 0 <= byte_val b < 256.
Proof.
  unfold byte_val. pose proof (N_ascii_bounded b). lia.
Qed.

Lemma byte_of_val b : byte_of (byte_val b) = b.
Proof. unfold byte_of, byte_val. rewrite N2Z.id. apply ascii_N_embedding. Qed.

Lemma byte_val_of z : 0 <= z < 256 -> byte_val (byte_of z) = z.
Proof.
  intros. unfold byte_of, byte_val. rewrite N_ascii_embedding by lia. lia.
Qed.

Lemma byte_val_inj a b : byte_val a = byte_val b -> a = b.
Proof. intros H. rewrite <- (byte_of_val a), <- (byte_of_val b). by rewrite H. Qed.

Lemma byte_eqb_eq a b : byte_eqb a b = true <-> a = b.
Proof. apply Ascii.eqb_eq. Qed.

Lemma byte_eqb_neq a b : byte_eqb a b = false <-> a <> b.
Proof. apply Ascii.eqb_neq. Qed.

Lemma byte_eqb_refl a : byte_eqb a a = true.
Proof. by apply byte_eqb_eq. Qed.

Lemma str_eqb_eq a b : str_eqb a b = true <-> a = b.
Proof.
  revert b. induction a as [|x a IH]; intros [|y b]; simpl; try done.
  rewrite andb_true_iff, byte_eqb_eq, IH. split; [intros [-> ->]; done | by intros [= -> ->]].
Qed.

Lemma str_eqb_refl a : str_eqb a a = true.
Proof. by apply str_eqb_eq. Qed.

Lemma str_eqb_neq a b : str_eqb a b = false <-> a <> b.
Proof. rewrite <- str_eqb_eq. destruct (str_eqb a b); split; congruence. Qed.

Lemma is_empty_true {A} (l : list A) : is_empty l = true <-> l = [].
Proof. by destruct l. Qed.

Lemma is_empty_false {A} (l : list A) : is_empty l = false <-> l <> [].
Proof. by destruct l. Qed.

#[export] Hint Rewrite byte_eqb_refl str_eqb_refl : lorepia.

Lemma starts_with_app s p : starts_with s p = true <-> exists t, s = p ++ t.
Proof.
  revert s. induction p as [|x p IH]; intros s; simpl.
  { split; [intros _; by exists s | by destruct s]. }
  destruct s as [|c s]; simpl.
  { split; [done | intros [t ?]; done]. }
  rewrite andb_true_iff, byte_eqb_eq, IH.
  split; [intros [-> [t ->]]; eauto | intros [t [= -> ->]]; eauto].
Qed.

Lemma ends_with_app s suffix : ends_with (s ++ suffix) suffix = true.
Proof. unfold ends_with. rewrite rev_app_distr. apply starts_with_app. by eexists. Qed.

(** [contains] finds exactly the substrings. *)
Lemma contains_spec s n :
  contains s n = true <-> exists before after, s = before ++ n ++ after.
Proof.
  induction s as [|c s IH]; cbn [contains].
  - rewrite orb_false_r, starts_with_app. split.
    + intros [t Ht]. by exists [], t.
    + intros (b & a & H). destruct b; [|done]. by exists a.
  - rewrite orb_true_iff, starts_with_app, IH. split.
    + intros [[t ->] | (b & a & ->)]; [by exists [], t | by exists (c :: b), a].
    + intros (b & a & H). destruct b as [|? b]; simplify_eq/=; eauto.
Qed.

Lemma contains_byte s c : contains s [c] = true <-> c ∈ s.
Proof.
  rewrite contains_spec. split.
  - intros (a & b & ->). rewrite !elem_of_app. right; left. left.
  - intros (a & b & ->)%list_elem_of_split. by exists a, b.
Qed.

Lemma split_once_Some c s before after :
  split_once c s = Some (before, after) -> s = before ++ c :: after.
Proof.
  revert before after. induction s as [|x s IH]; intros before after; simpl; [done|].
  destruct (byte_eqb x c) eqn:Hx.
  - apply byte_eqb_eq in Hx. intros [= <- <-]. by subst.
  - destruct (split_once c s) as [[b a]|]; [|done].
    intros [= <- <-]. simpl. by rewrite (IH b a).
Qed.

Lemma split_once_no c s before after :
  split_once c s = Some (before, after) -> c ∉ before.
Proof.
  revert before after. induction s as [|x s IH]; intros before after; simpl; [done|].
  destruct (byte_eqb x c) eqn:Hx.
  - intros [= <- <-]. apply not_elem_of_nil.
  - apply byte_eqb_neq in Hx.
    destruct (split_once c s) as [[b a]|]; [|done].
    intros [= <- <-]. apply not_elem_of_cons. split; [done | by eapply IH].
Qed.

Lemma split_once_None c s : split_once c s = None <-> c ∉ s.
Proof.
  induction s as [|x s IH]; simpl.
  { split; [intros _; apply not_elem_of_nil | done]. }
  rewrite not_elem_of_cons.
  destruct (byte_eqb x c) eqn:Hx.
  - apply byte_eqb_eq in Hx. subst. naive_solver.
  - apply byte_eqb_neq in Hx. destruct (split_once c s) as [[b a]|] eqn:Hs; naive_solver.
Qed.

(** Splitting is determined by the first occurrence. *)
Lemma split_once_app c before after :
  c ∉ before -> split_once c (before ++ c :: after) = Some (before, after).
Proof.
  induction before as [|x before IH]; simpl; intros Hc.
  - by rewrite byte_eqb_refl.
  - apply not_elem_of_cons in Hc as [Hx Hc].
    rewrite (proj2 (byte_eqb_neq x c)) by congruence. by rewrite IH.
Qed.

Lemma split_once_length c s before after :
  split_once c s = Some (before, after) -> (length after < length s)%nat.
Proof.
  intros H%split_once_Some. subst. rewrite length_app. simpl. lia.
Qed.

Lemma split_once_app_Some c a b before after :
  split_once c a = Some (before, after) ->
  split_once c (a ++ b) = Some (before, after ++ b).
Proof.
  intros H. pose proof (split_once_no _ _ _ _ H). apply split_once_Some in H. subst.
  rewrite <- app_assoc. by apply split_once_app.
Qed.

Lemma split_once_app_None c a b :
  split_once c a = None ->
  split_once c (a ++ b) =
  match split_once c b with
  | Some (before, after) => Some (a ++ before, after)
  | None => None
  end.
Proof.
  rewrite split_once_None. intros Ha.
  destruct (split_once c b) as [[before after]|] eqn:Hb.
  - pose proof (split_once_no _ _ _ _ Hb). apply split_once_Some in Hb. subst.
    rewrite app_assoc. apply split_once_app. set_solver.
  - rewrite split_once_None in *. set_solver.
Qed.

(** *** The order is total *)

Lemma str_cmp_refl a : str_cmp a a = Eq.
Proof. induction a; simpl; [done|]. by rewrite Z.compare_refl. Qed.

Lemma str_cmp_eq a b : str_cmp a b = Eq <-> a = b.
Proof.
  split; [|intros ->; apply str_cmp_refl].
  revert b. induction a as [|x a IH]; intros [|y b]; simpl; try done.
  destruct (byte_val x ?= byte_val y) eqn:H; try done.
  apply Z.compare_eq in H. apply byte_val_inj in H. intros ?%IH. by subst.
Qed.

Lemma str_cmp_antisym a b : str_cmp a b = CompOpp (str_cmp b a).
Proof.
  revert b. induction a as [|x a IH]; intros [|y b]; simpl; try done.
  rewrite (Z.compare_antisym (byte_val y) (byte_val x)).
  destruct (byte_val y ?= byte_val x); simpl; auto.
Qed.

Lemma str_cmp_trans a b c : str_cmp a b = Lt -> str_cmp b c = Lt -> str_cmp a c = Lt.
Proof.
  revert b c. induction a as [|x a IH]; intros [|y b] [|z c]; simpl; try done.
  destruct (Z.compare_spec (byte_val x) (byte_val y));
  destruct (Z.compare_spec (byte_val y) (byte_val z)); try done; intros;
  destruct (Z.compare_spec (byte_val x) (byte_val z)); try done; try lia; eauto.
Qed.

(** *** Integer encodings *)

Lemma str_cmp_cmp {A} (f : A -> str) : Comparison (fun a b => str_cmp (f a) (f b)).
Proof.
  split.
  - intros a b. apply str_cmp_antisym.
  - intros a b c. apply str_cmp_trans.
  - intros a b c ->%str_cmp_eq. done.
Qed.

Lemma length_le_bytes n z : length (le_bytes n z) = n.
Proof. revert z. induction n; simpl; intros; auto. Qed.

Lemma from_le_bytes_range bs : 0 <= from_le_bytes bs < 256 ^ len bs.
Proof.
  induction bs as [|b bs IH]; [done|]. cbn [from_le_bytes].
  rewrite len_cons, Z.pow_add_r by (pose proof (len_nonneg bs); lia).
  pose proof (byte_val_range b). lia.
Qed.

Lemma le_bytes_round_trip n z :
  from_le_bytes (le_bytes n z) = z mod 256 ^ Z.of_nat n.
Proof.
  revert z. induction n as [|n IH]; intros z; cbn [le_bytes from_le_bytes].
  { by rewrite Z.mod_1_r. }
  rewrite IH, byte_val_of by (apply Z.mod_pos_bound; lia).
  rewrite Nat2Z.inj_succ, Z.pow_succ_r by lia.
  rewrite (Z.rem_mul_r z 256) by lia. lia.
Qed.

Lemma le_bytes_inj n z1 z2 :
  0 <= z1 < 256 ^ Z.of_nat n -> 0 <= z2 < 256 ^ Z.of_nat n ->
  le_bytes n z1 = le_bytes n z2 -> z1 = z2.
Proof.
  intros H1 H2 H. apply (f_equal from_le_bytes) in H.
  rewrite !le_bytes_round_trip, !Z.mod_small in H by done. done.
Qed.

Lemma u64_to_le_bytes_length z : length (u64_to_le_bytes z) = 8%nat.
Proof. apply length_le_bytes. Qed.

Lemma u64_to_be_bytes_length z : length (u64_to_be_bytes z) = 8%nat.
Proof. unfold u64_to_be_bytes. rewrite length_rev. apply length_le_bytes. Qed.

Definition is_u64 (z : Z) : Prop := 0 <= z <= U64_MAX.

Lemma u64_to_le_bytes_inj z1 z2 :
  is_u64 z1 -> is_u64 z2 -> u64_to_le_bytes z1 = u64_to_le_bytes z2 -> z1 = z2.
Proof. unfold is_u64, U64_MAX. intros ??. apply le_bytes_inj; simpl; lia. Qed.

Lemma u64_to_be_bytes_inj z1 z2 :
  is_u64 z1 -> is_u64 z2 -> u64_to_be_bytes z1 = u64_to_be_bytes z2 -> z1 = z2.
Proof.
  unfold u64_to_be_bytes. intros ?? H. apply (f_equal (@rev _)) in H.
  rewrite !rev_involutive in H. by apply u64_to_le_bytes_inj.
Qed.

(** ** Splitting at every separator *)

Lemma join_snoc sep l (x : str) :
  join sep (l ++ [x]) = join sep l ++ (if is_empty l then [] else sep) ++ x.
Proof.
  induction l as [|y l IH]; [done|]. destruct l as [|z l]; [done|].
  cbn [app join] in *. rewrite IH. cbn [is_empty]. by rewrite <- !app_assoc.
Qed.

Lemma split_on_no c s : c ∉ s -> split_on c s = [s].
Proof.
  induction s as [|x s IH]; intros Hc; [done|]. rewrite not_elem_of_cons in Hc.
  destruct Hc as [Hx Hs]. cbn [split_on].
  replace (byte_eqb x c) with false by (symmetry; apply byte_eqb_neq; congruence).
  by rewrite IH.
Qed.

Lemma join_split_on c s : join [c] (split_on c s) = s.
Proof.
  induction s as [|x s IH]; cbn [split_on]; [done|].
  destruct (split_on c s) as [|p rest] eqn:Hs.
  { by destruct s as [|y s']; cbn [split_on] in Hs; repeat case_match. }
  destruct (byte_eqb x c) eqn:Hx.
  - apply byte_eqb_eq in Hx as ->. change (c :: join [c] (p :: rest) = c :: s). by rewrite IH.
  - destruct rest as [|q rest]; cbn [join] in *; by rewrite <- IH.
Qed.

Lemma split_on_app c a b : c ∉ a -> split_on c (a ++ c :: b) = a :: split_on c b.
Proof.
  induction a as [|x a IH]; intros Hc; cbn [app split_on].
  { by rewrite byte_eqb_refl. }
  rewrite not_elem_of_cons in Hc. destruct Hc as [Hx Ha].
  replace (byte_eqb x c) with false by (symmetry; apply byte_eqb_neq; congruence).
  by rewrite IH.
Qed.

Lemma slice_split content a b c :
  (a <= b <= c)%nat -> slice content a b ++ slice content b c = slice content a c.
Proof.
  intros Hab. unfold slice. replace (c - a)%nat with ((b - a) + (c - b))%nat by lia.
  rewrite <- take_take_drop, drop_drop. do 2 f_equal. f_equal. lia.
Qed.
