(* ===== verification/Utf8.v ===== *)
(** * UTF-8

    Rust's [str] is valid UTF-8.  The file models [String::from_utf8] /
    [str::from_utf8] (the validity automaton of the standard library, table 3-7
    of the Unicode standard), [str::chars], the encoding of a [char],
    [str::is_char_boundary], [char::is_whitespace] and [str::trim], and shows
    that decoding and encoding are inverse and that cutting at a character
    boundary keeps a string valid. *)

From S2P Require Import Prelude Bytes.

(** ** Code points *)

(** A [char] is a Unicode scalar value. *)
Definition is_scalar (c : Z) : Prop := 0 <= c < 55296 \/ 57344 <= c < 1114112.

#[export] Instance is_scalar_dec c : Decision (is_scalar c).
Proof. unfold is_scalar. apply _. Defined.

Definition utf8_encode_char (c : Z) : bytes :=
  if c <? 128 then [byte_of c]
  else if c <? 2048 then
    [byte_of (192 + c / 64); byte_of (128 + c mod 64)]
  else if c <? 65536 then
    [byte_of (224 + c / 4096); byte_of (128 + c / 64 mod 64); byte_of (128 + c mod 64)]
  else
    [byte_of (240 + c / 262144); byte_of (128 + c / 4096 mod 64);
     byte_of (128 + c / 64 mod 64); byte_of (128 + c mod 64)].

Definition utf8_encode (cs : list Z) : bytes := concat (map utf8_encode_char cs).

(** A continuation byte, [0b10xxxxxx]. *)
Definition is_cont (b : byte) : bool := in_range b 128 191.

(** Which second byte may follow a three- or four-byte lead. *)
Definition second_ok (v0 : Z) (b1 : byte) : bool :=
  if v0 =? 224 then in_range b1 160 191
  else if v0 =? 237 then in_range b1 128 159
  else if v0 =? 240 then in_range b1 144 191
  else if v0 =? 244 then in_range b1 128 143
  else is_cont b1.

Definition cont_bits (b : byte) : Z := byte_val b - 128.

(** [str::from_utf8] and [str::chars] at once: the scalar values, or nothing
    when the bytes are not UTF-8. *)
Fixpoint utf8_decode (s : bytes) : option (list Z) :=
  match s with
  | [] => Some []
  | b0 :: s1 =>
      let v0 := byte_val b0 in
      if v0 <? 128 then cons v0 <$> utf8_decode s1
      else match s1 with
      | [] => None
      | b1 :: s2 =>
          if (194 <=? v0) && (v0 <=? 223) then
            if is_cont b1
            then cons ((v0 - 192) * 64 + cont_bits b1) <$> utf8_decode s2
            else None
          else match s2 with
          | [] => None
          | b2 :: s3 =>
              if (224 <=? v0) && (v0 <=? 239) then
                if second_ok v0 b1 && is_cont b2
                then cons ((v0 - 224) * 4096 + cont_bits b1 * 64 + cont_bits b2)
                       <$> utf8_decode s3
                else None
              else match s3 with
              | [] => None
              | b3 :: s4 =>
                  if (240 <=? v0) && (v0 <=? 244) then
                    if second_ok v0 b1 && is_cont b2 && is_cont b3
                    then cons ((v0 - 240) * 262144 + cont_bits b1 * 4096
                               + cont_bits b2 * 64 + cont_bits b3)
                           <$> utf8_decode s4
                    else None
                  else None
              end
          end
      end
  end.

Definition utf8_valid (s : bytes) : Prop := is_Some (utf8_decode s).

#[export] Instance utf8_valid_dec s : Decision (utf8_valid s).
Proof. unfold utf8_valid. apply _. Defined.

(** [String::from_utf8]: the same bytes, or an error. *)
Definition from_utf8 {E} (s : bytes) (e : E) : result E str :=
  match utf8_decode s with Some _ => Ok s | None => Err e end.

(** [String::from_utf8_lossy]: every maximal invalid sequence becomes U+FFFD. *)
Definition REPLACEMENT : bytes := [byte_of 239; byte_of 191; byte_of 189].

Fixpoint from_utf8_lossy (s : bytes) : str :=
  match s with
  | [] => []
  | b0 :: s1 =>
      let v0 := byte_val b0 in
      if v0 <? 128 then b0 :: from_utf8_lossy s1
      else if (194 <=? v0) && (v0 <=? 223) then
        match s1 with
        | b1 :: s2 =>
            if is_cont b1 then b0 :: b1 :: from_utf8_lossy s2
            else REPLACEMENT ++ from_utf8_lossy s1
        | [] => REPLACEMENT
        end
      else if (224 <=? v0) && (v0 <=? 239) then
        match s1 with
        | b1 :: s2 =>
            if second_ok v0 b1 then
              match s2 with
              | b2 :: s3 =>
                  if is_cont b2 then b0 :: b1 :: b2 :: from_utf8_lossy s3
                  else REPLACEMENT ++ from_utf8_lossy s2
              | [] => REPLACEMENT
              end
            else REPLACEMENT ++ from_utf8_lossy s1
        | [] => REPLACEMENT
        end
      else if (240 <=? v0) && (v0 <=? 244) then
        match s1 with
        | b1 :: s2 =>
            if second_ok v0 b1 then
              match s2 with
              | b2 :: s3 =>
                  if is_cont b2 then
                    match s3 with
                    | b3 :: s4 =>
                        if is_cont b3 then b0 :: b1 :: b2 :: b3 :: from_utf8_lossy s4
                        else REPLACEMENT ++ from_utf8_lossy s3
                    | [] => REPLACEMENT
                    end
                  else REPLACEMENT ++ from_utf8_lossy s2
              | [] => REPLACEMENT
              end
            else REPLACEMENT ++ from_utf8_lossy s1
        | [] => REPLACEMENT
        end
      else REPLACEMENT ++ from_utf8_lossy s1
  end.

(** [str::chars], on a string that is valid UTF-8 (the only strings there are;
    other byte lists have no characters). *)
Definition chars (s : str) : list Z := default [] (utf8_decode s).

(** [str::is_char_boundary]. *)
Definition is_char_boundary (s : str) (n : nat) : bool :=
  match n with
  | O => true
  | S _ =>
      match s !! n with
      | Some b => negb (is_cont b)
      | None => Nat.eqb n (length s)
      end
  end.

(** [char::is_whitespace]: the Unicode property White_Space. *)
Definition is_whitespace (c : Z) : bool :=
  ((9 <=? c) && (c <=? 13)) || (c =? 32) || (c =? 133) || (c =? 160) ||
  (c =? 5760) || ((8192 <=? c) && (c <=? 8202)) || (c =? 8232) || (c =? 8233) ||
  (c =? 8239) || (c =? 8287) || (c =? 12288).

(** [char::is_control]: the general category Cc. *)
Definition is_control (c : Z) : bool := (c <? 32) || ((127 <=? c) && (c <=? 159)).

Fixpoint drop_whitespace (cs : list Z) : list Z :=
  match cs with
  | [] => []
  | c :: cs' => if is_whitespace c then drop_whitespace cs' else cs
  end.

(** [str::trim]. *)
Definition trim_chars (cs : list Z) : list Z :=
  rev (drop_whitespace (rev (drop_whitespace cs))).
Definition trim (s : str) : str := utf8_encode (trim_chars (chars s)).

(** ** Lemmas *)

#[local] Ltac Zify.zify_post_hook ::= Z.to_euclidean_division_equations.

Ltac utf8_bytes :=
  repeat match goal with
  | |- context [byte_val (byte_of ?z)] => rewrite (byte_val_of z) by lia
  | b : ascii |- _ =>
      lazymatch goal with
      | _ : 0 <= byte_val b < 256 |- _ => fail
      | _ => pose proof (byte_val_range b)
      end
  end.

Ltac utf8_if :=
  repeat match goal with
  | |- context [if ?c then _ else _] =>
      first [ replace c with true by (symmetry; unfold second_ok, is_cont, in_range;
                repeat case_match; utf8_bytes; lia)
            | replace c with false by (symmetry; unfold second_ok, is_cont, in_range;
                repeat case_match; utf8_bytes; lia) ]
  end.

Lemma utf8_decode_encode_char c s :
  is_scalar c ->
  utf8_decode (utf8_encode_char c ++ s) = cons c <$> utf8_decode s.
Proof.
  intros Hc. unfold utf8_encode_char, is_scalar in *.
  destruct (Z.ltb_spec c 128); [|destruct (Z.ltb_spec c 2048);
    [|destruct (Z.ltb_spec c 65536)]];
  cbn [app utf8_decode]; unfold cont_bits; utf8_bytes; utf8_if;
  (f_equal; f_equal; lia).
Qed.

Lemma utf8_encode_cons c cs : utf8_encode (c :: cs) = utf8_encode_char c ++ utf8_encode cs.
Proof. done. Qed.

Lemma utf8_encode_app cs1 cs2 : utf8_encode (cs1 ++ cs2) = utf8_encode cs1 ++ utf8_encode cs2.
Proof. unfold utf8_encode. by rewrite map_app, concat_app. Qed.

(** Decoding an encoding gives the characters back. *)
Lemma utf8_decode_encode cs :
  Forall is_scalar cs -> utf8_decode (utf8_encode cs) = Some cs.
Proof.
  induction 1 as [|c cs Hc _ IH]; [done|].
  by rewrite utf8_encode_cons, utf8_decode_encode_char, IH.
Qed.

Lemma byte_of_eq b z : byte_val b = z -> b = byte_of z.
Proof. intros <-. by rewrite byte_of_val. Qed.

(** The bytes of a decoded character are its encoding: one lemma per width. *)
Ltac utf8_encoding :=
  unfold utf8_encode_char; utf8_if; cbn [app];
  repeat first [apply byte_of_eq; lia | f_equal].

Lemma encode_char_2 b0 b1 :
  194 <= byte_val b0 <= 223 -> 128 <= byte_val b1 <= 191 ->
  let c := (byte_val b0 - 192) * 64 + cont_bits b1 in
  is_scalar c /\ [b0; b1] = utf8_encode_char c.
Proof.
  unfold cont_bits, is_scalar. intros ??. split; [lia|]. utf8_encoding.
Qed.

Lemma encode_char_3 b0 b1 b2 :
  224 <= byte_val b0 <= 239 -> 128 <= byte_val b2 <= 191 ->
  second_ok (byte_val b0) b1 = true ->
  let c := (byte_val b0 - 224) * 4096 + cont_bits b1 * 64 + cont_bits b2 in
  is_scalar c /\ [b0; b1; b2] = utf8_encode_char c.
Proof.
  unfold cont_bits, is_scalar, second_ok, is_cont, in_range. intros ?? H.
  assert (128 <= byte_val b1 <= 191 /\ (byte_val b0 = 224 -> 160 <= byte_val b1) /\
          (byte_val b0 = 237 -> byte_val b1 <= 159)) as (?&?&?)
    by (repeat case_match; zify_bool; lia).
  clear H. split; [lia|]. utf8_encoding.
Qed.

Lemma encode_char_4 b0 b1 b2 b3 :
  240 <= byte_val b0 <= 244 -> 128 <= byte_val b2 <= 191 -> 128 <= byte_val b3 <= 191 ->
  second_ok (byte_val b0) b1 = true ->
  let c := (byte_val b0 - 240) * 262144 + cont_bits b1 * 4096 + cont_bits b2 * 64
           + cont_bits b3 in
  is_scalar c /\ [b0; b1; b2; b3] = utf8_encode_char c.
Proof.
  unfold cont_bits, is_scalar, second_ok, is_cont, in_range. intros ??? H.
  assert (128 <= byte_val b1 <= 191 /\ (byte_val b0 = 240 -> 144 <= byte_val b1) /\
          (byte_val b0 = 244 -> byte_val b1 <= 143)) as (?&?&?)
    by (repeat case_match; zify_bool; lia).
  clear H. split; [lia|]. utf8_encoding.
Qed.

Lemma is_cont_range b : is_cont b = true <-> 128 <= byte_val b <= 191.
Proof. unfold is_cont, in_range. lia. Qed.

(** One decoding step: the bytes consumed are the encoding of the character. *)
Lemma utf8_decode_step b s cs :
  utf8_decode (b :: s) = Some cs ->
  exists c cs' s', cs = c :: cs' /\ is_scalar c /\
    b :: s = utf8_encode_char c ++ s' /\ utf8_decode s' = Some cs'.
Proof.
  cbn [utf8_decode]. pose proof (byte_val_range b).
  destruct (Z.ltb_spec (byte_val b) 128) as [Hb|Hb].
  { intros (cs' & Hcs & ->)%fmap_Some. exists (byte_val b), cs', s.
    repeat split; [unfold is_scalar; lia | | done]. utf8_encoding. }
  destruct s as [|b1 s]; [done|].
  destruct ((194 <=? byte_val b) && (byte_val b <=? 223)) eqn:H2; zify_bool.
  { destruct (is_cont b1) eqn:H3; [|done]. apply is_cont_range in H3.
    intros (cs' & Hcs & ->)%fmap_Some.
    destruct (encode_char_2 b b1) as [Hs He]; [done..|].
    eexists _, cs', s. rewrite <- He. done. }
  destruct s as [|b2 s]; [done|].
  destruct ((224 <=? byte_val b) && (byte_val b <=? 239)) eqn:H4; zify_bool.
  { destruct (_ && _) eqn:H5 in |- *; [|done]. zify_bool.
    intros (cs' & Hcs & ->)%fmap_Some.
    destruct (encode_char_3 b b1 b2) as [Hs He]; [done| by apply is_cont_range | done|].
    eexists _, cs', s. rewrite <- He. done. }
  destruct s as [|b3 s]; [done|].
  destruct ((240 <=? byte_val b) && (byte_val b <=? 244)) eqn:H6; zify_bool; [|done].
  destruct (_ && _) eqn:H7 in |- *; [|done]. zify_bool.
  intros (cs' & Hcs & ->)%fmap_Some.
  destruct (encode_char_4 b b1 b2 b3) as [Hs He]; [done| by apply is_cont_range..|done|].
  eexists _, cs', s. rewrite <- He. done.
Qed.

Lemma utf8_encode_char_length c : (1 <= length (utf8_encode_char c) <= 4)%nat.
Proof. unfold utf8_encode_char. repeat case_match; simpl; lia. Qed.

(** Whatever decodes is the encoding of scalar values, and of those only. *)
Lemma utf8_encode_decode s cs :
  utf8_decode s = Some cs -> utf8_encode cs = s /\ Forall is_scalar cs.
Proof.
  remember (length s) as n eqn:Hn. revert s cs Hn.
  induction n as [n IH] using lt_wf_ind. intros s cs ->.
  destruct s as [|b s]; [intros [= <-]; done|].
  intros (c & cs' & s' & -> & Hc & Hs & Hd)%utf8_decode_step.
  rewrite Hs in *. destruct (IH (length s')) with (s := s') (cs := cs') as [He Hf]; auto.
  { rewrite length_app. pose proof (utf8_encode_char_length c). lia. }
  split; [by rewrite utf8_encode_cons, He | by constructor].
Qed.

Lemma utf8_valid_encode s : utf8_valid s <-> exists cs, Forall is_scalar cs /\ s = utf8_encode cs.
Proof.
  split.
  - intros [cs [<- ?]%utf8_encode_decode]. eauto.
  - intros (cs & Hcs & ->). exists cs. by apply utf8_decode_encode.
Qed.

Lemma utf8_valid_app s1 s2 : utf8_valid s1 -> utf8_valid s2 -> utf8_valid (s1 ++ s2).
Proof.
  rewrite !utf8_valid_encode. intros (c1 & ? & ->) (c2 & ? & ->).
  exists (c1 ++ c2). rewrite utf8_encode_app, Forall_app. done.
Qed.

(** Within an encoded character only the first byte is a boundary. *)
Lemma encode_char_boundary c :
  is_scalar c ->
  exists b0 rest, utf8_encode_char c = b0 :: rest /\ is_cont b0 = false /\
    Forall (fun b => is_cont b = true) rest.
Proof.
  unfold is_scalar, utf8_encode_char, is_cont, in_range. intros Hc.
  repeat case_match; zify_bool; eexists _, _; split_and!; try done;
    repeat constructor; utf8_bytes; lia.
Qed.

(** An ASCII byte of an encoded string is one of its characters. *)
Lemma encoded_ascii b cs :
  Forall is_scalar cs -> b ∈ utf8_encode cs -> byte_val b < 128 -> byte_val b ∈ cs.
Proof.
  intros Hcs Hb Hlt. induction Hcs as [|c cs Hc Hcs IH]; [by apply not_elem_of_nil in Hb|].
  rewrite utf8_encode_cons, elem_of_app in Hb. rewrite elem_of_cons.
  destruct Hb as [Hb|Hb]; [left|right; by apply IH].
  destruct (encode_char_boundary c Hc) as (b0 & rest & He & Hb0 & Hrest).
  rewrite He in Hb. apply elem_of_cons in Hb as [->|Hb].
  - unfold utf8_encode_char in He. unfold is_scalar in Hc.
    repeat case_match; zify_bool; injection He as <- _; revert Hlt; utf8_bytes; lia.
  - rewrite Forall_forall in Hrest. apply list_elem_of_In, Hrest, is_cont_range in Hb. lia.
Qed.

(** Cutting a valid string at a character boundary keeps it valid. *)
Lemma utf8_valid_take s n :
  utf8_valid s -> is_char_boundary s n = true -> utf8_valid (take n s).
Proof.
  rewrite utf8_valid_encode. intros (cs & Hcs & ->). revert n.
  induction Hcs as [|c cs Hc Hcs IH]; intros n Hn.
  { unfold utf8_encode; simpl. rewrite take_nil. by eexists. }
  rewrite utf8_encode_cons in *.
  destruct (encode_char_boundary c Hc) as (b0 & rest & He & Hb0 & Hrest).
  destruct (decide (length (utf8_encode_char c) <= n)%nat) as [Hle|Hlt].
  - rewrite take_app_ge by done. apply utf8_valid_app.
    + exists [c]. rewrite <- (app_nil_r (utf8_encode_char c)).
      by rewrite utf8_decode_encode_char.
    + apply IH. revert Hn. unfold is_char_boundary.
      rewrite lookup_app_r, length_app by done.
      destruct n as [|n]; [rewrite He in Hle; simpl in Hle; lia|].
      destruct (S n - length (utf8_encode_char c))%nat eqn:Hsub; [done|].
      destruct (utf8_encode cs !! _); [done|]. rewrite !Nat.eqb_eq. lia.
  - destruct n as [|n]; [by eexists|]. exfalso.
    revert Hn. unfold is_char_boundary.
    rewrite lookup_app_l by lia. rewrite He in *. simpl in *.
    destruct (lookup_lt_is_Some_2 rest n) as [b Hb]; [lia|]. rewrite Hb.
    rewrite Forall_lookup in Hrest. rewrite (Hrest _ _ Hb). done.
Qed.

(** An encoded string in front of another is decoded first. *)
Lemma utf8_decode_encode_app cs s : Forall is_scalar cs -> utf8_decode (utf8_encode cs ++ s) = app cs <$> utf8_decode s.
Proof.
  induction 1 as [|c cs Hc _ IH]; [change (utf8_encode [] ++ s) with s; by destruct (utf8_decode s)|].
  rewrite utf8_encode_cons, <- app_assoc, utf8_decode_encode_char, IH by done. by destruct (utf8_decode s).
Qed.

(** An ASCII byte separates the characters before it from those after it. *)
Lemma utf8_valid_before_ascii a b s : byte_val b < 128 -> utf8_valid (a ++ b :: s) -> utf8_valid a.
Proof.
  intros Hb Hv. rewrite <- (take_app_length a (b :: s)). apply utf8_valid_take; [done|]. unfold is_char_boundary.
  destruct (length a) eqn:Hl; [done|]. rewrite <- Hl, list_lookup_middle by done.
  destruct (is_cont b) eqn:Hc; [|done]. apply is_cont_range in Hc. lia.
Qed.

Lemma chars_ascii_split a b s : byte_val b < 128 -> utf8_valid (a ++ b :: s) ->
  chars (a ++ b :: s) = chars a ++ byte_val b :: chars s.
Proof.
  intros Hb Hv. pose proof (utf8_valid_before_ascii _ _ _ Hb Hv) as Ha.
  apply utf8_valid_encode in Ha as (cs & Hcs & ->). unfold chars. destruct Hv as [all Hv].
  rewrite utf8_decode_encode_app, utf8_decode_encode in * by done. cbn [utf8_decode] in *.
  rewrite (proj2 (Z.ltb_lt _ _)) in * by done. by destruct (utf8_decode s).
Qed.

(** ** Lossy decoding *)

Definition ascii_byte (b : byte) : Prop := byte_val b < 128.

Lemma replacement_not_ascii t : ~ Forall ascii_byte (REPLACEMENT ++ t).
Proof. intros H%Forall_inv. unfold ascii_byte in H. vm_compute in H. done. Qed.

(** Lossy decoding makes up no ASCII text: an ASCII result is the input itself. *)
Lemma from_utf8_lossy_ascii s :
  Forall ascii_byte (from_utf8_lossy s) -> from_utf8_lossy s = s.
Proof.
  induction s as [|b0 s1 IH]; cbn [from_utf8_lossy]; [done|].
  destruct (byte_val b0 <? 128) eqn:Hv.
  { intros [_ H]%Forall_cons_iff. by rewrite IH. }
  apply Z.ltb_ge in Hv. intros H. exfalso.
  assert (Hb : forall t, ~ Forall ascii_byte (b0 :: t))
    by (intros t [Hb _]%Forall_cons_iff; unfold ascii_byte in Hb; lia).
  pose proof replacement_not_ascii as Hr. pose proof (replacement_not_ascii []) as Hn. rewrite app_nil_r in Hn.
  revert H. repeat first [apply Hb | apply Hr | apply Hn | case_match].
Qed.

(** ASCII text is decoded to itself. *)
Lemma from_utf8_lossy_id s : Forall ascii_byte s -> from_utf8_lossy s = s.
Proof.
  induction s as [|b s IH]; cbn [from_utf8_lossy]; [done|].
  intros [Hb Hs]%Forall_cons_iff. unfold ascii_byte in Hb.
  rewrite (proj2 (Z.ltb_lt _ _) Hb). by rewrite IH.
Qed.
