(* ===== verification/Float64.v ===== *)
(** * Binary64 numbers

    The sampling parameters of a request and the embedding vectors are [f64] and
    [f32].  They are the IEEE 754 values of the Standard Library's [SpecFloat]; the
    operations are its correctly rounded ones at the precision of [f64].  A [f32] is
    the [f64] it converts to, which is exact. *)

From Stdlib Require Import SpecFloat.
From S2P Require Import Prelude.

Definition f64 : Type := spec_float.

#[export] Instance f64_eq_dec : EqDecision f64.
Proof. solve_decision. Defined.

Definition PREC : Z := 53.
Definition EMAX : Z := 1024.

(** The value of an integer literal such as [10.0]. *)
Definition f64_of_Z (z : Z) : f64 := binary_normalize PREC EMAX z 0 false.

(** [f64::is_finite] *)
Definition is_finite (x : f64) : bool :=
  match x with S754_zero _ | S754_finite _ _ _ => true | _ => false end.

(** [<], [<=] and [==], false on [NaN]. *)
Definition f64_lt (x y : f64) : bool := SFltb x y.
Definition f64_le (x y : f64) : bool := SFleb x y.
Definition f64_eq (x y : f64) : bool := SFeqb x y.

Definition f64_add (x y : f64) : f64 := SFadd PREC EMAX x y.
Definition f64_mul (x y : f64) : f64 := SFmul PREC EMAX x y.
Definition f64_div (x y : f64) : f64 := SFdiv PREC EMAX x y.
Definition f64_sqrt (x : f64) : f64 := SFsqrt PREC EMAX x.

(** [f64::clamp]: a [NaN] stays. *)
Definition f64_clamp (x lo hi : f64) : f64 :=
  if f64_lt x lo then lo else if f64_lt hi x then hi else x.

(** The integer nearest to [m * 2 ^ e], halves away from zero. *)
Definition round_magnitude (m : positive) (e : Z) : Z :=
  if 0 <=? e then Z.pos m * 2 ^ e
  else (Z.pos m + 2 ^ (- e - 1)) / 2 ^ (- e).

(** [x.round() as i32]: halves away from zero, saturating, [NaN] to 0. *)
Definition I32_MIN : Z := - 2 ^ 31.
Definition I32_MAX : Z := 2 ^ 31 - 1.

Definition round_to_i32 (x : f64) : Z :=
  match x with
  | S754_zero _ | S754_nan => 0
  | S754_infinity true => I32_MIN
  | S754_infinity false => I32_MAX
  | S754_finite s m e =>
      let magnitude := round_magnitude m e in
      Z.max I32_MIN (Z.min I32_MAX (if s then - magnitude else magnitude))
  end.

(** A value in a range is finite when the bounds are. *)
Lemma f64_between_finite lo hi x :
  is_finite lo = true -> is_finite hi = true -> f64_le lo x = true -> f64_le x hi = true ->
  is_finite x = true.
Proof.
  unfold f64_le, SFleb. intros Hlo Hhi H1 H2. destruct x as [|s| |]; try done.
  - destruct lo as [|sl| |], hi as [|sh| |], s; done.
Qed.
