(* ===== verification/Json.v ===== *)
(** * JSON values

    The crates take JSON apart through [serde_json::Value].  Its public enum is
    the data type below; an object is the list of its members in iteration
    order, whose keys are distinct in any map the library builds.  What the
    library computes is a parameter, the class [SerdeJson]: the number type with
    its conversions, the parser and [Value::pointer].  The accessors here only
    select a constructor.  [JsonExample] is a small instance, with the documented
    behaviour of [pointer] on object members, on which witnesses evaluate. *)

From S2P Require Import Prelude Bytes Utf8.

Inductive Value (Num : Type) : Type :=
  | Null
  | Bool (b : bool)
  | Number (n : Num)
  | Str (s : str)
  | Array (items : list (Value Num))
  | Object (members : list (str * Value Num)).
Arguments Null {Num}.
Arguments Bool {Num} b.
Arguments Number {Num} n.
Arguments Str {Num} s.
Arguments Array {Num} items.
Arguments Object {Num} members.

Class SerdeJson (Num : Type) : Type := {
  (** [serde_json::from_str] / [from_slice]: the document's value, if it is JSON. *)
  json_from_str : str -> option (Value Num);
  (** [Value::pointer]. *)
  json_pointer : Value Num -> str -> option (Value Num);
  (** [Number::as_u64] and [Number::as_i64]. *)
  num_as_u64 : Num -> option Z;
  num_as_i64 : Num -> option Z;
}.

Section accessors.
Context {Num : Type}.
Implicit Types v : Value Num.

(** [Map::get]. *)
Fixpoint map_get (members : list (str * Value Num)) (key : str) : option (Value Num) :=
  match members with
  | [] => None
  | (k, v) :: rest => if str_eqb k key then Some v else map_get rest key
  end.

(** [Map::contains_key]. *)
Definition contains_key (members : list (str * Value Num)) (key : str) : bool :=
  match map_get members key with Some _ => true | None => false end.

(** [Map::insert]: the map is a [BTreeMap], so members stay in key order. *)
Fixpoint map_insert (members : list (str * Value Num)) (key : str) (value : Value Num) :
    list (str * Value Num) :=
  match members with
  | [] => [(key, value)]
  | (k, v) :: rest =>
      match str_cmp key k with
      | Lt => (key, value) :: members
      | Eq => (k, value) :: rest
      | Gt => (k, v) :: map_insert rest key value
      end
  end.

(** [json!({ ... })]. *)
Definition json_object (members : list (str * Value Num)) : Value Num :=
  Object (foldl (fun m p => map_insert m p.1 p.2) [] members).

Definition get v (key : str) : option (Value Num) :=
  match v with Object members => map_get members key | _ => None end.

Definition as_str v : option str := match v with Str s => Some s | _ => None end.
Definition as_bool v : option bool := match v with Bool b => Some b | _ => None end.
Definition as_array v : option (list (Value Num)) :=
  match v with Array items => Some items | _ => None end.
Definition as_object v : option (list (str * Value Num)) :=
  match v with Object members => Some members | _ => None end.
Definition is_object v : bool := match v with Object _ => true | _ => false end.

Definition as_u64 `{SerdeJson Num} v : option Z :=
  match v with Number n => num_as_u64 n | _ => None end.
Definition as_i64 `{SerdeJson Num} v : option Z :=
  match v with Number n => num_as_i64 n | _ => None end.

(** The values directly below a value. *)
Definition children v : list (Value Num) :=
  match v with
  | Array items => items
  | Object members => map snd members
  | _ => []
  end.

(** Induction through arrays and objects. *)
Fixpoint Value_nested_ind (P : Value Num -> Prop)
    (H : forall v, Forall P (children v) -> P v) (v : Value Num) {struct v} : P v :=
  H v
    match v return Forall P (children v) with
    | Array items =>
        (fix go l : Forall P l :=
           match l with
           | [] => @List.Forall_nil _ _
           | x :: l' => @List.Forall_cons _ _ x l' (Value_nested_ind P H x) (go l')
           end) items
    | Object members =>
        (fix go l : Forall P (map snd l) :=
           match l with
           | [] => @List.Forall_nil _ _
           | x :: l' =>
               @List.Forall_cons _ _ (snd x) (map snd l') (Value_nested_ind P H (snd x)) (go l')
           end) members
    | _ => @List.Forall_nil _ _
    end.
(** Lookups after an insertion. *)
Lemma map_get_insert (members : list (str * Value Num)) key value k :
  map_get (map_insert members key value) k =
  if str_eqb key k then Some value else map_get members k.
Proof.
  induction members as [|[k0 v0] rest IH]; [done|]. cbn [map_insert map_get].
  destruct (str_cmp key k0) eqn:Hc; cbn [map_get].
  - apply str_cmp_eq in Hc as ->. by destruct (str_eqb k0 k).
  - done.
  - rewrite IH. destruct (str_eqb k0 k) eqn:H0; [|done]. apply str_eqb_eq in H0 as ->.
    destruct (str_eqb key k) eqn:H1; [|done]. apply str_eqb_eq in H1 as ->.
    by rewrite str_cmp_refl in Hc.
Qed.

Lemma contains_key_get (members : list (str * Value Num)) key :
  contains_key members key = false <-> map_get members key = None.
Proof. unfold contains_key. by destruct (map_get members key). Qed.

End accessors.

(** ** A small instance for examples *)

Module JsonExample.

(** Integers as numbers; a table of documents as the parser. *)
Fixpoint walk (v : Value Z) (path : list str) : option (Value Z) :=
  match path with
  | [] => Some v
  | key :: path' => child ← get v key; walk child path'
  end.

Definition pointer (v : Value Z) (p : str) : option (Value Z) :=
  match p with
  | [] => Some v
  | c :: p' => if byte_eqb c (byte_of 47) then walk v (split_on (byte_of 47) p') else None
  end.

Fixpoint parse (table : list (str * Value Z)) (doc : str) : option (Value Z) :=
  match table with
  | [] => None
  | (d, v) :: table' => if str_eqb d doc then Some v else parse table' doc
  end.

Definition serde (table : list (str * Value Z)) : SerdeJson Z := {|
  json_from_str := parse table;
  json_pointer := pointer;
  num_as_u64 n := if (0 <=? n) && (n <=? U64_MAX) then Some n else None;
  num_as_i64 n := if (- 2 ^ 63 <=? n) && (n <? 2 ^ 63) then Some n else None;
|}.

End JsonExample.
