(* ===== verification/Url.v ===== *)
(** * URLs and addresses

    The parts of a parsed [url::Url] the crates read, and the addresses of [std::net].
    Parsing, percent-encoding and the decoding of query pairs are the [url] crate's and
    parameters ([UrlLib]). *)

From S2P Require Import Prelude Bytes.

(** [url::Host], addresses as numbers. *)
Inductive UrlHost : Type := Domain (name : str) | Ipv4 (address : Z) | Ipv6 (address : Z).

Record Url : Type := mkUrl {
  scheme : str;
  cannot_be_a_base : bool;
  username : str;
  password : option str;
  url_host : option UrlHost;
  port : option Z;
  path : str;
  query : option str;
  fragment : option str;
}.

Class UrlLib : Type := {
  (** [Url::parse]; a default port is dropped. *)
  url_parse : str -> option Url;
  (** The text of an address host in [Url::host_str]. *)
  address_text : UrlHost -> str;
  (** [Url::query_pairs] *)
  query_pairs : Url -> list (str * str);
  (** What [Url::set_path] stores for a path. *)
  encode_path : str -> str;
}.

Definition default_port (scheme : str) : option Z :=
  if str_eqb scheme (lit "http") || str_eqb scheme (lit "ws") then Some 80
  else if str_eqb scheme (lit "https") || str_eqb scheme (lit "wss") then Some 443
  else if str_eqb scheme (lit "ftp") then Some 21
  else None.

(** [Url::port_or_known_default] *)
Definition port_or_known_default (url : Url) : option Z :=
  match port url with Some p => Some p | None => default_port (scheme url) end.

Section urls.
Context `{UrlLib}.

Definition host_str (url : Url) : option str :=
  (fun host => match host with Domain name => name | _ => address_text host end) <$> url_host url.

Definition set_path (url : Url) (p : str) : Url :=
  mkUrl (scheme url) (cannot_be_a_base url) (username url) (password url) (url_host url) (port url)
    (encode_path p) (query url) (fragment url).

(** [url.set_query(None)] *)
Definition clear_query (url : Url) : Url :=
  mkUrl (scheme url) (cannot_be_a_base url) (username url) (password url) (url_host url) (port url)
    (path url) None (fragment url).
End urls.

(** ** Addresses *)

(** [IpAddr]: the 32 or 128 bits of the address. *)
Inductive IpAddr : Type := V4 (address : Z) | V6 (address : Z).

#[export] Instance IpAddr_eq_dec : EqDecision IpAddr.
Proof. solve_decision. Defined.

(** [Ipv4Addr::octets] and [Ipv6Addr::segments] *)
Definition octet (address : Z) (i : Z) : Z := Z.land (Z.shiftr address (8 * (3 - i))) 255.
Definition segment (address : Z) (i : Z) : Z := Z.land (Z.shiftr address (16 * (7 - i))) 65535.

(** [Ipv6Addr::to_ipv4_mapped]: the prefix [::ffff:0:0/96]. *)
Definition to_ipv4_mapped (address : Z) : option Z :=
  if Z.shiftr address 32 =? 65535 then Some (Z.land address (2 ^ 32 - 1)) else None.

Definition ip_cmp (a b : IpAddr) : comparison :=
  match a, b with
  | V4 x, V4 y | V6 x, V6 y => Z.compare x y
  | V4 _, V6 _ => Lt
  | V6 _, V4 _ => Gt
  end.
