(* ===== verification/ProviderConfig.v ===== *)
(** * Providers: requests, options and capabilities

    Models [crates/lorepia-providers/src/config.rs], [capabilities.rs] and
    [error.rs]: the provider-neutral request, the options of each provider with
    their wire names, the capability matrix and the configuration errors. *)

From S2P Require Import Prelude Bytes Float64 Json.

(** ** Providers and messages (config.rs) *)

Inductive ProviderId : Type :=
  | OpenAi | Anthropic | DeepSeek | OllamaCloud | GoogleGemini | GoogleVertexAi.

#[export] Instance ProviderId_eq_dec : EqDecision ProviderId.
Proof. solve_decision. Defined.

Definition ProviderId_as_str (p : ProviderId) : str :=
  match p with
  | OpenAi => lit "openai"
  | Anthropic => lit "anthropic"
  | DeepSeek => lit "deepseek"
  | OllamaCloud => lit "ollama-cloud"
  | GoogleGemini => lit "google-gemini"
  | GoogleVertexAi => lit "google-vertex-ai"
  end.

Inductive MessageRole : Type := System | User | Assistant.

#[export] Instance MessageRole_eq_dec : EqDecision MessageRole.
Proof. solve_decision. Defined.

Record ChatMessage : Type := mkChatMessage { role : MessageRole; content : str }.

#[export] Instance ChatMessage_eq_dec : EqDecision ChatMessage.
Proof. solve_decision. Defined.

Inductive RolePolicy : Type := Preserve | MergeConsecutive.

#[export] Instance RolePolicy_eq_dec : EqDecision RolePolicy.
Proof. solve_decision. Defined.

Inductive ResponseFormat (Num : Type) : Type :=
  | Text
  | JsonObject
  | JsonSchema (schema : Value Num).
Arguments Text {Num}.
Arguments JsonObject {Num}.
Arguments JsonSchema {Num} schema.

Record GenerationOptions (Num : Type) : Type := mkGeneration {
  temperature : option f64;
  max_output_tokens : option Z;
  top_p : option f64;
  top_k : option Z;
  presence_penalty : option f64;
  frequency_penalty : option f64;
  stop_sequences : list str;
  seed : option Z;
  response_format : ResponseFormat Num;
  role_policy : RolePolicy;
}.
Arguments mkGeneration {Num}.
Arguments temperature {Num}.
Arguments max_output_tokens {Num}.
Arguments top_p {Num}.
Arguments top_k {Num}.
Arguments presence_penalty {Num}.
Arguments frequency_penalty {Num}.
Arguments stop_sequences {Num}.
Arguments seed {Num}.
Arguments response_format {Num}.
Arguments role_policy {Num}.

(** ** Provider options *)

Inductive OpenAiReasoningEffort : Type :=
  | OaNone | OaMinimal | OaLow | OaMedium | OaHigh | OaXhigh | OaMax.

Definition OpenAiReasoningEffort_as_str (e : OpenAiReasoningEffort) : str :=
  match e with
  | OaNone => lit "none" | OaMinimal => lit "minimal" | OaLow => lit "low"
  | OaMedium => lit "medium" | OaHigh => lit "high" | OaXhigh => lit "xhigh" | OaMax => lit "max"
  end.

Inductive OpenAiReasoningSummary : Type := SummaryAuto | SummaryConcise | SummaryDetailed.

Definition OpenAiReasoningSummary_as_str (s : OpenAiReasoningSummary) : str :=
  match s with
  | SummaryAuto => lit "auto" | SummaryConcise => lit "concise" | SummaryDetailed => lit "detailed"
  end.

Inductive OpenAiServiceTier : Type := TierAuto | TierDefault | TierFlex | TierScale | TierPriority.

Definition OpenAiServiceTier_as_str (t : OpenAiServiceTier) : str :=
  match t with
  | TierAuto => lit "auto" | TierDefault => lit "default" | TierFlex => lit "flex"
  | TierScale => lit "scale" | TierPriority => lit "priority"
  end.

Inductive OpenAiPromptCacheRetention : Type := InMemory | TwentyFourHours.

Definition OpenAiPromptCacheRetention_as_str (r : OpenAiPromptCacheRetention) : str :=
  match r with InMemory => lit "in-memory" | TwentyFourHours => lit "24h" end.

Record OpenAiPromptCache : Type := mkPromptCache {
  cache_key : str;
  retention : OpenAiPromptCacheRetention;
}.

Record OpenAiReasoning : Type := mkReasoning {
  effort : OpenAiReasoningEffort;
  reasoning_summary : option OpenAiReasoningSummary;
}.

Record OpenAiOptions : Type := mkOpenAiOptions {
  reasoning : option OpenAiReasoning;
  prompt_cache : option OpenAiPromptCache;
  oa_service_tier : option OpenAiServiceTier;
}.

Inductive AnthropicThinkingDisplay : Type := Summarized | Omitted.

Definition AnthropicThinkingDisplay_as_str (d : AnthropicThinkingDisplay) : str :=
  match d with Summarized => lit "summarized" | Omitted => lit "omitted" end.

Inductive AnthropicThinking : Type :=
  | ThinkDisabled
  | ThinkAdaptive (display : AnthropicThinkingDisplay)
  | ThinkEnabled (budget_tokens : Z) (display : AnthropicThinkingDisplay).

Inductive AnthropicReasoningEffort : Type := AnLow | AnMedium | AnHigh | AnXhigh | AnMax.

Definition AnthropicReasoningEffort_as_str (e : AnthropicReasoningEffort) : str :=
  match e with
  | AnLow => lit "low" | AnMedium => lit "medium" | AnHigh => lit "high"
  | AnXhigh => lit "xhigh" | AnMax => lit "max"
  end.

Inductive AnthropicCacheTtl : Type := FiveMinutes | OneHour.

Definition AnthropicCacheTtl_as_str (t : AnthropicCacheTtl) : str :=
  match t with FiveMinutes => lit "5m" | OneHour => lit "1h" end.

Inductive AnthropicServiceTier : Type := AnAuto | AnStandardOnly.

Definition AnthropicServiceTier_as_str (t : AnthropicServiceTier) : str :=
  match t with AnAuto => lit "auto" | AnStandardOnly => lit "standard_only" end.

Record AnthropicOptions : Type := mkAnthropicOptions {
  an_thinking : option AnthropicThinking;
  an_reasoning_effort : option AnthropicReasoningEffort;
  cache_ttl : option AnthropicCacheTtl;
  an_service_tier : option AnthropicServiceTier;
}.

Inductive DeepSeekReasoningEffort : Type := DsHigh | DsMax.

Definition DeepSeekReasoningEffort_as_str (e : DeepSeekReasoningEffort) : str :=
  match e with DsHigh => lit "high" | DsMax => lit "max" end.

Record DeepSeekOptions : Type := mkDeepSeekOptions {
  thinking_enabled : option bool;
  ds_reasoning_effort : option DeepSeekReasoningEffort;
}.

Inductive OllamaThinking : Type := OlDisabled | OlEnabled | OlLow | OlMedium | OlHigh | OlMax.

Record OllamaCloudOptions : Type := mkOllamaOptions { ol_thinking : option OllamaThinking }.

Inductive GoogleThinkingLevel : Type := GoMinimal | GoLow | GoMedium | GoHigh.

Definition GoogleThinkingLevel_as_str (l : GoogleThinkingLevel) : str :=
  match l with
  | GoMinimal => lit "MINIMAL" | GoLow => lit "LOW" | GoMedium => lit "MEDIUM" | GoHigh => lit "HIGH"
  end.

Record GoogleThinking : Type := mkGoogleThinking {
  level : option GoogleThinkingLevel;
  go_budget_tokens : option Z;
  include_thoughts : bool;
}.

Inductive GoogleSafetyCategory : Type :=
  | HateSpeech | DangerousContent | Harassment | SexuallyExplicit | CivicIntegrity | Jailbreak.

#[export] Instance GoogleSafetyCategory_eq_dec : EqDecision GoogleSafetyCategory.
Proof. solve_decision. Defined.

Definition GoogleSafetyCategory_as_str (c : GoogleSafetyCategory) : str :=
  match c with
  | HateSpeech => lit "HARM_CATEGORY_HATE_SPEECH"
  | DangerousContent => lit "HARM_CATEGORY_DANGEROUS_CONTENT"
  | Harassment => lit "HARM_CATEGORY_HARASSMENT"
  | SexuallyExplicit => lit "HARM_CATEGORY_SEXUALLY_EXPLICIT"
  | CivicIntegrity => lit "HARM_CATEGORY_CIVIC_INTEGRITY"
  | Jailbreak => lit "HARM_CATEGORY_JAILBREAK"
  end.

Inductive GoogleSafetyThreshold : Type :=
  | BlockLowAndAbove | BlockMediumAndAbove | BlockOnlyHigh | BlockNone | Off.

Definition GoogleSafetyThreshold_as_str (t : GoogleSafetyThreshold) : str :=
  match t with
  | BlockLowAndAbove => lit "BLOCK_LOW_AND_ABOVE"
  | BlockMediumAndAbove => lit "BLOCK_MEDIUM_AND_ABOVE"
  | BlockOnlyHigh => lit "BLOCK_ONLY_HIGH"
  | BlockNone => lit "BLOCK_NONE"
  | Off => lit "OFF"
  end.

Inductive GoogleSafetyMethod : Type := Severity | Probability.

Definition GoogleSafetyMethod_as_str (m : GoogleSafetyMethod) : str :=
  match m with Severity => lit "SEVERITY" | Probability => lit "PROBABILITY" end.

Record GoogleSafetySetting : Type := mkSafety {
  category : GoogleSafetyCategory;
  threshold : GoogleSafetyThreshold;
  method : option GoogleSafetyMethod;
}.

Inductive GoogleServiceTier : Type := GoStandard | GoFlex | GoPriority.

Definition GoogleServiceTier_as_str (t : GoogleServiceTier) : str :=
  match t with GoStandard => lit "standard" | GoFlex => lit "flex" | GoPriority => lit "priority" end.

Record GoogleOptions : Type := mkGoogleOptions {
  go_thinking : option GoogleThinking;
  go_cached_content : option str;
  go_safety_settings : list GoogleSafetySetting;
  go_service_tier : option GoogleServiceTier;
}.

Inductive VertexRequestType : Type := Automatic | Shared | Dedicated.

Record VertexAiOptions : Type := mkVertexOptions {
  project_id : str;
  location : str;
  vx_thinking : option GoogleThinking;
  vx_cached_content : option str;
  vx_safety_settings : list GoogleSafetySetting;
  request_type : VertexRequestType;
}.

Inductive ProviderOptions : Type :=
  | OpenAiOpts (o : OpenAiOptions)
  | AnthropicOpts (o : AnthropicOptions)
  | DeepSeekOpts (o : DeepSeekOptions)
  | OllamaCloudOpts (o : OllamaCloudOptions)
  | GoogleGeminiOpts (o : GoogleOptions)
  | GoogleVertexAiOpts (o : VertexAiOptions).

Definition provider_id (o : ProviderOptions) : ProviderId :=
  match o with
  | OpenAiOpts _ => OpenAi
  | AnthropicOpts _ => Anthropic
  | DeepSeekOpts _ => DeepSeek
  | OllamaCloudOpts _ => OllamaCloud
  | GoogleGeminiOpts _ => GoogleGemini
  | GoogleVertexAiOpts _ => GoogleVertexAi
  end.

(** A [TokenizerOverride] is its [tokenizer_id].  [additional_parameters] is a
    [BTreeMap]: its entries in key order. *)
Record ProviderRequest (Num : Type) : Type := mkRequest {
  provider : ProviderId;
  model_id : str;
  messages : list ChatMessage;
  generation : GenerationOptions Num;
  provider_options : ProviderOptions;
  tokenizer_override : option str;
  additional_parameters : list (str * Value Num);
}.
Arguments mkRequest {Num}.
Arguments provider {Num}.
Arguments model_id {Num}.
Arguments messages {Num}.
Arguments generation {Num}.
Arguments provider_options {Num}.
Arguments tokenizer_override {Num}.
Arguments additional_parameters {Num}.

(** ** Capabilities (capabilities.rs) *)

Inductive Capability : Type :=
  | CTemperature | CMaxOutputTokens | CTopP | CTopK | CPresencePenalty | CFrequencyPenalty
  | CStopSequences | CSeed | CReasoning | CIncludeThoughts | CJsonResponse | CContextCaching
  | CSafetySettings | CServiceTier | CThroughputRequestType | CProjectAndLocation
  | CRoleAlternation | CTokenizerOverride | CAdditionalParameters | CMcpTools
  | CEndpointOverride.

#[export] Instance Capability_eq_dec : EqDecision Capability.
Proof. solve_decision. Defined.

Inductive CapabilitySupport : Type :=
  | Native | CompatibilityOnly | SAutomatic | LocalTransform | EstimationOnly | Restricted
  | SeparateSecurityBoundary | Forbidden | Unsupported.

Definition capability_support (provider : ProviderId) (capability : Capability) :
    CapabilitySupport :=
  match capability with
  | CTemperature | CTopP =>
      match provider with Anthropic => CompatibilityOnly | _ => Native end
  | CMaxOutputTokens => Native
  | CTopK =>
      match provider with
      | Anthropic => CompatibilityOnly
      | OllamaCloud | GoogleGemini | GoogleVertexAi => Native
      | OpenAi | DeepSeek => Unsupported
      end
  | CPresencePenalty | CFrequencyPenalty =>
      match provider with GoogleGemini | GoogleVertexAi => Native | _ => Unsupported end
  | CStopSequences => match provider with OpenAi => Unsupported | _ => Native end
  | CSeed =>
      match provider with
      | OllamaCloud | GoogleGemini | GoogleVertexAi => Native
      | OpenAi | Anthropic | DeepSeek => Unsupported
      end
  | CReasoning => Native
  | CIncludeThoughts =>
      match provider with
      | Anthropic | GoogleGemini | GoogleVertexAi => Native
      | DeepSeek | OllamaCloud => SAutomatic
      | OpenAi => Unsupported
      end
  | CJsonResponse => match provider with OllamaCloud => Unsupported | _ => Native end
  | CContextCaching =>
      match provider with
      | OpenAi | Anthropic | GoogleGemini | GoogleVertexAi => Native
      | DeepSeek => SAutomatic
      | OllamaCloud => Unsupported
      end
  | CSafetySettings =>
      match provider with GoogleGemini | GoogleVertexAi => Native | _ => Unsupported end
  | CServiceTier =>
      match provider with OpenAi | Anthropic | GoogleGemini => Native | _ => Unsupported end
  | CThroughputRequestType | CProjectAndLocation =>
      match provider with GoogleVertexAi => Native | _ => Unsupported end
  | CRoleAlternation => LocalTransform
  | CTokenizerOverride => EstimationOnly
  | CAdditionalParameters => Restricted
  | CMcpTools => SeparateSecurityBoundary
  | CEndpointOverride => Forbidden
  end.

(** ** Errors (error.rs) *)

Inductive ProviderConfigError : Type :=
  | ProviderOptionsMismatch (request_provider options_provider : ProviderId)
  | MissingField (field : string)
  | EmptyField (field : string)
  | FieldTooLong (field : string) (max_bytes : Z)
  | InvalidField (field reason : string)
  | OutOfRange (field : string) (min max : f64)
  | UnsupportedOption (provider : ProviderId) (capability : Capability)
  | TooManyItems (field : string) (max : Z)
  | PayloadTooLarge (field : string) (max_bytes : Z)
  | UnsafeExtraParameter (key : str)
  | ExtraParameterCollision (key : str)
  | ExtraParameterTooDeep (key : str) (max_depth : Z)
  | MissingConversation.

(** ** The streams a compiled request declares (compile.rs) *)

Inductive StreamProtocol : Type := ProtoSse | ProtoNdjson.

#[export] Instance StreamProtocol_eq_dec : EqDecision StreamProtocol.
Proof. solve_decision. Defined.
