(* ===== verification/ProviderCompile.v ===== *)
(** * Providers: request validation and compilation

    Models [crates/lorepia-providers/src/compile.rs]: a provider-neutral request is
    validated against the capabilities of its provider and compiled to the origin,
    path, headers and JSON body the transport sends.

    [serde_json]'s number constructors and [to_vec] are the parameter
    [ProviderJson].  The code has three [unreachable!]: they are the fault [Panic],
    apart from the errors the functions return. *)

From S2P Require Import Prelude Bytes Utf8 Float64 Json ProviderConfig.

Class ProviderJson (Num : Type) : Type := {
  (** [json!(n)] of an integer. *)
  number_of_Z : Z -> Num;
  (** [Number::from_f64]: nothing for infinities and [NaN]. *)
  number_of_f64 : f64 -> option Num;
  (** [serde_json::to_vec]. *)
  json_to_vec : Value Num -> option bytes;
}.

Inductive fault : Type :=
  | Panic
  | Failed (e : ProviderConfigError).

Abbreviation PResult := (result fault).

Definition fail {A} (e : ProviderConfigError) : PResult A := Err (Failed e).
Definition invalid {A} (field reason : string) : PResult A := fail (InvalidField field reason).

Definition MAX_MODEL_ID_BYTES : Z := 256.
Definition MAX_MESSAGE_COUNT : Z := 10000.
Definition MAX_MESSAGE_BYTES : Z := 4 * 1024 * 1024.
Definition MAX_STOP_SEQUENCE_BYTES : Z := 256.
Definition MAX_ADDITIONAL_PARAMETERS : Z := 16.
Definition MAX_ADDITIONAL_PARAMETERS_BYTES : Z := 8 * 1024.
Definition MAX_ADDITIONAL_PARAMETER_DEPTH : Z := 4.
Definition MAX_JSON_SCHEMA_BYTES : Z := 16 * 1024.
Definition MAX_JSON_SCHEMA_DEPTH : Z := 16.
Definition MAX_TOKENIZER_ID_BYTES : Z := 128.
Definition MAX_CACHE_RESOURCE_BYTES : Z := 512.

Inductive AuthScheme : Type :=
  | AuthorizationBearer | AnthropicXApiKey | GoogleXGoogApiKey | GoogleOAuthBearer.

#[export] Instance AuthScheme_eq_dec : EqDecision AuthScheme.
Proof. solve_decision. Defined.

(** [static_headers] is a [BTreeMap]: its entries in key order. *)
Record CompiledProviderRequest (Num : Type) : Type := mkCompiled {
  c_provider : ProviderId;
  origin : str;
  path_and_query : str;
  auth_scheme : AuthScheme;
  static_headers : list (str * str);
  stream_protocol : StreamProtocol;
  body : Value Num;
  c_tokenizer_override : option str;
}.
Arguments mkCompiled {Num}.
Arguments c_provider {Num}.
Arguments origin {Num}.
Arguments path_and_query {Num}.
Arguments auth_scheme {Num}.
Arguments static_headers {Num}.
Arguments stream_protocol {Num}.
Arguments body {Num}.
Arguments c_tokenizer_override {Num}.

(** ** Field checks *)

Definition require_capability (provider : ProviderId) (capability : Capability) : PResult unit :=
  match capability_support provider capability with
  | Native | CompatibilityOnly | LocalTransform | EstimationOnly | Restricted => Ok tt
  | SAutomatic | SeparateSecurityBoundary | Forbidden | Unsupported =>
      fail (UnsupportedOption provider capability)
  end.

Definition validate_text_field (field : string) (value : str) (max_bytes : Z) : PResult unit :=
  if is_empty (trim value) then fail (EmptyField field)
  else if len value >? max_bytes then fail (FieldTooLong field max_bytes)
  else if existsb is_control (chars value)
  then invalid field "control characters are not allowed"
  else Ok tt.

(** The characters it accepts are ASCII, so checking the bytes is checking the
    characters. *)
Definition path_byte (lowercase_only : bool) (b : byte) : bool :=
  (if lowercase_only then is_ascii_lowercase b || is_ascii_digit b else is_ascii_alphanumeric b)
  || one_of "-_." b.

Definition validate_path_segment (field : string) (value : str) (lowercase_only : bool) :
    PResult unit :=
  _ ← validate_text_field field value MAX_MODEL_ID_BYTES;
  if negb (forallb (path_byte lowercase_only) value)
     || str_eqb value (lit ".") || str_eqb value (lit "..")
  then invalid field "must be a single safe URL path segment"
  else Ok tt.

Definition validate_cache_resource (field : string) (value : option str) : PResult unit :=
  match value with
  | None => Ok tt
  | Some value =>
      _ ← validate_text_field field value MAX_CACHE_RESOURCE_BYTES;
      if starts_with value (lit "/") || contains value (lit "//") || contains value (lit "?")
         || contains value (lit "#")
         || existsb (fun segment => str_eqb segment (lit "..")) (split_on SLASH value)
      then invalid field "cache resource must be a relative provider resource name"
      else Ok tt
  end.

Definition invalid_number {A} (field : string) : PResult A := invalid field "must be a finite number".

Definition validate_float_range (field : string) (value min max : f64) : PResult unit :=
  if negb (is_finite value) then invalid_number field
  else if negb (f64_le min value && f64_le value max) then fail (OutOfRange field min max)
  else Ok tt.

Section compile.
Context {Num : Type} `{ProviderJson Num}.

Fixpoint value_depth (value : Value Num) : Z :=
  match value with
  | Array values => 1 + foldr (fun v acc => Z.max (value_depth v) acc) 0 values
  | Object members => 1 + foldr (fun p acc => Z.max (value_depth p.2) acc) 0 members
  | _ => 0
  end.

(** ** Validation *)

Record MessageScan : Type := mkScan {
  total_bytes : Z;
  has_conversation : bool;
  conversation_started : bool;
}.

Definition NUL_BYTE : byte := byte_of 0.

Definition scan_message (st : MessageScan) (message : ChatMessage) : PResult MessageScan :=
  if is_empty (trim (content message)) then fail (EmptyField "message.content")
  else if contains (content message) [NUL_BYTE]
  then invalid "message.content" "NUL characters are not allowed"
  else
    let total := saturating_add USIZE_MAX (total_bytes st) (len (content message)) in
    if bool_decide (role message = System) && conversation_started st
    then invalid "messages.role" "system messages must precede the conversation"
    else if bool_decide (role message <> System) then Ok (mkScan total true true)
    else Ok (mkScan total (has_conversation st) (conversation_started st)).

Definition validate_messages (messages : list ChatMessage) : PResult unit :=
  if len messages >? MAX_MESSAGE_COUNT then fail (TooManyItems "messages" MAX_MESSAGE_COUNT)
  else
    st ← foldM_result scan_message (mkScan 0 false false) messages;
    if total_bytes st >? MAX_MESSAGE_BYTES
    then fail (PayloadTooLarge "messages" MAX_MESSAGE_BYTES)
    else if negb (has_conversation st) then fail MissingConversation
    else Ok tt.

Definition validate_json_schema (schema : Value Num) : PResult unit :=
  if negb (is_object schema) then invalid "responseFormat.schema" "schema must be a JSON object"
  else
    bytes ← ok_or (json_to_vec schema)
              (Failed (InvalidField "responseFormat.schema" "schema is not valid JSON"));
    if len bytes >? MAX_JSON_SCHEMA_BYTES
    then fail (PayloadTooLarge "responseFormat.schema" MAX_JSON_SCHEMA_BYTES)
    else if value_depth schema >? MAX_JSON_SCHEMA_DEPTH
    then invalid "responseFormat.schema" "schema nesting exceeds the local safety limit"
    else Ok tt.

Definition validate_response_format (provider : ProviderId) (format : ResponseFormat Num) :
    PResult unit :=
  match format with
  | Text => Ok tt
  | JsonObject =>
      _ ← require_capability provider CJsonResponse;
      if bool_decide (provider = Anthropic)
      then invalid "responseFormat" "Anthropic structured output requires a JSON schema"
      else Ok tt
  | JsonSchema schema =>
      _ ← require_capability provider CJsonResponse;
      if bool_decide (provider = DeepSeek)
      then invalid "responseFormat" "DeepSeek supports json_object but not json_schema"
      else validate_json_schema schema
  end.

(** [if let Some(value) = option { ... }] *)
Definition when_some {A} (o : option A) (f : A -> PResult unit) : PResult unit :=
  match o with Some a => f a | None => Ok tt end.

Definition temperature_maximum (provider : ProviderId) : f64 :=
  match provider with
  | Anthropic => f64_of_Z 1
  | OllamaCloud => f64_of_Z 10
  | OpenAi | DeepSeek | GoogleGemini | GoogleVertexAi => f64_of_Z 2
  end.

(** [unreachable!] for OpenAI. *)
Definition stop_maximum (provider : ProviderId) : PResult Z :=
  match provider with
  | GoogleGemini => Ok 5
  | DeepSeek => Ok 16
  | Anthropic | OllamaCloud | GoogleVertexAi => Ok 16
  | OpenAi => Err Panic
  end.

Definition validate_generation (provider : ProviderId) (generation : GenerationOptions Num) :
    PResult unit :=
  _ ← when_some (temperature generation) (fun value =>
        _ ← require_capability provider CTemperature;
        if negb (is_finite value) then invalid_number "temperature"
        else validate_float_range "temperature" value (f64_of_Z 0) (temperature_maximum provider));
  _ ← when_some (max_output_tokens generation) (fun maximum =>
        _ ← require_capability provider CMaxOutputTokens;
        if (maximum =? 0) && bool_decide (provider <> Anthropic)
        then invalid "maxOutputTokens" "must be greater than zero"
        else Ok tt);
  _ ← when_some (top_p generation) (fun value =>
        _ ← require_capability provider CTopP;
        validate_float_range "topP" value (f64_of_Z 0) (f64_of_Z 1));
  _ ← when_some (top_k generation) (fun _ => require_capability provider CTopK);
  _ ← when_some (presence_penalty generation) (fun value =>
        _ ← require_capability provider CPresencePenalty;
        validate_float_range "presencePenalty" value (f64_of_Z (-2)) (f64_of_Z 2));
  _ ← when_some (frequency_penalty generation) (fun value =>
        _ ← require_capability provider CFrequencyPenalty;
        validate_float_range "frequencyPenalty" value (f64_of_Z (-2)) (f64_of_Z 2));
  _ ← (if is_empty (stop_sequences generation) then Ok tt
       else
         _ ← require_capability provider CStopSequences;
         maximum ← stop_maximum provider;
         if len (stop_sequences generation) >? maximum
         then fail (TooManyItems "stopSequences" maximum)
         else forM_result (fun sequence =>
                validate_text_field "stopSequences" sequence MAX_STOP_SEQUENCE_BYTES)
                (stop_sequences generation));
  _ ← when_some (seed generation) (fun _ => require_capability provider CSeed);
  validate_response_format provider (response_format generation).

Definition is_google (provider : ProviderId) : bool :=
  match provider with GoogleGemini | GoogleVertexAi => true | _ => false end.

Definition is_conversation (message : ChatMessage) : bool := bool_decide (role message <> System).

Definition role_contract_reason : string :=
  "Gemini user and model roles must alternate; select merge_consecutive or normalize the history".

Definition check_alternation (previous : option MessageRole) (message : ChatMessage) :
    PResult (option MessageRole) :=
  if bool_decide (previous = Some (role message))
  then invalid "messages.role" role_contract_reason
  else Ok (Some (role message)).

Definition validate_role_contract (request : ProviderRequest Num) : PResult unit :=
  if negb (is_google (provider request))
     || bool_decide (role_policy (generation request) = MergeConsecutive)
  then Ok tt
  else
    _ ← foldM_result check_alternation None (List.filter is_conversation (messages request));
    mret tt.

Definition validate_openai_options (options : OpenAiOptions) : PResult unit :=
  when_some (prompt_cache options) (fun cache =>
    validate_text_field "promptCache.key" (cache_key cache) 128).

Definition validate_anthropic_options (options : AnthropicOptions) (max_output_tokens : option Z) :
    PResult unit :=
  maximum ← ok_or max_output_tokens (Failed (MissingField "generation.maxOutputTokens"));
  match an_thinking options with
  | Some (ThinkEnabled budget_tokens _) =>
      if budget_tokens <? 1024
      then invalid "thinking.budgetTokens" "Anthropic thinking budget must be at least 1024"
      else if budget_tokens >=? maximum
      then invalid "thinking.budgetTokens"
             "Anthropic thinking budget must be lower than maxOutputTokens"
      else Ok tt
  | _ => Ok tt
  end.

Definition validate_deepseek_options (options : DeepSeekOptions)
    (generation : GenerationOptions Num) : PResult unit :=
  if bool_decide (thinking_enabled options <> Some false)
     && (is_some (temperature generation) || is_some (top_p generation))
  then invalid "thinkingEnabled" "DeepSeek ignores temperature and topP in thinking mode"
  else if bool_decide (thinking_enabled options = Some false)
          && is_some (ds_reasoning_effort options)
  then invalid "reasoningEffort" "reasoning effort cannot be used when thinking is disabled"
  else Ok tt.

Definition validate_google_thinking (thinking : GoogleThinking) : PResult unit :=
  if is_some (level thinking) && is_some (go_budget_tokens thinking)
  then invalid "thinking" "thinking level and token budget are mutually exclusive"
  else if match go_budget_tokens thinking with Some budget => budget <? -1 | None => false end
  then invalid "thinking.budgetTokens" "must be -1, 0, or a positive model-supported budget"
  else if negb (is_some (level thinking)) && negb (is_some (go_budget_tokens thinking))
          && negb (include_thoughts thinking)
  then invalid "thinking" "empty thinking configuration has no effect"
  else Ok tt.

(** The categories seen so far are their wire names. *)
Definition check_safety_setting (vertex : bool) (categories : list str)
    (setting : GoogleSafetySetting) : PResult (list str) :=
  let name := GoogleSafetyCategory_as_str (category setting) in
  if existsb (str_eqb name) categories
  then invalid "safetySettings" "each harm category may appear only once"
  else if negb vertex && is_some (method setting)
  then invalid "safetySettings.method" "safety method is a Vertex AI option"
  else if negb vertex && bool_decide (category setting = Jailbreak)
  then invalid "safetySettings.category" "jailbreak is a Vertex AI safety category"
  else Ok (name :: categories).

Definition validate_safety_settings (settings : list GoogleSafetySetting) (vertex : bool) :
    PResult unit :=
  let maximum := if vertex then 6 else 5 in
  if len settings >? maximum then fail (TooManyItems "safetySettings" maximum)
  else _ ← foldM_result (check_safety_setting vertex) [] settings; mret tt.

Definition validate_google_options (options : GoogleOptions) : PResult unit :=
  _ ← when_some (go_thinking options) validate_google_thinking;
  _ ← validate_cache_resource "cachedContent" (go_cached_content options);
  _ ← when_some (go_cached_content options) (fun resource =>
        match split_on SLASH resource with
        | [collection; id] =>
            if negb (str_eqb collection (lit "cachedContents")) || is_empty id
            then invalid "cachedContent" "Gemini cache resource must be exactly cachedContents/{id}"
            else validate_path_segment "cachedContent.id" id false
        | _ => invalid "cachedContent" "Gemini cache resource must be exactly cachedContents/{id}"
        end);
  validate_safety_settings (go_safety_settings options) false.

Definition vertex_cache_reason : string :=
  "Vertex cache resource must exactly match the selected project and location".

Definition validate_vertex_options (options : VertexAiOptions) : PResult unit :=
  _ ← validate_path_segment "projectId" (project_id options) true;
  _ ← validate_path_segment "location" (location options) true;
  _ ← when_some (vx_thinking options) validate_google_thinking;
  _ ← validate_cache_resource "cachedContent" (vx_cached_content options);
  _ ← when_some (vx_cached_content options) (fun resource =>
        match split_on SLASH resource with
        | [projects; project; locations; loc; collection; id] =>
            if negb (str_eqb projects (lit "projects")) || negb (str_eqb project (project_id options))
               || negb (str_eqb locations (lit "locations")) || negb (str_eqb loc (location options))
               || negb (str_eqb collection (lit "cachedContents")) || is_empty id
            then invalid "cachedContent" vertex_cache_reason
            else validate_path_segment "cachedContent.id" id false
        | _ => invalid "cachedContent" vertex_cache_reason
        end);
  validate_safety_settings (vx_safety_settings options) true.

Definition validate_provider_options (request : ProviderRequest Num) : PResult unit :=
  match provider_options request with
  | OpenAiOpts options => validate_openai_options options
  | AnthropicOpts options =>
      validate_anthropic_options options (max_output_tokens (generation request))
  | DeepSeekOpts options => validate_deepseek_options options (generation request)
  | OllamaCloudOpts _ => Ok tt
  | GoogleGeminiOpts options => validate_google_options options
  | GoogleVertexAiOpts options => validate_vertex_options options
  end.

Definition tokenizer_byte (b : byte) : bool := is_ascii_alphanumeric b || one_of "-_.:/" b.

Definition validate_tokenizer_override (override : option str) : PResult unit :=
  when_some override (fun tokenizer_id =>
    _ ← validate_text_field "tokenizerOverride.tokenizerId" tokenizer_id MAX_TOKENIZER_ID_BYTES;
    if negb (forallb tokenizer_byte tokenizer_id)
    then invalid "tokenizerOverride.tokenizerId" "contains unsupported characters"
    else Ok tt).

(** ** Additional parameters *)

(** Only ASCII letters and digits are kept, so the lower-casing is ASCII's. *)
Definition canonical_extra_parameter (key : str) : str :=
  to_ascii_lowercase (List.filter is_ascii_alphanumeric key).

Definition SENSITIVE_PARTS : list str :=
  map lit ["endpoint"; "baseurl"; "url"; "host"; "proxy"; "header"; "authorization"; "apikey";
    "token"; "secret"; "password"; "cookie"; "credential"; "serviceaccount"; "tool"; "mcp"]%string.

Definition RESERVED : list str :=
  map lit ["model"; "input"; "messages"; "contents"; "system"; "instructions";
    "systeminstruction"; "stream"; "streamoptions"; "store"; "background"; "conversation";
    "previousresponseid"; "safetyidentifier"; "user"; "tools"; "toolchoice";
    "paralleltoolcalls"; "mcp"; "temperature"; "maxoutputtokens"; "maxtokens"; "numpredict";
    "topp"; "topk"; "presencepenalty"; "frequencypenalty"; "stop"; "stopsequences"; "seed";
    "responseformat"; "responsemimetype"; "responsejsonschema"; "text"; "reasoning";
    "reasoningeffort"; "thinking"; "safetysettings"; "servicetier"; "cachedcontent";
    "cachecontrol"; "promptcachekey"; "promptcacheretention"; "generationconfig"; "options";
    "format"; "project"; "projectid"; "location"]%string.

Definition is_sensitive_extra_parameter (key : str) : bool :=
  existsb (contains (canonical_extra_parameter key)) SENSITIVE_PARTS.

Definition is_reserved_extra_parameter (key : str) : bool :=
  existsb (str_eqb (canonical_extra_parameter key)) RESERVED || is_sensitive_extra_parameter key.

(** [Iterator::find_map] *)
Section find_map.
Context {A B : Type} (f : A -> option B).

Fixpoint find_map (l : list A) : option B :=
  match l with
  | [] => None
  | a :: l' => match f a with Some b => Some b | None => find_map l' end
  end.
End find_map.

Fixpoint find_sensitive_nested_key (value : Value Num) : option str :=
  match value with
  | Object entries =>
      find_map (fun entry =>
        if is_sensitive_extra_parameter entry.1 then Some entry.1
        else find_sensitive_nested_key entry.2) entries
  | Array values => find_map find_sensitive_nested_key values
  | _ => None
  end.

Definition extra_key_byte (b : byte) : bool := is_ascii_alphanumeric b || one_of "_" b.

Definition validate_additional_parameter (entry : str * Value Num) : PResult unit :=
  let '(key, value) := entry in
  if is_empty key || (len key >? 64) || negb (forallb extra_key_byte key)
  then fail (UnsafeExtraParameter key)
  else if is_reserved_extra_parameter key then fail (UnsafeExtraParameter key)
  else
    match find_sensitive_nested_key value with
    | Some nested_key => fail (UnsafeExtraParameter (key ++ lit "." ++ nested_key))
    | None =>
        if value_depth value >? MAX_ADDITIONAL_PARAMETER_DEPTH
        then fail (ExtraParameterTooDeep key MAX_ADDITIONAL_PARAMETER_DEPTH)
        else Ok tt
    end.

(** A [BTreeMap<String, Value>] serialises as the object of its entries. *)
Definition validate_additional_parameters (parameters : list (str * Value Num)) : PResult unit :=
  if len parameters >? MAX_ADDITIONAL_PARAMETERS
  then fail (TooManyItems "additionalParameters" MAX_ADDITIONAL_PARAMETERS)
  else
    bytes ← ok_or (json_to_vec (Object parameters))
              (Failed (InvalidField "additionalParameters" "parameters are not valid JSON"));
    if len bytes >? MAX_ADDITIONAL_PARAMETERS_BYTES
    then fail (PayloadTooLarge "additionalParameters" MAX_ADDITIONAL_PARAMETERS_BYTES)
    else forM_result validate_additional_parameter parameters.

Definition validate_request (request : ProviderRequest Num) : PResult unit :=
  let options_provider := provider_id (provider_options request) in
  if bool_decide (provider request <> options_provider)
  then fail (ProviderOptionsMismatch (provider request) options_provider)
  else
    _ ← validate_text_field "modelId" (model_id request) MAX_MODEL_ID_BYTES;
    _ ← (if is_google (provider request)
         then validate_path_segment "modelId" (model_id request) false else Ok tt);
    _ ← validate_messages (messages request);
    _ ← validate_generation (provider request) (generation request);
    _ ← validate_role_contract request;
    _ ← validate_provider_options request;
    _ ← validate_tokenizer_override (tokenizer_override request);
    validate_additional_parameters (additional_parameters request).

(** ** The conversation *)

Record NormalizedConversation : Type := mkConversation {
  system : option str;
  conversation : list ChatMessage;
}.

Definition PARAGRAPH : str := [byte_of 10; byte_of 10].

(** [normalized.last_mut()] is the last message of the list built so far. *)
Definition push_normalized (policy : RolePolicy) (normalized : list ChatMessage)
    (message : ChatMessage) : list ChatMessage :=
  match policy, list.last normalized with
  | MergeConsecutive, Some previous =>
      if bool_decide (role previous = role message)
      then removelast normalized
             ++ [mkChatMessage (role previous) (content previous ++ PARAGRAPH ++ content message)]
      else normalized ++ [message]
  | _, _ => normalized ++ [message]
  end.

Definition normalize_conversation (messages : list ChatMessage) (policy : RolePolicy) :
    NormalizedConversation :=
  let system := join PARAGRAPH
    (map content (List.filter (fun m => negb (is_conversation m)) messages)) in
  mkConversation (if is_empty system then None else Some system)
    (foldl (push_normalized policy) [] (List.filter is_conversation messages)).

(** [unreachable!] for a system message. *)
Definition chat_message (assistant_role : string) (message : ChatMessage) : PResult (Value Num) :=
  name ← match role message with
         | User => Ok (lit "user")
         | Assistant => Ok (lit assistant_role)
         | System => Err Panic
         end;
  mret (json_object [(lit "role", Str name); (lit "content", Str (content message))]).

Definition chat_messages (messages : list ChatMessage) (assistant_role : string) :
    PResult (list (Value Num)) := mapM_result (chat_message assistant_role) messages.

Definition messages_with_system (conv : NormalizedConversation) (assistant_role : string) :
    PResult (list (Value Num)) :=
  let first :=
    match system conv with
    | Some system => [json_object [(lit "role", Str (lit "system")); (lit "content", Str system)]]
    | None => []
    end in
  rest ← chat_messages (conversation conv) assistant_role;
  mret (first ++ rest).

Definition google_message (message : ChatMessage) : PResult (Value Num) :=
  name ← match role message with
         | User => Ok (lit "user")
         | Assistant => Ok (lit "model")
         | System => Err Panic
         end;
  mret (json_object [(lit "role", Str name);
                     (lit "parts", Array [json_object [(lit "text", Str (content message))]])]).

Definition google_messages (messages : list ChatMessage) : PResult (list (Value Num)) :=
  mapM_result google_message messages.

(** ** Bodies *)

Abbreviation Map := (list (str * Value Num)).

Definition insert (name : string) (value : Value Num) (body : Map) : Map :=
  map_insert body (lit name) value.

Definition insert_some {A} (name : string) (o : option A) (f : A -> Value Num) (body : Map) : Map :=
  match o with Some a => insert name (f a) body | None => body end.

(** [if let (Some(name), Some(value)) = (name, value)] *)
Definition insert_named {A} (name : option string) (o : option A) (f : A -> Value Num)
    (body : Map) : Map :=
  match name with Some name => insert_some name o f body | None => body end.

Definition json_int (n : Z) : Value Num := Number (number_of_Z n).
Definition json_f64 (x : f64) : Value Num :=
  match number_of_f64 x with Some n => Number n | None => Null end.
Definition json_strs (l : list str) : Value Num := Array (map Str l).

Inductive GenerationDialect : Type := DiOpenAi | DiAnthropic | DiDeepSeek | DiOllama | DiGoogle.

Record GenerationFieldNames : Type := mkNames {
  n_temperature : string;
  n_max_output_tokens : option string;
  n_top_p : string;
  n_top_k : option string;
  n_presence_penalty : option string;
  n_frequency_penalty : option string;
  n_stop_sequences : option string;
  n_seed : option string;
}.

Definition field_names (dialect : GenerationDialect) : GenerationFieldNames :=
  match dialect with
  | DiOpenAi =>
      mkNames "temperature" (Some "max_output_tokens"%string) "top_p" None None None None None
  | DiAnthropic =>
      mkNames "temperature" None "top_p" (Some "top_k"%string) None None
        (Some "stop_sequences"%string) None
  | DiDeepSeek =>
      mkNames "temperature" (Some "max_tokens"%string) "top_p" None None None
        (Some "stop"%string) None
  | DiOllama =>
      mkNames "temperature" (Some "num_predict"%string) "top_p" (Some "top_k"%string) None None
        (Some "stop"%string) (Some "seed"%string)
  | DiGoogle =>
      mkNames "temperature" (Some "maxOutputTokens"%string) "topP" (Some "topK"%string)
        (Some "presencePenalty"%string) (Some "frequencyPenalty"%string)
        (Some "stopSequences"%string) (Some "seed"%string)
  end.

Definition insert_generation_scalar_fields (body : Map) (generation : GenerationOptions Num)
    (dialect : GenerationDialect) : Map :=
  let names := field_names dialect in
  let body := insert_some (n_temperature names) (temperature generation) json_f64 body in
  let body := insert_named (n_max_output_tokens names) (max_output_tokens generation) json_int body in
  let body := insert_some (n_top_p names) (top_p generation) json_f64 body in
  let body := insert_named (n_top_k names) (top_k generation) json_int body in
  let body := insert_named (n_presence_penalty names) (presence_penalty generation) json_f64 body in
  let body := insert_named (n_frequency_penalty names) (frequency_penalty generation) json_f64 body in
  let body := insert_named (n_stop_sequences names)
    (if is_empty (stop_sequences generation) then None else Some (stop_sequences generation))
    json_strs body in
  insert_named (n_seed names) (seed generation) json_int body.

Definition base_compiled (provider : ProviderId) (origin path : str) (auth : AuthScheme)
    (protocol : StreamProtocol) (body : Map) : CompiledProviderRequest Num :=
  mkCompiled provider origin path auth [(lit "content-type", lit "application/json")] protocol
    (Object body) None.

Definition str_value (s : string) : Value Num := Str (lit s).

Definition compile_openai (request : ProviderRequest Num) (options : OpenAiOptions)
    (conv : NormalizedConversation) : PResult (CompiledProviderRequest Num) :=
  let generation := generation request in
  let body := insert "model" (Str (model_id request)) [] in
  input ← chat_messages (conversation conv) "assistant";
  let body := insert "input" (Array input) body in
  let body := insert "stream" (Bool true) body in
  let body := insert "store" (Bool false) body in
  let body := insert_some "instructions" (system conv) Str body in
  let body := insert_generation_scalar_fields body generation DiOpenAi in
  let body :=
    match response_format generation with
    | Text => body
    | JsonObject =>
        insert "text" (json_object [(lit "format",
          json_object [(lit "type", str_value "json_object")])]) body
    | JsonSchema schema =>
        insert "text" (json_object [(lit "format",
          json_object [(lit "type", str_value "json_schema");
                       (lit "name", str_value "lorepia_response");
                       (lit "schema", schema);
                       (lit "strict", Bool true)])]) body
    end in
  let body := insert_some "reasoning" (reasoning options) (fun reasoning =>
    Object (insert_some "summary" (reasoning_summary reasoning)
              (fun s => Str (OpenAiReasoningSummary_as_str s))
              (insert "effort" (Str (OpenAiReasoningEffort_as_str (effort reasoning))) []))) body in
  let body :=
    match prompt_cache options with
    | Some cache =>
        insert "prompt_cache_retention"
          (Str (OpenAiPromptCacheRetention_as_str (retention cache)))
          (insert "prompt_cache_key" (Str (cache_key cache)) body)
    | None => body
    end in
  let body := insert_some "service_tier" (oa_service_tier options)
    (fun tier => Str (OpenAiServiceTier_as_str tier)) body in
  mret (base_compiled OpenAi (lit "https://api.openai.com") (lit "/v1/responses")
          AuthorizationBearer ProtoSse body).

Definition thinking_value (thinking : AnthropicThinking) : Value Num :=
  match thinking with
  | ThinkDisabled => json_object [(lit "type", str_value "disabled")]
  | ThinkAdaptive display =>
      json_object [(lit "type", str_value "adaptive");
                   (lit "display", Str (AnthropicThinkingDisplay_as_str display))]
  | ThinkEnabled budget_tokens display =>
      json_object [(lit "type", str_value "enabled");
                   (lit "budget_tokens", json_int budget_tokens);
                   (lit "display", Str (AnthropicThinkingDisplay_as_str display))]
  end.

Definition compile_anthropic (request : ProviderRequest Num) (options : AnthropicOptions)
    (conv : NormalizedConversation) : PResult (CompiledProviderRequest Num) :=
  let generation := generation request in
  let body := insert "model" (Str (model_id request)) [] in
  maximum ← ok_or (max_output_tokens generation)
              (Failed (MissingField "generation.maxOutputTokens"));
  let body := insert "max_tokens" (json_int maximum) body in
  input ← chat_messages (conversation conv) "assistant";
  let body := insert "messages" (Array input) body in
  let body := insert "stream" (Bool true) body in
  let body := insert_some "system" (system conv) Str body in
  let body := insert_generation_scalar_fields body generation DiAnthropic in
  let body := insert_some "thinking" (an_thinking options) thinking_value body in
  let output_config := insert_some "effort" (an_reasoning_effort options)
    (fun e => Str (AnthropicReasoningEffort_as_str e)) [] in
  let output_config :=
    match response_format generation with
    | JsonSchema schema =>
        insert "format" (json_object [(lit "type", str_value "json_schema"); (lit "schema", schema)])
          output_config
    | _ => output_config
    end in
  let body := if is_empty output_config then body
              else insert "output_config" (Object output_config) body in
  let body := insert_some "cache_control" (cache_ttl options) (fun ttl =>
    json_object [(lit "type", str_value "ephemeral");
                 (lit "ttl", Str (AnthropicCacheTtl_as_str ttl))]) body in
  let body := insert_some "service_tier" (an_service_tier options)
    (fun tier => Str (AnthropicServiceTier_as_str tier)) body in
  let compiled := base_compiled Anthropic (lit "https://api.anthropic.com") (lit "/v1/messages")
    AnthropicXApiKey ProtoSse body in
  mret (mkCompiled (c_provider compiled) (origin compiled) (path_and_query compiled)
          (auth_scheme compiled)
          ((lit "anthropic-version", lit "2023-06-01") :: static_headers compiled)
          (stream_protocol compiled) (ProviderCompile.body compiled)
          (c_tokenizer_override compiled)).

Definition compile_deepseek (request : ProviderRequest Num) (options : DeepSeekOptions)
    (conv : NormalizedConversation) : PResult (CompiledProviderRequest Num) :=
  let generation := generation request in
  let body := insert "model" (Str (model_id request)) [] in
  input ← messages_with_system conv "assistant";
  let body := insert "messages" (Array input) body in
  let body := insert "stream" (Bool true) body in
  let body := insert "stream_options" (json_object [(lit "include_usage", Bool true)]) body in
  let body := insert_generation_scalar_fields body generation DiDeepSeek in
  let body :=
    match response_format generation with
    | JsonObject =>
        insert "response_format" (json_object [(lit "type", str_value "json_object")]) body
    | _ => body
    end in
  let body := insert_some "thinking" (thinking_enabled options) (fun enabled : bool =>
    json_object [(lit "type", str_value (if enabled then "enabled" else "disabled"))]) body in
  let body := insert_some "reasoning_effort" (ds_reasoning_effort options)
    (fun e => Str (DeepSeekReasoningEffort_as_str e)) body in
  mret (base_compiled DeepSeek (lit "https://api.deepseek.com") (lit "/chat/completions")
          AuthorizationBearer ProtoSse body).

Definition ollama_think (thinking : OllamaThinking) : Value Num :=
  match thinking with
  | OlDisabled => Bool false
  | OlEnabled => Bool true
  | OlLow => str_value "low"
  | OlMedium => str_value "medium"
  | OlHigh => str_value "high"
  | OlMax => str_value "max"
  end.

Definition compile_ollama_cloud (request : ProviderRequest Num) (options : OllamaCloudOptions)
    (conv : NormalizedConversation) : PResult (CompiledProviderRequest Num) :=
  let body := insert "model" (Str (model_id request)) [] in
  input ← messages_with_system conv "assistant";
  let body := insert "messages" (Array input) body in
  let body := insert "stream" (Bool true) body in
  let generation_options := insert_generation_scalar_fields [] (generation request) DiOllama in
  let body := if is_empty generation_options then body
              else insert "options" (Object generation_options) body in
  let body := insert_some "think" (ol_thinking options) ollama_think body in
  mret (base_compiled OllamaCloud (lit "https://ollama.com") (lit "/api/chat")
          AuthorizationBearer ProtoNdjson body).

Definition safety_value (vertex : bool) (setting : GoogleSafetySetting) : Value Num :=
  let value := insert "category" (Str (GoogleSafetyCategory_as_str (category setting))) [] in
  let value := insert "threshold" (Str (GoogleSafetyThreshold_as_str (threshold setting))) value in
  Object (if vertex
          then insert_some "method" (method setting)
                 (fun m => Str (GoogleSafetyMethod_as_str m)) value
          else value).

Definition thinking_config (thinking : GoogleThinking) : Value Num :=
  let config := insert_some "thinkingLevel" (level thinking)
    (fun l => Str (GoogleThinkingLevel_as_str l)) [] in
  let config := insert_some "thinkingBudget" (go_budget_tokens thinking) json_int config in
  Object (insert "includeThoughts" (Bool (include_thoughts thinking)) config).

Definition google_generation_config (generation : GenerationOptions Num)
    (thinking : option GoogleThinking) : Map :=
  let config := insert_generation_scalar_fields [] generation DiGoogle in
  let config :=
    match response_format generation with
    | Text => insert "responseMimeType" (str_value "text/plain") config
    | JsonObject => insert "responseMimeType" (str_value "application/json") config
    | JsonSchema schema =>
        insert "responseJsonSchema" schema
          (insert "responseMimeType" (str_value "application/json") config)
    end in
  insert_some "thinkingConfig" thinking thinking_config config.

Definition compile_google_body (request : ProviderRequest Num) (conv : NormalizedConversation)
    (thinking : option GoogleThinking) (safety_settings : list GoogleSafetySetting)
    (cached_content service_tier : option str) (vertex : bool) : PResult Map :=
  contents ← google_messages (conversation conv);
  let body := insert "contents" (Array contents) [] in
  let body := insert_some "systemInstruction" (system conv) (fun system =>
    json_object [(lit "parts", Array [json_object [(lit "text", Str system)]])]) body in
  let body := insert "generationConfig"
    (Object (google_generation_config (generation request) thinking)) body in
  let body := insert_some "cachedContent" cached_content Str body in
  let body := if is_empty safety_settings then body
              else insert "safetySettings" (Array (map (safety_value vertex) safety_settings)) body in
  let body := insert_some "serviceTier" service_tier Str body in
  mret (if vertex then body else insert "store" (Bool false) body).

Definition compile_google_gemini (request : ProviderRequest Num) (options : GoogleOptions)
    (conv : NormalizedConversation) : PResult (CompiledProviderRequest Num) :=
  body ← compile_google_body request conv (go_thinking options) (go_safety_settings options)
           (go_cached_content options) (GoogleServiceTier_as_str <$> go_service_tier options) false;
  mret (base_compiled GoogleGemini (lit "https://generativelanguage.googleapis.com")
          (lit "/v1beta/models/" ++ model_id request ++ lit ":streamGenerateContent?alt=sse")
          GoogleXGoogApiKey ProtoSse body).

Definition vertex_origin (location : str) : str :=
  if str_eqb location (lit "global") then lit "https://aiplatform.googleapis.com"
  else lit "https://" ++ location ++ lit "-aiplatform.googleapis.com".

Definition compile_google_vertex (request : ProviderRequest Num) (options : VertexAiOptions)
    (conv : NormalizedConversation) : PResult (CompiledProviderRequest Num) :=
  let path := lit "/v1/projects/" ++ project_id options ++ lit "/locations/" ++ location options
    ++ lit "/publishers/google/models/" ++ model_id request
    ++ lit ":streamGenerateContent?alt=sse" in
  body ← compile_google_body request conv (vx_thinking options) (vx_safety_settings options)
           (vx_cached_content options) None true;
  let compiled := base_compiled GoogleVertexAi (vertex_origin (location options)) path
    GoogleOAuthBearer ProtoSse body in
  let request_type :=
    match request_type options with
    | Automatic => None
    | Shared => Some (lit "shared")
    | Dedicated => Some (lit "dedicated")
    end in
  mret (mkCompiled (c_provider compiled) (origin compiled) (path_and_query compiled)
          (auth_scheme compiled)
          (match request_type with
           | Some value => (lit "X-Vertex-AI-LLM-Request-Type", value) :: static_headers compiled
           | None => static_headers compiled
           end)
          (stream_protocol compiled) (ProviderCompile.body compiled)
          (c_tokenizer_override compiled)).

Definition merge_parameter (object : Map) (entry : str * Value Num) : PResult Map :=
  if contains_key object entry.1 then fail (ExtraParameterCollision entry.1)
  else Ok (map_insert object entry.1 entry.2).

(** [expect]: the compilers always build an object. *)
Definition merge_additional_parameters (body : Value Num) (parameters : Map) :
    PResult (Value Num) :=
  match body with
  | Object object => object ← foldM_result merge_parameter object parameters; mret (Object object)
  | _ => Err Panic
  end.

Definition compile_options (request : ProviderRequest Num) (conv : NormalizedConversation) :
    PResult (CompiledProviderRequest Num) :=
  match provider_options request with
  | OpenAiOpts options => compile_openai request options conv
  | AnthropicOpts options => compile_anthropic request options conv
  | DeepSeekOpts options => compile_deepseek request options conv
  | OllamaCloudOpts options => compile_ollama_cloud request options conv
  | GoogleGeminiOpts options => compile_google_gemini request options conv
  | GoogleVertexAiOpts options => compile_google_vertex request options conv
  end.

Definition compile_request (request : ProviderRequest Num) :
    PResult (CompiledProviderRequest Num) :=
  _ ← validate_request request;
  let conv := normalize_conversation (messages request) (role_policy (generation request)) in
  compiled ← compile_options request conv;
  body ← merge_additional_parameters (body compiled) (additional_parameters request);
  mret (mkCompiled (c_provider compiled) (origin compiled) (path_and_query compiled)
          (auth_scheme compiled) (static_headers compiled) (stream_protocol compiled) body
          (tokenizer_override request)).
End compile.
