(* ===== verification/ProviderCompileFacts.v ===== *)
(** * Providers: what a compiled request is

    The theorems about [compile_request]: it never panics, it addresses the official
    endpoint of its provider only, the body carries exactly the normalised
    conversation and every option that was set, and additional parameters extend
    the body without changing it. *)

From stdpp Require Import pretty.
From S2P Require Import Prelude Bytes Utf8 Float64 Json ProviderConfig ProviderCompile.

(** ** Absence of panics *)

Definition no_panic {A} (m : PResult A) : Prop := m <> Err Panic.

Create HintDb no_panic.

Lemma no_panic_Ok {A} (a : A) : no_panic (Ok a).
Proof. done. Qed.
Lemma no_panic_fail {A} e : no_panic (@fail A e).
Proof. done. Qed.
Lemma no_panic_invalid {A} f r : no_panic (@invalid A f r).
Proof. done. Qed.
Lemma no_panic_ok_or {A} (o : option A) e : no_panic (ok_or o (Failed e)).
Proof. by destruct o. Qed.

Lemma no_panic_bind {A B} (m : PResult A) (f : A -> PResult B) :
  no_panic m -> (forall a, m = Ok a -> no_panic (f a)) -> no_panic (m ≫= f).
Proof. destruct m; cbn; [eauto | unfold no_panic; congruence]. Qed.

Lemma no_panic_foldM {A B} (f : B -> A -> PResult B) acc l :
  (forall b a, no_panic (f b a)) -> no_panic (foldM_result f acc l).
Proof.
  intros Hf. revert acc. induction l as [|a l IH]; intros acc; cbn; [done|].
  apply no_panic_bind; auto.
Qed.

Lemma no_panic_forM {A} (f : A -> PResult unit) l :
  (forall a, no_panic (f a)) -> no_panic (forM_result f l).
Proof.
  intros Hf. induction l as [|a l IH]; cbn; [done|]. apply no_panic_bind; auto.
Qed.

Lemma no_panic_when_some {A} (o : option A) f :
  (forall a, no_panic (f a)) -> no_panic (when_some o f).
Proof. destruct o; cbn; auto. done. Qed.

#[export] Hint Resolve no_panic_Ok no_panic_fail no_panic_invalid no_panic_ok_or no_panic_bind
  no_panic_foldM no_panic_forM no_panic_when_some : no_panic.

(** Walk down binds and tests. *)
Ltac no_panic :=
  repeat first
    [ progress intros
    | match goal with
      | |- no_panic (Ok _) => apply no_panic_Ok
      | |- no_panic (mret _) => apply no_panic_Ok
      | |- no_panic (fail _) => apply no_panic_fail
      | |- no_panic (invalid _ _) => apply no_panic_invalid
      | |- no_panic (_ ≫= _) => apply no_panic_bind
      | |- no_panic (when_some _ _) => apply no_panic_when_some
      | |- no_panic (forM_result _ _) => apply no_panic_forM
      | |- no_panic (foldM_result _ _ _) => apply no_panic_foldM
      | |- no_panic (ok_or _ (Failed _)) => apply no_panic_ok_or
      | |- no_panic (if ?b then _ else _) => destruct b eqn:?
      | |- no_panic (match ?x with _ => _ end) => destruct x eqn:?
      end ].

Lemma no_panic_require p c : no_panic (require_capability p c).
Proof. unfold require_capability. no_panic. Qed.
Lemma no_panic_text f v m : no_panic (validate_text_field f v m).
Proof. unfold validate_text_field. no_panic. Qed.
Lemma no_panic_path f v b : no_panic (validate_path_segment f v b).
Proof. unfold validate_path_segment. no_panic. apply no_panic_text. Qed.
Lemma no_panic_cache f v : no_panic (validate_cache_resource f v).
Proof. unfold validate_cache_resource. no_panic. apply no_panic_text. Qed.
Lemma no_panic_float f v a b : no_panic (validate_float_range f v a b).
Proof. unfold validate_float_range, invalid_number. no_panic. Qed.

#[export] Hint Resolve no_panic_require no_panic_text no_panic_path no_panic_cache
  no_panic_float : no_panic.

Section facts.
Context {Num : Type} `{ProviderJson Num}.
Implicit Types r : ProviderRequest Num.

(** The one [unreachable!] of validation sits behind the capability check. *)
Lemma no_panic_stop p :
  (exists u, require_capability p CStopSequences = Ok u) -> no_panic (stop_maximum p).
Proof. intros [u Hu]. by destruct p. Qed.

Lemma no_panic_generation p (g : GenerationOptions Num) : no_panic (validate_generation p g).
Proof.
  unfold validate_generation, invalid_number, validate_response_format, validate_json_schema.
  no_panic; eauto with no_panic. apply no_panic_stop. eauto.
Qed.

Lemma no_panic_options r : no_panic (validate_provider_options r).
Proof.
  unfold validate_provider_options, validate_openai_options, validate_anthropic_options,
    validate_deepseek_options, validate_google_options, validate_vertex_options,
    validate_google_thinking, validate_safety_settings, check_safety_setting.
  no_panic; eauto with no_panic.
Qed.

Lemma no_panic_validate r : no_panic (validate_request r).
Proof.
  unfold validate_request, validate_messages, scan_message, validate_role_contract,
    check_alternation, validate_tokenizer_override, validate_additional_parameters,
    validate_additional_parameter.
  no_panic; eauto using no_panic_generation, no_panic_options with no_panic.
Qed.

(** ** The conversation

    Specification: a system prompt of the system messages, and the other messages
    with each run of one role joined when the policy says so. *)

Definition conversation_of (messages : list ChatMessage) : list ChatMessage :=
  List.filter is_conversation messages.

Fixpoint merge_runs (messages : list ChatMessage) : list ChatMessage :=
  match messages with
  | [] => []
  | m :: rest =>
      match merge_runs rest with
      | next :: rest' =>
          if bool_decide (role m = role next)
          then mkChatMessage (role m) (content m ++ PARAGRAPH ++ content next) :: rest'
          else m :: next :: rest'
      | [] => [m]
      end
  end.

Definition spec_conversation (messages : list ChatMessage) (policy : RolePolicy) :
    list ChatMessage :=
  match policy with
  | Preserve => conversation_of messages
  | MergeConsecutive => merge_runs (conversation_of messages)
  end.

Definition spec_system (messages : list ChatMessage) : option str :=
  match List.filter (fun m => bool_decide (role m = System)) messages with
  | [] => None
  | systems => Some (join PARAGRAPH (map content systems))
  end.

Lemma push_preserve (l acc : list ChatMessage) :
  foldl (push_normalized Preserve) acc l = acc ++ l.
Proof.
  revert acc. induction l as [|m l IH]; intros acc; cbn [foldl].
  { by rewrite app_nil_r. }
  rewrite IH. cbn. by rewrite <- app_assoc.
Qed.

Lemma push_snoc acc last m :
  push_normalized MergeConsecutive (acc ++ [last]) m =
  if bool_decide (role last = role m)
  then acc ++ [mkChatMessage (role last) (content last ++ PARAGRAPH ++ content m)]
  else acc ++ [last; m].
Proof.
  unfold push_normalized. rewrite last_snoc. destruct (bool_decide _).
  - by rewrite removelast_last.
  - by rewrite <- app_assoc.
Qed.

Lemma merge_runs_cons m l :
  exists text rest, merge_runs (m :: l) = mkChatMessage (role m) text :: rest.
Proof.
  cbn. destruct (merge_runs l) as [|next rest]; [destruct m; eauto|].
  case_bool_decide; destruct m; eauto.
Qed.

(** Folding from the left into the last message is merging the runs. *)
Lemma push_merge l acc last :
  foldl (push_normalized MergeConsecutive) (acc ++ [last]) l = acc ++ merge_runs (last :: l).
Proof.
  revert acc last. induction l as [|m l IH]; intros acc last; cbn [foldl]; [done|].
  rewrite push_snoc. destruct (bool_decide (role last = role m)) eqn:Hr.
  - rewrite IH. f_equal. apply bool_decide_eq_true in Hr.
    cbn [merge_runs]. destruct (merge_runs l) as [|next rest]; cbn [role content].
    + rewrite bool_decide_true by done. done.
    + rewrite <- Hr. destruct (bool_decide (role last = role next)) eqn:Hn; cbn [role content].
      * rewrite bool_decide_true by done. by rewrite <- !app_assoc.
      * rewrite bool_decide_true by done. done.
  - change (acc ++ [last; m]) with (acc ++ [last] ++ [m]). rewrite app_assoc, IH, <- app_assoc.
    f_equal. cbn [app]. destruct (merge_runs_cons m l) as (text & rest & Heq).
    cbn [merge_runs] in Heq |- *. rewrite Heq. cbn [role]. by rewrite Hr.
Qed.

Lemma normalize_conversation_spec msgs policy :
  conversation (normalize_conversation msgs policy) = spec_conversation msgs policy.
Proof.
  unfold normalize_conversation, spec_conversation, conversation_of. cbn [conversation].
  destruct policy; [by rewrite push_preserve|].
  destruct (List.filter is_conversation msgs) as [|m l]; [done|]. cbn [foldl].
  change (push_normalized MergeConsecutive [] m) with ([] ++ [m]). by rewrite push_merge.
Qed.

(** Validated messages are not empty, so a system prompt is absent only when there
    is no system message. *)
Lemma scan_non_empty l st st' :
  foldM_result scan_message st l = Ok st' -> Forall (fun m => content m <> []) l.
Proof.
  revert st. induction l as [|m l IH]; intros st Hs; [done|]. cbn in Hs.
  apply bind_Ok in Hs as (st1 & H1 & H2). constructor; [|by eapply IH].
  unfold scan_message in H1. intros He. rewrite He in H1. done.
Qed.

Lemma join_non_empty sep (p : str) l : p <> [] -> join sep (p :: l) <> [].
Proof. destruct p; [done|]. by destruct l. Qed.

Lemma normalize_system msgs policy :
  Forall (fun m => content m <> []) msgs ->
  system (normalize_conversation msgs policy) = spec_system msgs.
Proof.
  intros Hne. unfold normalize_conversation, spec_system. cbn [system].
  assert (Hext : List.filter (fun m => negb (is_conversation m)) msgs =
                 List.filter (fun m => bool_decide (role m = System)) msgs).
  { clear Hne. induction msgs as [|m l IH]; [done|]. cbn [List.filter].
    rewrite IH. unfold is_conversation. by destruct m as [[] c]. }
  rewrite Hext. clear Hext. destruct (List.filter _ msgs) as [|m l] eqn:Hf; [done|].
  assert (Hm : content m <> []).
  { rewrite Forall_forall in Hne. apply Hne.
    assert (Hin : In m (m :: l)) by (by left). rewrite <- Hf in Hin. by apply filter_In in Hin as [Hin _]. }
  destruct (is_empty (join PARAGRAPH (map content (m :: l)))) eqn:He; [|done].
  apply is_empty_true in He. by apply join_non_empty in He.
Qed.

Lemma spec_conversation_roles msgs policy :
  Forall (fun m => role m <> System) (spec_conversation msgs policy).
Proof.
  assert (Hc : Forall (fun m => role m <> System) (conversation_of msgs)).
  { apply Forall_forall. intros m [_ Hm]%filter_In. unfold is_conversation in Hm.
    by apply bool_decide_eq_true in Hm. }
  destruct policy; [done|]. cbn [spec_conversation].
  induction Hc as [|m l Hm Hl IH]; [constructor|]. cbn [merge_runs].
  destruct (merge_runs l) as [|next rest]; [by repeat constructor|].
  inversion IH; subst. case_bool_decide; repeat constructor; done.
Qed.

(** ** No panics, concluded *)

Lemma no_panic_mapM {A B} (f : A -> PResult B) l :
  Forall (fun a => no_panic (f a)) l -> no_panic (mapM_result f l).
Proof.
  induction 1 as [|a l Ha Hl IH]; cbn; [done|].
  apply no_panic_bind; [done|intros]. apply no_panic_bind; [done|intros]. done.
Qed.

Lemma no_panic_chat conv name :
  Forall (fun m => role m <> System) conv ->
  no_panic (chat_messages (Num := Num) conv name) /\ no_panic (google_messages (Num := Num) conv).
Proof.
  intros Hc. split; apply no_panic_mapM; (eapply Forall_impl; [|exact Hc]);
    intros [[] c] Hm; try discriminate; by destruct Hm.
Qed.

Lemma no_panic_compile_options r conv :
  Forall (fun m => role m <> System) (conversation conv) -> no_panic (compile_options r conv).
Proof.
  intros Hc. unfold compile_options, compile_openai, compile_anthropic, compile_deepseek,
    compile_ollama_cloud, compile_google_gemini, compile_google_vertex, compile_google_body,
    messages_with_system.
  no_panic; first [by apply no_panic_chat | by apply (no_panic_chat _ "")].
Qed.

(** The compiled body is an object. *)
Lemma compile_options_object r conv c :
  compile_options r conv = Ok c -> exists members, body c = Object members.
Proof.
  unfold compile_options, compile_openai, compile_anthropic, compile_deepseek,
    compile_ollama_cloud, compile_google_gemini, compile_google_vertex.
  intros Hc. destruct (provider_options r);
    repeat (apply bind_Ok in Hc as (? & _ & Hc)); injection Hc as <-; eauto.
Qed.
(** ** Looking up what was inserted *)

Lemma get_insert name value (m : list (str * Value Num)) k :
  map_get (insert name value m) k = if str_eqb (lit name) k then Some value else map_get m k.
Proof. apply map_get_insert. Qed.

Lemma get_insert_some {A} name (o : option A) f (m : list (str * Value Num)) k :
  map_get (insert_some name o f m) k =
  if str_eqb (lit name) k then match o with Some a => Some (f a) | None => map_get m k end
  else map_get m k.
Proof. destruct o; cbn [insert_some]; [apply get_insert|]. by destruct (str_eqb _ k). Qed.

Lemma get_if (b : bool) (m m' : list (str * Value Num)) k :
  map_get (if b then m else m') k = if b then map_get m k else map_get m' k.
Proof. by destruct b. Qed.

(** Merging additional parameters keeps what is there and adds the parameters. *)
Lemma merge_parameters_spec params (members members' : list (str * Value Num)) :
  foldM_result merge_parameter members params = Ok members' ->
  (forall k, map_get members' k =
     match map_get members k with Some v => Some v | None => map_get params k end) /\
  Forall (fun p => map_get members p.1 = None) params /\ NoDup (map fst params).
Proof.
  revert members. induction params as [|[key value] params IH]; intros members Hm.
  { cbn in Hm. injection Hm as <-. repeat split; try constructor.
    intros k. by destruct (map_get members k). }
  cbn in Hm. apply bind_Ok in Hm as (members1 & H1 & H2). unfold merge_parameter in H1.
  cbn [fst snd] in H1. destruct (contains_key members key) eqn:Hk; [done|].
  apply contains_key_get in Hk. injection H1 as <-. apply IH in H2 as (Hget & Hall & Hnd).
  assert (Hfresh : Forall (fun p => map_get members p.1 = None /\ p.1 <> key) params).
  { eapply Forall_impl; [|exact Hall]. intros p Hp. cbn in Hp. rewrite map_get_insert in Hp.
    destruct (str_eqb key p.1) eqn:He; [done|]. apply str_eqb_neq in He. split; congruence. }
  split; [|split].
  - intros k. rewrite Hget, map_get_insert. cbn [map_get].
    destruct (str_eqb key k) eqn:He; [|done]. apply str_eqb_eq in He as <-. by rewrite Hk.
  - constructor; [done|]. eapply Forall_impl; [|exact Hfresh]. by intros p [? _].
  - cbn [map fst]. constructor; [|done]. intros Hin%list_elem_of_In%in_map_iff.
    destruct Hin as ([k v] & He & Hin). rewrite Forall_forall in Hfresh.
    apply Hfresh in Hin as [_ Hin]. cbn in *. congruence.
Qed.

(** What a successful compilation consists of. *)
Lemma compile_request_inv r c :
  compile_request r = Ok c ->
  validate_request r = Ok tt /\
  exists typed members members',
    compile_options r (normalize_conversation (messages r) (role_policy (generation r))) = Ok typed /\
    body typed = Object members /\
    foldM_result merge_parameter members (additional_parameters r) = Ok members' /\
    body c = Object members' /\
    c_provider c = c_provider typed /\ origin c = origin typed /\
    path_and_query c = path_and_query typed /\ auth_scheme c = auth_scheme typed /\
    static_headers c = static_headers typed /\ stream_protocol c = stream_protocol typed /\
    c_tokenizer_override c = tokenizer_override r.
Proof.
  unfold compile_request. intros Hc.
  apply bind_Ok in Hc as ([] & Hv & Hc). apply bind_Ok in Hc as (typed & Ht & Hc).
  destruct (compile_options_object _ _ _ Ht) as [members Hm]. rewrite Hm in Hc.
  apply bind_Ok in Hc as (b & Hb & Hc). cbn [merge_additional_parameters] in Hb.
  apply bind_Ok in Hb as (members' & Hf & Hb). injection Hb as <-. injection Hc as <-.
  split; [done|]. exists typed, members, members'. by repeat split.
Qed.

(** What validation established. *)
Lemma validate_request_inv r :
  validate_request r = Ok tt ->
  provider r = provider_id (provider_options r) /\
  (is_google (provider r) = true -> validate_path_segment "modelId" (model_id r) false = Ok tt) /\
  validate_messages (messages r) = Ok tt /\
  validate_generation (provider r) (generation r) = Ok tt /\
  validate_role_contract r = Ok tt /\
  validate_provider_options r = Ok tt /\
  validate_additional_parameters (additional_parameters r) = Ok tt.
Proof.
  unfold validate_request. intros Hv. case_bool_decide as Hp; [done|].
  apply bind_Ok in Hv as ([] & _ & Hv). apply bind_Ok in Hv as ([] & Hseg & Hv).
  apply bind_Ok in Hv as ([] & Hmsg & Hv). apply bind_Ok in Hv as ([] & Hgen & Hv).
  apply bind_Ok in Hv as ([] & Hrole & Hv). apply bind_Ok in Hv as ([] & Hopt & Hv).
  apply bind_Ok in Hv as ([] & _ & Hv). repeat split; try done.
  intros Hg. by rewrite Hg in Hseg.
Qed.

Lemma validate_messages_inv msgs :
  validate_messages msgs = Ok tt -> Forall (fun m => content m <> []) msgs.
Proof.
  unfold validate_messages. case_match; [done|]. intros Hv.
  apply bind_Ok in Hv as (st & Hs & _). by eapply scan_non_empty.
Qed.
(** ** Additional parameters have no reserved name *)

Lemma validate_extras_inv params :
  validate_additional_parameters params = Ok tt ->
  Forall (fun p => is_reserved_extra_parameter p.1 = false /\
                   find_sensitive_nested_key p.2 = None /\
                   value_depth p.2 <= MAX_ADDITIONAL_PARAMETER_DEPTH) params.
Proof.
  unfold validate_additional_parameters. case_match; [done|]. intros Hv.
  apply bind_Ok in Hv as (bytes & _ & Hv). case_match; [done|].
  apply forM_result_Ok in Hv. eapply Forall_impl; [|exact Hv]. intros [k v] Hp.
  cbn [validate_additional_parameter fst snd] in *. case_match; [done|]. case_match; [done|].
  case_match; [done|]. case_match; [done|]. repeat split; try done. lia.
Qed.

Lemma map_get_In (m : list (str * Value Num)) k v : map_get m k = Some v -> In (k, v) m.
Proof.
  induction m as [|[k0 v0] m IH]; [done|]. cbn [map_get]. destruct (str_eqb k0 k) eqn:He.
  - apply str_eqb_eq in He as ->. intros [= ->]. by left.
  - intros Hg. right. by apply IH.
Qed.

Lemma extras_no_reserved params k :
  validate_additional_parameters params = Ok tt -> is_reserved_extra_parameter k = true ->
  map_get params k = None.
Proof.
  intros Hv Hk. apply validate_extras_inv in Hv. destruct (map_get params k) as [v|] eqn:Hg; [|done].
  apply map_get_In in Hg. rewrite Forall_forall in Hv. apply Hv in Hg as [Hg _]. cbn in Hg. congruence.
Qed.

(** A reserved member of the final body is what the provider's compiler put there. *)
Lemma reserved_members r c :
  compile_request r = Ok c ->
  exists typed members,
    compile_options r (normalize_conversation (messages r) (role_policy (generation r))) = Ok typed /\
    body typed = Object members /\
    forall k, is_reserved_extra_parameter k = true -> get (body c) k = map_get members k.
Proof.
  intros Hc. apply compile_request_inv in Hc as (Hv & typed & members & members' & Ht & Hb & Hf & Hbc & _).
  exists typed, members. split; [done|]. split; [done|]. intros k Hk. rewrite Hbc. cbn [get].
  apply merge_parameters_spec in Hf as (Hget & _). rewrite Hget.
  apply validate_request_inv in Hv as (_ & _ & _ & _ & _ & _ & Hx).
  rewrite (extras_no_reserved _ _ Hx Hk). by destruct (map_get members k).
Qed.
End facts.

(** ** Targets *)

Definition safe_segment (s : str) : Prop :=
  Forall (fun b => path_byte false b = true) s /\ s <> [] /\ s <> lit "." /\ s <> lit "..".

Lemma path_byte_lower b : path_byte true b = true -> path_byte false b = true.
Proof.
  unfold path_byte, is_ascii_alphanumeric, is_ascii_alphabetic.
  destruct (is_ascii_uppercase b), (is_ascii_lowercase b), (is_ascii_digit b), (one_of _ b); done.
Qed.

Lemma validate_path_segment_safe field s lower :
  validate_path_segment field s lower = Ok tt -> safe_segment s.
Proof.
  unfold validate_path_segment. intros Hv. apply bind_Ok in Hv as ([] & Ht & Hv).
  destruct (negb _ || _ || _) eqn:Hc in Hv; [done|].
  apply orb_false_iff in Hc as [Hc H2]. apply orb_false_iff in Hc as [Hf H1].
  apply negb_false_iff in Hf. apply str_eqb_neq in H1, H2. split; [|split; [|done]].
  - apply Forall_forall. rewrite forallb_forall in Hf. intros b Hb.
    destruct lower; [apply path_byte_lower|]; by apply Hf.
  - intros ->. done.
Qed.

Lemma safe_no_slash s : safe_segment s -> SLASH ∉ s.
Proof.
  intros [Hs _] Hin%list_elem_of_In. rewrite Forall_forall in Hs. by apply Hs in Hin.
Qed.

(** The fixed address of each provider; only Google paths and Vertex hosts depend
    on the request, through single safe segments. *)
Definition official_target {Num} (p : ProviderId) (c : CompiledProviderRequest Num) : Prop :=
  match p with
  | OpenAi => origin c = lit "https://api.openai.com" /\ path_and_query c = lit "/v1/responses" /\
      auth_scheme c = AuthorizationBearer
  | Anthropic => origin c = lit "https://api.anthropic.com" /\
      path_and_query c = lit "/v1/messages" /\ auth_scheme c = AnthropicXApiKey
  | DeepSeek => origin c = lit "https://api.deepseek.com" /\
      path_and_query c = lit "/chat/completions" /\ auth_scheme c = AuthorizationBearer
  | OllamaCloud => origin c = lit "https://ollama.com" /\ path_and_query c = lit "/api/chat" /\
      auth_scheme c = AuthorizationBearer
  | GoogleGemini =>
      origin c = lit "https://generativelanguage.googleapis.com" /\
      auth_scheme c = GoogleXGoogApiKey /\
      exists model, safe_segment model /\
        split_on SLASH (path_and_query c) =
          [[]; lit "v1beta"; lit "models"; model ++ lit ":streamGenerateContent?alt=sse"]
  | GoogleVertexAi =>
      auth_scheme c = GoogleOAuthBearer /\
      exists project location model,
        safe_segment project /\ safe_segment location /\ safe_segment model /\
        (origin c = lit "https://aiplatform.googleapis.com" \/
         origin c = lit "https://" ++ location ++ lit "-aiplatform.googleapis.com") /\
        split_on SLASH (path_and_query c) =
          [[]; lit "v1"; lit "projects"; project; lit "locations"; location;
           lit "publishers"; lit "google"; lit "models";
           model ++ lit ":streamGenerateContent?alt=sse"]
  end.

Lemma split_model model :
  safe_segment model ->
  split_on SLASH (model ++ lit ":streamGenerateContent?alt=sse") =
  [model ++ lit ":streamGenerateContent?alt=sse"].
Proof.
  intros Hm. apply split_on_no. rewrite elem_of_app. intros [Hi|Hi].
  - by apply safe_no_slash in Hm.
  - revert Hi. by apply (bool_decide_unpack (SLASH ∉ lit ":streamGenerateContent?alt=sse")).
Qed.

Lemma gemini_path model :
  safe_segment model ->
  split_on SLASH (lit "/v1beta/models/" ++ model ++ lit ":streamGenerateContent?alt=sse") =
  [[]; lit "v1beta"; lit "models"; model ++ lit ":streamGenerateContent?alt=sse"].
Proof.
  intros Hm. rewrite <- split_model by done. reflexivity.
Qed.

Lemma vertex_path project location model :
  safe_segment project -> safe_segment location -> safe_segment model ->
  split_on SLASH (lit "/v1/projects/" ++ project ++ lit "/locations/" ++ location
    ++ lit "/publishers/google/models/" ++ model ++ lit ":streamGenerateContent?alt=sse") =
  [[]; lit "v1"; lit "projects"; project; lit "locations"; location;
   lit "publishers"; lit "google"; lit "models"; model ++ lit ":streamGenerateContent?alt=sse"].
Proof.
  intros Hp Hl Hm.
  change (lit "/locations/" ++ ?rest) with (SLASH :: lit "locations/" ++ rest).
  change (lit "/publishers/google/models/" ++ ?rest)
    with (SLASH :: lit "publishers/google/models/" ++ rest).
  transitivity ([] :: lit "v1" :: lit "projects" ::
    split_on SLASH (project ++ SLASH :: lit "locations/" ++ location ++
      SLASH :: lit "publishers/google/models/" ++ model ++ lit ":streamGenerateContent?alt=sse")).
  { reflexivity. }
  rewrite split_on_app by (by apply safe_no_slash). do 4 f_equal.
  transitivity (lit "locations" :: split_on SLASH (location ++
      SLASH :: lit "publishers/google/models/" ++ model ++ lit ":streamGenerateContent?alt=sse")).
  { reflexivity. }
  rewrite split_on_app by (by apply safe_no_slash). do 2 f_equal.
  rewrite <- split_model by done. reflexivity.
Qed.

(** A compiled request is addressed to the official HTTPS origin of its own
    provider, with the path fixed up to single safe segments (no slash, no query, no
    dot segment) and the authentication scheme of that provider: no field of the
    request can redirect the credential elsewhere. *)
Theorem compiled_target_is_official {Num} `{ProviderJson Num} (r : ProviderRequest Num) c :
  compile_request r = Ok c ->
  c_provider c = provider r /\ official_target (provider r) c /\
  Forall (fun h => h.1 ∈ [lit "content-type"; lit "anthropic-version";
                          lit "X-Vertex-AI-LLM-Request-Type"]) (static_headers c).
Proof.
  intros Hc. apply compile_request_inv in Hc as (Hv & typed & members & members' & Ht & Hb & Hf & Hbc
    & Hpr & Ho & Hpath & Hauth & Hh & _). unfold official_target. rewrite Hpr, Ho, Hpath, Hauth, Hh.
  clear Hpr Ho Hpath Hauth Hh. apply validate_request_inv in Hv as (Hp & Hseg & _ & _ & _ & Hopt & _).
  unfold validate_provider_options in Hopt. unfold compile_options in Ht. rewrite Hp in *.
  destruct (provider_options r) as [o|o|o|o|o|o]; cbn [provider_id] in *;
    unfold compile_openai, compile_anthropic, compile_deepseek, compile_ollama_cloud,
      compile_google_gemini, compile_google_vertex in Ht;
    repeat (apply bind_Ok in Ht as (? & _ & Ht)); injection Ht as <-;
    cbn [base_compiled c_provider origin path_and_query auth_scheme static_headers].
  1-4: repeat split; repeat constructor; set_solver.
  - specialize (Hseg eq_refl). apply validate_path_segment_safe in Hseg.
    repeat split; [|repeat constructor; set_solver].
    exists (model_id r). split; [done|]. by apply gemini_path.
  - specialize (Hseg eq_refl). apply validate_path_segment_safe in Hseg.
    unfold validate_vertex_options in Hopt.
    apply bind_Ok in Hopt as ([] & Hproj & Hopt). apply bind_Ok in Hopt as ([] & Hloc & _).
    apply validate_path_segment_safe in Hproj, Hloc.
    repeat split; [|destruct (request_type o); repeat constructor; set_solver].
    exists (project_id o), (location o), (model_id r). do 3 (split; [done|]).
    split; [|by apply vertex_path]. unfold vertex_origin.
    destruct (str_eqb (location o) (lit "global")); [by left|by right].
Qed.

(** ** The conversation a provider reads from the body *)

Section reading.
Context {Num : Type}.
Implicit Types v : Value Num.

Definition text_of v (key : string) : option str := get v (lit key) ≫= as_str.

Definition read_role (assistant : string) (name : str) : option MessageRole :=
  if str_eqb name (lit "user") then Some User
  else if str_eqb name (lit assistant) then Some Assistant
  else if str_eqb name (lit "system") then Some System
  else None.

Definition read_message (assistant : string) v : option ChatMessage :=
  role ← text_of v "role" ≫= read_role assistant;
  content ← text_of v "content";
  Some (mkChatMessage role content).

(** [parts[0].text] *)
Definition read_parts v : option str :=
  match get v (lit "parts") with
  | Some (Array [part]) => text_of part "text"
  | _ => None
  end.

Definition read_google_message v : option ChatMessage :=
  role ← text_of v "role" ≫= read_role "model";
  content ← read_parts v;
  Some (mkChatMessage role content).

Definition read_array (read : Value Num -> option ChatMessage) v (key : string) :
    option (list ChatMessage) :=
  items ← get v (lit key) ≫= as_array;
  mapM read items.

(** The system prompt and the messages, by the wire format of the provider. *)
Definition read_conversation (p : ProviderId) (body : Value Num) :
    option (option str * list ChatMessage) :=
  match p with
  | OpenAi =>
      messages ← read_array (read_message "assistant") body "input";
      Some (text_of body "instructions", messages)
  | Anthropic =>
      messages ← read_array (read_message "assistant") body "messages";
      Some (text_of body "system", messages)
  | DeepSeek | OllamaCloud =>
      messages ← read_array (read_message "assistant") body "messages";
      match messages with
      | mkChatMessage System content :: rest => Some (Some content, rest)
      | _ => Some (None, messages)
      end
  | GoogleGemini | GoogleVertexAi =>
      messages ← read_array read_google_message body "contents";
      Some (get body (lit "systemInstruction") ≫= read_parts, messages)
  end.

Lemma read_chat_messages conv vs :
  chat_messages conv "assistant" = Ok vs -> mapM (read_message "assistant") vs = Some conv.
Proof.
  revert vs. induction conv as [|[[] c] conv IH]; intros vs Hc; cbn in Hc.
  { by injection Hc as <-. }
  { done. }
  all: apply bind_Ok in Hc as (rest & Hr & Hc); injection Hc as <-;
    cbn [mapM]; rewrite (IH _ Hr); reflexivity.
Qed.

Lemma read_google_messages conv vs :
  google_messages conv = Ok vs -> mapM read_google_message vs = Some conv.
Proof.
  revert vs. induction conv as [|[[] c] conv IH]; intros vs Hc; cbn in Hc.
  { by injection Hc as <-. }
  { done. }
  all: apply bind_Ok in Hc as (rest & Hr & Hc); injection Hc as <-;
    cbn [mapM]; rewrite (IH _ Hr); reflexivity.
Qed.
End reading.

(** Look a literal key up in a body under construction. *)
Ltac literal_keys :=
  repeat match goal with
  | |- context [str_eqb (lit ?a) (lit ?b)] =>
      let r := eval vm_compute in (str_eqb (lit a) (lit b)) in
      change (str_eqb (lit a) (lit b)) with r; cbv iota
  end.

Ltac body_get :=
  unfold insert_generation_scalar_fields; cbn [field_names n_temperature n_max_output_tokens n_top_p
    n_top_k n_presence_penalty n_frequency_penalty n_stop_sequences n_seed insert_named];
  repeat (rewrite ?get_insert, ?get_insert_some, ?get_if; literal_keys); cbn [map_get].

Ltac open_compiler Ht Hb :=
  repeat (apply bind_Ok in Ht as (? & ? & Ht)); injection Ht as <-;
  cbn [base_compiled body] in Hb; injection Hb as <-.

(** The formats that send the system prompt as the first message. *)
Lemma read_messages_with_system {Num} (conv : NormalizedConversation) (vs : list (Value Num)) :
  messages_with_system conv "assistant" = Ok vs ->
  (messages ← mapM (read_message "assistant") vs;
   match messages with
   | mkChatMessage System content :: rest => Some (Some content, rest)
   | _ => Some (None, messages)
   end) = Some (system conv, conversation conv).
Proof.
  unfold messages_with_system. intros Hm. apply bind_Ok in Hm as (rest & Hr & Hm).
  injection Hm as <-. pose proof (read_chat_messages _ _ Hr) as Hread.
  destruct (system conv) as [text|]; cbn [app].
  - cbn [mapM]. by rewrite Hread.
  - rewrite Hread. destruct (conversation conv) as [|[[] c] l]; [done| |done|done]. done.
Qed.

Lemma read_google_body {Num} `{ProviderJson Num} (r : ProviderRequest Num) conv thinking safety
    cached tier vertex members body :
  compile_google_body r conv thinking safety cached tier vertex = Ok members ->
  (forall k, is_reserved_extra_parameter k = true -> get body k = map_get members k) ->
  read_conversation GoogleGemini body = Some (system conv, conversation conv).
Proof.
  unfold compile_google_body. intros Hm Hget. apply bind_Ok in Hm as (contents & Hc & Hm).
  injection Hm as <-. cbn [read_conversation]. unfold read_array. rewrite !Hget by reflexivity.
  body_get. destruct vertex, (is_empty safety); cbn; rewrite (read_google_messages _ _ Hc);
    by destruct (system conv).
Qed.

(** The conversation read back from a compiled body, provider by provider. *)
Lemma body_reads_back {Num} `{ProviderJson Num} (r : ProviderRequest Num) c :
  compile_request r = Ok c ->
  read_conversation (provider r) (body c) =
  Some (spec_system (messages r),
        spec_conversation (messages r) (role_policy (generation r))).
Proof.
  intros Hc. pose proof Hc as (Hv & _)%compile_request_inv.
  apply validate_request_inv in Hv as (Hp & _ & Hmsg & _).
  apply reserved_members in Hc as (typed & members & Ht & Hb & Hget).
  set (conv := normalize_conversation _ _) in Ht.
  assert (Hsys : spec_system (messages r) = system conv).
  { symmetry. by apply normalize_system, validate_messages_inv. }
  assert (Hconv : spec_conversation (messages r) (role_policy (generation r)) = conversation conv).
  { by rewrite <- normalize_conversation_spec. }
  rewrite Hsys, Hconv, Hp. clearbody conv. clear Hsys Hconv Hp Hmsg.
  unfold compile_options in Ht.
  destruct (provider_options r) as [o|o|o|o|o|o]; cbn [provider_id read_conversation].
  - unfold compile_openai in Ht. open_compiler Ht Hb. unfold read_array, text_of.
    rewrite !Hget by reflexivity.
    destruct (response_format (generation r)), (prompt_cache o); body_get;
      cbn; rewrite (read_chat_messages _ _ H0); by destruct (system conv).
  - unfold compile_anthropic in Ht. open_compiler Ht Hb. unfold read_array, text_of.
    rewrite !Hget by reflexivity. body_get.
    destruct (is_empty _); cbn; rewrite (read_chat_messages _ _ H1); by destruct (system conv).
  - unfold compile_deepseek in Ht. open_compiler Ht Hb. unfold read_array.
    rewrite !Hget by reflexivity. apply read_messages_with_system in H0.
    destruct (response_format (generation r)); body_get; exact H0.
  - unfold compile_ollama_cloud in Ht. open_compiler Ht Hb. unfold read_array.
    rewrite !Hget by reflexivity. apply read_messages_with_system in H0.
    body_get. destruct (is_empty _); exact H0.
  - unfold compile_google_gemini in Ht. open_compiler Ht Hb.
    apply (read_google_body _ _ _ _ _ _ _ _ _ H0 Hget).
  - unfold compile_google_vertex in Ht. open_compiler Ht Hb.
    apply (read_google_body _ _ _ _ _ _ _ _ _ H0 Hget).
Qed.

(** C30: The body of a compiled request carries exactly the conversation: read back
    in the wire format of the provider, it gives the system prompt made of the system
    messages and the other messages in order, with consecutive messages of one role
    joined exactly when the role policy asks for it.  Additional parameters cannot add
    or replace any of it. *)
Theorem body_carries_the_conversation {Num} `{ProviderJson Num} (r : ProviderRequest Num) c :
  compile_request r = Ok c ->
  read_conversation (provider r) (body c) =
  Some (spec_system (messages r),
        spec_conversation (messages r) (role_policy (generation r))).
Proof. exact (body_reads_back r c). Qed.
(** ** The generation options a provider reads from the body *)

(** The member that carries an option, where the provider has one. *)
Definition wire_name (p : ProviderId) (capability : Capability) : option string :=
  match capability, p with
  | CTemperature, _ => Some "temperature"%string
  | CTopP, (GoogleGemini | GoogleVertexAi) => Some "topP"%string
  | CTopP, _ => Some "top_p"%string
  | CMaxOutputTokens, OpenAi => Some "max_output_tokens"%string
  | CMaxOutputTokens, (Anthropic | DeepSeek) => Some "max_tokens"%string
  | CMaxOutputTokens, OllamaCloud => Some "num_predict"%string
  | CMaxOutputTokens, (GoogleGemini | GoogleVertexAi) => Some "maxOutputTokens"%string
  | CTopK, (Anthropic | OllamaCloud) => Some "top_k"%string
  | CTopK, (GoogleGemini | GoogleVertexAi) => Some "topK"%string
  | CPresencePenalty, (GoogleGemini | GoogleVertexAi) => Some "presencePenalty"%string
  | CFrequencyPenalty, (GoogleGemini | GoogleVertexAi) => Some "frequencyPenalty"%string
  | CStopSequences, Anthropic => Some "stop_sequences"%string
  | CStopSequences, (DeepSeek | OllamaCloud) => Some "stop"%string
  | CStopSequences, (GoogleGemini | GoogleVertexAi) => Some "stopSequences"%string
  | CSeed, (OllamaCloud | GoogleGemini | GoogleVertexAi) => Some "seed"%string
  | _, _ => None
  end.

Section options.
Context {Num : Type} `{ProviderJson Num}.

(** The value of an option that is set, as JSON. *)
Definition option_value (g : GenerationOptions Num) (capability : Capability) :
    option (Value Num) :=
  match capability with
  | CTemperature => json_f64 <$> temperature g
  | CMaxOutputTokens => json_int <$> max_output_tokens g
  | CTopP => json_f64 <$> top_p g
  | CTopK => json_int <$> top_k g
  | CPresencePenalty => json_f64 <$> presence_penalty g
  | CFrequencyPenalty => json_f64 <$> frequency_penalty g
  | CStopSequences => if is_empty (stop_sequences g) then None else Some (json_strs (stop_sequences g))
  | CSeed => json_int <$> seed g
  | _ => None
  end.

(** The object that holds the options. *)
Definition sent (p : ProviderId) (body : Value Num) (name : string) : option (Value Num) :=
  match p with
  | OllamaCloud => get body (lit "options") ≫= fun options => get options (lit name)
  | GoogleGemini | GoogleVertexAi =>
      get body (lit "generationConfig") ≫= fun config => get config (lit name)
  | _ => get body (lit name)
  end.

Lemma when_some_inv {A} (o : option A) f :
  when_some o f = Ok tt -> o = None \/ exists a, o = Some a /\ f a = Ok tt.
Proof. destruct o; cbn; eauto. Qed.

(** An option without a member is refused, not dropped. *)
Lemma unsupported_option_unset p (g : GenerationOptions Num) capability :
  validate_generation p g = Ok tt -> wire_name p capability = None ->
  option_value g capability = None.
Proof.
  unfold validate_generation. intros Hv Hw.
  do 3 (apply bind_Ok in Hv as ([] & _ & Hv)). apply bind_Ok in Hv as ([] & Hk%when_some_inv & Hv).
  apply bind_Ok in Hv as ([] & Hp%when_some_inv & Hv).
  apply bind_Ok in Hv as ([] & Hf%when_some_inv & Hv).
  apply bind_Ok in Hv as ([] & Hstop & Hv). apply bind_Ok in Hv as ([] & Hs%when_some_inv & Hv).
  destruct capability; try done; cbn [option_value]; destruct p; try done;
    try (by revert Hstop; destruct (is_empty (stop_sequences g)));
    first [ by destruct Hk as [->|(? & _ & Hr)] | by destruct Hp as [->|(? & _ & Hr)]
          | by destruct Hf as [->|(? & _ & Hr)] | by destruct Hs as [->|(? & _ & Hr)] ].
Qed.

Definition dialect_of (p : ProviderId) : GenerationDialect :=
  match p with
  | OpenAi => DiOpenAi
  | Anthropic => DiAnthropic
  | DeepSeek => DiDeepSeek
  | OllamaCloud => DiOllama
  | GoogleGemini | GoogleVertexAi => DiGoogle
  end.

(** Anthropic's required [max_tokens] is inserted apart. *)
Lemma scalar_fields_get m (g : GenerationOptions Num) p capability name :
  wire_name p capability = Some name -> ~ (p = Anthropic /\ capability = CMaxOutputTokens) ->
  map_get (insert_generation_scalar_fields m g (dialect_of p)) (lit name) =
  match option_value g capability with Some v => Some v | None => map_get m (lit name) end.
Proof.
  intros Hw Hn. destruct p, capability; try done; try (by destruct Hn);
    cbn [wire_name] in Hw; injection Hw as <-; cbn [dialect_of]; body_get; cbn [option_value];
    first [ by destruct (is_empty (stop_sequences g)) | by destruct (temperature g)
          | by destruct (max_output_tokens g) | by destruct (top_p g) | by destruct (top_k g)
          | by destruct (presence_penalty g) | by destruct (frequency_penalty g)
          | by destruct (seed g) ].
Qed.

(** The members [wire_name] gives are not touched by the rest of a body. *)
Lemma max_tokens_get m (g : GenerationOptions Num) :
  map_get (insert_generation_scalar_fields m g DiAnthropic) (lit "max_tokens") =
  map_get m (lit "max_tokens").
Proof. by body_get. Qed.
End options.

Ltac literal_get :=
  repeat (rewrite ?get_insert, ?get_insert_some, ?get_if; literal_keys); cbn [map_get].

(** Reach the scalar fields through what was inserted around them. *)
Ltac option_get p :=
  literal_get;
  match goal with
  | |- map_get (insert_generation_scalar_fields ?m ?g _) _ = option_value _ ?capability =>
      etransitivity; [by apply (scalar_fields_get m g p capability); naive_solver|];
      literal_get; by destruct (option_value g capability)
  end.

Lemma google_options_sent {Num} `{ProviderJson Num} (r : ProviderRequest Num) conv thinking safety
    cached tier vertex members body capability name :
  compile_google_body r conv thinking safety cached tier vertex = Ok members ->
  (forall k, is_reserved_extra_parameter k = true -> get body k = map_get members k) ->
  wire_name GoogleGemini capability = Some name ->
  sent GoogleGemini body name = option_value (generation r) capability.
Proof.
  unfold compile_google_body. intros Hm Hget Hw. apply bind_Ok in Hm as (contents & Hc & Hm).
  injection Hm as <-. cbn [sent]. rewrite Hget by reflexivity. literal_get.
  assert (Hcfg : map_get (google_generation_config (generation r) thinking) (lit name) =
                 option_value (generation r) capability).
  { unfold google_generation_config. destruct capability; try done; injection Hw as <-;
      destruct (response_format (generation r)); option_get GoogleGemini. }
  destruct vertex, (is_empty safety); exact Hcfg.
Qed.

(** No generation option is dropped, renamed or invented: for every option a
    provider has a field for, the body of an accepted request holds there exactly the
    value that was set, and nothing when it was not; an option the provider has no
    field for is refused, so it is never set in an accepted request. *)
Theorem options_sent_exactly {Num} `{ProviderJson Num} (r : ProviderRequest Num) c capability :
  compile_request r = Ok c ->
  match wire_name (provider r) capability with
  | Some name => sent (provider r) (body c) name = option_value (generation r) capability
  | None => option_value (generation r) capability = None
  end.
Proof.
  intros Hc. pose proof Hc as (Hv & _)%compile_request_inv.
  apply validate_request_inv in Hv as (Hp & _ & _ & Hgen & _).
  destruct (wire_name (provider r) capability) as [name|] eqn:Hw;
    [|by apply (unsupported_option_unset (provider r))].
  apply reserved_members in Hc as (typed & members & Ht & Hb & Hget).
  rewrite Hp in Hw |- *. unfold compile_options in Ht.
  destruct (provider_options r) as [o|o|o|o|o|o]; cbn [provider_id] in Hw; cbn [provider_id sent].
  - unfold compile_openai in Ht. open_compiler Ht Hb.
    rewrite Hget by (by destruct capability; try done; injection Hw as <-).
    destruct capability; try done; injection Hw as <-;
      destruct (response_format (generation r)), (prompt_cache o); option_get OpenAi.
  - unfold compile_anthropic in Ht. open_compiler Ht Hb.
    rewrite Hget by (by destruct capability; try done; injection Hw as <-).
    destruct capability; try done; injection Hw as <-; literal_get; destruct (is_empty _);
      try option_get Anthropic; rewrite max_tokens_get; literal_get; cbn [option_value];
      apply ok_or_Ok in H0; by rewrite H0.
  - unfold compile_deepseek in Ht. open_compiler Ht Hb.
    rewrite Hget by (by destruct capability; try done; injection Hw as <-).
    destruct capability; try done; injection Hw as <-;
      destruct (response_format (generation r)); option_get DeepSeek.
  - unfold compile_ollama_cloud in Ht. open_compiler Ht Hb. rewrite Hget by reflexivity. literal_get.
    assert (Hs : map_get (insert_generation_scalar_fields [] (generation r) DiOllama) (lit name) =
                 option_value (generation r) capability).
    { etransitivity; [apply (scalar_fields_get [] _ OllamaCloud capability); naive_solver|].
      by destruct (option_value _ _). }
    destruct (insert_generation_scalar_fields [] (generation r) DiOllama); exact Hs.
  - unfold compile_google_gemini in Ht. open_compiler Ht Hb.
    by apply (google_options_sent _ _ _ _ _ _ _ _ _ _ _ H0 Hget).
  - unfold compile_google_vertex in Ht. open_compiler Ht Hb.
    by apply (google_options_sent _ _ _ _ _ _ _ _ _ _ _ H0 Hget).
Qed.

(** ** Additional parameters *)

Section extras.
Context {Num : Type}.

(** Every object key of a value, at any depth. *)
Fixpoint all_keys (v : Value Num) : list str :=
  match v with
  | Object members => concat (map (fun p => p.1 :: all_keys p.2) members)
  | Array items => concat (map all_keys items)
  | _ => []
  end.

Lemma find_map_None {A B} (f : A -> option B) l : find_map f l = None <-> Forall (fun a => f a = None) l.
Proof.
  induction l as [|a l IH]; cbn; [by split|]. rewrite Forall_cons_iff, <- IH. destruct (f a); naive_solver.
Qed.

Lemma Forall_concat_map {A B} (P : B -> Prop) (f : A -> list B) l :
  Forall P (concat (map f l)) <-> Forall (fun a => Forall P (f a)) l.
Proof.
  induction l as [|a l IH]; cbn; [by split|]. by rewrite Forall_app, Forall_cons_iff, IH.
Qed.

(** The search finds a sensitive key whenever there is one. *)
Lemma find_sensitive_None (v : Value Num) :
  find_sensitive_nested_key v = None <->
  Forall (fun k => is_sensitive_extra_parameter k = false) (all_keys v).
Proof.
  induction v as [v IH] using Value_nested_ind. rewrite Forall_forall in IH.
  destruct v as [| | | |items|members]; cbn [find_sensitive_nested_key all_keys children] in *;
    [by split..| |]; rewrite find_map_None, Forall_concat_map, !Forall_forall.
  - split; intros Hi x Hx; apply IH; auto.
  - assert (Hin : forall p, In p members -> In p.2 (map snd members)) by (intros; by apply in_map).
    split; intros Hm p Hp; specialize (Hm p Hp); specialize (IH p.2 (Hin p Hp)).
    + destruct (is_sensitive_extra_parameter p.1) eqn:Hs; [done|]. constructor; [done|]. by apply IH.
    + rewrite Forall_cons_iff in Hm. destruct Hm as [Hk Hm]. rewrite Hk. by apply IH.
Qed.
End extras.

(** Additional parameters only extend the body: the members the provider's
    compiler built are all kept with their values, each parameter is added under a
    name no such member has, and no key of a parameter, at any depth, contains the
    name of an endpoint, a header, a credential, a tool or another sensitive
    surface. *)
Theorem additional_parameters_only_extend {Num} `{ProviderJson Num} (r : ProviderRequest Num) c :
  compile_request r = Ok c ->
  exists typed members members',
    compile_options r (normalize_conversation (messages r) (role_policy (generation r))) = Ok typed /\
    body typed = Object members /\ body c = Object members' /\
    (forall k, map_get members' k =
       match map_get members k with
       | Some v => Some v
       | None => map_get (additional_parameters r) k
       end) /\
    NoDup (map fst (additional_parameters r)) /\
    Forall (fun p => map_get members p.1 = None /\
                     Forall (fun k => is_sensitive_extra_parameter k = false) (p.1 :: all_keys p.2))
      (additional_parameters r).
Proof.
  intros Hc. apply compile_request_inv in Hc as (Hv & typed & members & members' & Ht & Hb & Hf & Hbc & _).
  apply validate_request_inv in Hv as (_ & _ & _ & _ & _ & _ & Hx%validate_extras_inv).
  apply merge_parameters_spec in Hf as (Hget & Hfresh & Hnd).
  exists typed, members, members'. repeat split; try done.
  rewrite Forall_forall in Hx, Hfresh |- *. intros p Hp.
  specialize (Hx p Hp) as (Hres & Hsens & _). split; [by apply Hfresh|].
  unfold is_reserved_extra_parameter in Hres. apply orb_false_iff in Hres as [_ Hres].
  constructor; [done|]. by apply find_sensitive_None.
Qed.

(** [compile_request] always returns: an [unreachable!] or [expect] of the source
    is never reached, whatever the request and whatever [serde_json] answers. *)
Theorem compile_request_never_panics {Num} `{ProviderJson Num} (r : ProviderRequest Num) :
  compile_request r <> Err Panic.
Proof.
  unfold compile_request. apply no_panic_bind; [apply no_panic_validate|intros _ _].
  set (conv := normalize_conversation _ _).
  apply no_panic_bind.
  { apply no_panic_compile_options. unfold conv. rewrite normalize_conversation_spec.
    apply spec_conversation_roles. }
  intros c Hc. apply compile_options_object in Hc as [members Hm]. rewrite Hm.
  unfold merge_additional_parameters, merge_parameter. no_panic.
Qed.

(** ** A concrete instance *)

Module ProviderExample.

(** Decimal digits of a number. *)
Definition print_int (n : Z) : bytes := lit (pretty n).

Definition QUOTE : byte := byte_of 34.

(** Compact JSON of strings that need no escape. *)
Fixpoint print (v : Value Z) : bytes :=
  match v with
  | Null => lit "null"
  | Bool b => if b then lit "true" else lit "false"
  | Number n => print_int n
  | Str s => QUOTE :: s ++ [QUOTE]
  | Array items => lit "[" ++ join (lit ",") (map print items) ++ lit "]"
  | Object members =>
      lit "{" ++ join (lit ",") (map (fun p => QUOTE :: p.1 ++ QUOTE :: lit ":" ++ print p.2) members)
      ++ lit "}"
  end.

(** Numbers are integers here; fractions are rounded. *)
#[export] Instance integers : ProviderJson Z := {|
  number_of_Z := id;
  number_of_f64 x := if is_finite x then Some (round_to_i32 x) else None;
  json_to_vec v := Some (print v);
|}.

Definition no_options : GenerationOptions Z :=
  mkGeneration None (Some 512) None None None None [] None Text MergeConsecutive.

Definition chat : list ChatMessage :=
  [mkChatMessage System (lit "Be brief."); mkChatMessage User (lit "Hello");
   mkChatMessage User (lit "there"); mkChatMessage Assistant (lit "Hi")].

Definition vertex_request : ProviderRequest Z :=
  mkRequest GoogleVertexAi (lit "gemini-2.5-pro") chat
    (mkGeneration (Some (f64_of_Z 1)) (Some 512) None (Some 40) None None [lit "END"] (Some 7)
       Text MergeConsecutive)
    (GoogleVertexAiOpts (mkVertexOptions (lit "my-project") (lit "europe-west4") None None [] Shared))
    None [(lit "labels", Object [(lit "team", Str (lit "lore"))])].

Definition compiled (r : ProviderRequest Z) (default : CompiledProviderRequest Z) :
    CompiledProviderRequest Z :=
  match compile_request r with Ok c => c | Err _ => default end.

Definition vertex_compiled : CompiledProviderRequest Z :=
  Eval vm_compute in
    compiled vertex_request (mkCompiled OpenAi [] [] AuthorizationBearer [] ProtoSse Null None).

Example vertex_compiles : compile_request vertex_request = Ok vertex_compiled.
Proof. vm_compute. reflexivity. Qed.

Lemma compiled_target_is_official_witness :
  c_provider vertex_compiled = GoogleVertexAi /\ official_target GoogleVertexAi vertex_compiled /\
  Forall (fun h => h.1 ∈ [lit "content-type"; lit "anthropic-version";
                          lit "X-Vertex-AI-LLM-Request-Type"]) (static_headers vertex_compiled).
Proof. exact (compiled_target_is_official vertex_request _ vertex_compiles). Defined.

Lemma body_carries_the_conversation_witness :
  read_conversation GoogleVertexAi (body vertex_compiled) =
  Some (Some (lit "Be brief."),
        [mkChatMessage User (lit "Hello" ++ PARAGRAPH ++ lit "there");
         mkChatMessage Assistant (lit "Hi")]).
Proof. exact (body_carries_the_conversation vertex_request _ vertex_compiles). Defined.

Lemma options_sent_exactly_witness :
  sent GoogleVertexAi (body vertex_compiled) "topK" = Some (Number 40).
Proof. exact (options_sent_exactly vertex_request _ CTopK vertex_compiles). Defined.

Lemma additional_parameters_only_extend_witness :
  exists members', body vertex_compiled = Object members' /\
    NoDup (map fst (additional_parameters vertex_request)).
Proof.
  destruct (additional_parameters_only_extend vertex_request _ vertex_compiles)
    as (typed & members & members' & _ & _ & Hb & _ & Hnd & _).
  exists members'. by split.
Defined.

(** ** Keys that only the top level refuses

    [docs/m0/llm-provider-catalog.md] says typed generation fields and state controls
    are denied in additional parameters "including in nested objects".  The nested
    search looks for the sensitive names only, and two members the compilers write,
    [think] and [output_config], are in neither list. *)

Definition nested_request : ProviderRequest Z :=
  mkRequest OllamaCloud (lit "gpt-oss") chat no_options (OllamaCloudOpts (mkOllamaOptions None)) None
    [(lit "extra", Object [(lit "store", Bool true); (lit "temperature", Number 2)]);
     (lit "think", Bool true)].

(** A request whose additional parameters nest [store] and [temperature] inside an
    object, and set [think] beside the typed thinking option, is accepted and sent
    with them, although the same names are refused at the top level and the provider
    catalogue document says they are denied in nested objects too. *)
Theorem nested_reserved_keys_are_sent :
  is_reserved_extra_parameter (lit "store") = true /\
  is_reserved_extra_parameter (lit "temperature") = true /\
  match compile_request nested_request with
  | Ok c =>
      get (body c) (lit "extra") =
        Some (Object [(lit "store", Bool true); (lit "temperature", Number 2)]) /\
      get (body c) (lit "think") = Some (Bool true)
  | Err _ => False
  end.
Proof. vm_compute. done. Qed.
End ProviderExample.
