(* ===== verification/RuntimeError.v ===== *)
(** * Provider runtime: errors and stream events

    Models [crates/lorepia-provider-runtime/src/error.rs] and [event.rs]: the
    typed [RuntimeError] with its UTF-8 safe truncation, the retry hint, the
    events of a provider stream, and the token usage record with its
    field-by-field merge. *)

From S2P Require Import Prelude Bytes Utf8.

(** ** Errors (error.rs) *)

(** Durations are whole seconds; every duration of the file is built with
    [Duration::from_secs]. *)
Inductive RetryDecision : Type :=
  | Never
  | RetryAfter (delay : Z)
  | ExponentialBackoff (initial_delay maximum_delay : Z).

Definition RetryDecision_exponential : RetryDecision := ExponentialBackoff 1 30.

Inductive RuntimeErrorKind : Type :=
  | InvalidRequest | InvalidEndpoint | UnsafeEndpoint | DnsResolution
  | CredentialMismatch | InvalidCredential | Http | HttpStatus
  | UnexpectedContentType | StreamTooLarge | StreamProtocol | Provider
  | Cancelled | ConsumerClosed | Timeout.

Record RuntimeError : Type := mkRuntimeError {
  kind : RuntimeErrorKind;
  code : str;
  message : str;
  http_status : option Z;
  retry_decision : RetryDecision;
}.

#[export] Instance RetryDecision_eq_dec : EqDecision RetryDecision.
Proof. solve_decision. Defined.
#[export] Instance RuntimeErrorKind_eq_dec : EqDecision RuntimeErrorKind.
Proof. solve_decision. Defined.
#[export] Instance RuntimeError_eq_dec : EqDecision RuntimeError.
Proof. solve_decision. Defined.

(** [while !value.is_char_boundary(end) { end -= 1; }] *)
Fixpoint floor_char_boundary (value : str) (end_ : nat) : nat :=
  if is_char_boundary value end_ then end_
  else match end_ with
       | O => O
       | S end' => floor_char_boundary value end'
       end.

Definition truncate_utf8 (value : str) (max_bytes : nat) : str :=
  if (length value <=? max_bytes)%nat then value
  else take (floor_char_boundary value max_bytes) value.

Definition RuntimeError_new (kind : RuntimeErrorKind) (code message : str) : RuntimeError :=
  {| kind := kind;
     code := truncate_utf8 code 64;
     message := truncate_utf8 message 512;
     http_status := None;
     retry_decision := Never |}.

Definition with_http_status (self : RuntimeError) (status : Z) : RuntimeError :=
  {| kind := kind self; code := code self; message := message self;
     http_status := Some status; retry_decision := retry_decision self |}.

Definition with_retry_decision (self : RuntimeError) (d : RetryDecision) : RuntimeError :=
  {| kind := kind self; code := code self; message := message self;
     http_status := http_status self; retry_decision := d |}.

Definition retriable (self : RuntimeError) (b : bool) : RuntimeError :=
  with_retry_decision self (if b then RetryDecision_exponential else Never).

Definition is_retriable (self : RuntimeError) : bool :=
  match retry_decision self with Never => false | _ => true end.

(** ** Events (event.rs) *)

Record TokenUsage : Type := mkTokenUsage {
  input_tokens : option Z;
  output_tokens : option Z;
  reasoning_tokens : option Z;
  cached_input_tokens : option Z;
  total_tokens : option Z;
}.

Definition TokenUsage_default : TokenUsage := mkTokenUsage None None None None None.

#[export] Instance TokenUsage_eq_dec : EqDecision TokenUsage.
Proof. solve_decision. Defined.

(** [if newer.f.is_some() { self.f = newer.f }] *)
Definition newer_or {A} (newer older : option A) : option A :=
  match newer with Some _ => newer | None => older end.

Definition merge_from (self newer : TokenUsage) : TokenUsage :=
  {| input_tokens := newer_or (input_tokens newer) (input_tokens self);
     output_tokens := newer_or (output_tokens newer) (output_tokens self);
     reasoning_tokens := newer_or (reasoning_tokens newer) (reasoning_tokens self);
     cached_input_tokens := newer_or (cached_input_tokens newer) (cached_input_tokens self);
     total_tokens := newer_or (total_tokens newer) (total_tokens self) |}.

Definition usage_is_empty (self : TokenUsage) : bool :=
  bool_decide (self = TokenUsage_default).

Inductive CompletionReason : Type :=
  | Stop | Length | ContentFilter | Refusal | ResourceLimit | Other (s : str).

Inductive ProviderStreamEvent : Type :=
  | ProviderResponseId (id : str)
  | TextDelta (text : str)
  | ReasoningDelta (text : str)
  | RefusalDelta (text : str)
  | Usage (usage : TokenUsage).

Inductive ProviderRunOutcome : Type :=
  | Completed (reason : option CompletionReason) (usage : option TokenUsage)
  | RunCancelled.

#[export] Instance CompletionReason_eq_dec : EqDecision CompletionReason.
Proof. solve_decision. Defined.
#[export] Instance ProviderStreamEvent_eq_dec : EqDecision ProviderStreamEvent.
Proof. solve_decision. Defined.
#[export] Instance ProviderRunOutcome_eq_dec : EqDecision ProviderRunOutcome.
Proof. solve_decision. Defined.

(** ** Lemmas *)

Lemma floor_char_boundary_spec value n :
  (floor_char_boundary value n <= n)%nat /\
  is_char_boundary value (floor_char_boundary value n) = true.
Proof.
  induction n as [|n [IH1 IH2]]; cbn [floor_char_boundary].
  { done. }
  destruct (is_char_boundary value (S n)) eqn:H; [done|]. split; [lia | done].
Qed.

(** The cut is the longest one: no boundary lies between it and the limit. *)
Lemma floor_char_boundary_max value n m :
  (m <= n)%nat -> is_char_boundary value m = true ->
  (m <= floor_char_boundary value n)%nat.
Proof.
  induction n as [|n IH]; cbn [floor_char_boundary]; intros Hm Hb.
  { lia. }
  destruct (is_char_boundary value (S n)) eqn:H; [done|].
  apply IH; [|done]. assert (m <> S n) by congruence. lia.
Qed.

Lemma truncate_utf8_length value n : (length (truncate_utf8 value n) <= n)%nat.
Proof.
  unfold truncate_utf8. destruct (Nat.leb_spec (length value) n); [done|].
  rewrite length_take. pose proof (proj1 (floor_char_boundary_spec value n)). lia.
Qed.

Lemma truncate_utf8_valid value n :
  utf8_valid value -> utf8_valid (truncate_utf8 value n).
Proof.
  unfold truncate_utf8. destruct (_ <=? _)%nat; [done|]. intros ?.
  apply utf8_valid_take; [done|]. apply floor_char_boundary_spec.
Qed.

(** Merging keeps the newest known value of each field; it is associative, and
    the empty usage is neutral: it is the monoid of "last known value". *)
Lemma newer_or_assoc {A} (a b c : option A) :
  newer_or c (newer_or b a) = newer_or (newer_or c b) a.
Proof. by destruct c. Qed.

Lemma merge_from_assoc u v w :
  merge_from (merge_from u v) w = merge_from u (merge_from v w).
Proof. unfold merge_from; cbn; f_equal; apply newer_or_assoc. Qed.

Lemma merge_from_default_r u : merge_from u TokenUsage_default = u.
Proof. by destruct u. Qed.

Lemma merge_from_default_l u : merge_from TokenUsage_default u = u.
Proof. destruct u as [[] [] [] [] []]; done. Qed.
