(* ===== verification/Endpoint.v ===== *)
(** * Provider runtime: endpoints

    Models [crates/lorepia-provider-runtime/src/endpoint.rs]: the check of a compiled
    request against what its provider allows, the official and the overridden URL, and
    the resolution of the host to addresses that are pinned for the request.  What a DNS
    lookup returns is an argument.

    The octet tests of [is_public_ip] are shown equal to a table of address blocks, and
    every request the provider compiler produces is shown to pass the checks here. *)

From stdpp Require Import list.
From S2P Require Import Prelude Sorting Bytes Json Url ProviderConfig ProviderCompile ProviderCompileFacts RuntimeError.

Abbreviation RResult := (result RuntimeError).

Definition MAX_ENDPOINT_BYTES : Z := 2048.
Definition MAX_PATH_BYTES : Z := 1024.
Definition MAX_QUERY_BYTES : Z := 512.

Definition invalid_endpoint (message : string) : RuntimeError :=
  RuntimeError_new InvalidEndpoint (lit "INVALID_ENDPOINT") (lit message).

Definition invalid_compiled (message : string) : RuntimeError :=
  RuntimeError_new InvalidRequest (lit "INVALID_COMPILED_REQUEST") (lit message).

(** ** Public addresses *)

(** [(lo..=hi).contains(&x)] *)
Definition between (lo hi x : Z) : bool := (lo <=? x) && (x <=? hi).

Definition is_public_v4 (address : Z) : bool :=
  let a := octet address 0 in
  let b := octet address 1 in
  let c := octet address 2 in
  negb ((a =? 0)
        || (a =? 10)
        || (a =? 127)
        || ((a =? 100) && between 64 127 b)
        || ((a =? 169) && (b =? 254))
        || ((a =? 172) && between 16 31 b)
        || ((a =? 192) && (b =? 0) && (c =? 0))
        || ((a =? 192) && (b =? 0) && (c =? 2))
        || ((a =? 192) && (b =? 88) && (c =? 99))
        || ((a =? 192) && (b =? 168))
        || ((a =? 198) && ((b =? 18) || (b =? 19)))
        || ((a =? 198) && (b =? 51) && (c =? 100))
        || ((a =? 203) && (b =? 0) && (c =? 113))
        || (a >=? 224)).

Definition is_public_ip (address : IpAddr) : bool :=
  match address with
  | V4 address => is_public_v4 address
  | V6 address =>
      match to_ipv4_mapped address with
      | Some mapped => is_public_v4 mapped
      | None =>
          let s := segment address in
          let globally_routed_prefix := Z.land (s 0) 0xe000 =? 0x2000 in
          let documentation := (s 0 =? 0x2001) && (s 1 =? 0x0db8) in
          let benchmarking := (s 0 =? 0x2001) && (s 1 =? 0x0002) && (s 2 =? 0) in
          globally_routed_prefix && negb documentation && negb benchmarking
      end
  end.

(** ** URLs *)

Section endpoints.
Context `{UrlLib}.

Definition LOCAL_SUFFIXES : list string := [".localhost"; ".local"; ".internal"; ".home.arpa"].

Definition local_name (domain : str) : bool :=
  is_empty domain || str_eqb domain (lit "localhost") ||
  existsb (fun suffix => ends_with domain (lit suffix)) LOCAL_SUFFIXES.

Definition validate_common_url (url : Url) : RResult unit :=
  if negb (str_eqb (scheme url) (lit "https")) then Err (invalid_endpoint "endpoint scheme must be https")
  else if negb (is_empty (username url)) || is_some (password url)
  then Err (invalid_endpoint "endpoint userinfo is forbidden")
  else if is_some (fragment url) then Err (invalid_endpoint "endpoint fragments are forbidden")
  else if from_option (fun p => negb (p =? 443)) false (port url)
  then Err (invalid_endpoint "endpoint ports other than 443 are forbidden")
  else
    match url_host url with
    | None => Err (invalid_endpoint "endpoint must contain a host")
    | Some (Ipv4 _) | Some (Ipv6 _) => Err (invalid_endpoint "IP-literal endpoints are forbidden")
    | Some (Domain domain) =>
        if ends_with domain (lit ".")
        then Err (invalid_endpoint "endpoint host must use its canonical form without a trailing dot")
        else if local_name (to_ascii_lowercase domain)
        then Err (invalid_endpoint "local endpoint host names are forbidden")
        else Ok tt
    end.

Definition SENSITIVE_QUERY_KEYS : list string :=
  ["key"; "token"; "secret"; "password"; "authorization"; "apikey"].

Definition sensitive_key (key : str) : bool :=
  let canonical := to_ascii_lowercase (List.filter is_ascii_alphanumeric key) in
  existsb (fun sensitive => contains canonical (lit sensitive)) SENSITIVE_QUERY_KEYS.

Definition validate_override_url (value : str) : RResult Url :=
  if is_empty value || (len value >? MAX_ENDPOINT_BYTES)
  then Err (invalid_endpoint "override must be a complete HTTPS endpoint URL of at most 2048 bytes")
  else
    url ← ok_or (url_parse value) (invalid_endpoint "override must be a valid absolute endpoint URL");
    _ ← validate_common_url url;
    if is_empty (path url) || str_eqb (path url) (lit "/") || (len (path url) >? MAX_PATH_BYTES)
    then Err (invalid_endpoint "override must name an exact non-root endpoint path of at most 1024 bytes")
    else if from_option (fun q => len q >? MAX_QUERY_BYTES) false (query url)
    then Err (invalid_endpoint "override endpoint query must be at most 512 bytes")
    else if existsb (fun pair => sensitive_key pair.1) (query_pairs url)
    then Err (invalid_endpoint "credentials must not be embedded in an override URL query")
    else Ok url.

(** [OverrideEndpoint] holds the text it was parsed from. *)
Inductive EndpointSelection : Type := Official | Override (endpoint : str).

Definition OverrideEndpoint_parse (endpoint : str) : RResult str :=
  _ ← validate_override_url endpoint;
  mret endpoint.

Section compiled.
Context {Num : Type}.
Implicit Types (request : ProviderRequest Num) (compiled : CompiledProviderRequest Num).

Definition expected_url request : RResult str :=
  match provider request with
  | OpenAi => Ok (lit "https://api.openai.com/v1/responses")
  | Anthropic => Ok (lit "https://api.anthropic.com/v1/messages")
  | DeepSeek => Ok (lit "https://api.deepseek.com/chat/completions")
  | OllamaCloud => Ok (lit "https://ollama.com/api/chat")
  | GoogleGemini =>
      Ok (lit "https://generativelanguage.googleapis.com/v1beta/models/" ++ model_id request ++
          lit ":streamGenerateContent?alt=sse")
  | GoogleVertexAi =>
      match provider_options request with
      | GoogleVertexAiOpts options =>
          let origin :=
            if str_eqb (location options) (lit "global") then lit "https://aiplatform.googleapis.com"
            else lit "https://" ++ location options ++ lit "-aiplatform.googleapis.com" in
          Ok (origin ++ lit "/v1/projects/" ++ project_id options ++ lit "/locations/" ++ location options ++
              lit "/publishers/google/models/" ++ model_id request ++ lit ":streamGenerateContent?alt=sse")
      | _ => Err (invalid_compiled "Vertex options changed after compilation")
      end
  end.

Definition official_url request compiled : RResult Url :=
  expected ← expected_url request;
  if negb (str_eqb (origin compiled ++ path_and_query compiled) expected)
  then Err (invalid_compiled "compiled official endpoint did not match the provider allowlist")
  else
    url ← ok_or (url_parse expected) (invalid_compiled "compiled official endpoint was not a valid URL");
    _ ← validate_common_url url;
    mret url.

Definition expected_auth_protocol (p : ProviderId) : AuthScheme * ProviderConfig.StreamProtocol :=
  match p with
  | OpenAi | DeepSeek | OllamaCloud =>
      (AuthorizationBearer, if bool_decide (p = OllamaCloud) then ProtoNdjson else ProtoSse)
  | Anthropic => (AnthropicXApiKey, ProtoSse)
  | GoogleGemini => (GoogleXGoogApiKey, ProtoSse)
  | GoogleVertexAi => (GoogleOAuthBearer, ProtoSse)
  end.

(** In the order of the keys, as the [BTreeMap] is compared. *)
Definition expected_headers request : list (str * str) :=
  match provider_options request with
  | GoogleVertexAiOpts options =>
      match request_type options with
      | Automatic => []
      | Shared => [(lit "X-Vertex-AI-LLM-Request-Type", lit "shared")]
      | Dedicated => [(lit "X-Vertex-AI-LLM-Request-Type", lit "dedicated")]
      end
  | _ => []
  end ++
  (if bool_decide (provider request = Anthropic) then [(lit "anthropic-version", lit "2023-06-01")] else []) ++
  [(lit "content-type", lit "application/json")].

Definition validate_compiled_wire_contract request compiled : RResult unit :=
  if negb (bool_decide (c_provider compiled = provider request))
  then Err (invalid_compiled "compiled provider identity mismatch")
  else if negb (bool_decide ((auth_scheme compiled, stream_protocol compiled) =
                             expected_auth_protocol (provider request)))
  then Err (invalid_compiled "compiled authentication or stream protocol mismatch")
  else if negb (bool_decide (static_headers compiled = expected_headers request))
  then Err (invalid_compiled "compiled static headers did not match the provider allowlist")
  else Ok tt.

(** ** Resolution *)

Inductive DnsOutcome : Type :=
  | DnsTimeout
  | DnsFailed
  | DnsAddresses (addresses : list (IpAddr * Z)).

Definition resolve_addresses (outcome : DnsOutcome) : RResult (list (IpAddr * Z)) :=
  match outcome with
  | DnsTimeout =>
      Err (retriable (RuntimeError_new Timeout (lit "DNS_TIMEOUT") (lit "endpoint DNS resolution timed out")) true)
  | DnsFailed =>
      Err (retriable (RuntimeError_new DnsResolution (lit "DNS_RESOLUTION_FAILED")
                        (lit "endpoint DNS resolution failed")) true)
  | DnsAddresses addresses => Ok addresses
  end.

Record ResolvedEndpoint : Type := mkResolvedEndpoint {
  endpoint_url : Url;
  endpoint_host : str;
  pinned_addresses : list (IpAddr * Z);
  is_override : bool;
}.

Definition non_public : RuntimeError :=
  RuntimeError_new UnsafeEndpoint (lit "NON_PUBLIC_DNS_RESULT")
    (lit "every endpoint DNS result must be a globally routable public address").

Definition no_addresses : RuntimeError :=
  RuntimeError_new DnsResolution (lit "DNS_NO_ADDRESSES") (lit "endpoint DNS resolution returned no addresses").

(** [SocketAddr] in its order: the address, then the port. *)
Definition addr_cmp (a b : IpAddr * Z) : comparison := then_with (ip_cmp a.1 b.1) (Z.compare a.2 b.2).

(** [BTreeSet::insert] *)
Definition insert_address (port : Z) (addresses : list (IpAddr * Z)) (address : IpAddr * Z) :
    RResult (list (IpAddr * Z)) :=
  if negb (is_public_ip address.1) then Err non_public
  else if bool_decide ((address.1, port) ∈ addresses) then Ok addresses
  else Ok ((address.1, port) :: addresses).

Definition select_url request compiled (selection : EndpointSelection) : RResult (Url * bool) :=
  match selection with
  | Official => url ← official_url request compiled; mret (url, false)
  | Override endpoint => url ← validate_override_url endpoint; mret (url, true)
  end.

(** [lookup] is what [lookup_host] returns for a host and a port. *)
Definition resolve_endpoint (lookup : str -> Z -> DnsOutcome) request compiled
    (selection : EndpointSelection) : RResult ResolvedEndpoint :=
  _ ← validate_compiled_wire_contract request compiled;
  '(url, is_override) ← select_url request compiled selection;
  host ← ok_or (host_str url) (invalid_endpoint "endpoint must contain a DNS host");
  let host := to_ascii_lowercase host in
  port ← ok_or (port_or_known_default url) (invalid_endpoint "endpoint must use the HTTPS default port");
  resolved ← resolve_addresses (lookup host port);
  addresses ← foldM_result (insert_address port) [] resolved;
  if is_empty addresses then Err no_addresses
  else Ok (mkResolvedEndpoint url host (sort_by addr_cmp addresses) is_override).
End compiled.
End endpoints.

(** * Provider runtime: what holds of endpoints

    The address tests are a table of blocks; a compiled request passes every check of
    its endpoint; and whatever resolves is an HTTPS host with public addresses only. *)

(** ** Address blocks *)

(** The first [prefix] of [width] bits are those of [block]. *)
Definition in_block (width address : Z) (b : Z * Z) : bool :=
  Z.shiftr address (width - b.2) =? Z.shiftr b.1 (width - b.2).

Definition v4 (a b c d : Z) : Z := a * 2 ^ 24 + b * 2 ^ 16 + c * 2 ^ 8 + d.

(** The IPv4 blocks that are not public: this network, private, shared, loopback, link
    local, protocol assignments, documentation, 6to4 relays, benchmarking, and from
    multicast up. *)
Definition RESERVED_V4 : list (Z * Z) :=
  [(v4 0 0 0 0, 8); (v4 10 0 0 0, 8); (v4 127 0 0 0, 8); (v4 100 64 0 0, 10); (v4 169 254 0 0, 16);
   (v4 172 16 0 0, 12); (v4 192 0 0 0, 24); (v4 192 0 2 0, 24); (v4 192 88 99 0, 24); (v4 192 168 0 0, 16);
   (v4 198 18 0 0, 15); (v4 198 51 100 0, 24); (v4 203 0 113 0, 24); (v4 224 0 0 0, 3)].

Definition GLOBAL_V6 : Z * Z := (0x2000 * 2 ^ 112, 3).
Definition MAPPED_V6 : Z * Z := (0xffff * 2 ^ 32, 96).
Definition RESERVED_V6 : list (Z * Z) :=
  [(0x2001 * 2 ^ 112 + 0x0db8 * 2 ^ 96, 32); (0x2001 * 2 ^ 112 + 0x0002 * 2 ^ 96, 48)].

Definition public_by_blocks (address : IpAddr) : bool :=
  match address with
  | V4 a => negb (existsb (in_block 32 a) RESERVED_V4)
  | V6 a =>
      if in_block 128 a MAPPED_V6 then negb (existsb (in_block 32 (a mod 2 ^ 32)) RESERVED_V4)
      else in_block 128 a GLOBAL_V6 && negb (existsb (in_block 128 a) RESERVED_V6)
  end.

(** An address is one of its width. *)
Definition ip_typed (address : IpAddr) : Prop :=
  match address with V4 a => 0 <= a < 2 ^ 32 | V6 a => 0 <= a < 2 ^ 128 end.

Lemma octet_div a i : 0 <= i <= 3 -> octet a i = (a / 2 ^ (8 * (3 - i))) mod 256.
Proof.
  intros Hi. unfold octet. rewrite Z.shiftr_div_pow2 by lia. change 255 with (Z.ones 8).
  by rewrite Z.land_ones by lia.
Qed.

Lemma segment_div a i : 0 <= i <= 7 -> segment a i = (a / 2 ^ (16 * (7 - i))) mod 65536.
Proof.
  intros Hi. unfold segment. rewrite Z.shiftr_div_pow2 by lia. change 65535 with (Z.ones 16).
  by rewrite Z.land_ones by lia.
Qed.

(** A block is a range of addresses. *)
Lemma in_block_range width address block prefix :
  let size := 2 ^ (width - prefix) in
  prefix <= width ->
  in_block width address (block, prefix) =
  (block / size * size <=? address) && (address <? block / size * size + size).
Proof.
  intros size Hp. unfold in_block. cbn [fst snd]. rewrite !Z.shiftr_div_pow2 by lia. fold size.
  assert (Hs : 0 < size) by (apply Z.pow_pos_nonneg; lia). apply eq_iff_eq_true.
  rewrite andb_true_iff, Z.eqb_eq, Z.leb_le, Z.ltb_lt. split.
  - intros <-. pose proof (Z.div_mod address size). pose proof (Z.mod_pos_bound address size). lia.
  - intros [Hl Hu]. symmetry. apply (Z.div_unique_pos _ _ _ (address - block / size * size)); lia.
Qed.

Ltac bool_lia :=
  apply eq_iff_eq_true;
  rewrite ?andb_true_iff, ?orb_true_iff, ?andb_true_iff, ?Z.eqb_eq, ?Z.leb_le, ?Z.ltb_lt, ?Z.geb_le; lia.

(** Evaluate the bounds of a block. *)
Ltac eval_blocks :=
  repeat match goal with
  | |- context [?x / 2 ^ (?w - ?k) * 2 ^ (?w - ?k)] =>
      let v := eval vm_compute in (x / 2 ^ (w - k) * 2 ^ (w - k)) in
      change (x / 2 ^ (w - k) * 2 ^ (w - k)) with v
  | |- context [?x + 2 ^ (?w - ?k)] =>
      let v := eval vm_compute in (x + 2 ^ (w - k)) in change (x + 2 ^ (w - k)) with v
  end.

(** One test of octets is one block of the table. *)
Lemma octet_tests a b c d :
  0 <= a < 256 -> 0 <= b < 256 -> 0 <= c < 256 -> 0 <= d < 256 ->
  let n := v4 a b c d in
  map (in_block 32 n) RESERVED_V4 =
  [a =? 0; a =? 10; a =? 127; (a =? 100) && between 64 127 b; (a =? 169) && (b =? 254);
   (a =? 172) && between 16 31 b; (a =? 192) && (b =? 0) && (c =? 0); (a =? 192) && (b =? 0) && (c =? 2);
   (a =? 192) && (b =? 88) && (c =? 99); (a =? 192) && (b =? 168);
   (a =? 198) && ((b =? 18) || (b =? 19)); (a =? 198) && (b =? 51) && (c =? 100);
   (a =? 203) && (b =? 0) && (c =? 113); a >=? 224].
Proof.
  intros Ha Hb Hc Hd n. assert (Hn : n = a * 16777216 + b * 65536 + c * 256 + d) by (unfold n, v4; lia).
  clearbody n. unfold RESERVED_V4, between. cbn [map]. rewrite !in_block_range by lia. eval_blocks.
  repeat (f_equal; [bool_lia|]). f_equal. bool_lia.
Qed.

Lemma v4_octets n : 0 <= n < 2 ^ 32 ->
  n = v4 (octet n 0) (octet n 1) (octet n 2) (octet n 3) /\ Forall (fun i => 0 <= octet n i < 256) [0; 1; 2; 3].
Proof.
  intros Hn. split.
  - rewrite !octet_div by lia. unfold v4. cbn [Z.sub Z.mul]. Z.to_euclidean_division_equations. lia.
  - repeat constructor; rewrite octet_div by lia; apply Z.mod_pos_bound; lia.
Qed.

Lemma public_v4_blocks n : 0 <= n < 2 ^ 32 -> is_public_v4 n = negb (existsb (in_block 32 n) RESERVED_V4).
Proof.
  intros Hn. destruct (v4_octets n Hn) as [Heq Hb]. rewrite Forall_forall in Hb.
  assert (Ho : forall i, In i [0; 1; 2; 3] -> 0 <= octet n i < 256) by auto.
  pose proof (octet_tests _ _ _ _ (Ho 0 ltac:(cbn; tauto)) (Ho 1 ltac:(cbn; tauto))
    (Ho 2 ltac:(cbn; tauto)) (Ho 3 ltac:(cbn; tauto))) as Ht. cbn zeta in Ht. rewrite <- Heq in Ht.
  assert (Hx : existsb (in_block 32 n) RESERVED_V4 = existsb id (map (in_block 32 n) RESERVED_V4))
    by (generalize RESERVED_V4; intros l; induction l as [|x l IH]; cbn; [done|by rewrite IH]).
  rewrite Hx, Ht. unfold is_public_v4. cbn [existsb id]. rewrite orb_false_r, !orb_assoc. reflexivity.
Qed.

Lemma top_bits x : 0 <= x < 65536 -> (Z.land x 0xe000 =? 0x2000) = (x / 8192 =? 1).
Proof.
  intros Hx. assert (Hl : Z.land x 0xe000 = Z.shiftl (Z.land (Z.shiftr x 13) 7) 13).
  { change 0xe000 with (Z.shiftl 7 13). apply Z.bits_inj'. intros n Hn.
    rewrite Z.land_spec, !Z.shiftl_spec, Z.land_spec by done. destruct (decide (13 <= n)) as [Hge|Hlt].
    - rewrite Z.shiftr_spec by lia. by replace (n - 13 + 13) with n by lia.
    - rewrite (Z.testbit_neg_r 7) by lia. by rewrite !andb_false_r. }
  rewrite Hl. change 7 with (Z.ones 3). rewrite Z.land_ones, Z.shiftr_div_pow2, Z.shiftl_mul_pow2 by lia.
  change (2 ^ 13) with 8192. change (2 ^ 3) with 8. rewrite (Z.mod_small _ 8) by (Z.to_euclidean_division_equations; lia).
  apply eq_iff_eq_true. rewrite !Z.eqb_eq. lia.
Qed.

Lemma div_div a b c : 0 < b -> 0 < c -> a / b / c = a / (b * c).
Proof. intros. apply Z.div_div; lia. Qed.

(** The first segments of an address, joined. *)
Lemma first_segments a : 0 <= a < 2 ^ 128 ->
  segment a 0 = a / 2 ^ 112 /\ a / 2 ^ 96 = segment a 0 * 65536 + segment a 1 /\
  a / 2 ^ 80 = (segment a 0 * 65536 + segment a 1) * 65536 + segment a 2.
Proof.
  intros Ha. rewrite !segment_div by lia. cbn [Z.sub Z.mul Z.add].
  change (16 * (7 - 0)) with 112. change (16 * (7 - 1)) with 96. change (16 * (7 - 2)) with 80.
  assert (H1 : a / 2 ^ 112 = a / 2 ^ 96 / 65536) by (rewrite div_div by lia; f_equal).
  assert (H2 : a / 2 ^ 96 = a / 2 ^ 80 / 65536) by (rewrite div_div by lia; f_equal).
  assert (H3 : 0 <= a / 2 ^ 112 < 65536) by (split; [apply Z.div_pos; lia|apply Z.div_lt_upper_bound; lia]).
  generalize dependent (a / 2 ^ 112). generalize dependent (a / 2 ^ 96). generalize dependent (a / 2 ^ 80).
  intros x y Hy z Hz Hr. Z.to_euclidean_division_equations. lia.
Qed.

(** The tests of octets and segments that decide whether a resolved address may be
    contacted accept exactly the addresses outside a table of reserved blocks: for IPv4
    all fourteen of them; for IPv6 what lies in [2000::/3] but in neither the
    documentation nor the benchmarking block, and an IPv4-mapped address as the IPv4
    address it contains. *)
Theorem is_public_ip_by_blocks (address : IpAddr) :
  ip_typed address -> is_public_ip address = public_by_blocks address.
Proof.
  destruct address as [a|a]; cbn [ip_typed is_public_ip public_by_blocks]; intros Ha; [by apply public_v4_blocks|].
  unfold to_ipv4_mapped, in_block at 1, MAPPED_V6. cbn [fst snd].
  change (Z.shiftr (0xffff * 2 ^ 32) (128 - 96)) with 65535. change (128 - 96) with 32.
  destruct (Z.shiftr a 32 =? 65535) eqn:Hm.
  - change (2 ^ 32 - 1) with (Z.ones 32). rewrite Z.land_ones by lia.
    apply public_v4_blocks, Z.mod_pos_bound. lia.
  - destruct (first_segments a Ha) as (H0 & H1 & H2).
    assert (Hs : forall i, 0 <= i <= 7 -> 0 <= segment a i < 65536)
      by (intros i Hi; rewrite segment_div by done; apply Z.mod_pos_bound; lia).
    rewrite top_bits by (apply Hs; lia).
    unfold GLOBAL_V6, RESERVED_V6, in_block. cbn [existsb fst snd]. rewrite !Z.shiftr_div_pow2 by lia.
    change (128 - 3) with 125. change (128 - 32) with 96. change (128 - 48) with 80.
    assert (Hg : a / 2 ^ 125 = segment a 0 / 8192) by (rewrite H0, div_div by lia; f_equal).
    rewrite Hg, H1, H2, orb_false_r, negb_orb, andb_assoc.
    pose proof (Hs 0 ltac:(lia)). pose proof (Hs 1 ltac:(lia)). pose proof (Hs 2 ltac:(lia)).
    change (0x2000 * 2 ^ 112 / 2 ^ 125) with 1.
    change ((0x2001 * 2 ^ 112 + 0x0db8 * 2 ^ 96) / 2 ^ 96) with (0x2001 * 65536 + 0x0db8).
    change ((0x2001 * 2 ^ 112 + 0x0002 * 2 ^ 96) / 2 ^ 80) with ((0x2001 * 65536 + 0x0002) * 65536).
    f_equal; [f_equal|]; f_equal; apply eq_iff_eq_true; rewrite ?andb_true_iff, ?Z.eqb_eq; lia.
Qed.

(** A 6to4 address ([2002::/16]) of the loopback host is accepted, as is the newer
    documentation block [3fff::/20]. *)
Example tunnelled_loopback_is_public :
  is_public_ip (V6 (0x2002 * 2 ^ 112 + v4 127 0 0 1 * 2 ^ 80)) = true /\
  is_public_ip (V6 (0x3fff * 2 ^ 112)) = true.
Proof. split; reflexivity. Qed.

(** ** Compiled requests *)

(** The compiler and the endpoint policy agree: they name the same URL, authentication,
    protocol and headers. *)
Lemma compiled_passes_contract {Num} `{ProviderJson Num} (r : ProviderRequest Num) c :
  compile_request r = Ok c ->
  validate_compiled_wire_contract r c = Ok tt /\ expected_url r = Ok (origin c ++ path_and_query c).
Proof.
  intros Hc. apply compile_request_inv in Hc as (Hv & typed & members & members' & Ht & _ & _ & _
    & Hpr & Ho & Hpath & Hauth & Hh & Hproto & _). unfold validate_compiled_wire_contract, expected_url, expected_headers.
  rewrite Hpr, Ho, Hpath, Hauth, Hh, Hproto. clear Hpr Ho Hpath Hauth Hh Hproto.
  apply validate_request_inv in Hv as (Hp & _). unfold compile_options in Ht. rewrite Hp.
  destruct (provider_options r) as [o|o|o|o|o|o]; cbn [provider_id] in *;
    unfold compile_openai, compile_anthropic, compile_deepseek, compile_ollama_cloud,
      compile_google_gemini, compile_google_vertex in Ht;
    repeat (apply bind_Ok in Ht as (? & _ & Ht)); injection Ht as <-;
    cbn [base_compiled c_provider origin path_and_query auth_scheme static_headers stream_protocol].
  1-4: split; [reflexivity|reflexivity].
  - split; [reflexivity|]. by rewrite ?app_assoc.
  - split; [by destruct (request_type o)|]. unfold vertex_origin. by destruct (str_eqb (location o) _).
Qed.

(** ** Resolved endpoints *)

Section resolved.
Context `{UrlLib}.

(** What [validate_common_url] accepts: HTTPS without userinfo or fragment, on port
    443, to a domain name that is not a local one. *)
Record url_safe (url : Url) (domain : str) : Prop := {
  us_scheme : scheme url = lit "https";
  us_username : username url = [];
  us_password : password url = None;
  us_fragment : fragment url = None;
  us_port : port url = None \/ port url = Some 443;
  us_host : url_host url = Some (Domain domain);
  us_dot : ends_with domain (lit ".") = false;
  us_local : local_name (to_ascii_lowercase domain) = false;
}.

Lemma validate_common_url_iff url :
  validate_common_url url = Ok tt <-> exists domain, url_safe url domain.
Proof.
  unfold validate_common_url. split.
  - destruct (str_eqb (scheme url) _) eqn:Hs; cbn [negb]; [|done]. apply str_eqb_eq in Hs.
    destruct (username url) eqn:Hu; cbn [is_empty negb orb]; [|done].
    destruct (password url) eqn:Hpw; cbn [is_some]; [done|]. destruct (fragment url) eqn:Hf; cbn [is_some]; [done|].
    destruct (from_option _ _ _) eqn:Hpo; [done|].
    destruct (url_host url) as [[domain| |]|] eqn:Hh; try done.
    destruct (ends_with _ _) eqn:He; [done|]. destruct (local_name _) eqn:Hl; [done|]. intros _. exists domain.
    split; try done. destruct (port url) as [p|]; [|by left]. right. cbn in Hpo. f_equal.
    apply negb_false_iff, Z.eqb_eq in Hpo. done.
  - intros [domain [-> -> -> -> Hp -> -> ->]]. rewrite str_eqb_refl. by destruct Hp as [->| ->].
Qed.

Lemma url_safe_port url domain : url_safe url domain -> port_or_known_default url = Some 443.
Proof. intros [Hs _ _ _ Hp _ _ _]. unfold port_or_known_default. destruct Hp as [->| ->]; [by rewrite Hs|done]. Qed.

Lemma url_safe_host url domain : url_safe url domain -> host_str url = Some domain.
Proof. intros [_ _ _ _ _ Hh _ _]. unfold host_str. by rewrite Hh. Qed.

Lemma insert_addresses_spec port resolved : forall acc acc',
  foldM_result (insert_address port) acc resolved = Ok acc' ->
  Forall (fun a => is_public_ip a.1 = true) resolved /\
  (forall a, a ∈ acc' <-> a ∈ acc \/ exists p, (a.1, p) ∈ resolved /\ a.2 = port).
Proof.
  induction resolved as [|[ip p] resolved IH]; intros acc acc' Hf; cbn [foldM_result] in Hf.
  { injection Hf as <-. split; [constructor|]. intros a. set_solver. }
  apply bind_Ok in Hf as (acc1 & Hi & Hf). unfold insert_address in Hi. cbn [fst] in Hi.
  destruct (is_public_ip ip) eqn:Hp; cbn [negb] in Hi; [|done].
  destruct (IH _ _ Hf) as [Hall Hin]. split; [by constructor|]. intros a. rewrite Hin.
  assert (Hacc : a ∈ acc1 <-> a ∈ acc \/ a = (ip, port)) by (case_bool_decide; injection Hi as <-; set_solver).
  rewrite Hacc. clear -a. destruct a as [ip' port']. cbn. split.
  - intros [[Ha|[= -> ->]]|(q & Hq & ->)]; [by left|right; exists p; split; [left|done]|right; exists q].
    split; [by right|done].
  - intros [Ha|(q & Hq & ->)]; [tauto|]. apply elem_of_cons in Hq as [[= -> ->]|Hq]; [tauto|].
    right. by exists q.
Qed.

(** What an endpoint resolves to, whatever the DNS answers. *)
Record endpoint_safe (e : ResolvedEndpoint) : Prop := {
  es_url : exists domain, url_safe (endpoint_url e) domain /\ endpoint_host e = to_ascii_lowercase domain;
  es_some : pinned_addresses e <> [];
  es_public : Forall (fun a => is_public_ip a.1 = true /\ a.2 = 443) (pinned_addresses e);
}.

Lemma select_url_safe {Num} (r : ProviderRequest Num) c selection url o :
  select_url r c selection = Ok (url, o) ->
  (exists domain, url_safe url domain) /\
  match selection with
  | Official => o = false /\ exists expected, expected_url r = Ok expected /\
                  origin c ++ path_and_query c = expected /\ url_parse expected = Some url
  | Override endpoint => o = true /\ url_parse endpoint = Some url
  end.
Proof.
  unfold select_url. intros Hs. destruct selection as [|endpoint].
  - apply bind_Ok in Hs as (u & Hu & Hs). injection Hs as -> <-. unfold official_url in Hu.
    apply bind_Ok in Hu as (expected & Hexp & Hu). destruct (str_eqb _ _) eqn:He; cbn [negb] in Hu; [|done].
    apply str_eqb_eq in He. apply bind_Ok in Hu as (u' & Hp%ok_or_Ok & Hu).
    apply bind_Ok in Hu as ([] & Hv & Hu). injection Hu as ->. split; [by apply validate_common_url_iff|].
    split; [done|]. by exists expected.
  - apply bind_Ok in Hs as (u & Hu & Hs). injection Hs as -> <-. unfold validate_override_url in Hu.
    destruct (_ || _); [done|]. apply bind_Ok in Hu as (u' & Hp%ok_or_Ok & Hu).
    apply bind_Ok in Hu as ([] & Hv & Hu). destruct (_ || _); [done|]. destruct (from_option _ _ _); [done|].
    destruct (existsb _ _); [done|]. injection Hu as ->. split; [by apply validate_common_url_iff|done].
Qed.

Lemma resolve_endpoint_inv {Num} (r : ProviderRequest Num) c lookup selection e :
  resolve_endpoint lookup r c selection = Ok e ->
  validate_compiled_wire_contract r c = Ok tt /\
  select_url r c selection = Ok (endpoint_url e, is_override e) /\ endpoint_safe e.
Proof.
  unfold resolve_endpoint. intros He. apply bind_Ok in He as ([] & Hw & He).
  apply bind_Ok in He as ([url o] & Hs & He). apply bind_Ok in He as (h & Hh%ok_or_Ok & He).
  apply bind_Ok in He as (p & Hp%ok_or_Ok & He). apply bind_Ok in He as (resolved & _ & He).
  apply bind_Ok in He as (addrs & Ha & He). destruct (is_empty addrs) eqn:Hne; [done|]. injection He as <-.
  split; [done|]. cbn. split; [done|].
  destruct (select_url_safe _ _ _ _ _ Hs) as [[domain Hsafe] _].
  rewrite (url_safe_port _ _ Hsafe) in Hp. injection Hp as <-.
  rewrite (url_safe_host _ _ Hsafe) in Hh. injection Hh as <-.
  apply insert_addresses_spec in Ha as [Hpub Hin]. split; cbn.
  - by exists domain.
  - intros Hnil. apply is_empty_false in Hne. apply Hne. apply Permutation_nil. rewrite <- Hnil. apply sort_by_perm.
  - rewrite sort_by_perm. apply list.Forall_forall. intros a [Hn|(q & Hq & Hport)]%Hin; [by apply not_elem_of_nil in Hn|].
    split; [|done]. rewrite list.Forall_forall in Hpub. by apply (Hpub _ Hq).
Qed.
End resolved.
