(* ===== verification/Framing.v ===== *)
(** * Provider runtime: stream framing

    Models [framing/ndjson.rs] and [framing/sse.rs]: the incremental framers that
    turn network chunks, cut anywhere, into NDJSON lines and server-sent events
    under a per-frame byte limit.

    Both framers run the same loop over the newlines of a chunk and differ in
    what they do with a completed line.  [LineFramer] is that interface: the
    buffer, the limit, and the handling of one line; [push_loop] is the
    [while let Some(newline)] loop over it, by well-founded recursion on the
    bytes left, so it is total.  It returns the state together with the result
    because a failed push keeps its mutations.  [LineFramerLaws] states what the
    chunking theorems use, and each framer discharges it. *)

From Equations Require Import Equations.
From S2P Require Import Prelude Bytes Utf8 RuntimeError.

(** Pattern matching on a computed value that remembers where it came from. *)
Definition inspect {A} (a : A) : { x : A | a = x } := exist _ a eq_refl.
#[local] Notation "x 'from' H" := (exist _ x H) (only parsing, at level 20).

Definition NEWLINE : byte := byte_of 10.
Definition CR : byte := byte_of 13.
Definition COLON : byte := byte_of 58.
Definition SPACE : byte := byte_of 32.

(** [if line.last() == Some(&b'\r') { line.pop(); }] *)
Definition strip_cr (line : bytes) : bytes :=
  match list.last line with
  | Some c => if byte_eqb c CR then removelast line else line
  | None => line
  end.

(** ** The shared loop *)

Class LineFramer (S F : Type) : Type := {
  lf_buffer : S -> bytes;
  lf_max : S -> Z;
  lf_set_buffer : S -> bytes -> S;
  lf_too_large : RuntimeError;
  (** The body of the loop once a line is complete: the new state and the
      frames with those the line finished. *)
  lf_line : S -> bytes -> list F -> S * result RuntimeError (list F);
}.

Class LineFramerLaws (S F : Type) `{LineFramer S F} : Prop := {
  lf_buffer_set : forall s b, lf_buffer (lf_set_buffer s b) = b;
  lf_max_set : forall s b, lf_max (lf_set_buffer s b) = lf_max s;
  lf_set_set : forall s a b, lf_set_buffer (lf_set_buffer s a) b = lf_set_buffer s b;
  lf_set_buffer_id : forall s, lf_set_buffer s (lf_buffer s) = s;
  lf_line_frames : forall s line (frames : list F),
    lf_line s line frames =
    ((lf_line s line []).1, app frames <$> (lf_line s line ([] : list F)).2);
  lf_line_buffer : forall s line (frames : list F),
    lf_buffer (lf_line s line frames).1 = lf_buffer s;
  lf_line_max : forall s line (frames : list F),
    lf_max (lf_line s line frames).1 = lf_max s;
}.

Section loop.
Context {S F : Type} `{LineFramer S F}.

Definition over_limit (self : S) (extra : bytes) : bool :=
  saturating_add USIZE_MAX (len (lf_buffer self)) (len extra) >? lf_max self.

Equations? push_loop (self : S) (remaining : bytes) (frames : list F) :
    S * result RuntimeError (list F) by wf (length remaining) lt :=
  push_loop self remaining frames with inspect (split_once NEWLINE remaining) := {
    | Some (before, after) from Heq =>
        if over_limit self before then (self, Err lf_too_large)
        else
          match lf_line (lf_set_buffer self [])
                  (strip_cr (lf_buffer self ++ before)) frames with
          | (self', Ok frames') => push_loop self' after frames'
          | (self', Err e) => (self', Err e)
          end;
    | None from Heq =>
        if over_limit self remaining then (self, Err lf_too_large)
        else (lf_set_buffer self (lf_buffer self ++ remaining), Ok frames) }.
Proof. by eapply split_once_length. Defined.

Definition push (self : S) (chunk : bytes) : S * result RuntimeError (list F) :=
  push_loop self chunk [].

(** Feeding a sequence of chunks, stopping at the first error as the stream
    runner does, and collecting the frames of every push. *)
Fixpoint push_all (self : S) (chunks : list bytes) : S * result RuntimeError (list F) :=
  match chunks with
  | [] => (self, Ok [])
  | c :: chunks' =>
      match push self c with
      | (self', Ok frames) =>
          match push_all self' chunks' with
          | (self'', r) => (self'', app frames <$> r)
          end
      | (self', Err e) => (self', Err e)
      end
  end.
End loop.

(** ** NDJSON (ndjson.rs) *)

Module Ndjson.

Record NdjsonFramer : Type := mk { buffer : bytes; max_frame_bytes : Z }.

Definition new (max_frame_bytes : Z) : NdjsonFramer := mk [] max_frame_bytes.

Definition too_large : RuntimeError :=
  RuntimeError_new StreamTooLarge (lit "NDJSON_FRAME_TOO_LARGE")
    (lit "NDJSON frame exceeded the configured byte limit").

Definition invalid_utf8 : RuntimeError :=
  RuntimeError_new StreamProtocol (lit "INVALID_NDJSON_UTF8")
    (lit "NDJSON frames must be valid UTF-8").

Definition parse_line (line : bytes) : result RuntimeError str :=
  from_utf8 line invalid_utf8.

Definition on_line (self : NdjsonFramer) (line : bytes) (frames : list str) :
    NdjsonFramer * result RuntimeError (list str) :=
  if is_empty line then (self, Ok frames)
  else (self, frame ← parse_line line; mret (frames ++ [frame])).

#[global] Instance ndjson_framer : LineFramer NdjsonFramer str := {|
  lf_buffer := buffer;
  lf_max := max_frame_bytes;
  lf_set_buffer self b := mk b (max_frame_bytes self);
  lf_too_large := too_large;
  lf_line := on_line;
|}.

Definition finish (self : NdjsonFramer) : result RuntimeError (list str) :=
  let buffer := strip_cr (buffer self) in
  if is_empty buffer then Ok []
  else line ← parse_line buffer; mret [line].

End Ndjson.

(** ** Server-sent events (sse.rs) *)

Module Sse.

Record SseFrame : Type := mkFrame { event : option str; data : str }.

#[global] Instance SseFrame_eq_dec : EqDecision SseFrame.
Proof. solve_decision. Defined.

Record SseFramer : Type := mk {
  buffer : bytes;
  cur_event : option str;
  data_lines : list str;
  current_event_bytes : Z;
  max_frame_bytes : Z;
  first_line : bool;
}.

Definition new (max_frame_bytes : Z) : SseFramer := mk [] None [] 0 max_frame_bytes true.

Definition too_large : RuntimeError :=
  RuntimeError_new StreamTooLarge (lit "SSE_FRAME_TOO_LARGE")
    (lit "SSE frame exceeded the configured byte limit").

Definition invalid_utf8 : RuntimeError :=
  RuntimeError_new StreamProtocol (lit "INVALID_SSE_UTF8")
    (lit "SSE fields must be valid UTF-8").

Definition incomplete_frame : RuntimeError :=
  RuntimeError_new StreamProtocol (lit "INCOMPLETE_SSE_FRAME")
    (lit "SSE stream ended in the middle of an event").

(** [line.split_once(':').unwrap_or((line, ""))], less one leading space of the
    value. *)
Definition field_value (line : str) : str * str :=
  let '(field, value) :=
    match split_once COLON line with Some fv => fv | None => (line, []) end in
  (field,
   match value with
   | c :: value' => if byte_eqb c SPACE then value' else value
   | [] => value
   end).

Definition apply_field (self : SseFramer) (field value : str) : SseFramer :=
  if str_eqb field (lit "event") then
    mk (buffer self) (Some value) (data_lines self) (current_event_bytes self)
       (max_frame_bytes self) (first_line self)
  else if str_eqb field (lit "data") then
    mk (buffer self) (cur_event self) (data_lines self ++ [value])
       (current_event_bytes self) (max_frame_bytes self) (first_line self)
  else self.

(** A blank line: dispatch the event if it has data, and reset. *)
Definition dispatch (self : SseFramer) (frames : list SseFrame) :
    SseFramer * list SseFrame :=
  (mk (buffer self) None [] 0 (max_frame_bytes self) (first_line self),
   if is_empty (data_lines self) then frames
   else frames ++ [mkFrame (cur_event self) (join [NEWLINE] (data_lines self))]).

Definition with_event_bytes (self : SseFramer) (n : Z) : SseFramer :=
  mk (buffer self) (cur_event self) (data_lines self) n
     (max_frame_bytes self) (first_line self).

Definition process_line (self : SseFramer) (line : bytes) (frames : list SseFrame) :
    SseFramer * result RuntimeError (list SseFrame) :=
  if len line >? max_frame_bytes self then (self, Err too_large)
  else match line with
  | [] => let '(self', frames') := dispatch self frames in (self', Ok frames')
  | c :: _ =>
      if byte_eqb c COLON then (self, Ok frames)
      else
        let self := with_event_bytes self
          (saturating_add USIZE_MAX (current_event_bytes self)
             (saturating_add USIZE_MAX (len line) 1)) in
        if current_event_bytes self >? max_frame_bytes self
        then (self, Err too_large)
        else match from_utf8 line invalid_utf8 with
        | Err e => (self, Err e)
        | Ok line =>
            let '(field, value) := field_value line in
            (apply_field self field value, Ok frames)
        end
  end.

(** [[0xef, 0xbb, 0xbf]] *)
Definition BOM : bytes := [byte_of 239; byte_of 187; byte_of 191].

(** [if self.first_line { self.first_line = false; if line.starts_with(BOM) { .. } }] *)
Definition strip_bom (self : SseFramer) (line : bytes) : SseFramer * bytes :=
  if first_line self then
    (mk (buffer self) (cur_event self) (data_lines self) (current_event_bytes self)
        (max_frame_bytes self) false,
     if starts_with line BOM then drop 3 line else line)
  else (self, line).

Definition on_line (self : SseFramer) (line : bytes) (frames : list SseFrame) :
    SseFramer * result RuntimeError (list SseFrame) :=
  let '(self, line) := strip_bom self line in process_line self line frames.

#[global] Instance sse_framer : LineFramer SseFramer SseFrame := {|
  lf_buffer := buffer;
  lf_max := max_frame_bytes;
  lf_set_buffer self b :=
    mk b (cur_event self) (data_lines self) (current_event_bytes self)
       (max_frame_bytes self) (first_line self);
  lf_too_large := too_large;
  lf_line := on_line;
|}.

Definition finish (self : SseFramer) : result RuntimeError unit :=
  if is_empty (buffer self) && bool_decide (cur_event self = None)
     && is_empty (data_lines self)
  then Ok tt else Err incomplete_frame.

End Sse.

(** ** The loop does not see where chunks are cut *)

(** Two runs agree when both succeed with the same state and frames or both
    fail with the same error. *)
Definition same_outcome {S A} (x y : S * result RuntimeError A) : Prop :=
  match x, y with
  | (s, Ok a), (s', Ok a') => s = s' /\ a = a'
  | (_, Err e), (_, Err e') => e = e'
  | _, _ => False
  end.

#[export] Instance same_outcome_equiv S A : Equivalence (@same_outcome S A).
Proof.
  split.
  - intros [s []]; simpl; auto.
  - intros [s []] [s' []]; simpl; naive_solver.
  - intros [s []] [s' []] [s'' []]; simpl; naive_solver.
Qed.

Section loop_facts.
Context {S F : Type} `{LineFramerLaws S F}.

Lemma push_loop_eq (self : S) remaining (frames : list F) :
  push_loop self remaining frames =
  match split_once NEWLINE remaining with
  | Some (before, after) =>
      if over_limit self before then (self, Err lf_too_large)
      else
        match lf_line (lf_set_buffer self [])
                (strip_cr (lf_buffer self ++ before)) frames with
        | (self', Ok frames') => push_loop self' after frames'
        | (self', Err e) => (self', Err e)
        end
  | None =>
      if over_limit self remaining then (self, Err lf_too_large)
      else (lf_set_buffer self (lf_buffer self ++ remaining), Ok frames)
  end.
Proof.
  rewrite push_loop_equation_1. unfold push_loop_unfold_clause_1, inspect.
  destruct (split_once NEWLINE remaining) as [[]|]; simpl; done.
Qed.

Lemma over_limit_app (self : S) a b :
  over_limit self a = true -> over_limit self (a ++ b) = true.
Proof. unfold over_limit, saturating_add. rewrite len_app. pose proof (len_nonneg b). lia. Qed.

Lemma over_limit_buffered (self : S) a b :
  over_limit (lf_set_buffer self (lf_buffer self ++ a)) b = over_limit self (a ++ b).
Proof.
  unfold over_limit. rewrite lf_buffer_set, lf_max_set, !len_app.
  by rewrite Z.add_assoc || (f_equal; unfold saturating_add; lia).
Qed.

(** Frames already collected only sit in front. *)
Lemma push_loop_frames (self : S) remaining (frames : list F) :
  push_loop self remaining frames =
  ((push_loop self remaining []).1, app frames <$> (push_loop self remaining ([] : list F)).2).
Proof.
  remember (length remaining) as n eqn:Hn. revert self remaining frames Hn.
  induction n as [n IH] using lt_wf_ind. intros self remaining frames ->.
  rewrite (push_loop_eq self remaining frames), (push_loop_eq self remaining []).
  destruct (split_once NEWLINE remaining) as [[before after]|] eqn:Hs.
  - destruct (over_limit self before); [done|].
    rewrite lf_line_frames.
    destruct (lf_line _ _ []) as [self' [fs|e]]; simpl; [|done].
    apply split_once_length in Hs.
    rewrite (IH _ Hs self' after (frames ++ fs)), (IH _ Hs self' after fs) by done.
    destruct (push_loop self' after []) as [s2 [r|e]]; simpl; [|done].
    by rewrite app_assoc.
  - destruct (over_limit self remaining); simpl; [done|]. by rewrite app_nil_r.
Qed.

(** Pushing a concatenation is pushing the pieces in turn. *)
Lemma push_loop_app (self : S) a b (frames : list F) :
  same_outcome (push_loop self (a ++ b) frames)
    match push_loop self a frames with
    | (self', Ok frames') => push_loop self' b frames'
    | (self', Err e) => (self', Err e)
    end.
Proof.
  remember (length a) as n eqn:Hn. revert self a frames Hn.
  induction n as [n IH] using lt_wf_ind. intros self a frames ->.
  rewrite (push_loop_eq self a), (push_loop_eq self (a ++ b)).
  destruct (split_once NEWLINE a) as [[before after]|] eqn:Hs.
  - rewrite (split_once_app_Some _ _ _ _ _ Hs).
    destruct (over_limit self before); [done|].
    destruct (lf_line _ _ frames) as [self' [fs|e]]; [|done].
    eapply IH; [by eapply split_once_length | done].
  - rewrite (split_once_app_None _ _ b Hs).
    destruct (over_limit self a) eqn:Ho.
    { destruct (split_once NEWLINE b) as [[bb ab]|];
        by rewrite (over_limit_app _ _ _ Ho). }
    rewrite (push_loop_eq _ b).
    destruct (split_once NEWLINE b) as [[bb ab]|];
      rewrite over_limit_buffered;
      (destruct (over_limit self (a ++ _)); [done|]);
      by rewrite lf_set_set, lf_buffer_set, app_assoc.
Qed.

Lemma push_app (self : S) (a b : bytes) :
  same_outcome (push (F := F) self (a ++ b))
    match push self a with
    | (self', Ok f1) =>
        match push self' b with
        | (self'', r) => (self'', app f1 <$> r)
        end
    | (self', Err e) => (self', Err e)
    end.
Proof.
  unfold push. rewrite push_loop_app.
  destruct (push_loop self a []) as [self' [f1|e]]; [|done].
  rewrite push_loop_frames. by destruct (push_loop self' b []).
Qed.

Lemma push_all_cons (self : S) c chunks :
  push_all (F := F) self (c :: chunks) =
  match push self c with
  | (self', Ok frames) =>
      match push_all self' chunks with
      | (self'', r) => (self'', app frames <$> r)
      end
  | (self', Err e) => (self', Err e)
  end.
Proof. done. Qed.

(** Any chunking of a stream has the outcome of pushing it whole. *)
Lemma push_all_concat (self : S) (chunk : bytes) (chunks : list bytes) :
  same_outcome (push_all (F := F) self (chunk :: chunks))
               (push self (concat (chunk :: chunks))).
Proof.
  revert self chunk. induction chunks as [|c chunks IH]; intros self chunk.
  - cbn [push_all concat]. rewrite app_nil_r.
    destruct (push self chunk) as [s [f|e]]; simpl; [by rewrite app_nil_r | done].
  - change (concat (chunk :: c :: chunks)) with (chunk ++ concat (c :: chunks)).
    rewrite push_app, push_all_cons. destruct (push self chunk) as [s [f|e]]; [|done].
    specialize (IH s c).
    destruct (push_all s (c :: chunks)) as [s1 [r1|e1]];
      destruct (push s (concat (c :: chunks))) as [s2 [r2|e2]]; simpl in *; naive_solver.
Qed.

(** *** The loop as a fold over lines *)

(** What a framer does with a sequence of complete lines. *)
Fixpoint run_lines (self : S) (lines : list bytes) (frames : list F) :
    S * result RuntimeError (list F) :=
  match lines with
  | [] => (self, Ok frames)
  | line :: lines' =>
      match lf_line self line frames with
      | (self', Ok frames') => run_lines self' lines' frames'
      | (self', Err e) => (self', Err e)
      end
  end.

Definition line_fits (max : Z) (line : bytes) : bool := len line <=? max.
End loop_facts.

(** The complete lines of a stream and its unterminated tail. *)
Definition is_newline (c : byte) : bool := byte_eqb c NEWLINE.
Definition stream_lines (s : bytes) : list bytes * bytes := segments is_newline s.

Lemma no_newline a : NEWLINE ∉ a -> forallb (fun x => negb (is_newline x)) a = true.
Proof.
  induction a as [|c a IH]; [done|]. intros [Hc Ha]%not_elem_of_cons. cbn [forallb].
  rewrite IH by done. unfold is_newline.
  by rewrite (proj2 (byte_eqb_neq c NEWLINE)) by congruence.
Qed.

Lemma stream_lines_nonl a : NEWLINE ∉ a -> stream_lines a = ([], a).
Proof. intros H. by apply segments_open, no_newline. Qed.

Lemma stream_lines_split s before after :
  split_once NEWLINE s = Some (before, after) ->
  stream_lines s = (before :: (stream_lines after).1, (stream_lines after).2).
Proof.
  intros H. pose proof (split_once_no _ _ _ _ H) as Hn. apply split_once_Some in H. subst.
  apply segments_cons; [by apply no_newline | apply byte_eqb_refl].
Qed.

Section loop_spec.
Context {S F : Type} `{LineFramerLaws S F}.

(** With an empty buffer, a push whose lines and tail fit the limit is the fold
    over its lines; an oversized line or tail makes it fail, whatever the
    lines before it did. *)
Lemma push_loop_lines (self : S) bs (frames : list F) :
  lf_buffer self = [] -> lf_max self < USIZE_MAX ->
  let '(lines, tail) := stream_lines bs in
  if forallb (line_fits (lf_max self)) (lines ++ [tail]) then
    push_loop self bs frames =
    match run_lines self (map strip_cr lines) frames with
    | (self', Ok frames') => (lf_set_buffer self' tail, Ok frames')
    | (self', Err e) => (self', Err e)
    end
  else is_ok (push_loop self bs frames).2 = false.
Proof.
  remember (length bs) as n eqn:Hn. revert self bs frames Hn.
  induction n as [n IH] using lt_wf_ind. intros self bs frames -> Hb Hmax.
  pose proof (lf_set_buffer_id self) as Hset. rewrite Hb in Hset.
  assert (forall l, over_limit self l = negb (line_fits (lf_max self) l)) as Hover.
  { intros l. unfold over_limit, line_fits. rewrite Hb. unfold saturating_add.
    rewrite len_nil. pose proof (len_nonneg l). lia. }
  rewrite push_loop_eq. destruct (split_once NEWLINE bs) as [[before after]|] eqn:Hs.
  - rewrite (stream_lines_split _ _ _ Hs). cbn [app forallb map run_lines].
    rewrite Hover, Hb, Hset. cbn [app].
    destruct (line_fits (lf_max self) before); cbn [negb andb]; [|done].
    pose proof (lf_line_buffer self (strip_cr before) frames) as Hb'.
    pose proof (lf_line_max self (strip_cr before) frames) as Hm'.
    destruct (lf_line self (strip_cr before) frames) as [self' [fs|e]] eqn:Hl.
    + simpl in Hb', Hm'. specialize (IH (length after)).
      rewrite <- Hm'. specialize (IH ltac:(by eapply split_once_length) self' after fs).
      destruct (stream_lines after) as [lines tail]. cbn [fst snd].
      apply IH; [done | congruence | lia].
    + by destruct (stream_lines after), (forallb _ _).
  - rewrite stream_lines_nonl by (by apply split_once_None).
    cbn [app forallb map run_lines]. rewrite andb_true_r, Hover.
    destruct (line_fits _ bs); [|done]. simpl. by rewrite Hb.
Qed.
End loop_spec.

(** ** Invariants of the loop *)

Section loop_inv.
Context {S F : Type} `{LineFramerLaws S F}.
Context (Inv : S -> Prop) (Q : F -> Prop).
Hypothesis Inv_buffer : forall s b,
  Inv s -> saturating_add USIZE_MAX 0 (len b) <= lf_max s -> Inv (lf_set_buffer s b).
Hypothesis Inv_line : forall s line frames s' frames',
  Inv s -> Forall Q frames -> lf_line s line frames = (s', Ok frames') ->
  Inv s' /\ Forall Q frames'.
Hypothesis Inv_max : forall s, Inv s -> 0 <= lf_max s.

(** A property of states and frames kept by every accepted line is kept by
    every successful push. *)
Lemma push_loop_inv s bs frames s' frames' :
  Inv s -> Forall Q frames -> push_loop s bs frames = (s', Ok frames') ->
  Inv s' /\ Forall Q frames'.
Proof.
  remember (length bs) as n eqn:Hn. revert s bs frames Hn.
  induction n as [n IH] using lt_wf_ind. intros s bs frames -> Hs Hf.
  rewrite push_loop_eq. destruct (split_once NEWLINE bs) as [[before after]|] eqn:Hsp.
  - destruct (over_limit s before); [done|].
    destruct (lf_line _ _ _) as [s1 [fs|e]] eqn:Hl; [|done].
    apply Inv_line in Hl as [Hi Hq]; [|by apply Inv_buffer;
      [|specialize (Inv_max s Hs); unfold saturating_add, len; simpl; lia]|done].
    eapply IH; [by eapply split_once_length | done..].
  - destruct (over_limit s bs) eqn:Ho; [done|]. intros [= <- <-]. split; [|done].
    apply Inv_buffer; [done|]. unfold over_limit, saturating_add in *.
    rewrite len_app. lia.
Qed.
End loop_inv.

(** ** NDJSON theorems *)

Module NdjsonFacts.
Import Ndjson.

#[global] Instance ndjson_laws : LineFramerLaws NdjsonFramer str.
Proof.
  split; try done.
  - by intros [].
  - intros s line frames. simpl. unfold on_line. destruct (is_empty line); simpl.
    + by rewrite app_nil_r.
    + by destruct (parse_line line).
  - intros s line frames. simpl. unfold on_line. by destruct (is_empty line).
  - intros s line frames. simpl. unfold on_line. by destruct (is_empty line).
Qed.

(** What the framer should produce: one frame per non-empty line. *)
Definition ndjson_frames (bs : bytes) : list str :=
  filter (fun l => l <> []) (map strip_cr (stream_lines bs).1).

Definition ndjson_within (max : Z) (bs : bytes) : bool :=
  let '(lines, tail) := stream_lines bs in
  forallb (line_fits max) (lines ++ [tail]) &&
  bool_decide (Forall utf8_valid (map strip_cr lines)).

Lemma run_lines_ndjson (self : NdjsonFramer) lines frames :
  (run_lines self lines frames).2 =
  if bool_decide (Forall utf8_valid lines)
  then Ok (frames ++ filter (fun l => l <> []) lines) else Err invalid_utf8.
Proof.
  revert frames. induction lines as [|line lines IH]; intros frames.
  { simpl. by rewrite app_nil_r. }
  cbn [run_lines lf_line ndjson_framer]. unfold on_line, parse_line, from_utf8.
  destruct line as [|c line]; cbn [is_empty].
  - rewrite IH, filter_cons_False by (by intros []).
    by rewrite (Forall_head_true utf8_valid) by (by eexists).
  - destruct (utf8_decode (c :: line)) as [cs|] eqn:Hd;
      cbn [mbind result_bind mret result_ret snd].
    + rewrite IH, filter_cons_True, <- app_assoc by done.
      by rewrite (Forall_head_true utf8_valid) by (by eexists).
    + rewrite bool_decide_false; [done|]. intros Hv. inversion Hv as [|?? [? Hx]]. congruence.
Qed.

(** Any way of cutting a byte stream into network chunks gives the frames,
    or the error, of pushing it in one piece. *)
Theorem ndjson_chunking (self : NdjsonFramer) (chunk : bytes) (chunks : list bytes) :
  same_outcome (push_all self (chunk :: chunks)) (push self (concat (chunk :: chunks))).
Proof. apply push_all_concat. Qed.

(** from a fresh framer, pushing a stream succeeds exactly when every line
    and the unterminated tail fit the limit and every complete line is UTF-8,
    and then the frames are the non-empty lines without their CR. *)
Theorem ndjson_push_spec (max : Z) (bs : bytes) :
  max < USIZE_MAX ->
  if ndjson_within max bs
  then (push (new max) bs).2 = Ok (ndjson_frames bs)
  else is_ok (push (new max) bs).2 = false.
Proof.
  intros Hmax. unfold ndjson_within, ndjson_frames, push.
  pose proof (push_loop_lines (new max) bs [] eq_refl Hmax) as H.
  destruct (stream_lines bs) as [lines tail]. cbn [lf_max ndjson_framer new max_frame_bytes] in H.
  destruct (forallb (line_fits max) (lines ++ [tail])); cbn [andb]; [|done].
  rewrite H. pose proof (run_lines_ndjson (new max) (map strip_cr lines) []) as Hr.
  destruct (run_lines _ _ _) as [s r]. simpl in Hr. subst r. by case_bool_decide.
Qed.

Definition ndjson_fixture : bytes :=
  lit "{}" ++ [CR; NEWLINE; NEWLINE] ++ lit "[1]" ++ [NEWLINE] ++ lit "tail".

Lemma ndjson_push_spec_witness :
  8 < USIZE_MAX /\ (push (new 8) ndjson_fixture).2 = Ok [lit "{}"; lit "[1]"].
Proof.
  split; [done|].
  pose proof (ndjson_push_spec 8 ndjson_fixture eq_refl) as H.
  replace (ndjson_within 8 ndjson_fixture) with true in H by (vm_compute; reflexivity).
  rewrite H. vm_compute. reflexivity.
Defined.
End NdjsonFacts.

(** ** SSE theorems *)

Module SseFacts.
Import Sse.

#[global] Instance sse_laws : LineFramerLaws SseFramer SseFrame.
Proof.
  split; try done.
  - by intros [].
  - intros s line frames. simpl. unfold on_line, strip_bom, process_line, dispatch.
    destruct s as [b e d n m f]; destruct f; cbn;
      repeat (case_match; simplify_eq/=; try (by rewrite ?app_nil_r)).
  - intros s line frames. simpl. unfold on_line, strip_bom, process_line, dispatch, apply_field.
    destruct s as [b e d n m f]; destruct f; cbn; repeat (case_match; simplify_eq/=; try done).
  - intros s line frames. simpl. unfold on_line, strip_bom, process_line, dispatch, apply_field.
    destruct s as [b e d n m f]; destruct f; cbn; repeat (case_match; simplify_eq/=; try done).
Qed.

(** *** Reference semantics of an event stream

    Lines are cut at newlines, lose a trailing CR and (the first one) a BOM;
    blank lines close events; the event's name is its last [event] field and its
    data the [data] fields joined by newlines; events without data are dropped,
    comments and other fields ignored. *)

Definition is_comment (line : bytes) : bool :=
  match line with c :: _ => byte_eqb c COLON | [] => false end.

Definition block_fields (block : list bytes) : list (str * str) :=
  map field_value (List.filter (fun l => negb (is_comment l)) block).

Definition values_of (name : str) (fields : list (str * str)) : list str :=
  map snd (List.filter (fun f => str_eqb f.1 name) fields).

Definition block_event (block : list bytes) : option str :=
  list.last (values_of (lit "event") (block_fields block)).

Definition block_data (block : list bytes) : list str :=
  values_of (lit "data") (block_fields block).

Definition block_frame (block : list bytes) : option SseFrame :=
  if is_empty (block_data block) then None
  else Some (mkFrame (block_event block) (join [NEWLINE] (block_data block))).

Fixpoint block_bytes (block : list bytes) : Z :=
  match block with
  | [] => 0
  | l :: block' => (if is_comment l then 0 else len l + 1) + block_bytes block'
  end.

Definition block_within (max : Z) (block : list bytes) : bool :=
  (block_bytes block <=? max) &&
  forallb (fun l => is_comment l || bool_decide (utf8_valid l)) block.

Definition strip_bom_line (line : bytes) : bytes :=
  if starts_with line BOM then drop 3 line else line.

Definition text_lines (bs : bytes) : list bytes :=
  match map strip_cr (stream_lines bs).1 with
  | [] => []
  | l :: ls => strip_bom_line l :: ls
  end.

Definition sse_frames (bs : bytes) : list SseFrame :=
  omap block_frame (segments is_empty (text_lines bs)).1.

Definition sse_within (max : Z) (bs : bytes) : bool :=
  let '(lines, tail) := stream_lines bs in
  let '(blocks, open) := segments is_empty (text_lines bs) in
  forallb (line_fits max) (lines ++ [tail]) && forallb (block_within max) (blocks ++ [open]).

(** *** The framer's state mirrors the open event *)

Definition state_of (max : Z) (block : list bytes) : SseFramer :=
  mk [] (block_event block) (block_data block) (block_bytes block) max false.

Lemma block_fields_snoc block l :
  block_fields (block ++ [l]) =
  block_fields block ++ if is_comment l then [] else [field_value l].
Proof.
  unfold block_fields. rewrite List.filter_app, map_app. f_equal. cbn.
  by destruct (is_comment l).
Qed.

Lemma block_bytes_app b1 b2 : block_bytes (b1 ++ b2) = block_bytes b1 + block_bytes b2.
Proof. induction b1; cbn [app block_bytes]; lia. Qed.

Lemma block_bytes_nonneg b : 0 <= block_bytes b.
Proof.
  induction b as [|l b IH]; cbn [block_bytes]; [lia|].
  pose proof (len_nonneg l). destruct (is_comment l); lia.
Qed.

Lemma block_within_prefix max b x : block_within max (b ++ x) = true -> block_within max b = true.
Proof.
  unfold block_within. rewrite block_bytes_app, forallb_app.
  pose proof (block_bytes_nonneg x). intros H'. zify_bool.
  apply andb_true_iff. split; [lia | done].
Qed.

Lemma values_of_snoc name fs f :
  values_of name (fs ++ [f]) = values_of name fs ++ if str_eqb f.1 name then [f.2] else [].
Proof.
  unfold values_of. rewrite List.filter_app, map_app. f_equal. cbn.
  by destruct (str_eqb f.1 name).
Qed.

Lemma state_of_comment max block l :
  is_comment l = true -> state_of max (block ++ [l]) = state_of max block.
Proof.
  intros Hl. unfold state_of, block_event, block_data.
  rewrite block_fields_snoc, Hl, app_nil_r, block_bytes_app. cbn [block_bytes].
  rewrite Hl. f_equal. lia.
Qed.

(** A field line extends the open event. *)
Lemma state_of_field max block l :
  is_comment l = false ->
  state_of max (block ++ [l]) =
  apply_field (with_event_bytes (state_of max block) (block_bytes block + len l + 1))
    (field_value l).1 (field_value l).2.
Proof.
  intros Hl. unfold state_of, block_event, block_data.
  rewrite block_fields_snoc, Hl, !values_of_snoc, block_bytes_app. cbn [block_bytes].
  rewrite Hl. unfold apply_field, with_event_bytes.
  replace (block_bytes block + (len l + 1 + 0)) with (block_bytes block + len l + 1) by lia.
  destruct (str_eqb (field_value l).1 (lit "event")) eqn:He.
  - apply str_eqb_eq in He. rewrite He. cbn [buffer cur_event data_lines].
    rewrite last_snoc. cbn. by rewrite app_nil_r.
  - rewrite app_nil_r.
    destruct (str_eqb (field_value l).1 (lit "data")); cbn; [done | by rewrite app_nil_r].
Qed.

Lemma on_line_blank max block frames :
  0 <= max ->
  on_line (state_of max block) [] frames =
  (state_of max [], Ok (frames ++ option_list (block_frame block))).
Proof.
  intros Hmax. unfold on_line, strip_bom. cbn [first_line state_of].
  unfold process_line. cbn [max_frame_bytes state_of].
  rewrite gtb_false by (rewrite len_nil; lia).
  unfold dispatch, block_frame. cbn.
  destruct (is_empty (block_data block)); cbn; by rewrite ?app_nil_r.
Qed.

(** One non-blank line of the open event: accepted exactly when the event stays
    within the limit and the line is a comment or UTF-8. *)
Lemma on_line_text max block l frames :
  l <> [] -> len l <= max -> max < USIZE_MAX -> block_within max block = true ->
  if block_within max (block ++ [l])
  then on_line (state_of max block) l frames = (state_of max (block ++ [l]), Ok frames)
  else is_ok (on_line (state_of max block) l frames).2 = false.
Proof.
  intros Hne Hlen Hmax Hb. unfold on_line, strip_bom. cbn [first_line state_of].
  unfold process_line. cbn [max_frame_bytes state_of].
  rewrite gtb_false by done.
  unfold block_within in *. rewrite block_bytes_app, forallb_app.
  cbn [block_bytes forallb]. zify_bool.
  destruct l as [|c l]; [done|]. set (line := c :: l) in *.
  change (byte_eqb c COLON) with (is_comment line).
  pose proof (len_nonneg line). pose proof (block_bytes_nonneg block).
  destruct (is_comment line) eqn:Hc.
  - rewrite state_of_comment by done. rewrite H0. cbn [orb andb].
    by replace (block_bytes block + (0 + 0) <=? max) with true by lia.
  - rewrite state_of_field by done. rewrite H0. cbn [orb andb].
    rewrite andb_true_r.
    replace (saturating_add USIZE_MAX _ (saturating_add USIZE_MAX _ 1)) with
      (Z.min USIZE_MAX (block_bytes block + len line + 1))
      by (cbn [current_event_bytes state_of]; unfold saturating_add; lia).
    cbn [current_event_bytes with_event_bytes max_frame_bytes state_of].
    fold (state_of max block). unfold from_utf8.
    destruct (block_bytes block + (len line + 1 + 0) <=? max) eqn:Hfit; zify_bool; cbn [andb].
    + rewrite gtb_false by lia. rewrite Z.min_r by lia.
      destruct (utf8_decode line) as [cs|] eqn:Hd.
      * rewrite bool_decide_true by (by eexists).
        by destruct (field_value line).
      * by rewrite bool_decide_false by (intros [? ?]; congruence).
    + by rewrite gtb_true by lia.
Qed.

(** The lines of a stream, run from the middle of an event. *)
Lemma run_lines_sse max block lines frames :
  0 <= max < USIZE_MAX -> Forall (fun l => len l <= max) lines ->
  forallb (fun l => negb (is_empty l)) block = true -> block_within max block = true ->
  let '(blocks, open) := segments is_empty (block ++ lines) in
  if forallb (block_within max) (blocks ++ [open])
  then (run_lines (state_of max block) lines frames).2 = Ok (frames ++ omap block_frame blocks)
  else is_ok (run_lines (state_of max block) lines frames).2 = false.
Proof.
  intros Hmax Hlen. revert block frames.
  induction Hlen as [|l lines Hl Hlen IH]; intros block frames Hblk Hw.
  { rewrite app_nil_r, segments_open by done. cbn [app forallb]. rewrite Hw. simpl.
    by rewrite app_nil_r. }
  cbn [run_lines lf_line sse_framer].
  destruct l as [|c l].
  - rewrite segments_cons by done. rewrite on_line_blank by lia.
    specialize (IH [] (frames ++ option_list (block_frame block)) eq_refl).
    cbn [app] in IH. destruct (segments is_empty lines) as [blocks open].
    cbn [fst snd app forallb omap list_omap]. rewrite Hw. cbn [andb].
    assert (block_within max [] = true) as Hw0 by (apply andb_true_iff; split; [cbn; lia | done]).
    specialize (IH Hw0). destruct (forallb _ _); [|done]. rewrite IH. f_equal.
    rewrite <- app_assoc. f_equal. by destruct (block_frame block).
  - pose proof (on_line_text max block (c :: l) frames ltac:(done) Hl ltac:(lia) Hw) as Hon.
    assert (forallb (fun l => negb (is_empty l)) (block ++ [c :: l]) = true) as Hblk'
      by (rewrite forallb_app, Hblk; done).
    replace (block ++ (c :: l) :: lines) with ((block ++ [c :: l]) ++ lines)
      by (by rewrite <- app_assoc).
    destruct (block_within max (block ++ [c :: l])) eqn:Hw'.
    + rewrite Hon. by apply IH.
    + destruct (on_line (state_of max block) (c :: l) frames) as [s [r|e]]; [done|].
      destruct (segments_prefix is_empty (block ++ [c :: l]) lines Hblk') as (x & rest & Hx).
      destruct (segments _ _) as [blocks open]. cbn [fst snd] in Hx. rewrite Hx.
      cbn [forallb]. destruct (block_within max ((block ++ [c :: l]) ++ x)) eqn:Hbad; [|done].
      apply block_within_prefix in Hbad. congruence.
Qed.

(** A fresh framer drops the BOM of its first line. *)
Lemma run_lines_new max lines frames :
  0 <= max < USIZE_MAX -> Forall (fun l => len l <= max) lines ->
  let '(blocks, open) := segments is_empty
    match lines with [] => [] | l :: ls => strip_bom_line l :: ls end in
  if forallb (block_within max) (blocks ++ [open])
  then (run_lines (new max) lines frames).2 = Ok (frames ++ omap block_frame blocks)
  else is_ok (run_lines (new max) lines frames).2 = false.
Proof.
  intros Hmax Hlen.
  assert (block_within max [] = true) as Hw by (apply andb_true_iff; split; [cbn; lia | done]).
  destruct Hlen as [|l ls Hl Hls].
  { cbn [segments app forallb]. rewrite Hw. cbn. by rewrite app_nil_r. }
  assert (len (strip_bom_line l) <= max) as Hl'.
  { unfold strip_bom_line. destruct (starts_with l BOM); [|done].
    unfold len in *. rewrite length_drop. lia. }
  exact (run_lines_sse max [] (strip_bom_line l :: ls) frames Hmax
    ltac:(by constructor) eq_refl Hw).
Qed.

Lemma strip_cr_fits max lines tail :
  forallb (line_fits max) (lines ++ [tail]) = true ->
  Forall (fun l => len l <= max) (map strip_cr lines).
Proof.
  rewrite forallb_app. intros [H _]%andb_true_iff. rewrite forallb_forall in H.
  apply Forall_forall. intros l (l0 & <- & Hin)%in_map_iff.
  specialize (H _ Hin). unfold line_fits in H. zify_bool. etrans; [|exact H].
  unfold strip_cr. case_match; [|done]. case_match; [|done].
  unfold len. destruct l0 as [|c l0]; [done|].
  rewrite removelast_firstn_len, length_take. lia.
Qed.

(** *** Bounds *)

Fixpoint data_size (data : list str) : Z :=
  match data with [] => 0 | d :: data' => len d + 1 + data_size data' end.

Lemma data_size_snoc data d : data_size (data ++ [d]) = data_size data + len d + 1.
Proof. induction data; cbn [app data_size]; lia. Qed.

Lemma join_size data : len (join [NEWLINE] data) <= data_size data.
Proof.
  induction data as [|d [|d' data] IH]; [done | cbn; unfold len; simpl; lia |].
  change (join [NEWLINE] (d :: d' :: data)) with (d ++ [NEWLINE] ++ join [NEWLINE] (d' :: data)).
  rewrite !len_app, len_cons, len_nil. cbn [data_size] in *. lia.
Qed.

(** Everything a framer holds is bounded by its limit. *)
Definition sse_bounded (self : SseFramer) : Prop :=
  max_frame_bytes self < USIZE_MAX /\
  len (buffer self) <= max_frame_bytes self /\
  data_size (data_lines self) <= current_event_bytes self <= max_frame_bytes self /\
  (forall e, cur_event self = Some e -> len e <= max_frame_bytes self).

Definition frame_bounded (max : Z) (f : SseFrame) : Prop :=
  len (data f) <= max /\ (forall e, event f = Some e -> len e <= max).

Lemma field_value_len line : len (field_value line).2 <= len line.
Proof.
  unfold field_value.
  destruct (split_once COLON line) as [[f v]|] eqn:Hs; cbn [snd].
  - apply split_once_Some in Hs. subst. rewrite len_app, len_cons.
    pose proof (len_nonneg f). pose proof (len_nonneg v).
    destruct v as [|c v]; [lia|]. rewrite len_cons in *. destruct (byte_eqb c SPACE);
      rewrite ?len_cons; lia.
  - rewrite len_nil. apply len_nonneg.
Qed.

Lemma data_size_nonneg data : 0 <= data_size data.
Proof. induction data as [|d data IH]; cbn [data_size]; [lia|]. pose proof (len_nonneg d). lia. Qed.

Lemma apply_field_bounded self line :
  sse_bounded self -> len line + 1 <= max_frame_bytes self ->
  data_size (data_lines self) + len line + 1 <= current_event_bytes self ->
  sse_bounded (apply_field self (field_value line).1 (field_value line).2).
Proof.
  intros (Hm & Hb & Hd & He) Hl Hs. pose proof (field_value_len line).
  unfold apply_field, sse_bounded.
  destruct (str_eqb _ _); [|destruct (str_eqb _ _)]; cbn; split_and!; try done; try lia.
  - intros e [= <-]. lia.
  - rewrite data_size_snoc. lia.
Qed.

Lemma process_line_bounded self line frames self' frames' :
  sse_bounded self -> Forall (frame_bounded (max_frame_bytes self)) frames ->
  process_line self line frames = (self', Ok frames') ->
  sse_bounded self' /\ max_frame_bytes self' = max_frame_bytes self /\
  Forall (frame_bounded (max_frame_bytes self)) frames'.
Proof.
  intros (Hm & Hb & Hd & He) Hf. unfold process_line.
  pose proof (data_size_nonneg (data_lines self)).
  destruct (len line >? _) eqn:Hlen; [done|]. zify_bool.
  destruct line as [|c l].
  { intros [= <- <-]. split_and!; [cbn; split_and!; try done; lia | done |].
    destruct (is_empty _); [done|]. apply Forall_app. split; [done|].
    apply Forall_singleton. split; [|done]. cbn [data]. pose proof (join_size (data_lines self)). lia. }
  destruct (byte_eqb c COLON); [by intros [= <- <-]|].
  set (line := c :: l) in *. pose proof (len_nonneg line).
  destruct (_ >? _) eqn:Hev; zify_bool; [done|]. unfold from_utf8.
  destruct (utf8_decode line); [|done].
  rewrite (surjective_pairing (field_value line)). intros [= <- <-].
  cbn [current_event_bytes with_event_bytes max_frame_bytes] in *. unfold saturating_add in *.
  split_and!; [|unfold apply_field; by repeat case_match|done].
  apply apply_field_bounded; cbn; [split_and!; cbn; try done|..]; lia.
Qed.

Lemma push_bounded (self self' : SseFramer) bs frames :
  sse_bounded self -> push self bs = (self', Ok frames) ->
  sse_bounded self' /\ max_frame_bytes self' = max_frame_bytes self /\
  Forall (frame_bounded (max_frame_bytes self)) frames.
Proof.
  intros Hb Hp. set (m := max_frame_bytes self).
  destruct (push_loop_inv (fun s => sse_bounded s /\ max_frame_bytes s = m)
              (frame_bounded m)) with (s := self) (bs := bs) (frames := @nil SseFrame)
    (s' := self') (frames' := frames) as [[??]?]; auto.
  - intros s b [(? & ? & ? & ?) ?] Hl. cbn in *. unfold saturating_add in Hl.
    pose proof (len_nonneg b). split; [|done]. split_and!; cbn; try done; lia.
  - intros s line fs s' fs' [Hs <-] Hf. cbn [lf_line sse_framer]. unfold on_line, strip_bom.
    destruct (first_line s); intros H; apply process_line_bounded in H as (? & ? & ?); done.
  - intros s [(? & ? & [? ?] & _) _]. cbn. pose proof (len_nonneg (buffer s)). lia.
Qed.

(** C5: any way of cutting an event stream into network chunks gives the events,
    or the error, of pushing it in one piece: no chunk boundary, inside a line,
    a CR LF pair, a BOM or a UTF-8 sequence, changes what is decoded. *)
Theorem sse_chunking (self : SseFramer) (chunk : bytes) (chunks : list bytes) :
  same_outcome (push_all self (chunk :: chunks)) (push self (concat (chunk :: chunks))).
Proof. apply push_all_concat. Qed.

(** C4: from a fresh framer, pushing a stream succeeds exactly when its lines
    and events fit the byte limit and its field lines are UTF-8, and the frames
    are then those of the reference semantics of event streams. *)
Theorem sse_push_spec (max : Z) (bs : bytes) :
  0 <= max < USIZE_MAX ->
  if sse_within max bs
  then (push (new max) bs).2 = Ok (sse_frames bs)
  else is_ok (push (new max) bs).2 = false.
Proof.
  intros Hmax. unfold sse_within, sse_frames, push.
  pose proof (push_loop_lines (new max) bs [] eq_refl (proj2 Hmax)) as H.
  unfold text_lines. destruct (stream_lines bs) as [lines tail]. cbn [fst].
  cbn [lf_max sse_framer new max_frame_bytes] in H.
  pose proof (run_lines_new max (map strip_cr lines) [] Hmax) as Hr.
  destruct (segments is_empty _) as [blocks open].
  destruct (forallb (line_fits max) (lines ++ [tail])) eqn:Hfit; cbn [andb]; [|done].
  rewrite H. specialize (Hr (strip_cr_fits _ _ _ Hfit)).
  destruct (forallb (block_within max) _);
    destruct (run_lines _ _ _) as [s [r|e]]; by simpl in *.
Qed.

(** a framer never holds or emits more than its limit: the buffered line,
    the data lines and name of the open event, and every emitted event are
    bounded by [max_frame_bytes], however much is pushed. *)
Theorem sse_push_bounded (self self' : SseFramer) (bs : bytes) (frames : list SseFrame) :
  sse_bounded self -> push self bs = (self', Ok frames) ->
  sse_bounded self' /\ Forall (frame_bounded (max_frame_bytes self)) frames.
Proof. intros Hb Hp. by edestruct push_bounded as (? & _ & ?). Qed.

Definition sse_fixture : bytes :=
  BOM ++ lit ": ping" ++ [CR; NEWLINE] ++ lit "event: custom" ++ [CR; NEWLINE] ++
  lit "data: {a:" ++ [CR; NEWLINE] ++ lit "data: 1}" ++ [CR; NEWLINE; CR; NEWLINE].

Lemma sse_push_spec_witness :
  (0 <= 64 < USIZE_MAX) /\
  (push (new 64) sse_fixture).2 =
    Ok [mkFrame (Some (lit "custom")) (lit "{a:" ++ [NEWLINE] ++ lit "1}")].
Proof.
  split; [done|].
  pose proof (sse_push_spec 64 sse_fixture ltac:(done)) as H.
  replace (sse_within 64 sse_fixture) with true in H by (vm_compute; reflexivity).
  rewrite H. vm_compute. reflexivity.
Defined.

Lemma sse_push_bounded_witness :
  sse_bounded (new 64) /\
  exists self' frames, push (new 64) sse_fixture = (self', Ok frames) /\
    sse_bounded self' /\ Forall (frame_bounded 64) frames.
Proof.
  assert (sse_bounded (new 64)) as Hb by (vm_compute; split_and!; congruence).
  split; [exact Hb|].
  destruct (push (new 64) sse_fixture) as [self' [frames|e]] eqn:Hp.
  - exists self', frames. split; [reflexivity|].
    exact (sse_push_bounded (new 64) self' sse_fixture frames Hb Hp).
  - exfalso. apply (f_equal (fun x => is_ok x.2)) in Hp. vm_compute in Hp. discriminate.
Defined.
End SseFacts.
