(* ===== verification/Decode.v ===== *)
(** * Provider runtime: stream decoders

    Models [decode/mod.rs] and the five provider decoders [decode/openai.rs],
    [anthropic.rs], [deepseek.rs], [google.rs], [ollama.rs]: each turns one frame
    of a provider stream into events and possibly the terminal outcome, keeping
    the usage, the terminal outcome and the response identity it has seen.  A
    [decode] is a computation in the state-and-error monad [ST], so a mutation
    made before an early return stays.  JSON is the parameter [SerdeJson]. *)

From S2P Require Import Prelude Bytes Utf8 Json ProviderConfig RuntimeError Framing.
Import Sse.

(** ** Shared helpers (decode/mod.rs) *)

Record DecodedFrame : Type := mkDecoded {
  d_events : list ProviderStreamEvent;
  d_terminal : option ProviderRunOutcome;
}.

Definition DecodedFrame_default : DecodedFrame := mkDecoded [] None.

Definition completed (reason : option CompletionReason) (usage : TokenUsage) :
    ProviderRunOutcome :=
  Completed reason (if usage_is_empty usage then None else Some usage).

Definition protocol_error (code message : string) : RuntimeError :=
  RuntimeError_new StreamProtocol (lit code) (lit message).

(** The message is dropped; only two codes are passed on by name. *)
Definition provider_error (code message : str) : RuntimeError :=
  if str_eqb code (lit "UNEXPECTED_TOOL_EVENT") then
    RuntimeError_new Provider (lit "UNEXPECTED_TOOL_EVENT")
      (lit "provider emitted a tool event although tools are disabled")
  else if str_eqb code (lit "GOOGLE_PROMPT_BLOCKED") then
    RuntimeError_new Provider (lit "GOOGLE_PROMPT_BLOCKED")
      (lit "provider blocked the request according to its safety policy")
  else
    RuntimeError_new Provider (lit "PROVIDER_STREAM_ERROR")
      (lit "provider reported a streaming error").

Definition MAX_RESPONSE_ID_BYTES : Z := 256.

Definition response_id_byte (b : byte) : bool :=
  is_ascii_alphanumeric b || one_of "_-." b.

Definition invalid_response_id : RuntimeError :=
  protocol_error "INVALID_PROVIDER_RESPONSE_ID"
    "provider response id was missing, oversized, or contained unsafe characters".

Definition response_id_event (id : str) : result RuntimeError ProviderStreamEvent :=
  if is_empty id || (len id >? MAX_RESPONSE_ID_BYTES) || negb (forallb response_id_byte id)
  then Err invalid_response_id
  else Ok (ProviderResponseId id).

Definition invalid_json : RuntimeError :=
  protocol_error "INVALID_PROVIDER_JSON" "provider stream contained malformed JSON".

(** [matches!(s, "a" | "b" | ...)] *)
Definition is_one_of (s : str) (names : list string) : bool :=
  existsb (fun n => str_eqb s (lit n)) names.

Definition map_common_reason (reason : str) : CompletionReason :=
  let reason := to_ascii_lowercase reason in
  if is_one_of reason ["stop"; "end_turn"; "stop_sequence"]%string then Stop
  else if is_one_of reason ["length"; "max_tokens"; "max_output_tokens"]%string then Length
  else if is_one_of reason
    ["content_filter"; "safety"; "recitation"; "blocklist"; "prohibited_content";
     "spii"; "image_safety"; "refusal"]%string then ContentFilter
  else if is_one_of reason ["insufficient_system_resource"; "resource_limit"]%string
  then ResourceLimit
  else Other (lit "other").

Definition event_after_terminal : RuntimeError :=
  protocol_error "EVENT_AFTER_TERMINAL" "provider emitted data after a terminal event".

Definition ensure_no_terminal (terminal : option ProviderRunOutcome) : result RuntimeError unit :=
  match terminal with Some _ => Err event_after_terminal | None => Ok tt end.

Definition unexpected_tool (message : string) : RuntimeError :=
  provider_error (lit "UNEXPECTED_TOOL_EVENT") (lit message).

(** [Option::zip] then [saturating_add] on [u64]. *)
Definition zip_saturating_add (a b : option Z) : option Z :=
  match a, b with Some x, Some y => Some (saturating_add U64_MAX x y) | _, _ => None end.

Section decoders.
Context {Num : Type} `{SerdeJson Num}.
Implicit Types value : Value Num.

Definition parse_json (data : str) : result RuntimeError (Value Num) :=
  ok_or (json_from_str data) invalid_json.

Definition value_u64 value (pointer : string) : option Z :=
  json_pointer value (lit pointer) ≫= as_u64.

Definition get_str value (key : string) : option str := get value (lit key) ≫= as_str.
Definition pointer_str value (pointer : string) : option str :=
  json_pointer value (lit pointer) ≫= as_str.

(** ** OpenAI (openai.rs) *)

Record OpenAiDecoder : Type := mkOpenAi {
  oa_usage : TokenUsage;
  oa_terminal : option ProviderRunOutcome;
  oa_response_id_seen : bool;
}.

Definition OpenAiDecoder_default : OpenAiDecoder := mkOpenAi TokenUsage_default None false.

Definition oa_missing_type : RuntimeError :=
  protocol_error "MISSING_EVENT_TYPE" "OpenAI event did not contain type".
Definition oa_type_mismatch : RuntimeError :=
  protocol_error "EVENT_TYPE_MISMATCH" "OpenAI SSE event name did not match its JSON type".
Definition oa_invalid_delta : RuntimeError :=
  protocol_error "INVALID_TEXT_DELTA" "OpenAI delta event did not contain text".
Definition oa_missing_terminal : RuntimeError :=
  protocol_error "MISSING_TERMINAL_EVENT" "OpenAI stream ended without a terminal response event".

Definition required_delta value : result RuntimeError str :=
  ok_or (get_str value "delta") oa_invalid_delta.

Definition oa_merge_usage (usage : TokenUsage) value : TokenUsage :=
  merge_from usage {|
    input_tokens := value_u64 value "/response/usage/input_tokens";
    output_tokens := value_u64 value "/response/usage/output_tokens";
    reasoning_tokens :=
      value_u64 value "/response/usage/output_tokens_details/reasoning_tokens";
    cached_input_tokens := value_u64 value "/response/usage/input_tokens_details/cached_tokens";
    total_tokens := value_u64 value "/response/usage/total_tokens" |}.

(** [merge_usage], then set and report the terminal outcome. *)
Definition oa_terminate value (reason : option CompletionReason) :
    ST OpenAiDecoder RuntimeError DecodedFrame :=
  self ← st_get;
  let usage := oa_merge_usage (oa_usage self) value in
  let terminal := completed reason usage in
  _ ← st_put (mkOpenAi usage (Some terminal) (oa_response_id_seen self));
  mret (mkDecoded [] (Some terminal)).

Definition oa_text_event value (make : str -> ProviderStreamEvent) :
    ST OpenAiDecoder RuntimeError DecodedFrame :=
  text ← st_lift (required_delta value);
  mret (mkDecoded [make text] None).

Definition oa_created value : ST OpenAiDecoder RuntimeError DecodedFrame :=
  self ← st_get;
  match oa_response_id_seen self, pointer_str value "/response/id" with
  | false, Some id =>
      event ← st_lift (response_id_event id);
      _ ← st_put (mkOpenAi (oa_usage self) (oa_terminal self) true);
      mret (mkDecoded [event] None)
  | _, _ => mret DecodedFrame_default
  end.

Definition oa_decode (frame : SseFrame) : ST OpenAiDecoder RuntimeError DecodedFrame :=
  self ← st_get;
  _ ← st_lift (ensure_no_terminal (oa_terminal self));
  value ← st_lift (parse_json (data frame));
  event_type ← st_lift (ok_or (get_str value "type") oa_missing_type);
  _ ← st_lift (ensure
    match event frame with
    | Some name => str_eqb name (lit "message") || str_eqb name event_type
    | None => true
    end oa_type_mismatch);
  _ ← st_lift (ensure (negb (contains event_type (lit "_call")))
    (unexpected_tool "provider emitted a tool call although tools are disabled"));
  if str_eqb event_type (lit "response.created") then oa_created value
  else if str_eqb event_type (lit "response.output_text.delta") then
    oa_text_event value TextDelta
  else if str_eqb event_type (lit "response.reasoning_summary_text.delta") then
    oa_text_event value ReasoningDelta
  else if str_eqb event_type (lit "response.refusal.delta") then
    oa_text_event value RefusalDelta
  else if str_eqb event_type (lit "response.completed") then
    oa_terminate value (Some Stop)
  else if str_eqb event_type (lit "response.incomplete") then
    oa_terminate value
      (Some match pointer_str value "/response/incomplete_details/reason" with
            | Some reason => map_common_reason reason
            | None => Length
            end)
  else if str_eqb event_type (lit "response.failed") then
    st_lift (Err (provider_error
      (default (lit "OPENAI_RESPONSE_FAILED") (pointer_str value "/response/error/code"))
      (default (lit "OpenAI response failed") (pointer_str value "/response/error/message"))))
  else if str_eqb event_type (lit "error") then
    st_lift (Err (provider_error
      (default (lit "OPENAI_STREAM_ERROR") (get_str value "code"))
      (default (lit "OpenAI stream failed") (get_str value "message"))))
  else mret DecodedFrame_default.

Definition oa_finish (self : OpenAiDecoder) : result RuntimeError ProviderRunOutcome :=
  ok_or (oa_terminal self) oa_missing_terminal.

(** ** Anthropic (anthropic.rs) *)

Record AnthropicDecoder : Type := mkAnthropic {
  an_usage : TokenUsage;
  an_terminal : option ProviderRunOutcome;
  an_finish_reason : option str;
  an_response_id_seen : bool;
}.

Definition AnthropicDecoder_default : AnthropicDecoder :=
  mkAnthropic TokenUsage_default None None false.

Definition an_missing_type : RuntimeError :=
  protocol_error "MISSING_EVENT_TYPE" "Anthropic event did not contain type".
Definition an_type_mismatch : RuntimeError :=
  protocol_error "EVENT_TYPE_MISMATCH" "Anthropic SSE event name did not match its JSON type".
Definition an_invalid_block : RuntimeError :=
  protocol_error "INVALID_CONTENT_BLOCK" "Anthropic content block did not contain a type".
Definition an_missing_text : RuntimeError :=
  protocol_error "INVALID_CONTENT_DELTA" "Anthropic content delta was missing text".
Definition an_missing_delta_type : RuntimeError :=
  protocol_error "INVALID_CONTENT_DELTA" "Anthropic content delta did not contain a delta type".
Definition an_missing_terminal : RuntimeError :=
  protocol_error "MISSING_TERMINAL_EVENT" "Anthropic stream ended without message_stop".

Definition required_string value (pointer : string) : result RuntimeError str :=
  ok_or (pointer_str value pointer) an_missing_text.

Definition an_merge_start_usage (usage : TokenUsage) value : TokenUsage :=
  let input := value_u64 value "/message/usage/input_tokens" in
  let cached := value_u64 value "/message/usage/cache_read_input_tokens" in
  let output := value_u64 value "/message/usage/output_tokens" in
  merge_from usage {|
    input_tokens := input;
    output_tokens := output;
    reasoning_tokens := None;
    cached_input_tokens := cached;
    total_tokens := zip_saturating_add input output |}.

Definition an_message_start value : ST AnthropicDecoder RuntimeError DecodedFrame :=
  self ← st_get;
  output ←
    match an_response_id_seen self, pointer_str value "/message/id" with
    | false, Some id =>
        event ← st_lift (response_id_event id);
        _ ← st_put (mkAnthropic (an_usage self) (an_terminal self) (an_finish_reason self) true);
        mret (mkDecoded [event] None)
    | _, _ => mret DecodedFrame_default
    end;
  _ ← st_modify (fun self =>
    mkAnthropic (an_merge_start_usage (an_usage self) value) (an_terminal self)
      (an_finish_reason self) (an_response_id_seen self));
  mret output.

Definition an_block_start value : ST AnthropicDecoder RuntimeError DecodedFrame :=
  kind ← st_lift (ok_or (pointer_str value "/content_block/type") an_invalid_block);
  _ ← st_lift (ensure (is_one_of kind ["text"; "thinking"; "redacted_thinking"]%string)
    (unexpected_tool "provider emitted a non-text content block although tools are disabled"));
  mret DecodedFrame_default.

Definition an_block_delta value : ST AnthropicDecoder RuntimeError DecodedFrame :=
  match pointer_str value "/delta/type" with
  | Some kind =>
      if str_eqb kind (lit "text_delta") then
        text ← st_lift (required_string value "/delta/text");
        mret (mkDecoded [TextDelta text] None)
      else if str_eqb kind (lit "thinking_delta") then
        text ← st_lift (required_string value "/delta/thinking");
        mret (mkDecoded [ReasoningDelta text] None)
      else if str_eqb kind (lit "signature_delta") then mret DecodedFrame_default
      else if str_eqb kind (lit "input_json_delta") then
        st_lift (Err (unexpected_tool "provider emitted tool input although tools are disabled"))
      else mret DecodedFrame_default
  | None => st_lift (Err an_missing_delta_type)
  end.

Definition an_message_delta value : ST AnthropicDecoder RuntimeError DecodedFrame :=
  _ ← st_modify (fun self =>
    mkAnthropic
      (merge_from (an_usage self)
        (mkTokenUsage None (value_u64 value "/usage/output_tokens") None None None))
      (an_terminal self)
      (newer_or (pointer_str value "/delta/stop_reason") (an_finish_reason self))
      (an_response_id_seen self));
  mret DecodedFrame_default.

Definition an_message_stop : ST AnthropicDecoder RuntimeError DecodedFrame :=
  self ← st_get;
  let terminal := completed (map_common_reason <$> an_finish_reason self) (an_usage self) in
  _ ← st_put (mkAnthropic (an_usage self) (Some terminal) (an_finish_reason self)
               (an_response_id_seen self));
  mret (mkDecoded [] (Some terminal)).

Definition an_decode (frame : SseFrame) : ST AnthropicDecoder RuntimeError DecodedFrame :=
  self ← st_get;
  _ ← st_lift (ensure_no_terminal (an_terminal self));
  value ← st_lift (parse_json (data frame));
  event_type ← st_lift (ok_or (get_str value "type") an_missing_type);
  _ ← st_lift (ensure
    match event frame with Some name => str_eqb name event_type | None => true end
    an_type_mismatch);
  if str_eqb event_type (lit "message_start") then an_message_start value
  else if str_eqb event_type (lit "content_block_start") then an_block_start value
  else if str_eqb event_type (lit "content_block_delta") then an_block_delta value
  else if str_eqb event_type (lit "message_delta") then an_message_delta value
  else if str_eqb event_type (lit "message_stop") then an_message_stop
  else if str_eqb event_type (lit "error") then
    st_lift (Err (provider_error
      (default (lit "ANTHROPIC_STREAM_ERROR") (pointer_str value "/error/type"))
      (default (lit "Anthropic stream failed") (pointer_str value "/error/message"))))
  else mret DecodedFrame_default.

Definition an_finish (self : AnthropicDecoder) : result RuntimeError ProviderRunOutcome :=
  ok_or (an_terminal self) an_missing_terminal.

(** ** DeepSeek (deepseek.rs) *)

Record DeepSeekDecoder : Type := mkDeepSeek {
  ds_usage : TokenUsage;
  ds_terminal : option ProviderRunOutcome;
  ds_finish_reason : option str;
  ds_response_id : option str;
}.

Definition DeepSeekDecoder_default : DeepSeekDecoder :=
  mkDeepSeek TokenUsage_default None None None.

Definition ds_id_changed : RuntimeError :=
  protocol_error "RESPONSE_ID_CHANGED" "DeepSeek response id changed during a stream".
Definition ds_missing_choices : RuntimeError :=
  protocol_error "INVALID_CHAT_CHUNK" "DeepSeek chunk did not contain choices".
Definition ds_multiple_choices : RuntimeError :=
  protocol_error "MULTIPLE_CHOICES" "LorePia accepts exactly one streamed completion choice".
Definition ds_invalid_index : RuntimeError :=
  protocol_error "INVALID_CHOICE_INDEX" "DeepSeek streamed a nonzero choice index".
Definition ds_missing_delta : RuntimeError :=
  protocol_error "INVALID_CHAT_CHUNK" "DeepSeek choice did not contain delta".
Definition ds_missing_done : RuntimeError :=
  protocol_error "MISSING_DONE_MARKER" "DeepSeek stream ended without [DONE]".

Definition ds_merge_usage (usage : TokenUsage) value : TokenUsage :=
  merge_from usage {|
    input_tokens := value_u64 value "/usage/prompt_tokens";
    output_tokens := value_u64 value "/usage/completion_tokens";
    reasoning_tokens := value_u64 value "/usage/completion_tokens_details/reasoning_tokens";
    cached_input_tokens := value_u64 value "/usage/prompt_cache_hit_tokens";
    total_tokens := value_u64 value "/usage/total_tokens" |}.

(** [calls.is_some_and(|calls| !calls.is_empty())] on the [tool_calls] member. *)
Definition has_tool_calls value : bool :=
  match get value (lit "tool_calls") ≫= as_array with
  | Some calls => negb (is_empty calls)
  | None => false
  end.

(** A text member that is present and not empty, as an event. *)
Definition text_event value (key : string) (make : str -> ProviderStreamEvent) :
    list ProviderStreamEvent :=
  match get_str value key with
  | Some text => if is_empty text then [] else [make text]
  | None => []
  end.

(** [if !self.usage.is_empty() { output.events.push(Usage) }] *)
Definition usage_event (usage : TokenUsage) : list ProviderStreamEvent :=
  if usage_is_empty usage then [] else [Usage usage].

(** The response identity of a stream: reported once, and it may not change. *)
Definition ds_response_id_events value : ST DeepSeekDecoder RuntimeError (list ProviderStreamEvent) :=
  self ← st_get;
  match get_str value "id" with
  | Some id =>
      if bool_decide (ds_response_id self = Some id) then mret []
      else
        _ ← st_lift (ensure (bool_decide (ds_response_id self = None)) ds_id_changed);
        event ← st_lift (response_id_event id);
        _ ← st_put (mkDeepSeek (ds_usage self) (ds_terminal self) (ds_finish_reason self) (Some id));
        mret [event]
  | None => mret []
  end.

Definition ds_choice (choice : Value Num) : ST DeepSeekDecoder RuntimeError (list ProviderStreamEvent) :=
  _ ← st_lift (ensure (bool_decide (get choice (lit "index") ≫= as_u64 = Some 0))
        ds_invalid_index);
  delta ← st_lift (ok_or (get choice (lit "delta")) ds_missing_delta);
  _ ← st_lift (ensure (negb (has_tool_calls delta))
        (unexpected_tool "provider emitted a tool call although tools are disabled"));
  let events := text_event delta "reasoning_content" ReasoningDelta ++
                text_event delta "content" TextDelta in
  match get_str choice "finish_reason" with
  | Some reason =>
      _ ← st_lift (ensure (negb (str_eqb reason (lit "tool_calls")))
            (unexpected_tool "provider stopped for a tool call although tools are disabled"));
      _ ← st_modify (fun self =>
            mkDeepSeek (ds_usage self) (ds_terminal self) (Some reason) (ds_response_id self));
      mret events
  | None => mret events
  end.

Definition ds_decode (frame : SseFrame) : ST DeepSeekDecoder RuntimeError DecodedFrame :=
  self ← st_get;
  _ ← st_lift (ensure_no_terminal (ds_terminal self));
  if str_eqb (trim (data frame)) (lit "[DONE]") then
    let terminal := completed (map_common_reason <$> ds_finish_reason self) (ds_usage self) in
    _ ← st_put (mkDeepSeek (ds_usage self) (Some terminal) (ds_finish_reason self)
                 (ds_response_id self));
    mret (mkDecoded [] (Some terminal))
  else
    value ← st_lift (parse_json (data frame));
    match get value (lit "error") with
    | Some error =>
        st_lift (Err (provider_error
          (default (lit "DEEPSEEK_STREAM_ERROR") (get_str error "code"))
          (default (lit "DeepSeek stream failed") (get_str error "message"))))
    | None =>
        id_events ← ds_response_id_events value;
        _ ← st_modify (fun self =>
              mkDeepSeek (ds_merge_usage (ds_usage self) value) (ds_terminal self)
                (ds_finish_reason self) (ds_response_id self));
        choices ← st_lift (ok_or (get value (lit "choices") ≫= as_array) ds_missing_choices);
        _ ← st_lift (ensure (negb (len choices >? 1)) ds_multiple_choices);
        choice_events ←
          match choices with choice :: _ => ds_choice choice | [] => mret [] end;
        self ← st_get;
        mret (mkDecoded (id_events ++ choice_events ++ usage_event (ds_usage self)) None)
    end.

Definition ds_finish (self : DeepSeekDecoder) : result RuntimeError ProviderRunOutcome :=
  ok_or (ds_terminal self) ds_missing_done.

(** ** Google (google.rs) *)

Record GoogleDecoder : Type := mkGoogle {
  go_usage : TokenUsage;
  go_terminal : option ProviderRunOutcome;
  go_response_id : option str;
}.

Definition GoogleDecoder_default : GoogleDecoder := mkGoogle TokenUsage_default None None.

Definition go_id_changed : RuntimeError :=
  protocol_error "RESPONSE_ID_CHANGED" "Google response id changed during a stream".
Definition go_multiple_candidates : RuntimeError :=
  protocol_error "MULTIPLE_CANDIDATES" "LorePia accepts exactly one streamed candidate".
Definition go_invalid_index : RuntimeError :=
  protocol_error "INVALID_CANDIDATE_INDEX" "Google streamed a nonzero candidate index".
Definition go_missing_terminal : RuntimeError :=
  protocol_error "MISSING_TERMINAL_EVENT" "Google stream ended without candidate finishReason".

Definition go_merge_usage (usage : TokenUsage) value : TokenUsage :=
  merge_from usage {|
    input_tokens := value_u64 value "/usageMetadata/promptTokenCount";
    output_tokens := value_u64 value "/usageMetadata/candidatesTokenCount";
    reasoning_tokens := value_u64 value "/usageMetadata/thoughtsTokenCount";
    cached_input_tokens := value_u64 value "/usageMetadata/cachedContentTokenCount";
    total_tokens := value_u64 value "/usageMetadata/totalTokenCount" |}.

Definition go_response_id_events value : ST GoogleDecoder RuntimeError (list ProviderStreamEvent) :=
  self ← st_get;
  match get_str value "responseId" with
  | Some id =>
      if bool_decide (go_response_id self = Some id) then mret []
      else
        _ ← st_lift (ensure (bool_decide (go_response_id self = None)) go_id_changed);
        event ← st_lift (response_id_event id);
        _ ← st_put (mkGoogle (go_usage self) (go_terminal self) (Some id));
        mret [event]
  | None => mret []
  end.

(** One part of a candidate: refused if executable, otherwise its text. *)
Definition go_part (part : Value Num) : result RuntimeError (list ProviderStreamEvent) :=
  if is_some (get part (lit "functionCall")) || is_some (get part (lit "toolCall")) ||
     is_some (get part (lit "executableCode"))
  then Err (unexpected_tool
    "provider emitted executable or tool content although tools are disabled")
  else Ok (text_event part "text"
             (if bool_decide (get part (lit "thought") ≫= as_bool = Some true)
              then ReasoningDelta else TextDelta)).

Fixpoint go_parts (parts : list (Value Num)) : result RuntimeError (list ProviderStreamEvent) :=
  match parts with
  | [] => Ok []
  | part :: parts' => es ← go_part part; es' ← go_parts parts'; mret (es ++ es')
  end.

(** [format!("Google stopped for a disabled tool action: {reason}")] *)
Definition go_tool_stop (reason : str) : RuntimeError :=
  provider_error (lit "UNEXPECTED_TOOL_EVENT")
    (lit "Google stopped for a disabled tool action: " ++ reason).

Definition go_candidate (candidate : Value Num) : ST GoogleDecoder RuntimeError DecodedFrame :=
  _ ← st_lift (ensure (default 0 (get candidate (lit "index") ≫= as_u64) =? 0) go_invalid_index);
  events ← st_lift
    match json_pointer candidate (lit "/content/parts") ≫= as_array with
    | Some parts => go_parts parts
    | None => Ok []
    end;
  match get_str candidate "finishReason" with
  | Some reason =>
      _ ← st_lift (ensure
        (negb (is_one_of reason
          ["UNEXPECTED_TOOL_CALL"; "TOO_MANY_TOOL_CALLS"; "MALFORMED_FUNCTION_CALL"]%string))
        (go_tool_stop reason));
      self ← st_get;
      let terminal := completed (Some (map_common_reason reason)) (go_usage self) in
      _ ← st_put (mkGoogle (go_usage self) (Some terminal) (go_response_id self));
      mret (mkDecoded events (Some terminal))
  | None => mret (mkDecoded events None)
  end.

Definition go_decode (frame : SseFrame) : ST GoogleDecoder RuntimeError DecodedFrame :=
  self ← st_get;
  _ ← st_lift (ensure_no_terminal (go_terminal self));
  value ← st_lift (parse_json (data frame));
  match get value (lit "error") with
  | Some error =>
      st_lift (Err (provider_error
        (default (lit "GOOGLE_STREAM_ERROR") (get_str error "status"))
        (default (lit "Google model stream failed") (get_str error "message"))))
  | None =>
      match pointer_str value "/promptFeedback/blockReason" with
      | Some reason =>
          st_lift (Err (provider_error (lit "GOOGLE_PROMPT_BLOCKED")
            (lit "Google blocked the prompt: " ++ reason)))
      | None =>
          id_events ← go_response_id_events value;
          _ ← st_modify (fun self =>
                mkGoogle (go_merge_usage (go_usage self) value) (go_terminal self)
                  (go_response_id self));
          let candidates := default [] (get value (lit "candidates") ≫= as_array) in
          _ ← st_lift (ensure (negb (len candidates >? 1)) go_multiple_candidates);
          out ←
            match candidates with
            | candidate :: _ => go_candidate candidate
            | [] => mret DecodedFrame_default
            end;
          self ← st_get;
          mret (mkDecoded (id_events ++ d_events out ++ usage_event (go_usage self))
                          (d_terminal out))
      end
  end.

Definition go_finish (self : GoogleDecoder) : result RuntimeError ProviderRunOutcome :=
  ok_or (go_terminal self) go_missing_terminal.

(** ** Ollama (ollama.rs) *)

Record OllamaDecoder : Type := mkOllama {
  ol_usage : TokenUsage;
  ol_terminal : option ProviderRunOutcome;
}.

Definition OllamaDecoder_default : OllamaDecoder := mkOllama TokenUsage_default None.

Definition ol_invalid_chunk : RuntimeError :=
  protocol_error "INVALID_OLLAMA_CHUNK" "Ollama chunk did not contain a boolean done field".
Definition ol_missing_terminal : RuntimeError :=
  protocol_error "MISSING_TERMINAL_EVENT" "Ollama stream ended without done=true".

Definition ol_message value : result RuntimeError (list ProviderStreamEvent) :=
  match get value (lit "message") with
  | Some message =>
      if has_tool_calls message
      then Err (unexpected_tool "provider emitted a tool call although tools are disabled")
      else Ok (text_event message "thinking" ReasoningDelta ++
               text_event message "content" TextDelta)
  | None => Ok []
  end.

Definition ol_done value (events : list ProviderStreamEvent) :
    ST OllamaDecoder RuntimeError DecodedFrame :=
  self ← st_get;
  let input := value_u64 value "/prompt_eval_count" in
  let output_tokens := value_u64 value "/eval_count" in
  let usage := merge_from (ol_usage self)
    (mkTokenUsage input output_tokens None None (zip_saturating_add input output_tokens)) in
  let reason := map_common_reason <$> get_str value "done_reason" in
  let terminal := completed reason usage in
  _ ← st_put (mkOllama usage (Some terminal));
  mret (mkDecoded (events ++ usage_event usage) (Some terminal)).

Definition ol_decode (frame : str) : ST OllamaDecoder RuntimeError DecodedFrame :=
  self ← st_get;
  _ ← st_lift (ensure_no_terminal (ol_terminal self));
  value ← st_lift (parse_json frame);
  match get_str value "error" with
  | Some message => st_lift (Err (provider_error (lit "OLLAMA_STREAM_ERROR") message))
  | None =>
      events ← st_lift (ol_message value);
      match get value (lit "done") ≫= as_bool with
      | Some true => ol_done value events
      | Some false => mret (mkDecoded events None)
      | None => st_lift (Err ol_invalid_chunk)
      end
  end.

Definition ol_finish (self : OllamaDecoder) : result RuntimeError ProviderRunOutcome :=
  ok_or (ol_terminal self) ol_missing_terminal.

(** ** The provider dispatch (decode/mod.rs) *)

Inductive ProviderDecoder : Type :=
  | DOpenAi (d : OpenAiDecoder)
  | DAnthropic (d : AnthropicDecoder)
  | DDeepSeek (d : DeepSeekDecoder)
  | DOllama (d : OllamaDecoder)
  | DGoogle (d : GoogleDecoder).

Definition ProviderDecoder_new (provider : ProviderId) : ProviderDecoder :=
  match provider with
  | OpenAi => DOpenAi OpenAiDecoder_default
  | Anthropic => DAnthropic AnthropicDecoder_default
  | DeepSeek => DDeepSeek DeepSeekDecoder_default
  | OllamaCloud => DOllama OllamaDecoder_default
  | GoogleGemini | GoogleVertexAi => DGoogle GoogleDecoder_default
  end.

Definition wrong_protocol_ndjson : RuntimeError :=
  protocol_error "WRONG_STREAM_PROTOCOL" "Ollama Cloud responses must use NDJSON".
Definition wrong_protocol_sse : RuntimeError :=
  protocol_error "WRONG_STREAM_PROTOCOL" "this provider response must use SSE".

(** Run a decoder inside its variant. *)
Definition within {D A} (wrap : D -> ProviderDecoder) (d : D) (m : ST D RuntimeError A) :
    ProviderDecoder * result RuntimeError A :=
  let '(d', r) := m d in (wrap d', r).

Definition decode_sse (frame : SseFrame) : ST ProviderDecoder RuntimeError DecodedFrame :=
  fun self =>
    match self with
    | DOpenAi d => within DOpenAi d (oa_decode frame)
    | DAnthropic d => within DAnthropic d (an_decode frame)
    | DDeepSeek d => within DDeepSeek d (ds_decode frame)
    | DGoogle d => within DGoogle d (go_decode frame)
    | DOllama d => (self, Err wrong_protocol_ndjson)
    end.

Definition decode_ndjson (frame : str) : ST ProviderDecoder RuntimeError DecodedFrame :=
  fun self =>
    match self with
    | DOllama d => within DOllama d (ol_decode frame)
    | _ => (self, Err wrong_protocol_sse)
    end.

Definition decoder_finish (self : ProviderDecoder) : result RuntimeError ProviderRunOutcome :=
  match self with
  | DOpenAi d => oa_finish d
  | DAnthropic d => an_finish d
  | DDeepSeek d => ds_finish d
  | DOllama d => ol_finish d
  | DGoogle d => go_finish d
  end.

End decoders.
