(* ===== verification/DecodeRuns.v ===== *)
(** * Provider runtime: properties of whole decoded streams

    Runs of the dispatching decoder over a sequence of frames: where the terminal
    outcome can be, how often the response identity is reported, what errors can
    come out, and the token totals of an Anthropic stream. *)

From S2P Require Import Prelude Bytes Utf8 Json ProviderConfig RuntimeError Framing Decode.

(** * Provider runtime: what the decoders guarantee

    The contract every decoder meets, proved for each of the five and then for
    the dispatching [ProviderDecoder]: nothing is decoded after a terminal
    outcome, the outcome reported by a frame is the one kept, errors come from a
    fixed list and so never carry provider-controlled text, the response
    identity is reported at most once and is safe, and no event of a disabled
    tool gets through. *)

Import Sse.

(** Run a monadic body: expose its state passing, then split on every test. *)
Ltac st_unfold H :=
  cbv [mbind ST_bind mret ST_ret st_get st_put st_modify st_lift within] in H.

Ltac st_cases H :=
  repeat first
    [ progress simplify_eq/=
    | match type of H with
      | context [match ?x with _ => _ end] =>
          lazymatch x with
          | context [match _ with _ => _ end] => fail
          | _ => let E := fresh "E" in destruct x eqn:E
          end
      end ].

(** ** The contract *)

Section contract.
Context {D F : Type} (terminal : D -> option ProviderRunOutcome)
  (decode : F -> ST D RuntimeError DecodedFrame) (errors : list RuntimeError).

Record decoder_contract : Prop := {
  (** A frame is decoded only before the terminal outcome, and the outcome it
      reports is the one the decoder keeps. *)
  dc_ok : forall frame d d' out,
    decode frame d = (d', Ok out) -> terminal d = None /\ terminal d' = d_terminal out;
  dc_after : forall frame d t,
    terminal d = Some t -> decode frame d = (d, Err event_after_terminal);
  dc_err : forall frame d d' e,
    decode frame d = (d', Err e) -> In e errors /\ terminal d' = terminal d;
}.
End contract.

(** Every error a decoder can return: constants, none mentions the frame. *)
Definition decode_errors : list RuntimeError :=
  [ event_after_terminal; invalid_json; invalid_response_id;
    provider_error (lit "UNEXPECTED_TOOL_EVENT") [];
    provider_error (lit "GOOGLE_PROMPT_BLOCKED") [];
    provider_error [] [];
    oa_missing_type; oa_type_mismatch; oa_invalid_delta;
    an_missing_type; an_type_mismatch; an_invalid_block; an_missing_text;
    an_missing_delta_type;
    ds_id_changed; ds_missing_choices; ds_multiple_choices; ds_invalid_index;
    ds_missing_delta;
    go_id_changed; go_multiple_candidates; go_invalid_index; ol_invalid_chunk;
    wrong_protocol_ndjson; wrong_protocol_sse ].

Lemma provider_error_in code message : In (provider_error code message) decode_errors.
Proof.
  unfold provider_error at 1.
  destruct (str_eqb code _); [|destruct (str_eqb code _)]; cbv [decode_errors In]; tauto.
Qed.

Section facts.
Context {Num : Type} `{SerdeJson Num}.

Lemma response_id_event_err id e : response_id_event id = Err e -> In e decode_errors.
Proof.
  unfold response_id_event. case_match; [|done]. intros [= <-].
  cbv [decode_errors In]; tauto.
Qed.

Lemma ok_or_err {A} (o : option A) (e e' : RuntimeError) : ok_or o e = Err e' -> e' = e.
Proof. destruct o; simpl; congruence. Qed.

Lemma parse_json_err s e : parse_json s = Err e -> In e decode_errors.
Proof. intros ->%ok_or_err. cbv [decode_errors In]; tauto. Qed.

Ltac error_in :=
  repeat match goal with
  | H : ensure _ _ = Err _ |- _ => apply ensure_Err in H as [_ ->]
  | H : ok_or _ _ = Err _ |- _ => apply ok_or_err in H; subst
  | H : ensure_no_terminal _ = Err _ |- _ => unfold ensure_no_terminal in H; st_cases H
  end;
  first [ by eapply response_id_event_err | by eapply parse_json_err
        | apply provider_error_in | cbv [decode_errors In]; tauto ].

Lemma oa_contract : decoder_contract oa_terminal oa_decode decode_errors.
Proof.
  split.
  - intros frame d d' out Hd. destruct d as [u [t|] r]; [done|].
    cbv [oa_decode oa_created oa_terminate oa_text_event required_delta] in Hd.
    st_unfold Hd. st_cases Hd; done.
  - intros frame [u [t|] r] t' Ht; simplify_eq/=. done.
  - intros frame d d' e Hd.
    cbv [oa_decode oa_created oa_terminate oa_text_event required_delta] in Hd.
    st_unfold Hd. st_cases Hd; (split; [error_in | done]).
Qed.

Lemma an_contract : decoder_contract an_terminal an_decode decode_errors.
Proof.
  split.
  - intros frame d d' out Hd. destruct d as [u [t|] f r]; [done|].
    cbv [an_decode an_message_start an_block_start an_block_delta an_message_delta
         an_message_stop required_string] in Hd.
    st_unfold Hd. st_cases Hd; done.
  - intros frame [u [t|] f r] t' Ht; simplify_eq/=. done.
  - intros frame d d' e Hd.
    cbv [an_decode an_message_start an_block_start an_block_delta an_message_delta
         an_message_stop required_string] in Hd.
    st_unfold Hd. st_cases Hd; (split; [error_in | done]).
Qed.

Lemma ds_contract : decoder_contract ds_terminal ds_decode decode_errors.
Proof.
  split.
  - intros frame d d' out Hd. destruct d as [u [t|] f r]; [done|].
    cbv [ds_decode ds_response_id_events ds_choice] in Hd. st_unfold Hd. st_cases Hd; done.
  - intros frame [u [t|] f r] t' Ht; simplify_eq/=. done.
  - intros frame d d' e Hd.
    cbv [ds_decode ds_response_id_events ds_choice] in Hd.
    st_unfold Hd. st_cases Hd; (split; [error_in | done]).
Qed.

Lemma go_parts_err (parts : list (Value Num)) e : go_parts parts = Err e -> In e decode_errors.
Proof.
  induction parts as [|p parts IH]; [done|]. cbn [go_parts].
  intros [Hp | (es & _ & Hr)]%bind_Err.
  - unfold go_part, unexpected_tool in Hp. case_match; [|done]. injection Hp as <-.
    apply provider_error_in.
  - apply bind_Err in Hr as [Hr | (? & _ & ?)]; [by apply IH | done].
Qed.

Lemma go_contract : decoder_contract go_terminal go_decode decode_errors.
Proof.
  split.
  - intros frame d d' out Hd. destruct d as [u [t|] r]; [done|].
    cbv [go_decode go_response_id_events go_candidate] in Hd. st_unfold Hd. st_cases Hd; done.
  - intros frame [u [t|] r] t' Ht; simplify_eq/=. done.
  - intros frame d d' e Hd.
    cbv [go_decode go_response_id_events go_candidate] in Hd.
    st_unfold Hd. st_cases Hd; (split; [first [by eapply go_parts_err | error_in] | done]).
Qed.

Lemma ol_message_err (value : Value Num) e : ol_message value = Err e -> In e decode_errors.
Proof.
  unfold ol_message, unexpected_tool. repeat case_match; try done. intros [= <-]. apply provider_error_in.
Qed.

Lemma ol_contract : decoder_contract ol_terminal ol_decode decode_errors.
Proof.
  split.
  - intros frame d d' out Hd. destruct d as [u [t|]]; [done|].
    cbv [ol_decode ol_done] in Hd. st_unfold Hd. st_cases Hd; done.
  - intros frame [u [t|]] t' Ht; simplify_eq/=. done.
  - intros frame d d' e Hd.
    cbv [ol_decode ol_done] in Hd.
    st_unfold Hd. st_cases Hd; (split; [first [by eapply ol_message_err | error_in] | done]).
Qed.

(** ** The dispatching decoder *)

Inductive Frame : Type :=
  | FSse (f : SseFrame)
  | FNdjson (s : str).

Definition decode_frame (f : Frame) : ST ProviderDecoder RuntimeError DecodedFrame :=
  match f with FSse f => decode_sse f | FNdjson s => decode_ndjson s end.

Definition decoder_terminal (d : ProviderDecoder) : option ProviderRunOutcome :=
  match d with
  | DOpenAi d => oa_terminal d
  | DAnthropic d => an_terminal d
  | DDeepSeek d => ds_terminal d
  | DOllama d => ol_terminal d
  | DGoogle d => go_terminal d
  end.

(** A frame of the protocol the provider does not speak. *)
Definition foreign (f : Frame) (d : ProviderDecoder) : bool :=
  match f, d with
  | FSse _, DOllama _ => true
  | FSse _, _ => false
  | FNdjson _, DOllama _ => false
  | FNdjson _, _ => true
  end.

Lemma decode_frame_foreign f d :
  foreign f d = true ->
  exists e, decode_frame f d = (d, Err e) /\ (e = wrong_protocol_ndjson \/ e = wrong_protocol_sse).
Proof. destruct f, d; cbn; intros [=]; eauto. Qed.

(** What the contract of each variant says about the dispatch. *)
Lemma decode_frame_contract f d :
  foreign f d = false ->
  (forall d' out, decode_frame f d = (d', Ok out) ->
     decoder_terminal d = None /\ decoder_terminal d' = d_terminal out) /\
  (forall t, decoder_terminal d = Some t -> decode_frame f d = (d, Err event_after_terminal)) /\
  (forall d' e, decode_frame f d = (d', Err e) ->
     In e decode_errors /\ decoder_terminal d' = decoder_terminal d).
Proof.
  pose proof oa_contract as [o1 o2 o3]. pose proof an_contract as [a1 a2 a3].
  pose proof ds_contract as [s1 s2 s3]. pose proof go_contract as [g1 g2 g3].
  pose proof ol_contract as [l1 l2 l3].
  intros Hf. destruct f as [f|s], d as [d|d|d|d|d]; try discriminate Hf;
    cbn [decode_frame decode_sse decode_ndjson decoder_terminal]; unfold within;
    (split; [|split]); intros;
    lazymatch goal with
    | |- context [let '(_, _) := ?x in _] =>
        first [by erewrite o2 | by erewrite a2 | by erewrite s2 | by erewrite g2 | by erewrite l2]
    | H : context [let '(_, _) := ?x in _] |- _ => destruct x eqn:E; simplify_eq/=
    end; eauto.
Qed.
End facts.

Import Sse.

Section runs.
Context {Num : Type} `{SerdeJson Num}.

(** Decode frames one after the other, stopping at the first error. *)
Fixpoint run_frames (d : ProviderDecoder) (frames : list Frame) :
    ProviderDecoder * result RuntimeError (list DecodedFrame) :=
  match frames with
  | [] => (d, Ok [])
  | f :: frames' =>
      match decode_frame f d with
      | (d', Ok out) =>
          match run_frames d' frames' with
          | (d'', Ok outs) => (d'', Ok (out :: outs))
          | (d'', Err e) => (d'', Err e)
          end
      | (d', Err e) => (d', Err e)
      end
  end.

Lemma decode_frame_Ok f d d' out :
  decode_frame f d = (d', Ok out) ->
  decoder_terminal d = None /\ decoder_terminal d' = d_terminal out.
Proof.
  intros Hd. destruct (foreign f d) eqn:Hf.
  - apply decode_frame_foreign in Hf as (e & He & _). congruence.
  - by apply (decode_frame_contract f d Hf).
Qed.

Lemma decode_frame_Err f d d' e :
  decode_frame f d = (d', Err e) ->
  In e decode_errors /\ decoder_terminal d' = decoder_terminal d.
Proof.
  intros Hd. destruct (foreign f d) eqn:Hf.
  - apply decode_frame_foreign in Hf as (e' & He & Hin). rewrite He in Hd.
    injection Hd as <- <-. split; [|done].
    destruct Hin as [-> | ->]; cbv [decode_errors In]; tauto.
  - by apply (decode_frame_contract f d Hf).
Qed.

(** The shape of a successful run: silence, then possibly a terminal frame. *)
Lemma run_frames_terminal d frames d' outs :
  run_frames d frames = (d', Ok outs) ->
  match outs with
  | [] => d' = d
  | _ =>
      exists init last, outs = init ++ [last] /\
        Forall (fun o => d_terminal o = None) init /\
        decoder_terminal d = None /\ decoder_terminal d' = d_terminal last
  end.
Proof.
  revert d outs. induction frames as [|f frames IH]; intros d outs; cbn [run_frames].
  { intros [= <- <-]. done. }
  destruct (decode_frame f d) as [d1 [out|e]] eqn:Hf; [|done].
  destruct (run_frames d1 frames) as [d2 [outs'|e]] eqn:Hr; [|done].
  intros [= <- <-]. apply decode_frame_Ok in Hf as [Hd Ho].
  apply IH in Hr. destruct outs' as [|o outs'].
  - subst d2. exists [], out. done.
  - destruct Hr as (init & last & -> & Hi & Hd1 & Hl).
    exists (out :: init), last. split_and!; try done. constructor; [congruence | done].
Qed.

Lemma decoder_finish_terminal d t :
  decoder_finish d = Ok t <-> decoder_terminal d = Some t.
Proof. destruct d as [[? []]|[? []]|[? []]|[? []]|[? []]]; cbn; naive_solver. Qed.

(** C8: in any successfully decoded stream, of any provider, only the last frame
    can carry the terminal outcome, and the decoder's [finish] succeeds exactly
    with that outcome: a stream completes once, and data after completion is
    never decoded. *)
Theorem terminal_is_last (p : ProviderId) (frames : list Frame) (d : ProviderDecoder)
    (outs : list DecodedFrame) (t : ProviderRunOutcome) :
  run_frames (ProviderDecoder_new p) frames = (d, Ok outs) ->
  (forall i out, outs !! i = Some out -> (S i < length outs)%nat -> d_terminal out = None) /\
  (decoder_finish d = Ok t <->
   exists out, list.last outs = Some out /\ d_terminal out = Some t).
Proof.
  intros Hr%run_frames_terminal. rewrite decoder_finish_terminal.
  destruct outs as [|o outs].
  { subst d. split; [done|]. destruct p; cbn; naive_solver. }
  destruct Hr as (init & last & -> & Hi & _ & Hd). split.
  - intros i out Hl Hlt. rewrite length_app in Hlt. cbn in Hlt.
    rewrite lookup_app_l in Hl by lia. rewrite Forall_lookup in Hi. eauto.
  - rewrite last_snoc, Hd. naive_solver.
Qed.

(** whatever the provider sends, an error reported by a decoder is one of a
    fixed list of constants: provider-controlled text, which may echo request
    headers or user content, never reaches the error. *)
Theorem errors_never_reflect_frames (d d' : ProviderDecoder) (frames : list Frame)
    (e : RuntimeError) :
  run_frames d frames = (d', Err e) -> In e decode_errors.
Proof.
  revert d. induction frames as [|f frames IH]; intros d; cbn [run_frames]; [done|].
  destruct (decode_frame f d) as [d1 [out|e1]] eqn:Hf.
  - specialize (IH d1). destruct (run_frames d1 frames) as [d2 [outs|e2]]; [done|].
    intros [= -> ->]. by apply IH.
  - intros [= -> ->]. by apply decode_frame_Err in Hf as [? _].
Qed.

(** ** The response identity *)

Definition response_ids (events : list ProviderStreamEvent) : list str :=
  omap (fun e => match e with ProviderResponseId id => Some id | _ => None end) events.

Definition safe_id (id : str) : Prop :=
  id <> [] /\ len id <= MAX_RESPONSE_ID_BYTES /\ Forall (fun b => response_id_byte b = true) id.

Definition decoder_id_seen (d : ProviderDecoder) : bool :=
  match d with
  | DOpenAi d => oa_response_id_seen d
  | DAnthropic d => an_response_id_seen d
  | DDeepSeek d => is_some (ds_response_id d)
  | DOllama _ => false
  | DGoogle d => is_some (go_response_id d)
  end.

(** One frame reports no identity, or the first one, and remembers it. *)
Definition id_step (seen seen' : bool) (ids : list str) : Prop :=
  (ids = [] /\ seen' = seen) \/
  (seen = false /\ seen' = true /\ exists id, ids = [id] /\ safe_id id).

Lemma response_id_event_Ok id e :
  response_id_event id = Ok e -> e = ProviderResponseId id /\ safe_id id.
Proof.
  unfold response_id_event. destruct (_ || _) eqn:Hc; [done|]. intros [= <-].
  zify_bool. split; [done|]. split_and!.
  - by apply is_empty_false.
  - lia.
  - by apply List.Forall_forall, forallb_forall.
Qed.

Lemma response_ids_app l1 l2 : response_ids (l1 ++ l2) = response_ids l1 ++ response_ids l2.
Proof. apply omap_app. Qed.

Lemma response_ids_text (value : Value Num) key make :
  (forall t, response_ids [make t] = []) -> response_ids (text_event value key make) = [].
Proof. intros Hm. unfold text_event. by repeat case_match. Qed.

Lemma response_ids_usage u : response_ids (usage_event u) = [].
Proof. unfold usage_event. by case_match. Qed.

Lemma go_parts_ids (parts : list (Value Num)) es : go_parts parts = Ok es -> response_ids es = [].
Proof.
  revert es. induction parts as [|p parts IH]; cbn [go_parts]; intros es.
  { by intros [= <-]. }
  intros (es1 & Hp & (es2 & Hr & [= <-])%bind_Ok)%bind_Ok.
  rewrite response_ids_app, (IH _ Hr), app_nil_r.
  unfold go_part in Hp. case_match; [done|]. injection Hp as <-.
  apply response_ids_text. by case_match.
Qed.

Ltac id_events :=
  repeat match goal with
  | H : response_id_event _ = Ok _ |- _ =>
      apply response_id_event_Ok in H as [-> ?]
  | H : go_parts _ = Ok _ |- _ => apply go_parts_ids in H
  end;
  rewrite ?response_ids_app, ?response_ids_usage, ?response_ids_text by done.

Ltac id_done :=
  first [ left; split; reflexivity
        | right; split; [reflexivity|]; split; [reflexivity|];
          eexists; split; [reflexivity | assumption] ].

Lemma oa_id_step frame d d' out :
  oa_decode frame d = (d', Ok out) ->
  id_step (oa_response_id_seen d) (oa_response_id_seen d') (response_ids (d_events out)).
Proof.
  intros Hd. destruct d as [u t r].
  cbv [oa_decode oa_created oa_terminate oa_text_event required_delta] in Hd.
  st_unfold Hd. unfold id_step. st_cases Hd; id_events; id_done.
Qed.

Lemma an_id_step frame d d' out :
  an_decode frame d = (d', Ok out) ->
  id_step (an_response_id_seen d) (an_response_id_seen d') (response_ids (d_events out)).
Proof.
  intros Hd. destruct d as [u t f r].
  cbv [an_decode an_message_start an_block_start an_block_delta an_message_delta
       an_message_stop required_string] in Hd.
  st_unfold Hd. unfold id_step. st_cases Hd; id_events; id_done.
Qed.

Lemma ds_response_ids (value : Value Num) d d' es :
  ds_response_id_events value d = (d', Ok es) ->
  id_step (is_some (ds_response_id d)) (is_some (ds_response_id d')) (response_ids es).
Proof.
  intros Hd. destruct d as [u t f r]. cbv [ds_response_id_events] in Hd. st_unfold Hd.
  unfold id_step. st_cases Hd; id_events; try id_done.
  match goal with H : ensure (bool_decide _) _ = Ok _ |- _ =>
    apply ensure_Ok, bool_decide_eq_true in H; subst end. id_done.
Qed.

Lemma ds_choice_ids (choice : Value Num) d d' es :
  ds_choice choice d = (d', Ok es) ->
  response_ids es = [] /\ ds_response_id d' = ds_response_id d.
Proof.
  intros Hd. destruct d as [u t f r]. cbv [ds_choice] in Hd. st_unfold Hd.
  st_cases Hd; id_events; done.
Qed.

Lemma ds_id_step frame d d' out :
  ds_decode frame d = (d', Ok out) ->
  id_step (is_some (ds_response_id d)) (is_some (ds_response_id d'))
    (response_ids (d_events out)).
Proof.
  intros Hd. cbv [ds_decode] in Hd. st_unfold Hd. st_cases Hd; [by left|..];
    match goal with H : ds_response_id_events _ _ = _ |- _ => apply ds_response_ids in H end;
    try match goal with H : ds_choice _ _ = _ |- _ => apply ds_choice_ids in H as [He Hi] end;
    rewrite !response_ids_app, response_ids_usage, ?He, ?Hi, !app_nil_r; assumption.
Qed.

Lemma go_response_ids (value : Value Num) d d' es :
  go_response_id_events value d = (d', Ok es) ->
  id_step (is_some (go_response_id d)) (is_some (go_response_id d')) (response_ids es).
Proof.
  intros Hd. destruct d as [u t r]. cbv [go_response_id_events] in Hd. st_unfold Hd.
  unfold id_step. st_cases Hd; id_events; try id_done.
  match goal with H : ensure (bool_decide _) _ = Ok _ |- _ =>
    apply ensure_Ok, bool_decide_eq_true in H; subst end. id_done.
Qed.

Lemma go_candidate_ids (candidate : Value Num) d d' out :
  go_candidate candidate d = (d', Ok out) ->
  response_ids (d_events out) = [] /\ go_response_id d' = go_response_id d.
Proof.
  intros Hd. destruct d as [u t r]. cbv [go_candidate] in Hd. st_unfold Hd.
  st_cases Hd; id_events; done.
Qed.

Lemma go_id_step frame d d' out :
  go_decode frame d = (d', Ok out) ->
  id_step (is_some (go_response_id d)) (is_some (go_response_id d'))
    (response_ids (d_events out)).
Proof.
  intros Hd. cbv [go_decode] in Hd. st_unfold Hd. st_cases Hd;
    match goal with H : go_response_id_events _ _ = _ |- _ => apply go_response_ids in H end;
    try match goal with H : go_candidate _ _ = _ |- _ => apply go_candidate_ids in H as [He Hi] end;
    rewrite !response_ids_app, response_ids_usage, ?He, ?Hi, !app_nil_r; assumption.
Qed.

Lemma ol_no_ids frame d d' out :
  ol_decode frame d = (d', Ok out) -> response_ids (d_events out) = [].
Proof.
  intros Hd. cbv [ol_decode ol_done ol_message] in Hd. st_unfold Hd.
  st_cases Hd; id_events; done.
Qed.

Lemma decode_frame_ids f d d' out :
  decode_frame f d = (d', Ok out) ->
  id_step (decoder_id_seen d) (decoder_id_seen d') (response_ids (d_events out)).
Proof.
  destruct f as [f|s], d as [d|d|d|d|d]; cbn [decode_frame decode_sse decode_ndjson];
    unfold within; try (intros [=]; done); intros Hd;
    lazymatch type of Hd with (let '(_, _) := ?x in _) = _ => destruct x as [d1 r] eqn:E end;
    injection Hd as <- ->; cbn [decoder_id_seen].
  - by apply oa_id_step in E.
  - by apply an_id_step in E.
  - by apply ds_id_step in E.
  - by apply go_id_step in E.
  - apply ol_no_ids in E. by left.
Qed.

Lemma run_frames_ids d frames d' outs :
  run_frames d frames = (d', Ok outs) ->
  id_step (decoder_id_seen d) (decoder_id_seen d')
    (response_ids (concat (map d_events outs))).
Proof.
  revert d outs. induction frames as [|f frames IH]; intros d outs; cbn [run_frames].
  { intros [= <- <-]. by left. }
  destruct (decode_frame f d) as [d1 [out|e]] eqn:Hf; [|done].
  destruct (run_frames d1 frames) as [d2 [outs'|e]] eqn:Hr; [|done].
  intros [= <- <-]. apply decode_frame_ids in Hf. apply IH in Hr.
  cbn [map concat]. rewrite response_ids_app.
  destruct Hf as [[-> Hs1] | (H1 & H2 & id & -> & Hid)];
    destruct Hr as [[-> Hs2] | (H3 & H4 & id' & -> & Hid')]; try congruence;
    unfold id_step; rewrite ?app_nil_r; cbn [app]; [left|right|right]; naive_solver congruence.
Qed.

(** over a whole stream the response identity is reported at most once, and
    it is then a non-empty identifier of at most 256 bytes from the safe
    alphabet: nothing else a provider sends can pass as an identity. *)
Theorem response_id_reported_once (p : ProviderId) (frames : list Frame)
    (d : ProviderDecoder) (outs : list DecodedFrame) :
  run_frames (ProviderDecoder_new p) frames = (d, Ok outs) ->
  response_ids (concat (map d_events outs)) = [] \/
  exists id, response_ids (concat (map d_events outs)) = [id] /\ safe_id id.
Proof.
  intros [[Hi _] | (_ & _ & Hid)]%run_frames_ids; [by left | by right].
Qed.
End runs.

(** ** Example streams *)

Module Examples.

Definition obj (members : list (string * Value Z)) : Value Z :=
  Object (map (fun m => (lit m.1, m.2)) members).
Definition txt (s : string) : Value Z := Str (lit s).

(** Documents are named; the table says what each parses to. *)
Definition table : list (str * Value Z) :=
  [ (lit "start", obj [("type", txt "message_start"); ("message", obj
       [("id", txt "msg_1"); ("usage", obj [("input_tokens", Number 3);
         ("output_tokens", Number 1)])])]%string);
    (lit "text", obj [("type", txt "content_block_delta"); ("delta", obj
       [("type", txt "text_delta"); ("text", txt "hello")])]%string);
    (lit "delta", obj [("type", txt "message_delta"); ("delta", obj
       [("stop_reason", txt "end_turn")]); ("usage", obj [("output_tokens", Number 40)])]%string);
    (lit "stop", obj [("type", txt "message_stop")]%string);
    (lit "tool", obj [("type", txt "content_block_start"); ("content_block", obj
       [("type", txt "tool_use")])]%string) ].

#[export] Instance example_json : SerdeJson Z := JsonExample.serde table.

Definition frames_of (docs : list string) : list Frame :=
  map (fun d => FSse (mkFrame None (lit d))) docs.

Definition anthropic_run (docs : list string) :=
  run_frames (ProviderDecoder_new Anthropic) (frames_of docs).

Definition outcome_usage (t : ProviderRunOutcome) : option TokenUsage :=
  match t with Completed _ u => u | RunCancelled => None end.

(** the total of an Anthropic stream is fixed at [message_start] from the
    output tokens known then; [message_delta] updates the output tokens only.
    A stream of 3 input and 40 output tokens completes with a total of 4, so the
    reported usage does not add up. *)
Theorem anthropic_total_goes_stale :
  exists t u, decoder_finish (anthropic_run ["start"; "text"; "delta"; "stop"]).1 = Ok t /\
    outcome_usage t = Some u /\
    input_tokens u = Some 3 /\ output_tokens u = Some 40 /\ total_tokens u = Some 4.
Proof. eexists _, _. vm_compute. repeat split. Qed.

Lemma terminal_is_last_witness :
  exists d outs t,
    anthropic_run ["start"; "text"; "delta"; "stop"] = (d, Ok outs) /\
    length outs = 4%nat /\
    (exists out, list.last outs = Some out /\ d_terminal out = Some t) /\ decoder_finish d = Ok t.
Proof.
  destruct (anthropic_run ["start"; "text"; "delta"; "stop"]%string) as [d [outs|e]] eqn:Hr;
    [|exfalso; apply (f_equal (fun x => is_ok x.2)) in Hr; vm_compute in Hr; discriminate].
  assert (exists t, decoder_finish d = Ok t) as [t Ht].
  { eexists. apply (f_equal fst) in Hr. simpl in Hr. rewrite <- Hr. vm_compute. reflexivity. }
  exists d, outs, t. split; [reflexivity|]. split.
  { apply (f_equal snd) in Hr. simpl in Hr. vm_compute in Hr. injection Hr as <-. reflexivity. }
  split; [|exact Ht].
  exact (proj1 (proj2 (terminal_is_last Anthropic _ d outs t Hr)) Ht).
Defined.

Lemma errors_never_reflect_frames_witness :
  exists d e, anthropic_run ["start"; "tool"] = (d, Err e) /\ In e decode_errors.
Proof.
  destruct (anthropic_run ["start"; "tool"]%string) as [d [outs|e]] eqn:Hr.
  - exfalso. apply (f_equal (fun x => is_ok x.2)) in Hr. vm_compute in Hr. discriminate.
  - exists d, e. split; [reflexivity|].
    exact (errors_never_reflect_frames _ d _ e Hr).
Defined.

Lemma response_id_reported_once_witness :
  exists d outs, anthropic_run ["start"; "text"; "start"] = (d, Ok outs) /\
    (response_ids (concat (map d_events outs)) = [] \/
     exists id, response_ids (concat (map d_events outs)) = [id] /\ safe_id id).
Proof.
  destruct (anthropic_run ["start"; "text"; "start"]%string) as [d [outs|e]] eqn:Hr;
    [|exfalso; apply (f_equal (fun x => is_ok x.2)) in Hr; vm_compute in Hr; discriminate].
  exists d, outs. split; [reflexivity|].
  exact (response_id_reported_once Anthropic _ d outs Hr).
Defined.

End Examples.
