(* ===== verification/Runner.v ===== *)
(** * Provider runtime: consuming a response

    Models the stream side of [runner.rs]: the limits and their validation, the
    checks on response metadata, the retry hint, the bounded reading of an HTTP
    error body, and the two consume loops that drive a framer and a decoder and
    hand events to the consumer.

    The network and the consumer are an environment: [Input] is what
    [next_chunk] can return (its [tokio::select!] over cancellation, deadline,
    idle timeout and the body), and [send n] is what the delivery of the [n]-th
    event does (the [select!] of [deliver_decoded]).  A run whose inputs end
    without [IEnd] is still waiting and has no result yet. *)

From S2P Require Import Prelude Bytes Utf8 Json ProviderConfig RuntimeError Framing Decode DecodeRuns.

(** ** Limits *)

(** Durations in nanoseconds. *)
Definition secs (n : Z) : Z := n * 1000000000.

Record RuntimeLimits : Type := mkLimits {
  max_request_body_bytes : Z;
  max_stream_frame_bytes : Z;
  max_http_error_body_bytes : Z;
  max_token_count_response_bytes : Z;
  max_response_header_count : Z;
  max_response_header_bytes : Z;
  dns_timeout : Z;
  connect_timeout : Z;
  response_header_timeout : Z;
  stream_idle_timeout : Z;
  overall_timeout : Z;
  token_count_timeout : Z;
}.

Definition RuntimeLimits_default : RuntimeLimits :=
  {| max_request_body_bytes := 5 * 1024 * 1024;
     max_stream_frame_bytes := 256 * 1024;
     max_http_error_body_bytes := 64 * 1024;
     max_token_count_response_bytes := 64 * 1024;
     max_response_header_count := 64;
     max_response_header_bytes := 16 * 1024;
     dns_timeout := secs 10;
     connect_timeout := secs 10;
     response_header_timeout := secs 60;
     stream_idle_timeout := secs 120;
     overall_timeout := secs (30 * 60);
     token_count_timeout := secs 30 |}.

Definition invalid_limits : RuntimeError :=
  RuntimeError_new InvalidRequest (lit "INVALID_RUNTIME_LIMITS")
    (lit "runtime byte and duration limits must be positive and bounded").

(** [(lo..=hi).contains(&x)] *)
Definition in_closed (lo hi x : Z) : bool := (lo <=? x) && (x <=? hi).

(** [t.is_zero() || t > max] *)
Definition bad_timeout (t max : Z) : bool := (t =? 0) || (t >? max).

Definition validate_limits (l : RuntimeLimits) : result RuntimeError unit :=
  if negb (in_closed 1024 (8 * 1024 * 1024) (max_request_body_bytes l))
     || (max_stream_frame_bytes l <? 1024)
     || (max_stream_frame_bytes l >? 256 * 1024)
     || (max_http_error_body_bytes l <? 1024)
     || (max_http_error_body_bytes l >? 64 * 1024)
     || (max_token_count_response_bytes l <? 1024)
     || (max_token_count_response_bytes l >? 64 * 1024)
     || negb (in_closed 8 128 (max_response_header_count l))
     || negb (in_closed 1024 (64 * 1024) (max_response_header_bytes l))
     || bad_timeout (dns_timeout l) (secs 60)
     || bad_timeout (connect_timeout l) (secs 60)
     || bad_timeout (response_header_timeout l) (secs (5 * 60))
     || bad_timeout (stream_idle_timeout l) (secs (10 * 60))
     || bad_timeout (overall_timeout l) (secs (30 * 60))
     || bad_timeout (token_count_timeout l) (secs (5 * 60))
  then Err invalid_limits else Ok tt.

(** ** Response metadata *)

Section metadata.
(** [HeaderValue::to_str]: the text of a header value, if it is visible ASCII. *)
Context (to_str : bytes -> option str).

Definition Headers : Type := list (str * bytes).

Definition headers_too_large : RuntimeError :=
  RuntimeError_new Http (lit "RESPONSE_HEADERS_TOO_LARGE")
    (lit "provider response headers exceeded the runtime limit").
Definition unsupported_encoding : RuntimeError :=
  RuntimeError_new Http (lit "UNSUPPORTED_CONTENT_ENCODING")
    (lit "compressed provider responses are not accepted").

(** One header counted against the limits: [(count, bytes)] after it. *)
Definition count_header (max_count max_bytes : Z) (acc : Z * Z) (header : str * bytes) :
    result RuntimeError (Z * Z) :=
  let count := saturating_add USIZE_MAX acc.1 1 in
  let size :=
    saturating_add USIZE_MAX
      (saturating_add USIZE_MAX (saturating_add USIZE_MAX acc.2 (len header.1)) (len header.2)) 4 in
  if (count >? max_count) || (size >? max_bytes)
  then Err headers_too_large else Ok (count, size).

Definition eq_ignore_ascii_case (a b : str) : bool :=
  str_eqb (to_ascii_lowercase a) (to_ascii_lowercase b).

Definition identity_encoding (value : bytes) : bool :=
  match to_str value with
  | Some text =>
      forallb (fun e => eq_ignore_ascii_case (trim e) (lit "identity"))
        (split_on (byte_of 44) text)
  | None => false
  end.

Definition content_encodings (headers : Headers) : list bytes :=
  map snd (List.filter (fun h => str_eqb h.1 (lit "content-encoding")) headers).

Definition validate_response_metadata (headers : Headers) (max_count max_bytes : Z) :
    result RuntimeError unit :=
  _ ← foldM_result (count_header max_count max_bytes) (0, 0) headers;
  forM_result (fun v => ensure (identity_encoding v) unsupported_encoding)
    (content_encodings headers).

Definition header_get (headers : Headers) (name : str) : option bytes :=
  snd <$> head (List.filter (fun h => str_eqb h.1 name) headers).

Definition expected_type (protocol : ProviderConfig.StreamProtocol) : str :=
  match protocol with
  | ProtoSse => lit "text/event-stream"
  | ProtoNdjson => lit "application/x-ndjson"
  end.

Definition validate_content_type (headers : Headers) (protocol : ProviderConfig.StreamProtocol) :
    result RuntimeError unit :=
  let raw := default [] (header_get headers (lit "content-type") ≫= to_str) in
  let content_type :=
    to_ascii_lowercase (trim (default [] (head (split_on (byte_of 59) raw)))) in
  let expected := expected_type protocol in
  if str_eqb content_type expected then Ok tt
  else Err (RuntimeError_new UnexpectedContentType (lit "UNEXPECTED_CONTENT_TYPE")
              (lit "provider success response must use " ++ expected)).

(** *** The retry hint *)

(** [str::parse::<u64>]: an optional plus sign and at least one digit. *)
Fixpoint parse_digits (acc : Z) (s : str) : option Z :=
  match s with
  | [] => Some acc
  | c :: s' =>
      if is_ascii_digit c then
        let acc' := acc * 10 + (byte_val c - 48) in
        if acc' <=? U64_MAX then parse_digits acc' s' else None
      else None
  end.

Definition parse_u64 (s : str) : option Z :=
  let s := match s with c :: s' => if byte_eqb c (byte_of 43) then s' else s | [] => s end in
  if is_empty s then None else parse_digits 0 s.

Definition parse_retry_after (headers : Headers) : option Z :=
  value ← header_get headers (lit "retry-after");
  text ← to_str value;
  seconds ← parse_u64 text;
  Some (Z.min seconds (5 * 60)).

Definition retry_decision_for_status (status : Z) (headers : Headers) : RetryDecision :=
  match (if status =? 429 then parse_retry_after headers else None) with
  | Some delay => RetryAfter delay
  | None =>
      if existsb (Z.eqb status) [408; 425; 429; 500; 502; 503; 504]
      then RetryDecision_exponential else Never
  end.
End metadata.

Definition stable_http_error (provider : ProviderId) : str * str :=
  (match provider with
   | OpenAi => lit "OPENAI_HTTP_ERROR"
   | Anthropic => lit "ANTHROPIC_HTTP_ERROR"
   | DeepSeek => lit "DEEPSEEK_HTTP_ERROR"
   | OllamaCloud => lit "OLLAMA_HTTP_ERROR"
   | GoogleGemini | GoogleVertexAi => lit "GOOGLE_HTTP_ERROR"
   end, lit "provider returned an HTTP error").

Definition map_http_error : RuntimeError :=
  retriable (RuntimeError_new Http (lit "HTTP_TRANSPORT_FAILED")
    (lit "provider HTTP transport failed")) true.

Definition timeout_error (code : string) : RuntimeError :=
  retriable (RuntimeError_new Timeout (lit code)
    (lit "provider request exceeded a runtime timeout")) true.

(** ** The environment *)

Inductive Input : Type :=
  | IChunk (bs : bytes)
  | IEnd
  | ICancelled
  | IDeadline
  | IIdleTimeout
  | ITransportError.

Definition cancelled_error : RuntimeError :=
  RuntimeError_new Cancelled (lit "CANCELLED") (lit "provider request was cancelled").

Definition next_chunk (i : Input) : result RuntimeError (option bytes) :=
  match i with
  | IChunk bs => Ok (Some bs)
  | IEnd => Ok None
  | ICancelled => Err cancelled_error
  | IDeadline => Err (timeout_error "OVERALL_TIMEOUT")
  | IIdleTimeout => Err (timeout_error "STREAM_IDLE_TIMEOUT")
  | ITransportError => Err map_http_error
  end.

Inductive SendOutcome : Type := Sent | SendCancelled | SendDeadline | SendClosed.

Definition consumer_closed : RuntimeError :=
  RuntimeError_new ConsumerClosed (lit "EVENT_CONSUMER_CLOSED")
    (lit "provider event consumer closed before the stream completed").

(** ** Reading an HTTP error body *)

Definition status_error (e : RuntimeError) (status : Z) (retry : RetryDecision) : RuntimeError :=
  with_retry_decision (with_http_status e status) retry.

Fixpoint read_http_error (provider : ProviderId) (status maximum : Z) (retry : RetryDecision)
    (buffered : bytes) (inputs : list Input) : option RuntimeError :=
  match inputs with
  | [] => None
  | i :: inputs' =>
      match next_chunk i with
      | Ok (Some chunk) =>
          if saturating_add USIZE_MAX (len buffered) (len chunk) >? maximum then
            Some (status_error
              (RuntimeError_new HttpStatus (lit "HTTP_ERROR_BODY_TOO_LARGE")
                (lit "provider returned an oversized HTTP error body")) status retry)
          else read_http_error provider status maximum retry (buffered ++ chunk) inputs'
      | Ok None =>
          let '(code, message) := stable_http_error provider in
          Some (status_error (RuntimeError_new HttpStatus code message) status retry)
      | Err error => Some error
      end
  end.

(** ** The consume loops *)

Section consume.
Context {Num : Type} `{SerdeJson Num}.
Context (send : nat -> SendOutcome).

(** Deliver the events of a decoded frame; [delivered] is what the consumer
    has received so far. *)
Fixpoint deliver_events (events : list ProviderStreamEvent) (terminal : option ProviderRunOutcome)
    (delivered : list ProviderStreamEvent) :
    list ProviderStreamEvent * result RuntimeError (option ProviderRunOutcome) :=
  match events with
  | [] => (delivered, Ok terminal)
  | event :: events' =>
      match send (length delivered) with
      | SendCancelled => (delivered, Ok (Some RunCancelled))
      | SendDeadline => (delivered, Err (timeout_error "OVERALL_TIMEOUT"))
      | SendClosed => (delivered, Err consumer_closed)
      | Sent => deliver_events events' terminal (delivered ++ [event])
      end
  end.

Definition deliver_decoded (decoded : DecodedFrame) (delivered : list ProviderStreamEvent) :=
  deliver_events (d_events decoded) (d_terminal decoded) delivered.

Record RunState : Type := mkRun {
  r_decoder : ProviderDecoder;
  r_delivered : list ProviderStreamEvent;
}.

(** [for frame in frames { if let Some(outcome) = deliver(decode(frame)?)? { return } }]:
    [Ok None] when the loop runs to its end. *)
Fixpoint consume_frames (frames : list Frame) (st : RunState) :
    RunState * result RuntimeError (option ProviderRunOutcome) :=
  match frames with
  | [] => (st, Ok None)
  | frame :: frames' =>
      match decode_frame frame (r_decoder st) with
      | (d, Err e) => (mkRun d (r_delivered st), Err e)
      | (d, Ok decoded) =>
          match deliver_decoded decoded (r_delivered st) with
          | (delivered, Err e) => (mkRun d delivered, Err e)
          | (delivered, Ok (Some outcome)) => (mkRun d delivered, Ok (Some outcome))
          | (delivered, Ok None) => consume_frames frames' (mkRun d delivered)
          end
      end
  end.

Section protocol.
Context {S F : Type} `{LineFramer S F}.
Context (to_frame : F -> Frame) (finish : S -> result RuntimeError (list F)).

Fixpoint consume_loop (framer : S) (st : RunState) (inputs : list Input) :
    RunState * option (result RuntimeError ProviderRunOutcome) :=
  match inputs with
  | [] => (st, None)
  | i :: inputs' =>
      match next_chunk i with
      | Err error =>
          (st, Some (if bool_decide (kind error = Cancelled)
                     then Ok RunCancelled else Err error))
      | Ok None =>
          match finish framer with
          | Err e => (st, Some (Err e))
          | Ok frames =>
              match consume_frames (map to_frame frames) st with
              | (st', Err e) => (st', Some (Err e))
              | (st', Ok (Some outcome)) => (st', Some (Ok outcome))
              | (st', Ok None) => (st', Some (decoder_finish (r_decoder st')))
              end
          end
      | Ok (Some chunk) =>
          match push framer chunk with
          | (_, Err e) => (st, Some (Err e))
          | (framer', Ok frames) =>
              match consume_frames (map to_frame frames) st with
              | (st', Err e) => (st', Some (Err e))
              | (st', Ok (Some outcome)) => (st', Some (Ok outcome))
              | (st', Ok None) => consume_loop framer' st' inputs'
              end
          end
      end
  end.
End protocol.

Definition initial_run (provider : ProviderId) : RunState :=
  mkRun (ProviderDecoder_new provider) [].

(** The end of an event stream adds no frame. *)
Definition sse_end (s : Sse.SseFramer) : result RuntimeError (list Sse.SseFrame) := _ ← Sse.finish s; mret [].

Definition consume_sse (max_frame : Z) (provider : ProviderId) (inputs : list Input) :=
  consume_loop FSse sse_end
    (Sse.new max_frame) (initial_run provider) inputs.

Definition consume_ndjson (max_frame : Z) (provider : ProviderId) (inputs : list Input) :=
  consume_loop FNdjson Ndjson.finish (Ndjson.new max_frame) (initial_run provider) inputs.
End consume.

(** ** Lemmas *)

Section consume_facts.
Context {Num : Type} `{SerdeJson Num} (send : nat -> SendOutcome).

Lemma consume_frames_app f1 f2 st :
  consume_frames send (f1 ++ f2) st =
  match consume_frames send f1 st with
  | (st', Ok None) => consume_frames send f2 st'
  | r => r
  end.
Proof.
  revert st. induction f1 as [|f f1 IH]; intros st; [done|]. cbn [app consume_frames].
  destruct (decode_frame f (r_decoder st)) as [d [out|e]]; [|done].
  destruct (deliver_decoded send out (r_delivered st)) as [dl [[o|]|e]]; done.
Qed.

(** Cutting a prefix of the stream that frames without error into chunks does
    not change the run. *)
Lemma consume_loop_chunks {S F} `{LineFramerLaws S F} to_frame finish
    (framer framer' : S) st c chunks rest (frames : list F) :
  push framer (concat (c :: chunks)) = (framer', Ok frames) ->
  consume_loop send to_frame finish framer st (map IChunk (c :: chunks) ++ rest) =
  consume_loop send to_frame finish framer st (IChunk (concat (c :: chunks)) :: rest).
Proof.
  revert framer st c frames.
  induction chunks as [|c' chunks IH]; intros framer st c frames Hp.
  { cbn [map concat app]. by rewrite app_nil_r. }
  change (concat (c :: c' :: chunks)) with (c ++ concat (c' :: chunks)) in *.
  pose proof (push_app (F := F) framer c (concat (c' :: chunks))) as Ha. rewrite Hp in Ha.
  change (map IChunk (c :: c' :: chunks) ++ rest)
    with (IChunk c :: (map IChunk (c' :: chunks) ++ rest)).
  cbn [consume_loop next_chunk]. rewrite Hp.
  destruct (push framer c) as [s1 [f1|e]]; [|done].
  destruct (push s1 (concat (c' :: chunks))) as [s2 [f2|e]] eqn:Hp2; [|done].
  cbn in Ha. destruct Ha as [<- ->]. rewrite map_app, consume_frames_app.
  destruct (consume_frames send (map to_frame f1) st) as [st1 [[o|]|e]]; [done| |done].
  rewrite (IH s1 st1 c' f2 Hp2). cbn [consume_loop next_chunk]. by rewrite Hp2.
Qed.

(** *** What has been delivered *)

(** The frames of a body: what its chunks frame to and, when the body has ended, what the
    framer gives at its end. *)
Definition body_frames {S F} `{LineFramer S F} (to_frame : F -> Frame) (finish : S -> result RuntimeError (list F))
    (framer : S) (chunks : list bytes) (ended : bool) : result RuntimeError (list Frame) :=
  match push_all (F := F) framer chunks with
  | (framer', Ok framed) =>
      if ended then (fun final => map to_frame (framed ++ final)) <$> finish framer' else Ok (map to_frame framed)
  | (_, Err e) => Err e
  end.

(** A run in good standing: [frames] were decoded to [outs], and exactly their events have
    been delivered, in order. *)
Definition in_step (p : ProviderId) (frames : list Frame) (outs : list DecodedFrame) (st : RunState) : Prop :=
  run_frames (ProviderDecoder_new p) frames = (r_decoder st, Ok outs) /\
  r_delivered st = concat (map d_events outs).

(** The last decoded frame ended the response. *)
Definition ended_by (outcome : ProviderRunOutcome) (outs : list DecodedFrame) : Prop :=
  exists front out, outs = front ++ [out] /\ d_terminal out = Some outcome.

(** What a completed run read of its inputs: the frames of the body, from the first one to
    the one that ended the response, or all of them when the body ended without. *)
Definition completed_reading {S F} `{LineFramer S F} (to_frame : F -> Frame) (finish : S -> result RuntimeError (list F))
    (framer : S) (p : ProviderId) (inputs : list Input) (st : RunState) (outcome : ProviderRunOutcome) : Prop :=
  exists chunks (ended : bool) rest frames unread outs,
    inputs = map IChunk chunks ++ (if ended then IEnd :: rest else rest) /\
    body_frames to_frame finish framer chunks ended = Ok (frames ++ unread) /\
    in_step p frames outs st /\
    decoder_finish (r_decoder st) = Ok outcome /\
    (ended_by outcome outs \/ ended = true /\ unread = []).

Lemma run_frames_snoc d frames f d1 outs d2 out :
  run_frames d frames = (d1, Ok outs) -> decode_frame f d1 = (d2, Ok out) ->
  run_frames d (frames ++ [f]) = (d2, Ok (outs ++ [out])).
Proof.
  revert d outs. induction frames as [|g frames IH]; intros d outs; cbn [app run_frames].
  { intros [= <- <-] ->. done. }
  destruct (decode_frame g d) as [d' [o|e]]; [|done].
  destruct (run_frames d' frames) as [d'' [os|e]] eqn:Hr; [|done].
  intros [= -> <-] Hf. by rewrite (IH _ _ Hr Hf).
Qed.

Lemma deliver_events_spec events terminal delivered dl r :
  deliver_events send events terminal delivered = (dl, r) ->
  (dl = delivered ++ events /\ r = Ok terminal) \/
  r = Ok (Some RunCancelled) \/ exists e, r = Err e.
Proof.
  revert delivered. induction events as [|ev events IH]; cbn [deliver_events]; intros delivered.
  { intros [= <- <-]. rewrite app_nil_r. auto. }
  destruct (send (length delivered)).
  - intros [[-> ->] | Hc]%IH; [|auto]. rewrite <- app_assoc. auto.
  - intros [= <- <-]. auto.
  - intros [= <- <-]. eauto.
  - intros [= <- <-]. eauto.
Qed.

Lemma consume_frames_in_step p before outs frames st st' r :
  in_step p before outs st -> consume_frames send frames st = (st', Ok r) -> r <> Some RunCancelled ->
  exists read unread outs', frames = read ++ unread /\ in_step p (before ++ read) outs' st' /\
    match r with
    | None => unread = []
    | Some outcome => ended_by outcome outs' /\ decoder_terminal (r_decoder st') = Some outcome
    end.
Proof.
  revert before outs st. induction frames as [|f frames IH]; intros before outs st Hst; cbn [consume_frames].
  { intros [= <- <-] _. exists [], [], outs. by rewrite (app_nil_r before). }
  destruct (decode_frame f (r_decoder st)) as [d [out|e]] eqn:Hd; [|done].
  destruct (deliver_decoded send out (r_delivered st)) as [dl r'] eqn:Hdl.
  apply deliver_events_spec in Hdl as [[-> ->] | [-> | [e ->]]]; [|intros [= <- <-] Hn; by destruct Hn|done].
  assert (in_step p (before ++ [f]) (outs ++ [out]) (mkRun d (r_delivered st ++ d_events out))) as Hst'.
  { destruct Hst as [Hr Hdel]. split; [by eapply run_frames_snoc|].
    cbn [r_delivered]. rewrite map_app, concat_app, Hdel. cbn [map concat]. by rewrite app_nil_r. }
  apply decode_frame_Ok in Hd as [_ Hd]. destruct (d_terminal out) as [o|] eqn:Ho.
  - intros [= <- <-] _. exists [f], frames, (outs ++ [out]). split_and!; [done..|by exists outs, out|]. cbn. by rewrite Hd.
  - intros Hc Hr. destruct (IH _ _ _ Hst' Hc Hr) as (read & unread & outs' & -> & Hin & Hm).
    exists (f :: read), unread, outs'. rewrite <- app_assoc in Hin. done.
Qed.

(** One more chunk in front of what is read. *)
Lemma body_frames_cons {S F} `{LineFramer S F} to_frame (finish : S -> result RuntimeError (list F)) framer framer' chunk framed
    chunks ended : push framer chunk = (framer', Ok framed) ->
  body_frames to_frame finish framer (chunk :: chunks) ended =
  app (map to_frame framed) <$> body_frames to_frame finish framer' chunks ended.
Proof.
  intros Hp. unfold body_frames. rewrite push_all_cons, Hp. destruct (push_all framer' chunks) as [s [fs|e]]; [|done]. cbn.
  destruct ended; [|by rewrite map_app]. destruct (finish s) as [final|e]; [|done]. cbn. by rewrite !map_app, app_assoc.
Qed.

Lemma consume_loop_in_step {S F} `{LineFramer S F} to_frame (finish : S -> result _ (list F))
    p before outs framer st inputs st' reason usage :
  in_step p before outs st ->
  consume_loop send to_frame finish framer st inputs = (st', Some (Ok (Completed reason usage))) ->
  exists chunks (ended : bool) rest read unread outs',
    inputs = map IChunk chunks ++ (if ended then IEnd :: rest else rest) /\
    body_frames to_frame finish framer chunks ended = Ok (read ++ unread) /\
    in_step p (before ++ read) outs' st' /\ decoder_terminal (r_decoder st') = Some (Completed reason usage) /\
    (ended_by (Completed reason usage) outs' \/ ended = true /\ unread = []).
Proof.
  revert before outs framer st. induction inputs as [|i inputs IH]; intros before outs framer st Hst; [done|].
  cbn [consume_loop]. destruct (next_chunk i) as [[chunk|]|e] eqn:Hi; [| |by case_match].
  - destruct i; try done. injection Hi as ->. destruct (push framer chunk) as [s [fs|e]] eqn:Hp; [|done].
    destruct (consume_frames send (map to_frame fs) st) as [st1 [r|e]] eqn:Hc; [|done].
    destruct r as [o|].
    + intros [= <- ->]. eapply consume_frames_in_step in Hc as (read & unread & outs' & Hf & Hin & He & Ht); [|done..].
      exists [chunk], false, inputs, read, unread, outs'. split_and!; try done; [|by left].
      rewrite (body_frames_cons _ _ _ _ _ _ _ _ Hp). cbn. by rewrite app_nil_r, Hf.
    + eapply consume_frames_in_step in Hc as (read & unread & outs' & Hf & Hin & ->); [|done..]. rewrite app_nil_r in Hf. subst read.
      intros Hl. destruct (IH _ _ _ _ Hin Hl) as (chunks & ended & rest & read & unread & outs2 & -> & Hb & Hin2 & Ht & He).
      exists (chunk :: chunks), ended, rest, (map to_frame fs ++ read), unread, outs2. split_and!; try done.
      * rewrite (body_frames_cons _ _ _ _ _ _ _ _ Hp), Hb. cbn. by rewrite app_assoc.
      * by rewrite app_assoc.
  - destruct i; try done. destruct (finish framer) as [fs|e] eqn:Hfin; [|done].
    assert (body_frames to_frame finish framer [] true = Ok (map to_frame fs)) as Hb by (unfold body_frames; cbn; by rewrite Hfin).
    destruct (consume_frames send (map to_frame fs) st) as [st1 [r|e]] eqn:Hc; [|done].
    destruct r as [o|].
    + intros [= <- ->]. eapply consume_frames_in_step in Hc as (read & unread & outs' & Hf & Hin & He & Ht); [|done..].
      exists [], true, inputs, read, unread, outs'. rewrite <- Hf. split_and!; try done. by left.
    + intros [= <- Hf%decoder_finish_terminal].
      eapply consume_frames_in_step in Hc as (read & unread & outs' & Hfr & Hin & ->); [|done..].
      exists [], true, inputs, read, [], outs'. rewrite <- Hfr. split_and!; try done. by right.
Qed.

Lemma completed_run_reading {S F} `{LineFramer S F} to_frame (finish : S -> result _ (list F)) p framer inputs st reason usage :
  consume_loop send to_frame finish framer (initial_run p) inputs = (st, Some (Ok (Completed reason usage))) ->
  completed_reading to_frame finish framer p inputs st (Completed reason usage).
Proof.
  intros Hc. apply (consume_loop_in_step _ _ p [] []) in Hc as (chunks & ended & rest & read & unread & outs & ? & ? & ? & Ht & ?);
    [|done].
  exists chunks, ended, rest, read, unread, outs. rewrite decoder_finish_terminal. done.
Qed.
End consume_facts.

(** ** Theorems *)

Section theorems.
Context {Num : Type} `{SerdeJson Num} (send : nat -> SendOutcome).

(** C10: as long as the received bytes frame without error, a response is
    consumed the same however the network cuts it: the delivered events, the
    outcome or error, and the decoder state do not depend on the chunks,
    whatever comes after them and whatever the consumer does. *)
Theorem consume_sse_chunking (max : Z) (p : ProviderId) (chunk : bytes) (chunks : list bytes)
    (rest : list Input) (framer : Sse.SseFramer) (frames : list Sse.SseFrame) :
  push (Sse.new max) (concat (chunk :: chunks)) = (framer, Ok frames) ->
  consume_sse send max p (map IChunk (chunk :: chunks) ++ rest) =
  consume_sse send max p (IChunk (concat (chunk :: chunks)) :: rest).
Proof. apply (consume_loop_chunks send FSse). Qed.

(** C9: a run that reports completion has framed the bytes it received, in the
    order it received them, and decoded the frames from the first one to the one
    that ended the response, or all of them when the body ended; the consumer was
    given exactly the events of these frames, in order, and the outcome is theirs.
    No byte, frame or event is missing, reordered or duplicated. *)
Theorem completion_delivers_everything (max : Z) (p : ProviderId) (inputs : list Input)
    (st : RunState) (reason : option CompletionReason) (usage : option TokenUsage) :
  (consume_sse send max p inputs = (st, Some (Ok (Completed reason usage))) ->
   completed_reading FSse sse_end (Sse.new max) p inputs st (Completed reason usage)) /\
  (consume_ndjson send max p inputs = (st, Some (Ok (Completed reason usage))) ->
   completed_reading FNdjson Ndjson.finish (Ndjson.new max) p inputs st (Completed reason usage)).
Proof. split; apply completed_run_reading. Qed.
End theorems.

Definition oversized_body_error (status : Z) (retry : RetryDecision) : RuntimeError :=
  status_error (RuntimeError_new HttpStatus (lit "HTTP_ERROR_BODY_TOO_LARGE")
    (lit "provider returned an oversized HTTP error body")) status retry.

Lemma read_http_error_chunks p status max retry buffered chunks :
  max < USIZE_MAX -> len buffered <= max ->
  read_http_error p status max retry buffered (map IChunk chunks ++ [IEnd]) =
  Some (if len (buffered ++ concat chunks) >? max then oversized_body_error status retry
        else status_error (RuntimeError_new HttpStatus (stable_http_error p).1
               (stable_http_error p).2) status retry).
Proof.
  intros Hmax. revert buffered.
  induction chunks as [|c chunks IH]; intros buffered Hb; cbn [map app read_http_error next_chunk].
  { cbn [concat]. rewrite app_nil_r, gtb_false by done. by destruct p. }
  pose proof (len_nonneg buffered). pose proof (len_nonneg c).
  pose proof (len_nonneg (concat chunks)). cbn [concat]. unfold saturating_add.
  destruct (Z.gtb_spec (Z.min USIZE_MAX (len buffered + len c)) max).
  - rewrite gtb_true by (rewrite !len_app; lia). done.
  - rewrite IH by (rewrite len_app; lia). by rewrite app_assoc.
Qed.

(** an HTTP error response is reported by its status, the retry hint and a
    constant per provider; the body decides only whether it was within the
    limit, and none of its bytes reaches the error, however it is cut. *)
Theorem http_error_body_never_reflected (p : ProviderId) (status max : Z)
    (retry : RetryDecision) (chunks : list bytes) :
  0 <= max < USIZE_MAX ->
  read_http_error p status max retry [] (map IChunk chunks ++ [IEnd]) =
  Some (if len (concat chunks) >? max then oversized_body_error status retry
        else status_error (RuntimeError_new HttpStatus (stable_http_error p).1
               (stable_http_error p).2) status retry).
Proof. intros [??]. by apply read_http_error_chunks. Qed.

(** The bytes the limit counts: names, values and four bytes per header. *)
Definition header_bytes (headers : Headers) : Z :=
  foldr (fun h n => len h.1 + len h.2 + 4 + n) 0 headers.

Lemma header_bytes_nonneg headers : 0 <= header_bytes headers.
Proof.
  induction headers as [|h hs IH]; cbn; [lia|].
  pose proof (len_nonneg h.1). pose proof (len_nonneg h.2). unfold header_bytes in IH. lia.
Qed.

Lemma count_headers mc mb headers c b :
  0 <= c <= mc -> 0 <= b <= mb -> mc < USIZE_MAX -> mb < USIZE_MAX ->
  foldM_result (count_header mc mb) (c, b) headers =
  if (c + len headers <=? mc) && (b + header_bytes headers <=? mb)
  then Ok (c + len headers, b + header_bytes headers) else Err headers_too_large.
Proof.
  revert c b. induction headers as [|h hs IH]; intros c b Hc Hb Hmc Hmb.
  { cbn. rewrite !Z.add_0_r. by rewrite !(proj2 (Z.leb_le _ _)) by lia. }
  cbn [foldM_result]. rewrite len_cons. cbn [header_bytes foldr]. fold (header_bytes hs).
  pose proof (len_nonneg h.1). pose proof (len_nonneg h.2). pose proof (len_nonneg hs).
  pose proof (header_bytes_nonneg hs).
  destruct (count_header mc mb (c, b) h) as [[c' b']|e] eqn:Hch;
    unfold count_header, saturating_add in Hch; cbn [fst snd] in Hch;
    destruct (_ || _) eqn:Hbig in Hch; simplify_eq; cbn [mbind result_bind].
  - zify_bool. rewrite !Z.min_r by lia. rewrite IH by lia.
    replace (c + 1 + len hs) with (c + (1 + len hs)) by lia.
    replace (b + len h.1 + len h.2 + 4 + header_bytes hs) with
      (b + (len h.1 + len h.2 + 4 + header_bytes hs)) by lia. done.
  - destruct ((c + _ <=? mc) && _) eqn:Hfit; [|done]. exfalso. zify_bool.
    apply orb_true_iff in Hbig as [?|?]; zify_bool; lia.
Qed.

(** response headers are accepted exactly when they are within both limits,
    counting four bytes of overhead per header, and every content encoding is
    the identity: a compressed body is never decoded. *)
Theorem accepted_metadata (to_str : bytes -> option str) (headers : Headers)
    (max_count max_bytes : Z) :
  0 <= max_count < USIZE_MAX -> 0 <= max_bytes < USIZE_MAX ->
  validate_response_metadata to_str headers max_count max_bytes = Ok tt <->
  len headers <= max_count /\ header_bytes headers <= max_bytes /\
  Forall (fun v => identity_encoding to_str v = true) (content_encodings headers).
Proof.
  intros Hc Hb. unfold validate_response_metadata. rewrite count_headers, !Z.add_0_l by lia.
  destruct (_ && _) eqn:Hfit; cbn [mbind result_bind].
  - zify_bool. rewrite forM_result_Ok. split.
    + intros Hf. split_and!; [done..|]. eapply Forall_impl; [|exact Hf].
      cbn. intros v Hv. by eapply ensure_Ok.
    + intros (_ & _ & Hf). eapply Forall_impl; [|exact Hf]. cbn. by intros v ->.
  - split; [done|]. intros (? & ? & _). exfalso.
    apply andb_false_iff in Hfit as [?|?]; zify_bool; lia.
Qed.

(** The retry hint never exceeds the product ceiling of five minutes, and a
    status outside the transient ones never suggests a retry. *)
Theorem retry_hint_bounded (to_str : bytes -> option str) (status : Z) (headers : Headers) :
  match retry_decision_for_status to_str status headers with
  | RetryAfter delay => status = 429 /\ delay <= 300
  | ExponentialBackoff i m => In status [408; 425; 429; 500; 502; 503; 504] /\ i = 1 /\ m = 30
  | Never => ~ In status [408; 425; 429; 500; 502; 503; 504]
  end.
Proof.
  unfold retry_decision_for_status.
  set (transient := [408; 425; 429; 500; 502; 503; 504]).
  assert (existsb (Z.eqb status) transient = true <-> In status transient) as Hin.
  { rewrite existsb_exists. split; [intros (x & ? & ->%Z.eqb_eq); done|].
    intros ?. exists status. by rewrite Z.eqb_refl. }
  destruct (if status =? 429 then _ else None) as [delay|] eqn:Hr.
  - destruct (status =? 429) eqn:Hs; [|done]. zify_bool. split; [done|].
    unfold parse_retry_after in Hr.
    apply bind_Some in Hr as (v & _ & (t & _ & (n & _ & [= <-])%bind_Some)%bind_Some). lia.
  - destruct (existsb _ _) eqn:He; cbn.
    + split; [by apply Hin | done].
    + intros Hi%Hin. congruence.
Qed.

(** ** Example runs *)

Module RunnerExamples.
Import DecodeRuns.Examples.

Definition always_sent (n : nat) : SendOutcome := Sent.

(** An event whose data names a document of the example table. *)
Definition event_of (doc : string) : bytes :=
  lit "data: " ++ lit doc ++ [NEWLINE; NEWLINE].

Definition whole_stream : bytes :=
  event_of "start" ++ event_of "text" ++ event_of "delta" ++ event_of "stop".

(** Bytes after the end of the response that are not UTF-8. *)
Definition trailing_garbage : bytes := lit "x" ++ [byte_of 255; NEWLINE].

Definition run_chunks (chunks : list bytes) :=
  consume_sse always_sent 1024 Anthropic (map IChunk chunks ++ [IEnd]).

Definition completed_ok (r : option (result RuntimeError ProviderRunOutcome)) : bool :=
  match r with Some (Ok (Completed _ _)) => true | _ => false end.

(** Chunking does matter once framing fails: a response whose completion has
    already been received is reported completed, with its text delivered, when
    the bad trailing bytes come in the next chunk, but fails and delivers
    nothing when they share the chunk, because a failed push drops the frames
    of its chunk. *)
Theorem trailing_bytes_can_undo_completion :
  completed_ok (run_chunks [whole_stream; trailing_garbage]).2 = true /\
  In (TextDelta (lit "hello")) (r_delivered (run_chunks [whole_stream; trailing_garbage]).1) /\
  (run_chunks [whole_stream ++ trailing_garbage]).2 = Some (Err Sse.invalid_utf8) /\
  r_delivered (run_chunks [whole_stream ++ trailing_garbage]).1 = [].
Proof. vm_compute. repeat split. right; left; reflexivity. Qed.

Lemma consume_sse_chunking_witness :
  exists framer frames,
    push (Sse.new 1024) (concat [event_of "start"; event_of "stop"]) = (framer, Ok frames) /\
    consume_sse always_sent 1024 Anthropic
      (map IChunk [event_of "start"; event_of "stop"] ++ [IEnd]) =
    consume_sse always_sent 1024 Anthropic
      [IChunk (concat [event_of "start"; event_of "stop"]); IEnd].
Proof.
  destruct (push (Sse.new 1024) (concat [event_of "start"; event_of "stop"]))
    as [framer [frames|e]] eqn:Hp.
  - exists framer, frames. split; [reflexivity|].
    exact (consume_sse_chunking always_sent 1024 Anthropic _ _ [IEnd] framer frames Hp).
  - exfalso. apply (f_equal (fun x => is_ok x.2)) in Hp. vm_compute in Hp. discriminate.
Defined.

Lemma completion_delivers_everything_witness :
  exists st reason usage,
    run_chunks [whole_stream] = (st, Some (Ok (Completed reason usage))) /\
    completed_reading FSse sse_end (Sse.new 1024) Anthropic [IChunk whole_stream; IEnd] st (Completed reason usage).
Proof.
  destruct (run_chunks [whole_stream]) as [st r] eqn:Hr.
  assert (exists reason usage, r = Some (Ok (Completed reason usage))) as (reason & usage & ->).
  { apply (f_equal snd) in Hr. simpl in Hr. rewrite <- Hr. vm_compute. eexists _, _. reflexivity. }
  exists st, reason, usage. split; [done|].
  exact (proj1 (completion_delivers_everything always_sent 1024 Anthropic _ st reason usage) Hr).
Defined.

Lemma http_error_body_never_reflected_witness :
  read_http_error OpenAi 503 8 Never [] (map IChunk [lit "secret"; lit "token"] ++ [IEnd]) =
  Some (oversized_body_error 503 Never).
Proof.
  rewrite (http_error_body_never_reflected OpenAi 503 8 Never [lit "secret"; lit "token"])
    by (split; [lia | reflexivity]).
  vm_compute. reflexivity.
Defined.

Definition example_headers : Headers :=
  [(lit "content-type", lit "text/event-stream"); (lit "content-encoding", lit " Identity")].

Lemma accepted_metadata_witness :
  validate_response_metadata Some example_headers 8 1024 = Ok tt.
Proof.
  apply (proj2 (accepted_metadata Some example_headers 8 1024
    ltac:(split; [lia | reflexivity]) ltac:(split; [lia | reflexivity]))).
  split; [vm_compute; congruence|]. split; [vm_compute; congruence|].
  constructor; [vm_compute; reflexivity | constructor].
Defined.

End RunnerExamples.
