(* ===== verification/HttpSend.v ===== *)
(** * Provider runtime: credentials and the HTTP request

    Models [credential.rs] and the request side of [client.rs]: which endpoint a
    credential may be sent to, and the request that carries it.  The header types of
    [http], the serialiser and whether [reqwest] builds a client and a request are
    parameters ([HttpLib], [ProviderJson]).  Every client is built with [https_only], no
    redirects, no proxy, no retries, and the addresses of the endpoint pinned; the last
    is kept in the request. *)

From S2P Require Import Prelude Bytes Utf8 Json Url ProviderConfig ProviderCompile RuntimeError Endpoint Runner.

Definition MAX_CREDENTIAL_BYTES : Z := 16 * 1024.

(** ** Credentials (credential.rs) *)

Inductive CredentialScope : Type :=
  | OfficialProvider (p : ProviderId)
  | OverrideHost (host : str).

Record ProviderCredential : Type := mkCredential {
  credential_scope : CredentialScope;
  secret : str;
}.

Definition bad_credential (code message : string) : RuntimeError :=
  RuntimeError_new InvalidCredential (lit code) (lit message).

(** [char::is_ascii_control] on every character: the bytes below 32 and 127. *)
Definition ascii_control (b : byte) : bool := (byte_val b <? 32) || (byte_val b =? 127).

Definition ProviderCredential_new (scope : CredentialScope) (s : str) : RResult ProviderCredential :=
  if is_empty s || (len s >? MAX_CREDENTIAL_BYTES)
  then Err (bad_credential "INVALID_CREDENTIAL" "credential must contain between 1 and 16384 bytes")
  else if existsb ascii_control s
  then Err (bad_credential "INVALID_CREDENTIAL" "credential must not contain control characters")
  else Ok (mkCredential scope s).

Definition for_official (p : ProviderId) (s : str) : RResult ProviderCredential :=
  ProviderCredential_new (OfficialProvider p) s.

Definition dns_label_bad (label : str) : bool :=
  is_empty label || (len label >? 63) || starts_with label (lit "-") || ends_with label (lit "-").

Definition for_override_host (host s : str) : RResult ProviderCredential :=
  let host := to_ascii_lowercase host in
  if is_empty host || (len host >? 253) || starts_with host (lit ".") || ends_with host (lit ".") ||
     existsb dns_label_bad (split_on (byte_of 46) host) ||
     existsb (fun b => negb (is_ascii_alphanumeric b || one_of ".-" b)) host
  then Err (bad_credential "INVALID_CREDENTIAL_SCOPE" "override credential scope must be an exact DNS host name")
  else ProviderCredential_new (OverrideHost host) s.

(** ** Requests (client.rs) *)

(** [HeaderName::from_bytes] and [HeaderValue::from_str]; and whether the builders of
    [reqwest] succeed. *)
Class HttpLib : Type := {
  header_name : str -> option str;
  header_value : str -> option bytes;
  client_builds : str -> list (IpAddr * Z) -> bool;
  request_builds : Url -> list (str * bytes) -> bytes -> bool;
}.

(** Names are stored in lower case, values as they are. *)
Class HttpLaws `{HttpLib} : Prop := {
  header_name_lower s n : header_name s = Some n -> n = to_ascii_lowercase s;
  header_value_same s v : header_value s = Some v -> v = s;
}.

(** A request handed to a client, with the addresses the client has pinned for a host. *)
Record HttpRequest : Type := mkHttpRequest {
  sent_url : Url;
  sent_host : str;
  sent_addresses : list (IpAddr * Z);
  sent_headers : list (str * bytes);
  sent_body : bytes;
}.

(** [HeaderMap::insert]: replaces the values of a name. *)
Definition header_insert (name : str) (value : bytes) (headers : list (str * bytes)) : list (str * bytes) :=
  List.filter (fun h => negb (str_eqb h.1 name)) headers ++ [(name, value)].

Definition scope_mismatch : RuntimeError :=
  RuntimeError_new CredentialMismatch (lit "CREDENTIAL_SCOPE_MISMATCH")
    (lit "credential scope did not match the selected provider endpoint").

Definition validate_credential_scope (p : ProviderId) (endpoint : ResolvedEndpoint) (scope : CredentialScope) :
    RResult unit :=
  let accepted :=
    match is_override endpoint, scope with
    | false, OfficialProvider scoped => bool_decide (scoped = p)
    | true, OverrideHost host => eq_ignore_ascii_case host (endpoint_host endpoint)
    | _, _ => false
    end in
  if accepted then Ok tt else Err scope_mismatch.

Definition invalid_credential : RuntimeError :=
  bad_credential "INVALID_CREDENTIAL" "credential could not be encoded as an HTTP header".

Section requests.
Context `{HttpLib}.

Definition attach_credential (headers : list (str * bytes)) (scheme : AuthScheme) (s : str) :
    RResult (list (str * bytes)) :=
  '(name, value) ←
    match scheme with
    | AuthorizationBearer | GoogleOAuthBearer =>
        v ← ok_or (header_value (lit "Bearer " ++ s)) invalid_credential; mret (lit "authorization", v)
    | AnthropicXApiKey => v ← ok_or (header_value s) invalid_credential; mret (lit "x-api-key", v)
    | GoogleXGoogApiKey => v ← ok_or (header_value s) invalid_credential; mret (lit "x-goog-api-key", v)
    end;
  mret (header_insert name value headers).

(** The loop over [compiled.static_headers()]; [error] is what an invalid one gives. *)
Definition insert_static_headers {E} (error : string -> E) (headers : list (str * bytes))
    (static : list (str * str)) : result E (list (str * bytes)) :=
  foldM_result (fun headers entry =>
    name ← ok_or (header_name entry.1) (error "compiled request contained an invalid static header name");
    value ← ok_or (header_value entry.2) (error "compiled request contained an invalid static header value");
    mret (header_insert name value headers)) headers static.

Definition client_build_failed : RuntimeError :=
  RuntimeError_new Http (lit "HTTP_CLIENT_BUILD_FAILED") (lit "secure HTTP client could not be initialized").

(** The client is its pinned host and addresses. *)
Definition build_secure_client (endpoint : ResolvedEndpoint) : RResult (str * list (IpAddr * Z)) :=
  if client_builds (endpoint_host endpoint) (pinned_addresses endpoint)
  then Ok (endpoint_host endpoint, pinned_addresses endpoint)
  else Err client_build_failed.

Definition invalid_request (code message : string) : RuntimeError :=
  RuntimeError_new InvalidRequest (lit code) (lit message).

Definition accept_type (protocol : ProviderConfig.StreamProtocol) : str :=
  match protocol with ProtoSse => lit "text/event-stream" | ProtoNdjson => lit "application/x-ndjson" end.

Definition build_http_request {Num} `{ProviderJson Num} (compiled : CompiledProviderRequest Num)
    (endpoint : ResolvedEndpoint) (credential : ProviderCredential) (max_request_body_bytes : Z) :
    RResult HttpRequest :=
  _ ← validate_credential_scope (c_provider compiled) endpoint (credential_scope credential);
  body ← ok_or (json_to_vec (ProviderCompile.body compiled))
           (invalid_request "REQUEST_SERIALIZATION_FAILED" "provider request body could not be serialized");
  if len body >? max_request_body_bytes
  then Err (invalid_request "REQUEST_BODY_TOO_LARGE" "provider request body exceeded the runtime byte limit")
  else
    '(host, addresses) ← build_secure_client endpoint;
    headers ← insert_static_headers (invalid_request "INVALID_STATIC_HEADER") [] (static_headers compiled);
    let headers := header_insert (lit "accept") (accept_type (stream_protocol compiled)) headers in
    let headers := header_insert (lit "accept-encoding") (lit "identity") headers in
    headers ← attach_credential headers (auth_scheme compiled) (secret credential);
    if request_builds (endpoint_url endpoint) headers body
    then Ok (mkHttpRequest (endpoint_url endpoint) host addresses headers body)
    else Err (invalid_request "HTTP_REQUEST_BUILD_FAILED" "provider HTTP request could not be built").
End requests.
