(* ===== verification/LoreModel.v ===== *)
(** * Lorebook: catalog, request and their validation

    Models [crates/lorepia-lorebook/src/model.rs], [error.rs] and the limits of
    [lib.rs]: entries with their activation conditions, the catalog, the
    conversation snapshot and the selection settings, each with its [validate].
    Strings are UTF-8 byte lists, so [len] is the code's [str::len]. *)

From S2P Require Import Prelude Bytes Utf8.

(** ** Limits (lib.rs) *)

Definition MAX_CATALOG_ENTRIES : Z := 100000.
Definition MAX_CATALOG_BYTES : Z := 64 * 1024 * 1024.
Definition MAX_ENTRY_CONTENT_BYTES : Z := 256 * 1024.
Definition MAX_ENTRY_CONDITIONS : Z := 64.
Definition MAX_KEY_BYTES : Z := 4 * 1024.
Definition MAX_REGEX_BYTES : Z := 4 * 1024.
Definition MAX_RECENT_TURNS : Z := 512.
Definition MAX_TURN_BYTES : Z := 256 * 1024.
Definition MAX_SEARCH_INPUT_BYTES : Z := 2 * 1024 * 1024.
Definition MAX_OUTPUT_BYTES : Z := 4 * 1024 * 1024.
Definition MAX_OUTPUT_TOKENS : Z := 1000000.
Definition MAX_REGEX_SCAN_BYTES : Z := 8 * 1024 * 1024.
Definition MAX_REGEX_MATCHES : Z := 8192.
Definition MAX_REGEX_EVALUATIONS : Z := 1024.
Definition MAX_LITERAL_MATCH_EVENTS : Z := 4 * 1024 * 1024.
Definition MAX_ACTIVE_REGEX_CONDITIONS : Z := 1024.
Definition MAX_ACTIVE_REGEX_PATTERN_BYTES : Z := 1024 * 1024.
Definition MAX_IMPORT_BYTES : Z := 72 * 1024 * 1024.

Definition MAX_ENTRY_ID_BYTES : Z := 128.
Definition MAX_TOKENIZER_ID_BYTES : Z := 256.
Definition MAX_TOKENIZER_REVISION_BYTES : Z := 256.

(** ** Errors (error.rs) *)

Inductive LimitKind : Type :=
  | LiteralMatchEvents | RegexEvaluations | RegexScanBytes | RegexMatches.

Inductive LorebookError : Type :=
  | InvalidField (field reason : string)
  | TooManyItems (field : string) (max : Z)
  | PayloadTooLarge (field : string) (max_bytes : Z)
  | DuplicateEntryId
  | InvalidRegex (entry_index : nat)
  | SearchLimitExceeded (limit : LimitKind)
  | ImportSyntax
  | ImportSchema
  | UnsupportedImportVersion
  | Serialization.

Abbreviation Result := (result LorebookError).

(** ** Entries *)

(** [EntryId] wraps a string; [EntryId::parse] is its only constructor. *)
Definition entry_id_byte (b : byte) : bool := is_ascii_alphanumeric b || one_of "-_.:" b.

Definition EntryId_parse (value : str) : Result str :=
  if is_empty value || (len value >? MAX_ENTRY_ID_BYTES)
  then Err (InvalidField "entry.id" "must be a bounded non-empty identifier")
  else if negb (forallb entry_id_byte value)
  then Err (InvalidField "entry.id" "contains unsupported characters")
  else Ok value.

Inductive EntrySource : Type := Global | CharacterCard | Chat.

Definition precedence (s : EntrySource) : Z :=
  match s with Global => 0 | CharacterCard => 1 | Chat => 2 end.

Inductive MatchCondition : Type :=
  | Literal (value : str) (case_sensitive : bool)
  | Regex (pattern required_literal : str) (case_insensitive : bool).

Definition MatchCondition_literal (value : str) : MatchCondition := Literal value false.
Definition MatchCondition_regex (pattern required_literal : str) : MatchCondition :=
  Regex pattern required_literal false.

Definition condition_validate (self : MatchCondition) : Result unit :=
  let '(primary, secondary) :=
    match self with
    | Literal value _ => (value, None)
    | Regex pattern required_literal _ => (required_literal, Some pattern)
    end in
  if is_empty primary || (len primary >? MAX_KEY_BYTES)
  then Err (InvalidField "entry.condition.key" "must be a bounded non-empty string")
  else match secondary with
  | Some pattern =>
      if is_empty pattern || (len pattern >? MAX_REGEX_BYTES)
      then Err (InvalidField "entry.condition.regex" "must be a bounded non-empty pattern")
      else Ok tt
  | None => Ok tt
  end.

Inductive SecondaryConditions : Type :=
  | SecNone
  | SecAny (values : list MatchCondition)
  | SecAll (values : list MatchCondition).

Record MatchConditions : Type := mkConditions {
  primary : list MatchCondition;
  secondary : SecondaryConditions;
}.

Definition MatchConditions_any (primary : list MatchCondition) : MatchConditions :=
  mkConditions primary SecNone.

Definition secondary_values (s : SecondaryConditions) : list MatchCondition :=
  match s with SecNone => [] | SecAny values | SecAll values => values end.

(** [self.primary.iter().chain(secondary)]; the engine's [condition_iter] too. *)
Definition condition_iter (c : MatchConditions) : list MatchCondition :=
  primary c ++ secondary_values (secondary c).

Definition conditions_validate (self : MatchConditions) : Result unit :=
  if is_empty (primary self)
  then Err (InvalidField "entry.conditions.primary" "must contain at least one condition")
  else
    let values := secondary_values (secondary self) in
    if match secondary self with SecNone => false | _ => is_empty values end
    then Err (InvalidField "entry.conditions.secondary"
                "enabled secondary conditions cannot be empty")
    else match checked_add USIZE_MAX (len (primary self)) (len values) with
    | None => Err (TooManyItems "entry.conditions" MAX_ENTRY_CONDITIONS)
    | Some count =>
        if count >? MAX_ENTRY_CONDITIONS
        then Err (TooManyItems "entry.conditions" MAX_ENTRY_CONDITIONS)
        else forM_result condition_validate (condition_iter self)
    end.

Inductive Activation : Type :=
  | Constant
  | Selective (conditions : MatchConditions)
  | Probability (basis_points : Z) (conditions : option MatchConditions).

Definition activation_validate (self : Activation) : Result unit :=
  match self with
  | Constant => Ok tt
  | Selective conditions => conditions_validate conditions
  | Probability basis_points conditions =>
      if basis_points >? 10000
      then Err (InvalidField "entry.activation.basisPoints" "must be in 0..=10000")
      else match conditions with
           | Some conditions => conditions_validate conditions
           | None => Ok tt
           end
  end.

(** The conditions of an activation, if it has any. *)
Definition activation_conditions (a : Activation) : option MatchConditions :=
  match a with
  | Constant => None
  | Selective conditions => Some conditions
  | Probability _ conditions => conditions
  end.

Record LoreEntry : Type := mkEntry {
  id : str;
  source : EntrySource;
  priority : Z;
  order : Z;
  enabled : bool;
  activation : Activation;
  content : str;
  reserved_tokens : Z;
}.

Definition entry_validate (self : LoreEntry) : Result unit :=
  if is_empty (content self) then Err (InvalidField "entry.content" "must not be empty")
  else if len (content self) >? MAX_ENTRY_CONTENT_BYTES
  then Err (PayloadTooLarge "entry.content" MAX_ENTRY_CONTENT_BYTES)
  else if (reserved_tokens self =? 0) || (reserved_tokens self >? MAX_OUTPUT_TOKENS)
  then Err (InvalidField "entry.reservedTokens" "must be within the output token ceiling")
  else activation_validate (activation self).

Definition LoreEntry_new (id : str) (source : EntrySource) (priority order : Z) (enabled : bool)
    (activation : Activation) (content : str) (reserved_tokens : Z) : Result LoreEntry :=
  let value := mkEntry id source priority order enabled activation content reserved_tokens in
  _ ← entry_validate value;
  mret value.

Definition set_enabled (self : LoreEntry) (enabled : bool) : LoreEntry :=
  mkEntry (id self) (source self) (priority self) (order self) enabled (activation self)
    (content self) (reserved_tokens self).

(** ** The catalog *)

Record LorebookCatalog : Type := mkCatalog { revision : Z; entries : list LoreEntry }.

Definition condition_bytes (c : MatchCondition) : Z :=
  match c with
  | Literal value _ => len value
  | Regex pattern required_literal _ => len pattern + len required_literal
  end.

Definition catalog_too_large : LorebookError := PayloadTooLarge "catalog" MAX_CATALOG_BYTES.

(** [bytes = bytes.checked_add(n).ok_or_else(too_large)?] *)
Definition add_bytes (bytes n : Z) : Result Z :=
  ok_or (checked_add USIZE_MAX bytes n) catalog_too_large.

(** One entry of the validation loop: the ids seen and the bytes counted. *)
Definition validate_entry_step (acc : list str * Z) (entry : LoreEntry) : Result (list str * Z) :=
  let '(ids, bytes) := acc in
  _ ← entry_validate entry;
  _ ← ensure (negb (existsb (str_eqb (id entry)) ids)) DuplicateEntryId;
  bytes ← add_bytes bytes (len (id entry));
  bytes ← add_bytes bytes (len (content entry));
  bytes ← foldM_result (fun b c => add_bytes b (condition_bytes c)) bytes
    match activation_conditions (activation entry) with
    | Some conditions => condition_iter conditions
    | None => []
    end;
  _ ← ensure (negb (bytes >? MAX_CATALOG_BYTES)) catalog_too_large;
  mret (id entry :: ids, bytes).

Definition catalog_validate (self : LorebookCatalog) : Result unit :=
  if revision self =? 0 then Err (InvalidField "catalog.revision" "must be at least one")
  else if len (entries self) >? MAX_CATALOG_ENTRIES
  then Err (TooManyItems "catalog.entries" MAX_CATALOG_ENTRIES)
  else _ ← foldM_result validate_entry_step ([], 0) (entries self); mret tt.

Definition LorebookCatalog_new (revision : Z) (entries : list LoreEntry) : Result LorebookCatalog :=
  let value := mkCatalog revision entries in
  _ ← catalog_validate value;
  mret value.

(** Catalogs compare structurally, as the derived [Eq] does. *)
#[export] Instance EntrySource_eq_dec : EqDecision EntrySource.
Proof. solve_decision. Defined.
#[export] Instance MatchCondition_eq_dec : EqDecision MatchCondition.
Proof. solve_decision. Defined.
#[export] Instance SecondaryConditions_eq_dec : EqDecision SecondaryConditions.
Proof. solve_decision. Defined.
#[export] Instance MatchConditions_eq_dec : EqDecision MatchConditions.
Proof. solve_decision. Defined.
#[export] Instance Activation_eq_dec : EqDecision Activation.
Proof. solve_decision. Defined.
#[export] Instance LoreEntry_eq_dec : EqDecision LoreEntry.
Proof. solve_decision. Defined.
#[export] Instance LorebookCatalog_eq_dec : EqDecision LorebookCatalog.
Proof. solve_decision. Defined.

(** ** The conversation and the request *)

Inductive MessageState : Type := Complete | Partial | Failed.

Record ChatTurn : Type := mkTurn {
  turn_revision : Z;
  turn_state : MessageState;
  turn_content : str;
}.

Inductive SummarySnapshot : Type :=
  | Missing
  | Corrupt (revision : Z)
  | Available (revision : Z) (content : str).

Record ConversationSnapshot : Type := mkConversation {
  chat_revision : Z;
  branch_revision : Z;
  total_turns : Z;
  recent_turns : list ChatTurn;
  summary : SummarySnapshot;
}.

Inductive PartialMessagePolicy : Type := Exclude | Include.

#[export] Instance PartialMessagePolicy_eq_dec : EqDecision PartialMessagePolicy.
Proof. solve_decision. Defined.

Record SelectionSettings : Type := mkSettings {
  search_depth : Z;
  partial_messages : PartialMessagePolicy;
  max_output_tokens : Z;
  max_output_bytes : Z;
  max_literal_match_events : Z;
  max_regex_evaluations : Z;
  max_regex_scan_bytes : Z;
  max_regex_matches : Z;
  tokenizer_id : str;
  tokenizer_revision : str;
  separator : str;
}.

Definition settings_validate (self : SelectionSettings) : Result unit :=
  if search_depth self >? MAX_RECENT_TURNS then Err (TooManyItems "searchDepth" MAX_RECENT_TURNS)
  else if max_output_tokens self >? MAX_OUTPUT_TOKENS
  then Err (InvalidField "maxOutputTokens" "exceeds the product ceiling")
  else if max_output_bytes self >? MAX_OUTPUT_BYTES
  then Err (PayloadTooLarge "output" MAX_OUTPUT_BYTES)
  else if max_literal_match_events self >? MAX_LITERAL_MATCH_EVENTS
  then Err (TooManyItems "literalMatchEvents" MAX_LITERAL_MATCH_EVENTS)
  else if max_regex_evaluations self >? MAX_REGEX_EVALUATIONS
  then Err (TooManyItems "regexEvaluations" MAX_REGEX_EVALUATIONS)
  else if max_regex_scan_bytes self >? MAX_REGEX_SCAN_BYTES
  then Err (PayloadTooLarge "regexScan" MAX_REGEX_SCAN_BYTES)
  else if max_regex_matches self >? MAX_REGEX_MATCHES
  then Err (TooManyItems "regexMatches" MAX_REGEX_MATCHES)
  else if is_empty (tokenizer_id self) || (len (tokenizer_id self) >? MAX_TOKENIZER_ID_BYTES)
  then Err (InvalidField "tokenizerId" "must be a bounded non-empty identifier")
  else if is_empty (tokenizer_revision self)
          || (len (tokenizer_revision self) >? MAX_TOKENIZER_REVISION_BYTES)
  then Err (InvalidField "tokenizerRevision" "must be a bounded non-empty identifier")
  else if len (separator self) >? MAX_KEY_BYTES
  then Err (PayloadTooLarge "separator" MAX_KEY_BYTES)
  else Ok tt.

Record SelectionRequest : Type := mkRequest {
  conversation : ConversationSnapshot;
  settings : SelectionSettings;
  seed : Z;
}.

Definition search_input_too_large : LorebookError :=
  PayloadTooLarge "searchInput" MAX_SEARCH_INPUT_BYTES.

Definition count_turn (bytes : Z) (turn : ChatTurn) : Result Z :=
  if len (turn_content turn) >? MAX_TURN_BYTES
  then Err (PayloadTooLarge "turn.content" MAX_TURN_BYTES)
  else ok_or (checked_add USIZE_MAX bytes (len (turn_content turn))) search_input_too_large.

(** The conversion of the tail length to [u64] cannot fail: a [usize] is a [u64]. *)
Definition request_validate (self : SelectionRequest) : Result unit :=
  _ ← settings_validate (settings self);
  let recent := recent_turns (conversation self) in
  if len recent >? MAX_RECENT_TURNS then Err (TooManyItems "recentTurns" MAX_RECENT_TURNS)
  else if len recent >? total_turns (conversation self)
  then Err (InvalidField "totalTurns" "cannot be smaller than the supplied recent tail")
  else
    bytes ← foldM_result count_turn 0 recent;
    bytes ←
      match summary (conversation self) with
      | Available _ content =>
          if len content >? MAX_TURN_BYTES
          then Err (PayloadTooLarge "summary.content" MAX_TURN_BYTES)
          else ok_or (checked_add USIZE_MAX bytes (len content)) search_input_too_large
      | _ => Ok bytes
      end;
    if bytes >? MAX_SEARCH_INPUT_BYTES then Err search_input_too_large else Ok tt.

(** * Lorebook: what validation guarantees

    [catalog_validate] accepts exactly the catalogs with a revision, a bounded
    number of valid entries with distinct identifiers, and a bounded total size;
    the running counters of the code never overflow on the way. *)

Definition entry_condition_list (entry : LoreEntry) : list MatchCondition :=
  match activation_conditions (activation entry) with
  | Some conditions => condition_iter conditions
  | None => []
  end.

(** What one entry adds to the size of its catalog, and the size of a catalog. *)
Definition entry_bytes (entry : LoreEntry) : Z :=
  len (id entry) + len (content entry) +
  foldr (fun c n => condition_bytes c + n) 0 (entry_condition_list entry).

Definition catalog_bytes (entries : list LoreEntry) : Z :=
  foldr (fun e n => entry_bytes e + n) 0 entries.

(** The documented contract of [LorebookCatalog::validate]. *)
Record catalog_ok (c : LorebookCatalog) : Prop := {
  cat_revision : revision c <> 0;
  cat_count : len (entries c) <= MAX_CATALOG_ENTRIES;
  cat_entries : Forall (fun e => entry_validate e = Ok tt) (entries c);
  cat_ids : NoDup (map id (entries c));
  cat_size : catalog_bytes (entries c) <= MAX_CATALOG_BYTES;
}.

Lemma condition_bytes_nonneg c : 0 <= condition_bytes c.
Proof. destruct c; cbn; len_lia. Qed.

Lemma conditions_bytes_nonneg cs : 0 <= foldr (fun c n => condition_bytes c + n) 0 cs.
Proof. induction cs as [|c cs IH]; cbn [foldr]; [lia|]. pose proof (condition_bytes_nonneg c). lia. Qed.

Lemma entry_bytes_nonneg e : 0 <= entry_bytes e.
Proof.
  unfold entry_bytes. pose proof (conditions_bytes_nonneg (entry_condition_list e)). len_lia.
Qed.

Lemma catalog_bytes_nonneg es : 0 <= catalog_bytes es.
Proof.
  induction es as [|e es IH]; [done|]. cbn [catalog_bytes foldr].
  pose proof (entry_bytes_nonneg e). unfold catalog_bytes in IH. lia.
Qed.

Lemma add_bytes_case b n :
  add_bytes b n = if b + n <=? USIZE_MAX then Ok (b + n) else Err catalog_too_large.
Proof. unfold add_bytes, checked_add. by destruct (_ <=? _). Qed.

(** Counting stops at an overflow and otherwise adds. *)
Lemma add_bytes_fold b cs :
  foldM_result (fun b c => add_bytes b (condition_bytes c)) b cs =
  let total := b + foldr (fun c n => condition_bytes c + n) 0 cs in
  if (total <=? USIZE_MAX) || is_empty cs then Ok total else Err catalog_too_large.
Proof.
  revert b. induction cs as [|c cs IH]; intros b; cbn [foldM_result foldr].
  { cbn. rewrite orb_true_r. f_equal. lia. }
  rewrite add_bytes_case. pose proof (condition_bytes_nonneg c).
  pose proof (conditions_bytes_nonneg cs). cbn [is_empty]. rewrite orb_false_r.
  destruct (b + condition_bytes c <=? USIZE_MAX) eqn:Hb; zify_bool.
  - cbn [ok_or mbind result_bind]. rewrite IH. cbn zeta. rewrite Z.add_assoc.
    destruct cs as [|c' cs']; [|by rewrite orb_false_r].
    cbn [is_empty foldr]. rewrite orb_true_r. rewrite Z.add_0_r.
    destruct (Z.leb_spec (b + condition_bytes c) USIZE_MAX); [done|lia].
  - cbn [ok_or mbind result_bind].
    destruct (Z.leb_spec (b + (condition_bytes c + foldr (fun c n => condition_bytes c + n) 0 cs)) USIZE_MAX);
      [lia|done].
Qed.

(** One accepted entry: it is valid, new, and fits. *)
Lemma validate_entry_step_ok ids b e r :
  0 <= b ->
  validate_entry_step (ids, b) e = Ok r <->
  entry_validate e = Ok tt /\ id e ∉ ids /\ b + entry_bytes e <= MAX_CATALOG_BYTES /\
  r = (id e :: ids, b + entry_bytes e).
Proof.
  intros Hb. cbn [validate_entry_step].
  destruct (entry_validate e) as [[]|] eqn:He; cbn [mbind result_bind]; [|by split; [|intros [? _]]].
  assert (Hin : existsb (str_eqb (id e)) ids = true <-> id e ∈ ids).
  { rewrite existsb_exists. setoid_rewrite str_eqb_eq. rewrite list_elem_of_In. naive_solver. }
  destruct (existsb (str_eqb (id e)) ids); cbn [negb ensure].
  { split; [done|]. intros (_ & Hn & _). exfalso. apply Hn. by apply Hin. }
  assert (Hni : id e ∉ ids) by (intros Hx%Hin; done). clear Hin.
  pose proof (conditions_bytes_nonneg (entry_condition_list e)).
  pose proof (len_nonneg (id e)). pose proof (len_nonneg (content e)).
  change (match activation_conditions (activation e) with
          | Some conditions => condition_iter conditions | None => [] end)
    with (entry_condition_list e).
  assert (HU : MAX_CATALOG_BYTES <= USIZE_MAX) by done.
  rewrite add_bytes_case.
  destruct (b + len (id e) <=? USIZE_MAX) eqn:Hid; zify_bool; cbn [ok_or mbind result_bind].
  2:{ split; [done|]. intros (_ & _ & Hle & _). unfold entry_bytes in Hle. lia. }
  rewrite add_bytes_case.
  destruct (b + len (id e) + len (content e) <=? USIZE_MAX) eqn:Hco; zify_bool;
    cbn [ok_or mbind result_bind].
  2:{ split; [done|]. intros (_ & _ & Hle & _). unfold entry_bytes in Hle. lia. }
  rewrite add_bytes_fold. cbn zeta.
  replace (b + len (id e) + len (content e) + foldr (fun c n => condition_bytes c + n) 0
    (entry_condition_list e)) with (b + entry_bytes e) by (unfold entry_bytes; lia).
  destruct ((b + entry_bytes e <=? USIZE_MAX) || is_empty (entry_condition_list e)) eqn:Hcs;
    cbn [mbind result_bind].
  - destruct (b + entry_bytes e >? MAX_CATALOG_BYTES) eqn:Hmax; zify_bool; cbn [negb ensure mbind result_bind].
    + split; [done|]. intros (_ & _ & ? & _). lia.
    + split; [by intros [= <-]|]. by intros (_ & _ & _ & ->).
  - split; [done|]. intros (_ & _ & ? & _). apply orb_false_iff in Hcs as [Hcs%Z.leb_gt _]. lia.
Qed.

Lemma validate_fold_ok es ids b r :
  0 <= b ->
  foldM_result validate_entry_step (ids, b) es = Ok r <->
  Forall (fun e => entry_validate e = Ok tt) es /\ NoDup (map id es) /\
  (forall e, e ∈ es -> id e ∉ ids) /\
  (es <> [] -> b + catalog_bytes es <= MAX_CATALOG_BYTES) /\
  r = (rev (map id es) ++ ids, b + catalog_bytes es).
Proof.
  revert ids b r. induction es as [|e es IH]; intros ids b r Hb; cbn [foldM_result].
  { cbn. rewrite Z.add_0_r. split; [intros [= <-]|naive_solver].
    split_and!; try done; [constructor|]. by intros ? ?%not_elem_of_nil. }
  pose proof (entry_bytes_nonneg e). pose proof (catalog_bytes_nonneg es).
  assert (Hcat : catalog_bytes (e :: es) = entry_bytes e + catalog_bytes es) by done.
  rewrite Hcat. cbn [map rev]. rewrite <- app_assoc. cbn [app]. split.
  - intros (r1 & (He & Hni & Hle & ->)%validate_entry_step_ok & Hf)%bind_Ok; [|done].
    apply IH in Hf as (Hall & Hnd & Hdis & Hsz & ->); [|lia]. split_and!.
    + by constructor.
    + constructor; [|done]. intros (e' & Hid & He')%list_elem_of_fmap.
      specialize (Hdis e' He'). rewrite <- Hid in Hdis. apply Hdis. left.
    + intros e' [->|He']%elem_of_cons; [done|]. specialize (Hdis e' He'). set_solver.
    + intros _. destruct es as [|e' es]; [cbn in *; lia|]. specialize (Hsz ltac:(done)). lia.
    + f_equal. lia.
  - intros (Hall & Hnd & Hdis & Hsz & ->). inversion Hall as [|? ? He Hes]; subst.
    inversion Hnd as [|? ? Hne Hnd']; subst. specialize (Hsz ltac:(done)).
    rewrite (proj2 (validate_entry_step_ok ids b e (id e :: ids, b + entry_bytes e) Hb)).
    2:{ split_and!; try done; [apply Hdis; left|lia]. }
    cbn [mbind result_bind]. apply IH; [lia|]. split_and!; try done.
    + intros e' He' [Heq|Hin]%elem_of_cons; [|by eapply Hdis; [right|]].
      apply Hne. apply list_elem_of_fmap. eauto.
    + intros _. lia.
    + f_equal. lia.
Qed.

Lemma catalog_validate_ok c : catalog_validate c = Ok tt <-> catalog_ok c.
Proof.
  unfold catalog_validate. destruct (revision c =? 0) eqn:Hr; zify_bool.
  { split; [done|]. by intros [? _]. }
  destruct (len (entries c) >? MAX_CATALOG_ENTRIES) eqn:Hc; zify_bool.
  { split; [done|]. intros [_ ? _ _ _]. lia. }
  split.
  - intros (r & Hf & _)%bind_Ok. apply validate_fold_ok in Hf as (? & ? & _ & Hsz & _); [|done].
    split; try done. destruct (entries c); [done|]. by apply Hsz.
  - intros [_ _ Hall Hnd Hsz].
    erewrite (proj2 (validate_fold_ok (entries c) [] 0 _ ltac:(done))); [done|].
    split_and!; try done. intros e _. apply not_elem_of_nil.
Qed.

(** [LorebookCatalog::validate] accepts a catalog exactly when its revision is
    not zero, it has at most [MAX_CATALOG_ENTRIES] entries, each of them valid,
    with pairwise different identifiers, and the sizes of identifiers, contents and
    condition texts sum to at most [MAX_CATALOG_BYTES]; no intermediate counter
    overflows on an accepted catalog. *)
Theorem catalog_validate_iff (c : LorebookCatalog) :
  catalog_validate c = Ok tt <-> catalog_ok c.
Proof. apply catalog_validate_ok. Qed.
