(* ===== verification/LoreEngine.v ===== *)
(** * Lorebook: compilation, search and the selection cache

    Models [crates/lorepia-lorebook/src/normalize.rs] and [engine.rs]: search
    normalisation, the pattern indexes compiled from the enabled entries, the
    bounded evaluation of activation conditions, the greedy packing of the
    prompt text, and the engine with its cache of selections.

    What the crate takes from other crates is the class [LoreLib]: Unicode
    compatibility normalisation and lowercase mapping, the Aho-Corasick matcher,
    the regex engine, and SHA-256.  [hits[i]] and [entries[i]] are list lookups;
    the proofs of [LoreMatch] show that the indexes the code uses are in range. *)

From S2P Require Import Prelude Bytes Utf8 LoreModel.

Class LoreLib : Type := {
  (** [str::nfkc] of [unicode_normalization]. *)
  nfkc : str -> str;
  (** [char::to_lowercase], a table of the Unicode character database. *)
  char_to_lowercase : Z -> list Z;
  (** [AhoCorasickBuilder::match_kind(Standard).build]: may refuse the patterns. *)
  Matcher : Type;
  ac_build : list str -> option Matcher;
  (** [find_overlapping_iter]: the pattern number of each match, in order. *)
  ac_find : Matcher -> str -> list nat;
  (** [RegexBuilder] with the crate's size limits, and the number of matches of
      [find_iter]. *)
  RegexT : Type;
  regex_build : str -> bool -> option RegexT;
  regex_matches_in : RegexT -> str -> nat;
  (** [Sha256::digest] of the concatenated updates. *)
  sha256 : bytes -> bytes;
}.

(** ** Normalisation (normalize.rs) *)

Section normalize.
Context `{LoreLib}.

(** The loop over characters: the normalised text so far and whether a space
    is pending. *)
Definition collapse_step (acc : list Z * bool) (character : Z) : list Z * bool :=
  let '(normalized, pending_space) := acc in
  if is_whitespace character then (normalized, negb (is_empty normalized))
  else if pending_space then (normalized ++ [32; character], false)
  else (normalized ++ [character], pending_space).

Definition collapse_whitespace (cased : list Z) : list Z :=
  (foldl collapse_step ([], false) cased).1.

Definition normalize_search_text (value : str) (case_sensitive : bool) : str :=
  let compatible := chars (nfkc value) in
  let cased :=
    if case_sensitive then compatible else concat (map char_to_lowercase compatible) in
  utf8_encode (collapse_whitespace cased).
End normalize.

(** ** Compiled catalogs (engine.rs) *)

Record PatternRef : Type := mkRef { folded_ref : bool; pattern_index : nat }.

Record LiteralWork : Type := mkWork { events : Z; max_events : Z }.

Definition literal_limit : LorebookError := SearchLimitExceeded LiteralMatchEvents.

Definition charge : ST LiteralWork LorebookError unit := fun self =>
  match checked_add USIZE_MAX (events self) 1 with
  | None => (self, Err literal_limit)
  | Some n =>
      let self' := mkWork n (max_events self) in
      if n >? max_events self then (self', Err literal_limit) else (self', Ok tt)
  end.

(** [BTreeSet<String>]: the strings in order, without repetition. *)
Fixpoint set_insert (s : str) (set : list str) : list str :=
  match set with
  | [] => [s]
  | t :: set' =>
      match str_cmp s t with
      | Lt => s :: t :: set'
      | Eq => t :: set'
      | Gt => t :: set_insert s set'
      end
  end.

Section engine.
Context `{LoreLib}.

Record PatternIndex : Type := mkIndex {
  matcher : option Matcher;
  patterns : list str;
  candidate_entries : list (list nat);
}.

Definition index_build (patterns : list str) : Result PatternIndex :=
  matcher ←
    (if is_empty patterns then Ok None
     else Some <$> ok_or (ac_build patterns)
            (InvalidField "catalog.conditions" "cannot build search index"));
  mret (mkIndex matcher patterns (map (fun _ => []) patterns)).

(** [binary_search_by] on the ordered patterns: where the pattern is. *)
Fixpoint find_index (pattern : str) (patterns : list str) : option nat :=
  match patterns with
  | [] => None
  | p :: patterns' =>
      match str_cmp p pattern with
      | Eq => Some O
      | _ => S <$> find_index pattern patterns'
      end
  end.

Definition index_lookup (self : PatternIndex) (pattern : str) : Result nat :=
  ok_or (find_index pattern (patterns self))
    (InvalidField "catalog.conditions" "search index is inconsistent").

(** [for found in ... { work.charge()?; hits[found] = true; }] *)
Fixpoint mark_hits (found : list nat) (hits : list bool) : ST LiteralWork LorebookError (list bool) :=
  match found with
  | [] => mret hits
  | i :: found' => _ ← charge; mark_hits found' (<[i := true]> hits)
  end.

Definition index_matches (self : PatternIndex) (haystack : str) :
    ST LiteralWork LorebookError (list bool) :=
  let hits := map (fun _ => false) (patterns self) in
  match matcher self with
  | Some m => mark_hits (ac_find m haystack) hits
  | None => mret hits
  end.

Inductive CompiledCondition : Type :=
  | CLiteral (reference : PatternRef)
  | CRegex (regex : RegexT).

Inductive CompiledSecondary : Type :=
  | CNone
  | CAny (values : list CompiledCondition)
  | CAll (values : list CompiledCondition).

Record CompiledConditions : Type := mkCompiled {
  c_primary : list CompiledCondition;
  c_secondary : CompiledSecondary;
}.

Inductive CompiledActivation : Type :=
  | CConstant
  | CSelective (conditions : CompiledConditions)
  | CProbability (basis_points : Z) (conditions : option CompiledConditions).

Record CompiledEntry : Type := mkCEntry {
  ce_source : LoreEntry;
  ce_activation : CompiledActivation;
}.

Record CompiledCatalog : Type := mkCCatalog {
  c_revision : Z;
  c_generation : Z;
  c_entries : list CompiledEntry;
  c_sensitive : PatternIndex;
  c_folded : PatternIndex;
  c_unconditional : list nat;
}.

(** *** Compiling *)

Definition compile_condition (entry_index : nat) (sensitive folded : PatternIndex)
    (condition : MatchCondition) : Result CompiledCondition :=
  match condition with
  | Literal value case_sensitive =>
      let normalized := normalize_search_text value case_sensitive in
      index ← index_lookup (if case_sensitive then sensitive else folded) normalized;
      mret (CLiteral (mkRef (negb case_sensitive) index))
  | Regex pattern _ case_insensitive =>
      regex ← ok_or (regex_build pattern case_insensitive) (InvalidRegex entry_index);
      mret (CRegex regex)
  end.

Definition compile_conditions (entry_index : nat) (sensitive folded : PatternIndex)
    (conditions : MatchConditions) : Result CompiledConditions :=
  let compile_many := mapM_result (compile_condition entry_index sensitive folded) in
  primary ← compile_many (primary conditions);
  secondary ←
    match secondary conditions with
    | SecNone => Ok CNone
    | SecAny values => CAny <$> compile_many values
    | SecAll values => CAll <$> compile_many values
    end;
  mret (mkCompiled primary secondary).

Definition compile_activation (entry_index : nat) (sensitive folded : PatternIndex)
    (activation : Activation) : Result CompiledActivation :=
  match activation with
  | Constant => Ok CConstant
  | Selective conditions =>
      CSelective <$> compile_conditions entry_index sensitive folded conditions
  | Probability basis_points conditions =>
      conditions ←
        match conditions with
        | Some value => Some <$> compile_conditions entry_index sensitive folded value
        | None => Ok None
        end;
      mret (CProbability basis_points conditions)
  end.

Definition compiled_secondary_values (s : CompiledSecondary) : list CompiledCondition :=
  match s with CNone => [] | CAny values | CAll values => values end.

Definition compiled_condition_iter (c : CompiledConditions) : list CompiledCondition :=
  c_primary c ++ compiled_secondary_values (c_secondary c).

(** The conditions of a compiled activation, none where the code returns early. *)
Definition compiled_conditions_of (a : CompiledActivation) : list CompiledCondition :=
  match a with
  | CConstant => []
  | CSelective conditions => compiled_condition_iter conditions
  | CProbability _ (Some conditions) => compiled_condition_iter conditions
  | CProbability _ None => []
  end.

Definition is_regex (c : CompiledCondition) : bool :=
  match c with CRegex _ => true | CLiteral _ => false end.

Definition compiled_activation_contains_regex (a : CompiledActivation) : bool :=
  existsb is_regex (compiled_conditions_of a).

(** [if index.last() != Some(&entry_index) { index.push(entry_index) }] *)
Definition push_candidate (entry_index : nat) (index : list nat) : list nat :=
  if bool_decide (list.last index = Some entry_index) then index else index ++ [entry_index].

Definition add_candidate_entry (entry_index i : nat) (self : PatternIndex) : PatternIndex :=
  mkIndex (matcher self) (patterns self)
    (alter (push_candidate entry_index) i (candidate_entries self)).

(** The two indexes after registering one condition of an entry. *)
Definition register_condition (entry_index : nat) (indexes : PatternIndex * PatternIndex)
    (condition : CompiledCondition) : PatternIndex * PatternIndex :=
  let '(sensitive, folded) := indexes in
  match condition with
  | CRegex _ => (sensitive, folded)
  | CLiteral reference =>
      if folded_ref reference
      then (sensitive, add_candidate_entry entry_index (pattern_index reference) folded)
      else (add_candidate_entry entry_index (pattern_index reference) sensitive, folded)
  end.

Definition register_activation_candidates (entry_index : nat) (activation : CompiledActivation)
    (indexes : PatternIndex * PatternIndex) : PatternIndex * PatternIndex :=
  foldl (register_condition entry_index) indexes (compiled_conditions_of activation).

(** [Constant] or [Probability] without conditions. *)
Definition is_unconditional (a : CompiledActivation) : bool :=
  match a with CConstant | CProbability _ None => true | _ => false end.

(** *** First pass: patterns to index, and the regex budget *)

Record PatternScan : Type := mkScan {
  sc_sensitive : list str;
  sc_folded : list str;
  sc_regex_conditions : Z;
  sc_regex_bytes : Z;
}.

Definition too_many_regex : LorebookError :=
  TooManyItems "activeRegexConditions" MAX_ACTIVE_REGEX_CONDITIONS.
Definition too_large_regex : LorebookError :=
  PayloadTooLarge "activeRegexPatterns" MAX_ACTIVE_REGEX_PATTERN_BYTES.

Definition scan_condition (acc : PatternScan) (condition : MatchCondition) : Result PatternScan :=
  match condition with
  | Literal value case_sensitive =>
      let normalized := normalize_search_text value case_sensitive in
      if is_empty normalized
      then Err (InvalidField "entry.condition.key" "normalization cannot produce an empty key")
      else if case_sensitive
      then Ok (mkScan (set_insert normalized (sc_sensitive acc)) (sc_folded acc)
                 (sc_regex_conditions acc) (sc_regex_bytes acc))
      else Ok (mkScan (sc_sensitive acc) (set_insert normalized (sc_folded acc))
                 (sc_regex_conditions acc) (sc_regex_bytes acc))
  | Regex pattern _ _ =>
      conditions ← ok_or (checked_add USIZE_MAX (sc_regex_conditions acc) 1) too_many_regex;
      size ← ok_or (checked_add USIZE_MAX (sc_regex_bytes acc) (len pattern)) too_large_regex;
      mret (mkScan (sc_sensitive acc) (sc_folded acc) conditions size)
  end.

Definition entry_conditions (entry : LoreEntry) : list MatchCondition :=
  match activation_conditions (activation entry) with
  | Some conditions => condition_iter conditions
  | None => []
  end.

Definition scan_entry (acc : PatternScan) (entry : LoreEntry) : Result PatternScan :=
  foldM_result scan_condition acc (entry_conditions entry).

(** *** Second pass: entries, with their candidates *)

Record CompileState : Type := mkCompileState {
  cs_entries : list CompiledEntry;
  cs_sensitive : PatternIndex;
  cs_folded : PatternIndex;
  cs_unconditional : list nat;
}.

Definition compile_entry (st : CompileState) (entry : LoreEntry) : Result CompileState :=
  let entry_index := length (cs_entries st) in
  activation ← compile_activation entry_index (cs_sensitive st) (cs_folded st) (activation entry);
  let unconditional :=
    if is_unconditional activation || compiled_activation_contains_regex activation
    then cs_unconditional st ++ [entry_index] else cs_unconditional st in
  let '(sensitive, folded) :=
    register_activation_candidates entry_index activation (cs_sensitive st, cs_folded st) in
  mret (mkCompileState (cs_entries st ++ [mkCEntry entry activation]) sensitive folded
          unconditional).

Definition compile_catalog (catalog : LorebookCatalog) (generation : Z) : Result CompiledCatalog :=
  _ ← catalog_validate catalog;
  let active := List.filter enabled (entries catalog) in
  scan ← foldM_result scan_entry (mkScan [] [] 0 0) active;
  _ ← ensure (negb (sc_regex_conditions scan >? MAX_ACTIVE_REGEX_CONDITIONS)) too_many_regex;
  _ ← ensure (negb (sc_regex_bytes scan >? MAX_ACTIVE_REGEX_PATTERN_BYTES)) too_large_regex;
  sensitive ← index_build (sc_sensitive scan);
  folded ← index_build (sc_folded scan);
  st ← foldM_result compile_entry (mkCompileState [] sensitive folded []) active;
  mret (mkCCatalog (revision catalog) generation (cs_entries st) (cs_sensitive st)
          (cs_folded st) (cs_unconditional st)).

(** *** Bounded evaluation of conditions *)

Record EvaluationLimits : Type := mkEval {
  ev_max_evaluations : Z;
  ev_max_scan_bytes : Z;
  ev_max_matches : Z;
  ev_evaluations : Z;
  ev_scan_bytes : Z;
  ev_matches : Z;
}.

Definition EvaluationLimits_new (request : SelectionRequest) : EvaluationLimits :=
  let s := settings request in
  mkEval (max_regex_evaluations s) (max_regex_scan_bytes s) (max_regex_matches s) 0 0 0.

Definition charge_evaluation : ST EvaluationLimits LorebookError unit := fun self =>
  match checked_add USIZE_MAX (ev_evaluations self) 1 with
  | None => (self, Err (SearchLimitExceeded RegexEvaluations))
  | Some n =>
      let self' := mkEval (ev_max_evaluations self) (ev_max_scan_bytes self)
        (ev_max_matches self) n (ev_scan_bytes self) (ev_matches self) in
      (self', ensure (negb (n >? ev_max_evaluations self)) (SearchLimitExceeded RegexEvaluations))
  end.

Definition charge_scan (bytes : Z) : ST EvaluationLimits LorebookError unit := fun self =>
  match checked_add USIZE_MAX (ev_scan_bytes self) bytes with
  | None => (self, Err (SearchLimitExceeded RegexScanBytes))
  | Some n =>
      let self' := mkEval (ev_max_evaluations self) (ev_max_scan_bytes self)
        (ev_max_matches self) (ev_evaluations self) n (ev_matches self) in
      (self', ensure (negb (n >? ev_max_scan_bytes self)) (SearchLimitExceeded RegexScanBytes))
  end.

Definition charge_match : ST EvaluationLimits LorebookError unit := fun self =>
  match checked_add USIZE_MAX (ev_matches self) 1 with
  | None => (self, Err (SearchLimitExceeded RegexMatches))
  | Some n =>
      let self' := mkEval (ev_max_evaluations self) (ev_max_scan_bytes self)
        (ev_max_matches self) (ev_evaluations self) (ev_scan_bytes self) n in
      (self', ensure (negb (n >? ev_max_matches self)) (SearchLimitExceeded RegexMatches))
  end.

(** [for _ in regex.find_iter(input) { matched = true; charge }] over the number
    of matches. *)
Fixpoint charge_matches (n : nat) (matched : bool) : ST EvaluationLimits LorebookError bool :=
  match n with
  | O => mret matched
  | S n' => _ ← charge_match; charge_matches n' true
  end.

Definition evaluate (regex : RegexT) (input : str) : ST EvaluationLimits LorebookError bool :=
  _ ← charge_evaluation;
  _ ← charge_scan (len input);
  charge_matches (regex_matches_in regex input) false.

Record PatternHits : Type := mkHits { h_sensitive : list bool; h_folded : list bool }.

Definition hits_contains (self : PatternHits) (reference : PatternRef) : bool :=
  default false
    ((if folded_ref reference then h_folded self else h_sensitive self)
       !! pattern_index reference).

Definition condition_matches (hits : PatternHits) (regex_input : str) (c : CompiledCondition) :
    ST EvaluationLimits LorebookError bool :=
  match c with
  | CLiteral reference => mret (hits_contains hits reference)
  | CRegex regex => evaluate regex regex_input
  end.

Fixpoint any_matches (hits : PatternHits) (regex_input : str) (cs : list CompiledCondition) :
    ST EvaluationLimits LorebookError bool :=
  match cs with
  | [] => mret false
  | c :: cs' =>
      b ← condition_matches hits regex_input c;
      if b : bool then mret true else any_matches hits regex_input cs'
  end.

Fixpoint all_matches (hits : PatternHits) (regex_input : str) (cs : list CompiledCondition) :
    ST EvaluationLimits LorebookError bool :=
  match cs with
  | [] => mret true
  | c :: cs' =>
      b ← condition_matches hits regex_input c;
      if b : bool then all_matches hits regex_input cs' else mret false
  end.

Definition conditions_match (hits : PatternHits) (regex_input : str) (c : CompiledConditions) :
    ST EvaluationLimits LorebookError bool :=
  b ← any_matches hits regex_input (c_primary c);
  if b : bool then
    match c_secondary c with
    | CNone => mret true
    | CAny values => any_matches hits regex_input values
    | CAll values => all_matches hits regex_input values
    end
  else mret false.

(** *** Probability *)

Definition RANDOM_DOMAIN : bytes := lit "lorepia-lorebook-probability-v1".

Definition digest_u64 (value : Z) : bytes := u64_to_le_bytes value.
Definition digest_text (value : str) : bytes := digest_u64 (len value) ++ value.

Definition probability_bucket (seed : Z) (entry_id : str) : Z :=
  let value := from_le_bytes (take 8 (sha256 (RANDOM_DOMAIN ++ digest_u64 seed ++
                                              digest_text entry_id))) in
  Z.shiftr (value * 10000) 64 mod 2 ^ 16.

Definition probability_admits (seed : Z) (entry_id : str) (basis_points : Z) : bool :=
  if basis_points =? 0 then false
  else if basis_points =? 10000 then true
  else probability_bucket seed entry_id <? basis_points.

Definition activation_matches (entry : LoreEntry) (hits : PatternHits) (regex_input : str)
    (seed : Z) (a : CompiledActivation) : ST EvaluationLimits LorebookError bool :=
  match a with
  | CConstant => mret true
  | CSelective conditions => conditions_match hits regex_input conditions
  | CProbability basis_points conditions =>
      b ← match conditions with
          | Some conditions => conditions_match hits regex_input conditions
          | None => mret true
          end;
      if b : bool then mret (probability_admits seed (id entry) basis_points) else mret false
  end.

End engine.

(** * Lorebook: whitespace normalisation

    The loop of [normalize_search_text] that collapses whitespace keeps the
    words of the text, the maximal runs without whitespace, joined by one space. *)

(** ** Words *)

(** The non-empty segments between whitespace characters. *)
Definition words (cs : list Z) : list (list Z) :=
  let '(closed, open) := segments is_whitespace cs in
  List.filter (fun w => negb (is_empty w)) (closed ++ [open]).

Fixpoint unwords (ws : list (list Z)) : list Z :=
  match ws with
  | [] => []
  | [w] => w
  | w :: rest => w ++ 32 :: unwords rest
  end.

Definition word (w : list Z) : Prop := w <> [] /\ Forall (fun c => is_whitespace c = false) w.

Lemma unwords_snoc ws w : unwords (ws ++ [w]) = unwords ws ++ (if is_empty ws then [] else [32]) ++ w.
Proof.
  induction ws as [|v ws IH]; [done|]. destruct ws as [|u ws]; [done|].
  cbn [app unwords] in *. rewrite IH. cbn [is_empty]. by rewrite <- !app_assoc.
Qed.

Lemma unwords_empty ws : Forall word ws -> is_empty (unwords ws) = is_empty ws.
Proof.
  destruct 1 as [|w ws [Hne _] _]; [done|]. destruct w; [done|]. by destruct ws.
Qed.

Lemma filter_words l :
  Forall (Forall (fun c => is_whitespace c = false)) l ->
  Forall word (List.filter (fun w => negb (is_empty w)) l).
Proof.
  induction 1 as [|w l Hw Hl IH]; cbn [List.filter]; [constructor|].
  destruct w as [|c w]; cbn [is_empty negb]; [done|]. by constructor.
Qed.

Lemma segments_plain cs :
  Forall (Forall (fun c => is_whitespace c = false)) (segments is_whitespace cs).1 /\
  Forall (fun c => is_whitespace c = false) (segments is_whitespace cs).2.
Proof.
  induction cs as [|c cs [IH1 IH2]]; cbn [segments]; [split; constructor|].
  destruct (segments is_whitespace cs) as [closed open]. cbn [fst snd] in *.
  destruct (is_whitespace c) eqn:Hc; cbn [fst snd]; [by repeat constructor|].
  destruct IH1; cbn [fst snd]; repeat constructor; done.
Qed.

Lemma words_word cs : Forall word (words cs).
Proof.
  unfold words. pose proof (segments_plain cs) as [H1 H2].
  destruct (segments is_whitespace cs). apply filter_words, Forall_app. by repeat constructor.
Qed.

(** ** The loop *)

(** After a prefix: its words joined, and a space pending when it ends in
    whitespace after some word. *)
Lemma collapse_prefix cs :
  foldl collapse_step ([], false) cs =
  (unwords (words cs),
   is_empty (segments is_whitespace cs).2 && negb (is_empty (unwords (words cs)))).
Proof.
  induction cs as [|c cs IH] using rev_ind; [done|].
  rewrite foldl_app. cbn [foldl]. rewrite IH. unfold collapse_step.
  pose proof (words_word cs) as Hw. revert Hw. unfold words. rewrite segments_snoc.
  destruct (segments is_whitespace cs) as [closed open]. cbn [fst snd].
  rewrite filter_app. set (ws := List.filter _ closed). intros Hw.
  destruct (is_whitespace c) eqn:Hc.
  { cbn [fst snd]. rewrite !filter_app. fold ws.
    destruct open as [|o open]; cbn [List.filter is_empty negb andb]; by rewrite ?app_nil_r. }
  cbn [fst snd]. rewrite filter_app. fold ws.
  cbn [List.filter]. replace (is_empty (open ++ [c])) with false by (by destruct open).
  cbn [negb]. fold ws. destruct open as [|o open]; cbn [List.filter is_empty negb app andb].
  - cbn [List.filter is_empty negb] in Hw. rewrite app_nil_r in *.
    rewrite unwords_empty, unwords_snoc by done.
    destruct (is_empty ws); cbn [negb app]; done.
  - rewrite !unwords_snoc. by rewrite <- !app_assoc.
Qed.

Lemma collapse_words cs : collapse_whitespace cs = unwords (words cs).
Proof. unfold collapse_whitespace. by rewrite collapse_prefix. Qed.

Lemma words_unwords ws : Forall word ws -> words (unwords ws) = ws.
Proof.
  assert (Hplain : forall w, word w ->
            forallb (fun x => negb (is_whitespace x)) w = true).
  { intros w [_ Hw]. apply forallb_forall. intros x Hx. rewrite Forall_forall in Hw.
    by rewrite Hw. }
  assert (Hne : forall w, word w -> negb (is_empty w) = true) by (by intros [] [? _]).
  induction 1 as [|w ws Hw Hws IH]; [done|]. destruct ws as [|v ws].
  - unfold words. cbn [unwords]. rewrite segments_open by auto. cbn [app List.filter].
    by rewrite Hne.
  - change (unwords (w :: v :: ws)) with (w ++ 32 :: unwords (v :: ws)).
    unfold words. rewrite segments_cons by auto. cbn [app List.filter]. rewrite Hne by done.
    f_equal. unfold words in IH. by destruct (segments is_whitespace (unwords (v :: ws))).
Qed.

(** Collapsing whitespace keeps the words of the text, in order, joined by a
    single ASCII space, with nothing before the first or after the last; doing it
    again changes nothing. *)
Theorem collapse_whitespace_words (cs : list Z) :
  collapse_whitespace cs = unwords (words cs) /\
  Forall word (words cs) /\
  collapse_whitespace (collapse_whitespace cs) = collapse_whitespace cs.
Proof.
  rewrite !collapse_words, words_unwords by apply words_word. auto using words_word.
Qed.
