(* ===== verification/LoreSelect.v ===== *)
(** * Lorebook: search input, selection and the cached engine

    Models the second half of [crates/lorepia-lorebook/src/engine.rs]: the slice
    of the conversation that is searched, the cache key, the uncached selection
    (candidates, bounded matching, ordering, packing) and [LorebookEngine] with its
    cache of selections.

    [cache: Mutex<BTreeMap<CacheKey, Selection>>] is a list of pairs ordered by
    key.  [select] takes the lock twice, once to look the key up and once to store
    the answer, so it is the composition of [select_lookup], [select_uncached] and
    [select_store]; the interleavings of several callers are the steps of
    [LoreCache].  [sort_unstable_by] is an insertion sort: the entries of a valid
    catalog are never equal under [compare_entries], so every sort gives this
    result (proved at the end of the file). *)

From S2P Require Import Prelude Sorting Bytes Utf8 LoreModel LoreEngine.

(** ** Ordering *)

Definition compare_entries (left right : LoreEntry) : comparison :=
  then_with (Z.compare (priority right) (priority left))
 (then_with (Z.compare (precedence (source right)) (precedence (source left)))
 (then_with (Z.compare (order left) (order right))
            (str_cmp (id left) (id right)))).

(** ** Candidates *)

Definition add_candidate (entry : nat) (acc : list bool * list nat) : list bool * list nat :=
  let '(seen, candidates) := acc in
  match seen !! entry with
  | Some false => (<[entry := true]> seen, candidates ++ [entry])
  | _ => acc
  end.

Definition add_candidates (acc : list bool * list nat) (found : list nat) :
    list bool * list nat :=
  foldl (fun acc entry => add_candidate entry acc) acc found.

(** ** Receipts and selections *)

Record SelectionReceipt : Type := mkReceipt {
  catalog_revision : Z;
  receipt_chat_revision : Z;
  receipt_branch_revision : Z;
  cache_fingerprint : bytes;
  cache_hit : bool;
  candidate_count : Z;
  matched_count : Z;
  selected_ids : list str;
  selected_tokens : Z;
  selected_bytes : Z;
  literal_match_events : Z;
  regex_evaluations : Z;
  regex_scan_bytes : Z;
  regex_matches : Z;
}.

Record Selection : Type := mkSelection { prompt_text : str; receipt : SelectionReceipt }.

Definition with_cache_hit (self : Selection) : Selection :=
  let r := receipt self in
  mkSelection (prompt_text self)
    (mkReceipt (catalog_revision r) (receipt_chat_revision r) (receipt_branch_revision r)
       (cache_fingerprint r) true (candidate_count r) (matched_count r) (selected_ids r)
       (selected_tokens r) (selected_bytes r) (literal_match_events r) (regex_evaluations r)
       (regex_scan_bytes r) (regex_matches r)).

(** ** Packing the prompt text *)

Record Packed : Type := mkPacked {
  p_text : str;
  p_ids : list str;
  p_tokens : Z;
}.

(** One entry of the packing loop: taken whole, or skipped when it does not fit. *)
Definition pack_entry (s : SelectionSettings) (acc : Packed) (entry : LoreEntry) : Packed :=
  let separator_bytes := if is_empty (p_ids acc) then 0 else len (separator s) in
  let next_bytes :=
    checked_add USIZE_MAX (len (p_text acc)) separator_bytes ≫=
      fun value => checked_add USIZE_MAX value (len (content entry)) in
  let next_tokens := checked_add U32_MAX (p_tokens acc) (reserved_tokens entry) in
  match next_bytes, next_tokens with
  | Some next_bytes, Some next_tokens =>
      if (next_bytes >? max_output_bytes s) || (next_tokens >? max_output_tokens s) then acc
      else mkPacked
             (p_text acc ++ (if is_empty (p_ids acc) then [] else separator s) ++ content entry)
             (p_ids acc ++ [id entry]) next_tokens
  | _, _ => acc
  end.

Definition pack (s : SelectionSettings) (sorted : list LoreEntry) : Packed :=
  foldl (pack_entry s) (mkPacked [] [] 0) sorted.

(** ** The cache *)

Record CacheKey : Type := mkKey {
  k_catalog_revision : Z;
  k_catalog_generation : Z;
  k_chat_revision : Z;
  k_branch_revision : Z;
  k_search_depth : Z;
  k_seed : Z;
  k_tokenizer_fingerprint : bytes;
  k_settings_fingerprint : bytes;
  k_search_slice_fingerprint : bytes;
}.

(** The derived [Ord]: lexicographic in the order of the fields. *)
Definition key_cmp (a b : CacheKey) : comparison :=
  then_with (Z.compare (k_catalog_revision a) (k_catalog_revision b))
 (then_with (Z.compare (k_catalog_generation a) (k_catalog_generation b))
 (then_with (Z.compare (k_chat_revision a) (k_chat_revision b))
 (then_with (Z.compare (k_branch_revision a) (k_branch_revision b))
 (then_with (Z.compare (k_search_depth a) (k_search_depth b))
 (then_with (Z.compare (k_seed a) (k_seed b))
 (then_with (str_cmp (k_tokenizer_fingerprint a) (k_tokenizer_fingerprint b))
 (then_with (str_cmp (k_settings_fingerprint a) (k_settings_fingerprint b))
            (str_cmp (k_search_slice_fingerprint a) (k_search_slice_fingerprint b))))))))).

Definition Cache : Type := list (CacheKey * Selection).

Fixpoint cache_get (key : CacheKey) (cache : Cache) : option Selection :=
  match cache with
  | [] => None
  | (k, v) :: cache' => match key_cmp key k with Eq => Some v | _ => cache_get key cache' end
  end.

Fixpoint cache_insert (key : CacheKey) (value : Selection) (cache : Cache) : Cache :=
  match cache with
  | [] => [(key, value)]
  | (k, v) :: cache' =>
      match key_cmp key k with
      | Lt => (key, value) :: (k, v) :: cache'
      | Eq => (key, value) :: cache'
      | Gt => (k, v) :: cache_insert key value cache'
      end
  end.

Definition MAX_CACHE_ENTRIES : Z := 16.

(** The cache is full: drop [keys().next()], the least key. *)
Definition cache_make_room (cache : Cache) : Cache :=
  if len cache >=? MAX_CACHE_ENTRIES then tail cache else cache.

Definition CACHE_DOMAIN : bytes := lit "lorepia-lorebook-cache-v1".
Definition SEARCH_DOMAIN : bytes := lit "lorepia-lorebook-search-slice-v1".

(** ** The searched slice of the conversation *)

Definition append_segment (target segment : str) : str :=
  target ++ (if is_empty target then [] else [byte_of 10]) ++ segment.

(** The turns searched: the last [search_depth] of the supplied tail. *)
Definition search_tail (request : SelectionRequest) : list ChatTurn :=
  let turns := recent_turns (conversation request) in
  drop (Z.to_nat (saturating_sub (len turns) (search_depth (settings request)))) turns.

Definition turn_included (policy : PartialMessagePolicy) (turn : ChatTurn) : bool :=
  match turn_state turn with
  | Complete => true
  | Partial => bool_decide (policy = Include)
  | Failed => false
  end.

Definition state_byte (s : MessageState) : byte :=
  byte_of (match s with Complete => 0 | Partial => 1 | Failed => 2 end).

(** The raw text and the bytes digested so far, after one turn. *)
Definition search_turn (policy : PartialMessagePolicy) (acc : str * bytes) (turn : ChatTurn) :
    str * bytes :=
  let '(raw, digest) := acc in
  let digest := digest ++ digest_u64 (turn_revision turn) ++ [state_byte (turn_state turn)] in
  if turn_included policy turn
  then (append_segment raw (turn_content turn), digest ++ digest_text (turn_content turn))
  else (raw, digest).

Definition search_summary (s : SummarySnapshot) : str * bytes :=
  match s with
  | Missing => ([], SEARCH_DOMAIN ++ [byte_of 0])
  | Corrupt revision => ([], SEARCH_DOMAIN ++ [byte_of 1] ++ digest_u64 revision)
  | Available revision content =>
      (append_segment [] content,
       SEARCH_DOMAIN ++ [byte_of 2] ++ digest_u64 revision ++ digest_text content)
  end.

(** The raw text searched, and the message its fingerprint hashes. *)
Definition search_slice (request : SelectionRequest) : str * bytes :=
  foldl (search_turn (partial_messages (settings request)))
    (search_summary (summary (conversation request))) (search_tail request).

(** The messages hashed for the other two fingerprints of the key. *)
Definition tokenizer_message (s : SelectionSettings) : bytes :=
  digest_text (tokenizer_id s) ++ digest_text (tokenizer_revision s).

Definition settings_message (s : SelectionSettings) : bytes :=
  digest_u64 (search_depth s) ++
  [byte_of (match partial_messages s with Exclude => 0 | Include => 1 end)] ++
  digest_u64 (max_output_tokens s) ++
  digest_u64 (max_output_bytes s) ++
  digest_u64 (max_literal_match_events s) ++
  digest_u64 (max_regex_evaluations s) ++
  digest_u64 (max_regex_scan_bytes s) ++
  digest_u64 (max_regex_matches s) ++
  digest_text (separator s).

Section engine.
Context `{LoreLib}.

Definition key_fingerprint (self : CacheKey) : bytes :=
  sha256 (CACHE_DOMAIN ++ digest_u64 (k_catalog_revision self) ++
          digest_u64 (k_catalog_generation self) ++ digest_u64 (k_chat_revision self) ++
          digest_u64 (k_branch_revision self) ++ digest_u64 (k_search_depth self) ++
          digest_u64 (k_seed self) ++ k_tokenizer_fingerprint self ++
          k_settings_fingerprint self ++ k_search_slice_fingerprint self).

Record SearchInput : Type := mkSearch {
  si_regex : str;
  si_sensitive : str;
  si_folded : str;
  si_fingerprint : bytes;
}.

Definition SearchInput_build (request : SelectionRequest) : SearchInput :=
  let '(raw, digest) := search_slice request in
  mkSearch raw (normalize_search_text raw true) (normalize_search_text raw false) (sha256 digest).

Definition build_cache_key (catalog : CompiledCatalog) (request : SelectionRequest)
    (search : SearchInput) : CacheKey :=
  mkKey (c_revision catalog) (c_generation catalog)
    (chat_revision (conversation request)) (branch_revision (conversation request))
    (search_depth (settings request)) (seed request)
    (sha256 (tokenizer_message (settings request)))
    (sha256 (settings_message (settings request)))
    (si_fingerprint search).

(** ** Selecting *)

(** [for (pattern_index, hit) in hits { if hit { ... } }], over the entries
    registered for each pattern. *)
Fixpoint add_pattern_candidates (hits : list bool) (registered : list (list nat))
    (acc : list bool * list nat) : list bool * list nat :=
  match hits, registered with
  | hit :: hits', found :: registered' =>
      add_pattern_candidates hits' registered'
        (if hit : bool then add_candidates acc found else acc)
  | _, _ => acc
  end.

Definition collect_candidates (compiled : CompiledCatalog) (hits : PatternHits) : list nat :=
  let acc := (map (fun _ => false) (c_entries compiled), []) in
  let acc := add_candidates acc (c_unconditional compiled) in
  let acc := add_pattern_candidates (h_sensitive hits) (candidate_entries (c_sensitive compiled)) acc in
  let acc := add_pattern_candidates (h_folded hits) (candidate_entries (c_folded compiled)) acc in
  acc.2.

(** The matching loop: the candidates whose activation matches, in order. *)
Fixpoint match_candidates (compiled : CompiledCatalog) (hits : PatternHits) (regex_input : str)
    (seed : Z) (candidates : list nat) : ST EvaluationLimits LorebookError (list nat) :=
  match candidates with
  | [] => mret []
  | i :: candidates' =>
      match c_entries compiled !! i with
      | None => match_candidates compiled hits regex_input seed candidates'
      | Some entry =>
          b ← activation_matches (ce_source entry) hits regex_input seed (ce_activation entry);
          rest ← match_candidates compiled hits regex_input seed candidates';
          mret (if b : bool then i :: rest else rest)
      end
  end.

(** [self.compiled.entries[i].source]. *)
Definition sources (compiled : CompiledCatalog) (indexes : list nat) : list LoreEntry :=
  omap (fun i => ce_source <$> c_entries compiled !! i) indexes.

Definition compare_indexes (compiled : CompiledCatalog) (left right : nat) : comparison :=
  match c_entries compiled !! left, c_entries compiled !! right with
  | Some l, Some r => compare_entries (ce_source l) (ce_source r)
  | _, _ => Eq
  end.

Definition pattern_hits (compiled : CompiledCatalog) (search : SearchInput) :
    ST LiteralWork LorebookError PatternHits :=
  sensitive ← index_matches (c_sensitive compiled) (si_sensitive search);
  folded ← index_matches (c_folded compiled) (si_folded search);
  mret (mkHits sensitive folded).

Definition select_uncached (compiled : CompiledCatalog) (request : SelectionRequest)
    (search : SearchInput) (fingerprint : bytes) : Result Selection :=
  let s := settings request in
  let '(work, r) := pattern_hits compiled search (mkWork 0 (max_literal_match_events s)) in
  hits ← r;
  let candidates := collect_candidates compiled hits in
  let '(limits, r) :=
    match_candidates compiled hits (si_regex search) (seed request) candidates
      (EvaluationLimits_new request) in
  matched ← r;
  let matched := sort_by (compare_indexes compiled) matched in
  let packed := pack s (sources compiled matched) in
  mret (mkSelection (p_text packed)
    (mkReceipt (c_revision compiled) (chat_revision (conversation request))
       (branch_revision (conversation request)) fingerprint false (len candidates) (len matched)
       (p_ids packed) (p_tokens packed) (len (p_text packed)) (events work)
       (ev_evaluations limits) (ev_scan_bytes limits) (ev_matches limits))).

(** ** The engine *)

Record LorebookEngine : Type := mkEngine { compiled : CompiledCatalog; cache : Cache }.

Definition LorebookEngine_new (catalog : LorebookCatalog) : Result LorebookEngine :=
  compiled ← compile_catalog catalog 1;
  mret (mkEngine compiled []).

Definition generation_overflow : LorebookError :=
  InvalidField "catalog.generation" "revision counter overflowed".

Definition replace_catalog (catalog : LorebookCatalog) : ST LorebookEngine LorebookError unit :=
  self ← st_get;
  generation ← st_lift (ok_or (checked_add U64_MAX (c_generation (compiled self)) 1)
                          generation_overflow);
  compiled ← st_lift (compile_catalog catalog generation);
  st_put (mkEngine compiled []).

(** The lock is held for the lookup only. *)
Definition select_lookup (self : LorebookEngine) (key : CacheKey) : option Selection :=
  with_cache_hit <$> cache_get key (cache self).

(** The lock is taken again to store the answer. *)
Definition select_store (key : CacheKey) (selection : Selection) (self : LorebookEngine) :
    LorebookEngine :=
  mkEngine (compiled self) (cache_insert key selection (cache_make_room (cache self))).

(** What [select] computes before it takes the lock. *)
Definition request_key (compiled : CompiledCatalog) (request : SelectionRequest) : CacheKey :=
  build_cache_key compiled request (SearchInput_build request).

Definition compute_selection (compiled : CompiledCatalog) (request : SelectionRequest) :
    Result Selection :=
  select_uncached compiled request (SearchInput_build request)
    (key_fingerprint (request_key compiled request)).

Definition select (request : SelectionRequest) : ST LorebookEngine LorebookError Selection :=
  _ ← st_lift (request_validate request);
  self ← st_get;
  let key := request_key (compiled self) request in
  match select_lookup self key with
  | Some cached => mret cached
  | None =>
      selection ← st_lift (compute_selection (compiled self) request);
      _ ← st_modify (select_store key selection);
      mret selection
  end.
End engine.

(** * Lorebook: the order of the selected entries

    [compare_entries] and the order of cache keys are lexicographic total
    preorders; entries that compare equal have the same identifier, and keys that
    compare equal are equal. *)

#[export] Instance compare_entries_cmp : Comparison compare_entries.
Proof.
  unfold compare_entries.
  apply then_with_cmp; [apply (flip_cmp _ (Comparison0 := Z_compare_cmp priority))|].
  apply then_with_cmp;
    [apply (flip_cmp _ (Comparison0 := Z_compare_cmp (fun e => precedence (source e))))|].
  apply then_with_cmp; [apply Z_compare_cmp|apply str_cmp_cmp].
Qed.

#[export] Instance key_cmp_cmp : Comparison key_cmp.
Proof.
  unfold key_cmp.
  repeat first [apply then_with_cmp | apply Z_compare_cmp | apply str_cmp_cmp].
Qed.

Lemma compare_entries_id a b : compare_entries a b = Eq -> id a = id b.
Proof. unfold compare_entries. rewrite !then_with_Eq, str_cmp_eq. tauto. Qed.

Lemma key_cmp_eq a b : key_cmp a b = Eq <-> a = b.
Proof.
  unfold key_cmp. rewrite !then_with_Eq, !Z.compare_eq_iff, !str_cmp_eq.
  destruct a, b; cbn. split; [intuition congruence|]. intros [= -> -> -> -> -> -> -> -> ->]. tauto.
Qed.
