(* ===== verification/LoreMatch.v ===== *)
(** * Lorebook: candidates and bounded matching

    The candidate collection of [select_uncached] gathers each announced entry
    once; the bounded evaluation of an activation, when it does not run out of
    its limits, decides the plain boolean reading of the conditions; and every
    entry that matches was a candidate. *)

From S2P Require Import Prelude Bytes Utf8 LoreModel LoreEngine LoreSelect.

(** * Lorebook: the pattern indexes are complete

    Facts about the compiled catalog of [LoreEngine]: a compiled condition points
    at the normalised pattern of its source condition, every entry is registered
    under each of its literals, entries that no literal can announce are
    unconditional, and therefore every entry whose activation matches is among the
    candidates.  The index lookups the code writes as [v[i]] are in range. *)

(** What the code relies on from [aho_corasick]: with [MatchKind::Standard],
    [find_overlapping_iter] reports the patterns that occur in the haystack. *)
Class LoreLaws `{LoreLib} : Prop := {
  ac_find_spec patterns m haystack i :
    ac_build patterns = Some m ->
    i ∈ ac_find m haystack <-> exists p, patterns !! i = Some p /\ contains haystack p = true;
}.

Section index_facts.
Context `{LoreLib}.

(** ** What a compiled catalog says about its source *)

Lemma find_index_Some p ps i : find_index p ps = Some i -> ps !! i = Some p.
Proof.
  revert i. induction ps as [|q ps IH]; intros i; cbn [find_index]; [done|].
  destruct (str_cmp q p) eqn:Hc.
  - intros [= <-]. apply str_cmp_eq in Hc. by subst.
  - destruct (find_index p ps); [|done]. intros [= <-]. cbn. auto.
  - destruct (find_index p ps); [|done]. intros [= <-]. cbn. auto.
Qed.

(** [cc] is the compiled form of [c] against the two pattern lists. *)
Definition compiles (sensitive folded : list str) (c : MatchCondition) (cc : CompiledCondition) :
    Prop :=
  match c, cc with
  | Literal value cs, CLiteral r =>
      folded_ref r = negb cs /\
      (if folded_ref r then folded else sensitive) !! pattern_index r =
        Some (normalize_search_text value cs)
  | Regex pattern _ ci, CRegex regex => regex_build pattern ci = Some regex
  | _, _ => False
  end.

Definition compiles_secondary (sensitive folded : list str) (s : SecondaryConditions)
    (cs : CompiledSecondary) : Prop :=
  match s, cs with
  | SecNone, CNone => True
  | SecAny l, CAny l' | SecAll l, CAll l' => Forall2 (compiles sensitive folded) l l'
  | _, _ => False
  end.

Definition compiles_conditions (sensitive folded : list str) (c : MatchConditions)
    (cc : CompiledConditions) : Prop :=
  Forall2 (compiles sensitive folded) (primary c) (c_primary cc) /\
  compiles_secondary sensitive folded (secondary c) (c_secondary cc).

Definition compiles_activation (sensitive folded : list str) (a : Activation)
    (ca : CompiledActivation) : Prop :=
  match a, ca with
  | Constant, CConstant => True
  | Selective c, CSelective cc => compiles_conditions sensitive folded c cc
  | Probability bp None, CProbability bp' None => bp = bp'
  | Probability bp (Some c), CProbability bp' (Some cc) =>
      bp = bp' /\ compiles_conditions sensitive folded c cc
  | _, _ => False
  end.

Lemma compile_condition_ok n s f c cc :
  compile_condition n s f c = Ok cc -> compiles (patterns s) (patterns f) c cc.
Proof.
  destruct c as [v cs|p l ci]; cbn [compile_condition].
  - intros (i & Hi & [= <-])%bind_Ok. apply ok_or_Ok, find_index_Some in Hi.
    cbn. split; [done|]. by destruct cs.
  - intros (r & Hr & [= <-])%bind_Ok. by apply ok_or_Ok in Hr.
Qed.

Lemma compile_many_ok n s f l l' :
  mapM_result (compile_condition n s f) l = Ok l' ->
  Forall2 (compiles (patterns s) (patterns f)) l l'.
Proof.
  intros Hm%mapM_result_Ok. eapply Forall2_impl; [|exact Hm].
  intros ??. apply compile_condition_ok.
Qed.

Lemma compile_conditions_ok n s f c cc :
  compile_conditions n s f c = Ok cc -> compiles_conditions (patterns s) (patterns f) c cc.
Proof.
  unfold compile_conditions.
  intros (p & Hp%compile_many_ok & (sec & Hs & [= <-])%bind_Ok)%bind_Ok.
  split; [done|]. cbn. destruct (secondary c) as [|l|l]; [by simplify_eq| |].
  all: destruct (mapM_result _ l) eqn:Hl; cbn in Hs; simplify_eq.
  all: by apply compile_many_ok in Hl.
Qed.

Lemma compile_activation_ok n s f a ca :
  compile_activation n s f a = Ok ca -> compiles_activation (patterns s) (patterns f) a ca.
Proof.
  destruct a as [|c|bp [c|]]; cbn [compile_activation]; intros Ha.
  - by simplify_eq.
  - destruct (compile_conditions n s f c) eqn:Hc; cbn in Ha; simplify_eq.
    by apply compile_conditions_ok in Hc.
  - apply bind_Ok in Ha as (o & Ho & [= <-]).
    destruct (compile_conditions n s f c) eqn:Hc; cbn in Ho; simplify_eq.
    split; [done|]. by apply compile_conditions_ok in Hc.
  - by apply bind_Ok in Ha as (o & [= <-] & [= <-]).
Qed.

(** The literal conditions of a compiled activation stay within the patterns. *)
Lemma compiles_activation_refs s f a ca r :
  compiles_activation s f a ca -> CLiteral r ∈ compiled_conditions_of ca ->
  (pattern_index r < length (if folded_ref r then f else s))%nat.
Proof.
  assert (Hl : forall l l', Forall2 (compiles s f) l l' -> CLiteral r ∈ l' ->
            (pattern_index r < length (if folded_ref r then f else s))%nat).
  { intros l l' Hl Hr. apply list_elem_of_lookup_1 in Hr as [i Hi].
    destruct (Forall2_lookup_r _ _ _ _ _ Hl Hi) as (c & _ & Hc).
    destruct c; [|done]. destruct Hc as [_ Hc]. by apply lookup_lt_Some in Hc. }
  assert (Hc : forall c cc, compiles_conditions s f c cc ->
            CLiteral r ∈ compiled_condition_iter cc ->
            (pattern_index r < length (if folded_ref r then f else s))%nat).
  { intros c cc [Hp Hs] [Hr|Hr]%elem_of_app; [eauto|].
    destruct (secondary c), (c_secondary cc); cbn in Hs, Hr; try done; eauto. }
  destruct a as [|c|bp [c|]], ca as [|cc|bp' [cc|]]; cbn; try done; intros Ha Hr;
    try (by apply not_elem_of_nil in Hr); [eauto|destruct Ha; eauto].
Qed.

(** ** Registration *)

Lemma push_candidate_elem i j l : i ∈ push_candidate j l <-> i ∈ l \/ i = j.
Proof.
  unfold push_candidate. case_bool_decide as Hl; [|set_solver].
  split; [tauto|]. intros [?| ->]; [done|]. apply last_Some_elem_of in Hl. done.
Qed.

Definition index_entries (idx : PatternIndex) (i : nat) : list nat :=
  default [] (candidate_entries idx !! i).

(** Which entries an index lists for a pattern after registering [entry] there. *)
Lemma add_candidate_entry_lookup entry j idx i k :
  (j < length (candidate_entries idx))%nat ->
  k ∈ index_entries (add_candidate_entry entry j idx) i <->
  k ∈ index_entries idx i \/ (i = j /\ k = entry).
Proof.
  intros Hj. unfold index_entries, add_candidate_entry. cbn [candidate_entries].
  destruct (decide (i = j)) as [->|Hne].
  - rewrite list_lookup_alter_eq. destruct (lookup_lt_is_Some_2 _ _ Hj) as [l Hl].
    rewrite Hl. simpl. rewrite push_candidate_elem. tauto.
  - rewrite list_lookup_alter_ne by done. tauto.
Qed.

(** The indexes after registration, [which] true for the folded one. *)
Definition pick (which : bool) (indexes : PatternIndex * PatternIndex) : PatternIndex :=
  if which then indexes.2 else indexes.1.

Definition same_patterns (a b : PatternIndex * PatternIndex) : Prop :=
  forall w, matcher (pick w a) = matcher (pick w b) /\
            patterns (pick w a) = patterns (pick w b) /\
            length (candidate_entries (pick w a)) = length (candidate_entries (pick w b)).

#[local] Instance same_patterns_equiv : Equivalence same_patterns.
Proof.
  split; [by intros a w| |].
  - intros a b Hab w. destruct (Hab w) as (? & ? & ?). done.
  - intros a b c Hab Hbc w. destruct (Hab w) as (? & ? & ?), (Hbc w) as (? & ? & ?).
    repeat split; congruence.
Qed.

Lemma register_condition_same entry idx c : same_patterns (register_condition entry idx c) idx.
Proof.
  destruct idx as [s f], c as [[[] j]|]; intros []; cbn; rewrite ?length_alter; done.
Qed.

Lemma register_condition_elem entry idx c w i k :
  (forall r, c = CLiteral r ->
     (pattern_index r < length (candidate_entries (pick (folded_ref r) idx)))%nat) ->
  k ∈ index_entries (pick w (register_condition entry idx c)) i <->
  k ∈ index_entries (pick w idx) i \/ (c = CLiteral (mkRef w i) /\ k = entry).
Proof.
  intros Hr. destruct c as [r|re]; cbn [register_condition]; destruct idx as [s f].
  2:{ split; [tauto|]. intros [?|[[=] _]]; done. }
  specialize (Hr r eq_refl). destruct r as [[] j], w;
    cbn [folded_ref pattern_index pick fst snd register_condition] in *;
    rewrite ?add_candidate_entry_lookup by done;
    split; intros; destruct_or?; destruct_and?; simplify_eq; auto.
Qed.

Lemma register_fold_same entry cs idx :
  same_patterns (foldl (register_condition entry) idx cs) idx.
Proof.
  revert idx. induction cs as [|c cs IH]; intros idx; cbn [foldl]; [done|].
  rewrite IH. apply register_condition_same.
Qed.

Lemma register_fold_elem entry cs idx w i k :
  (forall r, CLiteral r ∈ cs ->
     (pattern_index r < length (candidate_entries (pick (folded_ref r) idx)))%nat) ->
  k ∈ index_entries (pick w (foldl (register_condition entry) idx cs)) i <->
  k ∈ index_entries (pick w idx) i \/ (CLiteral (mkRef w i) ∈ cs /\ k = entry).
Proof.
  revert idx. induction cs as [|c cs IH]; intros idx Hr; cbn [foldl].
  { split; [tauto|]. intros [?|[Hin _]]; [done|]. by apply not_elem_of_nil in Hin. }
  rewrite IH.
  - rewrite register_condition_elem by (intros r ->; apply Hr; left).
    rewrite elem_of_cons. naive_solver.
  - intros r Hin. destruct (register_condition_same entry idx c (folded_ref r)) as (_ & _ & ->).
    apply Hr. by right.
Qed.

(** ** The compiled catalog *)

(** No literal hit is needed for the entry to become a candidate. *)
Definition announced_always (a : CompiledActivation) : bool :=
  is_unconditional a || compiled_activation_contains_regex a.

(** The state of the second compilation pass describes the entries it has seen. *)
Record index_ok (done : list LoreEntry) (compiled : list CompiledEntry)
    (idx : PatternIndex * PatternIndex) (unconditional : list nat) : Prop := {
  io_length w : length (candidate_entries (pick w idx)) = length (patterns (pick w idx));
  io_listed w i k :
    k ∈ index_entries (pick w idx) i <->
    exists e, compiled !! k = Some e /\ CLiteral (mkRef w i) ∈ compiled_conditions_of (ce_activation e);
  io_unconditional k :
    k ∈ unconditional <->
    exists e, compiled !! k = Some e /\ announced_always (ce_activation e) = true;
  io_entries :
    Forall2 (fun s e => ce_source e = s /\
      compiles_activation (patterns (pick false idx)) (patterns (pick true idx))
        (activation s) (ce_activation e)) done compiled;
}.

(** A property of the last entry or of an earlier one. *)
Lemma lookup_snoc_ex {A} (l : list A) (x : A) k (P : A -> Prop) :
  (exists e, (l ++ [x]) !! k = Some e /\ P e) <->
  (exists e, l !! k = Some e /\ P e) \/ (k = length l /\ P x).
Proof.
  split.
  - intros (e & [[? ?]|[? ?]]%lookup_snoc_Some & HP); subst; [left|right]; eauto.
  - intros [(e & He & HP)|[-> HP]].
    + exists e. split; [by apply lookup_app_l_Some|done].
    + exists x. split; [by apply list_lookup_middle|done].
Qed.

Lemma compile_entry_ok done st e st' :
  index_ok done (cs_entries st) (cs_sensitive st, cs_folded st) (cs_unconditional st) ->
  compile_entry st e = Ok st' ->
  index_ok (done ++ [e]) (cs_entries st') (cs_sensitive st', cs_folded st') (cs_unconditional st') /\
  same_patterns (cs_sensitive st', cs_folded st') (cs_sensitive st, cs_folded st).
Proof.
  intros [Hlen Hlist Hunc Hent]. unfold compile_entry.
  intros (a & Ha%compile_activation_ok & Hst)%bind_Ok. revert Hst.
  set (idx := (cs_sensitive st, cs_folded st)) in *.
  unfold register_activation_candidates.
  pose proof (register_fold_same (length (cs_entries st)) (compiled_conditions_of a) idx) as Hsame.
  assert (Hreg : forall w i k, k ∈ index_entries (pick w (foldl (register_condition
            (length (cs_entries st))) idx (compiled_conditions_of a))) i <->
          k ∈ index_entries (pick w idx) i \/
          (CLiteral (mkRef w i) ∈ compiled_conditions_of a /\ k = length (cs_entries st))).
  { intros w i k. apply register_fold_elem. intros r Hr. rewrite Hlen.
    pose proof (compiles_activation_refs _ _ _ _ _ Ha Hr). by destruct (folded_ref r). }
  revert Hsame Hreg. destruct (foldl _ idx _) as [s f]. intros Hsame Hreg [= <-].
  cbn [cs_sensitive cs_folded cs_entries cs_unconditional]. split; [|done].
  split.
  - intros w. destruct (Hsame w) as (_ & -> & ->). apply Hlen.
  - intros w i k. rewrite Hreg, Hlist, lookup_snoc_ex. naive_solver.
  - intros k. rewrite lookup_snoc_ex, <- Hunc. cbn [ce_activation]. unfold announced_always.
    destruct (is_unconditional a || compiled_activation_contains_regex a);
      rewrite ?elem_of_app, ?list_elem_of_singleton; naive_solver.
  - destruct (Hsame false) as (_ & -> & _), (Hsame true) as (_ & -> & _).
    apply Forall2_app; [done|]. by repeat constructor.
Qed.

Lemma compile_entries_ok todo done st st' :
  index_ok done (cs_entries st) (cs_sensitive st, cs_folded st) (cs_unconditional st) ->
  foldM_result compile_entry st todo = Ok st' ->
  index_ok (done ++ todo) (cs_entries st') (cs_sensitive st', cs_folded st') (cs_unconditional st') /\
  same_patterns (cs_sensitive st', cs_folded st') (cs_sensitive st, cs_folded st).
Proof.
  revert done st. induction todo as [|e todo IH]; intros done st Hok; cbn [foldM_result].
  { intros [= <-]. by rewrite app_nil_r. }
  intros (st1 & He & Hst)%bind_Ok. destruct (compile_entry_ok _ _ _ _ Hok He) as [Hok1 Hs1].
  destruct (IH _ _ Hok1 Hst) as [Hok2 Hs2]. rewrite <- app_assoc in Hok2.
  split; [done|]. by rewrite Hs2.
Qed.

(** The matcher of an index finds its patterns, and nothing is looked for when
    there are none. *)
Definition matcher_ok (idx : PatternIndex) : Prop :=
  match matcher idx with
  | Some m => ac_build (patterns idx) = Some m
  | None => patterns idx = []
  end.

Lemma index_build_ok ps idx :
  index_build ps = Ok idx ->
  matcher_ok idx /\ patterns idx = ps /\ candidate_entries idx = map (fun _ => []) ps.
Proof.
  unfold index_build, matcher_ok. intros (m & Hm & [= <-])%bind_Ok. cbn.
  destruct (is_empty ps) eqn:Hp.
  - apply is_empty_true in Hp. simplify_eq. done.
  - destruct (ac_build ps) eqn:Hac; cbn in Hm; by simplify_eq.
Qed.

Definition active_entries (catalog : LorebookCatalog) : list LoreEntry :=
  List.filter enabled (entries catalog).

Record compiled_ok (catalog : LorebookCatalog) (c : CompiledCatalog) : Prop := {
  co_index : index_ok (active_entries catalog) (c_entries c) (c_sensitive c, c_folded c)
               (c_unconditional c);
  co_matcher w : matcher_ok (pick w (c_sensitive c, c_folded c));
  co_revision : c_revision c = revision catalog;
  co_valid : catalog_validate catalog = Ok tt;
}.

Lemma compile_catalog_ok catalog gen c :
  compile_catalog catalog gen = Ok c -> compiled_ok catalog c /\ c_generation c = gen.
Proof.
  unfold compile_catalog. intros ([] & Hv & H0)%bind_Ok.
  apply bind_Ok in H0 as (scan & _ & H0). apply bind_Ok in H0 as (? & _ & H0).
  apply bind_Ok in H0 as (? & _ & H0).
  apply bind_Ok in H0 as (s & (Hms & Hps & Hcs)%index_build_ok & H0).
  apply bind_Ok in H0 as (f & (Hmf & Hpf & Hcf)%index_build_ok & H0).
  apply bind_Ok in H0 as (st & Hst & [= <-]).
  eapply (compile_entries_ok _ []) in Hst as [Hok Hsame]; cycle 1.
  { assert (Hnil : forall w i k, k ∈ index_entries (pick w (s, f)) i <-> False).
    { intros w i k. split; [|done]. unfold index_entries.
      destruct w; cbn [pick fst snd]; rewrite ?Hcs, ?Hcf, list_lookup_fmap;
        destruct (_ !! i); apply not_elem_of_nil. }
    split; cbn [cs_entries cs_sensitive cs_folded cs_unconditional].
    - intros []; cbn; rewrite ?Hcs, ?Hcf, ?Hps, ?Hpf, length_map; done.
    - intros w i k. rewrite Hnil. split; [done|]. by intros (? & [=] & _).
    - intros k. split; [by intros ?%not_elem_of_nil|]. by intros (? & [=] & _).
    - constructor. }
  split; [|done]. split; cbn; try done.
  intros w. destruct (Hsame w) as (Hm & Hp & _). unfold matcher_ok. rewrite Hm, Hp.
  destruct w; [exact Hmf|exact Hms].
Qed.
End index_facts.

(** ** Collecting candidates *)

(** [seen] marks exactly the candidates, and no entry is taken twice. *)
Record cand_ok (n : nat) (acc : list bool * list nat) : Prop := {
  ca_length : length acc.1 = n;
  ca_seen i : acc.1 !! i = Some true <-> i ∈ acc.2;
  ca_nodup : NoDup acc.2;
}.

Lemma cand_ok_start {A} (l : list A) : cand_ok (length l) (map (fun _ => false) l, []).
Proof.
  split; cbn [fst snd]; [apply length_map| |constructor].
  intros i. rewrite list_lookup_fmap. split; [|by intros ?%not_elem_of_nil].
  by destruct (l !! i).
Qed.

Lemma add_candidate_ok n acc entry :
  cand_ok n acc ->
  cand_ok n (add_candidate entry acc) /\
  forall i, i ∈ (add_candidate entry acc).2 <-> i ∈ acc.2 \/ (i = entry /\ (i < n)%nat).
Proof.
  destruct acc as [seen cands]. intros [Hlen Hseen Hnd]. unfold add_candidate. cbn [fst snd] in *.
  destruct (seen !! entry) as [[]|] eqn:Hs; cbn [fst snd].
  - split; [done|]. intros i. split; [tauto|]. intros [?|[-> _]]; [done|]. by apply Hseen.
  - pose proof (lookup_lt_Some _ _ _ Hs). split.
    + split; cbn [fst snd].
      * by rewrite length_insert.
      * intros i. rewrite elem_of_app, list_elem_of_singleton, <- Hseen.
        destruct (decide (i = entry)) as [->|].
        -- rewrite list_lookup_insert_eq by lia. tauto.
        -- rewrite list_lookup_insert_ne by done. tauto.
      * apply list.NoDup_app. split_and!; [done| |apply list.NoDup_singleton].
        intros x Hx%Hseen ->%list_elem_of_singleton. congruence.
    + intros i. rewrite elem_of_app, list_elem_of_singleton. subst n. naive_solver.
  - split; [done|]. intros i. apply lookup_ge_None in Hs. subst n.
    split; [tauto|]. intros [?|[-> ?]]; [done|lia].
Qed.

Lemma add_candidates_ok n acc l :
  cand_ok n acc ->
  cand_ok n (add_candidates acc l) /\
  forall i, i ∈ (add_candidates acc l).2 <-> i ∈ acc.2 \/ (i ∈ l /\ (i < n)%nat).
Proof.
  revert acc. induction l as [|x l IH]; intros acc Hok.
  { split; [done|]. intros i. split; [tauto|]. by intros [?|[?%not_elem_of_nil _]]. }
  destruct (add_candidate_ok _ _ x Hok) as [Hok1 H1]. destruct (IH _ Hok1) as [Hok2 H2].
  split; [done|]. intros i. change (add_candidates acc (x :: l))
    with (add_candidates (add_candidate x acc) l). rewrite H2, H1, elem_of_cons. naive_solver.
Qed.

Lemma add_pattern_candidates_ok n hits registered acc :
  cand_ok n acc ->
  cand_ok n (add_pattern_candidates hits registered acc) /\
  forall i, i ∈ (add_pattern_candidates hits registered acc).2 <->
    i ∈ acc.2 \/
    exists j, hits !! j = Some true /\ i ∈ default [] (registered !! j) /\ (i < n)%nat.
Proof.
  revert registered acc. induction hits as [|h hits IH]; intros [|found registered] acc Hok;
    cbn [add_pattern_candidates].
  1-3: split; [done|]; intros i; split; [tauto|]; intros [?|(j & Hj & Hi & _)]; [done|];
       first [discriminate Hj | by apply not_elem_of_nil in Hi].
  set (acc1 := if h then add_candidates acc found else acc).
  assert (H1 : cand_ok n acc1 /\ forall i, i ∈ acc1.2 <->
             i ∈ acc.2 \/ (h = true /\ i ∈ found /\ (i < n)%nat)).
  { subst acc1. destruct h; [|naive_solver].
    destruct (add_candidates_ok _ _ found Hok) as [? Hi]. split; [done|].
    intros i. rewrite Hi. naive_solver. }
  destruct H1 as [Hok1 H1]. destruct (IH registered _ Hok1) as [Hok2 H2].
  split; [done|]. intros i. rewrite H2, H1. split.
  - intros [[?|(-> & ? & ?)]|(j & ? & ? & ?)]; [tauto|right; by exists O|right; by exists (S j)].
  - intros [?|([|j] & Hj & ? & ?)]; [tauto| |right; by exists j].
    cbn in Hj. simplify_eq. tauto.
Qed.

Section matching.
Context `{LoreLib}.

(** The candidates are the entries announced by a literal hit, and those that
    need none, each once. *)
Lemma collect_candidates_ok catalog c hits :
  index_ok catalog (c_entries c) (c_sensitive c, c_folded c) (c_unconditional c) ->
  NoDup (collect_candidates c hits) /\
  forall i, i ∈ collect_candidates c hits <->
    exists e, c_entries c !! i = Some e /\
      (announced_always (ce_activation e) = true \/
       exists r, CLiteral r ∈ compiled_conditions_of (ce_activation e) /\ hits_contains hits r = true).
Proof.
  intros [_ Hlist Hunc _]. unfold collect_candidates.
  pose proof (cand_ok_start (c_entries c)) as H0.
  destruct (add_candidates_ok _ _ (c_unconditional c) H0) as [H1 E1].
  destruct (add_pattern_candidates_ok _ (h_sensitive hits) (candidate_entries (c_sensitive c)) _ H1)
    as [H2 E2].
  destruct (add_pattern_candidates_ok _ (h_folded hits) (candidate_entries (c_folded c)) _ H2)
    as [H3 E3].
  split; [apply H3|]. intros i. rewrite E3, E2, E1.
  assert (Hs : forall w j, i ∈ default [] (candidate_entries (pick w (c_sensitive c, c_folded c)) !! j)
     <-> exists e, c_entries c !! i = Some e /\
           CLiteral (mkRef w j) ∈ compiled_conditions_of (ce_activation e)).
  { intros w j. apply Hlist. }
  assert (Hhit : forall r, hits_contains hits r = true <->
     (if folded_ref r then h_folded hits else h_sensitive hits) !! pattern_index r = Some true).
  { intros r. unfold hits_contains. destruct (_ !! pattern_index r) as [[]|]; done. }
  split.
  - intros [[[?%not_elem_of_nil|[Hi _]]|(j & Hj & Hi & _)]|(j & Hj & Hi & _)]; [done|..].
    + apply Hunc in Hi as (e & ? & ?). eauto.
    + apply (Hs false) in Hi as (e & ? & ?). exists e. split; [done|]. right.
      exists (mkRef false j). split; [done|]. by apply Hhit.
    + apply (Hs true) in Hi as (e & ? & ?). exists e. split; [done|]. right.
      exists (mkRef true j). split; [done|]. by apply Hhit.
  - intros (e & He & Hor). pose proof (lookup_lt_Some _ _ _ He).
    destruct Hor as [Ha|([w j] & Hr & Hj%Hhit)].
    + left. left. right. split; [|done]. apply Hunc. eauto.
    + cbn in Hj. destruct w; [right|left; right]; exists j; (split; [done|]); split; try done;
        [apply (Hs true)|apply (Hs false)]; eauto.
Qed.

(** ** Literal hits *)

Lemma mark_hits_ok found hits w w' hits' :
  mark_hits found hits w = (w', Ok hits') ->
  length hits' = length hits /\
  (forall j, hits' !! j = Some true <-> hits !! j = Some true \/ (j ∈ found /\ (j < length hits)%nat)) /\
  max_events w' = max_events w /\ events w' = events w + len found.
Proof.
  revert hits w. induction found as [|i found IH]; intros hits w; cbn [mark_hits].
  { intros [= <- <-]. split_and!; try done; [|len_lia]. intros j. split; [tauto|].
    intros [?|[?%not_elem_of_nil _]]; done. }
  unfold mbind, ST_bind, charge. case_eq (checked_add USIZE_MAX (events w) 1); [|done].
  intros n Hn. destruct (n >? max_events w); [done|]. intros Hm%IH.
  destruct Hm as (Hl & Hj & Hmax & Hev). rewrite length_insert in *. cbn in Hmax, Hev.
  unfold checked_add in Hn. destruct (_ <=? _); [|done]. simplify_eq.
  split_and!; try done; [|len_lia].
  intros j. rewrite Hj, elem_of_cons. destruct (decide (i = j)) as [->|].
  - destruct (decide (j < length hits)%nat).
    + rewrite list_lookup_insert_eq by done. tauto.
    + rewrite list_insert_ge by lia. naive_solver.
  - rewrite list_lookup_insert_ne by done. naive_solver.
Qed.

Context `{!LoreLaws}.

(** A literal is hit exactly when its pattern occurs in the text searched. *)
Lemma index_matches_ok idx haystack w w' hits :
  matcher_ok idx -> index_matches idx haystack w = (w', Ok hits) ->
  length hits = length (patterns idx) /\
  (forall j p, patterns idx !! j = Some p -> hits !! j = Some (contains haystack p)).
Proof.
  unfold matcher_ok, index_matches. destruct (matcher idx) as [m|] eqn:Hm.
  - intros Hb Hh. apply mark_hits_ok in Hh as (Hl & Hj & _). rewrite length_map in *.
    split; [done|]. intros j p Hp. specialize (Hj j). rewrite list_lookup_fmap, Hp in Hj.
    cbn in Hj. rewrite (ac_find_spec _ _ _ _ Hb) in Hj.
    assert (Hlt := lookup_lt_Some _ _ _ Hp). rewrite <- Hl in Hlt.
    destruct (lookup_lt_is_Some_2 _ _ Hlt) as [b Hbj]. rewrite Hbj in *. f_equal.
    destruct b, (contains haystack p) eqn:Hc; try done; exfalso.
    + destruct Hj as [[?|[(q & Hq & Hq') _]] _]; [done..|]. simplify_eq. congruence.
    + destruct Hj as [_ Hj]. rewrite Hl in Hlt. discriminate Hj. right. split; eauto.
  - intros Hp [= <- <-]. rewrite Hp. done.
Qed.
End matching.

(** ** Bounded evaluation

    [evaluates input m x evals found]: run with any limits, [m] either answers
    [x], having spent at most [evals] regex evaluations over [input] and [found]
    matches and staying within its limits, or fails because a limit is exceeded,
    which cannot happen when the limits leave room for that cost. *)

Section evaluation.
Context `{LoreLib} (input : str).

Definition limits_ok (l : EvaluationLimits) : Prop :=
  ev_evaluations l <= ev_max_evaluations l /\ ev_scan_bytes l <= ev_max_scan_bytes l /\
  ev_matches l <= ev_max_matches l.

Definition limits_wide (l : EvaluationLimits) : Prop :=
  ev_max_evaluations l <= USIZE_MAX /\ ev_max_scan_bytes l <= USIZE_MAX /\
  ev_max_matches l <= USIZE_MAX.

Definition same_max (l l' : EvaluationLimits) : Prop :=
  ev_max_evaluations l' = ev_max_evaluations l /\ ev_max_scan_bytes l' = ev_max_scan_bytes l /\
  ev_max_matches l' = ev_max_matches l.

Definition room (l : EvaluationLimits) (evals found : Z) : Prop :=
  ev_evaluations l + evals <= ev_max_evaluations l /\
  ev_scan_bytes l + evals * len input <= ev_max_scan_bytes l /\
  ev_matches l + found <= ev_max_matches l.

Definition evaluates {A} (m : ST EvaluationLimits LorebookError A) (x : A) (evals found : Z) : Prop :=
  0 <= evals /\ 0 <= found /\
  forall l,
  same_max l (m l).1 /\
  match (m l).2 with
  | Ok y =>
      y = x /\ (limits_ok l -> limits_ok (m l).1) /\
      ev_evaluations (m l).1 <= ev_evaluations l + evals /\
      ev_scan_bytes (m l).1 <= ev_scan_bytes l + evals * len input /\
      ev_matches (m l).1 <= ev_matches l + found
  | Err e =>
      (exists k, e = SearchLimitExceeded k) /\ (limits_wide l -> ~ room l evals found)
  end.

Lemma evaluates_ret {A} (x : A) : evaluates (mret x) x 0 0.
Proof. split_and!; [lia..|]. intros l. cbn. unfold same_max. intuition lia. Qed.

Lemma evaluates_weaken {A} (m : ST EvaluationLimits LorebookError A) x a b a' b' :
  evaluates m x a b -> a <= a' -> b <= b' -> evaluates m x a' b'.
Proof.
  intros (Ha & Hb & Hm) Haa Hbb. split_and!; [lia..|]. intros l. destruct (Hm l) as [Hs Hr].
  split; [done|]. pose proof (len_nonneg input).
  destruct (m l).2; unfold room in *.
  - destruct Hr as (? & ? & ? & ? & ?). split_and!; try done; nia.
  - destruct Hr as [? Hn]. split; [done|]. intros Hw (? & ? & ?). apply Hn; [done|].
    split_and!; nia.
Qed.

Lemma evaluates_bind {A B} (m : ST EvaluationLimits LorebookError A)
    (f : A -> ST EvaluationLimits LorebookError B) x y a b c d :
  evaluates m x a b -> evaluates (f x) y c d -> evaluates (m ≫= f) y (a + c) (b + d).
Proof.
  intros (Ha & Hb & Hm) (Hc & Hd & Hf). split_and!; [lia..|]. intros l.
  specialize (Hm l). unfold mbind, ST_bind.
  destruct (m l) as [l1 [z|e]]; cbn [fst snd] in *.
  - destruct Hm as [(? & ? & ?) (-> & Hok & ? & ? & ?)]. specialize (Hf l1).
    destruct (f x l1) as [l2 [w|e]]; cbn [fst snd] in *;
      destruct Hf as [(? & ? & ?) Hf]; (split; [unfold same_max; split_and!; congruence|]).
    + destruct Hf as (-> & ? & ? & ? & ?). split_and!; auto; nia.
    + destruct Hf as [? Hn]. split; [done|]. unfold limits_wide, room in *.
      intros (? & ? & ?) (? & ? & ?). apply Hn; split_and!; nia.
  - destruct Hm as [? [? Hn]]. split; [done|]. split; [done|].
    unfold room in *. pose proof (len_nonneg input).
    intros Hw (? & ? & ?). apply Hn; [done|]. split_and!; nia.
Qed.

(** A counter that would leave [usize] is past every limit. *)
Lemma charge_evaluation_ok :
  evaluates (_ ← charge_evaluation; charge_scan (len input)) tt 1 0.
Proof.
  split_and!; [lia..|]. intros l. unfold mbind, ST_bind, charge_evaluation, charge_scan, checked_add.
  unfold same_max, limits_wide, limits_ok, room, ensure. pose proof (len_nonneg input).
  repeat first [case_goal | progress cbn -[len] ]; zify_bool; intuition (eauto; lia).
Qed.

Lemma charge_match_ok : evaluates charge_match tt 0 1.
Proof.
  split_and!; [lia..|]. intros l. unfold charge_match, checked_add.
  unfold same_max, limits_wide, limits_ok, room, ensure. pose proof (len_nonneg input).
  repeat first [case_goal | progress cbn -[len] ]; zify_bool; intuition (eauto; lia).
Qed.

Lemma charge_matches_ok n b :
  evaluates (charge_matches n b) (b || (0 <? Z.of_nat n)) 0 (Z.of_nat n).
Proof.
  revert b. induction n as [|n IH]; intros b.
  { cbn. rewrite orb_false_r. apply evaluates_ret. }
  cbn [charge_matches]. replace (b || (0 <? Z.of_nat (S n))) with (true || (0 <? Z.of_nat n))
    by (destruct b; [done|]; cbn [orb]; symmetry; apply Z.ltb_lt; lia).
  eapply evaluates_weaken; [eapply evaluates_bind; [apply charge_match_ok|apply IH]|lia..].
Qed.

Lemma evaluate_ok re :
  evaluates (evaluate re input) (0 <? Z.of_nat (regex_matches_in re input))
    1 (Z.of_nat (regex_matches_in re input)).
Proof.
  pose proof (evaluates_bind _ (fun _ => charge_matches (regex_matches_in re input) false)
    _ _ _ _ _ _ charge_evaluation_ok (charge_matches_ok _ false)) as Hb.
  replace (1 + 0) with 1 in Hb by lia. cbn [orb Z.add] in Hb.
  destruct Hb as (? & ? & Hb). split_and!; [done..|]. intros l. specialize (Hb l).
  revert Hb. unfold evaluate, mbind, ST_bind.
  destruct (charge_evaluation l) as [l1 [[]|]]; [|done].
  by destruct (charge_scan (len input) l1) as [l2 [[]|]].
Qed.

(** ** The meaning of conditions over the hits

    [found] counts the matches of a regex, so the boolean reading of a regex
    condition is that there is one. *)

Context (hits : PatternHits).

Definition hit_condition (c : CompiledCondition) : bool :=
  match c with
  | CLiteral r => hits_contains hits r
  | CRegex re => 0 <? Z.of_nat (regex_matches_in re input)
  end.

Definition hit_conditions (c : CompiledConditions) : bool :=
  existsb hit_condition (c_primary c) &&
  match c_secondary c with
  | CNone => true
  | CAny values => existsb hit_condition values
  | CAll values => forallb hit_condition values
  end.

Definition hit_activation (seed : Z) (entry : LoreEntry) (a : CompiledActivation) : bool :=
  match a with
  | CConstant => true
  | CSelective c => hit_conditions c
  | CProbability bp c =>
      match c with Some c => hit_conditions c | None => true end &&
      probability_admits seed (id entry) bp
  end.

(** What evaluating a list of conditions can cost at most. *)
Definition regex_count (cs : list CompiledCondition) : Z := len (List.filter is_regex cs).

Definition match_count (cs : list CompiledCondition) : Z :=
  foldr (fun c n => match c with
                    | CRegex re => Z.of_nat (regex_matches_in re input)
                    | CLiteral _ => 0
                    end + n) 0 cs.

Lemma regex_count_app a b : regex_count (a ++ b) = regex_count a + regex_count b.
Proof. unfold regex_count. rewrite List.filter_app. apply len_app. Qed.

Lemma match_count_app a b : match_count (a ++ b) = match_count a + match_count b.
Proof. unfold match_count. induction a; cbn [app foldr]; lia. Qed.

Lemma counts_nonneg cs : 0 <= regex_count cs /\ 0 <= match_count cs.
Proof.
  split; [apply len_nonneg|]. induction cs as [|[]]; cbn [match_count foldr] in *; unfold match_count in *; lia.
Qed.

Lemma condition_matches_ok c :
  evaluates (condition_matches hits input c) (hit_condition c)
    (regex_count [c]) (match_count [c]).
Proof.
  destruct c as [r|re]; cbn [condition_matches hit_condition]; [apply evaluates_ret|].
  unfold regex_count, match_count. cbn [List.filter is_regex foldr].
  eapply evaluates_weaken; [apply evaluate_ok|len_lia|lia].
Qed.

Lemma any_matches_ok cs :
  evaluates (any_matches hits input cs) (existsb hit_condition cs)
    (regex_count cs) (match_count cs).
Proof.
  induction cs as [|c cs IH]; cbn [any_matches existsb]; [apply evaluates_ret|].
  rewrite <- (app_nil_l cs), app_comm_cons, regex_count_app, match_count_app.
  eapply evaluates_bind; [apply condition_matches_ok|]. rewrite app_nil_l.
  destruct (hit_condition c); [|exact IH].
  eapply evaluates_weaken; [apply evaluates_ret|apply counts_nonneg..].
Qed.

Lemma all_matches_ok cs :
  evaluates (all_matches hits input cs) (forallb hit_condition cs)
    (regex_count cs) (match_count cs).
Proof.
  induction cs as [|c cs IH]; cbn [all_matches forallb]; [apply evaluates_ret|].
  rewrite <- (app_nil_l cs), app_comm_cons, regex_count_app, match_count_app.
  eapply evaluates_bind; [apply condition_matches_ok|]. rewrite app_nil_l.
  destruct (hit_condition c); [exact IH|].
  eapply evaluates_weaken; [apply evaluates_ret|apply counts_nonneg..].
Qed.

Lemma conditions_match_ok c :
  evaluates (conditions_match hits input c) (hit_conditions c)
    (regex_count (compiled_condition_iter c)) (match_count (compiled_condition_iter c)).
Proof.
  unfold conditions_match, hit_conditions, compiled_condition_iter.
  rewrite regex_count_app, match_count_app.
  eapply evaluates_bind; [apply any_matches_ok|].
  destruct (existsb _ _); cbn [andb];
    [|eapply evaluates_weaken; [apply evaluates_ret|apply counts_nonneg..]].
  destruct (c_secondary c); cbn [compiled_secondary_values];
    [apply evaluates_ret|apply any_matches_ok|apply all_matches_ok].
Qed.

Lemma activation_matches_ok entry seed a :
  evaluates (activation_matches entry hits input seed a) (hit_activation seed entry a)
    (regex_count (compiled_conditions_of a)) (match_count (compiled_conditions_of a)).
Proof.
  destruct a as [|c|bp [c|]]; cbn [activation_matches hit_activation compiled_conditions_of].
  - apply evaluates_ret.
  - apply conditions_match_ok.
  - eapply evaluates_weaken; [eapply evaluates_bind; [apply conditions_match_ok|]| |].
    + destruct (hit_conditions c); cbn [andb]; apply evaluates_ret.
    + lia.
    + lia.
  - apply (evaluates_bind _ _ _ _ 0 0 0 0 (evaluates_ret true)). apply evaluates_ret.
Qed.

(** An entry whose activation matches was announced. *)
Lemma hit_activation_announced seed entry a :
  hit_activation seed entry a = true ->
  announced_always a = true \/
  exists r, CLiteral r ∈ compiled_conditions_of a /\ hits_contains hits r = true.
Proof.
  assert (Hc : forall c, hit_conditions c = true ->
     existsb is_regex (compiled_condition_iter c) = true \/
     exists r, CLiteral r ∈ compiled_condition_iter c /\ hits_contains hits r = true).
  { intros c [Hp _]%andb_true_iff. apply existsb_exists in Hp as (x & Hx & Hh).
    destruct x as [r|re]; cbn in Hh.
    - right. exists r. split; [|done]. apply elem_of_app. left. by apply list_elem_of_In.
    - left. apply existsb_exists. exists (CRegex re). split; [|done].
      apply in_or_app. by left. }
  unfold announced_always, compiled_activation_contains_regex.
  destruct a as [|c|bp [c|]]; cbn; try tauto.
  - apply Hc.
  - intros [Hh _]%andb_true_iff. by apply Hc.
Qed.
End evaluation.

(** * Lorebook: packing the prompt text, and probability

    The packing loop of [select_uncached] takes entries in order while they fit:
    the text is the chosen contents joined by the separator, within both budgets,
    and every entry left out would exceed a budget even at the end.  An entry with
    a probability is admitted by a fixed bucket of its identifier and the seed, so
    raising the probability never removes it. *)

Definition total_tokens (l : list LoreEntry) : Z := foldr (fun e n => reserved_tokens e + n) 0 l.

(** The budgets are values of the widths the code gives them. *)
Definition budgets_wf (s : SelectionSettings) : Prop :=
  0 <= max_output_bytes s <= USIZE_MAX /\ 0 <= max_output_tokens s <= U32_MAX.

(** Whether [entry] can still be added to the text of [chosen]. *)
Definition fits (s : SelectionSettings) (chosen : list LoreEntry) (entry : LoreEntry) : bool :=
  (len (join (separator s) (map content chosen)) +
   (if is_empty chosen then 0 else len (separator s)) + len (content entry) <=? max_output_bytes s) &&
  (total_tokens chosen + reserved_tokens entry <=? max_output_tokens s).

(** What the accumulator of the loop says of the entries chosen so far. *)
Definition packed_of (s : SelectionSettings) (chosen : list LoreEntry) : Packed :=
  mkPacked (join (separator s) (map content chosen)) (map id chosen) (total_tokens chosen).

Lemma is_empty_map {A B} (f : A -> B) l : is_empty (map f l) = is_empty l.
Proof. by destruct l. Qed.

Lemma total_tokens_app a b : total_tokens (a ++ b) = total_tokens a + total_tokens b.
Proof. unfold total_tokens. induction a; cbn [app foldr]; lia. Qed.

Lemma total_tokens_nonneg l : Forall (fun e => 0 <= reserved_tokens e) l -> 0 <= total_tokens l.
Proof. unfold total_tokens. induction 1; cbn [foldr]; lia. Qed.

Lemma total_tokens_snoc l e : total_tokens (l ++ [e]) = total_tokens l + reserved_tokens e.
Proof. rewrite total_tokens_app. unfold total_tokens at 2. cbn [foldr]. lia. Qed.

Lemma pack_entry_chosen s chosen e :
  budgets_wf s ->
  pack_entry s (packed_of s chosen) e =
  packed_of s (if fits s chosen e then chosen ++ [e] else chosen).
Proof.
  intros [Hb Ht]. unfold pack_entry. cbn [p_text p_ids p_tokens packed_of].
  rewrite is_empty_map. unfold fits, checked_add.
  set (text := join (separator s) (map content chosen)).
  set (sepb := if is_empty chosen then 0 else len (separator s)).
  pose proof (len_nonneg (content e)).
  destruct (len text + sepb <=? USIZE_MAX) eqn:H1; cbn [mbind option_bind].
  2:{ replace (_ && _) with false by (symmetry; apply andb_false_iff; left; zify_bool; lia). done. }
  destruct (len text + sepb + len (content e) <=? USIZE_MAX) eqn:H2.
  2:{ replace (_ && _) with false by (symmetry; apply andb_false_iff; left; zify_bool; lia). done. }
  destruct (total_tokens chosen + reserved_tokens e <=? U32_MAX) eqn:H3.
  2:{ replace (_ && _) with false by (symmetry; apply andb_false_iff; right; zify_bool; lia). done. }
  rewrite !Z.gtb_ltb, !Z.ltb_antisym, <- negb_andb.
  destruct (_ && _); cbn [negb]; [|done].
  unfold packed_of. rewrite !map_app, total_tokens_snoc. cbn [map].
  by rewrite join_snoc, is_empty_map.
Qed.

(** The entries the loop takes. *)
Fixpoint choose (s : SelectionSettings) (chosen l : list LoreEntry) : list LoreEntry :=
  match l with
  | [] => chosen
  | e :: l' => choose s (if fits s chosen e then chosen ++ [e] else chosen) l'
  end.

Lemma pack_chosen s l : budgets_wf s -> pack s l = packed_of s (choose s [] l).
Proof.
  intros Hw. unfold pack. change (mkPacked [] [] 0) with (packed_of s []).
  generalize (@nil LoreEntry). induction l as [|e l IH]; intros chosen; [done|].
  cbn [foldl choose]. rewrite pack_entry_chosen by done. apply IH.
Qed.

Lemma choose_extends s chosen l : exists more, choose s chosen l = chosen ++ more /\ more `sublist_of` l.
Proof.
  revert chosen. induction l as [|e l IH]; intros chosen; cbn [choose].
  { exists []. by rewrite app_nil_r. }
  destruct (fits s chosen e).
  - destruct (IH (chosen ++ [e])) as (more & -> & Hm). exists (e :: more).
    rewrite <- app_assoc. split; [done|]. by apply sublist_skip.
  - destruct (IH chosen) as (more & -> & Hm). exists more. split; [done|]. by apply sublist_cons.
Qed.

Definition within (s : SelectionSettings) (chosen : list LoreEntry) : Prop :=
  len (join (separator s) (map content chosen)) <= max_output_bytes s /\
  total_tokens chosen <= max_output_tokens s.

Lemma choose_within s chosen l : within s chosen -> within s (choose s chosen l).
Proof.
  revert chosen. induction l as [|e l IH]; intros chosen Hw; cbn [choose]; [done|].
  apply IH. destruct (fits s chosen e) eqn:Hf; [|done]. unfold fits in Hf. zify_bool.
  split; [|by rewrite total_tokens_snoc]. rewrite map_app. cbn [map].
  rewrite join_snoc, is_empty_map. destruct (is_empty chosen); len_lia.
Qed.

Lemma join_grows sep (a b : list str) :
  len (join sep a) + (if is_empty a then 0 else len sep) <=
  len (join sep (a ++ b)) + (if is_empty (a ++ b) then 0 else len sep).
Proof.
  set (t := len (join sep a) + _). induction b as [|x b IH] using rev_ind; [by rewrite app_nil_r|].
  rewrite app_assoc, join_snoc.
  replace (is_empty ((a ++ b) ++ [x])) with false by (by destruct (a ++ b)).
  pose proof (len_nonneg sep). rewrite !len_app. pose proof (len_nonneg x).
  destruct (is_empty (a ++ b)); rewrite ?len_nil; lia.
Qed.

(** What does not fit now never fits later. *)
Lemma fits_shrinks s chosen more e :
  Forall (fun e => 0 <= reserved_tokens e) more ->
  fits s (chosen ++ more) e = true -> fits s chosen e = true.
Proof.
  intros Hpos. unfold fits. rewrite !andb_true_iff, !Z.leb_le, map_app.
  pose proof (join_grows (separator s) (map content chosen) (map content more)) as Hg.
  rewrite <- map_app, !is_empty_map in Hg. rewrite map_app in Hg.
  assert (Ht : total_tokens chosen <= total_tokens (chosen ++ more)).
  { rewrite total_tokens_app. pose proof (total_tokens_nonneg more Hpos). lia. }
  lia.
Qed.

Lemma choose_maximal s chosen l e :
  Forall (fun e => 0 <= reserved_tokens e) l ->
  e ∈ l -> e ∈ choose s chosen l \/ fits s (choose s chosen l) e = false.
Proof.
  revert chosen. induction l as [|x l IH]; intros chosen Hpos; [by intros ?%not_elem_of_nil|].
  inversion Hpos as [|? ? Hx Hl]; subst. cbn [choose].
  intros [->|He]%elem_of_cons; [|by apply IH].
  destruct (choose_extends s (if fits s chosen x then chosen ++ [x] else chosen) l) as (more & Hc & Hm).
  rewrite Hc. destruct (fits s chosen x) eqn:Hf.
  - left. set_solver.
  - right. apply not_true_iff_false. intros Ht%fits_shrinks; [congruence|].
    rewrite Forall_forall in *. intros z Hz. apply Hl.
    apply list_elem_of_In. eapply elem_of_submseteq; [by apply list_elem_of_In|].
    by apply sublist_submseteq.
Qed.

(** The packing loop takes entries in order, keeping a subsequence of the
    offered ones: the text is their contents joined by the separator, the receipt
    lists their identifiers and the sum of their reserved tokens, both budgets
    hold, and an entry that was left out would exceed a budget even if it were
    added last. *)
Theorem pack_maximal_within_budget (s : SelectionSettings) (l : list LoreEntry) :
  budgets_wf s -> Forall (fun e => 0 <= reserved_tokens e) l ->
  exists chosen,
    chosen `sublist_of` l /\
    p_text (pack s l) = join (separator s) (map content chosen) /\
    p_ids (pack s l) = map id chosen /\
    p_tokens (pack s l) = total_tokens chosen /\
    len (p_text (pack s l)) <= max_output_bytes s /\
    p_tokens (pack s l) <= max_output_tokens s /\
    forall e, e ∈ l -> e ∉ chosen ->
      max_output_bytes s < len (p_text (pack s l)) +
        (if is_empty chosen then 0 else len (separator s)) + len (content e) \/
      max_output_tokens s < p_tokens (pack s l) + reserved_tokens e.
Proof.
  intros Hw Hpos. rewrite pack_chosen by done. exists (choose s [] l).
  destruct (choose_extends s [] l) as (more & Hc & Hm). cbn [app] in Hc. rewrite Hc.
  cbn [p_text p_ids p_tokens packed_of]. split_and!; try done.
  1-2: pose proof (choose_within s [] l) as Hin; rewrite Hc in Hin;
       destruct Hw as [[? ?] [? ?]]; by apply Hin.
  intros e He Hne. destruct (choose_maximal s [] l e Hpos He) as [?|Hf]; rewrite Hc in *; [done|].
  unfold fits in Hf. apply andb_false_iff in Hf. rewrite !Z.leb_gt in Hf. done.
Qed.

(** ** Probability *)

Section probability.
Context `{LoreLib}.

Lemma probability_bucket_range sd entry_id : 0 <= probability_bucket sd entry_id < 10000.
Proof.
  unfold probability_bucket. set (v := from_le_bytes _).
  assert (Hv : 0 <= v < 2 ^ 64).
  { subst v. set (bs := take 8 _). pose proof (from_le_bytes_range bs) as [Hlo Hhi].
    split; [done|]. eapply Z.lt_le_trans; [exact Hhi|].
    replace (2 ^ 64) with (256 ^ 8) by done. apply Z.pow_le_mono_r; [done|].
    subst bs. unfold len. rewrite length_take. lia. }
  rewrite Z.shiftr_div_pow2 by done.
  assert (Hq : 0 <= v * 10000 / 2 ^ 64 < 10000).
  { split; [apply Z.div_pos; lia|]. apply Z.div_lt_upper_bound; lia. }
  rewrite Z.mod_small; lia.
Qed.

(** For a fixed seed and entry, admission is monotone in the probability: an
    entry admitted at some basis points is admitted at every larger value up to
    the maximum, never at zero and always at ten thousand. *)
Theorem probability_monotone (sd : Z) (entry_id : str) (bp bp' : Z) :
  0 <= bp <= bp' -> bp' <= 10000 ->
  (probability_admits sd entry_id bp = true -> probability_admits sd entry_id bp' = true) /\
  probability_admits sd entry_id 0 = false /\ probability_admits sd entry_id 10000 = true.
Proof.
  intros ? ?. split; [|done]. unfold probability_admits.
  pose proof (probability_bucket_range sd entry_id).
  destruct (bp =? 0) eqn:?, (bp =? 10000) eqn:?, (bp' =? 0) eqn:?, (bp' =? 10000) eqn:?;
    zify_bool; try done; lia.
Qed.
End probability.
