(* ===== verification/LoreRefine.v ===== *)
(** * Lorebook: selection refines its specification

    The specification of a selection says nothing of indexes, candidates, limits
    or sorting algorithms: of the enabled entries whose activation means true for
    the searched text, taken in [compare_entries] order, pack those that fit.  The
    theorems below show that [select_uncached] on a compiled catalog gives that
    result, that its only failures are exceeded limits, and that it succeeds when
    the limits leave room. *)

From S2P Require Import Prelude Sorting Bytes Utf8 LoreModel LoreEngine.
From S2P Require Import LoreSelect LoreMatch.

(** ** The specification *)

Section spec.
Context `{LoreLib}.

Definition means_condition (raw : str) (c : MatchCondition) : bool :=
  match c with
  | Literal value case_sensitive =>
      contains (normalize_search_text raw case_sensitive)
               (normalize_search_text value case_sensitive)
  | Regex pattern _ case_insensitive =>
      match regex_build pattern case_insensitive with
      | Some regex => 0 <? Z.of_nat (regex_matches_in regex raw)
      | None => false
      end
  end.

Definition means_conditions (raw : str) (c : MatchConditions) : bool :=
  existsb (means_condition raw) (primary c) &&
  match secondary c with
  | SecNone => true
  | SecAny values => existsb (means_condition raw) values
  | SecAll values => forallb (means_condition raw) values
  end.

Definition means_active (raw : str) (seed : Z) (entry : LoreEntry) : bool :=
  match activation entry with
  | Constant => true
  | Selective c => means_conditions raw c
  | Probability basis_points c =>
      match c with Some c => means_conditions raw c | None => true end &&
      probability_admits seed (id entry) basis_points
  end.

(** The entries a request activates, in the order they are offered. *)
Definition spec_matched (catalog : LorebookCatalog) (request : SelectionRequest) :
    list LoreEntry :=
  sort_by compare_entries
    (List.filter (means_active (search_slice request).1 (seed request)) (active_entries catalog)).

Definition spec_select (catalog : LorebookCatalog) (request : SelectionRequest) : Packed :=
  pack (settings request) (spec_matched catalog request).
End spec.

Section refinement.
Context `{LoreLaws}.

(** ** Compiled conditions mean what their sources mean *)

Lemma pattern_hits_ok catalog c search w w' hits :
  compiled_ok catalog c -> pattern_hits c search w = (w', Ok hits) ->
  (forall j p, patterns (c_sensitive c) !! j = Some p ->
     h_sensitive hits !! j = Some (contains (si_sensitive search) p)) /\
  (forall j p, patterns (c_folded c) !! j = Some p ->
     h_folded hits !! j = Some (contains (si_folded search) p)).
Proof.
  intros Hok. unfold pattern_hits, mbind, ST_bind.
  destruct (index_matches (c_sensitive c) (si_sensitive search) w) as [w1 [hs|]] eqn:Hs; [|done].
  destruct (index_matches (c_folded c) (si_folded search) w1) as [w2 [hf|]] eqn:Hf; [|done].
  intros [= <- <-]. cbn [h_sensitive h_folded]. split.
  - exact (proj2 (index_matches_ok _ _ _ _ _ (co_matcher _ _ Hok false) Hs)).
  - exact (proj2 (index_matches_ok _ _ _ _ _ (co_matcher _ _ Hok true) Hf)).
Qed.

Section meaning.
Context (s f : list str) (raw : str) (hits : PatternHits).
Hypothesis Hsens : forall j p, s !! j = Some p ->
  h_sensitive hits !! j = Some (contains (normalize_search_text raw true) p).
Hypothesis Hfold : forall j p, f !! j = Some p ->
  h_folded hits !! j = Some (contains (normalize_search_text raw false) p).

Lemma compiles_means c cc :
  compiles s f c cc -> hit_condition raw hits cc = means_condition raw c.
Proof.
  destruct c as [v cs|p l ci], cc as [[fr i]|re]; cbn; try done.
  - intros [-> Hp]. unfold hits_contains. cbn [folded_ref pattern_index].
    destruct cs; cbn [negb] in *; [rewrite (Hsens _ _ Hp)|rewrite (Hfold _ _ Hp)]; done.
  - by intros ->.
Qed.

Lemma compiles_means_any l l' :
  Forall2 (compiles s f) l l' -> existsb (hit_condition raw hits) l' = existsb (means_condition raw) l.
Proof. induction 1; cbn [existsb]; [done|]. f_equal; [by apply compiles_means|done]. Qed.

Lemma compiles_means_all l l' :
  Forall2 (compiles s f) l l' -> forallb (hit_condition raw hits) l' = forallb (means_condition raw) l.
Proof. induction 1; cbn [forallb]; [done|]. f_equal; [by apply compiles_means|done]. Qed.

Lemma compiles_means_conditions c cc :
  compiles_conditions s f c cc -> hit_conditions raw hits cc = means_conditions raw c.
Proof.
  intros [Hp Hs]. unfold hit_conditions, means_conditions. f_equal; [by apply compiles_means_any|].
  destruct (secondary c), (c_secondary cc); cbn in Hs; try done;
    [by apply compiles_means_any|by apply compiles_means_all].
Qed.

Lemma compiles_means_activation sd e ca :
  compiles_activation s f (activation e) ca ->
  hit_activation raw hits sd e ca = means_active raw sd e.
Proof.
  unfold means_active. destruct (activation e) as [|c|bp [c|]], ca as [|cc|bp' [cc|]]; cbn; try done.
  - apply compiles_means_conditions.
  - intros [<- Hc]. f_equal. by apply compiles_means_conditions.
  - by intros <-.
Qed.
End meaning.

(** ** The matching loop *)

Definition hit_index (c : CompiledCatalog) (raw : str) (hits : PatternHits) (sd : Z) (i : nat) : bool :=
  match c_entries c !! i with
  | Some e => hit_activation raw hits sd (ce_source e) (ce_activation e)
  | None => false
  end.

Definition index_conditions (c : CompiledCatalog) (i : nat) : list CompiledCondition :=
  match c_entries c !! i with
  | Some e => compiled_conditions_of (ce_activation e)
  | None => []
  end.

Lemma match_candidates_ok c raw hits sd cands :
  evaluates raw (match_candidates c hits raw sd cands)
    (List.filter (hit_index c raw hits sd) cands)
    (regex_count (concat (map (index_conditions c) cands)))
    (match_count raw (concat (map (index_conditions c) cands))).
Proof.
  induction cands as [|i cands IH]; cbn [match_candidates List.filter map concat].
  { apply evaluates_ret. }
  rewrite regex_count_app, match_count_app. unfold hit_index at 1, index_conditions at 1 3.
  destruct (c_entries c !! i) as [e|]; [|exact IH].
  eapply evaluates_bind; [apply activation_matches_ok|].
  destruct (hit_activation _ _ _ _ _);
    (eapply evaluates_weaken; [eapply evaluates_bind; [exact IH|apply evaluates_ret]|lia|lia]).
Qed.

Lemma active_ids_nodup catalog :
  catalog_validate catalog = Ok tt -> NoDup (map id (active_entries catalog)).
Proof.
  intros [_ _ _ Hnd _]%catalog_validate_ok. unfold active_entries.
  induction (entries catalog) as [|e es IH]; [constructor|]. cbn [List.filter].
  inversion Hnd as [|? ? Hn Hnd']; subst. destruct (enabled e); [|by apply IH].
  constructor; [|by apply IH]. intros (e' & Hid & He')%list_elem_of_fmap.
  apply Hn. apply list_elem_of_fmap. exists e'. split; [done|].
  by apply list_elem_of_filter_bool in He' as [_ ?].
Qed.

(** The entries that match, found through the indexes, are those of the
    specification. *)
Lemma matched_perm catalog c raw hits sd :
  compiled_ok catalog c ->
  (forall j p, patterns (c_sensitive c) !! j = Some p ->
     h_sensitive hits !! j = Some (contains (normalize_search_text raw true) p)) ->
  (forall j p, patterns (c_folded c) !! j = Some p ->
     h_folded hits !! j = Some (contains (normalize_search_text raw false) p)) ->
  sources c (List.filter (hit_index c raw hits sd) (collect_candidates c hits)) ≡ₚ
  List.filter (means_active raw sd) (active_entries catalog).
Proof.
  intros Hok Hs Hf. pose proof (co_index _ _ Hok) as Hidx.
  pose proof (io_entries _ _ _ _ Hidx) as Hent. cbn [pick fst snd] in Hent.
  destruct (collect_candidates_ok _ _ hits Hidx) as [Hnd Hin].
  pose proof (active_ids_nodup _ (co_valid _ _ Hok)) as Hids.
  apply NoDup_Permutation.
  - apply NoDup_omap.
    + intros i j e (x & Hx & ->)%fmap_Some (y & Hy & Hxy)%fmap_Some.
      destruct (Forall2_lookup_r _ _ _ _ _ Hent Hx) as (a & Ha & Hxa & _).
      destruct (Forall2_lookup_r _ _ _ _ _ Hent Hy) as (b & Hb & Hyb & _).
      eapply (NoDup_lookup _ i j (id a)); [exact Hids|..];
        rewrite list_lookup_fmap; [by rewrite Ha|rewrite Hb; cbn; congruence].
    + by apply NoDup_filter_list.
  - apply NoDup_filter_list. by apply (NoDup_fmap_1 id).
  - intros e. rewrite list_elem_of_filter_bool. unfold sources. rewrite list_elem_of_omap. split.
    + intros (i & [Hh _]%list_elem_of_filter_bool & (x & Hx & ->)%fmap_Some).
      unfold hit_index in Hh. rewrite Hx in Hh.
      destruct (Forall2_lookup_r _ _ _ _ _ Hent Hx) as (a & Ha & <- & Hc).
      rewrite (compiles_means_activation _ _ _ _ Hs Hf _ _ _ Hc) in Hh.
      split; [done|]. by eapply list_elem_of_lookup_2.
    + intros [Hm (i & Hi)%list_elem_of_lookup_1].
      destruct (Forall2_lookup_l _ _ _ _ _ Hent Hi) as (x & Hx & Hsrc & Hc).
      rewrite <- (compiles_means_activation _ _ _ _ Hs Hf _ _ _ Hc) in Hm.
      exists i. rewrite Hx. split; [|cbn; congruence]. apply list_elem_of_filter_bool. split.
      * unfold hit_index. rewrite Hx. congruence.
      * apply Hin. exists x. split; [done|]. by eapply hit_activation_announced.
Qed.

(** ** The uncached selection *)

(** The entries matched, in order, as the code and the specification compute them. *)
Lemma sorted_sources catalog c raw sd matched :
  compiled_ok catalog c ->
  sources c matched ≡ₚ List.filter (means_active raw sd) (active_entries catalog) ->
  (forall i, i ∈ matched -> is_Some (c_entries c !! i)) ->
  sources c (sort_by (compare_indexes c) matched) =
  sort_by compare_entries (List.filter (means_active raw sd) (active_entries catalog)).
Proof.
  intros Hok Hp Hin. unfold sources.
  rewrite (sort_by_map _ compare_entries).
  - apply (sort_by_unique _). { exact Hp. }
    intros a b Ha Hb Hid%compare_entries_id. unfold sources in Hp. rewrite Hp in Ha, Hb.
    apply list_elem_of_filter_bool in Ha as [_ [i Hi]%list_elem_of_lookup_1].
    apply list_elem_of_filter_bool in Hb as [_ [j Hj]%list_elem_of_lookup_1].
    pose proof (active_ids_nodup _ (co_valid _ _ Hok)) as Hnd.
    assert (i = j) as ->; [|congruence].
    eapply (NoDup_lookup _ i j (id a)); [exact Hnd|..];
      rewrite list_lookup_fmap; [by rewrite Hi|rewrite Hj; cbn; congruence].
  - intros i j x y (e & He & ->)%fmap_Some (e' & He' & ->)%fmap_Some.
    unfold compare_indexes. by rewrite He, He'.
  - intros i Hi. destruct (Hin i Hi) as [e ->]. by eexists.
Qed.

Lemma select_uncached_inv catalog c request fp sel :
  compiled_ok catalog c ->
  select_uncached c request (SearchInput_build request) fp = Ok sel ->
  exists work limits hits,
    pattern_hits c (SearchInput_build request)
      (mkWork 0 (max_literal_match_events (settings request))) = (work, Ok hits) /\
    (match_candidates c hits (search_slice request).1 (seed request) (collect_candidates c hits)
       (EvaluationLimits_new request)).1 = limits /\
    (match_candidates c hits (search_slice request).1 (seed request) (collect_candidates c hits)
       (EvaluationLimits_new request)).2 =
      Ok (List.filter (hit_index c (search_slice request).1 hits (seed request))
            (collect_candidates c hits)) /\
    literal_match_events (receipt sel) = events work /\
    regex_evaluations (receipt sel) = ev_evaluations limits /\
    regex_scan_bytes (receipt sel) = ev_scan_bytes limits /\
    regex_matches (receipt sel) = ev_matches limits /\
    matched_count (receipt sel) = len (spec_matched catalog request) /\
    selected_bytes (receipt sel) = len (prompt_text sel) /\
    mkPacked (prompt_text sel) (selected_ids (receipt sel)) (selected_tokens (receipt sel)) =
      spec_select catalog request.
Proof.
  intros Hok. unfold select_uncached, SearchInput_build, spec_select, spec_matched.
  destruct (search_slice request) as [raw dg] eqn:Hslice. cbn [fst].
  destruct (pattern_hits _ _ _) as [work [hits|]] eqn:Hph; [|done]. cbn [mbind result_bind].
  destruct (pattern_hits_ok _ _ _ _ _ _ Hok Hph) as [Hs Hf].
  cbn [si_sensitive si_folded si_regex] in *.
  destruct (match_candidates_ok c raw hits (seed request) (collect_candidates c hits))
    as (_ & _ & Hm). specialize (Hm (EvaluationLimits_new request)).
  destruct (match_candidates _ _ _ _ _ _) as [limits [matched|]] eqn:Hmc; [|done].
  cbn [fst snd] in Hm. destruct Hm as [_ (-> & _)].
  pose proof (matched_perm catalog c raw hits (seed request) Hok Hs Hf) as Hperm.
  assert (Hin : forall i, i ∈ List.filter (hit_index c raw hits (seed request))
            (collect_candidates c hits) -> is_Some (c_entries c !! i)).
  { intros i [Hh _]%list_elem_of_filter_bool. unfold hit_index in Hh.
    by destruct (c_entries c !! i). }
  pose proof (sorted_sources _ _ _ _ _ Hok Hperm Hin) as Hsorted.
  cbn [mbind result_bind]. intros [= <-]. exists work, limits, hits.
  rewrite Hmc. cbn [fst snd prompt_text receipt literal_match_events regex_evaluations
    regex_scan_bytes regex_matches matched_count selected_bytes selected_ids selected_tokens].
  split_and!; try done.
  - unfold len. rewrite !sort_by_perm, <- Hperm. f_equal. unfold sources.
    clear -Hin. induction (List.filter _ _) as [|i l IH]; [done|].
    cbn [omap list_omap length]. destruct (Hin i) as [e ->]; [left|]. cbn. f_equal.
    apply IH. intros j Hj. apply Hin. by right.
  - rewrite Hsorted. by destruct (pack _ _).
Qed.

(** C1: A selection computed on a compiled catalog is the one the specification
    describes: the prompt text, the selected identifiers in order, the tokens and
    bytes reported and the number of matched entries are those of packing, in
    [compare_entries] order, the enabled entries whose activation means true for
    the searched text.  The Aho-Corasick indexes, the candidate lists, the
    evaluation limits and the sort change nothing. *)
Theorem select_refines_spec (catalog : LorebookCatalog) (generation : Z) (c : CompiledCatalog)
    (request : SelectionRequest) (sel : Selection) :
  compile_catalog catalog generation = Ok c ->
  compute_selection c request = Ok sel ->
  prompt_text sel = p_text (spec_select catalog request) /\
  selected_ids (receipt sel) = p_ids (spec_select catalog request) /\
  selected_tokens (receipt sel) = p_tokens (spec_select catalog request) /\
  selected_bytes (receipt sel) = len (p_text (spec_select catalog request)) /\
  matched_count (receipt sel) = len (spec_matched catalog request).
Proof.
  intros [Hok _]%compile_catalog_ok Hsel.
  destruct (select_uncached_inv _ _ _ _ _ Hok Hsel)
    as (? & ? & ? & _ & _ & _ & _ & _ & _ & _ & Hmc & Hsb & <-). cbn. auto.
Qed.

(** The counters and budgets of a request are values of unsigned types. *)
Record request_wf (r : SelectionRequest) : Prop := {
  rw_budgets : budgets_wf (settings r);
  rw_literal : 0 <= max_literal_match_events (settings r) <= USIZE_MAX;
  rw_evaluations : 0 <= max_regex_evaluations (settings r) <= USIZE_MAX;
  rw_scan : 0 <= max_regex_scan_bytes (settings r) <= USIZE_MAX;
  rw_matches : 0 <= max_regex_matches (settings r) <= USIZE_MAX;
}.

Lemma mark_hits_bounded found hits w w' hits' :
  mark_hits found hits w = (w', Ok hits') -> events w <= max_events w ->
  events w' <= max_events w' /\ max_events w' = max_events w.
Proof.
  revert hits w. induction found as [|i found IH]; intros hits w; cbn [mark_hits].
  { by intros [= <- <-]. }
  unfold mbind, ST_bind, charge. destruct (checked_add _ _ _) as [n|]; [|done].
  destruct (n >? max_events w) eqn:Hn; [done|]. intros Hm%IH Hle; cbn in *; zify_bool; [done|lia].
Qed.

Lemma pattern_hits_bounded c search w w' hits :
  pattern_hits c search w = (w', Ok hits) -> events w <= max_events w ->
  events w' <= max_events w' /\ max_events w' = max_events w.
Proof.
  assert (Hidx : forall idx h w w' hits, index_matches idx h w = (w', Ok hits) ->
    events w <= max_events w -> events w' <= max_events w' /\ max_events w' = max_events w).
  { intros idx h w0 w1 hs. unfold index_matches. destruct (matcher idx);
      [apply mark_hits_bounded|by intros [= <- <-]]. }
  unfold pattern_hits, mbind, ST_bind.
  destruct (index_matches (c_sensitive c) _ w) as [w1 [hs|]] eqn:Hs; [|done].
  destruct (index_matches (c_folded c) _ w1) as [w2 [hf|]] eqn:Hf; [|done].
  intros [= <- _] Hle. destruct (Hidx _ _ _ _ _ Hs Hle) as [H1 H2].
  destruct (Hidx _ _ _ _ _ Hf H1) as [H3 H4]. split; [done|congruence].
Qed.

(** A selection never exceeds what its request allows: the work counters in
    the receipt (literal match events, regex evaluations, bytes scanned, regex
    matches) and the size and tokens of the text are at most the limits of the
    settings. *)
Theorem selection_within_limits (catalog : LorebookCatalog) (generation : Z)
    (c : CompiledCatalog) (request : SelectionRequest) (sel : Selection) :
  request_wf request ->
  compile_catalog catalog generation = Ok c ->
  compute_selection c request = Ok sel ->
  literal_match_events (receipt sel) <= max_literal_match_events (settings request) /\
  regex_evaluations (receipt sel) <= max_regex_evaluations (settings request) /\
  regex_scan_bytes (receipt sel) <= max_regex_scan_bytes (settings request) /\
  regex_matches (receipt sel) <= max_regex_matches (settings request) /\
  len (prompt_text sel) <= max_output_bytes (settings request) /\
  selected_tokens (receipt sel) <= max_output_tokens (settings request).
Proof.
  intros [Hb ? ? ? ?] [Hok _]%compile_catalog_ok Hsel.
  destruct (select_uncached_inv _ _ _ _ _ Hok Hsel)
    as (work & limits & hits & Hph & Hl & Hr & -> & -> & -> & -> & _ & _ & Hp).
  apply pattern_hits_bounded in Hph as [Hw1 Hw2]; [|cbn; lia]. cbn in Hw2.
  destruct (match_candidates_ok c (search_slice request).1 hits (seed request)
    (collect_candidates c hits)) as (_ & _ & Hm).
  specialize (Hm (EvaluationLimits_new request)). rewrite Hl, Hr in Hm.
  destruct Hm as [(Hm1 & Hm2 & Hm3) (_ & Hlim & _)]. cbn in Hm1, Hm2, Hm3.
  destruct Hlim as (? & ? & ?); [unfold limits_ok; cbn; lia|].
  assert (Hwithin : within (settings request) (choose (settings request) [] (spec_matched catalog request))).
  { apply choose_within. destruct Hb as [[? ?] [? ?]]. by split. }
  unfold spec_select in Hp. rewrite pack_chosen in Hp by done. injection Hp as -> _ ->.
  destruct Hwithin. split_and!; try done; lia.
Qed.

(** ** Termination within the limits *)

(** The literal occurrences an index reports, and the conditions of a catalog. *)
Definition found_in (idx : PatternIndex) (haystack : str) : list nat :=
  match matcher idx with Some m => ac_find m haystack | None => [] end.

Definition all_conditions (c : CompiledCatalog) : list CompiledCondition :=
  concat (map (fun e => compiled_conditions_of (ce_activation e)) (c_entries c)).

(** The limits of the request leave room for the work of the worst case: every
    literal occurrence, and every regex of the catalog evaluated once. *)
Record limits_suffice (c : CompiledCatalog) (request : SelectionRequest) : Prop := {
  ls_literal :
    len (found_in (c_sensitive c) (si_sensitive (SearchInput_build request))) +
    len (found_in (c_folded c) (si_folded (SearchInput_build request)))
      <= max_literal_match_events (settings request);
  ls_evaluations : regex_count (all_conditions c) <= max_regex_evaluations (settings request);
  ls_scan : regex_count (all_conditions c) * len (search_slice request).1
      <= max_regex_scan_bytes (settings request);
  ls_matches : match_count (search_slice request).1 (all_conditions c)
      <= max_regex_matches (settings request);
}.

Lemma mark_hits_total found hits w :
  max_events w <= USIZE_MAX ->
  match mark_hits found hits w with
  | (w', Ok _) => max_events w' = max_events w /\ events w' = events w + len found
  | (_, Err e) => e = literal_limit /\ max_events w < events w + len found
  end.
Proof.
  revert hits w. induction found as [|i found IH]; intros hits w Hmax; cbn [mark_hits].
  { cbn. rewrite len_nil. lia. }
  unfold mbind, ST_bind, charge, checked_add. rewrite len_cons. pose proof (len_nonneg found).
  destruct (events w + 1 <=? USIZE_MAX) eqn:Hu; zify_bool; [|split; [done|lia]].
  destruct (events w + 1 >? max_events w) eqn:Hn; zify_bool; [split; [done|lia]|].
  specialize (IH (<[i:=true]> hits) (mkWork (events w + 1) (max_events w)) Hmax). cbn in IH.
  destruct (mark_hits _ _ _) as [w' [?|e]]; [|split; [apply IH|lia]].
  destruct IH as [-> ->]. lia.
Qed.

Lemma pattern_hits_total c search w :
  max_events w <= USIZE_MAX ->
  match pattern_hits c search w with
  | (_, Ok _) => True
  | (_, Err e) => e = literal_limit /\
      max_events w < events w + len (found_in (c_sensitive c) (si_sensitive search)) +
                     len (found_in (c_folded c) (si_folded search))
  end.
Proof.
  assert (Hidx : forall idx h w, max_events w <= USIZE_MAX -> match index_matches idx h w with
    | (w', Ok _) => max_events w' = max_events w /\ events w' = events w + len (found_in idx h)
    | (_, Err e) => e = literal_limit /\ max_events w < events w + len (found_in idx h) end).
  { intros idx h w0 Hm. unfold index_matches, found_in. destruct (matcher idx) as [m|].
    - apply (mark_hits_total _ _ _ Hm).
    - cbn. rewrite len_nil. lia. }
  intros Hmax. unfold pattern_hits, mbind, ST_bind.
  pose proof (Hidx (c_sensitive c) (si_sensitive search) w Hmax) as Hleft.
  pose proof (len_nonneg (found_in (c_folded c) (si_folded search))).
  destruct (index_matches (c_sensitive c) _ w) as [w1 [hs|e]]; [|split; [apply Hleft|lia]].
  destruct Hleft as [Hm1 He1].
  pose proof (Hidx (c_folded c) (si_folded search) w1 ltac:(lia)) as Hright.
  destruct (index_matches (c_folded c) _ w1) as [w2 [hf|e]]; [done|]. split; [apply Hright|lia].
Qed.

Lemma concat_counts_perm raw (f : nat -> list CompiledCondition) l l' :
  l ≡ₚ l' ->
  regex_count (concat (map f l)) = regex_count (concat (map f l')) /\
  match_count raw (concat (map f l)) = match_count raw (concat (map f l')).
Proof.
  induction 1; cbn [map concat]; rewrite ?regex_count_app, ?match_count_app; [done|lia|lia|].
  intuition congruence.
Qed.

(** Matching the candidates costs at most what all conditions cost. *)
Lemma candidate_cost c raw cands :
  NoDup cands -> (forall i, i ∈ cands -> is_Some (c_entries c !! i)) ->
  regex_count (concat (map (index_conditions c) cands)) <= regex_count (all_conditions c) /\
  match_count raw (concat (map (index_conditions c) cands)) <= match_count raw (all_conditions c).
Proof.
  intros Hnd Hin.
  assert (Hall : all_conditions c =
            concat (map (index_conditions c) (seq 0 (length (c_entries c))))).
  { unfold all_conditions. f_equal. apply list_eq. intros i. rewrite !list_lookup_fmap.
    destruct (c_entries c !! i) as [e|] eqn:He.
    - rewrite lookup_seq_lt by (by eapply lookup_lt_Some). cbn. unfold index_conditions.
      by rewrite He.
    - by rewrite lookup_seq_ge by (by apply lookup_ge_None). }
  destruct (submseteq_Permutation cands (seq 0 (length (c_entries c)))) as [k Hk].
  { apply NoDup_submseteq; [done|]. intros i [e He]%Hin. apply elem_of_seq.
    pose proof (lookup_lt_Some _ _ _ He). lia. }
  destruct (concat_counts_perm raw (index_conditions c) _ _ Hk) as [Hleft Hright].
  rewrite Hall, Hleft, Hright, map_app, concat_app, regex_count_app, match_count_app.
  pose proof (counts_nonneg raw (concat (map (index_conditions c) k))). lia.
Qed.

(** A selection fails only by reporting an exceeded search limit, and it
    succeeds whenever the limits leave room for the literal occurrences and for
    evaluating each regex of the catalog once over the searched text. *)
Theorem select_total (catalog : LorebookCatalog) (generation : Z) (c : CompiledCatalog)
    (request : SelectionRequest) :
  request_wf request ->
  compile_catalog catalog generation = Ok c ->
  (forall e, compute_selection c request = Err e -> exists k, e = SearchLimitExceeded k) /\
  (limits_suffice c request -> exists sel, compute_selection c request = Ok sel).
Proof.
  intros [_ Hlit Hev Hsc Hma] [Hok _]%compile_catalog_ok.
  destruct (compute_selection c request) as [sel|e] eqn:Hsel; [split; [done|by eexists]|].
  cut ((exists k, e = SearchLimitExceeded k) /\ ~ limits_suffice c request).
  { intros [? Hn]. split; [by intros ? [= <-]|]. intros Hls. by destruct Hn. }
  revert Hsel. unfold compute_selection, select_uncached.
  pose proof (pattern_hits_total c (SearchInput_build request)
    (mkWork 0 (max_literal_match_events (settings request))) ltac:(cbn; lia)) as Hp.
  destruct (pattern_hits _ _ _) as [work [hits|e']] eqn:Hph; cbn [mbind result_bind].
  2:{ intros [= ->]. destruct Hp as [-> Hp]. split; [by eexists|]. intros [Hl _ _ _].
      cbn in Hp. lia. }
  destruct (collect_candidates_ok _ _ hits (co_index _ _ Hok)) as [Hnd Hin].
  destruct (candidate_cost c (search_slice request).1 (collect_candidates c hits) Hnd) as [Hc1 Hc2].
  { intros i (e' & He' & _)%Hin. by eexists. }
  assert (Hraw : si_regex (SearchInput_build request) = (search_slice request).1)
    by (unfold SearchInput_build; by destruct (search_slice request)).
  rewrite Hraw. destruct (match_candidates_ok c (search_slice request).1 hits (seed request)
    (collect_candidates c hits)) as (Hz1 & Hz2 & Hm).
  specialize (Hm (EvaluationLimits_new request)).
  destruct (match_candidates _ _ _ _ _ _) as [limits [matched|e']]; [done|].
  cbn [fst snd mbind result_bind] in *. intros [= ->]. destruct Hm as (_ & Hk & Hroom).
  split; [done|]. intros [_ Hl1 Hl2 Hl3]. apply Hroom.
  - unfold limits_wide; cbn; lia.
  - pose proof (len_nonneg (search_slice request).1). unfold room; cbn. split_and!; nia.
Qed.
End refinement.
