(* ===== verification/LoreCache.v ===== *)
(** * Lorebook: the selection cache

    A cached selection is the one that would be computed anew.  The key of a
    request hashes unambiguous encodings of everything a selection depends on, so
    two requests with the same key, short of a SHA-256 collision between the
    messages they hash, have the same selection.

    Callers share the engine: [select] holds the lock for the lookup, computes
    without it and takes it again to store, so calls interleave between those
    points, while [replace_catalog] takes the engine exclusively.  [step] is that
    interleaving, and the theorems hold in every reachable state. *)

From stdpp Require Import sorting relations.
From S2P Require Import Prelude Sorting Bytes Utf8 LoreModel LoreEngine LoreSelect.

(** ** Unambiguous encodings *)

Lemma app_inj_length {A} (a b x y : list A) :
  length a = length b -> a ++ x = b ++ y -> a = b /\ x = y.
Proof. intros Hl He. by apply app_inj_1. Qed.

Lemma digest_u64_inj a b x y :
  is_u64 a -> is_u64 b -> digest_u64 a ++ x = digest_u64 b ++ y -> a = b /\ x = y.
Proof.
  intros Ha Hb [He ->]%app_inj_length; [|by rewrite !u64_to_le_bytes_length].
  split; [|done]. by apply u64_to_le_bytes_inj.
Qed.

Lemma digest_text_inj a b x y :
  is_u64 (len a) -> is_u64 (len b) -> digest_text a ++ x = digest_text b ++ y -> a = b /\ x = y.
Proof.
  unfold digest_text. rewrite <- !app_assoc. intros Ha Hb [Hl He]%digest_u64_inj; [|done..].
  unfold len in Hl. apply app_inj_length in He; [done|lia].
Qed.

(** The integers of a request are values of their types, and so are the lengths
    of its strings. *)
Record settings_typed (s : SelectionSettings) : Prop := {
  st_depth : is_u64 (search_depth s);
  st_tokens : is_u64 (max_output_tokens s);
  st_bytes : is_u64 (max_output_bytes s);
  st_literal : is_u64 (max_literal_match_events s);
  st_evaluations : is_u64 (max_regex_evaluations s);
  st_scan : is_u64 (max_regex_scan_bytes s);
  st_matches : is_u64 (max_regex_matches s);
  st_id : is_u64 (len (tokenizer_id s));
  st_rev : is_u64 (len (tokenizer_revision s));
  st_sep : is_u64 (len (separator s));
}.

Definition turn_typed (t : ChatTurn) : Prop :=
  is_u64 (turn_revision t) /\ is_u64 (len (turn_content t)).

Definition summary_typed (s : SummarySnapshot) : Prop :=
  match s with
  | Missing => True
  | Corrupt r => is_u64 r
  | Available r content => is_u64 r /\ is_u64 (len content)
  end.

Record request_typed (r : SelectionRequest) : Prop := {
  rt_settings : settings_typed (settings r);
  rt_turns : Forall turn_typed (recent_turns (conversation r));
  rt_summary : summary_typed (summary (conversation r));
}.

Lemma settings_message_inj s s' :
  settings_typed s -> settings_typed s' ->
  settings_message s = settings_message s' -> tokenizer_message s = tokenizer_message s' -> s = s'.
Proof.
  intros [] [] Hm Ht. unfold settings_message, tokenizer_message in *.
  apply digest_u64_inj in Hm as [? Hm]; [|done..]. apply app_inj_length in Hm as [Hp Hm]; [|done].
  assert (Hpm : partial_messages s = partial_messages s').
  { injection Hp as Hp. destruct (partial_messages s), (partial_messages s'); done. }
  do 6 (apply digest_u64_inj in Hm as [? Hm]; [|done..]).
  rewrite <- (app_nil_r (digest_text (separator s))), <- (app_nil_r (digest_text (separator s'))) in Hm.
  apply digest_text_inj in Hm as [? _]; [|done..].
  apply digest_text_inj in Ht as [? Ht]; [|done..].
  rewrite <- (app_nil_r (digest_text _)), <- (app_nil_r (digest_text (tokenizer_revision s'))) in Ht.
  apply digest_text_inj in Ht as [? _]; [|done..].
  destruct s, s'; cbn in *. congruence.
Qed.

(** What one turn adds to the digest and to the text. *)
Definition turn_message (policy : PartialMessagePolicy) (t : ChatTurn) : bytes :=
  digest_u64 (turn_revision t) ++ [state_byte (turn_state t)] ++
  (if turn_included policy t then digest_text (turn_content t) else []).

Definition turn_text (policy : PartialMessagePolicy) (raw : str) (t : ChatTurn) : str :=
  if turn_included policy t then append_segment raw (turn_content t) else raw.

Lemma search_turns_split policy acc ts :
  foldl (search_turn policy) acc ts =
  (foldl (turn_text policy) acc.1 ts, acc.2 ++ concat (map (turn_message policy) ts)).
Proof.
  revert acc. induction ts as [|t ts IH]; intros [raw dg].
  { cbn. by rewrite app_nil_r. }
  cbn [foldl map concat]. rewrite IH. unfold search_turn, turn_text, turn_message. cbn [fst snd].
  destruct (turn_included policy t); cbn [fst snd]; f_equal; rewrite ?app_nil_r, <- ?app_assoc; done.
Qed.

Lemma state_byte_inj a b : state_byte a = state_byte b -> a = b.
Proof. destruct a, b; cbn; done. Qed.

(** Equal digests of the turns mean equal texts, whatever came before. *)
Lemma turn_messages_inj policy ts ts' raw :
  Forall turn_typed ts -> Forall turn_typed ts' ->
  concat (map (turn_message policy) ts) = concat (map (turn_message policy) ts') ->
  foldl (turn_text policy) raw ts = foldl (turn_text policy) raw ts'.
Proof.
  intros Hts. revert ts' raw. induction Hts as [|t ts [Hr Hc] Hts IH]; intros ts' raw Hts'.
  - inversion Hts' as [|t' ts'' [? ?] ?]; subst; [done|]. cbn [map concat]. intros Hm.
    apply (f_equal length) in Hm. unfold turn_message in Hm.
    rewrite !length_app in Hm. cbn in Hm. lia.
  - inversion Hts' as [|t' ts'' [Hr' Hc'] Hts'']; subst; cbn [map concat].
    { intros Hm. apply (f_equal length) in Hm. unfold turn_message in Hm.
      rewrite !length_app in Hm. cbn in Hm. lia. }
    unfold turn_message at 1 3. rewrite <- !app_assoc.
    intros [_ Hm]%digest_u64_inj; [|done..]. apply app_inj_length in Hm as [Hs Hm]; [|done].
    injection Hs as Hs%state_byte_inj. cbn [foldl].
    assert (Hi : turn_included policy t = turn_included policy t')
      by (unfold turn_included; by rewrite Hs).
    rewrite <- Hi in Hm. unfold turn_text at 2 4. rewrite <- Hi.
    destruct (turn_included policy t); [|by apply IH].
    apply digest_text_inj in Hm as [-> Hm]; [|done..]. by apply IH.
Qed.

Lemma search_summary_inj s s' x y :
  summary_typed s -> summary_typed s' ->
  (search_summary s).2 ++ x = (search_summary s').2 ++ y ->
  (search_summary s).1 = (search_summary s').1 /\ x = y.
Proof.
  assert (Hd : forall (a b : bytes) (p q : byte) u v, SEARCH_DOMAIN ++ p :: u = SEARCH_DOMAIN ++ q :: v ->
            p = q /\ u = v).
  { intros a b p q u v [_ Hv]%app_inj_length; [|done]. by injection Hv. }
  destruct s as [|r|r c], s' as [|r'|r' c']; cbn [search_summary fst snd summary_typed];
    rewrite <- !app_assoc; cbn [app]; intros Hs Hs' [Hb He]%(Hd [] []);
    try (by exfalso; revert Hb; vm_compute).
  - done.
  - apply digest_u64_inj in He as [_ ->]; done.
  - destruct Hs, Hs'. rewrite <- ?app_assoc in He. apply digest_u64_inj in He as [_ He]; [|done..].
    apply digest_text_inj in He as [-> ->]; done.
Qed.

Lemma search_slice_inj r r' :
  request_typed r -> request_typed r' -> settings r = settings r' ->
  (search_slice r).2 = (search_slice r').2 -> (search_slice r).1 = (search_slice r').1.
Proof.
  intros [_ Ht Hs] [_ Ht' Hs'] Hset. unfold search_slice. rewrite !search_turns_split, Hset.
  cbn [fst snd]. intros [-> Hm]%search_summary_inj; [|done..].
  assert (Htail : forall q, Forall turn_typed (recent_turns (conversation q)) ->
            Forall turn_typed (search_tail q)) by (intros q Hq; by apply Forall_drop).
  apply turn_messages_inj; auto.
Qed.

(** ** Equal keys, equal selections *)

Section cache.
Context `{LoreLib}.

(** The messages hashed to make the key of a request. *)
Definition hashed (r : SelectionRequest) : list bytes :=
  [tokenizer_message (settings r); settings_message (settings r); (search_slice r).2].

Definition no_collision (r r' : SelectionRequest) : Prop :=
  forall a b, a ∈ hashed r -> b ∈ hashed r' -> sha256 a = sha256 b -> a = b.

Lemma compute_selection_ext c r r' :
  settings r = settings r' -> seed r = seed r' ->
  chat_revision (conversation r) = chat_revision (conversation r') ->
  branch_revision (conversation r) = branch_revision (conversation r') ->
  (search_slice r).1 = (search_slice r').1 ->
  request_key c r = request_key c r' ->
  compute_selection c r = compute_selection c r'.
Proof.
  intros Hs Hseed Hc Hb Hraw Hk. unfold compute_selection. rewrite Hk.
  unfold select_uncached, pattern_hits, EvaluationLimits_new, SearchInput_build.
  destruct (search_slice r) as [raw d], (search_slice r') as [raw' d']. cbn in Hraw. subst raw'.
  rewrite Hs, Hseed, Hc, Hb. done.
Qed.

Lemma request_key_determines c r r' :
  request_typed r -> request_typed r' -> no_collision r r' ->
  request_key c r = request_key c r' -> compute_selection c r = compute_selection c r'.
Proof.
  intros Hr Hr' Hnc Hk. pose proof Hk as Hk'. revert Hk'.
  unfold request_key, build_cache_key, SearchInput_build.
  destruct (search_slice r) as [raw d] eqn:Hsl, (search_slice r') as [raw' d'] eqn:Hsl'.
  intros [= Hchat Hbranch _ Hseed Ht Hst Hsearch].
  unfold no_collision, hashed in Hnc. rewrite Hsl, Hsl' in Hnc. cbn [snd] in Hnc.
  apply Hnc in Ht; [|set_solver..]. apply Hnc in Hst; [|set_solver..].
  apply Hnc in Hsearch; [|set_solver..].
  assert (Hs : settings r = settings r').
  { apply settings_message_inj; [apply Hr|apply Hr'|done..]. }
  apply compute_selection_ext; try done.
  apply search_slice_inj; try done. by rewrite Hsl, Hsl'.
Qed.

(** ** The cache as a map *)

Lemma cache_get_elem k cache v : cache_get k cache = Some v -> (k, v) ∈ cache.
Proof.
  induction cache as [|[k' v'] cache IH]; cbn [cache_get]; [done|].
  destruct (key_cmp k k') eqn:Hc.
  - intros [= ->]. apply key_cmp_eq in Hc as ->. left.
  - intros ?%IH. by right.
  - intros ?%IH. by right.
Qed.

Lemma cache_insert_elem k v cache p : p ∈ cache_insert k v cache -> p = (k, v) \/ p ∈ cache.
Proof.
  induction cache as [|[k' v'] cache IH]; cbn [cache_insert]; [set_solver|].
  destruct (key_cmp k k'); set_solver.
Qed.

Lemma cache_insert_length k v cache : len (cache_insert k v cache) <= 1 + len cache.
Proof.
  induction cache as [|[k' v'] cache IH]; cbn [cache_insert]; [done|].
  destruct (key_cmp k k'); rewrite ?len_cons in *; lia.
Qed.

(** The keys of a [BTreeMap]: strictly increasing. *)
Definition key_lt (p q : CacheKey * Selection) : Prop := key_cmp p.1 q.1 = Lt.

Lemma cache_insert_sorted k v cache :
  StronglySorted key_lt cache -> StronglySorted key_lt (cache_insert k v cache).
Proof.
  induction 1 as [|[k' v'] cache Hs IH Hall]; cbn [cache_insert]; [by repeat constructor|].
  destruct (key_cmp k k') eqn:Hc.
  - apply key_cmp_eq in Hc as ->. by constructor.
  - constructor; [by constructor|]. constructor; [done|].
    eapply Forall_impl; [|exact Hall]. intros q Hq. unfold key_lt in *. cbn in *.
    by eapply (cmp_trans (cmp := key_cmp)).
  - constructor; [done|]. apply Forall_forall. intros q Hq%list_elem_of_In.
    apply cache_insert_elem in Hq as [->|Hq].
    + unfold key_lt. cbn. rewrite (cmp_antisym (cmp := key_cmp)), Hc. done.
    + rewrite Forall_forall in Hall. apply Hall. by apply list_elem_of_In.
Qed.

Lemma cache_make_room_ok cache :
  len cache <= MAX_CACHE_ENTRIES ->
  len (cache_make_room cache) < MAX_CACHE_ENTRIES /\
  (forall p, p ∈ cache_make_room cache -> p ∈ cache) /\
  (StronglySorted key_lt cache -> StronglySorted key_lt (cache_make_room cache)).
Proof.
  intros Hle. unfold cache_make_room. destruct (len cache >=? MAX_CACHE_ENTRIES) eqn:Hge.
  - destruct cache as [|p cache]; [done|]. cbn [tail]. rewrite len_cons in *.
    split_and!; [lia|intros q Hq; by right|by inversion 1].
  - split_and!; [lia|done|done].
Qed.

(** ** Interleaved callers *)

(** [pending]: the calls that missed the cache and are computing. *)
Record System : Type := mkSystem { engine_of : LorebookEngine; pending : list SelectionRequest }.

Inductive Event : Type :=
  | Answered (request : SelectionRequest) (selection : Selection)
  | Failed_with (request : SelectionRequest) (error : LorebookError)
  | Internal.

Inductive step (Asked : SelectionRequest -> Prop) : System -> Event -> System -> Prop :=
  | step_hit e ps r sel :
      Asked r -> request_validate r = Ok tt ->
      select_lookup e (request_key (compiled e) r) = Some sel ->
      step Asked (mkSystem e ps) (Answered r sel) (mkSystem e ps)
  | step_miss e ps r :
      Asked r -> request_validate r = Ok tt ->
      select_lookup e (request_key (compiled e) r) = None ->
      step Asked (mkSystem e ps) Internal (mkSystem e (r :: ps))
  | step_store e ps1 r ps2 sel :
      compute_selection (compiled e) r = Ok sel ->
      step Asked (mkSystem e (ps1 ++ r :: ps2)) (Answered r sel)
        (mkSystem (select_store (request_key (compiled e) r) sel e) (ps1 ++ ps2))
  | step_fail e ps1 r ps2 err :
      compute_selection (compiled e) r = Err err ->
      step Asked (mkSystem e (ps1 ++ r :: ps2)) (Failed_with r err) (mkSystem e (ps1 ++ ps2))
  | step_replace e catalog e' u :
      replace_catalog catalog e = (e', u) ->
      step Asked (mkSystem e []) Internal (mkSystem e' []).

Inductive reachable (Asked : SelectionRequest -> Prop) : System -> Prop :=
  | reach_new catalog e :
      LorebookEngine_new catalog = Ok e -> reachable Asked (mkSystem e [])
  | reach_step s ev s' : reachable Asked s -> step Asked s ev s' -> reachable Asked s'.

(** Every cached selection is the computed one of a request that was asked, for
    the catalog in force; the cache is an ordered map of bounded size. *)
Record cache_ok (Asked : SelectionRequest -> Prop) (s : System) : Prop := {
  ck_bound : len (cache (engine_of s)) <= MAX_CACHE_ENTRIES;
  ck_sorted : StronglySorted key_lt (cache (engine_of s));
  ck_fresh k v : (k, v) ∈ cache (engine_of s) ->
    exists r, Asked r /\ k = request_key (compiled (engine_of s)) r /\
      compute_selection (compiled (engine_of s)) r = Ok v;
  ck_pending r : r ∈ pending s -> Asked r;
}.

Lemma cache_ok_empty Asked c : cache_ok Asked (mkSystem (mkEngine c []) []).
Proof.
  split; cbn; try done; [constructor|intros k v Hin|intros r Hin];
    by apply not_elem_of_nil in Hin.
Qed.

Lemma replace_catalog_cases catalog e e' u :
  replace_catalog catalog e = (e', u) ->
  (exists c, e' = mkEngine c [] /\ u = Ok tt /\
     compile_catalog catalog (c_generation (compiled e) + 1) = Ok c) \/
  (e' = e /\ exists err, u = Err err).
Proof.
  unfold replace_catalog, st_get, st_lift, st_put, mbind, ST_bind, checked_add.
  destruct (_ <=? _); cbn [ok_or]; [|intros [= <- <-]; right; eauto].
  destruct (compile_catalog _ _) as [c|]; [|intros [= <- <-]; right; eauto].
  intros [= <- <-]. left. eauto.
Qed.

Lemma step_cache_ok Asked s ev s' : cache_ok Asked s -> step Asked s ev s' -> cache_ok Asked s'.
Proof.
  intros [Hb Hs Hf Hp] Hstep.
  destruct Hstep as [e ps r sel Ha Hv Hl|e ps r Ha Hv Hl|e ps1 r ps2 sel Hc|e ps1 r ps2 err Hc
                    |e catalog e' u Hr]; cbn [engine_of pending] in *.
  - by split.
  - split; cbn [engine_of pending]; try done. intros r' [->|?]%elem_of_cons; auto.
  - destruct (cache_make_room_ok (cache e) Hb) as (Hroom & Hsub & Hsrt).
    split; cbn [engine_of pending select_store cache compiled].
    + pose proof (cache_insert_length (request_key (compiled e) r) sel (cache_make_room (cache e))). lia.
    + by apply cache_insert_sorted, Hsrt.
    + intros k v [[= -> ->]|?]%cache_insert_elem; [|auto]. exists r. split; [|done].
      apply Hp. set_solver.
    + intros r' Hr'. apply Hp. set_solver.
  - split; cbn [engine_of pending]; try done. intros r' Hr'. apply Hp. set_solver.
  - apply replace_catalog_cases in Hr as [(c & -> & _)|[-> _]]; [apply cache_ok_empty|by split].
Qed.

Lemma reachable_cache_ok Asked s : reachable Asked s -> cache_ok Asked s.
Proof.
  induction 1 as [catalog e Hnew|s ev s' _ IH Hstep]; [|by eapply step_cache_ok].
  apply bind_Ok in Hnew as (c & _ & [= <-]). apply cache_ok_empty.
Qed.

(** ** What callers see *)

(** C6: However calls interleave, and whatever catalogs were replaced before, an
    answered selection is the one computed anew for that request on the catalog in
    force, except that a cached answer is marked as a cache hit; this supposes that
    no two of the requests asked hash different messages to one SHA-256 digest. *)
Theorem answers_are_fresh (Asked : SelectionRequest -> Prop) (s s' : System)
    (r : SelectionRequest) (sel : Selection) :
  (forall r, Asked r -> request_typed r) ->
  (forall r r', Asked r -> Asked r' -> no_collision r r') ->
  reachable Asked s -> step Asked s (Answered r sel) s' ->
  exists fresh, compute_selection (compiled (engine_of s)) r = Ok fresh /\
    (sel = fresh \/ sel = with_cache_hit fresh).
Proof.
  intros Htyped Hnc Hreach%reachable_cache_ok Hstep.
  inversion Hstep as [e ps r0 sel0 Ha Hv Hl| |e ps1 r0 ps2 sel0 Hc| |]; subst; cbn [engine_of] in *.
  - unfold select_lookup in Hl. apply fmap_Some in Hl as (v & Hget%cache_get_elem & ->).
    destruct (ck_fresh _ _ Hreach _ _ Hget) as (r' & Ha' & Hk & Hsel). cbn [engine_of] in *.
    exists v. split; [|by right]. rewrite <- Hsel.
    apply request_key_determines; auto.
  - exists sel. split; [done|by left].
Qed.

(** In every reachable state the cache holds at most sixteen selections, its
    keys are strictly increasing, and each belongs to the catalog revision and
    generation in force, so nothing computed for a replaced catalog is ever
    found. *)
Theorem cache_bounded_and_current (Asked : SelectionRequest -> Prop) (s : System) :
  reachable Asked s ->
  len (cache (engine_of s)) <= MAX_CACHE_ENTRIES /\
  StronglySorted key_lt (cache (engine_of s)) /\
  forall k v, (k, v) ∈ cache (engine_of s) ->
    k_catalog_generation k = c_generation (compiled (engine_of s)) /\
    k_catalog_revision k = c_revision (compiled (engine_of s)) /\
    catalog_revision (receipt v) = c_revision (compiled (engine_of s)).
Proof.
  intros [Hb Hs Hf _]%reachable_cache_ok. split_and!; [done..|].
  intros k v (r & _ & -> & Hsel)%Hf. split_and!; [done..|].
  revert Hsel. unfold compute_selection, select_uncached.
  destruct (pattern_hits _ _ _) as [? [?|]]; [|done]. cbn [mbind result_bind].
  destruct (match_candidates _ _ _ _ _ _) as [? [?|]]; [|done]. by intros [= <-].
Qed.

(** [select], called with nothing interleaved, is a run of the steps: a cache
    hit is one step, a miss is a lookup followed by a store or by a failure that
    leaves the engine unchanged, and a request that does not validate is refused
    without touching the engine. *)
Theorem select_is_a_run (Asked : SelectionRequest -> Prop) (e e' : LorebookEngine)
    (ps : list SelectionRequest) (r : SelectionRequest) (res : Result Selection) :
  Asked r -> select r e = (e', res) ->
  match res with
  | Ok sel =>
      step Asked (mkSystem e ps) (Answered r sel) (mkSystem e' ps) \/
      exists mid, step Asked (mkSystem e ps) Internal mid /\
                  step Asked mid (Answered r sel) (mkSystem e' ps)
  | Err err =>
      e' = e /\
      (request_validate r = Err err \/
       exists mid, step Asked (mkSystem e ps) Internal mid /\
                   step Asked mid (Failed_with r err) (mkSystem e' ps))
  end.
Proof.
  intros Ha. unfold select, st_lift, st_get, st_modify, mbind, ST_bind.
  destruct (request_validate r) as [[]|err] eqn:Hv; [|by intros [= <- <-]; auto].
  destruct (select_lookup e _) as [sel|] eqn:Hl.
  { intros [= <- <-]. left. by apply step_hit. }
  destruct (compute_selection (compiled e) r) as [sel|err] eqn:Hc; intros [= <- <-].
  - right. exists (mkSystem e (r :: ps)). split; [by apply step_miss|].
    by apply (step_store _ e [] r ps).
  - split; [done|]. right. exists (mkSystem e (r :: ps)). split; [by apply step_miss|].
    by apply (step_fail _ e [] r ps).
Qed.

(** Replacing the catalog either succeeds, and then the generation counter
    grows by one, the indexes are those compiled from the new catalog and no key
    is found in the cache, or fails and leaves the engine as it was. *)
Theorem replace_catalog_invalidates (catalog : LorebookCatalog) (e e' : LorebookEngine)
    (u : Result unit) :
  replace_catalog catalog e = (e', u) ->
  match u with
  | Ok _ =>
      compile_catalog catalog (c_generation (compiled e) + 1) = Ok (compiled e') /\
      forall k, select_lookup e' k = None
  | Err _ => e' = e
  end.
Proof.
  intros [(c & -> & -> & Hc)|[-> [err ->]]]%replace_catalog_cases; [|done]. done.
Qed.

(** The selection evicted from a full cache is the one with the least key, not
    the oldest: a selection just stored under the least key is the first to go,
    whatever is stored next. *)
Theorem eviction_ignores_age (e : LorebookEngine) (k k' : CacheKey) (v v' : Selection) :
  len (cache e) = MAX_CACHE_ENTRIES -> StronglySorted key_lt (cache e) ->
  Forall (fun p => key_cmp k p.1 = Lt) (cache e) -> key_cmp k k' = Lt ->
  select_lookup (select_store k v e) k <> None /\
  select_lookup (select_store k' v' (select_store k v e)) k = None.
Proof.
  intros Hlen Hs Hall Hk. destruct e as [c l]. cbn [cache compiled] in *.
  unfold select_store, select_lookup. cbn [cache compiled].
  destruct l as [|p l]; [done|]. inversion Hall as [|? ? Hp Hl]; subst.
  assert (Hroom : cache_make_room (p :: l) = l).
  { unfold cache_make_room. rewrite Hlen. done. }
  assert (Hins : cache_insert k v l = (k, v) :: l).
  { destruct l as [|[k1 v1] l]; [done|]. cbn [cache_insert].
    inversion Hl as [|? ? Hk1 _]; subst. cbn in Hk1. by rewrite Hk1. }
  assert (Hroom2 : cache_make_room ((k, v) :: l) = l).
  { unfold cache_make_room. rewrite len_cons in *. by rewrite Hlen. }
  rewrite Hroom, Hins, Hroom2. cbn [cache_get]. rewrite (proj2 (key_cmp_eq k k) eq_refl).
  split; [done|].
  destruct (cache_get k (cache_insert k' v' l)) as [w|] eqn:Hg; [|done]. exfalso.
  apply cache_get_elem, cache_insert_elem in Hg as [[= -> ->]|Hin].
  - by rewrite (proj2 (key_cmp_eq k' k') eq_refl) in Hk.
  - rewrite Forall_forall in Hl. apply list_elem_of_In, Hl in Hin. cbn in Hin.
    by rewrite (proj2 (key_cmp_eq k k) eq_refl) in Hin.
Qed.
End cache.
