(* ===== verification/LoreImport.v ===== *)
(** * Lorebook: portable import and export

    Models [crates/lorepia-lorebook/src/import.rs].  JSON encoding and decoding of
    the envelope are [serde_json]'s and the derived implementations, the class
    [EnvelopeJson]; what the code relies on is that a written envelope reads back
    ([EnvelopeJsonLaws]).

    An untrusted import is inert: every entry is disabled, so an engine over it
    selects nothing, whatever is asked; a trusted import gives back exactly what was
    exported. *)

From S2P Require Import Prelude Bytes Utf8 LoreModel LoreEngine LoreSelect LoreMatch.

Definition IMPORT_FORMAT : str := lit "lorepia.lorebook".
Definition IMPORT_SCHEMA_VERSION : Z := 1.

Inductive ImportTrust : Type := Untrusted | LocallyTrusted.

#[export] Instance ImportTrust_eq_dec : EqDecision ImportTrust.
Proof. solve_decision. Defined.

Record ImportEnvelope : Type := mkEnvelope {
  format : str;
  schema_version : Z;
  catalog : LorebookCatalog;
}.

#[export] Instance ImportEnvelope_eq_dec : EqDecision ImportEnvelope.
Proof. solve_decision. Defined.

(** [serde_json::Error::classify]. *)
Inductive JsonCategory : Type := JsonIo | JsonSyntax | JsonData | JsonEof.

Class EnvelopeJson : Type := {
  from_slice : bytes -> result JsonCategory ImportEnvelope;
  to_vec_pretty : ImportEnvelope -> option bytes;
}.

Class EnvelopeJsonLaws `{EnvelopeJson} : Prop := {
  json_reads_back e bs : to_vec_pretty e = Some bs -> from_slice bs = Ok e;
}.

Definition json_error (c : JsonCategory) : LorebookError :=
  match c with JsonSyntax | JsonEof => ImportSyntax | _ => ImportSchema end.

Section import.
Context `{EnvelopeJson}.

(** [for entry in entries_mut() { entry.set_enabled(false) }] *)
Definition disable_all (c : LorebookCatalog) : LorebookCatalog :=
  mkCatalog (revision c) (map (fun entry => set_enabled entry false) (entries c)).

Definition import_catalog_with_trust (bs : bytes) (trust : ImportTrust) : Result LorebookCatalog :=
  if len bs >? MAX_IMPORT_BYTES then Err (PayloadTooLarge "import" MAX_IMPORT_BYTES)
  else
    envelope ← map_err json_error (from_slice bs);
    if negb (str_eqb (format envelope) IMPORT_FORMAT) then Err ImportSchema
    else if negb (schema_version envelope =? IMPORT_SCHEMA_VERSION) then Err UnsupportedImportVersion
    else
      _ ← catalog_validate (catalog envelope);
      mret (if decide (trust = Untrusted) then disable_all (catalog envelope)
            else catalog envelope).

Definition import_catalog (bs : bytes) : Result LorebookCatalog :=
  import_catalog_with_trust bs Untrusted.

Definition import_trusted_engine `{LoreLib} (bs : bytes) : Result LorebookEngine :=
  catalog ← import_catalog_with_trust bs LocallyTrusted;
  LorebookEngine_new catalog.

Definition export_catalog (c : LorebookCatalog) : Result bytes :=
  _ ← catalog_validate c;
  bs ← ok_or (to_vec_pretty (mkEnvelope IMPORT_FORMAT IMPORT_SCHEMA_VERSION c)) Serialization;
  if len bs >? MAX_IMPORT_BYTES then Err (PayloadTooLarge "export" MAX_IMPORT_BYTES)
  else mret bs.

(** ** Facts *)

Lemma disable_all_ok c : catalog_ok c -> catalog_ok (disable_all c).
Proof.
  intros [Hr Hc Hv Hn Hs]. unfold disable_all. split; cbn [revision entries].
  - done.
  - unfold len in *. by rewrite length_map.
  - apply Forall_map. done.
  - by rewrite map_map.
  - replace (catalog_bytes (map _ (entries c))) with (catalog_bytes (entries c)); [done|].
    unfold catalog_bytes. clear. induction (entries c); cbn [map foldr]; [done|]. by f_equal.
Qed.

Lemma disable_all_inactive c : active_entries (disable_all c) = [].
Proof. unfold active_entries, disable_all. cbn. by induction (entries c). Qed.

Lemma import_untrusted_inv bs c :
  import_catalog bs = Ok c -> catalog_validate c = Ok tt /\ active_entries c = [].
Proof.
  unfold import_catalog, import_catalog_with_trust.
  destruct (_ >? _); [done|]. intros (env & _ & Hi)%bind_Ok. revert Hi.
  destruct (negb _); [done|]. destruct (negb _); [done|].
  intros ([] & Hv & Hret)%bind_Ok. rewrite decide_True in Hret by done. injection Hret as <-.
  split; [|apply disable_all_inactive].
  by apply catalog_validate_ok, disable_all_ok, catalog_validate_ok.
Qed.

(** A catalog with nothing enabled compiles to empty indexes. *)
Lemma compile_inactive `{LoreLib} c generation :
  catalog_validate c = Ok tt -> active_entries c = [] ->
  compile_catalog c generation =
  Ok (mkCCatalog (revision c) generation [] (mkIndex None [] []) (mkIndex None [] []) []).
Proof.
  intros Hv Ha. unfold compile_catalog. rewrite Hv. unfold active_entries in Ha. by rewrite Ha.
Qed.

(** A catalog imported without trust cannot influence any prompt: importing
    leaves every entry disabled, an engine is built over it without compiling a
    pattern, and every valid request is answered with the empty text. *)
Theorem untrusted_import_is_inert `{LoreLib} (bs : bytes) (c : LorebookCatalog) :
  import_catalog bs = Ok c ->
  Forall (fun e => enabled e = false) (entries c) /\
  exists e, LorebookEngine_new c = Ok e /\
    forall request, request_validate request = Ok tt ->
    exists e' sel, select request e = (e', Ok sel) /\
      prompt_text sel = [] /\ selected_ids (receipt sel) = [].
Proof.
  intros [Hv Ha]%import_untrusted_inv. split.
  { unfold active_entries in Ha. revert Ha. clear. induction (entries c) as [|e es IH]; [done|].
    cbn [List.filter]. destruct (enabled e) eqn:He; [done|]. intros Ha. constructor; auto. }
  unfold LorebookEngine_new. rewrite compile_inactive by done. eexists. split; [done|].
  intros request Hr. unfold select, st_lift, st_get, st_modify, mbind, ST_bind.
  rewrite Hr. cbn [select_lookup cache cache_get fmap option_fmap option_map compiled].
  do 2 eexists. split; [done|]. done.
Qed.

(** What is exported can be imported again: a trusted import of an exported
    catalog returns it unchanged, and an untrusted import returns it with every
    entry disabled. *)
Theorem export_import_roundtrip `{!EnvelopeJsonLaws} (c : LorebookCatalog) (bs : bytes) :
  export_catalog c = Ok bs ->
  import_catalog_with_trust bs LocallyTrusted = Ok c /\
  import_catalog bs = Ok (disable_all c).
Proof.
  unfold export_catalog. intros ([] & Hv & Hx)%bind_Ok.
  apply bind_Ok in Hx as (bs' & Hbs%ok_or_Ok & Hx).
  destruct (len bs' >? MAX_IMPORT_BYTES) eqn:Hl; [done|]. injection Hx as <-.
  unfold import_catalog, import_catalog_with_trust.
  rewrite Hl, (json_reads_back _ _ Hbs). cbn [map_err mbind result_bind format schema_version catalog].
  rewrite str_eqb_refl. cbn [negb]. rewrite Hv. done.
Qed.
End import.
