(* ===== verification/LoreExamples.v ===== *)
(** * Lorebook: a concrete engine

    The parameters of the lorebook instantiated by small concrete functions, a
    catalog with a constant, a literal and a regex entry, a request, and the
    theorems of the component applied to them. *)

From stdpp Require Import sorting.
From S2P Require Import Prelude Sorting Bytes Utf8 LoreModel LoreEngine LoreSelect.
From S2P Require Import LoreMatch LoreSelect LoreRefine LoreCache LoreImport.

Module LoreExamples.

(** ASCII case folding, patterns reported once each, a regex that is its literal
    text, and a digest that keeps its message. *)
Definition find_patterns (patterns : list str) (haystack : str) : list nat :=
  List.filter (fun i => match patterns !! i with Some p => contains haystack p | None => false end)
    (seq 0 (length patterns)).

#[export] Instance example_lib : LoreLib := {
  nfkc s := s;
  char_to_lowercase c := [if (65 <=? c) && (c <=? 90) then c + 32 else c];
  Matcher := list str;
  ac_build patterns := Some patterns;
  ac_find := find_patterns;
  RegexT := str;
  regex_build pattern _ := Some pattern;
  regex_matches_in pattern text := if contains text pattern then 1%nat else O;
  sha256 message := message;
}.

#[export] Instance example_laws : LoreLaws.
Proof.
  split. intros patterns m haystack i [= <-]. unfold ac_find, example_lib, find_patterns.
  rewrite list_elem_of_filter_bool, elem_of_seq. split.
  - intros [Hc _]. destruct (patterns !! i) as [p|]; [eauto|done].
  - intros (p & Hp & Hc). rewrite Hp. split; [done|]. apply lookup_lt_Some in Hp. lia.
Qed.

Definition entry (name : string) (prio : Z) (a : Activation) (text : string) : LoreEntry :=
  mkEntry (lit name) Global prio 0 true a (lit text) 10.

Definition example_catalog : LorebookCatalog := mkCatalog 1
  [ entry "intro" 0 Constant "The city is Aldor.";
    entry "dragon" 5 (Selective (MatchConditions_any [MatchCondition_literal (lit "Dragon")]))
      "Dragons sleep by day.";
    entry "storm" 9 (Selective (MatchConditions_any [MatchCondition_regex (lit "storm") (lit "storm")]))
      "Storms come from the north.";
    entry "moon" 3 (Probability 10000 None) "Two moons." ].

Definition example_settings : SelectionSettings :=
  mkSettings 2 Exclude 100 60 100 100 10000 100 (lit "tok") (lit "1") (lit "|").

Definition example_request : SelectionRequest :=
  mkRequest
    (mkConversation 7 1 2
       [mkTurn 1 Complete (lit "A   DRAGON appeared"); mkTurn 2 Partial (lit "storm")]
       Missing)
    example_settings 42.

Definition ok_or_default {E A} (d : A) (r : result E A) : A :=
  match r with Ok a => a | Err _ => d end.

Definition example_compiled : CompiledCatalog :=
  ok_or_default (mkCCatalog 0 0 [] (mkIndex None [] []) (mkIndex None [] []) [])
    (compile_catalog example_catalog 1).

Definition example_engine : LorebookEngine := mkEngine example_compiled [].

Definition empty_selection : Selection :=
  mkSelection [] (mkReceipt 0 0 0 [] false 0 0 [] 0 0 0 0 0 0).

Definition example_selection : Selection :=
  ok_or_default empty_selection (compute_selection example_compiled example_request).

Lemma compiled_eq : compile_catalog example_catalog 1 = Ok example_compiled.
Proof. vm_compute. reflexivity. Qed.

Lemma selection_eq : compute_selection example_compiled example_request = Ok example_selection.
Proof. vm_compute. reflexivity. Qed.

(** Three entries in order of priority; the storm occurs only in a partial message,
    which the settings exclude. *)
Lemma example_text :
  prompt_text example_selection = lit "Dragons sleep by day.|Two moons.|The city is Aldor." /\
  selected_ids (receipt example_selection) = [lit "dragon"; lit "moon"; lit "intro"].
Proof. vm_compute. auto. Qed.

Lemma example_wf : request_wf example_request.
Proof. split; vm_compute; repeat split; discriminate. Qed.

Lemma example_typed : request_typed example_request.
Proof.
  split; [split; vm_compute; split; discriminate| |exact I].
  repeat constructor; vm_compute; discriminate.
Qed.

Lemma select_refines_spec_witness :
  prompt_text example_selection = p_text (spec_select example_catalog example_request).
Proof. exact (proj1 (select_refines_spec _ _ _ _ _ compiled_eq selection_eq)). Defined.

Lemma selection_within_limits_witness :
  literal_match_events (receipt example_selection) <= 100.
Proof.
  exact (proj1 (selection_within_limits _ _ _ _ _ example_wf compiled_eq selection_eq)).
Defined.

Lemma select_total_witness : exists sel, compute_selection example_compiled example_request = Ok sel.
Proof.
  apply (proj2 (select_total _ _ _ _ example_wf compiled_eq)).
  split; vm_compute; discriminate.
Defined.

Lemma pack_maximal_within_budget_witness :
  exists chosen, chosen `sublist_of` entries example_catalog /\
    p_ids (pack example_settings (entries example_catalog)) = map id chosen.
Proof.
  destruct (pack_maximal_within_budget example_settings (entries example_catalog))
    as (chosen & Hs & _ & Hi & _).
  - vm_compute. repeat split; discriminate.
  - repeat constructor; vm_compute; discriminate.
  - eauto.
Defined.

Lemma probability_monotone_witness :
  probability_admits 42 (lit "moon") 0 = false /\ probability_admits 42 (lit "moon") 10000 = true.
Proof. apply (probability_monotone 42 (lit "moon") 4500 5000); lia. Defined.

(** A run: one miss, its store, then a hit. *)
Definition Asked (r : SelectionRequest) : Prop := r = example_request.

Definition stored_engine : LorebookEngine :=
  select_store (request_key example_compiled example_request) example_selection example_engine.

Lemma example_valid : request_validate example_request = Ok tt.
Proof. vm_compute. reflexivity. Qed.

Lemma stored_reachable : reachable Asked (mkSystem stored_engine []).
Proof.
  eapply reach_step; [eapply reach_step; [apply (reach_new _ example_catalog example_engine)|]|].
  - unfold LorebookEngine_new. rewrite compiled_eq. reflexivity.
  - apply (step_miss _ example_engine [] example_request); [done|exact example_valid|reflexivity].
  - apply (step_store _ example_engine [] example_request []). exact selection_eq.
Qed.

Lemma stored_hit :
  step Asked (mkSystem stored_engine []) (Answered example_request (with_cache_hit example_selection))
    (mkSystem stored_engine []).
Proof. apply step_hit; [done|exact example_valid|vm_compute; reflexivity]. Qed.

Lemma answers_are_fresh_witness :
  exists fresh, compute_selection (compiled stored_engine) example_request = Ok fresh /\
    (with_cache_hit example_selection = fresh \/
     with_cache_hit example_selection = with_cache_hit fresh).
Proof.
  refine (answers_are_fresh Asked _ _ _ _ _ _ stored_reachable stored_hit).
  - intros r ->. exact example_typed.
  - intros r r' _ _ a b _ _ Hab. exact Hab.
Defined.

Lemma cache_bounded_and_current_witness : len (cache stored_engine) <= MAX_CACHE_ENTRIES.
Proof. exact (proj1 (cache_bounded_and_current Asked _ stored_reachable)). Defined.

Lemma select_is_a_run_witness :
  step Asked (mkSystem stored_engine []) (Answered example_request (with_cache_hit example_selection))
    (mkSystem stored_engine []) \/
  exists mid, step Asked (mkSystem stored_engine []) Internal mid /\
    step Asked mid (Answered example_request (with_cache_hit example_selection))
      (mkSystem stored_engine []).
Proof.
  apply (select_is_a_run Asked stored_engine stored_engine [] example_request
           (Ok (with_cache_hit example_selection))); [reflexivity|vm_compute; reflexivity].
Defined.

Definition replaced_engine : LorebookEngine :=
  mkEngine (ok_or_default example_compiled (compile_catalog example_catalog 2)) [].

Lemma replace_catalog_invalidates_witness :
  compile_catalog example_catalog 2 = Ok (compiled replaced_engine) /\
  forall k, select_lookup replaced_engine k = None.
Proof.
  apply (replace_catalog_invalidates example_catalog stored_engine replaced_engine (Ok tt)).
  vm_compute. reflexivity.
Defined.

(** A full cache, and a key below all of its keys. *)
Definition small_key (n : Z) : CacheKey := mkKey 1 1 n 0 0 0 [] [] [].

Definition full_engine : LorebookEngine :=
  mkEngine example_compiled (map (fun n => (small_key (Z.of_nat n), empty_selection)) (seq 1 16)).

Lemma eviction_ignores_age_witness :
  select_lookup (select_store (small_key 0) empty_selection full_engine) (small_key 0) <> None /\
  select_lookup (select_store (small_key 99) empty_selection
    (select_store (small_key 0) empty_selection full_engine)) (small_key 0) = None.
Proof.
  apply eviction_ignores_age.
  - reflexivity.
  - repeat constructor.
  - repeat constructor.
  - reflexivity.
Defined.

(** An envelope codec that knows one document. *)
Definition example_envelope : ImportEnvelope :=
  mkEnvelope IMPORT_FORMAT IMPORT_SCHEMA_VERSION example_catalog.
Definition example_document : bytes := lit "{document}".

#[export] Instance example_envelope_json : EnvelopeJson := {
  from_slice bs := if str_eqb bs example_document then Ok example_envelope else Err JsonSyntax;
  to_vec_pretty e := if decide (e = example_envelope) then Some example_document else None;
}.

#[export] Instance example_envelope_laws : EnvelopeJsonLaws.
Proof.
  split. intros e bs. cbn [to_vec_pretty example_envelope_json].
  case_decide as He; [|done]. intros [= <-]. subst e. reflexivity.
Qed.

Lemma untrusted_import_is_inert_witness :
  exists e, LorebookEngine_new (disable_all example_catalog) = Ok e /\
    exists e' sel, select example_request e = (e', Ok sel) /\ prompt_text sel = [].
Proof.
  destruct (untrusted_import_is_inert example_document (disable_all example_catalog))
    as (_ & e & He & Hsel); [vm_compute; reflexivity|].
  exists e. split; [exact He|]. destruct (Hsel example_request example_valid) as (e' & sel & Hs & Hp & _).
  exists e', sel. auto.
Defined.

Lemma export_import_roundtrip_witness :
  import_catalog_with_trust example_document LocallyTrusted = Ok example_catalog.
Proof.
  refine (proj1 (export_import_roundtrip example_catalog example_document _)).
  vm_compute. reflexivity.
Defined.

End LoreExamples.
