(* ===== verification/ToolSchema.v ===== *)
(** * Tool runtime: JSON limits, canonical JSON and schemas

    Models [crates/lorepia-tool-runtime/src/error.rs], [json.rs] and [schema.rs]:
    the bounded check of a JSON document by an explicit stack, the canonical
    encoding that approvals are bound to, the closed subset of JSON Schema that a
    tool definition may use, and the validation of call arguments against it.

    [serde_json]'s number type, its conversions and its writers are the class
    [ToolJson]; [f64] is a type with its comparisons. *)

From S2P Require Import Prelude Bytes Utf8 Json.

(** ** Errors (error.rs) *)

Inductive ToolRuntimeError : Type :=
  | EmptyField (field : string)
  | FieldTooLong (field : string) (max_bytes : Z)
  | InvalidName (field : string)
  | InvalidJson
  | JsonTooLarge (field : string) (max_bytes : Z)
  | JsonTooDeep (field : string) (max_depth : Z)
  | JsonTooManyNodes (field : string) (max_nodes : Z)
  | JsonMustBeObject (field : string)
  | InvalidInputSchema (reason : string)
  | InvalidToolArguments (reason : string)
  | PolicyDenied (tool_name : str)
  | ApprovalRequired
  | InvalidApprovalLifetime
  | InvalidApprovalToken
  | ApprovalExpired
  | ApprovalReplay
  | ApprovalLedgerFull
  | InternalState
  | ToolNotRegistered (tool_name : str)
  | DuplicateTool (tool_name : str)
  | TooManyTools (max : Z)
  | InvalidExecutorCode
  | ExecutorFailed (code : str)
  | UnsupportedMcpTransport
  | InvalidMcpEndpoint (reason : string)
  | ForbiddenMcpHost
  | InvalidCredentialReference.

Abbreviation ToolResultOf := (result ToolRuntimeError).

(** ** Limits (schema.rs) *)

Definition MAX_TOOL_NAME_BYTES : Z := 64.
Definition MAX_CALL_ID_BYTES : Z := 128.
Definition MAX_DESCRIPTION_BYTES : Z := 4 * 1024.
Definition MAX_INPUT_SCHEMA_BYTES : Z := 32 * 1024.
Definition MAX_TOOL_ARGUMENT_BYTES : Z := 64 * 1024.
Definition MAX_TOOL_OUTPUT_BYTES : Z := 64 * 1024.
Definition MAX_JSON_DEPTH : Z := 16.
Definition MAX_JSON_NODES : Z := 4096.
Definition MAX_DEFINITION_DOCUMENT_BYTES : Z := MAX_INPUT_SCHEMA_BYTES + MAX_DESCRIPTION_BYTES + 1024.
Definition MAX_CALL_DOCUMENT_BYTES : Z := MAX_TOOL_ARGUMENT_BYTES + 1024.

Class ToolJson (Num : Type) : Type := {
  tj_serde :: SerdeJson Num;
  (** [Number]: equality, [to_string], [as_f64]. *)
  num_eqb : Num -> Num -> bool;
  num_to_string : Num -> str;
  F64 : Type;
  num_as_f64 : Num -> option F64;
  f64_is_finite : F64 -> bool;
  f64_ltb : F64 -> F64 -> bool;
  (** [serde_json::to_string] of a string and [serde_json::to_vec] of a value. *)
  json_string : str -> option str;
  json_to_vec : Value Num -> option bytes;
}.

(** ** JSON limits and canonical form (json.rs) *)

(** The number of nodes of a value. *)
Fixpoint node_count {Num} (v : Value Num) : nat :=
  S (match v with
     | Array items => foldr (fun c n => (node_count c + n)%nat) O items
     | Object members => foldr (fun '(_, c) n => (node_count c + n)%nat) O members
     | _ => O
     end).

Section tools.
Context {Num : Type} `{ToolJson Num}.
Implicit Types v : Value Num.

Definition parse_document (bs : bytes) (field : string) (max_bytes : Z) : ToolResultOf (Value Num) :=
  if len bs >? max_bytes then Err (JsonTooLarge field max_bytes)
  else ok_or (json_from_str bs) InvalidJson.

(** [while let Some((node, depth)) = stack.pop()]: the stack is a list with its
    top first; [extend] pushes the children in order, so the last is on top.  The
    fuel counts the nodes still to visit. *)
Fixpoint limits_loop (fuel : nat) (field : string) (max_depth max_nodes : Z)
    (stack : list (Value Num * Z)) (nodes : Z) : ToolResultOf unit :=
  match fuel, stack with
  | _, [] => Ok tt
  | O, _ => Err InternalState
  | S fuel', (node, depth) :: stack' =>
      match checked_add USIZE_MAX nodes 1 with
      | None => Err (JsonTooManyNodes field max_nodes)
      | Some nodes =>
          if nodes >? max_nodes then Err (JsonTooManyNodes field max_nodes)
          else if depth >? max_depth then Err (JsonTooDeep field max_depth)
          else limits_loop fuel' field max_depth max_nodes
                 (rev (map (fun c => (c, depth + 1)) (children node)) ++ stack') nodes
      end
  end.

Definition validate_json_limits v (field : string) (max_bytes max_depth max_nodes : Z) :
    ToolResultOf unit :=
  _ ← limits_loop (node_count v) field max_depth max_nodes [(v, 1)] 0;
  serialized ← ok_or (json_to_vec v) InvalidJson;
  if len serialized >? max_bytes then Err (JsonTooLarge field max_bytes) else Ok tt.

(** [sort_unstable_by_key] on distinct keys. *)
Fixpoint insert_by_key (m : str * bytes) (l : list (str * bytes)) : list (str * bytes) :=
  match l with
  | [] => [m]
  | m' :: l' => match str_cmp m.1 m'.1 with Gt => m' :: insert_by_key m l' | _ => m :: l end
  end.

Definition sort_by_key (l : list (str * bytes)) : list (str * bytes) := foldr insert_by_key [] l.

(** The members' values are written first and then put in key order; the only
    error is [InvalidJson], so the order of writing does not show. *)
Fixpoint write_canonical v : ToolResultOf bytes :=
  match v with
  | Null => Ok (lit "null")
  | Bool b => Ok (lit (if b then "true" else "false"))
  | Number n => Ok (num_to_string n)
  | Str s => ok_or (json_string s) InvalidJson
  | Array items =>
      parts ← mapM_result write_canonical items;
      mret (lit "[" ++ join (lit ",") parts ++ lit "]")
  | Object members =>
      entries ← mapM_result (fun '(key, item) =>
                  text ← write_canonical item; mret (key, text)) members;
      parts ← mapM_result (fun '(key, text) =>
                name ← ok_or (json_string key) InvalidJson;
                mret (name ++ lit ":" ++ text)) (sort_by_key entries);
      mret (lit "{" ++ join (lit ",") parts ++ lit "}")
  end.

Definition canonical_json v : ToolResultOf bytes := write_canonical v.

(** ** Values *)

(** Derived equality of [Value]. *)
Fixpoint value_eqb v w : bool :=
  match v, w with
  | Null, Null => true
  | Bool a, Bool b => Bool.eqb a b
  | Number a, Number b => num_eqb a b
  | Str a, Str b => str_eqb a b
  | Array a, Array b =>
      (fix go (a b : list (Value Num)) : bool :=
         match a, b with
         | [], [] => true
         | x :: a', y :: b' => value_eqb x y && go a' b'
         | _, _ => false
         end) a b
  | Object a, Object b =>
      (fix go (a b : list (str * Value Num)) : bool :=
         match a, b with
         | [], [] => true
         | (k, x) :: a', (l, y) :: b' => str_eqb k l && value_eqb x y && go a' b'
         | _, _ => false
         end) a b
  | _, _ => false
  end.

Definition as_f64 v : option F64 := match v with Number n => num_as_f64 n | _ => None end.
Definition value_matches_type v (kind : str) : bool :=
  if str_eqb kind (lit "object") then is_object v
  else if str_eqb kind (lit "array") then match v with Array _ => true | _ => false end
  else if str_eqb kind (lit "string") then match v with Str _ => true | _ => false end
  else if str_eqb kind (lit "number") then match v with Number _ => true | _ => false end
  else if str_eqb kind (lit "integer") then is_some (as_i64 v) || is_some (as_u64 v)
  else if str_eqb kind (lit "boolean") then match v with Bool _ => true | _ => false end
  else if str_eqb kind (lit "null") then match v with Null => true | _ => false end
  else false.

(** ** Identifiers *)

Definition identifier_byte (allow_colon : bool) (b : byte) : bool :=
  is_ascii_alphanumeric b || one_of "_.-" b || (allow_colon && one_of ":" b).

Definition validate_ascii_identifier (value : str) (field : string) (max_bytes : Z)
    (allow_colon : bool) : ToolResultOf unit :=
  match value with
  | [] => Err (EmptyField field)
  | first :: rest =>
      if len value >? max_bytes then Err (FieldTooLong field max_bytes)
      else
        let first_is_valid :=
          if String.eqb field "tool_name" then is_ascii_alphabetic first
          else is_ascii_alphanumeric first in
        if negb first_is_valid || negb (forallb (identifier_byte allow_colon) rest)
           || contains value (lit "..")
        then Err (InvalidName field) else Ok tt
  end.

Definition validate_tool_name (name : str) : ToolResultOf unit :=
  validate_ascii_identifier name "tool_name" MAX_TOOL_NAME_BYTES false.
Definition validate_call_id (id : str) : ToolResultOf unit :=
  validate_ascii_identifier id "call_id" MAX_CALL_ID_BYTES true.

(** ** Schemas *)

Definition Members : Type := list (str * Value Num).
Implicit Types object : Members.

Definition has_key object (key : str) : bool := is_some (map_get object key).
Definition lookup object (key : string) : option (Value Num) := map_get object (lit key).

Definition is_name (names : list string) (s : str) : bool :=
  existsb (fun n => str_eqb s (lit n)) names.

Definition ALLOWED_KEYS : list string :=
  ["type"; "title"; "description"; "properties"; "required"; "additionalProperties"; "items";
   "enum"; "const"; "minLength"; "maxLength"; "minimum"; "maximum"; "minItems"; "maxItems"].

Definition invalid_schema {A} (reason : string) : ToolResultOf A := Err (InvalidInputSchema reason).

Definition validate_irrelevant_keywords object (relevant : list string) : ToolResultOf unit :=
  if existsb (fun m => negb (is_name relevant m.1)) object
  then invalid_schema "keyword is not valid for this schema type" else Ok tt.

Definition validate_schema_text v : ToolResultOf unit :=
  match as_str v with
  | None => invalid_schema "schema text metadata must be a string"
  | Some s => if len s >? MAX_DESCRIPTION_BYTES
              then invalid_schema "schema text metadata is too long" else Ok tt
  end.

Definition argument_byte (b : byte) : bool := is_ascii_alphanumeric b || one_of "_" b.

Definition validate_argument_name (name : str) : ToolResultOf unit :=
  match name with
  | [] => invalid_schema "property name length is invalid"
  | first :: rest =>
      if len name >? MAX_TOOL_NAME_BYTES then invalid_schema "property name length is invalid"
      else if negb (is_ascii_alphabetic first) || negb (forallb argument_byte rest)
      then invalid_schema "property name is not a safe identifier" else Ok tt
  end.

Definition json_u64 v : ToolResultOf Z :=
  ok_or (as_u64 v) (InvalidInputSchema "schema bound must be an unsigned integer").

(** [object.get(key).map(f).transpose()?.unwrap_or(default)] *)
Definition optional {A B} (o : option A) (f : A -> ToolResultOf B) : ToolResultOf (option B) :=
  match o with Some a => Some <$> f a | None => Ok None end.

Definition validate_u64_bounds object (minimum_key maximum_key : string) (hard_max : Z) :
    ToolResultOf unit :=
  minimum ← optional (lookup object minimum_key) json_u64;
  maximum ← optional (lookup object maximum_key) json_u64;
  let minimum := default 0 minimum in
  let maximum := default hard_max maximum in
  if (minimum >? maximum) || (maximum >? hard_max)
  then invalid_schema "schema bounds are invalid" else Ok tt.

Definition number_as_f64 v : ToolResultOf F64 :=
  match as_f64 v with
  | Some n => if f64_is_finite n then Ok n else invalid_schema "numeric bound must be finite"
  | None => invalid_schema "numeric bound must be finite"
  end.

Definition validate_string_schema object : ToolResultOf unit :=
  _ ← validate_irrelevant_keywords object
        ["type"; "title"; "description"; "minLength"; "maxLength"; "enum"; "const"];
  validate_u64_bounds object "minLength" "maxLength" MAX_TOOL_ARGUMENT_BYTES.

Definition validate_number_schema object : ToolResultOf unit :=
  _ ← validate_irrelevant_keywords object
        ["type"; "title"; "description"; "minimum"; "maximum"; "enum"; "const"];
  minimum ← optional (lookup object "minimum") number_as_f64;
  maximum ← optional (lookup object "maximum") number_as_f64;
  match minimum, maximum with
  | Some min, Some max => if f64_ltb max min then invalid_schema "minimum exceeds maximum" else Ok tt
  | _, _ => Ok tt
  end.

(** The [required] loop: each entry a declared property not seen before. *)
Fixpoint validate_required (properties : Members) (unique : list str) (required : list (Value Num)) :
    ToolResultOf unit :=
  match required with
  | [] => Ok tt
  | r :: required' =>
      match as_str r with
      | None => invalid_schema "required entries must be strings"
      | Some name =>
          if negb (has_key properties name) || existsb (str_eqb name) unique
          then invalid_schema "required entries must be unique declared properties"
          else validate_required properties (name :: unique) required'
      end
  end.

(** [object.get("additionalProperties") != Some(&Value::Bool(false))] *)
Definition additional_forbidden object : bool :=
  match lookup object "additionalProperties" with Some (Bool false) => true | _ => false end.

(** The recursion of [validate_schema] follows the schema's own nesting; the fuel
    is its number of nodes (a lemma below shows that is enough). *)
Definition schema_kinds : list string :=
  ["object"; "array"; "string"; "number"; "integer"; "boolean"; "null"].

Definition validate_enum object (kind : str) : ToolResultOf unit :=
  match lookup object "enum" with
  | None => Ok tt
  | Some v =>
      match as_array v with
      | None => invalid_schema "enum must be an array"
      | Some values =>
          if is_empty values || (len values >? 128) then invalid_schema "enum size is invalid"
          else if existsb (fun v => negb (value_matches_type v kind)) values
          then invalid_schema "enum value has the wrong type" else Ok tt
      end
  end.

Definition validate_const object (kind : str) : ToolResultOf unit :=
  match lookup object "const" with
  | None => Ok tt
  | Some v => if value_matches_type v kind then Ok tt
              else invalid_schema "const value has the wrong type"
  end.

Definition validate_object_schema (validate_child : Value Num -> ToolResultOf unit) object :
    ToolResultOf unit :=
  _ ← validate_irrelevant_keywords object
        ["type"; "title"; "description"; "properties"; "required"; "additionalProperties";
         "enum"; "const"];
  properties ← ok_or (lookup object "properties" ≫= as_object)
                 (InvalidInputSchema "object schema requires properties");
  if len properties >? 128 then invalid_schema "too many object properties"
  else
    _ ← forM_result (fun '(name, child) =>
          _ ← validate_argument_name name; validate_child child) properties;
    required ← ok_or (lookup object "required" ≫= as_array)
                 (InvalidInputSchema "object schema requires a required array");
    _ ← validate_required properties [] required;
    if additional_forbidden object then Ok tt
    else invalid_schema "additionalProperties must be false".

Definition validate_array_schema (validate_child : Value Num -> ToolResultOf unit) object :
    ToolResultOf unit :=
  _ ← validate_irrelevant_keywords object
        ["type"; "title"; "description"; "items"; "minItems"; "maxItems"; "enum"; "const"];
  items ← ok_or (lookup object "items") (InvalidInputSchema "array schema requires items");
  _ ← validate_child items;
  validate_u64_bounds object "minItems" "maxItems" MAX_JSON_NODES.

(** One node of a schema, given how its child schemas are checked. *)
Definition validate_schema_node (validate_child : Value Num -> ToolResultOf unit)
    (schema : Value Num) (root : bool) : ToolResultOf unit :=
  object ← ok_or (as_object schema) (InvalidInputSchema "schema nodes must be objects");
  if existsb (fun m => negb (is_name ALLOWED_KEYS m.1)) object
  then invalid_schema "unsupported or reference-based schema keyword"
  else
    kind ← ok_or (lookup object "type" ≫= as_str)
             (InvalidInputSchema "every schema node requires one string type");
    if root && negb (str_eqb kind (lit "object"))
    then invalid_schema "root input schema must have object type"
    else if negb (is_name schema_kinds kind) then invalid_schema "unsupported JSON type"
    else
      _ ← optional (lookup object "title") validate_schema_text;
      _ ← optional (lookup object "description") validate_schema_text;
      _ ← validate_enum object kind;
      _ ← validate_const object kind;
      if str_eqb kind (lit "object") then validate_object_schema validate_child object
      else if str_eqb kind (lit "array") then validate_array_schema validate_child object
      else if str_eqb kind (lit "string") then validate_string_schema object
      else if str_eqb kind (lit "number") || str_eqb kind (lit "integer")
      then validate_number_schema object
      else validate_irrelevant_keywords object ["type"; "title"; "description"; "enum"; "const"].

Fixpoint validate_schema_fuel (fuel : nat) (schema : Value Num) (root : bool) : ToolResultOf unit :=
  match fuel with
  | O => Err InternalState
  | S fuel' => validate_schema_node (fun child => validate_schema_fuel fuel' child false) schema root
  end.

Definition validate_schema (schema : Value Num) (root : bool) : ToolResultOf unit :=
  validate_schema_fuel (node_count schema) schema root.

(** ** Arguments against a schema *)

Definition invalid_args {A} (reason : string) : ToolResultOf A := Err (InvalidToolArguments reason).

Definition in_range_Z (lo hi n : Z) : bool := (lo <=? n) && (n <=? hi).

Definition validate_string_value v (schema : Members) : ToolResultOf unit :=
  match as_str v with
  | None => invalid_args "expected string"
  | Some s =>
      let minimum := default 0 (lookup schema "minLength" ≫= as_u64) in
      let maximum := default MAX_TOOL_ARGUMENT_BYTES (lookup schema "maxLength" ≫= as_u64) in
      if in_range_Z minimum maximum (len (chars s)) then Ok tt
      else invalid_args "string length is outside schema bounds"
  end.

Definition validate_number_value v (schema : Members) : ToolResultOf unit :=
  match as_f64 v with
  | None => invalid_args "expected number"
  | Some n =>
      let below := match lookup schema "minimum" ≫= as_f64 with
                   | Some minimum => f64_ltb n minimum | None => false end in
      let above := match lookup schema "maximum" ≫= as_f64 with
                   | Some maximum => f64_ltb maximum n | None => false end in
      if below || above then invalid_args "number is outside schema bounds" else Ok tt
  end.

(** The parts of [validate_object_value] and [validate_array_value] before their
    loops over the children: what the children are checked against. *)
Definition object_value_schemas (value schema : Members) : ToolResultOf Members :=
  properties ← ok_or (lookup schema "properties" ≫= as_object)
                 (InvalidInputSchema "properties missing");
  required ← ok_or (lookup schema "required" ≫= as_array) (InvalidInputSchema "required missing");
  if existsb (fun name => negb (has_key value name)) (omap as_str required)
  then invalid_args "required property is missing" else Ok properties.

Definition array_value_schema (values : list (Value Num)) (schema : Members) :
    ToolResultOf (Value Num) :=
  let minimum := default 0 (lookup schema "minItems" ≫= as_u64) in
  let maximum := default MAX_JSON_NODES (lookup schema "maxItems" ≫= as_u64) in
  if negb (in_range_Z minimum maximum (len values))
  then invalid_args "array length is outside schema bounds"
  else ok_or (lookup schema "items") (InvalidInputSchema "items missing").

(** The checks made on every node before its kind is looked at. *)
Definition node_checks v (schema : Value Num) : ToolResultOf (Members * str) :=
  object ← ok_or (as_object schema) (InvalidInputSchema "schema node must be an object");
  kind ← ok_or (lookup object "type" ≫= as_str) (InvalidInputSchema "schema node has no type");
  if negb (value_matches_type v kind) then invalid_args "value has the wrong type"
  else if match lookup object "const" with Some e => negb (value_eqb e v) | None => false end
  then invalid_args "const value does not match"
  else if match lookup object "enum" ≫= as_array with
          | Some values => negb (existsb (fun e => value_eqb e v) values) | None => false end
  then invalid_args "value is not in enum"
  else Ok (object, kind).

Fixpoint validate_value_against_schema v (schema : Value Num) : ToolResultOf unit :=
  '(object, kind) ← node_checks v schema;
  if str_eqb kind (lit "object") then
    match v with
    | Object members =>
        properties ← object_value_schemas members object;
        forM_result (fun '(name, child) =>
          match map_get properties name with
          | None => invalid_args "additional property is forbidden"
          | Some child_schema => validate_value_against_schema child child_schema
          end) members
    | _ => invalid_args "expected object"
    end
  else if str_eqb kind (lit "array") then
    match v with
    | Array values =>
        item_schema ← array_value_schema values object;
        forM_result (fun value => validate_value_against_schema value item_schema) values
    | _ => invalid_args "expected array"
    end
  else if str_eqb kind (lit "string") then validate_string_value v object
  else if str_eqb kind (lit "number") || str_eqb kind (lit "integer")
  then validate_number_value v object
  else if str_eqb kind (lit "boolean") || str_eqb kind (lit "null") then Ok tt
  else invalid_schema "unsupported JSON type".

(** ** Definitions, calls and results *)

Record ToolDefinition : Type := mkDefinition {
  def_name : str;
  description : str;
  input_schema : Value Num;
}.

Definition definition_validate (self : ToolDefinition) : ToolResultOf unit :=
  _ ← validate_tool_name (def_name self);
  if is_empty (trim (description self)) then Err (EmptyField "description")
  else if len (description self) >? MAX_DESCRIPTION_BYTES
  then Err (FieldTooLong "description" MAX_DESCRIPTION_BYTES)
  else
    _ ← validate_json_limits (input_schema self) "input_schema" MAX_INPUT_SCHEMA_BYTES
          MAX_JSON_DEPTH MAX_JSON_NODES;
    validate_schema (input_schema self) true.

Definition ToolDefinition_new (name description : str) (input_schema : Value Num) :
    ToolResultOf ToolDefinition :=
  let definition := mkDefinition name description input_schema in
  _ ← definition_validate definition;
  mret definition.

Definition validate_arguments (self : ToolDefinition) (arguments : Value Num) : ToolResultOf unit :=
  _ ← validate_json_limits arguments "arguments" MAX_TOOL_ARGUMENT_BYTES MAX_JSON_DEPTH MAX_JSON_NODES;
  if negb (is_object arguments) then Err (JsonMustBeObject "arguments")
  else validate_value_against_schema arguments (input_schema self).

Record ToolCall : Type := mkCall {
  call_id : str;
  call_name : str;
  arguments : Value Num;
}.

Definition call_validate (self : ToolCall) : ToolResultOf unit :=
  _ ← validate_call_id (call_id self);
  _ ← validate_tool_name (call_name self);
  _ ← validate_json_limits (arguments self) "arguments" MAX_TOOL_ARGUMENT_BYTES MAX_JSON_DEPTH
        MAX_JSON_NODES;
  if negb (is_object (arguments self)) then Err (JsonMustBeObject "arguments") else Ok tt.

Definition ToolCall_new (id name : str) (arguments : Value Num) : ToolResultOf ToolCall :=
  let call := mkCall id name arguments in
  _ ← call_validate call;
  mret call.

Record ToolResult : Type := mkToolResult {
  result_call_id : str;
  is_error : bool;
  result_content : Value Num;
}.

Definition ToolResult_new (call_id : str) (is_error : bool) (content : Value Num) :
    ToolResultOf ToolResult :=
  _ ← validate_call_id call_id;
  _ ← validate_json_limits content "tool_output" MAX_TOOL_OUTPUT_BYTES MAX_JSON_DEPTH MAX_JSON_NODES;
  mret (mkToolResult call_id is_error content).
End tools.

(** * Tool runtime: what the checks of [ToolSchema] guarantee

    The explicit-stack check of a document accepts exactly the documents within
    its bounds; checking a schema never runs out of fuel; arguments checked
    against an accepted schema are never blamed on the schema, and no property that
    the schema does not declare passes, at any depth. *)

(** ** Measures *)

Fixpoint value_depth {Num} (v : Value Num) : Z :=
  1 + match v with
      | Array items => foldr (fun c n => Z.max (value_depth c) n) 0 items
      | Object members => foldr (fun '(_, c) n => Z.max (value_depth c) n) 0 members
      | _ => 0
      end.

Section measures.
Context {Num : Type}.
Implicit Types v : Value Num.

Definition sum_nodes (l : list (Value Num)) : nat := foldr (fun c n => (node_count c + n)%nat) O l.
Definition max_depth_of (l : list (Value Num)) : Z := foldr (fun c n => Z.max (value_depth c) n) 0 l.

Lemma node_count_children v : node_count v = S (sum_nodes (children v)).
Proof.
  destruct v as [| | | |items|members]; try done. cbn [node_count children].
  f_equal. unfold sum_nodes. induction members as [|[k c] ms IH]; cbn [foldr map]; [done|].
  by rewrite IH.
Qed.

Lemma value_depth_children v : value_depth v = 1 + max_depth_of (children v).
Proof.
  destruct v as [| | | |items|members]; try done. cbn [value_depth children].
  f_equal. unfold max_depth_of. induction members as [|[k c] ms IH]; cbn [foldr map]; [done|].
  by rewrite IH.
Qed.

Lemma sum_nodes_app a b : sum_nodes (a ++ b) = (sum_nodes a + sum_nodes b)%nat.
Proof. unfold sum_nodes. induction a; cbn [app foldr]; lia. Qed.

Lemma sum_nodes_rev l : sum_nodes (rev l) = sum_nodes l.
Proof.
  induction l as [|c l IH]; cbn [rev]; [done|]. rewrite sum_nodes_app, IH.
  unfold sum_nodes. cbn [foldr]. lia.
Qed.

Lemma max_depth_of_le l m : 0 <= m -> max_depth_of l <= m <-> Forall (fun c => value_depth c <= m) l.
Proof.
  intros Hm. unfold max_depth_of. induction l as [|c l IH]; cbn [foldr]; [done|].
  rewrite Z.max_lub_iff, IH. split; [intros []; by constructor|by inversion 1].
Qed.

Lemma value_depth_pos v : 1 <= value_depth v.
Proof.
  rewrite value_depth_children. enough (0 <= max_depth_of (children v)) by lia.
  unfold max_depth_of. induction (children v); cbn [foldr]; lia.
Qed.

(** A member of an object is smaller than the object. *)
Lemma sum_nodes_elem c l : c ∈ l -> (node_count c <= sum_nodes l)%nat.
Proof. unfold sum_nodes. induction 1; cbn [foldr]; lia. Qed.

Lemma map_get_elem members key v : map_get members key = Some v -> exists k, (k, v) ∈ members.
Proof.
  induction members as [|[k w] ms IH]; cbn [map_get]; [done|].
  destruct (str_eqb k key); [intros [= ->]; exists k; left|].
  intros [k' Hk]%IH. exists k'. by right.
Qed.

Lemma member_smaller members k v : (k, v) ∈ members -> (node_count v < node_count (Object members))%nat.
Proof.
  intros Hin. rewrite (node_count_children (Object members)). cbn [children].
  enough (node_count v <= sum_nodes (map snd members))%nat by lia.
  apply sum_nodes_elem. apply list_elem_of_fmap. by exists (k, v).
Qed.
End measures.

Section facts.
Context {Num : Type} `{ToolJson Num}.
Implicit Types v : Value Num.

(** ** The stack loop *)

Definition stack_nodes (stack : list (Value Num * Z)) : nat := sum_nodes (map fst stack).

Lemma limits_loop_ok fuel field max_depth max_nodes stack nodes :
  (stack_nodes stack <= fuel)%nat -> 0 <= nodes -> max_nodes <= USIZE_MAX ->
  limits_loop fuel field max_depth max_nodes stack nodes = Ok tt <->
  (stack = [] \/ nodes + Z.of_nat (stack_nodes stack) <= max_nodes) /\
  Forall (fun '(v, d) => d + value_depth v - 1 <= max_depth) stack.
Proof.
  revert stack nodes. induction fuel as [|fuel IH]; intros [|[v d] stack] nodes Hf Hn Hm;
    cbn [limits_loop]; try (split; [split; [by left|constructor]|done]).
  { unfold stack_nodes in Hf. cbn in Hf. rewrite node_count_children in Hf. lia. }
  assert (Hs : stack_nodes ((v, d) :: stack) = S (sum_nodes (children v) + stack_nodes stack)).
  { unfold stack_nodes. cbn [map fst sum_nodes foldr]. rewrite node_count_children.
    unfold sum_nodes. lia. }
  rewrite Hs in *. set (pushed := rev (map (fun c => (c, d + 1)) (children v))).
  assert (Hp : stack_nodes (pushed ++ stack) = (sum_nodes (children v) + stack_nodes stack)%nat).
  { unfold stack_nodes, pushed. rewrite map_app, sum_nodes_app, map_rev, sum_nodes_rev, map_map.
    cbn. by rewrite map_id. }
  assert (Hfa : Forall (fun '(v, d) => d + value_depth v - 1 <= max_depth) (pushed ++ stack) <->
    Forall (fun c => d + value_depth c <= max_depth) (children v) /\
    Forall (fun '(v, d) => d + value_depth v - 1 <= max_depth) stack).
  { unfold pushed. rewrite Forall_app, Forall_rev_iff, Forall_map.
    assert (Hx : forall P Q : Value Num -> Prop, (forall x, P x <-> Q x) ->
              forall l, Forall P l <-> Forall Q l)
      by (intros P Q HPQ l; split; apply Forall_impl; intros ?; apply HPQ).
    rewrite (Hx _ (fun c => d + value_depth c <= max_depth)); [done|]. intros c. lia. }
  assert (Hd : d + value_depth v - 1 <= max_depth <->
    d <= max_depth /\ Forall (fun c => d + value_depth c <= max_depth) (children v)).
  { rewrite value_depth_children. destruct (decide (d <= max_depth)) as [Hle|Hgt].
    - pose proof (max_depth_of_le (children v) (max_depth - d) ltac:(lia)) as Hmax.
      assert (Heq : Forall (fun c => value_depth c <= max_depth - d) (children v) <->
                    Forall (fun c => d + value_depth c <= max_depth) (children v))
        by (split; apply Forall_impl; intros; lia).
      rewrite <- Heq, <- Hmax. lia.
    - assert (0 <= max_depth_of (children v)); [|lia].
      unfold max_depth_of. clear. induction (children v); cbn [foldr]; lia. }
  assert (Hc : Forall (fun '(v, d) => d + value_depth v - 1 <= max_depth) ((v, d) :: stack) <->
    d + value_depth v - 1 <= max_depth /\
    Forall (fun '(v, d) => d + value_depth v - 1 <= max_depth) stack).
  { split; [by inversion 1|intros []; by constructor]. }
  rewrite Hc, Hd. clear Hc Hd. unfold checked_add.
  destruct (nodes + 1 <=? USIZE_MAX) eqn:H1; zify_bool.
  2:{ split; [done|]. intros [[?|?] _]; [done|lia]. }
  destruct (nodes + 1 >? max_nodes) eqn:H2; zify_bool.
  { split; [done|]. intros [[?|?] _]; [done|lia]. }
  destruct (d >? max_depth) eqn:H3; zify_bool.
  { split; [done|]. intros [_ [[? _] _]]. lia. }
  rewrite IH, Hp, Hfa by lia. split.
  - intros [Hor [Hch Hst]]. split; [|done]. right.
    destruct Hor as [Hnil|?]; [|lia].
    assert (Hz : stack_nodes (pushed ++ stack) = O) by (by rewrite Hnil). lia.
  - intros [[?|?] [[_ Hch] Hst]]; [done|]. split; [right; lia|done].
Qed.

(** The check of a JSON document by an explicit stack ends, and accepts a
    document exactly when it has at most [max_nodes] nodes, is nested at most
    [max_depth] deep and serialises to at most [max_bytes] bytes. *)
Theorem validate_json_limits_iff (v : Value Num) (field : string) (max_bytes max_depth max_nodes : Z) :
  0 <= max_nodes <= USIZE_MAX ->
  validate_json_limits v field max_bytes max_depth max_nodes = Ok tt <->
  Z.of_nat (node_count v) <= max_nodes /\ value_depth v <= max_depth /\
  exists bs, json_to_vec v = Some bs /\ len bs <= max_bytes.
Proof.
  intros Hm. unfold validate_json_limits.
  assert (Hsn : stack_nodes [(v, 1)] = node_count v) by (cbn; lia).
  pose proof (limits_loop_ok (node_count v) field max_depth max_nodes [(v, 1)] 0) as Hl.
  rewrite Hsn in Hl. specialize (Hl ltac:(lia) ltac:(lia) ltac:(lia)).
  destruct (limits_loop _ _ _ _ _ _) as [[]|e] eqn:Hr; cbn [mbind result_bind].
  - destruct Hl as [Hl _]. destruct (Hl eq_refl) as [[?|Hn] Hd]; [done|].
    inversion Hd as [|? ? Hd1 _]; subst. clear Hl Hd.
    destruct (json_to_vec v) as [bs|] eqn:Hv; cbn [ok_or mbind result_bind].
    + destruct (len bs >? max_bytes) eqn:Hb; zify_bool.
      * split; [done|]. intros (_ & _ & bs' & [= <-] & ?). lia.
      * split; [intros _|done]. split_and!; [lia|lia|eauto].
    + split; [done|]. by intros (_ & _ & bs' & [=] & _).
  - split; [done|]. intros (Hn & Hd & _). enough (Err e = Ok tt :> ToolResultOf unit) by done.
    apply Hl. split; [right; lia|]. constructor; [lia|constructor].
Qed.

(** ** Schemas *)

Lemma lookup_smaller (object : list (str * Value Num)) key child :
  lookup object key = Some child -> (node_count child < node_count (Object object))%nat.
Proof. intros [k Hk]%map_get_elem. by eapply member_smaller. Qed.

(** Checking a node looks only at smaller child schemas. *)
Lemma schema_node_ext f g schema root :
  (forall child, (node_count child < node_count schema)%nat -> f child = g child) ->
  validate_schema_node f schema root = validate_schema_node g schema root.
Proof.
  intros Hfg. unfold validate_schema_node. destruct (as_object schema) as [object|] eqn:Ho; [|done].
  assert (schema = Object object) as -> by (destruct schema; cbn in Ho; congruence).
  cbn [ok_or mbind result_bind].
  assert (Hobj : validate_object_schema f object = validate_object_schema g object).
  { unfold validate_object_schema. destruct (validate_irrelevant_keywords _ _); [|done].
    cbn [mbind result_bind]. destruct (lookup object "properties") as [p|] eqn:Hp; [|done].
    cbn [mbind option_bind]. destruct (as_object p) as [props|] eqn:Hpo; [|done].
    cbn [ok_or mbind option_bind result_bind]. destruct (_ >? _); [done|].
    rewrite (forM_result_ext _ (fun '(name, child) => _ ← validate_argument_name name; g child));
      [done|].
    intros [name child] Hin. rewrite Hfg; [done|]. apply lookup_smaller in Hp.
    assert (p = Object props) as -> by (destruct p; cbn in Hpo; congruence).
    apply member_smaller in Hin. lia. }
  assert (Harr : validate_array_schema f object = validate_array_schema g object).
  { unfold validate_array_schema. destruct (validate_irrelevant_keywords _ _); [|done].
    cbn [mbind result_bind]. destruct (lookup object "items") as [items|] eqn:Hi; [|done].
    cbn [ok_or mbind option_bind result_bind]. by rewrite Hfg by (by eapply lookup_smaller). }
  rewrite Hobj, Harr. done.
Qed.

(** The fuel does not matter once it covers the schema. *)
Lemma schema_fuel_enough n m schema root :
  (node_count schema <= n)%nat -> (node_count schema <= m)%nat ->
  validate_schema_fuel n schema root = validate_schema_fuel m schema root.
Proof.
  revert m schema root. induction n as [|n IH]; intros [|m] schema root Hn Hm;
    pose proof (node_count_children schema); try lia.
  cbn [validate_schema_fuel]. apply schema_node_ext. intros child Hc. apply IH; lia.
Qed.

(** [validate_schema] satisfies the code's recursive equation. *)
Lemma validate_schema_unfold schema root :
  validate_schema schema root =
  validate_schema_node (fun child => validate_schema child false) schema root.
Proof.
  unfold validate_schema. pose proof (node_count_children schema) as Hn.
  destruct (node_count schema) as [|n] eqn:Hs; [done|]. cbn [validate_schema_fuel].
  apply schema_node_ext. intros child Hc. apply schema_fuel_enough; lia.
Qed.

(** What an accepted node promises to the argument checks. *)
Lemma schema_node_shape schema root :
  validate_schema schema root = Ok tt ->
  exists object kind,
    schema = Object object /\ (lookup object "type" ≫= as_str) = Some kind /\
    is_name schema_kinds kind = true /\
    (kind = lit "object" ->
       exists properties required,
         (lookup object "properties" ≫= as_object) = Some properties /\
         (lookup object "required" ≫= as_array) = Some required /\
         forall name child, map_get properties name = Some child -> validate_schema child false = Ok tt) /\
    (kind = lit "array" ->
       exists items, lookup object "items" = Some items /\ validate_schema items false = Ok tt).
Proof.
  rewrite validate_schema_unfold. unfold validate_schema_node.
  intros (object & Ho%ok_or_Ok & Hs)%bind_Ok. exists object.
  assert (schema = Object object) as -> by (destruct schema; cbn in Ho; congruence).
  destruct (existsb _ object); [done|]. apply bind_Ok in Hs as (kind & Hk%ok_or_Ok & Hs).
  destruct (root && _); [done|]. destruct (is_name schema_kinds kind) eqn:Hkind; cbn [negb] in Hs; [|done].
  apply bind_Ok in Hs as (_ & _ & Hs). apply bind_Ok in Hs as (_ & _ & Hs).
  apply bind_Ok in Hs as (_ & _ & Hs). apply bind_Ok in Hs as (_ & _ & Hs).
  exists kind. split_and!; [done..| |].
  - intros ->. rewrite str_eqb_refl in Hs. unfold validate_object_schema in Hs.
    apply bind_Ok in Hs as (_ & _ & Hs). apply bind_Ok in Hs as (props & Hp%ok_or_Ok & Hs).
    destruct (_ >? _); [done|]. apply bind_Ok in Hs as ([] & Hall%forM_result_Ok & Hs).
    apply bind_Ok in Hs as (req & Hreq%ok_or_Ok & _). exists props, req. split_and!; [done..|].
    intros name child [k Hin]%map_get_elem. rewrite Forall_forall in Hall.
    apply list_elem_of_In, Hall in Hin. by apply bind_Ok in Hin as (_ & _ & Hc).
  - intros ->. rewrite str_eqb_refl in Hs.
    replace (str_eqb (lit "array") (lit "object")) with false in Hs by done.
    unfold validate_array_schema in Hs. apply bind_Ok in Hs as (_ & _ & Hs).
    apply bind_Ok in Hs as (items & Hi%ok_or_Ok & Hs). apply bind_Ok in Hs as ([] & Hc & _). eauto.
Qed.

(** ** Arguments *)

Lemma node_checks_inv v object kind r :
  (lookup object "type" ≫= as_str) = Some kind ->
  node_checks v (Object object) = r ->
  r = Ok (object, kind) \/ exists reason, r = Err (InvalidToolArguments reason).
Proof.
  unfold node_checks. cbn [as_object ok_or mbind result_bind]. intros Hk. rewrite Hk.
  cbn [ok_or]. intros <-. unfold invalid_args. cbn [mbind result_bind].
  repeat case_match; eauto.
Qed.

(** Decide the comparisons of literal schema kinds. *)
#[local] Ltac decide_kind :=
  repeat match goal with
  | |- context [str_eqb (lit ?a) (lit ?b)] =>
      let r := eval vm_compute in (str_eqb (lit a) (lit b)) in
      change (str_eqb (lit a) (lit b)) with r
  end; cbn [orb].

(** What is checked of a node of the given kind, below its own checks. *)
Definition value_body v (object : list (str * Value Num)) (kind : str) : ToolResultOf unit :=
  if str_eqb kind (lit "object") then
    match v with
    | Object members =>
        properties ← object_value_schemas members object;
        forM_result (fun '(name, child) =>
          match map_get properties name with
          | None => invalid_args "additional property is forbidden"
          | Some child_schema => validate_value_against_schema child child_schema
          end) members
    | _ => invalid_args "expected object"
    end
  else if str_eqb kind (lit "array") then
    match v with
    | Array values =>
        item_schema ← array_value_schema values object;
        forM_result (fun value => validate_value_against_schema value item_schema) values
    | _ => invalid_args "expected array"
    end
  else if str_eqb kind (lit "string") then validate_string_value v object
  else if str_eqb kind (lit "number") || str_eqb kind (lit "integer")
  then validate_number_value v object
  else if str_eqb kind (lit "boolean") || str_eqb kind (lit "null") then Ok tt
  else invalid_schema "unsupported JSON type".

Lemma validate_value_unfold v schema :
  validate_value_against_schema v schema =
  ('(object, kind) ← node_checks v schema; value_body v object kind).
Proof. by destruct v. Qed.

Lemma is_name_kind kind :
  is_name schema_kinds kind = true ->
  kind = lit "object" \/ kind = lit "array" \/ kind = lit "string" \/ kind = lit "number" \/
  kind = lit "integer" \/ kind = lit "boolean" \/ kind = lit "null".
Proof.
  unfold is_name, schema_kinds. cbn [existsb]. rewrite !orb_true_iff, !str_eqb_eq. intuition done.
Qed.

(** Once a schema has been accepted, checking arguments against it can fail
    only because of the arguments: no branch of the argument check blames the
    schema, at any depth. *)
Theorem accepted_schema_never_blamed (schema v : Value Num) (root : bool) (e : ToolRuntimeError) :
  validate_schema schema root = Ok tt ->
  validate_value_against_schema v schema = Err e ->
  exists reason, e = InvalidToolArguments reason.
Proof.
  revert schema root e. induction v as [v IH] using Value_nested_ind. intros schema root e Hs.
  destruct (schema_node_shape _ _ Hs) as (object & kind & -> & Hk & Hkind & Hobj & Harr).
  rewrite Forall_forall in IH.
  assert (Hchild : forall c s r e, In c (children v) -> validate_schema s r = Ok tt ->
    validate_value_against_schema c s = Err e -> exists reason, e = InvalidToolArguments reason)
    by (intros; by eapply IH). clear IH.
  rewrite validate_value_unfold.
  destruct (node_checks_inv v object kind _ Hk eq_refl) as [->|[reason ->]]; cbn [mbind result_bind];
    [|intros [= <-]; eauto].
  unfold value_body.
  apply is_name_kind in Hkind as [->|[->|[->|[->|[->|[->| ->]]]]]]; decide_kind.
  - destruct (Hobj eq_refl) as (props & req & Hp & Hreq & Hall).
    destruct v as [| | | | |members]; try (intros [= <-]; by eexists).
    unfold object_value_schemas. rewrite Hp, Hreq. cbn [ok_or mbind result_bind].
    destruct (existsb _ _); cbn [mbind result_bind]; [intros [= <-]; by eexists|].
    intros ([name child] & Hin & Hc)%forM_result_Err. revert Hc.
    destruct (map_get props name) as [cs|] eqn:Hg; [|intros [= <-]; by eexists].
    intros Hc. eapply Hchild; [|by eapply Hall|exact Hc].
    cbn [children]. apply in_map_iff. exists (name, child). by rewrite <- list_elem_of_In.
  - destruct (Harr eq_refl) as (items & Hi & Hit).
    destruct v as [| | | |values|]; try (intros [= <-]; by eexists).
    unfold array_value_schema. rewrite Hi.
    destruct (negb _); cbn [ok_or mbind result_bind]; [intros [= <-]; by eexists|].
    intros (c & Hin & Hc)%forM_result_Err. eapply Hchild; [|exact Hit|exact Hc].
    by apply list_elem_of_In.
  - unfold validate_string_value. destruct (as_str v); [|intros [= <-]; by eexists].
    destruct (in_range_Z _ _ _); [done|]. intros [= <-]. by eexists.
  - unfold validate_number_value. destruct (as_f64 v); [|intros [= <-]; by eexists].
    destruct (_ || _); [|done]. intros [= <-]. by eexists.
  - unfold validate_number_value. destruct (as_f64 v); [|intros [= <-]; by eexists].
    destruct (_ || _); [|done]. intros [= <-]. by eexists.
  - done.
  - done.
Qed.

(** No property is undeclared and no required one is missing, at any depth. *)
Fixpoint well_shaped v (schema : Value Num) : bool :=
  match v with
  | Object members =>
      match get schema (lit "properties") ≫= as_object, get schema (lit "required") ≫= as_array with
      | Some properties, Some required =>
          forallb (has_key members) (omap as_str required) &&
          forallb (fun '(name, child) =>
            match map_get properties name with
            | Some child_schema => well_shaped child child_schema
            | None => false
            end) members
      | _, _ => false
      end
  | Array values =>
      match get schema (lit "items") with
      | Some items => forallb (fun value => well_shaped value items) values
      | None => false
      end
  | _ => true
  end.

Lemma node_checks_kind v object kind o k :
  (lookup object "type" ≫= as_str) = Some kind ->
  node_checks v (Object object) = Ok (o, k) -> value_matches_type v kind = true.
Proof.
  unfold node_checks. cbn [as_object ok_or mbind result_bind]. intros Hk. rewrite Hk.
  cbn [ok_or]. cbn [mbind result_bind]. by destruct (value_matches_type v kind).
Qed.

(** Arguments accepted against an accepted schema contain, at every depth, only
    properties the schema declares and every property it requires; nothing else
    reaches an executor. *)
Theorem accepted_arguments_well_shaped (schema v : Value Num) (root : bool) :
  validate_schema schema root = Ok tt ->
  validate_value_against_schema v schema = Ok tt ->
  well_shaped v schema = true.
Proof.
  revert schema root. induction v as [v IH] using Value_nested_ind. intros schema root Hs.
  destruct (schema_node_shape _ _ Hs) as (object & kind & -> & Hk & Hkind & Hobj & Harr).
  rewrite Forall_forall in IH. rewrite validate_value_unfold.
  destruct (node_checks v (Object object)) as [[o k]|] eqn:Hn; [|done].
  pose proof (node_checks_kind _ _ _ _ _ Hk Hn) as Hty.
  destruct (node_checks_inv v object kind _ Hk Hn) as [[= -> ->]|[? [=]]]. cbn [mbind result_bind].
  destruct v as [| | | |values|members]; try done; unfold value_body, value_matches_type in *.
  - apply is_name_kind in Hkind as [->|[->|[->|[->|[->|[->| ->]]]]]]; revert Hty; decide_kind;
      try done; intros _.
    destruct (Harr eq_refl) as (items & Hi & Hit). unfold array_value_schema. rewrite Hi.
    destruct (negb _); [done|]. cbn [ok_or mbind result_bind]. intros Hall%forM_result_Ok.
    cbn [well_shaped get]. unfold lookup in Hi. rewrite Hi. apply forallb_forall. intros c Hc.
    rewrite Forall_forall in Hall. by eapply IH; eauto.
  - apply is_name_kind in Hkind as [->|[->|[->|[->|[->|[->| ->]]]]]]; revert Hty; decide_kind;
      try done; intros _.
    destruct (Hobj eq_refl) as (props & req & Hp & Hreq & Hch).
    unfold object_value_schemas. rewrite Hp, Hreq. cbn [ok_or mbind result_bind].
    destruct (existsb _ _) eqn:Hx; [done|]. cbn [mbind result_bind]. intros Hall%forM_result_Ok.
    cbn [well_shaped get]. unfold lookup in Hp, Hreq. rewrite Hp, Hreq. apply andb_true_iff. split.
    + apply forallb_forall. intros name Hname. apply not_false_iff_true. intros Hf.
      apply not_true_iff_false in Hx. apply Hx. apply existsb_exists. exists name. by rewrite Hf.
    + apply forallb_forall. intros [name child] Hin. rewrite Forall_forall in Hall.
      specialize (Hall _ Hin). cbn in Hall. destruct (map_get props name) as [cs|] eqn:Hg; [|done].
      eapply IH; [|by eapply Hch|done]. cbn [children]. apply in_map_iff. by exists (name, child).
Qed.
End facts.
