(* ===== verification/ToolPolicy.v ===== *)
(** * Tool runtime: approvals, policy and dispatch

    Models [crates/lorepia-tool-runtime/src/policy.rs] and [registry.rs]: the
    authority that issues and consumes call-bound approval tokens, the allowlist,
    and the registry that dispatches an authorised call to its executor.

    HMAC-SHA-256 is the parameter [hmac_sha256] (keys of any length are accepted
    and the comparison of [verify_slice] is equality).  [consumed] is a finite map.
    An executor is application code behind the [ToolExecutor] trait, a function of
    the call; [executed] records the calls that reached one, in order. *)

From S2P Require Import Prelude Bytes Utf8 Json ToolSchema.

Definition APPROVAL_VERSION : Z := 1.
Definition MAX_APPROVAL_TTL_MS : Z := 2 * 60 * 1000.
Definition MAX_CONSUMED_APPROVALS : Z := 4096.
Definition MAX_REGISTERED_TOOLS : Z := 64.

Class ToolCrypto : Type := { hmac_sha256 : bytes -> bytes -> bytes }.

(** ** Hexadecimal signatures *)

Definition HEX : bytes := lit "0123456789abcdef".

Definition hex_digit (n : Z) : byte := nth (Z.to_nat n) HEX (byte_of 0).

Definition hex_encode (bs : bytes) : str :=
  concat (map (fun b => [hex_digit (Z.shiftr (byte_val b) 4);
                         hex_digit (Z.land (byte_val b) 15)]) bs).

Definition hex_nibble (b : byte) : option Z :=
  let n := byte_val b in
  if (48 <=? n) && (n <=? 57) then Some (n - 48)
  else if (97 <=? n) && (n <=? 102) then Some (n - 97 + 10)
  else None.

(** [chunks_exact(2)] over an even number of bytes. *)
Fixpoint hex_decode_pairs (input : bytes) : option bytes :=
  match input with
  | hi :: lo :: rest =>
      h ← hex_nibble hi;
      l ← hex_nibble lo;
      bs ← hex_decode_pairs rest;
      mret (byte_of (Z.lor (Z.shiftl h 4) l) :: bs)
  | _ => Some []
  end.

Definition hex_decode_32 (input : str) : option bytes :=
  if negb (len input =? 64) then None else hex_decode_pairs input.

(** ** Tokens and the authority *)

Record ApprovalToken : Type := mkToken {
  version : Z;
  nonce : Z;
  expires_at_unix_ms : Z;
  signature : str;
}.

Record ApprovalAuthority : Type := mkAuthority {
  key : bytes;
  next_nonce : Z;
  consumed : gmap Z Z;
}.

Definition ApprovalAuthority_new (key : bytes) : ToolResultOf ApprovalAuthority :=
  if forallb (fun b => byte_val b =? 0) key then Err InvalidApprovalToken
  else Ok (mkAuthority key 1 ∅).

Definition TOKEN_DOMAIN : bytes := lit "lorepia-tool-approval-v1".

(** [update_field]: the length, then the bytes. *)
Definition mac_field (value : bytes) : bytes := u64_to_be_bytes (len value) ++ value.

Section policy.
Context {Num : Type} `{ToolJson Num} `{ToolCrypto}.
Notation ToolCall := (@ToolCall Num).
Notation ToolDefinition := (@ToolDefinition Num).

(** Everything the MAC is fed, in order. *)
Definition mac_message (call : ToolCall) (nonce expires_at : Z) : ToolResultOf bytes :=
  args ← canonical_json (arguments call);
  mret (TOKEN_DOMAIN ++ u64_to_be_bytes nonce ++ u64_to_be_bytes expires_at ++
        mac_field (call_id call) ++ mac_field (call_name call) ++ mac_field args).

Definition authority_signature (self : ApprovalAuthority) (call : ToolCall) (nonce expires_at : Z) :
    ToolResultOf bytes :=
  message ← mac_message call nonce expires_at;
  mret (hmac_sha256 (key self) message).

(** [fetch_update(|value| value.checked_add(1))]: the old value, or an error. *)
Definition take_nonce : ST ApprovalAuthority ToolRuntimeError Z := fun self =>
  match checked_add U64_MAX (next_nonce self) 1 with
  | None => (self, Err InternalState)
  | Some next => (mkAuthority (key self) next (consumed self), Ok (next_nonce self))
  end.

Definition issue_token (call : ToolCall) (now ttl : Z) :
    ST ApprovalAuthority ToolRuntimeError ApprovalToken :=
  _ ← st_lift (call_validate call);
  _ ← st_lift (ensure (negb ((ttl =? 0) || (ttl >? MAX_APPROVAL_TTL_MS))) InvalidApprovalLifetime);
  expires_at ← st_lift (ok_or (checked_add U64_MAX now ttl) InvalidApprovalLifetime);
  nonce ← take_nonce;
  self ← st_get;
  signature ← st_lift (authority_signature self call nonce expires_at);
  mret (mkToken APPROVAL_VERSION nonce expires_at (hex_encode signature)).

(** [consumed.retain(|_, expires_at| *expires_at >= now)] *)
Definition purge (now : Z) (ledger : gmap Z Z) : gmap Z Z :=
  filter (fun '(_, expires_at) => now <= expires_at) ledger.

(** The part of [verify_and_consume] under the lock. *)
Definition consume_nonce (token : ApprovalToken) (now : Z) :
    ST ApprovalAuthority ToolRuntimeError unit := fun self =>
  let ledger := purge now (consumed self) in
  let purged := mkAuthority (key self) (next_nonce self) ledger in
  match ledger !! nonce token with
  | Some _ => (purged, Err ApprovalReplay)
  | None =>
      if Z.of_nat (size ledger) >=? MAX_CONSUMED_APPROVALS then (purged, Err ApprovalLedgerFull)
      else (mkAuthority (key self) (next_nonce self)
              (<[nonce token := expires_at_unix_ms token]> ledger), Ok tt)
  end.

(** The checks of [verify_and_consume] before the lock. *)
Definition check_token (self : ApprovalAuthority) (call : ToolCall) (token : ApprovalToken)
    (now : Z) : ToolResultOf unit :=
  if negb (version token =? APPROVAL_VERSION) || (expires_at_unix_ms token <? now)
  then Err (if expires_at_unix_ms token <? now then ApprovalExpired else InvalidApprovalToken)
  else if saturating_sub (expires_at_unix_ms token) now >? MAX_APPROVAL_TTL_MS
  then Err InvalidApprovalToken
  else
    supplied ← ok_or (hex_decode_32 (signature token)) InvalidApprovalToken;
    message ← mac_message call (nonce token) (expires_at_unix_ms token);
    ensure (str_eqb (hmac_sha256 (key self) message) supplied) InvalidApprovalToken.

Definition verify_and_consume (call : ToolCall) (token : ApprovalToken) (now : Z) :
    ST ApprovalAuthority ToolRuntimeError unit :=
  self ← st_get;
  _ ← st_lift (check_token self call token now);
  consume_nonce token now.

(** ** The policy *)

Record ToolPolicy : Type := mkPolicy { allowlist : list str }.

Definition deny_all : ToolPolicy := mkPolicy [].

Definition allow_only (tool_names : list str) : ToolResultOf ToolPolicy :=
  _ ← forM_result validate_tool_name tool_names;
  mret (mkPolicy tool_names).

Definition is_allowlisted (self : ToolPolicy) (tool_name : str) : bool :=
  existsb (str_eqb tool_name) (allowlist self).

Definition authorize (self : ToolPolicy) (call : ToolCall) (token : option ApprovalToken)
    (now : Z) : ST ApprovalAuthority ToolRuntimeError unit :=
  if negb (is_allowlisted self (call_name call))
  then st_lift (Err (PolicyDenied (call_name call)))
  else
    token ← st_lift (ok_or token ApprovalRequired);
    verify_and_consume call token now.

(** ** Executors and the registry *)

Record ExecutorOutput : Type := mkOutput { out_is_error : bool; out_content : Value Num }.

Definition validate_output (content : Value Num) (is_error : bool) : ToolResultOf ExecutorOutput :=
  _ ← ToolResult_new (lit "validation") is_error content;
  mret (mkOutput is_error content).

Definition executor_code_byte (b : byte) : bool :=
  is_ascii_uppercase b || is_ascii_digit b || one_of "_" b.

Definition ExecutorError_new (code : str) : ToolResultOf str :=
  match code with
  | [] => Err InvalidExecutorCode
  | first :: rest =>
      if (len code >? 64) || negb (is_ascii_uppercase first && forallb executor_code_byte rest)
      then Err InvalidExecutorCode else Ok code
  end.

Definition ToolExecutor : Type := ToolCall -> result str ExecutorOutput.

Record RegisteredTool : Type := mkRegistered {
  definition : ToolDefinition;
  executor : ToolExecutor;
}.

Definition ToolRegistry : Type := gmap str RegisteredTool.

Definition register (def : ToolDefinition) (exec : ToolExecutor) :
    ST ToolRegistry ToolRuntimeError unit :=
  _ ← st_lift (definition_validate def);
  tools ← st_get;
  match tools !! def_name def with
  | Some _ => st_lift (Err (DuplicateTool (def_name def)))
  | None =>
      if Z.of_nat (size tools) >=? MAX_REGISTERED_TOOLS
      then st_lift (Err (TooManyTools MAX_REGISTERED_TOOLS))
      else st_put (<[def_name def := mkRegistered def exec]> tools)
  end.

(** The authority shared by the process, and the calls given to executors. *)
Record Host : Type := mkHost { authority : ApprovalAuthority; executed : list ToolCall }.

Definition with_authority {A} (m : ST ApprovalAuthority ToolRuntimeError A) :
    ST Host ToolRuntimeError A := fun host =>
  let '(a, r) := m (authority host) in (mkHost a (executed host), r).

Definition run_executor (exec : ToolExecutor) (call : ToolCall) :
    ST Host ToolRuntimeError ExecutorOutput := fun host =>
  (mkHost (authority host) (executed host ++ [call]), map_err ExecutorFailed (exec call)).

Definition execute (tools : ToolRegistry) (policy : ToolPolicy) (call : ToolCall)
    (approval : option ApprovalToken) (now : Z) : ST Host ToolRuntimeError ToolResult :=
  _ ← st_lift (call_validate call);
  registered ← st_lift (ok_or (tools !! call_name call) (ToolNotRegistered (call_name call)));
  _ ← st_lift (validate_arguments (definition registered) (arguments call));
  _ ← with_authority (authorize policy call approval now);
  output ← run_executor (executor registered) call;
  st_lift (ToolResult_new (call_id call) (out_is_error output) (out_content output)).
End policy.
