(* ===== verification/ToolApproval.v ===== *)
(** * Tool runtime: what an approval guarantees

    Facts about the authority and the registry of [ToolPolicy]: a signature has one
    hexadecimal form, the MAC covers an unambiguous encoding of the call, a token
    verifies for the call it was issued for and, on a clock that does not go back,
    lets at most one execution through; nothing reaches an executor without every
    check. *)

From stdpp Require Import sorting.
From S2P Require Import Prelude Bytes Utf8 Json ToolSchema ToolPolicy.

(** ** Hexadecimal *)

Lemma hex_pair_encode b :
  hex_nibble (hex_digit (Z.shiftr (byte_val b) 4)) = Some (Z.shiftr (byte_val b) 4) /\
  hex_nibble (hex_digit (Z.land (byte_val b) 15)) = Some (Z.land (byte_val b) 15) /\
  byte_of (Z.lor (Z.shiftl (Z.shiftr (byte_val b) 4) 4) (Z.land (byte_val b) 15)) = b.
Proof. destruct b as [[] [] [] [] [] [] [] []]; vm_compute; auto. Qed.

Lemma hex_nibble_digit b n : hex_nibble b = Some n -> hex_digit n = b /\ 0 <= n < 16.
Proof.
  intros Hn. assert (Hr : 0 <= n < 16 /\ b = byte_of (if n <? 10 then n + 48 else n + 87)).
  { revert Hn. unfold hex_nibble.
    destruct ((48 <=? byte_val b) && (byte_val b <=? 57)) eqn:H1.
    - zify_bool. intros [= <-]. replace (_ <? 10) with true by lia.
      rewrite Z.sub_add, byte_of_val. split; [lia|done].
    - destruct ((97 <=? byte_val b) && (byte_val b <=? 102)) eqn:H2; [|done]. zify_bool.
      intros [= <-]. replace (_ <? 10) with false by lia. split; [lia|].
      replace (byte_val b - 97 + 10 + 87) with (byte_val b) by lia. by rewrite byte_of_val. }
  destruct Hr as [Hr ->]. split; [|done].
  assert (Hn16 : In n (map Z.of_nat (seq 0 16))).
  { apply in_map_iff. exists (Z.to_nat n). rewrite in_seq. lia. }
  clear Hn Hr. cbn in Hn16. repeat (destruct Hn16 as [<-|Hn16]; [reflexivity|]). done.
Qed.

Lemma nibbles h l :
  0 <= h < 16 -> 0 <= l < 16 ->
  Z.shiftr (byte_val (byte_of (Z.lor (Z.shiftl h 4) l))) 4 = h /\
  Z.land (byte_val (byte_of (Z.lor (Z.shiftl h 4) l))) 15 = l.
Proof.
  intros Hh Hl.
  assert (Hlor : Z.lor (Z.shiftl h 4) l = h * 16 + l).
  { rewrite Z.shiftl_mul_pow2 by lia.
    assert (Hland : Z.land (h * 2 ^ 4) l = 0); cycle 1.
    { rewrite <- Z.lxor_lor, <- Z.add_nocarry_lxor by done. lia. }
    apply Z.bits_inj'. intros i Hi.
    rewrite Z.land_spec, Z.bits_0. destruct (Z.lt_ge_cases i 4).
    - rewrite Z.mul_pow2_bits_low by lia. done.
    - rewrite (Z.bits_above_log2 l i), andb_false_r; [done|lia|].
      destruct (decide (l = 0)) as [->|]; [cbn; lia|]. apply Z.log2_lt_pow2; [lia|].
      assert (Hpow : 2 ^ 4 <= 2 ^ i) by (apply Z.pow_le_mono_r; lia).
      change (2 ^ 4) with 16 in Hpow. lia. }
  rewrite Hlor, byte_val_of by lia. split.
  - rewrite Z.shiftr_div_pow2 by lia. change (2 ^ 4) with 16.
    rewrite Z.div_add_l, (Z.div_small l 16) by lia. lia.
  - change 15 with (Z.ones 4). rewrite Z.land_ones by lia. change (2 ^ 4) with 16.
    rewrite Z.add_comm, Z.mod_add by lia. apply Z.mod_small. lia.
Qed.

Lemma hex_decode_encode bs : hex_decode_pairs (hex_encode bs) = Some bs.
Proof.
  induction bs as [|b bs IH]; [done|]. unfold hex_encode in *. cbn [map concat app hex_decode_pairs].
  destruct (hex_pair_encode b) as (-> & -> & Hb). cbn [mbind option_bind]. rewrite IH. cbn.
  by rewrite Hb.
Qed.

Lemma hex_encode_length bs : len (hex_encode bs) = 2 * len bs.
Proof.
  unfold hex_encode. induction bs as [|b bs IH]; [done|]. cbn [map concat app].
  rewrite !len_cons, IH. lia.
Qed.

Lemma hex_encode_decode n s bs :
  length s = (2 * n)%nat -> hex_decode_pairs s = Some bs -> hex_encode bs = s /\ length bs = n.
Proof.
  revert s bs. induction n as [|n IH]; intros [|x [|y s]] bs Hl; cbn in Hl; try lia.
  { by intros [= <-]. }
  cbn [hex_decode_pairs].
  destruct (hex_nibble x) as [h|] eqn:Hx; [|done]. cbn [mbind option_bind].
  destruct (hex_nibble y) as [l|] eqn:Hy; [|done]. cbn [mbind option_bind].
  destruct (hex_decode_pairs s) as [bs'|] eqn:Hs; [|done]. intros [= <-].
  apply hex_nibble_digit in Hx as [Hx Hxr]. apply hex_nibble_digit in Hy as [Hy Hyr].
  destruct (IH s bs') as [He Hlen]; [lia|done|]. destruct (nibbles h l Hxr Hyr) as [H1 H2].
  split; [|cbn; lia]. unfold hex_encode in *. cbn [map concat app]. by rewrite H1, H2, Hx, Hy, He.
Qed.

(** A signature of 32 bytes has exactly one textual form: encoding and decoding
    are inverse, so no other string (upper case, other length, other characters)
    decodes to the same signature. *)
Theorem signature_hex_bijective (bs : bytes) (s : str) :
  len bs = 32 -> (hex_decode_32 s = Some bs <-> s = hex_encode bs).
Proof.
  intros Hlen. unfold hex_decode_32. split.
  - destruct (len s =? 64) eqn:Hs; [|done]. cbn [negb]. zify_bool. intros Hd.
    symmetry. eapply (hex_encode_decode 32); [unfold len in Hs; lia|done].
  - intros ->. rewrite hex_encode_length, Hlen. cbn. apply hex_decode_encode.
Qed.

(** ** The signed message *)

Section approval.
Context {Num : Type} `{ToolJson Num} `{ToolCrypto}.
Notation ToolCall := (@ToolCall Num).
Notation ToolRegistry := (@ToolRegistry Num).
Notation ToolResult := (@ToolResult Num).
Notation Host := (@Host Num).

Lemma be_field_inj a b x y :
  is_u64 a -> is_u64 b -> u64_to_be_bytes a ++ x = u64_to_be_bytes b ++ y -> a = b /\ x = y.
Proof.
  intros Ha Hb He. apply app_inj_1 in He as [He ->]; [|by rewrite !u64_to_be_bytes_length].
  split; [|done]. by apply u64_to_be_bytes_inj.
Qed.

Lemma mac_field_inj a b x y :
  is_u64 (len a) -> is_u64 (len b) -> mac_field a ++ x = mac_field b ++ y -> a = b /\ x = y.
Proof.
  unfold mac_field. rewrite <- !app_assoc. intros Ha Hb [Hl He]%be_field_inj; [|done..].
  apply app_inj_1 in He; [done|]. unfold len in Hl. lia.
Qed.

(** The lengths of a call's fields are machine lengths. *)
Definition call_typed (call : ToolCall) : Prop :=
  is_u64 (len (call_id call)) /\ is_u64 (len (call_name call)) /\
  forall args, canonical_json (arguments call) = Ok args -> is_u64 (len args).

Definition same_call (a b : ToolCall) : Prop :=
  call_id a = call_id b /\ call_name a = call_name b /\
  canonical_json (arguments a) = canonical_json (arguments b).

Lemma mac_message_inj call call' n n' e e' m :
  call_typed call -> call_typed call' -> is_u64 n -> is_u64 n' -> is_u64 e -> is_u64 e' ->
  mac_message call n e = Ok m -> mac_message call' n' e' = Ok m ->
  same_call call call' /\ n = n' /\ e = e'.
Proof.
  intros (Hi & Hnm & Ha) (Hi' & Hnm' & Ha') ? ? ? ?. unfold mac_message.
  intros (args & Hargs & <-%Ok_inj)%bind_Ok (args' & Hargs' & Hm%Ok_inj%app_inv_head)%bind_Ok.
  specialize (Ha _ Hargs). specialize (Ha' _ Hargs').
  apply be_field_inj in Hm as [-> Hm]; [|done..]. apply be_field_inj in Hm as [-> Hm]; [|done..].
  apply mac_field_inj in Hm as [Hid Hm]; [|done..]. apply mac_field_inj in Hm as [Hname Hm]; [|done..].
  rewrite <- (app_nil_r (mac_field args')), <- (app_nil_r (mac_field args)) in Hm.
  apply mac_field_inj in Hm as [-> _]; [|done..].
  split; [|done]. split_and!; congruence.
Qed.

(** ** Issuing *)

(** What a successful issue returns, and what it does to the authority. *)
Lemma issue_token_inv call now ttl a a1 tok :
  issue_token call now ttl a = (a1, Ok tok) ->
  call_validate call = Ok tt /\ ttl <> 0 /\ ttl <= MAX_APPROVAL_TTL_MS /\ now + ttl <= U64_MAX /\
  next_nonce a + 1 <= U64_MAX /\
  a1 = mkAuthority (key a) (next_nonce a + 1) (consumed a) /\
  exists m, mac_message call (next_nonce a) (now + ttl) = Ok m /\
    tok = mkToken APPROVAL_VERSION (next_nonce a) (now + ttl) (hex_encode (hmac_sha256 (key a) m)).
Proof.
  unfold issue_token, st_lift, st_get, take_nonce, mbind, ST_bind, checked_add.
  destruct (call_validate call) as [[]|] eqn:Hc; [|done].
  destruct (negb _) eqn:Ht; cbn [ensure]; [|done].
  destruct (now + ttl <=? U64_MAX) eqn:He; cbn [ok_or]; [|done].
  destruct (next_nonce a + 1 <=? U64_MAX) eqn:Hn; [|done].
  unfold authority_signature. cbn [key].
  destruct (mac_message call (next_nonce a) (now + ttl)) as [m|] eqn:Hm; cbn [mbind result_bind]; [|done].
  intros [= <- <-]. zify_bool. split_and!; try done. eauto.
Qed.

(** ** Verifying *)

Lemma purge_lookup now l n e : purge now l !! n = Some e <-> l !! n = Some e /\ now <= e.
Proof. unfold purge. rewrite map_lookup_filter_Some. done. Qed.

Lemma purge_size now l : (size (purge now l) <= size l)%nat.
Proof. unfold purge. apply map_size_filter. Qed.

Lemma verify_inv call tok now a a1 r :
  verify_and_consume call tok now a = (a1, r) ->
  key a1 = key a /\ next_nonce a1 = next_nonce a /\
  match r with
  | Ok _ =>
      check_token a call tok now = Ok tt /\ purge now (consumed a) !! nonce tok = None /\
      Z.of_nat (size (purge now (consumed a))) < MAX_CONSUMED_APPROVALS /\
      consumed a1 = <[nonce tok := expires_at_unix_ms tok]> (purge now (consumed a))
  | Err _ => consumed a1 = consumed a \/ consumed a1 = purge now (consumed a)
  end.
Proof.
  unfold verify_and_consume, st_get, st_lift, mbind, ST_bind.
  destruct (check_token a call tok now) as [[]|] eqn:Hc; [|intros [= <- <-]; auto].
  unfold consume_nonce. destruct (_ !! nonce tok) eqn:Hl; [intros [= <- <-]; auto|].
  destruct (_ >=? _) eqn:Hs; intros [= <- <-]; cbn [key next_nonce consumed]; [by auto|].
  split_and!; try done. lia.
Qed.

Lemma check_token_time a call tok now : check_token a call tok now = Ok tt -> now <= expires_at_unix_ms tok.
Proof.
  unfold check_token. destruct (negb _ || _) eqn:Hx; [done|]. apply orb_false_iff in Hx as [_ Hx].
  zify_bool. lia.
Qed.

Lemma check_token_mac a call tok now :
  check_token a call tok now = Ok tt ->
  exists m sig, mac_message call (nonce tok) (expires_at_unix_ms tok) = Ok m /\
    hex_decode_32 (signature tok) = Some sig /\ hmac_sha256 (key a) m = sig.
Proof.
  unfold check_token. destruct (_ || _); [done|]. destruct (_ >? _); [done|].
  intros (sig & Hs%ok_or_Ok & (m & Hm & Hv%ensure_Ok)%bind_Ok)%bind_Ok.
  apply str_eqb_eq in Hv. eauto 6.
Qed.

(** A token issued for a call is accepted for that call, by any later state of
    the same authority, from the time it was issued until it expires, as long as its
    nonce has not been consumed and the replay ledger has room. *)
Theorem issued_token_verifies (call : ToolCall) (now ttl now' : Z) (a a1 a2 : ApprovalAuthority)
    (tok : ApprovalToken) :
  (forall k m, len (hmac_sha256 k m) = 32) ->
  0 <= ttl -> issue_token call now ttl a = (a1, Ok tok) ->
  key a2 = key a -> consumed a2 !! nonce tok = None ->
  Z.of_nat (size (consumed a2)) < MAX_CONSUMED_APPROVALS ->
  now <= now' <= expires_at_unix_ms tok ->
  (verify_and_consume call tok now' a2).2 = Ok tt.
Proof.
  intros Hlen Ht (_ & Ht0 & Httl & _ & _ & _ & m & Hm & ->)%issue_token_inv Hk Hn Hs Hnow.
  cbn [nonce expires_at_unix_ms] in *. unfold verify_and_consume, st_get, st_lift, mbind, ST_bind.
  assert (Hc : check_token a2 call (mkToken APPROVAL_VERSION (next_nonce a) (now + ttl)
            (hex_encode (hmac_sha256 (key a) m))) now' = Ok tt).
  { unfold check_token. cbn [version expires_at_unix_ms signature nonce].
    replace (now + ttl <? now') with false by lia. cbn [negb orb Z.eqb APPROVAL_VERSION].
    replace (saturating_sub (now + ttl) now' >? MAX_APPROVAL_TTL_MS) with false
      by (unfold saturating_sub; lia).
    assert (Hd : hex_decode_32 (hex_encode (hmac_sha256 (key a) m)) = Some (hmac_sha256 (key a) m)).
    { unfold hex_decode_32. rewrite hex_encode_length, Hlen. apply hex_decode_encode. }
    rewrite Hd. cbn [ok_or mbind result_bind]. rewrite Hm. cbn [mbind result_bind].
    by rewrite Hk, str_eqb_refl. }
  rewrite Hc. unfold consume_nonce. cbn [nonce].
  destruct (purge now' (consumed a2) !! next_nonce a) eqn:Hp.
  { apply purge_lookup in Hp as [Hp _]. congruence. }
  pose proof (purge_size now' (consumed a2)).
  replace (_ >=? _) with false by lia. done.
Qed.

(** C7: An approval is bound to its call: a token issued for one call is accepted
    only for a call with the same identifier, the same tool name and the same
    arguments in canonical form, unless the two MAC inputs collide. *)
Theorem approval_bound_to_call (call call' : ToolCall) (now ttl now' : Z)
    (a a1 a2 a3 : ApprovalAuthority) (tok : ApprovalToken) :
  (forall k m, len (hmac_sha256 k m) = 32) ->
  (forall m m', mac_message call (nonce tok) (expires_at_unix_ms tok) = Ok m ->
     mac_message call' (nonce tok) (expires_at_unix_ms tok) = Ok m' ->
     hmac_sha256 (key a) m = hmac_sha256 (key a) m' -> m = m') ->
  call_typed call -> call_typed call' -> 0 <= now -> 0 <= ttl -> 0 <= next_nonce a ->
  issue_token call now ttl a = (a1, Ok tok) ->
  key a2 = key a -> verify_and_consume call' tok now' a2 = (a3, Ok tt) ->
  same_call call call'.
Proof.
  intros Hlen Hnc Hty Hty' Hnow Httl Hnn
    (_ & _ & _ & Hmax & Hnmax & _ & m & Hm & ->)%issue_token_inv Hk Hv.
  apply verify_inv in Hv as (_ & _ & Hc & _). apply check_token_mac in Hc as (m' & sig & Hm' & Hs & He).
  cbn [nonce expires_at_unix_ms signature] in *.
  unfold hex_decode_32 in Hs. rewrite hex_encode_length, Hlen in Hs. cbn in Hs.
  rewrite hex_decode_encode in Hs. injection Hs as <-. rewrite Hk in He.
  pose proof (Hnc _ _ Hm Hm' (eq_sym He)) as ->.
  assert (is_u64 (next_nonce a) /\ is_u64 (now + ttl)) as [? ?] by (unfold is_u64; lia).
  by destruct (mac_message_inj call call' (next_nonce a) (next_nonce a) (now + ttl) (now + ttl) m').
Qed.

(** ** Execution *)

(** Everything that must hold for a call to reach its executor. *)
Definition fully_authorised (tools : ToolRegistry) (policy : ToolPolicy) (call : ToolCall)
    (approval : option ApprovalToken) (now : Z) (a a1 : ApprovalAuthority) : Prop :=
  call_validate call = Ok tt /\
  is_allowlisted policy (call_name call) = true /\
  (exists registered, tools !! call_name call = Some registered /\
     validate_arguments (definition registered) (arguments call) = Ok tt) /\
  exists tok, approval = Some tok /\ verify_and_consume call tok now a = (a1, Ok tt).

Lemma execute_inv tools policy call approval now host host1 r :
  execute tools policy call approval now host = (host1, r) ->
  (executed host1 = executed host /\ exists e, r = Err e) \/
  (executed host1 = executed host ++ [call] /\
   fully_authorised tools policy call approval now (authority host) (authority host1)).
Proof.
  unfold execute, st_lift, mbind, ST_bind.
  destruct (call_validate call) as [[]|] eqn:Hc; [|intros [= <- <-]; eauto].
  destruct (tools !! call_name call) as [reg|] eqn:Hr; cbn [ok_or]; [|intros [= <- <-]; eauto].
  destruct (validate_arguments _ _) as [[]|] eqn:Ha; [|intros [= <- <-]; eauto].
  unfold with_authority.
  destruct (authorize policy call approval now (authority host)) as [a1 [[]|e]] eqn:Hz.
  2:{ intros [= <- <-]. left. eauto. }
  assert (Hf : fully_authorised tools policy call approval now (authority host) a1).
  { unfold fully_authorised, authorize in *. destruct (is_allowlisted _ _); cbn [negb] in Hz; [|done].
    destruct approval as [tok|]; [|done]. split_and!; try done; eauto. }
  cbn [run_executor]. unfold run_executor. cbn [authority executed].
  destruct (map_err _ _) as [out|e]; [destruct (ToolResult_new _ _ _) as [res|e]|];
    intros [= <- <-]; right; split; done.
Qed.

(** C2: Nothing reaches an executor unless the call is valid, the tool is
    registered, the arguments match its schema, its name is allowlisted, and a token
    for this very call was verified and consumed; with an empty allowlist or no token
    nothing is ever executed, and every refusal is an error. *)
Theorem execution_is_authorised (tools : ToolRegistry) (policy : ToolPolicy) (call : ToolCall)
    (approval : option ApprovalToken) (now : Z) (host host1 : Host) (r : ToolResultOf ToolResult) :
  execute tools policy call approval now host = (host1, r) ->
  (executed host1 = executed host ++ [call] /\
   fully_authorised tools policy call approval now (authority host) (authority host1)) \/
  (executed host1 = executed host /\ exists e, r = Err e).
Proof. intros [?|?]%execute_inv; tauto. Qed.

(** *** One execution per token *)

Inductive HostOp : Type :=
  | OpIssue (call : ToolCall) (now ttl : Z)
  | OpExecute (tools : ToolRegistry) (policy : ToolPolicy) (call : ToolCall)
      (approval : option ApprovalToken) (now : Z).

Definition op_time (op : HostOp) : Z :=
  match op with OpIssue _ now _ => now | OpExecute _ _ _ _ now => now end.

Definition host_step (host : Host) (op : HostOp) : Host :=
  match op with
  | OpIssue call now ttl => (with_authority (issue_token call now ttl) host).1
  | OpExecute tools policy call approval now => (execute tools policy call approval now host).1
  end.

(** The authority's ledger after an operation: unchanged, purged, or with one more
    nonce. *)
Lemma host_step_consumed host op :
  consumed (authority (host_step host op)) = consumed (authority host) \/
  consumed (authority (host_step host op)) = purge (op_time op) (consumed (authority host)) \/
  exists n e, purge (op_time op) (consumed (authority host)) !! n = None /\
    Z.of_nat (size (purge (op_time op) (consumed (authority host)))) < MAX_CONSUMED_APPROVALS /\
    consumed (authority (host_step host op)) =
      <[n := e]> (purge (op_time op) (consumed (authority host))).
Proof.
  destruct op as [call now ttl|tools policy call approval now]; cbn [host_step op_time].
  - left. unfold with_authority, issue_token, st_lift, st_get, take_nonce, mbind, ST_bind.
    destruct (call_validate call) as [[]|]; [|done]. destruct (ensure _ _) as [[]|]; [|done].
    destruct (ok_or _ _); [|done]. destruct (checked_add _ _ _); [|done].
    by destruct (authority_signature _ _ _ _).
  - unfold execute, st_lift, mbind, ST_bind.
    destruct (call_validate call) as [[]|]; [|by left].
    destruct (ok_or _ _) as [reg|]; [|by left].
    destruct (validate_arguments _ _) as [[]|]; [|by left].
    unfold with_authority, authorize. destruct (negb _); [by left|].
    destruct approval as [tok|]; [|by left]. cbn [ok_or]. unfold st_lift, mbind, ST_bind.
    destruct (verify_and_consume call tok now (authority host)) as [a1 [[]|e]] eqn:Hv;
      apply verify_inv in Hv as (_ & _ & Hv).
    + right. right. destruct Hv as (_ & Hn & Hs & Hcons). exists (nonce tok), (expires_at_unix_ms tok).
      split_and!; try done. unfold run_executor. cbn [authority executed].
      destruct (map_err _ _) as [out|]; [destruct (ToolResult_new _ _ _)|]; exact Hcons.
    + cbn. tauto.
Qed.

(** A consumed nonce is remembered until its token has expired. *)
Lemma remembered_step host op n e :
  op_time op <= e -> consumed (authority host) !! n = Some e ->
  consumed (authority (host_step host op)) !! n = Some e.
Proof.
  intros Ht Hn. destruct (host_step_consumed host op) as [->|[->|(n' & e' & Hn' & _ & ->)]]; [done| |].
  - by apply purge_lookup.
  - assert (Hp : purge (op_time op) (consumed (authority host)) !! n = Some e) by (by apply purge_lookup).
    rewrite lookup_insert_ne; [done|]. intros ->. congruence.
Qed.

Lemma remembered_run ops host n e now' :
  Forall (fun op => op_time op <= now') ops -> now' <= e ->
  consumed (authority host) !! n = Some e ->
  consumed (authority (foldl host_step host ops)) !! n = Some e.
Proof.
  intros Hops He. revert host. induction Hops as [|op ops Hop Hops IH]; intros host Hn; [done|].
  cbn [foldl]. apply IH. apply remembered_step; [lia|done].
Qed.

(** C3: On a clock that does not go back, a token lets at most one execution through:
    after a call executed with it, and whatever was issued or executed since, no call
    is executed with the same token again. *)
Theorem approval_executes_once (tools tools' : ToolRegistry) (policy policy' : ToolPolicy)
    (call call' : ToolCall) (tok : ApprovalToken) (now now' : Z) (host host1 host2 : Host)
    (r r' : ToolResultOf ToolResult) (ops : list HostOp) :
  execute tools policy call (Some tok) now host = (host1, r) ->
  executed host1 <> executed host ->
  Forall (fun op => op_time op <= now') ops ->
  execute tools' policy' call' (Some tok) now' (foldl host_step host1 ops) = (host2, r') ->
  executed host2 = executed (foldl host_step host1 ops).
Proof.
  intros [[Hsame _]|[_ (_ & _ & _ & tok1 & [= <-] & Hv)]]%execute_inv Hex Hops; [done|].
  intros [[? _]|[_ (_ & _ & _ & tok2 & [= <-] & Hv')]]%execute_inv; [done|]. exfalso.
  apply verify_inv in Hv as (_ & _ & Hc & _ & _ & Hcons).
  apply verify_inv in Hv' as (_ & _ & Hc' & Hn' & _).
  pose proof (check_token_time _ _ _ _ Hc').
  assert (Hmem : consumed (authority (foldl host_step host1 ops)) !! nonce tok =
            Some (expires_at_unix_ms tok)).
  { eapply remembered_run; [exact Hops|lia|]. rewrite Hcons. by rewrite lookup_insert_eq. }
  assert (Hp : purge now' (consumed (authority (foldl host_step host1 ops))) !! nonce tok =
            Some (expires_at_unix_ms tok)) by (by apply purge_lookup).
  congruence.
Qed.

(** Whatever is issued and executed, the replay ledger never holds more than its
    fixed capacity. *)
Theorem ledger_bounded (key0 : bytes) (a : ApprovalAuthority) (calls : list ToolCall)
    (ops : list HostOp) :
  ApprovalAuthority_new key0 = Ok a ->
  Z.of_nat (size (consumed (authority (foldl host_step (mkHost a calls) ops))))
    <= MAX_CONSUMED_APPROVALS.
Proof.
  unfold ApprovalAuthority_new. destruct (forallb _ _); [done|]. intros [= <-].
  assert (H1 : forall host op,
    Z.of_nat (size (consumed (authority host))) <= MAX_CONSUMED_APPROVALS ->
    Z.of_nat (size (consumed (authority (host_step host op)))) <= MAX_CONSUMED_APPROVALS).
  { intros host op Hle. pose proof (purge_size (op_time op) (consumed (authority host))).
    destruct (host_step_consumed host op) as [->|[->|(n & e & Hn & Hs & ->)]]; [lia|lia|].
    rewrite map_size_insert_None by done. lia. }
  assert (H2 : forall host, Z.of_nat (size (consumed (authority host))) <= MAX_CONSUMED_APPROVALS ->
    Z.of_nat (size (consumed (authority (foldl host_step host ops)))) <= MAX_CONSUMED_APPROVALS).
  { induction ops as [|op ops IH]; intros host Hle; [done|]. cbn [foldl]. auto. }
  apply H2. cbn. done.
Qed.
End approval.
