(* ===== verification/ToolExamples.v ===== *)
(** * Tool runtime: a concrete host

    The parameters of the tool runtime instantiated by small concrete functions, a
    weather tool, and the theorems of the component applied to it. *)

From stdpp Require Import pretty.
From S2P Require Import Prelude Bytes Utf8 Json ToolSchema ToolPolicy ToolApproval.

Module ToolExamples.

(** Integers as numbers and as floats; a quoted string; one byte per node. *)
#[export] Instance example_json : ToolJson Z := {
  tj_serde := JsonExample.serde [];
  num_eqb := Z.eqb;
  num_to_string n := lit (pretty n);
  F64 := Z;
  num_as_f64 n := Some n;
  f64_is_finite _ := true;
  f64_ltb := Z.ltb;
  json_string s := Some (lit "'" ++ s ++ lit "'");
  json_to_vec v := Some (repeat (byte_of 48) (node_count v));
}.

(** A keyed function of 32 bytes: the first 32 bytes of the message, the domain
    and the nonce. *)
#[export] Instance example_crypto : ToolCrypto := {
  hmac_sha256 k m := le_bytes 32 (from_le_bytes m);
}.

Definition obj (members : list (string * Value Z)) : Value Z :=
  Object (map (fun '(k, v) => (lit k, v)) members).

Definition weather_schema : Value Z :=
  obj [("type", Str (lit "object"));
       ("properties", obj [("city", obj [("type", Str (lit "string"))])]);
       ("required", Array [Str (lit "city")]);
       ("additionalProperties", Bool false)].

Definition weather : @ToolDefinition Z :=
  mkDefinition (lit "weather") (lit "Looks up the weather.") weather_schema.

Definition good_arguments : Value Z := obj [("city", Str (lit "Seoul"))].
Definition bad_arguments : Value Z := obj [("town", Str (lit "Seoul"))].

Definition call : @ToolCall Z := mkCall (lit "call-1") (lit "weather") good_arguments.

Definition tools : @ToolRegistry Z :=
  {[ lit "weather" := mkRegistered weather (fun _ => Ok (mkOutput false good_arguments)) ]}.

Definition policy : ToolPolicy := mkPolicy [lit "weather"].

Definition fresh_authority : ApprovalAuthority := mkAuthority (lit "k") 1 ∅.
Definition host : @Host Z := mkHost fresh_authority [].

Definition default_token : ApprovalToken := mkToken 0 0 0 [].
Definition token_of {S} (r : S * ToolResultOf ApprovalToken) : ApprovalToken :=
  match r.2 with Ok t => t | Err _ => default_token end.

(** A token issued at time 1000 for a minute, and one issued much later. *)
Definition token : ApprovalToken := token_of (issue_token call 1000 60000 fresh_authority).
Definition later_authority : ApprovalAuthority := (issue_token call 1000 60000 fresh_authority).1.
Definition late_token : ApprovalToken := token_of (issue_token call 900000 60000 later_authority).

Lemma schema_accepted : validate_schema weather_schema true = Ok tt.
Proof. vm_compute. reflexivity. Qed.

Lemma issued : issue_token call 1000 60000 fresh_authority = (later_authority, Ok token).
Proof. vm_compute. reflexivity. Qed.

Lemma hmac_length k m : len (hmac_sha256 k m) = 32.
Proof. unfold len. cbn [hmac_sha256 example_crypto]. by rewrite length_le_bytes. Qed.

Lemma validate_json_limits_iff_witness :
  validate_json_limits weather_schema "input_schema" 100 4 20 = Ok tt.
Proof.
  apply validate_json_limits_iff; [vm_compute; split; discriminate|].
  split; [vm_compute; discriminate|]. split; [vm_compute; discriminate|].
  eexists. split; [reflexivity|vm_compute; discriminate].
Defined.

Lemma accepted_schema_never_blamed_witness :
  exists reason, InvalidToolArguments "required property is missing" = InvalidToolArguments reason.
Proof.
  apply (accepted_schema_never_blamed weather_schema bad_arguments true _ schema_accepted).
  vm_compute. reflexivity.
Defined.

Lemma accepted_arguments_well_shaped_witness : well_shaped good_arguments weather_schema = true.
Proof.
  apply (accepted_arguments_well_shaped weather_schema good_arguments true schema_accepted).
  vm_compute. reflexivity.
Defined.

Lemma signature_hex_bijective_witness :
  hex_decode_32 (signature token) = Some (le_bytes 32 0) <-> signature token = hex_encode (le_bytes 32 0).
Proof. apply signature_hex_bijective. reflexivity. Defined.

Lemma issued_token_verifies_witness :
  (verify_and_consume call token 2000 later_authority).2 = Ok tt.
Proof.
  apply (issued_token_verifies call 1000 60000 2000 fresh_authority later_authority);
    [exact hmac_length|lia|exact issued|reflexivity|reflexivity|vm_compute; reflexivity
    |vm_compute; split; discriminate].
Defined.

Definition used_authority : ApprovalAuthority :=
  (verify_and_consume call token 2000 later_authority).1.

Lemma call_is_typed : call_typed call.
Proof.
  split; [vm_compute; split; discriminate|]. split; [vm_compute; split; discriminate|].
  intros args [= <-]. vm_compute. split; discriminate.
Qed.

Lemma approval_bound_to_call_witness : same_call call call.
Proof.
  apply (approval_bound_to_call call call 1000 60000 2000 fresh_authority later_authority
           later_authority used_authority token).
  - exact hmac_length.
  - intros m m' Hm Hm' _. congruence.
  - exact call_is_typed.
  - exact call_is_typed.
  - lia.
  - lia.
  - vm_compute. discriminate.
  - exact issued.
  - reflexivity.
  - vm_compute. reflexivity.
Defined.

(** The host after the call was executed. *)
Definition host1 : @Host Z := (execute tools policy call (Some token) 2000 (mkHost later_authority [])).1.
Definition outcome1 : ToolResultOf (@ToolResult Z) :=
  (execute tools policy call (Some token) 2000 (mkHost later_authority [])).2.

Lemma executed_once : executed host1 = [call] /\ outcome1 = Ok (mkToolResult (lit "call-1") false good_arguments).
Proof. vm_compute. auto. Qed.

Lemma execution_is_authorised_witness :
  (executed host1 = [] ++ [call] /\
   fully_authorised tools policy call (Some token) 2000 later_authority (authority host1)) \/
  (executed host1 = [] /\ exists e, outcome1 = Err e).
Proof.
  exact (execution_is_authorised tools policy call (Some token) 2000 (mkHost later_authority [])
           host1 outcome1 eq_refl).
Defined.

Lemma approval_executes_once_witness :
  executed (execute tools policy call (Some token) 3000
              (foldl host_step host1 [OpIssue call 2500 1000])).1 =
  executed (foldl host_step host1 [OpIssue call 2500 1000]).
Proof.
  eapply (approval_executes_once tools tools policy policy call call token 2000 3000
            (mkHost later_authority []) host1 _ outcome1 _ [OpIssue call 2500 1000]).
  - reflexivity.
  - vm_compute. discriminate.
  - repeat constructor. vm_compute. discriminate.
  - apply surjective_pairing.
Defined.

Lemma ledger_bounded_witness :
  Z.of_nat (size (consumed (authority (foldl host_step (mkHost fresh_authority [])
    [OpExecute tools policy call (Some token) 2000])))) <= MAX_CONSUMED_APPROVALS.
Proof. apply (ledger_bounded (lit "k") fresh_authority [] _). reflexivity. Defined.

(** If the clock handed to the authority goes back, a consumed token can be
    replayed: a later call purges the expired nonce from the ledger, after which the
    same token is accepted again at an earlier time; the executor runs twice for one
    approval. *)
Theorem clock_rollback_replays :
  let ops := [OpExecute tools policy call (Some token) 2000;
              OpIssue call 900000 60000;
              OpExecute tools policy call (Some late_token) 900001;
              OpExecute tools policy call (Some token) 2000] in
  executed (foldl host_step (mkHost later_authority []) ops) = [call; call; call].
Proof. vm_compute. reflexivity. Qed.

End ToolExamples.
