(* ===== verification/ToolMcp.v ===== *)
(** * Tool runtime: remote MCP server configuration

    Models [crates/lorepia-tool-runtime/src/mcp.rs]: which remote endpoints a user
    may configure.  URL parsing is the [url] crate's, the parameter [url_parse];
    the policy on its parts is the code's. *)

From S2P Require Import Prelude Bytes Utf8 Json Url ToolSchema.

Definition MAX_MCP_SERVER_ID_BYTES : Z := 64.
Definition MAX_MCP_ENDPOINT_BYTES : Z := 2048.
Definition MAX_CREDENTIAL_REF_BYTES : Z := 128.
Definition MAX_MCP_CONFIG_DOCUMENT_BYTES : Z := 4096.

Inductive McpTransport : Type := StreamableHttp | Stdio.

#[export] Instance McpTransport_eq_dec : EqDecision McpTransport.
Proof. solve_decision. Defined.

(** ** Identifiers *)

Definition name_byte (b : byte) : bool := is_ascii_alphanumeric b || one_of "_.-" b.

Definition safe_name (value : str) : bool :=
  match value with
  | [] => false
  | first :: rest =>
      is_ascii_alphabetic first && forallb name_byte rest && negb (contains value (lit ".."))
  end.

Definition credential_ref_validate (value : str) : ToolResultOf unit :=
  if is_empty value || (len value >? MAX_CREDENTIAL_REF_BYTES) then Err InvalidCredentialReference
  else if safe_name value then Ok tt else Err InvalidCredentialReference.

Definition validate_server_id (value : str) : ToolResultOf unit :=
  if is_empty value then Err (EmptyField "mcp_server_id")
  else if len value >? MAX_MCP_SERVER_ID_BYTES
  then Err (FieldTooLong "mcp_server_id" MAX_MCP_SERVER_ID_BYTES)
  else if safe_name value then Ok tt else Err (InvalidName "mcp_server_id").

(** ** Endpoints *)

Definition DOT : byte := byte_of 46.
Definition HYPHEN : byte := byte_of 45.

Definition FORBIDDEN_SUFFIXES : list string :=
  ["localhost"; ".localhost"; ".local"; ".lan"; ".internal"; ".home"; ".home.arpa"].

Fixpoint trim_start_dots (s : str) : str :=
  match s with
  | [] => []
  | c :: s' => if byte_eqb c DOT then trim_start_dots s' else s
  end.

Definition forbidden_suffix (domain : str) (suffix : string) : bool :=
  str_eqb domain (trim_start_dots (lit suffix)) || ends_with domain (lit suffix).

Definition label_byte (b : byte) : bool := is_ascii_alphanumeric b || byte_eqb b HYPHEN.

Definition label_ok (label : str) : bool :=
  negb (is_empty label || (len label >? 63) || starts_with label [HYPHEN] ||
        ends_with label [HYPHEN] || negb (forallb label_byte label)).

Definition validate_public_domain (domain : str) : ToolResultOf unit :=
  let domain := to_ascii_lowercase domain in
  if ends_with domain [DOT] || (len domain >? 253) || negb (contains domain [DOT])
  then Err ForbiddenMcpHost
  else if existsb (forbidden_suffix domain) FORBIDDEN_SUFFIXES then Err ForbiddenMcpHost
  else forM_result (fun label => ensure (label_ok label) ForbiddenMcpHost) (split_on DOT domain).

Section endpoints.
Context `{UrlLib}.

Definition validate_endpoint (value : str) : ToolResultOf unit :=
  if is_empty value then Err (EmptyField "mcp_endpoint")
  else if len value >? MAX_MCP_ENDPOINT_BYTES
  then Err (FieldTooLong "mcp_endpoint" MAX_MCP_ENDPOINT_BYTES)
  else
    endpoint ← ok_or (url_parse value) (InvalidMcpEndpoint "URL parsing failed");
    if negb (str_eqb (scheme endpoint) (lit "https")) then Err (InvalidMcpEndpoint "HTTPS is required")
    else if cannot_be_a_base endpoint then Err (InvalidMcpEndpoint "hierarchical URL is required")
    else if negb (is_empty (username endpoint)) || is_some (password endpoint)
    then Err (InvalidMcpEndpoint "userinfo credentials are forbidden")
    else if is_some (query endpoint) || is_some (fragment endpoint)
    then Err (InvalidMcpEndpoint "query and fragment are forbidden")
    else
      match url_host endpoint with
      | Some (Domain domain) => validate_public_domain domain
      | Some (Ipv4 _) | Some (Ipv6 _) => Err ForbiddenMcpHost
      | None => Err (InvalidMcpEndpoint "host is required")
      end.

Record RemoteMcpServerConfig : Type := mkConfig {
  server_id : str;
  transport : McpTransport;
  endpoint_url : str;
  credential_ref : str;
}.

Definition config_validate (self : RemoteMcpServerConfig) : ToolResultOf unit :=
  _ ← validate_server_id (server_id self);
  _ ← ensure (bool_decide (transport self = StreamableHttp)) UnsupportedMcpTransport;
  _ ← credential_ref_validate (credential_ref self);
  validate_endpoint (endpoint_url self).

Definition RemoteMcpServerConfig_new (server_id endpoint_url credential_ref : str) :
    ToolResultOf RemoteMcpServerConfig :=
  let config := mkConfig server_id StreamableHttp endpoint_url credential_ref in
  _ ← config_validate config;
  mret config.

(** ** What is accepted *)

(** A host name on the public Internet: two labels at least, each a well-formed
    DNS label, in no local or reserved zone. *)
Record public_domain (domain : str) : Prop := {
  pd_length : len domain <= 253;
  pd_labels : Forall (fun label => label_ok label = true) (split_on DOT domain);
  pd_dotted : (2 <= length (split_on DOT domain))%nat;
  pd_zone zone parent :
    zone ∈ ["localhost"; "local"; "lan"; "internal"; "home"; "home.arpa"] ->
    domain <> lit zone /\ domain <> parent ++ lit "." ++ lit zone;
}.

Lemma split_on_length c s : (1 <= length (split_on c s))%nat.
Proof.
  destruct s as [|x s]; cbn [split_on length]; [lia|]. destruct (byte_eqb x c); cbn [length]; [lia|].
  destruct (split_on c s); cbn [length]; lia.
Qed.

Lemma contains_dot_split s : contains s [DOT] = true -> (2 <= length (split_on DOT s))%nat.
Proof.
  rewrite contains_spec. intros (a & b & ->). induction a as [|c a IH]; cbn [app split_on] in *.
  - rewrite byte_eqb_refl. pose proof (split_on_length DOT b). cbn [length]. lia.
  - destruct (byte_eqb c DOT); [cbn [length]; lia|].
    destruct (split_on DOT (a ++ DOT :: b)); cbn [length] in *; lia.
Qed.

Lemma forbidden_zone domain zone parent :
  existsb (forbidden_suffix domain) FORBIDDEN_SUFFIXES = false ->
  zone ∈ ["localhost"; "local"; "lan"; "internal"; "home"; "home.arpa"] ->
  domain <> lit zone /\ domain <> parent ++ lit "." ++ lit zone.
Proof.
  intros Hn Hz. assert (Hs : (String.append "." zone) ∈ FORBIDDEN_SUFFIXES).
  { revert Hz. clear. intros Hz. unfold FORBIDDEN_SUFFIXES.
    repeat (apply elem_of_cons in Hz as [->|Hz]; [cbn; set_solver|]). by apply not_elem_of_nil in Hz. }
  apply list_elem_of_In in Hs. apply not_true_iff_false in Hn.
  assert (Hf : forbidden_suffix domain (String.append "." zone) = false).
  { apply not_true_iff_false. intros Ht. apply Hn. apply existsb_exists. eauto. }
  unfold forbidden_suffix in Hf. apply orb_false_iff in Hf as [H1 H2].
  assert (Hl : lit (String.append "." zone) = DOT :: lit zone) by done. rewrite Hl in *.
  cbn [trim_start_dots] in H1. rewrite byte_eqb_refl in H1. split.
  - intros ->. revert H1. clear -Hz. repeat (apply elem_of_cons in Hz as [->|Hz]; [done|]).
    by apply not_elem_of_nil in Hz.
  - intros He. assert (ends_with domain (DOT :: lit zone) = true); [|congruence].
    subst; apply ends_with_app.
Qed.

Lemma validate_public_domain_ok d :
  validate_public_domain d = Ok tt -> public_domain (to_ascii_lowercase d).
Proof.
  unfold validate_public_domain. set (l := to_ascii_lowercase d).
  destruct (_ || _ || _) eqn:H1; [done|]. destruct (existsb _ _) eqn:H2; [done|].
  rewrite !orb_false_iff in H1. destruct H1 as [[_ Hlen] Hdot]. zify_bool.
  intros Hall%forM_result_Ok. split.
  - lia.
  - eapply Forall_impl; [|exact Hall]. intros x Hx. by apply ensure_Ok in Hx.
  - by apply contains_dot_split.
  - intros zone parent Hz. by apply forbidden_zone.
Qed.

(** A configuration that validates uses the HTTP transport and an HTTPS URL
    without user info, query or fragment, whose host is a domain name (never an IP
    address) with at least two well-formed labels and outside [localhost] and the
    local and internal zones. *)
Theorem accepted_mcp_endpoint_is_public (c : RemoteMcpServerConfig) :
  config_validate c = Ok tt ->
  transport c = StreamableHttp /\
  exists url domain,
    url_parse (endpoint_url c) = Some url /\ scheme url = lit "https" /\
    username url = [] /\ password url = None /\ query url = None /\ fragment url = None /\
    url_host url = Some (Domain domain) /\ public_domain (to_ascii_lowercase domain).
Proof.
  unfold config_validate. intros (_ & _ & Hc)%bind_Ok.
  apply bind_Ok in Hc as (_ & Ht%ensure_Ok & Hc). apply bind_Ok in Hc as (_ & _ & He).
  split; [by apply bool_decide_eq_true in Ht|]. unfold validate_endpoint in He.
  destruct (is_empty _); [done|]. destruct (_ >? _); [done|].
  apply bind_Ok in He as (url & Hu%ok_or_Ok & He). exists url.
  destruct (str_eqb (scheme url) _) eqn:Hs; cbn [negb] in He; [|done]. apply str_eqb_eq in Hs.
  destruct (cannot_be_a_base url); [done|].
  destruct (username url) eqn:?, (password url) eqn:?; cbn [is_empty is_some negb orb] in He; try done.
  destruct (query url) eqn:?, (fragment url) eqn:?; cbn [is_some orb] in He; try done.
  destruct (url_host url) as [[domain| |]|] eqn:?; try done.
  exists domain. apply validate_public_domain_ok in He. done.
Qed.
End endpoints.

Module McpExamples.

#[export] Instance example_url : UrlLib := {
  url_parse s :=
    if str_eqb s (lit "https://mcp.example.com/rpc")
    then Some (mkUrl (lit "https") false [] None (Some (Domain (lit "mcp.example.com"))) None (lit "/rpc") None None)
    else None;
  address_text _ := [];
  query_pairs _ := [];
  encode_path p := p;
}.

Definition config : RemoteMcpServerConfig :=
  mkConfig (lit "weather") StreamableHttp (lit "https://mcp.example.com/rpc") (lit "cred.1").

Lemma accepted_mcp_endpoint_is_public_witness : transport config = StreamableHttp.
Proof.
  refine (proj1 (accepted_mcp_endpoint_is_public config _)). vm_compute. reflexivity.
Defined.

End McpExamples.
