(* ===== verification/PromptTemplate.v ===== *)
(** * Prompts: the template engine

    Models [crates/lorepia-prompt/src/template.rs]: the [${name}] templates prompt
    presets are written in, their syntax check and their bounded, one-pass
    rendering; and the errors of the crate ([error.rs]).

    Both functions of the source scan the bytes with a cursor; [next] is what one
    turn of either loop looks at.  The cursor is the suffix [template[cursor..]] and,
    when rendering, [template[literal_start..cursor]] is carried as [literal].  The
    loops recurse on the length of the suffix, so they are total. *)

From Equations Require Import Equations.
From S2P Require Import Prelude Bytes Utf8 ProviderConfig ProviderCompile.

#[local] Notation "x 'from' H" := (exist _ x H) (only parsing, at level 20).

Definition observe {A} (a : A) : { x : A | a = x } := exist _ a eq_refl.

(** ** Errors (error.rs) *)

Inductive ExactTokenCountErrorKind : Type :=
  | CountUnavailable | CountInvalidRequest | CountTransport | CountHttpStatus
  | CountInvalidResponse | CountTimeout | CountCancelled.

#[export] Instance ExactTokenCountErrorKind_eq_dec : EqDecision ExactTokenCountErrorKind.
Proof. solve_decision. Defined.

Record ExactTokenCountError : Type := mkCountError {
  count_kind : ExactTokenCountErrorKind;
  count_code : str;
  count_message : str;
  count_http_status : option Z;
  count_retriable : bool;
}.

(** [Provider] carries what [compile_request] raised; the payload of [Json], which is
    [serde_json]'s, is left out. *)
Inductive PromptError : Type :=
  | PromptInvalidField (field reason : str)
  | PromptTooManyItems (field : str) (max : Z)
  | PromptPayloadTooLarge (field : str) (max_bytes : Z)
  | UnknownVariable (name : str)
  | UnsupportedFeature (feature reason : str)
  | PromptRegex (rule reason : str)
  | PromptImport (reason : str)
  | ExactTokenCount (e : ExactTokenCountError)
  | PromptProvider (f : fault)
  | PromptJson.

Inductive ContentFormat : Type := Plain | Custom (template : str).

Definition MAX_RENDERED_TEXT_BYTES : Z := 4 * 1024 * 1024.

Definition DOLLAR : byte := byte_of 36.
Definition OPEN_BRACE : byte := byte_of 123.
Definition CLOSE_BRACE : byte := byte_of 125.

Definition variable_byte (b : byte) : bool := is_ascii_alphanumeric b || one_of "_.-" b.

Definition validate_variable_name (name : str) : bool :=
  match name with
  | [] => false
  | first :: rest =>
      if negb (is_ascii_alphabetic first) && negb (byte_eqb first (byte_of 95)) then false
      else (len name <=? 64) && forallb variable_byte rest
  end.

(** ** Scanning *)

Inductive Next : Type :=
  | Done
  | Skip (c : byte) (rest : str)
  | Variable_at (name rest : str)
  | Unterminated.

Definition next (rest : str) : Next :=
  match rest with
  | [] => Done
  | c :: rest' =>
      match byte_eqb c DOLLAR, rest' with
      | true, b :: after =>
          if byte_eqb b OPEN_BRACE then
            match split_once CLOSE_BRACE after with
            | Some (name, tail) => Variable_at name tail
            | None => Unterminated
            end
          else Skip c rest'
      | _, _ => Skip c rest'
      end
  end.

Lemma next_skip rest c rest' : next rest = Skip c rest' -> rest = c :: rest'.
Proof.
  destruct rest as [|x [|y r]]; cbn [next]; [done|..]; repeat case_match; congruence.
Qed.

Lemma next_variable rest name tail :
  next rest = Variable_at name tail ->
  rest = DOLLAR :: OPEN_BRACE :: name ++ CLOSE_BRACE :: tail /\ CLOSE_BRACE ∉ name.
Proof.
  destruct rest as [|x [|y r]]; cbn [next]; [done|by case_match|].
  destruct (byte_eqb x DOLLAR) eqn:Hx; [|done].
  destruct (byte_eqb y OPEN_BRACE) eqn:Hy; [|done].
  destruct (split_once CLOSE_BRACE r) as [[n t]|] eqn:Hs; [|done]. intros [= <- <-].
  apply byte_eqb_eq in Hx as ->. apply byte_eqb_eq in Hy as ->.
  pose proof (split_once_no _ _ _ _ Hs). apply split_once_Some in Hs as ->. done.
Qed.

Definition unterminated : str := lit "unterminated ${name} variable".

Definition invalid_variable_reason : str :=
  lit "variable names must be 1-64 ASCII letters, digits, '_', '.' or '-' and cannot start with a digit".

Equations? scan_loop (field : str) (rest : str) (variables : list str) :
    result PromptError (list str) by wf (length rest) lt :=
  scan_loop field rest variables with observe (next rest) := {
    | Done from _ => Ok variables;
    | Skip c rest' from Heq => scan_loop field rest' variables;
    | Unterminated from _ => Err (PromptInvalidField field unterminated);
    | Variable_at name after from Heq =>
        match from_utf8 name (PromptInvalidField field (lit "variable name is not UTF-8")) with
        | Err e => Err e
        | Ok name =>
            if negb (validate_variable_name name)
            then Err (PromptInvalidField field invalid_variable_reason)
            else scan_loop field after (variables ++ [name])
        end }.
Proof.
  - apply next_skip in Heq as ->. cbn. lia.
  - apply next_variable in Heq as [-> _]. cbn. rewrite length_app. cbn. lia.
Defined.

Definition validate_template_syntax (template field : str) : result PromptError (list str) :=
  scan_loop field template [].

(** ** Rendering *)

Definition rendered_too_large : PromptError :=
  PromptPayloadTooLarge (lit "rendered content") MAX_RENDERED_TEXT_BYTES.

Definition append_bounded (output value : str) : result PromptError str :=
  next ← ok_or (checked_add USIZE_MAX (len output) (len value)) rendered_too_large;
  if next >? MAX_RENDERED_TEXT_BYTES then Err rendered_too_large else Ok (output ++ value).

Definition Variables : Type := gmap str str.

(** [reserved.filter(..).map(..).or_else(|| variables.get(name))] *)
Definition variable_value (variables : Variables) (reserved : option (str * str)) (name : str) :
    option str :=
  match reserved with
  | Some (reserved_name, value) =>
      if str_eqb reserved_name name then Some value else variables !! name
  | None => variables !! name
  end.

Section render.
Context (variables : Variables) (reserved : option (str * str)).

Equations? render_loop (literal rest output : str) : result PromptError str
    by wf (length rest) lt :=
  render_loop literal rest output with observe (next rest) := {
    | Done from _ => append_bounded output literal;
    | Skip c rest' from Heq => render_loop (literal ++ [c]) rest' output;
    | Unterminated from _ =>
        _ ← append_bounded output literal;
        Err (PromptInvalidField (lit "template") unterminated);
    | Variable_at name after from Heq =>
        match append_bounded output literal with
        | Err e => Err e
        | Ok output =>
            if negb (validate_variable_name name)
            then Err (PromptInvalidField (lit "template") (lit "invalid variable name"))
            else
              match ok_or (variable_value variables reserved name) (UnknownVariable name) with
              | Err e => Err e
              | Ok value =>
                  match append_bounded output value with
                  | Err e => Err e
                  | Ok output => render_loop [] after output
                  end
              end
        end }.
Proof.
  - apply next_skip in Heq as ->. cbn. lia.
  - apply next_variable in Heq as [-> _]. cbn. rewrite length_app. cbn. lia.
Defined.

Definition render_with_reserved (template : str) : result PromptError str :=
  render_loop [] template [].
End render.

Definition render_template (template : str) (variables : Variables) : result PromptError str :=
  render_with_reserved variables None template.

Definition render_content (format : ContentFormat) (source : str) (variables : Variables) :
    result PromptError str :=
  match format with
  | Plain => if len source >? MAX_RENDERED_TEXT_BYTES then Err rendered_too_large else Ok source
  | Custom template => render_with_reserved variables (Some (lit "value", source)) template
  end.

(** ** The loops, by their equations *)

Lemma scan_loop_eq field rest vars :
  scan_loop field rest vars =
  match next rest with
  | Done => Ok vars
  | Skip _ rest' => scan_loop field rest' vars
  | Unterminated => Err (PromptInvalidField field unterminated)
  | Variable_at name after =>
      name ← from_utf8 name (PromptInvalidField field (lit "variable name is not UTF-8"));
      if negb (validate_variable_name name)
      then Err (PromptInvalidField field invalid_variable_reason)
      else scan_loop field after (vars ++ [name])
  end.
Proof.
  rewrite scan_loop_equation_1. unfold scan_loop_unfold_clause_1, observe.
  by destruct (next rest).
Qed.

Lemma append_bounded_eq output value :
  append_bounded output value =
  if len output + len value >? MAX_RENDERED_TEXT_BYTES then Err rendered_too_large
  else Ok (output ++ value).
Proof.
  unfold append_bounded, checked_add.
  destruct (Z.leb_spec (len output + len value) USIZE_MAX); [done|].
  rewrite gtb_true; [done|]. unfold MAX_RENDERED_TEXT_BYTES, USIZE_MAX, U64_MAX in *. lia.
Qed.

Section template_facts.
Context (variables : Variables) (reserved : option (str * str)).

Lemma render_loop_eq literal rest output :
  render_loop variables reserved literal rest output =
  match next rest with
  | Done => append_bounded output literal
  | Skip c rest' => render_loop variables reserved (literal ++ [c]) rest' output
  | Unterminated =>
      _ ← append_bounded output literal;
      Err (PromptInvalidField (lit "template") unterminated)
  | Variable_at name after =>
      output ← append_bounded output literal;
      if negb (validate_variable_name name)
      then Err (PromptInvalidField (lit "template") (lit "invalid variable name"))
      else
        value ← ok_or (variable_value variables reserved name) (UnknownVariable name);
        output ← append_bounded output value;
        render_loop variables reserved [] after output
  end.
Proof.
  rewrite render_loop_equation_1. unfold render_loop_unfold_clause_1, observe.
  by destruct (next rest).
Qed.

(** ** The grammar of templates

    A template is a list of literals, each followed by a variable, and a last
    literal; a literal does not contain the marker [${]. *)

Definition marker : str := [DOLLAR; OPEN_BRACE].

Definition plain (literal : str) : Prop := contains literal marker = false.

Fixpoint template_of (segs : list (str * str)) (final : str) : str :=
  match segs with
  | [] => final
  | (literal, name) :: segs' =>
      literal ++ marker ++ name ++ CLOSE_BRACE :: template_of segs' final
  end.

Definition well_formed (segs : list (str * str)) (final : str) : Prop :=
  Forall (fun seg => plain seg.1 /\ validate_variable_name seg.2 = true) segs /\ plain final.

(** Each variable replaced by its value, once. *)
Fixpoint expand (segs : list (str * str)) (values : list str) (final : str) : str :=
  match segs, values with
  | (literal, _) :: segs', value :: values' => literal ++ value ++ expand segs' values' final
  | _, _ => final
  end.

Lemma plain_spec l : plain l <-> forall before after, l <> before ++ marker ++ after.
Proof.
  unfold plain. rewrite <- not_true_iff_false, contains_spec. naive_solver.
Qed.

Lemma plain_prefix l r : plain (l ++ r) -> plain l.
Proof. rewrite !plain_spec. intros H b a ->. apply (H b (a ++ r)). by rewrite !app_assoc. Qed.

Lemma plain_snoc l c d :
  plain (l ++ [c]) -> ~ (c = DOLLAR /\ d = OPEN_BRACE) -> plain (l ++ [c] ++ [d]).
Proof.
  rewrite !plain_spec. intros Hl Hcd before after.
  destruct after as [|x after _] using rev_ind.
  - rewrite app_nil_r. unfold marker. intros Heq.
    change [DOLLAR; OPEN_BRACE] with ([DOLLAR] ++ [OPEN_BRACE]) in Heq. rewrite !app_assoc in Heq.
    apply app_inj_tail in Heq as [Heq ->]. apply app_inj_tail in Heq as [_ ->]. tauto.
  - rewrite !app_assoc. intros [Heq _]%app_inj_tail. apply (Hl before after).
    by rewrite Heq, !app_assoc.
Qed.

Lemma next_plain c l rest :
  plain (c :: l) -> rest = [] \/ (exists r, rest = DOLLAR :: r) ->
  next (c :: l ++ rest) = Skip c (l ++ rest).
Proof.
  rewrite plain_spec. intros Hl Hrest. cbn [next].
  destruct (byte_eqb c DOLLAR) eqn:Hc; [|done]. apply byte_eqb_eq in Hc as ->.
  destruct l as [|b l]; cbn [app].
  - destruct Hrest as [->|[r ->]]; [done|]. done.
  - destruct (byte_eqb b OPEN_BRACE) eqn:Hb; [|done]. apply byte_eqb_eq in Hb as ->.
    by destruct (Hl [] l).
Qed.

Lemma render_literal literal l rest output :
  plain l -> rest = [] \/ (exists r, rest = DOLLAR :: r) ->
  render_loop variables reserved literal (l ++ rest) output =
  render_loop variables reserved (literal ++ l) rest output.
Proof.
  intros Hl Hrest. revert literal. induction l as [|c l IH]; intros literal; cbn [app].
  { by rewrite app_nil_r. }
  rewrite render_loop_eq, next_plain by done. rewrite IH, <- app_assoc; [done|].
  revert Hl. rewrite !plain_spec. intros H b a ->. by apply (H (c :: b) a).
Qed.

Lemma scan_literal field l rest vars :
  plain l -> rest = [] \/ (exists r, rest = DOLLAR :: r) ->
  scan_loop field (l ++ rest) vars = scan_loop field rest vars.
Proof.
  intros Hl Hrest. induction l as [|c l IH]; cbn [app]; [done|].
  rewrite scan_loop_eq, next_plain by done. apply IH.
  revert Hl. rewrite !plain_spec. intros H b a ->. by apply (H (c :: b) a).
Qed.

(** ** Variable names *)

Lemma variable_name_bytes name b :
  validate_variable_name name = true -> b ∈ name -> variable_byte b = true.
Proof.
  destruct name as [|first rest]; cbn [validate_variable_name]; [done|].
  destruct (negb (is_ascii_alphabetic first) && _) eqn:Hf; [done|].
  intros [_ Hr]%andb_true_iff [->|Hb]%elem_of_cons.
  - apply andb_false_iff in Hf as [Hf|Hf]; apply negb_false_iff in Hf.
    + unfold variable_byte, is_ascii_alphanumeric. by rewrite Hf.
    + apply byte_eqb_eq in Hf as ->. reflexivity.
  - rewrite forallb_forall in Hr. apply Hr. by apply list_elem_of_In.
Qed.

Lemma variable_name_closed name :
  validate_variable_name name = true -> CLOSE_BRACE ∉ name.
Proof. intros Hn Hin. by pose proof (variable_name_bytes _ _ Hn Hin). Qed.

Lemma variable_byte_ascii b : variable_byte b = true -> byte_val b < 128.
Proof.
  unfold variable_byte, is_ascii_alphanumeric, is_ascii_alphabetic, is_ascii_uppercase,
    is_ascii_lowercase, is_ascii_digit, in_range, one_of.
  destruct b as [[] [] [] [] [] [] [] []]; vm_compute; done.
Qed.

Lemma variable_name_utf8 {E} name (e : E) :
  validate_variable_name name = true -> from_utf8 name e = Ok name.
Proof.
  intros Hn. unfold from_utf8.
  assert (His : is_Some (utf8_decode name)); [|by destruct His as [? ->]].
  assert (Hb : forall b, b ∈ name -> byte_val b < 128).
  { intros b Hb. eapply variable_byte_ascii, variable_name_bytes; done. }
  clear Hn. induction name as [|b name IH]; [by eexists|]. cbn [utf8_decode].
  rewrite (proj2 (Z.ltb_lt _ _)) by (apply Hb; left).
  destruct IH as [cs ->]; [|by eexists]. intros c Hc. apply Hb. by right.
Qed.

Lemma next_variable_at name after :
  validate_variable_name name = true ->
  next (marker ++ name ++ CLOSE_BRACE :: after) = Variable_at name after.
Proof.
  intros Hn. cbn [marker app next]. rewrite !byte_eqb_refl.
  by rewrite split_once_app by (by apply variable_name_closed).
Qed.

(** ** Templates of the grammar are accepted and rendered *)

Lemma scan_template_of field segs final vars :
  well_formed segs final ->
  scan_loop field (template_of segs final) vars = Ok (vars ++ map snd segs).
Proof.
  intros [Hsegs Hfinal]. revert vars.
  induction Hsegs as [|[l name] segs [Hl Hn] _ IH]; intros vars; cbn [template_of map snd].
  - rewrite app_nil_r. rewrite <- (app_nil_r final), scan_literal by auto.
    by rewrite scan_loop_eq.
  - cbn [fst snd] in *. rewrite scan_literal by (try done; right; by eexists).
    rewrite scan_loop_eq, next_variable_at, variable_name_utf8 by done. cbn [mbind result_bind].
    rewrite Hn. cbn [negb]. rewrite IH, <- app_assoc. done.
Qed.

Lemma render_template_of segs values final output :
  well_formed segs final ->
  Forall2 (fun seg value => variable_value variables reserved seg.2 = Some value) segs values ->
  render_loop variables reserved [] (template_of segs final) output =
  if len output + len (expand segs values final) >? MAX_RENDERED_TEXT_BYTES
  then Err rendered_too_large else Ok (output ++ expand segs values final).
Proof.
  intros [Hsegs Hfinal] Hv. revert output.
  induction Hv as [|[l name] value segs values Hval _ IH]; intros output;
    cbn [template_of expand].
  - rewrite <- (app_nil_r final), render_literal by auto.
    rewrite render_loop_eq. cbn [next app]. by rewrite app_nil_r, append_bounded_eq.
  - inversion Hsegs as [|? ? [Hl Hn] Hsegs']; subst. cbn [fst snd] in *.
    rewrite render_literal by (try done; right; by eexists).
    rewrite render_loop_eq, next_variable_at, append_bounded_eq by done. cbn [app].
    rewrite !len_app. pose proof (len_nonneg value).
    pose proof (len_nonneg (expand segs values final)).
    destruct (Z.gtb_spec (len output + len l) MAX_RENDERED_TEXT_BYTES); cbn [mbind result_bind].
    { by rewrite gtb_true by lia. }
    rewrite Hn, Hval. cbn [negb ok_or mbind result_bind]. rewrite append_bounded_eq, len_app.
    destruct (Z.gtb_spec (len output + len l + len value) MAX_RENDERED_TEXT_BYTES);
      cbn [mbind result_bind].
    { by rewrite gtb_true by lia. }
    rewrite IH by done. rewrite !len_app, !app_assoc.
    by replace (len output + len l + len value + len (expand segs values final))
      with (len output + (len l + (len value + len (expand segs values final)))) by lia.
Qed.

(** ** What is accepted or rendered is a template of the grammar *)

(** The text before the cursor is a literal, also together with the next byte. *)
Definition at_literal (literal rest : str) : Prop := plain (literal ++ take 1 rest).

Lemma at_literal_start rest : at_literal [] rest.
Proof.
  apply plain_spec. intros [|x before] after; destruct rest as [|c rest]; cbn; try done.
  intros [= ? ?]. by destruct before.
Qed.

Lemma at_literal_skip literal rest c rest' :
  next rest = Skip c rest' -> at_literal literal rest -> at_literal (literal ++ [c]) rest'.
Proof.
  intros Hn. pose proof (next_skip _ _ _ Hn) as ->. unfold at_literal. cbn [take].
  destruct rest' as [|d rest']; cbn [take]; [by rewrite app_nil_r|].
  intros H. rewrite <- app_assoc. apply plain_snoc; [done|]. intros [-> ->].
  cbn [next] in Hn. rewrite !byte_eqb_refl in Hn. by destruct (split_once _ _) as [[]|].
Qed.

Lemma at_literal_plain literal rest : at_literal literal rest -> plain literal.
Proof. apply plain_prefix. Qed.

Lemma scan_loop_inv field rest vars names literal :
  scan_loop field rest vars = Ok names -> at_literal literal rest ->
  exists segs final, literal ++ rest = template_of segs final /\ well_formed segs final /\
    names = vars ++ map snd segs.
Proof.
  remember (length rest) as n eqn:Hlen. revert rest vars literal Hlen.
  induction n as [n IH] using lt_wf_ind. intros rest vars literal ->.
  rewrite scan_loop_eq. destruct (next rest) as [|c rest'|name after|] eqn:Hn; [| | |done].
  - intros [= <-] Hlit. exists [], literal. destruct rest as [|? [|? ?]]; cbn [next] in Hn;
      [|repeat case_match; done..].
    rewrite !app_nil_r. split; [done|]. split; [|done]. split; [constructor|].
    by eapply at_literal_plain.
  - intros Hs Hlit. pose proof (at_literal_skip _ _ _ _ Hn Hlit) as Hlit'.
    pose proof (next_skip _ _ _ Hn) as ->.
    edestruct IH as (segs & final & Heq & Hr); [|done|exact Hs|exact Hlit'|]; [cbn; lia|].
    exists segs, final. split; [|done]. by rewrite <- Heq, <- app_assoc.
  - intros (name' & Hu & Hs)%bind_Ok Hlit.
    assert (name' = name) as -> by (unfold from_utf8 in Hu; destruct (utf8_decode name); by simplify_eq).
    destruct (validate_variable_name name) eqn:Hname; [|done]. cbn [negb] in Hs.
    apply next_variable in Hn as [-> _].
    edestruct (IH (length after)) as (segs & final & Heq & [Hwf Hfin] & ->);
      [|done|exact Hs|apply at_literal_start|].
    { cbn. rewrite length_app. cbn. lia. }
    exists ((literal, name) :: segs), final. cbn [app] in Heq. cbn [template_of map snd]. split.
    { rewrite <- Heq. done. }
    split; [split; [constructor; [|done]|done]|by rewrite <- app_assoc].
    split; [by eapply at_literal_plain|done].
Qed.

Lemma render_loop_inv rest literal output out :
  render_loop variables reserved literal rest output = Ok out -> at_literal literal rest ->
  exists segs final values, literal ++ rest = template_of segs final /\ well_formed segs final /\
    Forall2 (fun seg value => variable_value variables reserved seg.2 = Some value) segs values.
Proof.
  remember (length rest) as n eqn:Hlen. revert rest literal output Hlen.
  induction n as [n IH] using lt_wf_ind. intros rest literal output ->.
  rewrite render_loop_eq. destruct (next rest) as [|c rest'|name after|] eqn:Hn.
  - intros _ Hlit. exists [], literal, []. destruct rest as [|? [|? ?]]; cbn [next] in Hn;
      [|repeat case_match; done..].
    rewrite !app_nil_r. repeat split; [constructor| |constructor]. by eapply at_literal_plain.
  - intros Hs Hlit. pose proof (at_literal_skip _ _ _ _ Hn Hlit) as Hlit'.
    pose proof (next_skip _ _ _ Hn) as ->.
    edestruct IH as (segs & final & values & Heq & Hr); [|done|exact Hs|exact Hlit'|]; [cbn; lia|].
    exists segs, final, values. split; [|done]. by rewrite <- Heq, <- app_assoc.
  - intros (o1 & _ & Hs)%bind_Ok Hlit.
    destruct (validate_variable_name name) eqn:Hname; [|done]. cbn [negb] in Hs.
    apply bind_Ok in Hs as (value & Hv%ok_or_Ok & Hs). apply bind_Ok in Hs as (o2 & _ & Hs).
    apply next_variable in Hn as [-> _].
    edestruct (IH (length after)) as (segs & final & values & Heq & [Hwf Hfin] & Hvs);
      [|done|exact Hs|apply at_literal_start|].
    { cbn. rewrite length_app. cbn. lia. }
    exists ((literal, name) :: segs), final, (value :: values). cbn [app] in Heq.
    cbn [template_of]. split; [by rewrite <- Heq|]. split; [|by constructor].
    split; [constructor; [|done]|done]. split; [by eapply at_literal_plain|done].
  - intros (? & _ & [=])%bind_Ok.
Qed.

(** Rendering is the one-pass substitution of the grammar: it succeeds exactly
    when the template is literals and valid variables, every variable has a value
    (the reserved one first) and the result is within the size limit, and the result
    is then the literals with each variable replaced by its value; values are not
    expanded again. *)
Theorem render_spec (template out : str) :
  render_with_reserved variables reserved template = Ok out <->
  exists segs final values,
    template = template_of segs final /\ well_formed segs final /\
    Forall2 (fun seg value => variable_value variables reserved seg.2 = Some value) segs values /\
    out = expand segs values final /\ len out <= MAX_RENDERED_TEXT_BYTES.
Proof.
  unfold render_with_reserved. split.
  - intros Hr. pose proof Hr as (segs & final & values & Heq & Hwf & Hv)%render_loop_inv;
      [|apply at_literal_start].
    exists segs, final, values. cbn [app] in Heq. subst template. repeat (split; [done|]).
    rewrite (render_template_of segs values final [] Hwf Hv) in Hr.
    destruct (Z.gtb_spec (len (@nil byte) + len (expand segs values final)) MAX_RENDERED_TEXT_BYTES)
      as [|Hle]; [done|]. injection Hr as <-. split; [done|]. by cbn [app].
  - intros (segs & final & values & -> & Hwf & Hv & -> & Hle).
    rewrite (render_template_of segs values final [] Hwf Hv). change (len (@nil byte)) with 0.
    by rewrite gtb_false by lia.
Qed.

(** A template whose syntax was accepted renders whenever the variables it was
    reported to use have values: the only error left is the size of the result. *)
Theorem accepted_template_renders (template field : str) (names : list str) :
  validate_template_syntax template field = Ok names ->
  (forall name, name ∈ names -> is_Some (variable_value variables reserved name)) ->
  exists segs final values,
    template = template_of segs final /\ names = map snd segs /\
    Forall2 (fun name value => variable_value variables reserved name = Some value) names values /\
    render_with_reserved variables reserved template =
    if len (expand segs values final) >? MAX_RENDERED_TEXT_BYTES
    then Err rendered_too_large else Ok (expand segs values final).
Proof.
  intros (segs & final & Heq & Hwf & Hnames)%(scan_loop_inv _ _ _ _ []) Hknown;
    [|apply at_literal_start].
  cbn [app] in Heq, Hnames. subst template names.
  assert (Hv : exists values, Forall2
    (fun name value => variable_value variables reserved name = Some value) (map snd segs) values).
  { clear Hwf. induction segs as [|[l n] segs IH]; cbn [map snd] in *; [by exists []|].
    destruct (Hknown n) as [v Hv]; [left|]. destruct IH as [values Hvs].
    { intros m Hm. apply Hknown. by right. }
    exists (v :: values). by constructor. }
  destruct Hv as [values Hv]. exists segs, final, values. repeat (split; [done|]).
  apply Forall2_fmap_l in Hv.
  exact (render_template_of segs values final [] Hwf Hv).
Qed.
End template_facts.

(** ** A preset's greeting *)

Module TemplateExamples.

Definition variables : Variables :=
  list_to_map [(lit "user", lit "${char}"); (lit "value", lit "attacker")].

Definition template : str := lit "$ Hello ${user}: ${value}!".

Lemma render_spec_witness :
  render_with_reserved variables (Some (lit "value", lit "Lore")) template =
    Ok (lit "$ Hello ${char}: Lore!") /\
  exists segs final values,
    template = template_of segs final /\ well_formed segs final /\
    Forall2 (fun seg value =>
      variable_value variables (Some (lit "value", lit "Lore")) seg.2 = Some value) segs values /\
    lit "$ Hello ${char}: Lore!" = expand segs values final /\
    len (lit "$ Hello ${char}: Lore!") <= MAX_RENDERED_TEXT_BYTES.
Proof.
  assert (Hr : render_with_reserved variables (Some (lit "value", lit "Lore")) template =
    Ok (lit "$ Hello ${char}: Lore!")) by (vm_compute; reflexivity).
  split; [exact Hr|]. exact (proj1 (render_spec _ _ _ _) Hr).
Defined.

Lemma accepted_template_renders_witness :
  exists segs final values,
    template = template_of segs final /\ [lit "user"; lit "value"] = map snd segs /\
    Forall2 (fun name value => variable_value variables None name = Some value)
      [lit "user"; lit "value"] values /\
    render_with_reserved variables None template =
    if len (expand segs values final) >? MAX_RENDERED_TEXT_BYTES
    then Err rendered_too_large else Ok (expand segs values final).
Proof.
  apply (accepted_template_renders variables None template (lit "prompt")).
  - vm_compute. reflexivity.
  - intros name Hn. apply elem_of_cons in Hn as [->|Hn]; [by eexists|].
    apply list_elem_of_singleton in Hn as ->. by eexists.
Defined.
End TemplateExamples.
