(* ===== verification/PromptSchema.v ===== *)
(** * Prompts: presets and the text transforms

    Models [crates/lorepia-prompt/src/schema.rs] and [regex_pipeline.rs]: the blocks,
    sampling parameters, references and rules of a prompt preset, and the bounded
    pipeline of regex rules that rewrites text.

    The regex engine is the parameter [PromptRegexLib]: building a pattern under the
    size limits and the capture groups of the successive matches, as spans of the
    text.  What the code relies on is that the spans of the whole matches come in
    order, do not overlap and lie in the text ([RegexLaws]).  An error ends the
    pipeline, so what it leaves in the counters is not observed. *)

From Equations Require Import Equations.
From stdpp Require Import pretty.
From S2P Require Import Prelude Bytes Utf8 Float64 ProviderConfig ProviderCompile PromptTemplate.

#[local] Notation "x 'from' H" := (exist _ x H) (only parsing, at level 20).

(** ** Presets (schema.rs) *)

Inductive PromptRole : Type := PSystem | PUser | PAssistant.

#[export] Instance PromptRole_eq_dec : EqDecision PromptRole.
Proof. solve_decision. Defined.

(** [MessageRole::from]. *)
Definition message_role (r : PromptRole) : MessageRole :=
  match r with PSystem => System | PUser => User | PAssistant => Assistant end.

Inductive PromptBlockKind : Type :=
  | KRaw | KChat | KPersona | KCharacterDescription | KAuthorNote | KLorebook | KLongTermMemory
  | KFinalInsertion | KChatMl | KCachePoint.

Inductive RawPromptSpecial : Type := Main | GlobalNote.

#[export] Instance RawPromptSpecial_eq_dec : EqDecision RawPromptSpecial.
Proof. solve_decision. Defined.

Inductive ChatEnd : Type := EndIndex (index : Z) | EndOfChat.

Record ChatSelection : Type := mkSelection { start : Z; end_ : ChatEnd }.

Inductive PromptBlock : Type :=
  | Raw (name : str) (enabled : bool) (role : PromptRole) (special : option RawPromptSpecial)
        (prompt : str)
  | Chat (name : str) (enabled : bool) (selection : ChatSelection)
  | Persona (name : str) (enabled : bool) (role : PromptRole) (format : ContentFormat)
  | CharacterDescription (name : str) (enabled : bool) (role : PromptRole) (format : ContentFormat)
  | AuthorNote (name : str) (enabled : bool) (role : PromptRole) (default_prompt : option str)
               (format : ContentFormat)
  | Lorebook (name : str) (enabled : bool) (role : PromptRole) (format : ContentFormat)
  | LongTermMemory (name : str) (enabled : bool) (role : PromptRole) (format : ContentFormat)
  | FinalInsertion (name : str) (enabled : bool) (role : PromptRole) (prompt : str)
  | ChatMl (name : str) (enabled : bool) (role : PromptRole) (prompt : str)
  | CachePointBlock (name : str) (enabled : bool) (depth : Z) (role : PromptRole).

Definition block_name (b : PromptBlock) : str :=
  match b with
  | Raw name _ _ _ _ | Chat name _ _ | Persona name _ _ _ | CharacterDescription name _ _ _
  | AuthorNote name _ _ _ _ | Lorebook name _ _ _ | LongTermMemory name _ _ _
  | FinalInsertion name _ _ _ | ChatMl name _ _ _ | CachePointBlock name _ _ _ => name
  end.

Definition block_enabled (b : PromptBlock) : bool :=
  match b with
  | Raw _ enabled _ _ _ | Chat _ enabled _ | Persona _ enabled _ _
  | CharacterDescription _ enabled _ _ | AuthorNote _ enabled _ _ _ | Lorebook _ enabled _ _
  | LongTermMemory _ enabled _ _ | FinalInsertion _ enabled _ _ | ChatMl _ enabled _ _
  | CachePointBlock _ enabled _ _ => enabled
  end.

Definition block_kind (b : PromptBlock) : PromptBlockKind :=
  match b with
  | Raw _ _ _ _ _ => KRaw
  | Chat _ _ _ => KChat
  | Persona _ _ _ _ => KPersona
  | CharacterDescription _ _ _ _ => KCharacterDescription
  | AuthorNote _ _ _ _ _ => KAuthorNote
  | Lorebook _ _ _ _ => KLorebook
  | LongTermMemory _ _ _ _ => KLongTermMemory
  | FinalInsertion _ _ _ _ => KFinalInsertion
  | ChatMl _ _ _ _ => KChatMl
  | CachePointBlock _ _ _ _ => KCachePoint
  end.

Record PromptSampling : Type := mkSampling {
  p_temperature : option f64;
  p_top_k : option Z;
  p_min_p : option f64;
  p_top_a : option f64;
  p_repetition_penalty : option f64;
  p_top_p : option f64;
  p_presence_penalty : option f64;
  p_frequency_penalty : option f64;
  p_stop_sequences : list str;
  p_seed : option Z;
}.

Record SyntheticMessage : Type := mkSynthetic { s_role : PromptRole; s_template : str }.

(** [default_variables] is a [BTreeMap]: its entries in key order. *)
Record PromptTemplateSettings : Type := mkTemplateSettings {
  preamble : option SyntheticMessage;
  epilogue : option SyntheticMessage;
  default_variables : list (str * str);
}.

Record ToolReference : Type := mkToolReference { tool_id : str; tool_enabled : bool }.

Record ModuleReference : Type := mkModuleReference {
  module_id : str;
  module_version : str;
  digest_sha256 : str;
  module_enabled : bool;
}.

Inductive TransformTarget : Type :=
  | TargetInput | TargetRequest | TargetResponse | TargetDisplay | TargetTranslation.

#[export] Instance TransformTarget_eq_dec : EqDecision TransformTarget.
Proof. solve_decision. Defined.

Record RegexFlags : Type := mkFlags {
  global : bool;
  case_insensitive : bool;
  multi_line : bool;
  unicode : bool;
  dot_matches_new_line : bool;
}.

Record RegexRule : Type := mkRule {
  rule_name : str;
  rule_enabled : bool;
  target : TransformTarget;
  pattern : str;
  replacement : str;
  flags : RegexFlags;
}.

Record AdvancedSettings : Type := mkAdvanced {
  template_settings : PromptTemplateSettings;
  tools : list ToolReference;
  regex : list RegexRule;
  modules : list ModuleReference;
}.

Record PromptPreset : Type := mkPreset {
  preset_name : str;
  blocks : list PromptBlock;
  sampling : PromptSampling;
  advanced : AdvancedSettings;
}.

Record CachePoint : Type := mkCachePoint {
  cache_block_index : nat;
  cache_message_index : nat;
  cache_depth : Z;
  cache_role : PromptRole;
}.

(** ** The regex pipeline (regex_pipeline.rs) *)

Definition MAX_PATTERN_BYTES : Z := 16 * 1024.
Definition MAX_REPLACEMENT_BYTES : Z := 64 * 1024.
Definition MAX_RULES : Z := 128.
Definition MAX_ACTIVE_RULES : Z := 64.
Definition MAX_TEXT_BYTES : Z := 4 * 1024 * 1024.
Definition MAX_CUMULATIVE_SCAN_BYTES : Z := 128 * 1024 * 1024.
Definition MAX_MATCHES_PER_RULE : Z := 100000.
Definition MAX_CUMULATIVE_MATCHES : Z := 100000.

(** The spans of the groups of one match; group 0 is the whole match. *)
Definition Captures : Type := list (option (nat * nat)).

Class PromptRegexLib : Type := {
  Regex : Type;
  (** [RegexBuilder] with the flags and the two size limits. *)
  regex_build : str -> RegexFlags -> option Regex;
  captures_len : Regex -> Z;
  captures_iter : Regex -> str -> list Captures;
}.

(** [format!("{index}")] *)
Definition index_str (index : nat) : str := lit (pretty (N.of_nat index)).

Definition regex_error (label : str) (reason : string) : PromptError :=
  PromptRegex label (lit reason).

(** *** Replacements *)

Inductive ReplacementPart : Type :=
  | Literal (text : str)
  | Dollar
  | Capture (index : nat).

#[export] Instance ReplacementPart_eq_dec : EqDecision ReplacementPart.
Proof. solve_decision. Defined.

Definition replacement_error (label : str) (reason : string) : PromptError :=
  PromptRegex label (lit "replacement rejected: " ++ lit reason).

(** [digits.parse::<usize>()] of ASCII digits. *)
Definition digits_value (digits : str) : Z :=
  foldl (fun acc b => acc * 10 + (byte_val b - 48)) 0 digits.

Definition ZERO : byte := byte_of 48.

Definition parse_capture (label digits : str) : result PromptError nat :=
  if is_empty digits || negb (forallb is_ascii_digit digits)
     || ((len digits >? 1) && starts_with digits [ZERO])
  then Err (replacement_error label
              "capture references must use canonical `${0}` through `${63}` syntax")
  else if digits_value digits >? USIZE_MAX
  then Err (regex_error label "capture reference is outside `${0}` through `${63}`")
  else if digits_value digits >? 63
  then Err (replacement_error label "capture reference is outside `${0}` through `${63}`")
  else Ok (Z.to_nat (digits_value digits)).

(** What the bytes at the cursor begin with; the cursor is the suffix. *)
Inductive ReplacementNext : Type :=
  | REnd
  | RByte (c : byte) (rest : str)
  | RDollar (rest : str)
  | RCapture (digits rest : str)
  | RUnterminated
  | RInvalid.

Definition replacement_next (rest : str) : ReplacementNext :=
  match rest with
  | [] => REnd
  | c :: rest' =>
      if negb (byte_eqb c DOLLAR) then RByte c rest'
      else
        match rest' with
        | b :: after =>
            if byte_eqb b DOLLAR then RDollar after
            else if byte_eqb b OPEN_BRACE then
              match split_once CLOSE_BRACE after with
              | Some (digits, tail) => RCapture digits tail
              | None => RUnterminated
              end
            else RInvalid
        | [] => RInvalid
        end
  end.

(** [if literal_start < cursor { parts.push(Literal(..)) }] *)
Definition push_literal (parts : list ReplacementPart) (literal : str) : list ReplacementPart :=
  if is_empty literal then parts else parts ++ [Literal literal].

Lemma replacement_next_shape rest :
  match replacement_next rest with
  | REnd => rest = []
  | RByte c tail => rest = c :: tail /\ c <> DOLLAR
  | RDollar tail => rest = DOLLAR :: DOLLAR :: tail
  | RCapture digits tail =>
      rest = DOLLAR :: OPEN_BRACE :: digits ++ CLOSE_BRACE :: tail /\ CLOSE_BRACE ∉ digits
  | _ => True
  end.
Proof.
  destruct rest as [|c rest]; [done|]. cbn [replacement_next].
  destruct (byte_eqb c DOLLAR) eqn:Hc; cbn [negb]; [|split; [done|by apply byte_eqb_neq]].
  apply byte_eqb_eq in Hc as ->. destruct rest as [|b after]; [done|].
  destruct (byte_eqb b DOLLAR) eqn:Hb; [by apply byte_eqb_eq in Hb as ->|].
  destruct (byte_eqb b OPEN_BRACE) eqn:Ho; [|done]. apply byte_eqb_eq in Ho as ->.
  destruct (split_once CLOSE_BRACE after) as [[digits tail]|] eqn:Hs; [|done].
  pose proof (split_once_no _ _ _ _ Hs). by apply split_once_Some in Hs as ->.
Qed.

Equations? replacement_loop (label : str) (parts : list ReplacementPart) (literal rest : str) :
    result PromptError (list ReplacementPart) by wf (length rest) lt :=
  replacement_loop label parts literal rest with observe (replacement_next rest) := {
    | REnd from _ => Ok (push_literal parts literal);
    | RByte c after from Heq => replacement_loop label parts (literal ++ [c]) after;
    | RDollar after from Heq => replacement_loop label (push_literal parts literal ++ [Dollar]) [] after;
    | RCapture digits after from Heq =>
        match parse_capture label digits with
        | Err e => Err e
        | Ok capture =>
            replacement_loop label (push_literal parts literal ++ [Capture capture]) [] after
        end;
    | RUnterminated from _ => Err (replacement_error label "unterminated capture reference");
    | RInvalid from _ =>
        Err (replacement_error label "only `$$` and `${0}` through `${63}` are allowed after `$`") }.
Proof.
  all: pose proof (replacement_next_shape rest) as Hs; rewrite Heq in Hs.
  - destruct Hs as [-> _]. cbn. lia.
  - rewrite Hs. cbn. lia.
  - destruct Hs as [-> _]. cbn. rewrite length_app. cbn. lia.
Defined.

Definition parse_replacement (label replacement : str) : result PromptError (list ReplacementPart) :=
  replacement_loop label [] [] replacement.

(** *** Rules *)

Definition rule_label (index : nat) (name : str) : str :=
  if negb (is_empty name) && (len name <=? 256) then name
  else lit "rule[" ++ index_str index ++ lit "]".

Definition validate_rule (entry : nat * RegexRule) : result PromptError unit :=
  let '(index, rule) := entry in
  if len (pattern rule) >? MAX_PATTERN_BYTES
  then Err (PromptPayloadTooLarge (lit "advanced.regex[" ++ index_str index ++ lit "].pattern")
              MAX_PATTERN_BYTES)
  else if len (replacement rule) >? MAX_REPLACEMENT_BYTES
  then Err (PromptPayloadTooLarge (lit "advanced.regex[" ++ index_str index ++ lit "].replacement")
              MAX_REPLACEMENT_BYTES)
  else Ok tt.

(** [iter().enumerate()] *)
Definition enumerate {A} (l : list A) : list (nat * A) := imap (fun i x => (i, x)) l.

Definition validate_rule_table (preset : PromptPreset) : result PromptError unit :=
  let rules := regex (advanced preset) in
  if len rules >? MAX_RULES then Err (PromptTooManyItems (lit "advanced.regex") MAX_RULES)
  else if len (List.filter rule_enabled rules) >? MAX_ACTIVE_RULES
  then Err (PromptTooManyItems (lit "advanced.regex.enabled") MAX_ACTIVE_RULES)
  else forM_result validate_rule (enumerate rules).

Definition ensure_text_size (field : string) (bytes : Z) : result PromptError unit :=
  if bytes >? MAX_TEXT_BYTES then Err (PromptPayloadTooLarge (lit field) MAX_TEXT_BYTES) else Ok tt.

Record TransformBudget : Type := mkTransformBudget { scanned_bytes : Z; cumulative_matches : Z }.

Definition scan_too_large : PromptError :=
  PromptPayloadTooLarge (lit "regex.cumulativeScan") MAX_CUMULATIVE_SCAN_BYTES.

Definition charge (b : TransformBudget) (bytes : Z) : result PromptError TransformBudget :=
  total ← ok_or (checked_add USIZE_MAX (scanned_bytes b) bytes) scan_too_large;
  if total >? MAX_CUMULATIVE_SCAN_BYTES then Err scan_too_large
  else Ok (mkTransformBudget total (cumulative_matches b)).

Definition too_many_matches : PromptError :=
  PromptTooManyItems (lit "regex.cumulativeMatches") MAX_CUMULATIVE_MATCHES.

Definition charge_match (b : TransformBudget) : result PromptError TransformBudget :=
  total ← ok_or (checked_add USIZE_MAX (cumulative_matches b) 1) too_many_matches;
  if total >? MAX_CUMULATIVE_MATCHES then Err too_many_matches
  else Ok (mkTransformBudget (scanned_bytes b) total).

Definition output_too_large : PromptError :=
  PromptPayloadTooLarge (lit "regex.output") MAX_TEXT_BYTES.

Definition append_output (output value : str) : result PromptError str :=
  next ← ok_or (checked_add USIZE_MAX (len output) (len value)) output_too_large;
  if next >? MAX_TEXT_BYTES then Err output_too_large else Ok (output ++ value).

(** [captures.get(index)] with its text. *)
Definition group_text (input : str) (captures : Captures) (index : nat) : option str :=
  match captures !! index with
  | Some (Some span) => Some (slice input span.1 span.2)
  | _ => None
  end.

Definition expand_part (input : str) (captures : Captures) (output : str) (part : ReplacementPart) :
    result PromptError str :=
  match part with
  | Literal value => append_output output value
  | Dollar => append_output output (lit "$")
  | Capture index =>
      match group_text input captures index with
      | Some value => append_output output value
      | None => Ok output
      end
  end.

Definition expand_replacement (input : str) (replacement : list ReplacementPart)
    (captures : Captures) (output : str) : result PromptError str :=
  foldM_result (expand_part input captures) output replacement.

Section pipeline.
Context `{PromptRegexLib}.

Definition compile_regex (label pattern : str) (flags : RegexFlags) : result PromptError Regex :=
  regex ← ok_or (regex_build pattern flags)
            (regex_error label "pattern rejected by the bounded Rust regex contract");
  if captures_len regex >? 64
  then Err (regex_error label "pattern exceeds 63 capture groups plus the whole match")
  else Ok regex.

Record CompiledRule : Type := mkCompiledRule {
  label : str;
  compiled_regex : Regex;
  parts : list ReplacementPart;
  is_global : bool;
  rule_matches : Z;
}.

Record CompiledTransformPipeline : Type := mkPipeline {
  rules : list CompiledRule;
  budget : TransformBudget;
}.

Definition compile_rule (target' : TransformTarget) (compiled : list CompiledRule)
    (entry : nat * RegexRule) : result PromptError (list CompiledRule) :=
  let '(index, rule) := entry in
  if negb (rule_enabled rule) || bool_decide (target rule <> target') then Ok compiled
  else
    let label := rule_label index (rule_name rule) in
    regex ← compile_regex label (pattern rule) (flags rule);
    replacement ← parse_replacement label (replacement rule);
    mret (compiled ++ [mkCompiledRule label regex replacement (global (flags rule)) 0]).

Definition pipeline_new (preset : PromptPreset) (target' : TransformTarget) :
    result PromptError CompiledTransformPipeline :=
  _ ← validate_rule_table preset;
  rules ← foldM_result (compile_rule target') [] (enumerate (regex (advanced preset)));
  mret (mkPipeline rules (mkTransformBudget 0 0)).

Definition validate_regex_contract (preset : PromptPreset) : result PromptError unit :=
  _ ← validate_rule_table preset;
  forM_result (fun '(index, rule) =>
    let label := rule_label index (rule_name rule) in
    _ ← compile_regex label (pattern rule) (flags rule);
    _ ← parse_replacement label (replacement rule);
    mret tt) (enumerate (regex (advanced preset))).

(** The loop of [apply_rule]: the output, where the input was copied up to, the
    matches of this call and of the rule, the shared budget. *)
Record RuleRun : Type := mkRun {
  output : str;
  copied_until : nat;
  match_count : Z;
  rule_match_count : Z;
  run_budget : TransformBudget;
}.

Definition rule_too_many (label : str) : PromptError :=
  PromptTooManyItems (lit "regex." ++ label ++ lit ".matches") MAX_MATCHES_PER_RULE.

(** [*count = count.checked_add(1)?; if *count > MAX { return Err }] *)
Definition count_match (label : str) (count : Z) : result PromptError Z :=
  next ← ok_or (checked_add USIZE_MAX count 1) (rule_too_many label);
  if next >? MAX_MATCHES_PER_RULE then Err (rule_too_many label) else Ok next.

Definition apply_match (label : str) (replacement : list ReplacementPart) (input : str)
    (st : RuleRun) (captures : Captures) : result PromptError RuleRun :=
  budget ← charge_match (run_budget st);
  count ← count_match label (match_count st);
  rule_count ← count_match label (rule_match_count st);
  match captures !! O with
  | Some (Some whole) =>
      out ← append_output (output st) (slice input (copied_until st) whole.1);
      out ← expand_replacement input replacement captures out;
      mret (mkRun out whole.2 count rule_count budget)
  | _ => Err (regex_error label "regex engine returned a capture without the whole match")
  end.

(** [if !global { break; }] after the first match. *)
Definition used_matches (is_global : bool) (matches : list Captures) : list Captures :=
  if is_global then matches else take 1 matches.

Definition apply_rule (rule : CompiledRule) (input : str) (budget : TransformBudget) :
    result PromptError (str * Z * TransformBudget) :=
  st ← foldM_result (apply_match (label rule) (parts rule) input)
         (mkRun [] O 0 (rule_matches rule) budget)
         (used_matches (is_global rule) (captures_iter (compiled_regex rule) input));
  out ← append_output (output st) (slice input (copied_until st) (length input));
  mret (out, rule_match_count st, run_budget st).

(** The loop over the rules, which also updates each rule's own count. *)
Definition apply_step (acc : str * list CompiledRule * TransformBudget) (rule : CompiledRule) :
    result PromptError (str * list CompiledRule * TransformBudget) :=
  let '(current, done_rules, budget) := acc in
  budget ← charge budget (len current);
  '(current, count, budget) ← apply_rule rule current budget;
  mret (current,
        done_rules ++ [mkCompiledRule (label rule) (compiled_regex rule) (parts rule)
                         (is_global rule) count],
        budget).

Definition pipeline_apply (self : CompiledTransformPipeline) (input : str) :
    result PromptError (str * CompiledTransformPipeline) :=
  _ ← ensure_text_size "regex.input" (len input);
  '(current, rules, budget) ← foldM_result apply_step (input, [], budget self) (rules self);
  mret (current, mkPipeline rules budget).

Definition apply_text_transforms (preset : PromptPreset) (target' : TransformTarget) (input : str) :
    result PromptError str :=
  pipeline ← pipeline_new preset target';
  '(output, _) ← pipeline_apply pipeline input;
  mret output.
End pipeline.
