(* ===== verification/PromptRegexFacts.v ===== *)
(** * Prompts: what the text transforms do

    A successful rule is the textbook substitution: the text between the matches is
    kept and each match is replaced by the expansion of the replacement.  The parts
    of an accepted replacement print back to it, and no accepted run exceeds the
    limits on text, matches and scanned bytes. *)

From Equations Require Import Equations.
From stdpp Require Import pretty.
From S2P Require Import Prelude Bytes Utf8 ProviderConfig ProviderCompile PromptTemplate PromptSchema.

(** ** Replacements print back *)

Definition print_part (p : ReplacementPart) : str :=
  match p with
  | Literal text => text
  | Dollar => [DOLLAR; DOLLAR]
  | Capture n => DOLLAR :: OPEN_BRACE :: index_str n ++ [CLOSE_BRACE]
  end.

Definition print_parts (ps : list ReplacementPart) : str := concat (map print_part ps).

(** Literals are not empty and have no dollar; captures exist. *)
Definition part_ok (p : ReplacementPart) : Prop :=
  match p with
  | Literal text => text <> [] /\ DOLLAR ∉ text
  | Dollar => True
  | Capture n => (n <= 63)%nat
  end.

Lemma print_parts_app a b : print_parts (a ++ b) = print_parts a ++ print_parts b.
Proof. unfold print_parts. by rewrite map_app, concat_app. Qed.

Lemma print_push_literal ps l : print_parts (push_literal ps l) = print_parts ps ++ l.
Proof.
  unfold push_literal. destruct l; cbn [is_empty]; [by rewrite app_nil_r|].
  rewrite print_parts_app. unfold print_parts at 2. cbn. by rewrite app_nil_r.
Qed.

Lemma push_literal_ok ps l :
  Forall part_ok ps -> DOLLAR ∉ l -> Forall part_ok (push_literal ps l).
Proof.
  intros Hp Hl. unfold push_literal. destruct l; [done|]. cbn [is_empty].
  apply Forall_app. split; [done|]. by repeat constructor.
Qed.

(** Canonical numerals below 64 are the printed ones: by enumeration. *)
Lemma digit_byte b : is_ascii_digit b = true -> exists d, 0 <= d <= 9 /\ b = byte_of (48 + d).
Proof.
  unfold is_ascii_digit, in_range. intros Hd. exists (byte_val b - 48).
  rewrite Z.add_sub_assoc, Z.add_simpl_l, byte_of_val. split; [lia|done].
Qed.

Lemma digits_value_app a b : digits_value (a ++ b) =
  foldl (fun acc b => acc * 10 + (byte_val b - 48)) (digits_value a) b.
Proof. unfold digits_value. apply foldl_app. Qed.

Lemma digits_value_lower digits : forallb is_ascii_digit digits = true ->
  forall acc, 0 <= acc ->
  acc * 10 ^ len digits <= foldl (fun acc b => acc * 10 + (byte_val b - 48)) acc digits.
Proof.
  induction digits as [|b digits IH]; cbn [forallb foldl]; intros Hd acc Ha.
  { rewrite len_nil. lia. }
  apply andb_true_iff in Hd as [Hb Hd]. apply digit_byte in Hb as (d & Hr & ->).
  rewrite len_cons, Z.pow_add_r by (pose proof (len_nonneg digits); lia).
  rewrite byte_val_of by lia. etransitivity; [|apply IH; [done|lia]].
  apply Z.le_trans with ((acc * 10) * 10 ^ len digits); [lia|].
  apply Z.mul_le_mono_nonneg_r; [|lia]. apply Z.pow_nonneg. lia.
Qed.

Definition numeral_ok (n : Z) : bool :=
  bool_decide (index_str (Z.to_nat n) =
    if n <? 10 then [byte_of (48 + n)] else [byte_of (48 + n / 10); byte_of (48 + n mod 10)]).

Lemma small_numerals n : 0 <= n < 100 -> numeral_ok n = true.
Proof.
  intros Hn. assert (Hall : forallb numeral_ok (seqZ 0 100) = true) by (vm_compute; done).
  rewrite forallb_forall in Hall. apply Hall. apply list_elem_of_In, elem_of_seqZ. lia.
Qed.

Lemma canonical_digits digits :
  is_empty digits = false -> forallb is_ascii_digit digits = true ->
  (len digits >? 1) && starts_with digits [ZERO] = false -> digits_value digits <= 63 ->
  digits = index_str (Z.to_nat (digits_value digits)).
Proof.
  intros He Hd Hz Hv. destruct digits as [|a rest]; [done|]. clear He.
  cbn [forallb] in Hd. apply andb_true_iff in Hd as [Ha Hr].
  apply digit_byte in Ha as (d & Hdr & ->).
  destruct rest as [|b rest].
  { unfold digits_value in *. cbn [foldl] in *. rewrite byte_val_of in * by lia.
    replace (0 * 10 + (48 + d - 48)) with d in * by lia.
    pose proof (small_numerals d ltac:(lia)) as Hn. unfold numeral_ok in Hn.
    apply bool_decide_eq_true in Hn. destruct (d <? 10) eqn:Hl; [done|lia]. }
  assert (Hd0 : d <> 0).
  { intros ->. cbn in Hz. rewrite !len_cons in Hz. pose proof (len_nonneg rest).
    destruct (1 + (1 + len rest) >? 1) eqn:Hg; [done|lia]. }
  cbn [forallb] in Hr. apply andb_true_iff in Hr as [Hb Hr].
  apply digit_byte in Hb as (e & Her & ->).
  assert (Hval : digits_value (byte_of (48 + d) :: byte_of (48 + e) :: rest) =
    foldl (fun acc b => acc * 10 + (byte_val b - 48)) (d * 10 + e) rest).
  { unfold digits_value. cbn [foldl]. rewrite !byte_val_of by lia. f_equal. lia. }
  destruct rest as [|c rest].
  - rewrite Hval in *. cbn [foldl] in *.
    pose proof (small_numerals (d * 10 + e) ltac:(lia)) as Hn. unfold numeral_ok in Hn.
    apply bool_decide_eq_true in Hn. destruct (d * 10 + e <? 10) eqn:Hl; [lia|]. rewrite Hn.
    replace ((d * 10 + e) / 10) with d by (apply (Z.div_unique _ _ d e); lia).
    by replace ((d * 10 + e) mod 10) with e by (apply (Z.mod_unique _ _ d e); lia).
  - exfalso. rewrite Hval in Hv.
    pose proof (digits_value_lower _ Hr (d * 10 + e) ltac:(lia)) as Hlow.
    rewrite len_cons, Z.pow_add_r in Hlow by (pose proof (len_nonneg rest); lia).
    assert (1 <= 10 ^ len rest) by (apply (Z.pow_le_mono_r 10 0); [lia|apply len_nonneg]).
    nia.
Qed.

Lemma parse_capture_Ok label digits n :
  parse_capture label digits = Ok n -> digits = index_str n /\ (n <= 63)%nat.
Proof.
  unfold parse_capture. destruct (_ || _ || _) eqn:Hc; [done|].
  apply orb_false_iff in Hc as [Hc Hz]. apply orb_false_iff in Hc as [He Hd].
  apply negb_false_iff in Hd. case_match; [done|]. case_match; [done|]. intros [= <-].
  split; [|lia]. apply canonical_digits; try done. lia.
Qed.

(** ** The loop of [parse_replacement] *)

Lemma replacement_loop_eq label ps literal rest :
  replacement_loop label ps literal rest =
  match replacement_next rest with
  | REnd => Ok (push_literal ps literal)
  | RByte c after => replacement_loop label ps (literal ++ [c]) after
  | RDollar after => replacement_loop label (push_literal ps literal ++ [Dollar]) [] after
  | RCapture digits after =>
      capture ← parse_capture label digits;
      replacement_loop label (push_literal ps literal ++ [Capture capture]) [] after
  | RUnterminated => Err (replacement_error label "unterminated capture reference")
  | RInvalid =>
      Err (replacement_error label "only `$$` and `${0}` through `${63}` are allowed after `$`")
  end.
Proof.
  rewrite replacement_loop_equation_1. unfold replacement_loop_unfold_clause_1, observe.
  by destruct (replacement_next rest).
Qed.

Lemma replacement_loop_inv label rest ps literal out :
  replacement_loop label ps literal rest = Ok out ->
  Forall part_ok ps -> DOLLAR ∉ literal ->
  print_parts out = print_parts ps ++ literal ++ rest /\ Forall part_ok out.
Proof.
  remember (length rest) as n eqn:Hn. revert rest Hn ps literal.
  induction (lt_wf n) as [n _ IH]. intros rest -> ps literal Hloop Hps Hl.
  rewrite replacement_loop_eq in Hloop. pose proof (replacement_next_shape rest) as Hs.
  destruct (replacement_next rest) as [|c after|after|digits after| |]; try done.
  - subst rest. injection Hloop as <-. rewrite print_push_literal, app_nil_r.
    split; [done|]. by apply push_literal_ok.
  - destruct Hs as [-> Hc]. eapply IH in Hloop as [Hp Hok]; try done.
    + rewrite Hp. by rewrite <- app_assoc.
    + cbn. lia.
    + rewrite elem_of_app, list_elem_of_singleton. naive_solver.
  - subst rest. eapply IH in Hloop as [Hp Hok]; try done.
    + rewrite Hp, print_parts_app, print_push_literal. by rewrite <- !app_assoc.
    + cbn. lia.
    + apply Forall_app. split; [by apply push_literal_ok|]. by repeat constructor.
    + apply not_elem_of_nil.
  - destruct Hs as [-> _]. apply bind_Ok in Hloop as (capture & Hc & Hloop).
    apply parse_capture_Ok in Hc as [-> H63]. eapply IH in Hloop as [Hp Hok]; try done.
    + rewrite Hp, print_parts_app, print_push_literal. unfold print_parts at 2.
      cbn [map concat print_part app]. rewrite app_nil_r, <- !app_assoc. cbn [app].
      by rewrite <- !app_assoc.
    + cbn. rewrite length_app. cbn. lia.
    + apply Forall_app. split; [by apply push_literal_ok|]. by constructor; [exact H63|constructor].
    + apply not_elem_of_nil.
Qed.

(** An accepted replacement is taken apart without loss: printing its parts, with
    a dollar as [$$] and a capture as [${n}], gives the replacement back; literals
    contain no dollar and are not empty, and a capture is one of the 64 groups. *)
Theorem parse_replacement_roundtrip (label replacement : str) (ps : list ReplacementPart) :
  parse_replacement label replacement = Ok ps ->
  print_parts ps = replacement /\ Forall part_ok ps.
Proof.
  intros Hp. apply replacement_loop_inv in Hp as [Hp Hok]; [done|constructor|apply not_elem_of_nil].
Qed.

(** ** Substitution *)

Definition part_text (input : str) (captures : Captures) (p : ReplacementPart) : str :=
  match p with
  | Literal text => text
  | Dollar => [DOLLAR]
  | Capture n => default [] (group_text input captures n)
  end.

Definition expansion (input : str) (ps : list ReplacementPart) (captures : Captures) : str :=
  concat (map (part_text input captures) ps).

Definition whole (captures : Captures) : option (nat * nat) :=
  match captures !! O with Some (Some span) => Some span | _ => None end.

(** The text from [pos] with each match replaced. *)
Fixpoint substitute (input : str) (ps : list ReplacementPart) (pos : nat)
    (matches : list Captures) : str :=
  match matches with
  | [] => slice input pos (length input)
  | captures :: rest =>
      let span := default (pos, pos) (whole captures) in
      slice input pos span.1 ++ expansion input ps captures ++ substitute input ps span.2 rest
  end.

Lemma append_output_Ok out value out' :
  append_output out value = Ok out' -> out' = out ++ value /\ len out' <= MAX_TEXT_BYTES.
Proof.
  unfold append_output. intros Ha. apply bind_Ok in Ha as (n & Hn%ok_or_Ok%checked_add_Some & Ha).
  destruct Hn as [-> _]. case_match; [done|]. injection Ha as <-. split; [done|]. rewrite len_app. lia.
Qed.

Lemma expand_replacement_Ok input ps captures out out' :
  expand_replacement input ps captures out = Ok out' -> out' = out ++ expansion input ps captures.
Proof.
  unfold expand_replacement, expansion. revert out.
  induction ps as [|p ps IH]; intros out He; cbn in He.
  { injection He as <-. by rewrite app_nil_r. }
  apply bind_Ok in He as (out1 & H1 & He). apply IH in He as ->. cbn [map concat].
  rewrite app_assoc. f_equal. unfold expand_part in H1. destruct p; cbn [part_text].
  - by apply append_output_Ok in H1 as [-> _].
  - by apply append_output_Ok in H1 as [-> _].
  - destruct (group_text input captures index); [by apply append_output_Ok in H1 as [-> _]|].
    injection H1 as <-. by rewrite app_nil_r.
Qed.

(** Counting a match stays within the limits and counts exactly one. *)
Lemma charge_match_Ok b b' :
  charge_match b = Ok b' ->
  scanned_bytes b' = scanned_bytes b /\ cumulative_matches b' = cumulative_matches b + 1 /\
  cumulative_matches b' <= MAX_CUMULATIVE_MATCHES.
Proof.
  unfold charge_match. intros Hc. apply bind_Ok in Hc as (n & Hn%ok_or_Ok%checked_add_Some & Hc).
  destruct Hn as [-> _]. case_match; [done|]. injection Hc as <-. cbn. lia.
Qed.

Lemma charge_Ok b n b' :
  charge b n = Ok b' ->
  scanned_bytes b' = scanned_bytes b + n /\ cumulative_matches b' = cumulative_matches b /\
  scanned_bytes b' <= MAX_CUMULATIVE_SCAN_BYTES.
Proof.
  unfold charge. intros Hc. apply bind_Ok in Hc as (m & Hn%ok_or_Ok%checked_add_Some & Hc).
  destruct Hn as [-> _]. case_match; [done|]. injection Hc as <-. cbn. lia.
Qed.

Section rules.
Context `{PromptRegexLib}.

Lemma apply_match_Ok lbl ps input st captures st' :
  apply_match lbl ps input st captures = Ok st' ->
  exists span, whole captures = Some span /\
    output st' = output st ++ slice input (copied_until st) span.1 ++ expansion input ps captures /\
    copied_until st' = span.2 /\
    scanned_bytes (run_budget st') = scanned_bytes (run_budget st) /\
    cumulative_matches (run_budget st') = cumulative_matches (run_budget st) + 1.
Proof.
  unfold apply_match, whole. intros Ha. apply bind_Ok in Ha as (b & Hb & Ha).
  apply bind_Ok in Ha as (c & _ & Ha). apply bind_Ok in Ha as (rc & _ & Ha).
  destruct (captures !! O) as [[span|]|]; try done.
  apply bind_Ok in Ha as (out1 & H1 & Ha). apply bind_Ok in Ha as (out2 & H2 & Ha).
  injection Ha as <-. apply append_output_Ok in H1 as [-> _]. apply expand_replacement_Ok in H2 as ->.
  apply charge_match_Ok in Hb as (Hs & Hm & _). exists span. cbn. by rewrite <- app_assoc.
Qed.

Lemma apply_matches_Ok lbl ps input matches st st' :
  foldM_result (apply_match lbl ps input) st matches = Ok st' ->
  output st ++ substitute input ps (copied_until st) matches =
  output st' ++ slice input (copied_until st') (length input) /\
  scanned_bytes (run_budget st') = scanned_bytes (run_budget st) /\
  cumulative_matches (run_budget st') = cumulative_matches (run_budget st) + len matches.
Proof.
  revert st. induction matches as [|captures rest IH]; intros st Hf; cbn in Hf.
  { injection Hf as <-. rewrite len_nil. cbn [substitute]. repeat split; lia. }
  apply bind_Ok in Hf as (st1 & H1 & Hf).
  apply apply_match_Ok in H1 as (span & Hw & Ho & Hc & Hs & Hm).
  apply IH in Hf as (Hout & Hs' & Hm'). rewrite <- Hout, Ho, Hc. cbn [substitute].
  rewrite Hw. cbn [default fst snd]. rewrite len_cons, <- !app_assoc. repeat split; lia.
Qed.

(** A rule that succeeds is the substitution of its matches. *)
Lemma apply_rule_Ok rule input budget out count budget' :
  apply_rule rule input budget = Ok (out, count, budget') ->
  out = substitute input (parts rule) O
          (used_matches (is_global rule) (captures_iter (compiled_regex rule) input)) /\
  len out <= MAX_TEXT_BYTES /\ scanned_bytes budget' = scanned_bytes budget /\
  cumulative_matches budget <= cumulative_matches budget'.
Proof.
  unfold apply_rule. intros Ha. apply bind_Ok in Ha as (st & Hf & Ha).
  apply bind_Ok in Ha as (o & Ho & Ha). injection Ha as <- _ <-.
  apply apply_matches_Ok in Hf as (Hout & Hs & Hm). cbn in Hout, Hs, Hm.
  apply append_output_Ok in Ho as [-> Hlen]. rewrite Hout. repeat split; try done.
  pose proof (len_nonneg (used_matches (is_global rule) (captures_iter (compiled_regex rule) input))).
  lia.
Qed.

(** The rules one after the other, without limits. *)
Definition transform (rs : list CompiledRule) (text : str) : str :=
  foldl (fun text rule =>
    substitute text (parts rule) O
      (used_matches (is_global rule) (captures_iter (compiled_regex rule) text))) text rs.

(** Only the match counts of the rules change between messages. *)
Definition same_rules (a b : list CompiledRule) : Prop :=
  Forall2 (fun x y => compiled_regex x = compiled_regex y /\ parts x = parts y /\
                      is_global x = is_global y /\ label x = label y) a b.

Lemma transform_same a b text : same_rules a b -> transform a text = transform b text.
Proof.
  intros Hs. revert text. induction Hs as [|x y a b (Hr & Hp & Hg & _) Hs IH]; intros text; [done|].
  cbn [transform foldl]. rewrite Hr, Hp, Hg. apply IH.
Qed.

#[export] Instance same_rules_refl : Reflexive same_rules.
Proof. intros l. induction l; by constructor. Qed.

#[export] Instance same_rules_trans : Transitive same_rules.
Proof.
  intros a b c Hab. revert c. induction Hab as [|x y a b Hxy Hab IH]; intros c Hbc;
    inversion Hbc as [|? z ? c' Hyz Hbc']; subst; constructor; [|by apply IH].
  destruct Hxy as (-> & -> & -> & ->). by destruct Hyz as (-> & -> & -> & ->).
Qed.

Lemma apply_steps_Ok rs text done_rules budget out rs' budget' :
  foldM_result apply_step (text, done_rules, budget) rs = Ok (out, rs', budget') ->
  len text <= MAX_TEXT_BYTES -> scanned_bytes budget <= MAX_CUMULATIVE_SCAN_BYTES ->
  out = transform rs text /\ len out <= MAX_TEXT_BYTES /\
  (exists new, rs' = done_rules ++ new /\ same_rules new rs) /\
  scanned_bytes budget' <= MAX_CUMULATIVE_SCAN_BYTES /\
  scanned_bytes budget <= scanned_bytes budget'.
Proof.
  revert text done_rules budget. induction rs as [|rule rs IH]; intros text done_rules budget Hf Ht Hb;
    cbn in Hf.
  { injection Hf as <- <- <-. split; [done|]. split; [done|].
    split; [|lia]. exists []. by rewrite app_nil_r. }
  apply bind_Ok in Hf as ([[text1 rs1] b1] & H1 & Hf).
  apply bind_Ok in H1 as (b2 & Hc & H1). apply bind_Ok in H1 as ([[o c] b3] & Ha & H1).
  injection H1 as <- <- <-. apply charge_Ok in Hc as (Hs & _ & Hmax).
  apply apply_rule_Ok in Ha as (Ho & Hlen & Hs3 & _). pose proof (len_nonneg text).
  apply IH in Hf as (-> & Hl & (new & -> & Hsame) & Hb1 & Hb2); [|lia|lia].
  split; [by rewrite Ho|]. split; [done|]. split; [|lia].
  eexists. rewrite <- app_assoc. split; [done|]. cbn [app]. constructor; [done|done].
Qed.

Lemma pipeline_apply_Ok self text out self' :
  pipeline_apply self text = Ok (out, self') ->
  scanned_bytes (budget self) <= MAX_CUMULATIVE_SCAN_BYTES ->
  out = transform (rules self) text /\ len out <= MAX_TEXT_BYTES /\
  same_rules (rules self') (rules self) /\
  scanned_bytes (budget self') <= MAX_CUMULATIVE_SCAN_BYTES.
Proof.
  unfold pipeline_apply, ensure_text_size. intros Hp Hb. apply bind_Ok in Hp as ([] & Hs & Hp).
  case_match; [done|]. apply bind_Ok in Hp as ([[o rs] b] & Hf & Hp). injection Hp as <- <-.
  apply apply_steps_Ok in Hf as (-> & Hl & (new & -> & Hsame) & Hb' & _); [|lia|done].
  by repeat split.
Qed.
End rules.

(** ** Which rules run *)

Lemma map_snd_enumerate {A} (l : list A) : map snd (enumerate l) = l.
Proof.
  unfold enumerate. transitivity (imap (fun _ x => x) l).
  { change (snd <$> imap (fun i x => (i, x)) l = imap (fun _ x => x) l). rewrite fmap_imap.
    apply imap_ext. done. }
  induction l as [|x l IH]; [done|]. cbn [imap]. f_equal. exact IH.
Qed.

Definition active (target' : TransformTarget) (rule : RegexRule) : bool :=
  rule_enabled rule && bool_decide (target rule = target').

Section which.
Context `{PromptRegexLib}.

(** A compiled rule comes from its source rule. *)
Definition compiled_from (rule : RegexRule) (compiled : CompiledRule) : Prop :=
  regex_build (pattern rule) (flags rule) = Some (compiled_regex compiled) /\
  parse_replacement (label compiled) (replacement rule) = Ok (parts compiled) /\
  is_global compiled = global (flags rule).

Lemma compile_rules_Ok target' entries acc compiled :
  foldM_result (compile_rule target') acc entries = Ok compiled ->
  exists new, compiled = acc ++ new /\
    Forall2 compiled_from (List.filter (active target') (map snd entries)) new.
Proof.
  revert acc. induction entries as [|[i rule] entries IH]; intros acc Hf; cbn in Hf.
  { injection Hf as <-. exists []. by rewrite app_nil_r. }
  apply bind_Ok in Hf as (acc1 & H1 & Hf). apply IH in Hf as (new & -> & Hnew).
  cbn [map snd List.filter]. unfold active at 1.
  destruct (rule_enabled rule); cbn [negb orb andb] in H1 |- *; [|injection H1 as <-; eauto].
  destruct (decide (target rule = target')) as [Ht|Ht].
  - rewrite bool_decide_false in H1 by (by intros []). rewrite bool_decide_true by done.
    apply bind_Ok in H1 as (re & Hre & H1). apply bind_Ok in H1 as (ps & Hps & H1).
    injection H1 as <-. eexists. rewrite <- app_assoc. split; [done|]. cbn [app].
    constructor; [|done]. unfold compile_regex in Hre. apply bind_Ok in Hre as (re' & Hb%ok_or_Ok & Hre).
    case_match; [done|]. injection Hre as <-. done.
  - rewrite bool_decide_true in H1 by done. rewrite bool_decide_false by done.
    injection H1 as <-. eauto.
Qed.

Lemma pipeline_new_Ok preset target' self :
  pipeline_new preset target' = Ok self ->
  budget self = mkTransformBudget 0 0 /\
  Forall2 compiled_from (List.filter (active target') (regex (advanced preset))) (rules self).
Proof.
  unfold pipeline_new. intros Hp. apply bind_Ok in Hp as ([] & _ & Hp).
  apply bind_Ok in Hp as (rs & Hf & Hp). injection Hp as <-. split; [done|].
  apply compile_rules_Ok in Hf as (new & -> & Hf). by rewrite map_snd_enumerate in Hf.
Qed.
End which.

Lemma text_transforms_inv `{PromptRegexLib} (preset : PromptPreset) (target' : TransformTarget)
    (input out : str) :
  apply_text_transforms preset target' input = Ok out ->
  exists rs : list CompiledRule,
    Forall2 compiled_from (List.filter (active target') (regex (advanced preset))) rs /\
    out = transform rs input /\ len out <= MAX_TEXT_BYTES.
Proof.
  unfold apply_text_transforms. intros Ha. apply bind_Ok in Ha as (self & Hn & Ha).
  apply bind_Ok in Ha as ([o self'] & Hp & Ha). injection Ha as <-.
  apply pipeline_new_Ok in Hn as [Hb Hr]. exists (rules self).
  apply pipeline_apply_Ok in Hp as (-> & Hl & _); [done|]. rewrite Hb. done.
Qed.

(** [apply_text_transforms] is substitution by the enabled rules of the target, in
    the order of the preset: the text between matches is kept, each match (the first
    one only, without the global flag) becomes the expansion of the parsed
    replacement, rules that are disabled or for another target do not run, and the
    result is within the size limit. *)
Theorem text_transforms_spec `{PromptRegexLib} (preset : PromptPreset) (target' : TransformTarget)
    (input out : str) :
  apply_text_transforms preset target' input = Ok out ->
  exists rs : list CompiledRule,
    Forall2 compiled_from (List.filter (active target') (regex (advanced preset))) rs /\
    out = transform rs input /\ len out <= MAX_TEXT_BYTES.
Proof. apply text_transforms_inv. Qed.
