(* ===== verification/PromptValidate.v ===== *)
(** * Prompts: validation of a preset

    Models [crates/lorepia-prompt/src/validate.rs].  The counter of authored bytes is
    threaded through the checks in their order; an error ends the validation. *)

From stdpp Require Import pretty.
From S2P Require Import Prelude Bytes Utf8 Float64 ProviderConfig ProviderCompile PromptTemplate PromptSchema.

Definition MAX_IMPORT_BYTES : Z := 2 * 1024 * 1024.
Definition MAX_BLOCKS : Z := 256.
Definition MAX_FIELD_TEXT_BYTES : Z := 256 * 1024.
Definition MAX_AUTHORED_TEXT_BYTES : Z := 2 * 1024 * 1024.
Definition MAX_VARIABLES : Z := 256.
Definition MAX_VARIABLE_VALUE_BYTES : Z := 256 * 1024.
Definition MAX_REFERENCES : Z := 32.
Definition MAX_REGEX_RULES : Z := 128.
Definition MAX_ACTIVE_REGEX_RULES : Z := 64.
Definition MAX_REGEX_PATTERN_BYTES : Z := 16 * 1024.
Definition MAX_REGEX_REPLACEMENT_BYTES : Z := 64 * 1024.

Abbreviation VResult := (result PromptError).

Definition bad {A} (field : str) (reason : string) : VResult A :=
  Err (PromptInvalidField field (lit reason)).

Definition has_nul (value : str) : bool := contains value [NUL_BYTE].

Definition validate_label (field value : str) : VResult unit :=
  if is_empty (trim value) || (len value >? 128) || has_nul value
  then bad field "must be 1-128 bytes after trimming and contain no NUL"
  else Ok tt.

Definition authored_too_large : PromptError :=
  PromptPayloadTooLarge (lit "authored prompt text") MAX_AUTHORED_TEXT_BYTES.

Definition add_authored (total value : Z) : VResult Z :=
  next ← ok_or (checked_add USIZE_MAX total value) authored_too_large;
  if next >? MAX_AUTHORED_TEXT_BYTES then Err authored_too_large else Ok next.

Definition validate_authored_text (field value : str) (allow_empty : bool) (authored : Z) : VResult Z :=
  if (negb allow_empty && is_empty (trim value)) || has_nul value
  then bad field "must be non-empty and contain no NUL"
  else if len value >? MAX_FIELD_TEXT_BYTES
  then Err (PromptPayloadTooLarge field MAX_FIELD_TEXT_BYTES)
  else add_authored authored (len value).

(** A required text that is also a template. *)
Definition validate_authored_template (field value : str) (authored : Z) : VResult Z :=
  authored ← validate_authored_text field value false authored;
  _ ← validate_template_syntax value field;
  mret authored.

Definition value_slots (variables : list str) : Z :=
  len (List.filter (fun name => str_eqb name (lit "value")) variables).

(** [format!("blocks[{index}].suffix")] *)
Definition block_field (index : nat) (suffix : string) : str :=
  lit "blocks[" ++ index_str index ++ lit "]." ++ lit suffix.

Definition validate_content_format (format : ContentFormat) (index : nat) (authored : Z) : VResult Z :=
  match format with
  | Plain => Ok authored
  | Custom template =>
      let field := block_field index "format.template" in
      authored ← validate_authored_text field template false authored;
      variables ← validate_template_syntax template field;
      if negb (value_slots variables =? 1)
      then bad field "custom content format must contain ${value} exactly once"
      else Ok authored
  end.

(** ** Blocks *)

Record BlockScan : Type := mkBlockScan {
  authored_bytes : Z;
  active_chat_blocks : Z;
  cache_blocks : Z;
  enabled_main_seen : bool;
  enabled_global_note_seen : bool;
}.

Definition with_authored (st : BlockScan) (authored : Z) : BlockScan :=
  mkBlockScan authored (active_chat_blocks st) (cache_blocks st) (enabled_main_seen st)
    (enabled_global_note_seen st).

Definition special_seen (st : BlockScan) (special : RawPromptSpecial) : bool :=
  match special with Main => enabled_main_seen st | GlobalNote => enabled_global_note_seen st end.

Definition mark_special (st : BlockScan) (special : RawPromptSpecial) : BlockScan :=
  match special with
  | Main => mkBlockScan (authored_bytes st) (active_chat_blocks st) (cache_blocks st) true
              (enabled_global_note_seen st)
  | GlobalNote => mkBlockScan (authored_bytes st) (active_chat_blocks st) (cache_blocks st)
              (enabled_main_seen st) true
  end.

Definition is_chat (block : PromptBlock) : bool :=
  match block with Chat _ _ _ => true | _ => false end.

Definition count_chat (st : BlockScan) (block : PromptBlock) : BlockScan :=
  if block_enabled block && is_chat block
  then mkBlockScan (authored_bytes st) (active_chat_blocks st + 1) (cache_blocks st)
         (enabled_main_seen st) (enabled_global_note_seen st)
  else st.

Definition validate_special (index : nat) (role : PromptRole) (enabled : bool)
    (special : RawPromptSpecial) (st : BlockScan) : VResult BlockScan :=
  if bool_decide (role <> PSystem)
  then bad (block_field index "role") "special raw prompts must use the system role"
  else if enabled then
    if special_seen st special
    then bad (block_field index "special") "an enabled raw special may appear only once"
    else Ok (mark_special st special)
  else Ok st.

Definition chat_range_reason : string :=
  "chat range must be a non-empty half-open interval [start, end)".

Definition validate_block (st : BlockScan) (entry : nat * PromptBlock) : VResult BlockScan :=
  let '(index, block) := entry in
  _ ← validate_label (block_field index "name") (block_name block);
  let st := count_chat st block in
  match block with
  | Raw _ enabled role special prompt =>
      authored ← validate_authored_template (block_field index "prompt") prompt (authored_bytes st);
      let st := with_authored st authored in
      match special with
      | Some special => validate_special index role enabled special st
      | None => Ok st
      end
  | FinalInsertion _ _ _ prompt | ChatMl _ _ _ prompt =>
      authored ← validate_authored_template (block_field index "prompt") prompt (authored_bytes st);
      mret (with_authored st authored)
  | Chat _ _ selection =>
      match end_ selection with
      | EndIndex stop =>
          if start selection >=? stop then bad (block_field index "selection") chat_range_reason
          else Ok st
      | EndOfChat => Ok st
      end
  | Persona _ _ _ format | CharacterDescription _ _ _ format | Lorebook _ _ _ format
  | LongTermMemory _ _ _ format =>
      authored ← validate_content_format format index (authored_bytes st);
      mret (with_authored st authored)
  | AuthorNote _ _ _ default_prompt format =>
      authored ← match default_prompt with
                 | Some prompt =>
                     validate_authored_template (block_field index "defaultPrompt") prompt
                       (authored_bytes st)
                 | None => Ok (authored_bytes st)
                 end;
      authored ← validate_content_format format index authored;
      mret (with_authored st authored)
  | CachePointBlock _ _ depth _ =>
      let st := mkBlockScan (authored_bytes st) (active_chat_blocks st) (cache_blocks st + 1)
                  (enabled_main_seen st) (enabled_global_note_seen st) in
      if (depth =? 0) || (depth >? 16)
      then bad (block_field index "depth") "cache depth must be in 1..=16"
      else Ok st
  end.

(** ** Sampling *)

(** The bounds are the literals [min] and [max], both whole numbers. *)
Definition validate_float (field : string) (value : option f64) (min max : Z) (exclusive_min : bool) :
    VResult unit :=
  match value with
  | None => Ok tt
  | Some value =>
      if negb (is_finite value) || f64_lt value (f64_of_Z min) || f64_lt (f64_of_Z max) value
         || (exclusive_min && f64_eq value (f64_of_Z min))
      then Err (PromptInvalidField (lit field)
                  (lit "must be a finite value in the supported range " ++ lit (pretty min) ++ lit "..="
                   ++ lit (pretty max)))
      else Ok tt
  end.

Definition validate_sampling (s : PromptSampling) : VResult unit :=
  _ ← validate_float "temperature" (p_temperature s) 0 10 false;
  _ ← (if bool_decide (p_top_k s = Some 0) then bad (lit "topK") "must be greater than zero" else Ok tt);
  _ ← validate_float "minP" (p_min_p s) 0 1 false;
  _ ← validate_float "topA" (p_top_a s) 0 1 false;
  _ ← validate_float "repetitionPenalty" (p_repetition_penalty s) 0 2 true;
  _ ← validate_float "topP" (p_top_p s) 0 1 false;
  _ ← validate_float "presencePenalty" (p_presence_penalty s) (-2) 2 false;
  _ ← validate_float "frequencyPenalty" (p_frequency_penalty s) (-2) 2 false;
  if len (p_stop_sequences s) >? 16 then Err (PromptTooManyItems (lit "stopSequences") 16)
  else forM_result (fun sequence =>
         if is_empty sequence || (len sequence >? 256) || has_nul sequence
         then bad (lit "stopSequences") "entries must be 1-256 bytes and contain no NUL"
         else Ok tt) (p_stop_sequences s).

(** ** Template settings *)

Definition validate_synthetic (field : string) (message : option SyntheticMessage) (authored : Z) :
    VResult Z :=
  match message with
  | Some message => validate_authored_template (lit field) (s_template message) authored
  | None => Ok authored
  end.

Definition default_variables_too_large : PromptError :=
  PromptPayloadTooLarge (lit "defaultVariables") MAX_AUTHORED_TEXT_BYTES.

(** One variable: the bytes of the values and of all authored text so far. *)
Definition validate_default_variable (acc : Z * Z) (entry : str * str) : VResult (Z * Z) :=
  let '(variable_bytes, authored) := acc in
  let '(name, value) := entry in
  if negb (validate_variable_name name) || str_eqb name (lit "value")
  then bad (lit "defaultVariables") "invalid or reserved variable name"
  else if has_nul value then bad (lit "defaultVariables." ++ name) "must contain no NUL"
  else if len value >? MAX_VARIABLE_VALUE_BYTES
  then Err (PromptPayloadTooLarge (lit "defaultVariables." ++ name) MAX_VARIABLE_VALUE_BYTES)
  else
    variable_bytes ← ok_or (checked_add USIZE_MAX variable_bytes (len value))
                       default_variables_too_large;
    authored ← add_authored authored (len value);
    mret (variable_bytes, authored).

Definition validate_template_settings (preset : PromptPreset) (authored : Z) : VResult Z :=
  let settings := template_settings (advanced preset) in
  authored ← validate_synthetic "advanced.template.preamble" (preamble settings) authored;
  authored ← validate_synthetic "advanced.template.epilogue" (epilogue settings) authored;
  if len (default_variables settings) >? MAX_VARIABLES
  then Err (PromptTooManyItems (lit "defaultVariables") MAX_VARIABLES)
  else
    '(variable_bytes, authored) ←
       foldM_result validate_default_variable (0, authored) (default_variables settings);
    if variable_bytes >? MAX_AUTHORED_TEXT_BYTES then Err default_variables_too_large
    else Ok authored.

(** ** References *)

Definition reference_byte (b : byte) : bool := is_ascii_alphanumeric b || one_of "_.-" b.

Definition first_is_valid (require_letter_first : bool) (value : str) : bool :=
  match value with
  | [] => false
  | b :: _ => if require_letter_first then is_ascii_alphabetic b else is_ascii_alphanumeric b
  end.

Definition validate_reference_id (field : string) (value : str) (require_letter_first : bool) :
    VResult unit :=
  if is_empty value || (len value >? 64) || negb (first_is_valid require_letter_first value)
     || contains value (lit "..") || negb (forallb reference_byte value)
  then bad (lit field) "must be a safe 1-64 byte ASCII identifier without '..'"
  else Ok tt.

(** A set of strings seen so far. *)
Definition seen (item : str) (items : list str) : bool := existsb (str_eqb item) items.

Definition validate_tool (tool_ids : list str) (reference : ToolReference) : VResult (list str) :=
  _ ← validate_reference_id "toolId" (tool_id reference) true;
  if seen (tool_id reference) tool_ids then bad (lit "tools") "duplicate tool reference"
  else Ok (tool_id reference :: tool_ids).

Definition digest_byte (b : byte) : bool := is_ascii_digit b || in_range b 97 102.

Definition validate_module (module_ids : list (str * str)) (reference : ModuleReference) :
    VResult (list (str * str)) :=
  _ ← validate_reference_id "moduleId" (module_id reference) true;
  _ ← validate_reference_id "module.version" (module_version reference) false;
  if negb (len (digest_sha256 reference) =? 64) || negb (forallb digest_byte (digest_sha256 reference))
  then bad (lit "module.digestSha256") "must be 64 lowercase hexadecimal characters"
  else if existsb (fun m => str_eqb (module_id reference) m.1 && str_eqb (module_version reference) m.2)
            module_ids
  then bad (lit "modules") "duplicate module reference"
  else Ok ((module_id reference, module_version reference) :: module_ids).

Definition validate_references (preset : PromptPreset) : VResult unit :=
  if len (tools (advanced preset)) >? MAX_REFERENCES
  then Err (PromptTooManyItems (lit "tools") MAX_REFERENCES)
  else if len (modules (advanced preset)) >? MAX_REFERENCES
  then Err (PromptTooManyItems (lit "modules") MAX_REFERENCES)
  else
    _ ← foldM_result validate_tool [] (tools (advanced preset));
    _ ← foldM_result validate_module [] (modules (advanced preset));
    mret tt.

Section validate.
Context `{PromptRegexLib}.

Definition rule_field (index : nat) (suffix : string) : str :=
  lit "regex[" ++ index_str index ++ lit "]." ++ lit suffix.

(** One rule: the names seen and the authored bytes so far. *)
Definition validate_regex_rule (acc : list str * Z) (entry : nat * RegexRule) :
    VResult (list str * Z) :=
  let '(names, authored) := acc in
  let '(index, rule) := entry in
  _ ← validate_label (rule_field index "name") (rule_name rule);
  if seen (rule_name rule) names then bad (lit "regex") "duplicate rule name"
  else if is_empty (pattern rule) || (len (pattern rule) >? MAX_REGEX_PATTERN_BYTES)
  then bad (rule_field index "pattern") "must be 1-16384 bytes"
  else if len (replacement rule) >? MAX_REGEX_REPLACEMENT_BYTES
  then Err (PromptPayloadTooLarge (rule_field index "replacement") MAX_REGEX_REPLACEMENT_BYTES)
  else
    authored ← add_authored authored (len (pattern rule));
    authored ← add_authored authored (len (replacement rule));
    mret (rule_name rule :: names, authored).

Definition validate_regex_rules (preset : PromptPreset) (authored : Z) : VResult Z :=
  let rules := regex (advanced preset) in
  if len rules >? MAX_REGEX_RULES then Err (PromptTooManyItems (lit "regex") MAX_REGEX_RULES)
  else if len (List.filter rule_enabled rules) >? MAX_ACTIVE_REGEX_RULES
  then Err (PromptTooManyItems (lit "active regex rules") MAX_ACTIVE_REGEX_RULES)
  else
    '(_, authored) ← foldM_result validate_regex_rule ([], authored) (enumerate rules);
    _ ← validate_regex_contract preset;
    mret authored.

Definition validate_preset (preset : PromptPreset) : VResult unit :=
  _ ← validate_label (lit "name") (preset_name preset);
  if len (blocks preset) >? MAX_BLOCKS then Err (PromptTooManyItems (lit "blocks") MAX_BLOCKS)
  else if is_empty (blocks preset) then bad (lit "blocks") "at least one block is required"
  else
    st ← foldM_result validate_block (mkBlockScan 0 0 0 false false) (enumerate (blocks preset));
    if active_chat_blocks st >? 1 then Err (PromptTooManyItems (lit "active chat blocks") 1)
    else if cache_blocks st >? 16 then Err (PromptTooManyItems (lit "cache-point blocks") 16)
    else
      _ ← validate_sampling (sampling preset);
      authored ← validate_template_settings preset (authored_bytes st);
      _ ← validate_references preset;
      authored ← validate_regex_rules preset authored;
      if authored >? MAX_AUTHORED_TEXT_BYTES then Err authored_too_large else Ok tt.
End validate.
