(* ===== verification/PromptCompile.v ===== *)
(** * Prompts: compilation

    Models [crates/lorepia-prompt/src/compile.rs]: a preset and the runtime input
    (history, persona, lorebook, memory, variables) become the list of messages with
    the map of where each came from, and a compiled prompt becomes a provider request
    behind the exact token count.

    The token counter is the parameter [counter]; the provider's own compiler is
    [ProviderCompile.compile_request]. *)

From stdpp Require Import pretty.
From S2P Require Import Prelude Bytes Utf8 Float64 Json ProviderConfig ProviderCompile PromptTemplate PromptSchema PromptValidate.

Definition MAX_COMPILED_MESSAGES : Z := 10000.
Definition MAX_COMPILED_MESSAGE_BYTES : Z := 4 * 1024 * 1024.
Definition MAX_AVAILABLE_REFERENCES : Z := 256.
Definition MAX_PERSONA_INPUT_BYTES : Z := 64 * 1024.
Definition MAX_LONG_TERM_MEMORY_INPUT_BYTES : Z := 1024 * 1024.

Inductive PromptBindingMode : Type :=
  | Classic
  | ModelPreset (use_prompt_parameters : bool).

(** [variables] is a [BTreeMap]: its entries in key order; [available_tool_ids] is a
    [BTreeSet]. *)
Record PromptCompileInput : Type := mkCompileInput {
  history : list ChatMessage;
  persona : str;
  character_description : str;
  author_note : option str;
  lorebook : str;
  long_term_memory : str;
  final_insertion : str;
  variables : list (str * str);
  available_tool_ids : gset str;
  available_modules : list ModuleReference;
  binding_mode : PromptBindingMode;
}.

Record ModelCapacity : Type := mkCapacity {
  max_context_tokens : Z;
  capacity_max_output_tokens : Z;
}.

Record ModelPresetSnapshot (Num : Type) : Type := mkSnapshot {
  m_provider : ProviderId;
  m_model_id : str;
  capacity : ModelCapacity;
  m_provider_options : ProviderOptions;
  m_tokenizer_override : option str;
  m_additional_parameters : list (str * Value Num);
  m_generation : GenerationOptions Num;
}.
Arguments mkSnapshot {Num}.
Arguments m_provider {Num}.
Arguments m_model_id {Num}.
Arguments capacity {Num}.
Arguments m_provider_options {Num}.
Arguments m_tokenizer_override {Num}.
Arguments m_additional_parameters {Num}.
Arguments m_generation {Num}.

Record TokenCount : Type := mkTokenCount { approximate : Z; exact : option Z }.

Inductive MessageSource : Type :=
  | FromPreamble
  | FromBlock (block_index : nat) (kind : PromptBlockKind)
  | FromHistory (block_index : nat) (history_index : Z)
  | FromEpilogue.

Record CompiledPrompt : Type := mkCompiledPrompt {
  prompt_messages : list ChatMessage;
  source_map : list MessageSource;
  cache_points : list CachePoint;
  active_tools : list ToolReference;
  active_modules : list ModuleReference;
  prompt_sampling : option PromptSampling;
  token_count : TokenCount;
}.

Record CompiledPromptRequest (Num : Type) : Type := mkPromptRequest {
  provider_request : ProviderRequest Num;
  compiled_provider_request : CompiledProviderRequest Num;
  request_max_context_tokens : Z;
  input_tokens : Z;
}.
Arguments mkPromptRequest {Num}.
Arguments provider_request {Num}.
Arguments compiled_provider_request {Num}.
Arguments request_max_context_tokens {Num}.
Arguments input_tokens {Num}.

(** ** The state of a compilation *)

Record PendingCachePoint : Type := mkPending {
  pending_block_index : nat;
  pending_depth : Z;
  pending_role : PromptRole;
}.

Record CompileState : Type := mkState {
  st_messages : list ChatMessage;
  st_source_map : list MessageSource;
  st_pending : list PendingCachePoint;
  message_bytes : Z;
  started : bool;
}.

Definition CompileState_default : CompileState := mkState [] [] [] 0 false.

Definition validate_message_content (content : str) : VResult unit :=
  if is_empty (trim content) then bad (lit "compiled message.content") "must not be empty"
  else if has_nul content then bad (lit "compiled message.content") "must not contain NUL"
  else if len content >? MAX_COMPILED_MESSAGE_BYTES
  then Err (PromptPayloadTooLarge (lit "compiled message.content") MAX_COMPILED_MESSAGE_BYTES)
  else Ok tt.

Definition messages_too_large : PromptError :=
  PromptPayloadTooLarge (lit "compiled messages") MAX_COMPILED_MESSAGE_BYTES.

Definition push (st : CompileState) (message : ChatMessage) (source : MessageSource) :
    VResult CompileState :=
  _ ← validate_message_content (content message);
  if len (st_messages st) >=? MAX_COMPILED_MESSAGES
  then Err (PromptTooManyItems (lit "compiled messages") MAX_COMPILED_MESSAGES)
  else if bool_decide (role message = System) && started st
  then bad (lit "compiled messages.role") "system messages must precede the conversation"
  else
    let started := if bool_decide (role message <> System) then true else started st in
    total ← ok_or (checked_add USIZE_MAX (message_bytes st) (len (content message)))
              messages_too_large;
    if total >? MAX_COMPILED_MESSAGE_BYTES then Err messages_too_large
    else Ok (mkState (st_messages st ++ [message]) (st_source_map st ++ [source]) (st_pending st)
               total started).

Definition depth_reason (messages : Z) : str :=
  lit "cache depth must be in 1..=16 and address one of the " ++ lit (pretty messages)
  ++ lit " final messages".

(** The targets taken so far and the points resolved so far. *)
Definition resolve_cache_point (messages : list ChatMessage) (acc : list nat * list CachePoint)
    (pending : PendingCachePoint) : VResult (list nat * list CachePoint) :=
  let '(targets, points) := acc in
  let depth := pending_depth pending in
  if (depth =? 0) || (depth >? 16) || (depth >? len messages)
  then Err (PromptInvalidField (block_field (pending_block_index pending) "depth")
              (depth_reason (len messages)))
  else
    let message_index := Z.to_nat (len messages - depth) in
    if bool_decide (message_index ∈ targets)
    then bad (block_field (pending_block_index pending) "depth")
           "multiple cache points must not address the same final message"
    else
      match messages !! message_index with
      | Some message =>
          if bool_decide (role message <> message_role (pending_role pending))
          then bad (block_field (pending_block_index pending) "role")
                 "cache-point role must match the addressed final message"
          else Ok (message_index :: targets,
                   points ++ [mkCachePoint (pending_block_index pending) message_index depth
                                (pending_role pending)])
      | None => Ok (targets, points)
      end.

Definition resolve_cache_points (st : CompileState) : VResult (list CachePoint) :=
  '(_, points) ← foldM_result (resolve_cache_point (st_messages st)) ([], []) (st_pending st);
  mret points.

Definition push_dynamic_content (st : CompileState) (role : PromptRole) (format : ContentFormat)
    (source_value : str) (vars : Variables) (source : MessageSource) : VResult CompileState :=
  if is_empty source_value then Ok st
  else
    content ← render_content format source_value vars;
    push st (mkChatMessage (message_role role) content) source.

(** ** Runtime input *)

Definition merged_too_large : PromptError :=
  PromptPayloadTooLarge (lit "merged variables") MAX_AUTHORED_TEXT_BYTES.

(** [variables.extend(input.variables)]: runtime values win. *)
Definition merged_variables (preset : PromptPreset) (input : PromptCompileInput) : VResult Variables :=
  let vars : Variables :=
    list_to_map (variables input)
    ∪ list_to_map (default_variables (template_settings (advanced preset))) in
  if Z.of_nat (size vars) >? MAX_VARIABLES
  then Err (PromptTooManyItems (lit "merged variables") MAX_VARIABLES)
  else
    total ← foldM_result (fun total (entry : str * str) =>
              ok_or (checked_add USIZE_MAX total (len entry.2)) merged_too_large) 0 (map_to_list vars);
    if total >? MAX_AUTHORED_TEXT_BYTES then Err merged_too_large else Ok vars.

Definition runtime_variables_too_large : PromptError :=
  PromptPayloadTooLarge (lit "runtime variables") MAX_AUTHORED_TEXT_BYTES.

Definition validate_runtime_variable (variable_bytes : Z) (entry : str * str) : VResult Z :=
  let '(name, value) := entry in
  if negb (validate_variable_name name) || str_eqb name (lit "value")
  then bad (lit "runtime variables") "invalid or reserved variable name"
  else if has_nul value then bad (lit "runtime variables." ++ name) "must contain no NUL"
  else if len value >? MAX_VARIABLE_VALUE_BYTES
  then Err (PromptPayloadTooLarge (lit "runtime variables." ++ name) MAX_VARIABLE_VALUE_BYTES)
  else
    total ← ok_or (checked_add USIZE_MAX variable_bytes (len value)) runtime_variables_too_large;
    if total >? MAX_AUTHORED_TEXT_BYTES then Err runtime_variables_too_large else Ok total.

Definition validate_runtime_input (input : PromptCompileInput) : VResult unit :=
  if len (persona input) >? MAX_PERSONA_INPUT_BYTES
  then Err (PromptPayloadTooLarge (lit "persona") MAX_PERSONA_INPUT_BYTES)
  else if has_nul (persona input) then bad (lit "persona") "must contain no NUL"
  else if len (long_term_memory input) >? MAX_LONG_TERM_MEMORY_INPUT_BYTES
  then Err (PromptPayloadTooLarge (lit "longTermMemory") MAX_LONG_TERM_MEMORY_INPUT_BYTES)
  else if has_nul (long_term_memory input) then bad (lit "longTermMemory") "must contain no NUL"
  else if len (variables input) >? MAX_VARIABLES
  then Err (PromptTooManyItems (lit "runtime variables") MAX_VARIABLES)
  else
    _ ← foldM_result validate_runtime_variable 0 (variables input);
    if Z.of_nat (size (available_tool_ids input)) >? MAX_AVAILABLE_REFERENCES
    then Err (PromptTooManyItems (lit "available tool references") MAX_AVAILABLE_REFERENCES)
    else if len (available_modules input) >? MAX_AVAILABLE_REFERENCES
    then Err (PromptTooManyItems (lit "available module references") MAX_AVAILABLE_REFERENCES)
    else Ok tt.

(** The pinned module is available and enabled. *)
Definition module_available (reference available : ModuleReference) : bool :=
  str_eqb (module_id available) (module_id reference)
  && str_eqb (module_version available) (module_version reference)
  && str_eqb (digest_sha256 available) (digest_sha256 reference)
  && module_enabled available.

Definition validate_runtime_references (preset : PromptPreset) (input : PromptCompileInput) :
    VResult unit :=
  _ ← forM_result (fun reference =>
        if bool_decide (tool_id reference ∉ available_tool_ids input)
        then Err (PromptInvalidField (lit "advanced.tools")
                    (lit "active tool is unavailable: " ++ tool_id reference))
        else Ok tt) (List.filter tool_enabled (tools (advanced preset)));
  forM_result (fun reference =>
    if negb (existsb (module_available reference) (available_modules input))
    then Err (PromptInvalidField (lit "advanced.modules")
                (lit "active pinned module is unavailable: " ++ module_id reference ++ lit "@"
                 ++ module_version reference))
    else Ok tt) (List.filter module_enabled (modules (advanced preset))).

(** ** Blocks *)

Record Specials : Type := mkSpecials { main_seen : bool; global_note_seen : bool }.

Definition already_seen (s : Specials) (special : RawPromptSpecial) : bool :=
  match special with Main => main_seen s | GlobalNote => global_note_seen s end.

Definition mark_seen (s : Specials) (special : RawPromptSpecial) : Specials :=
  match special with
  | Main => mkSpecials true (global_note_seen s)
  | GlobalNote => mkSpecials (main_seen s) true
  end.

Definition check_special (index : nat) (role : PromptRole) (special : option RawPromptSpecial)
    (s : Specials) : VResult Specials :=
  match special with
  | None => Ok s
  | Some special =>
      if bool_decide (role <> PSystem)
      then bad (block_field index "role") "special raw prompts must use the system role"
      else if already_seen s special
      then bad (block_field index "special") "an enabled raw special may appear only once"
      else Ok (mark_seen s special)
  end.

Definition history_reason (n : Z) : str :=
  lit "history range must be a non-empty half-open interval within 0.." ++ lit (pretty n).

(** [for history_index in start..end { state.push(input.history[history_index].clone(), ..) }];
    the range was checked to lie in the history. *)
Definition push_history (index : nat) (input : PromptCompileInput) (st : CompileState)
    (history_index : nat) : VResult CompileState :=
  match history input !! history_index with
  | Some message => push st message (FromHistory index (Z.of_nat history_index))
  | None => Ok st
  end.

Definition compile_chat (index : nat) (selection : ChatSelection) (input : PromptCompileInput)
    (st : CompileState) : VResult CompileState :=
  let stop := match end_ selection with EndIndex stop => stop | EndOfChat => len (history input) end in
  if (start selection >=? stop) || (stop >? len (history input))
  then Err (PromptInvalidField (block_field index "selection") (history_reason (len (history input))))
  else foldM_result (push_history index input) st
         (seq (Z.to_nat (start selection)) (Z.to_nat (stop - start selection))).

Definition author_note_value (default_prompt : option str) (input : PromptCompileInput)
    (vars : Variables) : VResult str :=
  match author_note input, default_prompt with
  | Some value, _ => Ok value
  | None, Some default_prompt => render_template default_prompt vars
  | None, None => Ok []
  end.

Definition compile_block (input : PromptCompileInput) (vars : Variables)
    (acc : CompileState * Specials) (entry : nat * PromptBlock) : VResult (CompileState * Specials) :=
  let '(st, specials) := acc in
  let '(index, block) := entry in
  if negb (block_enabled block) then Ok (st, specials)
  else
    let source := FromBlock index (block_kind block) in
    let dynamic role format value :=
      st ← push_dynamic_content st role format value vars source;
      mret (st, specials) in
    match block with
    | Raw _ _ role special prompt =>
        specials ← check_special index role special specials;
        content ← render_template prompt vars;
        st ← push st (mkChatMessage (message_role role) content) source;
        mret (st, specials)
    | Chat _ _ selection => st ← compile_chat index selection input st; mret (st, specials)
    | Persona _ _ role format => dynamic role format (persona input)
    | CharacterDescription _ _ role format => dynamic role format (character_description input)
    | AuthorNote _ _ role default_prompt format =>
        value ← author_note_value default_prompt input vars;
        dynamic role format value
    | Lorebook _ _ role format => dynamic role format (lorebook input)
    | LongTermMemory _ _ role format => dynamic role format (long_term_memory input)
    | FinalInsertion _ _ role prompt =>
        content ← (if is_empty (final_insertion input) then render_template prompt vars
                   else Ok (final_insertion input));
        st ← push st (mkChatMessage (message_role role) content) source;
        mret (st, specials)
    | ChatMl _ _ role prompt =>
        content ← render_template prompt vars;
        st ← push st (mkChatMessage (message_role role) content) source;
        mret (st, specials)
    | CachePointBlock _ _ depth role =>
        mret (mkState (st_messages st) (st_source_map st)
                (st_pending st ++ [mkPending index depth role]) (message_bytes st) (started st),
              specials)
    end.

Definition push_synthetic (message : option SyntheticMessage) (vars : Variables) (st : CompileState)
    (source : MessageSource) : VResult CompileState :=
  match message with
  | None => Ok st
  | Some message =>
      content ← render_template (s_template message) vars;
      push st (mkChatMessage (message_role (s_role message)) content) source
  end.

Definition approximate_tokens (messages : list ChatMessage) : TokenCount :=
  let characters := foldr Z.add 0 (map (fun m => len (chars (content m))) messages) in
  mkTokenCount ((characters + 3) / 4) None.

Section compile.
Context `{PromptRegexLib}.

(** One message through the request transforms: the pipeline, the messages done and
    their bytes. *)
Definition transform_message (acc : CompiledTransformPipeline * list ChatMessage * Z)
    (message : ChatMessage) : VResult (CompiledTransformPipeline * list ChatMessage * Z) :=
  let '(pipeline, transformed, bytes) := acc in
  '(content, pipeline) ← pipeline_apply pipeline (content message);
  _ ← validate_message_content content;
  bytes ← ok_or (checked_add USIZE_MAX bytes (len content)) messages_too_large;
  if bytes >? MAX_COMPILED_MESSAGE_BYTES then Err messages_too_large
  else Ok (pipeline, transformed ++ [mkChatMessage (role message) content], bytes).

(** The messages, sources and cache points, before the transforms. *)
Definition assemble (preset : PromptPreset) (input : PromptCompileInput) (vars : Variables) :
    VResult CompileState :=
  st ← push_synthetic (preamble (template_settings (advanced preset))) vars CompileState_default
         FromPreamble;
  '(st, _) ← foldM_result (compile_block input vars) (st, mkSpecials false false)
               (enumerate (blocks preset));
  push_synthetic (epilogue (template_settings (advanced preset))) vars st FromEpilogue.

Definition compile_prompt (preset : PromptPreset) (input : PromptCompileInput) :
    VResult CompiledPrompt :=
  _ ← validate_preset preset;
  _ ← validate_runtime_input input;
  _ ← validate_runtime_references preset input;
  vars ← merged_variables preset input;
  st ← assemble preset input vars;
  if is_empty (st_messages st) then bad (lit "compiled messages") "at least one message is required"
  else
    points ← resolve_cache_points st;
    transforms ← pipeline_new preset TargetRequest;
    '(_, messages, _) ← foldM_result transform_message (transforms, [], 0) (st_messages st);
    let sampling :=
      match binding_mode input with
      | Classic | ModelPreset true => Some (sampling preset)
      | ModelPreset false => None
      end in
    mret (mkCompiledPrompt messages (st_source_map st) points
            (List.filter tool_enabled (tools (advanced preset)))
            (List.filter module_enabled (modules (advanced preset)))
            sampling (approximate_tokens messages)).

(** ** Provider requests *)

Definition unsupported {A} (feature reason : string) : VResult A :=
  Err (UnsupportedFeature (lit feature) (lit reason)).

Definition validate_capacity (c : ModelCapacity) : VResult unit :=
  if max_context_tokens c =? 0
  then bad (lit "model.capacity.maxContextTokens") "must be greater than zero"
  else if (capacity_max_output_tokens c =? 0)
          || (capacity_max_output_tokens c >? max_context_tokens c)
  then bad (lit "model.capacity.maxOutputTokens")
         "must be greater than zero and no larger than max context tokens"
  else Ok tt.

Definition validate_context_capacity (input_tokens : Z) (c : ModelCapacity) : VResult unit :=
  required ← ok_or (checked_add USIZE_MAX input_tokens (capacity_max_output_tokens c))
               (PromptInvalidField (lit "model.capacity")
                  (lit "input plus output token count overflowed"));
  if required >? max_context_tokens c
  then Err (PromptInvalidField (lit "model.capacity.maxContextTokens")
              (lit "exact input (" ++ lit (pretty input_tokens) ++ lit ") plus max output ("
               ++ lit (pretty (capacity_max_output_tokens c)) ++ lit ") exceeds context capacity ("
               ++ lit (pretty (max_context_tokens c)) ++ lit ")"))
  else Ok tt.

Context {Num : Type} `{ProviderJson Num}.

(** A prompt-owned value where there is one, the model's otherwise. *)
Definition overlay {A} (prompt model : option A) : option A :=
  match prompt with Some _ => prompt | None => model end.

Definition overlay_sampling (g : GenerationOptions Num) (s : PromptSampling) : GenerationOptions Num :=
  mkGeneration (overlay (p_temperature s) (temperature g)) (max_output_tokens g)
    (overlay (p_top_p s) (top_p g)) (overlay (p_top_k s) (top_k g))
    (overlay (p_presence_penalty s) (presence_penalty g))
    (overlay (p_frequency_penalty s) (frequency_penalty g))
    (if is_empty (p_stop_sequences s) then stop_sequences g else p_stop_sequences s)
    (overlay (p_seed s) (seed g)) (response_format g) (role_policy g).

Definition with_max_output (g : GenerationOptions Num) (maximum : Z) : GenerationOptions Num :=
  mkGeneration (temperature g) (Some maximum) (top_p g) (top_k g) (presence_penalty g)
    (frequency_penalty g) (stop_sequences g) (seed g) (response_format g) (role_policy g).

(** The request that is counted: [compile_prompt_request] up to the call of the counter. *)
Definition prepare_prompt_request (prompt : CompiledPrompt) (model : ModelPresetSnapshot Num) :
    VResult (ProviderRequest Num * CompiledProviderRequest Num) :=
  _ ← validate_capacity (capacity model);
  if negb (is_empty (cache_points prompt))
  then unsupported "cache_points"
         "the provider request contract has no reviewed cache-boundary mapping"
  else if negb (is_empty (active_tools prompt))
  then unsupported "tools" "tool references require the separate approved tool-call loop"
  else if negb (is_empty (active_modules prompt))
  then unsupported "modules"
         "module references are metadata only until a module runtime is reviewed"
  else if is_some (prompt_sampling prompt ≫= p_min_p)
  then unsupported "min_p" "the provider-neutral request contract does not expose min-p"
  else if is_some (prompt_sampling prompt ≫= p_top_a)
  then unsupported "top_a" "the provider-neutral request contract does not expose top-a"
  else if is_some (prompt_sampling prompt ≫= p_repetition_penalty)
  then unsupported "repetition_penalty"
         "the provider-neutral request contract does not expose repetition penalty"
  else
    let generation :=
      with_max_output (m_generation model) (capacity_max_output_tokens (capacity model)) in
    let generation :=
      match prompt_sampling prompt with
      | Some sampling => overlay_sampling generation sampling
      | None => generation
      end in
    let request := mkRequest (m_provider model) (m_model_id model) (prompt_messages prompt) generation
      (m_provider_options model) (m_tokenizer_override model) (m_additional_parameters model) in
    compiled ← map_err PromptProvider (compile_request request);
    mret (request, compiled).

Context (counter : ProviderRequest Num -> CompiledProviderRequest Num ->
                   result ExactTokenCountError Z).

Definition compile_prompt_request (prompt : CompiledPrompt) (model : ModelPresetSnapshot Num) :
    VResult (CompiledPromptRequest Num) :=
  '(request, compiled) ← prepare_prompt_request prompt model;
  input_tokens ← map_err ExactTokenCount (counter request compiled);
  _ ← validate_context_capacity input_tokens (capacity model);
  mret (mkPromptRequest request compiled (max_context_tokens (capacity model)) input_tokens).
End compile.
