(* ===== verification/PromptCompileFacts.v ===== *)
(** * Prompts: what a compiled prompt is

    The messages of a compiled prompt are those of a specification without state,
    limits or counters ([spec_messages]), transformed by the request rules; their
    sources are exact; and they are accepted by the providers' own validation. *)

From S2P Require Import Prelude Bytes Utf8 Json ProviderConfig ProviderCompile ProviderCompileFacts PromptTemplate PromptSchema PromptRegexFacts PromptValidate PromptCompile.

(** ** Specification *)

Abbreviation Sourced := (list (MessageSource * ChatMessage)).

Section spec.
Context (input : PromptCompileInput) (vars : Variables).

(** Text given at run time: absent when empty, otherwise formatted. *)
Definition dynamic_messages (source : MessageSource) (role : PromptRole) (format : ContentFormat)
    (value : str) : VResult Sourced :=
  if is_empty value then Ok []
  else
    content ← render_content format value vars;
    mret [(source, mkChatMessage (message_role role) content)].

Definition authored_messages (source : MessageSource) (role : PromptRole) (template : str) :
    VResult Sourced :=
  content ← render_template template vars;
  mret [(source, mkChatMessage (message_role role) content)].

(** The selected part of the history, message by message. *)
Definition history_messages (index : nat) (selection : ChatSelection) : Sourced :=
  let stop := match end_ selection with EndIndex stop => stop | EndOfChat => len (history input) end in
  imap (fun i message => (FromHistory index (start selection + Z.of_nat i), message))
    (take (Z.to_nat (stop - start selection)) (drop (Z.to_nat (start selection)) (history input))).

Definition block_messages (entry : nat * PromptBlock) : VResult Sourced :=
  let '(index, block) := entry in
  let source := FromBlock index (block_kind block) in
  if negb (block_enabled block) then Ok []
  else
    match block with
    | Raw _ _ role _ prompt | ChatMl _ _ role prompt => authored_messages source role prompt
    | Chat _ _ selection => Ok (history_messages index selection)
    | Persona _ _ role format => dynamic_messages source role format (persona input)
    | CharacterDescription _ _ role format =>
        dynamic_messages source role format (character_description input)
    | AuthorNote _ _ role default_prompt format =>
        value ← author_note_value default_prompt input vars;
        dynamic_messages source role format value
    | Lorebook _ _ role format => dynamic_messages source role format (lorebook input)
    | LongTermMemory _ _ role format => dynamic_messages source role format (long_term_memory input)
    | FinalInsertion _ _ role prompt =>
        if is_empty (final_insertion input) then authored_messages source role prompt
        else Ok [(source, mkChatMessage (message_role role) (final_insertion input))]
    | CachePointBlock _ _ _ _ => Ok []
    end.

Definition synthetic_messages (source : MessageSource) (message : option SyntheticMessage) :
    VResult Sourced :=
  match message with
  | Some message => authored_messages source (s_role message) (s_template message)
  | None => Ok []
  end.

(** The preamble, the enabled blocks in order, the epilogue. *)
Definition spec_messages (preset : PromptPreset) : VResult Sourced :=
  first ← synthetic_messages FromPreamble (preamble (template_settings (advanced preset)));
  middle ← mapM_result block_messages (enumerate (blocks preset));
  final ← synthetic_messages FromEpilogue (epilogue (template_settings (advanced preset)));
  mret (first ++ concat middle ++ final).
End spec.

(** ** Pushing messages *)

(** Order: system messages come before the conversation. *)
Fixpoint systems_first (started : bool) (messages : list ChatMessage) : Prop :=
  match messages with
  | [] => True
  | m :: rest =>
      (role m = System -> started = false) /\ systems_first (started || is_conversation m) rest
  end.

Lemma systems_first_app b l1 l2 :
  systems_first b (l1 ++ l2) <-> systems_first b l1 /\ systems_first (b || existsb is_conversation l1) l2.
Proof.
  revert b. induction l1 as [|m l1 IH]; intros b; cbn [app systems_first existsb].
  { rewrite orb_false_r. tauto. }
  rewrite IH, orb_assoc. tauto.
Qed.

Definition content_bytes (messages : list ChatMessage) : Z :=
  foldr Z.add 0 (map (fun m => len (content m)) messages).

Lemma content_bytes_app a b : content_bytes (a ++ b) = content_bytes a + content_bytes b.
Proof. unfold content_bytes. rewrite map_app. induction (map _ a); cbn [app foldr]; lia. Qed.

Lemma content_bytes_cons m l : content_bytes (m :: l) = len (content m) + content_bytes l.
Proof. done. Qed.

Lemma content_bytes_nonneg l : 0 <= content_bytes l.
Proof.
  unfold content_bytes. induction l as [|m l IH]; cbn [map foldr]; [lia|].
  pose proof (len_nonneg (content m)). lia.
Qed.

Definition content_ok (m : ChatMessage) : Prop := validate_message_content (content m) = Ok tt.

(** What holds of the state between pushes. *)
Record state_ok (st : CompileState) : Prop := {
  ok_content : Forall content_ok (st_messages st);
  ok_sources : length (st_source_map st) = length (st_messages st);
  ok_count : len (st_messages st) <= MAX_COMPILED_MESSAGES;
  ok_order : systems_first false (st_messages st);
  ok_started : started st = existsb is_conversation (st_messages st);
  ok_bytes : message_bytes st = content_bytes (st_messages st);
  ok_limit : message_bytes st <= MAX_COMPILED_MESSAGE_BYTES;
}.

Lemma state_ok_default : state_ok CompileState_default.
Proof. split; cbn; try done. Qed.

(** The messages and sources a step adds. *)
Definition adds (st st' : CompileState) (added : Sourced) : Prop :=
  st_messages st' = st_messages st ++ map snd added /\
  st_source_map st' = st_source_map st ++ map fst added.

Lemma adds_nil st : adds st st [].
Proof. split; by rewrite app_nil_r. Qed.

Lemma adds_trans st1 st2 st3 a b : adds st1 st2 a -> adds st2 st3 b -> adds st1 st3 (a ++ b).
Proof.
  intros [H1 H2] [H3 H4]. split; rewrite map_app, app_assoc; congruence.
Qed.

Lemma push_Ok st m source st' :
  push st m source = Ok st' -> state_ok st ->
  state_ok st' /\ adds st st' [(source, m)] /\ st_pending st' = st_pending st.
Proof.
  unfold push. intros Hp Hok. apply bind_Ok in Hp as ([] & Hc & Hp).
  destruct (len (st_messages st) >=? MAX_COMPILED_MESSAGES) eqn:Hn; [done|].
  destruct (bool_decide (role m = System) && started st) eqn:Hs; [done|].
  apply bind_Ok in Hp as (total & Ht%ok_or_Ok%checked_add_Some & Hp). destruct Ht as [-> _].
  case_match eqn:Hmax; [done|]. injection Hp as <-. destruct Hok. split; [|by split; [split|]].
  split; cbn [st_messages st_source_map started message_bytes].
  - apply Forall_app. by repeat constructor.
  - rewrite !length_app. cbn. lia.
  - rewrite len_app, len_cons, len_nil. lia.
  - apply systems_first_app. split; [done|]. rewrite <- ok_started0. cbn. split; [|done].
    intros Hsys. rewrite bool_decide_true in Hs by done. by cbn in Hs.
  - rewrite existsb_app, <- ok_started0. cbn. unfold is_conversation.
    repeat case_bool_decide; destruct (started st); naive_solver.
  - rewrite content_bytes_app. unfold content_bytes at 2. cbn. lia.
  - lia.
Qed.

(** ** Blocks *)

Section assembling.
Context (input : PromptCompileInput) (vars : Variables).

(** A step that keeps the invariant and adds what the specification says. *)
Definition step_ok (st st' : CompileState) (spec : VResult Sourced) : Prop :=
  state_ok st' /\ exists added, spec = Ok added /\ adds st st' added.

Lemma step_authored st st' source role template :
  (content ← render_template template vars;
   push st (mkChatMessage (message_role role) content) source) = Ok st' ->
  state_ok st -> step_ok st st' (authored_messages vars source role template).
Proof.
  intros Hs Hok. apply bind_Ok in Hs as (content & Hr & Hp). apply push_Ok in Hp as (Hok' & Ha & _); [|done].
  split; [done|]. eexists. split; [|exact Ha]. unfold authored_messages. by rewrite Hr.
Qed.

Lemma step_dynamic st st' role format value source :
  push_dynamic_content st role format value vars source = Ok st' -> state_ok st ->
  step_ok st st' (dynamic_messages vars source role format value).
Proof.
  unfold push_dynamic_content, dynamic_messages. intros Hs Hok. destruct (is_empty value).
  { injection Hs as <-. split; [done|]. exists []. split; [done|apply adds_nil]. }
  apply bind_Ok in Hs as (content & Hr & Hp). apply push_Ok in Hp as (Hok' & Ha & _); [|done].
  split; [done|]. eexists. split; [|exact Ha]. by rewrite Hr.
Qed.

Lemma step_synthetic st st' source message :
  push_synthetic message vars st source = Ok st' -> state_ok st ->
  step_ok st st' (synthetic_messages vars source message).
Proof.
  unfold push_synthetic, synthetic_messages. intros Hs Hok. destruct message as [m|].
  - by apply step_authored.
  - injection Hs as <-. split; [done|]. exists []. split; [done|apply adds_nil].
Qed.

(** The loop over a range of the history. *)
Lemma push_history_Ok index n from st st' :
  foldM_result (push_history index input) st (seq from n) = Ok st' -> state_ok st ->
  (from + n <= length (history input))%nat ->
  state_ok st' /\
  adds st st' (imap (fun i m => (FromHistory index (Z.of_nat from + Z.of_nat i), m))
                 (take n (drop from (history input)))).
Proof.
  revert from st. induction n as [|n IH]; intros from st Hf Hok Hn; cbn [seq foldM_result] in Hf.
  { cbn in Hf. injection Hf as <-. rewrite take_0. split; [done|apply adds_nil]. }
  apply bind_Ok in Hf as (st1 & H1 & Hf). unfold push_history in H1.
  destruct (history input !! from) as [m|] eqn:Hm;
    [|apply lookup_ge_None in Hm; lia].
  apply push_Ok in H1 as (Hok1 & Ha1 & _); [|done]. apply IH in Hf as [Hok' Ha']; [|done|lia].
  split; [done|]. rewrite (drop_S _ _ _ Hm). cbn [take imap].
  pose proof (adds_trans _ _ _ _ _ Ha1 Ha') as Hadd. cbn [app] in Hadd. rewrite Z.add_0_r.
  replace (imap ((fun i m0 => (FromHistory index (Z.of_nat from + Z.of_nat i), m0)) ∘ S)
             (take n (drop (S from) (history input))))
    with (imap (fun i m0 => (FromHistory index (Z.of_nat (S from) + Z.of_nat i), m0))
             (take n (drop (S from) (history input)))); [done|].
  apply imap_ext. intros i x _. cbn. do 2 f_equal. lia.
Qed.

Lemma step_chat index selection st st' :
  compile_chat index selection input st = Ok st' -> state_ok st -> 0 <= start selection ->
  step_ok st st' (Ok (history_messages input index selection)).
Proof.
  unfold compile_chat, history_messages. intros Hc Hok Hstart.
  set (stop := match end_ selection with EndIndex stop => stop | EndOfChat => _ end) in *.
  destruct (_ || _) eqn:Hr in Hc; [done|]. apply push_history_Ok in Hc as [Hok' Ha]; [|done|].
  - split; [done|]. eexists. split; [done|]. by rewrite Z2Nat.id in Ha.
  - unfold len in *. lia.
Qed.
End assembling.

(** A usize is not negative. *)
Definition selection_ok (block : PromptBlock) : Prop :=
  match block with Chat _ _ selection => 0 <= start selection | _ => True end.

Lemma compile_block_Ok input vars st specials entry st' specials' :
  compile_block input vars (st, specials) entry = Ok (st', specials') ->
  state_ok st -> selection_ok entry.2 ->
  step_ok st st' (block_messages input vars entry).
Proof.
  destruct entry as [index block]. unfold compile_block, block_messages. cbn [snd]. intros Hb Hok Hsel.
  destruct (negb (block_enabled block)).
  { injection Hb as <- _. split; [done|]. exists []. split; [done|apply adds_nil]. }
  destruct block; cbn [selection_ok] in Hsel.
  - apply bind_Ok in Hb as (sp & _ & Hb). apply bind_Ok in Hb as (c & Hr & Hb).
    apply bind_Ok in Hb as (st1 & Hp & Hb). injection Hb as <- _.
    apply step_authored; [|done]. by rewrite Hr.
  - apply bind_Ok in Hb as (st1 & Hp & Hb). injection Hb as <- _. by apply step_chat.
  - apply bind_Ok in Hb as (st1 & Hp & Hb). injection Hb as <- _. by apply step_dynamic.
  - apply bind_Ok in Hb as (st1 & Hp & Hb). injection Hb as <- _. by apply step_dynamic.
  - apply bind_Ok in Hb as (value & Hv & Hb). apply bind_Ok in Hb as (st1 & Hp & Hb).
    injection Hb as <- _. rewrite Hv. by apply step_dynamic.
  - apply bind_Ok in Hb as (st1 & Hp & Hb). injection Hb as <- _. by apply step_dynamic.
  - apply bind_Ok in Hb as (st1 & Hp & Hb). injection Hb as <- _. by apply step_dynamic.
  - apply bind_Ok in Hb as (c & Hr & Hb). apply bind_Ok in Hb as (st1 & Hp & Hb).
    injection Hb as <- _. destruct (is_empty (final_insertion input)).
    + apply step_authored; [|done]. by rewrite Hr.
    + injection Hr as <-. apply push_Ok in Hp as (Hok' & Ha & _); [|done]. split; eauto.
  - apply bind_Ok in Hb as (c & Hr & Hb). apply bind_Ok in Hb as (st1 & Hp & Hb).
    injection Hb as <- _. apply step_authored; [|done]. by rewrite Hr.
  - injection Hb as <- _. split; [by destruct Hok; split|]. exists [].
    split; [done|]. by split; rewrite app_nil_r.
Qed.

Lemma compile_blocks_Ok input vars entries st specials st' specials' :
  foldM_result (compile_block input vars) (st, specials) entries = Ok (st', specials') ->
  state_ok st -> Forall (fun e => selection_ok e.2) entries ->
  state_ok st' /\ exists pieces, mapM_result (block_messages input vars) entries = Ok pieces /\
    adds st st' (concat pieces).
Proof.
  revert st specials. induction entries as [|e entries IH]; intros st specials Hf Hok Hsel; cbn in Hf.
  { injection Hf as <- _. split; [done|]. exists []. split; [done|apply adds_nil]. }
  apply bind_Ok in Hf as ([st1 sp1] & H1 & Hf). inversion Hsel as [|? ? He Hes]; subst.
  apply compile_block_Ok in H1 as (Hok1 & added & Hspec & Ha); [|done|done].
  apply IH in Hf as (Hok' & pieces & Hp & Ha'); [|done|done]. split; [done|].
  exists (added :: pieces). cbn [mapM_result concat]. rewrite Hspec, Hp. split; [done|].
  by eapply adds_trans.
Qed.

Lemma assemble_Ok preset input vars st :
  assemble preset input vars = Ok st -> Forall selection_ok (blocks preset) ->
  state_ok st /\ exists pre, spec_messages input vars preset = Ok pre /\
    st_messages st = map snd pre /\ st_source_map st = map fst pre.
Proof.
  unfold assemble, spec_messages. intros Ha Hsel. apply bind_Ok in Ha as (st1 & H1 & Ha).
  apply bind_Ok in Ha as ([st2 sp] & H2 & Ha).
  apply step_synthetic in H1 as (Hok1 & a1 & Hs1 & Ha1); [|apply state_ok_default].
  apply compile_blocks_Ok in H2 as (Hok2 & pieces & Hs2 & Ha2); [|done|].
  2: { rewrite <- map_snd_enumerate in Hsel. rewrite Forall_forall in Hsel |- *.
       intros e He. apply Hsel. by apply in_map. }
  apply step_synthetic in Ha as (Hok3 & a3 & Hs3 & Ha3); [|done]. split; [done|].
  rewrite Hs1. cbn [mbind result_bind]. rewrite Hs2. cbn [mbind result_bind]. rewrite Hs3.
  eexists. split; [done|]. pose proof (adds_trans _ _ _ _ _ Ha1 (adds_trans _ _ _ _ _ Ha2 Ha3)) as [Hm Hs].
  by split.
Qed.

(** ** Transforms *)

Definition transformed `{PromptRegexLib} (rs : list CompiledRule) (m : ChatMessage) : ChatMessage :=
  mkChatMessage (role m) (transform rs (content m)).

Section transforms.
Context `{PromptRegexLib}.

Lemma transform_messages_Ok rs msgs pipeline acc bytes pipeline' out bytes' :
  foldM_result transform_message (pipeline, acc, bytes) msgs = Ok (pipeline', out, bytes') ->
  same_rules (rules pipeline) rs -> scanned_bytes (budget pipeline) <= MAX_CUMULATIVE_SCAN_BYTES ->
  bytes <= MAX_COMPILED_MESSAGE_BYTES ->
  out = acc ++ map (transformed rs) msgs /\ Forall content_ok (map (transformed rs) msgs) /\
  bytes' = bytes + content_bytes (map (transformed rs) msgs) /\
  bytes' <= MAX_COMPILED_MESSAGE_BYTES.
Proof.
  revert pipeline acc bytes. induction msgs as [|m msgs IH]; intros pipeline acc bytes Hf Hs Hb Hmax;
    cbn in Hf.
  { injection Hf as <- <- <-. rewrite app_nil_r. cbn. repeat split; [constructor|lia|done]. }
  apply bind_Ok in Hf as ([[pl1 acc1] b1] & H1 & Hf). unfold transform_message in H1.
  apply bind_Ok in H1 as ([c pl2] & Hp & H1). apply bind_Ok in H1 as ([] & Hc & H1).
  apply bind_Ok in H1 as (b2 & Hb2%ok_or_Ok%checked_add_Some & H1). destruct Hb2 as [-> _].
  case_match eqn:Hlim; [done|]. injection H1 as <- <- <-.
  apply pipeline_apply_Ok in Hp as (-> & _ & Hs2 & Hb'); [|done].
  rewrite (transform_same _ _ _ Hs) in *.
  apply IH in Hf as (-> & Hok & -> & Hl); [|by etransitivity|done|lia].
  cbn [map]. rewrite <- app_assoc, content_bytes_cons. split; [done|].
  split; [by constructor|]. cbn [transformed content]. lia.
Qed.

(** What compilation went through. *)
Lemma compile_prompt_inv preset input p :
  compile_prompt preset input = Ok p -> Forall selection_ok (blocks preset) ->
  exists vars st pre rs,
    validate_preset preset = Ok tt /\ validate_runtime_references preset input = Ok tt /\
    merged_variables preset input = Ok vars /\ spec_messages input vars preset = Ok pre /\
    Forall2 compiled_from (List.filter (active TargetRequest) (regex (advanced preset))) rs /\
    state_ok st /\ st_messages st = map snd pre /\ st_messages st <> [] /\
    resolve_cache_points st = Ok (cache_points p) /\
    source_map p = map fst pre /\ prompt_messages p = map (transformed rs) (map snd pre) /\
    Forall content_ok (prompt_messages p) /\
    content_bytes (prompt_messages p) <= MAX_COMPILED_MESSAGE_BYTES /\
    active_tools p = List.filter tool_enabled (tools (advanced preset)) /\
    active_modules p = List.filter module_enabled (modules (advanced preset)).
Proof.
  unfold compile_prompt. intros Hc Hsel. apply bind_Ok in Hc as ([] & Hv & Hc).
  apply bind_Ok in Hc as ([] & _ & Hc). apply bind_Ok in Hc as ([] & Href & Hc).
  apply bind_Ok in Hc as (vars & Hvars & Hc). apply bind_Ok in Hc as (st & Hst & Hc).
  destruct (is_empty (st_messages st)) eqn:Hne; [done|]. apply is_empty_false in Hne.
  apply bind_Ok in Hc as (points & Hpts & Hc). apply bind_Ok in Hc as (pl & Hpl & Hc).
  apply bind_Ok in Hc as ([[pl' msgs] bytes] & Hf & Hc). injection Hc as <-.
  apply assemble_Ok in Hst as (Hok & pre & Hpre & Hm & Hs); [|done].
  apply pipeline_new_Ok in Hpl as [Hbud Hrs].
  apply (transform_messages_Ok (rules pl)) in Hf as (-> & Hcont & Hbytes & Hmax);
    [|done|by rewrite Hbud|done].
  rewrite Hm in *. exists vars, st, pre, (rules pl). cbn [app] in *.
  repeat (split; [done|]). split; [by rewrite Hm|].
  repeat (split; [done|]). split; [|done]. cbn [prompt_messages]. lia.
Qed.
End transforms.

(** C25: A compiled prompt is what its parts say: the preamble, the enabled blocks in
    order and the epilogue, where authored templates are rendered once, runtime
    content enters as data, the chat block is exactly the selected slice of the
    history, and every message then goes through the enabled request transforms.  The
    source map names the origin of each message. *)
Theorem compile_prompt_spec `{PromptRegexLib} (preset : PromptPreset) (input : PromptCompileInput) p :
  compile_prompt preset input = Ok p -> Forall selection_ok (blocks preset) ->
  exists vars pre rs,
    merged_variables preset input = Ok vars /\ spec_messages input vars preset = Ok pre /\
    Forall2 compiled_from (List.filter (active TargetRequest) (regex (advanced preset))) rs /\
    source_map p = map fst pre /\ prompt_messages p = map (transformed rs) (map snd pre).
Proof.
  intros Hc Hsel.
  destruct (compile_prompt_inv _ _ _ Hc Hsel)
    as (vars & st & pre & rs & _ & _ & Hv & Hp & Hr & _ & _ & _ & _ & Hs & Hm & _).
  by exists vars, pre, rs.
Qed.

(** ** The providers accept the messages *)

Lemma content_ok_scan m :
  content_ok m -> is_empty (trim (content m)) = false /\ contains (content m) [NUL_BYTE] = false.
Proof.
  unfold content_ok, validate_message_content, has_nul.
  destruct (is_empty _); [done|]. by destruct (contains _ _).
Qed.

Lemma scan_message_ok m total hc cs :
  content_ok m -> (role m = System -> cs = false) -> total + len (content m) <= USIZE_MAX ->
  scan_message (mkScan total hc cs) m =
  Ok (mkScan (total + len (content m)) (hc || is_conversation m) (cs || is_conversation m)).
Proof.
  intros [He Hn]%content_ok_scan Hsys Hmax. unfold scan_message. rewrite He, Hn.
  cbn [total_bytes conversation_started has_conversation]. unfold saturating_add, is_conversation.
  rewrite Z.min_r by done. destruct (decide (role m = System)) as [Hr|Hr].
  - rewrite (Hsys Hr), bool_decide_true, bool_decide_false by (done || naive_solver).
    cbn. by rewrite orb_false_r.
  - rewrite bool_decide_false, bool_decide_true by done. cbn. by rewrite !orb_true_r.
Qed.

Lemma scan_messages_ok l total hc cs :
  Forall content_ok l -> systems_first cs l -> total + content_bytes l <= USIZE_MAX ->
  foldM_result scan_message (mkScan total hc cs) l =
  Ok (mkScan (total + content_bytes l) (hc || existsb is_conversation l)
        (cs || existsb is_conversation l)).
Proof.
  intros Hl. revert total hc cs. induction Hl as [|m l Hm Hl IH]; intros total hc cs Ho Hmax.
  { cbn. by rewrite !orb_false_r, Z.add_0_r. }
  destruct Ho as [Hsys Ho]. rewrite content_bytes_cons in Hmax |- *.
  pose proof (content_bytes_nonneg l). cbn [foldM_result existsb].
  rewrite scan_message_ok by (done || lia). cbn [mbind result_bind]. rewrite IH by (done || lia).
  by rewrite !orb_assoc, Z.add_assoc.
Qed.

Lemma systems_first_roles b l l' :
  map role l = map role l' -> systems_first b l -> systems_first b l'.
Proof.
  revert b l'. induction l as [|m l IH]; intros b [|m' l'] Hr; try done.
  cbn in Hr. injection Hr as Hr Hrs. intros [H1 H2]. split; [by rewrite <- Hr|].
  unfold is_conversation in *. rewrite <- Hr. by apply (IH _ l').
Qed.

(** The prompt compiler and the provider compiler agree: the messages of a
    compiled prompt, after its transforms, always pass the message validation of the
    provider request; the only refusal left is that the prompt has no user or
    assistant message at all. *)
Theorem compiled_prompt_is_sendable `{PromptRegexLib} (preset : PromptPreset)
    (input : PromptCompileInput) p :
  compile_prompt preset input = Ok p -> Forall selection_ok (blocks preset) ->
  validate_messages (prompt_messages p) =
  if existsb is_conversation (prompt_messages p) then Ok tt else fail MissingConversation.
Proof.
  intros Hc Hsel.
  destruct (compile_prompt_inv _ _ _ Hc Hsel) as (vars & st & pre & rs & _ & _ & _ & _ & _ &
    Hok & Hpre & _ & _ & _ & Hm & Hcont & Hbytes & _).
  assert (Hlen : len (prompt_messages p) = len (st_messages st)).
  { rewrite Hm, Hpre. unfold len. by rewrite length_map. }
  assert (Hord : systems_first false (prompt_messages p)).
  { apply (systems_first_roles _ (st_messages st)); [|by destruct Hok].
    rewrite Hm, Hpre. rewrite (map_map (transformed rs) role). by apply map_ext. }
  unfold validate_messages. destruct Hok. rewrite gtb_false by (rewrite Hlen; exact ok_count0).
  rewrite scan_messages_ok; [|done|done|].
  2: { unfold USIZE_MAX, U64_MAX, MAX_COMPILED_MESSAGE_BYTES in *. lia. }
  cbn [mbind result_bind total_bytes has_conversation orb].
  rewrite gtb_false by (exact Hbytes).
  by destruct (existsb is_conversation (prompt_messages p)).
Qed.

(** ** References *)

(** What a compiled prompt may execute was both enabled in the preset and made
    available by the host: every active tool and every active module is one the
    preset enabled, the tool is in the available set, and the module is available
    with the same version and digest. *)
Theorem active_references_are_available `{PromptRegexLib} (preset : PromptPreset)
    (input : PromptCompileInput) p :
  compile_prompt preset input = Ok p -> Forall selection_ok (blocks preset) ->
  Forall (fun t => t ∈ tools (advanced preset) /\ tool_enabled t = true /\
                   tool_id t ∈ available_tool_ids input) (active_tools p) /\
  Forall (fun m => m ∈ modules (advanced preset) /\ module_enabled m = true /\
                   exists a, a ∈ available_modules input /\ module_id a = module_id m /\
                     module_version a = module_version m /\ digest_sha256 a = digest_sha256 m /\
                     module_enabled a = true) (active_modules p).
Proof.
  intros Hc Hsel. destruct (compile_prompt_inv _ _ _ Hc Hsel)
    as (vars & st & pre & rs & _ & Href & _ & _ & _ & _ & _ & _ & _ & _ & _ & _ & _ & Ht & Hmo).
  unfold validate_runtime_references in Href. apply bind_Ok in Href as ([] & H1 & H2).
  apply forM_result_Ok in H1, H2. rewrite Ht, Hmo. rewrite !Forall_forall in *.
  split; intros r Hr.
  - pose proof (H1 _ Hr) as Ha. apply filter_In in Hr as [Hin He].
    apply list_elem_of_In in Hin. case_bool_decide as Hav; [done|]. done.
  - pose proof (H2 _ Hr) as Ha. apply filter_In in Hr as [Hin He]. apply list_elem_of_In in Hin.
    destruct (existsb _ _) eqn:Hex in Ha; [|done]. apply existsb_exists in Hex as (a & Hain & Hav).
    unfold module_available in Hav. rewrite !andb_true_iff, !str_eqb_eq in Hav.
    repeat (split; [done|]). exists a. apply list_elem_of_In in Hain. naive_solver.
Qed.

(** ** Cache points *)

(** The points resolved so far address distinct messages of the right role. *)
Definition points_ok (messages : list ChatMessage) (points : list CachePoint) : Prop :=
  Forall (fun c => 1 <= cache_depth c <= 16 /\
                   Z.of_nat (cache_message_index c) = len messages - cache_depth c /\
                   exists m, messages !! cache_message_index c = Some m /\
                     role m = message_role (cache_role c)) points /\
  NoDup (map cache_message_index points).

Lemma resolve_points_ok messages pendings targets points targets' points' :
  foldM_result (resolve_cache_point messages) (targets, points) pendings = Ok (targets', points') ->
  Forall (fun p => 0 <= pending_depth p) pendings ->
  (forall i, i ∈ map cache_message_index points -> i ∈ targets) -> points_ok messages points ->
  points_ok messages points' /\
  map cache_block_index points' = map cache_block_index points ++ map pending_block_index pendings.
Proof.
  revert targets points. induction pendings as [|pd pds IH]; intros targets points Hf Hd Ht Hok; cbn in Hf.
  { injection Hf as _ <-. split; [done|]. by rewrite app_nil_r. }
  apply bind_Ok in Hf as ([t1 p1] & H1 & Hf). inversion Hd as [|? ? Hd1 Hds]; subst.
  unfold resolve_cache_point in H1. destruct (_ || _ || _) eqn:Hr in H1; [done|].
  set (i := Z.to_nat (len messages - pending_depth pd)) in *.
  case_bool_decide as Hi; [done|].
  destruct (messages !! i) as [m|] eqn:Hm.
  2: { apply lookup_ge_None in Hm. unfold i, len in *. lia. }
  case_bool_decide as Hrole; [done|]. injection H1 as <- <-.
  apply IH in Hf as [Hok' Hb]; [|done|..].
  - split; [done|]. rewrite Hb, map_app, <- app_assoc. done.
  - intros j Hj. rewrite map_app, elem_of_app in Hj. cbn in Hj.
    rewrite list_elem_of_singleton in Hj. destruct Hj as [Hj| ->]; [right; by apply Ht|left].
  - destruct Hok as [Hall Hnd]. split.
    + apply Forall_app. split; [done|]. constructor; [|constructor]. cbn.
      split; [lia|]. split; [unfold i; lia|]. exists m. done.
    + rewrite map_app. apply list.NoDup_app. split; [done|]. split; [|apply NoDup_singleton].
      intros j Hj. cbn. rewrite list_elem_of_singleton. intros ->. by apply Hi, Ht.
Qed.

(** ** Requests *)

(** C24: From a preset to the wire.  When a compiled prompt becomes a provider request,
    the system prompt and the conversation read back from the JSON body are those of
    the prompt's specified messages after the request transforms; the exact count the
    tokenizer gave for that very request plus the reserved output fits the context;
    the output limit sent is the model's; and no cache point, tool or module was
    silently dropped. *)
Theorem prompt_reaches_the_wire `{PromptRegexLib} {Num} `{ProviderJson Num}
    (counter : ProviderRequest Num -> CompiledProviderRequest Num -> result ExactTokenCountError Z)
    (preset : PromptPreset) (input : PromptCompileInput) p (model : ModelPresetSnapshot Num) q :
  compile_prompt preset input = Ok p -> Forall selection_ok (blocks preset) ->
  compile_prompt_request counter p model = Ok q ->
  (exists vars pre rs,
     merged_variables preset input = Ok vars /\ spec_messages input vars preset = Ok pre /\
     Forall2 compiled_from (List.filter (active TargetRequest) (regex (advanced preset))) rs /\
     let sent_messages := map (transformed rs) (map snd pre) in
     read_conversation (m_provider model) (body (compiled_provider_request q)) =
     Some (spec_system sent_messages,
           spec_conversation sent_messages (role_policy (m_generation model)))) /\
  counter (provider_request q) (compiled_provider_request q) = Ok (input_tokens q) /\
  input_tokens q + capacity_max_output_tokens (capacity model) <= max_context_tokens (capacity model) /\
  max_output_tokens (generation (provider_request q)) =
    Some (capacity_max_output_tokens (capacity model)) /\
  List.filter tool_enabled (tools (advanced preset)) = [] /\
  List.filter module_enabled (modules (advanced preset)) = [] /\
  cache_points p = [].
Proof.
  intros Hc Hsel Hq. destruct (compile_prompt_inv _ _ _ Hc Hsel)
    as (vars & st & pre & rs & _ & _ & Hv & Hp & Hr & _ & _ & _ & _ & _ & Hm & _ & _ & Ht & Hmo).
  unfold compile_prompt_request in Hq. apply bind_Ok in Hq as ([request' compiled'] & Hprep & Hq).
  apply bind_Ok in Hq as (count & Hcount & Hq). apply bind_Ok in Hq as ([] & Hcap & Hq). injection Hq as <-.
  unfold prepare_prompt_request in Hprep. apply bind_Ok in Hprep as ([] & _ & Hprep).
  do 6 (case_match; [done|]). apply bind_Ok in Hprep as (compiled & Hcomp & Hprep). injection Hprep as <- <-.
  cbn [provider_request compiled_provider_request input_tokens].
  set (request := mkRequest _ _ _ _ _ _ _) in *.
  destruct (compile_request request) as [c|] eqn:Hreq; [|done]. injection Hcomp as <-.
  destruct (counter request c) as [n|] eqn:Hn; [|done]. injection Hcount as <-.
  apply body_reads_back in Hreq. cbn [provider] in Hreq.
  split.
  { exists vars, pre, rs. rewrite <- Hm. repeat (split; [done|]). cbn zeta.
    cbn [messages request provider generation] in Hreq. rewrite Hreq.
    do 3 f_equal. by destruct (prompt_sampling p). }
  split; [done|]. unfold validate_context_capacity in Hcap.
  apply bind_Ok in Hcap as (required & Hreqd%ok_or_Ok%checked_add_Some & Hcap).
  case_match; [done|]. split; [lia|]. split; [cbn; by destruct (prompt_sampling p)|].
  rewrite <- Ht, <- Hmo. rewrite !negb_false_iff, !is_empty_true in *. done.
Qed.
