(* ===== verification/PromptImport.v ===== *)
(** * Prompts: portable presets

    Models [crates/lorepia-prompt/src/import.rs] and the [Deserialize] of a preset in
    [schema.rs]: the bounded, duplicate-free reading of the JSON, the versioned
    envelope, and the removal of execution authority from imported data.

    [serde_json] is a parameter ([PromptImportLib]): the tokenizer gives a tree whose
    objects keep their members in document order, duplicates included, which the
    crate's visitor turns into a value; the derived decoder of the wire struct gives
    a preset; the pretty printer gives bytes. *)

From stdpp Require Import pretty.
From S2P Require Import Prelude Bytes Utf8 Json ProviderConfig ProviderCompile PromptTemplate PromptSchema PromptRegexFacts PromptValidate PromptCompile PromptCompileFacts.

Class PromptImportLib (Num : Type) : Type := {
  json_tree : bytes -> option (Value Num);
  decode_wire : Value Num -> option PromptPreset;
  number_as_u64 : Num -> option Z;
  encode_preset : PromptPreset -> Value Num;
  number_of_u32 : Z -> Num;
  to_vec_pretty : Value Num -> option bytes;
}.

Definition IMPORT_FORMAT : str := lit "lorepia.prompt-preset".
Definition IMPORT_SCHEMA_VERSION : Z := 1.
Definition MAX_JSON_DEPTH : Z := 16.
Definition MAX_JSON_NODES : Z := 16384.

Definition disable_tool (t : ToolReference) : ToolReference := mkToolReference (tool_id t) false.
Definition disable_module (m : ModuleReference) : ModuleReference :=
  mkModuleReference (module_id m) (module_version m) (digest_sha256 m) false.
Definition disable_rule (r : RegexRule) : RegexRule :=
  mkRule (rule_name r) false (target r) (pattern r) (replacement r) (flags r).

(** The three loops that clear [enabled]. *)
Definition without_authority (preset : PromptPreset) : PromptPreset :=
  let a := advanced preset in
  mkPreset (preset_name preset) (blocks preset) (sampling preset)
    (mkAdvanced (template_settings a) (map disable_tool (tools a)) (map disable_rule (regex a))
       (map disable_module (modules a))).

(** ** Reading JSON without duplicate keys *)

(** [ParseBudget::charge]: the nodes counted so far. *)
Definition charge_node (depth nodes : Z) : option Z :=
  if depth >? MAX_JSON_DEPTH then None
  else
    nodes ← checked_add USIZE_MAX nodes 1;
    if nodes >? MAX_JSON_NODES then None else Some nodes.

Section import.
Context {Num : Type} `{PromptImportLib Num} `{PromptRegexLib}.

Fixpoint unique_value (depth : Z) (raw : Value Num) (nodes : Z) : option (Value Num * Z) :=
  nodes ← charge_node depth nodes;
  match raw with
  | Array items =>
      let fix visit_seq (items : list (Value Num)) (values : list (Value Num)) (nodes : Z) :=
        match items with
        | [] => Some (Array values, nodes)
        | item :: items' =>
            '(value, nodes) ← unique_value (depth + 1) item nodes;
            visit_seq items' (values ++ [value]) nodes
        end in
      visit_seq items [] nodes
  | Object members =>
      let fix visit_map (members values : list (str * Value Num)) (nodes : Z) :=
        match members with
        | [] => Some (Object values, nodes)
        | (key, item) :: members' =>
            if contains_key values key then None
            else
              '(value, nodes) ← unique_value (depth + 1) item nodes;
              visit_map members' (map_insert values key value) nodes
        end in
      visit_map members [] nodes
  | scalar => Some (scalar, nodes)
  end.

(** ** The envelope *)

Definition closed_schema : PromptError :=
  PromptImport (lit "prompt import does not match the closed schema").

(** [Deserialize for PromptPreset]. *)
Definition decode_preset (value : Value Num) : option PromptPreset :=
  without_authority <$> decode_wire value.

Definition decode_v1 (value : Value Num) : VResult PromptPreset :=
  ok_or (decode_preset value) closed_schema.

Definition as_u32 (value : Value Num) : option Z :=
  match value with
  | Number n => version ← number_as_u64 n; if version <=? U32_MAX then Some version else None
  | _ => None
  end.

Definition unsupported_version (version : Z) : PromptError :=
  PromptImport (lit "unsupported schema version " ++ lit (pretty version) ++ lit "; expected "
    ++ lit (pretty IMPORT_SCHEMA_VERSION)).

Definition decode_versioned_envelope (value : Value Num) : VResult PromptPreset :=
  match value with
  | Object envelope =>
      if negb (len envelope =? 3) || negb (contains_key envelope (lit "format"))
         || negb (contains_key envelope (lit "schemaVersion"))
         || negb (contains_key envelope (lit "preset"))
      then Err closed_schema
      else
        format ← ok_or (map_get envelope (lit "format") ≫= as_str) closed_schema;
        if negb (str_eqb format IMPORT_FORMAT)
        then Err (PromptImport (lit "unsupported prompt import format"))
        else
          version ← ok_or (map_get envelope (lit "schemaVersion") ≫= as_u32) closed_schema;
          preset ← ok_or (map_get envelope (lit "preset")) closed_schema;
          if version =? 1 then decode_v1 preset else Err (unsupported_version version)
  | _ => Err closed_schema
  end.

Definition import_preset (bytes : bytes) : VResult PromptPreset :=
  if len bytes >? MAX_IMPORT_BYTES
  then Err (PromptPayloadTooLarge (lit "prompt import") MAX_IMPORT_BYTES)
  else
    raw ← ok_or (json_tree bytes) PromptJson;
    '(value, _) ← ok_or (unique_value 1 raw 0) PromptJson;
    preset ← decode_versioned_envelope value;
    let preset := without_authority preset in
    _ ← validate_preset preset;
    mret preset.

Definition export_preset (preset : PromptPreset) : VResult bytes :=
  _ ← validate_preset preset;
  bytes ← ok_or (to_vec_pretty (Object
            [(lit "format", Str IMPORT_FORMAT);
             (lit "schemaVersion", Number (number_of_u32 IMPORT_SCHEMA_VERSION));
             (lit "preset", encode_preset preset)])) PromptJson;
  if len bytes >? MAX_IMPORT_BYTES
  then Err (PromptPayloadTooLarge (lit "prompt export") MAX_IMPORT_BYTES)
  else Ok bytes.

(** ** What an import can do *)

Definition inert (preset : PromptPreset) : Prop :=
  Forall (fun t => tool_enabled t = false) (tools (advanced preset)) /\
  Forall (fun m => module_enabled m = false) (modules (advanced preset)) /\
  Forall (fun r => rule_enabled r = false) (regex (advanced preset)).

Lemma without_authority_inert preset : inert (without_authority preset).
Proof. repeat split; cbn; apply Forall_forall; intros x Hx; apply in_map_iff in Hx as (y & <- & _); done. Qed.

Lemma filter_false {A} (f : A -> bool) l : Forall (fun x => f x = false) l -> List.filter f l = [].
Proof. induction 1 as [|x l Hx Hl IH]; [done|]. cbn. by rewrite Hx. Qed.

Lemma transform_nil text : transform [] text = text.
Proof. done. Qed.

Lemma map_transformed_nil l : map (transformed []) l = l.
Proof. induction l as [|[r c] l IH]; [done|]. cbn [map]. by rewrite IH. Qed.
End import.

(** Portable data cannot grant itself authority: an imported preset passes the full
    validation, and whatever it says, a prompt compiled from it activates no tool and
    no module and its messages are those of the blocks with no transform applied. *)
Theorem imported_preset_is_inert {Num} `{PromptImportLib Num} `{PromptRegexLib} (data : bytes)
    (preset : PromptPreset) (input : PromptCompileInput) (p : CompiledPrompt) :
  import_preset data = Ok preset -> Forall selection_ok (blocks preset) ->
  compile_prompt preset input = Ok p ->
  validate_preset preset = Ok tt /\ active_tools p = [] /\ active_modules p = [] /\
  exists vars pre, merged_variables preset input = Ok vars /\
    spec_messages input vars preset = Ok pre /\ prompt_messages p = map snd pre.
Proof.
  unfold import_preset. intros Hi Hsel Hc. case_match; [done|].
  apply bind_Ok in Hi as (raw & _ & Hi). apply bind_Ok in Hi as ([value n] & _ & Hi).
  apply bind_Ok in Hi as (decoded & _ & Hi). apply bind_Ok in Hi as ([] & Hv & Hi). injection Hi as <-.
  destruct (without_authority_inert decoded) as (Ht & Hm & Hr).
  destruct (compile_prompt_inv _ _ _ Hc Hsel) as (vars & st & pre & rs & _ & _ & Hvars & Hpre & Hrs &
    _ & _ & _ & _ & _ & Hmsgs & _ & _ & Hat & Ham).
  split; [done|]. rewrite Hat, Ham, (filter_false _ _ Ht), (filter_false _ _ Hm).
  repeat (split; [done|]). exists vars, pre. repeat (split; [done|]).
  rewrite filter_false in Hrs.
  - inversion Hrs; subst. by rewrite Hmsgs, map_transformed_nil.
  - eapply Forall_impl; [|exact Hr]. intros rule Hrule. unfold active. by rewrite Hrule.
Qed.
