(* ===== verification/PromptExamples.v ===== *)
(** * Prompts: a concrete preset

    Instances of the parameters of the prompt files, a preset compiled from them to a
    provider request, and the witnesses of the theorems that have hypotheses. *)

From S2P Require Import Prelude Bytes Utf8 Float64 Json ProviderConfig ProviderCompile ProviderCompileFacts PromptTemplate PromptSchema PromptRegexFacts PromptValidate PromptCompile PromptCompileFacts PromptImport.

Module PromptExample.
Import ProviderExample.

(** A regex engine whose patterns are literal texts. *)
Fixpoint occurrences (needle : str) (pos skip : nat) (text : str) : list Captures :=
  match text with
  | [] => []
  | _ :: text' =>
      match skip with
      | S skip' => occurrences needle (S pos) skip' text'
      | O =>
          if starts_with text needle
          then [Some (pos, pos + length needle)%nat] :: occurrences needle (S pos) (length needle - 1) text'
          else occurrences needle (S pos) O text'
      end
  end.

#[export] Instance literal_regex : PromptRegexLib := {|
  Regex := str;
  regex_build pattern _ := if is_empty pattern then None else Some pattern;
  captures_len _ := 1;
  captures_iter needle text := occurrences needle 0 0 text;
|}.

Definition no_sampling : PromptSampling := mkSampling None None None None None None None None [] None.

Definition every_match : RegexFlags := mkFlags true false false true false.

Definition preset : PromptPreset :=
  mkPreset (lit "Story")
    [Raw (lit "main") true PSystem (Some Main) (lit "You are ${char}.");
     Persona (lit "persona") true PSystem (Custom (lit "The user: ${value}"));
     Chat (lit "history") true (mkSelection 1 EndOfChat);
     Lorebook (lit "lore") true PUser Plain]
    no_sampling
    (mkAdvanced (mkTemplateSettings None None [(lit "char", lit "Mira")]) []
       [mkRule (lit "money") true TargetRequest (lit "gold") (lit "$$${0}") every_match;
        mkRule (lit "off") false TargetRequest (lit "Mira") (lit "X") every_match] []).

Definition input : PromptCompileInput :=
  mkCompileInput
    [mkChatMessage User (lit "first"); mkChatMessage User (lit "gold or gold?");
     mkChatMessage Assistant (lit "Both.")]
    (lit "rich in ${char}") [] None [] [] [] [] ∅ [] Classic.

Definition empty_prompt : CompiledPrompt := mkCompiledPrompt [] [] [] [] [] None (mkTokenCount 0 None).

Definition prompt : CompiledPrompt :=
  Eval vm_compute in match compile_prompt preset input with Ok p => p | Err _ => empty_prompt end.

Example preset_compiles : compile_prompt preset input = Ok prompt.
Proof. vm_compute. reflexivity. Qed.

(** The persona is data: its [${char}] is not expanded; the disabled rule did not run. *)
Example prompt_shows :
  prompt_messages prompt =
  [mkChatMessage System (lit "You are Mira.");
   mkChatMessage System (lit "The user: rich in ${char}");
   mkChatMessage User (lit "$gold or $gold?");
   mkChatMessage Assistant (lit "Both.")].
Proof. reflexivity. Qed.

Lemma selections_ok : Forall selection_ok (blocks preset).
Proof. repeat constructor; done. Qed.

Lemma compile_prompt_spec_witness :
  exists vars pre rs,
    merged_variables preset input = Ok vars /\ spec_messages input vars preset = Ok pre /\
    Forall2 compiled_from (List.filter (active TargetRequest) (regex (advanced preset))) rs /\
    source_map prompt = map fst pre /\ prompt_messages prompt = map (transformed rs) (map snd pre).
Proof. exact (compile_prompt_spec preset input prompt preset_compiles selections_ok). Defined.

Lemma compiled_prompt_is_sendable_witness : validate_messages (prompt_messages prompt) = Ok tt.
Proof. exact (compiled_prompt_is_sendable preset input prompt preset_compiles selections_ok). Defined.

Lemma active_references_are_available_witness :
  active_tools prompt = [] /\
  Forall (fun t => t ∈ tools (advanced preset) /\ tool_enabled t = true /\
                   tool_id t ∈ available_tool_ids input) (active_tools prompt).
Proof.
  split; [reflexivity|].
  exact (proj1 (active_references_are_available preset input prompt preset_compiles selections_ok)).
Defined.

Lemma text_transforms_spec_witness :
  exists rs : list CompiledRule,
    Forall2 compiled_from (List.filter (active TargetRequest) (regex (advanced preset))) rs /\
    lit "a $gold coin" = transform rs (lit "a gold coin") /\ len (lit "a $gold coin") <= MAX_TEXT_BYTES.
Proof.
  exact (text_transforms_spec preset TargetRequest (lit "a gold coin") (lit "a $gold coin") eq_refl).
Defined.

Lemma parse_replacement_roundtrip_witness :
  print_parts [Literal (lit "cost "); Dollar; Capture 12] = lit "cost $$${12}" /\
  Forall part_ok [Literal (lit "cost "); Dollar; Capture 12].
Proof.
  apply (parse_replacement_roundtrip (lit "rule") (lit "cost $$${12}")). vm_compute. reflexivity.
Defined.

(** ** A request *)

Definition model : ModelPresetSnapshot Z :=
  mkSnapshot OpenAi (lit "gpt") (mkCapacity 4096 512) (OpenAiOpts (mkOpenAiOptions None None None))
    None [] no_options.

Definition counter (_ : ProviderRequest Z) (c : CompiledProviderRequest Z) :
    result ExactTokenCountError Z :=
  match json_to_vec (body c) with
  | Some bytes => Ok (len bytes)
  | None => Err (mkCountError CountUnavailable [] [] None false)
  end.

Definition request_or (r : VResult (CompiledPromptRequest Z)) : option (CompiledPromptRequest Z) :=
  match r with Ok q => Some q | Err _ => None end.

Lemma prompt_reaches_the_wire_witness :
  match compile_prompt_request counter prompt model with
  | Ok q => input_tokens q + 512 <= 4096
  | Err _ => False
  end.
Proof.
  destruct (compile_prompt_request counter prompt model) as [q|e] eqn:Hq.
  - exact (proj1 (proj2 (proj2 (prompt_reaches_the_wire counter preset input prompt model q
      preset_compiles selections_ok Hq)))).
  - apply (f_equal request_or) in Hq. vm_compute in Hq. discriminate.
Defined.

(** ** An import *)

Definition document : Value Z :=
  Object [(lit "format", Str IMPORT_FORMAT); (lit "preset", Str (lit "story"));
          (lit "schemaVersion", Number 1)].

(** One document, holding the preset above with everything enabled. *)
#[export] Instance one_document : PromptImportLib Z := {|
  json_tree data := if str_eqb data (lit "story.json") then Some document else None;
  decode_wire value := match value with Str _ => Some preset | _ => None end;
  number_as_u64 n := if 0 <=? n then Some n else None;
  encode_preset _ := Str (lit "story");
  number_of_u32 := id;
  to_vec_pretty v := Some (print v);
|}.

Definition imported : PromptPreset := without_authority preset.

Definition imported_prompt : CompiledPrompt :=
  Eval vm_compute in match compile_prompt imported input with Ok p => p | Err _ => empty_prompt end.

Lemma imported_preset_is_inert_witness :
  import_preset (lit "story.json") = Ok imported /\ active_tools imported_prompt = [] /\
  validate_preset imported = Ok tt.
Proof.
  assert (Hi : import_preset (lit "story.json") = Ok imported) by (vm_compute; reflexivity).
  assert (Hs : Forall selection_ok (blocks imported)) by (repeat constructor; done).
  assert (Hc : compile_prompt imported input = Ok imported_prompt) by (vm_compute; reflexivity).
  destruct (imported_preset_is_inert (lit "story.json") imported input imported_prompt Hi Hs Hc)
    as (Hv & Ht & _).
  exact (conj Hi (conj Ht Hv)).
Defined.
End PromptExample.
