(* ===== verification/TokenCount.v ===== *)
(** * Provider runtime: exact token counting

    Models [token_count.rs]: the request that asks a provider how many input tokens a
    compiled request has, and the reading of its answer.  The network is a list of
    arguments: what the DNS and the HTTP client do, and whether the count is interrupted
    by cancellation or its timeout.  A count returns the requests it handed to the
    client, with its result. *)

From stdpp Require Import pretty.
From stdpp Require Import sorting.
From S2P Require Import Prelude Sorting Bytes Utf8 Json Url ProviderConfig ProviderCompile ProviderCompileFacts RuntimeError Endpoint Runner HttpSend PromptTemplate.

Abbreviation CResult := (result ExactTokenCountError).

Definition JSON_CONTENT_TYPE : str := lit "application/json".

(** ** Errors *)

Definition ExactTokenCountError_new (kind : ExactTokenCountErrorKind) (code message : str) : ExactTokenCountError :=
  mkCountError kind code message None false.

Definition count_error_retriable (self : ExactTokenCountError) (b : bool) : ExactTokenCountError :=
  mkCountError (count_kind self) (count_code self) (count_message self) (count_http_status self) b.

Definition count_error_status (self : ExactTokenCountError) (status : Z) : ExactTokenCountError :=
  mkCountError (count_kind self) (count_code self) (count_message self) (Some status) (count_retriable self).

Definition unavailable (code : string) (message : str) : ExactTokenCountError :=
  ExactTokenCountError_new CountUnavailable (lit code) message.

Definition invalid_response (code message : string) : ExactTokenCountError :=
  ExactTokenCountError_new CountInvalidResponse (lit code) (lit message).

Definition cancelled : ExactTokenCountError :=
  ExactTokenCountError_new CountCancelled (lit "EXACT_TOKEN_COUNT_CANCELLED")
    (lit "provider token counting was cancelled").

Definition count_timeout : ExactTokenCountError :=
  count_error_retriable (ExactTokenCountError_new CountTimeout (lit "EXACT_TOKEN_COUNT_TIMEOUT")
    (lit "provider token counting exceeded the runtime timeout")) true.

Definition count_kind_of (kind : RuntimeErrorKind) : ExactTokenCountErrorKind :=
  match kind with
  | Cancelled => CountCancelled
  | Timeout => CountTimeout
  | HttpStatus => CountHttpStatus
  | Http | DnsResolution | UnsafeEndpoint => CountTransport
  | InvalidRequest | InvalidEndpoint | CredentialMismatch | InvalidCredential => CountInvalidRequest
  | UnexpectedContentType | StreamTooLarge | StreamProtocol | Provider | ConsumerClosed => CountInvalidResponse
  end.

Definition map_runtime_error (error : RuntimeError) : ExactTokenCountError :=
  let mapped := count_error_retriable
    (ExactTokenCountError_new (count_kind_of (kind error)) (code error) (message error)) (is_retriable error) in
  match http_status error with Some status => count_error_status mapped status | None => mapped end.

Definition is_retriable_status (status : Z) : bool :=
  existsb (Z.eqb status) [408; 425; 429; 500; 502; 503; 504].

(** ** The counting request *)

Inductive CountResponseKind : Type := CountOpenAi | CountGoogle.

Record CountSpec (Num : Type) : Type := mkCountSpec {
  spec_path : str;
  spec_body : Value Num;
  response_kind : CountResponseKind;
}.
Arguments mkCountSpec {Num}.
Arguments spec_path {Num}.
Arguments spec_body {Num}.
Arguments response_kind {Num}.

Section spec.
Context {Num : Type}.
Implicit Types (request : ProviderRequest Num) (compiled : CompiledProviderRequest Num).

Definition listed (names : list string) (key : str) : bool := existsb (fun n => str_eqb key (lit n)) names.

Definition OPENAI_INCLUDED : list string :=
  ["model"; "input"; "instructions"; "parallel_tool_calls"; "personality"; "previous_response_id"; "reasoning";
   "text"; "tool_choice"; "tools"; "truncation"].

Definition OPENAI_NON_INPUT : list string :=
  ["stream"; "store"; "temperature"; "max_output_tokens"; "top_p"; "prompt_cache_key"; "prompt_cache_retention";
   "service_tier"].

Definition VERTEX_INCLUDED : list string := ["contents"; "tools"; "systemInstruction"; "generationConfig"].
Definition VERTEX_NON_INPUT : list string := ["safetySettings"; "serviceTier"; "store"; "toolConfig"].

(** The loop over the members of the body: those that count are copied, those known not
    to count are left out, and any other is an error. *)
Definition project_member (name : string) (included non_input : list string) (count : list (str * Value Num))
    (member : str * Value Num) : CResult (list (str * Value Num)) :=
  if listed included member.1 then Ok (map_insert count member.1 member.2)
  else if negb (listed non_input member.1)
  then Err (unavailable "EXACT_TOKEN_FIELD_UNMAPPED"
              (lit name ++ lit " token counting has no reviewed mapping for field " ++ member.1))
  else Ok count.

Definition shape_invalid (message : string) : ExactTokenCountError :=
  invalid_response "EXACT_TOKEN_WIRE_SHAPE_INVALID" message.

Definition openai_count_body (body : Value Num) : CResult (Value Num) :=
  object ← ok_or (as_object body) (shape_invalid "OpenAI compiled request body was not an object");
  count ← foldM_result (project_member "OpenAI" OPENAI_INCLUDED OPENAI_NON_INPUT) [] object;
  if negb (contains_key count (lit "model")) || negb (contains_key count (lit "input"))
  then Err (shape_invalid "OpenAI compiled request lacked model or input")
  else Ok (Object count).

Definition vertex_count_spec request compiled : CResult (CountSpec Num) :=
  match provider_options request with
  | GoogleVertexAiOpts options =>
      object ← ok_or (as_object (ProviderCompile.body compiled))
                 (shape_invalid "Vertex compiled request body was not an object");
      if contains_key object (lit "cachedContent")
      then Err (unavailable "EXACT_TOKEN_CACHED_CONTENT_UNAVAILABLE"
                  (lit "the reviewed Vertex token-count contract cannot account for cached content"))
      else
        let resource := lit "projects/" ++ project_id options ++ lit "/locations/" ++ location options ++
                        lit "/publishers/google/models/" ++ model_id request in
        body ← foldM_result (project_member "Vertex" VERTEX_INCLUDED VERTEX_NON_INPUT)
                 [(lit "model", Str resource)] object;
        if negb (contains_key body (lit "contents"))
        then Err (shape_invalid "Vertex compiled request lacked contents")
        else Ok (mkCountSpec (lit "/v1beta1/" ++ resource ++ lit ":countTokens") (Object body) CountGoogle)
  | _ => Err (invalid_response "EXACT_TOKEN_PROVIDER_OPTIONS_MISMATCH"
                "Vertex request did not contain Vertex provider options")
  end.

Definition build_count_spec request compiled : CResult (CountSpec Num) :=
  if negb (bool_decide (provider request = c_provider compiled))
  then Err (invalid_response "EXACT_TOKEN_PROVIDER_MISMATCH" "logical and compiled provider requests did not match")
  else
    match provider request with
    | OpenAi =>
        body ← openai_count_body (ProviderCompile.body compiled);
        mret (mkCountSpec (lit "/v1/responses/input_tokens") body CountOpenAi)
    | GoogleGemini =>
        generate_request ← ok_or (as_object (ProviderCompile.body compiled))
                             (shape_invalid "Gemini compiled request body was not an object");
        let generate_request :=
          map_insert generate_request (lit "model") (Str (lit "models/" ++ model_id request)) in
        mret (mkCountSpec (lit "/v1beta/models/" ++ model_id request ++ lit ":countTokens")
                (Object [(lit "generateContentRequest", Object generate_request)]) CountGoogle)
    | GoogleVertexAi => vertex_count_spec request compiled
    | Anthropic =>
        Err (unavailable "EXACT_TOKEN_COUNT_IS_ESTIMATE"
               (lit "Anthropic documents its token counting result as an estimate"))
    | DeepSeek =>
        Err (unavailable "EXACT_TOKEN_PREFLIGHT_UNAVAILABLE"
               (lit "DeepSeek exposes post-generation usage and an offline estimate, not an authoritative preflight"))
    | OllamaCloud =>
        Err (unavailable "EXACT_TOKEN_PREFLIGHT_UNAVAILABLE"
               (lit "Ollama Cloud exposes post-generation usage, not an authoritative preflight"))
    end.
End spec.

(** ** The answer *)

(** What [serde_json] reads from an answer: the fields [object] and [input_tokens], and
    [totalTokens]. *)
Class CountJson : Type := {
  parse_openai_count : bytes -> option (str * Z);
  parse_google_count : bytes -> option Z;
}.

(** What the body stream gives; at the end of the list it is exhausted. *)
Inductive CountInput : Type := CountChunk (bs : bytes) | CountReadFailed | CountInterrupted.

Fixpoint read_bounded_json (maximum : Z) (bytes : bytes) (inputs : list CountInput) : CResult Bytes.bytes :=
  match inputs with
  | [] => Ok bytes
  | CountInterrupted :: _ => Err cancelled
  | CountReadFailed :: _ =>
      Err (count_error_retriable (ExactTokenCountError_new CountTransport (lit "EXACT_TOKEN_RESPONSE_READ_FAILED")
             (lit "provider token counting response could not be read")) true)
  | CountChunk chunk :: inputs' =>
      if saturating_add USIZE_MAX (len bytes) (len chunk) >? maximum
      then Err (invalid_response "EXACT_TOKEN_RESPONSE_TOO_LARGE"
                  "provider token counting response exceeded the runtime byte limit")
      else read_bounded_json maximum (bytes ++ chunk) inputs'
  end.

Section answer.
Context (to_str : bytes -> option str) `{CountJson}.

Definition validate_json_content_type (headers : Headers) : CResult unit :=
  let raw := default [] (header_get headers (lit "content-type") ≫= to_str) in
  let content_type := to_ascii_lowercase (trim (default [] (head (split_on (byte_of 59) raw)))) in
  if str_eqb content_type JSON_CONTENT_TYPE then Ok tt
  else Err (invalid_response "EXACT_TOKEN_CONTENT_TYPE_INVALID"
              "provider token counting success response was not JSON").

Definition parse_count_response (kind : CountResponseKind) (bytes : bytes) : CResult Z :=
  count ←
    match kind with
    | CountOpenAi =>
        '(object, input_tokens) ← ok_or (parse_openai_count bytes)
          (invalid_response "EXACT_TOKEN_RESPONSE_INVALID"
             "OpenAI token counting response did not match the reviewed schema");
        if negb (str_eqb object (lit "response.input_tokens"))
        then Err (invalid_response "EXACT_TOKEN_RESPONSE_INVALID"
                    "OpenAI token counting response had an unexpected object type")
        else Ok input_tokens
    | CountGoogle =>
        ok_or (parse_google_count bytes)
          (invalid_response "EXACT_TOKEN_RESPONSE_INVALID"
             "Google token counting response did not match the reviewed schema")
    end;
  if count <=? USIZE_MAX then Ok count
  else Err (invalid_response "EXACT_TOKEN_COUNT_OVERFLOW"
              "provider token count did not fit the local platform integer").

(** ** Counting *)

(** [status.is_success()] *)
Definition is_success (status : Z) : bool := (200 <=? status) && (status <? 300).

(** What [client.execute] gives: no response, or one with the rest of its body. *)
Inductive CountExchange : Type :=
  | CountNoResponse
  | CountResponse (status : Z) (headers : Headers) (body : list CountInput).

(** How [count] is interrupted: before or after its request went out. *)
Inductive Interrupt : Type :=
  | Uninterrupted
  | CountCancelledAt (request_sent : bool)
  | CountTimedOutAt (request_sent : bool).

Record CountNetwork : Type := mkCountNetwork {
  count_dns : str -> Z -> DnsOutcome;
  count_exchange : HttpRequest -> CountExchange;
  count_interrupt : Interrupt;
}.

Context {Num : Type} `{UrlLib, HttpLib, ProviderJson Num}.
Implicit Types (request : ProviderRequest Num) (compiled : CompiledProviderRequest Num).

Definition read_count_response (limits : RuntimeLimits) (kind : CountResponseKind) (exchange : CountExchange) :
    CResult Z :=
  match exchange with
  | CountNoResponse =>
      Err (count_error_retriable (ExactTokenCountError_new CountTransport (lit "EXACT_TOKEN_TRANSPORT_FAILED")
             (lit "provider token counting transport failed")) true)
  | CountResponse status headers body =>
      _ ← map_err map_runtime_error
            (validate_response_metadata to_str headers (max_response_header_count limits)
               (max_response_header_bytes limits));
      if negb (is_success status)
      then Err (count_error_retriable (count_error_status
                  (ExactTokenCountError_new CountHttpStatus (lit "EXACT_TOKEN_HTTP_ERROR")
                     (lit "provider token counting returned HTTP " ++ lit (pretty status))) status)
                  (is_retriable_status status))
      else
        _ ← validate_json_content_type headers;
        bytes ← read_bounded_json (max_token_count_response_bytes limits) [] body;
        parse_count_response kind bytes
  end.

(** [count_inner] up to the request it sends. *)
Definition count_request (limits : RuntimeLimits) (dns : str -> Z -> DnsOutcome)
    (selection : EndpointSelection) (credential : ProviderCredential) request compiled :
    CResult (CountSpec Num * HttpRequest) :=
  spec ← build_count_spec request compiled;
  endpoint ← map_err map_runtime_error (resolve_endpoint dns request compiled selection);
  let url := clear_query (set_path (endpoint_url endpoint) (spec_path spec)) in
  let endpoint := mkResolvedEndpoint url (endpoint_host endpoint) (pinned_addresses endpoint) (is_override endpoint) in
  _ ← map_err map_runtime_error
        (validate_credential_scope (provider request) endpoint (credential_scope credential));
  body ← ok_or (json_to_vec (spec_body spec))
           (invalid_response "EXACT_TOKEN_REQUEST_SERIALIZATION_FAILED"
              "token counting request could not be serialized");
  if len body >? max_request_body_bytes limits
  then Err (ExactTokenCountError_new CountInvalidRequest (lit "EXACT_TOKEN_REQUEST_TOO_LARGE")
              (lit "token counting request exceeded the runtime byte limit"))
  else
    '(host, addresses) ← map_err map_runtime_error (build_secure_client endpoint);
    let headers := header_insert (lit "accept") JSON_CONTENT_TYPE [] in
    let headers := header_insert (lit "accept-encoding") (lit "identity") headers in
    let headers := header_insert (lit "content-type") JSON_CONTENT_TYPE headers in
    headers ← insert_static_headers (invalid_response "INVALID_STATIC_HEADER") headers (static_headers compiled);
    headers ← map_err map_runtime_error
                (attach_credential headers (auth_scheme compiled) (secret credential));
    if request_builds url headers body
    then Ok (spec, mkHttpRequest url host addresses headers body)
    else Err (invalid_response "EXACT_TOKEN_HTTP_REQUEST_BUILD_FAILED"
                "token counting HTTP request could not be built").

(** The requests a count hands to the client, and its result. *)
Definition count_inner (limits : RuntimeLimits) (network : CountNetwork) (selection : EndpointSelection)
    (credential : ProviderCredential) request compiled : list HttpRequest * CResult Z :=
  match count_request limits (count_dns network) selection credential request compiled with
  | Err e => ([], Err e)
  | Ok (spec, http_request) =>
      ([http_request], read_count_response limits (response_kind spec) (count_exchange network http_request))
  end.

Definition is_official (selection : EndpointSelection) : bool :=
  match selection with Official => true | Override _ => false end.

Definition count (limits : RuntimeLimits) (network : CountNetwork) (selection : EndpointSelection)
    (credential : ProviderCredential) request compiled : list HttpRequest * CResult Z :=
  if negb (is_official selection)
  then ([], Err (unavailable "EXACT_TOKEN_OVERRIDE_UNAVAILABLE"
                   (lit "custom endpoints have no reviewed exact-token preflight contract")))
  else
    let '(sent, result) := count_inner limits network selection credential request compiled in
    match count_interrupt network with
    | Uninterrupted => (sent, result)
    | CountCancelledAt request_sent => (if request_sent then sent else [], Err cancelled)
    | CountTimedOutAt request_sent => (if request_sent then sent else [], Err count_timeout)
    end.
End answer.

(** * Provider runtime: what is counted

    The request that asks for a count has exactly the members of the compiled body that
    make up the input, and every body the compiler builds on its own can be counted. *)

(** ** Members in key order *)

Section members.
Context {Num : Type}.
Implicit Types members : list (str * Value Num).

Definition keys_sorted members : Prop := StronglySorted (fun a b => str_cmp a b = Lt) (map fst members).

Definition keys_in (names : list string) members : Prop := Forall (fun m => listed names m.1 = true) members.

Lemma str_cmp_Gt_Lt a b : str_cmp a b = Gt -> str_cmp b a = Lt.
Proof. rewrite str_cmp_antisym. by destruct (str_cmp b a). Qed.

Lemma map_insert_keys key value members k :
  k ∈ map fst (map_insert members key value) -> k = key \/ k ∈ map fst members.
Proof.
  induction members as [|[k0 v0] rest IH]; cbn [map_insert]; [set_solver|].
  destruct (str_cmp key k0); cbn [map fst]; set_solver.
Qed.

Lemma map_insert_sorted key value members : keys_sorted members -> keys_sorted (map_insert members key value).
Proof.
  unfold keys_sorted. induction members as [|[k0 v0] rest IH]; cbn [map_insert map fst]; intros Hs.
  { repeat constructor. }
  apply StronglySorted_inv in Hs as [Hs Hall]. destruct (str_cmp key k0) eqn:Hc; cbn [map fst].
  - by constructor.
  - constructor; [by constructor|]. constructor; [done|]. eapply Forall_impl; [|exact Hall].
    intros b Hb. by eapply str_cmp_trans.
  - constructor; [by apply IH|]. apply list.Forall_forall. intros k Hk%map_insert_keys.
    destruct Hk as [->|Hk]; [by apply str_cmp_Gt_Lt|]. rewrite list.Forall_forall in Hall. by apply Hall.
Qed.

Lemma map_insert_in names key value members :
  listed names key = true -> keys_in names members -> keys_in names (map_insert members key value).
Proof.
  unfold keys_in. intros Hk Hm. induction Hm as [|[k0 v0] rest H0 Hm IH]; cbn [map_insert].
  { by repeat constructor. }
  destruct (str_cmp key k0); [by constructor|by repeat constructor|by constructor].
Qed.

Lemma map_get_above members k :
  Forall (fun key => str_cmp k key = Lt) (map fst members) -> map_get members k = None.
Proof.
  induction members as [|[k0 v0] rest IH]; cbn [map map_get fst]; intros Hall; [done|].
  apply Forall_cons_iff in Hall as [Hk Hall]. destruct (str_eqb k0 k) eqn:He; [|by apply IH].
  apply str_eqb_eq in He as ->. by rewrite str_cmp_refl in Hk.
Qed.

Lemma keys_in_get names members k v : keys_in names members -> map_get members k = Some v -> listed names k = true.
Proof.
  intros Hk. induction Hk as [|[k0 v0] rest H0 Hk IH]; cbn [map_get]; [done|].
  destruct (str_eqb k0 k) eqn:He; [|done]. apply str_eqb_eq in He as <-. done.
Qed.

(** The projection keeps exactly the members that are included. *)
Lemma project_members name included non_input members : forall acc count,
  keys_sorted members ->
  foldM_result (project_member name included non_input) acc members = Ok count ->
  (forall key, map_get count key =
     if listed included key then match map_get members key with Some v => Some v | None => map_get acc key end
     else map_get acc key) /\
  Forall (fun m => listed included m.1 || listed non_input m.1 = true) members.
Proof.
  induction members as [|[k v] members IH]; intros acc count Hs Hf; cbn [foldM_result] in Hf.
  { injection Hf as <-. split; [|constructor]. intros key. by destruct (listed _ _). }
  apply StronglySorted_inv in Hs as [Hs Hall]. cbn [fst] in Hall.
  apply bind_Ok in Hf as (acc1 & Hp & Hf). unfold project_member in Hp. cbn [fst snd] in Hp.
  destruct (IH _ _ Hs Hf) as [Hget Hin]. pose proof (map_get_above _ _ Hall) as Hnone.
  destruct (listed included k) eqn:Hk.
  - injection Hp as <-. split; [|constructor; [cbn [fst]; by rewrite Hk|done]]. intros key. rewrite Hget. cbn [map_get].
    rewrite map_get_insert. destruct (str_eqb k key) eqn:He; [|done]. apply str_eqb_eq in He as ->.
    by rewrite Hk, Hnone.
  - destruct (listed non_input k) eqn:Hn; cbn [negb] in Hp; [|done]. injection Hp as <-.
    split; [|constructor; [cbn [fst]; by rewrite Hk, Hn|done]]. intros key. rewrite Hget. cbn [map_get].
    destruct (str_eqb k key) eqn:He; [|done]. apply str_eqb_eq in He as ->. by rewrite Hk.
Qed.

(** A body of known members projects without error. *)
Lemma project_known name included non_input members : forall acc,
  keys_in (included ++ non_input) members ->
  exists count, foldM_result (project_member name included non_input) acc members = Ok count.
Proof.
  induction members as [|[k v] members IH]; intros acc Hk; cbn [foldM_result]; [by eexists|].
  apply Forall_cons_iff in Hk as [Hk Hm]. cbn [fst] in Hk.
  assert (Hor : listed included k || listed non_input k = true) by (by unfold listed in *; rewrite <- existsb_app).
  assert (Hp : exists acc1, project_member name included non_input acc (k, v) = Ok acc1).
  { unfold project_member. cbn [fst snd]. destruct (listed included k); [by eexists|].
    destruct (listed non_input k); [by eexists|done]. }
  destruct Hp as [acc1 ->]. by apply IH.
Qed.
End members.

(** ** Compiled bodies *)

Section bodies.
Context {Num : Type} `{ProviderJson Num}.

Lemma insert_some_sorted {A} name (o : option A) (f : A -> Value Num) body :
  keys_sorted body -> keys_sorted (insert_some name o f body).
Proof. destruct o; [apply map_insert_sorted|done]. Qed.

Lemma insert_named_sorted {A} name (o : option A) (f : A -> Value Num) body :
  keys_sorted body -> keys_sorted (insert_named name o f body).
Proof. destruct name; [apply insert_some_sorted|done]. Qed.

Lemma scalar_fields_sorted body (g : GenerationOptions Num) d :
  keys_sorted body -> keys_sorted (insert_generation_scalar_fields body g d).
Proof. intros Hb. unfold insert_generation_scalar_fields. repeat (apply insert_named_sorted || apply insert_some_sorted). done. Qed.

Ltac sorted_body :=
  repeat first
    [ apply scalar_fields_sorted | apply insert_named_sorted | apply insert_some_sorted | apply map_insert_sorted
    | progress unfold insert | case_match | done | constructor ].

Lemma google_body_sorted (r : ProviderRequest Num) conv t s cc st v members :
  compile_google_body r conv t s cc st v = Ok members -> keys_sorted members.
Proof. unfold compile_google_body. intros Hc. apply bind_Ok in Hc as (? & _ & Hc). injection Hc as <-. sorted_body. Qed.

Lemma compiled_body_sorted (r : ProviderRequest Num) c :
  compile_request r = Ok c -> exists members, ProviderCompile.body c = Object members /\ keys_sorted members.
Proof.
  intros Hc. apply compile_request_inv in Hc as (_ & typed & members & members' & Ht & Hb & Hf & Hbc & _).
  exists members'. split; [done|]. revert Hf. apply (foldM_result_inv keys_sorted).
  - intros m [k v] m' Hm Hp. unfold merge_parameter in Hp. destruct (contains_key _ _); [done|].
    injection Hp as <-. by apply map_insert_sorted.
  - unfold compile_options in Ht. destruct (provider_options r);
      unfold compile_openai, compile_anthropic, compile_deepseek, compile_ollama_cloud, compile_google_gemini,
        compile_google_vertex in Ht;
      repeat (apply bind_Ok in Ht as (? & ? & Ht)); injection Ht as <-; cbn in Hb; injection Hb as <-;
      try (by eapply google_body_sorted); sorted_body.
Qed.

Lemma insert_some_in {A} names name (o : option A) (f : A -> Value Num) body :
  listed names (lit name) = true -> keys_in names body -> keys_in names (insert_some name o f body).
Proof. intros. destruct o; [by apply map_insert_in|done]. Qed.

Lemma insert_named_in {A} names name (o : option A) (f : A -> Value Num) body :
  from_option (fun n => listed names (lit n)) true name = true -> keys_in names body ->
  keys_in names (insert_named name o f body).
Proof. intros Hn Hb. destruct name; [by apply insert_some_in|done]. Qed.

Ltac known_body :=
  repeat first
    [ apply insert_named_in; [reflexivity|] | apply insert_some_in; [reflexivity|]
    | apply map_insert_in; [reflexivity|]
    | progress unfold insert, insert_generation_scalar_fields | case_match | done | constructor ].

(** A member stays present. *)
Definition has (key : string) (body : list (str * Value Num)) : Prop := contains_key body (lit key) = true.

Lemma insert_has_same name value body : has name (insert name value body).
Proof. unfold has, contains_key, insert. by rewrite map_get_insert, str_eqb_refl. Qed.

Lemma insert_has key name value body : has key body -> has key (insert name value body).
Proof.
  unfold has, contains_key, insert. rewrite map_get_insert. by destruct (str_eqb _ _).
Qed.

Lemma insert_some_has {A} key name (o : option A) f body : has key body -> has key (insert_some name o f body).
Proof. destruct o; [apply insert_has|done]. Qed.

Lemma insert_named_has {A} key name (o : option A) f body : has key body -> has key (insert_named name o f body).
Proof. destruct name; [apply insert_some_has|done]. Qed.

Ltac has_member :=
  repeat first
    [ apply insert_has_same | apply insert_named_has | apply insert_some_has | apply insert_has
    | progress unfold insert_generation_scalar_fields | case_match ].

Lemma openai_body_known (r : ProviderRequest Num) o conv c members :
  compile_openai r o conv = Ok c -> ProviderCompile.body c = Object members ->
  keys_in (OPENAI_INCLUDED ++ OPENAI_NON_INPUT) members /\ has "model" members /\ has "input" members.
Proof.
  unfold compile_openai. intros Hc Hb. apply bind_Ok in Hc as (input & _ & Hc). injection Hc as <-.
  cbn [ProviderCompile.body base_compiled] in Hb. injection Hb as <-.
  split; [known_body|]. split; has_member.
Qed.

Lemma google_body_known (r : ProviderRequest Num) conv t s st v members :
  compile_google_body r conv t s None st v = Ok members ->
  keys_in (VERTEX_INCLUDED ++ VERTEX_NON_INPUT) members /\ has "contents" members.
Proof.
  unfold compile_google_body. intros Hc. apply bind_Ok in Hc as (contents & _ & Hc). injection Hc as <-.
  cbn [insert_some]. split; [known_body|has_member].
Qed.
End bodies.

(** C29: What a provider is asked to count is the input that will be sent.  For OpenAI the
    counted document has exactly the members of the compiled body that make up the
    input, with the same values, and every member left out is on the list of those that
    do not count; for Gemini it contains the whole body; for Vertex AI it has the input
    members and the model's resource name, and the body names no cached content.  For
    any other provider there is no counting request. *)
Theorem counted_document_is_the_sent_input {Num} `{ProviderJson Num} (r : ProviderRequest Num) c spec :
  compile_request r = Ok c -> build_count_spec r c = Ok spec ->
  exists members, ProviderCompile.body c = Object members /\
  match provider r with
  | OpenAi =>
      exists counted, spec_body spec = Object counted /\
        (forall key, map_get counted key = if listed OPENAI_INCLUDED key then map_get members key else None) /\
        Forall (fun m => listed OPENAI_INCLUDED m.1 || listed OPENAI_NON_INPUT m.1 = true) members
  | GoogleGemini =>
      spec_body spec = Object [(lit "generateContentRequest",
        Object (map_insert members (lit "model") (Str (lit "models/" ++ model_id r))))]
  | GoogleVertexAi =>
      map_get members (lit "cachedContent") = None /\
      exists counted resource, spec_body spec = Object counted /\
        spec_path spec = lit "/v1beta1/" ++ resource ++ lit ":countTokens" /\
        (forall key, map_get counted key =
           if listed VERTEX_INCLUDED key then map_get members key
           else if str_eqb (lit "model") key then Some (Str resource) else None) /\
        Forall (fun m => listed VERTEX_INCLUDED m.1 || listed VERTEX_NON_INPUT m.1 = true) members
  | _ => False
  end.
Proof.
  intros Hc Hs. destruct (compiled_body_sorted r c Hc) as (members & Hb & Hsorted). exists members. split; [done|].
  unfold build_count_spec in Hs. destruct (negb _); [done|]. destruct (provider r); try done.
  - apply bind_Ok in Hs as (body & Hcount & Hs). injection Hs as <-. unfold openai_count_body in Hcount.
    rewrite Hb in Hcount. cbn [as_object ok_or mbind result_bind] in Hcount.
    apply bind_Ok in Hcount as (counted & Hf & Hcount). destruct (_ || _) in Hcount; [done|]. injection Hcount as <-.
    destruct (project_members _ _ _ _ _ _ Hsorted Hf) as [Hget Hin]. exists counted. split_and!; try done.
    intros key. rewrite Hget. cbn [map_get]. destruct (listed _ _); [|done]. by destruct (map_get members key).
  - rewrite Hb in Hs. cbn [as_object ok_or mbind result_bind] in Hs. by injection Hs as <-.
  - unfold vertex_count_spec in Hs. destruct (provider_options r) as [| | | | |o]; try done.
    rewrite Hb in Hs. cbn [as_object ok_or mbind result_bind] in Hs.
    destruct (contains_key members _) eqn:Hcc; [done|]. apply contains_key_get in Hcc. split; [done|].
    apply bind_Ok in Hs as (counted & Hf & Hs). destruct (negb _); [done|]. injection Hs as <-.
    destruct (project_members _ _ _ _ _ _ Hsorted Hf) as [Hget Hin]. exists counted.
    exists (lit "projects/" ++ project_id o ++ lit "/locations/" ++ location o ++
            lit "/publishers/google/models/" ++ model_id r).
    split_and!; try done. intros key. rewrite Hget. cbn [map_get]. destruct (listed VERTEX_INCLUDED key) eqn:Hl; [|by destruct (str_eqb _ _)].
    destruct (map_get members key); [done|]. destruct (str_eqb (lit "model") key) eqn:He; [|done].
    apply str_eqb_eq in He as <-. done.
Qed.

(** No cached content is requested from Vertex AI. *)
Definition no_cached_content {Num} (r : ProviderRequest Num) : Prop :=
  match provider_options r with GoogleVertexAiOpts o => vx_cached_content o = None | _ => True end.

(** Whatever the compiler builds on its own can be counted: a compiled request of
    OpenAI, Gemini or Vertex AI without additional parameters (and, for Vertex AI,
    without cached content) always has a counting request; no field the compiler
    produces is missing from the reviewed lists. *)
Theorem compiled_request_can_be_counted {Num} `{ProviderJson Num} (r : ProviderRequest Num) c :
  compile_request r = Ok c -> additional_parameters r = [] -> no_cached_content r ->
  provider r = OpenAi \/ provider r = GoogleGemini \/ provider r = GoogleVertexAi ->
  exists spec, build_count_spec r c = Ok spec.
Proof.
  intros Hc Hextra Hcached Hp. destruct (compiled_body_sorted r c Hc) as (ms & Hms & Hsorted).
  apply compile_request_inv in Hc as (Hv & typed & members & members' & Ht & Hb & Hf & Hbc & Hpr & _).
  rewrite Hextra in Hf. injection Hf as <-. rewrite Hbc in Hms. injection Hms as <-. apply validate_request_inv in Hv as (Hprov & _).
  unfold build_count_spec, compile_options, no_cached_content in *. rewrite Hprov in Hp.
  assert (Hcp : c_provider c = provider r).
  { rewrite Hpr, Hprov. destruct (provider_options r);
      unfold compile_openai, compile_anthropic, compile_deepseek, compile_ollama_cloud, compile_google_gemini,
        compile_google_vertex in Ht;
      repeat (apply bind_Ok in Ht as (? & _ & Ht)); by injection Ht as <-. }
  rewrite Hcp, bool_decide_eq_true_2 by done. cbn [negb]. rewrite Hprov.
  destruct (provider_options r) as [o|o|o|o|o|o] eqn:Ho; cbn [provider_id] in *; try naive_solver.
  - destruct (openai_body_known _ _ _ _ _ Ht Hb) as (Hk & Hm & Hi). unfold openai_count_body. rewrite Hbc.
    cbn [as_object ok_or mbind result_bind].
    destruct (project_known "OpenAI" OPENAI_INCLUDED OPENAI_NON_INPUT members [] Hk) as [counted Hcount].
    destruct (project_members _ _ _ _ _ _ Hsorted Hcount) as [Hget _].
    rewrite Hcount. cbn [mbind result_bind]. unfold has, contains_key in *. rewrite !Hget. cbn [map_get].
    destruct (map_get members (lit "model")), (map_get members (lit "input")); try done. by eexists.
  - rewrite Hbc. by eexists.
  - unfold vertex_count_spec. rewrite Ho, Hbc. cbn [as_object ok_or mbind result_bind].
    unfold compile_google_vertex in Ht. apply bind_Ok in Ht as (m & Hg & Ht). injection Ht as <-. cbn in Hb. injection Hb as ->.
    rewrite Hcached in Hg.
    apply google_body_known in Hg as [Hk Hcont].
    destruct (contains_key members (lit "cachedContent")) eqn:Hcc.
    { unfold contains_key in Hcc. destruct (map_get members _) eqn:Hget; [|done].
      by apply (keys_in_get _ _ _ _ Hk) in Hget. }
    edestruct (project_known "Vertex" VERTEX_INCLUDED VERTEX_NON_INPUT members) as [counted Hcount]; [done|].
    destruct (project_members _ _ _ _ _ _ Hsorted Hcount) as [Hget _].
    rewrite Hcount. cbn [mbind result_bind]. unfold has, contains_key in *. rewrite Hget. cbn [map_get].
    destruct (map_get members (lit "contents")); [|done]. by eexists.
Qed.
