(* ===== verification/RunStreamFacts.v ===== *)
(** * Provider runtime: what holds of a run

    A credential leaves the machine only over HTTPS, to public addresses, for the
    official host of its provider or for the one host it was bound to; and a prompt is
    only sent after that very request was counted and found to fit. *)

From stdpp Require Import pretty.
From Stdlib Require Import SpecFloat.
From S2P Require Import Prelude Bytes Utf8 Float64 Json Url ProviderConfig ProviderCompile ProviderCompileFacts RuntimeError Endpoint Framing Decode Runner HttpSend PromptTemplate PromptSchema PromptValidate PromptCompile TokenCount.

(** * Provider runtime: running a request

    Models the entry points of [runner.rs]: [run_classic_stream], [run_prompt_stream] and
    [run_compiled_stream], from a request or a compiled prompt to the events delivered
    and the outcome.  The network is an argument ([Network]): what counting, the DNS and
    the HTTP client do, and where cancellation strikes.  A run returns the requests it
    handed to the HTTP client, the events the consumer received, and its result, which is
    missing while the response is still being read. *)

(** ** The text of errors (error.rs of the provider and prompt crates) *)

Definition num (n : Z) : str := lit (pretty n).

(** [Display] of the bounds in errors, which are integers. *)
Definition f64_display (x : f64) : str :=
  match x with
  | S754_zero s => if s then lit "-0" else lit "0"
  | S754_infinity s => if s then lit "-inf" else lit "inf"
  | S754_nan => lit "NaN"
  | S754_finite s m e =>
      let magnitude := if 0 <=? e then Z.pos m * 2 ^ e else Z.pos m / 2 ^ (- e) in
      (if s then lit "-" else []) ++ num magnitude
  end.

(** [Debug] *)
Definition ProviderId_debug (p : ProviderId) : str :=
  lit match p with
      | OpenAi => "OpenAi" | Anthropic => "Anthropic" | DeepSeek => "DeepSeek" | OllamaCloud => "OllamaCloud"
      | GoogleGemini => "GoogleGemini" | GoogleVertexAi => "GoogleVertexAi"
      end.

Definition Capability_debug (c : Capability) : str :=
  lit match c with
      | CTemperature => "Temperature" | CMaxOutputTokens => "MaxOutputTokens" | CTopP => "TopP" | CTopK => "TopK"
      | CPresencePenalty => "PresencePenalty" | CFrequencyPenalty => "FrequencyPenalty"
      | CStopSequences => "StopSequences" | CSeed => "Seed" | CReasoning => "Reasoning"
      | CIncludeThoughts => "IncludeThoughts" | CJsonResponse => "JsonResponse"
      | CContextCaching => "ContextCaching" | CSafetySettings => "SafetySettings" | CServiceTier => "ServiceTier"
      | CThroughputRequestType => "ThroughputRequestType" | CProjectAndLocation => "ProjectAndLocation"
      | CRoleAlternation => "RoleAlternation" | CTokenizerOverride => "TokenizerOverride"
      | CAdditionalParameters => "AdditionalParameters" | CMcpTools => "McpTools"
      | CEndpointOverride => "EndpointOverride"
      end.

Definition ProviderConfigError_display (e : ProviderConfigError) : str :=
  match e with
  | ProviderOptionsMismatch request_provider options_provider =>
      lit "provider options mismatch: request=" ++ ProviderId_debug request_provider ++ lit ", options=" ++
      ProviderId_debug options_provider
  | MissingField field => lit "missing required field: " ++ lit field
  | ProviderConfig.EmptyField field => lit "field must not be empty: " ++ lit field
  | ProviderConfig.FieldTooLong field max_bytes =>
      lit "field exceeds " ++ num max_bytes ++ lit " bytes: " ++ lit field
  | ProviderConfig.InvalidField field reason => lit "invalid field " ++ lit field ++ lit ": " ++ lit reason
  | OutOfRange field min max =>
      lit "field " ++ lit field ++ lit " must be between " ++ f64_display min ++ lit " and " ++ f64_display max
  | UnsupportedOption provider capability =>
      lit "provider " ++ ProviderId_debug provider ++ lit " does not support option " ++ Capability_debug capability
  | ProviderConfig.TooManyItems field max => lit "field " ++ lit field ++ lit " exceeds " ++ num max ++ lit " items"
  | ProviderConfig.PayloadTooLarge field max_bytes =>
      lit "field " ++ lit field ++ lit " exceeds " ++ num max_bytes ++ lit " bytes"
  | UnsafeExtraParameter key => lit "unsafe extra parameter rejected: " ++ key
  | ExtraParameterCollision key => lit "extra parameter collides with compiled request: " ++ key
  | ExtraParameterTooDeep key max_depth => lit "extra parameter " ++ key ++ lit " exceeds depth " ++ num max_depth
  | MissingConversation => lit "request has no non-system message"
  end.

(** A panic has no message; [compile_request] never panics. *)
Definition fault_display (f : fault) : str :=
  match f with Panic => [] | Failed e => ProviderConfigError_display e end.

Definition ExactTokenCountError_display (e : ExactTokenCountError) : str :=
  count_code e ++ lit ": " ++ count_message e.

(** The text of a [serde_json] error, which compiling a prompt does not produce, is
    left out. *)
Definition PromptError_display (e : PromptError) : str :=
  match e with
  | PromptInvalidField field reason => lit "invalid field " ++ field ++ lit ": " ++ reason
  | PromptTooManyItems field max => lit "field " ++ field ++ lit " exceeds " ++ num max ++ lit " items"
  | PromptPayloadTooLarge field max_bytes => lit "field " ++ field ++ lit " exceeds " ++ num max_bytes ++ lit " bytes"
  | UnknownVariable name => lit "unknown prompt variable: " ++ name
  | UnsupportedFeature feature reason => lit "unsupported prompt feature " ++ feature ++ lit ": " ++ reason
  | PromptRegex rule reason => lit "regex rule " ++ rule ++ lit " failed: " ++ reason
  | PromptImport reason => lit "invalid prompt import: " ++ reason
  | ExactTokenCount e => lit "exact token count failed: " ++ ExactTokenCountError_display e
  | PromptProvider f => lit "provider request rejected: " ++ fault_display f
  | PromptJson => lit "prompt JSON failed: "
  end.

Definition runtime_kind_of (kind : ExactTokenCountErrorKind) : RuntimeErrorKind :=
  match kind with
  | CountUnavailable | CountInvalidRequest => InvalidRequest
  | CountTransport => Http
  | CountHttpStatus => HttpStatus
  | CountInvalidResponse => Provider
  | CountTimeout => Timeout
  | CountCancelled => Cancelled
  end.

Definition map_prompt_error (error : PromptError) : RuntimeError :=
  match error with
  | ExactTokenCount e =>
      let mapped := retriable (RuntimeError_new (runtime_kind_of (count_kind e)) (count_code e) (count_message e))
                      (count_retriable e) in
      match count_http_status e with Some status => with_http_status mapped status | None => mapped end
  | _ => RuntimeError_new InvalidRequest (lit "PROMPT_REQUEST_INVALID") (PromptError_display error)
  end.

(** ** The network *)

(** What [select!] over cancellation and the response headers gives. *)
Inductive Exchange : Type :=
  | ExchangeCancelled
  | ExchangeHeaderTimeout
  | ExchangeFailed
  | ExchangeResponse (status : Z) (headers : Headers) (body : list Input).

Record Network : Type := mkNetwork {
  (** [cancellation.is_cancelled()] on entry, and before the endpoint is resolved *)
  cancelled_on_entry : bool;
  cancelled_before_resolving : bool;
  counting : CountNetwork;
  (** [None] when cancellation wins over the lookup *)
  dns : option (str -> Z -> DnsOutcome);
  exchange : HttpRequest -> Exchange;
  (** [events.max_capacity()], and what sending the n-th event does *)
  channel_capacity : Z;
  send : nat -> SendOutcome;
}.

(** Requests handed to the client, events delivered, and the result. *)
Record Run : Type := mkRunResult {
  run_sent : list HttpRequest;
  run_delivered : list ProviderStreamEvent;
  run_result : option (RResult ProviderRunOutcome);
}.

Definition stopped (r : RResult ProviderRunOutcome) : Run := mkRunResult [] [] (Some r).

Definition after (sent : list HttpRequest) (r : Run) : Run :=
  mkRunResult (sent ++ run_sent r) (run_delivered r) (run_result r).

Definition validate_event_channel (capacity : Z) : RResult unit :=
  if capacity =? USIZE_MAX
  then Err (RuntimeError_new InvalidRequest (lit "UNBOUNDED_EVENT_CHANNEL")
              (lit "provider runtime requires a bounded event channel"))
  else Ok tt.

Section runtime.
Context (to_str : bytes -> option str).
Context {Num : Type} `{SerdeJson Num, ProviderJson Num, UrlLib, HttpLib, CountJson}.
Context (limits : RuntimeLimits) (network : Network).
Implicit Types (request : ProviderRequest Num) (compiled : CompiledProviderRequest Num).

(** From the response headers on. *)
Definition consume_response request compiled (status : Z) (headers : Headers) (body : list Input) : Run :=
  match validate_response_metadata to_str headers (max_response_header_count limits)
          (max_response_header_bytes limits) with
  | Err e => stopped (Err e)
  | Ok _ =>
      if negb (is_success status) then
        mkRunResult [] []
          ((fun error => if bool_decide (kind error = Cancelled) then Ok RunCancelled else Err error) <$>
           read_http_error (provider request) status (max_http_error_body_bytes limits)
             (retry_decision_for_status to_str status headers) [] body)
      else
        match validate_content_type to_str headers (stream_protocol compiled) with
        | Err e => stopped (Err e)
        | Ok _ =>
            let '(st, r) :=
              match stream_protocol compiled with
              | ProtoSse => consume_sse (send network) (max_stream_frame_bytes limits) (provider request) body
              | ProtoNdjson => consume_ndjson (send network) (max_stream_frame_bytes limits) (provider request) body
              end in
            mkRunResult [] (r_delivered st) r
        end
  end.

Definition run_compiled_stream request compiled (selection : EndpointSelection)
    (credential : ProviderCredential) : Run :=
  if cancelled_before_resolving network then stopped (Ok RunCancelled)
  else
    match dns network with
    | None => stopped (Ok RunCancelled)
    | Some lookup =>
        match (endpoint ← resolve_endpoint lookup request compiled selection;
               build_http_request compiled endpoint credential (max_request_body_bytes limits)) with
        | Err e => stopped (Err e)
        | Ok http_request =>
            after [http_request]
              match exchange network http_request with
              | ExchangeCancelled => stopped (Ok RunCancelled)
              | ExchangeHeaderTimeout => stopped (Err (timeout_error "RESPONSE_HEADER_TIMEOUT"))
              | ExchangeFailed => stopped (Err map_http_error)
              | ExchangeResponse status headers body => consume_response request compiled status headers body
              end
        end
    end.

Definition run_classic_stream request (selection : EndpointSelection) (credential : ProviderCredential) : Run :=
  match validate_event_channel (channel_capacity network) with
  | Err e => stopped (Err e)
  | Ok _ =>
      if cancelled_on_entry network then stopped (Ok RunCancelled)
      else
        match compile_request request with
        | Err f => stopped (Err (RuntimeError_new InvalidRequest (lit "PROVIDER_REQUEST_INVALID") (fault_display f)))
        | Ok compiled => run_compiled_stream request compiled selection credential
        end
  end.

(** The counter of a run, and the requests it hands to the client. *)
Definition run_counter (selection : EndpointSelection) (credential : ProviderCredential) request compiled :=
  count to_str limits (counting network) selection credential request compiled.

Definition counting_requests (selection : EndpointSelection) (credential : ProviderCredential)
    (prompt : CompiledPrompt) (model : ModelPresetSnapshot Num) : list HttpRequest :=
  match prepare_prompt_request prompt model with
  | Ok (request, compiled) => (run_counter selection credential request compiled).1
  | Err _ => []
  end.

Definition run_prompt_stream (prompt : CompiledPrompt) (model : ModelPresetSnapshot Num)
    (selection : EndpointSelection) (credential : ProviderCredential) : Run :=
  match validate_event_channel (channel_capacity network) with
  | Err e => stopped (Err e)
  | Ok _ =>
      if cancelled_on_entry network then stopped (Ok RunCancelled)
      else
        after (counting_requests selection credential prompt model)
          match compile_prompt_request
                  (fun request compiled => (run_counter selection credential request compiled).2) prompt model with
          | Ok sealed =>
              run_compiled_stream (provider_request sealed) (compiled_provider_request sealed) selection credential
          | Err (ExactTokenCount e) =>
              if bool_decide (count_kind e = CountCancelled) then stopped (Ok RunCancelled)
              else stopped (Err (map_prompt_error (ExactTokenCount e)))
          | Err error => stopped (Err (map_prompt_error error))
          end
  end.
End runtime.

(** ** Hosts *)

(** The host names a credential of a provider may be sent to. *)
Definition official_domain (p : ProviderId) (domain : str) : Prop :=
  match p with
  | OpenAi => domain = lit "api.openai.com"
  | Anthropic => domain = lit "api.anthropic.com"
  | DeepSeek => domain = lit "api.deepseek.com"
  | OllamaCloud => domain = lit "ollama.com"
  | GoogleGemini => domain = lit "generativelanguage.googleapis.com"
  | GoogleVertexAi =>
      domain = lit "aiplatform.googleapis.com" \/
      exists location, Forall (fun b => path_byte true b = true) location /\
        domain = location ++ lit "-aiplatform.googleapis.com"
  end.

(** What parsing keeps of a host: one in lower case, of the bytes of names, below
    [.com] (so neither an address nor an internationalised name) is the domain of an
    [https] URL with it. *)
Class UrlLaws `{UrlLib} : Prop := {
  parse_https_host domain rest url :
    Forall (fun b => path_byte true b = true) domain -> ends_with domain (lit ".com") = true ->
    url_parse (lit "https://" ++ domain ++ lit "/" ++ rest) = Some url -> url_host url = Some (Domain domain);
}.

Lemma host_bytes (s : string) : forallb (path_byte true) (lit s) = true -> Forall (fun b => path_byte true b = true) (lit s).
Proof. intros Hf. apply Forall_forall. by apply forallb_forall. Qed.

Lemma expected_url_host {Num} `{ProviderJson Num} (r : ProviderRequest Num) c :
  compile_request r = Ok c ->
  exists domain rest, expected_url r = Ok (lit "https://" ++ domain ++ lit "/" ++ rest) /\
    official_domain (provider r) domain /\ Forall (fun b => path_byte true b = true) domain /\
    ends_with domain (lit ".com") = true.
Proof.
  intros Hc. apply compile_request_inv in Hc as (Hv & _).
  apply validate_request_inv in Hv as (Hp & _ & _ & _ & _ & Hopt & _).
  unfold expected_url. rewrite Hp. unfold validate_provider_options in Hopt. rewrite ?Hp in Hopt.
  destruct (provider_options r) as [o|o|o|o|o|o]; cbn [provider_id official_domain] in *.
  - exists (lit "api.openai.com"), (lit "v1/responses"). split_and!; try done. by apply host_bytes.
  - exists (lit "api.anthropic.com"), (lit "v1/messages"). split_and!; try done. by apply host_bytes.
  - exists (lit "api.deepseek.com"), (lit "chat/completions"). split_and!; try done. by apply host_bytes.
  - exists (lit "ollama.com"), (lit "api/chat"). split_and!; try done. by apply host_bytes.
  - exists (lit "generativelanguage.googleapis.com"),
      (lit "v1beta/models/" ++ model_id r ++ lit ":streamGenerateContent?alt=sse").
    split_and!; try done. by apply host_bytes.
  - unfold validate_vertex_options in Hopt.
    apply bind_Ok in Hopt as ([] & _ & Hopt). apply bind_Ok in Hopt as ([] & Hloc & _).
    assert (Hbytes : Forall (fun b => path_byte true b = true) (location o)).
    { unfold validate_path_segment in Hloc. apply bind_Ok in Hloc as ([] & _ & Hloc).
      destruct (negb _ || _ || _) eqn:Hb in Hloc; [done|]. apply orb_false_iff in Hb as [Hb _].
      apply orb_false_iff in Hb as [Hb _]. apply negb_false_iff in Hb. apply Forall_forall.
      by apply forallb_forall. }
    set (rest := lit "v1/projects/" ++ project_id o ++ lit "/locations/" ++ location o ++
                 lit "/publishers/google/models/" ++ model_id r ++ lit ":streamGenerateContent?alt=sse").
    destruct (str_eqb (location o) (lit "global")).
    + exists (lit "aiplatform.googleapis.com"), rest. split_and!; try done; [by left|by apply host_bytes].
    + exists (location o ++ lit "-aiplatform.googleapis.com"), rest. split_and!.
      * by rewrite <- !app_assoc.
      * right. by exists (location o).
      * apply Forall_app. split; [done|by apply host_bytes].
      * change (lit "-aiplatform.googleapis.com") with (lit "-aiplatform.googleapis" ++ lit ".com").
        rewrite app_assoc. apply ends_with_app.
Qed.

(** ** Requests *)

Definition auth_header (scheme : AuthScheme) (s : str) : str * bytes :=
  match scheme with
  | AuthorizationBearer | GoogleOAuthBearer => (lit "authorization", lit "Bearer " ++ s)
  | AnthropicXApiKey => (lit "x-api-key", s)
  | GoogleXGoogApiKey => (lit "x-goog-api-key", s)
  end.

(** The headers without a credential: names and values, all of them constants. *)
Definition PLAIN_HEADERS : list (str * bytes) :=
  [(lit "accept", lit "text/event-stream"); (lit "accept", lit "application/x-ndjson");
   (lit "accept", lit "application/json"); (lit "accept-encoding", lit "identity");
   (lit "content-type", lit "application/json"); (lit "anthropic-version", lit "2023-06-01");
   (lit "x-vertex-ai-llm-request-type", lit "shared"); (lit "x-vertex-ai-llm-request-type", lit "dedicated")].

Definition plain_headers (headers : list (str * bytes)) : Prop := Forall (fun x => x ∈ PLAIN_HEADERS) headers.

(** What a request that carries a credential is like. *)
Record sent_safe `{UrlLib} (credential : ProviderCredential) (h : HttpRequest) : Prop := {
  ss_url : exists domain, url_safe (sent_url h) domain /\ sent_host h = to_ascii_lowercase domain /\
             match credential_scope credential with
             | OfficialProvider p => official_domain p domain
             | OverrideHost host => to_ascii_lowercase host = to_ascii_lowercase domain
             end;
  ss_some : sent_addresses h <> [];
  ss_public : Forall (fun a => (ip_typed a.1 -> public_by_blocks a.1 = true) /\ a.2 = 443) (sent_addresses h);
  ss_secret : exists scheme plain, plain_headers plain /\
                sent_headers h = plain ++ [auth_header scheme (secret credential)];
}.

(** The URL and the body of a request are those of the compiled request, or of the count
    of its tokens: neither is computed from the credential. *)
Definition made_from {Num} `{UrlLib, ProviderJson Num} (r : ProviderRequest Num) (c : CompiledProviderRequest Num)
    (selection : EndpointSelection) (h : HttpRequest) : Prop :=
  exists url is_override, select_url r c selection = Ok (url, is_override) /\
    (sent_url h = url /\ json_to_vec (ProviderCompile.body c) = Some (sent_body h) \/
     exists spec, build_count_spec r c = Ok spec /\ sent_url h = clear_query (set_path url (spec_path spec)) /\
       json_to_vec (spec_body spec) = Some (sent_body h)).

Section sending.
Context `{UrlLaws, HttpLaws}.

Lemma header_insert_plain name value headers :
  (name, value) ∈ PLAIN_HEADERS -> plain_headers headers -> plain_headers (header_insert name value headers).
Proof.
  intros Hn Hh. unfold header_insert, plain_headers. apply Forall_app. split; [|constructor; [done|constructor]].
  apply Forall_forall. intros x [Hx _]%List.filter_In. unfold plain_headers in Hh. rewrite Forall_forall in Hh. by apply Hh.
Qed.

Lemma auth_header_not_plain scheme s x : x ∈ PLAIN_HEADERS -> str_eqb x.1 (auth_header scheme s).1 = false.
Proof.
  intros Hx. apply str_eqb_neq. intros Heq.
  assert (Hin : (auth_header scheme s).1 ∈ map fst PLAIN_HEADERS) by (rewrite <- Heq; by apply list_elem_of_fmap_2).
  assert (Hno : bool_decide ((auth_header scheme s).1 ∈ map fst PLAIN_HEADERS) = false)
    by (destruct scheme; vm_compute; reflexivity).
  by apply bool_decide_eq_false in Hno.
Qed.

Lemma attach_credential_Ok headers scheme s headers' :
  plain_headers headers -> attach_credential headers scheme s = Ok headers' ->
  headers' = headers ++ [auth_header scheme s].
Proof.
  unfold attach_credential. intros Hp Ha. apply bind_Ok in Ha as ([name value] & Hv & Ha). injection Ha as <-.
  assert (Hh : (name, value) = auth_header scheme s).
  { destruct scheme; apply bind_Ok in Hv as (v & Hv%ok_or_Ok & Hr); apply header_value_same in Hv as ->;
      by injection Hr as <- <-. }
  unfold header_insert. rewrite Hh. f_equal. replace name with (auth_header scheme s).1 by (by rewrite <- Hh).
  clear -Hp. unfold plain_headers in Hp. induction Hp as [|x l Hx Hl IH]; [done|]. cbn [List.filter].
  rewrite (auth_header_not_plain _ _ _ Hx). cbn [negb]. by rewrite IH.
Qed.

Lemma insert_static_plain {E} (error : string -> E) static : forall headers headers',
  plain_headers headers -> Forall (fun h => (to_ascii_lowercase h.1, h.2) ∈ PLAIN_HEADERS) static ->
  insert_static_headers error headers static = Ok headers' -> plain_headers headers'.
Proof.
  unfold insert_static_headers. induction static as [|[n v] static IH]; intros headers headers' Hp Hs Hi;
    cbn [foldM_result] in Hi; [by injection Hi as <-|]. apply Forall_cons_iff in Hs as [Hn Hs].
  apply bind_Ok in Hi as (headers1 & Hst & Hi). apply bind_Ok in Hst as (name & Hname%ok_or_Ok & Hst).
  apply bind_Ok in Hst as (value & Hvalue%ok_or_Ok & Hst). injection Hst as <-. eapply IH; [|exact Hs|exact Hi].
  apply header_insert_plain; [|done]. apply header_name_lower in Hname as ->. apply header_value_same in Hvalue as ->. done.
Qed.

Lemma static_headers_plain {Num} (r : ProviderRequest Num) c :
  validate_compiled_wire_contract r c = Ok tt ->
  Forall (fun h => (to_ascii_lowercase h.1, h.2) ∈ PLAIN_HEADERS) (static_headers c).
Proof.
  unfold validate_compiled_wire_contract. destruct (negb _); [done|]. destruct (negb _); [done|].
  destruct (negb _) eqn:Hh; [done|]. intros _. apply negb_false_iff, bool_decide_eq_true in Hh as ->.
  unfold expected_headers. assert (Hin : forall s v : string, bool_decide ((to_ascii_lowercase (lit s), lit v) ∈ PLAIN_HEADERS) = true ->
    Forall (fun h : str * str => (to_ascii_lowercase h.1, h.2) ∈ PLAIN_HEADERS) [(lit s, lit v)])
    by (intros s v Hs%bool_decide_eq_true; constructor; [done|constructor]).
  apply Forall_app. split; [|apply Forall_app; split].
  - destruct (provider_options r); try constructor. destruct (request_type _); [constructor|by apply Hin..].
  - case_bool_decide; [by apply Hin|constructor].
  - by apply Hin.
Qed.

(** The host an endpoint was resolved for, when the credential is in scope. *)
Lemma scope_domain {Num} `{ProviderJson Num} (r : ProviderRequest Num) c lookup selection e credential domain :
  compile_request r = Ok c -> resolve_endpoint lookup r c selection = Ok e ->
  validate_credential_scope (provider r) e (credential_scope credential) = Ok tt ->
  url_safe (endpoint_url e) domain -> endpoint_host e = to_ascii_lowercase domain ->
  match credential_scope credential with
  | OfficialProvider p => official_domain p domain
  | OverrideHost host => to_ascii_lowercase host = to_ascii_lowercase domain
  end.
Proof.
  intros Hc He Hs Hsafe Hhost. apply resolve_endpoint_inv in He as (_ & Hsel & _).
  apply select_url_safe in Hsel as [_ Hsel]. unfold validate_credential_scope in Hs.
  destruct (is_override e) eqn:Ho, (credential_scope credential) as [p|host]; try done.
  - destruct (eq_ignore_ascii_case _ _) eqn:Heq; [|done]. apply str_eqb_eq in Heq. rewrite Heq, Hhost.
    unfold to_ascii_lowercase. rewrite map_map. apply map_ext. intros b. by destruct b as [[] [] [] [] [] [] [] []].
  - case_bool_decide as Hp; [|done]. subst p. destruct selection; [|by destruct Hsel].
    destruct Hsel as (_ & expected & Hexp & _ & Hparse).
    destruct (expected_url_host r c Hc) as (d & rest & Hurl & Hoff & Hbytes & Hcom).
    rewrite Hexp in Hurl. injection Hurl as ->. apply parse_https_host in Hparse; [|done..].
    rewrite (us_host _ _ Hsafe) in Hparse. by injection Hparse as ->.
Qed.

Lemma plain_accept protocol headers : plain_headers headers ->
  plain_headers (header_insert (lit "accept-encoding") (lit "identity") (header_insert (lit "accept") (accept_type protocol) headers)).
Proof.
  intros Hh. assert (Hp : bool_decide ((lit "accept", accept_type protocol) ∈ PLAIN_HEADERS) = true) by by destruct protocol.
  apply bool_decide_eq_true in Hp. by apply header_insert_plain; [set_solver|]; apply header_insert_plain.
Qed.

Lemma public_blocks (addresses : list (IpAddr * Z)) : Forall (fun a => is_public_ip a.1 = true /\ a.2 = 443) addresses ->
  Forall (fun a => (ip_typed a.1 -> public_by_blocks a.1 = true) /\ a.2 = 443) addresses.
Proof.
  intros Ha. eapply Forall_impl; [|exact Ha]. intros [ip port] [Hp Hport]. split; [|done]. cbn in *. intros Ht.
  by rewrite <- is_public_ip_by_blocks.
Qed.

Lemma build_http_request_safe {Num} `{ProviderJson Num} (r : ProviderRequest Num) c lookup selection e credential max h :
  compile_request r = Ok c -> resolve_endpoint lookup r c selection = Ok e ->
  build_http_request c e credential max = Ok h ->
  sent_safe credential h /\ sent_url h = endpoint_url e /\ json_to_vec (ProviderCompile.body c) = Some (sent_body h).
Proof.
  intros Hc He Hb. destruct (resolve_endpoint_inv _ _ _ _ _ He) as (Hw & _ & Hsafe).
  unfold build_http_request in Hb. apply bind_Ok in Hb as ([] & Hscope & Hb).
  assert (Hp : c_provider c = provider r).
  { unfold validate_compiled_wire_contract in Hw. case_bool_decide; [done|by cbn in Hw]. }
  rewrite Hp in Hscope. apply bind_Ok in Hb as (body & Hbody%ok_or_Ok & Hb). destruct (_ >? _); [done|].
  apply bind_Ok in Hb as ([host addrs] & Hcl & Hb). apply bind_Ok in Hb as (static & Hst & Hb).
  apply bind_Ok in Hb as (headers & Hat & Hb). destruct (request_builds _ _ _); [|done]. injection Hb as <-.
  unfold build_secure_client in Hcl. destruct (client_builds _ _); [|done]. injection Hcl as <- <-.
  apply insert_static_plain in Hst; [|constructor|by eapply static_headers_plain].
  apply attach_credential_Ok in Hat; [|by apply plain_accept].
  split; [|done]. destruct Hsafe as [[domain [Hsafe Hh]] Hsome Hpub]. split; cbn; try done.
  - exists domain. split_and!; [done..|]. by apply (scope_domain r c lookup selection e credential).
  - by apply public_blocks.
  - eexists (auth_scheme c), _. split; [|exact Hat]. by apply plain_accept.
Qed.

Lemma count_request_safe {Num} `{ProviderJson Num} (r : ProviderRequest Num) c limits lookup selection credential spec h :
  compile_request r = Ok c -> count_request limits lookup selection credential r c = Ok (spec, h) ->
  sent_safe credential h /\ build_count_spec r c = Ok spec /\ json_to_vec (spec_body spec) = Some (sent_body h) /\
  made_from r c selection h.
Proof.
  intros Hc Hb. unfold count_request in Hb. apply bind_Ok in Hb as (spec' & Hspec & Hb).
  apply bind_Ok in Hb as (e & He & Hb). destruct (resolve_endpoint lookup r c selection) as [e'|] eqn:Hres; [|done].
  injection He as ->. destruct (resolve_endpoint_inv _ _ _ _ _ Hres) as (Hw & Hsel & Hsafe).
  apply bind_Ok in Hb as ([] & Hscope & Hb). destruct (validate_credential_scope _ _ _) as [[]|] eqn:Hv; [|done].
  apply bind_Ok in Hb as (body & Hbody%ok_or_Ok & Hb). destruct (_ >? _); [done|].
  apply bind_Ok in Hb as ([host addrs] & Hcl & Hb). apply bind_Ok in Hb as (static & Hst & Hb).
  apply bind_Ok in Hb as (headers & Hat & Hb). destruct (request_builds _ _ _); [|done]. injection Hb as -> <-.
  unfold build_secure_client in Hcl. cbn in Hcl. destruct (client_builds _ _); [|done]. injection Hcl as <- <-.
  apply insert_static_plain in Hst; [| |by eapply static_headers_plain].
  2: { do 3 (apply header_insert_plain; [set_solver|]). constructor. }
  destruct (attach_credential static _ _) as [hs|] eqn:Hatt; [|done]. injection Hat as ->.
  apply attach_credential_Ok in Hatt; [|done].
  split; [|split; [done|split; [done|]]]; [|eexists _, _; split; [exact Hsel|right; by exists spec]].
  destruct Hsafe as [[domain [Hsafe Hh]] Hsome Hpub]. split; cbn; try done.
  - exists domain. split_and!; [by destruct Hsafe|done|].
    apply (scope_domain r c lookup selection e credential); try done.
  - by apply public_blocks.
  - by exists (auth_scheme c), static.
Qed.
End sending.

(** ** Runs *)

Section runs.
Context (to_str : bytes -> option str).
Context {Num : Type} `{SerdeJson Num, ProviderJson Num, UrlLaws, HttpLaws, CountJson}.
Context (limits : RuntimeLimits) (network : Network) (selection : EndpointSelection) (credential : ProviderCredential).

Lemma prepared_compiles (prompt : CompiledPrompt) (model : ModelPresetSnapshot Num) r c :
  prepare_prompt_request prompt model = Ok (r, c) -> compile_request r = Ok c /\ provider r = m_provider model.
Proof.
  unfold prepare_prompt_request. intros Hp. apply bind_Ok in Hp as ([] & _ & Hp).
  do 6 (case_match; [done|]). apply bind_Ok in Hp as (c' & Hc & Hp). injection Hp as <- <-.
  destruct (compile_request _) as [c''|] eqn:Hr in Hc; [|done]. by injection Hc as ->.
Qed.

Lemma sealed_was_counted counter (prompt : CompiledPrompt) (model : ModelPresetSnapshot Num) sealed :
  compile_prompt_request counter prompt model = Ok sealed ->
  exists r c n, prepare_prompt_request prompt model = Ok (r, c) /\ counter r c = Ok n /\
    n + capacity_max_output_tokens (capacity model) <= max_context_tokens (capacity model) /\
    provider_request sealed = r /\ compiled_provider_request sealed = c.
Proof.
  unfold compile_prompt_request. intros Hs. apply bind_Ok in Hs as ([r c] & Hp & Hs).
  apply bind_Ok in Hs as (n & Hn & Hs). apply bind_Ok in Hs as ([] & Hcap & Hs). injection Hs as <-.
  exists r, c, n. split; [done|]. destruct (counter r c) as [n'|]; [|done]. injection Hn as ->.
  unfold validate_context_capacity in Hcap.
  apply bind_Ok in Hcap as (required & Hreqd%ok_or_Ok%checked_add_Some & Hcap). case_match; [done|].
  split_and!; try done. lia.
Qed.

Lemma consume_response_sent (r : ProviderRequest Num) c status headers body :
  run_sent (consume_response to_str limits network r c status headers body) = [].
Proof.
  unfold consume_response. destruct (validate_response_metadata _ _ _ _); [|done]. destruct (negb _); [done|].
  destruct (validate_content_type _ _ _); [|done]. by destruct (match stream_protocol c with ProtoSse => _ | ProtoNdjson => _ end).
Qed.

(** A run of a compiled request sends at most one request, and nothing is delivered
    unless it was sent. *)
Lemma run_compiled_sent (r : ProviderRequest Num) c :
  let run := run_compiled_stream to_str limits network r c selection credential in
  run_sent run = [] /\ run_delivered run = [] \/
  exists lookup e h, run_sent run = [h] /\ dns network = Some lookup /\
    resolve_endpoint lookup r c selection = Ok e /\
    build_http_request c e credential (max_request_body_bytes limits) = Ok h.
Proof.
  unfold run_compiled_stream. destruct (cancelled_before_resolving network); [by left|].
  destruct (dns network) as [lookup|]; [|by left].
  destruct (resolve_endpoint lookup r c selection) as [e|] eqn:He; cbn [mbind result_bind]; [|by left].
  destruct (build_http_request _ _ _ _) as [h|] eqn:Hh; [|by left]. right. exists lookup, e, h. split_and!; try done.
  cbn [after run_sent]. destruct (exchange network h); try done. by rewrite consume_response_sent.
Qed.

Lemma run_compiled_safe (r : ProviderRequest Num) c :
  compile_request r = Ok c ->
  Forall (fun h => sent_safe credential h /\ made_from r c selection h)
    (run_sent (run_compiled_stream to_str limits network r c selection credential)).
Proof.
  intros Hc. destruct (run_compiled_sent r c) as [[-> _]|(lookup & e & h & -> & _ & He & Hb)]; [constructor|].
  constructor; [|constructor]. destruct (build_http_request_safe _ _ _ _ _ _ _ _ Hc He Hb) as (? & Hurl & Hbody).
  split; [done|]. destruct (resolve_endpoint_inv _ _ _ _ _ He) as (_ & Hsel & _). eexists _, _. split; [exact Hsel|by left].
Qed.

Lemma count_sent (r : ProviderRequest Num) c h sent result :
  count to_str limits (counting network) selection credential r c = (sent, result) -> h ∈ sent ->
  sent = [h] /\ selection = Official /\
  exists spec, count_request limits (count_dns (counting network)) selection credential r c = Ok (spec, h) /\
    (forall n, result = Ok n ->
       read_count_response to_str limits (response_kind spec) (count_exchange (counting network) h) = Ok n).
Proof.
  unfold count, count_inner. destruct selection; cbn [is_official negb];
    [|intros [= <- <-] Hh; by apply not_elem_of_nil in Hh].
  destruct (count_request _ _ _ _ r c) as [[spec h']|e]; destruct (count_interrupt _) as [|[]|[]];
    intros [= <- <-] Hh; try (by apply not_elem_of_nil in Hh); apply list_elem_of_singleton in Hh as <-;
    (split; [done|split; [done|exists spec; split; [done|done]]]).
Qed.

Lemma count_Ok (r : ProviderRequest Num) c n :
  (count to_str limits (counting network) selection credential r c).2 = Ok n ->
  exists spec h, (count to_str limits (counting network) selection credential r c).1 = [h] /\ selection = Official /\
    count_request limits (count_dns (counting network)) selection credential r c = Ok (spec, h) /\
    read_count_response to_str limits (response_kind spec) (count_exchange (counting network) h) = Ok n.
Proof.
  unfold count, count_inner. destruct selection; cbn [is_official negb]; [|done].
  destruct (count_request _ _ _ _ r c) as [[spec h]|e]; destruct (count_interrupt _); try done.
  cbn. intros Hn. by exists spec, h.
Qed.

Lemma counting_requests_safe (prompt : CompiledPrompt) (model : ModelPresetSnapshot Num) :
  Forall (fun h => sent_safe credential h /\ exists r c, prepare_prompt_request prompt model = Ok (r, c) /\ made_from r c selection h)
    (counting_requests to_str limits network selection credential prompt model).
Proof.
  unfold counting_requests. destruct (prepare_prompt_request prompt model) as [[r c]|] eqn:Hp; [|constructor].
  destruct (prepared_compiles _ _ _ _ Hp) as [Hc _]. unfold run_counter.
  destruct (count to_str limits (counting network) selection credential r c) as [sent result] eqn:Hcount. cbn [fst].
  apply list.Forall_forall. intros h Hh.
  destruct (count_sent _ _ _ _ _ Hcount Hh) as (_ & _ & spec & Hspec & _).
  destruct (count_request_safe _ _ _ _ _ _ _ _ Hc Hspec) as (? & _ & _ & ?). split; [done|by exists r, c].
Qed.
End runs.

(** C22: A credential never leaves for the wrong place.  Every request that a run hands
    to the HTTP client, to count tokens or to generate, whatever the network, the
    request, the prompt, the endpoint chosen and the credential, is an HTTPS request on
    port 443 without userinfo; its addresses are outside the reserved blocks of IPv4,
    or in 2000::/3 outside the documentation and benchmarking blocks of IPv6; its host is
    an official host of the provider the credential is for, or exactly the host it was
    bound to.  The secret is in one header: the others are constants, and the URL and the
    body are those of the compiled request or of its count, which do not depend on the
    credential. *)
Theorem credential_stays_with_its_endpoint (to_str : bytes -> option str) {Num}
    `{SerdeJson Num, ProviderJson Num, UrlLaws, HttpLaws, CountJson}
    (limits : RuntimeLimits) (network : Network) (selection : EndpointSelection) (credential : ProviderCredential)
    (request : ProviderRequest Num) (prompt : CompiledPrompt) (model : ModelPresetSnapshot Num) :
  Forall (fun h => sent_safe credential h /\ exists c, compile_request request = Ok c /\ made_from request c selection h)
    (run_sent (run_classic_stream to_str limits network request selection credential)) /\
  Forall (fun h => sent_safe credential h /\ exists r c, prepare_prompt_request prompt model = Ok (r, c) /\ made_from r c selection h)
    (run_sent (run_prompt_stream to_str limits network prompt model selection credential)).
Proof.
  split.
  - unfold run_classic_stream. destruct (validate_event_channel _); [|constructor].
    destruct (cancelled_on_entry network); [constructor|].
    destruct (compile_request request) as [c|] eqn:Hc; [|constructor].
    eapply Forall_impl; [|by apply run_compiled_safe]. intros h [? ?]. split; [done|by exists c].
  - unfold run_prompt_stream. destruct (validate_event_channel _); [|constructor].
    destruct (cancelled_on_entry network); [constructor|]. cbn [after run_sent]. apply Forall_app.
    split; [by apply counting_requests_safe|].
    set (counter := fun (request : ProviderRequest Num) compiled =>
      (run_counter to_str limits network selection credential request compiled).2).
    destruct (compile_prompt_request counter prompt model) as [sealed|e] eqn:Hs.
    + apply sealed_was_counted in Hs as (r & c & n & Hp & _ & _ & -> & ->).
      destruct (prepared_compiles _ _ _ _ Hp) as [Hc _].
      eapply Forall_impl; [|by apply run_compiled_safe]. intros h [? ?]. split; [done|by exists r, c].
    + destruct e; try constructor. case_bool_decide; constructor.
Qed.

(** Providers whose interface has an exact count. *)
Definition countable_provider (p : ProviderId) : bool :=
  match p with OpenAi | GoogleGemini | GoogleVertexAi => true | Anthropic | DeepSeek | OllamaCloud => false end.

Lemma count_spec_countable {Num} (r : ProviderRequest Num) c spec :
  build_count_spec r c = Ok spec -> countable_provider (provider r) = true.
Proof. unfold build_count_spec. destruct (negb _); [done|]. by destruct (provider r). Qed.

Lemma counting_requests_shape to_str {Num} `{SerdeJson Num, ProviderJson Num, UrlLaws, HttpLaws, CountJson}
    limits network selection credential prompt (model : ModelPresetSnapshot Num) :
  let sent := counting_requests to_str limits network selection credential prompt model in
  (length sent <= 1)%nat /\ (countable_provider (m_provider model) = false -> sent = []).
Proof.
  cbn zeta. unfold counting_requests. destruct (prepare_prompt_request prompt model) as [[r c]|] eqn:Hp; [|split; [cbn; lia|done]].
  apply prepared_compiles in Hp as [Hc Hprov]. unfold run_counter.
  destruct (count to_str limits (counting network) selection credential r c) as [sent result] eqn:Hcount. cbn [fst].
  destruct sent as [|h sent']; [split; [cbn; lia|done]|].
  destruct (count_sent _ _ _ _ _ _ _ _ _ _ Hcount ltac:(left)) as (Hs & _ & spec & Hspec & _).
  injection Hs as ->. split; [cbn; lia|]. intros Hno. destruct (count_request_safe _ _ _ _ _ _ _ _ Hc Hspec) as (_ & Hb & _).
  apply count_spec_countable in Hb. congruence.
Qed.

(** C23: A prompt is only generated from after it was counted.  A prompt run hands at
    most two requests to the client.  The second, and any event delivered, comes only
    after a first one that asked the official endpoint for the number of input tokens of
    the compiled request, whose answer together with the reserved output fits the
    context; and what is then sent is the serialisation of that same compiled request.
    For a provider without an exact count nothing is sent at all. *)
Theorem prompt_is_counted_before_it_is_sent (to_str : bytes -> option str) {Num}
    `{SerdeJson Num, ProviderJson Num, UrlLaws, HttpLaws, CountJson}
    (limits : RuntimeLimits) (network : Network) (selection : EndpointSelection) (credential : ProviderCredential)
    (prompt : CompiledPrompt) (model : ModelPresetSnapshot Num) :
  let run := run_prompt_stream to_str limits network prompt model selection credential in
  (length (run_sent run) <= 1)%nat /\ run_delivered run = [] /\
    (countable_provider (m_provider model) = false -> run_sent run = []) \/
  countable_provider (m_provider model) = true /\ selection = Official /\
  exists request compiled spec counted generated n,
    run_sent run = [counted; generated] /\
    prepare_prompt_request prompt model = Ok (request, compiled) /\
    build_count_spec request compiled = Ok spec /\ json_to_vec (spec_body spec) = Some (sent_body counted) /\
    read_count_response to_str limits (response_kind spec) (count_exchange (counting network) counted) = Ok n /\
    n + capacity_max_output_tokens (capacity model) <= max_context_tokens (capacity model) /\
    json_to_vec (ProviderCompile.body compiled) = Some (sent_body generated).
Proof.
  intros run. subst run. unfold run_prompt_stream. destruct (validate_event_channel _); [|left; split_and!; cbn; auto with lia].
  destruct (cancelled_on_entry network); [left; split_and!; cbn; auto with lia|].
  destruct (counting_requests_shape to_str limits network selection credential prompt model) as [Hlen Hno].
  set (counter := fun (request : ProviderRequest Num) compiled =>
      (run_counter to_str limits network selection credential request compiled).2).
  destruct (compile_prompt_request counter prompt model) as [sealed|e] eqn:Hs.
  2: { left. assert (Hstop : forall res, after (counting_requests to_str limits network selection credential prompt model)
         (stopped res) = mkRunResult (counting_requests to_str limits network selection credential prompt model) [] (Some res))
         by (intros res; unfold after; cbn; by rewrite app_nil_r).
       destruct e; try (rewrite Hstop; split_and!; done). case_bool_decide; rewrite Hstop; split_and!; done. }
  apply sealed_was_counted in Hs as (r & c & n & Hp & Hn & Hfit & -> & ->). subst counter. cbv beta in Hn.
  destruct (count_Ok _ _ _ _ _ _ _ _ Hn) as (spec & counted & Hsent & Hsel & Hreq & Hread).
  assert (Hcr : counting_requests to_str limits network selection credential prompt model = [counted])
    by (unfold counting_requests; by rewrite Hp).
  apply prepared_compiles in Hp as Hc. destruct Hc as [Hc Hprov].
  destruct (count_request_safe _ _ _ _ _ _ _ _ Hc Hreq) as (_ & Hspec & Hbody & _).
  pose proof (count_spec_countable _ _ _ Hspec) as Hcount. rewrite Hprov in Hcount.
  rewrite Hcr in *. cbn [after run_sent run_delivered].
  destruct (run_compiled_sent to_str limits network selection credential r c)
    as [[-> ->]|(lookup & e & h & -> & _ & He & Hb)].
  - left. split_and!; [cbn; lia|done|congruence].
  - right. split_and!; [done..|]. destruct (build_http_request_safe _ _ _ _ _ _ _ _ Hc He Hb) as (_ & _ & Hsent').
    by exists r, c, spec, counted, h, n.
Qed.
