(* ===== verification/RunExamples.v ===== *)
(** * Provider runtime: an example run

    A URL parser, header types and answers that have the laws, and one prompt run with
    them: a token count, then the generation. *)

From S2P Require Import Prelude Bytes Utf8 Json Url ProviderConfig ProviderCompile ProviderCompileFacts RuntimeError Framing Decode DecodeRuns Endpoint Runner HttpSend TokenCount PromptTemplate PromptSchema PromptRegexFacts PromptValidate PromptCompile PromptExamples RunStreamFacts.

Module RunExample.
Import ProviderExample PromptExample.

(** ** URLs of the form [https://host/path?query] *)

Definition HTTPS : str := lit "https://".

Definition split_query (s : str) : str * option str :=
  match split_once (byte_of 63) s with Some (p, q) => (p, Some q) | None => (s, None) end.

Definition parse_https (s : str) : option Url :=
  if starts_with s HTTPS then
    match split_once SLASH (drop 8 s) with
    | Some (host, rest) =>
        let '(p, q) := split_query rest in
        Some (mkUrl (lit "https") false [] None (Some (Domain host)) None (SLASH :: p) q None)
    | None => None
    end
  else None.

#[export] Instance https_urls : UrlLib := {
  url_parse := parse_https;
  address_text _ := [];
  query_pairs _ := [];
  encode_path p := p;
}.

#[export] Instance https_laws : UrlLaws.
Proof.
  split. intros domain rest url Hb _. cbn [url_parse https_urls]. unfold parse_https.
  assert (Hs : starts_with (lit "https://" ++ domain ++ lit "/" ++ rest) HTTPS = true)
    by (apply starts_with_app; by eexists).
  rewrite Hs. change (drop 8 (lit "https://" ++ domain ++ lit "/" ++ rest)) with (domain ++ SLASH :: rest).
  rewrite split_once_app; [destruct (split_query rest); by intros [= <-]|].
  intros Hin. rewrite list.Forall_forall in Hb. by apply Hb in Hin.
Qed.

(** Header names in lower case, values as they are. *)
#[export] Instance plain_http : HttpLib := {
  header_name s := Some (to_ascii_lowercase s);
  header_value s := Some s;
  client_builds _ _ := true;
  request_builds _ _ _ := true;
}.

#[export] Instance plain_http_laws : HttpLaws.
Proof. split; intros ? ? [= <-]; done. Qed.

#[export] Instance fixed_counts : CountJson := {
  parse_openai_count _ := Some (lit "response.input_tokens", 21);
  parse_google_count _ := Some 21;
}.

(** ** The network *)

Definition public_address : IpAddr := V4 (v4 104 18 7 192).

Definition resolver (host : str) (port : Z) : DnsOutcome := DnsAddresses [(public_address, port)].

Definition json_headers : Headers := [(lit "content-type", lit "application/json")].
Definition stream_headers : Headers := [(lit "content-type", lit "text/event-stream")].

Definition count_network : CountNetwork :=
  mkCountNetwork resolver (fun _ => CountResponse 200 json_headers [CountChunk (lit "{}")]) Uninterrupted.

Definition network : Network :=
  mkNetwork false false count_network (Some resolver)
    (fun _ => ExchangeResponse 200 stream_headers []) 32 (fun _ => Sent).

Definition credential : ProviderCredential := mkCredential (OfficialProvider OpenAi) (lit "sk-1").

#[local] Existing Instance DecodeRuns.Examples.example_json.

Definition the_run : Run :=
  run_prompt_stream Some RuntimeLimits_default network prompt model Official credential.

Definition targets (r : Run) : list (option UrlHost * str) :=
  map (fun h => (url_host (sent_url h), path (sent_url h))) (run_sent r).

Example run_targets :
  targets the_run = [(Some (Domain (lit "api.openai.com")), lit "/v1/responses/input_tokens");
                     (Some (Domain (lit "api.openai.com")), lit "/v1/responses")].
Proof. vm_compute. reflexivity. Qed.

Example credential_made : for_official OpenAi (lit "sk-1") = Ok credential.
Proof. vm_compute. reflexivity. Qed.

(** A lookup that returns a private address besides a public one stops the run. *)
Definition rebinding (host : str) (port : Z) : DnsOutcome :=
  DnsAddresses [(public_address, port); (V6 (0xffff * 2 ^ 32 + v4 127 0 0 1), port)].

Definition rebound_network : Network :=
  mkNetwork false false count_network (Some rebinding)
    (fun _ => ExchangeResponse 200 stream_headers []) 32 (fun _ => Sent).

Example rebinding_is_refused :
  let r := run_classic_stream Some RuntimeLimits_default rebound_network vertex_request Official credential in
  run_sent r = [] /\ run_result r = Some (Err non_public).
Proof. vm_compute. split; reflexivity. Qed.

Lemma credential_stays_with_its_endpoint_witness :
  Forall (fun h => sent_safe credential h /\
            exists r c, prepare_prompt_request prompt model = Ok (r, c) /\ made_from r c Official h) (run_sent the_run).
Proof.
  exact (proj2 (credential_stays_with_its_endpoint Some RuntimeLimits_default network Official credential
    vertex_request prompt model)).
Defined.

Lemma run_sends_two : length (run_sent the_run) = 2%nat.
Proof. vm_compute. reflexivity. Qed.

Lemma prompt_is_counted_before_it_is_sent_witness : countable_provider (m_provider model) = true.
Proof.
  pose proof (prompt_is_counted_before_it_is_sent Some RuntimeLimits_default network Official credential prompt model)
    as Hrun. cbv zeta in Hrun. destruct Hrun as [(Hlen & _)|(Hc & _)]; [exfalso|exact Hc].
  assert (H2 := run_sends_two). unfold the_run in H2. rewrite H2 in Hlen. inversion Hlen as [|m Hle]. inversion Hle.
Defined.

Lemma is_public_ip_by_blocks_witness : is_public_ip public_address = public_by_blocks public_address.
Proof. apply (is_public_ip_by_blocks public_address). split; vm_compute; congruence. Defined.

(** ** Counting *)

Definition request_of (r : VResult (ProviderRequest Z * CompiledProviderRequest Z)) : option (ProviderRequest Z) :=
  match r with Ok (request, _) => Some request | Err _ => None end.

Definition request : ProviderRequest Z :=
  mkRequest OpenAi (lit "gpt") (prompt_messages prompt) no_options (OpenAiOpts (mkOpenAiOptions None None None)) None [].

Definition compiled : CompiledProviderRequest Z :=
  match compile_request request with
  | Ok c => c
  | Err _ => mkCompiled OpenAi [] [] AuthorizationBearer [] ProtoSse Null None
  end.

Lemma request_compiles : compile_request request = Ok compiled.
Proof. vm_compute. reflexivity. Qed.

Lemma compiled_request_can_be_counted_witness : exists spec, build_count_spec request compiled = Ok spec.
Proof. exact (compiled_request_can_be_counted request compiled request_compiles eq_refl I (or_introl eq_refl)). Defined.

Lemma counted_document_is_the_sent_input_witness :
  exists members, ProviderCompile.body compiled = Object members.
Proof.
  destruct (build_count_spec request compiled) as [spec|e] eqn:Hs.
  - destruct (counted_document_is_the_sent_input request compiled spec request_compiles Hs) as (members & Hb & _).
    exists members. exact Hb.
  - apply (f_equal is_ok) in Hs. vm_compute in Hs. discriminate.
Defined.
End RunExample.
