(* ===== verification/MemoryConfig.v ===== *)
(** * Memory: presets

    Models [crates/lorepia-memory/src/error.rs], [id.rs] and [config.rs]: the errors of
    the crate, its identifiers and versioned references, and the memory presets with
    the policies they are made of.

    The regex engine, SHA-256 and the JSON of a prompt preset are parameters
    ([MemoryLib]).  The theorem shows that every preset the crate can build is well
    formed and that its revision counts its updates. *)

From S2P Require Import Prelude Bytes Utf8 PromptTemplate PromptSchema.

(** ** Errors (error.rs); the payload of [Json], which is [serde_json]'s, is left out *)

Inductive MemoryError : Type :=
  | MemInvalidField (field reason : string)
  | MemTooManyItems (field : string) (max : Z)
  | MemPayloadTooLarge (field : string) (max_bytes : Z)
  | MemRevisionConflict (expected actual : Z)
  | MemBindingMismatch (field : string) (expected actual : str)
  | MemDuplicateId (field : string) (id : str)
  | MemRetrievalUnavailable (reason : string)
  | MemRevisionOverflow
  | MemState (reason : str)
  | MemRegex (reason : string)
  | MemPrompt (e : PromptError)
  | MemJson.

Abbreviation MemResult := (result MemoryError).

(** ** Constants (lib.rs) *)

Definition BASIS_POINTS_SCALE : Z := 10000.
Definition MAX_MEMORY_PRESET_STATE_BYTES : Z := 512 * 1024.
Definition MAX_MEMORY_PRESETS : Z := 256.
Definition MAX_MEMORY_LABEL_BYTES : Z := 256.
Definition MAX_SUMMARY_PROMPT_BYTES : Z := 64 * 1024.
Definition MAX_CHUNK_SEPARATOR_REGEX_BYTES : Z := 4 * 1024.
Definition MAX_MESSAGES_PER_SUMMARY : Z := 256.
Definition MAX_QUERY_MESSAGE_COUNT : Z := 128.
Definition MAX_SOURCE_MESSAGES : Z := 4096.
Definition MAX_SOURCE_MESSAGE_BYTES : Z := 256 * 1024.
Definition MAX_SOURCE_BATCH_BYTES : Z := 4 * 1024 * 1024.
Definition MAX_SUMMARY_PLAN_BYTES : Z := 16 * 1024 * 1024.
Definition MAX_MEMORY_ARTIFACT_BYTES : Z := 256 * 1024.
Definition MAX_MEMORY_CANDIDATES : Z := 4096.
Definition MAX_MEMORY_CHUNKS : Z := 2048.
Definition MAX_EMBEDDING_DIMENSIONS : Z := 8192.

Definition NUL : byte := byte_of 0.

(** What the crate calls: [RegexBuilder] with the crate's limits and the positions of
    the matches; SHA-256; [serde_json] on a prompt preset. *)
Class MemoryLib : Type := {
  SepRegex : Type;
  sep_build : str -> option SepRegex;
  sep_find_iter : SepRegex -> str -> list (nat * nat);
  memory_sha256 : bytes -> bytes;
  prompt_preset_json : PromptPreset -> option bytes;
}.

(** ** Identifiers (id.rs) *)

Definition MAX_OPAQUE_ID_BYTES : Z := 128.

Definition opaque_byte (b : byte) : bool := is_ascii_alphanumeric b || one_of "-_." b.

Definition validate_id (field : string) (value : str) : MemResult unit :=
  if is_empty value || (len value >? MAX_OPAQUE_ID_BYTES)
  then Err (MemInvalidField field "must be 1-128 bytes")
  else if contains value (lit "..") || negb (forallb opaque_byte value)
  then Err (MemInvalidField field "must be a safe opaque ASCII identifier")
  else Ok tt.

(** The six identifier types differ in the name of their field only. *)
Definition opaque_id_parse (field : string) (value : str) : MemResult str :=
  _ ← validate_id field value;
  mret value.

Definition MemoryArtifactId_parse (value : str) : MemResult str :=
  opaque_id_parse "memoryArtifactId" value.

Record VersionedRef : Type := mkRef { ref_id : str; ref_revision : Z }.

#[export] Instance VersionedRef_eq_dec : EqDecision VersionedRef.
Proof. solve_decision. Defined.

Definition VersionedRef_new (id : str) (revision : Z) : MemResult VersionedRef :=
  if revision =? 0 then Err (MemInvalidField "revision" "must be at least 1")
  else Ok (mkRef id revision).

(** ** Policies (config.rs) *)

Definition BasisPoints_new (value : Z) : MemResult Z :=
  if value >? BASIS_POINTS_SCALE
  then Err (MemInvalidField "basisPoints" "must be in 0..=10000") else Ok value.

Record MemoryMix : Type := mkMix { mix_recent : Z; mix_similar : Z; mix_random : Z }.

Definition ratio_overflow : MemoryError := MemInvalidField "memoryMix" "ratio sum overflowed".

Definition MemoryMix_new (recent similar random : Z) : MemResult MemoryMix :=
  sum ← ok_or (checked_add U32_MAX recent similar ≫= fun value => checked_add U32_MAX value random)
          ratio_overflow;
  if negb (sum =? BASIS_POINTS_SCALE)
  then Err (MemInvalidField "memoryMix" "recent, similar, and random must sum to 10000")
  else Ok (mkMix recent similar random).

Inductive EmbeddingQueryScope : Type := Conversation | AssistantOnly.

Inductive RegenerationRegexPolicy : Type := Skip | ApplyPinnedPromptResponseRules.

Inductive SummaryModelRef : Type := ActiveChatModel | ModelPreset (preset : VersionedRef).

(** The separator is kept as its pattern ([ChunkSeparatorRegex]). *)
Record SummaryPolicy : Type := mkSummaryPolicy {
  summary_prompt : str;
  resummary_prompt : str;
  max_messages_per_summary : Z;
  skip_user_messages : bool;
  chunk_separator : str;
}.

Record InsertionPolicy : Type := mkInsertion {
  memory_budget : Z;
  additional_detail_budget : Z;
}.

Definition InsertionPolicy_new (memory_budget additional_detail_budget : Z) : MemResult InsertionPolicy :=
  if memory_budget =? 0 then Err (MemInvalidField "memoryBudgetBps" "must be greater than zero")
  else Ok (mkInsertion memory_budget additional_detail_budget).

Record HybridRetrievalPolicy : Type := mkHybrid {
  query_message_count : Z;
  query_scope : EmbeddingQueryScope;
  selection_mix : MemoryMix;
  embedding_profile : VersionedRef;
}.

Definition HybridRetrievalPolicy_new (count : Z) (scope : EmbeddingQueryScope) (mix : MemoryMix)
    (profile : VersionedRef) : MemResult HybridRetrievalPolicy :=
  if (count =? 0) || (count >? MAX_QUERY_MESSAGE_COUNT)
  then Err (MemInvalidField "queryMessageCount" "must be in 1..=128")
  else if mix_similar mix =? 0
  then Err (MemInvalidField "selectionMix.similar"
              "hybrid retrieval requires a non-zero similar-memory share")
  else Ok (mkHybrid count scope mix profile).

Inductive MemoryStrategy : Type :=
  | RollingSummary
  | HybridRetrieval (policy : HybridRetrievalPolicy).

Record MemoryPresetDraft : Type := mkDraft {
  draft_label : str;
  draft_strategy : MemoryStrategy;
  draft_prompt_preset : VersionedRef;
  draft_summary_model : SummaryModelRef;
  draft_summary : SummaryPolicy;
  draft_insertion : InsertionPolicy;
  draft_preserve_compacted_orphans : bool;
  draft_regeneration_regex : RegenerationRegexPolicy;
}.

Record MemoryPreset : Type := mkMemoryPreset {
  preset_id : str;
  preset_revision : Z;
  preset_label : str;
  strategy : MemoryStrategy;
  preset_prompt_preset : VersionedRef;
  preset_summary_model : SummaryModelRef;
  summary : SummaryPolicy;
  insertion : InsertionPolicy;
  preserve_compacted_orphans : bool;
  regeneration_regex : RegenerationRegexPolicy;
}.

(** [character.is_control() && !matches!(character, '\n' | '\r' | '\t')] *)
Definition disallowed_control (c : Z) : bool :=
  is_control c && negb ((c =? 10) || (c =? 13) || (c =? 9)).

Definition validate_authored_prompt (field : string) (value : str) : MemResult unit :=
  if is_empty (trim value) then Err (MemInvalidField field "must not be empty")
  else if len value >? MAX_SUMMARY_PROMPT_BYTES
  then Err (MemPayloadTooLarge field MAX_SUMMARY_PROMPT_BYTES)
  else if existsb disallowed_control (chars value)
  then Err (MemInvalidField field "must contain no disallowed control characters")
  else Ok tt.

Definition validate_label (value : str) : MemResult unit :=
  if is_empty value || (len value >? MAX_MEMORY_LABEL_BYTES)
  then Err (MemInvalidField "label" "must be 1-256 bytes")
  else if negb (str_eqb (trim value) value) || existsb is_control (chars value)
  then Err (MemInvalidField "label" "must have no surrounding whitespace or control characters")
  else Ok tt.

Section config.
Context `{MemoryLib}.

(** [regex.is_match("")] *)
Definition compile_chunk_separator (pattern : str) : MemResult SepRegex :=
  if is_empty pattern || (len pattern >? MAX_CHUNK_SEPARATOR_REGEX_BYTES)
  then Err (MemInvalidField "chunkSeparatorRegex" "must be 1-4096 bytes")
  else
    regex ← ok_or (sep_build pattern) (MemRegex "pattern is outside the bounded Rust regex contract");
    if negb (is_empty (sep_find_iter regex []))
    then Err (MemRegex "separator must not match an empty string")
    else Ok regex.

Definition ChunkSeparatorRegex_new (pattern : str) : MemResult str :=
  _ ← compile_chunk_separator pattern;
  mret pattern.

Definition summary_policy_validate (self : SummaryPolicy) : MemResult unit :=
  _ ← validate_authored_prompt "summaryPrompt" (summary_prompt self);
  _ ← validate_authored_prompt "resummaryPrompt" (resummary_prompt self);
  if (max_messages_per_summary self =? 0) ||
     (max_messages_per_summary self >? MAX_MESSAGES_PER_SUMMARY)
  then Err (MemInvalidField "maxMessagesPerSummary" "must be in 1..=256")
  else
    _ ← compile_chunk_separator (chunk_separator self);
    mret tt.

Definition SummaryPolicy_new (summary_prompt resummary_prompt : str) (max_messages : Z)
    (skip_user : bool) (separator : str) : MemResult SummaryPolicy :=
  let value := mkSummaryPolicy summary_prompt resummary_prompt max_messages skip_user separator in
  _ ← summary_policy_validate value;
  mret value.

Definition from_parts (id : str) (revision : Z) (draft : MemoryPresetDraft) : MemResult MemoryPreset :=
  if revision =? 0 then Err (MemInvalidField "revision" "must be at least 1")
  else
    _ ← validate_label (draft_label draft);
    _ ← summary_policy_validate (draft_summary draft);
    mret (mkMemoryPreset id revision (draft_label draft) (draft_strategy draft) (draft_prompt_preset draft)
            (draft_summary_model draft) (draft_summary draft) (draft_insertion draft)
            (draft_preserve_compacted_orphans draft) (draft_regeneration_regex draft)).

Definition create (id : str) (draft : MemoryPresetDraft) : MemResult MemoryPreset :=
  from_parts id 1 draft.

Definition updated (self : MemoryPreset) (expected_revision : Z) (draft : MemoryPresetDraft) :
    MemResult MemoryPreset :=
  if negb (expected_revision =? preset_revision self)
  then Err (MemRevisionConflict expected_revision (preset_revision self))
  else
    revision ← ok_or (checked_add U64_MAX (preset_revision self) 1) MemRevisionOverflow;
    from_parts (preset_id self) revision draft.

(** ** Well-formedness: what the constructors of each type guarantee *)

Definition ref_ok (r : VersionedRef) : Prop := 1 <= ref_revision r <= U64_MAX.

Definition mix_ok (m : MemoryMix) : Prop :=
  0 <= mix_recent m <= BASIS_POINTS_SCALE /\ 0 <= mix_similar m <= BASIS_POINTS_SCALE /\
  0 <= mix_random m <= BASIS_POINTS_SCALE /\
  mix_recent m + mix_similar m + mix_random m = BASIS_POINTS_SCALE.

Definition strategy_ok (s : MemoryStrategy) : Prop :=
  match s with
  | RollingSummary => True
  | HybridRetrieval p =>
      1 <= query_message_count p <= MAX_QUERY_MESSAGE_COUNT /\ mix_ok (selection_mix p) /\
      mix_similar (selection_mix p) <> 0 /\ ref_ok (embedding_profile p)
  end.

Definition insertion_ok (p : InsertionPolicy) : Prop :=
  0 < memory_budget p <= BASIS_POINTS_SCALE /\ 0 <= additional_detail_budget p <= BASIS_POINTS_SCALE.

Definition model_ok (m : SummaryModelRef) : Prop :=
  match m with ActiveChatModel => True | ModelPreset r => ref_ok r end.

(** A prompt has text, is bounded and has no control character but line breaks and
    tabs. *)
Definition prompt_ok (value : str) : Prop :=
  trim value <> [] /\ len value <= MAX_SUMMARY_PROMPT_BYTES /\
  Forall (fun c => disallowed_control c = false) (chars value).

Definition separator_ok (pattern : str) : Prop :=
  exists regex, sep_build pattern = Some regex /\ sep_find_iter regex [] = [] /\
    0 < len pattern <= MAX_CHUNK_SEPARATOR_REGEX_BYTES.

Record summary_ok (p : SummaryPolicy) : Prop := {
  sk_prompt : prompt_ok (summary_prompt p);
  sk_resummary : prompt_ok (resummary_prompt p);
  sk_batch : 1 <= max_messages_per_summary p <= MAX_MESSAGES_PER_SUMMARY;
  sk_separator : separator_ok (chunk_separator p);
}.

Definition label_ok (value : str) : Prop :=
  0 < len value <= MAX_MEMORY_LABEL_BYTES /\ trim value = value /\
  Forall (fun c => is_control c = false) (chars value).

Record preset_ok (p : MemoryPreset) : Prop := {
  pk_revision : 1 <= preset_revision p <= U64_MAX;
  pk_label : label_ok (preset_label p);
  pk_strategy : strategy_ok (strategy p);
  pk_prompt : ref_ok (preset_prompt_preset p);
  pk_model : model_ok (preset_summary_model p);
  pk_summary : summary_ok (summary p);
  pk_insertion : insertion_ok (insertion p);
}.

(** ** What a caller can build

    The fields of a draft are public, those of the types they hold are private: a value of
    such a type is what its constructor returned for machine integers. *)

Inductive built_ref : VersionedRef -> Prop :=
  | build_ref id revision r : 0 <= revision <= U64_MAX -> VersionedRef_new id revision = Ok r -> built_ref r.

Inductive built_share : Z -> Prop :=
  | build_share value b : 0 <= value <= U16_MAX -> BasisPoints_new value = Ok b -> built_share b.

Inductive built_strategy : MemoryStrategy -> Prop :=
  | build_rolling : built_strategy RollingSummary
  | build_hybrid count scope recent similar random mix profile p :
      0 <= count <= U16_MAX -> built_share recent -> built_share similar -> built_share random ->
      MemoryMix_new recent similar random = Ok mix -> built_ref profile ->
      HybridRetrievalPolicy_new count scope mix profile = Ok p -> built_strategy (HybridRetrieval p).

Inductive built_model : SummaryModelRef -> Prop :=
  | build_active : built_model ActiveChatModel
  | build_model r : built_ref r -> built_model (ModelPreset r).

Inductive built_insertion : InsertionPolicy -> Prop :=
  | build_insertion budget detail p :
      built_share budget -> built_share detail -> InsertionPolicy_new budget detail = Ok p -> built_insertion p.

Inductive built_summary : SummaryPolicy -> Prop :=
  | build_summary prompt reprompt batch skip pattern separator p :
      0 <= batch <= U16_MAX -> ChunkSeparatorRegex_new pattern = Ok separator ->
      SummaryPolicy_new prompt reprompt batch skip separator = Ok p -> built_summary p.

Record draft_built (d : MemoryPresetDraft) : Prop := {
  db_strategy : built_strategy (draft_strategy d);
  db_prompt : built_ref (draft_prompt_preset d);
  db_model : built_model (draft_summary_model d);
  db_summary : built_summary (draft_summary d);
  db_insertion : built_insertion (draft_insertion d);
}.
End config.

(** ** What the constructors establish *)

Lemma VersionedRef_new_ok id revision r :
  VersionedRef_new id revision = Ok r -> 0 <= revision <= U64_MAX -> r = mkRef id revision /\ ref_ok r.
Proof.
  unfold VersionedRef_new. destruct (_ =? _) eqn:He; [done|]. intros [= <-] Hr.
  unfold ref_ok. cbn. split; [done|lia].
Qed.

Lemma BasisPoints_new_ok v b : BasisPoints_new v = Ok b -> b = v /\ v <= BASIS_POINTS_SCALE.
Proof. unfold BasisPoints_new. destruct (_ >? _) eqn:He; [done|]. intros [= <-]. split; [done|lia]. Qed.

Lemma MemoryMix_new_ok a b c m :
  MemoryMix_new a b c = Ok m ->
  0 <= a <= BASIS_POINTS_SCALE -> 0 <= b <= BASIS_POINTS_SCALE -> 0 <= c <= BASIS_POINTS_SCALE ->
  m = mkMix a b c /\ mix_ok m.
Proof.
  unfold MemoryMix_new. intros Hm Ha Hb Hc. apply bind_Ok in Hm as (s & Hs%ok_or_Ok & Hm).
  destruct (checked_add U32_MAX a b) as [ab|] eqn:Hab; [|done]. cbn in Hs.
  apply checked_add_Some in Hab as [-> _], Hs as [-> _].
  destruct (_ =? _) eqn:He; [|done]. injection Hm as <-. unfold mix_ok. cbn.
  repeat split; lia.
Qed.

Lemma HybridRetrievalPolicy_new_ok count scope mix profile p :
  HybridRetrievalPolicy_new count scope mix profile = Ok p ->
  0 <= count -> mix_ok mix -> ref_ok profile ->
  p = mkHybrid count scope mix profile /\ strategy_ok (HybridRetrieval p).
Proof.
  unfold HybridRetrievalPolicy_new. destruct (_ || _) eqn:Hc; [done|].
  destruct (mix_similar mix =? 0) eqn:Hs; [done|]. intros [= <-] Hp Hm Hr. split; [done|]. cbn. zify_bool.
  repeat split; try apply Hm; try apply Hr; lia.
Qed.

Lemma InsertionPolicy_new_ok b d p :
  InsertionPolicy_new b d = Ok p -> 0 <= b <= BASIS_POINTS_SCALE -> 0 <= d <= BASIS_POINTS_SCALE ->
  p = mkInsertion b d /\ insertion_ok p.
Proof.
  unfold InsertionPolicy_new. destruct (_ =? _) eqn:He; [done|]. intros [= <-] ? ?.
  unfold insertion_ok. cbn. repeat split; lia.
Qed.

Lemma validate_authored_prompt_iff field value :
  validate_authored_prompt field value = Ok tt <-> prompt_ok value.
Proof.
  unfold validate_authored_prompt, prompt_ok. rewrite <- is_empty_false, <- existsb_false_Forall.
  destruct (is_empty _), (len value >? MAX_SUMMARY_PROMPT_BYTES) eqn:Hl, (existsb _ _);
    split; intros Hx; try done; try (destruct Hx as (? & ? & ?); try done; lia).
  repeat split; lia.
Qed.

Lemma validate_label_iff value : validate_label value = Ok tt <-> label_ok value.
Proof.
  unfold validate_label, label_ok. rewrite <- existsb_false_Forall, <- str_eqb_eq.
  destruct value as [|c value]; [cbn; split; [done|intros [[? ?] _]; done]|].
  cbn [is_empty orb]. pose proof (len_nonneg value). rewrite len_cons.
  destruct (1 + len value >? MAX_MEMORY_LABEL_BYTES) eqn:Hl, (str_eqb _ _), (existsb _ _);
    split; intros Hx; try done; try (destruct Hx as (? & ? & ?); try done; lia).
  repeat split; lia.
Qed.

Section presets.
Context `{MemoryLib}.

Lemma compile_chunk_separator_ok pattern regex :
  compile_chunk_separator pattern = Ok regex ->
  sep_build pattern = Some regex /\ sep_find_iter regex [] = [] /\
  0 < len pattern <= MAX_CHUNK_SEPARATOR_REGEX_BYTES.
Proof.
  unfold compile_chunk_separator. destruct (_ || _) eqn:Hl; [done|]. intros Hr.
  apply bind_Ok in Hr as (r & Hb%ok_or_Ok & Hr). apply orb_false_iff in Hl as [He Hl].
  destruct (is_empty (sep_find_iter r [])) eqn:Hm; [|done]. injection Hr as <-.
  apply is_empty_true in Hm. apply is_empty_false in He. split; [done|]. split; [done|].
  destruct pattern; [done|]. rewrite len_cons in *. pose proof (len_nonneg pattern). lia.
Qed.

Lemma separator_compiles pattern :
  separator_ok pattern -> exists regex, compile_chunk_separator pattern = Ok regex.
Proof.
  intros (regex & Hb & Hm & Hl). exists regex. unfold compile_chunk_separator.
  destruct pattern; [unfold len in Hl; cbn in Hl; lia|]. cbn [is_empty orb]. rewrite gtb_false by lia.
  rewrite Hb. cbn [ok_or mbind result_bind]. by rewrite Hm.
Qed.

Lemma summary_policy_validate_iff p :
  0 <= max_messages_per_summary p -> summary_policy_validate p = Ok tt <-> summary_ok p.
Proof.
  intros Hn. unfold summary_policy_validate. split.
  - intros Hv. apply bind_Ok in Hv as ([] & H1%validate_authored_prompt_iff & Hv).
    apply bind_Ok in Hv as ([] & H2%validate_authored_prompt_iff & Hv).
    destruct (_ || _) eqn:Hb; [done|]. zify_bool.
    apply bind_Ok in Hv as (r & Hc%compile_chunk_separator_ok & _).
    split; [done|done|lia|by exists r].
  - intros [H1 H2 Hb Hs]. rewrite (proj2 (validate_authored_prompt_iff _ _) H1).
    rewrite (proj2 (validate_authored_prompt_iff _ _) H2). cbn [mbind result_bind].
    destruct (separator_compiles _ Hs) as [r Hr]. rewrite Hr.
    destruct (_ || _) eqn:Hb'; [zify_bool; lia|]. done.
Qed.

(** Each constructor accepts exactly the well-formed values. *)
Lemma built_ref_iff r : built_ref r <-> ref_ok r.
Proof.
  split.
  - intros [id revision r' Hr Hn]. by eapply VersionedRef_new_ok.
  - destruct r as [id revision]. unfold ref_ok. cbn. intros Hr. apply (build_ref id revision); [lia|].
    unfold VersionedRef_new. by rewrite (proj2 (Z.eqb_neq revision 0)) by lia.
Qed.

Lemma built_share_iff b : built_share b <-> 0 <= b <= BASIS_POINTS_SCALE.
Proof.
  split.
  - intros [value b' Hv [-> Hle]%BasisPoints_new_ok]. lia.
  - intros Hb. apply (build_share b); [unfold BASIS_POINTS_SCALE, U16_MAX in *; lia|].
    unfold BasisPoints_new. by rewrite gtb_false by lia.
Qed.

Lemma built_strategy_iff st : built_strategy st <-> strategy_ok st.
Proof.
  split.
  - intros [|count scope a b c mix profile p Hn Ha%built_share_iff Hb%built_share_iff Hc%built_share_iff Hm Hr%built_ref_iff Hp]; [done|].
    apply MemoryMix_new_ok in Hm as [_ Hm]; [|done..]. by eapply HybridRetrievalPolicy_new_ok; [done|lia|..].
  - destruct st as [|[count scope [a b c] profile]]; [constructor|]. cbn. intros (Hn & (Ha & Hb & Hc & Hsum) & Hs & Hr).
    cbn in *. apply (build_hybrid count scope a b c (mkMix a b c) profile); try (by apply built_share_iff).
    + unfold MAX_QUERY_MESSAGE_COUNT, U16_MAX in *. lia.
    + unfold MemoryMix_new, checked_add, U32_MAX, BASIS_POINTS_SCALE in *.
      rewrite (proj2 (Z.leb_le _ _)) by lia. cbn. rewrite (proj2 (Z.leb_le _ _)) by lia. cbn.
      by rewrite (proj2 (Z.eqb_eq _ _)) by lia.
    + by apply built_ref_iff.
    + unfold HybridRetrievalPolicy_new. cbn. rewrite (proj2 (Z.eqb_neq count 0)) by lia. rewrite gtb_false by lia.
      by rewrite (proj2 (Z.eqb_neq b 0)) by lia.
Qed.

Lemma built_model_iff m : built_model m <-> model_ok m.
Proof.
  split; [intros [|r Hr]; [done|by apply built_ref_iff]|].
  destruct m as [|r]; [constructor|]. intros Hr. constructor. by apply built_ref_iff.
Qed.

Lemma built_insertion_iff p : built_insertion p <-> insertion_ok p.
Proof.
  split.
  - intros [budget detail q Hb%built_share_iff Hd%built_share_iff Hp]. by eapply InsertionPolicy_new_ok.
  - destruct p as [budget detail]. intros [Hb Hd]. cbn in *. apply (build_insertion budget detail);
      [apply built_share_iff; lia|by apply built_share_iff|]. unfold InsertionPolicy_new. by rewrite (proj2 (Z.eqb_neq budget 0)) by lia.
Qed.

Lemma built_summary_iff p : built_summary p <-> summary_ok p.
Proof.
  split.
  - intros [prompt reprompt batch skip pattern separator q Hb _ Hp]. unfold SummaryPolicy_new in Hp.
    apply bind_Ok in Hp as ([] & Hv & Hq). injection Hq as <-. apply summary_policy_validate_iff in Hv; [done|cbn; lia].
  - destruct p as [prompt reprompt batch skip separator]. intros Hok. pose proof (sk_batch _ Hok) as Hb. cbn in Hb.
    apply (build_summary prompt reprompt batch skip separator separator).
    + unfold MAX_MESSAGES_PER_SUMMARY, U16_MAX in *. lia.
    + destruct (separator_compiles _ (sk_separator _ Hok)) as [r Hr]. unfold ChunkSeparatorRegex_new. cbn in Hr. by rewrite Hr.
    + apply summary_policy_validate_iff in Hok; [|cbn; lia]. unfold SummaryPolicy_new. by rewrite Hok.
Qed.

Definition draft_of (p : MemoryPreset) : MemoryPresetDraft :=
  mkDraft (preset_label p) (strategy p) (preset_prompt_preset p) (preset_summary_model p) (summary p) (insertion p)
    (preserve_compacted_orphans p) (regeneration_regex p).

Definition at_revision (revision : Z) (p : MemoryPreset) : MemoryPreset :=
  mkMemoryPreset (preset_id p) revision (preset_label p) (strategy p) (preset_prompt_preset p) (preset_summary_model p)
    (summary p) (insertion p) (preserve_compacted_orphans p) (regeneration_regex p).

(** [from_parts] accepts exactly what makes a well-formed preset, and keeps it. *)
Lemma from_parts_iff id revision d p :
  0 <= revision <= U64_MAX -> draft_built d ->
  from_parts id revision d = Ok p <->
  preset_ok p /\ draft_of p = d /\ preset_id p = id /\ preset_revision p = revision.
Proof.
  intros Hr [Hst%built_strategy_iff Hp%built_ref_iff Hm%built_model_iff Hs%built_summary_iff Hi%built_insertion_iff].
  pose proof (sk_batch _ Hs) as Hb. apply summary_policy_validate_iff in Hs as Hv'; [|lia]. unfold from_parts. rewrite Hv'. split.
  - destruct (_ =? _) eqn:He; [done|]. intros Hv. apply bind_Ok in Hv as ([] & Hl%validate_label_iff & Hv). injection Hv as <-.
    split; [|by destruct d]. split; cbn; try done. lia.
  - intros (Hok & <- & <- & <-). pose proof (pk_revision _ Hok). destruct (_ =? _) eqn:He; [lia|].
    cbn [draft_label draft_of]. rewrite (proj2 (validate_label_iff _) (pk_label _ Hok)). by destruct p.
Qed.

Lemma draft_of_built p : preset_ok p -> draft_built (draft_of p).
Proof.
  intros [_ _ ? ? ? ? ?]. split; [by apply built_strategy_iff|by apply built_ref_iff|by apply built_model_iff|
    by apply built_summary_iff|by apply built_insertion_iff].
Qed.

(** ** Histories of a preset *)

(** A preset and the number of accepted edits since it was created. *)
Inductive history (id : str) : MemoryPreset -> nat -> Prop :=
  | history_create d p : draft_built d -> create id d = Ok p -> history id p 0
  | history_update p n expected d p' :
      history id p n -> draft_built d -> updated p expected d = Ok p' -> history id p' (S n).

Lemma history_inv id p n :
  history id p n -> preset_ok p /\ preset_id p = id /\ preset_revision p = 1 + Z.of_nat n.
Proof.
  induction 1 as [d p Hd Hc|p n expected d p' Hh (Hok & Hid & Hrev) Hd Hu].
  - by apply from_parts_iff in Hc as (? & _ & ? & ?); [|unfold U64_MAX; lia|].
  - unfold updated in Hu. destruct (_ =? _) eqn:He; [|done].
    apply bind_Ok in Hu as (r & Hr%ok_or_Ok & Hu). apply checked_add_Some in Hr as [-> Hle].
    pose proof (pk_revision _ Hok). apply from_parts_iff in Hu as (? & _ & ? & ?); [|lia|done].
    split_and!; [done|congruence|lia].
Qed.

Lemma at_revision_ok p revision : preset_ok p -> 1 <= revision <= preset_revision p -> preset_ok (at_revision revision p).
Proof. intros [Hr ? ? ? ? ? ?] ?. split; cbn; try done. lia. Qed.

(** Every well-formed preset is reached, by creating it and editing it to the same text. *)
Lemma history_reaches p n : preset_ok p -> Z.of_nat n < preset_revision p ->
  history (preset_id p) (at_revision (1 + Z.of_nat n) p) n.
Proof.
  intros Hok. pose proof (pk_revision _ Hok) as Hrev. induction n as [|n IH]; intros Hn.
  - apply (history_create _ (draft_of p)); [by apply draft_of_built|]. unfold create.
    apply from_parts_iff; [unfold U64_MAX; lia|by apply draft_of_built|]. split; [apply at_revision_ok; [done|lia]|done].
  - apply (history_update _ (at_revision (1 + Z.of_nat n) p) n (1 + Z.of_nat n) (draft_of p)); [apply IH; lia|by apply draft_of_built|].
    unfold updated. cbn [preset_revision at_revision]. rewrite Z.eqb_refl. cbn [negb]. unfold checked_add.
    rewrite (proj2 (Z.leb_le _ _)) by lia. cbn [ok_or mbind result_bind].
    apply from_parts_iff; [lia|by apply draft_of_built|]. split; [apply at_revision_ok; [done|lia]|].
    split_and!; try done. cbn. lia.
Qed.
End presets.

