(* ===== verification/MemoryBudget.v ===== *)
(** * Memory: token budgets

    Models [crates/lorepia-memory/src/budget.rs]: how the tokens left after the output
    and the exact prompt are divided between the summary and the retrieved detail.

    The theorems show that the parts add up exactly, that nothing exceeds the
    context, and that the retrieval shares are the largest-remainder
    apportionment. *)

From stdpp Require Import sorting.
From S2P Require Import Prelude Sorting Bytes MemoryConfig.

(** ** Budgets (budget.rs) *)

Record MemoryBudgetInput : Type := mkBudgetInput {
  max_context_tokens : Z;
  budget_max_output_tokens : Z;
  exact_non_memory_tokens : Z;
}.

Definition MemoryBudgetInput_new (context output non_memory : Z) : MemResult MemoryBudgetInput :=
  if (context =? 0) || (output =? 0) || (output >? context)
  then Err (MemInvalidField "memoryBudgetInput"
              "context and output limits must be positive and output must fit context")
  else
    let input_capacity := context - output in
    if non_memory >? input_capacity
    then Err (MemInvalidField "exactNonMemoryTokens"
                "must fit the context remaining after max output")
    else Ok (mkBudgetInput context output non_memory).

Definition scale_tokens (tokens basis_points : Z) : Z := tokens * basis_points / BASIS_POINTS_SCALE.

(** [right.0.cmp(&left.0).then_with(|| left.1.cmp(&right.1))]: larger remainders
    first, then smaller indexes. *)
Definition compare_remainders (left right : Z * nat) : comparison :=
  then_with (Z.compare right.1 left.1) (Z.compare (Z.of_nat left.2) (Z.of_nat right.2)).

Definition floor_shares (total : Z) (weights : list Z) : list Z :=
  map (fun weight => total * weight / BASIS_POINTS_SCALE) weights.

Definition remainders (total : Z) (weights : list Z) : list (Z * nat) :=
  imap (fun index weight => ((total * weight) mod BASIS_POINTS_SCALE, index)) weights.

Definition sum (l : list Z) : Z := foldr Z.add 0 l.

(** [shares[index] += 1] *)
Definition bump (shares : list Z) (p : Z * nat) : list Z :=
  alter (fun share => share + 1) p.2 shares.

Definition apportion (total : Z) (weights : list Z) : list Z :=
  let shares := floor_shares total weights in
  let assigned := sum shares in
  let sorted := sort_by compare_remainders (remainders total weights) in
  foldl bump shares (take (Z.to_nat (total - assigned)) sorted).

Record RetrievalTokenBudget : Type := mkRetrieval { recent : Z; similar : Z; random : Z }.

Record MemoryTokenBudget : Type := mkMemoryBudget {
  input_capacity : Z;
  remaining_after_non_memory : Z;
  total_memory : Z;
  consolidated_summary : Z;
  additional_detail : Z;
  retrieval : RetrievalTokenBudget;
}.

Definition calculate (preset : MemoryPreset) (input : MemoryBudgetInput) : MemoryTokenBudget :=
  let input_capacity := max_context_tokens input - budget_max_output_tokens input in
  let remaining_after_non_memory := input_capacity - exact_non_memory_tokens input in
  let ratio_cap := scale_tokens input_capacity (memory_budget (insertion preset)) in
  let total_memory := Z.min ratio_cap remaining_after_non_memory in
  let additional_detail := scale_tokens total_memory (additional_detail_budget (insertion preset)) in
  let consolidated_summary := total_memory - additional_detail in
  let retrieval :=
    match strategy preset with
    | RollingSummary => mkRetrieval additional_detail 0 0
    | HybridRetrieval policy =>
        let mix := selection_mix policy in
        let shares := apportion additional_detail [mix_recent mix; mix_similar mix; mix_random mix] in
        mkRetrieval (nth 0 shares 0) (nth 1 shares 0) (nth 2 shares 0)
    end in
  mkMemoryBudget input_capacity remaining_after_non_memory total_memory consolidated_summary
    additional_detail retrieval.

(** ** Apportionment *)

Lemma sum_app a b : sum (a ++ b) = sum a + sum b.
Proof. unfold sum. induction a; cbn [app foldr]; lia. Qed.

#[export] Instance compare_remainders_cmp : Comparison compare_remainders.
Proof.
  apply then_with_cmp; [apply (flip_cmp _ (Comparison0 := Z_compare_cmp fst))|].
  apply (Z_compare_cmp (fun p => Z.of_nat p.2)).
Qed.

(** What incrementing the shares at distinct positions does. *)
Lemma bump_lookup (l : list (Z * nat)) (shares : list Z) i s :
  shares !! i = Some s -> NoDup (map snd l) ->
  foldl bump shares l !! i =
  Some (s + if decide (i ∈ map snd l) then 1 else 0).
Proof.
  revert shares s. induction l as [|[r j] l IH]; intros shares s Hs Hnd; cbn [foldl map snd].
  { rewrite decide_False by (apply not_elem_of_nil). by rewrite Z.add_0_r. }
  inversion Hnd as [|? ? Hj Hnd']; subst. destruct (decide (i = j)) as [->|Hne].
  - rewrite (IH _ (s + 1)); [|unfold bump; cbn [snd]; by rewrite list_lookup_alter_eq, Hs|done].
    rewrite decide_False by done. rewrite decide_True by left. f_equal. lia.
  - rewrite (IH _ s); [|unfold bump; cbn [snd]; by rewrite list_lookup_alter_ne|done].
    destruct (decide (i ∈ map snd l)); [rewrite decide_True by (by right)|
      rewrite decide_False by (rewrite elem_of_cons; tauto)]; done.
Qed.

Lemma sum_bump (shares : list Z) r i s :
  shares !! i = Some s -> sum (bump shares (r, i)) = sum shares + 1.
Proof.
  revert i. induction shares as [|x shares IH]; intros [|i] Hs; [done..| |];
    unfold sum, bump in *; cbn [foldr snd] in *.
  - cbn. lia.
  - change (alter (fun share => share + 1) (S i) (x :: shares))
      with (x :: alter (fun share => share + 1) i shares). cbn [foldr].
    rewrite IH; [lia|done].
Qed.

Lemma bump_sum (l : list (Z * nat)) (shares : list Z) :
  Forall (fun p => (p.2 < length shares)%nat) l ->
  sum (foldl bump shares l) =
  sum shares + len l.
Proof.
  revert shares. induction l as [|[r j] l IH]; intros shares Hl; cbn [foldl].
  { rewrite len_nil. lia. }
  inversion Hl as [|? ? Hj Hl']; subst. cbn in Hj.
  destruct (lookup_lt_is_Some_2 _ _ Hj) as [s Hs].
  rewrite IH; [|unfold bump; by setoid_rewrite length_alter].
  rewrite (sum_bump _ _ _ s), len_cons by done. lia.
Qed.

(** The weights of a mix: nonnegative and summing to the whole. *)
Record weights_ok (weights : list Z) : Prop := {
  wk_nonneg : Forall (fun w => 0 <= w) weights;
  wk_sum : sum weights = BASIS_POINTS_SCALE;
}.

Lemma remainders_indices total weights : map snd (remainders total weights) = seq 0 (length weights).
Proof.
  unfold remainders. apply list_eq. intros i. rewrite list_lookup_fmap, list_lookup_imap.
  destruct (weights !! i) eqn:Hw; cbn.
  - rewrite lookup_seq_lt by (by eapply lookup_lt_Some). done.
  - by rewrite lookup_seq_ge by (by apply lookup_ge_None).
Qed.

Lemma remainders_elem total weights r i :
  (r, i) ∈ remainders total weights <->
  exists w, weights !! i = Some w /\ r = (total * w) mod BASIS_POINTS_SCALE.
Proof.
  unfold remainders. rewrite elem_of_lookup_imap. split.
  - intros (j & w & [= -> ->] & Hw). eauto.
  - intros (w & Hw & ->). by exists i, w.
Qed.

Definition sum_remainders (total : Z) (weights : list Z) : Z :=
  sum (map (fun w => (total * w) mod BASIS_POINTS_SCALE) weights).

(** Floors and remainders together make up the products. *)
Lemma floors_and_remainders total weights :
  BASIS_POINTS_SCALE * sum (floor_shares total weights) + sum_remainders total weights =
  total * sum weights.
Proof.
  unfold sum_remainders, floor_shares, sum. induction weights as [|w ws IH]; cbn [map foldr]; [lia|].
  pose proof (Z.div_mod (total * w) BASIS_POINTS_SCALE ltac:(done)). lia.
Qed.

Lemma sum_remainders_bound total weights :
  0 <= sum_remainders total weights /\
  (weights <> [] -> sum_remainders total weights < BASIS_POINTS_SCALE * len weights).
Proof.
  unfold sum_remainders, sum. induction weights as [|w ws IH]; cbn [map foldr]; [split; [lia|done]|].
  pose proof (Z.mod_pos_bound (total * w) BASIS_POINTS_SCALE ltac:(done)). rewrite len_cons.
  destruct IH as [IH1 IH2]. split; [lia|]. intros _. destruct ws as [|w' ws]; [change (len (@nil Z)) with 0; cbn [map foldr]; lia|].
  specialize (IH2 ltac:(done)). lia.
Qed.

(** The tokens left after the floors are fewer than the shares. *)
Lemma leftover_bound total weights :
  weights_ok weights -> 0 <= total ->
  0 <= total - sum (floor_shares total weights) < len weights.
Proof.
  intros [Hnn Hsum] Ht. pose proof (floors_and_remainders total weights) as Hf.
  pose proof (sum_remainders_bound total weights) as [Hlo Hhi]. rewrite Hsum in Hf.
  assert (Hne : weights <> []) by (intros ->; done). specialize (Hhi Hne).
  unfold BASIS_POINTS_SCALE in *. lia.
Qed.

Section apportioned.
Context (total : Z) (weights : list Z).
Hypothesis Hok : weights_ok weights.
Hypothesis Htotal : 0 <= total.

Definition raised : list (Z * nat) :=
  take (Z.to_nat (total - sum (floor_shares total weights)))
    (sort_by compare_remainders (remainders total weights)).

Lemma raised_elem p : p ∈ raised -> p ∈ remainders total weights.
Proof.
  intros Hp. unfold raised in Hp. apply elem_of_take in Hp as (i & Hi & _).
  apply list_elem_of_lookup_2 in Hi. by rewrite sort_by_perm in Hi.
Qed.

Lemma raised_nodup : NoDup (map snd raised).
Proof.
  unfold raised. change (map snd) with (@fmap list _ (Z * nat) nat snd). rewrite fmap_take.
  eapply sublist_NoDup; [|apply sublist_take]. change (fmap snd) with (@map (Z * nat) nat snd).
  assert (Hp : map snd (sort_by compare_remainders (remainders total weights)) ≡ₚ
            map snd (remainders total weights)) by (apply Permutation_map, sort_by_perm).
  rewrite Hp, remainders_indices. apply NoDup_seq.
Qed.

Lemma raised_length : len raised = total - sum (floor_shares total weights).
Proof.
  pose proof (leftover_bound total weights Hok Htotal) as Hb. unfold raised, len.
  rewrite length_take, sort_by_perm. rewrite <- (length_map snd), remainders_indices, length_seq.
  unfold len in Hb. lia.
Qed.

Lemma apportion_lookup i w :
  weights !! i = Some w ->
  apportion total weights !! i =
  Some (total * w / BASIS_POINTS_SCALE + if decide (i ∈ map snd raised) then 1 else 0).
Proof.
  intros Hw. unfold apportion. apply bump_lookup; [|apply raised_nodup].
  unfold floor_shares. by rewrite list_lookup_fmap, Hw.
Qed.

Lemma apportion_sum : sum (apportion total weights) = total.
Proof.
  unfold apportion. rewrite bump_sum; [fold raised; rewrite raised_length; lia|].
  apply Forall_forall. intros [r i] Hin%list_elem_of_In%raised_elem.
  apply remainders_elem in Hin as (w & Hw & _). unfold floor_shares. rewrite length_map.
  by eapply lookup_lt_Some.
Qed.

(** A share that was raised had a remainder at least as large as one that was not. *)
Lemma raised_priority i j w v :
  weights !! i = Some w -> weights !! j = Some v ->
  i ∈ map snd raised -> j ∉ map snd raised ->
  (total * v) mod BASIS_POINTS_SCALE <= (total * w) mod BASIS_POINTS_SCALE.
Proof.
  intros Hw Hv Hi Hj. set (n := Z.to_nat (total - sum (floor_shares total weights))).
  set (sorted := sort_by compare_remainders (remainders total weights)).
  apply list_elem_of_fmap in Hi as ([r i'] & -> & Hi). cbn [snd] in *.
  pose proof (raised_elem _ Hi) as (w' & Hw' & ->)%remainders_elem. simplify_eq.
  assert (Hjin : ((total * v) mod BASIS_POINTS_SCALE, j) ∈ sorted).
  { unfold sorted. rewrite sort_by_perm. apply remainders_elem. eauto. }
  assert (Hjd : ((total * v) mod BASIS_POINTS_SCALE, j) ∈ drop n sorted).
  { rewrite <- (take_drop n sorted) in Hjin. apply elem_of_app in Hjin as [Hin|?]; [|done].
    exfalso. apply Hj. apply list_elem_of_fmap. by eexists (_, j). }
  assert (Hs : StronglySorted (cmp_le compare_remainders) (take n sorted ++ drop n sorted)).
  { rewrite take_drop. apply sort_by_sorted. apply _. }
  pose proof (StronglySorted_app_1_elem_of _ _ _ _ _ Hs Hi Hjd) as Hle.
  unfold cmp_le, compare_remainders in Hle. cbn [fst snd] in Hle.
  destruct (Z.compare_spec ((total * v) mod BASIS_POINTS_SCALE) ((total * w) mod BASIS_POINTS_SCALE));
    cbn [then_with] in Hle; [lia|lia|done].
Qed.
End apportioned.

Lemma apportion_length total weights : length (apportion total weights) = length weights.
Proof.
  unfold apportion. assert (Hl : forall l shares, length (foldl bump shares l) = length shares).
  { induction l as [|p l IH]; intros shares; [done|]. cbn [foldl]. rewrite IH. apply length_alter. }
  rewrite Hl. apply length_map.
Qed.

(** Apportioning a budget by weights that sum to the scale gives shares that add
    up to exactly the budget, each the exact proportion rounded down or that plus one,
    and a share is rounded up only before shares with a smaller remainder. *)
Theorem apportion_largest_remainder (total : Z) (weights : list Z) :
  weights_ok weights -> 0 <= total ->
  length (apportion total weights) = length weights /\
  sum (apportion total weights) = total /\
  (forall i w share, weights !! i = Some w -> apportion total weights !! i = Some share ->
     share = total * w / BASIS_POINTS_SCALE \/ share = total * w / BASIS_POINTS_SCALE + 1) /\
  (forall i j w v share, weights !! i = Some w -> weights !! j = Some v ->
     apportion total weights !! i = Some (total * w / BASIS_POINTS_SCALE + 1) ->
     apportion total weights !! j = Some share -> share = total * v / BASIS_POINTS_SCALE ->
     (total * v) mod BASIS_POINTS_SCALE <= (total * w) mod BASIS_POINTS_SCALE).
Proof.
  intros Hok Ht. split_and!.
  - apply apportion_length.
  - by apply apportion_sum.
  - intros i w share Hw. rewrite (apportion_lookup total weights i w Hw). intros [= <-].
    destruct (decide _); [right|left]; lia.
  - intros i j w v share Hw Hv. rewrite (apportion_lookup _ _ i w Hw), (apportion_lookup _ _ j v Hv).
    intros [= Hi] [= <-] Hj. eapply raised_priority; [exact Hw|exact Hv|..].
    + destruct (decide (i ∈ _)); [done|lia].
    + destruct (decide (j ∈ _)); [lia|done].
Qed.

Lemma mix_weights_ok m : mix_ok m -> weights_ok [mix_recent m; mix_similar m; mix_random m].
Proof.
  intros (? & ? & ? & ?). split; [repeat constructor; lia|]. unfold sum. cbn [foldr]. lia.
Qed.

Lemma scale_tokens_bounds t bp : 0 <= t -> 0 <= bp <= BASIS_POINTS_SCALE -> 0 <= scale_tokens t bp <= t.
Proof.
  intros Ht Hbp. unfold scale_tokens. unfold BASIS_POINTS_SCALE in *. split.
  - apply Z.div_pos; nia.
  - apply Z.div_le_upper_bound; nia.
Qed.

Lemma MemoryBudgetInput_new_ok c o n input :
  MemoryBudgetInput_new c o n = Ok input ->
  0 <= c -> 0 <= o -> 0 <= n ->
  input = mkBudgetInput c o n /\ 0 < o <= c /\ n <= c - o.
Proof.
  unfold MemoryBudgetInput_new. destruct (_ || _ || _) eqn:H1; [done|].
  destruct (n >? c - o) eqn:H2; [done|]. intros [= <-] ? ? ?. zify_bool. split_and!; try done; lia.
Qed.

(** What [MemoryBudgetInput_new] accepts. *)
Definition input_ok (input : MemoryBudgetInput) : Prop :=
  0 < budget_max_output_tokens input <= max_context_tokens input /\
  max_context_tokens input <= U32_MAX /\
  0 <= exact_non_memory_tokens input <= max_context_tokens input - budget_max_output_tokens input.

Lemma apportion_nonneg total weights :
  weights_ok weights -> 0 <= total -> Forall (fun share => 0 <= share) (apportion total weights).
Proof.
  intros Hok Ht. apply list.Forall_forall. intros share Hin.
  apply list_elem_of_lookup in Hin as [i Hi].
  destruct (weights !! i) as [w|] eqn:Hw.
  - rewrite (apportion_lookup total weights i w Hw) in Hi. injection Hi as <-.
    destruct Hok as [Hnn _]. rewrite list.Forall_forall in Hnn.
    specialize (Hnn w (list_elem_of_lookup_2 _ _ _ Hw)). cbv beta in Hnn.
    assert (0 <= total * w / BASIS_POINTS_SCALE) by (apply Z.div_pos; [nia|done]).
    destruct (decide _); lia.
  - apply lookup_ge_None in Hw. apply lookup_lt_Some in Hi. rewrite apportion_length in Hi. lia.
Qed.

(** The parts of a budget, as the selection of memories uses them. *)
Record budget_ok (b : MemoryTokenBudget) : Prop := {
  bk_total : 0 <= total_memory b <= U32_MAX;
  bk_summary : 0 <= consolidated_summary b;
  bk_detail : 0 <= additional_detail b;
  bk_split : consolidated_summary b + additional_detail b = total_memory b;
  bk_recent : 0 <= recent (retrieval b);
  bk_similar : 0 <= similar (retrieval b);
  bk_random : 0 <= random (retrieval b);
  bk_shares : recent (retrieval b) + similar (retrieval b) + random (retrieval b) = additional_detail b;
}.

Lemma calculate_ok preset input :
  strategy_ok (strategy preset) -> insertion_ok (insertion preset) -> input_ok input ->
  budget_ok (calculate preset input) /\
  total_memory (calculate preset input) <=
    max_context_tokens input - budget_max_output_tokens input - exact_non_memory_tokens input.
Proof.
  intros Hs [Hm Ha] (Ho & Hc & Hn). unfold calculate.
  destruct input as [context output non_memory].
  cbn [max_context_tokens budget_max_output_tokens exact_non_memory_tokens] in *.
  pose proof (scale_tokens_bounds (context - output) (memory_budget (insertion preset))
    ltac:(lia) ltac:(lia)) as Hcap.
  set (total := Z.min _ _).
  assert (Ht : 0 <= total <= context - output - non_memory) by (subst total; lia).
  pose proof (scale_tokens_bounds total _ ltac:(lia) Ha) as Had.
  set (detail := scale_tokens total _) in *.
  split; [|cbn [total_memory]; lia].
  destruct (strategy preset) as [|policy]; [split; cbn; lia|].
  destruct Hs as (_ & Hmix & _). apply mix_weights_ok in Hmix. set (mix := selection_mix policy) in *.
  pose proof (apportion_sum detail _ Hmix ltac:(lia)) as Hsum.
  pose proof (apportion_nonneg detail _ Hmix ltac:(lia)) as Hnn.
  pose proof (apportion_length detail [mix_recent mix; mix_similar mix; mix_random mix]) as Hl.
  destruct (apportion detail _) as [|x [|y [|z [|? ?]]]]; try done.
  rewrite !Forall_cons_iff in Hnn. unfold sum in Hsum. cbn in Hsum. split; cbn; lia.
Qed.

(** The budget computed for an accepted input always fits: the output, the exact
    prompt and all memory tokens together stay within the context; the summary and
    the detail make up the memory; the retrieval shares make up the detail; and no
    part is negative, so no subtraction of the code underflows. *)
Theorem budget_fits_context (preset : MemoryPreset) (context output non_memory : Z)
    (input : MemoryBudgetInput) :
  0 <= context <= U32_MAX -> 0 <= output <= U32_MAX -> 0 <= non_memory <= U32_MAX ->
  strategy_ok (strategy preset) -> insertion_ok (insertion preset) ->
  MemoryBudgetInput_new context output non_memory = Ok input ->
  let b := calculate preset input in
  output + non_memory + total_memory b <= context /\
  0 <= total_memory b <= remaining_after_non_memory b /\
  0 <= consolidated_summary b /\ 0 <= additional_detail b /\
  consolidated_summary b + additional_detail b = total_memory b /\
  0 <= recent (retrieval b) /\ 0 <= similar (retrieval b) /\ 0 <= random (retrieval b) /\
  recent (retrieval b) + similar (retrieval b) + random (retrieval b) = additional_detail b.
Proof.
  intros Hc Ho Hn Hs Hi Hnew. apply MemoryBudgetInput_new_ok in Hnew as (-> & Hoc & Hnc); [|lia..].
  destruct (calculate_ok preset (mkBudgetInput context output non_memory) Hs Hi) as [[] Htotal].
  { unfold input_ok. cbn. lia. }
  cbn zeta. cbn [max_context_tokens budget_max_output_tokens exact_non_memory_tokens] in Htotal.
  change (remaining_after_non_memory _) with (context - output - non_memory).
  split_and!; lia.
Qed.

Module BudgetExamples.

Definition mix : MemoryMix := mkMix 3333 3333 3334.

(** The configuration of the crate's own test. *)
Definition preset : MemoryPreset :=
  mkMemoryPreset (lit "memory") 1 (lit "Memory")
    (HybridRetrieval (mkHybrid 4 Conversation mix (mkRef (lit "embedding") 1)))
    (mkRef (lit "prompt") 1) ActiveChatModel
    (mkSummaryPolicy (lit "Summarize") (lit "Resummarize") 2 false (lit "|"))
    (mkInsertion 2500 4000) false Skip.

Lemma example_weights : weights_ok [3333; 3333; 3334].
Proof. split; [repeat constructor; lia|reflexivity]. Qed.

Lemma apportion_largest_remainder_witness : sum (apportion 400 [3333; 3333; 3334]) = 400.
Proof. apply (apportion_largest_remainder 400 _ example_weights). lia. Defined.

Lemma budget_fits_context_witness :
  let b := calculate preset (mkBudgetInput 10000 2000 7000) in
  2000 + 7000 + total_memory b <= 10000.
Proof.
  apply (budget_fits_context preset 10000 2000 7000);
    [vm_compute; split; discriminate..| | |reflexivity].
  - vm_compute. repeat split; discriminate.
  - vm_compute. repeat split; discriminate.
Defined.

Lemma budget_example :
  calculate preset (mkBudgetInput 10000 2000 7000) =
  mkMemoryBudget 8000 1000 1000 600 400 (mkRetrieval 133 133 134).
Proof. reflexivity. Qed.

End BudgetExamples.
