(* ===== verification/MemoryChunk.v ===== *)
(** * Memory: deterministic chunks of an artifact

    Models [crates/lorepia-memory/src/chunk.rs].  The regex engine and SHA-256 are
    parameters; what the code relies on is that [find_iter] reports matches from
    left to right, without overlap and inside the text ([ChunkLaws]). *)

From S2P Require Import Prelude Bytes Utf8 PromptSchema MemoryConfig ToolPolicy ToolApproval.

Record MemoryChunk : Type := mkChunk {
  chunk_id : str;
  parent_artifact_id : str;
  chunk_index : Z;
  chunk_content : str;
}.

Definition CHUNK_ID_DOMAIN : bytes := lit "lorepia-memory-chunk-v1".

(** [update_digest_field] is the field encoding of the approval MAC. *)
Definition chunk_message (parent : str) (index : Z) (content : str) : bytes :=
  CHUNK_ID_DOMAIN ++ mac_field parent ++ u64_to_be_bytes index ++ mac_field content.

Section chunks.
Context `{MemoryLib}.

Definition derive_chunk_id (parent : str) (index : Z) (content : str) : MemResult str :=
  MemoryArtifactId_parse (hex_encode (memory_sha256 (chunk_message parent index content))).

Definition push_non_empty_chunk (parent : str) (chunks : list MemoryChunk) (content : str) :
    MemResult (list MemoryChunk) :=
  if is_empty (trim content) then Ok chunks
  else if len chunks >=? MAX_MEMORY_CHUNKS then Err (MemTooManyItems "memoryChunks" MAX_MEMORY_CHUNKS)
  else
    let index := len chunks in
    id ← derive_chunk_id parent index content;
    mret (chunks ++ [mkChunk id parent index content]).

Definition validate_input (content : str) : MemResult unit :=
  if len content >? MAX_MEMORY_ARTIFACT_BYTES
  then Err (MemPayloadTooLarge "memoryChunkInput" MAX_MEMORY_ARTIFACT_BYTES)
  else if contains content [NUL] then Err (MemInvalidField "memoryChunkInput" "must contain no NUL")
  else Ok tt.

(** The loop over matches: the chunks so far and where the next segment starts. *)
Definition split_step (parent content : str) (acc : list MemoryChunk * nat) (matched : nat * nat) :
    MemResult (list MemoryChunk * nat) :=
  let '(chunks, segment_start) := acc in
  if Nat.eqb matched.1 matched.2 then Err (MemRegex "separator produced a zero-width runtime match")
  else
    chunks ← push_non_empty_chunk parent chunks (slice content segment_start matched.1);
    mret (chunks, matched.2).

Definition split_memory_chunks (parent content : str) (separator : str) : MemResult (list MemoryChunk) :=
  _ ← validate_input content;
  regex ← compile_chunk_separator separator;
  '(chunks, segment_start) ←
    foldM_result (split_step parent content) ([], O) (sep_find_iter regex content);
  chunks ← push_non_empty_chunk parent chunks (slice content segment_start (length content));
  if is_empty chunks
  then Err (MemInvalidField "memoryChunkInput" "must contain at least one non-whitespace chunk")
  else Ok chunks.

(** ** The text between separators *)

Fixpoint between (content : str) (start : nat) (matches : list (nat * nat)) : list str :=
  match matches with
  | [] => [slice content start (length content)]
  | m :: matches' => slice content start m.1 :: between content m.2 matches'
  end.

(** Segments and separators alternate. *)
Fixpoint weave (segments separators : list str) : str :=
  match segments, separators with
  | s :: segments', p :: separators' => s ++ p ++ weave segments' separators'
  | s :: _, [] => s
  | [], _ => []
  end.

Fixpoint ordered (start : nat) (n : nat) (matches : list (nat * nat)) : Prop :=
  match matches with
  | [] => (start <= n)%nat
  | m :: matches' => (start <= m.1 <= m.2)%nat /\ ordered m.2 n matches'
  end.

Class ChunkLaws : Prop := {
  sep_ordered regex content : ordered 0 (length content) (sep_find_iter regex content);
  memory_sha256_length message : len (memory_sha256 message) = 32;
}.

Definition blank (s : str) : bool := is_empty (trim s).

(** The chunks of the retained segments. *)
Definition chunk_of (parent : str) (index : Z) (content : str) : MemoryChunk :=
  mkChunk (hex_encode (memory_sha256 (chunk_message parent index content))) parent index content.

Definition chunks_of (parent : str) (segments : list str) : list MemoryChunk :=
  imap (fun i s => chunk_of parent (Z.of_nat i) s) (List.filter (fun s => negb (blank s)) segments).

Lemma weave_between content start matches :
  ordered start (length content) matches ->
  weave (between content start matches) (map (fun m => slice content m.1 m.2) matches) =
  slice content start (length content).
Proof.
  revert start. induction matches as [|m matches IH]; intros start Ho; [done|].
  destruct Ho as [Hm Ho]. cbn [between map weave]. rewrite IH by done.
  assert (Hend : (m.2 <= length content)%nat).
  { clear -Ho. destruct matches as [|m' ms]; [done|]. revert m Ho.
    induction (m' :: ms) as [|x l IHl]; intros m; cbn [ordered]; [done|]. intros [? Ho].
    specialize (IHl x Ho). lia. }
  rewrite !slice_split by lia. done.
Qed.

Context `{!ChunkLaws}.

(** A digest in hexadecimal is a valid identifier. *)
Lemma derive_chunk_id_ok parent index content :
  derive_chunk_id parent index content =
  Ok (hex_encode (memory_sha256 (chunk_message parent index content))).
Proof.
  unfold derive_chunk_id, MemoryArtifactId_parse, opaque_id_parse, validate_id.
  set (d := memory_sha256 _). pose proof (memory_sha256_length (chunk_message parent index content)) as Hl.
  fold d in Hl. pose proof (hex_encode_length d) as Hh.
  assert (Hdig : forall x, 0 <= x < 16 -> opaque_byte (hex_digit x) = true /\ hex_digit x <> byte_of 46).
  { intros x Hx. assert (Hc : forallb (fun n => opaque_byte (hex_digit (Z.of_nat n)) &&
                  negb (byte_eqb (hex_digit (Z.of_nat n)) (byte_of 46))) (seq 0 16) = true) by done.
    rewrite forallb_forall in Hc. specialize (Hc (Z.to_nat x)). rewrite Z2Nat.id in Hc by lia.
    rewrite in_seq in Hc. specialize (Hc ltac:(lia)). apply andb_true_iff in Hc as [? Hn].
    split; [done|]. by apply byte_eqb_neq, negb_true_iff. }
  assert (Hall : Forall (fun b => opaque_byte b = true /\ b <> byte_of 46) (hex_encode d)).
  { clear -Hdig. unfold hex_encode. induction d as [|b bs IH]; cbn [map concat app]; [constructor|].
    pose proof (byte_val_range b). repeat constructor; try apply Hdig; try apply IH.
    - rewrite Z.shiftr_div_pow2 by lia. change (2 ^ 4) with 16. split; [apply Z.div_pos; lia|].
      apply Z.div_lt_upper_bound; lia.
    - rewrite Z.shiftr_div_pow2 by lia. change (2 ^ 4) with 16. split; [apply Z.div_pos; lia|].
      apply Z.div_lt_upper_bound; lia.
    - change 15 with (Z.ones 4). rewrite Z.land_ones by lia. apply Z.mod_pos_bound. lia.
    - change 15 with (Z.ones 4). rewrite Z.land_ones by lia. apply Z.mod_pos_bound. lia. }
  replace (is_empty (hex_encode d)) with false
    by (symmetry; apply is_empty_false; intros He; rewrite He, Hl in Hh; done).
  replace (len (hex_encode d) >? MAX_OPAQUE_ID_BYTES) with false by (unfold MAX_OPAQUE_ID_BYTES; lia).
  replace (contains (hex_encode d) (lit "..")) with false.
  2:{ symmetry. apply not_true_iff_false. intros (p & q & Hs)%contains_spec. rewrite Hs in Hall.
      rewrite Forall_forall in Hall. apply (Hall (byte_of 46)); [|done].
      apply in_or_app. right. by left. }
  replace (forallb opaque_byte (hex_encode d)) with true; [done|].
  symmetry. apply forallb_forall. intros b Hb. rewrite Forall_forall in Hall. by apply Hall.
Qed.

(** ** The result *)

Lemma chunks_of_snoc parent segs s :
  chunks_of parent (segs ++ [s]) =
  chunks_of parent segs ++
    (if blank s then [] else [chunk_of parent (len (chunks_of parent segs)) s]).
Proof.
  unfold chunks_of. rewrite filter_app. cbn [List.filter].
  destruct (blank s); cbn [negb]; [by rewrite !app_nil_r|].
  rewrite imap_app. cbn [imap]. do 3 f_equal. unfold len. rewrite length_imap. f_equal. lia.
Qed.

Lemma push_chunk_ok parent segs s :
  push_non_empty_chunk parent (chunks_of parent segs) s =
  if negb (blank s) && (len (chunks_of parent segs) >=? MAX_MEMORY_CHUNKS)
  then Err (MemTooManyItems "memoryChunks" MAX_MEMORY_CHUNKS)
  else Ok (chunks_of parent (segs ++ [s])).
Proof.
  unfold push_non_empty_chunk. change (is_empty (trim s)) with (blank s). rewrite chunks_of_snoc.
  destruct (blank s); cbn [negb andb]; [by rewrite app_nil_r|].
  destruct (_ >=? _); [done|]. by rewrite derive_chunk_id_ok.
Qed.

(** Chunks are only added. *)
Lemma chunks_of_length parent a b :
  len (chunks_of parent a) <= len (chunks_of parent (a ++ b)).
Proof.
  unfold chunks_of, len. rewrite !length_imap, filter_app, length_app. lia.
Qed.

(** The loop and the final segment: the chunks of all segments, unless there are
    too many. *)
Lemma split_fold parent content matches segs start :
  Forall (fun m => m.1 <> m.2) matches -> len (chunks_of parent segs) <= MAX_MEMORY_CHUNKS ->
  ('(chunks, last) ← foldM_result (split_step parent content) (chunks_of parent segs, start) matches;
   push_non_empty_chunk parent chunks (slice content last (length content))) =
  (if len (chunks_of parent (segs ++ between content start matches)) >? MAX_MEMORY_CHUNKS
   then Err (MemTooManyItems "memoryChunks" MAX_MEMORY_CHUNKS)
   else Ok (chunks_of parent (segs ++ between content start matches))).
Proof.
  intros Hm. revert segs start. induction Hm as [|m matches Hne Hm IH]; intros segs start Hle.
  { cbn [foldM_result mbind result_bind between]. rewrite push_chunk_ok, chunks_of_snoc.
    destruct (blank _); cbn [negb andb]; rewrite ?app_nil_r, ?len_app, ?len_cons, ?len_nil.
    - by rewrite gtb_false.
    - destruct (len (chunks_of parent segs) >=? MAX_MEMORY_CHUNKS) eqn:Hge.
      + rewrite gtb_true; [done|]. change (len (@nil MemoryChunk)) with 0. lia.
      + rewrite gtb_false; [done|]. change (len (@nil MemoryChunk)) with 0. lia. }
  cbn [foldM_result between]. unfold split_step at 2.
  destruct (Nat.eqb m.1 m.2) eqn:He; [apply Nat.eqb_eq in He; done|].
  rewrite push_chunk_ok. set (s := slice content start m.1).
  destruct (negb (blank s) && (len (chunks_of parent segs) >=? MAX_MEMORY_CHUNKS)) eqn:Hfull;
    cbn [mbind result_bind].
  - rewrite gtb_true; [done|]. apply andb_true_iff in Hfull as [Hb Hge].
    pose proof (chunks_of_length parent (segs ++ [s]) (between content m.2 matches)) as Hl.
    rewrite <- app_assoc in Hl. cbn [app] in Hl. rewrite chunks_of_snoc, len_app in Hl.
    apply negb_true_iff in Hb. rewrite Hb, len_cons in Hl. change (len (@nil MemoryChunk)) with 0 in Hl.
    unfold MAX_MEMORY_CHUNKS in *. lia.
  - rewrite (cons_middle s segs (between content m.2 matches)), (app_assoc segs [s]).
    unfold mret, result_ret. cbn [mbind result_bind]. apply IH. rewrite chunks_of_snoc, len_app.
    apply andb_false_iff in Hfull as [Hb|Hge].
    + apply negb_false_iff in Hb. rewrite Hb. change (len (@nil MemoryChunk)) with 0. lia.
    + destruct (blank s); rewrite ?len_cons; change (len (@nil MemoryChunk)) with 0; lia.
Qed.

(** Splitting an accepted artifact by its separator gives exactly the segments
    between the separator matches that are not blank, in order, unchanged, numbered
    from zero and identified by the digest of parent, number and content; together
    with the separators the segments are the artifact, so nothing is lost or
    altered.  It fails only for an invalid input or separator, a zero-width match,
    too many chunks, or when nothing but whitespace is left. *)
Theorem split_memory_chunks_exact (parent content separator : str) (regex : SepRegex) :
  validate_input content = Ok tt -> compile_chunk_separator separator = Ok regex ->
  Forall (fun m => m.1 <> m.2) (sep_find_iter regex content) ->
  let segments := between content 0 (sep_find_iter regex content) in
  weave segments (map (fun m => slice content m.1 m.2) (sep_find_iter regex content)) = content /\
  (0 < len (chunks_of parent segments) <= MAX_MEMORY_CHUNKS ->
   split_memory_chunks parent content separator = Ok (chunks_of parent segments)) /\
  (len (chunks_of parent segments) = 0 \/ MAX_MEMORY_CHUNKS < len (chunks_of parent segments) ->
   exists e, split_memory_chunks parent content separator = Err e).
Proof.
  intros Hv Hc Hz. cbn zeta. split.
  { rewrite weave_between by apply sep_ordered. unfold slice. rewrite Nat.sub_0_r, drop_0.
    by rewrite firstn_all. }
  pose proof (split_fold parent content _ [] 0 Hz ltac:(done)) as Hf. cbn [app] in Hf.
  change (chunks_of parent (@nil str)) with (@nil MemoryChunk) in Hf.
  assert (Hs : split_memory_chunks parent content separator =
    (chunks ← (if len (chunks_of parent (between content 0 (sep_find_iter regex content))) >?
                  MAX_MEMORY_CHUNKS
               then Err (MemTooManyItems "memoryChunks" MAX_MEMORY_CHUNKS)
               else Ok (chunks_of parent (between content 0 (sep_find_iter regex content))));
     if is_empty chunks
     then Err (MemInvalidField "memoryChunkInput" "must contain at least one non-whitespace chunk")
     else Ok chunks)).
  { rewrite <- Hf. unfold split_memory_chunks. rewrite Hv, Hc. cbn [mbind result_bind].
    by destruct (foldM_result _ _ _) as [[cs st]|]. }
  rewrite Hs. set (cs := chunks_of parent _). split.
  - intros [Hpos Hmax]. rewrite gtb_false by done. cbn [mbind result_bind].
    destruct cs; [done|]. done.
  - intros [Hzero|Hmax].
    + destruct (len cs >? MAX_MEMORY_CHUNKS); cbn [mbind result_bind]; [by eexists|].
      rewrite (len_0_nil cs Hzero). by eexists.
    + rewrite gtb_true by done. by eexists.
Qed.

(** Chunk identifiers do not repeat within an artifact, even for equal contents:
    two chunks at different positions are identified by digests of different
    messages, so equal identifiers would be a SHA-256 collision. *)
Theorem chunk_messages_distinct (parent s t : str) (i j : Z) :
  is_u64 (len parent) -> is_u64 (len s) -> is_u64 (len t) -> is_u64 i -> is_u64 j ->
  chunk_message parent i s = chunk_message parent j t -> i = j /\ s = t.
Proof.
  intros Hp Hs Ht Hi Hj. unfold chunk_message.
  intros [_ Hm]%app_inv_head%mac_field_inj; [|done..]. apply be_field_inj in Hm as [-> Hm]; [|done..].
  split; [done|]. rewrite <- (app_nil_r (mac_field s)), <- (app_nil_r (mac_field t)) in Hm.
  by apply mac_field_inj in Hm as [? _].
Qed.
End chunks.

Module ChunkExamples.

(** A separator that is one literal byte, found from left to right. *)
Fixpoint find_byte (sep : byte) (i : nat) (s : str) : list (nat * nat) :=
  match s with
  | [] => []
  | c :: s' => if byte_eqb c sep then (i, S i) :: find_byte sep (S i) s' else find_byte sep (S i) s'
  end.

#[export] Instance example_chunks : MemoryLib := {
  SepRegex := byte;
  sep_build pattern := match pattern with [c] => Some c | _ => None end;
  sep_find_iter sep text := find_byte sep 0 text;
  memory_sha256 message := le_bytes 32 (from_le_bytes (rev message));
  prompt_preset_json preset := Some (preset_name preset);
}.

Lemma ordered_weaken a b n ms : (a <= b)%nat -> ordered b n ms -> ordered a n ms.
Proof. destruct ms as [|m ms]; cbn [ordered]; [lia|]. intros ? [? ?]. split; [lia|done]. Qed.

Lemma find_byte_ordered sep s i : ordered i (i + length s) (find_byte sep i s).
Proof.
  revert i. induction s as [|c s IH]; intros i; cbn [find_byte length]; [cbn; lia|].
  specialize (IH (S i)). replace (i + S (length s))%nat with (S i + length s)%nat by lia.
  destruct (byte_eqb c sep); [split; [cbn; lia|exact IH]|].
  eapply ordered_weaken; [|exact IH]. lia.
Qed.

#[export] Instance example_chunk_laws : ChunkLaws.
Proof.
  split.
  - intros sep content. apply (find_byte_ordered sep content 0).
  - intros m. unfold len, memory_sha256. cbn [example_chunks]. by rewrite length_le_bytes.
Qed.

Lemma split_memory_chunks_exact_witness :
  split_memory_chunks (lit "p") (lit "one|| |two") (lit "|") =
  Ok (chunks_of (lit "p") [lit "one"; []; lit " "; lit "two"]).
Proof.
  apply (split_memory_chunks_exact (lit "p") (lit "one|| |two") (lit "|")
           (byte_of 124 : @SepRegex example_chunks)).
  - reflexivity.
  - reflexivity.
  - repeat constructor; vm_compute; discriminate.
  - vm_compute. split; [reflexivity|discriminate].
Defined.

Lemma chunk_messages_distinct_witness : 7 = 7 /\ lit "same" = lit "same".
Proof.
  apply (chunk_messages_distinct (lit "p") (lit "same") (lit "same") 7 7);
    [vm_compute; split; discriminate..|reflexivity].
Defined.

End ChunkExamples.
