(* ===== verification/MemorySummary.v ===== *)
(** * Memory: summaries

    Models [crates/lorepia-memory/src/summary.rs] and the summary artifacts of
    [artifact.rs]: messages are cut into jobs, the output of a job becomes an artifact,
    artifacts are summarised again, compacted and invalidated.

    [BTreeSet]s of identifiers are [gset]s where only membership is used, and sorted
    lists where the order is.  The theorems about these definitions are in
    MemorySummaryFacts. *)

From stdpp Require Import gmap.
From S2P Require Import Prelude Bytes Utf8 ProviderConfig ProviderCompile ToolPolicy PromptTemplate PromptSchema PromptValidate MemoryConfig.

(** * Memory: sessions

    Models [crates/lorepia-memory/src/session.rs]: the snapshot of a chat, a character
    card, a memory preset, a summary model and a prompt preset that one generation of
    memories is bound to.  The chat and card identifiers are those of the persona
    crate ([lorepia-persona/src/id.rs]), strings here. *)

(** The fields every artifact, plan and selection copies from its session: five of
    them, and with the prompt preset and the summary model seven. *)
Record ScopePin : Type := mkScopePin {
  pin_chat_id : str;
  pin_character_card_id : str;
  pin_memory_generation : Z;
  pin_memory_preset_id : str;
  pin_memory_preset_revision : Z;
}.

Record SessionPin : Type := mkSessionPin {
  pin_scope : ScopePin;
  pin_prompt_preset : VersionedRef;
  pin_summary_model : VersionedRef;
}.

#[export] Instance ScopePin_eq_dec : EqDecision ScopePin.
Proof. solve_decision. Defined.

#[export] Instance SessionPin_eq_dec : EqDecision SessionPin.
Proof. solve_decision. Defined.

Record MemorySessionBinding : Type := mkBinding {
  binding_chat_id : str;
  binding_character_card_id : str;
  binding_memory_generation : Z;
  binding_preset : MemoryPreset;
  resolved_summary_model : VersionedRef;
  prompt_preset_digest : bytes;
}.

(** What the session's structs are compared with. *)
Definition scope_of (b : MemorySessionBinding) : ScopePin :=
  mkScopePin (binding_chat_id b) (binding_character_card_id b) (binding_memory_generation b)
    (preset_id (binding_preset b)) (preset_revision (binding_preset b)).

Definition session_of (b : MemorySessionBinding) : SessionPin :=
  mkSessionPin (scope_of b) (preset_prompt_preset (binding_preset b)) (resolved_summary_model b).

Section session.
Context `{MemoryLib, PromptRegexLib}.

(** [validate_preset(preset)?]: a prompt error becomes a memory error. *)
Definition validate_prompt_preset (preset : PromptPreset) : MemResult unit :=
  map_err MemPrompt (validate_preset preset).

Definition digest_prompt_preset (preset : PromptPreset) : MemResult bytes :=
  json ← ok_or (prompt_preset_json preset) MemJson;
  mret (memory_sha256 json).

Definition MemorySessionBinding_new (chat_id character_card_id : str) (memory_generation : Z)
    (preset : MemoryPreset) (resolved_summary_model : VersionedRef)
    (resolved_prompt_preset : PromptPreset) : MemResult MemorySessionBinding :=
  if memory_generation =? 0 then Err (MemInvalidField "memoryGeneration" "must be at least 1")
  else
    _ ← match preset_summary_model preset with
        | ModelPreset expected =>
            ensure (bool_decide (expected = resolved_summary_model))
              (MemInvalidField "resolvedSummaryModel"
                 "must match the model preset pinned by the memory preset")
        | ActiveChatModel => Ok tt
        end;
    _ ← validate_prompt_preset resolved_prompt_preset;
    digest ← digest_prompt_preset resolved_prompt_preset;
    mret (mkBinding chat_id character_card_id memory_generation preset resolved_summary_model digest).

Definition verify_prompt_preset (self : MemorySessionBinding) (preset : PromptPreset) :
    MemResult unit :=
  _ ← validate_prompt_preset preset;
  digest ← digest_prompt_preset preset;
  ensure (str_eqb digest (prompt_preset_digest self))
    (MemRetrievalUnavailable "resolved prompt preset content differs from the session snapshot").

Definition verify_scope (self : MemorySessionBinding) (expected_chat_id expected_card_id : str) :
    MemResult unit :=
  if negb (str_eqb (binding_chat_id self) expected_chat_id)
  then Err (MemBindingMismatch "chatId" expected_chat_id (binding_chat_id self))
  else if negb (str_eqb (binding_character_card_id self) expected_card_id)
  then Err (MemBindingMismatch "characterCardId" expected_card_id (binding_character_card_id self))
  else Ok tt.

(** A binding as [MemorySessionBinding_new] makes it. *)
Record binding_ok (b : MemorySessionBinding) : Prop := {
  bd_generation : 1 <= binding_memory_generation b <= U64_MAX;
  bd_preset : preset_ok (binding_preset b);
  bd_model : match preset_summary_model (binding_preset b) with
             | ModelPreset expected => resolved_summary_model b = expected
             | ActiveChatModel => True
             end;
  bd_chat : is_u64 (len (binding_chat_id b));
}.

Lemma MemorySessionBinding_new_ok chat card generation preset model prompt b :
  MemorySessionBinding_new chat card generation preset model prompt = Ok b ->
  0 <= generation <= U64_MAX -> preset_ok preset -> is_u64 (len chat) ->
  binding_ok b /\ validate_preset prompt = Ok tt /\
  digest_prompt_preset prompt = Ok (prompt_preset_digest b).
Proof.
  unfold MemorySessionBinding_new. destruct (_ =? _) eqn:Hg; [done|]. intros Hb Hr Hp Hc.
  apply bind_Ok in Hb as ([] & Hm & Hb). apply bind_Ok in Hb as ([] & Hv & Hb).
  apply bind_Ok in Hb as (d & Hd & Hb). injection Hb as <-. split_and!;
    [|unfold validate_prompt_preset in Hv; by destruct (validate_preset prompt) as [[]|]|done].
  split; cbn; [lia|done| |done].
  destruct (preset_summary_model preset); [done|]. apply ensure_Ok, bool_decide_eq_true in Hm. done.
Qed.

Lemma verify_scope_Ok self chat card u :
  verify_scope self chat card = Ok u ->
  binding_chat_id self = chat /\ binding_character_card_id self = card.
Proof.
  unfold verify_scope. destruct (str_eqb (binding_chat_id self) chat) eqn:H1; [|done].
  destruct (str_eqb (binding_character_card_id self) card) eqn:H2; [|done].
  apply str_eqb_eq in H1, H2. done.
Qed.

(** A prompt preset that passes has the digest of the one the session was bound to. *)
Lemma verify_prompt_preset_Ok self preset u :
  verify_prompt_preset self preset = Ok u ->
  digest_prompt_preset preset = Ok (prompt_preset_digest self).
Proof.
  unfold verify_prompt_preset. intros Hv. apply bind_Ok in Hv as ([] & _ & Hv).
  apply bind_Ok in Hv as (d & -> & Hv). apply ensure_Ok, str_eqb_eq in Hv. by rewrite Hv.
Qed.
End session.

(** ** Slices and sets of the standard library *)

(** [slice::chunks(n)], for a non-zero [n]. *)
Fixpoint chunks_fuel {A} (fuel n : nat) (l : list A) : list (list A) :=
  match fuel, l with
  | S fuel', _ :: _ => take n l :: chunks_fuel fuel' n (drop n l)
  | _, _ => []
  end.

Definition chunks {A} (n : nat) (l : list A) : list (list A) := chunks_fuel (length l) n l.

(** [BTreeSet::insert] on the set's elements in order. *)
Fixpoint btree_insert (x : str) (set : list str) : list str :=
  match set with
  | [] => [x]
  | y :: set' =>
      match str_cmp x y with
      | Lt => x :: set
      | Eq => set
      | Gt => y :: btree_insert x set'
      end
  end.

(** [slice::binary_search(x).is_ok()]: [base] is the last position known not to be
    above [x], or the first one. *)
Fixpoint binary_search_loop (fuel : nat) (l : list str) (x : str) (base size : nat) : nat :=
  match fuel with
  | S fuel' =>
      if (1 <? size)%nat then
        let half := (size / 2)%nat in
        let mid := (base + half)%nat in
        let base := match str_cmp (nth mid l []) x with Gt => base | _ => mid end in
        binary_search_loop fuel' l x base (size - half)
      else base
  | O => base
  end.

Definition binary_search_found (l : list str) (x : str) : bool :=
  if is_empty l then false
  else
    let base := binary_search_loop (length l) l x 0 (length l) in
    match str_cmp (nth base l []) x with Eq => true | _ => false end.

(** ** Source messages (summary.rs) *)

Record MemorySourceMessage : Type := mkSourceMessage {
  source_id : str;
  source_chat_id : str;
  source_sequence : Z;
  source_role : MessageRole;
  source_content : str;
}.

#[export] Instance MemorySourceMessage_eq_dec : EqDecision MemorySourceMessage.
Proof. solve_decision. Defined.

Definition validate_source_content (content : str) : MemResult unit :=
  if len content >? MAX_SOURCE_MESSAGE_BYTES
  then Err (MemPayloadTooLarge "sourceMessage.content" MAX_SOURCE_MESSAGE_BYTES)
  else if contains content [NUL]
  then Err (MemInvalidField "sourceMessage.content" "must contain no NUL")
  else Ok tt.

Definition MemorySourceMessage_new (id chat_id : str) (sequence : Z) (role : MessageRole)
    (content : str) : MemResult MemorySourceMessage :=
  if sequence =? 0 then Err (MemInvalidField "sourceMessage.sequence" "must be at least 1")
  else if bool_decide (role = System)
  then Err (MemInvalidField "sourceMessage.role"
              "memory source messages must be user or assistant messages")
  else
    _ ← validate_source_content content;
    mret (mkSourceMessage id chat_id sequence role content).

(** ** Summary artifacts (artifact.rs) *)

Inductive SummaryArtifactKind : Type := Leaf | Consolidated.

Inductive MemoryValidity : Type :=
  | Attached | SourceCompacted | InvalidatedByEdit | InvalidatedByDeletion.

#[export] Instance SummaryArtifactKind_eq_dec : EqDecision SummaryArtifactKind.
Proof. solve_decision. Defined.

#[export] Instance MemoryValidity_eq_dec : EqDecision MemoryValidity.
Proof. solve_decision. Defined.

Record SummaryArtifact : Type := mkArtifact {
  artifact_id : str;
  artifact_revision : Z;
  artifact_session : SessionPin;
  artifact_kind : SummaryArtifactKind;
  first_source_sequence : Z;
  last_source_sequence : Z;
  covered_leaf_artifact_ids : list str;
  artifact_content : str;
  validity : MemoryValidity;
}.

#[export] Instance SummaryArtifact_eq_dec : EqDecision SummaryArtifact.
Proof. solve_decision. Defined.

Definition covers_leaf (self : SummaryArtifact) (id : str) : bool :=
  binary_search_found (covered_leaf_artifact_ids self) id.

Definition with_validity (self : SummaryArtifact) (revision : Z) (content : str)
    (v : MemoryValidity) : SummaryArtifact :=
  mkArtifact (artifact_id self) revision (artifact_session self) (artifact_kind self)
    (first_source_sequence self) (last_source_sequence self) (covered_leaf_artifact_ids self)
    content v.

Definition source_compacted (self : SummaryArtifact) : SummaryArtifact :=
  if bool_decide (validity self = Attached)
  then with_validity self (artifact_revision self) (artifact_content self) SourceCompacted
  else self.

Definition bump_revision (self : SummaryArtifact) : MemResult Z :=
  ok_or (checked_add U64_MAX (artifact_revision self) 1) MemRevisionOverflow.

Definition invalidated_by_edit (self : SummaryArtifact) : MemResult SummaryArtifact :=
  revision ← bump_revision self;
  mret (with_validity self revision [] InvalidatedByEdit).

Definition invalidated_by_deletion (self : SummaryArtifact) : MemResult SummaryArtifact :=
  revision ← bump_revision self;
  mret (with_validity self revision [] InvalidatedByDeletion).

Definition validate_artifact_content (content : str) : MemResult unit :=
  if is_empty (trim content) then Err (MemInvalidField "summaryArtifact.content" "must not be empty")
  else if len content >? MAX_MEMORY_ARTIFACT_BYTES
  then Err (MemPayloadTooLarge "summaryArtifact.content" MAX_MEMORY_ARTIFACT_BYTES)
  else if contains content [NUL]
  then Err (MemInvalidField "summaryArtifact.content" "must contain no NUL")
  else Ok tt.

(** ** Jobs (summary.rs) *)

Inductive SummaryJobKind : Type := Initial | Resummary.
Inductive SummaryOutputMode : Type := InitialGeneration | Regeneration.

Inductive SummaryJobSource : Type :=
  | JobMessages (messages : list MemorySourceMessage)
  | JobArtifacts (artifacts : list SummaryArtifact).

Definition source_is_empty (self : SummaryJobSource) : bool :=
  match self with
  | JobMessages messages => is_empty messages
  | JobArtifacts artifacts => is_empty artifacts
  end.

Inductive AuthoritativeSummarySource : Type :=
  | AuthMessages (messages : list MemorySourceMessage)
  | AuthArtifacts (artifacts : list SummaryArtifact).

Record MessageSnapshotPin : Type := mkMessagePin {
  snapshot_id : str;
  snapshot_sequence : Z;
  snapshot_role : MessageRole;
  snapshot_digest : bytes;
}.

Record SummaryJob : Type := mkJob {
  job_session : SessionPin;
  job_kind : SummaryJobKind;
  job_instruction : str;
  job_first_sequence : Z;
  job_last_sequence : Z;
  job_source : SummaryJobSource;
  message_snapshot : list MessageSnapshotPin;
}.

Record ProcessedSummary : Type := mkProcessed {
  processed_job : SummaryJob;
  processed_content : str;
}.

Record EmbeddingQueryPlan : Type := mkQueryPlan {
  plan_session : SessionPin;
  plan_embedding_profile : VersionedRef;
  plan_messages : list MemorySourceMessage;
  message_snapshot_digest : bytes;
}.

Definition job_verify_binding (self : SummaryJob) (binding : MemorySessionBinding) : MemResult unit :=
  ensure (bool_decide (job_session self = session_of binding))
    (MemRetrievalUnavailable "summary job is outside the active memory session snapshot").

Definition requires_generation (self : SummaryJob) : bool := negb (source_is_empty (job_source self)).

Definition verify_artifact_scope (binding : MemorySessionBinding) (artifact : SummaryArtifact) :
    MemResult unit :=
  ensure (bool_decide (artifact_session artifact = session_of binding))
    (MemRetrievalUnavailable "summary artifact is outside the active memory session").

(** One turn of the loop of [validate_message_snapshot]: the identifiers seen and the
    previous sequence number. *)
Definition check_message (binding : MemorySessionBinding) (acc : gset str * option Z)
    (message : MemorySourceMessage) : MemResult (gset str * option Z) :=
  let '(ids, previous_sequence) := acc in
  if negb (str_eqb (source_chat_id message) (binding_chat_id binding))
  then Err (MemBindingMismatch "sourceMessage.chatId" (binding_chat_id binding) (source_chat_id message))
  else if bool_decide (source_id message ∈ ids)
  then Err (MemDuplicateId "messageId" (source_id message))
  else if match previous_sequence with
          | Some previous => previous >=? source_sequence message
          | None => false
          end
  then Err (MemInvalidField "sourceMessages.sequence" "messages must be strictly chronological")
  else Ok ({[source_id message]} ∪ ids, Some (source_sequence message)).

Definition validate_message_snapshot (binding : MemorySessionBinding)
    (messages : list MemorySourceMessage) : MemResult unit :=
  if len messages >? MAX_SOURCE_MESSAGES then Err (MemTooManyItems "sourceMessages" MAX_SOURCE_MESSAGES)
  else
    _ ← foldM_result (check_message binding) (∅, None) messages;
    mret tt.

Definition add_size (field : string) (total size : Z) : MemResult Z :=
  next ← ok_or (checked_add USIZE_MAX total size) (MemPayloadTooLarge field MAX_SOURCE_BATCH_BYTES);
  if next >? MAX_SOURCE_BATCH_BYTES then Err (MemPayloadTooLarge field MAX_SOURCE_BATCH_BYTES)
  else Ok next.

Definition validate_batch_bytes (field : string) (sizes : list Z) : MemResult Z :=
  foldM_result (add_size field) 0 sizes.

Definition job_from_binding (binding : MemorySessionBinding) (kind : SummaryJobKind)
    (instruction : str) (first last : Z) (source : SummaryJobSource)
    (snapshot : list MessageSnapshotPin) : SummaryJob :=
  mkJob (session_of binding) kind instruction first last source snapshot.

Definition validate_generated_content (content : str) : MemResult unit :=
  if is_empty (trim content) then Err (MemInvalidField "generatedSummary" "must not be empty")
  else if len content >? MAX_MEMORY_ARTIFACT_BYTES
  then Err (MemPayloadTooLarge "generatedSummary" MAX_MEMORY_ARTIFACT_BYTES)
  else if contains content [NUL]
  then Err (MemInvalidField "generatedSummary" "must contain no NUL")
  else Ok tt.

(** ** Digests *)

Definition MESSAGE_SNAPSHOT_DOMAIN : bytes := lit "lorepia-memory-message-snapshot-v1".

Definition role_byte (role : MessageRole) : byte :=
  byte_of match role with System => 0 | User => 1 | Assistant => 2 end.

(** What [digest_message] feeds to the hash; [update_digest_field] is the field
    encoding of the approval MAC. *)
Definition message_preimage (m : MemorySourceMessage) : bytes :=
  MESSAGE_SNAPSHOT_DOMAIN ++ mac_field (source_id m) ++ u64_to_be_bytes (source_sequence m) ++
  [role_byte (source_role m)] ++ mac_field (source_content m).

Section summaries.
Context `{MemoryLib, PromptRegexLib}.

Definition digest_message (message : MemorySourceMessage) : bytes :=
  memory_sha256 (message_preimage message).

Definition digest_message_snapshot (messages : list MemorySourceMessage) : bytes :=
  memory_sha256 (MESSAGE_SNAPSHOT_DOMAIN ++ u64_to_be_bytes (len messages) ++
                 concat (map digest_message messages)).

Definition from_message (m : MemorySourceMessage) : MessageSnapshotPin :=
  mkMessagePin (source_id m) (source_sequence m) (source_role m) (digest_message m).

Definition pin_matches (self : MessageSnapshotPin) (m : MemorySourceMessage) : bool :=
  str_eqb (snapshot_id self) (source_id m) && (snapshot_sequence self =? source_sequence m) &&
  bool_decide (snapshot_role self = source_role m) && str_eqb (snapshot_digest self) (digest_message m).

(** [zip] stops at the shorter list. *)
Definition verify_authoritative_source (self : SummaryJob) (binding : MemorySessionBinding)
    (current : AuthoritativeSummarySource) : MemResult unit :=
  match job_source self, current with
  | JobMessages _, AuthMessages messages =>
      _ ← validate_message_snapshot binding messages;
      if negb (len messages =? len (message_snapshot self)) ||
         negb (forallb (fun p => pin_matches p.1 p.2) (List.combine (message_snapshot self) messages))
      then Err (MemRetrievalUnavailable "summary source messages changed after the job was planned")
      else Ok tt
  | JobArtifacts planned, AuthArtifacts artifacts =>
      _ ← forM_result (verify_artifact_scope binding) artifacts;
      if bool_decide (planned = artifacts) then Ok tt
      else Err (MemRetrievalUnavailable "summary source artifacts changed after the job was planned")
  | _, _ =>
      Err (MemRetrievalUnavailable "authoritative summary source type differs from the planned job")
  end.

(** ** Planning *)

Definition plan_too_large : MemoryError := MemPayloadTooLarge "summaryPlan" MAX_SUMMARY_PLAN_BYTES.

(** [!skip_user_messages || message.role != User] *)
Definition included_in (policy : SummaryPolicy) (message : MemorySourceMessage) : bool :=
  negb (skip_user_messages policy) || bool_decide (source_role message <> User).

Definition first_sequence (batch : list MemorySourceMessage) : Z :=
  match batch with m :: _ => source_sequence m | [] => 0 end.

Definition last_sequence (batch : list MemorySourceMessage) : Z :=
  match list.last batch with Some m => source_sequence m | None => 0 end.

(** The body of the loop over batches: the jobs so far and their bytes. *)
Definition plan_batch (binding : MemorySessionBinding) (acc : list SummaryJob * Z)
    (batch : list MemorySourceMessage) : MemResult (list SummaryJob * Z) :=
  let '(jobs, planned_bytes) := acc in
  let policy := summary (binding_preset binding) in
  let included := List.filter (included_in policy) batch in
  batch_bytes ← validate_batch_bytes "summaryJob.messages" (map (fun m => len (source_content m)) included);
  let instruction_bytes := if is_empty included then 0 else len (summary_prompt policy) in
  job_bytes ← ok_or (checked_add USIZE_MAX batch_bytes instruction_bytes) plan_too_large;
  planned_bytes ← ok_or (checked_add USIZE_MAX planned_bytes job_bytes) plan_too_large;
  if planned_bytes >? MAX_SUMMARY_PLAN_BYTES then Err plan_too_large
  else
    mret (jobs ++
      [job_from_binding binding Initial (if is_empty included then [] else summary_prompt policy)
         (first_sequence batch) (last_sequence batch) (JobMessages included) (map from_message batch)],
      planned_bytes).

Definition plan_initial_summary_jobs (binding : MemorySessionBinding) (expected_chat expected_card : str)
    (messages : list MemorySourceMessage) : MemResult (list SummaryJob) :=
  _ ← verify_scope binding expected_chat expected_card;
  _ ← validate_message_snapshot binding messages;
  let batch_size := Z.to_nat (max_messages_per_summary (summary (binding_preset binding))) in
  '(jobs, _) ← foldM_result (plan_batch binding) ([], 0) (chunks batch_size messages);
  mret jobs.

Definition check_validity (binding : MemorySessionBinding) (v : MemoryValidity) : MemResult unit :=
  match v with
  | InvalidatedByEdit | InvalidatedByDeletion =>
      Err (MemInvalidField "resummaryArtifacts.validity"
             "invalidated artifacts must never be summarized again")
  | SourceCompacted =>
      ensure (preserve_compacted_orphans (binding_preset binding))
        (MemInvalidField "resummaryArtifacts.validity"
           "compacted-source artifacts are disabled by this memory preset")
  | Attached => Ok tt
  end.

Definition check_artifact (binding : MemorySessionBinding) (acc : gset str * option Z)
    (artifact : SummaryArtifact) : MemResult (gset str * option Z) :=
  let '(ids, previous_last) := acc in
  _ ← verify_artifact_scope binding artifact;
  _ ← check_validity binding (validity artifact);
  if bool_decide (artifact_id artifact ∈ ids)
  then Err (MemDuplicateId "memoryArtifactId" (artifact_id artifact))
  else if match previous_last with
          | Some previous => previous >=? first_source_sequence artifact
          | None => false
          end
  then Err (MemInvalidField "resummaryArtifacts"
              "artifacts must be strictly chronological and non-overlapping")
  else Ok ({[artifact_id artifact]} ∪ ids, Some (last_source_sequence artifact)).

Definition plan_resummary_job (binding : MemorySessionBinding) (expected_chat expected_card : str)
    (artifacts : list SummaryArtifact) : MemResult SummaryJob :=
  _ ← verify_scope binding expected_chat expected_card;
  if is_empty artifacts
  then Err (MemInvalidField "resummaryArtifacts" "must contain at least one artifact")
  else if len artifacts >? MAX_SOURCE_MESSAGES
  then Err (MemTooManyItems "resummaryArtifacts" MAX_SOURCE_MESSAGES)
  else
    _ ← foldM_result (check_artifact binding) (∅, None) artifacts;
    _ ← validate_batch_bytes "resummaryArtifacts" (map (fun a => len (artifact_content a)) artifacts);
    mret (job_from_binding binding Resummary (resummary_prompt (summary (binding_preset binding)))
            (from_option first_source_sequence 0 (list.head artifacts))
            (from_option last_source_sequence 0 (list.last artifacts))
            (JobArtifacts artifacts) []).

(** ** Queries *)

Definition eligible_for_query (scope : EmbeddingQueryScope) (message : MemorySourceMessage) : bool :=
  match scope with
  | Conversation => true
  | AssistantOnly => bool_decide (source_role message = Assistant)
  end.

Definition build_embedding_query (binding : MemorySessionBinding) (expected_chat expected_card : str)
    (messages : list MemorySourceMessage) : MemResult EmbeddingQueryPlan :=
  _ ← verify_scope binding expected_chat expected_card;
  _ ← validate_message_snapshot binding messages;
  match strategy (binding_preset binding) with
  | RollingSummary => Err (MemRetrievalUnavailable "rolling-summary mode has no embedding query")
  | HybridRetrieval policy =>
      let eligible := List.filter (eligible_for_query (query_scope policy)) messages in
      let selected := rev (take (Z.to_nat (query_message_count policy)) (rev eligible)) in
      if is_empty selected
      then Err (MemRetrievalUnavailable "the configured embedding query scope selected no messages")
      else
        _ ← validate_batch_bytes "embeddingQuery.messages" (map (fun m => len (source_content m)) selected);
        mret (mkQueryPlan (session_of binding) (embedding_profile policy) selected
                (digest_message_snapshot selected))
  end.

Definition plan_verify_binding (self : EmbeddingQueryPlan) (binding : MemorySessionBinding) :
    MemResult unit :=
  match strategy (binding_preset binding) with
  | RollingSummary => Err (MemRetrievalUnavailable "rolling-summary mode has no embedding query")
  | HybridRetrieval policy =>
      ensure (bool_decide (plan_session self = session_of binding) &&
              bool_decide (plan_embedding_profile self = embedding_profile policy))
        (MemRetrievalUnavailable "embedding query plan is outside the active memory session snapshot")
  end.

Definition verify_authoritative_messages (self : EmbeddingQueryPlan) (binding : MemorySessionBinding)
    (messages : list MemorySourceMessage) : MemResult unit :=
  _ ← plan_verify_binding self binding;
  _ ← validate_message_snapshot binding messages;
  if negb (bool_decide (plan_messages self = messages)) ||
     negb (str_eqb (message_snapshot_digest self) (digest_message_snapshot messages))
  then Err (MemRetrievalUnavailable "embedding query messages changed after the plan was created")
  else Ok tt.

(** ** Outputs *)

Record SummaryOutputCandidate : Type := mkOutput {
  current_source : AuthoritativeSummarySource;
  resolved_prompt : PromptPreset;
  output_mode : SummaryOutputMode;
  raw_output : str;
}.

Definition process_summary_output (binding : MemorySessionBinding) (expected_chat expected_card : str)
    (job : SummaryJob) (candidate : SummaryOutputCandidate) : MemResult ProcessedSummary :=
  _ ← verify_scope binding expected_chat expected_card;
  _ ← job_verify_binding job binding;
  _ ← verify_authoritative_source job binding (current_source candidate);
  _ ← verify_prompt_preset binding (resolved_prompt candidate);
  _ ← validate_generated_content (raw_output candidate);
  output ← match output_mode candidate with
           | InitialGeneration => Ok (raw_output candidate)
           | Regeneration =>
               match regeneration_regex (binding_preset binding) with
               | Skip => Ok (raw_output candidate)
               | ApplyPinnedPromptResponseRules =>
                   map_err MemPrompt
                     (apply_text_transforms (resolved_prompt candidate) TargetResponse
                        (raw_output candidate))
               end
           end;
  _ ← validate_generated_content output;
  mret (mkProcessed job output).

Definition process_regenerated_summary (binding : MemorySessionBinding)
    (expected_chat expected_card : str) (job : SummaryJob) (current : AuthoritativeSummarySource)
    (prompt : PromptPreset) (raw : str) : MemResult ProcessedSummary :=
  process_summary_output binding expected_chat expected_card job
    (mkOutput current prompt Regeneration raw).

(** ** From an output to an artifact (artifact.rs) *)

Definition too_many_leaves : MemoryError := MemTooManyItems "coveredLeafArtifactIds" MAX_MEMORY_CANDIDATES.

Definition cover_leaf (covered : list str) (leaf_id : str) : MemResult (list str) :=
  let covered := btree_insert leaf_id covered in
  if len covered >? MAX_MEMORY_CANDIDATES then Err too_many_leaves else Ok covered.

Definition covered_by (artifacts : list SummaryArtifact) : MemResult (list str) :=
  foldM_result (fun covered artifact =>
    foldM_result cover_leaf covered (covered_leaf_artifact_ids artifact)) [] artifacts.

Definition artifact_coverage (job : SummaryJob) (id : str) :
    MemResult (SummaryArtifactKind * list str) :=
  match job_kind job, job_source job with
  | Initial, JobMessages _ => Ok (Leaf, [id])
  | Resummary, JobArtifacts artifacts =>
      covered ← covered_by artifacts;
      if is_empty covered
      then Err (MemInvalidField "coveredLeafArtifactIds"
                  "a consolidated summary must cover at least one leaf")
      else Ok (Consolidated, covered)
  | _, _ => Err (MemInvalidField "summaryJob.source" "summary job kind and source type differ")
  end.

Definition SummaryArtifact_new (binding : MemorySessionBinding) (expected_chat expected_card : str)
    (processed : ProcessedSummary) (id : str) : MemResult SummaryArtifact :=
  _ ← verify_scope binding expected_chat expected_card;
  let job := processed_job processed in
  let content := processed_content processed in
  _ ← job_verify_binding job binding;
  if negb (requires_generation job)
  then Err (MemInvalidField "summaryJob.source"
              "a filtered-empty summary job cannot produce an artifact")
  else
    _ ← validate_artifact_content content;
    '(kind, covered) ← artifact_coverage job id;
    mret (mkArtifact id 1 (session_of binding) kind (job_first_sequence job) (job_last_sequence job)
            covered content Attached).
End summaries.
