(* ===== verification/MemorySummaryFacts.v ===== *)
(** * Memory: what holds of summaries

    Theorems about MemorySummary: a plan cuts the messages into consecutive batches
    and loses none; a job accepts its result only while its source is unchanged; an
    artifact carries the output, the range and the leaves of its job; and every
    artifact the crate can build is well formed, with no content left once it is
    invalidated. *)

From stdpp Require Import gmap sorting.
From S2P Require Import Prelude Bytes Utf8 Sorting ProviderConfig PromptTemplate PromptSchema PromptRegexFacts MemoryConfig MemorySummary ToolPolicy ToolApproval.

(** ** Batches *)

Section batches.
Context {A : Type} (n : nat).
Hypothesis Hn : (0 < n)%nat.

Lemma chunks_fuel_concat fuel (l : list A) :
  (length l <= fuel)%nat -> concat (chunks_fuel fuel n l) = l.
Proof.
  revert l. induction fuel as [|fuel IH]; intros [|x l] Hl; cbn in *; try done; [lia|].
  rewrite IH; [by rewrite take_drop|]. rewrite length_drop. cbn. lia.
Qed.

Lemma chunks_concat (l : list A) : concat (chunks n l) = l.
Proof. by apply chunks_fuel_concat. Qed.

(** Every batch has an element and at most [n]; all but the last have [n]. *)
Lemma chunks_sizes (l : list A) :
  Forall (fun b => b <> [] /\ (length b <= n)%nat) (chunks n l) /\
  Forall (fun b => length b = n) (removelast (chunks n l)).
Proof.
  unfold chunks. generalize (length l) as fuel. intros fuel. revert l.
  induction fuel as [|fuel IH]; intros [|x l]; cbn [chunks_fuel]; try (split; constructor).
  destruct (IH (drop n (x :: l))) as [H1 H2].
  split.
  - constructor; [|done]. rewrite length_take. split; [|lia]. destruct n; [lia|done].
  - destruct (chunks_fuel fuel n (drop n (x :: l))) eqn:Hc; [constructor|].
    cbn [removelast]. constructor; [|done]. destruct (le_lt_dec n (length (x :: l))) as [|Hlt].
    + rewrite length_take. lia.
    + rewrite (drop_ge (x :: l) n) in Hc by lia. by destruct fuel.
Qed.
End batches.

(** ** Sorted sets *)

Definition str_lt (a b : str) : Prop := str_cmp a b = Lt.

#[export] Instance str_lt_trans : Transitive str_lt.
Proof. intros a b c. apply str_cmp_trans. Qed.

Lemma btree_insert_elem x y set : y ∈ btree_insert x set <-> y = x \/ y ∈ set.
Proof.
  induction set as [|z set IH]; cbn [btree_insert]; [set_solver|].
  destruct (str_cmp x z) eqn:Hc; rewrite ?elem_of_cons, ?IH; try set_solver.
  apply str_cmp_eq in Hc as ->. set_solver.
Qed.

Lemma str_cmp_Gt a b : str_cmp a b = Gt -> str_lt b a.
Proof. intros Hg. unfold str_lt. rewrite str_cmp_antisym, Hg. done. Qed.

Lemma btree_insert_sorted x set :
  StronglySorted str_lt set -> StronglySorted str_lt (btree_insert x set).
Proof.
  induction 1 as [|z set Hs IH Hz]; cbn [btree_insert]; [repeat constructor|].
  destruct (str_cmp x z) eqn:Hc.
  - by constructor.
  - constructor; [by constructor|]. constructor; [done|].
    eapply Forall_impl; [|exact Hz]. intros y. by apply str_cmp_trans.
  - constructor; [done|]. apply Forall_forall. intros y Hy%list_elem_of_In.
    apply btree_insert_elem in Hy as [->|Hy]; [by apply str_cmp_Gt|].
    rewrite Forall_forall in Hz. by apply Hz, list_elem_of_In.
Qed.

(** ** Binary search *)

Section binary_search.
Context (l : list str) (x : str).
Hypothesis Hsorted : StronglySorted str_lt l.

(** If [x] is anywhere, it is between [base] and [base + size]. *)
Definition window (base size : nat) : Prop :=
  (base + size <= length l)%nat /\ (0 < size)%nat /\
  forall i, l !! i = Some x -> (base <= i < base + size)%nat.

Lemma nth_sorted_lt i j :
  (i < j < length l)%nat -> str_lt (nth i l []) (nth j l []).
Proof.
  intros Hij. destruct (lookup_lt_is_Some_2 l i ltac:(lia)) as [a Ha].
  destruct (lookup_lt_is_Some_2 l j ltac:(lia)) as [b Hb].
  rewrite (nth_lookup_Some _ _ [] _ Ha), (nth_lookup_Some _ _ [] _ Hb).
  rewrite <- (take_drop_middle l j b Hb) in Hsorted.
  eapply (StronglySorted_app_1_elem_of _ _ _ a b Hsorted); [|left].
  apply elem_of_take. exists i. split; [done|lia].
Qed.

Lemma str_lt_irrefl a : ~ str_lt a a.
Proof. unfold str_lt. by rewrite str_cmp_refl. Qed.

Lemma binary_search_window fuel base size :
  (size <= S fuel)%nat -> window base size ->
  window (binary_search_loop fuel l x base size) 1.
Proof.
  revert base size. induction fuel as [|fuel IH]; intros base size Hf Hw; cbn [binary_search_loop].
  { by replace size with 1%nat in Hw by (destruct Hw; lia). }
  destruct (1 <? size)%nat eqn:Hs.
  2:{ apply Nat.ltb_ge in Hs. by replace size with 1%nat in Hw by (destruct Hw; lia). }
  apply Nat.ltb_lt in Hs. destruct Hw as (Hb & _ & Hx).
  assert (Hh : (0 < size / 2 < size)%nat)
    by (split; [apply Nat.div_str_pos; lia|apply Nat.div_lt; lia]).
  assert (Hhalf : (size / 2 <= size - size / 2)%nat)
    by (pose proof (Nat.Div0.mul_div_le size 2); lia).
  set (half := (size / 2)%nat) in *. apply IH; [lia|].
  assert (Hcmp : forall i, l !! i = Some x ->
    match str_cmp (nth (base + half) l []) x with Gt => (i < base + half)%nat | _ => (base + half <= i)%nat end).
  { intros i Hi. pose proof (nth_lookup_Some _ _ [] _ Hi) as Hn.
    pose proof (lookup_lt_Some _ _ _ Hi) as Hlt.
    destruct (str_cmp _ x) eqn:Hc.
    - apply str_cmp_eq in Hc. destruct (lt_dec i (base + half)); [|lia].
      exfalso. apply (str_lt_irrefl x). rewrite <- Hc at 2. rewrite <- Hn at 1. apply nth_sorted_lt. lia.
    - destruct (lt_dec i (base + half)) as [Hl|]; [|lia]. exfalso. apply (str_lt_irrefl x).
      transitivity (nth (base + half) l []); [|done]. rewrite <- Hn at 1. apply nth_sorted_lt. lia.
    - destruct (lt_dec i (base + half)) as [Hl|Hge]; [done|]. exfalso. apply (str_lt_irrefl x).
      apply str_cmp_Gt in Hc. destruct (decide (i = (base + half)%nat)) as [->|Hne].
      + by rewrite Hn in Hc.
      + eapply str_cmp_trans; [exact Hc|]. rewrite <- Hn at 1. apply nth_sorted_lt. lia. }
  destruct (str_cmp _ x); (split; [lia|split; [lia|]]); intros i Hi; specialize (Hx i Hi); specialize (Hcmp i Hi); lia.
Qed.

Lemma binary_search_elem : binary_search_found l x = true <-> x ∈ l.
Proof.
  unfold binary_search_found. destruct (is_empty l) eqn:He.
  { apply is_empty_true in He. rewrite He. split; [done|by intros ?%not_elem_of_nil]. }
  assert (Hpos : (0 < length l)%nat) by (by destruct l; [|cbn; lia]).
  destruct (binary_search_window (length l) 0 (length l)) as (Hb & _ & Hx); [lia| |].
  { split; [lia|]. split; [done|]. intros i Hi%lookup_lt_Some. lia. }
  set (base := binary_search_loop _ _ _ _ _) in *. split.
  - destruct (str_cmp (nth base l []) x) eqn:Hc; try done. intros _. apply str_cmp_eq in Hc.
    rewrite <- Hc. apply list_elem_of_In, nth_In. lia.
  - intros Hin. apply list_elem_of_lookup in Hin as [i Hi]. specialize (Hx i Hi).
    replace base with i by lia. rewrite (nth_lookup_Some _ _ [] _ Hi), str_cmp_refl. done.
Qed.
End binary_search.

(** ** Snapshots of messages *)

Definition earlier (m m' : MemorySourceMessage) : Prop := source_sequence m < source_sequence m'.

(** What [validate_message_snapshot] accepts. *)
Record snapshot_ok (binding : MemorySessionBinding) (messages : list MemorySourceMessage) : Prop := {
  ss_count : len messages <= MAX_SOURCE_MESSAGES;
  ss_chat : Forall (fun m => source_chat_id m = binding_chat_id binding) messages;
  ss_ids : NoDup (map source_id messages);
  ss_order : StronglySorted earlier messages;
}.

(** The loop from a state that stands for the messages already seen. *)
Lemma check_messages_spec binding messages : forall ids previous,
  (exists acc, foldM_result (check_message binding) (ids, previous) messages = Ok acc) <->
  Forall (fun m => source_chat_id m = binding_chat_id binding) messages /\
  NoDup (map source_id messages) /\ Forall (fun m => source_id m ∉ ids) messages /\
  StronglySorted earlier messages /\
  Forall (fun m => match previous with Some p => p < source_sequence m | None => True end) messages.
Proof.
  induction messages as [|m messages IH]; intros ids previous.
  { cbn [foldM_result map]. split; [intros _; repeat split; constructor|]. intros _. by eexists. }
  cbn [foldM_result map]. unfold check_message at 2.
  destruct (str_eqb (source_chat_id m) (binding_chat_id binding)) eqn:Hc; cbn [negb].
  2:{ apply str_eqb_neq in Hc. split; [by intros [? ?]|]. rewrite Forall_cons_iff. by intros ((? & _) & _). }
  apply str_eqb_eq in Hc. case_bool_decide as Hid.
  { split; [by intros [? ?]|]. rewrite !Forall_cons_iff. tauto. }
  assert (Hprev : match previous with Some p => p >=? source_sequence m | None => false end = false <->
            match previous with Some p => p < source_sequence m | None => True end)
    by (destruct previous; [lia|done]).
  destruct (match previous with Some p => p >=? _ | None => false end).
  { split; [by intros [? ?]|]. rewrite !Forall_cons_iff.
    intros (_ & _ & _ & _ & [Hp%Hprev _]). done. }
  cbn [mbind result_bind]. rewrite IH. rewrite !Forall_cons_iff, list.NoDup_cons. split.
  - intros (H1 & H2 & H3 & H4 & H5). split_and!; try done; try (by apply Hprev).
    + rewrite list_elem_of_fmap. intros (m' & Heq & Hm'). rewrite Forall_forall in H3.
      apply (H3 m'); [by apply list_elem_of_In|]. rewrite <- Heq. set_solver.
    + eapply Forall_impl; [|exact H3]. cbn. set_solver.
    + by constructor.
    + eapply Forall_impl; [|exact H5]. cbn. destruct previous; [|done].
      pose proof (proj1 Hprev eq_refl). lia.
  - intros ((_ & H1) & [H2 H2'] & [_ H3] & H4 & _). inversion H4 as [|? ? H4' H5]; subst.
    split_and!; try done. rewrite Forall_forall in *. intros m' Hm'. specialize (H3 m' Hm').
    rewrite elem_of_union, elem_of_singleton. intros [Heq|?]; [|done]. apply H2.
    rewrite <- Heq. by apply list_elem_of_fmap_2, list_elem_of_In.
Qed.

Lemma validate_message_snapshot_iff binding messages :
  validate_message_snapshot binding messages = Ok tt <-> snapshot_ok binding messages.
Proof.
  unfold validate_message_snapshot. pose proof (check_messages_spec binding messages ∅ None) as Hspec.
  assert (Htriv : forall (P : MemorySourceMessage -> Prop), (forall m, P m) -> Forall P messages)
    by (intros P HP; apply Forall_forall; auto).
  split.
  - destruct (_ >? _) eqn:Hl; [done|]. intros Hv. apply bind_Ok in Hv as (acc & Ha & _).
    destruct (proj1 Hspec (ex_intro _ acc Ha)) as (H1 & H2 & _ & H4 & _). split; try done. lia.
  - intros [Hl H1 H2 H4]. rewrite gtb_false by lia.
    destruct (proj2 Hspec) as [acc ->]; [|done]. split_and!; try done; apply Htriv; [set_solver|done].
Qed.

(** A run of consecutive messages of a valid snapshot is a valid snapshot. *)
Lemma snapshot_ok_slice binding a b c : snapshot_ok binding (a ++ b ++ c) -> snapshot_ok binding b.
Proof.
  intros [Hl H1 H2 H4]. rewrite !len_app in Hl. pose proof (len_nonneg a). pose proof (len_nonneg c).
  rewrite !Forall_app in H1. rewrite !map_app in H2. apply list.NoDup_app in H2 as (_ & _ & H2).
  apply list.NoDup_app in H2 as (H2 & _). apply StronglySorted_app_1_r, StronglySorted_app_1_l in H4.
  split; try done; [lia|]. tauto.
Qed.

(** ** Plans *)

Lemma validate_batch_bytes_spec field sizes total :
  Forall (fun s => 0 <= s) sizes -> 0 <= total <= MAX_SOURCE_BATCH_BYTES ->
  foldM_result (add_size field) total sizes =
  if total + foldr Z.add 0 sizes >? MAX_SOURCE_BATCH_BYTES
  then Err (MemPayloadTooLarge field MAX_SOURCE_BATCH_BYTES) else Ok (total + foldr Z.add 0 sizes).
Proof.
  intros Hs. revert total. induction Hs as [|s sizes Hs Hss IH]; intros total Ht; cbn [foldM_result foldr].
  { rewrite Z.add_0_r, gtb_false by lia. done. }
  assert (Hpos : 0 <= foldr Z.add 0 sizes) by (clear -Hss; induction Hss; cbn [foldr]; lia).
  unfold add_size at 2, checked_add.
  destruct (total + s <=? USIZE_MAX) eqn:Hu; cbn [ok_or mbind result_bind].
  2:{ rewrite gtb_true; [done|]. unfold MAX_SOURCE_BATCH_BYTES, USIZE_MAX, U64_MAX in *. lia. }
  destruct (total + s >? MAX_SOURCE_BATCH_BYTES) eqn:Hm; cbn [mbind result_bind].
  - rewrite gtb_true by lia. done.
  - rewrite IH by lia. rewrite Z.add_assoc. done.
Qed.

Definition bytes_of (messages : list MemorySourceMessage) : Z :=
  foldr Z.add 0 (map (fun m => len (source_content m)) messages).

Lemma bytes_of_nonneg messages : 0 <= bytes_of messages.
Proof.
  unfold bytes_of. induction messages as [|m ms IH]; cbn [map foldr]; [lia|].
  pose proof (len_nonneg (source_content m)). lia.
Qed.

Lemma validate_messages_bytes field messages :
  validate_batch_bytes field (map (fun m => len (source_content m)) messages) =
  if bytes_of messages >? MAX_SOURCE_BATCH_BYTES
  then Err (MemPayloadTooLarge field MAX_SOURCE_BATCH_BYTES) else Ok (bytes_of messages).
Proof.
  unfold validate_batch_bytes. rewrite validate_batch_bytes_spec; [done| |unfold MAX_SOURCE_BATCH_BYTES; lia].
  apply Forall_forall. intros s (m & <- & _)%in_map_iff. apply len_nonneg.
Qed.

Section plans.
Context `{MemoryLib, PromptRegexLib} (binding : MemorySessionBinding).

Let policy := summary (binding_preset binding).

Definition included (batch : list MemorySourceMessage) : list MemorySourceMessage :=
  List.filter (included_in policy) batch.

(** The job of a batch, and the bytes it sends. *)
Definition job_of (batch : list MemorySourceMessage) : SummaryJob :=
  mkJob (session_of binding) Initial (if is_empty (included batch) then [] else summary_prompt policy)
    (first_sequence batch) (last_sequence batch) (JobMessages (included batch)) (map from_message batch).

Definition job_bytes (batch : list MemorySourceMessage) : Z :=
  bytes_of (included batch) + if is_empty (included batch) then 0 else len (summary_prompt policy).

Definition plan_bytes (batches : list (list MemorySourceMessage)) : Z :=
  foldr Z.add 0 (map job_bytes batches).

Lemma job_bytes_nonneg batch : 0 <= job_bytes batch.
Proof.
  unfold job_bytes. pose proof (bytes_of_nonneg (included batch)).
  pose proof (len_nonneg (summary_prompt policy)). destruct (is_empty _); lia.
Qed.

Lemma plan_bytes_nonneg batches : 0 <= plan_bytes batches.
Proof.
  unfold plan_bytes. induction batches as [|b bs IH]; cbn [map foldr]; [lia|].
  pose proof (job_bytes_nonneg b). lia.
Qed.

Lemma plan_batch_spec jobs planned batch :
  0 <= planned <= MAX_SUMMARY_PLAN_BYTES ->
  plan_batch binding (jobs, planned) batch =
  if bytes_of (included batch) >? MAX_SOURCE_BATCH_BYTES
  then Err (MemPayloadTooLarge "summaryJob.messages" MAX_SOURCE_BATCH_BYTES)
  else if planned + job_bytes batch >? MAX_SUMMARY_PLAN_BYTES then Err plan_too_large
  else Ok (jobs ++ [job_of batch], planned + job_bytes batch).
Proof.
  intros Hp. unfold plan_batch. fold policy. fold (included batch). rewrite validate_messages_bytes.
  destruct (bytes_of (included batch) >? MAX_SOURCE_BATCH_BYTES) eqn:Hb; [done|].
  cbn [mbind result_bind]. fold (job_bytes batch).
  pose proof (job_bytes_nonneg batch). unfold checked_add. fold (job_bytes batch).
  assert (Hmax : MAX_SUMMARY_PLAN_BYTES < USIZE_MAX) by done.
  destruct (job_bytes batch <=? USIZE_MAX) eqn:Hj; cbn [ok_or mbind result_bind].
  2:{ rewrite gtb_true by lia. done. }
  destruct (planned + job_bytes batch <=? USIZE_MAX) eqn:Hu; cbn [ok_or mbind result_bind].
  2:{ rewrite gtb_true by lia. done. }
  destruct (_ >? _); done.
Qed.

Definition batch_fits (batch : list MemorySourceMessage) : Prop :=
  bytes_of (included batch) <= MAX_SOURCE_BATCH_BYTES.

Lemma plan_batches_spec batches : forall jobs planned r,
  0 <= planned <= MAX_SUMMARY_PLAN_BYTES ->
  foldM_result (plan_batch binding) (jobs, planned) batches = Ok r <->
  Forall batch_fits batches /\ planned + plan_bytes batches <= MAX_SUMMARY_PLAN_BYTES /\
  r = (jobs ++ map job_of batches, planned + plan_bytes batches).
Proof.
  unfold batch_fits. induction batches as [|b bs IH]; intros jobs planned r Hp; cbn [foldM_result].
  { unfold plan_bytes. cbn [map foldr]. rewrite app_nil_r, Z.add_0_r. split.
    - intros [= <-]. split; [constructor|]. split; [lia|done].
    - by intros (_ & _ & ->). }
  rewrite plan_batch_spec by done. rewrite Forall_cons_iff. unfold plan_bytes. cbn [map foldr].
  fold (plan_bytes bs). pose proof (plan_bytes_nonneg bs). pose proof (job_bytes_nonneg b).
  destruct (bytes_of (included b) >? MAX_SOURCE_BATCH_BYTES) eqn:Hb; cbn [mbind result_bind].
  { split; [done|]. intros ((? & _) & _). lia. }
  destruct (planned + job_bytes b >? MAX_SUMMARY_PLAN_BYTES) eqn:Hj; cbn [mbind result_bind].
  { split; [done|]. intros (_ & ? & _). lia. }
  rewrite IH by lia. rewrite <- app_assoc, Z.add_assoc. cbn [app]. split; intros (? & ? & ?);
    (split; [|split; [lia|done]]); [split; [lia|done]|tauto].
Qed.

Definition batch_size : nat := Z.to_nat (max_messages_per_summary policy).

Lemma plan_iff chat card messages jobs :
  plan_initial_summary_jobs binding chat card messages = Ok jobs <->
  verify_scope binding chat card = Ok tt /\ snapshot_ok binding messages /\
  Forall batch_fits (chunks batch_size messages) /\
  plan_bytes (chunks batch_size messages) <= MAX_SUMMARY_PLAN_BYTES /\
  jobs = map job_of (chunks batch_size messages).
Proof.
  unfold plan_initial_summary_jobs. fold policy. fold batch_size.
  pose proof (validate_message_snapshot_iff binding messages) as Hsnap.
  pose proof (fun r => plan_batches_spec (chunks batch_size messages) [] 0 r ltac:(done)) as Hf.
  cbn [app] in Hf. rewrite Z.add_0_l in Hf. split.
  - intros Hp. apply bind_Ok in Hp as ([] & Hs & Hp). apply bind_Ok in Hp as ([] & Hv%Hsnap & Hp).
    apply bind_Ok in Hp as ([js n] & Hfold & Hp). injection Hp as <-.
    apply Hf in Hfold as (H1 & H2 & [= -> ->]). done.
  - intros (Hs & Hv%Hsnap & H1 & H2 & ->). rewrite Hs, Hv. cbn [mbind result_bind].
    rewrite (proj2 (Hf _) (conj H1 (conj H2 eq_refl))). done.
Qed.
End plans.

(** ** Ranges *)

Lemma first_sequence_elem batch :
  batch <> [] -> exists m, m ∈ batch /\ first_sequence batch = source_sequence m.
Proof. destruct batch as [|m batch]; [done|]. intros _. exists m. split; [left|done]. Qed.

Lemma last_sequence_elem batch :
  batch <> [] -> exists m, m ∈ batch /\ last_sequence batch = source_sequence m.
Proof.
  intros Hb. unfold last_sequence. destruct (list.last batch) as [m|] eqn:Hl.
  - exists m. split; [|done]. by apply last_Some_elem_of.
  - by apply last_None in Hl.
Qed.

Lemma first_sequence_le batch m :
  StronglySorted earlier batch -> m ∈ batch -> first_sequence batch <= source_sequence m.
Proof.
  intros Hs Hm. destruct Hs as [|x l Hs Hx]; [by apply not_elem_of_nil in Hm|].
  cbn [first_sequence]. apply elem_of_cons in Hm as [->|Hm]; [lia|].
  rewrite Forall_forall in Hx. apply list_elem_of_In, Hx in Hm. unfold earlier in Hm. lia.
Qed.

(** Consecutive runs of ordered messages have ordered ranges. *)
Lemma batches_ordered (batches : list (list MemorySourceMessage)) :
  Forall (fun b => b <> []) batches -> StronglySorted earlier (concat batches) ->
  Forall (fun b => first_sequence b <= last_sequence b) batches /\
  StronglySorted (fun b c => last_sequence b < first_sequence c) batches.
Proof.
  induction 1 as [|b bs Hb Hbs IH]; [intros _; split; constructor|]. cbn [concat]. intros Hs.
  pose proof (StronglySorted_app_1_l _ _ _ Hs) as Hsb.
  destruct (IH (StronglySorted_app_1_r _ _ _ Hs)) as [H1 H2].
  destruct (last_sequence_elem b Hb) as (m & Hm & Hlast). split; constructor; try done.
  - rewrite Hlast. by apply first_sequence_le.
  - apply Forall_forall. intros c Hc. rewrite Forall_forall in Hbs.
    destruct (first_sequence_elem c (Hbs c Hc)) as (m' & Hm' & ->). rewrite Hlast.
    apply (StronglySorted_app_1_elem_of _ _ _ m m' Hs Hm).
    apply list_elem_of_In, in_concat. exists c. split; [done|]. by apply list_elem_of_In.
Qed.

(** C27: Planning the summaries of a chat loses and repeats nothing: the messages are
    exactly the batches in order, all of the configured size but the last; the plan is
    accepted exactly when the session, the snapshot and the size limits allow it, and
    is then one job per batch, whose source is the batch without the messages the
    preset skips; the ranges of the jobs follow each other without overlap. *)
Theorem plan_partitions_messages `{MemoryLib, PromptRegexLib} (binding : MemorySessionBinding)
    (chat card : str) (messages : list MemorySourceMessage) :
  1 <= max_messages_per_summary (summary (binding_preset binding)) ->
  let batches := chunks (batch_size binding) messages in
  concat batches = messages /\
  Forall (fun b => b <> [] /\ (length b <= batch_size binding)%nat) batches /\
  Forall (fun b => length b = batch_size binding) (removelast batches) /\
  forall jobs,
    (plan_initial_summary_jobs binding chat card messages = Ok jobs <->
     verify_scope binding chat card = Ok tt /\ snapshot_ok binding messages /\
     Forall (batch_fits binding) batches /\ plan_bytes binding batches <= MAX_SUMMARY_PLAN_BYTES /\
     jobs = map (job_of binding) batches) /\
    (plan_initial_summary_jobs binding chat card messages = Ok jobs ->
     Forall (fun j => job_first_sequence j <= job_last_sequence j) jobs /\
     StronglySorted (fun j k => job_last_sequence j < job_first_sequence k) jobs).
Proof.
  intros Hn batches. assert (Hpos : (0 < batch_size binding)%nat) by (unfold batch_size; lia).
  pose proof (chunks_concat _ Hpos messages) as Hcat. fold batches in Hcat.
  destruct (chunks_sizes _ Hpos messages) as [Hsize Hfull]. fold batches in Hsize, Hfull.
  repeat (split; [done|]). intros jobs. split; [apply plan_iff|]. intros Hp.
  apply plan_iff in Hp as (_ & [_ _ _ Ho] & _ & _ & ->). fold batches.
  rewrite <- Hcat in Ho. apply batches_ordered in Ho as [H1 H2].
  2:{ eapply Forall_impl; [|exact Hsize]. by intros b [? _]. }
  split.
  - apply Forall_map. exact H1.
  - clear -H2. induction H2 as [|b bs Hbs IH Hb]; cbn [map]; constructor; [done|].
    apply Forall_map. exact Hb.
Qed.

(** ** Digests *)

(** A message as the constructors and the stores make it. *)
Definition message_typed (m : MemorySourceMessage) : Prop :=
  is_u64 (len (source_id m)) /\ is_u64 (source_sequence m) /\ is_u64 (len (source_content m)).

Lemma role_byte_inj r r' : role_byte r = role_byte r' -> r = r'.
Proof. by destruct r, r'. Qed.

Lemma message_preimage_inj m m' :
  message_typed m -> message_typed m' -> source_chat_id m = source_chat_id m' ->
  message_preimage m = message_preimage m' -> m = m'.
Proof.
  intros (Hi & Hs & Hc) (Hi' & Hs' & Hc') Hchat. unfold message_preimage.
  intros [Hid Hm]%app_inv_head%mac_field_inj; [|done..].
  apply be_field_inj in Hm as [Hseq Hm]; [|done..]. cbn [app] in Hm. apply (inj2 cons) in Hm as [Hr Hm].
  apply role_byte_inj in Hr.
  rewrite <- (app_nil_r (mac_field (source_content m))), <- (app_nil_r (mac_field (source_content m'))) in Hm.
  apply mac_field_inj in Hm as [Hcont _]; [|done..]. destruct m, m'; cbn in *; congruence.
Qed.

Section sources.
Context `{MemoryLib, PromptRegexLib}.

(** The planned message and the current one are the same, or they are different
    inputs on which SHA-256 agrees. *)
Definition same_or_collision (m m' : MemorySourceMessage) : Prop :=
  m = m' \/
  message_preimage m <> message_preimage m' /\
  memory_sha256 (message_preimage m) = memory_sha256 (message_preimage m').

Lemma pin_matches_iff m m' :
  pin_matches (from_message m) m' = true <->
  source_id m = source_id m' /\ source_sequence m = source_sequence m' /\
  source_role m = source_role m' /\ digest_message m = digest_message m'.
Proof.
  unfold pin_matches, from_message. cbn [snapshot_id snapshot_sequence snapshot_role snapshot_digest].
  rewrite !andb_true_iff, !str_eqb_eq, Z.eqb_eq, bool_decide_eq_true. tauto.
Qed.

Lemma pins_match batch current :
  length batch = length current ->
  forallb (fun p => pin_matches p.1 p.2) (List.combine (map from_message batch) current) = true <->
  Forall2 (fun m m' => pin_matches (from_message m) m' = true) batch current.
Proof.
  revert current. induction batch as [|m batch IH]; intros [|m' current] Hl; try done.
  cbn [map List.combine forallb fst snd]. rewrite andb_true_iff, Forall2_cons_iff, IH; [done|].
  cbn in Hl. lia.
Qed.

Lemma verify_messages_iff binding batch current :
  verify_authoritative_source (job_of binding batch) binding (AuthMessages current) = Ok tt <->
  snapshot_ok binding current /\
  Forall2 (fun m m' => pin_matches (from_message m) m' = true) batch current.
Proof.
  unfold verify_authoritative_source, job_of. cbn [job_source message_snapshot].
  pose proof (validate_message_snapshot_iff binding current) as Hsnap.
  assert (Hlen : (len current =? len (map from_message batch)) = true <-> length batch = length current)
    by (unfold len; rewrite length_map; lia).
  split.
  - intros Hv. apply bind_Ok in Hv as ([] & Hs%Hsnap & Hv).
    destruct (len current =? _); [|done]. destruct (forallb _ _) eqn:Hf; [|done].
    split; [done|]. apply pins_match; [by apply Hlen|done].
  - intros [Hs%Hsnap Hf]. rewrite Hs. cbn [mbind result_bind].
    pose proof (Forall2_length Hf) as Hl. rewrite (proj2 Hlen Hl).
    by rewrite (proj2 (pins_match _ _ Hl) Hf).
Qed.
End sources.

(** C28: The result of a summary job is only accepted for the messages it was planned
    from.  The job of a batch passes the check against the unchanged batch; whatever
    passes it has the same number of messages, each the planned one or one whose
    different serialisation has the same SHA-256; and an artifact source is refused. *)
Theorem changed_source_is_detected `{MemoryLib, PromptRegexLib} (binding : MemorySessionBinding)
    (chat card : str) (messages : list MemorySourceMessage) (jobs : list SummaryJob) :
  1 <= max_messages_per_summary (summary (binding_preset binding)) ->
  plan_initial_summary_jobs binding chat card messages = Ok jobs -> Forall message_typed messages ->
  Forall2 (fun batch job =>
    verify_authoritative_source job binding (AuthMessages batch) = Ok tt /\
    (forall current, Forall message_typed current ->
       verify_authoritative_source job binding (AuthMessages current) = Ok tt ->
       Forall2 same_or_collision batch current) /\
    forall artifacts, verify_authoritative_source job binding (AuthArtifacts artifacts) <> Ok tt)
  (chunks (batch_size binding) messages) jobs.
Proof.
  intros Hn Hp Ht. apply plan_iff in Hp as (_ & Hsnap & _ & _ & ->).
  assert (Hcat : concat (chunks (batch_size binding) messages) = messages)
    by (apply chunks_concat; unfold batch_size; lia).
  apply Forall2_fmap_r, Forall_Forall2_diag, Forall_forall. intros batch Hin.
  apply in_split in Hin as (pre & post & Hsplit). rewrite Hsplit, concat_app in Hcat. cbn [concat] in Hcat.
  rewrite <- Hcat in Hsnap, Ht. apply Forall_app in Ht as [_ Ht]. apply Forall_app in Ht as [Ht _].
  pose proof (snapshot_ok_slice _ _ _ _ Hsnap) as Hb. split_and!; [| |done].
  - apply verify_messages_iff. split; [done|]. apply Forall_Forall2_diag, Forall_forall. intros m _.
    by apply pin_matches_iff.
  - intros current Hct [Hcur Hf]%verify_messages_iff. destruct Hb as [_ Hchat _ _], Hcur as [_ Hchat' _ _].
    clear -Ht Hct Hchat Hchat' Hf. induction Hf as [|m m' batch current Hm Hf IH]; [constructor|].
    apply Forall_cons_iff in Ht as [Htm Ht], Hct as [Hcm Hct], Hchat as [Hc Hchat], Hchat' as [Hc' Hchat'].
    constructor; [|by apply IH].
    apply pin_matches_iff in Hm as (_ & _ & _ & Hd).
    destruct (decide (message_preimage m = message_preimage m')) as [He|]; [left|by right].
    apply message_preimage_inj; [done..|congruence|done].
Qed.

(** ** Artifacts *)

(** What the leaves of a set of artifacts are, as [covered_by] collects them. *)
Lemma cover_leaves_spec ids : forall covered covered',
  foldM_result cover_leaf covered ids = Ok covered' -> StronglySorted str_lt covered ->
  StronglySorted str_lt covered' /\ forall x, x ∈ covered' <-> x ∈ covered \/ x ∈ ids.
Proof.
  induction ids as [|i ids IH]; intros covered covered'; cbn [foldM_result].
  { intros [= <-] Hs. split; [done|]. set_solver. }
  intros Hf Hs. apply bind_Ok in Hf as (c & Hc & Hf). unfold cover_leaf in Hc.
  case_match; [done|]. injection Hc as <-. apply IH in Hf as [Hs' Hx]; [|by apply btree_insert_sorted].
  split; [done|]. intros x. rewrite Hx, btree_insert_elem, elem_of_cons. tauto.
Qed.

Lemma covered_by_spec artifacts covered :
  covered_by artifacts = Ok covered ->
  StronglySorted str_lt covered /\
  forall x, x ∈ covered <-> exists a, a ∈ artifacts /\ x ∈ covered_leaf_artifact_ids a.
Proof.
  unfold covered_by. intros Hf.
  assert (Hgen : forall l acc acc',
    foldM_result (fun covered a => foldM_result cover_leaf covered (covered_leaf_artifact_ids a)) acc l
      = Ok acc' -> StronglySorted str_lt acc ->
    StronglySorted str_lt acc' /\
    forall x, x ∈ acc' <-> x ∈ acc \/ exists a, a ∈ l /\ x ∈ covered_leaf_artifact_ids a).
  { clear. induction l as [|a l IH]; intros acc acc'; cbn [foldM_result].
    - intros [= <-] Hs. split; [done|]. set_solver.
    - intros Hf Hs. apply bind_Ok in Hf as (c & Hc & Hf). apply cover_leaves_spec in Hc as [Hs1 Hx1]; [|done].
      apply IH in Hf as [Hs2 Hx2]; [|done]. split; [done|]. intros x. rewrite Hx2, Hx1. set_solver. }
  apply Hgen in Hf as [Hs Hx]; [|constructor]. split; [done|]. intros x. rewrite Hx. set_solver.
Qed.

Definition text_ok (content : str) : Prop :=
  trim content <> [] /\ len content <= MAX_MEMORY_ARTIFACT_BYTES /\ contains content [NUL] = false.

Lemma validate_artifact_content_iff content :
  validate_artifact_content content = Ok tt <-> text_ok content.
Proof.
  unfold validate_artifact_content, text_ok. rewrite <- is_empty_false.
  destruct (is_empty _), (len content >? MAX_MEMORY_ARTIFACT_BYTES) eqn:Hl, (contains _ _);
    split; intros Hx; try done; try (destruct Hx as (? & ? & ?); try done; lia).
  split_and!; [done|lia|done].
Qed.

Definition invalidated (v : MemoryValidity) : bool :=
  match v with InvalidatedByEdit | InvalidatedByDeletion => true | _ => false end.

Record artifact_ok (a : SummaryArtifact) : Prop := {
  ak_revision : 1 <= artifact_revision a <= U64_MAX;
  ak_range : first_source_sequence a <= last_source_sequence a;
  ak_covered : StronglySorted str_lt (covered_leaf_artifact_ids a);
  ak_nonempty : covered_leaf_artifact_ids a <> [];
  ak_leaf : artifact_kind a = Leaf -> covered_leaf_artifact_ids a = [artifact_id a];
  ak_content : if invalidated (validity a)
               then artifact_content a = [] /\ 2 <= artifact_revision a
               else text_ok (artifact_content a);
}.

Section artifacts.
Context `{MemoryLib, PromptRegexLib}.

(** The artifact of a processed output, with the leaves it stands for. *)
Lemma SummaryArtifact_new_inv binding chat card processed id a :
  SummaryArtifact_new binding chat card processed id = Ok a ->
  let job := processed_job processed in
  job_session job = session_of binding /\ source_is_empty (job_source job) = false /\
  text_ok (processed_content processed) /\
  exists kind covered, artifact_coverage job id = Ok (kind, covered) /\
    a = mkArtifact id 1 (session_of binding) kind (job_first_sequence job) (job_last_sequence job)
          covered (processed_content processed) Attached.
Proof.
  unfold SummaryArtifact_new. intros Ha. apply bind_Ok in Ha as ([] & _ & Ha).
  apply bind_Ok in Ha as ([] & Hb%ensure_Ok%bool_decide_eq_true & Ha).
  unfold requires_generation in Ha. destruct (source_is_empty _) eqn:He; [done|].
  apply bind_Ok in Ha as ([] & Hc%validate_artifact_content_iff & Ha).
  apply bind_Ok in Ha as ([kind covered] & Hk & Ha). injection Ha as <-.
  split_and!; try done. by exists kind, covered.
Qed.

Lemma artifact_coverage_inv job id kind covered :
  artifact_coverage job id = Ok (kind, covered) ->
  StronglySorted str_lt covered /\ covered <> [] /\ (kind = Leaf -> covered = [id]).
Proof.
  unfold artifact_coverage. destruct (job_kind job), (job_source job) as [|artifacts]; try done.
  - intros [= <- <-]. split; [repeat constructor|done].
  - intros Ha. apply bind_Ok in Ha as (c & [Hs _]%covered_by_spec & Ha).
    destruct (is_empty c) eqn:He; [done|]. injection Ha as <- <-.
    split; [done|]. split; [by apply is_empty_false|done].
Qed.

(** The range of artifacts in order, none of them empty. *)
Lemma check_artifacts_range binding artifacts : forall ids previous acc,
  foldM_result (check_artifact binding) (ids, previous) artifacts = Ok acc ->
  Forall (fun a => first_source_sequence a <= last_source_sequence a) artifacts ->
  match list.head artifacts, list.last artifacts with
  | Some a, Some b => first_source_sequence a <= last_source_sequence b /\
      match previous with Some p => p < first_source_sequence a | None => True end
  | _, _ => True
  end.
Proof.
  induction artifacts as [|a artifacts IH]; intros ids previous acc Hf Hr; [done|].
  cbn [foldM_result] in Hf. apply bind_Ok in Hf as (st & Hc & Hf). unfold check_artifact in Hc.
  apply bind_Ok in Hc as ([] & _ & Hc). apply bind_Ok in Hc as ([] & _ & Hc).
  case_bool_decide; [done|].
  destruct (match previous with Some p => p >=? first_source_sequence a | None => false end) eqn:Hp; [done|].
  injection Hc as <-. apply Forall_cons_iff in Hr as [Ha Hr]. specialize (IH _ _ _ Hf Hr).
  assert (Hprev : match previous with Some p => p < first_source_sequence a | None => True end)
    by (destruct previous; [lia|done]).
  cbn [list.head]. destruct artifacts as [|b artifacts]; [done|].
  change (list.last (a :: b :: artifacts)) with (list.last (b :: artifacts)).
  destruct (list.last (b :: artifacts)) as [z|]; [|done]. cbn [list.head] in IH. split; [lia|done].
Qed.

Lemma plan_resummary_range binding chat card artifacts job :
  plan_resummary_job binding chat card artifacts = Ok job ->
  Forall (fun a => first_source_sequence a <= last_source_sequence a) artifacts ->
  job_first_sequence job <= job_last_sequence job.
Proof.
  unfold plan_resummary_job. intros Hp Hr. apply bind_Ok in Hp as ([] & _ & Hp).
  destruct (is_empty artifacts) eqn:He; [done|]. destruct (_ >? _); [done|].
  apply bind_Ok in Hp as (acc & Hc & Hp). apply bind_Ok in Hp as (n & _ & Hp). injection Hp as <-.
  apply check_artifacts_range in Hc; [|done]. cbn [job_first_sequence job_last_sequence job_from_binding].
  destruct artifacts as [|a artifacts]; [done|]. cbn [list.head] in *.
  destruct (list.last (a :: artifacts)) as [z|] eqn:Hl; [|by apply last_None in Hl].
  cbn [from_option]. tauto.
Qed.

(** ** Lives of artifacts *)

Inductive reachable : SummaryArtifact -> Prop :=
  | reach_initial binding chat card messages jobs job candidate processed id a :
      1 <= max_messages_per_summary (summary (binding_preset binding)) ->
      plan_initial_summary_jobs binding chat card messages = Ok jobs -> job ∈ jobs ->
      process_summary_output binding chat card job candidate = Ok processed ->
      SummaryArtifact_new binding chat card processed id = Ok a -> reachable a
  | reach_resummary binding chat card artifacts job candidate processed id a :
      (forall s, s ∈ artifacts -> reachable s) ->
      plan_resummary_job binding chat card artifacts = Ok job ->
      process_summary_output binding chat card job candidate = Ok processed ->
      SummaryArtifact_new binding chat card processed id = Ok a -> reachable a
  | reach_compacted a : reachable a -> reachable (source_compacted a)
  | reach_edited a a' : reachable a -> invalidated_by_edit a = Ok a' -> reachable a'
  | reach_deleted a a' : reachable a -> invalidated_by_deletion a = Ok a' -> reachable a'.

Lemma process_summary_output_inv binding chat card job candidate processed :
  process_summary_output binding chat card job candidate = Ok processed ->
  processed_job processed = job /\ job_session job = session_of binding /\
  verify_authoritative_source job binding (current_source candidate) = Ok tt /\
  digest_prompt_preset (resolved_prompt candidate) = Ok (prompt_preset_digest binding) /\
  match output_mode candidate, regeneration_regex (binding_preset binding) with
  | Regeneration, ApplyPinnedPromptResponseRules =>
      apply_text_transforms (resolved_prompt candidate) TargetResponse (raw_output candidate) =
      Ok (processed_content processed)
  | _, _ => processed_content processed = raw_output candidate
  end.
Proof.
  unfold process_summary_output. intros Hp. apply bind_Ok in Hp as ([] & _ & Hp).
  apply bind_Ok in Hp as ([] & Hb%ensure_Ok%bool_decide_eq_true & Hp).
  apply bind_Ok in Hp as ([] & Hs & Hp). apply bind_Ok in Hp as ([] & Hv%verify_prompt_preset_Ok & Hp).
  apply bind_Ok in Hp as ([] & _ & Hp). apply bind_Ok in Hp as (out & Ho & Hp).
  apply bind_Ok in Hp as ([] & _ & Hp). injection Hp as <-. split_and!; try done.
  cbn [processed_content]. destruct (output_mode candidate); [by injection Ho as <-|].
  destruct (regeneration_regex _); [by injection Ho as <-|].
  destruct (apply_text_transforms _ _ _); [|done]. by injection Ho as <-.
Qed.

Lemma invalidation_ok a revision v :
  artifact_ok a -> invalidated v = true ->
  checked_add U64_MAX (artifact_revision a) 1 = Some revision ->
  artifact_ok (with_validity a revision [] v).
Proof.
  intros [Hr Hrange Hc Hn Hl _] Hv Hadd. apply checked_add_Some in Hadd as [-> Hle].
  split; cbn; try done; [lia|]. rewrite Hv. split; [done|lia].
Qed.

Lemma new_artifact_ok binding chat card processed id a :
  SummaryArtifact_new binding chat card processed id = Ok a ->
  job_first_sequence (processed_job processed) <= job_last_sequence (processed_job processed) ->
  artifact_ok a.
Proof.
  intros (_ & _ & Ht & kind & covered & Hk & ->)%SummaryArtifact_new_inv Hr.
  apply artifact_coverage_inv in Hk as (Hs & Hne & Hl). split; cbn; try done.
Qed.

Lemma reachable_ok a : reachable a -> artifact_ok a.
Proof.
  induction 1 as [binding chat card messages jobs job candidate processed id a Hn Hp Hin Ho Ha
                 |binding chat card artifacts job candidate processed id a _ IH Hp Ho Ha
                 |a _ IH|a a' _ IH He|a a' _ IH He].
  - eapply new_artifact_ok; [exact Ha|]. apply process_summary_output_inv in Ho as (-> & _).
    apply plan_iff in Hp as (_ & [_ _ _ Hord] & _ & _ & ->).
    assert (Hpos : (0 < batch_size binding)%nat) by (unfold batch_size; lia).
    rewrite <- (chunks_concat _ Hpos messages) in Hord.
    apply batches_ordered in Hord as [Hle _].
    2:{ eapply Forall_impl; [|apply (chunks_sizes _ Hpos messages)]. by intros b [? _]. }
    apply list_elem_of_fmap in Hin as (batch & -> & Hb). cbn.
    rewrite Forall_forall in Hle. by apply Hle, list_elem_of_In.
  - eapply new_artifact_ok; [exact Ha|]. apply process_summary_output_inv in Ho as (-> & _).
    apply plan_resummary_range in Hp; [done|]. apply Forall_forall. intros s Hs%list_elem_of_In.
    apply IH, ak_range in Hs. done.
  - unfold source_compacted. case_bool_decide as Hv; [|done]. destruct IH as [H1 H2 H3 H4 H5 H6].
    rewrite Hv in H6. split; cbn; done.
  - unfold invalidated_by_edit, bump_revision in He. apply bind_Ok in He as (r & Hr%ok_or_Ok & He).
    injection He as <-. by apply invalidation_ok.
  - unfold invalidated_by_deletion, bump_revision in He. apply bind_Ok in He as (r & Hr%ok_or_Ok & He).
    injection He as <-. by apply invalidation_ok.
Qed.
End artifacts.

(** Every artifact that summarising, summarising again, compacting and invalidating
    can produce is well formed: its range and revision are in order, its leaves are a
    non-empty strictly sorted set, so that the binary search for a leaf is exactly
    membership, a leaf covers itself alone, a usable artifact has bounded text, and an
    invalidated one has no text left and a later revision than it was created with. *)
Theorem artifacts_well_formed `{MemoryLib, PromptRegexLib} (a : SummaryArtifact) :
  reachable a ->
  artifact_ok a /\ forall id, covers_leaf a id = true <-> id ∈ covered_leaf_artifact_ids a.
Proof.
  intros Ha%reachable_ok. split; [done|]. intros id. unfold covers_leaf.
  by apply binary_search_elem, ak_covered.
Qed.

(** An accepted summary is the output of its job: the artifact carries the helper
    model's text, put through the response rules of the pinned prompt preset exactly
    when a regeneration asks for it; the range of the job; the session; and as leaves
    itself for messages, or all leaves of the summarised artifacts and no others. *)
Theorem summary_provenance `{MemoryLib, PromptRegexLib} (binding : MemorySessionBinding)
    (chat card : str) (job : SummaryJob) (candidate : SummaryOutputCandidate)
    (processed : ProcessedSummary) (id : str) (a : SummaryArtifact) :
  process_summary_output binding chat card job candidate = Ok processed ->
  SummaryArtifact_new binding chat card processed id = Ok a ->
  artifact_id a = id /\ artifact_revision a = 1 /\ validity a = Attached /\
  artifact_session a = session_of binding /\
  first_source_sequence a = job_first_sequence job /\ last_source_sequence a = job_last_sequence job /\
  text_ok (artifact_content a) /\
  digest_prompt_preset (resolved_prompt candidate) = Ok (prompt_preset_digest binding) /\
  match job_source job with
  | JobMessages _ => artifact_kind a = Leaf /\ covered_leaf_artifact_ids a = [id]
  | JobArtifacts sources =>
      artifact_kind a = Consolidated /\
      forall x, x ∈ covered_leaf_artifact_ids a <->
                exists s, s ∈ sources /\ x ∈ covered_leaf_artifact_ids s
  end /\
  match output_mode candidate, regeneration_regex (binding_preset binding) with
  | Regeneration, ApplyPinnedPromptResponseRules =>
      exists rs, Forall2 compiled_from
                   (List.filter (active TargetResponse) (regex (advanced (resolved_prompt candidate)))) rs /\
                 artifact_content a = transform rs (raw_output candidate)
  | _, _ => artifact_content a = raw_output candidate
  end.
Proof.
  intros (Hjob & _ & _ & Hdig & Hout)%process_summary_output_inv
    (_ & _ & Ht & kind & covered & Hk & ->)%SummaryArtifact_new_inv.
  cbn [artifact_id artifact_revision validity artifact_session first_source_sequence last_source_sequence
       artifact_content artifact_kind covered_leaf_artifact_ids]. rewrite Hjob in *.
  repeat (split; [done|]). split.
  - unfold artifact_coverage in Hk. destruct (job_kind job), (job_source job) as [|sources]; try done.
    + by injection Hk as <- <-.
    + apply bind_Ok in Hk as (c & [_ Hc]%covered_by_spec & Hk). destruct (is_empty c); [done|].
      by injection Hk as <- <-.
  - destruct (output_mode candidate); [done|]. destruct (regeneration_regex _); [done|].
    apply text_transforms_inv in Hout as (rs & Hrs & -> & _). by exists rs.
Qed.
