(* ===== verification/MemoryRetrieval.v ===== *)
(** * Memory: embeddings and retrieval

    Models the embeddings of [crates/lorepia-memory/src/artifact.rs] and all of
    [retrieval.rs]: evidence of similarity, the selection of memories under a token
    budget, and the text a selection stands for in the prompt.

    A [Vec] and a [BTreeSet] that the source mutates together are the pair [Chosen].
    Where the source says [expect] (a similarity that was checked, the query digest of
    hybrid retrieval) a default stands in; MemoryRetrievalFacts shows it is not used. *)

From stdpp Require Import gmap sorting.
From S2P Require Import Prelude Bytes Utf8 Sorting Float64 PromptSchema PromptCompile MemoryConfig MemoryBudget MemorySummary ToolPolicy.

(** ** Embeddings (artifact.rs) *)

Definition SIMILARITY_SCALE : Z := 1000000.

Record EmbeddingVector : Type := mkVector { vector_profile : VersionedRef; vector_values : list f64 }.

Definition ZERO : f64 := f64_of_Z 0.

Definition EmbeddingVector_new (profile : VersionedRef) (values : list f64) : MemResult EmbeddingVector :=
  if is_empty values || (len values >? MAX_EMBEDDING_DIMENSIONS)
  then Err (MemInvalidField "embedding.values" "dimension must be in 1..=8192")
  else if existsb (fun value => negb (is_finite value)) values
  then Err (MemInvalidField "embedding.values" "all values must be finite")
  else
    let norm := foldl (fun total value => f64_add total (f64_mul value value)) ZERO values in
    if f64_eq norm ZERO
    then Err (MemInvalidField "embedding.values" "zero-norm vectors are not comparable")
    else Ok (mkVector profile values).

Definition from_quantized (value : Z) : MemResult Z :=
  if negb ((- SIMILARITY_SCALE <=? value) && (value <=? SIMILARITY_SCALE))
  then Err (MemInvalidField "similarityScore" "must be in -1000000..=1000000")
  else Ok value.

(** The loop of [cosine_similarity]: the dot product and the two norms. *)
Definition cosine_step (acc : f64 * f64 * f64) (p : f64 * f64) : f64 * f64 * f64 :=
  let '(dot, query_norm, candidate_norm) := acc in
  let '(l, r) := p in
  (f64_add dot (f64_mul l r), f64_add query_norm (f64_mul l l), f64_add candidate_norm (f64_mul r r)).

Definition cosine_similarity (query candidate : EmbeddingVector) : MemResult Z :=
  if negb (bool_decide (vector_profile query = vector_profile candidate))
  then Err (MemRetrievalUnavailable "embedding profile ID or revision differs")
  else if negb (len (vector_values query) =? len (vector_values candidate))
  then Err (MemRetrievalUnavailable "embedding dimensions differ")
  else
    let '(dot, query_norm, candidate_norm) :=
      foldl cosine_step (ZERO, ZERO, ZERO) (List.combine (vector_values query) (vector_values candidate)) in
    let cosine := f64_clamp (f64_div dot (f64_mul (f64_sqrt query_norm) (f64_sqrt candidate_norm)))
                    (f64_of_Z (-1)) (f64_of_Z 1) in
    let quantized := round_to_i32 (f64_mul cosine (f64_of_Z SIMILARITY_SCALE)) in
    from_quantized quantized.

Record EmbeddingArtifact : Type := mkEmbedding {
  embedding_artifact_id : str;
  embedding_artifact_revision : Z;
  embedding_session : SessionPin;
  embedding_vector : EmbeddingVector;
}.

Definition EmbeddingArtifact_new (binding : MemorySessionBinding) (expected_chat expected_card : str)
    (artifact : SummaryArtifact) (vector : EmbeddingVector) : MemResult EmbeddingArtifact :=
  _ ← verify_scope binding expected_chat expected_card;
  if negb (bool_decide (artifact_session artifact = session_of binding))
  then Err (MemRetrievalUnavailable "summary artifact is outside the active memory session")
  else if match validity artifact with InvalidatedByEdit | InvalidatedByDeletion => true | _ => false end
  then Err (MemRetrievalUnavailable "invalidated summary artifacts must not be embedded")
  else if bool_decide (validity artifact = SourceCompacted) &&
          negb (preserve_compacted_orphans (binding_preset binding))
  then Err (MemRetrievalUnavailable "compacted-source artifacts are disabled by this memory preset")
  else
    match strategy (binding_preset binding) with
    | RollingSummary => Err (MemRetrievalUnavailable "rolling-summary mode has no embedding profile")
    | HybridRetrieval policy =>
        if negb (bool_decide (vector_profile vector = embedding_profile policy))
        then Err (MemRetrievalUnavailable "vector is outside the pinned embedding space")
        else Ok (mkEmbedding (artifact_id artifact) (artifact_revision artifact)
                   (artifact_session artifact) vector)
    end.

(** ** Candidates (retrieval.rs) *)

Inductive AuthoritativeEmbeddingQuery : Type :=
  | QueryRollingSummary
  | QueryHybrid (plan : EmbeddingQueryPlan) (messages : list MemorySourceMessage).

Record EmbeddingMatch : Type := mkMatch {
  match_artifact_id : str;
  match_artifact_revision : Z;
  match_scope : ScopePin;
  match_embedding_profile : VersionedRef;
  match_query_message_ids : list str;
  match_query_digest : bytes;
  match_score : Z;
}.

Record MemoryCandidate : Type := mkCandidate {
  candidate_artifact : SummaryArtifact;
  candidate_tokens : Z;
  embedding_match : option EmbeddingMatch;
}.

Definition similarity (self : MemoryCandidate) : option Z := match_score <$> embedding_match self.

Definition MemoryCandidate_new (artifact : SummaryArtifact) (reserved : Z)
    (evidence : option EmbeddingMatch) : MemResult MemoryCandidate :=
  if reserved =? 0
  then Err (MemInvalidField "memoryCandidate.reservedPromptTokens" "must be at least 1")
  else
    match evidence with
    | Some e =>
        if negb (str_eqb (match_artifact_id e) (artifact_id artifact)) ||
           negb (match_artifact_revision e =? artifact_revision artifact)
        then Err (MemRetrievalUnavailable
                    "embedding evidence does not belong to the memory artifact revision")
        else Ok (mkCandidate artifact reserved evidence)
    | None => Ok (mkCandidate artifact reserved evidence)
    end.

Inductive MemorySelectionBucket : Type := BucketConsolidated | BucketRecent | BucketSimilar | BucketRandom.

#[export] Instance MemorySelectionBucket_eq_dec : EqDecision MemorySelectionBucket.
Proof. solve_decision. Defined.

Record SelectedMemory : Type := mkSelected {
  selected_id : str;
  selected_revision : Z;
  selected_first : Z;
  selected_last : Z;
  selected_bucket : MemorySelectionBucket;
  selected_tokens : Z;
}.

#[export] Instance MemoryBudgetInput_eq_dec : EqDecision MemoryBudgetInput.
Proof. solve_decision. Defined.

Record MemorySelection : Type := mkSelection {
  selection_scope : ScopePin;
  selection_budget : MemoryBudgetInput;
  selection_query_digest : option bytes;
  selected : list SelectedMemory;
  selection_tokens : Z;
}.

(** ** Eligibility *)

Definition retrieval_artifact_scope (binding : MemorySessionBinding) (artifact : SummaryArtifact) :
    MemResult unit :=
  ensure (bool_decide (artifact_session artifact = session_of binding))
    (MemRetrievalUnavailable "memory candidate is outside the active session snapshot").

Definition artifact_is_eligible (binding : MemorySessionBinding) (artifact : SummaryArtifact) : bool :=
  match validity artifact with
  | Attached => true
  | SourceCompacted => preserve_compacted_orphans (binding_preset binding)
  | InvalidatedByEdit | InvalidatedByDeletion => false
  end.

Definition candidate_is_eligible (binding : MemorySessionBinding) (c : MemoryCandidate) : bool :=
  artifact_is_eligible binding (candidate_artifact c).

(** [Some(&evidence.query_snapshot_digest) != query_snapshot_digest] *)
Definition verify_candidate_scope (binding : MemorySessionBinding) (query_message_ids : list str)
    (query_digest : option bytes) (c : MemoryCandidate) : MemResult unit :=
  _ ← retrieval_artifact_scope binding (candidate_artifact c);
  match embedding_match c with
  | None => Ok tt
  | Some e =>
      match strategy (binding_preset binding) with
      | RollingSummary =>
          Err (MemRetrievalUnavailable "rolling-summary mode must not consume embedding evidence")
      | HybridRetrieval policy =>
          ensure (str_eqb (match_artifact_id e) (artifact_id (candidate_artifact c)) &&
                  (match_artifact_revision e =? artifact_revision (candidate_artifact c)) &&
                  bool_decide (match_scope e = scope_of binding) &&
                  bool_decide (match_embedding_profile e = embedding_profile policy) &&
                  bool_decide (match_query_message_ids e = query_message_ids) &&
                  bool_decide (Some (match_query_digest e) = query_digest))
            (MemRetrievalUnavailable "embedding evidence is stale or belongs to another query snapshot")
      end
  end.

(** ** Choosing *)

Definition Chosen : Type := list SelectedMemory * gset str.

Definition push_selected (chosen : Chosen) (c : MemoryCandidate) (bucket : MemorySelectionBucket) : Chosen :=
  let a := candidate_artifact c in
  (chosen.1 ++ [mkSelected (artifact_id a) (artifact_revision a) (first_source_sequence a)
                  (last_source_sequence a) bucket (candidate_tokens c)],
   {[artifact_id a]} ∪ chosen.2).

(** One turn of [select_bucket]: what remains of the budget and what is chosen. *)
Definition bucket_step (bucket : MemorySelectionBucket) (acc : Z * Chosen) (c : MemoryCandidate) : Z * Chosen :=
  let '(remaining, chosen) := acc in
  if bool_decide (artifact_id (candidate_artifact c) ∈ chosen.2) || (candidate_tokens c >? remaining)
  then acc
  else (remaining - candidate_tokens c, push_selected chosen c bucket).

Definition select_bucket (ranked : list MemoryCandidate) (token_budget : Z)
    (bucket : MemorySelectionBucket) (chosen : Chosen) : Chosen :=
  (foldl (bucket_step bucket) (token_budget, chosen) ranked).2.

(** Latest first, then by identifier. *)
Definition compare_recent (l r : MemoryCandidate) : comparison :=
  then_with (Z.compare (last_source_sequence (candidate_artifact r)) (last_source_sequence (candidate_artifact l)))
    (str_cmp (artifact_id (candidate_artifact l)) (artifact_id (candidate_artifact r))).

Definition compare_similar (l r : MemoryCandidate) : comparison :=
  then_with (Z.compare (default 0 (similarity r)) (default 0 (similarity l)))
    (str_cmp (artifact_id (candidate_artifact l)) (artifact_id (candidate_artifact r))).

Definition compare_selected (l r : SelectedMemory) : comparison :=
  then_with (Z.compare (selected_first l) (selected_first r))
    (then_with (Z.compare (selected_last l) (selected_last r)) (str_cmp (selected_id l) (selected_id r))).

Definition RANDOM_ORDER_DOMAIN : bytes := lit "lorepia-memory-random-order-v1".

Section retrieval.
Context `{MemoryLib, PromptRegexLib}.

Definition deterministic_random_key (binding : MemorySessionBinding) (query_digest : bytes)
    (id : str) : bytes :=
  memory_sha256 (RANDOM_ORDER_DOMAIN ++ mac_field (binding_chat_id binding) ++
                 u64_to_be_bytes (binding_memory_generation binding) ++ query_digest ++ mac_field id).

Definition EmbeddingMatch_new (binding : MemorySessionBinding) (expected_chat expected_card : str)
    (query_plan : EmbeddingQueryPlan) (current : list MemorySourceMessage)
    (query_vector : EmbeddingVector) (candidate : EmbeddingArtifact) : MemResult EmbeddingMatch :=
  _ ← verify_scope binding expected_chat expected_card;
  _ ← verify_authoritative_messages query_plan binding current;
  match strategy (binding_preset binding) with
  | RollingSummary => Err (MemRetrievalUnavailable "rolling-summary mode has no embedding match")
  | HybridRetrieval policy =>
      if negb (bool_decide (vector_profile query_vector = embedding_profile policy) &&
               bool_decide (embedding_session candidate = session_of binding) &&
               bool_decide (vector_profile (embedding_vector candidate) = embedding_profile policy))
      then Err (MemRetrievalUnavailable "embedding evidence is outside the active session snapshot")
      else
        score ← cosine_similarity query_vector (embedding_vector candidate);
        mret (mkMatch (embedding_artifact_id candidate) (embedding_artifact_revision candidate)
                (scope_of binding) (embedding_profile policy) (map source_id (plan_messages query_plan))
                (message_snapshot_digest query_plan) score)
  end.

Definition insert_query_id (ids : gset str) (id : str) : MemResult (gset str) :=
  if bool_decide (id ∈ ids) then Err (MemDuplicateId "queryMessageId" id) else Ok ({[id]} ∪ ids).

Definition validate_query_context (binding : MemorySessionBinding) (query : AuthoritativeEmbeddingQuery) :
    MemResult (list str * option bytes) :=
  match strategy (binding_preset binding), query with
  | RollingSummary, QueryRollingSummary => Ok ([], None)
  | RollingSummary, _ =>
      Err (MemRetrievalUnavailable "rolling-summary mode must not receive an embedding query")
  | HybridRetrieval _, QueryRollingSummary =>
      Err (MemRetrievalUnavailable "hybrid retrieval requires an authoritative embedding query plan")
  | HybridRetrieval _, QueryHybrid plan messages =>
      _ ← verify_authoritative_messages plan binding messages;
      let ids := map source_id (plan_messages plan) in
      if len ids >? MAX_QUERY_MESSAGE_COUNT
      then Err (MemTooManyItems "queryMessageIds" MAX_QUERY_MESSAGE_COUNT)
      else if is_empty ids
      then Err (MemRetrievalUnavailable "hybrid retrieval requires a pinned query-message snapshot")
      else
        _ ← foldM_result insert_query_id ∅ ids;
        mret (ids, Some (message_snapshot_digest plan))
  end.

(** One turn of the loop over the candidates. *)
Definition check_candidate (binding : MemorySessionBinding) (query_message_ids : list str)
    (query_digest : option bytes) (ids : gset str) (c : MemoryCandidate) : MemResult (gset str) :=
  _ ← verify_candidate_scope binding query_message_ids query_digest c;
  let id := artifact_id (candidate_artifact c) in
  if bool_decide (id ∈ ids) then Err (MemDuplicateId "memoryArtifactId" id) else Ok ({[id]} ∪ ids).

Definition compare_random (binding : MemorySessionBinding) (query_digest : bytes)
    (l r : MemoryCandidate) : comparison :=
  str_cmp (deterministic_random_key binding query_digest (artifact_id (candidate_artifact l)))
          (deterministic_random_key binding query_digest (artifact_id (candidate_artifact r))).

Definition is_leaf (c : MemoryCandidate) : bool :=
  bool_decide (artifact_kind (candidate_artifact c) = Leaf).

(** The consolidated summary that is used: the latest one within its budget. *)
Definition pick_consolidated (budget : MemoryTokenBudget) (eligible : list MemoryCandidate) :
    option MemoryCandidate :=
  list.head (sort_by compare_recent
    (List.filter (fun c => bool_decide (artifact_kind (candidate_artifact c) = Consolidated) &&
                           (candidate_tokens c <=? consolidated_summary budget)) eligible)).

Definition uncovered_leaves (consolidated : option MemoryCandidate) (eligible : list MemoryCandidate) :
    list MemoryCandidate :=
  List.filter (fun c => match consolidated with
                        | None => true
                        | Some s => negb (covers_leaf (candidate_artifact s) (artifact_id (candidate_artifact c)))
                        end) (List.filter is_leaf eligible).

(** The buckets, in the order of the source. *)
Definition fill_buckets (binding : MemorySessionBinding) (budget : MemoryTokenBudget)
    (query_digest : option bytes) (leaves : list MemoryCandidate) (chosen : Chosen) : MemResult Chosen :=
  let chosen := select_bucket (sort_by compare_recent leaves) (recent (retrieval budget)) BucketRecent chosen in
  match strategy (binding_preset binding) with
  | RollingSummary => Ok chosen
  | HybridRetrieval _ =>
      if (similar (retrieval budget) >? 0) && existsb (fun c => negb (is_some (embedding_match c))) leaves
      then Err (MemRetrievalUnavailable
                  "hybrid retrieval requires a similarity score for every eligible leaf")
      else
        let chosen :=
          if similar (retrieval budget) >? 0
          then select_bucket (sort_by compare_similar leaves) (similar (retrieval budget)) BucketSimilar chosen
          else chosen in
        Ok (select_bucket (sort_by (compare_random binding (default [] query_digest)) leaves)
              (random (retrieval budget)) BucketRandom chosen)
  end.

Definition sum_reserved (total : Z) (s : SelectedMemory) : option Z :=
  checked_add U32_MAX total (selected_tokens s).

Fixpoint try_sum (total : Z) (l : list SelectedMemory) : option Z :=
  match l with
  | [] => Some total
  | s :: l' => match sum_reserved total s with Some t => try_sum t l' | None => None end
  end.

Definition select_memories (binding : MemorySessionBinding) (expected_chat expected_card : str)
    (budget_input : MemoryBudgetInput) (query : AuthoritativeEmbeddingQuery)
    (candidates : list MemoryCandidate) : MemResult MemorySelection :=
  _ ← verify_scope binding expected_chat expected_card;
  let budget := calculate (binding_preset binding) budget_input in
  '(query_message_ids, query_digest) ← validate_query_context binding query;
  if len candidates >? MAX_MEMORY_CANDIDATES
  then Err (MemTooManyItems "memoryCandidates" MAX_MEMORY_CANDIDATES)
  else
    _ ← foldM_result (check_candidate binding query_message_ids query_digest) ∅ candidates;
    let eligible := List.filter (candidate_is_eligible binding) candidates in
    let consolidated := pick_consolidated budget eligible in
    let chosen := match consolidated with
                  | Some c => push_selected ([], ∅) c BucketConsolidated
                  | None => ([], ∅)
                  end in
    let leaves := uncovered_leaves consolidated eligible in
    '(selected, _) ← fill_buckets binding budget query_digest leaves chosen;
    let selected := sort_by compare_selected selected in
    reserved ← ok_or (try_sum 0 selected)
                 (MemInvalidField "memorySelection" "token reservation overflowed");
    if reserved >? total_memory budget
    then Err (MemInvalidField "memorySelection" "selected reservations exceed the total memory budget")
    else mret (mkSelection (scope_of binding) budget_input query_digest selected reserved).

(** ** Application to a prompt *)

Definition insert_artifact (by_id : gmap str SummaryArtifact) (a : SummaryArtifact) :
    MemResult (gmap str SummaryArtifact) :=
  if is_some (by_id !! artifact_id a) then Err (MemDuplicateId "currentMemoryArtifactId" (artifact_id a))
  else Ok (<[artifact_id a := a]> by_id).

Definition memory_too_large : MemoryError :=
  MemPayloadTooLarge "longTermMemory" MAX_LONG_TERM_MEMORY_INPUT_BYTES.

(** One turn of the loop that resolves a selection; [index > 0] is that something was
    resolved before. *)
Definition resolve_step (binding : MemorySessionBinding) (by_id : gmap str SummaryArtifact)
    (acc : list SummaryArtifact * Z) (s : SelectedMemory) : MemResult (list SummaryArtifact * Z) :=
  let '(resolved, output_bytes) := acc in
  a ← ok_or (by_id !! selected_id s)
        (MemRetrievalUnavailable "a selected artifact is absent from the current authoritative snapshot");
  _ ← retrieval_artifact_scope binding a;
  if negb (artifact_revision a =? selected_revision s) ||
     negb (first_source_sequence a =? selected_first s) ||
     negb (last_source_sequence a =? selected_last s) || negb (artifact_is_eligible binding a)
  then Err (MemRetrievalUnavailable
              "a selected artifact changed or was invalidated before prompt application")
  else
    output_bytes ← (if is_empty resolved then Ok output_bytes
                    else ok_or (checked_add USIZE_MAX output_bytes 2) memory_too_large);
    output_bytes ← ok_or (checked_add USIZE_MAX output_bytes (len (artifact_content a))) memory_too_large;
    if output_bytes >? MAX_LONG_TERM_MEMORY_INPUT_BYTES then Err memory_too_large
    else mret (resolved ++ [a], output_bytes).

Definition BLANK_LINE : str := [byte_of 10; byte_of 10].

Definition materialize_current_artifacts (binding : MemorySessionBinding) (selected : list SelectedMemory)
    (current : list SummaryArtifact) : MemResult str :=
  if len current >? MAX_MEMORY_CANDIDATES
  then Err (MemTooManyItems "currentMemoryArtifacts" MAX_MEMORY_CANDIDATES)
  else
    by_id ← foldM_result insert_artifact ∅ current;
    '(resolved, _) ← foldM_result (resolve_step binding by_id) ([], 0) selected;
    let output := join BLANK_LINE (map artifact_content resolved) in
    if contains output [NUL] then Err (MemInvalidField "longTermMemory" "must contain no NUL")
    else Ok output.

Definition verify_application_context (self : MemorySelection) (binding : MemorySessionBinding)
    (expected_chat expected_card : str) (expected_budget : MemoryBudgetInput)
    (query : AuthoritativeEmbeddingQuery) : MemResult unit :=
  _ ← verify_scope binding expected_chat expected_card;
  '(_, query_digest) ← validate_query_context binding query;
  ensure (bool_decide (selection_scope self = scope_of binding) &&
          bool_decide (selection_budget self = expected_budget) &&
          bool_decide (selection_query_digest self = query_digest))
    (MemRetrievalUnavailable "memory selection is outside the active session snapshot").

Definition materialize (self : MemorySelection) (binding : MemorySessionBinding)
    (expected_chat expected_card : str) (expected_budget : MemoryBudgetInput)
    (query : AuthoritativeEmbeddingQuery) (current : list SummaryArtifact) : MemResult str :=
  _ ← verify_application_context self binding expected_chat expected_card expected_budget query;
  materialize_current_artifacts binding (selected self) current.
End retrieval.
