(* ===== verification/MemoryRetrievalFacts.v ===== *)
(** * Memory: what holds of retrieval

    Theorems about MemoryRetrieval: a selection stays within every part of its budget,
    contains only usable artifacts of the session, none twice and none that the chosen
    consolidated summary already covers, and leaves out a leaf only when it is covered
    or does not fit; the two internal budget errors cannot happen; and a selection is
    turned into exactly the text of the artifacts it names, while they are unchanged. *)

From stdpp Require Import gmap sorting.
From S2P Require Import Prelude Bytes Utf8 Sorting PromptTemplate PromptSchema PromptCompile MemoryConfig MemoryBudget MemorySummary MemorySummaryFacts MemoryRetrieval ToolPolicy.

(** ** Tokens *)

Definition tokens_of (l : list SelectedMemory) : Z := foldr Z.add 0 (map selected_tokens l).

Definition in_bucket (b : MemorySelectionBucket) (l : list SelectedMemory) : list SelectedMemory :=
  List.filter (fun s => bool_decide (selected_bucket s = b)) l.

Lemma tokens_of_app l l' : tokens_of (l ++ l') = tokens_of l + tokens_of l'.
Proof. unfold tokens_of. induction l as [|s l IH]; cbn [app map foldr]; lia. Qed.

Lemma tokens_of_perm l l' : l ≡ₚ l' -> tokens_of l = tokens_of l'.
Proof. unfold tokens_of. induction 1; cbn [map foldr]; lia. Qed.

Lemma tokens_of_nonneg l : Forall (fun s => 0 <= selected_tokens s) l -> 0 <= tokens_of l.
Proof. unfold tokens_of. induction 1; cbn [map foldr]; lia. Qed.

Lemma in_bucket_perm b l l' : l ≡ₚ l' -> in_bucket b l ≡ₚ in_bucket b l'.
Proof.
  unfold in_bucket. induction 1 as [|s l l' Hp IH|s s' l|l l' l'' _ IH1 _ IH2]; cbn [List.filter]; [done| | |].
  - by destruct (bool_decide _); [constructor|].
  - destruct (bool_decide (selected_bucket s = b)), (bool_decide (selected_bucket s' = b)); first [apply Permutation_swap|reflexivity].
  - by transitivity (List.filter (fun s => bool_decide (selected_bucket s = b)) l').
Qed.

Lemma in_bucket_app b l l' : in_bucket b (l ++ l') = in_bucket b l ++ in_bucket b l'.
Proof. apply List.filter_app. Qed.

Lemma in_bucket_all b l : Forall (fun s => selected_bucket s = b) l -> in_bucket b l = l.
Proof.
  unfold in_bucket. induction 1 as [|s l Hs Hl IH]; cbn [List.filter]; [done|].
  by rewrite bool_decide_true, IH.
Qed.

Lemma in_bucket_none b b' l : Forall (fun s => selected_bucket s = b') l -> b <> b' -> in_bucket b l = [].
Proof.
  unfold in_bucket. intros Hl Hne. induction Hl as [|s l Hs Hl IH]; cbn [List.filter]; [done|].
  rewrite bool_decide_false; [done|congruence].
Qed.

Lemma try_sum_spec l total :
  Forall (fun s => 0 <= selected_tokens s) l -> total + tokens_of l <= U32_MAX ->
  try_sum total l = Some (total + tokens_of l).
Proof.
  intros Hl. revert total. induction Hl as [|s l Hs Hl IH]; intros total Ht; cbn [try_sum].
  { unfold tokens_of. cbn. f_equal. lia. }
  pose proof (tokens_of_nonneg l Hl). unfold tokens_of in *. cbn [map foldr] in *.
  unfold sum_reserved, checked_add. destruct (_ <=? _) eqn:Hu; [|lia].
  rewrite IH by lia. f_equal. lia.
Qed.

(** ** Buckets *)

(** What is pushed for a candidate. *)
Definition selected_of (c : MemoryCandidate) (bucket : MemorySelectionBucket) : SelectedMemory :=
  let a := candidate_artifact c in
  mkSelected (artifact_id a) (artifact_revision a) (first_source_sequence a) (last_source_sequence a)
    bucket (candidate_tokens c).

Definition id_of (c : MemoryCandidate) : str := artifact_id (candidate_artifact c).

(** The set of identifiers is that of the list, which has no duplicates. *)
Definition chosen_ok (chosen : Chosen) : Prop :=
  NoDup (map selected_id chosen.1) /\ forall x, x ∈ chosen.2 <-> x ∈ map selected_id chosen.1.

Lemma push_selected_ok chosen c bucket :
  chosen_ok chosen -> id_of c ∉ chosen.2 ->
  chosen_ok (push_selected chosen c bucket) /\
  (push_selected chosen c bucket).1 = chosen.1 ++ [selected_of c bucket].
Proof.
  intros [Hnd Hset] Hid. split; [|done]. unfold push_selected, chosen_ok. cbn [fst snd].
  rewrite map_app. cbn [map selected_id]. fold (id_of c). split.
  - apply list.NoDup_app. split; [done|]. split; [|apply NoDup_singleton].
    intros x Hx. rewrite list_elem_of_singleton. intros ->. by apply Hid, Hset.
  - intros x. rewrite elem_of_union, elem_of_singleton, Hset, elem_of_app, list_elem_of_singleton. tauto.
Qed.

Lemma push_selected_subset chosen c bucket : chosen.2 ⊆ (push_selected chosen c bucket).2.
Proof. unfold push_selected. cbn. set_solver. Qed.

(** What the loop adds: candidates of the list, of this bucket, within the budget; and
    every candidate is then chosen or does not fit what is left. *)
Lemma bucket_loop bucket ranked : forall remaining chosen,
  Forall (fun c => 0 <= candidate_tokens c) ranked -> 0 <= remaining -> chosen_ok chosen ->
  exists new rest chosen',
    foldl (bucket_step bucket) (remaining, chosen) ranked = (rest, chosen') /\
    chosen_ok chosen' /\ chosen'.1 = chosen.1 ++ new /\ chosen.2 ⊆ chosen'.2 /\
    0 <= rest /\ rest = remaining - tokens_of new /\ rest <= remaining /\
    Forall (fun s => exists c, c ∈ ranked /\ s = selected_of c bucket) new /\
    forall c, c ∈ ranked -> id_of c ∈ chosen'.2 \/ rest < candidate_tokens c.
Proof.
  induction ranked as [|c ranked IH]; intros remaining chosen Ht Hr Hok; cbn [foldl].
  { exists [], remaining, chosen. rewrite app_nil_r. unfold tokens_of. cbn.
    split_and!; try done; try lia. by intros c ?%not_elem_of_nil. }
  apply Forall_cons_iff in Ht as [Hc Ht]. unfold bucket_step at 2. fold (id_of c).
  case_bool_decide as Hid; cbn [orb]; [|destruct (candidate_tokens c >? remaining) eqn:Hfit].
  - destruct (IH remaining chosen Ht Hr Hok)
      as (new & rest & chosen' & Hf & Hok' & Happ & Hsub & H0 & Hrest & Hle & Hnew & Hall).
    exists new, rest, chosen'. split_and!; try done.
    + eapply Forall_impl; [|exact Hnew]. intros s (d & Hd & ->). exists d. split; [by right|done].
    + intros d [->|Hd]%elem_of_cons; [left; by apply Hsub|by apply Hall].
  - destruct (IH remaining chosen Ht Hr Hok)
      as (new & rest & chosen' & Hf & Hok' & Happ & Hsub & H0 & Hrest & Hle & Hnew & Hall).
    exists new, rest, chosen'. split_and!; try done.
    + eapply Forall_impl; [|exact Hnew]. intros s (d & Hd & ->). exists d. split; [by right|done].
    + intros d [->|Hd]%elem_of_cons; [right; lia|by apply Hall].
  - destruct (push_selected_ok chosen c bucket Hok Hid) as [Hok1 Happ1].
    destruct (IH (remaining - candidate_tokens c) (push_selected chosen c bucket) Ht ltac:(lia) Hok1)
      as (new & rest & chosen' & Hf & Hok' & Happ & Hsub & H0 & Hrest & Hle & Hnew & Hall).
    exists (selected_of c bucket :: new), rest, chosen'. rewrite Happ1, <- app_assoc in Happ.
    split_and!; try done.
    + etransitivity; [apply push_selected_subset|exact Hsub].
    + unfold tokens_of in *. cbn [map foldr selected_of selected_tokens]. lia.
    + lia.
    + constructor; [exists c; split; [left|done]|].
      eapply Forall_impl; [|exact Hnew]. intros s (d & Hd & ->). exists d. split; [by right|done].
    + intros d [->|Hd]%elem_of_cons; [left|by apply Hall]. apply Hsub.
      unfold push_selected. cbn. set_solver.
Qed.

(** A bucket filled from the leaves in some order. *)
Lemma select_bucket_spec bucket cmp leaves budget chosen :
  Forall (fun c => 0 <= candidate_tokens c) leaves -> 0 <= budget -> chosen_ok chosen ->
  let chosen' := select_bucket (sort_by cmp leaves) budget bucket chosen in
  exists new,
    chosen_ok chosen' /\ chosen'.1 = chosen.1 ++ new /\ chosen.2 ⊆ chosen'.2 /\
    tokens_of new <= budget /\
    Forall (fun s => exists c, c ∈ leaves /\ s = selected_of c bucket) new /\
    forall c, c ∈ leaves -> id_of c ∈ chosen'.2 \/ budget - tokens_of new < candidate_tokens c.
Proof.
  intros Ht Hb Hok chosen'. pose proof (sort_by_perm cmp leaves) as Hperm.
  destruct (bucket_loop bucket (sort_by cmp leaves) budget chosen) as
    (new & rest & chosen'' & Hf & Hok' & Happ & Hsub & H0 & -> & _ & Hnew & Hall); [by rewrite Hperm|done|done|].
  unfold chosen', select_bucket. rewrite Hf. cbn [snd]. exists new. split_and!; try done; [lia| |].
  - eapply Forall_impl; [|exact Hnew]. intros s (c & Hc & ->). exists c. by rewrite Hperm in Hc.
  - intros c Hc. apply Hall. by rewrite Hperm.
Qed.

Definition candidate_typed (c : MemoryCandidate) : Prop := 1 <= candidate_tokens c <= U32_MAX.

Definition drawn_from (leaves : list MemoryCandidate) (bucket : MemorySelectionBucket)
    (l : list SelectedMemory) : Prop :=
  Forall (fun s => exists c, c ∈ leaves /\ s = selected_of c bucket) l.

Lemma drawn_bucket leaves bucket l :
  drawn_from leaves bucket l -> Forall (fun s => selected_bucket s = bucket) l.
Proof. intros Hl. eapply Forall_impl; [|exact Hl]. by intros s (c & _ & ->). Qed.

Lemma drawn_nonneg leaves bucket l :
  Forall candidate_typed leaves -> drawn_from leaves bucket l -> Forall (fun s => 0 <= selected_tokens s) l.
Proof.
  intros Ht Hl. eapply Forall_impl; [|exact Hl]. intros s (c & Hc & ->). rewrite Forall_forall in Ht.
  apply list_elem_of_In, Ht in Hc. unfold candidate_typed in Hc. cbn. lia.
Qed.

Section fill.
Context `{MemoryLib, PromptRegexLib} (binding : MemorySessionBinding) (budget : MemoryTokenBudget).
Hypothesis Hbudget : budget_ok budget.

(** A leaf left out of the selection fits in none of the three buckets. *)
Definition left_out (r s d : list SelectedMemory) (c : MemoryCandidate) : Prop :=
  recent (retrieval budget) - tokens_of r < candidate_tokens c /\
  similar (retrieval budget) - tokens_of s < candidate_tokens c /\
  random (retrieval budget) - tokens_of d < candidate_tokens c.

Lemma fill_buckets_spec digest leaves chosen chosen' :
  Forall candidate_typed leaves -> chosen_ok chosen ->
  (strategy (binding_preset binding) = RollingSummary ->
   similar (retrieval budget) = 0 /\ random (retrieval budget) = 0) ->
  fill_buckets binding budget digest leaves chosen = Ok chosen' ->
  exists r s d,
    chosen'.1 = chosen.1 ++ r ++ s ++ d /\ chosen_ok chosen' /\ chosen.2 ⊆ chosen'.2 /\
    drawn_from leaves BucketRecent r /\ drawn_from leaves BucketSimilar s /\ drawn_from leaves BucketRandom d /\
    tokens_of r <= recent (retrieval budget) /\ tokens_of s <= similar (retrieval budget) /\
    tokens_of d <= random (retrieval budget) /\
    forall c, c ∈ leaves -> id_of c ∈ chosen'.2 \/ left_out r s d c.
Proof.
  intros Ht Hok Hrolling. destruct Hbudget as [_ _ _ _ Hr Hs Hd _].
  assert (Hnn : Forall (fun c => 0 <= candidate_tokens c) leaves)
    by (eapply Forall_impl; [|exact Ht]; unfold candidate_typed; lia).
  assert (Hpos : forall c, c ∈ leaves -> 1 <= candidate_tokens c)
    by (intros c Hc%list_elem_of_In; rewrite Forall_forall in Ht; by apply Ht).
  unfold fill_buckets. cbn zeta.
  destruct (select_bucket_spec BucketRecent compare_recent leaves _ chosen Hnn Hr Hok)
    as (r & Hok1 & Happ1 & Hsub1 & Hle1 & Hfrom1 & Hall1). cbv zeta in Hok1, Happ1, Hsub1, Hall1.
  set (c1 := select_bucket _ _ BucketRecent chosen) in *.
  destruct (strategy (binding_preset binding)) as [|policy].
  { intros [= <-]. destruct (Hrolling eq_refl) as [Hs0 Hd0].
    exists r, [], []. rewrite app_nil_r. change (tokens_of []) with 0. unfold left_out. rewrite Hs0, Hd0.
    split_and!; try done; [by constructor..|]. intros c Hc. specialize (Hpos c Hc). change (tokens_of []) with 0.
    destruct (Hall1 c Hc); [by left|right; lia]. }
  destruct (_ && _); [done|]. intros [= <-].
  set (c2 := if similar (retrieval budget) >? 0 then _ else c1).
  assert (H2 : exists s, chosen_ok c2 /\ c2.1 = c1.1 ++ s /\ c1.2 ⊆ c2.2 /\
     tokens_of s <= similar (retrieval budget) /\ drawn_from leaves BucketSimilar s /\
     forall c, c ∈ leaves -> id_of c ∈ c2.2 \/ similar (retrieval budget) - tokens_of s < candidate_tokens c).
  { subst c2. destruct (similar (retrieval budget) >? 0) eqn:Hpositive.
    - destruct (select_bucket_spec BucketSimilar compare_similar leaves _ c1 Hnn Hs Hok1) as (s & Hsp).
      exists s. tauto.
    - exists []. rewrite app_nil_r. change (tokens_of []) with 0. split_and!; try done; [constructor|].
      intros c Hc. right. specialize (Hpos c Hc). lia. }
  destruct H2 as (s & Hok2 & Happ2 & Hsub2 & Hle2 & Hfrom2 & Hall2).
  destruct (select_bucket_spec BucketRandom (compare_random binding (default [] digest)) leaves _ c2 Hnn Hd Hok2)
    as (d & Hok3 & Happ3 & Hsub3 & Hle3 & Hfrom3 & Hall3). cbv zeta in Hok3, Happ3, Hsub3, Hall3.
  set (c3 := select_bucket _ _ BucketRandom c2) in *.
  exists r, s, d. split_and!; try done.
  - by rewrite Happ3, Happ2, Happ1, <- !app_assoc.
  - by etransitivity; [exact Hsub1|etransitivity].
  - intros c Hc. destruct (Hall1 c Hc); [left; auto|]. destruct (Hall2 c Hc); [left; auto|].
    destruct (Hall3 c Hc); [by left|]. right. done.
Qed.
End fill.

(** ** Selections *)

Section select.
Context `{MemoryLib, PromptRegexLib} (binding : MemorySessionBinding).

Definition candidates_ok (query_ids : list str) (digest : option bytes) (candidates : list MemoryCandidate) : Prop :=
  Forall (fun c => verify_candidate_scope binding query_ids digest c = Ok tt) candidates /\
  NoDup (map id_of candidates).

Lemma check_candidates_spec query_ids digest candidates : forall ids,
  (exists ids', foldM_result (check_candidate binding query_ids digest) ids candidates = Ok ids') <->
  candidates_ok query_ids digest candidates /\ Forall (fun c => id_of c ∉ ids) candidates.
Proof.
  unfold candidates_ok. induction candidates as [|c candidates IH]; intros ids; cbn [foldM_result map].
  { split; [intros _; repeat split; constructor|]. intros _. by eexists. }
  unfold check_candidate at 2. fold (id_of c). rewrite !Forall_cons_iff, list.NoDup_cons.
  destruct (verify_candidate_scope binding query_ids digest c) as [[]|e]; cbn [mbind result_bind].
  2:{ split; [by intros [? ?]|by intros (((? & _) & _) & _)]. }
  case_bool_decide as Hid; cbn [mbind result_bind].
  { split; [by intros [? ?]|tauto]. }
  rewrite IH. split.
  - intros [[H1 H2] H3]. split_and!; try done.
    + rewrite list_elem_of_fmap. intros (d & Heq & Hd%list_elem_of_In). rewrite Forall_forall in H3.
      apply (H3 d Hd). rewrite <- Heq. set_solver.
    + eapply Forall_impl; [|exact H3]. cbn. set_solver.
  - intros [[[_ H1] [H2 H2']] [_ H3]]. split_and!; try done. rewrite Forall_forall in *.
    intros d Hd. rewrite elem_of_union, elem_of_singleton. intros [Heq|Hin]; [|by apply (H3 d Hd)].
    apply H2. rewrite <- Heq. by apply list_elem_of_fmap_2, list_elem_of_In.
Qed.

Lemma candidates_checked query_ids digest candidates :
  (exists ids', foldM_result (check_candidate binding query_ids digest) ∅ candidates = Ok ids') <->
  candidates_ok query_ids digest candidates.
Proof.
  rewrite check_candidates_spec. split; [tauto|]. intros Hc. split; [done|]. apply Forall_forall. set_solver.
Qed.

Lemma pick_consolidated_Some budget eligible c :
  pick_consolidated budget eligible = Some c ->
  c ∈ eligible /\ artifact_kind (candidate_artifact c) = Consolidated /\
  candidate_tokens c <= consolidated_summary budget.
Proof.
  unfold pick_consolidated. intros Hc. apply head_Some_elem_of in Hc. rewrite sort_by_perm in Hc.
  apply list_elem_of_filter_bool in Hc as [Hp Hc]. apply andb_true_iff in Hp as [Hk%bool_decide_eq_true Ht].
  split; [done|]. split; [done|lia].
Qed.

Lemma uncovered_leaves_elem consolidated eligible c :
  c ∈ uncovered_leaves consolidated eligible <->
  c ∈ eligible /\ artifact_kind (candidate_artifact c) = Leaf /\
  match consolidated with
  | Some s => covers_leaf (candidate_artifact s) (id_of c) = false
  | None => True
  end.
Proof.
  unfold uncovered_leaves, is_leaf. rewrite !list_elem_of_filter_bool, bool_decide_eq_true.
  destruct consolidated; [rewrite negb_true_iff|]; tauto.
Qed.

Definition initial_choice (consolidated : option MemoryCandidate) : list SelectedMemory :=
  match consolidated with Some c => [selected_of c BucketConsolidated] | None => [] end.

Definition start (consolidated : option MemoryCandidate) : Chosen :=
  match consolidated with Some c => push_selected ([], ∅) c BucketConsolidated | None => ([], ∅) end.

Lemma start_ok consolidated :
  chosen_ok (start consolidated) /\ (start consolidated).1 = initial_choice consolidated.
Proof.
  assert (Hempty : chosen_ok ([], ∅)) by (split; [constructor|set_solver]).
  destruct consolidated as [c|]; [|done]. by apply (push_selected_ok ([], ∅)); [|set_solver].
Qed.

Section parts.
Context (budget_input : MemoryBudgetInput) (candidates : list MemoryCandidate).
Hypothesis Hpreset : preset_ok (binding_preset binding).
Hypothesis Hinput : input_ok budget_input.
Hypothesis Htyped : Forall candidate_typed candidates.

Definition the_budget : MemoryTokenBudget := calculate (binding_preset binding) budget_input.
Definition the_eligible : list MemoryCandidate := List.filter (candidate_is_eligible binding) candidates.
Definition the_summary : option MemoryCandidate := pick_consolidated the_budget the_eligible.
Definition the_leaves : list MemoryCandidate := uncovered_leaves the_summary the_eligible.

(** A selection is the consolidated summary and three buckets of leaves. *)
Record parts (l : list SelectedMemory) (r s d : list SelectedMemory) : Prop := {
  pt_perm : l ≡ₚ initial_choice the_summary ++ r ++ s ++ d;
  pt_recent : drawn_from the_leaves BucketRecent r;
  pt_similar : drawn_from the_leaves BucketSimilar s;
  pt_random : drawn_from the_leaves BucketRandom d;
  pt_nodup : NoDup (map selected_id l);
  pt_recent_le : tokens_of r <= recent (retrieval the_budget);
  pt_similar_le : tokens_of s <= similar (retrieval the_budget);
  pt_random_le : tokens_of d <= random (retrieval the_budget);
  pt_left : forall c, c ∈ the_leaves -> id_of c ∈ map selected_id l \/ left_out the_budget r s d c;
}.

Lemma the_budget_ok : budget_ok the_budget.
Proof. destruct Hpreset. by apply calculate_ok. Qed.

Lemma eligible_typed c : c ∈ the_eligible -> c ∈ candidates /\ candidate_typed c /\ candidate_is_eligible binding c = true.
Proof.
  intros [He Hc]%list_elem_of_filter_bool. split_and!; try done.
  rewrite Forall_forall in Htyped. by apply Htyped, list_elem_of_In.
Qed.

Lemma leaves_typed : Forall candidate_typed the_leaves.
Proof.
  apply Forall_forall. intros c Hc%list_elem_of_In. apply uncovered_leaves_elem in Hc as [Hc _].
  by destruct (eligible_typed c Hc) as (_ & Ht & _).
Qed.

Lemma filled_parts digest chosen' :
  fill_buckets binding the_budget digest the_leaves (start the_summary) = Ok chosen' ->
  exists r s d, parts (sort_by compare_selected chosen'.1) r s d.
Proof.
  intros Hf. destruct (start_ok the_summary) as [Hok Hstart].
  apply (fill_buckets_spec binding the_budget the_budget_ok) in Hf
    as (r & s & d & Happ & [Hnd Hset] & _ & Hr & Hs & Hd & Hr' & Hs' & Hd' & Hall); [|apply leaves_typed|done|].
  2:{ intros Hroll. unfold the_budget, calculate. rewrite Hroll. done. }
  rewrite Hstart in Happ. pose proof (sort_by_perm compare_selected chosen'.1) as Hperm.
  assert (Hids : map selected_id (sort_by compare_selected chosen'.1) ≡ₚ map selected_id chosen'.1)
    by (by apply Permutation_map).
  exists r, s, d. split; try done.
  - by rewrite Hperm, Happ.
  - by rewrite Hids.
  - intros c Hc. rewrite Hids, <- Hset. by apply Hall.
Qed.

Lemma summary_bucket :
  tokens_of (initial_choice the_summary) <= consolidated_summary the_budget /\
  Forall (fun x => selected_bucket x = BucketConsolidated /\ 0 <= selected_tokens x)
    (initial_choice the_summary).
Proof.
  destruct the_budget_ok as [_ Hsum _ _ _ _ _ _].
  unfold initial_choice. destruct the_summary as [c|] eqn:Hc; [|split; [done|constructor]].
  apply pick_consolidated_Some in Hc as (Hc%eligible_typed & _ & Ht).
  destruct Hc as (_ & Hc & _). unfold candidate_typed in Hc.
  unfold tokens_of. cbn [map foldr selected_of selected_tokens]. split; [lia|].
  repeat constructor. cbn [selected_tokens selected_of]. lia.
Qed.

(** The members of each bucket. *)
Lemma parts_buckets l r s d :
  parts l r s d ->
  tokens_of (in_bucket BucketConsolidated l) = tokens_of (initial_choice the_summary) /\
  tokens_of (in_bucket BucketRecent l) = tokens_of r /\
  tokens_of (in_bucket BucketSimilar l) = tokens_of s /\
  tokens_of (in_bucket BucketRandom l) = tokens_of d.
Proof.
  intros [Hperm Hr%drawn_bucket Hs%drawn_bucket Hd%drawn_bucket _ _ _ _ _].
  assert (Hc : Forall (fun x => selected_bucket x = BucketConsolidated) (initial_choice the_summary))
    by (eapply Forall_impl; [|apply summary_bucket]; by intros x [? _]).
  rewrite !(tokens_of_perm _ _ (in_bucket_perm _ _ _ Hperm)), !in_bucket_app, !tokens_of_app.
  rewrite (in_bucket_all _ _ Hc), (in_bucket_all _ _ Hr), (in_bucket_all _ _ Hs), (in_bucket_all _ _ Hd).
  rewrite !(in_bucket_none _ _ _ Hc), !(in_bucket_none _ _ _ Hr), !(in_bucket_none _ _ _ Hs),
    !(in_bucket_none _ _ _ Hd) by done.
  change (tokens_of []) with 0. split_and!; lia.
Qed.

Lemma parts_tokens l r s d :
  parts l r s d ->
  Forall (fun x => 0 <= selected_tokens x) l /\ tokens_of l <= total_memory the_budget.
Proof.
  intros [Hperm Hr Hs Hd _ Hr' Hs' Hd' _]. destruct the_budget_ok as [_ _ _ Hsplit _ _ _ Hshares].
  destruct summary_bucket as [Hc Hcp]. split.
  - rewrite Hperm, !Forall_app. split_and!.
    + eapply Forall_impl; [|exact Hcp]. by intros x [_ ?].
    + exact (drawn_nonneg _ _ _ leaves_typed Hr).
    + exact (drawn_nonneg _ _ _ leaves_typed Hs).
    + exact (drawn_nonneg _ _ _ leaves_typed Hd).
  - rewrite (tokens_of_perm _ _ Hperm), !tokens_of_app. lia.
Qed.

(** When the buckets can be filled at all. *)
Definition scores_present : Prop :=
  match strategy (binding_preset binding) with
  | RollingSummary => True
  | HybridRetrieval _ =>
      similar (retrieval the_budget) > 0 -> Forall (fun c => is_Some (embedding_match c)) the_leaves
  end.

Lemma fill_buckets_Ok digest :
  (exists chosen', fill_buckets binding the_budget digest the_leaves (start the_summary) = Ok chosen') <->
  scores_present.
Proof.
  unfold fill_buckets, scores_present. cbn zeta. destruct (strategy _) as [|policy]; [split; eauto|].
  assert (Hex : existsb (fun c => negb (is_some (embedding_match c))) the_leaves = false <->
                Forall (fun c => is_Some (embedding_match c)) the_leaves).
  { rewrite existsb_false_Forall. apply Forall_iff. intros c. rewrite negb_false_iff.
    destruct (embedding_match c); cbn; (split; [intros Hx|intros [? Hx]]); done || by eexists. }
  destruct (similar (retrieval the_budget) >? 0) eqn:Hs; cbn [andb].
  - destruct (existsb _ _); split.
    + by intros [? ?].
    + intros Hall. specialize (Hall ltac:(lia)). apply Hex in Hall. done.
    + intros _ _. by apply Hex.
    + intros _. by eexists.
  - split; [lia|]. intros _. by eexists.
Qed.

Lemma select_memories_iff chat card query sel :
  select_memories binding chat card budget_input query candidates = Ok sel <->
  verify_scope binding chat card = Ok tt /\
  exists ids digest, validate_query_context binding query = Ok (ids, digest) /\
    len candidates <= MAX_MEMORY_CANDIDATES /\ candidates_ok ids digest candidates /\
    exists chosen', fill_buckets binding the_budget digest the_leaves (start the_summary) = Ok chosen' /\
      sel = mkSelection (scope_of binding) budget_input digest (sort_by compare_selected chosen'.1)
              (tokens_of (sort_by compare_selected chosen'.1)).
Proof.
  assert (Htail : forall digest chosen',
    fill_buckets binding the_budget digest the_leaves (start the_summary) = Ok chosen' ->
    try_sum 0 (sort_by compare_selected chosen'.1) = Some (tokens_of (sort_by compare_selected chosen'.1)) /\
    tokens_of (sort_by compare_selected chosen'.1) <= total_memory the_budget).
  { intros digest chosen' Hf. apply filled_parts in Hf as (r & s & d & Hp).
    apply parts_tokens in Hp as [Hnn Hle]. destruct the_budget_ok as [Htot _ _ _ _ _ _ _].
    split; [|done]. rewrite try_sum_spec by (done || lia). done. }
  unfold select_memories. fold the_budget. fold the_eligible. fold the_summary. fold the_leaves.
  change (match the_summary with Some c => _ | None => _ end) with (start the_summary). split.
  - intros Hsel. apply bind_Ok in Hsel as ([] & Hv & Hsel). split; [done|].
    apply bind_Ok in Hsel as ([ids digest] & Hq & Hsel). exists ids, digest. split; [done|].
    destruct (len candidates >? _) eqn:Hl; [done|]. split; [lia|].
    apply bind_Ok in Hsel as (ids' & Hc & Hsel). split; [apply candidates_checked; by exists ids'|].
    apply bind_Ok in Hsel as ([l set] & Hf & Hsel). exists (l, set). split; [done|].
    destruct (Htail _ _ Hf) as [Hsum Hle]. cbn [fst] in *. rewrite Hsum in Hsel.
    cbn [ok_or mbind result_bind] in Hsel. rewrite gtb_false in Hsel by done. by injection Hsel as <-.
  - intros (Hv & ids & digest & Hq & Hl & Hc & [l set] & Hf & ->). rewrite Hv, Hq.
    cbn [mbind result_bind]. rewrite gtb_false by done.
    destruct (proj2 (candidates_checked _ _ _) Hc) as [ids' ->]. cbn [mbind result_bind].
    rewrite Hf. destruct (Htail _ _ Hf) as [Hsum Hle]. cbn [fst mbind result_bind] in *.
    rewrite Hsum. cbn [ok_or mbind result_bind]. by rewrite gtb_false.
Qed.

Lemma select_memories_parts chat card query sel :
  select_memories binding chat card budget_input query candidates = Ok sel ->
  exists r s d, parts (selected sel) r s d.
Proof.
  intros (_ & ids & digest & _ & _ & _ & chosen' & Hf & ->)%select_memories_iff.
  by apply filled_parts in Hf.
Qed.

#[local] Instance compare_selected_cmp : Comparison compare_selected.
Proof.
  unfold compare_selected. apply then_with_cmp; [apply (Z_compare_cmp selected_first)|].
  apply then_with_cmp; [apply (Z_compare_cmp selected_last)|]. apply str_cmp_cmp.
Qed.

Lemma select_memories_sorted chat card query sel :
  select_memories binding chat card budget_input query candidates = Ok sel ->
  StronglySorted (cmp_le compare_selected) (selected sel).
Proof.
  intros (_ & ids & digest & _ & _ & _ & chosen' & Hf & ->)%select_memories_iff.
  apply sort_by_sorted, _.
Qed.
End parts.
End select.

(** A selection of memories never exceeds its budget: the consolidated summary, the
    recent, the similar and the random memories each stay within their own share, and
    together within the memory budget; what is reported as reserved is their exact
    sum.  No artifact is selected twice, and the memories are in the order of the
    conversation. *)
Theorem selection_within_budget `{MemoryLib, PromptRegexLib} (binding : MemorySessionBinding)
    (chat card : str) (input : MemoryBudgetInput) (query : AuthoritativeEmbeddingQuery)
    (candidates : list MemoryCandidate) (sel : MemorySelection) :
  preset_ok (binding_preset binding) -> input_ok input -> Forall candidate_typed candidates ->
  select_memories binding chat card input query candidates = Ok sel ->
  let b := calculate (binding_preset binding) input in
  tokens_of (in_bucket BucketConsolidated (selected sel)) <= consolidated_summary b /\
  tokens_of (in_bucket BucketRecent (selected sel)) <= recent (retrieval b) /\
  tokens_of (in_bucket BucketSimilar (selected sel)) <= similar (retrieval b) /\
  tokens_of (in_bucket BucketRandom (selected sel)) <= random (retrieval b) /\
  selection_tokens sel = tokens_of (selected sel) /\ selection_tokens sel <= total_memory b /\
  NoDup (map selected_id (selected sel)) /\ StronglySorted (cmp_le compare_selected) (selected sel).
Proof.
  intros Hp Hi Ht Hsel b. pose proof (select_memories_sorted _ _ _ Hp Hi Ht _ _ _ _ Hsel) as Hsort.
  destruct (select_memories_parts _ _ _ Hp Hi Ht _ _ _ _ Hsel) as (r & s & d & Hparts).
  destruct (parts_buckets _ _ _ Hp Hi Ht _ _ _ _ Hparts) as (-> & -> & -> & ->).
  pose proof (summary_bucket _ _ _ Hp Hi Ht) as [Hc _].
  destruct (parts_tokens _ _ _ Hp Hi Ht _ _ _ _ Hparts) as [_ Htot].
  destruct Hparts as [_ _ _ _ Hnd Hr Hs Hd _].
  assert (Hsum : selection_tokens sel = tokens_of (selected sel)).
  { by apply select_memories_iff in Hsel as (_ & ids & digest & _ & _ & _ & chosen' & _ & ->). }
  rewrite Hsum. done.
Qed.

Section facts.
Context `{MemoryLib, PromptRegexLib} (binding : MemorySessionBinding).

Lemma candidate_in_session ids digest c :
  verify_candidate_scope binding ids digest c = Ok tt ->
  artifact_session (candidate_artifact c) = session_of binding.
Proof.
  unfold verify_candidate_scope. intros Hv. apply bind_Ok in Hv as ([] & Hs & _).
  by apply ensure_Ok, bool_decide_eq_true in Hs.
Qed.

(** Where a selected memory comes from. *)
Lemma selected_origin input candidates l r s d x :
  parts binding input candidates l r s d -> x ∈ l ->
  (exists c, the_summary binding input candidates = Some c /\ x = selected_of c BucketConsolidated) \/
  exists c b, c ∈ the_leaves binding input candidates /\ b <> BucketConsolidated /\ x = selected_of c b.
Proof.
  intros [Hperm Hr Hs Hd _ _ _ _ _] Hx. rewrite Hperm, !elem_of_app in Hx.
  unfold drawn_from in *. rewrite Forall_forall in Hr, Hs, Hd.
  destruct Hx as [Hx|[Hx|[Hx|Hx]]].
  - left. unfold initial_choice in Hx. destruct (the_summary _ _ _) as [c|]; [|by apply not_elem_of_nil in Hx].
    apply list_elem_of_singleton in Hx as ->. by exists c.
  - right. apply list_elem_of_In, Hr in Hx as (c & Hc & ->). by exists c, BucketRecent.
  - right. apply list_elem_of_In, Hs in Hx as (c & Hc & ->). by exists c, BucketSimilar.
  - right. apply list_elem_of_In, Hd in Hx as (c & Hc & ->). by exists c, BucketRandom.
Qed.

Lemma selected_or_left_out input candidates l r s d c :
  parts binding input candidates l r s d ->
  let b := the_budget binding input in
  tokens_of (in_bucket BucketRecent l) = tokens_of r ->
  tokens_of (in_bucket BucketSimilar l) = tokens_of s ->
  tokens_of (in_bucket BucketRandom l) = tokens_of d ->
  c ∈ the_leaves binding input candidates ->
  id_of c ∈ map selected_id l \/
  forall bucket share, (bucket, share) ∈ [(BucketRecent, recent (retrieval b));
                                          (BucketSimilar, similar (retrieval b));
                                          (BucketRandom, random (retrieval b))] ->
    share - tokens_of (in_bucket bucket l) < candidate_tokens c.
Proof.
  intros Hparts b Hr Hs Hd Hc. destruct (pt_left _ _ _ _ _ _ _ Hparts c Hc) as [?|(H1 & H2 & H3)]; [by left|].
  right. intros bucket share. rewrite !elem_of_cons.
  intros [[= -> ->]|[[= -> ->]|[[= -> ->]|?%not_elem_of_nil]]]; [by rewrite Hr|by rewrite Hs|by rewrite Hd|done].
Qed.
(** The summary that was picked is the one in the summary bucket. *)
Lemma summary_is_selected input candidates l r s d c :
  Forall candidate_typed candidates -> NoDup (map id_of candidates) ->
  parts binding input candidates l r s d ->
  the_summary binding input candidates = Some c <-> c ∈ candidates /\ selected_of c BucketConsolidated ∈ l.
Proof.
  intros Ht Hids Hparts. split.
  - intros Hc. split.
    + apply pick_consolidated_Some in Hc as (Hc & _). by apply eligible_typed in Hc as (Hc & _).
    + rewrite (pt_perm _ _ _ _ _ _ _ Hparts). unfold initial_choice. rewrite Hc. left.
  - intros [Hc Hin]. destruct (selected_origin _ _ _ _ _ _ _ Hparts Hin)
      as [(c' & Hc' & Heq)|(c' & bk & _ & Hb & Heq)]; [|by apply (f_equal selected_bucket) in Heq].
    rewrite Hc'. f_equal. apply pick_consolidated_Some in Hc' as (Hc' & _).
    apply eligible_typed in Hc' as (Hc' & _); [|done].
    apply (f_equal selected_id) in Heq. by apply (NoDup_map_inj id_of candidates).
Qed.

Lemma covers_leaf_iff candidates c id :
  Forall (fun c => artifact_ok (candidate_artifact c)) candidates -> c ∈ candidates ->
  covers_leaf (candidate_artifact c) id = true <-> id ∈ covered_leaf_artifact_ids (candidate_artifact c).
Proof.
  intros Hok Hc%list_elem_of_In. rewrite Forall_forall in Hok. apply binary_search_elem. by apply ak_covered, Hok.
Qed.
End facts.

(** C26: Only usable memories are selected, and as many leaves as the shares allow.  Every
    selected memory is a candidate of this session that was not invalidated (and not
    compacted, unless the preset keeps those); one in the summary bucket is a
    consolidated artifact, the others are leaves the selected summary does not cover.
    A usable leaf that is neither covered nor selected does not fit what its
    selection left of any of the three shares. *)
Theorem selection_is_sound_and_maximal `{MemoryLib, PromptRegexLib} (binding : MemorySessionBinding)
    (chat card : str) (input : MemoryBudgetInput) (query : AuthoritativeEmbeddingQuery)
    (candidates : list MemoryCandidate) (sel : MemorySelection) :
  preset_ok (binding_preset binding) -> input_ok input -> Forall candidate_typed candidates ->
  Forall (fun c => artifact_ok (candidate_artifact c)) candidates ->
  select_memories binding chat card input query candidates = Ok sel ->
  let b := calculate (binding_preset binding) input in
  let covered id := exists c, c ∈ candidates /\ id ∈ covered_leaf_artifact_ids (candidate_artifact c) /\
                      selected_of c BucketConsolidated ∈ selected sel in
  (forall x, x ∈ selected sel ->
     exists c, c ∈ candidates /\ x = selected_of c (selected_bucket x) /\
       artifact_session (candidate_artifact c) = session_of binding /\
       candidate_is_eligible binding c = true /\
       (selected_bucket x = BucketConsolidated -> artifact_kind (candidate_artifact c) = Consolidated) /\
       (selected_bucket x <> BucketConsolidated ->
        artifact_kind (candidate_artifact c) = Leaf /\ ~ covered (id_of c))) /\
  (forall c, c ∈ candidates -> candidate_is_eligible binding c = true ->
     artifact_kind (candidate_artifact c) = Leaf ->
     covered (id_of c) \/ id_of c ∈ map selected_id (selected sel) \/
     (forall bucket share, (bucket, share) ∈ [(BucketRecent, recent (retrieval b));
                                             (BucketSimilar, similar (retrieval b));
                                             (BucketRandom, random (retrieval b))] ->
        share - tokens_of (in_bucket bucket (selected sel)) < candidate_tokens c)).
Proof.
  intros Hp Hi Ht Hok Hsel b covered.
  destruct (select_memories_parts _ _ _ Hp Hi Ht _ _ _ _ Hsel) as (r & s & d & Hparts).
  apply select_memories_iff in Hsel as (_ & ids & digest & _ & _ & [Hscope Hids] & _); [|done..].
  pose proof (fun c => summary_is_selected _ _ _ _ _ _ _ c Ht Hids Hparts) as Hsum.
  split.
  - intros x Hx. destruct (selected_origin _ _ _ _ _ _ _ _ Hparts Hx) as [(c & Hc & ->)|(c & bk & Hc & Hb & ->)].
    + destruct (proj1 (Hsum c) Hc) as [Hin _]. apply pick_consolidated_Some in Hc as (Hc & Hk & _).
      apply eligible_typed in Hc as (_ & _ & He); [|done]. exists c. cbn [selected_bucket selected_of].
      split_and!; try done. apply candidate_in_session with ids digest.
      rewrite Forall_forall in Hscope. by apply Hscope, list_elem_of_In.
    + apply uncovered_leaves_elem in Hc as (Hc & Hk & Hcov). apply eligible_typed in Hc as (Hc & _ & He); [|done].
      exists c. cbn [selected_bucket selected_of]. split_and!; try done.
      * apply candidate_in_session with ids digest. rewrite Forall_forall in Hscope.
        by apply Hscope, list_elem_of_In.
      * intros _. split; [done|]. intros (c' & Hc' & Hid & Hsel). rewrite (proj2 (Hsum c') (conj Hc' Hsel)) in Hcov.
        apply (covers_leaf_iff _ _ _ Hok Hc') in Hid. by rewrite Hid in Hcov.
  - intros c Hc He Hk.
    destruct (parts_buckets _ _ _ Hp Hi Ht _ _ _ _ Hparts) as (_ & Hr & Hs & Hd).
    assert (Hel : c ∈ the_eligible binding candidates) by (by apply list_elem_of_filter_bool).
    destruct (the_summary binding input candidates) as [c'|] eqn:Hc';
      [destruct (covers_leaf (candidate_artifact c') (id_of c)) eqn:Hcov|].
    + left. destruct (proj1 (Hsum c') eq_refl) as [Hin Hsel]. exists c'. split_and!; try done.
      by apply (covers_leaf_iff _ _ _ Hok Hin).
    + right. apply (selected_or_left_out _ _ _ _ _ _ _ _ Hparts); [done..|].
      apply uncovered_leaves_elem. rewrite Hc'. done.
    + right. apply (selected_or_left_out _ _ _ _ _ _ _ _ Hparts); [done..|].
      apply uncovered_leaves_elem. rewrite Hc'. done.
Qed.

(** A selection fails only for what the caller gave: exactly when the session is
    another one, the query does not fit the strategy, there are too many candidates,
    one is out of scope or repeated, or hybrid retrieval has similarity tokens to
    spend and a usable leaf without a score.  The overflow of the reservation and the
    "exceed the total memory budget" error never happen. *)
Theorem selection_succeeds_iff `{MemoryLib, PromptRegexLib} (binding : MemorySessionBinding)
    (chat card : str) (input : MemoryBudgetInput) (query : AuthoritativeEmbeddingQuery)
    (candidates : list MemoryCandidate) :
  preset_ok (binding_preset binding) -> input_ok input -> Forall candidate_typed candidates ->
  (exists sel, select_memories binding chat card input query candidates = Ok sel) <->
  verify_scope binding chat card = Ok tt /\
  (exists ids digest, validate_query_context binding query = Ok (ids, digest) /\
     candidates_ok binding ids digest candidates) /\
  len candidates <= MAX_MEMORY_CANDIDATES /\ scores_present binding input candidates.
Proof.
  intros Hp Hi Ht. split.
  - intros [sel Hsel]. apply select_memories_iff in Hsel
      as (Hv & ids & digest & Hq & Hl & Hc & chosen' & Hf & _); [|done..].
    split_and!; try done; [by exists ids, digest|]. eapply fill_buckets_Ok; by eexists.
  - intros (Hv & (ids & digest & Hq & Hc) & Hl & Hs).
    destruct (proj2 (fill_buckets_Ok binding input candidates digest) Hs) as [chosen' Hf].
    eexists. apply select_memories_iff; [done..|]. split; [done|].
    exists ids, digest. split_and!; try done. by exists chosen'.
Qed.

(** ** Materialised selections *)

(** The map built from the artifacts finds exactly them. *)
Definition indexed (l : list SummaryArtifact) (by_id : gmap str SummaryArtifact) : Prop :=
  forall id a, by_id !! id = Some a <-> a ∈ l /\ artifact_id a = id.

Lemma index_insert pre by_id a :
  indexed pre by_id -> artifact_id a ∉ map artifact_id pre ->
  indexed (pre ++ [a]) (<[artifact_id a := a]> by_id).
Proof.
  intros Hix Hfresh id b. rewrite elem_of_app, list_elem_of_singleton.
  destruct (decide (artifact_id a = id)) as [<-|Hne].
  - rewrite lookup_insert_eq. split; [intros [= <-]; tauto|].
    intros [[Hb| ->] Heq]; [|done]. exfalso. apply Hfresh. rewrite <- Heq. by apply list_elem_of_fmap_2.
  - rewrite lookup_insert_ne by done. rewrite (Hix id b). split; [tauto|]. intros [[Hb| ->] Heq]; [done|by subst].
Qed.

Lemma insert_artifacts_spec current : forall pre by_id,
  indexed pre by_id -> NoDup (map artifact_id pre) ->
  (forall by_id', foldM_result insert_artifact by_id current = Ok by_id' ->
     NoDup (map artifact_id (pre ++ current)) /\ indexed (pre ++ current) by_id') /\
  (NoDup (map artifact_id (pre ++ current)) ->
   exists by_id', foldM_result insert_artifact by_id current = Ok by_id').
Proof.
  induction current as [|a current IH]; intros pre by_id Hix Hnd; cbn [foldM_result].
  { rewrite app_nil_r. split; [by intros ? [= <-]|]. intros _. by eexists. }
  unfold insert_artifact at 2 4. destruct (by_id !! artifact_id a) as [old|] eqn:Ha; cbn [is_some mbind result_bind].
  { apply Hix in Ha as [Hold Heq]. split; [done|]. rewrite map_app. cbn [map].
    intros (_ & Hdisj & _)%list.NoDup_app. exfalso.
    apply (Hdisj (artifact_id a)); [|left]. rewrite <- Heq. by apply list_elem_of_fmap_2. }
  assert (Hfresh : artifact_id a ∉ map artifact_id pre).
  { rewrite list_elem_of_fmap. intros (b & Hb & Hin).
    assert (by_id !! artifact_id a = Some b) by (by apply Hix). congruence. }
  destruct (IH (pre ++ [a]) (<[artifact_id a := a]> by_id)) as [IH1 IH2]; [by apply index_insert| |].
  - rewrite map_app. apply list.NoDup_app. split; [done|]. split; [|apply NoDup_singleton].
    intros x Hx. cbn [map]. rewrite list_elem_of_singleton. by intros ->.
  - rewrite <- app_assoc in IH1, IH2. done.
Qed.

Lemma index_current current :
  (forall by_id, foldM_result insert_artifact ∅ current = Ok by_id ->
     NoDup (map artifact_id current) /\ indexed current by_id) /\
  (NoDup (map artifact_id current) -> exists by_id, foldM_result insert_artifact ∅ current = Ok by_id).
Proof.
  apply (insert_artifacts_spec current []); [|constructor].
  intros id a. rewrite lookup_empty. split; [done|]. by intros [?%not_elem_of_nil _].
Qed.

(** ** Lengths of joined texts *)

Lemma join_snoc_if sep pieces p :
  join sep (pieces ++ [p]) = if is_empty pieces then p else join sep pieces ++ sep ++ p.
Proof. rewrite join_snoc. by destruct pieces. Qed.

Lemma join_prefix_len sep pieces more : len (join sep pieces) <= len (join sep (pieces ++ more)).
Proof.
  induction more as [|p more IH] using rev_ind; [by rewrite app_nil_r|].
  rewrite app_assoc, join_snoc_if. destruct (is_empty (pieces ++ more)) eqn:He.
  - apply is_empty_true, app_eq_nil in He as [-> ->]. cbn. pose proof (len_nonneg p). unfold len in *. cbn. lia.
  - rewrite !len_app. pose proof (len_nonneg sep). pose proof (len_nonneg p). lia.
Qed.

Lemma join_elem sep pieces c : c ∈ join sep pieces -> c ∈ sep \/ exists p, p ∈ pieces /\ c ∈ p.
Proof.
  induction pieces as [|p pieces IH] using rev_ind; [by intros ?%not_elem_of_nil|].
  rewrite join_snoc_if. destruct (is_empty pieces); [set_solver|]. rewrite !elem_of_app. set_solver.
Qed.

Section materialized.
Context `{MemoryLib, PromptRegexLib} (binding : MemorySessionBinding).

(** The artifact a selected memory still stands for. *)
Definition unchanged (s : SelectedMemory) (a : SummaryArtifact) : Prop :=
  artifact_id a = selected_id s /\ artifact_revision a = selected_revision s /\
  first_source_sequence a = selected_first s /\ last_source_sequence a = selected_last s /\
  artifact_session a = session_of binding /\ artifact_is_eligible binding a = true.

Definition text_of (l : list SummaryArtifact) : str := join BLANK_LINE (map artifact_content l).

Lemma resolve_step_spec by_id current resolved s :
  indexed current by_id -> len (text_of resolved) <= MAX_LONG_TERM_MEMORY_INPUT_BYTES ->
  (forall r, resolve_step binding by_id (resolved, len (text_of resolved)) s = Ok r ->
     exists a, a ∈ current /\ unchanged s a /\ r = (resolved ++ [a], len (text_of (resolved ++ [a]))) /\
       len (text_of (resolved ++ [a])) <= MAX_LONG_TERM_MEMORY_INPUT_BYTES) /\
  (forall a, a ∈ current -> unchanged s a ->
     resolve_step binding by_id (resolved, len (text_of resolved)) s =
     if len (text_of (resolved ++ [a])) >? MAX_LONG_TERM_MEMORY_INPUT_BYTES then Err memory_too_large
     else Ok (resolved ++ [a], len (text_of (resolved ++ [a])))).
Proof.
  intros Hix Hle.
  assert (Hlen : forall a, len (text_of (resolved ++ [a])) =
            (if is_empty resolved then len (text_of resolved) else len (text_of resolved) + 2) +
            len (artifact_content a)).
  { intros a. unfold text_of. rewrite map_app. cbn [map]. rewrite join_snoc_if.
    destruct resolved as [|x resolved]; [cbn; done|]. cbn [map is_empty]. rewrite !len_app.
    change (len BLANK_LINE) with 2. lia. }
  assert (Hstep : forall a, a ∈ current -> unchanged s a ->
     resolve_step binding by_id (resolved, len (text_of resolved)) s =
     if len (text_of (resolved ++ [a])) >? MAX_LONG_TERM_MEMORY_INPUT_BYTES then Err memory_too_large
     else Ok (resolved ++ [a], len (text_of (resolved ++ [a])))).
  { intros a Ha (Hid & Hrev & Hf & Hl & Hs & He). unfold resolve_step.
    rewrite (proj2 (Hix (selected_id s) a) (conj Ha Hid)). cbn [ok_or mbind result_bind].
    unfold retrieval_artifact_scope. rewrite bool_decide_true by done. cbn [ensure mbind result_bind].
    rewrite Hrev, Hf, Hl, He, !Z.eqb_refl. cbn [negb orb]. rewrite Hlen.
    pose proof (len_nonneg (artifact_content a)). pose proof (len_nonneg (text_of resolved)).
    unfold checked_add. destruct (is_empty resolved).
    - cbn [mbind result_bind]. destruct (_ <=? USIZE_MAX) eqn:Hu; [done|]. cbn [ok_or mbind result_bind].
      rewrite gtb_true; [done|]. unfold MAX_LONG_TERM_MEMORY_INPUT_BYTES, USIZE_MAX, U64_MAX in *. lia.
    - destruct (len (text_of resolved) + 2 <=? USIZE_MAX) eqn:Hu2;
        [|unfold MAX_LONG_TERM_MEMORY_INPUT_BYTES, USIZE_MAX, U64_MAX in *; lia].
      clear Hu2. cbn [ok_or mbind result_bind]. destruct (_ <=? USIZE_MAX) eqn:Hu; [done|]. cbn [ok_or mbind result_bind].
      rewrite gtb_true; [done|]. unfold MAX_LONG_TERM_MEMORY_INPUT_BYTES, USIZE_MAX, U64_MAX in *. lia. }
  split; [|done]. intros r Hr.
  assert (Ha : exists a, a ∈ current /\ unchanged s a).
  { unfold resolve_step in Hr. apply bind_Ok in Hr as (a & Ha%ok_or_Ok & Hr).
    apply Hix in Ha as [Ha Hid]. apply bind_Ok in Hr as ([] & Hs%ensure_Ok%bool_decide_eq_true & Hr).
    exists a. split; [done|]. case_match eqn:Hc; [done|].
    rewrite !orb_false_iff, !negb_false_iff, !Z.eqb_eq in Hc. unfold unchanged. tauto. }
  destruct Ha as (a & Ha & Hu). exists a. rewrite (Hstep a Ha Hu) in Hr.
  destruct (_ >? _) eqn:Hg; [done|]. injection Hr as <-. split_and!; try done. lia.
Qed.

Lemma eligible_unchanged candidates ids digest c bucket :
  Forall (fun c => verify_candidate_scope binding ids digest c = Ok tt) candidates ->
  c ∈ the_eligible binding candidates ->
  exists a, unchanged (selected_of c bucket) a /\ a ∈ map candidate_artifact candidates.
Proof.
  intros Hscope [He Hc]%list_elem_of_filter_bool. exists (candidate_artifact c).
  split; [|by apply list_elem_of_fmap_2]. unfold unchanged. split_and!; try done.
  apply candidate_in_session with ids digest. rewrite Forall_forall in Hscope. by apply Hscope, list_elem_of_In.
Qed.

Lemma resolve_loop by_id current sel : forall resolved,
  indexed current by_id -> len (text_of resolved) <= MAX_LONG_TERM_MEMORY_INPUT_BYTES ->
  (forall r, foldM_result (resolve_step binding by_id) (resolved, len (text_of resolved)) sel = Ok r ->
     exists new, Forall2 unchanged sel new /\ Forall (fun a => a ∈ current) new /\
       r = (resolved ++ new, len (text_of (resolved ++ new))) /\
       len (text_of (resolved ++ new)) <= MAX_LONG_TERM_MEMORY_INPUT_BYTES) /\
  (forall new, Forall2 unchanged sel new -> Forall (fun a => a ∈ current) new ->
     foldM_result (resolve_step binding by_id) (resolved, len (text_of resolved)) sel =
     if len (text_of (resolved ++ new)) >? MAX_LONG_TERM_MEMORY_INPUT_BYTES then Err memory_too_large
     else Ok (resolved ++ new, len (text_of (resolved ++ new)))).
Proof.
  induction sel as [|s sel IH]; intros resolved Hix Hle; cbn [foldM_result].
  { split.
    - intros r [= <-]. exists []. rewrite app_nil_r. split_and!; try done; constructor.
    - intros new Hn _. inversion Hn. rewrite app_nil_r, gtb_false by done. done. }
  destruct (resolve_step_spec by_id current resolved s Hix Hle) as [Hs1 Hs2]. split.
  - intros r Hr. apply bind_Ok in Hr as (st & Hst & Hr).
    apply Hs1 in Hst as (a & Ha & Hu & -> & Hle'). destruct (IH (resolved ++ [a]) Hix Hle') as [IH1 _].
    apply IH1 in Hr as (new & Hn & Hin & -> & Hfin). exists (a :: new). rewrite <- app_assoc in *.
    cbn [app] in *. split_and!; try done; by constructor.
  - intros new Hn Hin. inversion Hn as [|? a ? new' Hu Hn']; subst.
    apply Forall_cons_iff in Hin as [Ha Hin]. rewrite (Hs2 a Ha Hu).
    assert (Hmono : len (text_of (resolved ++ [a])) <= len (text_of (resolved ++ a :: new'))).
    { unfold text_of. change (a :: new') with ([a] ++ new'). rewrite app_assoc, (map_app _ (resolved ++ [a])).
      apply join_prefix_len. }
    destruct (len (text_of (resolved ++ [a])) >? _) eqn:Hg; cbn [mbind result_bind].
    + rewrite gtb_true by lia. done.
    + destruct (IH (resolved ++ [a]) Hix ltac:(lia)) as [_ IH2].
      rewrite (IH2 new' Hn' Hin), <- app_assoc. done.
Qed.

(** Usable artifacts have no NUL in their text, so neither has their concatenation. *)
Lemma text_of_no_nul l :
  Forall (fun a => artifact_ok a /\ artifact_is_eligible binding a = true) l ->
  contains (text_of l) [NUL] = false.
Proof.
  intros Hl. apply not_true_iff_false. rewrite contains_byte. intros Hc.
  apply join_elem in Hc as [Hc|(p & Hp & Hc)].
  - apply list_elem_of_In in Hc. cbn in Hc. by destruct Hc as [?|[?|[]]].
  - apply list_elem_of_fmap in Hp as (a & -> & Ha%list_elem_of_In). rewrite Forall_forall in Hl.
    destruct (Hl a Ha) as [[_ _ _ _ _ Hcontent] He]. unfold artifact_is_eligible in He.
    apply contains_byte in Hc. destruct (validity a); cbn [invalidated] in Hcontent; try done;
      destruct Hcontent as (_ & _ & Hn); congruence.
Qed.
End materialized.

(** What a selection puts into the prompt is the current text of what was selected.
    Materialising succeeds only in the same session, with the same budget and the same
    query, and then gives the texts of the selected artifacts in order, separated by a
    blank line, as they are in the authoritative snapshot: each with the revision and
    range it was selected with, in the session and not invalidated since; the result is
    bounded and has no NUL. *)
Theorem materialized_text_is_current `{MemoryLib, PromptRegexLib} (sel : MemorySelection)
    (binding : MemorySessionBinding) (chat card : str) (input : MemoryBudgetInput)
    (query : AuthoritativeEmbeddingQuery) (current : list SummaryArtifact) (out : str) :
  materialize sel binding chat card input query current = Ok out ->
  selection_scope sel = scope_of binding /\ selection_budget sel = input /\
  (exists ids, validate_query_context binding query = Ok (ids, selection_query_digest sel)) /\
  NoDup (map artifact_id current) /\
  exists l, Forall2 (unchanged binding) (selected sel) l /\ Forall (fun a => a ∈ current) l /\
    out = text_of l /\ len out <= MAX_LONG_TERM_MEMORY_INPUT_BYTES /\ NUL ∉ out.
Proof.
  unfold materialize, verify_application_context. intros Hm. apply bind_Ok in Hm as ([] & Hctx & Hm).
  apply bind_Ok in Hctx as ([] & _ & Hctx). apply bind_Ok in Hctx as ([ids digest] & Hq & Hctx).
  apply ensure_Ok in Hctx. rewrite !andb_true_iff, !bool_decide_eq_true in Hctx.
  destruct Hctx as [[-> ->] ->]. split; [done|]. split; [done|]. split; [by exists ids|].
  unfold materialize_current_artifacts in Hm. destruct (_ >? _); [done|].
  apply bind_Ok in Hm as (by_id & Hix & Hm). apply bind_Ok in Hm as ([resolved n] & Hr & Hm).
  apply index_current in Hix as [Hnd Hix]. split; [done|].
  apply (proj1 (resolve_loop binding by_id current (selected sel) [] Hix ltac:(done))) in Hr
    as (l & Hu & Hin & [= -> ->] & Hle). cbn [app] in *. exists l. fold (text_of l) in Hm.
  destruct (contains (text_of l) [NUL]) eqn:Hn; [done|]. injection Hm as <-. split_and!; try done.
  rewrite <- contains_byte. congruence.
Qed.

(** Selecting and then materialising against an unchanged snapshot always works: the
    text is that of the selected candidates in order, and the only possible refusal is
    that it is longer than the prompt allows. *)
Theorem selection_materializes `{MemoryLib, PromptRegexLib} (binding : MemorySessionBinding)
    (chat card : str) (input : MemoryBudgetInput) (query : AuthoritativeEmbeddingQuery)
    (candidates : list MemoryCandidate) (sel : MemorySelection) :
  preset_ok (binding_preset binding) -> input_ok input -> Forall candidate_typed candidates ->
  Forall (fun c => artifact_ok (candidate_artifact c)) candidates ->
  select_memories binding chat card input query candidates = Ok sel ->
  exists l, Forall2 (unchanged binding) (selected sel) l /\
    Forall (fun a => a ∈ map candidate_artifact candidates) l /\
    materialize sel binding chat card input query (map candidate_artifact candidates) =
    if len (text_of l) >? MAX_LONG_TERM_MEMORY_INPUT_BYTES then Err memory_too_large else Ok (text_of l).
Proof.
  intros Hp Hi Ht Hok Hsel.
  destruct (select_memories_parts _ _ _ Hp Hi Ht _ _ _ _ Hsel) as (r & s & d & Hparts).
  apply select_memories_iff in Hsel as (Hv & ids & digest & Hq & Hl & [Hscope Hids] & chosen' & _ & Heq); [|done..].
  assert (Hl' : exists l, Forall2 (unchanged binding) (selected sel) l /\
                  Forall (fun a => a ∈ map candidate_artifact candidates) l).
  { apply Forall2_exists_list. intros x Hx.
    destruct (selected_origin _ _ _ _ _ _ _ _ Hparts Hx) as [(c & Hc & ->)|(c & bk & Hc & _ & ->)].
    - apply pick_consolidated_Some in Hc as (Hc & _). by apply (eligible_unchanged binding candidates ids digest).
    - apply uncovered_leaves_elem in Hc as (Hc & _). by apply (eligible_unchanged binding candidates ids digest). }
  destruct Hl' as (l & Hu & Hin). exists l. split; [done|]. split; [done|].
  unfold materialize, verify_application_context. rewrite Hv, Hq. cbn [mbind result_bind].
  rewrite !bool_decide_true by (by rewrite Heq). cbn [andb ensure mbind result_bind].
  unfold materialize_current_artifacts. unfold len at 1. rewrite length_map. rewrite gtb_false by exact Hl.
  destruct (proj2 (index_current (map candidate_artifact candidates))) as [by_id Hix];
    [by rewrite map_map|]. rewrite Hix. cbn [mbind result_bind].
  apply index_current in Hix as [_ Hix].
  pose proof (proj2 (resolve_loop binding by_id _ (selected sel) [] Hix ltac:(done)) l Hu Hin) as Hloop.
  change (len (text_of [])) with 0 in Hloop. rewrite Hloop. cbn [app].
  destruct (_ >? _); [done|]. cbn [mbind result_bind]. fold (text_of l).
  rewrite (text_of_no_nul binding); [done|].
  clear -Hu Hin Hok. induction Hu as [|x a xs l Hx Hu IH]; [constructor|].
  apply Forall_cons_iff in Hin as [Ha Hin]. constructor; [|by apply IH].
  split; [|apply Hx]. apply list_elem_of_fmap in Ha as (c & -> & Hc%list_elem_of_In).
  rewrite Forall_forall in Hok. by apply Hok.
Qed.
