(* ===== verification/MemoryStorage.v ===== *)
(** * Memory: the stored form of presets

    Models [crates/lorepia-memory/src/storage.rs]: the version-1 document a list of
    memory presets is stored as, its conversion to and from the domain types, and the
    bounded writer.  [serde_json] is a parameter ([PresetJson]): the buffers it writes
    for an envelope, and what it parses an envelope, a state and a preset to.  The
    identifiers of a parsed preset are checked by their own [Deserialize], as in
    [id.rs].  What is used of [serde_json] is that it parses what it wrote
    and refuses integers outside the widths of the fields ([PresetJsonLaws]).

    The theorem shows that a stored state loads again unchanged. *)

From stdpp Require Import gmap pretty.
From S2P Require Import Prelude Bytes Utf8 PromptSchema MemoryConfig.

Definition MEMORY_PRESET_STATE_FORMAT : str := lit "lorepia.memory-preset-state".
Definition MEMORY_PRESET_STATE_SCHEMA_VERSION : Z := 1.

(** ** The document *)

Inductive EmbeddingQueryScopeV1 : Type := ConversationV1 | AssistantOnlyV1.
Inductive RegenerationRegexPolicyV1 : Type := SkipV1 | ApplyPinnedPromptResponseRulesV1.

Record MemoryMixV1 : Type := mkMixV1 { mix1_recent : Z; mix1_similar : Z; mix1_random : Z }.

(** [PromptPresetRefV1], [ModelPresetRefV1] and [EmbeddingProfileRefV1] *)
Record RefV1 : Type := mkRefV1 { ref1_id : str; ref1_revision : Z }.

Record HybridRetrievalPolicyV1 : Type := mkHybridV1 {
  hybrid1_query_message_count : Z;
  hybrid1_query_scope : EmbeddingQueryScopeV1;
  hybrid1_selection_mix : MemoryMixV1;
  hybrid1_embedding_profile : RefV1;
}.

Inductive MemoryStrategyV1 : Type :=
  | RollingSummaryV1
  | HybridRetrievalV1 (policy : HybridRetrievalPolicyV1).

Inductive SummaryModelRefV1 : Type := ActiveChatModelV1 | ModelPresetV1 (preset : RefV1).

Record SummaryPolicyV1 : Type := mkSummaryV1 {
  summary1_summary_prompt : str;
  summary1_resummary_prompt : str;
  summary1_max_messages_per_summary : Z;
  summary1_skip_user_messages : bool;
  summary1_chunk_separator : str;
}.

Record InsertionPolicyV1 : Type := mkInsertionV1 {
  insertion1_memory_budget : Z;
  insertion1_additional_detail_budget : Z;
}.

Record MemoryPresetV1 : Type := mkPresetV1 {
  preset1_id : str;
  preset1_revision : Z;
  preset1_label : str;
  preset1_strategy : MemoryStrategyV1;
  preset1_prompt_preset : RefV1;
  preset1_summary_model : SummaryModelRefV1;
  preset1_summary : SummaryPolicyV1;
  preset1_insertion : InsertionPolicyV1;
  preset1_preserve_compacted_orphans : bool;
  preset1_regeneration_regex : RegenerationRegexPolicyV1;
}.

Record StateEnvelope (State : Type) : Type := mkEnvelope {
  envelope_format : str;
  envelope_schema_version : Z;
  envelope_state : State;
}.
Arguments mkEnvelope {_} _ _ _.
Arguments envelope_format {_} _.
Arguments envelope_schema_version {_} _.
Arguments envelope_state {_} _.

(** Raw JSON is kept as its text ([RawValue]). *)
Class PresetJson : Type := {
  envelope_buffers : StateEnvelope (list MemoryPresetV1) -> list bytes;
  parse_envelope : bytes -> option (StateEnvelope str);
  parse_state : str -> option (list str);
  parse_preset : str -> option MemoryPresetV1;
}.

(** The integers of a preset are of the widths its fields declare. *)
Definition ref_typed (r : RefV1) : Prop := 0 <= ref1_revision r <= U64_MAX.

Definition is_u16 (z : Z) : Prop := 0 <= z <= U16_MAX.

Definition strategy_typed (s : MemoryStrategyV1) : Prop :=
  match s with
  | RollingSummaryV1 => True
  | HybridRetrievalV1 h =>
      is_u16 (hybrid1_query_message_count h) /\ is_u16 (mix1_recent (hybrid1_selection_mix h)) /\
      is_u16 (mix1_similar (hybrid1_selection_mix h)) /\ is_u16 (mix1_random (hybrid1_selection_mix h)) /\
      ref_typed (hybrid1_embedding_profile h)
  end.

Definition model_typed (m : SummaryModelRefV1) : Prop :=
  match m with ActiveChatModelV1 => True | ModelPresetV1 r => ref_typed r end.

Definition wire_typed (p : MemoryPresetV1) : Prop :=
  0 <= preset1_revision p <= U64_MAX /\ strategy_typed (preset1_strategy p) /\
  ref_typed (preset1_prompt_preset p) /\ model_typed (preset1_summary_model p) /\
  is_u16 (summary1_max_messages_per_summary (preset1_summary p)) /\
  is_u16 (insertion1_memory_budget (preset1_insertion p)) /\
  is_u16 (insertion1_additional_detail_budget (preset1_insertion p)).

Class PresetJsonLaws `{PresetJson} : Prop := {
  parse_written envelope :
    Forall wire_typed (envelope_state envelope) ->
    exists raw raws,
      parse_envelope (concat (envelope_buffers envelope)) =
        Some (mkEnvelope (envelope_format envelope) (envelope_schema_version envelope) raw) /\
      parse_state raw = Some raws /\ mapM parse_preset raws = Some (envelope_state envelope);
  parse_preset_typed raw p : parse_preset raw = Some p -> wire_typed p;
}.

(** ** From the domain *)

Definition scope_from_domain (s : EmbeddingQueryScope) : EmbeddingQueryScopeV1 :=
  match s with Conversation => ConversationV1 | AssistantOnly => AssistantOnlyV1 end.

Definition mix_from_domain (m : MemoryMix) : MemoryMixV1 :=
  mkMixV1 (mix_recent m) (mix_similar m) (mix_random m).

Definition ref_from_domain (r : VersionedRef) : RefV1 := mkRefV1 (ref_id r) (ref_revision r).

Definition hybrid_from_domain (p : HybridRetrievalPolicy) : HybridRetrievalPolicyV1 :=
  mkHybridV1 (query_message_count p) (scope_from_domain (query_scope p))
    (mix_from_domain (selection_mix p)) (ref_from_domain (embedding_profile p)).

Definition strategy_from_domain (s : MemoryStrategy) : MemoryStrategyV1 :=
  match s with
  | RollingSummary => RollingSummaryV1
  | HybridRetrieval p => HybridRetrievalV1 (hybrid_from_domain p)
  end.

Definition model_from_domain (m : SummaryModelRef) : SummaryModelRefV1 :=
  match m with
  | ActiveChatModel => ActiveChatModelV1
  | ModelPreset r => ModelPresetV1 (ref_from_domain r)
  end.

Definition summary_from_domain (p : SummaryPolicy) : SummaryPolicyV1 :=
  mkSummaryV1 (summary_prompt p) (resummary_prompt p) (max_messages_per_summary p)
    (skip_user_messages p) (chunk_separator p).

Definition insertion_from_domain (p : InsertionPolicy) : InsertionPolicyV1 :=
  mkInsertionV1 (memory_budget p) (additional_detail_budget p).

Definition regex_from_domain (p : RegenerationRegexPolicy) : RegenerationRegexPolicyV1 :=
  match p with
  | Skip => SkipV1
  | ApplyPinnedPromptResponseRules => ApplyPinnedPromptResponseRulesV1
  end.

Definition from_domain (p : MemoryPreset) : MemoryPresetV1 :=
  mkPresetV1 (preset_id p) (preset_revision p) (preset_label p) (strategy_from_domain (strategy p))
    (ref_from_domain (preset_prompt_preset p)) (model_from_domain (preset_summary_model p))
    (summary_from_domain (summary p)) (insertion_from_domain (insertion p))
    (preserve_compacted_orphans p) (regex_from_domain (regeneration_regex p)).

(** ** Into the domain *)

Definition scope_into_domain (s : EmbeddingQueryScopeV1) : EmbeddingQueryScope :=
  match s with ConversationV1 => Conversation | AssistantOnlyV1 => AssistantOnly end.

Definition mix_into_domain (m : MemoryMixV1) : MemResult MemoryMix :=
  recent ← BasisPoints_new (mix1_recent m);
  similar ← BasisPoints_new (mix1_similar m);
  random ← BasisPoints_new (mix1_random m);
  MemoryMix_new recent similar random.

Definition ref_into_domain (r : RefV1) : MemResult VersionedRef :=
  VersionedRef_new (ref1_id r) (ref1_revision r).

Definition hybrid_into_domain (p : HybridRetrievalPolicyV1) : MemResult HybridRetrievalPolicy :=
  mix ← mix_into_domain (hybrid1_selection_mix p);
  profile ← ref_into_domain (hybrid1_embedding_profile p);
  HybridRetrievalPolicy_new (hybrid1_query_message_count p) (scope_into_domain (hybrid1_query_scope p))
    mix profile.

Definition strategy_into_domain (s : MemoryStrategyV1) : MemResult MemoryStrategy :=
  match s with
  | RollingSummaryV1 => Ok RollingSummary
  | HybridRetrievalV1 p => policy ← hybrid_into_domain p; mret (HybridRetrieval policy)
  end.

Definition model_into_domain (m : SummaryModelRefV1) : MemResult SummaryModelRef :=
  match m with
  | ActiveChatModelV1 => Ok ActiveChatModel
  | ModelPresetV1 r => preset ← ref_into_domain r; mret (ModelPreset preset)
  end.

Definition insertion_into_domain (p : InsertionPolicyV1) : MemResult InsertionPolicy :=
  budget ← BasisPoints_new (insertion1_memory_budget p);
  detail ← BasisPoints_new (insertion1_additional_detail_budget p);
  InsertionPolicy_new budget detail.

Definition regex_into_domain (p : RegenerationRegexPolicyV1) : RegenerationRegexPolicy :=
  match p with
  | SkipV1 => Skip
  | ApplyPinnedPromptResponseRulesV1 => ApplyPinnedPromptResponseRules
  end.

Section storage.
Context `{MemoryLib}.

Definition summary_into_domain (p : SummaryPolicyV1) : MemResult SummaryPolicy :=
  separator ← ChunkSeparatorRegex_new (summary1_chunk_separator p);
  SummaryPolicy_new (summary1_summary_prompt p) (summary1_resummary_prompt p)
    (summary1_max_messages_per_summary p) (summary1_skip_user_messages p) separator.

Definition into_domain (p : MemoryPresetV1) : MemResult MemoryPreset :=
  strategy ← strategy_into_domain (preset1_strategy p);
  prompt ← ref_into_domain (preset1_prompt_preset p);
  model ← model_into_domain (preset1_summary_model p);
  summary ← summary_into_domain (preset1_summary p);
  insertion ← insertion_into_domain (preset1_insertion p);
  from_parts (preset1_id p) (preset1_revision p)
    (mkDraft (preset1_label p) strategy prompt model summary insertion
       (preset1_preserve_compacted_orphans p) (regex_into_domain (preset1_regeneration_regex p))).

(** ** Writing *)

Record BoundedJsonWriter : Type := mkWriter { written : bytes; max_bytes : Z; exceeded : bool }.

(** [Write::write]: the new state, and whether the buffer was taken. *)
Definition write (self : BoundedJsonWriter) (buffer : bytes) : BoundedJsonWriter * bool :=
  match checked_add USIZE_MAX (len (written self)) (len buffer) with
  | None => (mkWriter (written self) (max_bytes self) true, false)
  | Some new_length =>
      if new_length >? max_bytes self then (mkWriter (written self) (max_bytes self) true, false)
      else (mkWriter (written self ++ buffer) (max_bytes self) (exceeded self), true)
  end.

(** [serde_json::to_writer]: the buffers in order, up to the first that is refused. *)
Fixpoint to_writer (self : BoundedJsonWriter) (buffers : list bytes) : BoundedJsonWriter * bool :=
  match buffers with
  | [] => (self, true)
  | buffer :: rest =>
      let '(self', taken) := write self buffer in
      if taken then to_writer self' rest else (self', false)
  end.

Definition ensure_preset_count (count : Z) : MemResult unit :=
  if count >? MAX_MEMORY_PRESETS then Err (MemTooManyItems "memory presets" MAX_MEMORY_PRESETS) else Ok tt.

Definition duplicate_preset (id : str) : MemoryError := MemDuplicateId "memory preset ID" id.

Definition insert_preset_id (seen : gset str) (id : str) : MemResult (gset str) :=
  if bool_decide (id ∈ seen) then Err (duplicate_preset id) else Ok ({[id]} ∪ seen).

Definition reject_duplicate_ids (ids : list str) : MemResult unit :=
  _ ← foldM_result insert_preset_id ∅ ids;
  mret tt.

Definition state_too_large : MemoryError :=
  MemPayloadTooLarge "memory preset state" MAX_MEMORY_PRESET_STATE_BYTES.

Context `{PresetJson}.

Definition serialize_preset_state (presets : list MemoryPreset) : MemResult bytes :=
  _ ← ensure_preset_count (len presets);
  _ ← reject_duplicate_ids (map preset_id presets);
  let envelope := mkEnvelope MEMORY_PRESET_STATE_FORMAT MEMORY_PRESET_STATE_SCHEMA_VERSION
                    (map from_domain presets) in
  let '(writer, ok) := to_writer (mkWriter [] MAX_MEMORY_PRESET_STATE_BYTES false)
                         (envelope_buffers envelope) in
  if ok then Ok (written writer)
  else if exceeded writer then Err state_too_large else Err MemJson.

(** ** Reading *)

(** The identifiers inside a parsed preset, each checked when it is read. *)
Definition check_parsed_ids (p : MemoryPresetV1) : MemResult unit :=
  _ ← validate_id "memoryPresetId" (preset1_id p);
  _ ← match preset1_strategy p with
      | HybridRetrievalV1 h => validate_id "embeddingProfileId" (ref1_id (hybrid1_embedding_profile h))
      | RollingSummaryV1 => Ok tt
      end;
  _ ← validate_id "promptPresetId" (ref1_id (preset1_prompt_preset p));
  match preset1_summary_model p with
  | ModelPresetV1 r => validate_id "modelPresetId" (ref1_id r)
  | ActiveChatModelV1 => Ok tt
  end.

Definition read_preset (raw : str) : MemResult MemoryPresetV1 :=
  wire ← ok_or (parse_preset raw) MemJson;
  _ ← map_err (fun _ => MemJson) (check_parsed_ids wire);
  mret wire.

(** The body of the loop of [decode_v1]. *)
Definition decode_preset_v1 (acc : gset str * list MemoryPreset) (raw : str) :
    MemResult (gset str * list MemoryPreset) :=
  let '(ids, presets) := acc in
  wire ← read_preset raw;
  ids ← insert_preset_id ids (preset1_id wire);
  preset ← into_domain wire;
  mret (ids, presets ++ [preset]).

Definition decode_state_v1 (raw : str) : MemResult (list MemoryPreset) :=
  raws ← ok_or (parse_state raw) MemJson;
  _ ← ensure_preset_count (len raws);
  '(_, presets) ← foldM_result decode_preset_v1 (∅, []) raws;
  mret presets.

Definition ensure_state_size (bytes : Z) : MemResult unit :=
  if bytes >? MAX_MEMORY_PRESET_STATE_BYTES then Err state_too_large else Ok tt.

Definition unsupported_state_version (version : Z) : MemoryError :=
  MemState (lit "unsupported schema version " ++ lit (pretty version) ++ lit "; expected 1").

Definition deserialize_preset_state (bytes : bytes) : MemResult (list MemoryPreset) :=
  _ ← ensure_state_size (len bytes);
  envelope ← ok_or (parse_envelope bytes) MemJson;
  if negb (str_eqb (envelope_format envelope) MEMORY_PRESET_STATE_FORMAT)
  then Err (MemState (lit "unsupported memory preset state format"))
  else if envelope_schema_version envelope =? 1 then decode_state_v1 (envelope_state envelope)
  else Err (unsupported_state_version (envelope_schema_version envelope)).
End storage.

(** ** Writers *)

Lemma to_writer_spec buffers : forall w max,
  len w <= max <= USIZE_MAX ->
  to_writer (mkWriter w max false) buffers =
  if len (w ++ concat buffers) <=? max then (mkWriter (w ++ concat buffers) max false, true)
  else (mkWriter (written (to_writer (mkWriter w max false) buffers).1) max true, false).
Proof.
  induction buffers as [|b bs IH]; intros w max Hw; cbn [to_writer concat].
  { rewrite app_nil_r. destruct (_ <=? _) eqn:Hl; [done|lia]. }
  pose proof (len_nonneg b). pose proof (len_nonneg (concat bs)).
  unfold write. cbn [written max_bytes exceeded]. unfold checked_add.
  destruct (len w + len b <=? USIZE_MAX) eqn:Hu.
  2:{ destruct (_ <=? max) eqn:Hl; [|done]. rewrite !len_app in Hl. lia. }
  destruct (len w + len b >? max) eqn:Hm.
  { destruct (len (w ++ b ++ concat bs) <=? max) eqn:Hl; [|done]. rewrite !len_app in Hl. lia. }
  rewrite IH by (rewrite len_app; lia). rewrite <- app_assoc. destruct (_ <=? max); done.
Qed.

(** ** Presets and their stored form *)

Section domain.
Context `{MemoryLib}.

Definition preset_ids_ok (p : MemoryPreset) : Prop := check_parsed_ids (from_domain p) = Ok tt.

Lemma BasisPoints_new_Ok v : v <= BASIS_POINTS_SCALE -> BasisPoints_new v = Ok v.
Proof. intros Hv. unfold BasisPoints_new. by rewrite gtb_false. Qed.

Lemma ref_round_trip r : ref_ok r -> ref_into_domain (ref_from_domain r) = Ok r.
Proof.
  intros Hr. unfold ref_into_domain, VersionedRef_new. cbn. unfold ref_ok in Hr.
  destruct (_ =? _) eqn:He; [lia|]. by destruct r.
Qed.

Lemma mix_round_trip m : mix_ok m -> mix_into_domain (mix_from_domain m) = Ok m.
Proof.
  intros (Hr & Hs & Hd & Hsum). unfold mix_into_domain. cbn [mix_from_domain mix1_recent mix1_similar mix1_random].
  rewrite !BasisPoints_new_Ok by lia. cbn [mbind result_bind]. unfold MemoryMix_new, checked_add.
  unfold BASIS_POINTS_SCALE, U32_MAX in *.
  destruct (_ <=? _) eqn:H1; [|lia]. cbn [mbind option_bind]. clear H1.
  destruct (_ <=? _) eqn:H2; [|lia]. cbn [ok_or mbind result_bind].
  rewrite Hsum. by destruct m.
Qed.

Lemma strategy_round_trip s : strategy_ok s -> strategy_into_domain (strategy_from_domain s) = Ok s.
Proof.
  destruct s as [|p]; [done|]. intros (Hc & Hm & Hs & Hr). cbn [strategy_from_domain strategy_into_domain].
  unfold hybrid_into_domain. cbn [hybrid_from_domain hybrid1_selection_mix hybrid1_embedding_profile
    hybrid1_query_message_count hybrid1_query_scope].
  rewrite mix_round_trip, ref_round_trip by done. cbn [mbind result_bind].
  unfold HybridRetrievalPolicy_new. destruct (_ || _) eqn:Hb; [zify_bool; lia|].
  destruct (mix_similar (selection_mix p) =? 0) eqn:H0; [lia|]. cbn [mbind result_bind].
  destruct p as [? [] ? ?]; done.
Qed.

Lemma model_round_trip m : model_ok m -> model_into_domain (model_from_domain m) = Ok m.
Proof.
  destruct m as [|r]; [done|]. intros Hr. cbn [model_from_domain model_into_domain].
  by rewrite ref_round_trip.
Qed.

Lemma insertion_round_trip p : insertion_ok p -> insertion_into_domain (insertion_from_domain p) = Ok p.
Proof.
  intros [Hb Hd]. unfold insertion_into_domain.
  cbn [insertion_from_domain insertion1_memory_budget insertion1_additional_detail_budget].
  rewrite !BasisPoints_new_Ok by lia. cbn [mbind result_bind]. unfold InsertionPolicy_new.
  destruct (_ =? _) eqn:He; [lia|]. by destruct p.
Qed.

Lemma summary_round_trip p : summary_ok p -> summary_into_domain (summary_from_domain p) = Ok p.
Proof.
  intros Hs. pose proof Hs as [_ _ Hb Hsep]. unfold summary_into_domain, ChunkSeparatorRegex_new.
  cbn [summary_from_domain summary1_chunk_separator summary1_summary_prompt summary1_resummary_prompt
       summary1_max_messages_per_summary summary1_skip_user_messages].
  destruct (separator_compiles _ Hsep) as [r Hr]. rewrite Hr. unfold mret at 1, result_ret. cbn [mbind result_bind].
  unfold SummaryPolicy_new. destruct p as [a b n u sep]. cbn [summary_prompt resummary_prompt
    max_messages_per_summary skip_user_messages chunk_separator] in *.
  by rewrite (proj2 (summary_policy_validate_iff (mkSummaryPolicy a b n u sep) ltac:(cbn; lia)) Hs).
Qed.

Lemma domain_round_trip p : preset_ok p -> into_domain (from_domain p) = Ok p.
Proof.
  intros Hp. pose proof Hp as [Hr Hl Hs Hpr Hm Hsum Hi]. unfold into_domain.
  cbn [from_domain preset1_strategy preset1_prompt_preset preset1_summary_model preset1_summary
       preset1_insertion preset1_id preset1_revision preset1_label preset1_preserve_compacted_orphans
       preset1_regeneration_regex].
  rewrite strategy_round_trip, ref_round_trip, model_round_trip, summary_round_trip, insertion_round_trip by done.
  cbn [mbind result_bind]. apply from_parts_iff; cbn; [lia| |].
  - by split; cbn; [apply built_strategy_iff|apply built_ref_iff|apply built_model_iff|apply built_summary_iff|apply built_insertion_iff].
  - split; [done|]. destruct p as [? ? ? ? ? ? ? ? ? []]; done.
Qed.

Lemma from_domain_typed p : preset_ok p -> wire_typed (from_domain p).
Proof.
  intros [Hr _ Hs Hpr Hm Hsum Hi]. unfold wire_typed, is_u16. destruct Hsum as [_ _ Hb _], Hi as [Hi1 Hi2].
  unfold insertion_ok, ref_ok, ref_typed, BASIS_POINTS_SCALE, MAX_MESSAGES_PER_SUMMARY, U16_MAX in *.
  cbn. split_and!; try lia.
  - destruct (strategy p) as [|h]; [done|]. destruct Hs as (Hc & (? & ? & ? & ?) & _ & Hp). cbn.
    unfold is_u16, ref_typed, ref_ok, MAX_QUERY_MESSAGE_COUNT, BASIS_POINTS_SCALE, U16_MAX in *. cbn. lia.
  - destruct (preset_summary_model p); [done|]. cbn in *. unfold ref_ok in Hm. unfold ref_typed. cbn. lia.
Qed.

Lemma insert_preset_ids_spec ids : forall seen,
  (exists seen', foldM_result insert_preset_id seen ids = Ok seen') <->
  NoDup ids /\ Forall (fun id => id ∉ seen) ids.
Proof.
  induction ids as [|i ids IH]; intros seen; cbn [foldM_result].
  { split; [intros _; split; constructor|]. intros _. by eexists. }
  unfold insert_preset_id at 2. rewrite Forall_cons_iff, list.NoDup_cons. case_bool_decide as Hi; cbn [mbind result_bind].
  { split; [by intros [? ?]|tauto]. }
  rewrite IH. split.
  - intros [Hnd Hf]. split_and!; try done.
    + intros Hin%list_elem_of_In. rewrite Forall_forall in Hf. apply (Hf i Hin). set_solver.
    + eapply Forall_impl; [|exact Hf]. set_solver.
  - intros [[Hi' Hnd] [_ Hf]]. split; [done|]. rewrite Forall_forall in *. intros j Hj.
    rewrite elem_of_union, elem_of_singleton. intros [->|?]; [by apply Hi', list_elem_of_In|by apply (Hf j)].
Qed.

Context `{PresetJson}.

(** Reading back the presets that were written, one after the other. *)
Lemma decode_presets_spec presets : forall raws ids acc,
  Forall (fun p => preset_ok p /\ preset_ids_ok p) presets ->
  mapM parse_preset raws = Some (map from_domain presets) ->
  NoDup (map preset_id presets) -> Forall (fun p => preset_id p ∉ ids) presets ->
  exists ids', foldM_result decode_preset_v1 (ids, acc) raws = Ok (ids', acc ++ presets).
Proof.
  induction presets as [|p presets IH]; intros raws ids acc Hok Hm Hnd Hf.
  { apply mapM_Some in Hm. inversion Hm; subst. cbn [foldM_result]. rewrite app_nil_r. by eexists. }
  apply mapM_Some in Hm. cbn [map] in Hm. inversion Hm as [|raw wire raws' wires Hp Hm']; subst.
  apply Forall_cons_iff in Hok as [[Hp1 Hp2] Hok]. cbn [map] in Hnd. apply list.NoDup_cons in Hnd as [Hi Hnd].
  apply Forall_cons_iff in Hf as [Hfi Hf]. cbn [foldM_result]. unfold decode_preset_v1 at 2, read_preset.
  rewrite Hp. cbn [ok_or mbind result_bind]. unfold preset_ids_ok in Hp2. rewrite Hp2.
  cbn [map_err mbind result_bind mret result_ret]. unfold insert_preset_id.
  change (preset1_id (from_domain p)) with (preset_id p). rewrite bool_decide_false by done.
  cbn [mbind result_bind]. rewrite domain_round_trip by done. cbn [mbind result_bind mret result_ret].
  destruct (IH raws' ({[preset_id p]} ∪ ids) (acc ++ [p])) as [ids' Hfold]; try done.
  - apply mapM_Some. done.
  - rewrite Forall_forall in *. intros q Hq. rewrite elem_of_union, elem_of_singleton.
    intros [Heq|?]; [|by apply (Hf q)]. apply Hi. rewrite <- Heq. by apply list_elem_of_fmap_2, list_elem_of_In.
  - exists ids'. rewrite Hfold, <- app_assoc. done.
Qed.

Lemma serialize_iff presets bs :
  serialize_preset_state presets = Ok bs <->
  len presets <= MAX_MEMORY_PRESETS /\ NoDup (map preset_id presets) /\
  bs = concat (envelope_buffers (mkEnvelope MEMORY_PRESET_STATE_FORMAT MEMORY_PRESET_STATE_SCHEMA_VERSION
                                   (map from_domain presets))) /\
  len bs <= MAX_MEMORY_PRESET_STATE_BYTES.
Proof.
  unfold serialize_preset_state, ensure_preset_count, reject_duplicate_ids.
  set (buffers := envelope_buffers _).
  pose proof (to_writer_spec buffers [] MAX_MEMORY_PRESET_STATE_BYTES ltac:(done)) as Hw. cbn [app] in Hw.
  pose proof (insert_preset_ids_spec (map preset_id presets) ∅) as Hids.
  assert (Hempty : Forall (fun id => id ∉ (∅ : gset str)) (map preset_id presets)).
  { apply Forall_forall. set_solver. }
  destruct (len presets >? MAX_MEMORY_PRESETS) eqn:Hc; cbn [mbind result_bind]; [split; [done|lia]|].
  destruct (foldM_result insert_preset_id ∅ (map preset_id presets)) as [seen|e] eqn:Hf; cbn [mbind result_bind].
  2:{ split; [done|]. intros (_ & Hnd & _). by destruct (proj2 Hids (conj Hnd Hempty)). }
  destruct (proj1 Hids (ex_intro _ seen eq_refl)) as [Hnd _]. rewrite Hw.
  destruct (len (concat buffers) <=? _) eqn:Hl; cbn [exceeded written].
  - split; [intros [= <-]; split_and!; try done; lia|]. by intros (_ & _ & -> & _).
  - split; [done|]. intros (_ & _ & -> & ?). lia.
Qed.
End domain.

(** A stored preset state is exact: it is written exactly when there are at most 256
    presets with distinct identifiers and the document fits its limit, and whatever was
    written loads again as the same presets, with their revisions. *)
Theorem preset_state_round_trip `{MemoryLib} `{PresetJsonLaws} (presets : list MemoryPreset) (bs : bytes) :
  Forall (fun p => preset_ok p /\ preset_ids_ok p) presets ->
  serialize_preset_state presets = Ok bs ->
  deserialize_preset_state bs = Ok presets /\ len bs <= MAX_MEMORY_PRESET_STATE_BYTES.
Proof.
  intros Hok (Hc & Hnd & Hbs & Hl)%serialize_iff. split; [|done].
  unfold deserialize_preset_state, ensure_state_size. rewrite gtb_false by done. cbn [mbind result_bind].
  destruct (parse_written (mkEnvelope MEMORY_PRESET_STATE_FORMAT MEMORY_PRESET_STATE_SCHEMA_VERSION
              (map from_domain presets))) as (raw & raws & Hp & Hs & Hm).
  { cbn [envelope_state]. apply Forall_map. eapply Forall_impl; [|exact Hok].
    intros p [Hp _]. by apply from_domain_typed. }
  rewrite <- Hbs in Hp. rewrite Hp. cbn [ok_or mbind result_bind envelope_format envelope_schema_version envelope_state].
  rewrite str_eqb_refl. cbn [negb]. change (MEMORY_PRESET_STATE_SCHEMA_VERSION =? 1) with true. cbn iota.
  unfold decode_state_v1. rewrite Hs. cbn [ok_or mbind result_bind]. cbn [envelope_state] in Hm.
  assert (Hlen : len raws = len presets).
  { apply length_mapM in Hm. rewrite length_map in Hm. unfold len. lia. }
  unfold ensure_preset_count. rewrite Hlen, gtb_false by done. cbn [mbind result_bind].
  destruct (decode_presets_spec presets raws ∅ [] Hok Hm Hnd) as [ids' Hf]; [apply Forall_forall; set_solver|].
  by rewrite Hf.
Qed.

(** ** Loading any document *)

Section loading.
Context `{MemoryLib}.

Lemma ref_into_domain_ok r v : ref_into_domain r = Ok v -> ref_typed r -> ref_ok v.
Proof. intros Hr Ht. by apply VersionedRef_new_ok in Hr as [_ Hok]. Qed.

Lemma strategy_into_domain_ok p s :
  strategy_into_domain (preset1_strategy p) = Ok s -> wire_typed p -> strategy_ok s.
Proof.
  intros Hs (_ & Hw & _). destruct (preset1_strategy p) as [|h]; [by injection Hs as <-|].
  destruct Hw as (Hc & Hr & Hsi & Hra & Hp). unfold is_u16 in *. cbn [strategy_into_domain] in Hs.
  apply bind_Ok in Hs as (policy & Hh & Hs). injection Hs as <-. unfold hybrid_into_domain in Hh.
  apply bind_Ok in Hh as (mix & Hm & Hh). apply bind_Ok in Hh as (profile & Hpr & Hh).
  unfold mix_into_domain in Hm. apply bind_Ok in Hm as (a & [-> Ha]%BasisPoints_new_ok & Hm).
  apply bind_Ok in Hm as (b & [-> Hb]%BasisPoints_new_ok & Hm).
  apply bind_Ok in Hm as (c & [-> Hc']%BasisPoints_new_ok & Hm).
  apply MemoryMix_new_ok in Hm as [_ Hm]; [|lia..]. apply ref_into_domain_ok in Hpr; [|done].
  by apply HybridRetrievalPolicy_new_ok in Hh as [_ Hh]; [|lia|..].
Qed.

Lemma into_domain_ok p preset :
  into_domain p = Ok preset -> wire_typed p -> preset_ok preset /\ preset_id preset = preset1_id p.
Proof.
  intros Hp Ht. pose proof Ht as (Hr & _ & Hpr & Hmo & Hb & Hi1 & Hi2). unfold is_u16 in *. unfold into_domain in Hp.
  apply bind_Ok in Hp as (s & Hs & Hp). apply bind_Ok in Hp as (pr & Hpp & Hp).
  apply bind_Ok in Hp as (m & Hm & Hp). apply bind_Ok in Hp as (sum & Hsum & Hp).
  apply bind_Ok in Hp as (ins & Hins & Hp).
  apply strategy_into_domain_ok in Hs; [|done]. apply ref_into_domain_ok in Hpp; [|done].
  assert (Hm' : model_ok m).
  { destruct (preset1_summary_model p) as [|r]; [by injection Hm as <-|]. cbn [model_into_domain] in Hm.
    apply bind_Ok in Hm as (v & Hv & Hm). injection Hm as <-. by apply ref_into_domain_ok in Hv. }
  assert (Hins' : insertion_ok ins).
  { unfold insertion_into_domain in Hins. apply bind_Ok in Hins as (a & [-> Ha]%BasisPoints_new_ok & Hins).
    apply bind_Ok in Hins as (b & [-> Hb']%BasisPoints_new_ok & Hins).
    by apply InsertionPolicy_new_ok in Hins as [_ ?]; [|lia..]. }
  assert (Hsum' : built_summary sum).
  { unfold summary_into_domain in Hsum. apply bind_Ok in Hsum as (sep & Hsep & Hsum). eapply build_summary; [exact Hb|exact Hsep|exact Hsum]. }
  apply from_parts_iff in Hp as (Hok & _ & Hid & _); [done|done|].
  by split; cbn; [apply built_strategy_iff|apply built_ref_iff|apply built_model_iff| |apply built_insertion_iff].
Qed.

Context `{PresetJsonLaws}.

Lemma decode_presets_ok raws : forall ids acc ids' presets,
  foldM_result decode_preset_v1 (ids, acc) raws = Ok (ids', presets) ->
  Forall preset_ok acc -> NoDup (map preset_id acc) -> (forall x, x ∈ ids <-> x ∈ map preset_id acc) ->
  Forall preset_ok presets /\ NoDup (map preset_id presets) /\ length presets = (length acc + length raws)%nat.
Proof.
  induction raws as [|raw raws IH]; intros ids acc ids' presets Hf Hok Hnd Hids; cbn [foldM_result] in Hf.
  { injection Hf as _ <-. cbn. split_and!; (done || lia). }
  apply bind_Ok in Hf as ([ids1 acc1] & Hstep & Hf). unfold decode_preset_v1 in Hstep.
  apply bind_Ok in Hstep as (wire & Hread & Hstep). apply bind_Ok in Hstep as (ids2 & Hi & Hstep).
  apply bind_Ok in Hstep as (p & Hp & Hstep). injection Hstep as -> <-.
  unfold read_preset in Hread. apply bind_Ok in Hread as (w & Hw%ok_or_Ok%parse_preset_typed & Hread).
  apply bind_Ok in Hread as ([] & _ & Hread). injection Hread as ->.
  apply into_domain_ok in Hp as [Hpok Hpid]; [|done]. unfold insert_preset_id in Hi.
  case_bool_decide as Hin; [done|]. injection Hi as <-. rewrite <- Hpid in Hin.
  apply IH in Hf as (Hall & Hdist & Hcount).
  - rewrite length_app in Hcount. cbn in *. split_and!; try done. lia.
  - apply Forall_app. split; [done|by constructor].
  - rewrite map_app. apply list.NoDup_app. split; [done|]. split; [|apply NoDup_singleton].
    intros x Hx. cbn [map]. rewrite list_elem_of_singleton. intros ->. by apply Hin, Hids.
  - intros x. rewrite <- Hpid, map_app, elem_of_union, elem_of_singleton, elem_of_app, Hids. cbn [map].
    rewrite list_elem_of_singleton. tauto.
Qed.
End loading.

(** Nothing invalid can be loaded: whatever the stored bytes are, the presets that
    come out are well formed, have distinct identifiers and are at most 256. *)
Theorem loaded_presets_are_valid `{MemoryLib} `{PresetJsonLaws} (bs : bytes) (presets : list MemoryPreset) :
  deserialize_preset_state bs = Ok presets ->
  Forall preset_ok presets /\ NoDup (map preset_id presets) /\ len presets <= MAX_MEMORY_PRESETS.
Proof.
  unfold deserialize_preset_state. intros Hd. apply bind_Ok in Hd as ([] & _ & Hd).
  apply bind_Ok in Hd as (envelope & _ & Hd). destruct (negb _); [done|]. destruct (_ =? _); [|done].
  unfold decode_state_v1 in Hd. apply bind_Ok in Hd as (raws & _ & Hd). apply bind_Ok in Hd as ([] & Hc & Hd).
  apply bind_Ok in Hd as ([ids' ps] & Hf & Hd). injection Hd as ->.
  unfold ensure_preset_count in Hc. destruct (_ >? _) eqn:Hl; [done|].
  apply decode_presets_ok in Hf as (Hall & Hdist & Hcount); [|constructor|constructor|set_solver].
  split_and!; try done. unfold len in *. cbn in Hcount. lia.
Qed.
