(* ===== verification/MemoryExamples.v ===== *)
(** * Memory: one chat from messages to prompt text

    A small chat is summarised, its summaries are summarised again, selected under a
    budget and turned into text, with concrete instances of the parameters; the
    theorems of the memory files are applied to it. *)

From stdpp Require Import gmap sorting countable.
From S2P Require Import Prelude Bytes Utf8 Sorting Float64 ProviderConfig PromptTemplate PromptSchema PromptRegexFacts PromptValidate PromptExamples MemoryConfig MemoryBudget MemoryChunk MemorySummary MemorySummaryFacts MemoryRetrieval MemoryRetrievalFacts MemoryStorage.

Module MemoryExample.
Import PromptExample ChunkExamples.

Definition or_else {A} (d : A) (r : MemResult A) : A := match r with Ok a => a | Err _ => d end.

(** ** A preset *)

Definition memory_mix : MemoryMix := mkMix 3333 3333 3334.

Definition draft : MemoryPresetDraft :=
  mkDraft (lit "Memory")
    (HybridRetrieval (mkHybrid 4 Conversation memory_mix (mkRef (lit "embedding") 1)))
    (mkRef (lit "prompt") 1) ActiveChatModel
    (mkSummaryPolicy (lit "Summarize") (lit "Resummarize") 2 false (lit "|"))
    (mkInsertion 2500 4000) false ApplyPinnedPromptResponseRules.

Definition memory_preset : MemoryPreset :=
  Eval vm_compute in or_else BudgetExamples.preset (create (lit "memory") draft).

Example memory_preset_created : create (lit "memory") draft = Ok memory_preset.
Proof. reflexivity. Qed.

Lemma draft_ok : draft_built draft.
Proof.
  assert (Hr : forall id, built_ref (mkRef id 1)) by (intros id; by apply (build_ref id 1)).
  assert (Hs : forall v, 0 <= v <= BASIS_POINTS_SCALE -> built_share v) by (intros v; apply built_share_iff).
  split; cbn [draft draft_strategy draft_prompt_preset draft_summary_model draft_summary draft_insertion].
  - apply (build_hybrid 4 Conversation 3333 3333 3334 memory_mix (mkRef (lit "embedding") 1)); try done; by apply Hs.
  - apply Hr.
  - constructor.
  - by apply (build_summary (lit "Summarize") (lit "Resummarize") 2 false (lit "|") (lit "|")).
  - apply (build_insertion 2500 4000); [by apply Hs..|done].
Qed.

Definition edited_preset : MemoryPreset :=
  Eval vm_compute in or_else memory_preset (updated memory_preset 1 draft).

Lemma edited_history : history (lit "memory") edited_preset 1.
Proof. exact (history_update _ memory_preset 0 1 draft _ (history_create _ draft _ draft_ok eq_refl) draft_ok eq_refl). Qed.


Lemma memory_preset_ok : preset_ok memory_preset.
Proof. apply (history_inv (lit "memory") memory_preset 0), (history_create _ draft); [apply draft_ok|reflexivity]. Qed.

(** ** A session *)

(** Responses have their gold counted. *)
Definition pinned_prompt : PromptPreset :=
  mkPreset (lit "Story") [Raw (lit "main") true PSystem (Some Main) (lit "You are ${char}.")] no_sampling
    (mkAdvanced (mkTemplateSettings None None [(lit "char", lit "Mira")]) []
       [mkRule (lit "money") true TargetResponse (lit "gold") (lit "coins") every_match] []).

Definition chat : str := lit "chat-1".
Definition card : str := lit "card-1".

Definition no_binding : MemorySessionBinding := mkBinding [] [] 0 memory_preset (mkRef [] 0) [].

Definition binding : MemorySessionBinding :=
  Eval vm_compute in
    or_else no_binding (MemorySessionBinding_new chat card 1 memory_preset (mkRef (lit "model") 1) pinned_prompt).

Example binding_made :
  MemorySessionBinding_new chat card 1 memory_preset (mkRef (lit "model") 1) pinned_prompt = Ok binding.
Proof. reflexivity. Qed.

Definition message (id : string) (sequence : Z) (role : MessageRole) (content : string) : MemorySourceMessage :=
  mkSourceMessage (lit id) chat sequence role (lit content).

Definition messages : list MemorySourceMessage :=
  [message "m1" 1 User "Hello there."; message "m2" 2 Assistant "Hello.";
   message "m3" 5 Assistant "We found gold."].

Lemma messages_typed : Forall message_typed messages.
Proof. repeat constructor; vm_compute; discriminate. Qed.

Definition jobs : list SummaryJob :=
  Eval vm_compute in or_else [] (plan_initial_summary_jobs binding chat card messages).

Example jobs_planned : plan_initial_summary_jobs binding chat card messages = Ok jobs.
Proof. vm_compute. reflexivity. Qed.

Lemma plan_partitions_messages_witness :
  concat (chunks 2 messages) = messages /\ map (fun j => (job_first_sequence j, job_last_sequence j)) jobs = [(1, 2); (5, 5)] /\
  StronglySorted (fun j k => job_last_sequence j < job_first_sequence k) jobs.
Proof.
  destruct (plan_partitions_messages binding chat card messages) as (Hcat & _ & _ & Hjobs); [discriminate|].
  split; [exact Hcat|]. split; [reflexivity|]. apply (Hjobs jobs). reflexivity.
Defined.

Lemma first_job : exists job, jobs !! 0%nat = Some job.
Proof. eexists. reflexivity. Qed.

Lemma changed_source_is_detected_witness :
  exists job, jobs !! 0%nat = Some job /\
    verify_authoritative_source job binding (AuthMessages (take 2 messages)) = Ok tt.
Proof.
  destruct first_job as [job Hjob]. exists job. split; [exact Hjob|].
  pose proof (changed_source_is_detected binding chat card messages jobs ltac:(discriminate) eq_refl messages_typed) as Hall.
  destruct (Forall2_lookup_r _ _ _ _ _ Hall Hjob) as (batch & Hb & Hv & _).
  injection Hb as <-. exact Hv.
Defined.

(** ** Artifacts *)

Definition no_job : SummaryJob := mkJob (session_of no_binding) Initial [] 0 0 (JobMessages []) [].
Definition no_artifact : SummaryArtifact := mkArtifact [] 0 (session_of no_binding) Leaf 0 0 [] [] Attached.

(** The output of a job, regenerated, as an artifact. *)
Definition summarised (job : SummaryJob) (source : AuthoritativeSummarySource) (id output : str) :
    MemResult SummaryArtifact :=
  processed ← process_summary_output binding chat card job (mkOutput source pinned_prompt Regeneration output);
  SummaryArtifact_new binding chat card processed id.

Definition candidate_output (source : AuthoritativeSummarySource) (output : string) : SummaryOutputCandidate :=
  mkOutput source pinned_prompt Regeneration (lit output).

Definition job_1 : SummaryJob := Eval vm_compute in default no_job (jobs !! 0%nat).
Definition job_2 : SummaryJob := Eval vm_compute in default no_job (jobs !! 1%nat).

Definition leaf_1 : SummaryArtifact :=
  Eval vm_compute in or_else no_artifact
    (summarised job_1 (AuthMessages (take 2 messages)) (lit "leaf-1") (lit "They greeted.")).

Definition leaf_2 : SummaryArtifact :=
  Eval vm_compute in or_else no_artifact
    (summarised job_2 (AuthMessages (drop 2 messages)) (lit "leaf-2") (lit "They found gold.")).

Definition resummary_job : SummaryJob :=
  Eval vm_compute in or_else no_job (plan_resummary_job binding chat card [leaf_1]).

Definition consolidated_1 : SummaryArtifact :=
  Eval vm_compute in or_else no_artifact
    (summarised resummary_job (AuthArtifacts [leaf_1]) (lit "sum-1") (lit "A greeting.")).

Example leaf_2_text : artifact_content leaf_2 = lit "They found coins.".
Proof. reflexivity. Qed.

Lemma summarised_ok job source id output a :
  summarised job source id output = Ok a ->
  exists processed,
    process_summary_output binding chat card job (mkOutput source pinned_prompt Regeneration output) = Ok processed /\
    SummaryArtifact_new binding chat card processed id = Ok a.
Proof. unfold summarised. intros (p & Hp & Ha)%bind_Ok. by exists p. Qed.

Lemma leaf_reachable (job : SummaryJob) source id output a :
  job ∈ jobs -> summarised job source id output = Ok a -> reachable a.
Proof.
  intros Hj (p & Hp & Ha)%summarised_ok.
  eapply (reach_initial binding chat card messages jobs job); [discriminate|vm_compute; reflexivity|done|exact Hp|exact Ha].
Qed.

Lemma leaf_1_reachable : reachable leaf_1.
Proof.
  apply (leaf_reachable job_1 (AuthMessages (take 2 messages)) (lit "leaf-1") (lit "They greeted.")).
  - left.
  - vm_compute. reflexivity.
Qed.

Lemma leaf_2_reachable : reachable leaf_2.
Proof.
  apply (leaf_reachable job_2 (AuthMessages (drop 2 messages)) (lit "leaf-2") (lit "They found gold.")).
  - right. left.
  - vm_compute. reflexivity.
Qed.

Lemma consolidated_1_reachable : reachable consolidated_1.
Proof.
  destruct (summarised_ok resummary_job (AuthArtifacts [leaf_1]) (lit "sum-1") (lit "A greeting.") consolidated_1)
    as (p & Hp & Ha); [vm_compute; reflexivity|].
  eapply (reach_resummary binding chat card [leaf_1] resummary_job); [|vm_compute; reflexivity|exact Hp|exact Ha].
  intros s ->%list_elem_of_singleton. exact leaf_1_reachable.
Qed.

Definition deleted_1 : SummaryArtifact := Eval vm_compute in or_else no_artifact (invalidated_by_deletion leaf_1).

Lemma artifacts_well_formed_witness :
  artifact_ok deleted_1 /\ covers_leaf consolidated_1 (lit "leaf-1") = true /\
  lit "leaf-1" ∈ covered_leaf_artifact_ids consolidated_1.
Proof.
  split; [|split; [reflexivity|]].
  - apply (artifacts_well_formed deleted_1). apply (reach_deleted leaf_1); [exact leaf_1_reachable|reflexivity].
  - apply (proj2 (artifacts_well_formed consolidated_1 consolidated_1_reachable) (lit "leaf-1")). reflexivity.
Defined.

Definition processed_2 : ProcessedSummary :=
  Eval vm_compute in or_else (mkProcessed no_job [])
    (process_summary_output binding chat card job_2
       (candidate_output (AuthMessages (drop 2 messages)) "They found gold.")).

Lemma processed_2_made :
  process_summary_output binding chat card job_2
    (candidate_output (AuthMessages (drop 2 messages)) "They found gold.") = Ok processed_2.
Proof. vm_compute. reflexivity. Qed.

Lemma leaf_2_made : SummaryArtifact_new binding chat card processed_2 (lit "leaf-2") = Ok leaf_2.
Proof. vm_compute. reflexivity. Qed.

Lemma summary_provenance_witness :
  artifact_kind leaf_2 = Leaf /\ first_source_sequence leaf_2 = 5 /\
  exists rs, artifact_content leaf_2 = transform rs (lit "They found gold.").
Proof.
  destruct (summary_provenance binding chat card job_2
              (candidate_output (AuthMessages (drop 2 messages)) "They found gold.") processed_2
              (lit "leaf-2") leaf_2 processed_2_made leaf_2_made)
    as (_ & _ & _ & _ & Hfirst & _ & _ & _ & Hkind & Hout).
  split; [exact (proj1 Hkind)|]. split; [exact Hfirst|].
  destruct Hout as (rs & _ & Hrs). exists rs. exact Hrs.
Defined.

(** ** A selection *)

Definition budget_input : MemoryBudgetInput := mkBudgetInput 10000 2000 7000.

Lemma budget_input_ok : input_ok budget_input.
Proof. vm_compute. repeat split; discriminate. Qed.

Definition query_plan : EmbeddingQueryPlan :=
  Eval vm_compute in or_else (mkQueryPlan (session_of no_binding) (mkRef [] 0) [] [])
    (build_embedding_query binding chat card messages).

Definition query : AuthoritativeEmbeddingQuery := QueryHybrid query_plan messages.

Definition vector (x y : Z) : EmbeddingVector := mkVector (mkRef (lit "embedding") 1) [f64_of_Z x; f64_of_Z y].

Definition no_match : EmbeddingMatch := mkMatch [] 0 (scope_of no_binding) (mkRef [] 0) [] [] 0.

Definition evidence (a : SummaryArtifact) (x y : Z) : MemResult EmbeddingMatch :=
  e ← EmbeddingArtifact_new binding chat card a (vector x y);
  EmbeddingMatch_new binding chat card query_plan messages (vector 3 4) e.

Definition match_1 : EmbeddingMatch := Eval vm_compute in or_else no_match (evidence leaf_1 4 3).
Definition match_2 : EmbeddingMatch := Eval vm_compute in or_else no_match (evidence leaf_2 3 4).

(** [3 4] and [4 3] have cosine 24/25. *)
Example scores : (match_score match_1, match_score match_2) = (960000, 1000000).
Proof. reflexivity. Qed.

Definition candidates : list MemoryCandidate :=
  [mkCandidate leaf_1 50 (Some match_1); mkCandidate consolidated_1 100 None;
   mkCandidate leaf_2 60 (Some match_2)].

Definition selection : MemorySelection :=
  Eval vm_compute in or_else (MemoryRetrieval.mkSelection (scope_of no_binding) budget_input None [] 0)
    (select_memories binding chat card budget_input query candidates).

(** The first leaf is covered by the summary that was chosen. *)
Example selected_ids :
  map (fun s => (selected_id s, selected_bucket s)) (selected selection) =
  [(lit "sum-1", BucketConsolidated); (lit "leaf-2", BucketRecent)].
Proof. reflexivity. Qed.

Lemma selection_made : select_memories binding chat card budget_input query candidates = Ok selection.
Proof. vm_compute. reflexivity. Qed.

Lemma candidates_typed : Forall candidate_typed candidates.
Proof. repeat constructor; vm_compute; discriminate. Qed.

Lemma candidate_artifacts_ok : Forall (fun c => artifact_ok (candidate_artifact c)) candidates.
Proof.
  unfold candidates. rewrite !Forall_cons_iff. cbn [candidate_artifact].
  split_and!; [exact (reachable_ok _ leaf_1_reachable)|exact (reachable_ok _ consolidated_1_reachable)
              |exact (reachable_ok _ leaf_2_reachable)|constructor].
Qed.

Lemma selection_within_budget_witness :
  selection_tokens selection = 160 /\ selection_tokens selection <= 1000.
Proof.
  split; [reflexivity|].
  apply (selection_within_budget binding chat card budget_input query candidates selection memory_preset_ok
           budget_input_ok candidates_typed selection_made).
Defined.

Lemma selection_is_sound_and_maximal_witness :
  Forall (fun x => exists c, c ∈ candidates /\ x = selected_of c (selected_bucket x)) (selected selection).
Proof.
  apply list.Forall_forall. intros x Hx.
  destruct (selection_is_sound_and_maximal binding chat card budget_input query candidates selection
    memory_preset_ok budget_input_ok candidates_typed candidate_artifacts_ok selection_made) as [Hsound _].
  destruct (Hsound x Hx) as (c & Hc & Heq & _). exists c. split; assumption.
Defined.

Lemma selection_succeeds_iff_witness :
  len candidates <= MAX_MEMORY_CANDIDATES /\ scores_present binding budget_input candidates.
Proof.
  destruct (proj1 (selection_succeeds_iff binding chat card budget_input query candidates memory_preset_ok
    budget_input_ok candidates_typed) (ex_intro _ selection selection_made)) as (_ & _ & Hl & Hs).
  split; assumption.
Defined.

Definition snapshot : list SummaryArtifact := map candidate_artifact candidates.

Definition memory_text : str :=
  lit "A greeting." ++ BLANK_LINE ++ lit "They found coins.".

Lemma materialized : materialize selection binding chat card budget_input query snapshot = Ok memory_text.
Proof. vm_compute. reflexivity. Qed.

Lemma materialized_text_is_current_witness : len memory_text <= 1024 * 1024 /\ NUL ∉ memory_text.
Proof.
  destruct (materialized_text_is_current selection binding chat card budget_input query snapshot memory_text
    materialized) as (_ & _ & _ & _ & l & _ & _ & _ & Hl & Hn).
  split; assumption.
Defined.

Lemma selection_materializes_witness : exists l, Forall2 (unchanged binding) (selected selection) l.
Proof.
  destruct (selection_materializes binding chat card budget_input query candidates selection memory_preset_ok
    budget_input_ok candidates_typed candidate_artifacts_ok selection_made) as (l & Hl & _).
  exists l. exact Hl.
Defined.

(** An artifact deleted in the meantime makes the selection stale. *)
Example stale_selection :
  materialize selection binding chat card budget_input query
    [leaf_1; consolidated_1; or_else no_artifact (invalidated_by_deletion leaf_2)] =
  Err (MemRetrievalUnavailable "a selected artifact changed or was invalidated before prompt application").
Proof. vm_compute. reflexivity. Qed.
End MemoryExample.

(** ** Storing presets

    A document format that is not JSON but has its laws: everything is numbered by
    [Countable] and written in binary. *)

Module StorageExample.
Import PromptExample ChunkExamples MemoryExample.

(** A preset as a list of strings and numbers. *)
Definition Fields : Type := list (str + Z).

Definition ref_fields (r : RefV1) : Fields := [inl (ref1_id r); inr (ref1_revision r)].

Definition of_bool (b : bool) : str + Z := inr (if b then 1 else 0).
Definition to_bool (z : Z) : bool := z =? 1.

Definition to_fields (p : MemoryPresetV1) : Fields :=
  let s := preset1_summary p in
  [inl (preset1_id p); inr (preset1_revision p); inl (preset1_label p)] ++
  ref_fields (preset1_prompt_preset p) ++
  [inl (summary1_summary_prompt s); inl (summary1_resummary_prompt s);
   inr (summary1_max_messages_per_summary s); of_bool (summary1_skip_user_messages s);
   inl (summary1_chunk_separator s); inr (insertion1_memory_budget (preset1_insertion p));
   inr (insertion1_additional_detail_budget (preset1_insertion p));
   of_bool (preset1_preserve_compacted_orphans p);
   of_bool match preset1_regeneration_regex p with SkipV1 => true | _ => false end] ++
  match preset1_summary_model p with
  | ActiveChatModelV1 => [inr 0; inr 0]
  | ModelPresetV1 r => ref_fields r
  end ++
  match preset1_strategy p with
  | RollingSummaryV1 => []
  | HybridRetrievalV1 h =>
      let m := hybrid1_selection_mix h in
      [inr (hybrid1_query_message_count h);
       of_bool match hybrid1_query_scope h with ConversationV1 => true | _ => false end;
       inr (mix1_recent m); inr (mix1_similar m); inr (mix1_random m)] ++
      ref_fields (hybrid1_embedding_profile h)
  end.

Definition strategy_of (fields : Fields) : option MemoryStrategyV1 :=
  match fields with
  | [] => Some RollingSummaryV1
  | [inr c; inr conv; inr r; inr s; inr x; inl id; inr rev] =>
      Some (HybridRetrievalV1 (mkHybridV1 c (if to_bool conv then ConversationV1 else AssistantOnlyV1)
                                 (mkMixV1 r s x) (mkRefV1 id rev)))
  | _ => None
  end.

Definition model_of (id : str + Z) (rev : Z) : SummaryModelRefV1 :=
  match id with inl id => ModelPresetV1 (mkRefV1 id rev) | inr _ => ActiveChatModelV1 end.

Definition of_fields (fields : Fields) : option MemoryPresetV1 :=
  match fields with
  | inl id :: inr rev :: inl label :: inl pid :: inr prev :: inl sp :: inl rp :: inr n :: inr u :: inl sep ::
    inr b :: inr d :: inr orphans :: inr skip :: mid :: inr mrev :: rest =>
      strategy ← strategy_of rest;
      Some (mkPresetV1 id rev label strategy (mkRefV1 pid prev) (model_of mid mrev)
              (mkSummaryV1 sp rp n (to_bool u) sep) (mkInsertionV1 b d) (to_bool orphans)
              (if to_bool skip then SkipV1 else ApplyPinnedPromptResponseRulesV1))
  | _ => None
  end.

Lemma of_to_fields p : of_fields (to_fields p) = Some p.
Proof. destruct p as [? ? ? [|[? [] [] []]] [] [|[]] [? ? ? [] ?] [] [] []]; done. Qed.

#[local] Instance wire_typed_dec p : Decision (wire_typed p).
Proof.
  unfold wire_typed, strategy_typed, model_typed, ref_typed, is_u16.
  destruct (preset1_strategy p), (preset1_summary_model p); apply _.
Defined.

(** Binary digits of a number, least significant first. *)
Fixpoint digits (p : positive) : str :=
  match p with
  | xH => []
  | xO p' => byte_of 48 :: digits p'
  | xI p' => byte_of 49 :: digits p'
  end.

Fixpoint number (s : str) : positive :=
  match s with
  | [] => xH
  | b :: s' => if byte_eqb b (byte_of 48) then xO (number s') else xI (number s')
  end.

Lemma number_digits p : number (digits p) = p.
Proof. induction p as [p IH|p IH|]; cbn; [by rewrite IH..|done]. Qed.

Definition put `{Countable A} (a : A) : str := digits (encode a).
Definition take_back `{Countable A} (s : str) : option A := decode (number s).

Lemma take_back_put `{Countable A} (a : A) : take_back (put a) = Some a.
Proof. unfold take_back, put. by rewrite number_digits, decode_encode. Qed.

Definition checked_preset (s : str) : option MemoryPresetV1 :=
  fields ← (take_back s : option Fields);
  p ← of_fields fields;
  guard (wire_typed p);; Some p.

(** The first list of an envelope is its header. *)
#[export] Instance binary_json : PresetJson := {
  envelope_buffers e :=
    [put ([inl (envelope_format e); inr (envelope_schema_version e)] :: map to_fields (envelope_state e))];
  parse_envelope bs :=
    lists ← (take_back bs : option (list Fields));
    match lists with
    | [inl format; inr version] :: presets => Some (mkEnvelope format version (put presets))
    | _ => None
    end;
  parse_state raw := map put <$> (take_back raw : option (list Fields));
  parse_preset := checked_preset;
}.

#[export] Instance binary_json_laws : PresetJsonLaws.
Proof.
  split.
  - intros e He. exists (put (map to_fields (envelope_state e))), (map put (map to_fields (envelope_state e))).
    cbn [envelope_buffers parse_envelope parse_state parse_preset binary_json concat]. rewrite app_nil_r.
    rewrite take_back_put. split; [done|]. rewrite take_back_put. split; [done|].
    rewrite map_map. apply mapM_Some, Forall2_fmap_l. induction He as [|p l Hp Hl IH]; constructor; [|done].
    change (checked_preset (put (to_fields p)) = Some p). unfold checked_preset. rewrite take_back_put.
    cbn [mbind option_bind]. rewrite of_to_fields. cbn [mbind option_bind]. by rewrite option_guard_True.
  - intros raw p. cbn [parse_preset binary_json]. unfold checked_preset.
    destruct (take_back raw) as [fields|]; [|done]. cbn [mbind option_bind].
    destruct (of_fields fields) as [q|]; [|done]. cbn. case_guard; [|done]. by intros [= <-].
Qed.

Definition stored : bytes := or_else [] (serialize_preset_state [edited_preset]).

Lemma stored_made : serialize_preset_state [edited_preset] = Ok stored.
Proof. vm_compute. reflexivity. Qed.

Lemma stored_presets_ok : Forall (fun p => preset_ok p /\ preset_ids_ok p) [edited_preset].
Proof.
  constructor; [|constructor]. split; [exact (proj1 (history_inv _ _ _ edited_history))|reflexivity].
Qed.

Lemma preset_state_round_trip_witness : deserialize_preset_state stored = Ok [edited_preset].
Proof. exact (proj1 (preset_state_round_trip [edited_preset] stored stored_presets_ok stored_made)). Defined.

Lemma stored_loads : deserialize_preset_state stored = Ok [edited_preset].
Proof. vm_compute. reflexivity. Qed.

Lemma loaded_presets_are_valid_witness : Forall preset_ok [edited_preset].
Proof. exact (proj1 (loaded_presets_are_valid stored [edited_preset] stored_loads)). Defined.
End StorageExample.
