(* ===== verification/Persona.v ===== *)
(** * Personas: the catalog

    Models [crates/lorepia-persona/src/id.rs], [error.rs] and [catalog.rs]: personas and
    their revisions, the global default, the policies of characters, and the persona
    that is resolved for one play and put into the prompt.

    A method on [&mut self] is a computation in [ST] over the catalog.  A [BTreeMap] is
    a [gmap]; where the source iterates over it, the entries are sorted by key.  The
    theorems over histories of operations follow the definitions. *)

From stdpp Require Import gmap strings pretty.
From stdpp Require Import gmap.
From S2P Require Import Prelude Sorting Bytes Utf8 PromptValidate PromptCompile.

(** ** Errors (error.rs); the payload of [Json], which is [serde_json]'s, is left out *)

Inductive PersonaError : Type :=
  | PersonaInvalidField (field reason : string)
  | PersonaTooManyItems (field : string) (max : Z)
  | PersonaPayloadTooLarge (field : string) (max_bytes : Z)
  | PersonaAlreadyExists (kind : string) (id : str)
  | PersonaNotFound (kind : string) (id : str)
  | PersonaRevisionConflict (persona_id : str) (expected actual : Z)
  | PersonaInUse (persona_id scope : str)
  | PersonaBindingMismatch (field : string) (expected actual : str)
  | PersonaRevisionOverflow
  | PersonaState (reason : str)
  | PersonaJsonError.

Abbreviation PersonaResult := (result PersonaError).

(** ** Limits (lib.rs) *)

Definition MAX_PERSONAS : Z := 256.
Definition MAX_CHARACTER_POLICIES : Z := 4096.
Definition MAX_PERSONA_LABEL_BYTES : Z := 256.
Definition MAX_PERSONA_PROMPT_BYTES : Z := MAX_PERSONA_INPUT_BYTES.
Definition MAX_TOTAL_PERSONA_PROMPT_BYTES : Z := 4 * 1024 * 1024.
Definition MAX_PERSONA_STATE_BYTES : Z := 16 * 1024 * 1024.

(** ** Identifiers (id.rs) *)

Definition persona_id_byte (b : byte) : bool := is_ascii_alphanumeric b || one_of "-_." b.

Definition id_length_reason (max_bytes : Z) : string :=
  ("must be 1-" +:+ pretty max_bytes +:+ " bytes")%string.

Definition validate_id (field : string) (value : str) (max_bytes : Z) : PersonaResult unit :=
  if is_empty value || (len value >? max_bytes)
  then Err (PersonaInvalidField field (id_length_reason max_bytes))
  else if negb (forallb persona_id_byte value)
  then Err (PersonaInvalidField field
              "must contain only ASCII letters, digits, hyphen, underscore, or period")
  else Ok tt.

Definition PersonaId_parse (value : str) : PersonaResult str :=
  _ ← validate_id "personaId" value 64; mret value.

Definition CharacterCardId_parse (value : str) : PersonaResult str :=
  _ ← validate_id "characterCardId" value 128; mret value.

Definition ChatId_parse (value : str) : PersonaResult str :=
  _ ← validate_id "chatId" value 64; mret value.

(** ** Records (catalog.rs) *)

Record PersonaDraft : Type := mkPersonaDraft { draft_label : str; draft_prompt_text : str }.

Record PersonaRecord : Type := mkPersona {
  persona_id : str;
  persona_revision : Z;
  persona_label : str;
  prompt_text : str;
}.

Record PersonaSnapshot : Type := mkSnapshot {
  snapshot_id : str;
  snapshot_revision : Z;
  snapshot_label : str;
  snapshot_prompt_text : str;
}.

Definition snapshot (self : PersonaRecord) : PersonaSnapshot :=
  mkSnapshot (persona_id self) (persona_revision self) (persona_label self) (prompt_text self).

Inductive PersonaChoice : Type := UseDefault | ChoiceSpecific (id : str) | ChoiceNoPersona.

Inductive CharacterPersonaPolicy : Type := InheritGlobal | PolicySpecific (id : str) | PolicyNoPersona.

Inductive PersonaSelectionSource : Type := Explicit | CharacterDefault | GlobalDefault.

Record ResolvedPersona : Type := mkResolved {
  resolved_source : PersonaSelectionSource;
  resolved_snapshot : PersonaSnapshot;
}.

Record PersonaPlayBinding : Type := mkPlayBinding {
  play_chat_id : str;
  play_character_card_id : str;
  play_persona : option ResolvedPersona;
}.

Inductive StoredCharacterPolicy : Type := Specific (id : str) | NoPersona.

#[export] Instance StoredCharacterPolicy_eq_dec : EqDecision StoredCharacterPolicy.
Proof. solve_decision. Defined.

Record PersonaCatalog : Type := mkCatalog {
  generation : Z;
  personas : gmap str PersonaRecord;
  global_default : option str;
  character_policies : gmap str StoredCharacterPolicy;
  total_prompt_bytes : Z;
}.

Definition PersonaCatalog_new : PersonaCatalog := mkCatalog 0 ∅ None ∅ 0.

(** [BTreeMap::iter] *)
Definition entries {A} (m : gmap str A) : list (str * A) :=
  sort_by (fun p q => str_cmp p.1 q.1) (map_to_list m).

Definition map_len {A} (m : gmap str A) : Z := Z.of_nat (size m).

(** ** Validation *)

Definition validate_label (label : str) : PersonaResult unit :=
  if is_empty label || (len label >? MAX_PERSONA_LABEL_BYTES)
  then Err (PersonaInvalidField "label" "must be 1-256 bytes")
  else if negb (str_eqb (trim label) label)
  then Err (PersonaInvalidField "label" "must not start or end with whitespace")
  else if existsb is_control (chars label)
  then Err (PersonaInvalidField "label" "must contain no control characters")
  else Ok tt.

(** [character.is_control() && !matches!(character, '\n' | '\r' | '\t')] *)
Definition forbidden_control (c : Z) : bool := is_control c && negb ((c =? 10) || (c =? 13) || (c =? 9)).

Definition validate_prompt_text (text : str) : PersonaResult unit :=
  if is_empty (trim text) then Err (PersonaInvalidField "promptText" "must not be empty or whitespace-only")
  else if len text >? MAX_PERSONA_PROMPT_BYTES
  then Err (PersonaPayloadTooLarge "promptText" MAX_PERSONA_PROMPT_BYTES)
  else if existsb forbidden_control (chars text)
  then Err (PersonaInvalidField "promptText" "must contain no control characters other than newline or tab")
  else Ok tt.

Definition PersonaDraft_new (label text : str) : PersonaResult PersonaDraft :=
  _ ← validate_label label;
  _ ← validate_prompt_text text;
  mret (mkPersonaDraft label text).

Definition total_too_large : PersonaError :=
  PersonaPayloadTooLarge "total persona prompt text" MAX_TOTAL_PERSONA_PROMPT_BYTES.

(** [usize::checked_sub] *)
Definition checked_sub (a b : Z) : option Z := if a <? b then None else Some (a - b).

Definition checked_total_after_replace (current old new : Z) : PersonaResult Z :=
  total ← ok_or (checked_sub current old ≫= fun remaining => checked_add USIZE_MAX remaining new)
            total_too_large;
  if total >? MAX_TOTAL_PERSONA_PROMPT_BYTES then Err total_too_large else Ok total.

Definition next_generation (current : Z) : PersonaResult Z :=
  ok_or (checked_add U64_MAX current 1) PersonaRevisionOverflow.

(** ** Operations *)

Abbreviation Catalog := (ST PersonaCatalog PersonaError).

Definition require_persona (self : PersonaCatalog) (id : str) : PersonaResult PersonaRecord :=
  ok_or (personas self !! id) (PersonaNotFound "persona" id).

Definition character_policy (self : PersonaCatalog) (character_id : str) : CharacterPersonaPolicy :=
  match character_policies self !! character_id with
  | Some (Specific id) => PolicySpecific id
  | Some NoPersona => PolicyNoPersona
  | None => InheritGlobal
  end.

Definition add (id : str) (draft : PersonaDraft) : Catalog PersonaRecord :=
  self ← st_get;
  if is_some (personas self !! id) then st_lift (Err (PersonaAlreadyExists "persona" id))
  else if map_len (personas self) >=? MAX_PERSONAS then st_lift (Err (PersonaTooManyItems "personas" MAX_PERSONAS))
  else
    total ← st_lift (checked_total_after_replace (total_prompt_bytes self) 0 (len (draft_prompt_text draft)));
    gen ← st_lift (next_generation (generation self));
    let record := mkPersona id 1 (draft_label draft) (draft_prompt_text draft) in
    _ ← st_put (mkCatalog gen (<[id := record]> (personas self)) (global_default self)
                  (character_policies self) total);
    mret record.

Definition check_revision (record : PersonaRecord) (id : str) (expected : Z) : PersonaResult unit :=
  if negb (persona_revision record =? expected)
  then Err (PersonaRevisionConflict id expected (persona_revision record)) else Ok tt.

Definition update (id : str) (expected_revision : Z) (draft : PersonaDraft) : Catalog PersonaRecord :=
  self ← st_get;
  current ← st_lift (require_persona self id);
  _ ← st_lift (check_revision current id expected_revision);
  revision ← st_lift (ok_or (checked_add U64_MAX (persona_revision current) 1) PersonaRevisionOverflow);
  total ← st_lift (checked_total_after_replace (total_prompt_bytes self) (len (prompt_text current))
                     (len (draft_prompt_text draft)));
  gen ← st_lift (next_generation (generation self));
  let updated := mkPersona id revision (draft_label draft) (draft_prompt_text draft) in
  _ ← st_put (mkCatalog gen (<[id := updated]> (personas self)) (global_default self)
                (character_policies self) total);
  mret updated.

Definition uses (id : str) (policy : StoredCharacterPolicy) : bool :=
  match policy with Specific persona_id => str_eqb persona_id id | NoPersona => false end.

Definition check_unused (self : PersonaCatalog) (id : str) : PersonaResult unit :=
  if bool_decide (global_default self = Some id) then Err (PersonaInUse id (lit "the global default"))
  else
    match List.find (fun entry => uses id entry.2) (entries (character_policies self)) with
    | Some (character_id, _) => Err (PersonaInUse id (lit "character policy " ++ character_id))
    | None => Ok tt
    end.

Definition remove (id : str) (expected_revision : Z) : Catalog PersonaRecord :=
  self ← st_get;
  current ← st_lift (require_persona self id);
  _ ← st_lift (check_revision current id expected_revision);
  _ ← st_lift (check_unused self id);
  gen ← st_lift (next_generation (generation self));
  _ ← st_put (mkCatalog gen (delete id (personas self)) (global_default self) (character_policies self)
                (total_prompt_bytes self - len (prompt_text current)));
  mret current.

Definition set_global_default (default_id : option str) : Catalog unit :=
  self ← st_get;
  _ ← st_lift match default_id with
              | Some id => _ ← require_persona self id; mret tt
              | None => Ok tt
              end;
  if bool_decide (global_default self = default_id) then mret tt
  else
    gen ← st_lift (next_generation (generation self));
    st_put (mkCatalog gen (personas self) default_id (character_policies self) (total_prompt_bytes self)).

Definition stored_policy (self : PersonaCatalog) (policy : CharacterPersonaPolicy) :
    PersonaResult (option StoredCharacterPolicy) :=
  match policy with
  | InheritGlobal => Ok None
  | PolicySpecific id => _ ← require_persona self id; mret (Some (Specific id))
  | PolicyNoPersona => Ok (Some NoPersona)
  end.

(** [unchanged] of the source is that the stored and the current policy agree. *)
Definition set_character_policy (character_id : str) (policy : CharacterPersonaPolicy) : Catalog unit :=
  self ← st_get;
  stored ← st_lift (stored_policy self policy);
  if bool_decide (stored = character_policies self !! character_id) then mret tt
  else if is_some stored && negb (is_some (character_policies self !! character_id)) &&
          (map_len (character_policies self) >=? MAX_CHARACTER_POLICIES)
  then st_lift (Err (PersonaTooManyItems "character policies" MAX_CHARACTER_POLICIES))
  else
    gen ← st_lift (next_generation (generation self));
    st_put (mkCatalog gen (personas self) (global_default self)
              match stored with
              | Some s => <[character_id := s]> (character_policies self)
              | None => delete character_id (character_policies self)
              end (total_prompt_bytes self)).

(** ** Play *)

Definition resolve (self : PersonaCatalog) (id : str) (source : PersonaSelectionSource) :
    PersonaResult ResolvedPersona :=
  record ← require_persona self id;
  mret (mkResolved source (snapshot record)).

Definition resolve_for_play (self : PersonaCatalog) (chat_id character_card_id : str)
    (choice : PersonaChoice) : PersonaResult PersonaPlayBinding :=
  resolved ←
    match choice with
    | ChoiceSpecific id => r ← resolve self id Explicit; mret (Some r)
    | ChoiceNoPersona => Ok None
    | UseDefault =>
        match character_policies self !! character_card_id with
        | Some (Specific id) => r ← resolve self id CharacterDefault; mret (Some r)
        | Some NoPersona => Ok None
        | None =>
            match global_default self with
            | Some id => r ← resolve self id GlobalDefault; mret (Some r)
            | None => Ok None
            end
        end
    end;
  mret (mkPlayBinding chat_id character_card_id resolved).

Definition play_prompt_text (self : PersonaPlayBinding) : option str :=
  (fun r => snapshot_prompt_text (resolved_snapshot r)) <$> play_persona self.

Definition with_persona (text : str) (i : PromptCompileInput) : PromptCompileInput :=
  mkCompileInput (history i) text (character_description i) (author_note i) (lorebook i)
    (long_term_memory i) (final_insertion i) (variables i) (available_tool_ids i) (available_modules i)
    (binding_mode i).

Definition apply_to_prompt_input (self : PersonaPlayBinding) (expected_chat expected_card : str) :
    ST PromptCompileInput PersonaError unit :=
  if negb (str_eqb (play_chat_id self) expected_chat)
  then st_lift (Err (PersonaBindingMismatch "chatId" expected_chat (play_chat_id self)))
  else if negb (str_eqb (play_character_card_id self) expected_card)
  then st_lift (Err (PersonaBindingMismatch "characterCardId" expected_card (play_character_card_id self)))
  else st_modify (with_persona (default [] (play_prompt_text self))).

(** * Personas: what holds of the catalog

    However personas are added, edited, removed and chosen as defaults, the catalog
    stays well formed: no default refers to a removed persona, and the running total of
    prompt bytes is exact.  A refused operation changes nothing; an accepted change
    counts one generation.  Default resolution therefore never fails, and its result
    enters the prompt as the compiler requires it. *)

(** ** Well-formed catalogs *)

Definition record_ok (id : str) (r : PersonaRecord) : Prop :=
  persona_id r = id /\ PersonaId_parse id = Ok id /\ 1 <= persona_revision r <= U64_MAX /\
  validate_label (persona_label r) = Ok tt /\ validate_prompt_text (prompt_text r) = Ok tt.

Definition prompt_sum (m : gmap str PersonaRecord) : Z :=
  map_fold (fun _ r total => len (prompt_text r) + total) 0 m.

Record catalog_ok (c : PersonaCatalog) : Prop := {
  ck_generation : 0 <= generation c <= U64_MAX;
  ck_count : map_len (personas c) <= MAX_PERSONAS;
  ck_policies : map_len (character_policies c) <= MAX_CHARACTER_POLICIES;
  ck_records : map_Forall record_ok (personas c);
  ck_default : forall id, global_default c = Some id -> is_Some (personas c !! id);
  ck_characters : map_Forall (fun card _ => CharacterCardId_parse card = Ok card) (character_policies c);
  ck_specific : forall character id, character_policies c !! character = Some (Specific id) ->
                  is_Some (personas c !! id);
  ck_total : total_prompt_bytes c = prompt_sum (personas c);
  ck_total_max : total_prompt_bytes c <= MAX_TOTAL_PERSONA_PROMPT_BYTES;
}.

Lemma prompt_sum_insert m id r :
  prompt_sum (<[id := r]> m) =
  len (prompt_text r) + prompt_sum m - from_option (fun old => len (prompt_text old)) 0 (m !! id).
Proof.
  unfold prompt_sum. destruct (m !! id) as [old|] eqn:Hm; cbn [from_option].
  - rewrite <- insert_delete_eq, map_fold_insert_L; [|intros; lia|apply lookup_delete_eq].
    rewrite (map_fold_delete_L _ _ id old m); [|intros; lia|done]. lia.
  - rewrite map_fold_insert_L; [lia|intros; lia|done].
Qed.

Lemma prompt_sum_delete m id r :
  m !! id = Some r -> prompt_sum (delete id m) = prompt_sum m - len (prompt_text r).
Proof.
  intros Hm. unfold prompt_sum. rewrite (map_fold_delete_L _ _ id r m); [lia|intros; lia|done].
Qed.

Lemma map_len_insert {A} (m : gmap str A) k v :
  map_len (<[k := v]> m) = map_len m + if is_some (m !! k) then 0 else 1.
Proof.
  unfold map_len. destruct (m !! k) as [old|] eqn:Hm; cbn [is_some].
  - rewrite map_size_insert_Some by (by rewrite Hm; eexists). lia.
  - rewrite map_size_insert_None by done. lia.
Qed.

Lemma map_len_delete {A} (m : gmap str A) k : map_len (delete k m) <= map_len m.
Proof. unfold map_len. rewrite map_size_delete. destruct (m !! k); cbn; lia. Qed.

(** ** What each operation does *)

Ltac run_op :=
  unfold mbind, ST_bind, st_get, st_put, st_lift, mret, ST_ret, st_modify; cbv beta iota.

Lemma checked_total_Ok current old new total :
  checked_total_after_replace current old new = Ok total ->
  total = current - old + new /\ total <= MAX_TOTAL_PERSONA_PROMPT_BYTES.
Proof.
  unfold checked_total_after_replace. intros Ht. apply bind_Ok in Ht as (t & Ht%ok_or_Ok & Hm).
  unfold checked_sub in Ht. destruct (_ <? _); [done|]. cbn in Ht. apply checked_add_Some in Ht as [-> _].
  destruct (_ >? _) eqn:Hg; [done|]. injection Hm as <-. split; [done|lia].
Qed.

Lemma next_generation_Ok g g' : next_generation g = Ok g' -> g' = g + 1 /\ g' <= U64_MAX.
Proof. unfold next_generation. intros Hg%ok_or_Ok. by apply checked_add_Some in Hg. Qed.

(** The record a persona gets, and what it replaces. *)
Record stored_record (c c' : PersonaCatalog) (id : str) (r : PersonaRecord) : Prop := {
  sr_personas : personas c' = <[id := r]> (personas c);
  sr_default : global_default c' = global_default c;
  sr_policies : character_policies c' = character_policies c;
  sr_total : total_prompt_bytes c' =
             total_prompt_bytes c - from_option (fun old => len (prompt_text old)) 0 (personas c !! id) +
             len (prompt_text r);
  sr_total_max : total_prompt_bytes c' <= MAX_TOTAL_PERSONA_PROMPT_BYTES;
}.

Definition next_of (c c' : PersonaCatalog) : Prop := generation c' = generation c + 1 /\ generation c' <= U64_MAX.

Lemma add_spec id d c :
  match add id d c with
  | (c', Err _) => c' = c
  | (c', Ok r) =>
      personas c !! id = None /\ map_len (personas c) < MAX_PERSONAS /\ next_of c c' /\
      r = mkPersona id 1 (draft_label d) (draft_prompt_text d) /\ stored_record c c' id r
  end.
Proof.
  unfold add. run_op. destruct (personas c !! id) as [old|] eqn:Hid; cbn [is_some]; [done|].
  destruct (map_len (personas c) >=? MAX_PERSONAS) eqn:Hn; [done|].
  destruct (checked_total_after_replace _ _ _) as [total|e] eqn:Ht; [|done].
  destruct (next_generation _) as [g|e] eqn:Hg; [|done].
  apply checked_total_Ok in Ht as [-> Ht]. apply next_generation_Ok in Hg as [-> Hg].
  split_and!; try done; [lia|]. split; cbn; try done. rewrite Hid. cbn. lia.
Qed.

Lemma update_spec id expected d c :
  match update id expected d c with
  | (c', Err _) => c' = c
  | (c', Ok r) =>
      exists old, personas c !! id = Some old /\ persona_revision old = expected /\
        expected + 1 <= U64_MAX /\ next_of c c' /\
        r = mkPersona id (expected + 1) (draft_label d) (draft_prompt_text d) /\ stored_record c c' id r
  end.
Proof.
  unfold update, require_persona, check_revision. run_op.
  destruct (personas c !! id) as [old|] eqn:Hid; cbn [ok_or]; [|done].
  destruct (persona_revision old =? expected) eqn:Hr; cbn [negb]; [|done]. apply Z.eqb_eq in Hr.
  destruct (checked_add _ _ 1) as [rev|] eqn:Hrev; cbn [ok_or]; [|done].
  destruct (checked_total_after_replace _ _ _) as [total|e] eqn:Ht; [|done].
  destruct (next_generation _) as [g|e] eqn:Hg; [|done].
  apply checked_total_Ok in Ht as [-> Ht]. apply next_generation_Ok in Hg as [-> Hg].
  apply checked_add_Some in Hrev as [-> Hrev]. rewrite Hr in *. exists old.
  split_and!; try done. split; cbn; try done. rewrite Hid. cbn. lia.
Qed.

Lemma entries_elem {A} (m : gmap str A) k v : (k, v) ∈ entries m <-> m !! k = Some v.
Proof. unfold entries. rewrite sort_by_perm. apply elem_of_map_to_list. Qed.

Lemma check_unused_Ok c id :
  check_unused c id = Ok tt ->
  global_default c <> Some id /\ forall character, character_policies c !! character <> Some (Specific id).
Proof.
  unfold check_unused. case_bool_decide as Hd; [done|].
  destruct (List.find _ _) as [[ch p]|] eqn:Hf; [done|]. intros _. split; [done|].
  intros ch Hch. apply entries_elem, list_elem_of_In in Hch. eapply List.find_none in Hf; [|exact Hch].
  cbn in Hf. by rewrite str_eqb_refl in Hf.
Qed.

Lemma remove_spec id expected c :
  match remove id expected c with
  | (c', Err _) => c' = c
  | (c', Ok r) =>
      personas c !! id = Some r /\ persona_revision r = expected /\ check_unused c id = Ok tt /\ next_of c c' /\
      c' = mkCatalog (generation c') (delete id (personas c)) (global_default c) (character_policies c)
             (total_prompt_bytes c - len (prompt_text r))
  end.
Proof.
  unfold remove, require_persona, check_revision. run_op.
  destruct (personas c !! id) as [old|] eqn:Hid; cbn [ok_or]; [|done].
  destruct (persona_revision old =? expected) eqn:Hr; cbn [negb]; [|done]. apply Z.eqb_eq in Hr.
  destruct (check_unused c id) as [[]|e] eqn:Hu; [|done].
  destruct (next_generation _) as [g|e] eqn:Hg; [|done]. apply next_generation_Ok in Hg as [-> Hg].
  split_and!; done.
Qed.

Lemma set_global_default_spec d c :
  match set_global_default d c with
  | (c', Err _) => c' = c
  | (c', Ok _) =>
      (forall id, d = Some id -> is_Some (personas c !! id)) /\
      (c' = c /\ global_default c = d \/
       global_default c <> d /\ next_of c c' /\
       c' = mkCatalog (generation c') (personas c) d (character_policies c) (total_prompt_bytes c))
  end.
Proof.
  unfold set_global_default, require_persona. run_op.
  assert (Hd : forall u, match d with
                         | Some id => _ ← ok_or (personas c !! id) (PersonaNotFound "persona" id); mret tt
                         | None => Ok tt
                         end = Ok u -> forall id, d = Some id -> is_Some (personas c !! id)).
  { intros u Hu id ->. apply bind_Ok in Hu as (r & Hr%ok_or_Ok & _). by eexists. }
  unfold mbind, mret in Hd. destruct (match d with Some _ => _ | None => _ end) as [u|e] eqn:Hm; [|done].
  specialize (Hd u eq_refl). case_bool_decide as Heq; [split; [done|by left]|].
  destruct (next_generation _) as [g|e] eqn:Hg; [|done]. apply next_generation_Ok in Hg as [-> Hg].
  split; [done|]. right. split_and!; done.
Qed.

Lemma set_character_policy_spec character policy c :
  match set_character_policy character policy c with
  | (c', Err _) => c' = c
  | (c', Ok _) =>
      exists stored, stored_policy c policy = Ok stored /\
      (c' = c /\ character_policies c !! character = stored \/
       character_policies c !! character <> stored /\ next_of c c' /\
       (is_Some stored -> character_policies c !! character = None ->
        map_len (character_policies c) < MAX_CHARACTER_POLICIES) /\
       c' = mkCatalog (generation c') (personas c) (global_default c)
              match stored with
              | Some s => <[character := s]> (character_policies c)
              | None => delete character (character_policies c)
              end (total_prompt_bytes c))
  end.
Proof.
  unfold set_character_policy. run_op. destruct (stored_policy c policy) as [stored|e] eqn:Hs; [|done].
  case_bool_decide as Heq; [exists stored; split; [done|by left]|].
  destruct (is_some stored && _ && _) eqn:Hfull; [done|].
  destruct (next_generation _) as [g|e] eqn:Hg; [|done]. apply next_generation_Ok in Hg as [-> Hg].
  exists stored. split; [done|]. right. split_and!; try done.
  - intros [s ->] Hnone. rewrite Hnone in Hfull. cbn in Hfull. lia.
Qed.

(** ** Preservation *)

Definition draft_ok (d : PersonaDraft) : Prop :=
  validate_label (draft_label d) = Ok tt /\ validate_prompt_text (draft_prompt_text d) = Ok tt.

Lemma stored_record_ok c c' id r :
  catalog_ok c -> stored_record c c' id r -> record_ok id r -> next_of c c' ->
  map_len (personas c') <= MAX_PERSONAS -> catalog_ok c'.
Proof.
  intros [Hg Hc Hp Hrec Hdef Hch Hspec Htot Hmax] [Spers Sdef Spol Stot Stotmax] Hr [Hgen Hgenmax] Hlen.
  assert (Hkeep : forall k, is_Some (personas c !! k) -> is_Some (personas c' !! k)).
  { intros k Hk. rewrite Spers. destruct (decide (id = k)) as [<-|Hne]; [rewrite lookup_insert_eq; by eexists|].
    by rewrite lookup_insert_ne. }
  split; try done; [lia|by rewrite Spol| | |by rewrite Spol| |].
  - rewrite Spers. by apply map_Forall_insert_2.
  - intros k. rewrite Sdef. auto.
  - intros ch k. rewrite Spol. eauto.
  - rewrite Stot, Spers, prompt_sum_insert, Htot. lia.
Qed.

Lemma add_ok id d c : catalog_ok c -> PersonaId_parse id = Ok id -> draft_ok d -> catalog_ok (add id d c).1.
Proof.
  intros Hc Hid [Hl Ht]. pose proof (add_spec id d c) as Hs. destruct (add id d c) as [c' [r|e]]; [|by subst].
  destruct Hs as (Hnone & Hlen & Hnext & -> & Hst). eapply stored_record_ok; [done|exact Hst| |done|].
  - by split_and!.
  - cbn [fst]. rewrite (sr_personas _ _ _ _ Hst), map_len_insert, Hnone. cbn. unfold MAX_PERSONAS in *. lia.
Qed.

Lemma update_ok id expected d c : catalog_ok c -> draft_ok d -> catalog_ok (update id expected d c).1.
Proof.
  intros Hc [Hl Ht]. pose proof (update_spec id expected d c) as Hs.
  destruct (update id expected d c) as [c' [r|e]]; [|by subst].
  destruct Hs as (old & Hold & Hrev & Hmax & Hnext & -> & Hst). pose proof (ck_records _ Hc id old Hold) as (_ & Hid & Ho & _).
  eapply stored_record_ok; [done|exact Hst| |done|].
  - split_and!; try done; cbn; lia.
  - cbn [fst]. rewrite (sr_personas _ _ _ _ Hst), map_len_insert, Hold. cbn. pose proof (ck_count _ Hc). lia.
Qed.

Lemma remove_ok id expected c : catalog_ok c -> catalog_ok (remove id expected c).1.
Proof.
  intros Hc. pose proof (remove_spec id expected c) as Hs. destruct (remove id expected c) as [c' [r|e]]; [|by subst].
  destruct Hs as (Hid & _ & Hu & [Hgen Hgenmax] & ->). apply check_unused_Ok in Hu as [Hd Hp].
  destruct Hc as [Hg Hc Hpol Hrec Hdef Hch Hspec Htot Hmax]. cbn [fst]. cbn in Hgen, Hgenmax.
  pose proof (len_nonneg (prompt_text r)). pose proof (map_len_delete (personas c) id).
  split; cbn; try done; try lia.
  - by apply map_Forall_delete.
  - intros k Hk. rewrite lookup_delete_ne; [auto|]. intros ->. done.
  - intros ch k Hk. rewrite lookup_delete_ne; [eauto|]. intros ->. by apply (Hp ch).
  - rewrite Htot. symmetry. by apply prompt_sum_delete.
Qed.

Lemma set_global_default_ok d c : catalog_ok c -> catalog_ok (set_global_default d c).1.
Proof.
  intros Hc. pose proof (set_global_default_spec d c) as Hs.
  destruct (set_global_default d c) as [c' [u|e]]; [|by subst].
  destruct Hs as [Hd [[-> _]|(_ & [Hgen Hgenmax] & ->)]]; [done|].
  destruct Hc as [Hg Hc Hpol Hrec Hdef Hch Hspec Htot Hmax]. cbn in Hgen, Hgenmax. split; cbn; try done. lia.
Qed.

Lemma stored_policy_Ok c policy s :
  stored_policy c policy = Ok s -> forall id, s = Some (Specific id) -> is_Some (personas c !! id).
Proof.
  unfold stored_policy, require_persona. destruct policy as [|i|]; [by intros [= <-]| |by intros [= <-]].
  intros Hs id ->. apply bind_Ok in Hs as (r & Hr%ok_or_Ok & Hs). injection Hs as <-. by eexists.
Qed.

Lemma set_character_policy_ok character policy c :
  catalog_ok c -> CharacterCardId_parse character = Ok character -> catalog_ok (set_character_policy character policy c).1.
Proof.
  intros Hc Hcard. pose proof (set_character_policy_spec character policy c) as Hs.
  destruct (set_character_policy character policy c) as [c' [u|e]]; [|by subst].
  destruct Hs as (stored & Hst & [[-> _]|(_ & [Hgen Hgenmax] & Hroom & ->)]); [done|].
  pose proof (stored_policy_Ok _ _ _ Hst) as Href.
  destruct Hc as [Hg Hc Hpol Hrec Hdef Hch Hspec Htot Hmax]. cbn in Hgen, Hgenmax.
  split; cbn; try done; [lia| | |].
  - destruct stored as [s|]; [|pose proof (map_len_delete (character_policies c) character); lia].
    rewrite map_len_insert. destruct (character_policies c !! character) eqn:Hl; cbn [is_some]; [lia|].
    specialize (Hroom ltac:(by eexists) eq_refl). lia.
  - destruct stored as [s|]; [by apply map_Forall_insert_2|by apply map_Forall_delete].
  - intros ch id. destruct stored as [s|].
    + destruct (decide (character = ch)) as [<-|Hne].
      * rewrite lookup_insert_eq. intros [= ->]. by apply Href.
      * rewrite lookup_insert_ne by done. apply Hspec.
    + intros [_ Hl]%lookup_delete_Some. by apply (Hspec ch).
Qed.

(** ** Histories *)

Inductive Operation : Type :=
  | OpAdd (id : str) (d : PersonaDraft)
  | OpUpdate (id : str) (expected : Z) (d : PersonaDraft)
  | OpRemove (id : str) (expected : Z)
  | OpSetDefault (d : option str)
  | OpSetPolicy (character : str) (policy : CharacterPersonaPolicy).

Definition failed {A} (r : PersonaResult A) : option PersonaError :=
  match r with Ok _ => None | Err e => Some e end.

(** The catalog after an operation, and its error. *)
Definition perform (op : Operation) (c : PersonaCatalog) : PersonaCatalog * option PersonaError :=
  match op with
  | OpAdd id d => let '(c', r) := add id d c in (c', failed r)
  | OpUpdate id e d => let '(c', r) := update id e d c in (c', failed r)
  | OpRemove id e => let '(c', r) := remove id e c in (c', failed r)
  | OpSetDefault d => let '(c', r) := set_global_default d c in (c', failed r)
  | OpSetPolicy ch p => let '(c', r) := set_character_policy ch p c in (c', failed r)
  end.

Definition op_typed (op : Operation) : Prop :=
  match op with
  | OpAdd id d => PersonaId_parse id = Ok id /\ draft_ok d
  | OpUpdate _ _ d => draft_ok d
  | OpSetPolicy character _ => CharacterCardId_parse character = Ok character
  | OpRemove _ _ | OpSetDefault _ => True
  end.

Definition run (ops : list Operation) (c : PersonaCatalog) : PersonaCatalog :=
  foldl (fun c op => (perform op c).1) c ops.

Lemma perform_ok op c : catalog_ok c -> op_typed op -> catalog_ok (perform op c).1.
Proof.
  intros Hc Ht. destruct op as [id d|id e d|id e|d|ch p]; cbn [perform op_typed] in *.
  - destruct Ht as [Hid Hd]. pose proof (add_ok id d c Hc Hid Hd). by destruct (add id d c).
  - pose proof (update_ok id e d c Hc Ht). by destruct (update id e d c).
  - pose proof (remove_ok id e c Hc). by destruct (remove id e c).
  - pose proof (set_global_default_ok d c Hc). by destruct (set_global_default d c).
  - pose proof (set_character_policy_ok ch p c Hc Ht). by destruct (set_character_policy ch p c).
Qed.

Lemma new_ok : catalog_ok PersonaCatalog_new.
Proof. split; cbn; try done. Qed.

Lemma run_ok ops c : catalog_ok c -> Forall op_typed ops -> catalog_ok (run ops c).
Proof.
  unfold run. intros Hc Ht. revert c Hc. induction Ht as [|op ops Hop Hops IH]; intros c Hc; [done|].
  cbn [foldl]. apply IH. by apply perform_ok.
Qed.

(** What an operation may do to the state. *)
Lemma perform_outcome op c :
  match perform op c with
  | (c', Some _) => c' = c
  | (c', None) => c' = c \/ next_of c c'
  end.
Proof.
  destruct op as [id d|id e d|id e|d|ch p]; cbn [perform].
  - pose proof (add_spec id d c). destruct (add id d c) as [c' [r|er]]; cbn [failed]; [tauto|done].
  - pose proof (update_spec id e d c) as Hs. destruct (update id e d c) as [c' [r|er]]; cbn [failed]; [|done].
    destruct Hs as (old & _ & _ & _ & Hn & _). by right.
  - pose proof (remove_spec id e c). destruct (remove id e c) as [c' [r|er]]; cbn [failed]; [tauto|done].
  - pose proof (set_global_default_spec d c) as Hs. destruct (set_global_default d c) as [c' [r|er]]; cbn [failed]; [|done].
    destruct Hs as [_ [[-> _]|(_ & Hn & _)]]; [by left|by right].
  - pose proof (set_character_policy_spec ch p c) as Hs.
    destruct (set_character_policy ch p c) as [c' [r|er]]; cbn [failed]; [|done].
    destruct Hs as (s & _ & [[-> _]|(_ & Hn & _)]); [by left|by right].
Qed.

(** The states a history goes through. *)
Fixpoint states (ops : list Operation) (c : PersonaCatalog) : list PersonaCatalog :=
  match ops with
  | [] => [c]
  | op :: ops' => c :: states ops' (perform op c).1
  end.

(** C31: Whatever personas are added, edited, removed or made defaults, in any order and
    with any revisions, the catalog stays within its limits; every record has its own
    identifier, a valid label and a valid text; the total of prompt bytes is the exact
    sum; and the global default and every character policy name a persona that
    exists. *)
Theorem catalog_stays_well_formed (ops : list Operation) :
  Forall op_typed ops -> Forall catalog_ok (states ops PersonaCatalog_new).
Proof.
  intros Ht. pose proof new_ok as Hc. revert Hc. generalize PersonaCatalog_new as c.
  induction Ht as [|op ops Hop Hops IH]; intros c Hc; cbn [states];
    [by constructor; [|constructor]|]. constructor; [done|]. apply IH. by apply perform_ok.
Qed.

(** A refused operation leaves the catalog as it was, and one that goes through
    either changes nothing or moves to exactly the next generation: two states of a
    history with the same generation are the same state. *)
Theorem generation_identifies_state (ops1 ops2 : list Operation) (c : PersonaCatalog) :
  generation (run (ops1 ++ ops2) c) = generation (run ops1 c) -> run (ops1 ++ ops2) c = run ops1 c.
Proof.
  unfold run. rewrite foldl_app. generalize (foldl (fun c op => (perform op c).1) c ops1) as c0. clear c ops1.
  assert (Hmono : forall ops c0, let c1 := foldl (fun c op => (perform op c).1) c0 ops in
            generation c0 <= generation c1 /\ (generation c1 = generation c0 -> c1 = c0)).
  { induction ops as [|op ops IH]; intros c0; cbn [foldl]; [split; [lia|done]|].
    pose proof (perform_outcome op c0) as Ho. destruct (perform op c0) as [c1 err]. cbn [fst].
    destruct (IH c1) as [Hle Heq].
    assert (Hstep : c1 = c0 \/ next_of c0 c1) by (destruct err; [by left|done]).
    destruct Hstep as [->|[Hn _]]; [done|]. split; [lia|]. intros He. lia. }
  intros c0 Hg. by apply Hmono.
Qed.

(** ** Play *)

(** The persona a default choice stands for. *)
Definition default_persona (c : PersonaCatalog) (card : str) : option str :=
  match character_policy c card with
  | PolicySpecific id => Some id
  | PolicyNoPersona => None
  | InheritGlobal => global_default c
  end.

Lemma prompt_text_no_nul text : validate_prompt_text text = Ok tt -> has_nul text = false.
Proof.
  unfold validate_prompt_text. destruct (is_empty (trim text)) eqn:He; [done|]. destruct (_ >? _); [done|].
  destruct (existsb _ _) eqn:Hx; [done|]. intros _. apply not_true_iff_false. unfold has_nul.
  rewrite contains_byte. intros Hn. unfold chars in Hx.
  destruct (utf8_decode text) as [cs|] eqn:Hd.
  - apply utf8_encode_decode in Hd as [Hd Hcs]. rewrite <- Hd in Hn.
    apply (encoded_ascii _ _ Hcs) in Hn; [|done]. cbn [default from_option] in Hx.
    apply existsb_false_Forall in Hx. rewrite Forall_forall in Hx. apply list_elem_of_In, Hx in Hn. done.
  - unfold trim, chars in He. rewrite Hd in He. done.
Qed.

Lemma resolve_default c chat card :
  catalog_ok c ->
  exists b, resolve_for_play c chat card UseDefault = Ok b /\
    play_chat_id b = chat /\ play_character_card_id b = card /\
    match default_persona c card with
    | None => play_persona b = None
    | Some id => exists r source, personas c !! id = Some r /\
                   play_persona b = Some (mkResolved source (snapshot r))
    end.
Proof.
  intros Hc. unfold resolve_for_play, default_persona, character_policy, resolve, require_persona.
  destruct (character_policies c !! card) as [[id|]|] eqn:Hp.
  - destruct (ck_specific _ Hc _ _ Hp) as [r Hr]. rewrite Hr. cbn [ok_or mbind result_bind mret result_ret].
    eexists. split_and!; try done. by eexists r, _.
  - cbn [mbind result_bind mret result_ret]. eexists. by split_and!.
  - destruct (global_default c) as [id|] eqn:Hg.
    + destruct (ck_default _ Hc _ Hg) as [r Hr]. rewrite Hr. cbn [ok_or mbind result_bind mret result_ret].
      eexists. split_and!; try done. by eexists r, _.
    + cbn [mbind result_bind mret result_ret]. eexists. by split_and!.
Qed.

(** On every catalog a history can reach, starting a play with the default persona
    succeeds: it is the character's policy before the global default, as a snapshot
    that later edits do not touch.  Applied to the prompt of this chat and character it
    replaces the persona input by the text of that persona (or by nothing), a text the
    prompt compiler accepts; applied to another chat or character it is refused and the
    prompt input is untouched. *)
Theorem default_persona_reaches_prompt (ops : list Operation) (chat card : str) (input : PromptCompileInput) :
  Forall op_typed ops ->
  let c := run ops PersonaCatalog_new in
  exists b, resolve_for_play c chat card UseDefault = Ok b /\
  (exists text, apply_to_prompt_input b chat card input = (with_persona text input, Ok tt) /\
     match default_persona c card with
     | None => text = []
     | Some id => exists r, personas c !! id = Some r /\ text = prompt_text r
     end /\
     len text <= MAX_PERSONA_INPUT_BYTES /\ has_nul text = false) /\
  (forall chat' card', chat' <> chat \/ card' <> card ->
     exists e, apply_to_prompt_input b chat' card' input = (input, Err e)).
Proof.
  intros Ht c. assert (Hc : catalog_ok c) by (apply run_ok; [apply new_ok|done]).
  destruct (resolve_default c chat card Hc) as (b & Hb & Hchat & Hcard & Hp). exists b. split; [done|].
  unfold apply_to_prompt_input. rewrite Hchat, Hcard. split.
  - rewrite !str_eqb_refl. cbn [negb]. exists (default [] (play_prompt_text b)). split; [done|].
    unfold play_prompt_text. destruct (default_persona c card) as [id|].
    + destruct Hp as (r & source & Hr & ->). cbn. destruct (ck_records _ Hc id r Hr) as (_ & _ & _ & _ & Htext).
      split_and!; [by exists r| |by apply prompt_text_no_nul].
      unfold validate_prompt_text in Htext. destruct (is_empty _); [done|].
      destruct (len (prompt_text r) >? _) eqn:Hl; [done|]. unfold MAX_PERSONA_PROMPT_BYTES in Hl. lia.
    + rewrite Hp. cbn. done.
  - intros chat' card' Hne. destruct (str_eqb chat chat') eqn:H1; cbn [negb]; [|by eexists].
    destruct (str_eqb card card') eqn:H2; cbn [negb]; [|by eexists].
    apply str_eqb_eq in H1, H2. by destruct Hne.
Qed.
