(* ===== verification/PersonaStorage.v ===== *)
(** * Personas: the stored catalog

    Models [crates/lorepia-persona/src/storage.rs]: the version-1 document of a catalog,
    the sequence visitor that bounds how many entries and how many prompt bytes a
    document can make the reader hold, and the restoration of the catalog with every
    check of the domain repeated.  [serde_json] is a parameter ([PersonaJson]): the
    bytes it writes, and what it parses an envelope, a catalog and one entry to.  What
    is used of it is that it parses what it wrote, that a [u64] field refuses other
    integers, and that a size hint is no more than the size ([PersonaJsonLaws]).

    A stored catalog loads again unchanged, and whatever document is loaded, the
    catalog is well formed. *)

From stdpp Require Import gmap pretty.
From S2P Require Import Prelude Sorting Bytes Utf8 Persona.

Definition PERSONA_STATE_FORMAT : str := lit "lorepia.persona-state".
Definition PERSONA_STATE_SCHEMA_VERSION : Z := 1.

(** ** The document *)

Record PersonaWire : Type := mkPersonaWire {
  wire_id : str;
  wire_revision : Z;
  wire_label : str;
  wire_prompt_text : str;
}.

Inductive StoredPolicyWire : Type := WireSpecific (persona_id : str) | WireNoPersona.

Record CharacterPolicyWire : Type := mkPolicyWire {
  wire_character_card_id : str;
  wire_policy : StoredPolicyWire;
}.

(** With [P] and [Q] the entries: their raw text before they are read. *)
Record CatalogWire (P Q : Type) : Type := mkCatalogWire {
  wire_generation : Z;
  wire_personas : list P;
  wire_global_default : option str;
  wire_character_policies : list Q;
}.
Arguments mkCatalogWire {_ _} _ _ _ _.
Arguments wire_generation {_ _} _.
Arguments wire_personas {_ _} _.
Arguments wire_global_default {_ _} _.
Arguments wire_character_policies {_ _} _.

(** [StateEnvelopeIn]: the state is raw text. *)
Record StateEnvelopeIn : Type := mkStateEnvelope {
  state_format : str;
  state_schema_version : Z;
  raw_state : str;
}.

Definition is_u64 (z : Z) : Prop := 0 <= z <= U64_MAX.

Class PersonaJson : Type := {
  to_vec_pretty : str -> Z -> CatalogWire PersonaWire CharacterPolicyWire -> option bytes;
  parse_state_envelope : bytes -> option StateEnvelopeIn;
  parse_catalog : str -> option (CatalogWire str str);
  parse_persona : str -> option PersonaWire;
  parse_policy : str -> option CharacterPolicyWire;
  size_hint : list str -> option Z;
}.

Class PersonaJsonLaws `{PersonaJson} : Prop := {
  parse_pretty format version wire bytes :
    is_u64 (wire_generation wire) -> Forall (fun p => is_u64 (wire_revision p)) (wire_personas wire) ->
    to_vec_pretty format version wire = Some bytes ->
    exists raw raw_personas raw_policies,
      parse_state_envelope bytes = Some (mkStateEnvelope format version raw) /\
      parse_catalog raw =
        Some (mkCatalogWire (wire_generation wire) raw_personas (wire_global_default wire) raw_policies) /\
      mapM parse_persona raw_personas = Some (wire_personas wire) /\
      mapM parse_policy raw_policies = Some (wire_character_policies wire);
  parse_catalog_u64 raw wire : parse_catalog raw = Some wire -> is_u64 (wire_generation wire);
  parse_persona_u64 raw wire : parse_persona raw = Some wire -> is_u64 (wire_revision wire);
  size_hint_le l n : size_hint l = Some n -> n <= len l;
}.

(** ** Bounded sequences *)

(** The trait [WireItem], and the [Deserialize] of the item. *)
Record WireItem (T : Type) : Type := mkWireItem {
  item_read : str -> PersonaResult T;
  item_validate : T -> PersonaResult unit;
  item_budget_bytes : T -> Z;
}.
Arguments mkWireItem {_} _ _ _.
Arguments item_read {_} _ _.
Arguments item_validate {_} _ _.
Arguments item_budget_bytes {_} _ _.

Definition persona_state_error (reason : string) : PersonaError := PersonaState (lit reason).

Definition persona_wire_validate (self : PersonaWire) : PersonaResult unit :=
  if wire_revision self =? 0 then Err (persona_state_error "persona revision must be at least 1")
  else
    _ ← validate_label (wire_label self);
    validate_prompt_text (wire_prompt_text self).

(** [de::Error::custom]: every error of a [Deserialize] is one of [serde_json]. *)
Definition custom {A} (r : PersonaResult A) : PersonaResult A := map_err (fun _ => PersonaJsonError) r.

Section visitor.
Context {T : Type} (item : WireItem T) (MAX MAX_BUDGET_BYTES : Z).

(** The loop of [visit_seq]: the entries not yet read, those read, and their bytes. *)
Fixpoint visit_elements (sequence : list str) (values : list T) (budget_bytes : Z) : PersonaResult (list T) :=
  match sequence with
  | [] => Ok values
  | element :: sequence' =>
      if len values <? MAX then
        value ← item_read item element;
        _ ← custom (item_validate item value);
        budget ← ok_or (checked_add USIZE_MAX budget_bytes (item_budget_bytes item value)) PersonaJsonError;
        if budget >? MAX_BUDGET_BYTES then Err PersonaJsonError
        else visit_elements sequence' (values ++ [value]) budget
      else Err PersonaJsonError
  end.

Definition visit_seq (hint : option Z) (sequence : list str) : PersonaResult (list T) :=
  if from_option (fun size => size >? MAX) false hint then Err PersonaJsonError
  else visit_elements sequence [] 0.
End visitor.

(** ** Writing *)

Definition persona_wire (record : PersonaRecord) : PersonaWire :=
  mkPersonaWire (persona_id record) (persona_revision record) (persona_label record) (prompt_text record).

Definition policy_wire (entry : str * StoredCharacterPolicy) : CharacterPolicyWire :=
  mkPolicyWire entry.1
    match entry.2 with Specific persona_id => WireSpecific persona_id | NoPersona => WireNoPersona end.

Definition catalog_wire (catalog : PersonaCatalog) : CatalogWire PersonaWire CharacterPolicyWire :=
  mkCatalogWire (generation catalog)
    (map (fun entry => persona_wire entry.2) (entries (personas catalog)))
    (global_default catalog)
    (map policy_wire (entries (character_policies catalog))).

Definition state_too_large : PersonaError := PersonaPayloadTooLarge "persona state" MAX_PERSONA_STATE_BYTES.

Section storage.
Context `{PersonaJson}.

Definition serialize_state (catalog : PersonaCatalog) : PersonaResult bytes :=
  bytes ← ok_or (to_vec_pretty PERSONA_STATE_FORMAT PERSONA_STATE_SCHEMA_VERSION (catalog_wire catalog))
            PersonaJsonError;
  if len bytes >? MAX_PERSONA_STATE_BYTES then Err state_too_large else Ok bytes.

(** ** Reading *)

Definition read_persona (raw : str) : PersonaResult PersonaWire :=
  wire ← ok_or (parse_persona raw) PersonaJsonError;
  _ ← custom (PersonaId_parse (wire_id wire));
  mret wire.

Definition read_policy (raw : str) : PersonaResult CharacterPolicyWire :=
  wire ← ok_or (parse_policy raw) PersonaJsonError;
  _ ← custom (CharacterCardId_parse (wire_character_card_id wire));
  _ ← match wire_policy wire with
      | WireSpecific persona_id => custom (PersonaId_parse persona_id)
      | WireNoPersona => Ok []
      end;
  mret wire.

Definition persona_item : WireItem PersonaWire :=
  mkWireItem read_persona persona_wire_validate (fun wire => len (wire_prompt_text wire)).

Definition policy_item : WireItem CharacterPolicyWire :=
  mkWireItem read_policy (fun _ => Ok tt) (fun _ => 0).

(** [Deserialize for CatalogWire] *)
Definition read_catalog (raw : str) : PersonaResult (CatalogWire PersonaWire CharacterPolicyWire) :=
  wire ← ok_or (parse_catalog raw) PersonaJsonError;
  personas ← visit_seq persona_item MAX_PERSONAS MAX_TOTAL_PERSONA_PROMPT_BYTES
               (size_hint (wire_personas wire)) (wire_personas wire);
  _ ← match wire_global_default wire with
      | Some id => custom (PersonaId_parse id)
      | None => Ok []
      end;
  policies ← visit_seq policy_item MAX_CHARACTER_POLICIES USIZE_MAX
               (size_hint (wire_character_policies wire)) (wire_character_policies wire);
  mret (mkCatalogWire (wire_generation wire) personas (wire_global_default wire) policies).

(** One round of the first loop of [restore_v1]: the personas and the total so far. *)
Definition restore_persona (acc : gmap str PersonaRecord * Z) (persona : PersonaWire) :
    PersonaResult (gmap str PersonaRecord * Z) :=
  let '(personas, total_prompt_bytes) := acc in
  if wire_revision persona =? 0 then Err (persona_state_error "persona revision must be at least 1")
  else
    draft ← PersonaDraft_new (wire_label persona) (wire_prompt_text persona);
    total ← ok_or (checked_add USIZE_MAX total_prompt_bytes (len (draft_prompt_text draft))) total_too_large;
    if total >? MAX_TOTAL_PERSONA_PROMPT_BYTES then Err total_too_large
    else
      let id := wire_id persona in
      let record := mkPersona id (wire_revision persona) (draft_label draft) (draft_prompt_text draft) in
      if is_some (personas !! id) then Err (PersonaAlreadyExists "persona" id)
      else Ok (<[id := record]> personas, total).

Definition restore_stored (personas : gmap str PersonaRecord) (policy : StoredPolicyWire) :
    PersonaResult StoredCharacterPolicy :=
  match policy with
  | WireSpecific persona_id =>
      if is_some (personas !! persona_id) then Ok (Specific persona_id)
      else Err (PersonaNotFound "character policy persona" persona_id)
  | WireNoPersona => Ok NoPersona
  end.

(** One round of the second loop. *)
Definition restore_policy (personas : gmap str PersonaRecord) (policies : gmap str StoredCharacterPolicy)
    (entry : CharacterPolicyWire) : PersonaResult (gmap str StoredCharacterPolicy) :=
  stored ← restore_stored personas (wire_policy entry);
  let character_id := wire_character_card_id entry in
  if is_some (policies !! character_id) then Err (PersonaAlreadyExists "character policy" character_id)
  else Ok (<[character_id := stored]> policies).

Definition check_restored_default (personas : gmap str PersonaRecord) (default_id : option str) :
    PersonaResult unit :=
  match default_id with
  | Some id => if is_some (personas !! id) then Ok tt else Err (PersonaNotFound "global default persona" id)
  | None => Ok tt
  end.

Definition restore_v1 (wire : CatalogWire PersonaWire CharacterPolicyWire) : PersonaResult PersonaCatalog :=
  if len (wire_personas wire) >? MAX_PERSONAS then Err (PersonaTooManyItems "personas" MAX_PERSONAS)
  else if len (wire_character_policies wire) >? MAX_CHARACTER_POLICIES
  then Err (PersonaTooManyItems "character policies" MAX_CHARACTER_POLICIES)
  else
    '(personas, total_prompt_bytes) ← foldM_result restore_persona (∅, 0) (wire_personas wire);
    _ ← check_restored_default personas (wire_global_default wire);
    character_policies ← foldM_result (restore_policy personas) ∅ (wire_character_policies wire);
    mret (mkCatalog (wire_generation wire) personas (wire_global_default wire) character_policies
            total_prompt_bytes).

Definition unsupported_persona_version (version : Z) : PersonaError :=
  PersonaState (lit "unsupported schema version " ++ lit (pretty version) ++ lit "; expected 1").

Definition deserialize_state (bytes : bytes) : PersonaResult PersonaCatalog :=
  if len bytes >? MAX_PERSONA_STATE_BYTES then Err state_too_large
  else
    envelope ← ok_or (parse_state_envelope bytes) PersonaJsonError;
    if negb (str_eqb (state_format envelope) PERSONA_STATE_FORMAT)
    then Err (persona_state_error "unsupported persona state format")
    else if state_schema_version envelope =? 1
    then wire ← read_catalog (raw_state envelope); restore_v1 wire
    else Err (unsupported_persona_version (state_schema_version envelope)).
End storage.

(** ** What is restored is well formed *)

Lemma restore_persona_Ok m t w m' t' :
  restore_persona (m, t) w = Ok (m', t') ->
  exists label text, draft_ok (mkPersonaDraft label text) /\ wire_revision w <> 0 /\ m !! wire_id w = None /\
    m' = <[wire_id w := mkPersona (wire_id w) (wire_revision w) label text]> m /\
    t' = t + len text /\ t' <= MAX_TOTAL_PERSONA_PROMPT_BYTES /\
    label = wire_label w /\ text = wire_prompt_text w.
Proof.
  unfold restore_persona. destruct (wire_revision w =? 0) eqn:Hr; [done|]. intros Hb.
  apply bind_Ok in Hb as (d & Hd & Hb). apply bind_Ok in Hb as (total & Ht%ok_or_Ok & Hb).
  apply checked_add_Some in Ht as [-> _]. destruct (_ >? _) eqn:Hmax; [done|].
  unfold PersonaDraft_new in Hd. apply bind_Ok in Hd as ([] & Hl & Hd). apply bind_Ok in Hd as ([] & Hp & Hd).
  injection Hd as <-. cbn in *. destruct (m !! wire_id w) eqn:Hm; cbn in Hb; [done|]. injection Hb as <- <-.
  exists (wire_label w), (wire_prompt_text w). split_and!; try done; lia.
Qed.

(** The personas restored so far: their records, their total, and how many. *)
Definition restored_personas (count : Z) (acc : gmap str PersonaRecord * Z) : Prop :=
  map_Forall record_ok acc.1 /\ acc.2 = prompt_sum acc.1 /\ acc.2 <= MAX_TOTAL_PERSONA_PROMPT_BYTES /\
  map_len acc.1 <= count.

Lemma restore_personas_ok ws : forall count acc acc',
  Forall (fun w => is_u64 (wire_revision w) /\ PersonaId_parse (wire_id w) = Ok (wire_id w)) ws ->
  restored_personas count acc -> foldM_result restore_persona acc ws = Ok acc' ->
  restored_personas (count + len ws) acc'.
Proof.
  induction ws as [|w ws IH]; intros count [m t] acc' Hws Hacc Hf; cbn [foldM_result] in Hf.
  { injection Hf as <-. by rewrite len_nil, Z.add_0_r. }
  apply Forall_cons_iff in Hws as [[Hw Hid] Hws]. apply bind_Ok in Hf as ([m1 t1] & Hs & Hf).
  rewrite len_cons, Z.add_assoc. apply (IH _ (m1, t1)); [done| |done]. destruct Hacc as (Hrec & Ht & Hm & Hc).
  apply restore_persona_Ok in Hs as (l & x & [Hl Hx] & Hrev & Hnew & -> & -> & Hmax & _). cbn in *. unfold is_u64 in Hw.
  split_and!; cbn; try done.
  - apply map_Forall_insert_2; [|done]. split_and!; try done; cbn; lia.
  - rewrite prompt_sum_insert, Hnew, Ht. cbn. lia.
  - rewrite map_len_insert, Hnew. cbn. lia.
Qed.

Definition restored_policies (personas : gmap str PersonaRecord) (count : Z)
    (acc : gmap str StoredCharacterPolicy) : Prop :=
  map_Forall (fun card _ => CharacterCardId_parse card = Ok card) acc /\
  (forall card id, acc !! card = Some (Specific id) -> is_Some (personas !! id)) /\ map_len acc <= count.

Lemma restore_policies_ok personas ws : forall count acc acc',
  Forall (fun w => CharacterCardId_parse (wire_character_card_id w) = Ok (wire_character_card_id w)) ws ->
  restored_policies personas count acc -> foldM_result (restore_policy personas) acc ws = Ok acc' ->
  restored_policies personas (count + len ws) acc'.
Proof.
  induction ws as [|w ws IH]; intros count acc acc' Hws Hacc Hf; cbn [foldM_result] in Hf.
  { injection Hf as <-. by rewrite len_nil, Z.add_0_r. }
  apply Forall_cons_iff in Hws as [Hid Hws]. apply bind_Ok in Hf as (acc1 & Hs & Hf).
  rewrite len_cons, Z.add_assoc. apply (IH _ acc1); [done| |done]. destruct Hacc as (Hch & Hspec & Hc).
  unfold restore_policy in Hs. apply bind_Ok in Hs as (stored & Hst & Hs).
  destruct (acc !! wire_character_card_id w) eqn:Hnew; cbn in Hs; [done|]. injection Hs as <-. split_and!.
  - by apply map_Forall_insert_2.
  - intros card id. rewrite lookup_insert_Some. intros [[_ ->]|[_ Hl]]; [|by apply (Hspec card)].
    unfold restore_stored in Hst. destruct (wire_policy w) as [p|]; [|done].
    destruct (personas !! p) eqn:Hp; cbn in Hst; [|done]. injection Hst as ->. by rewrite Hp.
  - rewrite map_len_insert, Hnew. cbn. lia.
Qed.

Section visited.
Context {T : Type} (item : WireItem T) (MAX MAX_BUDGET_BYTES : Z).

Lemma visit_elements_inv (P : T -> Prop) sequence : forall values budget values',
  (forall raw v, item_read item raw = Ok v -> P v) -> Forall P values ->
  visit_elements item MAX MAX_BUDGET_BYTES sequence values budget = Ok values' -> Forall P values'.
Proof.
  induction sequence as [|raw sequence IH]; intros values budget values' HP Hv Hs; cbn [visit_elements] in Hs.
  { by injection Hs as <-. }
  destruct (_ <? _); [|done]. apply bind_Ok in Hs as (v & Hr & Hs). apply bind_Ok in Hs as (u & _ & Hs).
  apply bind_Ok in Hs as (b & _ & Hs). destruct (_ >? _); [done|].
  eapply IH; [done| |exact Hs]. apply Forall_app. split; [done|]. constructor; [|constructor]. by eapply HP.
Qed.

Lemma visit_seq_inv (P : T -> Prop) hint sequence values :
  (forall raw v, item_read item raw = Ok v -> P v) ->
  visit_seq item MAX MAX_BUDGET_BYTES hint sequence = Ok values -> Forall P values.
Proof. unfold visit_seq. destruct (from_option _ _ _); [done|]. intros HP. by apply visit_elements_inv. Qed.

Definition budget_sum (values : list T) : Z := foldr (fun v total => item_budget_bytes item v + total) 0 values.

Lemma visit_elements_all sequence values : forall before budget,
  Forall2 (fun raw v => item_read item raw = Ok v) sequence values ->
  Forall (fun v => item_validate item v = Ok tt /\ 0 <= item_budget_bytes item v) values ->
  len before + len values <= MAX -> budget + budget_sum values <= MAX_BUDGET_BYTES ->
  MAX_BUDGET_BYTES <= USIZE_MAX ->
  visit_elements item MAX MAX_BUDGET_BYTES sequence before budget = Ok (before ++ values).
Proof.
  intros before budget Hread. revert before budget.
  induction Hread as [|raw v sequence values Hr Hread IH]; intros before budget Hv Hlen Hb Hw; cbn [visit_elements].
  { by rewrite app_nil_r. }
  apply Forall_cons_iff in Hv as [[Hval Hpos] Hv]. rewrite len_cons in Hlen. pose proof (len_nonneg values).
  cbn [budget_sum foldr] in Hb. fold (budget_sum values) in Hb.
  assert (0 <= budget_sum values) by (clear -Hv; unfold budget_sum; induction Hv as [|? ? []]; cbn; lia).
  rewrite (proj2 (Z.ltb_lt _ _)) by lia. rewrite Hr. cbn. rewrite Hval. cbn. rewrite checked_add_fits by lia. cbn.
  rewrite gtb_false by lia. rewrite IH by (done || lia || (rewrite len_app, len_cons, len_nil; lia)).
  by rewrite <- app_assoc.
Qed.

Lemma visit_seq_all hint sequence values :
  from_option (fun n => n <= len sequence) True hint ->
  Forall2 (fun raw v => item_read item raw = Ok v) sequence values ->
  Forall (fun v => item_validate item v = Ok tt /\ 0 <= item_budget_bytes item v) values ->
  len values <= MAX -> budget_sum values <= MAX_BUDGET_BYTES <= USIZE_MAX ->
  visit_seq item MAX MAX_BUDGET_BYTES hint sequence = Ok values.
Proof.
  intros Hhint Hread Hv Hlen [Hb Hw]. unfold visit_seq.
  assert (Hsame : len sequence = len values) by (unfold len; by erewrite Forall2_length).
  rewrite (visit_elements_all _ values); [|done|done|rewrite len_nil; lia|lia|done].
  destruct hint as [n|]; [|done]. cbn in *. by rewrite gtb_false by lia.
Qed.
End visited.

Section facts.
Context `{PersonaJsonLaws}.

Lemma custom_Ok {A} (r : PersonaResult A) a : custom r = Ok a -> r = Ok a.
Proof. unfold custom, map_err. by destruct r. Qed.

Lemma parse_id_Ok field v max u : (_ ← validate_id field v max; mret v) = Ok u -> u = v.
Proof. intros Hp. apply bind_Ok in Hp as (? & _ & Hp). by injection Hp. Qed.

Lemma read_persona_ok raw w :
  read_persona raw = Ok w -> is_u64 (wire_revision w) /\ PersonaId_parse (wire_id w) = Ok (wire_id w).
Proof.
  unfold read_persona. intros Hr. apply bind_Ok in Hr as (w' & Hp%ok_or_Ok & Hr).
  apply bind_Ok in Hr as (id & Hid%custom_Ok & Hr). injection Hr as ->.
  split; [by eapply parse_persona_u64|]. pose proof (parse_id_Ok _ _ _ _ Hid) as ->. done.
Qed.

Lemma read_policy_ok raw w :
  read_policy raw = Ok w -> CharacterCardId_parse (wire_character_card_id w) = Ok (wire_character_card_id w).
Proof.
  unfold read_policy. intros Hr. apply bind_Ok in Hr as (w' & Hp%ok_or_Ok & Hr).
  apply bind_Ok in Hr as (id & Hid%custom_Ok & Hr). apply bind_Ok in Hr as (? & _ & Hr). injection Hr as ->.
  pose proof (parse_id_Ok _ _ _ _ Hid) as ->. done.
Qed.

Lemma restore_v1_ok wire c :
  is_u64 (wire_generation wire) ->
  Forall (fun w => is_u64 (wire_revision w) /\ PersonaId_parse (wire_id w) = Ok (wire_id w)) (wire_personas wire) ->
  Forall (fun w => CharacterCardId_parse (wire_character_card_id w) = Ok (wire_character_card_id w))
    (wire_character_policies wire) ->
  restore_v1 wire = Ok c -> catalog_ok c.
Proof.
  intros Hgen Hp Hq Hr. unfold restore_v1 in Hr. destruct (len (wire_personas wire) >? _) eqn:Hlp; [done|].
  destruct (_ >? _) eqn:Hlq in Hr; [done|]. apply bind_Ok in Hr as ([m t] & Hm & Hr).
  apply bind_Ok in Hr as ([] & Hd & Hr). apply bind_Ok in Hr as (ps & Hps & Hr). injection Hr as <-.
  apply (restore_personas_ok _ 0) in Hm as (Hrec & Ht & Hmax & Hc); [|done|by split_and!].
  apply (restore_policies_ok _ _ 0) in Hps as (Hch & Hspec & Hcq); [|done|by split_and!].
  cbn in *. split; cbn; try done; try lia.
  intros id Hdef. unfold check_restored_default in Hd. rewrite Hdef in Hd.
  by destruct (m !! id).
Qed.

(** Whatever bytes are given to [deserialize_state], a catalog it returns is well
    formed: at most 256 personas of at most 4 MiB of prompt text with an exact total,
    valid identifiers, labels, texts and revisions, no identifier twice, and no default
    or character policy naming a persona that is not there. *)
Theorem restored_catalog_is_well_formed (bytes : bytes) (c : PersonaCatalog) :
  deserialize_state bytes = Ok c -> catalog_ok c.
Proof.
  unfold deserialize_state. destruct (_ >? _); [done|]. intros Hd. apply bind_Ok in Hd as (env & _ & Hd).
  destruct (negb _); [done|]. destruct (_ =? 1); [|done]. apply bind_Ok in Hd as (wire & Hw & Hd).
  unfold read_catalog in Hw. apply bind_Ok in Hw as (raw & Hraw%ok_or_Ok & Hw).
  apply bind_Ok in Hw as (ps & Hps & Hw). apply bind_Ok in Hw as (? & _ & Hw).
  apply bind_Ok in Hw as (qs & Hqs & Hw). injection Hw as <-. revert Hd.
  apply restore_v1_ok; cbn; [by eapply parse_catalog_u64| |].
  - eapply visit_seq_inv; [|exact Hps]. exact read_persona_ok.
  - eapply visit_seq_inv; [|exact Hqs]. exact read_policy_ok.
Qed.

(** ** What is stored is restored *)

Definition texts_sum (l : list (str * PersonaRecord)) : Z :=
  foldr (fun entry total => len (prompt_text entry.2) + total) 0 l.

Lemma texts_sum_perm l1 l2 : l1 ≡ₚ l2 -> texts_sum l1 = texts_sum l2.
Proof. unfold texts_sum. induction 1; cbn in *; lia. Qed.

Lemma texts_sum_nonneg l : 0 <= texts_sum l.
Proof.
  unfold texts_sum. induction l as [|[k r] l IH]; cbn; [lia|]. pose proof (len_nonneg (prompt_text r)). lia.
Qed.

Lemma texts_sum_entries m : texts_sum (entries m) = prompt_sum m.
Proof.
  unfold prompt_sum. rewrite map_fold_foldr. erewrite texts_sum_perm by apply sort_by_perm.
  unfold texts_sum. generalize (map_to_list m) as l. by induction l as [|[k r] l IH]; cbn; [|rewrite IH].
Qed.

(** Inserting the entries of a map one by one builds the map. *)
Definition insert_all {A} (m : gmap str A) (l : list (str * A)) : gmap str A :=
  foldl (fun acc entry => <[entry.1 := entry.2]> acc) m l.

Lemma insert_all_rev {A} (l : list (str * A)) : insert_all ∅ l = list_to_map (reverse l).
Proof.
  induction l as [|[k v] l IH] using rev_ind; [done|]. unfold insert_all in *.
  by rewrite foldl_snoc, IH, reverse_snoc.
Qed.

Lemma entries_fst_NoDup {A} (m : gmap str A) : NoDup (entries m).*1.
Proof. unfold entries. rewrite sort_by_perm. apply NoDup_fst_map_to_list. Qed.

Lemma insert_all_entries {A} (m : gmap str A) : insert_all ∅ (entries m) = m.
Proof.
  rewrite insert_all_rev. rewrite <- (list_to_map_to_list m) at 2. symmetry. apply list_to_map_proper.
  - apply NoDup_fst_map_to_list.
  - unfold entries. by rewrite reverse_Permutation, sort_by_perm.
Qed.

Lemma len_entries {A} (m : gmap str A) : len (entries m) = map_len m.
Proof. unfold len, map_len, entries. by rewrite sort_by_perm, length_map_to_list. Qed.

(** What the entries of a well-formed catalog are like. *)
Definition stored_ok (entry : str * PersonaRecord) : Prop := record_ok entry.1 entry.2.

Lemma persona_wire_valid id r :
  record_ok id r -> persona_wire_validate (persona_wire r) = Ok tt.
Proof.
  intros (Hid & _ & Hrev & Hl & Ht). unfold persona_wire_validate. cbn.
  destruct (persona_revision r =? 0) eqn:Hz; [lia|]. by rewrite Hl.
Qed.

Lemma restore_personas_all l : forall m t,
  Forall stored_ok l -> NoDup l.*1 -> (forall id, id ∈ l.*1 -> m !! id = None) ->
  0 <= t -> t + texts_sum l <= MAX_TOTAL_PERSONA_PROMPT_BYTES ->
  foldM_result restore_persona (m, t) (map (fun entry => persona_wire entry.2) l) =
  Ok (insert_all m l, t + texts_sum l).
Proof.
  induction l as [|[id r] l IH]; intros m t Hok Hnd Hnew Ht Hmax; cbn [map foldM_result].
  { cbn. by rewrite Z.add_0_r. }
  apply Forall_cons_iff in Hok as [(Hid & _ & Hrev & Hl & Hx) Hok]. cbn [fst snd] in Hid, Hrev, Hl, Hx. cbn [fmap list_fmap fst] in Hnd, Hnew.
  apply list.NoDup_cons in Hnd as [Hni Hnd]. cbn [texts_sum foldr snd] in Hmax. fold (texts_sum l) in Hmax.
  pose proof (texts_sum_nonneg l). pose proof (len_nonneg (prompt_text r)).
  assert (Hstep : restore_persona (m, t) (persona_wire r) = Ok (<[id := r]> m, t + len (prompt_text r))).
  { unfold restore_persona. cbn. destruct (persona_revision r =? 0) eqn:Hz; [lia|].
    unfold PersonaDraft_new. rewrite Hl, Hx. cbn.
    rewrite checked_add_fits by (unfold MAX_TOTAL_PERSONA_PROMPT_BYTES, USIZE_MAX, U64_MAX in *; lia). cbn.
    rewrite gtb_false by lia. rewrite Hid, (Hnew id) by set_solver. cbn. destruct r; cbn in *. by subst. }
  cbn [snd]. rewrite Hstep. cbn [mbind result_bind]. rewrite IH; try done.
  - cbn. f_equal. f_equal. unfold texts_sum. lia.
  - intros k Hk. rewrite lookup_insert_ne; [apply Hnew; set_solver|]. set_solver.
  - lia.
  - lia.
Qed.

Lemma restore_policies_all personas l : forall m,
  (forall card id, (card, Specific id) ∈ l -> is_Some (personas !! id)) ->
  NoDup l.*1 -> (forall card, card ∈ l.*1 -> m !! card = None) ->
  foldM_result (restore_policy personas) m (map policy_wire l) = Ok (insert_all m l).
Proof.
  induction l as [|[card p] l IH]; intros m Href Hnd Hnew; cbn [map foldM_result]; [done|].
  cbn [fmap list_fmap fst] in Hnd, Hnew. apply list.NoDup_cons in Hnd as [Hni Hnd].
  assert (Hstep : restore_policy personas m (policy_wire (card, p)) = Ok (<[card := p]> m)).
  { unfold restore_policy. destruct p as [id|]; cbn.
    - destruct (Href card id ltac:(left)) as [r ->]. cbn. by rewrite (Hnew card) by set_solver.
    - by rewrite (Hnew card) by set_solver. }
  rewrite Hstep. cbn [mbind result_bind]. rewrite IH; try done.
  - intros c id Hin. apply (Href c). by right.
  - intros c Hc. rewrite lookup_insert_ne; [apply Hnew; set_solver|]. set_solver.
Qed.

Lemma hint_ok l : from_option (fun n => n <= len l) True (size_hint l).
Proof. destruct (size_hint l) eqn:Hh; [|done]. by apply size_hint_le. Qed.

Lemma read_personas_all c raws :
  catalog_ok c -> let ws := map (fun entry => persona_wire entry.2) (entries (personas c)) in
  mapM parse_persona raws = Some ws ->
  visit_seq persona_item MAX_PERSONAS MAX_TOTAL_PERSONA_PROMPT_BYTES (size_hint raws) raws = Ok ws.
Proof.
  intros Hc ws Hm. apply mapM_Some in Hm.
  assert (Hrec : Forall stored_ok (entries (personas c))).
  { apply list.Forall_forall. intros [id r] Hin%entries_elem. by apply (ck_records _ Hc). }
  assert (Hws : Forall (fun w => PersonaId_parse (wire_id w) = Ok (wire_id w) /\
                                 persona_wire_validate w = Ok tt) ws).
  { apply Forall_map. eapply Forall_impl; [|exact Hrec]. intros [id r] Hr.
    split; [|by eapply persona_wire_valid]. destruct Hr as (Hid & Hp & _). cbn in *. by rewrite Hid. }
  apply visit_seq_all; [apply hint_ok| | | |].
  - clearbody ws. revert Hws. induction Hm as [|raw w raws ws' Hr Hm IH]; intros Hws; [constructor|].
    apply Forall_cons_iff in Hws as [[Hid _] Hws]. constructor; [|by apply IH].
    cbn. unfold read_persona. rewrite Hr. cbn. rewrite Hid. done.
  - eapply Forall_impl; [|exact Hws]. intros w [_ Hv]. split; [exact Hv|apply len_nonneg].
  - unfold ws. unfold len. rewrite length_map. fold (len (entries (personas c))). rewrite len_entries. apply Hc.
  - assert (Hsum : budget_sum persona_item ws = texts_sum (entries (personas c))).
    { unfold ws, budget_sum, texts_sum. clear.
      by induction (entries (personas c)) as [|e l IH]; [|cbn in *; rewrite IH]. }
    rewrite Hsum, texts_sum_entries, <- (ck_total _ Hc). split; [apply Hc|done].
Qed.

Lemma read_policies_all c raws :
  catalog_ok c -> let ws := map policy_wire (entries (character_policies c)) in
  mapM parse_policy raws = Some ws ->
  visit_seq policy_item MAX_CHARACTER_POLICIES USIZE_MAX (size_hint raws) raws = Ok ws.
Proof.
  intros Hc ws Hm. apply mapM_Some in Hm.
  assert (Hws : Forall (fun w => CharacterCardId_parse (wire_character_card_id w) = Ok (wire_character_card_id w) /\
      forall id, wire_policy w = WireSpecific id -> PersonaId_parse id = Ok id) ws).
  { apply List.Forall_map, list.Forall_forall. intros [card p] Hin%entries_elem. cbn.
    split; [by apply (ck_characters _ Hc _ p)|]. intros id Hp. destruct p as [id'|]; [|done]. injection Hp as ->.
    destruct (ck_specific _ Hc _ _ Hin) as [r Hr]. by destruct (ck_records _ Hc _ _ Hr) as (_ & ? & _). }
  apply visit_seq_all; [apply hint_ok| | | |].
  - clearbody ws. revert Hws. induction Hm as [|raw w raws ws' Hr Hm IH]; intros Hws; [constructor|].
    apply Forall_cons_iff in Hws as [[Hid Hp] Hws]. constructor; [|by apply IH].
    cbn. unfold read_policy. rewrite Hr. cbn. rewrite Hid. cbn.
    destruct (wire_policy w) as [id|]; [by rewrite (Hp id eq_refl)|done].
  - apply list.Forall_forall. intros. by split.
  - unfold ws. unfold len. rewrite length_map. fold (len (entries (character_policies c))). rewrite len_entries.
    apply Hc.
  - assert (Hsum : budget_sum policy_item ws = 0) by (unfold budget_sum; clear; by induction ws as [|w ws IH]).
    rewrite Hsum. done.
Qed.

Lemma restore_v1_all c : catalog_ok c -> restore_v1 (catalog_wire c) = Ok c.
Proof.
  intros Hc. unfold restore_v1, catalog_wire. cbn [wire_personas wire_character_policies wire_global_default wire_generation].
  unfold len. rewrite !length_map. fold (len (entries (personas c))) (len (entries (character_policies c))).
  rewrite !len_entries. rewrite !gtb_false by apply Hc.
  rewrite restore_personas_all; [|apply list.Forall_forall; intros [id r] Hin%entries_elem; by apply (ck_records _ Hc)
    |apply entries_fst_NoDup|done|done|rewrite Z.add_0_l, texts_sum_entries, <- (ck_total _ Hc); apply Hc].
  cbn [mbind result_bind]. rewrite insert_all_entries.
  assert (Hd : check_restored_default (personas c) (global_default c) = Ok tt).
  { unfold check_restored_default. destruct (global_default c) eqn:Hg; [|done].
    by destruct (ck_default _ Hc _ Hg) as [r ->]. }
  rewrite Hd. cbn [mbind result_bind]. rewrite restore_policies_all; [|intros card id Hin%entries_elem; by apply (ck_specific _ Hc card)
    |apply entries_fst_NoDup|done].
  cbn [mbind result_bind]. rewrite insert_all_entries, Z.add_0_l, texts_sum_entries, <- (ck_total _ Hc). by destruct c.
Qed.

(** A well-formed catalog that was stored is restored exactly: its personas with
    their revisions, the global default, every character policy, the total of prompt
    bytes and the generation. *)
Theorem persona_state_round_trip (c : PersonaCatalog) (bytes : bytes) :
  catalog_ok c -> serialize_state c = Ok bytes -> deserialize_state bytes = Ok c.
Proof.
  intros Hc Hs. unfold serialize_state in Hs. apply bind_Ok in Hs as (bs & Hw%ok_or_Ok & Hs).
  destruct (_ >? _) eqn:Hlen; [done|]. injection Hs as ->.
  apply parse_pretty in Hw as (raw & rp & rq & He & Hr & Hp & Hq); [|apply Hc|].
  - unfold deserialize_state. rewrite Hlen, He. cbn [ok_or mbind result_bind state_format state_schema_version raw_state].
    rewrite str_eqb_refl. cbn [negb Z.eqb PERSONA_STATE_SCHEMA_VERSION Pos.eqb].
    unfold read_catalog. rewrite Hr. cbn [ok_or mbind result_bind wire_personas wire_global_default wire_character_policies wire_generation].
    cbn [wire_personas wire_character_policies catalog_wire] in Hp, Hq.
    rewrite (read_personas_all c rp Hc Hp). cbn [mbind result_bind].
    assert (Hd : exists x, match wire_global_default (catalog_wire c) with
                 | Some id => custom (PersonaId_parse id) | None => Ok [] end = Ok x).
    { cbn. destruct (global_default c) as [id|] eqn:Hg; [|by eexists].
      destruct (ck_default _ Hc _ Hg) as [r Hr']. destruct (ck_records _ Hc _ _ Hr') as (_ & Hid & _).
      rewrite Hid. by eexists. }
    destruct Hd as [x ->]. cbn [mbind result_bind]. rewrite (read_policies_all c rq Hc Hq).
    cbn [mbind result_bind mret result_ret]. by apply restore_v1_all.
  - cbn. apply List.Forall_map, list.Forall_forall. intros [id r] Hin%entries_elem.
    destruct (ck_records _ Hc _ _ Hin) as (_ & _ & Hrev & _). unfold is_u64. cbn. lia.
Qed.
End facts.
