(* ===== verification/PersonaExamples.v ===== *)
(** * Personas: examples

    A history of one catalog, stored and loaded again with a document format that has
    the laws of [PersonaJsonLaws]. *)

From stdpp Require Import gmap.
From S2P Require Import Prelude Bytes Utf8 PromptCompile PromptExamples MemoryExamples Persona PersonaStorage.

Module PersonaExample.
Import StorageExample.

Definition explorer : PersonaDraft := mkPersonaDraft (lit "Explorer") (lit "A curious explorer.").
Definition captain : PersonaDraft := mkPersonaDraft (lit "Captain") (lit "Commands the ship.").

(** Two personas; the first is edited and becomes the default, a character uses the
    other; removing that one is refused, and so is an edit of an old revision. *)
Definition history : list Operation :=
  [OpAdd (lit "me") explorer;
   OpAdd (lit "captain") captain;
   OpUpdate (lit "me") 1 (mkPersonaDraft (lit "Explorer") (lit "A tired explorer."));
   OpSetDefault (Some (lit "me"));
   OpSetPolicy (lit "ship") (PolicySpecific (lit "captain"));
   OpRemove (lit "captain") 1;
   OpUpdate (lit "me") 1 captain].

Lemma history_typed : Forall op_typed history.
Proof. repeat (constructor; [vm_compute; tauto|]). constructor. Qed.

Definition catalog : PersonaCatalog := run history PersonaCatalog_new.

Example catalog_generation : (generation catalog, total_prompt_bytes catalog) = (5, 35).
Proof. vm_compute. reflexivity. Qed.

Example removal_refused :
  (perform (OpRemove (lit "captain") 1) catalog).2 =
  Some (PersonaInUse (lit "captain") (lit "character policy ship")).
Proof. vm_compute. reflexivity. Qed.

Lemma catalog_stays_well_formed_witness : Forall catalog_ok (states history PersonaCatalog_new).
Proof. exact (catalog_stays_well_formed history history_typed). Defined.

Definition refused : list Operation := [OpRemove (lit "captain") 1; OpAdd (lit "me") captain].

Lemma refused_generation :
  generation (run (history ++ refused) PersonaCatalog_new) = generation (run history PersonaCatalog_new).
Proof. vm_compute. reflexivity. Qed.

Lemma generation_identifies_state_witness : run (history ++ refused) PersonaCatalog_new = catalog.
Proof. exact (generation_identifies_state history refused PersonaCatalog_new refused_generation). Defined.

Lemma default_persona_reaches_prompt_witness :
  exists b, resolve_for_play catalog (lit "chat") (lit "other") UseDefault = Ok b /\
    exists text, apply_to_prompt_input b (lit "chat") (lit "other") PromptExample.input =
      (with_persona text PromptExample.input, Ok tt).
Proof.
  destruct (default_persona_reaches_prompt history (lit "chat") (lit "other") PromptExample.input history_typed)
    as (b & Hb & (text & Ht & _) & _).
  exact (ex_intro _ b (conj Hb (ex_intro _ text Ht))).
Defined.

Example default_text :
  match resolve_for_play catalog (lit "chat") (lit "other") UseDefault with
  | Ok b => play_prompt_text b
  | Err _ => None
  end = Some (lit "A tired explorer.").
Proof. vm_compute. reflexivity. Qed.

(** ** A document format *)

Definition persona_fields (w : PersonaWire) : Fields :=
  [inl (wire_id w); inr (wire_revision w); inl (wire_label w); inl (wire_prompt_text w)].

Definition persona_of (fields : Fields) : option PersonaWire :=
  match fields with
  | [inl id; inr revision; inl label; inl text] => Some (mkPersonaWire id revision label text)
  | _ => None
  end.

Definition policy_fields (w : CharacterPolicyWire) : Fields :=
  inl (wire_character_card_id w) ::
  match wire_policy w with WireSpecific id => [inl id] | WireNoPersona => [] end.

Definition policy_of (fields : Fields) : option CharacterPolicyWire :=
  match fields with
  | [inl card; inl id] => Some (mkPolicyWire card (WireSpecific id))
  | [inl card] => Some (mkPolicyWire card WireNoPersona)
  | _ => None
  end.

Definition meta_fields {P Q} (w : CatalogWire P Q) : Fields :=
  inr (wire_generation w) :: match wire_global_default w with Some id => [inl id] | None => [] end.

Definition meta_of (fields : Fields) : option (Z * option str) :=
  match fields with
  | [inr generation] => Some (generation, None)
  | [inr generation; inl id] => Some (generation, Some id)
  | _ => None
  end.

#[local] Instance is_u64_dec z : Decision (is_u64 z).
Proof. unfold is_u64. apply _. Defined.

Definition body (w : CatalogWire PersonaWire CharacterPolicyWire) : list (list Fields) :=
  [[meta_fields w]; map persona_fields (wire_personas w); map policy_fields (wire_character_policies w)].

Definition catalog_of (lists : list (list Fields)) : option (CatalogWire str str) :=
  match lists with
  | [[meta]; ps; qs] =>
      '(generation, default_id) ← meta_of meta;
      guard (is_u64 generation);; Some (mkCatalogWire generation (map put ps) default_id (map put qs))
  | _ => None
  end.

Definition envelope_of (lists : list (list Fields)) : option StateEnvelopeIn :=
  match lists with
  | [[inl format; inr version]] :: body => Some (mkStateEnvelope format version (put body))
  | _ => None
  end.

Definition checked_persona (raw : str) : option PersonaWire :=
  fields ← (take_back raw : option Fields);
  w ← persona_of fields;
  guard (is_u64 (wire_revision w));; Some w.

Definition checked_policy (raw : str) : option CharacterPolicyWire :=
  (take_back raw : option Fields) ≫= policy_of.

#[export] Instance binary_persona_json : PersonaJson := {
  to_vec_pretty format version w := Some (put ([[inl format; inr version]] :: body w));
  parse_state_envelope bytes := (take_back bytes : option (list (list Fields))) ≫= envelope_of;
  parse_catalog raw := (take_back raw : option (list (list Fields))) ≫= catalog_of;
  parse_persona := checked_persona;
  parse_policy := checked_policy;
  size_hint _ := None;
}.

Lemma meta_of_fields {P Q} (w : CatalogWire P Q) :
  meta_of (meta_fields w) = Some (wire_generation w, wire_global_default w).
Proof. unfold meta_fields. by destruct (wire_global_default w). Qed.

Lemma catalog_of_body w :
  is_u64 (wire_generation w) ->
  catalog_of (body w) =
  Some (mkCatalogWire (wire_generation w) (map put (map persona_fields (wire_personas w)))
          (wire_global_default w) (map put (map policy_fields (wire_character_policies w)))).
Proof.
  intros Hg. unfold catalog_of, body. rewrite meta_of_fields. cbn [mbind option_bind]. by rewrite option_guard_True.
Qed.

#[export] Instance binary_persona_laws : PersonaJsonLaws.
Proof.
  split.
  - intros format version w bytes Hg Hp [= <-].
    exists (put (body w)), (map put (map persona_fields (wire_personas w))),
      (map put (map policy_fields (wire_character_policies w))).
    cbn [parse_state_envelope parse_catalog parse_persona parse_policy binary_persona_json].
    split_and!.
    + by rewrite take_back_put.
    + rewrite take_back_put. cbn [mbind option_bind]. by apply catalog_of_body.
    + rewrite map_map. apply mapM_Some, Forall2_fmap_l. induction Hp as [|p l Hp Hl IH]; constructor; [|done].
      change (checked_persona (put (persona_fields p)) = Some p). unfold checked_persona.
      rewrite take_back_put. destruct p. cbn in *. by rewrite option_guard_True.
    + rewrite map_map. apply mapM_Some, Forall2_fmap_l.
      induction (wire_character_policies w) as [|q l IH]; constructor; [|done].
      change (checked_policy (put (policy_fields q)) = Some q). unfold checked_policy.
      rewrite take_back_put. by destruct q as [? []].
  - intros raw w. cbn [parse_catalog binary_persona_json]. destruct (take_back raw) as [lists|]; [|done].
    cbn [mbind option_bind]. unfold catalog_of. destruct lists as [|[|meta []] [|ps [|qs []]]]; try done.
    destruct (meta_of meta) as [[g d]|]; [|done]. cbn. case_guard; [|done]. by intros [= <-].
  - intros raw w. cbn [parse_persona binary_persona_json]. unfold checked_persona. destruct (take_back raw) as [fields|]; [|done].
    cbn [mbind option_bind]. destruct (persona_of fields) as [p|]; [|done]. cbn. case_guard; [|done]. by intros [= <-].
  - done.
Qed.

Definition stored_catalog : bytes := match serialize_state catalog with Ok bytes => bytes | Err _ => [] end.

Lemma catalog_stored : serialize_state catalog = Ok stored_catalog.
Proof. vm_compute. reflexivity. Qed.

Lemma catalog_well_formed : catalog_ok catalog.
Proof. apply run_ok; [apply new_ok|exact history_typed]. Qed.

Lemma persona_state_round_trip_witness : deserialize_state stored_catalog = Ok catalog.
Proof. exact (persona_state_round_trip catalog stored_catalog catalog_well_formed catalog_stored). Defined.

Lemma catalog_loads : deserialize_state stored_catalog = Ok catalog.
Proof. vm_compute. reflexivity. Qed.

Lemma restored_catalog_is_well_formed_witness : catalog_ok catalog.
Proof. exact (restored_catalog_is_well_formed stored_catalog catalog catalog_loads). Defined.
End PersonaExample.
