(* ===== verification/AssetModel.v ===== *)
(** * Assets: data model and content detection

    Models [model.rs], [error.rs] and [mime.rs] of [crates/lorepia-assets/src]: owners,
    references and requests with their checks, and the detection of the type of a file
    from its first 64 KiB and its last 16 bytes.

    A path or an I/O or SQLite error inside an [AssetError] carries no data here. *)

From S2P Require Import Prelude Bytes Utf8.

Inductive AssetError : Type :=
  | AssetIo
  | AssetDatabase
  | InvalidInput (field reason : string)
  | AssetNotFound (hash : str)
  | NotActive (hash state : str)
  | MimeMismatch (declared detected : str)
  | UnsupportedContent
  | LimitExceeded (limit_name : string) (limit : Z)
  | AssetCancelled
  | UnsafeFilesystem
  | SchemaVersion (found supported : Z)
  | IncompatibleCatalog (reason : string)
  | LockPoisoned
  | MutationBusy
  | SnapshotCancelled
  | HashMetadataConflict (hash : str).

#[export] Instance AssetError_eq_dec : EqDecision AssetError.
Proof. solve_decision. Defined.

Abbreviation AssetResult := (result AssetError).

Definition MAX_OWNER_TYPE_BYTES : Z := 64.
Definition MAX_OWNER_ID_BYTES : Z := 512.
Definition MAX_SOURCE_NAME_BYTES : Z := 4096.
Definition MAX_PAGE_SIZE : Z := 1000.
Definition BACKUP_SNAPSHOT_LEASE_TIMEOUT_MS : Z := 24 * 60 * 60 * 1000.
Definition MAX_BACKUP_SNAPSHOT_SESSIONS : Z := 128.
Definition TEMPORARY_OWNER_LEASE_TIMEOUT_MS : Z := 24 * 60 * 60 * 1000.
Definition MAX_TEMPORARY_OWNER_SESSIONS : Z := 128.

(** An [AssetHash] is its text. *)
Definition is_lower_hex (b : byte) : bool := is_ascii_digit b || in_range b 97 102.

Definition AssetHash_parse (value : str) : AssetResult str :=
  if negb (len value =? 64) || negb (forallb is_lower_hex value)
  then Err (InvalidInput "asset hash" "must be exactly 64 lowercase hexadecimal characters")
  else Ok value.

Inductive AssetMime : Type := Png | Jpeg | WebP | Gif | Wav | Mp3 | Ogg | Flac.

#[export] Instance AssetMime_eq_dec : EqDecision AssetMime.
Proof. solve_decision. Defined.

Definition AssetMime_as_str (m : AssetMime) : str :=
  match m with
  | Png => lit "image/png" | Jpeg => lit "image/jpeg" | WebP => lit "image/webp" | Gif => lit "image/gif"
  | Wav => lit "audio/wav" | Mp3 => lit "audio/mpeg" | Ogg => lit "audio/ogg" | Flac => lit "audio/flac"
  end.

Definition AssetMime_from_str (value : str) : AssetResult AssetMime :=
  let name := to_ascii_lowercase (trim value) in
  match List.find (fun m => str_eqb name (AssetMime_as_str m)) [Png; Jpeg; WebP; Gif; Wav; Mp3; Ogg; Flac] with
  | Some m => Ok m
  | None => Err (InvalidInput "declared MIME" "MIME is not in the product allowlist")
  end.

Record AssetLimits : Type := mkAssetLimits {
  max_object_bytes : Z;
  max_total_bytes : Z;
  max_image_width : Z;
  max_image_height : Z;
  max_image_pixels : Z;
}.

Definition I64_MAX : Z := 2 ^ 63 - 1.

Definition AssetLimits_new (max_object_bytes max_total_bytes : Z) : AssetResult AssetLimits :=
  if max_object_bytes =? 0 then Err (InvalidInput "max object bytes" "must be greater than zero")
  else if max_total_bytes <? max_object_bytes
  then Err (InvalidInput "max total bytes" "must be at least max object bytes")
  else if max_total_bytes >? I64_MAX
  then Err (InvalidInput "max total bytes" "must fit in SQLite's signed 64-bit INTEGER range")
  else Ok (mkAssetLimits max_object_bytes max_total_bytes 32768 32768 268435456).

Definition with_image_limits (self : AssetLimits) (max_width max_height max_pixels : Z) : AssetResult AssetLimits :=
  if (max_width =? 0) || (max_height =? 0) || (max_pixels =? 0)
  then Err (InvalidInput "image limits" "dimensions and pixel limit must be greater than zero")
  else Ok (mkAssetLimits (max_object_bytes self) (max_total_bytes self) max_width max_height max_pixels).

(** ** Owners, references and requests *)

Record AssetOwner : Type := mkOwner { owner_type : str; owner_id : str }.

#[export] Instance AssetOwner_eq_dec : EqDecision AssetOwner.
Proof. solve_decision. Defined.

#[export] Instance AssetOwner_countable : Countable AssetOwner.
Proof.
  apply (inj_countable' (fun o => (owner_type o, owner_id o)) (fun p => mkOwner p.1 p.2)).
  by intros [].
Defined.

Definition owner_type_byte (b : byte) : bool :=
  is_ascii_lowercase b || is_ascii_digit b || one_of "_-." b.

Definition validate_owner_type (value : str) : AssetResult unit :=
  if is_empty value || (len value >? MAX_OWNER_TYPE_BYTES)
  then Err (InvalidInput "owner type" "must be between 1 and 64 bytes")
  else if negb (forallb owner_type_byte value)
  then Err (InvalidInput "owner type" "must use lowercase ASCII letters, digits, dot, dash, or underscore")
  else Ok tt.

Definition contains_nul (value : str) : bool := existsb (byte_eqb (byte_of 0)) value.

Definition validate_owner_id (value : str) : AssetResult unit :=
  if is_empty value || (len value >? MAX_OWNER_ID_BYTES)
  then Err (InvalidInput "owner id" "must be between 1 and 512 bytes")
  else if contains_nul value then Err (InvalidInput "owner id" "must not contain NUL")
  else Ok tt.

Definition validate_owner (owner : AssetOwner) : AssetResult unit :=
  _ ← validate_owner_type (owner_type owner);
  validate_owner_id (owner_id owner).

Definition AssetOwner_new (owner_type owner_id : str) : AssetResult AssetOwner :=
  _ ← validate_owner_type owner_type;
  _ ← validate_owner_id owner_id;
  mret (mkOwner owner_type owner_id).

Record AssetReference : Type := mkReference { ref_owner : AssetOwner; ref_hash : str }.

Record IngestRequest : Type := mkIngestRequest {
  declared_mime : AssetMime;
  source_name : option str;
  ingest_owner : option AssetOwner;
}.

Definition IngestRequest_new (declared_mime : AssetMime) : IngestRequest :=
  mkIngestRequest declared_mime None None.

Definition with_source_name (self : IngestRequest) (source_name : str) : AssetResult IngestRequest :=
  if len source_name >? MAX_SOURCE_NAME_BYTES then Err (InvalidInput "source name" "is too long")
  else if contains_nul source_name then Err (InvalidInput "source name" "must not contain NUL")
  else Ok (mkIngestRequest (declared_mime self) (Some source_name) (ingest_owner self)).

Definition with_owner (self : IngestRequest) (owner : AssetOwner) : IngestRequest :=
  mkIngestRequest (declared_mime self) (source_name self) (Some owner).

Inductive AssetState : Type := Active | Missing | Quarantined.

#[export] Instance AssetState_eq_dec : EqDecision AssetState.
Proof. solve_decision. Defined.

Definition AssetState_as_str (s : AssetState) : str :=
  match s with Active => lit "active" | Missing => lit "missing" | Quarantined => lit "quarantined" end.

Record AssetObject : Type := mkAssetObject {
  object_hash : str;
  object_size : Z;
  object_mime : AssetMime;
  relative_path : str;
  object_state : AssetState;
  verified_at_ms : Z;
  created_at_ms : Z;
}.

Record AssetStats : Type := mkAssetStats {
  object_count : Z;
  active_bytes : Z;
  reference_count : Z;
  missing_count : Z;
  quarantined_count : Z;
  staging_count : Z;
}.

Record IngestOutcome : Type := mkIngestOutcome { outcome_object : AssetObject; deduplicated : bool }.

(** ** Content detection *)

Definition PROBE_BYTES : Z := 64 * 1024.
Definition TAIL_BYTES : Z := 16.

(** [bytes.get(start..end)]. *)
Definition get_range (bs : bytes) (start stop : Z) : option bytes :=
  if (start <=? stop) && (stop <=? len bs) then Some (slice bs (Z.to_nat start) (Z.to_nat stop)) else None.

Definition get_byte (bs : bytes) (i : Z) : option Z :=
  if (0 <=? i) && (i <? len bs) then byte_val <$> bs !! Z.to_nat i else None.

Definition from_be_bytes (bs : bytes) : Z := from_le_bytes (rev bs).

Definition bytes_of (values : list Z) : bytes := map byte_of values.

(** [windows(n).any(|window| window == needle)]. *)
Definition has_window (bs needle : bytes) : bool := contains bs needle.

Section detection.
Variable limits : AssetLimits.

Definition validate_dimensions (width height : Z) : AssetResult unit :=
  let pixels := Z.min U64_MAX (width * height) in
  if (width =? 0) || (height =? 0) || (width >? max_image_width limits)
     || (height >? max_image_height limits) || (pixels >? max_image_pixels limits)
  then Err (InvalidInput "image dimensions" "image dimensions exceed configured decode-safety limits")
  else Ok tt.

Definition png_dimensions (prefix : bytes) : option (Z * Z) :=
  if len prefix <? 33 then None
  else
    signature ← get_range prefix 0 8;
    if negb (str_eqb signature (byte_of 137 :: lit "PNG" ++ bytes_of [13; 10; 26; 10])) then None
    else
      length ← get_range prefix 8 12;
      if negb (str_eqb length (bytes_of [0; 0; 0; 13])) then None
      else
        name ← get_range prefix 12 16;
        if negb (str_eqb name (lit "IHDR")) then None
        else
          width ← get_range prefix 16 20;
          height ← get_range prefix 20 24;
          Some (from_be_bytes width, from_be_bytes height).

Definition gif_dimensions (prefix tail : bytes) : option (Z * Z) :=
  if (len prefix <? 13)
     || negb (starts_with prefix (lit "GIF87a") || starts_with prefix (lit "GIF89a"))
     || negb (ends_with tail (bytes_of [0x3b]))
  then None
  else
    width ← get_range prefix 6 8;
    height ← get_range prefix 8 10;
    Some (from_le_bytes width, from_le_bytes height).

Definition read_u24_le (bs : bytes) : option Z :=
  b0 ← get_byte bs 0;
  b1 ← get_byte bs 1;
  b2 ← get_byte bs 2;
  Some (Z.lor (Z.lor b0 (Z.shiftl b1 8)) (Z.shiftl b2 16)).

Definition webp_dimensions (prefix : bytes) (size : Z) : option (option Z * option Z) :=
  if len prefix <? 16 then None
  else
    riff ← get_range prefix 0 4;
    if negb (str_eqb riff (lit "RIFF")) then None
    else
      webp ← get_range prefix 8 12;
      if negb (str_eqb webp (lit "WEBP")) then None
      else
        declared ← get_range prefix 4 8;
        total ← checked_add U64_MAX (from_le_bytes declared) 8;
        if negb (total =? size) then None
        else
          kind ← get_range prefix 12 16;
          if str_eqb kind (lit "VP8X") && (30 <=? len prefix) then
            width ← get_range prefix 24 27 ≫= read_u24_le;
            height ← get_range prefix 27 30 ≫= read_u24_le;
            Some (Some (1 + width), Some (1 + height))
          else if str_eqb kind (lit "VP8L") && (25 <=? len prefix)
                  && bool_decide (get_byte prefix 20 = Some 47) then
            packed ← get_range prefix 21 25;
            let bits := from_le_bytes packed in
            Some (Some (Z.land bits 0x3fff + 1), Some (Z.land (Z.shiftr bits 14) 0x3fff + 1))
          else if str_eqb kind (lit "VP8 ") && (30 <=? len prefix) then
            marker ← get_range prefix 23 26;
            if negb (str_eqb marker (bytes_of [0x9d; 0x01; 0x2a])) then None
            else
              width ← get_range prefix 26 28;
              height ← get_range prefix 28 30;
              Some (Some (Z.land (from_le_bytes width) 0x3fff), Some (Z.land (from_le_bytes height) 0x3fff))
          else None.

(** [while prefix.get(cursor) == Some(&0xff) { cursor += 1; }]: the bytes from the
    cursor on, without the fill bytes, and how many were skipped. *)
Fixpoint skip_fill (bs : bytes) : Z * bytes :=
  match bs with
  | b :: bs' => if byte_val b =? 255 then let '(n, rest) := skip_fill bs' in (n + 1, rest) else (0, bs)
  | [] => (0, [])
  end.

Definition frame_marker (marker : Z) : bool :=
  existsb (Z.eqb marker) [0xc0; 0xc1; 0xc2; 0xc3; 0xc5; 0xc6; 0xc7; 0xc9; 0xca; 0xcb; 0xcd; 0xce; 0xcf].

(** The outer loop; [None] is an exhausted bound, [Some None] a file without a frame. *)
Fixpoint jpeg_loop (fuel : nat) (prefix : bytes) (cursor : Z) : option (option (Z * Z)) :=
  if cursor + 4 <=? len prefix then
    match fuel with
    | O => None
    | S fuel' =>
        let '(skipped, rest) := skip_fill (drop (Z.to_nat cursor) prefix) in
        let cursor := cursor + skipped in
        match rest with
        | [] => Some None
        | b :: _ =>
            let marker := byte_val b in
            let cursor := cursor + 1 in
            if (marker =? 0xd8) || (marker =? 0xd9) then jpeg_loop fuel' prefix cursor
            else if marker =? 0xda then Some None
            else
              match get_range prefix cursor (cursor + 2) with
              | None => Some None
              | Some length_bytes =>
                  let length := from_be_bytes length_bytes in
                  if (length <? 2) || (cursor + length >? len prefix) then Some None
                  else if frame_marker marker && (7 <=? length) then
                    Some (height ← get_range prefix (cursor + 3) (cursor + 5);
                          width ← get_range prefix (cursor + 5) (cursor + 7);
                          Some (from_be_bytes width, from_be_bytes height))
                  else jpeg_loop fuel' prefix (cursor + length)
              end
        end
    end
  else Some None.

Definition jpeg_dimensions (prefix tail : bytes) : option (Z * Z) :=
  if negb (starts_with prefix (bytes_of [0xff; 0xd8; 0xff])) || negb (ends_with tail (bytes_of [0xff; 0xd9]))
  then None
  else default None (jpeg_loop (length prefix) prefix 2).

Definition valid_wav (prefix : bytes) (size : Z) : bool :=
  if (len prefix <? 44) || negb (starts_with prefix (lit "RIFF"))
     || negb (bool_decide (get_range prefix 8 12 = Some (lit "WAVE")))
  then false
  else
    bool_decide (checked_add U64_MAX (from_le_bytes (slice prefix 4 8)) 8 = Some size)
    && has_window prefix (lit "fmt ") && has_window prefix (lit "data").

Definition valid_mp3 (prefix : bytes) : bool :=
  let sync (offset : Z) :=
    match get_range prefix offset (Z.min USIZE_MAX (offset + 2)) with
    | Some [b0; b1] =>
        (byte_val b0 =? 0xff) && (Z.land (byte_val b1) 0xe0 =? 0xe0) && negb (Z.land (byte_val b1) 0x06 =? 0)
    | _ => false
    end in
  if starts_with prefix (lit "ID3") then
    if (len prefix <? 10) || existsb (fun b => negb (Z.land (byte_val b) 0x80 =? 0)) (slice prefix 6 10)
    then false
    else
      let size := foldl (fun value b => Z.lor (Z.shiftl value 7) (byte_val b)) 0 (slice prefix 6 10) in
      sync (Z.min USIZE_MAX (10 + size))
  else sync 0.

Definition valid_ogg (prefix : bytes) : bool :=
  (32 <=? len prefix) && starts_with prefix (lit "OggS") && bool_decide (get_byte prefix 4 = Some 0)
  && (has_window prefix (lit "OpusHead") || has_window prefix (byte_of 1 :: lit "vorbis")).

Definition detect (prefix tail : bytes) (size : Z) : AssetResult AssetMime :=
  match png_dimensions prefix with
  | Some (width, height) => _ ← validate_dimensions width height; Ok Png
  | None =>
  match gif_dimensions prefix tail with
  | Some (width, height) => _ ← validate_dimensions width height; Ok Gif
  | None =>
  match webp_dimensions prefix size with
  | Some (width, height) =>
      _ ← match width, height with
          | Some width, Some height => validate_dimensions width height
          | _, _ => Ok tt
          end;
      Ok WebP
  | None =>
  match jpeg_dimensions prefix tail with
  | Some (width, height) => _ ← validate_dimensions width height; Ok Jpeg
  | None =>
      if valid_wav prefix size then Ok Wav
      else if valid_mp3 prefix then Ok Mp3
      else if valid_ogg prefix then Ok Ogg
      else if starts_with prefix (lit "fLaC") && (42 <=? size) then Ok Flac
      else Err UnsupportedContent
  end end end end.

Definition validate_mime (declared : AssetMime) (prefix tail : bytes) (size : Z) : AssetResult AssetMime :=
  detected ← detect prefix tail size;
  if negb (bool_decide (detected = declared))
  then Err (MimeMismatch (AssetMime_as_str declared) (AssetMime_as_str detected))
  else Ok detected.
End detection.
