(* ===== verification/ImportPath.v ===== *)
(** * Card import: archive paths

    Models [crates/lorepia-import/src/path_policy.rs] with the limits and errors of
    [model.rs] and [error.rs]: which names of an untrusted archive are accepted, and
    when two accepted names collide on some file system.

    Unicode normalisation and the case tables are the class [PathLib].  [HashSet] is
    a [gset]; [insert_unique] is in [ST] over the two sets because a refused path
    leaves the parents registered before the refusal. *)

From stdpp Require Import gmap.
From S2P Require Import Prelude Bytes Utf8.

Inductive ImportErrorCode : Type :=
  | Busy | ImportCancelled | SourceTooLarge | UnsupportedFormat | ArchiveMalformed
  | UnsupportedCompression | EntryCountLimit | EntrySizeLimit | TotalSizeLimit
  | CompressionRatioLimit | UnsafePath | DuplicatePath | UnsafeEntryType | UnsupportedFileType
  | PngMalformed | PngDimensionLimit | PngMetadataLimit | PngAnimationUnsupported
  | MetadataMalformed | AssetRejected | StagingFailure | CleanupFailure | ImportInternal.

#[export] Instance ImportErrorCode_eq_dec : EqDecision ImportErrorCode.
Proof. solve_decision. Defined.

Record ImportError : Type := mkImportError {
  error_code : ImportErrorCode;
  cleanup_pending : bool;
  rejected_entries : Z;
}.

Definition ImportError_new (code : ImportErrorCode) : ImportError := mkImportError code false 1.

Abbreviation ImportResult := (result ImportError).

Record ImportLimits : Type := mkImportLimits {
  max_source_bytes : Z;
  max_archive_entries : Z;
  max_entry_bytes : Z;
  max_total_uncompressed_bytes : Z;
  max_compression_ratio : Z;
  max_path_bytes : Z;
  max_component_bytes : Z;
  max_path_depth : Z;
  max_zip_extra_bytes : Z;
  copy_buffer_bytes : Z;
  max_png_bytes : Z;
  max_png_chunks : Z;
  max_png_chunk_bytes : Z;
  max_png_metadata_bytes : Z;
  max_png_width : Z;
  max_png_height : Z;
  max_png_pixels : Z;
  max_png_decode_bytes : Z;
  max_metadata_bytes : Z;
}.

Definition ImportLimits_default : ImportLimits := {|
  max_source_bytes := 256 * 1024 * 1024;
  max_archive_entries := 2048;
  max_entry_bytes := 64 * 1024 * 1024;
  max_total_uncompressed_bytes := 512 * 1024 * 1024;
  max_compression_ratio := 200;
  max_path_bytes := 512;
  max_component_bytes := 128;
  max_path_depth := 16;
  max_zip_extra_bytes := 16 * 1024;
  copy_buffer_bytes := 64 * 1024;
  max_png_bytes := 64 * 1024 * 1024;
  max_png_chunks := 4096;
  max_png_chunk_bytes := 32 * 1024 * 1024;
  max_png_metadata_bytes := 4 * 1024 * 1024;
  max_png_width := 16384;
  max_png_height := 16384;
  max_png_pixels := 67108864;
  max_png_decode_bytes := 256 * 1024 * 1024;
  max_metadata_bytes := 8 * 1024 * 1024 |}.

Definition import_limits_validate (l : ImportLimits) : ImportResult unit :=
  if (max_source_bytes l =? 0) || (max_archive_entries l =? 0) || (max_entry_bytes l =? 0)
     || (max_total_uncompressed_bytes l <? max_entry_bytes l)
     || (max_compression_ratio l =? 0) || (max_path_bytes l =? 0) || (max_component_bytes l =? 0)
     || (max_path_depth l =? 0) || (max_zip_extra_bytes l =? 0)
     || negb ((4 * 1024 <=? copy_buffer_bytes l) && (copy_buffer_bytes l <=? 1024 * 1024))
     || (max_png_bytes l =? 0) || (max_png_chunks l =? 0) || (max_png_chunk_bytes l =? 0)
     || (max_png_metadata_bytes l =? 0) || (max_png_width l =? 0) || (max_png_height l =? 0)
     || (max_png_pixels l =? 0) || (max_png_decode_bytes l =? 0) || (max_metadata_bytes l =? 0)
  then Err (ImportError_new ImportInternal) else Ok tt.

(** [str::nfc] of [unicode_normalization], [char::to_uppercase], [char::to_lowercase]. *)
Class PathLib : Type := {
  path_nfc : str -> str;
  path_uppercase : Z -> list Z;
  path_lowercase : Z -> list Z;
}.

(** A slash is a character of its own: neither normalisation nor the case tables join it
    with what stands around it. *)
Class PathLaws `{PathLib} : Prop := {
  nfc_slash a b : path_nfc (a ++ SLASH :: b) = path_nfc a ++ SLASH :: path_nfc b;
  uppercase_slash : path_uppercase (byte_val SLASH) = [byte_val SLASH];
  lowercase_slash : path_lowercase (byte_val SLASH) = [byte_val SLASH];
}.

Record PortablePath : Type := mkPath {
  logical : str;
  collision_key : str;
  components : list str;
  is_directory : bool;
}.

Definition BACKSLASH : byte := byte_of 92.
Definition PATH_COLON : byte := byte_of 58.
Definition PATH_NUL : byte := byte_of 0.

Definition has_byte (c : byte) (s : str) : bool := existsb (byte_eqb c) s.

Definition is_reserved_char (c : Z) : bool :=
  (c =? 60) || (c =? 62) || (c =? 34) || (c =? 124) || (c =? 63) || (c =? 42).

(** [str::trim_end_matches('/')]. *)
Fixpoint drop_slashes (s : str) : str :=
  match s with
  | c :: s' => if byte_eqb c SLASH then drop_slashes s' else s
  | [] => []
  end.
Definition trim_end_slashes (s : str) : str := rev (drop_slashes (rev s)).

(** The superscript digits Windows takes for digits. *)
Definition device_digit (c : Z) : Z :=
  if c =? 185 then 49 else if c =? 178 then 50 else if c =? 179 then 51 else c.

Definition to_ascii_uppercase_byte (b : byte) : byte :=
  if is_ascii_lowercase b then byte_of (byte_val b - 32) else b.

Definition device_name (upper : str) : bool :=
  existsb (fun n => str_eqb upper (lit n))
    ["CON"; "PRN"; "AUX"; "NUL"; "CLOCK$"; "CONIN$"; "CONOUT$"].

Definition device_port (upper : str) : bool :=
  existsb (fun prefix =>
    starts_with upper (lit prefix) &&
    existsb (fun d => str_eqb (drop 3 upper) (lit d))
      ["1"; "2"; "3"; "4"; "5"; "6"; "7"; "8"; "9"]) ["COM"; "LPT"].

Definition is_windows_device (component : str) : bool :=
  let stem := match split_on (byte_of 46) component with s :: _ => s | [] => component end in
  let upper := map to_ascii_uppercase_byte (utf8_encode (map device_digit (chars stem))) in
  device_name upper || device_port upper.

Definition component_ok (max_component_bytes : Z) (component : str) : bool :=
  negb (is_empty component || str_eqb component (lit ".") || str_eqb component (lit "..")
        || (len component >? max_component_bytes)
        || ends_with component (lit ".") || ends_with component (lit " ")
        || existsb (fun c => is_control c || is_reserved_char c) (chars component)
        || is_windows_device component).

Section paths.
Context `{PathLib}.

Definition portable_case_key (value : str) : str :=
  path_nfc (utf8_encode
    (flat_map path_lowercase (flat_map path_uppercase (chars value)))).

Definition unsafe_path : ImportError := ImportError_new UnsafePath.
Definition duplicate_path : ImportError := ImportError_new DuplicatePath.

Definition validate_path (raw : bytes) (directory_hint : bool) (limits : ImportLimits) :
    ImportResult PortablePath :=
  raw ← from_utf8 raw unsafe_path;
  if is_empty raw || has_byte PATH_NUL raw || starts_with raw [SLASH]
     || starts_with raw [BACKSLASH] || has_byte BACKSLASH raw || has_byte PATH_COLON raw
     || (len raw >? max_path_bytes limits) || negb (str_eqb (path_nfc raw) raw)
  then Err unsafe_path
  else if negb (Bool.eqb (ends_with raw [SLASH]) directory_hint) then Err unsafe_path
  else
    let logical := trim_end_slashes raw in
    if is_empty logical then Err unsafe_path
    else
      let components := split_on SLASH logical in
      _ ← forM_result (fun component =>
            ensure (component_ok (max_component_bytes limits) component) unsafe_path) components;
      if len components >? max_path_depth limits then Err unsafe_path
      else Ok (mkPath logical (portable_case_key logical) components directory_hint).

(** ** Collisions *)

Record PathSets : Type := mkSets { files : gset str; directories : gset str }.

(** [for depth in 1..path.components.len()]: the keys of the directories above a
    path. *)
Definition parent_keys (path : PortablePath) : list str :=
  map (fun depth => portable_case_key (join [SLASH] (take depth (components path))))
    (seq 1 (length (components path) - 1)).

Fixpoint register_parents (parents : list str) : ST PathSets ImportError unit :=
  match parents with
  | [] => mret tt
  | parent :: parents' =>
      self ← st_get;
      if bool_decide (parent ∈ files self) then st_lift (Err duplicate_path)
      else
        _ ← st_put (mkSets (files self) ({[parent]} ∪ directories self));
        register_parents parents'
  end.

Definition below (key existing : str) : bool := starts_with existing (key ++ [SLASH]).

Definition insert_unique (path : PortablePath) : ST PathSets ImportError unit :=
  self ← st_get;
  let key := collision_key path in
  if bool_decide (key ∈ files self) || bool_decide (key ∈ directories self)
  then st_lift (Err duplicate_path)
  else if is_directory path
  then st_put (mkSets (files self) ({[key]} ∪ directories self))
  else
    _ ← register_parents (parent_keys path);
    self ← st_get;
    if existsb (below key) (elements (files self)) ||
       existsb (below key) (elements (directories self))
    then st_lift (Err duplicate_path)
    else st_put (mkSets ({[key]} ∪ files self) (directories self)).

(** The archive loop: every path in turn. *)
Fixpoint insert_all (paths : list PortablePath) : ST PathSets ImportError unit :=
  match paths with
  | [] => mret tt
  | path :: paths' => _ ← insert_unique path; insert_all paths'
  end.
End paths.

(** ** Accepted paths stay inside the archive's root *)

(** How an operating system reads a relative path, whichever separator it uses: a
    drive or stream prefix and an absolute path leave the root, empty and [.] pieces
    stay where they are, [..] goes up and fails above the root. *)

Definition is_separator (b : byte) : bool := byte_eqb b SLASH || byte_eqb b BACKSLASH.

Definition pieces_of (sep : byte -> bool) (s : str) : list str :=
  (segments sep s).1 ++ [(segments sep s).2].

Definition resolve_step (dir : option (list str)) (piece : str) : option (list str) :=
  dir ≫= fun dir =>
    if is_empty piece || str_eqb piece (lit ".") then Some dir
    else if str_eqb piece (lit "..")
    then match rev dir with [] => None | _ :: up => Some (rev up) end
    else Some (dir ++ [piece]).

Definition resolve (path : str) : option (list str) :=
  if starts_with path [SLASH] || starts_with path [BACKSLASH] || has_byte PATH_COLON path
  then None else foldl resolve_step (Some []) (pieces_of is_separator path).

Record safe_component (max : Z) (c : str) : Prop := {
  sc_named : c <> [] /\ c <> lit "." /\ c <> lit "..";
  sc_length : len c <= max;
  sc_bytes : SLASH ∉ c /\ BACKSLASH ∉ c /\ PATH_COLON ∉ c /\ PATH_NUL ∉ c;
  sc_end : ends_with c (lit ".") = false /\ ends_with c (lit " ") = false;
  sc_device : is_windows_device c = false;
}.

Lemma has_byte_false c s : has_byte c s = false <-> c ∉ s.
Proof.
  unfold has_byte. rewrite <- not_true_iff_false, existsb_exists. split.
  - intros Hn Hin. apply Hn. exists c. rewrite byte_eqb_refl. split; [by apply list_elem_of_In|done].
  - intros Hn (x & Hx%list_elem_of_In & ->%byte_eqb_eq). done.
Qed.

Lemma split_on_pieces c s : split_on c s = pieces_of (fun b => byte_eqb b c) s.
Proof.
  unfold pieces_of. induction s as [|x s IH]; cbn [split_on segments]; [done|].
  rewrite IH. destruct (segments (fun b => byte_eqb b c) s) as [[|p closed] open]; cbn [fst snd];
    by destruct (byte_eqb x c).
Qed.

Lemma split_on_no_sep c s : Forall (fun p => c ∉ p) (split_on c s).
Proof.
  induction s as [|x s IH]; cbn [split_on].
  { constructor; [apply not_elem_of_nil|constructor]. }
  destruct (byte_eqb x c) eqn:Hx; [constructor; [apply not_elem_of_nil|done]|].
  apply byte_eqb_neq in Hx. inversion IH as [|p rest Hp Hrest]; subst.
  - constructor; [|constructor]. rewrite list_elem_of_singleton. congruence.
  - constructor; [|done]. rewrite not_elem_of_cons. split; [congruence|done].
Qed.

Lemma split_on_bytes c s p b : p ∈ split_on c s -> b ∈ p -> b ∈ s.
Proof.
  revert p. induction s as [|x s IH]; intros p; cbn [split_on].
  { by intros ->%list_elem_of_singleton. }
  destruct (byte_eqb x c) eqn:Hx.
  { intros [->|Hp]%elem_of_cons Hb; [by apply not_elem_of_nil in Hb|]. right. by eapply IH. }
  destruct (split_on c s) as [|q rest].
  { intros ->%list_elem_of_singleton ->%list_elem_of_singleton. left. }
  intros [->|Hp]%elem_of_cons Hb.
  - apply elem_of_cons in Hb as [->|Hb]; [left|right]. apply (IH q); [left|done].
  - right. apply (IH p); [by right|done].
Qed.

Lemma trim_end_slashes_app s :
  exists n, s = trim_end_slashes s ++ repeat SLASH n /\ (ends_with s [SLASH] = true <-> (0 < n)%nat).
Proof.
  unfold trim_end_slashes, ends_with. rewrite <- (rev_involutive s). generalize (rev s). clear s.
  intros s. rewrite rev_involutive. exists (length s - length (drop_slashes s))%nat.
  assert (Hle : forall s, (length (drop_slashes s) <= length s)%nat).
  { clear s. intros s. induction s as [|c s IH]; cbn [drop_slashes length]; [done|].
    destruct (byte_eqb c SLASH); cbn [length]; lia. }
  induction s as [|c s IH].
  { split; [done|]. split; [done|cbn; lia]. }
  cbn [drop_slashes]. pose proof (Hle s).
  destruct (byte_eqb c SLASH) eqn:Hc.
  - apply byte_eqb_eq in Hc as ->. cbn [length]. destruct IH as [IH _]. split.
    + cbn [rev]. rewrite IH at 1. rewrite <- app_assoc. f_equal.
      change [SLASH] with (repeat SLASH 1). rewrite <- repeat_app. f_equal. lia.
    + split; [lia|]. intros _. cbn [rev app starts_with]. by rewrite byte_eqb_refl; destruct s.
  - rewrite Nat.sub_diag, app_nil_r. split; [done|].
    split; [|lia]. cbn [rev app starts_with]. by rewrite Hc.
Qed.

Lemma segments_ext_in {A} (f g : A -> bool) l :
  (forall x, x ∈ l -> f x = g x) -> segments f l = segments g l.
Proof.
  induction l as [|x l IH]; intros Hfg; cbn [segments]; [done|].
  rewrite IH, (Hfg x) by (try left; intros; apply Hfg; by right). done.
Qed.

Lemma pieces_trailing l n :
  pieces_of (fun b => byte_eqb b SLASH) (l ++ repeat SLASH n) =
  pieces_of (fun b => byte_eqb b SLASH) l ++ repeat [] n.
Proof.
  induction n as [|n IH]; [by rewrite !app_nil_r|].
  cbn [repeat]. rewrite !repeat_cons, app_assoc. unfold pieces_of in *. rewrite segments_snoc.
  rewrite byte_eqb_refl. cbn [fst snd]. by rewrite IH, <- app_assoc.
Qed.

Lemma resolve_named dir ps :
  Forall (fun p => p <> [] /\ p <> lit "." /\ p <> lit "..") ps ->
  foldl resolve_step (Some dir) ps = Some (dir ++ ps).
Proof.
  intros Hps. revert dir. induction Hps as [|p ps (H1 & H2 & H3) _ IH]; intros dir; cbn [foldl].
  { by rewrite app_nil_r. }
  unfold resolve_step at 2. cbn [mbind option_bind].
  rewrite (proj2 (is_empty_false p)), (proj2 (str_eqb_neq p _)), (proj2 (str_eqb_neq p _)) by done.
  cbn [orb]. by rewrite IH, <- app_assoc.
Qed.

Lemma resolve_empty dir n : foldl resolve_step (Some dir) (repeat [] n) = Some dir.
Proof. by induction n. Qed.

Lemma component_ok_safe limits s p :
  BACKSLASH ∉ s -> PATH_COLON ∉ s -> PATH_NUL ∉ s ->
  p ∈ split_on SLASH s -> component_ok (max_component_bytes limits) p = true ->
  safe_component (max_component_bytes limits) p.
Proof.
  intros Hb Hc Hn Hp Hok. unfold component_ok in Hok. zify_bool.
  assert (Hin : forall b, b ∉ s -> b ∉ p).
  { intros b Hs Hbp. apply Hs. by eapply split_on_bytes. }
  pose proof (split_on_no_sep SLASH s) as Hs. rewrite Forall_forall in Hs.
  split; [| |repeat split|done|done]; [|lia|by apply Hs, list_elem_of_In|by apply Hin..].
  repeat split; [by apply is_empty_false|by apply str_eqb_neq..].
Qed.

Section path_facts.
Context `{PathLib}.

(** C36: A path accepted from an archive names something inside the archive's root on
    every system: its components are non-empty, bounded, free of separators, drive
    and stream marks, trailing dots and spaces and device names, they spell the
    logical path, and resolving the raw name, with either separator, gives exactly
    these components below the root. *)
Theorem accepted_path_stays_inside (raw : bytes) (directory_hint : bool) (limits : ImportLimits)
    (path : PortablePath) :
  validate_path raw directory_hint limits = Ok path ->
  Forall (safe_component (max_component_bytes limits)) (components path) /\
  0 < len (components path) <= max_path_depth limits /\
  logical path = join [SLASH] (components path) /\
  is_directory path = directory_hint /\
  (exists n, raw = logical path ++ repeat SLASH n /\ (directory_hint = true <-> (0 < n)%nat)) /\
  resolve raw = Some (components path).
Proof.
  unfold validate_path. intros (raw' & Hu & Hv)%bind_Ok.
  assert (raw' = raw) as -> by (unfold from_utf8 in Hu; destruct (utf8_decode raw); by simplify_eq).
  case_hyp Hv. destruct (Bool.eqb (ends_with raw [SLASH]) directory_hint) eqn:Hdir; [|done].
  cbn [negb] in Hv. case_hyp Hv. apply bind_Ok in Hv as ([] & Hall%forM_result_Ok & Hv).
  case_hyp Hv. zify_bool. apply eqb_prop in Hdir. cbn [components logical is_directory] in *.
  repeat match goal with H : has_byte _ _ = false |- _ => apply has_byte_false in H end.
  destruct (trim_end_slashes_app raw) as (n & Hraw & Hn).
  assert (Htrim : forall b, b ∉ raw -> b ∉ trim_end_slashes raw).
  { intros b Hb Hin. apply Hb. rewrite Hraw. apply elem_of_app. by left. }
  assert (Hsafe : Forall (safe_component (max_component_bytes limits))
                    (split_on SLASH (trim_end_slashes raw))).
  { apply Forall_forall. intros p Hp%list_elem_of_In. rewrite Forall_forall in Hall.
    eapply component_ok_safe; [by apply Htrim..|done|].
    by eapply ensure_Ok, Hall, list_elem_of_In. }
  split; [done|]. split.
  { split; [|lia]. destruct (split_on SLASH _) eqn:Hs; [|unfold len; cbn; lia].
    rewrite split_on_pieces in Hs. unfold pieces_of in Hs. by apply app_nil in Hs as [_ ?]. }
  rewrite join_split_on. split; [done|]. split; [done|]. split.
  { exists n. split; [done|]. by rewrite <- Hdir. }
  unfold resolve. rewrite (proj2 (has_byte_false PATH_COLON raw)) by done.
  repeat match goal with E : starts_with raw _ = false |- _ => rewrite E; clear E end. cbn [orb].
  assert (Hp : pieces_of is_separator raw = split_on SLASH (trim_end_slashes raw) ++ repeat [] n).
  { rewrite split_on_pieces, <- pieces_trailing, <- Hraw. unfold pieces_of.
    rewrite (segments_ext_in is_separator (fun b => byte_eqb b SLASH)); [done|].
    intros b Hb. unfold is_separator. rewrite (proj2 (byte_eqb_neq b BACKSLASH)) by congruence.
    apply orb_false_r. }
  rewrite Hp, foldl_app, resolve_named, resolve_empty; [done|].
  eapply Forall_impl; [|exact Hsafe]. intros c Hc. apply (sc_named _ _ Hc).
Qed.

(** ** Accepted paths do not collide *)

(** What a path accepted earlier left in the sets. *)
Definition registered (sets : PathSets) (q : PortablePath) : Prop :=
  if is_directory q then collision_key q ∈ directories sets
  else collision_key q ∈ files sets /\
       forall k, k ∈ parent_keys q -> k ∈ directories sets.

Definition grows (s s' : PathSets) : Prop :=
  files s ⊆ files s' /\ directories s ⊆ directories s'.

Lemma registered_grows s s' q : grows s s' -> registered s q -> registered s' q.
Proof. intros [Hf Hd]. unfold registered. destruct (is_directory q); set_solver. Qed.

Lemma register_parents_ok parents s s' u :
  register_parents parents s = (s', Ok u) ->
  files s' = files s /\ directories s ⊆ directories s' /\
  forall k, k ∈ parents -> k ∉ files s /\ k ∈ directories s'.
Proof.
  revert s. induction parents as [|k parents IH]; intros s; cbn [register_parents].
  { intros [= <-]. split; [done|]. split; [done|]. by intros k Hk%elem_of_nil. }
  unfold mbind, ST_bind, st_get at 1. destruct (bool_decide (k ∈ files s)) eqn:Hk; [done|].
  apply bool_decide_eq_false in Hk. cbn. intros (Hf & Hd & Hp)%IH.
  cbn [files directories] in *. split; [done|]. split; [set_solver|].
  intros k' [->|Hin]%elem_of_cons; [split; [done|set_solver]|by apply Hp].
Qed.

(** A file and another entry that cannot both be on one file system: they have one key,
    or the file is a directory above the other. *)
Definition clashes (file other : PortablePath) : Prop :=
  is_directory file = false /\
  (collision_key file = collision_key other \/ collision_key file ∈ parent_keys other).

(** A path as [validate_path] returns it. *)
Definition spelled (p : PortablePath) : Prop :=
  utf8_valid (logical p) /\ logical p = join [SLASH] (components p) /\ collision_key p = portable_case_key (logical p).

Lemma validate_path_spelled raw hint limits p : validate_path raw hint limits = Ok p -> spelled p.
Proof.
  unfold validate_path. intros (raw' & Hu & Hv)%bind_Ok.
  assert (utf8_valid raw' /\ raw' = raw) as [Hutf ->].
  { unfold from_utf8 in Hu. unfold utf8_valid. destruct (utf8_decode raw) as [cs|] eqn:Hd; [|done]. injection Hu as <-. by split; [exists cs|]. }
  case_hyp Hv. destruct (Bool.eqb _ _); [|done]. cbn [negb] in Hv. case_hyp Hv. apply bind_Ok in Hv as ([] & _ & Hv). case_hyp Hv.
  unfold spelled. cbn. rewrite join_split_on. split; [|done].
  destruct (trim_end_slashes_app raw) as (n & Hraw & _).
  destruct n as [|n]; [by rewrite app_nil_r in Hraw; rewrite <- Hraw|].
  rewrite Hraw in Hutf. by eapply (utf8_valid_before_ascii _ SLASH).
Qed.

Lemma portable_case_key_slash `{!PathLaws} a b : utf8_valid (a ++ SLASH :: b) ->
  portable_case_key (a ++ SLASH :: b) = portable_case_key a ++ SLASH :: portable_case_key b.
Proof.
  intros Hv. unfold portable_case_key. rewrite chars_ascii_split by done. rewrite !flat_map_app. cbn [flat_map].
  rewrite uppercase_slash. cbn [app flat_map]. rewrite lowercase_slash, utf8_encode_app. cbn [app].
  rewrite utf8_encode_cons. change (utf8_encode_char (byte_val SLASH)) with [SLASH]. cbn [app]. apply nfc_slash.
Qed.

Lemma join_take_drop sep n (l : list str) : (0 < n < length l)%nat -> join sep l = join sep (take n l) ++ sep ++ join sep (drop n l).
Proof.
  revert n. induction l as [|x l IH]; intros n Hn; cbn [length] in Hn; [lia|]. destruct n as [|n]; [lia|].
  cbn [take drop]. destruct l as [|y l]; cbn [length] in Hn; [lia|]. destruct n as [|n].
  - done.
  - change (join sep (x :: y :: l)) with (x ++ sep ++ join sep (y :: l)). rewrite (IH (S n)) by (cbn [length]; lia).
    cbn [take drop]. change (join sep (x :: y :: take n l)) with (x ++ sep ++ join sep (y :: take n l)). by rewrite <- !app_assoc.
Qed.

(** The key of a directory above a path is above the key of the path. *)
Lemma parent_above `{!PathLaws} p k : spelled p -> k ∈ parent_keys p -> below k (collision_key p) = true.
Proof.
  intros (Hv & Hl & ->) (n & -> & Hn)%list_elem_of_fmap. apply elem_of_seq in Hn. unfold below. apply starts_with_app.
  rewrite Hl in Hv |- *. rewrite (join_take_drop _ n) in Hv |- * by lia.
  exists (portable_case_key (join [SLASH] (drop n (components p)))). rewrite <- app_assoc. by apply portable_case_key_slash.
Qed.

Lemma insert_unique_ok `{!PathLaws} s s' p u :
  insert_unique p s = (s', Ok u) ->
  grows s s' /\ registered s' p /\
  forall q, registered s q -> spelled q ->
    collision_key q <> collision_key p /\ (clashes q p -> is_directory p = true) /\ ~ clashes p q.
Proof.
  unfold insert_unique. unfold mbind, ST_bind, st_get at 1. cbv zeta.
  destruct (bool_decide (collision_key p ∈ files s)) eqn:Hf; [done|].
  destruct (bool_decide (collision_key p ∈ directories s)) eqn:Hd; [done|]. cbn [orb].
  apply bool_decide_eq_false in Hf, Hd.
  assert (Hkey : forall q, registered s q -> collision_key q <> collision_key p).
  { intros q Hq He. unfold registered in Hq. rewrite He in Hq. destruct (is_directory q); tauto. }
  destruct (is_directory p) eqn:Hp.
  - intros [= <-]. split; [split; cbn; set_solver|]. split.
    { unfold registered. rewrite Hp. cbn. set_solver. }
    intros q Hq _. split_and!; [by apply Hkey|done|]. intros [Hfile _]. congruence.
  - cbn. destruct (register_parents _ _) as [s1 [u1|e]] eqn:Hr; [|done].
    apply register_parents_ok in Hr as (Hfiles & Hdirs & Hpar). cbn.
    destruct (existsb _ _ || existsb _ _) eqn:Hbelow; [done|]. intros [= <-].
    apply orb_false_iff in Hbelow as [_ Hbelow].
    split; [split; cbn; set_solver|]. split.
    { unfold registered. rewrite Hp. cbn. split; [set_solver|]. intros k Hk. by apply Hpar. }
    intros q Hq Hsp. split_and!; [by apply Hkey| |]; intros [Hfile [Hc|Hc]]; try (by destruct (Hkey q Hq)).
    + apply Hpar in Hc as [Hc _]. unfold registered in Hq. rewrite Hfile in Hq. tauto.
    + unfold registered in Hq. destruct (is_directory q) eqn:Hqd; [|by apply Hq in Hc].
      apply parent_above in Hc; [|done]. apply not_true_iff_false in Hbelow. apply Hbelow, existsb_exists.
      exists (collision_key q). split; [|done]. apply list_elem_of_In, elem_of_elements. set_solver.
Qed.

Lemma insert_all_ok `{!PathLaws} seen paths s s' u :
  insert_all paths s = (s', Ok u) -> Forall (registered s) seen -> Forall spelled (seen ++ paths) ->
  forall i j p q, (seen ++ paths) !! i = Some p -> (seen ++ paths) !! j = Some q ->
    (length seen <= j)%nat -> (i < j)%nat ->
    collision_key p <> collision_key q /\ (clashes p q -> is_directory q = true) /\ ~ clashes q p.
Proof.
  revert seen s. induction paths as [|r paths IH]; intros seen s; cbn [insert_all].
  { intros _ _ _ i j p q _ Hj Hlen _. rewrite app_nil_r in Hj.
    apply lookup_lt_Some in Hj. lia. }
  unfold mbind, ST_bind. destruct (insert_unique r s) as [s1 [u1|e]] eqn:Hr; [|done]. intros Hall Hseen Hspell.
  apply insert_unique_ok in Hr as (Hgrow & Hreg & Hclash).
  intros i j p q Hi Hj Hlen Hij. destruct (decide (j = length seen)) as [->|Hne].
  - rewrite list_lookup_middle in Hj by done. injection Hj as <-. apply Hclash.
    + rewrite lookup_app_l in Hi by lia.
      rewrite Forall_forall in Hseen. apply Hseen, list_elem_of_In. by eapply list_elem_of_lookup_2.
    + rewrite Forall_forall in Hspell. apply Hspell, list_elem_of_In. by eapply list_elem_of_lookup_2.
  - replace (seen ++ r :: paths) with ((seen ++ [r]) ++ paths) in * by (by rewrite <- app_assoc).
    eapply (IH (seen ++ [r]) s1); [done| |done|done|done|rewrite length_app; cbn; lia|done].
    apply Forall_app. split; [|by constructor]. eapply Forall_impl; [|exact Hseen].
    intros x. by apply registered_grows.
Qed.

Lemma insert_all_pairs `{!PathLaws} paths sets :
  insert_all paths (mkSets ∅ ∅) = (sets, Ok tt) -> Forall spelled paths ->
  forall i j p q, paths !! i = Some p -> paths !! j = Some q -> i <> j ->
    collision_key p <> collision_key q /\ (clashes p q -> is_directory q = true /\ (i < j)%nat).
Proof.
  intros Hall Hsp i j p q Hi Hj Hne.
  destruct (Nat.lt_total i j) as [Hij|[Hij|Hij]]; [|done|].
  - eapply (insert_all_ok [] paths) in Hall as (? & Hc & _); [|constructor|exact Hsp|exact Hi|exact Hj|cbn; lia|done].
    split; [done|]. intros Hpq. by split; [apply Hc|].
  - eapply (insert_all_ok [] paths) in Hall as (? & _ & ?); [|constructor|exact Hsp|exact Hj|exact Hi|cbn; lia|done].
    by split; [congruence|].
Qed.

(** When every path of an archive is accepted, the portable keys of the entries differ, and
    no file's key is that of a directory another entry lies in, unless that entry is a
    directory that the archive lists after the file. *)
Theorem accepted_paths_do_not_collide `{!PathLaws} (raws : list (bytes * bool)) (limits : ImportLimits)
    (paths : list PortablePath) (sets : PathSets) :
  mapM_result (fun r => validate_path r.1 r.2 limits) raws = Ok paths ->
  insert_all paths (mkSets ∅ ∅) = (sets, Ok tt) ->
  forall i j p q, paths !! i = Some p -> paths !! j = Some q -> i <> j ->
    collision_key p <> collision_key q /\ (clashes p q -> is_directory q = true /\ (i < j)%nat).
Proof.
  intros Hraws Hall. eapply insert_all_pairs; [exact Hall|]. clear Hall. revert paths Hraws.
  induction raws as [|r raws IH]; cbn [mapM_result]; intros paths Hraws; [by injection Hraws as <-|].
  apply bind_Ok in Hraws as (p & Hp & Hraws). apply bind_Ok in Hraws as (ps & Hps & Hraws). injection Hraws as <-.
  constructor; [by eapply validate_path_spelled|by apply IH].
Qed.
End path_facts.

(** ** An archive of a card *)

Module PathExamples.

(** Tables for ASCII, enough for the names below. *)
#[local] Instance ascii_paths : PathLib := {|
  path_nfc s := s;
  path_uppercase c := [if (97 <=? c) && (c <=? 122) then c - 32 else c];
  path_lowercase c := [if (65 <=? c) && (c <=? 90) then c + 32 else c] |}.

Definition entry (name : string) (directory : bool) : PortablePath :=
  match validate_path (lit name) directory ImportLimits_default with
  | Ok path => path
  | Err _ => mkPath [] [] [] false
  end.

Lemma accepted_path_stays_inside_witness :
  resolve (lit "Assets/Card.png") = Some [lit "Assets"; lit "Card.png"] /\
  logical (entry "Assets/Card.png" false) = lit "Assets/Card.png".
Proof.
  assert (Hv : validate_path (lit "Assets/Card.png") false ImportLimits_default =
    Ok (entry "Assets/Card.png" false)) by (vm_compute; reflexivity).
  destruct (accepted_path_stays_inside _ _ _ _ Hv) as (_ & _ & Hl & _ & _ & Hr).
  split; [rewrite Hr; vm_compute; reflexivity|]. rewrite Hl. vm_compute. reflexivity.
Defined.

Definition card : list PortablePath :=
  [entry "assets/" true; entry "assets/Card.png" false; entry "card.json" false].

#[export] Instance ascii_laws : PathLaws.
Proof. by split. Qed.

Definition card_names : list (bytes * bool) :=
  [(lit "assets/", true); (lit "assets/Card.png", false); (lit "card.json", false)].

Lemma accepted_paths_do_not_collide_witness :
  ~ clashes (entry "card.json" false) (entry "assets/Card.png" false).
Proof.
  assert (Hr : (insert_all card (mkSets ∅ ∅)).2 = Ok tt) by (vm_compute; reflexivity).
  destruct (insert_all card (mkSets ∅ ∅)) as [sets r] eqn:Hall. cbn [snd] in Hr. subst r.
  assert (Hv : mapM_result (fun r => validate_path r.1 r.2 ImportLimits_default) card_names = Ok card) by (vm_compute; reflexivity).
  intros Hc. destruct (accepted_paths_do_not_collide card_names ImportLimits_default card sets Hv Hall 2%nat 1%nat
           (entry "card.json" false) (entry "assets/Card.png" false) eq_refl eq_refl ltac:(discriminate)) as [_ Hd].
  destruct (Hd Hc) as [Hdir _]. discriminate Hdir.
Defined.

(** The check of an explicit directory entry depends on the order of the
    archive: a directory below a file is accepted after the file and refused before
    it, and a directory is accepted before a file in it and refused after. *)
Theorem directory_entries_depend_on_order :
  (insert_all [entry "a" false; entry "a/b/" true] (mkSets ∅ ∅)).2 = Ok tt /\
  (insert_all [entry "a/b/" true; entry "a" false] (mkSets ∅ ∅)).2 = Err duplicate_path /\
  (insert_all [entry "a/" true; entry "a/b" false] (mkSets ∅ ∅)).2 = Ok tt /\
  (insert_all [entry "a/b" false; entry "a/" true] (mkSets ∅ ∅)).2 = Err duplicate_path.
Proof. repeat split; vm_compute; reflexivity. Qed.
End PathExamples.
