(* ===== verification/ImportPng.v ===== *)
(** * Card import: the PNG policy

    Models [crates/lorepia-import/src/png_policy.rs]: the chunk-by-chunk reader that
    decides whether an untrusted file is an acceptable PNG card, with the data types of
    [model.rs] it returns.

    The file is its contents, read through a [Reader] that also counts the calls of
    [is_cancelled]; a read error and a short file are the same error in the source.
    A hasher is the bytes it was fed; CRC-32, SHA-256 and the decoder of the [png] crate
    are the class [ImportLib].  The two loops take fuel, and running out of it is the
    error [None], which [ImportPngFacts] shows never happens for validated limits. *)

From S2P Require Import Prelude Bytes Utf8 ImportPath.

Record AcceptedMetadata : Type := mkAcceptedMetadata {
  metadata_path : str;
  metadata_sha256 : str;
  metadata_size : Z;
}.

Record PngInfo : Type := mkPngInfo { png_width : Z; png_height : Z }.

(** What the decoder says of a file: the dimensions of [read_info], the size of the
    output buffer, and whether [next_frame] and [finish] succeed. *)
Record PngDecoder : Type := mkPngDecoder {
  decoder_info : PngInfo;
  output_buffer_size : option Z;
  next_frame_ok : bool;
  decoder_finish_ok : bool;
}.

Class ImportLib : Type := {
  crc32 : bytes -> Z;
  import_sha256 : bytes -> bytes;
  png_read_info : bytes -> Z -> option PngDecoder;
}.

(** ** Byte-level helpers *)

Definition PNG_SIGNATURE : bytes :=
  [byte_of 137] ++ lit "PNG" ++ [byte_of 13; byte_of 10; byte_of 26; byte_of 10].

Definition HEX_DIGITS : str := lit "0123456789abcdef".

Definition hex_digest (bs : bytes) : str :=
  concat (map (fun b => [nth (Z.to_nat (Z.shiftr (byte_val b) 4)) HEX_DIGITS (byte_of 0);
                         nth (Z.to_nat (Z.land (byte_val b) 15)) HEX_DIGITS (byte_of 0)]) bs).

(** [u32::from_be_bytes]. *)
Definition u32_from_be_bytes (bs : bytes) : Z := from_le_bytes (rev bs).

(** A bit of the case of a letter of the chunk type. *)
Definition bit5 (b : byte) : bool := negb (Z.land (byte_val b) 32 =? 0).

Definition chunk_is (chunk_type : bytes) (name : string) : bool := str_eqb chunk_type (lit name).

(** ** The reader *)

Record Reader : Type := mkReader { unread : bytes; polls : nat }.

(** A computation of the reader; the error [None] is an exhausted bound. *)
Definition PngM : Type -> Type := ST Reader (option ImportError).

Definition png_fail {A} (code : ImportErrorCode) : PngM A :=
  st_lift (Err (Some (ImportError_new code))).

Definition png_result {A} (r : ImportResult A) : PngM A := st_lift (map_err Some r).

Definition read_exact (n : Z) : PngM bytes := fun s =>
  if len (unread s) <? n then (mkReader [] (polls s), Err (Some (ImportError_new PngMalformed)))
  else (mkReader (drop (Z.to_nat n) (unread s)) (polls s), Ok (take (Z.to_nat n) (unread s))).

(** ** Text chunks *)

(** [prefix.iter().position(|byte| *byte == 0)]. *)
Definition nul_position (prefix : bytes) : option Z :=
  (fun p : str * str => len p.1) <$> split_once (byte_of 0) prefix.

Definition validate_text_keyword (prefix : bytes) (length : Z) : ImportResult unit :=
  match nul_position prefix with
  | None => Err (ImportError_new PngMalformed)
  | Some separator =>
      if (separator =? 0) || (separator >? 79) || (length <=? separator)
      then Err (ImportError_new PngMalformed) else Ok tt
  end.

(** [prefix[i]], which the caller has checked to be in range. *)
Definition byte_at (prefix : bytes) (i : Z) : Z := byte_val (nth (Z.to_nat i) prefix (byte_of 0)).

Definition validate_itxt_prefix (prefix : bytes) (length : Z) : ImportResult unit :=
  match nul_position prefix with
  | None => Err (ImportError_new PngMalformed)
  | Some keyword_end =>
      if (keyword_end =? 0) || (keyword_end >? 79) || (keyword_end + 3 >? len prefix)
      then Err (ImportError_new PngMalformed)
      else if negb (byte_at prefix (keyword_end + 1) =? 0)
              || negb (byte_at prefix (keyword_end + 2) =? 0) || (length <=? keyword_end)
      then Err (ImportError_new PngMetadataLimit) else Ok tt
  end.

Section png.
Context `{ImportLib}.
Variable is_cancelled : nat -> bool.
Variable limits : ImportLimits.
Variable logical_path : str.

Definition poll : PngM bool := fun s => (mkReader (unread s) (S (polls s)), Ok (is_cancelled (polls s))).

(** ** One chunk *)

Record PngState : Type := mkPngState {
  chunk_count : Z;
  metadata_bytes : Z;
  ihdr : option PngInfo;
  plte_seen : bool;
  idat_seen : bool;
  idat_ended : bool;
  iend_seen : bool;
  card_metadata : list AcceptedMetadata;
}.

(** What the payload loop gathers: the two hashers and the first 96 bytes. *)
Record Payload : Type := mkPayload { crc_input : bytes; sha_input : bytes; prefix : bytes }.

Fixpoint read_payload (fuel : nat) (remaining : Z) (p : Payload) : PngM Payload :=
  if remaining >? 0 then
    match fuel with
    | O => st_lift (Err None)
    | S fuel' =>
        cancelled ← poll;
        if cancelled : bool then png_fail ImportCancelled
        else
          let take := Z.min remaining (copy_buffer_bytes limits) in
          buffer ← read_exact take;
          let prefix_take := Z.min (saturating_sub 96 (len (prefix p))) take in
          read_payload fuel' (remaining - take)
            (mkPayload (crc_input p ++ buffer) (sha_input p ++ buffer)
               (prefix p ++ firstn (Z.to_nat prefix_take) buffer))
    end
  else mret p.

Definition accept_ihdr (st : PngState) (length : Z) (prefix : bytes) : ImportResult PngInfo :=
  if negb (chunk_count st =? 1) || is_some (ihdr st) || negb (length =? 13) || negb (len prefix =? 13)
  then Err (ImportError_new PngMalformed)
  else
    let width := u32_from_be_bytes (slice prefix 0 4) in
    let height := u32_from_be_bytes (slice prefix 4 8) in
    pixels ← ok_or (if width * height <=? U64_MAX then Some (width * height) else None)
               (ImportError_new PngDimensionLimit);
    if (width =? 0) || (height =? 0) || (width >? max_png_width limits)
       || (height >? max_png_height limits) || (pixels >? max_png_pixels limits)
    then Err (ImportError_new PngDimensionLimit)
    else Ok (mkPngInfo width height).

(** The metadata of a text chunk whose keyword names a card. *)
Definition text_metadata (kind : string) (length : Z) (p : Payload) : ImportResult (list AcceptedMetadata) :=
  keyword_end ← ok_or (nul_position (prefix p)) (ImportError_new PngMalformed);
  let keyword := from_utf8_lossy (firstn (Z.to_nat keyword_end) (prefix p)) in
  mret (if str_eqb keyword (lit "chara") || str_eqb keyword (lit "ccv3")
        then [mkAcceptedMetadata (logical_path ++ lit "#" ++ lit kind ++ lit ":" ++ keyword)
                (hex_digest (import_sha256 (sha_input p))) length]
        else []).

(** The checks of [chunk_type] once its payload has been read. *)
Definition accept_chunk (st : PngState) (chunk_type : bytes) (ancillary : bool) (length : Z)
    (p : Payload) : ImportResult PngState :=
  let '(mkPngState count metadata ih plte idat ended iend cards) := st in
  if chunk_is chunk_type "IHDR" then
    info ← accept_ihdr st length (prefix p);
    mret (mkPngState count metadata (Some info) plte idat ended iend cards)
  else if chunk_is chunk_type "PLTE" then
    if negb (is_some ih) || idat || plte || (length =? 0) || (length >? 768) || negb (length mod 3 =? 0)
    then Err (ImportError_new PngMalformed)
    else Ok (mkPngState count metadata ih true idat ended iend cards)
  else if chunk_is chunk_type "IDAT" then
    if negb (is_some ih) || ended then Err (ImportError_new PngMalformed)
    else Ok (mkPngState count metadata ih plte true ended iend cards)
  else if chunk_is chunk_type "IEND" then
    if negb (length =? 0) || negb (is_some ih) || negb idat then Err (ImportError_new PngMalformed)
    else Ok (mkPngState count metadata ih plte idat ended true cards)
  else if chunk_is chunk_type "tEXt" then
    _ ← validate_text_keyword (prefix p) length;
    entry ← text_metadata "tEXt" length p;
    mret (mkPngState count metadata ih plte idat ended iend (cards ++ entry))
  else if chunk_is chunk_type "iTXt" then
    _ ← validate_itxt_prefix (prefix p) length;
    entry ← text_metadata "iTXt" length p;
    mret (mkPngState count metadata ih plte idat ended iend (cards ++ entry))
  else if negb ancillary then Err (ImportError_new PngMalformed)
  else Ok st.

(** The end of the loop body: [if idat_seen && &chunk_type != b"IDAT"]. *)
Definition close_idat (chunk_type : bytes) (st : PngState) : PngState :=
  let '(mkPngState count metadata ih plte idat ended iend cards) := st in
  mkPngState count metadata ih plte idat
    (if idat && negb (chunk_is chunk_type "IDAT") then true else ended) iend cards.

(** The checks of the header of a chunk: its type, and the ancillary bytes so far. *)
Definition check_header (st : PngState) (length : Z) (chunk_type : bytes) : ImportResult PngState :=
  if length >? max_png_chunk_bytes limits then Err (ImportError_new PngMalformed)
  else if negb (forallb is_ascii_alphabetic chunk_type)
          || bit5 (nth 2 chunk_type (byte_of 0))
  then Err (ImportError_new PngMalformed)
  else
    metadata_bytes' ←
      (if bit5 (nth 0 chunk_type (byte_of 0)) then
         total ← ok_or (checked_add U64_MAX (metadata_bytes st) length) (ImportError_new PngMetadataLimit);
         if total >? max_png_metadata_bytes limits then Err (ImportError_new PngMetadataLimit) else Ok total
       else Ok (metadata_bytes st));
    if chunk_is chunk_type "acTL" || chunk_is chunk_type "fcTL" || chunk_is chunk_type "fdAT"
    then Err (ImportError_new PngAnimationUnsupported)
    else if chunk_is chunk_type "zTXt" || chunk_is chunk_type "iCCP"
    then Err (ImportError_new PngMetadataLimit)
    else
      let '(mkPngState count _ ih plte idat ended iend cards) := st in
      Ok (mkPngState count metadata_bytes' ih plte idat ended iend cards).

Definition count_chunk (st : PngState) : ImportResult PngState :=
  let '(mkPngState count metadata ih plte idat ended iend cards) := st in
  count' ← ok_or (checked_add USIZE_MAX count 1) (ImportError_new PngMalformed);
  if count' >? max_png_chunks limits then Err (ImportError_new PngMalformed)
  else Ok (mkPngState count' metadata ih plte idat ended iend cards).

(** The body of [while !iend_seen]. *)
Definition chunk_step (st : PngState) : PngM PngState :=
  cancelled ← poll;
  if cancelled : bool then png_fail ImportCancelled
  else
    st ← png_result (count_chunk st);
    header ← read_exact 8;
    let length := u32_from_be_bytes (slice header 0 4) in
    let chunk_type := slice header 4 8 in
    st ← png_result (check_header st length chunk_type);
    payload ← read_payload (Z.to_nat length) length (mkPayload chunk_type [] []);
    expected_crc ← read_exact 4;
    if negb (crc32 (crc_input payload) =? u32_from_be_bytes expected_crc)
    then png_fail PngMalformed
    else
      st ← png_result (accept_chunk st chunk_type (bit5 (nth 0 chunk_type (byte_of 0))) length payload);
      mret (close_idat chunk_type st).

Fixpoint chunk_loop (fuel : nat) (st : PngState) : PngM PngState :=
  if iend_seen st then mret st
  else match fuel with
       | O => st_lift (Err None)
       | S fuel' => st ← chunk_step st; chunk_loop fuel' st
       end.

(** ** Decoding and the whole check *)

Definition decode_png (contents : bytes) (expected : PngInfo) : ImportResult unit :=
  decoder ← ok_or (png_read_info contents (max_png_decode_bytes limits)) (ImportError_new PngMalformed);
  if negb (png_width (decoder_info decoder) =? png_width expected)
     || negb (png_height (decoder_info decoder) =? png_height expected)
  then Err (ImportError_new PngMalformed)
  else
    output_bytes ← ok_or (output_buffer_size decoder) (ImportError_new PngDimensionLimit);
    if output_bytes >? max_png_decode_bytes limits then Err (ImportError_new PngDimensionLimit)
    else if negb (next_frame_ok decoder) then Err (ImportError_new PngMalformed)
    else if negb (decoder_finish_ok decoder) then Err (ImportError_new PngMalformed)
    else Ok tt.

Definition initial_png_state : PngState := mkPngState 0 0 None false false false false [].

(** The part of [validate_png] after the file was opened. *)
Definition scan_png (contents : bytes) : PngM (PngInfo * list AcceptedMetadata) :=
  signature ← read_exact 8;
  if negb (str_eqb signature PNG_SIGNATURE) then png_fail PngMalformed
  else
    st ← chunk_loop (S (Z.to_nat (max_png_chunks limits))) initial_png_state;
    reader ← st_get;
    if negb (is_empty (unread reader)) then png_fail PngMalformed
    else
      info ← png_result (ok_or (ihdr st) (ImportError_new PngMalformed));
      _ ← png_result (decode_png contents info);
      mret (info, card_metadata st).

(** [validate_png]; [file] is the contents of a regular file that can be opened.  The
    state is the number of calls of [is_cancelled] so far. *)
Definition validate_png (file : option bytes) :
    ST nat (option ImportError) (PngInfo * list AcceptedMetadata) := fun n =>
  match file with
  | None => (n, Err (Some (ImportError_new PngMalformed)))
  | Some contents =>
      if len contents >? max_png_bytes limits then (n, Err (Some (ImportError_new PngMalformed)))
      else let '(reader, r) := scan_png contents (mkReader contents n) in (polls reader, r)
  end.
End png.
