(* ===== verification/ImportPngFacts.v ===== *)
(** * The PNG policy accepts exactly the cards it means to

    The reference is a chunk list: a file is acceptable when it is the signature followed
    by the encodings of a list of chunks with the layout of [png_layout].
    [png_accepted_iff] shows that the buffered reader accepts exactly these files, and
    [png_check_terminates] that it always stops. *)

From S2P Require Import Prelude Bytes Utf8 ImportPath ImportPng.

(** ** Chunks and their encoding *)

Record Chunk : Type := mkChunk { ctype : bytes; cdata : bytes }.

Definition u32_to_be_bytes (z : Z) : bytes := rev (le_bytes 4 z).

Lemma length_u32_be z : length (u32_to_be_bytes z) = 4%nat.
Proof. unfold u32_to_be_bytes. by rewrite length_rev, length_le_bytes. Qed.

Lemma u32_be_round_trip z : 0 <= z < 2 ^ 32 -> u32_from_be_bytes (u32_to_be_bytes z) = z.
Proof.
  intros Hz. unfold u32_from_be_bytes, u32_to_be_bytes.
  rewrite rev_involutive, le_bytes_round_trip. apply Z.mod_small. exact Hz.
Qed.

Lemma u32_from_be_range bs : length bs = 4%nat -> 0 <= u32_from_be_bytes bs < 2 ^ 32.
Proof.
  intros Hl. unfold u32_from_be_bytes. pose proof (from_le_bytes_range (rev bs)) as Hr.
  unfold len in Hr. rewrite length_rev, Hl in Hr. exact Hr.
Qed.

Lemma from_le_bytes_le bs : le_bytes (length bs) (from_le_bytes bs) = bs.
Proof.
  induction bs as [|b bs IH]; [done|]. cbn [length le_bytes from_le_bytes].
  pose proof (byte_val_range b) as Hb.
  replace (byte_val b + 256 * from_le_bytes bs) with (from_le_bytes bs * 256 + byte_val b) by lia.
  rewrite Z.div_add_l, Z.div_small, Z.add_0_r, IH by lia.
  rewrite Z.add_comm, Z.mod_add, Z.mod_small by lia. by rewrite byte_of_val.
Qed.

Lemma u32_be_of_bytes bs : length bs = 4%nat -> u32_to_be_bytes (u32_from_be_bytes bs) = bs.
Proof.
  intros Hl. unfold u32_from_be_bytes, u32_to_be_bytes.
  rewrite <- (rev_involutive bs) at 2. f_equal.
  rewrite <- (from_le_bytes_le (rev bs)) at 2. by rewrite length_rev, Hl.
Qed.

(** ** Documented behaviour of CRC-32: a 32-bit value *)
Class ImportLaws `{ImportLib} : Prop := {
  crc32_range : forall bs, 0 <= crc32 bs < 2 ^ 32;
}.

Definition ancillary (c : Chunk) : bool := bit5 (nth 0 (ctype c) (byte_of 0)).
Definition is_type (name : string) (c : Chunk) : Prop := ctype c = lit name.

(** ** The layout of an acceptable card *)
Section layout.
Variable limits : ImportLimits.

(** A chunk type is four letters with the reserved bit clear, and neither an animation
    chunk nor one of the compressed kinds. *)
Record chunk_shape (c : Chunk) : Prop := {
  shape_letters : length (ctype c) = 4%nat /\ Forall (fun b => is_ascii_alphabetic b = true) (ctype c);
  shape_reserved : bit5 (nth 2 (ctype c) (byte_of 0)) = false;
  shape_length : len (cdata c) <= max_png_chunk_bytes limits /\ len (cdata c) < 2 ^ 32;
  shape_allowed : Forall (fun name => ctype c <> lit name) ["acTL"; "fcTL"; "fdAT"; "zTXt"; "iCCP"];
}.

(** An ancillary chunk; a text chunk has a keyword of 1 to 79 bytes, and an
    international one is not compressed. *)
Definition keyword_before_nul (c : Chunk) (keyword rest : bytes) : Prop :=
  split_once (byte_of 0) (firstn 96 (cdata c)) = Some (keyword, rest) /\ 1 <= len keyword <= 79.

Definition ancillary_chunk (c : Chunk) : Prop :=
  ancillary c = true /\
  (is_type "tEXt" c -> exists keyword rest, keyword_before_nul c keyword rest) /\
  (is_type "iTXt" c -> exists keyword rest, keyword_before_nul c keyword (byte_of 0 :: byte_of 0 :: rest)).

Definition palette_chunk (c : Chunk) : Prop :=
  is_type "PLTE" c /\ exists colours, len (cdata c) = 3 * colours /\ 1 <= colours <= 256.

Definition header_chunk (c : Chunk) (info : PngInfo) : Prop :=
  is_type "IHDR" c /\
  exists rest, cdata c = u32_to_be_bytes (png_width info) ++ u32_to_be_bytes (png_height info) ++ rest /\
    len rest = 5 /\ 1 <= png_width info <= max_png_width limits /\
    1 <= png_height info <= max_png_height limits /\
    png_width info * png_height info <= max_png_pixels limits /\
    png_width info < 2 ^ 32 /\ png_height info < 2 ^ 32.

Definition ancillary_bytes (chunks : list Chunk) : Z :=
  foldr (fun c total => (if ancillary c then len (cdata c) else 0) + total) 0 chunks.

Definition end_chunk : Chunk := mkChunk (lit "IEND") [].

Record png_layout (chunks : list Chunk) (info : PngInfo) : Prop := {
  layout_order : exists header before data after,
    chunks = header :: before ++ data ++ after ++ [end_chunk] /\
    header_chunk header info /\
    (Forall ancillary_chunk before \/
     exists a palette b, before = a ++ palette :: b /\ palette_chunk palette /\ Forall ancillary_chunk (a ++ b)) /\
    data <> [] /\ Forall (is_type "IDAT") data /\ Forall ancillary_chunk after;
  layout_shapes : Forall chunk_shape chunks;
  layout_count : len chunks <= max_png_chunks limits;
  layout_metadata : ancillary_bytes chunks <= max_png_metadata_bytes limits;
}.
End layout.

Section encoding.
Context `{ImportLib}.

Definition encode_chunk (c : Chunk) : bytes :=
  u32_to_be_bytes (len (cdata c)) ++ ctype c ++ cdata c ++ u32_to_be_bytes (crc32 (ctype c ++ cdata c)).

Definition encode_png (chunks : list Chunk) : bytes := PNG_SIGNATURE ++ concat (map encode_chunk chunks).

(** The cards of a chunk list: the text chunks with one of the two keywords. *)
Definition card_keyword (c : Chunk) : option str :=
  '(keyword, _) ← split_once (byte_of 0) (firstn 96 (cdata c));
  if str_eqb keyword (lit "chara") || str_eqb keyword (lit "ccv3") then Some keyword else None.

Definition card_of (logical_path : str) (c : Chunk) : list AcceptedMetadata :=
  if chunk_is (ctype c) "tEXt" || chunk_is (ctype c) "iTXt" then
    match card_keyword c with
    | Some keyword =>
        [mkAcceptedMetadata (logical_path ++ lit "#" ++ ctype c ++ lit ":" ++ keyword)
           (hex_digest (import_sha256 (cdata c))) (len (cdata c))]
    | None => []
    end
  else [].

(** The decoder agrees with the header and stays within its memory limit. *)
Definition decodes (limits : ImportLimits) (contents : bytes) (info : PngInfo) : Prop :=
  exists size, png_read_info contents (max_png_decode_bytes limits) = Some (mkPngDecoder info (Some size) true true) /\
    size <= max_png_decode_bytes limits.
End encoding.

(** ** The reader *)

Section reading.
Context `{ImportLaws}.
Variable is_cancelled : nat -> bool.
Variable limits : ImportLimits.
Variable logical_path : str.
Implicit Types (s : Reader) (p : Payload).

#[local] Abbreviation read_payload := (read_payload is_cancelled limits).
#[local] Abbreviation chunk_step := (chunk_step is_cancelled limits logical_path).
#[local] Abbreviation chunk_loop := (chunk_loop is_cancelled limits logical_path).

Lemma read_exact_inv n s s' bs :
  read_exact n s = (s', Ok bs) -> 0 <= n -> unread s = bs ++ unread s' /\ len bs = n /\ polls s' = polls s.
Proof.
  unfold read_exact. destruct (len (unread s) <? n) eqn:Hn; [done|]. apply Z.ltb_ge in Hn.
  intros [= <- <-] Hn0. cbn [unread polls]. rewrite take_drop. split_and!; [done| |done].
  unfold len in *. rewrite length_take. lia.
Qed.

Lemma read_exact_app bs rest k : read_exact (len bs) (mkReader (bs ++ rest) k) = (mkReader rest k, Ok bs).
Proof.
  unfold read_exact. cbn [unread polls]. rewrite len_app. pose proof (len_nonneg rest).
  rewrite (proj2 (Z.ltb_ge _ _)) by lia. unfold len. rewrite Nat2Z.id.
  by rewrite drop_app_length, take_app_length.
Qed.

Lemma read_exact_some n s : (read_exact n s).2 <> Err None.
Proof. unfold read_exact. by destruct (len (unread s) <? n). Qed.

(** The payload loop reads [data] whole, and keeps its first bytes in the prefix. *)
Definition fed p (data : bytes) : Payload :=
  mkPayload (crc_input p ++ data) (sha_input p ++ data)
    (prefix p ++ firstn (Z.to_nat (saturating_sub 96 (len (prefix p)))) data).

Lemma fed_app p a b : fed (fed p a) b = fed p (a ++ b).
Proof.
  unfold fed. cbn [crc_input sha_input prefix]. f_equal; rewrite <- ?app_assoc; [done..|]. do 1 f_equal.
  unfold saturating_sub, len. rewrite length_app, length_take.
  rewrite take_app. f_equal. f_equal. lia.
Qed.

Lemma fed_nil p : fed p [] = p.
Proof. unfold fed. rewrite take_nil, !app_nil_r. by destruct p. Qed.

Lemma read_payload_inv fuel remaining p s s' p' :
  0 <= remaining -> 1 <= copy_buffer_bytes limits ->
  read_payload fuel remaining p s = (s', Ok p') ->
  exists data, unread s = data ++ unread s' /\ len data = remaining /\ p' = fed p data.
Proof.
  intros Hr Hb. revert remaining p s Hr. induction fuel as [|fuel IH]; intros remaining p s Hr; cbn [ImportPng.read_payload].
  all: destruct (remaining >? 0) eqn:Hpos.
  2,4: intros [= <- <-]; exists []; rewrite fed_nil; zify_bool; cbn; split_and!; [done|unfold len; cbn; lia|done].
  { done. }
  zify_bool. unfold mbind, ST_bind, poll at 1. destruct (is_cancelled (polls s)); [done|].
  destruct (read_exact _ _) as [s1 [buffer|]] eqn:Hread; [|done].
  apply read_exact_inv in Hread as (Hun & Hlen & _); [|lia]. cbn [unread] in Hun. intros Hrec.
  apply IH in Hrec as (data & Hdata & Hdlen & ->); [|lia].
  exists (buffer ++ data). rewrite Hun, Hdata, <- app_assoc, len_app. split_and!; [done|lia|].
  rewrite <- fed_app. f_equal. unfold fed. do 2 f_equal. unfold saturating_sub in *. unfold len in *.
  destruct (decide (Z.max 0 (96 - Z.of_nat (length (prefix p))) <= Z.min remaining (copy_buffer_bytes limits))).
  - f_equal. lia.
  - rewrite !take_ge by lia. done.
Qed.

Lemma read_payload_app fuel p data rest k :
  (forall n, is_cancelled n = false) -> 1 <= copy_buffer_bytes limits -> (length data <= fuel)%nat ->
  exists k', read_payload fuel (len data) p (mkReader (data ++ rest) k) = (mkReader rest k', Ok (fed p data)).
Proof.
  intros Hc Hb. revert data p k. induction fuel as [|fuel IH]; intros data p k Hfuel; cbn [ImportPng.read_payload].
  { destruct data; [|cbn in Hfuel; lia]. exists k. by rewrite fed_nil. }
  destruct (len data >? 0) eqn:Hpos.
  2: { zify_bool. destruct data; [|rewrite len_cons in Hpos; pose proof (len_nonneg data); lia].
       exists k. by rewrite fed_nil. }
  zify_bool. unfold mbind, ST_bind, poll at 1. rewrite Hc. cbn [unread polls].
  set (n := Z.min (len data) (copy_buffer_bytes limits)).
  destruct (IH (drop (Z.to_nat n) data) (fed p (firstn (Z.to_nat n) data)) (S k)) as (k' & Hk).
  { rewrite length_drop. unfold n, len in *. lia. }
  exists k'. assert (Hlen : len (firstn (Z.to_nat n) data) = n).
  { unfold n, len in *. rewrite length_take. lia. }
  rewrite <- (take_drop (Z.to_nat n) data) at 1. rewrite <- app_assoc.
  rewrite <- Hlen at 1. rewrite read_exact_app. rewrite fed_app, take_drop in Hk. rewrite <- Hk.
  f_equal. { unfold n, len in *. rewrite length_drop. lia. }
  unfold fed. f_equal. f_equal. unfold saturating_sub, len in *. rewrite take_take.
  rewrite take_take. f_equal. unfold n in *. lia.
Qed.

Lemma read_payload_some fuel remaining p s :
  0 <= remaining <= Z.of_nat fuel -> 1 <= copy_buffer_bytes limits ->
  (read_payload fuel remaining p s).2 <> Err None.
Proof.
  intros Hr Hb. revert remaining p s Hr. induction fuel as [|fuel IH]; intros remaining p s Hr; cbn [ImportPng.read_payload].
  { by replace (remaining >? 0) with false by (symmetry; apply gtb_false; lia). }
  destruct (remaining >? 0) eqn:Hpos; [|done]. zify_bool.
  unfold mbind, ST_bind, poll at 1. destruct (is_cancelled (polls s)); [done|].
  pose proof (read_exact_some (Z.min remaining (copy_buffer_bytes limits)) (mkReader (unread s) (S (polls s)))) as Hs.
  destruct (read_exact _ _) as [s1 [buffer|e]]; [apply IH; lia|]. cbn in *. congruence.
Qed.

(** ** One chunk *)

Definition whole (c : Chunk) : Payload := mkPayload (ctype c ++ cdata c) (cdata c) (firstn 96 (cdata c)).

Lemma fed_whole c : fed (mkPayload (ctype c) [] []) (cdata c) = whole c.
Proof. done. Qed.

(** What the body of the loop decides of a chunk, once it has been read. *)
Definition judge (st : PngState) (c : Chunk) : ImportResult PngState :=
  st ← count_chunk limits st;
  st ← check_header limits st (len (cdata c)) (ctype c);
  st ← accept_chunk limits logical_path st (ctype c) (ancillary c) (len (cdata c)) (whole c);
  mret (close_idat (ctype c) st).

Record encodable (c : Chunk) : Prop := {
  enc_type : length (ctype c) = 4%nat;
  enc_length : len (cdata c) < 2 ^ 32;
}.

Lemma slice_header a b : length a = 4%nat -> length b = 4%nat -> slice (a ++ b) 0 4 = a /\ slice (a ++ b) 4 8 = b.
Proof.
  intros Ha Hb. unfold slice. split.
  - rewrite drop_0. by rewrite take_app_length' by lia.
  - rewrite drop_app_length' by lia. by rewrite take_ge by lia.
Qed.

Lemma slice_header_inv header :
  len header = 8 -> header = slice header 0 4 ++ slice header 4 8 /\
    length (slice header 0 4) = 4%nat /\ length (slice header 4 8) = 4%nat.
Proof.
  unfold len, slice. intros Hl. rewrite !length_take, !length_drop.
  split_and!; [|lia..]. rewrite (take_ge (drop 4 header)) by (rewrite length_drop; lia).
  by rewrite drop_0, take_drop.
Qed.

Lemma chunk_step_inv st s s' st' :
  1 <= copy_buffer_bytes limits -> chunk_step st s = (s', Ok st') ->
  exists c, unread s = encode_chunk c ++ unread s' /\ encodable c /\ judge st c = Ok st'.
Proof.
  intros Hb. unfold ImportPng.chunk_step, mbind, ST_bind, poll at 1. destruct (is_cancelled (polls s)); [done|].
  unfold png_result, st_lift, judge. destruct (count_chunk limits st) as [st1|] eqn:H1; [|done]. cbn [map_err].
  destruct (read_exact 8 _) as [s1 [header|]] eqn:Hh; [|done].
  apply read_exact_inv in Hh as (Hun1 & Hl1 & _); [|lia]. cbn [unread] in Hun1.
  destruct (slice_header_inv header Hl1) as (Hheader & Hlen4 & Htype4).
  set (lenb := slice header 0 4) in *. set (typ := slice header 4 8) in *.
  pose proof (u32_from_be_range lenb Hlen4) as Hrange.
  destruct (check_header limits st1 _ typ) as [st2|] eqn:H2; [|done]. cbn [map_err].
  destruct (read_payload _ _ _ s1) as [s2 [p|]] eqn:Hp; [|done].
  apply read_payload_inv in Hp as (data & Hun2 & Hl2 & ->); [|lia|done].
  destruct (read_exact 4 s2) as [s3 [crc|]] eqn:Hcrc; [|done].
  apply read_exact_inv in Hcrc as (Hun3 & Hl3 & _); [|lia]. cbn [crc_input fed].
  destruct (crc32 _ =? _) eqn:Heq; [|done]. apply Z.eqb_eq in Heq. cbn [negb].
  destruct (accept_chunk _ _ _ _ _ _ _) as [st3|] eqn:H3; [|done]. cbn [map_err]. intros [= <- <-].
  exists (mkChunk typ data). cbn [ctype cdata]. split_and!.
  - unfold encode_chunk. cbn [ctype cdata]. rewrite Hun1, Hheader, Hun2, Hun3, <- !app_assoc, Hl2, Heq.
    rewrite u32_be_of_bytes by done. rewrite u32_be_of_bytes by (unfold len in Hl3; lia). done.
  - split; cbn; [done|lia].
  - cbn [mbind result_bind]. rewrite Hl2, H2. cbn [mbind result_bind]. rewrite <- Hl2 in *.
    change (accept_chunk limits logical_path st2 typ (ancillary (mkChunk typ data)) (len data)
      (whole (mkChunk typ data)) = Ok st3) in H3. by rewrite H3.
Qed.

Lemma chunk_step_app st c st' rest k :
  (forall n, is_cancelled n = false) -> 1 <= copy_buffer_bytes limits -> encodable c -> judge st c = Ok st' ->
  exists k', chunk_step st (mkReader (encode_chunk c ++ rest) k) = (mkReader rest k', Ok st').
Proof.
  intros Hc Hb [Ht Hl] Hj. unfold judge in Hj.
  apply bind_Ok in Hj as (st1 & H1 & Hj). apply bind_Ok in Hj as (st2 & H2 & Hj).
  apply bind_Ok in Hj as (st3 & H3 & [= <-]).
  unfold ImportPng.chunk_step, mbind, ST_bind, poll at 1. rewrite Hc. cbn [unread polls].
  unfold png_result, st_lift. rewrite H1. cbn [map_err].
  unfold encode_chunk. rewrite (app_assoc _ (ctype c)), <- app_assoc.
  pose proof (length_u32_be (len (cdata c))) as H4. pose proof (len_nonneg (cdata c)) as Hnn.
  set (header := u32_to_be_bytes (len (cdata c)) ++ ctype c).
  assert (H8 : len header = 8) by (unfold header, len in *; rewrite length_app; lia).
  replace (read_exact 8) with (read_exact (len header)) by (by rewrite H8). rewrite read_exact_app. subst header.
  destruct (slice_header (u32_to_be_bytes (len (cdata c))) (ctype c) H4 Ht) as [-> ->].
  rewrite u32_be_round_trip by lia. rewrite H2. cbn [map_err].
  destruct (read_payload_app (Z.to_nat (len (cdata c))) (mkPayload (ctype c) [] []) (cdata c)
    (u32_to_be_bytes (crc32 (ctype c ++ cdata c)) ++ rest) (S k) Hc Hb) as (k' & Hk).
  { unfold len. lia. }
  rewrite <- app_assoc, Hk. exists k'.
  pose proof (length_u32_be (crc32 (ctype c ++ cdata c))) as H4'.
  replace (read_exact 4) with (read_exact (len (u32_to_be_bytes (crc32 (ctype c ++ cdata c)))))
    by (unfold len; by rewrite H4').
  rewrite read_exact_app. change (crc_input (fed _ _)) with (ctype c ++ cdata c).
  rewrite u32_be_round_trip by apply crc32_range. rewrite Z.eqb_refl. cbn [negb].
  fold (ancillary c). rewrite fed_whole. by rewrite H3.
Qed.

Lemma png_result_some {A} (r : ImportResult A) s : (png_result r s).2 <> Err None.
Proof. by destruct r. Qed.

Lemma chunk_step_some st s : 1 <= copy_buffer_bytes limits -> (chunk_step st s).2 <> Err None.
Proof.
  intros Hb. unfold ImportPng.chunk_step, mbind, ST_bind, poll at 1. destruct (is_cancelled (polls s)); [done|].
  unfold png_result, st_lift. destruct (count_chunk limits st) as [st1|]; [|done]. cbn [map_err].
  pose proof (read_exact_some 8 (mkReader (unread s) (S (polls s)))) as Hs.
  destruct (read_exact 8 _) as [s1 [header|]] eqn:Hh; [|cbn in *; congruence].
  apply read_exact_inv in Hh as (_ & Hl & _); [|lia]. destruct (slice_header_inv header Hl) as (_ & Hlen4 & _).
  pose proof (u32_from_be_range _ Hlen4) as Hrange.
  destruct (check_header _ _ _ _) as [st2|]; [|done]. cbn [map_err].
  epose proof (read_payload_some (Z.to_nat (u32_from_be_bytes (slice header 0 4)))
    (u32_from_be_bytes (slice header 0 4)) (mkPayload (slice header 4 8) [] []) s1 _ Hb) as Hp.
  destruct (read_payload _ _ _ s1) as [s2 [p|]]; [|cbn in *; congruence].
  pose proof (read_exact_some 4 s2) as Hs2. destruct (read_exact 4 s2) as [s3 [crc|]]; [|cbn in *; congruence].
  destruct (negb _); [done|]. by destruct (accept_chunk _ _ _ _ _ _ _).
  Unshelve. lia.
Qed.

(** ** The loop *)

Fixpoint runs (st : PngState) (chunks : list Chunk) (st' : PngState) : Prop :=
  match chunks with
  | [] => iend_seen st = true /\ st' = st
  | c :: chunks' =>
      iend_seen st = false /\ encodable c /\ exists st1, judge st c = Ok st1 /\ runs st1 chunks' st'
  end.

Lemma chunk_loop_inv fuel st s s' st' :
  1 <= copy_buffer_bytes limits -> chunk_loop fuel st s = (s', Ok st') ->
  exists chunks, unread s = concat (map encode_chunk chunks) ++ unread s' /\ runs st chunks st'.
Proof.
  intros Hb. revert st s. induction fuel as [|fuel IH]; intros st s; cbn [ImportPng.chunk_loop].
  all: destruct (iend_seen st) eqn:Hi; [intros [= <- <-]; by exists []|].
  { done. }
  unfold mbind, ST_bind. destruct (chunk_step st s) as [s1 [st1|]] eqn:Hs; [|done]. intros Hl.
  apply chunk_step_inv in Hs as (c & Hun & He & Hj); [|done]. apply IH in Hl as (chunks & Hun' & Hr).
  exists (c :: chunks). cbn [map concat]. rewrite Hun, Hun', <- app_assoc. split; [done|].
  cbn [runs]. eauto.
Qed.

Lemma chunk_loop_app fuel st chunks st' rest k :
  (forall n, is_cancelled n = false) -> 1 <= copy_buffer_bytes limits ->
  runs st chunks st' -> (length chunks <= fuel)%nat ->
  exists k', chunk_loop fuel st (mkReader (concat (map encode_chunk chunks) ++ rest) k) = (mkReader rest k', Ok st').
Proof.
  intros Hc Hb. revert st chunks k. induction fuel as [|fuel IH]; intros st chunks k; cbn [ImportPng.chunk_loop].
  all: destruct chunks as [|c chunks]; cbn [runs length map concat];
    [intros [-> ->] _; by exists k|]; intros (Hi & He & st1 & Hj & Hr) Hf.
  { lia. }
  rewrite Hi.
  unfold mbind, ST_bind. rewrite <- app_assoc.
  destruct (chunk_step_app st c st1 (concat (map encode_chunk chunks) ++ rest) k Hc Hb He Hj) as (k' & ->).
  apply IH; [done|lia].
Qed.

Lemma count_chunk_inv st st' :
  count_chunk limits st = Ok st' -> chunk_count st' = chunk_count st + 1 /\ chunk_count st' <= max_png_chunks limits.
Proof.
  destruct st. unfold count_chunk. intros (n & Hn & Hk)%bind_Ok. apply ok_or_Ok, checked_add_Some in Hn as [-> _].
  destruct (_ >? _) eqn:Hg; [done|]. injection Hk as <-. cbn. zify_bool. lia.
Qed.

Lemma check_header_count st length typ st' :
  check_header limits st length typ = Ok st' -> chunk_count st' = chunk_count st.
Proof.
  unfold check_header. destruct (_ >? _); [done|]. destruct (_ || _); [done|].
  intros (m & _ & Hk)%bind_Ok. destruct (_ || _ || _); [done|]. destruct (_ || _); [done|]. destruct st. by injection Hk as <-.
Qed.

Lemma accept_chunk_count st typ anc length p st' :
  accept_chunk limits logical_path st typ anc length p = Ok st' -> chunk_count st' = chunk_count st.
Proof.
  destruct st. unfold accept_chunk. intros Hk.
  repeat (case_match; try done); repeat (apply bind_Ok in Hk as (? & _ & Hk)); by injection Hk as <-.
Qed.

Lemma judge_count st c st' :
  judge st c = Ok st' -> chunk_count st' = chunk_count st + 1 /\ chunk_count st' <= max_png_chunks limits.
Proof.
  intros (st1 & H1%count_chunk_inv & (st2 & H2%check_header_count & (st3 & H3%accept_chunk_count & [= <-])%bind_Ok)%bind_Ok)%bind_Ok.
  replace (chunk_count (close_idat (ctype c) st3)) with (chunk_count st3) by (by destruct st3). rewrite H3, H2. done.
Qed.

Lemma chunk_loop_some fuel st s :
  1 <= copy_buffer_bytes limits ->
  chunk_count st <= max_png_chunks limits < chunk_count st + Z.of_nat fuel ->
  (chunk_loop fuel st s).2 <> Err None.
Proof.
  intros Hb. revert st s. induction fuel as [|fuel IH]; intros st s Hf; cbn [ImportPng.chunk_loop].
  all: destruct (iend_seen st); [done|].
  { lia. }
  unfold mbind, ST_bind.
  pose proof (chunk_step_some st s Hb) as Hs. destruct (chunk_step st s) as [s1 [st1|]] eqn:Hst; [|cbn in *; congruence].
  apply chunk_step_inv in Hst as (c & _ & _ & Hj%judge_count); [|done]. apply IH. lia.
Qed.

(** ** Counting *)

Definition anc_len (c : Chunk) : Z := if ancillary c then len (cdata c) else 0.

Definition all_fit (n m : Z) (chunks : list Chunk) : Prop :=
  n + len chunks <= max_png_chunks limits /\ Forall (chunk_shape limits) chunks /\
  m + ancillary_bytes chunks <= max_png_metadata_bytes limits.

Lemma anc_len_nonneg c : 0 <= anc_len c.
Proof. unfold anc_len. pose proof (len_nonneg (cdata c)). case_match; lia. Qed.

Lemma ancillary_bytes_nonneg chunks : 0 <= ancillary_bytes chunks.
Proof.
  induction chunks as [|c chunks IH]; [done|]. cbn [ancillary_bytes foldr]. fold (anc_len c).
  pose proof (anc_len_nonneg c). unfold ancillary_bytes in IH. lia.
Qed.

Lemma all_fit_cons n m c chunks :
  all_fit n m (c :: chunks) <->
  all_fit n m [c] /\ all_fit (n + 1) (m + anc_len c) chunks.
Proof.
  unfold all_fit. rewrite Forall_cons_iff, (Forall_cons_iff _ c []), !len_cons.
  change (ancillary_bytes (c :: chunks)) with (anc_len c + ancillary_bytes chunks).
  change (ancillary_bytes [c]) with (anc_len c + 0).
  pose proof (len_nonneg chunks). pose proof (ancillary_bytes_nonneg chunks). change (len []) with 0.
  pose proof (Forall_nil_2 (chunk_shape limits)). naive_solver lia.
Qed.

Lemma chunk_is_spec typ name : chunk_is typ name = true <-> typ = lit name.
Proof. apply str_eqb_eq. Qed.

Lemma forbidden_spec c :
  (chunk_is (ctype c) "acTL" || chunk_is (ctype c) "fcTL" || chunk_is (ctype c) "fdAT") = false ->
  (chunk_is (ctype c) "zTXt" || chunk_is (ctype c) "iCCP") = false ->
  Forall (fun name => ctype c <> lit name) ["acTL"; "fcTL"; "fdAT"; "zTXt"; "iCCP"].
Proof.
  intros H1 H2. zify_bool. repeat constructor; intros Heq; apply chunk_is_spec in Heq; congruence.
Qed.

(** The bounds of the integers that hold the limits. *)
Record limits_typed : Prop := {
  typed_chunks : 0 <= max_png_chunks limits <= USIZE_MAX;
  typed_metadata : 0 <= max_png_metadata_bytes limits <= U64_MAX;
  typed_pixels : 0 <= max_png_pixels limits <= U64_MAX;
}.

Lemma judge_iff n m ih pl id en ie cards c st' :
  limits_typed -> n <= max_png_chunks limits -> m <= max_png_metadata_bytes limits -> encodable c ->
  judge (mkPngState n m ih pl id en ie cards) c = Ok st' <->
  all_fit n m [c] /\
  close_idat (ctype c) <$> accept_chunk limits logical_path
    (mkPngState (n + 1) (m + anc_len c) ih pl id en ie cards) (ctype c) (ancillary c) (len (cdata c)) (whole c) = Ok st'.
Proof.
  intros [[_ Hc] [Hm0 Hm] _] Hn Hmm [Ht Hl]. unfold judge, count_chunk, all_fit.
  change (ancillary_bytes [c]) with (anc_len c + 0). change (len [c]) with 1. rewrite Z.add_0_r.
  set (acc := accept_chunk _ _ _ _ _ _ _). split.
  - intros Hj. apply bind_Ok in Hj as (st1 & H1 & Hj). apply bind_Ok in H1 as (n1 & H1 & H1').
    apply ok_or_Ok, checked_add_Some in H1 as [-> _]. destruct (n + 1 >? _) eqn:Hmax; [done|]. injection H1' as <-.
    apply bind_Ok in Hj as (st2 & H2 & Hj). unfold check_header in H2. cbn [metadata_bytes] in H2.
    destruct (len (cdata c) >? _) eqn:Hlen; [done|]. destruct (_ || bit5 _) eqn:Hletters; [done|].
    apply bind_Ok in H2 as (m1 & Hm1 & H2). destruct (_ || _ || _) eqn:Hanim; [done|].
    destruct (_ || chunk_is _ "iCCP") eqn:Hcomp; [done|]. apply Ok_inj in H2 as <-.
    assert (m1 = m + anc_len c /\ m + anc_len c <= max_png_metadata_bytes limits) as [-> Hfit].
    { fold (ancillary c) in Hm1. unfold anc_len. destruct (ancillary c).
      - apply bind_Ok in Hm1 as (t & Hadd & Ht'). apply ok_or_Ok, checked_add_Some in Hadd as [-> _].
        destruct (m + len (cdata c) >? max_png_metadata_bytes limits) eqn:Hg; [done|]. injection Ht' as <-. zify_bool. lia.
      - injection Hm1 as <-. lia. }
    pose proof (forbidden_spec c Hanim Hcomp) as Hforbidden.
    zify_bool. split_and!; [lia| |lia|].
    + constructor; [|constructor]. split; [split; [done|]|done|lia|done].
      apply Forall_forall. apply forallb_forall. done.
    + fold acc in Hj. destruct acc; [|done]. exact Hj.
  - intros ((Hcount & [Hshape _]%Forall_cons_iff & Hmeta) & Hacc).
    destruct Hshape as [[_ Hlet] Hres [Hlen _] Hall]. unfold checked_add.
    rewrite (proj2 (Z.leb_le _ _)) by lia. cbn [ok_or mbind result_bind].
    rewrite gtb_false by lia. cbn [mbind result_bind]. unfold check_header. cbn [metadata_bytes].
    rewrite gtb_false by lia. rewrite Hres, orb_false_r.
    rewrite (proj2 (forallb_forall _ _)) by (by apply Forall_forall). cbn [negb].
    fold (ancillary c). repeat (apply Forall_cons_iff in Hall as [? Hall]).
    replace (if ancillary c then _ else _) with (Ok (E:=ImportError) (m + anc_len c)).
    2: { unfold anc_len in *. pose proof (len_nonneg (cdata c)). destruct (ancillary c); [|f_equal; lia]. unfold checked_add.
         rewrite (proj2 (Z.leb_le _ _)) by lia. cbn [ok_or mbind result_bind]. by rewrite gtb_false by lia. }
    cbn [mbind result_bind]. unfold chunk_is. repeat rewrite (proj2 (str_eqb_neq _ _)) by done. cbn [orb].
    cbn [mbind result_bind]. fold acc. destruct acc; [|done]. exact Hacc.
Qed.

(** ** Text chunks *)

Lemma lossy_eqb keyword name :
  Forall ascii_byte name -> str_eqb (from_utf8_lossy keyword) name = str_eqb keyword name.
Proof.
  intros Hn. destruct (str_eqb keyword name) eqn:Hk.
  - apply str_eqb_eq in Hk as ->. rewrite from_utf8_lossy_id by done. apply str_eqb_refl.
  - apply str_eqb_neq in Hk. apply str_eqb_neq. intros Heq. apply Hk.
    rewrite <- Heq. symmetry. apply from_utf8_lossy_ascii. by rewrite Heq.
Qed.

Lemma ascii_names : Forall ascii_byte (lit "chara") /\ Forall ascii_byte (lit "ccv3").
Proof. split; repeat constructor. Qed.

Lemma text_metadata_card c kind keyword rest :
  ctype c = lit kind -> (kind = "tEXt" \/ kind = "iTXt") ->
  split_once (byte_of 0) (firstn 96 (cdata c)) = Some (keyword, rest) ->
  text_metadata logical_path kind (len (cdata c)) (whole c) = Ok (card_of logical_path c).
Proof.
  intros Ht Hkind Hs. unfold text_metadata, nul_position, card_of, card_keyword. cbn [whole prefix sha_input].
  rewrite Hs. cbn [fmap option_fmap option_map fst ok_or mbind result_bind option_bind].
  assert (chunk_is (ctype c) "tEXt" || chunk_is (ctype c) "iTXt" = true) as ->.
  { rewrite Ht. by destruct Hkind as [-> | ->]. }
  apply split_once_Some in Hs. rewrite Hs.
  rewrite take_app_length' by (unfold len; lia).
  destruct ascii_names as [H1 H2]. rewrite !lossy_eqb by done.
  destruct (str_eqb keyword (lit "chara")) eqn:Hc; [|destruct (str_eqb keyword (lit "ccv3")) eqn:Hv]; cbn [orb]; [| |done].
  all: match goal with He : str_eqb _ _ = true |- _ => apply str_eqb_eq in He; rewrite He end; rewrite from_utf8_lossy_id by done; by rewrite Ht.
Qed.

Lemma text_keyword_iff c :
  validate_text_keyword (firstn 96 (cdata c)) (len (cdata c)) = Ok tt <->
  exists keyword rest, keyword_before_nul c keyword rest.
Proof.
  unfold validate_text_keyword, nul_position, keyword_before_nul. destruct (split_once _ _) as [[keyword rest]|] eqn:Hs.
  2: { split; [done|]. by intros (k & r & ? & _). }
  cbn [fmap option_fmap option_map fst]. apply split_once_Some in Hs.
  assert (Hlt : len keyword < len (cdata c)).
  { assert (len (firstn 96 (cdata c)) <= len (cdata c)) by (unfold len; rewrite length_take; lia).
    rewrite Hs, len_app, len_cons in *. pose proof (len_nonneg rest). lia. }
  pose proof (len_nonneg keyword). destruct (_ || _ || _) eqn:Hb.
  - split; [done|]. intros (k & r & Heq & Hk). simplify_eq. lia.
  - zify_bool. split; [|done]. intros _. exists keyword, rest. split; [done|lia].
Qed.

Lemma byte_at_0 prefix i : byte_at prefix i = 0 <-> nth (Z.to_nat i) prefix (byte_of 0) = byte_of 0.
Proof.
  unfold byte_at. split; [|by intros ->]. intros Hb. apply byte_val_inj. rewrite Hb. done.
Qed.

Lemma itxt_prefix_iff c :
  validate_itxt_prefix (firstn 96 (cdata c)) (len (cdata c)) = Ok tt <->
  exists keyword rest, keyword_before_nul c keyword (byte_of 0 :: byte_of 0 :: rest).
Proof.
  unfold validate_itxt_prefix, nul_position, keyword_before_nul. destruct (split_once _ _) as [[keyword rest]|] eqn:Hs.
  2: { split; [done|]. by intros (k & r & ? & _). }
  cbn [fmap option_fmap option_map fst]. apply split_once_Some in Hs.
  assert (Hle : len (firstn 96 (cdata c)) <= len (cdata c)) by (unfold len; rewrite length_take; lia).
  assert (Hnth : forall i, (i < length rest)%nat ->
    nth (Z.to_nat (len keyword + 1 + Z.of_nat i)) (firstn 96 (cdata c)) (byte_of 0) = nth i rest (byte_of 0)).
  { intros i Hi. rewrite Hs. rewrite app_nth2 by (unfold len; lia).
    replace (Z.to_nat _ - length keyword)%nat with (S i) by (unfold len; lia). done. }
  assert (Hp : len (firstn 96 (cdata c)) = len keyword + (1 + len rest)) by (by rewrite Hs, len_app, len_cons).
  pose proof (len_nonneg keyword) as Hk0. pose proof (len_nonneg rest) as Hr0. destruct (_ || _ || _) eqn:Hb.
  { split; [done|]. intros (k & r & Heq & Hk). simplify_eq. rewrite !len_cons in *. pose proof (len_nonneg r). lia. }
  zify_bool. destruct rest as [|b1 [|b2 rest]]; [rewrite ?len_cons, ?len_nil in *; lia..|].
  pose proof (Hnth 0%nat ltac:(cbn; lia)) as N1. pose proof (Hnth 1%nat ltac:(cbn; lia)) as N2. cbn [nth] in N1, N2.
  replace (len keyword + 1 + Z.of_nat 0) with (len keyword + 1) in N1 by lia.
  replace (len keyword + 1 + Z.of_nat 1) with (len keyword + 2) in N2 by lia.
  destruct (_ || _ || _) eqn:Hb'.
  - split; [done|]. intros (k & r & Heq & Hk). exfalso.
    assert (k = keyword /\ b1 = byte_of 0 /\ b2 = byte_of 0) as (-> & -> & ->) by (clear - Heq; by simplify_eq).
    rewrite (proj2 (byte_at_0 _ _) N1), (proj2 (byte_at_0 _ _) N2), Z.eqb_refl in Hb'. cbn [negb orb] in Hb'.
    rewrite !len_cons in *. pose proof (len_nonneg r). lia.
  - zify_bool. split; [|done]. intros _. exists keyword, rest. split; [|lia].
    repeat match goal with Hx : byte_at _ _ = 0 |- _ => apply byte_at_0 in Hx end. congruence.
Qed.

(** ** What may follow the header *)

Lemma type_cases c name : {is_type name c} + {~ is_type name c}.
Proof. unfold is_type. destruct (decide (ctype c = lit name)); auto. Qed.

Lemma ancillary_not_critical c name :
  ancillary c = true -> In name ["IHDR"; "PLTE"; "IDAT"; "IEND"] -> ctype c <> lit name.
Proof.
  intros Ha Hin Heq. unfold ancillary in Ha. rewrite Heq in Ha.
  repeat destruct Hin as [<-|Hin]; done.
Qed.

Lemma chunk_is_no c name : ctype c <> lit name -> chunk_is (ctype c) name = false.
Proof. apply str_eqb_neq. Qed.

Lemma accept_ancillary n m ih pl id en ie cards c st' :
  ancillary c = true ->
  accept_chunk limits logical_path (mkPngState n m ih pl id en ie cards) (ctype c) (ancillary c)
    (len (cdata c)) (whole c) = Ok st' <->
  ancillary_chunk c /\ st' = mkPngState n m ih pl id en ie (cards ++ card_of logical_path c).
Proof.
  intros Ha. unfold accept_chunk.
  pose proof (ancillary_not_critical c) as Hcrit.
  rewrite !chunk_is_no by (apply Hcrit; [done|cbn; tauto]). unfold ancillary_chunk, is_type.
  destruct (chunk_is (ctype c) "tEXt") eqn:Ht; [|destruct (chunk_is (ctype c) "iTXt") eqn:Hi].
  - apply chunk_is_spec in Ht. cbn [whole prefix].
    destruct (validate_text_keyword _ _) as [[]|e] eqn:Hv; cbn [mbind result_bind].
    + pose proof (proj1 (text_keyword_iff c) Hv) as (k & r & Hk). pose proof Hk as [Hs _].
      rewrite (text_metadata_card c _ _ _ Ht (or_introl eq_refl) Hs). cbn [mbind result_bind mret result_ret].
      split; [intros [= <-]|intros [_ ->]; done]. split_and!; [done|eauto| |done]. rewrite Ht. done.
    + split; [done|]. intros [(_ & Hk%text_keyword_iff & _) _]; [congruence|done].
  - apply chunk_is_spec in Hi. cbn [whole prefix].
    destruct (validate_itxt_prefix _ _) as [[]|e] eqn:Hv; cbn [mbind result_bind].
    + pose proof (proj1 (itxt_prefix_iff c) Hv) as (k & r & Hk). pose proof Hk as [Hs _].
      rewrite (text_metadata_card c _ _ _ Hi (or_intror eq_refl) Hs). cbn [mbind result_bind mret result_ret].
      split; [intros [= <-]|intros [_ ->]; done]. split_and!; [done| |eauto|done]. rewrite Hi. done.
    + split; [done|]. intros [(_ & _ & Hk%itxt_prefix_iff) _]; [congruence|done].
  - rewrite Ha. cbn [negb]. unfold card_of. rewrite Ht, Hi. cbn [orb]. rewrite app_nil_r.
    apply str_eqb_neq in Ht, Hi. split; [|by intros [_ ->]]. intros [= <-]. by split_and!.
Qed.

(** The steps after the header, by kind of chunk. *)
Inductive follows (n m : Z) (i : PngInfo) (cards : list AcceptedMetadata) (c : Chunk) :
    bool -> bool -> bool -> PngState -> Prop :=
  | follows_ancillary pl id en : ancillary_chunk c ->
      follows n m i cards c pl id en (mkPngState n m (Some i) pl id (id || en) false (cards ++ card_of logical_path c))
  | follows_palette en : palette_chunk c ->
      follows n m i cards c false false en (mkPngState n m (Some i) true false en false cards)
  | follows_data pl id : is_type "IDAT" c ->
      follows n m i cards c pl id false (mkPngState n m (Some i) pl true false false cards)
  | follows_end pl en : c = end_chunk ->
      follows n m i cards c pl true en (mkPngState n m (Some i) pl true true true cards).

Lemma mod_3 z : z mod 3 = 0 <-> exists k, z = 3 * k.
Proof. rewrite Z.mod_divide by lia. split; intros [k ->]; exists k; lia. Qed.

(** Two type names exclude each other. *)
Ltac other_type :=
  exfalso; unfold end_chunk, palette_chunk, ancillary_chunk in *; unfold is_type in *; destruct_and?;
  first [ congruence
        | match goal with H1 : ?t = lit _, H2 : ?t = lit _ |- _ => rewrite H1 in H2; discriminate H2 end
        | match goal with Hn : ctype _ <> _ |- _ => by apply Hn end
        | discriminate ].

Lemma accept_critical n m i pl id en cards c st' :
  ancillary c = false ->
  (close_idat (ctype c) <$> accept_chunk limits logical_path (mkPngState n m (Some i) pl id en false cards)
    (ctype c) false (len (cdata c)) (whole c)) = Ok st' <->
  follows n m i cards c pl id en st'.
Proof.
  intros Ha. unfold accept_chunk. cbn [is_some ihdr negb orb].
  destruct (chunk_is (ctype c) "IHDR") eqn:H1.
  { apply chunk_is_spec in H1. unfold accept_ihdr. cbn [is_some ihdr]. rewrite orb_true_r. cbn.
    split; [done|]. inversion 1; subst; other_type. }
  destruct (chunk_is (ctype c) "PLTE") eqn:H2.
  { apply chunk_is_spec in H2. destruct (_ || _ || _ || _ || _) eqn:Hb.
    - split; [done|]. inversion 1 as [|? [_ (k & Hk & Hr)]| |]; subst; [other_type| |other_type..].
      exfalso. assert (len (cdata c) mod 3 = 0) as Hm by (apply mod_3; eauto). lia.
    - zify_bool. subst id pl. cbn. split.
      + intros [= <-]. constructor. split; [done|]. pose proof (len_nonneg (cdata c)).
        assert (len (cdata c) mod 3 = 0) as [k Hk]%mod_3 by done. exists k. lia.
      + by inversion 1; subst; [other_type| |other_type..]. }
  destruct (chunk_is (ctype c) "IDAT") eqn:H3.
  { pose proof H3 as Hd. apply chunk_is_spec in Hd. destruct en.
    - split; [done|]. inversion 1; subst; other_type.
    - cbn. rewrite H3. split; [intros [= <-]; by constructor|]. by inversion 1; subst; [other_type..| |other_type]. }
  destruct (chunk_is (ctype c) "IEND") eqn:H4.
  { apply chunk_is_spec in H4. destruct (_ || _) eqn:Hb.
    - split; [done|]. inversion 1; subst; [other_type..|]. done.
    - zify_bool. subst id. cbn. rewrite H3. cbn. split.
      + intros [= <-]. constructor. destruct c as [t d]. cbn in *. subst t. by rewrite (len_0_nil d).
      + by inversion 1; subst; [other_type..|]. }
  assert (Hrest : forall name, In name ["tEXt"; "iTXt"] -> chunk_is (ctype c) name = false).
  { intros name Hin. apply chunk_is_no. intros Heq. unfold ancillary in Ha. rewrite Heq in Ha.
    repeat destruct Hin as [<-|Hin]; done. }
  rewrite !Hrest by (cbn; tauto). cbn. apply str_eqb_neq in H1, H2, H3, H4.
  split; [done|]. inversion 1; subst; other_type.
Qed.

Lemma accept_iff n m i pl id en cards c st' :
  (close_idat (ctype c) <$> accept_chunk limits logical_path (mkPngState n m (Some i) pl id en false cards)
    (ctype c) (ancillary c) (len (cdata c)) (whole c)) = Ok st' <->
  follows n m i cards c pl id en st'.
Proof.
  destruct (ancillary c) eqn:Ha.
  - rewrite <- Ha. assert (chunk_is (ctype c) "IDAT" = false) as Hd.
    { apply chunk_is_no, ancillary_not_critical; [done|cbn; tauto]. } split.
    + destruct (accept_chunk _ _ _ _ _ _ _) as [st1|] eqn:Hacc; [|done]. cbn. intros [= <-].
      apply accept_ancillary in Hacc as [Hc ->]; [|done]. cbn. rewrite Hd, andb_true_r.
      replace (if id then true else en) with (id || en) by (by destruct id). by constructor.
    + inversion 1 as [? ? ? Hc|? [Hc _]|? ? Hc|? ? Hc]; subst.
      1: { rewrite (proj2 (accept_ancillary n m (Some i) pl id en false cards c _ Ha) (conj Hc eq_refl)). cbn.
           rewrite Hd, andb_true_r. by destruct id. }
      all: exfalso; try done; unfold is_type in Hc; unfold ancillary in Ha; rewrite Hc in Ha; done.
  - apply accept_critical. done.
Qed.

(** ** Whole runs *)

Definition completes (st : PngState) (chunks : list Chunk) (i : PngInfo) (cards : list AcceptedMetadata) : Prop :=
  exists st', runs st chunks st' /\ ihdr st' = Some i /\ card_metadata st' = cards.

Definition cards_of (chunks : list Chunk) : list AcceptedMetadata := concat (map (card_of logical_path) chunks).

(** What may still come: [pl], [id] and [en] are the palette, data and end-of-data flags. *)
Inductive tail : bool -> bool -> bool -> list Chunk -> Prop :=
  | tail_ancillary pl id en c chunks : ancillary_chunk c -> tail pl id (id || en) chunks -> tail pl id en (c :: chunks)
  | tail_palette en c chunks : palette_chunk c -> tail true false en chunks -> tail false false en (c :: chunks)
  | tail_data pl id c chunks : is_type "IDAT" c -> tail pl true false chunks -> tail pl id false (c :: chunks)
  | tail_end pl en : tail pl true en [end_chunk].

Lemma shape_encodable c : chunk_shape limits c -> encodable c.
Proof. intros [[? _] _ [_ ?] _]. by split. Qed.

Lemma completes_cons n m j pl id en cards c chunks i k :
  limits_typed -> n <= max_png_chunks limits -> m <= max_png_metadata_bytes limits ->
  completes (mkPngState n m (Some j) pl id en false cards) (c :: chunks) i k <->
  all_fit n m [c] /\ exists st1, follows (n + 1) (m + anc_len c) j cards c pl id en st1 /\ completes st1 chunks i k.
Proof.
  intros Ht Hn Hm. unfold completes. cbn [runs iend_seen]. split.
  - intros (st' & (_ & He & st1 & Hj & Hr) & Hi & Hk). apply judge_iff in Hj as [Hfit Hacc%accept_iff]; [|done..].
    split; [done|]. exists st1. split; [done|]. by exists st'.
  - intros (Hfit & st1 & Hf & st' & Hr & Hi & Hk). exists st'. split_and!; [done| |exists st1|done|done].
    + destruct Hfit as (_ & [Hs _]%Forall_cons_iff & _). by apply shape_encodable.
    + split; [|done]. apply judge_iff; [done..| |].
      * destruct Hfit as (_ & [Hs _]%Forall_cons_iff & _). by apply shape_encodable.
      * split; [done|]. by apply accept_iff.
Qed.

Lemma critical_no_card c name : ctype c = lit name -> In name ["IHDR"; "PLTE"; "IDAT"; "IEND"] -> card_of logical_path c = [].
Proof. intros Ht Hin. unfold card_of. rewrite Ht. repeat destruct Hin as [<-|Hin]; done. Qed.

Lemma completes_done n m j pl id en cards chunks i k :
  completes (mkPngState n m (Some j) pl id en true cards) chunks i k <-> chunks = [] /\ i = j /\ k = cards.
Proof.
  unfold completes. destruct chunks as [|c chunks]; cbn [runs iend_seen]; [|naive_solver].
  split; [intros (st' & (_ & ->) & [= ->] & <-); done|]. intros (_ & -> & ->). by eexists.
Qed.

Lemma completes_iff chunks n m j pl id en cards i k :
  limits_typed -> n <= max_png_chunks limits -> m <= max_png_metadata_bytes limits ->
  completes (mkPngState n m (Some j) pl id en false cards) chunks i k <->
  all_fit n m chunks /\ tail pl id en chunks /\ i = j /\ k = cards ++ cards_of chunks.
Proof.
  intros Ht. revert n m pl id en cards. induction chunks as [|c chunks IH]; intros n m pl id en cards Hn Hm.
  { split; [by intros (? & [? _] & _)|]. intros (_ & Htail & _). inversion Htail. }
  rewrite completes_cons, (all_fit_cons n m c chunks) by done.
  assert (Hok : all_fit n m [c] -> n + 1 <= max_png_chunks limits /\ m + anc_len c <= max_png_metadata_bytes limits).
  { unfold all_fit. change (ancillary_bytes [c]) with (anc_len c + 0). change (len [c]) with 1. lia. }
  unfold cards_of. cbn [map concat]. fold (cards_of chunks). split.
  - intros (Hfit & st1 & Hf & Hc). destruct (Hok Hfit) as [Hn' Hm'].
    inversion Hf as [? ? ? Ha|? Hp|? ? Hd|? ? He]; subst.
    + apply IH in Hc as (Hfit' & Htail & -> & ->); [|done..]. rewrite <- app_assoc. split_and!; [done..|by constructor|done|done].
    + apply IH in Hc as (Hfit' & Htail & -> & ->); [|done..]. pose proof Hp as [Hty _].
      rewrite (critical_no_card c _ Hty) by (cbn; tauto). split_and!; [done..|by constructor|done|done].
    + apply IH in Hc as (Hfit' & Htail & -> & ->); [|done..].
      rewrite (critical_no_card c _ Hd) by (cbn; tauto). split_and!; [done..|by constructor|done|done].
    + apply completes_done in Hc as (-> & -> & ->). cbn [app cards_of map concat]. rewrite app_nil_r.
      split_and!; [done| |constructor|done..|]; [|done]. unfold all_fit in *. cbn. unfold len; cbn. split_and!; [lia|done|lia].
  - intros ((Hfit & Hfit') & Htail & -> & ->). split; [done|]. destruct (Hok Hfit) as [Hn' Hm'].
    inversion Htail as [? ? ? ? ? Ha Hr|? ? ? Hp Hr|? ? ? ? Hd Hr|? ?]; subst.
    + eexists. split; [by apply follows_ancillary|]. apply IH; [done..|]. rewrite app_assoc. done.
    + eexists. split; [by apply follows_palette|]. pose proof Hp as [Hty _].
      apply IH; [done..|]. by rewrite (critical_no_card c _ Hty) by (cbn; tauto).
    + eexists. split; [by apply follows_data|].
      apply IH; [done..|]. by rewrite (critical_no_card c _ Hd) by (cbn; tauto).
    + eexists. split; [by apply follows_end|]. apply completes_done. cbn. by rewrite app_nil_r.
Qed.

(** ** The order of chunks *)

Lemma tail_after pl chunks :
  tail pl true true chunks <-> exists after, chunks = after ++ [end_chunk] /\ Forall ancillary_chunk after.
Proof.
  split.
  - induction chunks as [|c chunks IH]; inversion 1 as [? ? ? ? ? Ha Hr| | |]; subst.
    + destruct (IH Hr) as (after & -> & Hall). exists (c :: after). split; [done|by constructor].
    + by exists [].
  - intros (after & -> & Hall). induction Hall; [apply tail_end|by apply tail_ancillary].
Qed.

Lemma tail_data_iff pl chunks :
  tail pl true false chunks <-> exists data after, chunks = data ++ after ++ [end_chunk] /\
    Forall (is_type "IDAT") data /\ Forall ancillary_chunk after.
Proof.
  split.
  - induction chunks as [|c chunks IH]; inversion 1 as [? ? ? ? ? Ha Hr| |? ? ? ? Hd Hr|]; subst.
    + cbn [orb] in Hr. apply tail_after in Hr as (after & -> & Hall). exists [], (c :: after). split_and!; [done|done|by constructor].
    + destruct (IH Hr) as (data & after & -> & Hdata & Hall). exists (c :: data), after. split_and!; [done|by constructor|done].
    + by exists [], [].
  - intros (data & after & -> & Hdata & Hall). induction Hdata as [|c data Hd Hdata IH]; [|by apply tail_data].
    destruct Hall as [|c after Ha Hall]; [apply tail_end|]. apply tail_ancillary; [done|]. apply tail_after. eauto.
Qed.

(** What precedes the data: ancillary chunks, and one palette unless it was seen. *)
Definition before_data (pl : bool) (before : list Chunk) : Prop :=
  Forall ancillary_chunk before \/
  pl = false /\ exists a palette b, before = a ++ palette :: b /\ palette_chunk palette /\ Forall ancillary_chunk (a ++ b).

Lemma tail_before pl chunks :
  tail pl false false chunks <-> exists before data after, chunks = before ++ data ++ after ++ [end_chunk] /\
    before_data pl before /\ data <> [] /\ Forall (is_type "IDAT") data /\ Forall ancillary_chunk after.
Proof.
  split.
  - revert pl. induction chunks as [|c chunks IH]; intros pl; inversion 1 as [? ? ? ? ? Ha Hr|? ? ? Hp Hr|? ? ? ? Hd Hr|]; subst.
    + destruct (IH _ Hr) as (before & data & after & -> & Hb & Hrest). exists (c :: before), data, after.
      split; [done|]. split; [|done]. destruct Hb as [Hb|(-> & a & q & b & -> & Hq & Hab)].
      * left. by constructor.
      * right. split; [done|]. exists (c :: a), q, b. split_and!; [done|done|]. by constructor.
    + destruct (IH _ Hr) as (before & data & after & -> & Hb & Hrest). exists (c :: before), data, after.
      split; [done|]. split; [|done]. destruct Hb as [Hb|(? & _)]; [|done].
      right. split; [done|]. by exists [], c, before.
    + apply tail_data_iff in Hr as (data & after & -> & Hdata & Hall).
      exists [], (c :: data), after. split_and!; [done|by left|done|by constructor|done].
  - intros (before & data & after & -> & Hb & Hne & Hdata & Hall).
    assert (Hd : forall pl, tail pl false false (data ++ after ++ [end_chunk])).
    { intros q. destruct Hdata as [|c data Hd Hdata]; [done|]. apply tail_data; [done|]. apply tail_data_iff. eauto. }
    assert (Hanc : forall q a rest, Forall ancillary_chunk a -> tail q false false rest -> tail q false false (a ++ rest)).
    { intros q a rest Ha Hr. induction Ha; [done|]. by apply tail_ancillary. }
    destruct Hb as [Hb|(-> & a & q & b & -> & Hq & Hab)]; [by apply Hanc|].
    apply Forall_app in Hab as [Ha Hb]. rewrite <- app_assoc. apply Hanc; [done|].
    apply tail_palette; [done|]. by apply Hanc.
Qed.

(** ** The header *)

Lemma header_iff m pl id en ie cards c info :
  is_type "IHDR" c ->
  accept_ihdr limits (mkPngState 1 m None pl id en ie cards) (len (cdata c)) (firstn 96 (cdata c)) = Ok info <->
  header_chunk limits c info.
Proof.
  intros Hty. unfold accept_ihdr, header_chunk. cbn [chunk_count ihdr is_some]. rewrite Z.eqb_refl. cbn [negb orb].
  destruct (len (cdata c) =? 13) eqn:Hl; cbn [negb orb].
  2: { split; [done|]. intros (_ & rest & Heq & Hr & _). rewrite Heq, !len_app in Hl. unfold len in *.
       rewrite !length_u32_be in Hl. zify_bool. lia. }
  zify_bool. rewrite take_ge by (unfold len in Hl; lia). rewrite Hl, Z.eqb_refl. cbn [negb].
  set (wb := slice (cdata c) 0 4). set (hb := slice (cdata c) 4 8).
  assert (Hwl : length wb = 4%nat) by (unfold wb, slice, len in *; rewrite length_take, length_drop; lia).
  assert (Hhl : length hb = 4%nat) by (unfold hb, slice, len in *; rewrite length_take, length_drop; lia).
  assert (Hsplit : cdata c = wb ++ hb ++ drop 8 (cdata c)).
  { unfold wb, hb, slice. rewrite drop_0. rewrite <- (take_drop 4 (cdata c)) at 1. f_equal.
    rewrite <- (take_drop 4 (drop 4 (cdata c))) at 1. by rewrite drop_drop. }
  pose proof (u32_from_be_range wb Hwl) as Hw. pose proof (u32_from_be_range hb Hhl) as Hh.
  unfold U64_MAX. rewrite (proj2 (Z.leb_le _ _)) by nia. cbn [ok_or mbind result_bind].
  destruct (_ || _) eqn:Hb.
  - split; [done|]. intros (_ & rest & Heq & Hr & Hrange).
    assert (wb = u32_to_be_bytes (png_width info) /\ hb = u32_to_be_bytes (png_height info)) as [Ew Eh].
    { rewrite Heq in Hsplit. apply app_inj_1 in Hsplit as [-> Hsplit]; [|by rewrite length_u32_be].
      split; [done|]. apply app_inj_1 in Hsplit as [-> _]; [done|]. by rewrite length_u32_be. }
    rewrite Ew, Eh, !u32_be_round_trip in Hb by lia. lia.
  - zify_bool. split.
    + intros [= <-]. split; [done|]. exists (drop 8 (cdata c)). cbn [png_width png_height].
      rewrite !u32_be_of_bytes by done. split_and!; try done; try lia. unfold len in *. rewrite length_drop. lia.
    + intros (_ & rest & Heq & Hr & Hrange). f_equal.
      rewrite Heq in Hsplit. apply app_inj_1 in Hsplit as [<- Hsplit]; [|by rewrite length_u32_be].
      apply app_inj_1 in Hsplit as [<- _]; [|by rewrite length_u32_be].
      rewrite !u32_be_round_trip by lia. by destruct info.
Qed.

Lemma accept_first n m cards c st' :
  ancillary c = false ->
  accept_chunk limits logical_path (mkPngState n m None false false false false cards) (ctype c) (ancillary c)
    (len (cdata c)) (whole c) = Ok st' <->
  is_type "IHDR" c /\ exists info,
    accept_ihdr limits (mkPngState n m None false false false false cards) (len (cdata c)) (firstn 96 (cdata c)) = Ok info /\
    st' = mkPngState n m (Some info) false false false false cards.
Proof.
  intros Ha. unfold accept_chunk. rewrite Ha. cbn [is_some negb orb]. unfold is_type.
  destruct (chunk_is (ctype c) "IHDR") eqn:H1.
  { apply chunk_is_spec in H1. cbn [whole prefix].
    destruct (accept_ihdr _ _ _ _) as [info|]; cbn [mbind result_bind mret result_ret]; [|naive_solver].
    split; [intros [= <-]; eauto|]. by intros (_ & i & [= ->] & ->). }
  apply str_eqb_neq in H1. rewrite orb_true_r.
  assert (Hrest : forall name, In name ["tEXt"; "iTXt"] -> chunk_is (ctype c) name = false).
  { intros name Hin. apply chunk_is_no. intros Heq. unfold ancillary in Ha. rewrite Heq in Ha.
    repeat destruct Hin as [<-|Hin]; done. }
  rewrite (Hrest "tEXt"), (Hrest "iTXt") by (cbn; tauto). repeat case_match; naive_solver.
Qed.

Lemma no_header chunks n m cards st' :
  limits_typed -> 1 <= n <= max_png_chunks limits -> m <= max_png_metadata_bytes limits ->
  ~ runs (mkPngState n m None false false false false cards) chunks st'.
Proof.
  intros Ht. revert n m cards. induction chunks as [|c chunks IH]; intros n m cards Hn Hm; cbn [runs]; [by intros [? _]|].
  intros (_ & He & st1 & Hj & Hr). apply judge_iff in Hj as [Hfit Hacc]; [|done|lia|done|done].
  unfold all_fit in Hfit. change (ancillary_bytes [c]) with (anc_len c + 0) in Hfit. change (len [c]) with 1 in Hfit.
  destruct (accept_chunk _ _ _ _ _ _ _) as [st2|] eqn:Ha; [|done]. injection Hacc as <-.
  destruct (Bool.bool_dec (ancillary c) true) as [Hanc|Hanc%not_true_is_false].
  - apply accept_ancillary in Ha as [_ ->]; [|done]. cbn in Hr. by apply IH in Hr; [|lia..].
  - apply accept_first in Ha as (_ & info & Hi & _); [|done]. unfold accept_ihdr in Hi. cbn [chunk_count] in Hi.
    destruct (n + 1 =? 1) eqn:Hz; [zify_bool; lia|]. done.
Qed.

Lemma start_iff chunks info cards :
  limits_typed ->
  completes initial_png_state chunks info cards <-> png_layout limits chunks info /\ cards = cards_of chunks.
Proof.
  intros Ht. pose proof Ht as [[Hc0 _] [Hm0 _] _]. unfold initial_png_state. destruct chunks as [|c chunks].
  { split; [by intros (? & [? _] & _)|]. intros [[(h & b & d & a & ? & _) _ _ _] _]. done. }
  assert (Hlay : png_layout limits (c :: chunks) info <->
    all_fit 0 0 (c :: chunks) /\ header_chunk limits c info /\ tail false false false chunks).
  { unfold all_fit. rewrite tail_before. split.
    - intros [(h & b & d & a & Heq & Hh & Hb & Hrest) Hs Hcount Hmeta]. injection Heq as -> ->. split_and!; [lia|done|lia|done|].
      exists b, d, a. split; [done|]. split; [|done]. destruct Hb as [|Hb]; [by left|by right].
    - intros ((Hcount & Hs & Hmeta) & Hh & b & d & a & -> & Hb & Hrest). split; [|done|lia|lia].
      exists c, b, d, a. split_and!; [done|done| |apply Hrest..]. destruct Hb as [|[_ Hb]]; [by left|by right]. }
  rewrite Hlay, (all_fit_cons 0 0 c chunks). clear Hlay. split.
  - intros (st' & (_ & He & st1 & Hj & Hr) & Hi & Hk). apply judge_iff in Hj as [Hfit Hacc]; [|done..].
    assert (Hbound : 1 <= max_png_chunks limits /\ 0 + anc_len c <= max_png_metadata_bytes limits).
    { unfold all_fit in Hfit. change (ancillary_bytes [c]) with (anc_len c + 0) in Hfit. change (len [c]) with 1 in Hfit. lia. }
    destruct (accept_chunk _ _ _ _ _ _ _) as [st2|] eqn:Ha; [|done]. injection Hacc as <-.
    destruct (Bool.bool_dec (ancillary c) true) as [Hanc|Hanc%not_true_is_false].
    { apply accept_ancillary in Ha as [_ ->]; [|done]. cbn in Hr. by apply no_header in Hr; [|done|lia|lia]. }
    apply accept_first in Ha as (Hty & info' & Hih%header_iff & ->); [|done|done]. cbn in Hr.
    assert (Hcomp : completes (mkPngState (0 + 1) (0 + anc_len c) (Some info') false false false false []) chunks info cards)
      by (by exists st').
    apply completes_iff in Hcomp as (Hfit' & Htail & -> & ->); [|done|lia|lia].
    unfold cards_of at 2. cbn [map concat]. by rewrite (critical_no_card c _ Hty) by (cbn; tauto).
  - intros (((Hfit & Hfit') & Hh & Htail) & ->). pose proof Hh as [Hty _].
    assert (Hbound : 1 <= max_png_chunks limits /\ 0 + anc_len c <= max_png_metadata_bytes limits).
    { unfold all_fit in Hfit. change (ancillary_bytes [c]) with (anc_len c + 0) in Hfit. change (len [c]) with 1 in Hfit. lia. }
    unfold cards_of. cbn [map concat]. rewrite (critical_no_card c _ Hty) by (cbn; tauto). fold (cards_of chunks).
    destruct (proj2 (completes_iff chunks (0 + 1) (0 + anc_len c) info false false false [] info (cards_of chunks) Ht
      ltac:(lia) ltac:(lia))) as (st' & Hr & Hi & Hk); [done|].
    assert (Henc : encodable c) by (destruct Hfit as (_ & [Hs _]%Forall_cons_iff & _); by apply shape_encodable).
    exists st'. split_and!; [|done|done]. cbn [runs iend_seen]. split_and!; [done|done|].
    eexists. split; [|exact Hr]. apply judge_iff; [done..|]. split; [done|].
    assert (Hanc : ancillary c = false) by (unfold ancillary; by rewrite Hty).
    rewrite (proj2 (accept_first _ _ _ c (mkPngState (0 + 1) (0 + anc_len c) (Some info) false false false false []) Hanc));
      [done|]. split; [done|]. exists info. split; [by apply header_iff|done].
Qed.

(** ** The whole check *)

Lemma decode_png_iff contents info :
  decode_png limits contents info = Ok tt <-> decodes limits contents info.
Proof.
  unfold decode_png, decodes. destruct (png_read_info _ _) as [[[w h] size frame fin]|].
  2: { split; [done|]. by intros (? & ? & _). }
  destruct info as [w' h']. cbn [ok_or mbind result_bind decoder_info png_width png_height output_buffer_size next_frame_ok decoder_finish_ok].
  destruct (w =? w') eqn:Hw, (h =? h') eqn:Hh; cbn [negb orb]; zify_bool; try (split; [done|intros (? & [= ? ? ? ? ?] & _); done]).
  subst. destruct size as [size|]; cbn [ok_or mbind result_bind]; [|naive_solver].
  destruct (size >? _) eqn:Hs; zify_bool; destruct frame, fin; cbn [negb]; naive_solver lia.
Qed.

Lemma scan_png_inv contents s s' info cards :
  1 <= copy_buffer_bytes limits -> limits_typed -> unread s = contents ->
  scan_png is_cancelled limits logical_path contents s = (s', Ok (info, cards)) ->
  exists chunks, contents = encode_png chunks /\ png_layout limits chunks info /\ cards = cards_of chunks /\
    decodes limits contents info.
Proof.
  intros Hb Ht Hun. unfold scan_png, mbind, ST_bind. destruct (read_exact 8 s) as [s1 [sig|]] eqn:Hr; [|done].
  apply read_exact_inv in Hr as (Hun1 & _ & _); [|lia]. destruct (str_eqb sig PNG_SIGNATURE) eqn:Hs; [|done].
  apply str_eqb_eq in Hs as ->. cbn [negb]. destruct (chunk_loop _ _ s1) as [s2 [st|]] eqn:Hl; [|done]. cbn [st_get].
  destruct (is_empty (unread s2)) eqn:He; [|done]. apply is_empty_true in He. cbn [negb].
  destruct (ihdr st) as [i|] eqn:Hi; [|done]. cbn. unfold png_result, st_lift.
  destruct (decode_png limits contents i) as [[]|] eqn:Hd; [|done]. cbn. intros [= <- <- <-].
  apply chunk_loop_inv in Hl as (chunks & Hun2 & Hruns); [|done]. rewrite He, app_nil_r in Hun2.
  exists chunks. unfold encode_png. split; [by rewrite <- Hun2, <- Hun|].
  destruct (proj1 (start_iff chunks i (card_metadata st) Ht)) as [Hlay Hc]; [by exists st|].
  split_and!; [done|done|]. by apply decode_png_iff.
Qed.

Lemma scan_png_encode chunks info k :
  1 <= copy_buffer_bytes limits -> limits_typed -> (forall n, is_cancelled n = false) ->
  png_layout limits chunks info -> decodes limits (encode_png chunks) info ->
  exists k', scan_png is_cancelled limits logical_path (encode_png chunks) (mkReader (encode_png chunks) k) =
    (mkReader [] k', Ok (info, cards_of chunks)).
Proof.
  intros Hb Ht Hc Hlay Hd. pose proof Hlay as [_ _ Hcount _].
  destruct (proj2 (start_iff chunks info (cards_of chunks) Ht) (conj Hlay eq_refl)) as (st & Hr & Hi & Hk).
  unfold scan_png, mbind, ST_bind. change (read_exact 8) with (read_exact (len PNG_SIGNATURE)).
  change (mkReader (encode_png chunks) k) with (mkReader (PNG_SIGNATURE ++ concat (map encode_chunk chunks)) k).
  rewrite read_exact_app, str_eqb_refl. cbn [negb].
  destruct (chunk_loop_app (S (Z.to_nat (max_png_chunks limits))) initial_png_state chunks st [] k Hc Hb Hr) as (k' & Hl).
  { unfold len in Hcount. lia. }
  rewrite app_nil_r in Hl. rewrite Hl. unfold st_get, png_result, st_lift.
  cbn [unread is_empty negb]. exists k'. rewrite Hi. cbn [ok_or map_err].
  rewrite (proj2 (decode_png_iff _ _) Hd). cbn [map_err]. by rewrite Hk.
Qed.
End reading.

Lemma validated_buffer limits : import_limits_validate limits = Ok tt -> 1 <= copy_buffer_bytes limits.
Proof. unfold import_limits_validate. destruct (_ || _) eqn:Hb; [done|]. intros _. zify_bool. lia. Qed.

(** C33: The chunk-by-chunk reader accepts exactly the files that are a PNG signature followed
    by well-formed chunks in the right order: the header first, ancillary chunks and at
    most one palette, consecutive data chunks, ancillary chunks, and the end with nothing
    behind it; every checksum right, no animation and no compressed text, all sizes,
    counts and dimensions within the limits, and the decoder agreeing.  What it reports is
    the dimensions and, in order, the text chunks that hold a card. *)
Theorem png_accepted_iff `{ImportLaws} (is_cancelled : nat -> bool) (limits : ImportLimits) (path : str)
    (contents : bytes) (n : nat) (info : PngInfo) (cards : list AcceptedMetadata) :
  import_limits_validate limits = Ok tt -> limits_typed limits -> (forall k, is_cancelled k = false) ->
  (validate_png is_cancelled limits path (Some contents) n).2 = Ok (info, cards) <->
  len contents <= max_png_bytes limits /\
  exists chunks, contents = encode_png chunks /\ png_layout limits chunks info /\
    decodes limits contents info /\ cards = concat (map (card_of path) chunks).
Proof.
  intros Hv%validated_buffer Ht Hc. unfold validate_png. destruct (len contents >? _) eqn:Hl; zify_bool.
  { split; [done|]. intros [? _]. lia. }
  destruct (scan_png _ _ _ _ _) as [s' r] eqn:Hs. cbn [snd]. split.
  - intros ->. split; [lia|]. apply scan_png_inv in Hs as (chunks & ? & ? & -> & ?); [|done..]. by exists chunks.
  - intros (_ & chunks & -> & Hlay & Hd & ->).
    destruct (scan_png_encode is_cancelled limits path chunks info n Hv Ht Hc Hlay Hd) as (k' & Hk). rewrite Hk in Hs. by simplify_eq.
Qed.

(** With validated limits the check always ends: whatever the file and whenever it is
    cancelled, the payload loop and the chunk loop stop within the bounds of the model. *)
Theorem png_check_terminates `{ImportLaws} (is_cancelled : nat -> bool) (limits : ImportLimits) (path : str)
    (file : option bytes) (n : nat) :
  import_limits_validate limits = Ok tt -> limits_typed limits ->
  exists r, (validate_png is_cancelled limits path file n).2 = map_err Some r.
Proof.
  intros Hv%validated_buffer Ht.
  assert (Hsome : (validate_png is_cancelled limits path file n).2 <> Err None).
  { unfold validate_png. destruct file as [contents|]; [|done]. destruct (len contents >? _); [done|].
    destruct (scan_png _ _ _ _ _) as [s' r] eqn:Hs. cbn [snd]. apply (f_equal snd) in Hs. cbn [snd] in Hs. subst r.
    unfold scan_png, mbind, ST_bind.
    pose proof (read_exact_some 8 (mkReader contents n)) as Hr.
    destruct (read_exact 8 _) as [s1 [sig|]]; [|cbn in *; congruence]. destruct (negb _); [done|].
    pose proof (chunk_loop_some is_cancelled limits path (S (Z.to_nat (max_png_chunks limits))) initial_png_state s1 Hv) as Hloop.
    destruct (chunk_loop _ _ _ _ _ _) as [s2 [st|]].
    2: { cbn in *. intros Heq. apply Hloop; [destruct Ht; lia|congruence]. }
    cbn [st_get]. destruct (negb _); [done|]. destruct (ihdr st); [|done]. cbn. unfold png_result, st_lift.
    by destruct (decode_png _ _ _). }
  destruct (validate_png _ _ _ _ _).2 as [a|[e|]]; [by exists (Ok a)|by exists (Err e)|done].
Qed.

(** ** A card *)

Module PngExample.

(** A decoder that trusts the header of the small card, and a sum for a checksum. *)
#[local] Instance small_lib : ImportLib := {|
  crc32 bs := foldr (fun b total => byte_val b + total) 0 bs mod 2 ^ 32;
  import_sha256 bs := [byte_of (len bs)];
  png_read_info _ _ := Some (mkPngDecoder (mkPngInfo 1 2) (Some 8) true true) |}.

#[local] Instance small_laws : ImportLaws.
Proof. split. intros bs. apply Z.mod_pos_bound. lia. Qed.

Definition card_chunks : list Chunk :=
  [mkChunk (lit "IHDR") (u32_to_be_bytes 1 ++ u32_to_be_bytes 2 ++ [byte_of 8; byte_of 2; byte_of 0; byte_of 0; byte_of 0]);
   mkChunk (lit "PLTE") (lit "rgb"); mkChunk (lit "tEXt") (lit "chara" ++ [byte_of 0] ++ lit "e30=");
   mkChunk (lit "IDAT") (lit "pixels"); mkChunk (lit "IDAT") (lit "more"); end_chunk].

Lemma default_typed : limits_typed ImportLimits_default.
Proof. split; vm_compute; split; discriminate. Qed.

Lemma png_accepted_iff_witness :
  exists chunks, encode_png card_chunks = encode_png chunks /\ png_layout ImportLimits_default chunks (mkPngInfo 1 2).
Proof.
  assert (Hr : (validate_png (fun _ => false) ImportLimits_default (lit "card.png") (Some (encode_png card_chunks)) 0%nat).2 =
    Ok (mkPngInfo 1 2, [mkAcceptedMetadata (lit "card.png#tEXt:chara") (lit "0a") 10])) by (vm_compute; reflexivity).
  destruct (proj1 (png_accepted_iff (fun _ => false) ImportLimits_default (lit "card.png") (encode_png card_chunks) 0%nat
    (mkPngInfo 1 2) _ eq_refl default_typed (fun _ => eq_refl)) Hr) as (_ & chunks & He & Hl & _).
  exact (ex_intro _ chunks (conj He Hl)).
Defined.

Lemma png_check_terminates_witness :
  exists r, (validate_png (Nat.eqb 3) ImportLimits_default (lit "card.png") (Some (encode_png card_chunks)) 0%nat).2 = map_err Some r.
Proof. exact (png_check_terminates _ ImportLimits_default _ _ _ eq_refl default_typed). Defined.

(** Changing the order, or a byte behind a checksum, is noticed. *)
Example reordered_card_is_refused :
  (validate_png (fun _ => false) ImportLimits_default (lit "card.png")
     (Some (encode_png (rev card_chunks))) 0%nat).2 = Err (Some (ImportError_new PngMalformed)).
Proof. vm_compute. reflexivity. Qed.
End PngExample.
