(* ===== verification/AssetDetect.v ===== *)
(** * What content detection guarantees

    The JPEG scan stops, every accepted image has dimensions within the decode limits,
    and a file the import policy accepts as a PNG card is detected as a PNG with the same
    dimensions, so the two checks of an import agree. *)

From S2P Require Import Prelude Bytes Utf8 ImportPath ImportPng ImportPngFacts AssetModel.

(** ** The JPEG scan *)

Lemma skip_fill_spec bs : 0 <= (skip_fill bs).1 /\ len bs = (skip_fill bs).1 + len (skip_fill bs).2.
Proof.
  induction bs as [|b bs IH]; cbn [skip_fill]; [done|].
  destruct (_ =? _); [|cbn [fst snd]; pose proof (len_nonneg (b :: bs)); lia].
  destruct (skip_fill bs) as [n rest]. cbn [fst snd] in *. rewrite len_cons. lia.
Qed.

(** Every round of the scan moves the cursor on, so the bytes of the prefix bound it. *)
Lemma jpeg_loop_total fuel prefix cursor :
  0 <= cursor -> len prefix <= cursor + Z.of_nat fuel -> jpeg_loop fuel prefix cursor <> None.
Proof.
  revert cursor. induction fuel as [|fuel IH]; intros cursor Hc Hf; cbn [jpeg_loop].
  { by rewrite (proj2 (Z.leb_gt _ _)) by lia. }
  destruct (cursor + 4 <=? len prefix); [|done].
  pose proof (skip_fill_spec (drop (Z.to_nat cursor) prefix)) as [Hn _].
  destruct (skip_fill _) as [skipped [|b rest]]; [done|]. cbn [fst] in Hn.
  destruct (_ || _); [apply IH; lia|]. destruct (_ =? _); [done|]. destruct (get_range _ _ _); [|done].
  destruct (_ || _) eqn:Hlen; [done|]. zify_bool. destruct (_ && _); [done|]. apply IH; lia.
Qed.

(** ** Accepted images *)

(** The dimensions the detector reads for a type that has any. *)
Definition image_dimensions (m : AssetMime) (prefix tail : bytes) (size : Z) : option (Z * Z) :=
  match m with
  | Png => png_dimensions prefix
  | Gif => gif_dimensions prefix tail
  | WebP => '(width, height) ← webp_dimensions prefix size; w ← width; h ← height; Some (w, h)
  | Jpeg => jpeg_dimensions prefix tail
  | _ => None
  end.

Definition is_image (m : AssetMime) : bool :=
  match m with Png | Gif | WebP | Jpeg => true | _ => false end.

Record image_limits_typed (limits : AssetLimits) : Prop := {
  typed_width : max_image_width limits <= U32_MAX;
  typed_height : max_image_height limits <= U32_MAX;
}.

Lemma validate_dimensions_iff limits w h :
  image_limits_typed limits -> 0 <= w -> 0 <= h ->
  validate_dimensions limits w h = Ok tt <->
  1 <= w <= max_image_width limits /\ 1 <= h <= max_image_height limits /\ w * h <= max_image_pixels limits.
Proof.
  intros [Hw Hh] H0w H0h. unfold validate_dimensions. unfold U32_MAX in *. destruct (_ || _) eqn:Hb.
  - split; [done|]. intros (Hrw & Hrh & Hp). unfold U64_MAX in Hb. exfalso.
    assert (Z.min (2 ^ 64 - 1) (w * h) <= w * h) by lia. lia.
  - zify_bool. split; [|done]. intros _. split_and!; [lia..|].
    assert (w * h <= U64_MAX) by (unfold U64_MAX; nia). lia.
Qed.

Lemma from_le_bytes_nonneg bs : 0 <= from_le_bytes bs.
Proof. pose proof (from_le_bytes_range bs). lia. Qed.

Lemma get_byte_nonneg bs i z : get_byte bs i = Some z -> 0 <= z.
Proof.
  unfold get_byte. destruct (_ && _); [|done]. destruct (bs !! _) as [b|]; [|done]. cbn. intros [= <-].
  pose proof (byte_val_range b). lia.
Qed.

Lemma u24_nonneg bs z : read_u24_le bs = Some z -> 0 <= z.
Proof.
  unfold read_u24_le. intros (b0 & H0%get_byte_nonneg & (b1 & H1%get_byte_nonneg & (b2 & H2%get_byte_nonneg & [= <-])%bind_Some)%bind_Some)%bind_Some.
  apply Z.lor_nonneg. rewrite Z.lor_nonneg, !Z.shiftl_nonneg. lia.
Qed.

Lemma webp_dimensions_some prefix size width height :
  webp_dimensions prefix size = Some (width, height) ->
  exists w h, width = Some w /\ height = Some h /\ 0 <= w /\ 0 <= h.
Proof.
  unfold webp_dimensions. destruct (_ <? _); [done|].
  intros (riff & _ & Hk)%bind_Some. destruct (negb _); [done|].
  apply bind_Some in Hk as (webp & _ & Hk). destruct (negb _); [done|].
  apply bind_Some in Hk as (declared & _ & Hk). apply bind_Some in Hk as (total & _ & Hk). destruct (negb _); [done|].
  apply bind_Some in Hk as (kind & _ & Hk).
  assert (Hland : forall z, 0 <= z -> 0 <= Z.land z 0x3fff) by (intros z ?; apply Z.land_nonneg; lia).
  destruct (str_eqb kind (lit "VP8X") && _).
  { apply bind_Some in Hk as (w & (? & _ & Hw%u24_nonneg)%bind_Some & Hk).
    apply bind_Some in Hk as (h & (? & _ & Hh%u24_nonneg)%bind_Some & [= <- <-]). exists (1 + w), (1 + h). split_and!; [done..|lia|lia]. }
  destruct (str_eqb kind (lit "VP8L") && _ && _).
  { apply bind_Some in Hk as (packed & _ & [= <- <-]). eexists _, _. split_and!; [done..| |].
    - pose proof (Hland (from_le_bytes packed) (from_le_bytes_nonneg _)). lia.
    - pose proof (Hland (Z.shiftr (from_le_bytes packed) 14) ltac:(apply Z.shiftr_nonneg, from_le_bytes_nonneg)). lia. }
  destruct (str_eqb kind (lit "VP8 ") && _); [|done].
  apply bind_Some in Hk as (marker & _ & Hk). destruct (negb _); [done|].
  apply bind_Some in Hk as (w & _ & Hk). apply bind_Some in Hk as (h & _ & [= <- <-]).
  eexists _, _. split_and!; [done..| |]; apply Hland, from_le_bytes_nonneg.
Qed.

Lemma jpeg_loop_nonneg fuel prefix cursor w h :
  jpeg_loop fuel prefix cursor = Some (Some (w, h)) -> 0 <= w /\ 0 <= h.
Proof.
  revert cursor. induction fuel as [|fuel IH]; intros cursor; cbn [jpeg_loop].
  { by destruct (_ <=? _). }
  destruct (_ <=? _); [|done]. destruct (skip_fill _) as [skipped [|b rest]]; [done|].
  destruct (_ || _); [apply IH|]. destruct (_ =? _); [done|]. destruct (get_range _ _ _); [|done].
  destruct (_ || _); [done|]. destruct (_ && _); [|apply IH].
  intros [= (hb & _ & (wb & _ & [= <- <-])%bind_Some)%bind_Some]. split; apply from_le_bytes_nonneg.
Qed.

Lemma image_dimensions_nonneg m prefix tail size w h :
  image_dimensions m prefix tail size = Some (w, h) -> 0 <= w /\ 0 <= h.
Proof.
  destruct m; cbn [image_dimensions]; try done; intros Hd.
  - unfold png_dimensions in Hd. destruct (_ <? _); [done|]. repeat (apply bind_Some in Hd as (? & _ & Hd); try (destruct (negb _); [done|])).
    injection Hd as <- <-. split; apply from_le_bytes_nonneg.
  - unfold jpeg_dimensions in Hd. destruct (_ || _); [done|]. destruct (jpeg_loop _ _ _) as [[[]|]|] eqn:Hl; try done.
    cbn in Hd. injection Hd as -> ->. by eapply jpeg_loop_nonneg.
  - apply bind_Some in Hd as ([width height] & (w' & h' & -> & -> & ? & ?)%webp_dimensions_some & [= <- <-]). done.
  - unfold gif_dimensions in Hd. destruct (_ || _); [done|]. repeat (apply bind_Some in Hd as (? & _ & Hd)).
    injection Hd as <- <-. split; apply from_le_bytes_nonneg.
Qed.

Lemma detect_image limits prefix tail size m :
  detect limits prefix tail size = Ok m -> is_image m = true ->
  exists w h, image_dimensions m prefix tail size = Some (w, h) /\ validate_dimensions limits w h = Ok tt.
Proof.
  unfold detect. destruct (png_dimensions prefix) as [[w h]|] eqn:Hp.
  { intros (? & Hv & [= <-])%bind_Ok _. exists w, h. by destruct x. }
  destruct (gif_dimensions prefix tail) as [[w h]|] eqn:Hg.
  { intros (? & Hv & [= <-])%bind_Ok _. exists w, h. by destruct x. }
  destruct (webp_dimensions prefix size) as [[width height]|] eqn:Hw.
  { pose proof (webp_dimensions_some _ _ _ _ Hw) as (w & h & -> & -> & _).
    intros (? & Hv & [= <-])%bind_Ok _. exists w, h. cbn [image_dimensions]. rewrite Hw. by destruct x. }
  destruct (jpeg_dimensions prefix tail) as [[w h]|] eqn:Hj.
  { intros (? & Hv & [= <-])%bind_Ok _. exists w, h. by destruct x. }
  repeat case_match; by intros [= <-].
Qed.

(** An accepted file has the declared type, and if that is an image, its dimensions were
    read from the file and lie within the limits for decoding. *)
Theorem accepted_image_is_bounded (limits : AssetLimits) (declared m : AssetMime) (prefix tail : bytes) (size : Z) :
  image_limits_typed limits -> validate_mime limits declared prefix tail size = Ok m ->
  m = declared /\
  (is_image m = true -> exists w h, image_dimensions m prefix tail size = Some (w, h) /\
    1 <= w <= max_image_width limits /\ 1 <= h <= max_image_height limits /\ w * h <= max_image_pixels limits).
Proof.
  intros Ht (d & Hd & Hm)%bind_Ok. destruct (bool_decide (d = declared)) eqn:He; [|done]. injection Hm as <-.
  apply bool_decide_eq_true in He. split; [done|]. intros Hi.
  destruct (detect_image _ _ _ _ _ Hd Hi) as (w & h & Hdim & Hv). exists w, h. split; [done|].
  apply image_dimensions_nonneg in Hdim as [? ?]. by apply validate_dimensions_iff in Hv.
Qed.

(** ** PNG cards *)

Lemma get_range_app a b c i j :
  len a = i -> i + len b = j -> get_range (a ++ b ++ c) i j = Some b.
Proof.
  intros <- <-. unfold get_range. rewrite !len_app. pose proof (len_nonneg b). pose proof (len_nonneg c).
  rewrite !(proj2 (Z.leb_le _ _)) by lia. cbn [andb]. f_equal. unfold slice, len.
  rewrite Z2Nat.inj_add, !Nat2Z.id by lia. rewrite drop_app_length.
  by rewrite take_app_length' by lia.
Qed.

Lemma card_dimensions (lengthb typ data rest : bytes) (info : PngInfo) :
  png_width info < 2 ^ 32 -> png_height info < 2 ^ 32 -> 0 <= png_width info -> 0 <= png_height info ->
  lengthb = bytes_of [0; 0; 0; 13] -> typ = lit "IHDR" -> 9 <= len rest ->
  png_dimensions (PNG_SIGNATURE ++ lengthb ++ typ ++ u32_to_be_bytes (png_width info) ++ u32_to_be_bytes (png_height info) ++ rest)
    = Some (png_width info, png_height info).
Proof.
  intros Hw Hh Hw0 Hh0 -> -> Hr. set (wb := u32_to_be_bytes _). set (hb := u32_to_be_bytes _).
  assert (Hlw : len wb = 4) by (unfold len, wb; by rewrite length_u32_be).
  assert (Hlh : len hb = 4) by (unfold len, hb; by rewrite length_u32_be).
  unfold png_dimensions. rewrite !len_app, Hlw, Hlh.
  change (len PNG_SIGNATURE) with 8. change (len (bytes_of _)) with 4. change (len (lit "IHDR")) with 4.
  rewrite (proj2 (Z.ltb_ge _ _)) by lia.
  set (file := PNG_SIGNATURE ++ _).
  assert (get_range file 0 8 = Some PNG_SIGNATURE) as -> by (by apply (get_range_app [] PNG_SIGNATURE)).
  assert (get_range file 8 12 = Some (bytes_of [0; 0; 0; 13])) as -> by (by apply get_range_app).
  assert (get_range file 12 16 = Some (lit "IHDR")) as ->.
  { unfold file. rewrite (app_assoc PNG_SIGNATURE). by apply get_range_app. }
  assert (get_range file 16 20 = Some wb) as ->.
  { unfold file. rewrite (app_assoc PNG_SIGNATURE), (app_assoc (PNG_SIGNATURE ++ _)). apply get_range_app; [done|]. by rewrite Hlw. }
  assert (get_range file 20 24 = Some hb) as ->.
  { unfold file. rewrite (app_assoc PNG_SIGNATURE), (app_assoc (PNG_SIGNATURE ++ _)), (app_assoc ((PNG_SIGNATURE ++ _) ++ _)).
    apply get_range_app; [rewrite len_app, Hlw; done|by rewrite Hlh]. }
  cbn [mbind option_bind]. rewrite !str_eqb_refl. cbn [negb].
  change (from_be_bytes wb) with (u32_from_be_bytes wb). change (from_be_bytes hb) with (u32_from_be_bytes hb).
  unfold wb, hb. by rewrite !u32_be_round_trip by lia.
Qed.

(** The decode limits of the asset store admit every card the import policy admits. *)
Record limits_cover (limits : ImportLimits) (assets : AssetLimits) : Prop := {
  cover_width : max_png_width limits <= max_image_width assets;
  cover_height : max_png_height limits <= max_image_height assets;
  cover_pixels : max_png_pixels limits <= max_image_pixels assets;
}.

Lemma layout_dimensions `{ImportLaws} limits chunks info rest :
  png_layout limits chunks info ->
  exists tail, encode_png chunks ++ rest =
    (PNG_SIGNATURE ++ bytes_of [0; 0; 0; 13] ++ lit "IHDR" ++ u32_to_be_bytes (png_width info) ++
     u32_to_be_bytes (png_height info)) ++ tail /\ 9 <= len tail.
Proof.
  intros [(header & before & data & after & -> & (Hty & r5 & Hd & Hl5 & _) & _) _ _ _].
  assert (H13 : len (cdata header) = 13).
  { rewrite Hd, !len_app. unfold len in *. rewrite !length_u32_be. lia. }
  set (crc := u32_to_be_bytes (crc32 (ctype header ++ cdata header))).
  exists (r5 ++ crc ++ concat (map encode_chunk (before ++ data ++ after ++ [end_chunk])) ++ rest). split.
  - unfold encode_png. cbn [map concat]. unfold encode_chunk at 1. fold crc. rewrite H13, Hty, Hd.
    change (u32_to_be_bytes 13) with (bytes_of [0; 0; 0; 13]). by rewrite <- !app_assoc.
  - rewrite !len_app. unfold crc. unfold len at 2. rewrite length_u32_be.
    pose proof (len_nonneg (concat (map encode_chunk (before ++ data ++ after ++ [end_chunk])))). pose proof (len_nonneg rest). lia.
Qed.

(** A card that passed the import policy passes the content check of the asset store: the
    prefix the store probes shows the same dimensions, and the file is taken for a PNG
    whatever else it contains. *)
Theorem accepted_card_is_detected `{ImportLaws} (is_cancelled : nat -> bool) (limits : ImportLimits)
    (assets : AssetLimits) (path : str) (contents tail : bytes) (n : nat) (info : PngInfo)
    (cards : list AcceptedMetadata) :
  import_limits_validate limits = Ok tt -> limits_typed limits -> image_limits_typed assets ->
  limits_cover limits assets ->
  (validate_png is_cancelled limits path (Some contents) n).2 = Ok (info, cards) ->
  validate_mime assets Png (firstn (Z.to_nat PROBE_BYTES) contents) tail (len contents) = Ok Png.
Proof.
  intros Hv%validated_buffer Ht Hta [Hcw Hch Hcp]. unfold validate_png. destruct (_ >? _); [done|].
  destruct (scan_png _ _ _ _ _) as [s' r] eqn:Hs. cbn [snd]. intros ->.
  apply scan_png_inv in Hs as (chunks & -> & Hlay & _ & _); [|done..].
  destruct (layout_dimensions limits chunks info [] Hlay) as (rest & Heq & Hrest). rewrite app_nil_r in Heq. rewrite Heq.
  destruct Hlay as [(header & before & data & after & _ & (_ & r5 & _ & _ & Hw & Hh & Hp & Hw32 & Hh32) & _) _ _ _].
  set (head := PNG_SIGNATURE ++ _). assert (Hlen : length head = 24%nat).
  { unfold head. rewrite !length_app, !length_u32_be. done. }
  rewrite take_app_ge by (rewrite Hlen; unfold PROBE_BYTES; lia).
  set (rest' := firstn _ rest). assert (Hrest' : 9 <= len rest').
  { unfold rest', len in *. rewrite length_take, Hlen. unfold PROBE_BYTES. lia. }
  assert (Hd : png_dimensions (head ++ rest') = Some (png_width info, png_height info)).
  { unfold head. rewrite <- !app_assoc. apply (card_dimensions _ _ []); try done; lia. }
  unfold validate_mime, detect. rewrite Hd.
  rewrite (proj2 (validate_dimensions_iff assets (png_width info) (png_height info) Hta ltac:(lia) ltac:(lia))) by lia.
  done.
Qed.

(** ** Examples *)

Module DetectExample.
Definition asset_limits : AssetLimits := mkAssetLimits 1000000 1000000 32768 32768 268435456.

Lemma asset_limits_typed : image_limits_typed asset_limits.
Proof. split; vm_compute; discriminate. Qed.

Definition jpeg : bytes :=
  bytes_of [0xff; 0xd8; 0xff; 0xc0; 0; 0x0b; 8; 0; 2; 0; 3; 1; 1; 0x11; 0; 0xff; 0xd9].

Lemma accepted_image_is_bounded_witness :
  exists w h, jpeg_dimensions jpeg jpeg = Some (w, h) /\ w * h <= 268435456.
Proof.
  destruct (accepted_image_is_bounded asset_limits Jpeg Jpeg jpeg jpeg 17 asset_limits_typed ltac:(vm_compute; reflexivity))
    as (_ & Hi). destruct (Hi eq_refl) as (w & h & Hd & _ & _ & Hp). exact (ex_intro _ w (ex_intro _ h (conj Hd Hp))).
Defined.

#[local] Existing Instance PngExample.small_lib.
#[local] Existing Instance PngExample.small_laws.

Lemma default_covered : limits_cover ImportLimits_default asset_limits.
Proof. split; vm_compute; discriminate. Qed.

Lemma accepted_card_is_detected_witness :
  validate_mime asset_limits Png (firstn (Z.to_nat PROBE_BYTES) (encode_png PngExample.card_chunks)) []
    (len (encode_png PngExample.card_chunks)) = Ok Png.
Proof.
  apply (accepted_card_is_detected (fun _ => false) ImportLimits_default asset_limits (lit "card.png") _ [] 0%nat
    (mkPngInfo 1 2) [mkAcceptedMetadata (lit "card.png#tEXt:chara") (lit "0a") 10] eq_refl
    PngExample.default_typed asset_limits_typed default_covered).
  vm_compute. reflexivity.
Defined.
End DetectExample.
