(* ===== verification/ImportZip.v ===== *)
(** * Card import: the archive checks

    Models the preflight of [crates/lorepia-import/src/service.rs]: the reading of the
    central directory straight from the bytes of the archive, the flags, sizes, names and
    kinds it accepts, and the second pass over the entries the [zip] crate reports, with
    the local header of each compared to its entry.

    The file is its contents; a short read is [ArchiveMalformed] like a failing one.  The
    [zip] crate is the class [ZipLib]: the archive it opens, with the fields of each entry
    the code asks for. *)

From stdpp Require Import gmap.
From S2P Require Import Prelude Bytes Utf8 Sorting AssetModel ImportPath.

Inductive ExecutableLanguage : Type := JavaScript | Lua | WebAssembly.

Inductive EntryKind : Type :=
  | EntryDirectory
  | EntryAsset (mime : AssetMime)
  | EntryMetadata
  | EntryExecutable (language : ExecutableLanguage).

Record EntryPlan : Type := mkEntryPlan {
  plan_index : nat;
  plan_path : PortablePath;
  plan_kind : EntryKind;
  plan_bytes : Z;
}.

Definition malformed : ImportError := ImportError_new ArchiveMalformed.

(** [le_u16] and [le_u32] of a slice of the given record. *)
Definition le_u16_at (bs : bytes) (offset : nat) : Z := from_le_bytes (slice bs offset (offset + 2)).
Definition le_u32_at (bs : bytes) (offset : nat) : Z := from_le_bytes (slice bs offset (offset + 4)).

(** [read_exact] of [n] bytes at a position. *)
Definition read_at (contents : bytes) (position n : Z) : ImportResult bytes :=
  if (0 <=? position) && (position + n <=? len contents)
  then Ok (slice contents (Z.to_nat position) (Z.to_nat position + Z.to_nat n))
  else Err malformed.

Definition PK (a b : Z) : bytes := lit "PK" ++ [byte_of a; byte_of b].

Definition ratio_exceeded (uncompressed compressed ratio : Z) : bool :=
  if uncompressed =? 0 then false
  else if compressed =? 0 then true
  else uncompressed >? Z.min U64_MAX (compressed * ratio).

(** ** Flags and extra fields *)

Definition ENCRYPTED : Z := 1.
Definition DEFLATE_OPTIONS : Z := 6.
Definition DATA_DESCRIPTOR : Z := 8.
Definition STRONG_ENCRYPTION : Z := 64.
Definition UTF8_NAME : Z := 2048.
Definition CENTRAL_DIRECTORY_ENCRYPTION : Z := 8192.

Definition any_flag (flags mask : Z) : bool := negb (Z.land flags mask =? 0).

(** [!mask] of a [u16]. *)
Definition not_u16 (mask : Z) : Z := U16_MAX - mask.

Definition validate_zip_flags (flags method : Z) : ImportResult unit :=
  if any_flag flags (Z.lor (Z.lor ENCRYPTED STRONG_ENCRYPTION) CENTRAL_DIRECTORY_ENCRYPTION)
  then Err (ImportError_new UnsafeEntryType)
  else if any_flag flags DATA_DESCRIPTOR || any_flag flags (not_u16 (Z.lor DEFLATE_OPTIONS UTF8_NAME))
          || ((method =? 0) && any_flag flags DEFLATE_OPTIONS)
  then Err malformed
  else if negb ((method =? 0) || (method =? 8)) then Err (ImportError_new UnsupportedCompression)
  else Ok tt.

(** [reject_zip64_extra]: the records of an extra field, four bytes of header each. *)
Fixpoint extra_loop (fuel : nat) (extra : bytes) : ImportResult unit :=
  match extra with
  | [] => Ok tt
  | _ =>
      if len extra <? 4 then Err malformed
      else
        let kind := le_u16_at extra 0 in
        let length := le_u16_at extra 2 in
        if (kind =? 1) || (4 + length >? len extra) then Err malformed
        else match fuel with
             | O => Err malformed
             | S fuel' => extra_loop fuel' (drop (Z.to_nat (4 + length)) extra)
             end
  end.

Definition reject_zip64_extra (extra : option bytes) : ImportResult unit :=
  match extra with
  | None => Ok tt
  | Some extra => extra_loop (length extra) extra
  end.

(** ** Kinds *)

(** [str::rsplit_once(c)]. *)
Definition rsplit_once (c : byte) (s : str) : option (str * str) :=
  '(after, before) ← split_once c (rev s);
  Some (rev before, rev after).

Definition EXTENSIONS : list (string * EntryKind) :=
  [("png", EntryAsset Png); ("jpg", EntryAsset Jpeg); ("jpeg", EntryAsset Jpeg); ("webp", EntryAsset WebP);
   ("gif", EntryAsset Gif); ("wav", EntryAsset Wav); ("mp3", EntryAsset Mp3); ("ogg", EntryAsset Ogg);
   ("flac", EntryAsset Flac); ("json", EntryMetadata); ("js", EntryExecutable JavaScript);
   ("mjs", EntryExecutable JavaScript); ("cjs", EntryExecutable JavaScript); ("lua", EntryExecutable Lua);
   ("wasm", EntryExecutable WebAssembly)]%string.

Definition classify_entry (path : PortablePath) : ImportResult EntryKind :=
  if is_directory path then Ok EntryDirectory
  else
    '(_, extension) ← ok_or (rsplit_once (byte_of 46) (logical path)) (ImportError_new UnsupportedFileType);
    match List.find (fun e => str_eqb (to_ascii_lowercase extension) (lit e.1)) EXTENSIONS with
    | Some (_, kind) => Ok kind
    | None => Err (ImportError_new UnsupportedFileType)
    end.

Definition portable_entry_type (mode : option Z) (is_directory : bool) : bool :=
  match mode with
  | None => true
  | Some mode =>
      let file_type := Z.land mode 61440 in
      if is_directory then (file_type =? 0) || (file_type =? 16384)
      else (file_type =? 0) || (file_type =? 32768)
  end.

(** ** The central directory *)

Definition EOCD_BYTES : Z := 22.
Definition CENTRAL_BYTES : Z := 46.

Definition is_eocd (tail : bytes) (offset : nat) : bool :=
  starts_with (drop offset tail) (PK 5 6) &&
  (Z.of_nat offset + EOCD_BYTES + le_u16_at tail (offset + 20) =? len tail).

(** [(0..=last).rev().find(..)]. *)
Fixpoint find_eocd (tail : bytes) (last : nat) : option nat :=
  if is_eocd tail last then Some last
  else match last with O => None | S last' => find_eocd tail last' end.

Section preflight.
Context `{PathLib}.
Variable limits : ImportLimits.

Definition record_path (path : PortablePath) (sets : PathSets) : ImportResult PathSets :=
  match insert_unique path sets with
  | (sets', Ok _) => Ok sets'
  | (_, Err e) => Err e
  end.

(** The fixed part of a central header, up to the ratio. *)
Definition check_central (fixed : bytes) (total : Z) : ImportResult Z :=
  if negb (str_eqb (slice fixed 0 4) (PK 1 2)) then Err malformed
  else
    let flags := le_u16_at fixed 8 in
    let method := le_u16_at fixed 10 in
    _ ← validate_zip_flags flags method;
    let compressed := le_u32_at fixed 20 in
    let uncompressed := le_u32_at fixed 24 in
    let name_bytes := le_u16_at fixed 28 in
    let extra_bytes := le_u16_at fixed 30 in
    let comment_bytes := le_u16_at fixed 32 in
    if (compressed =? U32_MAX) || (uncompressed =? U32_MAX) || negb (le_u16_at fixed 34 =? 0)
       || (le_u32_at fixed 42 =? U32_MAX) || (name_bytes =? 0)
       || (name_bytes >? Z.min USIZE_MAX (max_path_bytes limits + 1))
       || (extra_bytes >? max_zip_extra_bytes limits) || negb (comment_bytes =? 0)
    then Err malformed
    else if (method =? 0) && negb (compressed =? uncompressed) then Err malformed
    else if uncompressed >? max_entry_bytes limits then Err (ImportError_new EntrySizeLimit)
    else
      total ← ok_or (checked_add U64_MAX total uncompressed) (ImportError_new TotalSizeLimit);
      if total >? max_total_uncompressed_bytes limits then Err (ImportError_new TotalSizeLimit)
      else if ratio_exceeded uncompressed compressed (max_compression_ratio limits)
      then Err (ImportError_new CompressionRatioLimit)
      else Ok total.

(** [name.ends_with(b"/")]. *)
Definition directory_name (name : bytes) : bool := ends_with name [SLASH].

(** One round of [for _ in 0..entry_count]: the new position, total and names. *)
Definition central_entry (contents : bytes) (position total : Z) (sets : PathSets) :
    ImportResult (Z * Z * PathSets) :=
  fixed ← read_at contents position CENTRAL_BYTES;
  total ← check_central fixed total;
  let name_bytes := le_u16_at fixed 28 in
  let extra_bytes := le_u16_at fixed 30 in
  name ← read_at contents (position + CENTRAL_BYTES) name_bytes;
  extra ← read_at contents (position + CENTRAL_BYTES + name_bytes) extra_bytes;
  _ ← reject_zip64_extra (Some extra);
  path ← validate_path name (directory_name name) limits;
  sets ← record_path path sets;
  _ ← classify_entry path;
  mret (position + CENTRAL_BYTES + name_bytes + extra_bytes, total, sets).

Fixpoint central_loop (contents : bytes) (count : nat) (position total : Z) (sets : PathSets) : ImportResult Z :=
  match count with
  | O => Ok position
  | S count' =>
      '(position, total, sets) ← central_entry contents position total sets;
      central_loop contents count' position total sets
  end.

Definition preflight_zip_central (contents : bytes) (source_bytes : Z) : ImportResult Z :=
  if source_bytes <? EOCD_BYTES then Err malformed
  else
    let tail_bytes := Z.min source_bytes (EOCD_BYTES + U16_MAX) in
    tail ← read_at contents (len contents - tail_bytes) tail_bytes;
    eocd_in_tail ← ok_or (find_eocd tail (Z.to_nat (len tail - EOCD_BYTES))) malformed;
    let eocd_offset := source_bytes - tail_bytes + Z.of_nat eocd_in_tail in
    let eocd := slice tail eocd_in_tail (eocd_in_tail + Z.to_nat EOCD_BYTES) in
    let entries_on_disk := le_u16_at eocd 8 in
    let entry_count := le_u16_at eocd 10 in
    let central_bytes := le_u32_at eocd 12 in
    let central_offset := le_u32_at eocd 16 in
    if negb (le_u16_at eocd 4 =? 0) || negb (le_u16_at eocd 6 =? 0) || negb (entries_on_disk =? entry_count)
       || (entry_count =? U16_MAX) || (central_bytes =? U32_MAX) || (central_offset =? U32_MAX)
    then Err malformed
    else if entry_count =? 0 then Err (ImportError_new UnsupportedFileType)
    else if entry_count >? max_archive_entries limits then Err (ImportError_new EntryCountLimit)
    else
      central_end ← ok_or (checked_add U64_MAX central_offset central_bytes) malformed;
      if negb (central_end =? eocd_offset) then Err malformed
      else
        position ← central_loop contents (Z.to_nat entry_count) central_offset 0 (mkSets ∅ ∅);
        if negb (position =? central_end) then Err malformed else Ok entry_count.
End preflight.

(** ** The archive of the [zip] crate *)

Inductive CompressionMethod : Type := Stored | Deflated | OtherMethod.

Record ZipEntry : Type := mkZipEntry {
  encrypted : bool;
  compression : CompressionMethod;
  is_dir : bool;
  is_symlink : bool;
  unix_mode : option Z;
  extra_data : option bytes;
  entry_size : Z;
  compressed_size : Z;
  name_raw : bytes;
  header_start : Z;
  data_start : option Z;
  central_header_start : Z;
  entry_crc32 : Z;
}.

(** [by_index_raw] may fail for each index. *)
Record ZipArchive : Type := mkZipArchive {
  entries : list (option ZipEntry);
  decompressed_size : option Z;
}.

Class ZipLib : Type := { zip_open : bytes -> option ZipArchive }.

Section archive.
Context `{PathLib, ZipLib}.
Variable limits : ImportLimits.

Definition validate_local_header (contents : bytes) (header_start expected_data_start : Z) (expected_name : bytes)
    (compression : CompressionMethod) (crc32 compressed_size uncompressed_size : Z) : ImportResult unit :=
  fixed ← read_at contents header_start 30;
  if negb (str_eqb (slice fixed 0 4) (PK 3 4)) then Err malformed
  else
    let flags := le_u16_at fixed 6 in
    let allowed := Z.lor UTF8_NAME DEFLATE_OPTIONS in
    if any_flag flags (Z.lor (Z.lor (Z.lor ENCRYPTED DATA_DESCRIPTOR) STRONG_ENCRYPTION) CENTRAL_DIRECTORY_ENCRYPTION)
       || any_flag flags (not_u16 allowed)
       || match compression with Stored => any_flag flags DEFLATE_OPTIONS | _ => false end
    then Err malformed
    else
      let method := le_u16_at fixed 8 in
      expected_method ← match compression with
                        | Stored => Ok 0
                        | Deflated => Ok 8
                        | OtherMethod => Err (ImportError_new UnsupportedCompression)
                        end;
      if negb (method =? expected_method) || negb (le_u32_at fixed 14 =? crc32)
         || negb (le_u32_at fixed 18 =? compressed_size) || negb (le_u32_at fixed 22 =? uncompressed_size)
      then Err malformed
      else
        let name_bytes := le_u16_at fixed 26 in
        let extra_bytes := le_u16_at fixed 28 in
        if negb (name_bytes =? len expected_name) || (extra_bytes >? max_zip_extra_bytes limits) then Err malformed
        else
          name ← read_at contents (header_start + 30) name_bytes;
          if negb (str_eqb name expected_name) then Err malformed
          else
            extra ← read_at contents (header_start + 30 + name_bytes) extra_bytes;
            _ ← reject_zip64_extra (Some extra);
            actual_data_start ← ok_or (checked_add U64_MAX header_start 30 ≫= fun v =>
              checked_add U64_MAX v name_bytes ≫= fun v => checked_add U64_MAX v extra_bytes) malformed;
            if negb (actual_data_start =? expected_data_start) then Err malformed else Ok tt.

Record PreflightState : Type := mkPreflight {
  pf_plans : list EntryPlan;
  pf_sets : PathSets;
  pf_total : Z;
  pf_ranges : list (Z * Z);
  pf_minimum_header : Z;
}.

(** The body of [for index in 0..archive.len()], after the cancellation check. *)
Definition preflight_entry (contents : bytes) (source_bytes : Z) (st : PreflightState) (index : nat)
    (found : option ZipEntry) : ImportResult PreflightState :=
  entry ← ok_or found malformed;
  if encrypted entry then Err (ImportError_new UnsafeEntryType)
  else if match compression entry with OtherMethod => true | _ => false end
  then Err (ImportError_new UnsupportedCompression)
  else if is_symlink entry || negb (portable_entry_type (unix_mode entry) (is_dir entry))
  then Err (ImportError_new UnsafeEntryType)
  else
    _ ← reject_zip64_extra (extra_data entry);
    if (entry_size entry =? U32_MAX) || (compressed_size entry =? U32_MAX) then Err malformed
    else if entry_size entry >? max_entry_bytes limits then Err (ImportError_new EntrySizeLimit)
    else
      total ← ok_or (checked_add U64_MAX (pf_total st) (entry_size entry)) (ImportError_new TotalSizeLimit);
      if total >? max_total_uncompressed_bytes limits then Err (ImportError_new TotalSizeLimit)
      else if ratio_exceeded (entry_size entry) (compressed_size entry) (max_compression_ratio limits)
      then Err (ImportError_new CompressionRatioLimit)
      else
        path ← validate_path (name_raw entry) (is_dir entry) limits;
        sets ← record_path path (pf_sets st);
        kind ← classify_entry path;
        if is_dir entry && negb (entry_size entry =? 0) then Err (ImportError_new UnsafeEntryType)
        else
          data_start ← ok_or (data_start entry) malformed;
          data_end ← ok_or (checked_add U64_MAX data_start (compressed_size entry)) malformed;
          if (data_start <? header_start entry) || (data_end >? central_header_start entry)
             || (data_end >? source_bytes)
          then Err malformed
          else
            _ ← validate_local_header contents (header_start entry) data_start (name_raw entry)
                  (compression entry) (entry_crc32 entry) (compressed_size entry) (entry_size entry);
            mret (mkPreflight (pf_plans st ++ [mkEntryPlan index path kind (entry_size entry)]) sets total
                    (pf_ranges st ++ [(header_start entry, data_end)])
                    (Z.min (pf_minimum_header st) (header_start entry))).

(** The loop; the state also counts the calls of [is_cancelled]. *)
Fixpoint preflight_loop (is_cancelled : nat -> bool) (contents : bytes) (source_bytes : Z) (st : PreflightState)
    (index : nat) (found : list (option ZipEntry)) : ST nat ImportError PreflightState := fun n =>
  match found with
  | [] => (n, Ok st)
  | entry :: found' =>
      if is_cancelled n then (S n, Err (ImportError_new ImportCancelled))
      else match preflight_entry contents source_bytes st index entry with
           | Ok st' => preflight_loop is_cancelled contents source_bytes st' (S index) found' (S n)
           | Err e => (S n, Err e)
           end
  end.

(** The order of [(u64, u64)]. *)
Definition range_cmp (a b : Z * Z) : comparison :=
  then_with (a.1 ?= b.1) (a.2 ?= b.2).

(** [ranges.windows(2)]: an entry ends before the next begins. *)
Fixpoint overlapping (ranges : list (Z * Z)) : bool :=
  match ranges with
  | a :: ((b :: _) as rest) => (a.2 >? b.1) || overlapping rest
  | _ => false
  end.

Definition preflight_zip (is_cancelled : nat -> bool) (contents : bytes) (source_bytes : Z) :
    ST nat ImportError (list EntryPlan) :=
  count ← st_lift (preflight_zip_central limits contents source_bytes);
  archive ← st_lift (ok_or (zip_open contents) malformed);
  if negb (len (entries archive) =? count) then st_lift (Err malformed)
  else
    st ← preflight_loop is_cancelled contents source_bytes (mkPreflight [] (mkSets ∅ ∅) 0 [] U64_MAX) 0 (entries archive);
    if negb (is_empty (pf_plans st)) && negb (pf_minimum_header st =? 0) then st_lift (Err malformed)
    else if overlapping (sort_by range_cmp (pf_ranges st)) then st_lift (Err malformed)
    else
      total ← st_lift (ok_or (decompressed_size archive) malformed);
      if negb (total =? pf_total st) then st_lift (Err malformed) else mret (pf_plans st).
End archive.
