(* ===== verification/ImportZipFacts.v ===== *)
(** * What an archive that passed the preflight is

    Its entries are admitted one by one, lie in the file without overlap, agree with
    their local headers, have safe and distinct names, and cannot expand beyond the
    limits, nor beyond the compression ratio times the size of the archive itself. *)

From stdpp Require Import gmap.
From S2P Require Import Prelude Bytes Utf8 Sorting AssetModel ImportPath ImportZip.

(** ** Extra fields *)

Record extra_record (r : Z * bytes) : Prop := {
  record_kind : 0 <= r.1 < 65536 /\ r.1 <> 1;
  record_length : len r.2 < 65536;
}.

Definition encode_extra (r : Z * bytes) : bytes := le_bytes 2 r.1 ++ le_bytes 2 (len r.2) ++ r.2.

Lemma le_u16_at_app a z rest :
  0 <= z < 65536 -> le_u16_at (a ++ le_bytes 2 z ++ rest) (length a) = z.
Proof.
  intros Hz. unfold le_u16_at, slice. rewrite drop_app_length.
  replace (length a + 2 - length a)%nat with 2%nat by lia.
  rewrite take_app_length' by (by rewrite length_le_bytes). rewrite le_bytes_round_trip.
  change (256 ^ Z.of_nat 2) with 65536. by apply Z.mod_small.
Qed.

Lemma le_u16_range bs i : 0 <= le_u16_at bs i < 65536.
Proof.
  unfold le_u16_at, slice. pose proof (from_le_bytes_range (firstn (i + 2 - i) (drop i bs))) as Hr.
  assert (len (firstn (i + 2 - i) (drop i bs)) <= 2) by (unfold len; rewrite length_take; lia).
  pose proof (len_nonneg (firstn (i + 2 - i) (drop i bs))).
  assert (256 ^ len (firstn (i + 2 - i) (drop i bs)) <= 256 ^ 2) by (apply Z.pow_le_mono_r; lia). lia.
Qed.

Lemma le_u32_nonneg bs i : 0 <= le_u32_at bs i.
Proof. unfold le_u32_at. pose proof (from_le_bytes_range (slice bs i (i + 4))). lia. Qed.

Lemma le_bytes_of_slice bs i :
  (i + 2 <= length bs)%nat -> le_bytes 2 (le_u16_at bs i) = firstn 2 (drop i bs).
Proof.
  intros Hi. unfold le_u16_at, slice. replace (i + 2 - i)%nat with 2%nat by lia.
  assert (Hl : length (firstn 2 (drop i bs)) = 2%nat) by (rewrite length_take, length_drop; lia).
  set (b2 := firstn 2 (drop i bs)) in *. destruct b2 as [|b0 [|b1 [|]]]; try done. cbn [from_le_bytes le_bytes].
  pose proof (byte_val_range b0). pose proof (byte_val_range b1).
  replace (byte_val b0 + 256 * (byte_val b1 + 256 * 0)) with (byte_val b1 * 256 + byte_val b0) by lia.
  rewrite Z.div_add_l, Z.div_small, Z.add_0_r by lia. rewrite Z.add_comm, Z.mod_add, !Z.mod_small by lia.
  by rewrite !byte_of_val.
Qed.

Lemma len_le_bytes n z : len (le_bytes n z) = Z.of_nat n.
Proof. unfold len. by rewrite length_le_bytes. Qed.

Lemma extra_loop_iff fuel extra :
  (length extra <= fuel)%nat ->
  extra_loop fuel extra = Ok tt <->
  exists records, Forall extra_record records /\ extra = concat (map encode_extra records).
Proof.
  revert extra. induction fuel as [|fuel IH]; intros extra Hf.
  { destruct extra; [|cbn in Hf; lia]. split; [|done]. intros _. by exists []. }
  destruct extra as [|b extra']. { split; [|done]. intros _. by exists []. }
  set (extra := b :: extra') in *. change (extra_loop (S fuel) extra) with
    (if len extra <? 4 then Err malformed else
     if (le_u16_at extra 0 =? 1) || (4 + le_u16_at extra 2 >? len extra) then Err malformed
     else extra_loop fuel (drop (Z.to_nat (4 + le_u16_at extra 2)) extra)).
  pose proof (le_u16_range extra 0) as H0. pose proof (le_u16_range extra 2) as H2.
  assert (Hsplit : forall r records, extra_record r -> extra = concat (map encode_extra (r :: records)) ->
    len extra = 4 + len r.2 + len (concat (map encode_extra records)) /\ le_u16_at extra 0 = r.1 /\ le_u16_at extra 2 = len r.2 /\
    drop (Z.to_nat (4 + len r.2)) extra = concat (map encode_extra records)).
  { intros r records [Hk Hl] ->. cbn [map concat]. set (tl := concat (map encode_extra records)). unfold encode_extra. pose proof (len_nonneg r.2).
    rewrite <- !app_assoc. split_and!.
    - rewrite !len_app, !len_le_bytes. lia.
    - apply (le_u16_at_app []). lia.
    - apply (le_u16_at_app (le_bytes 2 r.1)). lia.
    - rewrite (app_assoc (le_bytes 2 r.1)), (app_assoc (_ ++ _)). rewrite drop_app_length'; [done|].
      rewrite !length_app, !length_le_bytes. unfold len in *. lia. }
  destruct (len extra <? 4) eqn:H4; zify_bool.
  { split; [done|]. intros ([|r records] & Hall & Heq); [done|]. apply Forall_cons_iff in Hall as [Hr _].
    destruct (Hsplit r records Hr Heq) as (Hlen & _). pose proof (len_nonneg r.2).
    pose proof (len_nonneg (concat (map encode_extra records))). lia. }
  destruct (_ || _) eqn:Hb.
  { split; [done|]. intros ([|r records] & Hall & Heq); [done|]. apply Forall_cons_iff in Hall as [Hr _].
    destruct (Hsplit r records Hr Heq) as (Hlen & E0 & E2 & _). destruct Hr as [[_ Hk] _].
    pose proof (len_nonneg (concat (map encode_extra records))). rewrite E0, E2 in Hb. lia. }
  zify_bool. rewrite IH by (rewrite length_drop; unfold extra in *; cbn [length] in *; lia). split.
  - intros (records & Hall & Hd). set (n := le_u16_at extra 2) in *.
    exists ((le_u16_at extra 0, firstn (Z.to_nat n) (drop 4 extra)) :: records).
    assert (Hl : len (firstn (Z.to_nat n) (drop 4 extra)) = n).
    { unfold len in *. rewrite length_take, length_drop. lia. }
    split; [constructor; [split; cbn [fst snd]; lia|done]|]. cbn [map concat]. unfold encode_extra at 1. cbn [fst snd].
    rewrite Hl, <- Hd. unfold n. rewrite !le_bytes_of_slice by (unfold len in *; lia). fold n. rewrite drop_0, <- !app_assoc.
    rewrite <- (take_drop 2 extra) at 1. f_equal. rewrite <- (take_drop 2 (drop 2 extra)) at 1. f_equal. rewrite drop_drop.
    rewrite <- (take_drop (Z.to_nat n) (drop (2 + 2) extra)) at 1. f_equal. rewrite drop_drop. f_equal. lia.
  - intros ([|r records] & Hall & Heq); [done|]. apply Forall_cons_iff in Hall as [Hr Hrs].
    destruct (Hsplit r records Hr Heq) as (_ & _ & -> & Hd). by exists records.
Qed.

(** ** Intervals *)

Section pairwise.
Context {A : Type} (R : A -> A -> Prop).

Fixpoint pairwise (l : list A) : Prop :=
  match l with [] => True | x :: l' => Forall (R x) l' /\ pairwise l' end.

Lemma pairwise_perm l l' : Symmetric R -> l ≡ₚ l' -> pairwise l -> pairwise l'.
Proof.
  intros Hsym. induction 1 as [|x l l' Hp IH|x y l|l1 l2 l3 _ IH1 _ IH2]; cbn [pairwise]; [done| |..].
  - intros [Hx Hl]. split; [by rewrite <- Hp|by apply IH].
  - intros [[Hyx Hy]%Forall_cons_iff [Hx Hl]]. split_and!; [constructor; [by symmetry|done]|done|done].
  - intros Hl. by apply IH2, IH1.
Qed.
End pairwise.

Definition interval (r : Z * Z) : Prop := r.1 <= r.2.
Definition disjoint_ranges (a b : Z * Z) : Prop := a.2 <= b.1 \/ b.2 <= a.1.

#[export] Instance disjoint_ranges_sym : Symmetric disjoint_ranges.
Proof. intros a b. unfold disjoint_ranges. tauto. Qed.

#[export] Instance range_comparison : Comparison range_cmp.
Proof. apply then_with_cmp; apply Z_compare_cmp. Qed.

Lemma overlapping_cons a b rest :
  overlapping (a :: b :: rest) = false <-> a.2 <= b.1 /\ overlapping (b :: rest) = false.
Proof. cbn [overlapping]. rewrite orb_false_iff. split; intros [H1 H2]; (split; [lia|done]). Qed.

Lemma starts_above ranges lo :
  Forall interval ranges -> overlapping ranges = false ->
  match ranges with a :: _ => lo <= a.1 | [] => True end -> Forall (fun r => lo <= r.1) ranges.
Proof.
  revert lo. induction ranges as [|a rest IH]; intros lo Hi Ho Hlo; [done|].
  apply Forall_cons_iff in Hi as [Ha Hi]. constructor; [done|]. unfold interval in Ha.
  destruct rest as [|b rest]; [done|]. apply overlapping_cons in Ho as [Hab Ho]. apply IH; [done|done|lia].
Qed.

(** In order of their starts, intervals that do not overlap their neighbours are
    disjoint, and their lengths add up to no more than the space they lie in. *)
Lemma sorted_disjoint ranges :
  Forall interval ranges -> overlapping ranges = false -> pairwise disjoint_ranges ranges.
Proof.
  induction ranges as [|a rest IH]; intros Hi Ho; [done|]. apply Forall_cons_iff in Hi as [Ha Hi].
  destruct rest as [|b rest]; [done|]. apply overlapping_cons in Ho as [Hab Ho]. split; [|by apply IH].
  eapply Forall_impl; [|by apply (starts_above (b :: rest) a.2)]. intros r Hr. by left.
Qed.

Definition total_length (ranges : list (Z * Z)) : Z := foldr (fun r total => r.2 - r.1 + total) 0 ranges.

Lemma total_length_bound ranges lo hi :
  Forall interval ranges -> overlapping ranges = false -> Forall (fun r => lo <= r.1 /\ r.2 <= hi) ranges ->
  lo <= hi -> total_length ranges <= hi - lo.
Proof.
  revert lo. induction ranges as [|a rest IH]; intros lo Hi Ho Hb Hle; cbn [total_length foldr]; [lia|].
  fold (total_length rest). apply Forall_cons_iff in Hi as [Ha Hi]. apply Forall_cons_iff in Hb as [[Hlo Hhi] Hb].
  destruct rest as [|b rest]; [cbn; lia|]. apply overlapping_cons in Ho as [Hab Ho].
  assert (Hb' : Forall (fun r => a.2 <= r.1 /\ r.2 <= hi) (b :: rest)).
  { apply Forall_and; [by apply starts_above|]. eapply Forall_impl; [|exact Hb]. by intros r [_ ?]. }
  specialize (IH a.2 Hi Ho Hb'). lia.
Qed.

Lemma total_length_perm l l' : l ≡ₚ l' -> total_length l = total_length l'.
Proof. induction 1; cbn [total_length foldr] in *; unfold total_length in *; lia. Qed.

(** ** Entries *)

Section entries.
Context `{PathLib, ZipLib}.
Variable limits : ImportLimits.

(** The local header at the start of the range, as the file has it, says what the plan
    says: size, name, and the end of the data. *)
Definition local_entry (contents : bytes) (plan : EntryPlan) (range : Z * Z) : Prop :=
  exists fixed name,
    read_at contents range.1 30 = Ok fixed /\ slice fixed 0 4 = PK 3 4 /\
    (le_u16_at fixed 8 = 0 \/ le_u16_at fixed 8 = 8) /\ le_u32_at fixed 22 = plan_bytes plan /\
    read_at contents (range.1 + 30) (le_u16_at fixed 26) = Ok name /\
    validate_path name (is_directory (plan_path plan)) limits = Ok (plan_path plan) /\
    range.2 = range.1 + 30 + le_u16_at fixed 26 + le_u16_at fixed 28 + le_u32_at fixed 18.

Record admitted (contents : bytes) (source_bytes : Z) (plan : EntryPlan) (range : Z * Z) : Prop := {
  adm_local : local_entry contents plan range;
  adm_range : 0 <= range.1 /\ range.1 <= range.2 /\ range.2 <= source_bytes;
  adm_size : 0 <= plan_bytes plan <= max_entry_bytes limits;
  adm_ratio : plan_bytes plan <= max_compression_ratio limits * (range.2 - range.1);
  adm_kind : classify_entry (plan_path plan) = Ok (plan_kind plan);
}.

Lemma validate_path_hint raw hint path : validate_path raw hint limits = Ok path -> is_directory path = hint.
Proof.
  unfold validate_path. intros (s & _ & Hk)%bind_Ok. destruct (_ || _); [done|]. destruct (negb _); [done|].
  destruct (is_empty _); [done|]. apply bind_Ok in Hk as (? & _ & Hk). destruct (_ >? _); [done|]. by injection Hk as <-.
Qed.

Lemma read_at_inv contents position n bs :
  read_at contents position n = Ok bs -> 0 <= position /\ position + n <= len contents.
Proof. unfold read_at. destruct (_ && _) eqn:Hb; [|done]. intros _. zify_bool. lia. Qed.

Lemma local_header_inv contents start data_start name method crc compressed size :
  validate_local_header limits contents start data_start name method crc compressed size = Ok tt ->
  exists fixed, read_at contents start 30 = Ok fixed /\ slice fixed 0 4 = PK 3 4 /\
    (le_u16_at fixed 8 = 0 \/ le_u16_at fixed 8 = 8) /\ le_u32_at fixed 22 = size /\ le_u32_at fixed 18 = compressed /\
    read_at contents (start + 30) (le_u16_at fixed 26) = Ok name /\
    data_start = start + 30 + le_u16_at fixed 26 + le_u16_at fixed 28.
Proof.
  unfold validate_local_header. intros (fixed & Hfixed & Hk)%bind_Ok.
  destruct (str_eqb (slice fixed 0 4) (PK 3 4)) eqn:Hpk; [|done]. apply str_eqb_eq in Hpk. cbn [negb] in Hk.
  pass guard Hk. apply bind_Ok in Hk as (m & Hm & Hk). pass guard Hk as Hfields. pass guard Hk as Hlens.
  apply bind_Ok in Hk as (name' & Hname & Hk). destruct (str_eqb name' name) eqn:Hn; [|done]. apply str_eqb_eq in Hn as ->.
  cbn [negb] in Hk. apply bind_Ok in Hk as (extra & _ & Hk). apply bind_Ok in Hk as (? & _ & Hk).
  apply bind_Ok in Hk as (actual & Hactual & Hk). destruct (actual =? data_start) eqn:Hd; [|done]. zify_bool.
  apply ok_or_Ok in Hactual. apply bind_Some in Hactual as (v1 & [-> _]%checked_add_Some & Hactual).
  apply bind_Some in Hactual as (v2 & [-> _]%checked_add_Some & [-> _]%checked_add_Some).
  exists fixed. split_and!; try done; try lia. destruct method; simplify_eq/=; lia.
Qed.

Lemma preflight_entry_inv contents source st index found st' :
  0 <= max_compression_ratio limits ->
  preflight_entry limits contents source st index found = Ok st' ->
  exists plan range, admitted contents source plan range /\ plan_index plan = index /\
    pf_plans st' = pf_plans st ++ [plan] /\ pf_ranges st' = pf_ranges st ++ [range] /\
    pf_total st' = pf_total st + plan_bytes plan /\ pf_total st' <= max_total_uncompressed_bytes limits /\
    insert_unique (plan_path plan) (pf_sets st) = (pf_sets st', Ok tt) /\
    pf_minimum_header st' = Z.min (pf_minimum_header st) range.1.
Proof.
  intros Hratio. unfold preflight_entry. intros (e & _ & Hk)%bind_Ok.
  pass guard Hk. pass guard Hk. pass guard Hk. apply bind_Ok in Hk as (? & _ & Hk). pass guard Hk. pass guard Hk as Hsize.
  apply bind_Ok in Hk as (total & Htotal & Hk). apply ok_or_Ok, checked_add_Some in Htotal as [-> _].
  pass guard Hk as Hmax. pass guard Hk as Hr.
  apply bind_Ok in Hk as (path & Hpath & Hk). apply bind_Ok in Hk as (sets & Hsets & Hk).
  apply bind_Ok in Hk as (kind & Hkind & Hk). pass guard Hk.
  apply bind_Ok in Hk as (start & Hstart & Hk). apply bind_Ok in Hk as (stop & Hstop & Hk).
  apply ok_or_Ok, checked_add_Some in Hstop as [-> _]. pass guard Hk as Hin.
  apply bind_Ok in Hk as ([] & Hlocal & Hk). injection Hk as <-.
  apply local_header_inv in Hlocal as (fixed & Hfixed & Hpk & Hm & Hsz & Hcs & Hname & ->).
  pose proof (read_at_inv _ _ _ _ Hfixed) as [Hpos _]. pose proof (le_u32_nonneg fixed 22). pose proof (le_u32_nonneg fixed 18).
  pose proof (le_u16_range fixed 26). pose proof (le_u16_range fixed 28). zify_bool.
  exists (mkEntryPlan index path kind (entry_size e)),
    (header_start e, header_start e + 30 + le_u16_at fixed 26 + le_u16_at fixed 28 + compressed_size e).
  split_and!; [|done|done|done|done| | |].

  - split; cbn [plan_path plan_bytes plan_kind fst snd]; [|lia|lia| |done].
    + exists fixed, (name_raw e). cbn [fst snd plan_path plan_bytes]. rewrite (validate_path_hint _ _ _ Hpath). split_and!; try done; lia.
    + unfold ratio_exceeded in Hr. destruct (_ =? 0) eqn:Hz; [zify_bool; nia|]. destruct (compressed_size e =? 0); [done|]. zify_bool.
      assert (entry_size e <= compressed_size e * max_compression_ratio limits) by lia. nia.
  - cbn [pf_total]. zify_bool. lia.
  - cbn [plan_path pf_sets]. unfold record_path in Hsets. destruct (insert_unique path (pf_sets st)) as [s [[]|]]; [|done]. by injection Hsets as <-.
  - done.
Qed.

Definition planned_bytes (plans : list EntryPlan) : Z := foldr (fun p total => plan_bytes p + total) 0 plans.

Lemma planned_bytes_app a b : planned_bytes (a ++ b) = planned_bytes a + planned_bytes b.
Proof. induction a; cbn [planned_bytes foldr app] in *; unfold planned_bytes in *; lia. Qed.

(** What the loop has established when it ends. *)
Record preflight_ok (contents : bytes) (source_bytes : Z) (st : PreflightState) : Prop := {
  ok_items : Forall2 (admitted contents source_bytes) (pf_plans st) (pf_ranges st);
  ok_indexes : forall i plan, pf_plans st !! i = Some plan -> plan_index plan = i;
  ok_total : pf_total st = planned_bytes (pf_plans st) /\ pf_total st <= max_total_uncompressed_bytes limits;
  ok_names : insert_all (map plan_path (pf_plans st)) (mkSets ∅ ∅) = (pf_sets st, Ok tt);
  ok_minimum : pf_minimum_header st = foldr (fun r low => Z.min r.1 low) U64_MAX (pf_ranges st);
}.

Lemma insert_all_snoc paths path s s1 s2 :
  insert_all paths s = (s1, Ok tt) -> insert_unique path s1 = (s2, Ok tt) ->
  insert_all (paths ++ [path]) s = (s2, Ok tt).
Proof.
  revert s. induction paths as [|q paths IH]; intros s; cbn [insert_all app].
  - intros [= <-] Hu. unfold mbind, ST_bind. by rewrite Hu.
  - unfold mbind, ST_bind. destruct (insert_unique q s) as [s' [u|]]; [|done]. intros Ha Hu. by apply IH.
Qed.

Lemma preflight_entry_ok contents source st found st' :
  0 <= max_compression_ratio limits ->
  preflight_ok contents source st -> preflight_entry limits contents source st (length (pf_plans st)) found = Ok st' ->
  preflight_ok contents source st' /\ length (pf_plans st') = S (length (pf_plans st)).
Proof.
  intros Hratio [Hitems Hindex [Htotal _] Hnames Hmin] Hk.
  apply preflight_entry_inv in Hk as (plan & range & Hadm & Hi & Hp & Hr & Ht & Hmax & Hu & Hm); [|done].
  split; [split|]; rewrite ?Hp, ?Hr, ?Ht, ?Hm.
  - apply Forall2_app; [done|]. by constructor.
  - intros i q Hq. apply lookup_app_Some in Hq as [Hq|[Hle Hq]]; [by apply Hindex|].
    apply list_lookup_singleton_Some in Hq as [Hz <-]. lia.
  - rewrite planned_bytes_app, Htotal. cbn. split; [lia|]. lia.
  - rewrite map_app. by eapply insert_all_snoc.
  - rewrite Hmin. clear. induction (pf_ranges st) as [|r l IH]; cbn in *; lia.
  - rewrite length_app. cbn. lia.
Qed.

Lemma preflight_loop_ok is_cancelled contents source st found n n' st' :
  0 <= max_compression_ratio limits -> preflight_ok contents source st ->
  preflight_loop limits is_cancelled contents source st (length (pf_plans st)) found n = (n', Ok st') ->
  preflight_ok contents source st' /\ length (pf_plans st') = (length (pf_plans st) + length found)%nat.
Proof.
  intros Hratio. revert st n. induction found as [|e found IH]; intros st n Hok; cbn [preflight_loop].
  { intros [= <- <-]. split; [done|]. cbn. lia. }
  destruct (is_cancelled n); [done|]. destruct (preflight_entry _ _ _ _ _ _) as [st1|] eqn:He; [|done].
  apply preflight_entry_ok in He as [Hok1 Hlen]; [|done..]. rewrite <- Hlen. intros Hl.
  apply IH in Hl as [Hok' Hl]; [|done]. split; [done|]. rewrite Hl, Hlen. cbn. lia.
Qed.

Lemma admitted_bytes contents source plans ranges :
  Forall2 (admitted contents source) plans ranges ->
  planned_bytes plans <= max_compression_ratio limits * total_length ranges.
Proof.
  induction 1 as [|p r plans ranges [_ _ _ Hr _] _ IH]; cbn [planned_bytes total_length foldr]; [lia|].
  fold (planned_bytes plans) (total_length ranges). lia.
Qed.

Lemma central_count contents source count :
  preflight_zip_central limits contents source = Ok count -> 1 <= count <= max_archive_entries limits.
Proof.
  unfold preflight_zip_central. intros Hk. pass guard Hk. apply bind_Ok in Hk as (tail & _ & Hk).
  apply bind_Ok in Hk as (offset & _ & Hk). pass guard Hk. pass guard Hk as Hz. pass guard Hk as Hmax.
  apply bind_Ok in Hk as (stop & _ & Hk). pass guard Hk. apply bind_Ok in Hk as (position & _ & Hk). pass guard Hk.
  injection Hk as <-. match type of Hz with (le_u16_at ?b ?i =? _) = _ => pose proof (le_u16_range b i) end. zify_bool. lia.
Qed.

(** The limits are unsigned. *)
Record zip_limits_typed : Prop := {
  typed_ratio : 0 <= max_compression_ratio limits;
  typed_total : 0 <= max_total_uncompressed_bytes limits;
}.

Lemma preflight_zip_inv is_cancelled contents source n n' plans :
  zip_limits_typed -> preflight_zip limits is_cancelled contents source n = (n', Ok plans) ->
  exists st, preflight_ok contents source st /\ pf_plans st = plans /\
    overlapping (sort_by range_cmp (pf_ranges st)) = false /\ 1 <= len plans <= max_archive_entries limits /\
    pf_minimum_header st = 0.
Proof.
  intros [Hratio Htotal]. unfold preflight_zip, mbind, ST_bind, st_lift.
  destruct (preflight_zip_central limits contents source) as [count|] eqn:Hc; [|done].
  destruct (ok_or _ _) as [archive|]; [|done]. destruct (len (entries archive) =? count) eqn:Hlen; [|done]. cbn [negb].
  destruct (preflight_loop _ _ _ _ _ _ _ _) as [n1 [st|]] eqn:Hl; [|done].
  destruct (negb (is_empty _) && _) eqn:Hm; [done|]. destruct (overlapping _) eqn:Ho; [done|].
  destruct (ok_or (decompressed_size archive) _) as [total|]; [|done]. destruct (total =? pf_total st); [|done]. cbn [negb]. intros [= <- <-].
  apply (preflight_loop_ok is_cancelled contents source (mkPreflight [] (mkSets ∅ ∅) 0 [] U64_MAX)) in Hl as [Hok Hplans];
    [|done|by split; cbn; [constructor| | | |constructor]].
  apply central_count in Hc. exists st. cbn [pf_plans length Nat.add] in Hplans. zify_bool.
  assert (Hcount : len (pf_plans st) = count) by (unfold len in *; lia). split_and!; [done|done|done|lia..|].
  destruct (is_empty (pf_plans st)) eqn:Hemp; [apply is_empty_true in Hemp; rewrite Hemp, len_nil in Hcount; lia|].
  cbn [negb andb] in Hm. zify_bool. done.
Qed.

Lemma preflight_ranges contents source st :
  preflight_ok contents source st ->
  Forall interval (pf_ranges st) /\ Forall (fun r => 0 <= r.1 /\ r.2 <= source) (pf_ranges st).
Proof.
  intros [Hitems _ _ _ _]. split; apply Forall_forall; intros r Hr.
  all: apply list_elem_of_In, list_elem_of_lookup in Hr as [i Hi]; destruct (Forall2_lookup_r _ _ _ _ _ Hitems Hi) as (p & _ & [_ Hrange _ _ _]).
  - unfold interval. lia.
  - lia.
Qed.
End entries.

Lemma minimum_reached (ranges : list (Z * Z)) low :
  foldr (fun r low => Z.min r.1 low) low ranges = 0 -> 0 < low -> exists stop, (0, stop) ∈ ranges.
Proof.
  induction ranges as [|[start stop] ranges IH]; cbn [foldr fst]; intros Hz Hl; [lia|].
  destruct (decide (start = 0)) as [->|Hne]; [exists stop; left|].
  destruct IH as [t Ht]; [lia|done|]. exists t. by right.
Qed.

(** C34: An archive that passes the preflight is what it seems.  Every planned entry has a
    local header in the file that agrees with the plan on size, name and extent; the
    names are accepted names and give the kind of the entry; their portable keys differ,
    and no file is a directory above another entry, unless that entry is itself a directory
    which the archive lists after the file; the extents of the entries lie in the file, one
    of them begins at its start, and they do not overlap, however the archive orders them. *)
Theorem preflighted_archive_is_sound `{PathLaws, ZipLib} (limits : ImportLimits) (is_cancelled : nat -> bool)
    (contents : bytes) (n n' : nat) (plans : list EntryPlan) :
  zip_limits_typed limits -> preflight_zip limits is_cancelled contents (len contents) n = (n', Ok plans) ->
  (forall i plan, plans !! i = Some plan ->
     plan_index plan = i /\ classify_entry (plan_path plan) = Ok (plan_kind plan)) /\
  (forall i j p q, plans !! i = Some p -> plans !! j = Some q -> i <> j ->
     collision_key (plan_path p) <> collision_key (plan_path q) /\
     (clashes (plan_path p) (plan_path q) -> is_directory (plan_path q) = true /\ (i < j)%nat)) /\
  exists ranges, Forall2 (local_entry limits contents) plans ranges /\ pairwise disjoint_ranges ranges /\
    Forall (fun r => 0 <= r.1 <= r.2 /\ r.2 <= len contents) ranges /\ exists stop, (0, stop) ∈ ranges.
Proof.
  intros Ht Hz. apply preflight_zip_inv in Hz as (st & Hok & <- & Ho & _ & Hzero); [|done].
  pose proof (preflight_ranges _ _ _ _ Hok) as [Hint Hin]. destruct Hok as [Hitems Hindex _ Hnames Hmin]. split_and!.
  - intros i plan Hp. split; [by apply Hindex|]. by destruct (Forall2_lookup_l _ _ _ _ _ Hitems Hp) as (r & _ & [_ _ _ _ Hk]).
  - intros i j p q Hp Hq Hne. eapply (insert_all_pairs (map plan_path (pf_plans st))); [exact Hnames| | |  |done].
    + apply Forall_map. clear -Hitems. induction Hitems as [|x r plans ranges Hx _ IH]; constructor; [|done].
      destruct Hx as [(fixed & name & _ & _ & _ & _ & _ & Hv & _) _ _ _ _]. by eapply validate_path_spelled.
    + by rewrite list_lookup_fmap, Hp.
    + by rewrite list_lookup_fmap, Hq.
  - exists (pf_ranges st). split_and!.
    + eapply Forall2_impl; [|exact Hitems]. by intros p r [Hl _ _ _ _].
    + eapply pairwise_perm; [apply _|apply (sort_by_perm range_cmp)|].
      apply sorted_disjoint; [|done]. by rewrite sort_by_perm.
    + eapply Forall_impl; [|by apply Forall_and; [exact Hint|exact Hin]]. unfold interval. cbn. intros r Hr. lia.
    + apply (minimum_reached _ U64_MAX); [congruence|done].
Qed.

(** C35: An accepted archive cannot explode: its entries are no more than the limit, each
    within the size limit, and together they expand to at most the total limit and at
    most the compression ratio times the size of the archive itself, because their
    compressed data do not overlap. *)
Theorem archive_expansion_is_bounded `{PathLib, ZipLib} (limits : ImportLimits) (is_cancelled : nat -> bool)
    (contents : bytes) (n n' : nat) (plans : list EntryPlan) :
  zip_limits_typed limits -> preflight_zip limits is_cancelled contents (len contents) n = (n', Ok plans) ->
  1 <= len plans <= max_archive_entries limits /\
  Forall (fun p => 0 <= plan_bytes p <= max_entry_bytes limits) plans /\
  planned_bytes plans <= max_total_uncompressed_bytes limits /\
  planned_bytes plans <= max_compression_ratio limits * len contents.
Proof.
  intros Ht Hz. apply preflight_zip_inv in Hz as (st & Hok & <- & Ho & Hn & _); [|done].
  pose proof (preflight_ranges _ _ _ _ Hok) as [Hint Hin]. destruct Hok as [Hitems _ [Htotal Hmax] _ _]. split_and!; [lia..| |lia|].
  - apply Forall_forall. intros p Hp. apply list_elem_of_In, list_elem_of_lookup in Hp as [i Hi].
    by destruct (Forall2_lookup_l _ _ _ _ _ Hitems Hi) as (r & _ & [_ _ Hs _ _]).
  - etransitivity; [by eapply admitted_bytes|]. apply Z.mul_le_mono_nonneg_l; [apply Ht|].
    rewrite <- (total_length_perm _ _ (sort_by_perm range_cmp (pf_ranges st))).
    replace (len contents) with (len contents - 0) by lia. apply total_length_bound; [|done| |apply len_nonneg].
    + by rewrite sort_by_perm.
    + by rewrite sort_by_perm.
Qed.

(** ** A small archive *)

Module ZipExample.
#[local] Existing Instance PathExamples.ascii_paths.
#[local] Existing Instance PathExamples.ascii_laws.

Definition local_header (name data : bytes) : bytes :=
  PK 3 4 ++ le_bytes 2 20 ++ le_bytes 2 0 ++ le_bytes 2 0 ++ le_bytes 4 0 ++ le_bytes 4 7 ++ le_bytes 4 (len data) ++
  le_bytes 4 (len data) ++ le_bytes 2 (len name) ++ le_bytes 2 0 ++ name ++ data.

Definition central_header (name data : bytes) (offset : Z) : bytes :=
  PK 1 2 ++ le_bytes 2 20 ++ le_bytes 2 20 ++ le_bytes 2 0 ++ le_bytes 2 0 ++ le_bytes 4 0 ++ le_bytes 4 7 ++
  le_bytes 4 (len data) ++ le_bytes 4 (len data) ++ le_bytes 2 (len name) ++ le_bytes 2 0 ++ le_bytes 2 0 ++
  le_bytes 2 0 ++ le_bytes 2 0 ++ le_bytes 4 0 ++ le_bytes 4 offset ++ name.

Definition locals : bytes := local_header (lit "a.json") (lit "{}") ++ local_header (lit "b.lua") (lit "--").
Definition central : bytes := central_header (lit "a.json") (lit "{}") 0 ++ central_header (lit "b.lua") (lit "--") 38.
Definition archive_file : bytes :=
  locals ++ central ++ PK 5 6 ++ le_bytes 2 0 ++ le_bytes 2 0 ++ le_bytes 2 2 ++ le_bytes 2 2 ++
  le_bytes 4 (len central) ++ le_bytes 4 (len locals) ++ le_bytes 2 0.

Definition entry_of (name : string) (header : Z) : ZipEntry :=
  mkZipEntry false Stored false false None None 2 2 (lit name) header (Some (header + 30 + len (lit name)))
    (len locals) 7.

(** An archive reader that knows this archive. *)
#[local] Instance one_archive : ZipLib :=
  {| zip_open _ := Some (mkZipArchive [Some (entry_of "a.json" 0); Some (entry_of "b.lua" 38)] (Some 4)) |}.

Definition small_plans : list EntryPlan :=
  [mkEntryPlan 0 (PathExamples.entry "a.json" false) EntryMetadata 2;
   mkEntryPlan 1 (PathExamples.entry "b.lua" false) (EntryExecutable Lua) 2].

Lemma small_archive_passes :
  preflight_zip ImportLimits_default (fun _ => false) archive_file (len archive_file) 0%nat = (2%nat, Ok small_plans).
Proof. vm_compute. reflexivity. Qed.

Lemma default_zip_typed : zip_limits_typed ImportLimits_default.
Proof. split; vm_compute; discriminate. Qed.

Lemma preflighted_archive_is_sound_witness :
  ~ clashes (PathExamples.entry "a.json" false) (PathExamples.entry "b.lua" false).
Proof.
  destruct (preflighted_archive_is_sound _ _ _ _ _ _ default_zip_typed small_archive_passes) as (_ & Hc & _).
  intros Hcl. destruct (Hc 0%nat 1%nat _ _ eq_refl eq_refl ltac:(discriminate)) as [_ Hd].
  destruct (Hd Hcl) as [Hdir _]. discriminate Hdir.
Defined.

Lemma archive_expansion_is_bounded_witness : planned_bytes small_plans <= 200 * len archive_file.
Proof.
  destruct (archive_expansion_is_bounded _ _ _ _ _ _ default_zip_typed small_archive_passes) as (_ & _ & _ & Hb).
  exact Hb.
Defined.

(** Two entries that share their data are refused. *)
Example overlapping_entries_are_refused :
  overlapping (sort_by range_cmp [(38, 75); (0, 76)]) = true.
Proof. reflexivity. Qed.

(** A directory below a file, listed after it. *)
Definition clashing_locals : bytes := local_header (lit "a.json") (lit "{}") ++ local_header (lit "a.json/b/") [].
Definition clashing_central : bytes := central_header (lit "a.json") (lit "{}") 0 ++ central_header (lit "a.json/b/") [] 38.
Definition clashing_file : bytes :=
  clashing_locals ++ clashing_central ++ PK 5 6 ++ le_bytes 2 0 ++ le_bytes 2 0 ++ le_bytes 2 2 ++ le_bytes 2 2 ++
  le_bytes 4 (len clashing_central) ++ le_bytes 4 (len clashing_locals) ++ le_bytes 2 0.

Definition clashing_entry (name : string) (directory : bool) (size header : Z) : ZipEntry :=
  mkZipEntry false Stored directory false None None size size (lit name) header (Some (header + 30 + len (lit name)))
    (len clashing_locals) 7.

Definition clashing_archive : ZipLib :=
  {| zip_open _ := Some (mkZipArchive [Some (clashing_entry "a.json" false 2 0); Some (clashing_entry "a.json/b/" true 0 38)] (Some 2)) |}.

(** The preflight accepts it, although the file and the directory clash. *)
Theorem clashing_directory_is_accepted :
  map plan_path (match (preflight_zip (H0 := clashing_archive) ImportLimits_default (fun _ => false) clashing_file (len clashing_file) 0%nat).2 with
                 | Ok plans => plans
                 | Err _ => []
                 end) = [PathExamples.entry "a.json" false; PathExamples.entry "a.json/b/" true] /\
  clashes (PathExamples.entry "a.json" false) (PathExamples.entry "a.json/b/" true).
Proof.
  split; [vm_compute; reflexivity|]. split; [reflexivity|]. right. vm_compute. left.
Qed.
End ZipExample.
