(* ===== verification/AssetCatalog.v ===== *)
(** * Assets: the catalog

    Models the SQLite catalog of [crates/lorepia-assets/src/catalog.rs]: its tables as
    finite maps keyed by their primary keys, and the statements of [store.rs] that change
    a table, with the triggers of the schema that keep the quota ledger [asset_totals].

    A transaction is a function from catalogs to catalogs; what fails in it changes
    nothing.  [ledger_exact] says that the ledger is what [verify_derived_totals]
    computes, [refs_resolve] is the foreign key of the references, and [rows_ok] holds the
    [CHECK] and [UNIQUE] constraints of the tables; every statement preserves them, given
    that the row it writes is one the schema accepts. *)

From stdpp Require Import gmap.
From S2P Require Import Prelude Bytes Utf8 Sorting AssetModel.

(** ** Tables *)

Record ObjectRow : Type := mkObjectRow {
  row_size : Z;
  row_mime : AssetMime;
  row_path : str;
  row_state : AssetState;
  row_quarantine_name : option str;
  row_verified : Z;
  row_created : Z;
}.

Inductive QuarantineOperation : Type := Move | Purge.
Inductive QuarantinePhase : Type := Prepared | Moved.

#[export] Instance QuarantineOperation_eq_dec : EqDecision QuarantineOperation.
Proof. solve_decision. Defined.
#[export] Instance QuarantinePhase_eq_dec : EqDecision QuarantinePhase.
Proof. solve_decision. Defined.

Record QuarantineIntent : Type := mkIntent {
  intent_name : str;
  intent_operation : QuarantineOperation;
  intent_phase : QuarantinePhase;
  source_relative_path : option str;
  intent_hash : option str;
  intent_reason : string;
  intent_created : Z;
}.

Record QuarantineRow : Type := mkQuarantineRow {
  original_hash : option str;
  quarantine_reason : string;
  quarantine_created : Z;
}.

(** A lease: when it was created and last renewed. *)
Record Lease : Type := mkLease { lease_created : Z; lease_updated : Z }.

Record Catalog : Type := mkCatalog {
  asset_objects : gmap str ObjectRow;
  asset_refs : gmap (AssetOwner * str) Z;
  asset_staging : gmap str Z;
  asset_quarantine : gmap str QuarantineRow;
  asset_totals : AssetStats;
  asset_quarantine_intents : gmap str QuarantineIntent;
  asset_backup_sessions : gmap str Lease;
  asset_temporary_owner_sessions : gmap AssetOwner Lease;
}.

Definition no_totals : AssetStats := mkAssetStats 0 0 0 0 0 0.

(** [create_schema]: empty tables and a ledger of zeros. *)
Definition empty_catalog : Catalog := mkCatalog ∅ ∅ ∅ ∅ no_totals ∅ ∅ ∅.

(** ** The ledger *)

Definition active_size (row : ObjectRow) : Z := match row_state row with Active => row_size row | _ => 0 end.
Definition missing_one (row : ObjectRow) : Z := match row_state row with Missing => 1 | _ => 0 end.

Definition totals_add (a b : AssetStats) : AssetStats :=
  mkAssetStats (object_count a + object_count b) (active_bytes a + active_bytes b)
    (reference_count a + reference_count b) (missing_count a + missing_count b)
    (quarantined_count a + quarantined_count b) (staging_count a + staging_count b).

Definition totals_sub (a b : AssetStats) : AssetStats :=
  mkAssetStats (object_count a - object_count b) (active_bytes a - active_bytes b)
    (reference_count a - reference_count b) (missing_count a - missing_count b)
    (quarantined_count a - quarantined_count b) (staging_count a - staging_count b).

(** What one row contributes, by the [asset_*_totals_*] triggers. *)
Definition object_totals (row : ObjectRow) : AssetStats := mkAssetStats 1 (active_size row) 0 (missing_one row) 0 0.
Definition ref_totals : AssetStats := mkAssetStats 0 0 1 0 0 0.
Definition quarantine_totals : AssetStats := mkAssetStats 0 0 0 0 1 0.
Definition staging_totals : AssetStats := mkAssetStats 0 0 0 0 0 1.

Definition sum_objects (f : ObjectRow -> Z) (objects : gmap str ObjectRow) : Z :=
  map_fold (fun _ row total => f row + total) 0 objects.

(** The query of [verify_derived_totals]. *)
Definition computed_totals (c : Catalog) : AssetStats :=
  mkAssetStats (Z.of_nat (size (asset_objects c))) (sum_objects active_size (asset_objects c))
    (Z.of_nat (size (asset_refs c))) (sum_objects missing_one (asset_objects c))
    (Z.of_nat (size (asset_quarantine c))) (Z.of_nat (size (asset_staging c))).

#[export] Instance AssetStats_eq_dec : EqDecision AssetStats.
Proof. solve_decision. Defined.

Definition verify_derived_totals (c : Catalog) : AssetResult AssetStats :=
  if bool_decide (asset_totals c = computed_totals c) then Ok (asset_totals c)
  else Err (IncompatibleCatalog "quota ledger does not match catalog contents").

(** ** Statements *)

(** [UPDATE .. SET quarantine_name, state, ..] and the upsert of [ingest]. *)
Definition put_object (h : str) (row : ObjectRow) (c : Catalog) : Catalog :=
  let totals :=
    match asset_objects c !! h with
    | None => totals_add (asset_totals c) (object_totals row)
    | Some old => totals_add (totals_sub (asset_totals c) (object_totals old)) (object_totals row)
    end in
  mkCatalog (<[h := row]> (asset_objects c)) (asset_refs c) (asset_staging c) (asset_quarantine c) totals
    (asset_quarantine_intents c) (asset_backup_sessions c) (asset_temporary_owner_sessions c).

(** [UPDATE asset_objects .. WHERE hash = ?]. *)
Definition update_object (h : str) (f : ObjectRow -> ObjectRow) (c : Catalog) : Catalog :=
  match asset_objects c !! h with
  | Some row => put_object h (f row) c
  | None => c
  end.

Definition set_refs (refs : gmap (AssetOwner * str) Z) (totals : AssetStats) (c : Catalog) : Catalog :=
  mkCatalog (asset_objects c) refs (asset_staging c) (asset_quarantine c) totals
    (asset_quarantine_intents c) (asset_backup_sessions c) (asset_temporary_owner_sessions c).

(** [INSERT OR IGNORE INTO asset_refs]; the foreign key of a missing object is an error. *)
Definition insert_ref (owner : AssetOwner) (h : str) (now : Z) (c : Catalog) : AssetResult Catalog :=
  match asset_refs c !! (owner, h) with
  | Some _ => Ok c
  | None =>
      match asset_objects c !! h with
      | None => Err AssetDatabase
      | Some _ => Ok (set_refs (<[(owner, h) := now]> (asset_refs c)) (totals_add (asset_totals c) ref_totals) c)
      end
  end.

(** [DELETE FROM asset_refs WHERE owner_type = ? AND owner_id = ? AND hash = ?], and how
    many rows went. *)
Definition delete_ref (owner : AssetOwner) (h : str) (c : Catalog) : Catalog * Z :=
  match asset_refs c !! (owner, h) with
  | None => (c, 0)
  | Some _ => (set_refs (delete (owner, h) (asset_refs c)) (totals_sub (asset_totals c) ref_totals) c, 1)
  end.

Definition str_le_list (l : list str) : list str := sort_by str_cmp l.

(** The hashes an owner refers to, in the order of [ORDER BY hash]. *)
Definition owner_hashes (c : Catalog) (owner : AssetOwner) : list str :=
  str_le_list (map snd (List.filter (fun k => bool_decide (k.1 = owner)) (map fst (map_to_list (asset_refs c))))).

(** [DELETE FROM asset_refs WHERE owner_type = ? AND owner_id = ?]. *)
Fixpoint delete_refs (owner : AssetOwner) (hashes : list str) (c : Catalog) : Catalog * Z :=
  match hashes with
  | [] => (c, 0)
  | h :: hashes' =>
      let '(c, n) := delete_ref owner h c in
      let '(c, m) := delete_refs owner hashes' c in (c, n + m)
  end.

Definition delete_owner_refs (owner : AssetOwner) (c : Catalog) : Catalog * Z :=
  delete_refs owner (owner_hashes c owner) c.

(** Whether some reference satisfies a condition. *)
Definition exists_ref (p : AssetOwner -> str -> bool) (c : Catalog) : bool :=
  existsb (fun k => p k.1 k.2) (map fst (map_to_list (asset_refs c))).

Definition has_reference (h : str) (c : Catalog) : bool := exists_ref (fun _ h' => str_eqb h' h) c.

(** [DELETE FROM asset_objects WHERE hash = ? AND NOT EXISTS(.. asset_refs ..)]. *)
Definition delete_orphan (h : str) (c : Catalog) : Catalog * Z :=
  match asset_objects c !! h with
  | Some row =>
      if has_reference h c then (c, 0)
      else (mkCatalog (delete h (asset_objects c)) (asset_refs c) (asset_staging c) (asset_quarantine c)
              (totals_sub (asset_totals c) (object_totals row))
              (asset_quarantine_intents c) (asset_backup_sessions c) (asset_temporary_owner_sessions c), 1)
  | None => (c, 0)
  end.

Definition set_staging (staging : gmap str Z) (totals : AssetStats) (c : Catalog) : Catalog :=
  mkCatalog (asset_objects c) (asset_refs c) staging (asset_quarantine c) totals
    (asset_quarantine_intents c) (asset_backup_sessions c) (asset_temporary_owner_sessions c).

(** [INSERT OR IGNORE INTO asset_staging], and whether a row was inserted. *)
Definition insert_staging (name : str) (now : Z) (c : Catalog) : Catalog * bool :=
  match asset_staging c !! name with
  | Some _ => (c, false)
  | None => (set_staging (<[name := now]> (asset_staging c)) (totals_add (asset_totals c) staging_totals) c, true)
  end.

Definition delete_staging (name : str) (c : Catalog) : Catalog :=
  match asset_staging c !! name with
  | None => c
  | Some _ => set_staging (delete name (asset_staging c)) (totals_sub (asset_totals c) staging_totals) c
  end.

Definition set_quarantine (q : gmap str QuarantineRow) (totals : AssetStats) (c : Catalog) : Catalog :=
  mkCatalog (asset_objects c) (asset_refs c) (asset_staging c) q totals
    (asset_quarantine_intents c) (asset_backup_sessions c) (asset_temporary_owner_sessions c).

(** [INSERT INTO asset_quarantine .. ON CONFLICT(name) DO UPDATE]: an update fires no
    trigger. *)
Definition put_quarantine (name : str) (row : QuarantineRow) (c : Catalog) : Catalog :=
  set_quarantine (<[name := row]> (asset_quarantine c))
    (match asset_quarantine c !! name with
     | Some _ => asset_totals c
     | None => totals_add (asset_totals c) quarantine_totals
     end) c.

Definition delete_quarantine (name : str) (c : Catalog) : Catalog :=
  match asset_quarantine c !! name with
  | None => c
  | Some _ => set_quarantine (delete name (asset_quarantine c)) (totals_sub (asset_totals c) quarantine_totals) c
  end.

Definition set_intents (intents : gmap str QuarantineIntent) (c : Catalog) : Catalog :=
  mkCatalog (asset_objects c) (asset_refs c) (asset_staging c) (asset_quarantine c) (asset_totals c)
    intents (asset_backup_sessions c) (asset_temporary_owner_sessions c).

Definition set_backup_sessions (sessions : gmap str Lease) (c : Catalog) : Catalog :=
  mkCatalog (asset_objects c) (asset_refs c) (asset_staging c) (asset_quarantine c) (asset_totals c)
    (asset_quarantine_intents c) sessions (asset_temporary_owner_sessions c).

Definition set_temporary_sessions (sessions : gmap AssetOwner Lease) (c : Catalog) : Catalog :=
  mkCatalog (asset_objects c) (asset_refs c) (asset_staging c) (asset_quarantine c) (asset_totals c)
    (asset_quarantine_intents c) (asset_backup_sessions c) sessions.

(** ** The ledger is exact *)

Definition ledger_exact (c : Catalog) : Prop := asset_totals c = computed_totals c.

(** The foreign key of [asset_refs]. *)
Definition refs_resolve (c : Catalog) : Prop :=
  forall owner h now, asset_refs c !! (owner, h) = Some now -> is_Some (asset_objects c !! h).

(** ** The constraints of the schema

    The [CHECK]s of [create_schema_v1] and of the migrations, table by table.  A length is
    in bytes; the texts are ASCII, apart from a [reason], which has no more characters than
    bytes. *)

(** [length(..) = n AND .. NOT GLOB '*[^0-9a-f]*']. *)
Definition hex_text (n : Z) (s : str) : Prop := len s = n /\ forallb is_lower_hex s = true.

(** A row of [asset_objects] under its primary key. *)
Record object_check (h : str) (row : ObjectRow) : Prop := {
  oc_hash : hex_text 64 h;
  oc_size : 0 <= row_size row;
  oc_quarantined : row_state row = Quarantined <-> is_Some (row_quarantine_name row);
  oc_verified : 0 <= row_verified row;
  oc_created : 0 <= row_created row;
}.

(** [GLOB '[a-z0-9.-]']. *)
Definition glob_name_byte (b : byte) : bool := is_ascii_lowercase b || is_ascii_digit b || one_of "-." b.
Definition name_text (s : str) : Prop := 1 <= len s <= 160 /\ forallb glob_name_byte s = true.
Definition original_check (h : option str) : Prop := from_option (hex_text 64) True h.
Definition reason_check (reason : string) : Prop := 1 <= len (lit reason) <= 256.

(** A row of [asset_quarantine_intents]. *)
Record intent_check (name : str) (i : QuarantineIntent) : Prop := {
  ic_key : intent_name i = name;
  ic_name : name_text (intent_name i);
  ic_source : match intent_operation i, source_relative_path i with
              | Move, Some path => 1 <= len path <= 256
              | Purge, None => True
              | _, _ => False
              end;
  ic_hash : original_check (intent_hash i);
  ic_reason : reason_check (intent_reason i);
  ic_created : 0 <= intent_created i;
}.

(** A row of [asset_quarantine].  The schema only checks when it was created; the hash and
    the reason come from an intent, and a purge copies them to one. *)
Record quarantine_check (row : QuarantineRow) : Prop := {
  qc_hash : original_check (original_hash row);
  qc_reason : reason_check (quarantine_reason row);
  qc_created : 0 <= quarantine_created row;
}.

Definition lease_check (l : Lease) : Prop := 0 <= lease_created l <= lease_updated l.

(** No other object has the path. *)
Definition path_free (h path : str) (objects : gmap str ObjectRow) : Prop :=
  forall h' row, objects !! h' = Some row -> row_path row = path -> h' = h.

Record rows_ok (c : Catalog) : Prop := {
  rows_objects : map_Forall object_check (asset_objects c);
  rows_paths : map_Forall (fun h row => path_free h (row_path row) (asset_objects c)) (asset_objects c);
  rows_refs : map_Forall (fun _ created => 0 <= created) (asset_refs c);
  rows_staging : map_Forall (fun _ created => 0 <= created) (asset_staging c);
  rows_quarantine : map_Forall (fun _ => quarantine_check) (asset_quarantine c);
  rows_intents : map_Forall intent_check (asset_quarantine_intents c);
  rows_backups : map_Forall (fun id lease => hex_text 32 id /\ lease_check lease) (asset_backup_sessions c);
  rows_temporaries : map_Forall (fun _ => lease_check) (asset_temporary_owner_sessions c);
}.

(** The row of [asset_totals]. *)
Definition totals_check (t : AssetStats) : Prop :=
  0 <= object_count t /\ 0 <= active_bytes t /\ 0 <= reference_count t /\ 0 <= missing_count t /\
  0 <= quarantined_count t /\ 0 <= staging_count t.

(** What every statement and operation preserves. *)
Record catalog_ok (c : Catalog) : Prop := {
  ok_ledger : ledger_exact c;
  ok_refs : refs_resolve c;
  ok_rows : rows_ok c;
}.

Lemma sum_objects_insert f h row objects :
  objects !! h = None -> sum_objects f (<[h := row]> objects) = f row + sum_objects f objects.
Proof. intros Hh. unfold sum_objects. rewrite map_fold_insert_L; [done| |done]. intros; lia. Qed.

Lemma sum_objects_lookup f h row objects :
  objects !! h = Some row -> sum_objects f objects = f row + sum_objects f (delete h objects).
Proof.
  intros Hh. rewrite <- (insert_delete_id objects h row) at 1 by done.
  by apply sum_objects_insert, lookup_delete_eq.
Qed.

Lemma sum_objects_put f h old row objects :
  objects !! h = Some old -> sum_objects f (<[h := row]> objects) = sum_objects f objects - f old + f row.
Proof.
  intros Hh. rewrite (sum_objects_lookup f h old objects Hh), <- insert_delete_eq.
  rewrite sum_objects_insert by apply lookup_delete_eq. lia.
Qed.

Lemma size_delete_Z {K} `{Countable K} {V} (m : gmap K V) k v :
  m !! k = Some v -> Z.of_nat (size (delete k m)) = Z.of_nat (size m) - 1.
Proof.
  intros Hk. rewrite <- (insert_delete_id m k v Hk) at 2.
  rewrite map_size_insert_None by apply lookup_delete_eq. lia.
Qed.

(** ** Statements keep the catalog well formed *)

Lemma map_Forall_alter {K} `{Countable K} {V} (P : K -> V -> Prop) (f : V -> V) (m : gmap K V) k :
  (forall v, P k v -> P k (f v)) -> map_Forall P m -> map_Forall P (alter f k m).
Proof.
  intros Hf Hm k' v Hv. apply lookup_alter_Some in Hv as [(<- & v' & Hv & ->)|(_ & Hv)]; [apply Hf|]; by apply Hm.
Qed.

Lemma paths_insert (h : str) (row : ObjectRow) (objects : gmap str ObjectRow) :
  path_free h (row_path row) objects -> map_Forall (fun h row => path_free h (row_path row) objects) objects ->
  map_Forall (fun h' row' => path_free h' (row_path row') (<[h := row]> objects)) (<[h := row]> objects).
Proof.
  intros Hfree Hall h1 row1 H1 h2 row2 H2 Hpath.
  apply lookup_insert_Some in H1 as [[<- <-]|[Hne1 H1]]; apply lookup_insert_Some in H2 as [[<- <-]|[Hne2 H2]].
  - done.
  - by apply (Hfree h2 row2).
  - symmetry. by apply (Hfree h1 row1).
  - by apply (Hall h1 row1 H1 h2 row2).
Qed.

Lemma paths_delete (h : str) (objects : gmap str ObjectRow) :
  map_Forall (fun h row => path_free h (row_path row) objects) objects ->
  map_Forall (fun h' row' => path_free h' (row_path row') (delete h objects)) (delete h objects).
Proof.
  intros Hall h1 row1 [_ H1]%lookup_delete_Some h2 row2 [_ H2]%lookup_delete_Some. by apply (Hall h1 row1 H1 h2 row2).
Qed.

(** The tables a statement leaves alone, and those where it adds or deletes one row. *)
Ltac keep_rows :=
  match goal with Hr : rows_ok ?c |- rows_ok _ => destruct Hr end;
  split; cbn; try first [assumption | by apply map_Forall_delete | by apply map_Forall_insert_2].

Lemma put_object_ok h row c :
  catalog_ok c -> object_check h row -> path_free h (row_path row) (asset_objects c) -> catalog_ok (put_object h row c).
Proof.
  intros [Hl Hr Hw] Hrow Hfree. split.
  - unfold ledger_exact, computed_totals, put_object in *. cbn. destruct (asset_objects c !! h) as [old|] eqn:Hh.
    + rewrite Hl. unfold totals_add, totals_sub, object_totals. cbn.
      rewrite !(sum_objects_put _ h old row) by done. rewrite map_size_insert_Some by (by eexists). f_equal; lia.
    + rewrite Hl. unfold totals_add, object_totals. cbn. rewrite !sum_objects_insert by done.
      rewrite map_size_insert_None by done. f_equal; lia.
  - intros owner h' now Hn. cbn in *. destruct (decide (h = h')) as [->|Hne].
    + rewrite lookup_insert_eq. by eexists.
    + rewrite lookup_insert_ne by done. by eapply Hr.
  - keep_rows. by apply paths_insert.
Qed.

Lemma update_object_ok h f c :
  (forall row, object_check h row -> object_check h (f row)) -> (forall row, row_path (f row) = row_path row) ->
  catalog_ok c -> catalog_ok (update_object h f c).
Proof.
  intros Hf Hp Hc. unfold update_object. destruct (asset_objects c !! h) as [row|] eqn:Hrow; [|done].
  apply put_object_ok; [done| |]; [by apply Hf, (rows_objects c (ok_rows c Hc))|].
  rewrite Hp. by apply (rows_paths c (ok_rows c Hc)).
Qed.

Lemma insert_ref_ok owner h now c c' :
  0 <= now -> catalog_ok c -> insert_ref owner h now c = Ok c' -> catalog_ok c'.
Proof.
  intros Hnow [Hl Hr Hw]. unfold insert_ref. destruct (asset_refs c !! (owner, h)) eqn:Hk; [by intros [= <-]|].
  destruct (asset_objects c !! h) eqn:Hh; [|done]. intros [= <-]. split.
  - unfold ledger_exact, computed_totals, totals_add in *. cbn. rewrite Hl. cbn. rewrite map_size_insert_None by done. f_equal; lia.
  - intros ow h' n. cbn. destruct (decide ((owner, h) = (ow, h'))) as [[= <- <-]|Hne].
    + intros _. rewrite Hh. by eexists.
    + rewrite lookup_insert_ne by done. apply Hr.
  - keep_rows.
Qed.

Lemma delete_ref_ok owner h c : catalog_ok c -> catalog_ok (delete_ref owner h c).1.
Proof.
  intros [Hl Hr Hw]. unfold delete_ref. destruct (asset_refs c !! (owner, h)) eqn:Hk; [|done]. cbn [fst]. split.
  - unfold ledger_exact, computed_totals, totals_sub in *. cbn. rewrite Hl. cbn. rewrite (size_delete_Z _ _ _ Hk). f_equal; lia.
  - intros ow h' n. cbn. intros Hn. apply lookup_delete_Some in Hn as [_ Hn]. by eapply Hr.
  - keep_rows.
Qed.

Lemma delete_refs_ok owner hashes c : catalog_ok c -> catalog_ok (delete_refs owner hashes c).1.
Proof.
  revert c. induction hashes as [|h hashes IH]; intros c Hc; cbn [delete_refs]; [done|].
  pose proof (delete_ref_ok owner h c Hc) as H1. destruct (delete_ref owner h c) as [c1 n]. cbn [fst] in H1.
  specialize (IH c1 H1). by destruct (delete_refs owner hashes c1).
Qed.

Lemma has_reference_false h c : has_reference h c = false -> forall owner, asset_refs c !! (owner, h) = None.
Proof.
  intros Hf owner. destruct (asset_refs c !! (owner, h)) as [now|] eqn:Hn; [|done]. exfalso.
  apply not_true_iff_false in Hf. apply Hf. apply existsb_exists. exists (owner, h). split.
  - apply in_map_iff. exists ((owner, h), now). split; [done|]. apply list_elem_of_In. by apply elem_of_map_to_list.
  - apply str_eqb_refl.
Qed.

Lemma delete_orphan_ok h c : catalog_ok c -> catalog_ok (delete_orphan h c).1.
Proof.
  intros [Hl Hr Hw]. unfold delete_orphan. destruct (asset_objects c !! h) as [row|] eqn:Hh; [|done].
  destruct (has_reference h c) eqn:Hf; [done|]. cbn [fst]. split.
  - unfold ledger_exact, computed_totals, totals_sub, object_totals in *. cbn. rewrite Hl. cbn.
    rewrite !(sum_objects_lookup _ h row (asset_objects c)) by done. rewrite (size_delete_Z _ _ _ Hh). f_equal; lia.
  - intros ow h' n Hn. cbn in *. destruct (decide (h = h')) as [->|Hne].
    + by rewrite (has_reference_false h' c Hf ow) in Hn.
    + rewrite lookup_delete_ne by done. by eapply Hr.
  - keep_rows. by apply paths_delete.
Qed.

Lemma insert_staging_ok name now c : 0 <= now -> catalog_ok c -> catalog_ok (insert_staging name now c).1.
Proof.
  intros Hnow [Hl Hr Hw]. unfold insert_staging. destruct (asset_staging c !! name) eqn:Hn; [done|]. cbn [fst].
  split; [|done|keep_rows].
  unfold ledger_exact, computed_totals, totals_add in *. cbn. rewrite Hl. cbn. rewrite map_size_insert_None by done. f_equal; lia.
Qed.

Lemma delete_staging_ok name c : catalog_ok c -> catalog_ok (delete_staging name c).
Proof.
  intros [Hl Hr Hw]. unfold delete_staging. destruct (asset_staging c !! name) eqn:Hn; [|done]. split; [|done|keep_rows].
  unfold ledger_exact, computed_totals, totals_sub in *. cbn. rewrite Hl. cbn. rewrite (size_delete_Z _ _ _ Hn). f_equal; lia.
Qed.

Lemma put_quarantine_ok name row c : quarantine_check row -> catalog_ok c -> catalog_ok (put_quarantine name row c).
Proof.
  intros Hrow [Hl Hr Hw]. unfold put_quarantine. split; [|done|keep_rows]. unfold ledger_exact, computed_totals in *. cbn.
  destruct (asset_quarantine c !! name) eqn:Hn.
  - rewrite Hl. rewrite map_size_insert_Some by (by eexists). done.
  - rewrite Hl. unfold totals_add. cbn. rewrite map_size_insert_None by done. f_equal; lia.
Qed.

Lemma delete_quarantine_ok name c : catalog_ok c -> catalog_ok (delete_quarantine name c).
Proof.
  intros [Hl Hr Hw]. unfold delete_quarantine. destruct (asset_quarantine c !! name) eqn:Hn; [|done]. split; [|done|keep_rows].
  unfold ledger_exact, computed_totals, totals_sub in *. cbn. rewrite Hl. cbn. rewrite (size_delete_Z _ _ _ Hn). f_equal; lia.
Qed.

Lemma set_intents_ok i c : map_Forall intent_check i -> catalog_ok c -> catalog_ok (set_intents i c).
Proof. intros Hi [Hl Hr Hw]. split; [done|done|keep_rows]. Qed.

Lemma set_backup_sessions_ok s c :
  map_Forall (fun id lease => hex_text 32 id /\ lease_check lease) s -> catalog_ok c -> catalog_ok (set_backup_sessions s c).
Proof. intros Hs [Hl Hr Hw]. split; [done|done|keep_rows]. Qed.

Lemma set_temporary_sessions_ok s c :
  map_Forall (fun _ => lease_check) s -> catalog_ok c -> catalog_ok (set_temporary_sessions s c).
Proof. intros Hs [Hl Hr Hw]. split; [done|done|keep_rows]. Qed.

(** The ledger of a well-formed catalog passes its own constraints. *)
Lemma totals_of_ok c : catalog_ok c -> totals_check (asset_totals c).
Proof.
  intros [Hl _ Hw]. rewrite Hl. unfold totals_check, computed_totals. cbn.
  assert (Hsum : forall f, (forall h row, asset_objects c !! h = Some row -> 0 <= f row) -> 0 <= sum_objects f (asset_objects c)).
  { intros f. unfold sum_objects. generalize (asset_objects c). intros m.
    induction m as [|h row m Hh IH] using map_ind; intros Hf; [by rewrite map_fold_empty|].
    rewrite map_fold_insert_L; [|intros; lia|done]. specialize (Hf h row) as H0. rewrite lookup_insert_eq in H0. specialize (H0 eq_refl).
    assert (0 <= map_fold (fun _ row total => f row + total) 0 m); [|lia].
    apply IH. intros h' row' Hrow'. apply (Hf h'). rewrite lookup_insert_ne by congruence. done. }
  split_and!; try lia; apply Hsum; intros h row Hrow; apply (rows_objects c Hw) in Hrow as [_ Hsize _ _ _].
  - unfold active_size. destruct (row_state row); lia.
  - unfold missing_one. destruct (row_state row); lia.
Qed.
