(* ===== verification/Faults.v ===== *)
(** * Computations with faults

    The code that keeps files and a database in step can fail, or the process can stop,
    between any two of its effects.  A computation here runs on a durable state [D] and a
    counter of the effects so far; an oracle says for each effect whether it fails and
    with which error.  A process that stops is an oracle that fails from some point on:
    the clean-up code that still runs then changes nothing.

    [wp X I m Q d] is the weakest precondition of [m] with three postconditions: [Q] when
    it returns, [I] when it fails, and [X] when a loop exhausts its bound ([Err None]),
    whatever the counter is at the start.  With [I] on both sides it says that [I] holds
    at every point where the process may stop; with [X] false, that the loops terminate. *)

From S2P Require Import Prelude.

Record World (D : Type) : Type := mkWorld { tick : nat; disk : D }.
Arguments mkWorld {D} tick disk.
Arguments tick {D} w.
Arguments disk {D} w.

Abbreviation Faulty D E := (ST (World D) (option E)).

Section operations.
Context {D E : Type}.

(** One answer of an oracle. *)
Definition ask {A} (oracle : nat -> A) : Faulty D E A :=
  fun w => (mkWorld (S (tick w)) (disk w), Ok (oracle (tick w))).

Definition fail {A} (e : E) : Faulty D E A := st_lift (Err (Some e)).
Definition exhausted {A} : Faulty D E A := st_lift (Err None).
Definition lift {A} (r : result E A) : Faulty D E A := st_lift (map_err Some r).

Definition gets {A} (f : D -> A) : Faulty D E A := fun w => (w, Ok (f (disk w))).
Definition modify (f : D -> D) : Faulty D E unit := fun w => (mkWorld (tick w) (f (disk w)), Ok tt).

(** A [Result] that the caller inspects instead of passing it on with [?]. *)
Definition attempt {A} (m : Faulty D E A) : Faulty D E (result E A) := fun w =>
  match m w with
  | (w', Ok a) => (w', Ok (Ok a))
  | (w', Err (Some e)) => (w', Ok (Err e))
  | (w', Err None) => (w', Err None)
  end.

(** [for x in l { acc = f(acc, x)? }]. *)
Fixpoint forM_faulty {A B} (f : B -> A -> Faulty D E B) (acc : B) (l : list A) : Faulty D E B :=
  match l with
  | [] => mret acc
  | x :: l' => acc ← f acc x; forM_faulty f acc l'
  end.

Definition when_ (b : bool) (m : Faulty D E unit) : Faulty D E unit := if b then m else mret tt.
End operations.

(** ** Weakest preconditions *)

Definition wp {D E A} (X I : D -> Prop) (m : Faulty D E A) (Q : A -> D -> Prop) (d : D) : Prop :=
  forall t,
    match m (mkWorld t d) with
    | (w, Ok a) => Q a (disk w)
    | (w, Err (Some _)) => I (disk w)
    | (w, Err None) => X (disk w)
    end.

(** [m] keeps [I], wherever it stops. *)
Definition keeps {D E A} (I : D -> Prop) (m : Faulty D E A) : Prop := forall d, I d -> wp I I m (fun _ => I) d.

(** [m] never exhausts the bound of a loop. *)
Definition terminates {D E A} (m : Faulty D E A) : Prop := forall d, wp (fun _ => False) (fun _ => True) m (fun _ _ => True) d.

Section rules.
Context {D E : Type}.
Implicit Types (X I : D -> Prop) (d : D).

Lemma wp_ret {A} X I (a : A) (Q : A -> D -> Prop) d : Q a d -> wp (E := E) X I (mret a) Q d.
Proof. intros HQ t. exact HQ. Qed.

Lemma wp_fail {A} X I (e : E) (Q : A -> D -> Prop) d : I d -> wp X I (fail e) Q d.
Proof. intros HI t. exact HI. Qed.

Lemma wp_exhausted {A} X I (Q : A -> D -> Prop) d : X d -> wp (E := E) X I exhausted Q d.
Proof. intros HX t. exact HX. Qed.

Lemma wp_lift {A} X I (r : result E A) (Q : A -> D -> Prop) d :
  (forall a, r = Ok a -> Q a d) -> (forall e, r = Err e -> I d) -> wp X I (lift r) Q d.
Proof. intros HQ HI t. destruct r as [a|e]; [by apply HQ|by apply (HI e)]. Qed.

Lemma wp_bind {A B} X I (m : Faulty D E A) (k : A -> Faulty D E B) Q d :
  wp X I m (fun a d' => wp X I (k a) Q d') d -> wp X I (m ≫= k) Q d.
Proof.
  intros Hm t. specialize (Hm t). unfold mbind, ST_bind.
  destruct (m (mkWorld t d)) as [[t' d'] [a|[e|]]]; [apply Hm|done|done].
Qed.

Lemma wp_mono {A} (X Y I J : D -> Prop) (m : Faulty D E A) (P Q : A -> D -> Prop) d :
  (forall d', X d' -> Y d') -> (forall d', I d' -> J d') -> (forall a d', P a d' -> Q a d') -> wp X I m P d -> wp Y J m Q d.
Proof.
  intros HX HI HP Hm t. specialize (Hm t).
  destruct (m (mkWorld t d)) as [w [a|[e|]]]; [by apply HP|by apply HI|by apply HX].
Qed.

Lemma wp_post {A} X I (m : Faulty D E A) (P Q : A -> D -> Prop) d :
  wp X I m P d -> (forall a d', P a d' -> Q a d') -> wp X I m Q d.
Proof. intros Hm HP. by eapply wp_mono; [| | |exact Hm]. Qed.

Lemma wp_and {A} (X Y I J : D -> Prop) (m : Faulty D E A) (P Q : A -> D -> Prop) d :
  wp X I m P d -> wp Y J m Q d -> wp (fun d' => X d' /\ Y d') (fun d' => I d' /\ J d') m (fun a d' => P a d' /\ Q a d') d.
Proof.
  intros H1 H2 t. specialize (H1 t). specialize (H2 t). by destruct (m (mkWorld t d)) as [w [a|[e|]]].
Qed.

Lemma wp_ask {A} X I (oracle : nat -> A) (Q : A -> D -> Prop) d : (forall t, Q (oracle t) d) -> wp (E := E) X I (ask oracle) Q d.
Proof. intros HQ t. apply HQ. Qed.

Lemma wp_gets {A} X I (f : D -> A) (Q : A -> D -> Prop) d : Q (f d) d -> wp (E := E) X I (gets f) Q d.
Proof. intros HQ t. exact HQ. Qed.

Lemma wp_modify X I (f : D -> D) (Q : unit -> D -> Prop) d : Q tt (f d) -> wp (E := E) X I (modify f) Q d.
Proof. intros HQ t. exact HQ. Qed.

Lemma wp_attempt {A} X I (m : Faulty D E A) (Q : result E A -> D -> Prop) d :
  wp X (fun d' => forall e, Q (Err e) d') m (fun a d' => Q (Ok a) d') d -> wp X I (attempt m) Q d.
Proof.
  intros Hm t. specialize (Hm t). unfold attempt.
  destruct (m (mkWorld t d)) as [w [a|[e|]]]; [done|by apply Hm|done].
Qed.

Lemma wp_when X I (b : bool) (m : Faulty D E unit) (Q : unit -> D -> Prop) d :
  (b = true -> wp X I m Q d) -> (b = false -> Q tt d) -> wp X I (when_ b m) Q d.
Proof. intros Hm HQ. destruct b; [by apply Hm|apply wp_ret; by apply HQ]. Qed.

(** A loop preserves what its body preserves. *)
Lemma wp_forM {A B} X I (f : B -> A -> Faulty D E B) (P : B -> D -> Prop) acc l d :
  (forall acc x d', x ∈ l -> P acc d' -> wp X I (f acc x) P d') -> P acc d -> wp X I (forM_faulty f acc l) P d.
Proof.
  revert acc d. induction l as [|x l IH]; intros acc d Hf HP; cbn [forM_faulty]; [by apply wp_ret|].
  apply wp_bind. eapply wp_post; [apply Hf; [by left|done]|].
  intros acc' d' HP'. apply IH; [|done]. intros. apply Hf; [by right|done].
Qed.

(** What [wp] says of a run. *)
Lemma wp_run_Ok {A} X I (m : Faulty D E A) Q d t w a : wp X I m Q d -> m (mkWorld t d) = (w, Ok a) -> Q a (disk w).
Proof. intros Hm Hr. specialize (Hm t). by rewrite Hr in Hm. Qed.

Lemma wp_run_Err {A} X I (m : Faulty D E A) Q d t w e : wp X I m Q d -> m (mkWorld t d) = (w, Err (Some e)) -> I (disk w).
Proof. intros Hm Hr. specialize (Hm t). by rewrite Hr in Hm. Qed.

Lemma wp_run_total {A} I (m : Faulty D E A) Q d t : wp (fun _ => False) I m Q d -> (m (mkWorld t d)).2 <> Err None.
Proof. intros Hm. specialize (Hm t). by destruct (m (mkWorld t d)) as [w [a|[e|]]]. Qed.

(** Where [m] ends, when both postconditions imply [P]. *)
Lemma wp_run_end {A} I (m : Faulty D E A) Q (P : D -> Prop) d t :
  wp (fun _ => False) I m Q d -> (forall d', I d' -> P d') -> (forall a d', Q a d' -> P d') -> P (disk (m (mkWorld t d)).1).
Proof. intros Hm HI HQ. specialize (Hm t). destruct (m (mkWorld t d)) as [w [a|[e|]]]; cbn; [by eapply HQ|by apply HI|done]. Qed.

Lemma keeps_run {A} I (m : Faulty D E A) d t : keeps I m -> I d -> I (disk (m (mkWorld t d)).1).
Proof. intros Hk Hd. specialize (Hk d Hd t). by destruct (m (mkWorld t d)) as [w [a|[e|]]]. Qed.

Lemma keeps_bind {A B} I (m : Faulty D E A) (k : A -> Faulty D E B) :
  keeps I m -> (forall a, keeps I (k a)) -> keeps I (m ≫= k).
Proof. intros Hm Hk d Hd. apply wp_bind. eapply wp_post; [by apply Hm|]. intros a d' Hd'. by apply Hk. Qed.

Lemma keeps_forM {A B} I (f : B -> A -> Faulty D E B) acc l :
  (forall acc x, keeps I (f acc x)) -> keeps I (forM_faulty f acc l).
Proof. intros Hf d Hd. apply (wp_forM _ _ _ (fun _ => I)); [|done]. intros. by apply Hf. Qed.

Lemma terminates_bind {A B} (m : Faulty D E A) (k : A -> Faulty D E B) :
  terminates m -> (forall a, terminates (k a)) -> terminates (m ≫= k).
Proof. intros Hm Hk d. apply wp_bind. eapply wp_post; [by apply Hm|]. intros a d' _. by apply Hk. Qed.
End rules.

(** Take one step of a computation. *)
Ltac wp_step :=
  lazymatch goal with
  | |- wp _ _ (_ ≫= _) _ _ => apply wp_bind; wp_step
  | |- wp _ _ (mret _) _ _ => apply wp_ret
  | |- wp _ _ (fail _) _ _ => apply wp_fail
  | |- wp _ _ exhausted _ _ => apply wp_exhausted
  | |- wp _ _ (lift _) _ _ => apply wp_lift; [intros ? ?|intros ? ?]
  | |- wp _ _ (gets _) _ _ => apply wp_gets
  | |- wp _ _ (modify _) _ _ => apply wp_modify
  | |- wp _ _ (ask _) _ _ => apply wp_ask; intros ?
  | |- wp _ _ (attempt _) _ _ => apply wp_attempt
  | |- wp _ _ (when_ _ _) _ _ => apply wp_when; [intros ?|intros ?]
  | |- _ => idtac
  end.
