(* ===== verification/AssetFs.v ===== *)
(** * Assets: files and effects

    The durable state of the asset store of [crates/lorepia-assets]: the catalog and the
    files below its root, and the operations of [secure_fs.rs] on them (the Unix
    variants).  A directory entry names an inode, so that a hard link shares its contents.

    The system is a parameter: which effects fail, the clock in milliseconds from the Unix
    epoch, the identifiers drawn, when the caller cancels, how many bytes a read returns,
    and SHA-256.

    A write is durable at once: [sync] may fail but changes nothing.  This is what a process
    that stops leaves behind; a loss of power, after which a write that was not synced may
    be gone, is not modelled. *)

From stdpp Require Import gmap.
From S2P Require Import Prelude Sorting Bytes Utf8 ToolPolicy AssetModel AssetCatalog Faults.

Inductive Entry : Type :=
  | FileEntry (inode : Z)
  | UnsafeEntry.

Record Disk : Type := mkDisk {
  catalog : Catalog;
  contents : gmap Z bytes;
  next_inode : Z;
  entries : gmap (str * str) Entry;
  directories : gset str;
  snapshots : gmap str Catalog;
  user_version : Z;
}.

Class AssetSystem : Type := {
  sys_fault : nat -> option AssetError;
  sys_clock : nat -> Z;
  sys_uuid : nat -> str;
  sys_cancelled : nat -> bool;
  sys_read_size : nat -> nat;
  sys_sha256 : bytes -> bytes;
  sys_limits : AssetLimits;
}.

Abbreviation AssetM := (Faulty Disk AssetError).

(** ** Updates of the state *)

Definition set_catalog (c : Catalog) (d : Disk) : Disk :=
  mkDisk c (contents d) (next_inode d) (entries d) (directories d) (snapshots d) (user_version d).
Definition set_entries (e : gmap (str * str) Entry) (d : Disk) : Disk :=
  mkDisk (catalog d) (contents d) (next_inode d) e (directories d) (snapshots d) (user_version d).
Definition set_directories (dirs : gset str) (d : Disk) : Disk :=
  mkDisk (catalog d) (contents d) (next_inode d) (entries d) dirs (snapshots d) (user_version d).
Definition set_snapshots (s : gmap str Catalog) (d : Disk) : Disk :=
  mkDisk (catalog d) (contents d) (next_inode d) (entries d) (directories d) s (user_version d).

Definition append_contents (inode : Z) (chunk : bytes) (d : Disk) : Disk :=
  mkDisk (catalog d) (<[inode := default [] (contents d !! inode) ++ chunk]> (contents d)) (next_inode d)
    (entries d) (directories d) (snapshots d) (user_version d).

Definition create_entry (place : str * str) (d : Disk) : Disk :=
  mkDisk (catalog d) (<[next_inode d := []]> (contents d)) (next_inode d + 1)
    (<[place := FileEntry (next_inode d)]> (entries d)) (directories d) (snapshots d) (user_version d).

Definition set_version (version : Z) (d : Disk) : Disk :=
  mkDisk (catalog d) (contents d) (next_inode d) (entries d) (directories d) (snapshots d) version.

(** What an open file reads. *)
Definition file_data (d : Disk) (inode : Z) : bytes := default [] (contents d !! inode).

Definition entry_data (d : Disk) (place : str * str) : option bytes :=
  match entries d !! place with
  | Some (FileEntry inode) => Some (file_data d inode)
  | _ => None
  end.

Section system.
Context `{AssetSystem}.

(** One effect on the disk or the database. *)
Definition effect : AssetM unit :=
  fault ← ask sys_fault;
  match fault with Some e => fail e | None => mret tt end.

(** [now_ms]: the time since the epoch, in a signed 64-bit integer. *)
Definition decode_clock (now : Z) : AssetResult Z :=
  if now <? 0 then Err AssetIo
  else if now >? I64_MAX
  then Err (InvalidInput "system time" "milliseconds since epoch do not fit in signed 64-bit integer")
  else Ok now.

Definition now_ms : AssetM Z := now ← ask sys_clock; lift (decode_clock now).

Definition check_cancelled : AssetM unit :=
  stop ← ask sys_cancelled; if stop : bool then fail AssetCancelled else mret tt.

(** ** Database access

    [connection], a query, a statement outside a transaction, and the commit of one. *)

Definition connection : AssetM unit := effect.
Definition query {A} (f : Catalog -> A) : AssetM A := _ ← effect; gets (fun d => f (catalog d)).
Definition commit (c : Catalog) : AssetM unit := _ ← effect; modify (set_catalog c).

(** A statement, with how many rows it changed or whether it did. *)
Definition execute_count {A} (f : Catalog -> Catalog * A) : AssetM A :=
  _ ← effect;
  r ← gets (fun d => f (catalog d));
  _ ← modify (set_catalog r.1);
  mret r.2.

(** A statement that a constraint of the schema may reject. *)
Definition execute (f : Catalog -> AssetResult Catalog) : AssetM unit :=
  _ ← effect;
  c ← gets catalog;
  c ← lift (f c);
  modify (set_catalog c).

(** [mutation_guard]: the lock is taken by another caller, or poisoned. *)
Definition mutation_guard : AssetM unit := effect.

(** ** [SecureDirectory] *)

Definition one_component (name : str) : bool :=
  negb (is_empty name) && negb (existsb (byte_eqb SLASH) name)
  && negb (str_eqb name (lit ".")) && negb (str_eqb name (lit "..")).

Definition validate_component (name : str) : AssetResult unit :=
  if one_component name then Ok tt else Err UnsafeFilesystem.

Definition child (directory name : str) : str := directory ++ SLASH :: name.

(** [open_child]; [None] is [ErrorKind::NotFound]. *)
Definition open_child (directory name : str) : AssetM (option str) :=
  _ ← lift (validate_component name);
  _ ← effect;
  dirs ← gets directories;
  mret (if bool_decide (child directory name ∈ dirs) then Some (child directory name) else None).

Definition create_child (directory name : str) : AssetM unit :=
  _ ← lift (validate_component name);
  _ ← effect;
  modify (fun d => set_directories ({[child directory name]} ∪ directories d) d).

Definition open_or_create_child (directory name : str) : AssetM str :=
  opened ← open_child directory name;
  match opened with
  | Some child => mret child
  | None =>
      _ ← create_child directory name;
      opened ← open_child directory name;
      match opened with Some child => mret child | None => fail AssetIo end
  end.

(** [open_file]; [None] is [ErrorKind::NotFound]. *)
Definition open_file (directory name : str) : AssetM (option Z) :=
  _ ← lift (validate_component name);
  _ ← effect;
  es ← gets entries;
  match es !! (directory, name) with
  | None => mret None
  | Some (FileEntry inode) => mret (Some inode)
  | Some UnsafeEntry => fail UnsafeFilesystem
  end.

(** Where the code passes a missing file on as an error. *)
Definition open_existing (directory name : str) : AssetM Z :=
  opened ← open_file directory name;
  match opened with Some inode => mret inode | None => fail AssetIo end.

Definition file_exists (directory name : str) : AssetM bool :=
  opened ← open_file directory name; mret (is_some opened).

Definition same_file_as (directory name other other_name : str) : AssetM bool :=
  first ← open_existing directory name;
  second ← open_existing other other_name;
  _ ← effect;
  mret (first =? second).

(** [create_new_file]; [None] is [ErrorKind::AlreadyExists]. *)
Definition create_new_file (directory name : str) : AssetM (option Z) :=
  _ ← lift (validate_component name);
  _ ← effect;
  es ← gets entries;
  match es !! (directory, name) with
  | Some _ => mret None
  | None =>
      inode ← gets next_inode;
      _ ← modify (create_entry (directory, name));
      mret (Some inode)
  end.

(** [sync]: it may fail; what was written is on the disk already. *)
Definition sync : AssetM unit := effect.

(** [hard_link_to]; [false] is [ErrorKind::AlreadyExists]. *)
Definition hard_link_to (directory name target target_name : str) : AssetM bool :=
  _ ← lift (validate_component name);
  _ ← lift (validate_component target_name);
  source ← open_existing directory name;
  _ ← effect;
  es ← gets entries;
  match es !! (target, target_name), es !! (directory, name) with
  | Some _, _ => mret false
  | None, None => fail AssetIo
  | None, Some entry =>
      _ ← modify (fun d => set_entries (<[(target, target_name) := entry]> (entries d)) d);
      published ← open_existing target target_name;
      _ ← effect;
      if source =? published then mret true else fail UnsafeFilesystem
  end.

(** [remove_file]; [false] is [ErrorKind::NotFound]. *)
Definition remove_file (directory name : str) : AssetM bool :=
  _ ← lift (validate_component name);
  _ ← effect;
  es ← gets entries;
  match es !! (directory, name) with
  | None => mret false
  | Some _ =>
      _ ← modify (fun d => set_entries (delete (directory, name) (entries d)) d);
      mret true
  end.

Definition remove_existing (directory name : str) : AssetM unit :=
  removed ← remove_file directory name;
  if removed : bool then mret tt else fail AssetIo.

Definition move_file_no_replace (directory name target target_name : str) : AssetM unit :=
  linked ← hard_link_to directory name target target_name;
  if linked : bool then
    _ ← sync;
    _ ← remove_existing directory name;
    sync
  else fail AssetIo.

(** ** Reading and hashing *)

Definition COPY_BUFFER_BYTES : nat := Z.to_nat (64 * 1024).

Definition digest_hash (data : bytes) : str := hex_encode (sys_sha256 data).

Definition quota_exceeded (max_bytes : Z) : AssetError := LimitExceeded "per-object quota" max_bytes.

(** [size.checked_add(read)] and the limit. *)
Definition add_read (max_bytes size read : Z) : AssetResult Z :=
  size ← ok_or (checked_add U64_MAX size read) (quota_exceeded max_bytes);
  if size >? max_bytes then Err (quota_exceeded max_bytes) else Ok size.

(** How many of the remaining bytes [file.read] returns: at least one, at most a buffer. *)
Definition read_length (answer : nat) (rest : bytes) : nat :=
  Nat.min (Nat.min (S answer) COPY_BUFFER_BYTES) (length rest).

(** [hash_open_file]: the rest of the file, what was hashed, its size. *)
Fixpoint hash_loop (fuel : nat) (max_bytes : Z) (rest hashed : bytes) (size : Z) : AssetM (str * Z) :=
  _ ← check_cancelled;
  _ ← effect;
  answer ← ask sys_read_size;
  match rest with
  | [] => mret (digest_hash hashed, size)
  | _ :: _ =>
      match fuel with
      | O => exhausted
      | S fuel' =>
          let n := read_length answer rest in
          size ← lift (add_read max_bytes size (Z.of_nat n));
          hash_loop fuel' max_bytes (drop n rest) (hashed ++ take n rest) size
      end
  end.

Definition hash_open_file (inode : Z) : AssetM (str * Z) :=
  data ← gets (fun d => file_data d inode);
  hash_loop (length data) (max_object_bytes sys_limits) data [] 0.
End system.

(** * Assets: rules for files and effects

    A rule of [wp] for every operation of [AssetFs], for any invariant [I]: what must hold
    where the operation fails, and what it establishes when it returns. *)

Section rules.
Context `{AssetSystem}.
Context (X I : Disk -> Prop).

(** Some effect fails; the caller cancels; the clock fails. *)
Definition faulty : Prop := exists t e, sys_fault t = Some e.
Definition cancels : Prop := exists t, sys_cancelled t = true.
Definition clock_fails : Prop := exists t e, decode_clock (sys_clock t) = Err e.

Lemma wp_effect (Q : unit -> Disk -> Prop) d : (faulty -> I d) -> Q tt d -> wp X I effect Q d.
Proof.
  intros HI HQ. unfold effect. wp_step. destruct (sys_fault t) as [e|] eqn:He; [|by apply wp_ret].
  apply wp_fail, HI. by exists t, e.
Qed.

Lemma wp_now (Q : Z -> Disk -> Prop) d : (clock_fails -> I d) -> (forall now, 0 <= now <= I64_MAX -> Q now d) ->
  wp X I now_ms Q d.
Proof.
  intros HI HQ. unfold now_ms. wp_step. apply wp_lift; [|intros e He; apply HI; by exists t, e].
  intros now Hnow. apply HQ. unfold decode_clock in Hnow. pass guard Hnow as Hlow. pass guard Hnow as Hhigh.
  apply Ok_inj in Hnow. zify_bool. lia.
Qed.

Lemma wp_check_cancelled (Q : unit -> Disk -> Prop) d : (cancels -> I d) -> Q tt d -> wp X I check_cancelled Q d.
Proof.
  intros HI HQ. unfold check_cancelled. wp_step. destruct (sys_cancelled t) eqn:Hc; [|by apply wp_ret].
  apply wp_fail, HI. by exists t.
Qed.

Lemma wp_query {A} (f : Catalog -> A) (Q : A -> Disk -> Prop) d :
  (faulty -> I d) -> Q (f (catalog d)) d -> wp X I (query f) Q d.
Proof. intros HI HQ. unfold query. apply wp_bind, wp_effect; [done|]. by wp_step. Qed.

Lemma wp_commit c (Q : unit -> Disk -> Prop) d : (faulty -> I d) -> Q tt (set_catalog c d) -> wp X I (commit c) Q d.
Proof. intros HI HQ. unfold commit. apply wp_bind, wp_effect; [done|]. by wp_step. Qed.

Lemma wp_execute f (Q : unit -> Disk -> Prop) d :
  (faulty \/ is_ok (f (catalog d)) = false -> I d) -> (forall c, f (catalog d) = Ok c -> Q tt (set_catalog c d)) ->
  wp X I (execute f) Q d.
Proof.
  intros HI HQ. unfold execute. apply wp_bind, wp_effect; [auto|]. wp_step.
  apply wp_bind, wp_lift; [|intros e He; apply HI; right; by rewrite He]. intros c Hc. wp_step. by apply HQ.
Qed.

Lemma wp_execute_count {A} (f : Catalog -> Catalog * A) (Q : A -> Disk -> Prop) d :
  (faulty -> I d) -> Q (f (catalog d)).2 (set_catalog (f (catalog d)).1 d) -> wp X I (execute_count f) Q d.
Proof. intros HI HQ. unfold execute_count. apply wp_bind, wp_effect; [done|]. by repeat wp_step. Qed.

(** A name that is not one component is rejected. *)
Lemma wp_component name (Q : unit -> Disk -> Prop) d :
  (one_component name = false -> I d) -> Q tt d -> wp X I (lift (validate_component name)) Q d.
Proof.
  intros HI HQ. unfold validate_component. destruct (one_component name); [by apply wp_ret|]. by apply wp_fail, HI.
Qed.

Lemma wp_open_child directory name (Q : option str -> Disk -> Prop) d :
  (faulty \/ one_component name = false -> I d) -> (child directory name ∉ directories d -> Q None d) ->
  (child directory name ∈ directories d -> Q (Some (child directory name)) d) ->
  wp X I (open_child directory name) Q d.
Proof.
  intros HI HN HS. unfold open_child. apply wp_bind, wp_component; [auto|]. apply wp_bind, wp_effect; [auto|].
  wp_step. wp_step. case_bool_decide; auto.
Qed.

Lemma wp_open_or_create_child directory name (Q : str -> Disk -> Prop) d :
  (faulty \/ one_component name = false -> I d) -> (child directory name ∈ directories d -> Q (child directory name) d) ->
  (let d' := set_directories ({[child directory name]} ∪ directories d) d in
   (faulty \/ one_component name = false -> I d') /\ Q (child directory name) d') ->
  wp X I (open_or_create_child directory name) Q d.
Proof.
  cbn zeta. intros HI HQ [HI' HQ']. unfold open_or_create_child. apply wp_bind, wp_open_child; [done| |].
  - intros _. unfold create_child. apply wp_bind, wp_bind, wp_component; [auto|]. apply wp_bind, wp_effect; [auto|]. wp_step.
    apply wp_bind, wp_open_child; [done| |]; intros Hin; [exfalso; apply Hin; set_solver|by wp_step].
  - intros Hin. wp_step. auto.
Qed.

(** What makes [open_file] fail other than a missing file. *)
Definition unopenable (directory name : str) (d : Disk) : Prop :=
  faulty \/ one_component name = false \/ entries d !! (directory, name) = Some UnsafeEntry.

Lemma wp_open_file directory name (Q : option Z -> Disk -> Prop) d :
  (unopenable directory name d -> I d) -> (entries d !! (directory, name) = None -> Q None d) ->
  (forall i, entries d !! (directory, name) = Some (FileEntry i) -> Q (Some i) d) ->
  wp X I (open_file directory name) Q d.
Proof.
  unfold unopenable. intros HI HN HS. unfold open_file. apply wp_bind, wp_component; [auto|].
  apply wp_bind, wp_effect; [auto|]. wp_step.
  destruct (entries d !! (directory, name)) as [[i|]|] eqn:He; wp_step; auto.
Qed.

Lemma wp_open_file_bad directory name (Q : option Z -> Disk -> Prop) d :
  one_component name = false -> I d -> wp X I (open_file directory name) Q d.
Proof. intros Hn HI. unfold open_file, validate_component. rewrite Hn. by apply wp_bind, wp_fail. Qed.

Lemma wp_open_existing directory name (Q : Z -> Disk -> Prop) d :
  (unopenable directory name d \/ entries d !! (directory, name) = None -> I d) ->
  (forall i, entries d !! (directory, name) = Some (FileEntry i) -> Q i d) ->
  wp X I (open_existing directory name) Q d.
Proof.
  intros HI HS. unfold open_existing. apply wp_bind, wp_open_file; [auto| |].
  - intros Hn. wp_step. auto.
  - intros i Hi. wp_step. auto.
Qed.

Lemma wp_file_exists directory name (Q : bool -> Disk -> Prop) d :
  (unopenable directory name d -> I d) -> (entries d !! (directory, name) = None -> Q false d) ->
  (forall i, entries d !! (directory, name) = Some (FileEntry i) -> Q true d) ->
  wp X I (file_exists directory name) Q d.
Proof.
  intros HI HN HS. unfold file_exists. apply wp_bind, wp_open_file; [done| |]; intros; wp_step; cbn [is_some]; eauto.
Qed.

Lemma wp_same_file_as directory name other other_name (Q : bool -> Disk -> Prop) d :
  I d ->
  (forall i j, entries d !! (directory, name) = Some (FileEntry i) ->
               entries d !! (other, other_name) = Some (FileEntry j) -> Q (i =? j) d) ->
  wp X I (same_file_as directory name other other_name) Q d.
Proof.
  intros HI HQ. unfold same_file_as. apply wp_bind, wp_open_existing; [done|]. intros i Hi.
  apply wp_bind, wp_open_existing; [done|]. intros j Hj. apply wp_bind, wp_effect; [done|]. wp_step. auto.
Qed.

Lemma wp_create_new_file directory name (Q : option Z -> Disk -> Prop) d :
  (faulty \/ one_component name = false -> I d) -> (is_Some (entries d !! (directory, name)) -> Q None d) ->
  (entries d !! (directory, name) = None -> Q (Some (next_inode d)) (create_entry (directory, name) d)) ->
  wp X I (create_new_file directory name) Q d.
Proof.
  intros HI HS HN. unfold create_new_file. apply wp_bind, wp_component; [auto|]. apply wp_bind, wp_effect; [auto|]. wp_step.
  destruct (entries d !! (directory, name)) as [e|] eqn:He; [wp_step; apply HS; by eexists|].
  repeat wp_step. auto.
Qed.

(** What makes [hard_link_to] fail before it links. *)
Definition unlinkable (directory name target_name : str) (d : Disk) : Prop :=
  unopenable directory name d \/ one_component target_name = false \/ entries d !! (directory, name) = None.

Lemma wp_hard_link_to directory name target target_name (Q : bool -> Disk -> Prop) d :
  (unlinkable directory name target_name d -> I d) -> (is_Some (entries d !! (target, target_name)) -> Q false d) ->
  (forall i, entries d !! (directory, name) = Some (FileEntry i) -> entries d !! (target, target_name) = None ->
     let d' := set_entries (<[(target, target_name) := FileEntry i]> (entries d)) d in
     (faulty \/ one_component target_name = false -> I d') /\ Q true d') ->
  wp X I (hard_link_to directory name target target_name) Q d.
Proof.
  unfold unlinkable, unopenable. intros HI HS HN. unfold hard_link_to.
  apply wp_bind, wp_component; [auto|]. apply wp_bind, wp_component; [auto|].
  apply wp_bind, wp_open_existing; [unfold unopenable; tauto|]. intros i Hi. apply wp_bind, wp_effect; [auto|]. wp_step. rewrite Hi.
  destruct (entries d !! (target, target_name)) as [e|] eqn:He; [wp_step; apply HS; by eexists|].
  destruct (HN i Hi eq_refl) as [HI' HQ']. wp_step. apply wp_bind, wp_open_existing.
  - unfold unopenable. cbn. rewrite lookup_insert_eq. intros Hu. apply HI'. naive_solver.
  - intros j Hj. cbn in Hj. rewrite lookup_insert_eq in Hj. injection Hj as <-. apply wp_bind, wp_effect; [auto|].
    rewrite Z.eqb_refl. by wp_step.
Qed.

Lemma wp_remove_file directory name (Q : bool -> Disk -> Prop) d :
  (faulty \/ one_component name = false -> I d) -> (entries d !! (directory, name) = None -> Q false d) ->
  (is_Some (entries d !! (directory, name)) -> Q true (set_entries (delete (directory, name) (entries d)) d)) ->
  wp X I (remove_file directory name) Q d.
Proof.
  intros HI HN HS. unfold remove_file. apply wp_bind, wp_component; [auto|]. apply wp_bind, wp_effect; [auto|]. wp_step.
  destruct (entries d !! (directory, name)) as [e|] eqn:He; repeat wp_step; auto.
Qed.

Lemma wp_remove_existing directory name (Q : unit -> Disk -> Prop) d :
  (faulty \/ one_component name = false \/ entries d !! (directory, name) = None -> I d) ->
  (is_Some (entries d !! (directory, name)) -> Q tt (set_entries (delete (directory, name) (entries d)) d)) ->
  wp X I (remove_existing directory name) Q d.
Proof.
  intros HI HS. unfold remove_existing. apply wp_bind, wp_remove_file; [naive_solver| |]; intros; wp_step; auto.
Qed.

Lemma wp_move_file directory name target target_name (Q : unit -> Disk -> Prop) d :
  I d ->
  (forall i, entries d !! (directory, name) = Some (FileEntry i) -> entries d !! (target, target_name) = None ->
     let d1 := set_entries (<[(target, target_name) := FileEntry i]> (entries d)) d in
     let d2 := set_entries (delete (directory, name) (entries d1)) d1 in I d1 /\ I d2 /\ Q tt d2) ->
  wp X I (move_file_no_replace directory name target target_name) Q d.
Proof.
  cbn zeta. intros HI HQ. unfold move_file_no_replace. apply wp_bind, wp_hard_link_to; [done|intros _; by wp_step|].
  intros i Hi Ht. destruct (HQ i Hi Ht) as (H1 & H2 & H3). split; [done|].
  apply wp_bind, wp_effect; [done|]. apply wp_bind, wp_remove_existing; [done|]. intros _. by apply wp_effect.
Qed.

(** ** Hashing a file *)

Lemma read_length_bounds answer b rest :
  (1 <= read_length answer (b :: rest) <= length (b :: rest))%nat.
Proof.
  unfold read_length. assert (Hb : (1 <= COPY_BUFFER_BYTES)%nat) by (by apply (Z2Nat.inj_le 1 (64 * 1024))).
  generalize dependent COPY_BUFFER_BYTES. cbn [length]. lia.
Qed.

Lemma add_read_Ok max_bytes size read size' : add_read max_bytes size read = Ok size' -> size' = size + read.
Proof.
  unfold add_read, ok_or, checked_add. destruct (size + read <=? U64_MAX); [|done]. cbn.
  intros Hr. pass guard Hr. congruence.
Qed.

Lemma add_read_Err max_bytes size read e :
  add_read max_bytes size read = Err e -> Z.min U64_MAX max_bytes < size + read.
Proof.
  unfold add_read, ok_or, checked_add. destruct (size + read <=? U64_MAX) eqn:Hu; cbn.
  - destruct (size + read >? max_bytes) eqn:Hm; [|done]. zify_bool. lia.
  - zify_bool. lia.
Qed.

(** What makes hashing a file of a given size fail. *)
Definition unhashable (max_bytes size : Z) : Prop := faulty \/ cancels \/ Z.min U64_MAX max_bytes < size.

Lemma wp_hash_loop fuel max_bytes rest hashed size (Q : str * Z -> Disk -> Prop) d :
  (length rest <= fuel)%nat -> (unhashable max_bytes (size + len rest) -> I d) ->
  Q (digest_hash (hashed ++ rest), size + len rest) d ->
  wp X I (hash_loop fuel max_bytes rest hashed size) Q d.
Proof.
  unfold unhashable.
  revert rest hashed size. induction fuel as [|fuel IH]; intros rest hashed size Hf HI HQ; cbn [hash_loop];
    (apply wp_bind, wp_check_cancelled; [auto|]); (apply wp_bind, wp_effect; [auto|]); wp_step;
    destruct rest as [|b rest]; try (wp_step; rewrite app_nil_r, Z.add_0_r in HQ; exact HQ).
  - cbn in Hf. lia.
  - pose proof (read_length_bounds (sys_read_size t) b rest) as [Hlo Hhi].
    generalize dependent (read_length (sys_read_size t) (b :: rest)). intros n Hlo Hhi.
    assert (Hlen : size + Z.of_nat n + len (drop n (b :: rest)) = size + len (b :: rest)).
    { unfold len. rewrite length_drop. lia. }
    apply wp_bind, wp_lift.
    + intros size' ->%add_read_Ok. apply IH.
      * rewrite length_drop. cbn [length] in *. lia.
      * by rewrite Hlen.
      * by rewrite <- (assoc_L (++)), take_drop, Hlen.
    + intros e He%add_read_Err. apply HI. right; right. unfold len. lia.
Qed.

Lemma wp_hash_open_file i (Q : str * Z -> Disk -> Prop) d :
  (unhashable (max_object_bytes sys_limits) (len (file_data d i)) -> I d) ->
  Q (digest_hash (file_data d i), len (file_data d i)) d -> wp X I (hash_open_file i) Q d.
Proof. intros HI HQ. unfold hash_open_file. wp_step. by apply wp_hash_loop. Qed.
End rules.
