(* ===== verification/AssetStore.v ===== *)
(** * Assets: the store

    Models [crates/lorepia-assets/src/store.rs]: ingestion into the content-addressed
    files, listing and reading, references, and the quarantine with its intents;
    [AssetSessions] and [AssetMaintenance] hold the rest of the file.
    Every effect is one of [AssetFs], so that a run may stop between any two of them.

    A transaction reads the catalog once, computes the changed one and commits it; the
    file operations inside a transaction come before the commit, as in the code. *)

From stdpp Require Import gmap.
From S2P Require Import Prelude Bytes Utf8 Sorting ToolPolicy AssetModel AssetCatalog Faults AssetFs.

Definition OBJECTS_DIRECTORY : str := lit "objects".
Definition STAGING_DIRECTORY : str := lit ".staging".
Definition QUARANTINE_DIRECTORY : str := lit "quarantine".
Definition BACKUP_OWNER_TYPE : str := lit "lorepia-backup".
Definition IMPORT_TEMPORARY_OWNER_TYPE : str := lit "lorepia-import-session".

(** ** Names and validators *)

Definition first_shard (h : str) : str := take 2 h.
Definition second_shard (h : str) : str := take 2 (drop 2 h).

Definition relative_object_path (h : str) : str :=
  child (child (child OBJECTS_DIRECTORY (first_shard h)) (second_shard h)) h.

(** The directory and the name of an object file. *)
Definition object_place (h : str) : str * str :=
  (child (child OBJECTS_DIRECTORY (first_shard h)) (second_shard h), h).

Definition validate_request (request : IngestRequest) : AssetResult unit :=
  _ ← match source_name request with
      | Some name =>
          if (len name >? MAX_SOURCE_NAME_BYTES) || contains_nul name
          then Err (InvalidInput "source name" "must be at most 4096 bytes and contain no NUL")
          else Ok tt
      | None => Ok tt
      end;
  match ingest_owner request with Some owner => validate_owner owner | None => Ok tt end.

Definition validate_backup_session_id (value : str) : AssetResult unit :=
  if negb (len value =? 32) || negb (forallb is_lower_hex value)
  then Err (InvalidInput "backup session id" "must be exactly 32 lowercase hexadecimal characters")
  else Ok tt.

Definition validate_page_size (limit : Z) : AssetResult unit :=
  if (limit =? 0) || (limit >? MAX_PAGE_SIZE)
  then Err (InvalidInput "page size" "must be between 1 and 1000") else Ok tt.

Definition validate_shard (shard : str) : AssetResult unit :=
  if negb (len shard =? 4) || negb (forallb is_lower_hex shard)
  then Err (InvalidInput "object shard" "must be four lowercase hexadecimal characters") else Ok tt.

Definition internal_name_byte (b : byte) : bool := is_ascii_lowercase b || is_ascii_digit b || one_of "-." b.

Definition validate_internal_name (name : str) : AssetResult unit :=
  if is_empty name || (len name >? 160) || negb (forallb internal_name_byte name)
  then Err (InvalidInput "internal filename" "contains unsafe characters") else Ok tt.

Definition validate_object_relative_path (value : str) : AssetResult unit :=
  match split_on SLASH value with
  | [objects; first; second; name] =>
      if negb (str_eqb objects OBJECTS_DIRECTORY)
      then Err (IncompatibleCatalog "quarantine intent has an invalid object locator")
      else
        _ ← map_err (fun _ => IncompatibleCatalog "quarantine intent has an invalid object shard")
              (validate_shard (first ++ second));
        map_err (fun _ => IncompatibleCatalog "quarantine intent has an invalid object filename")
          (validate_internal_name name)
  | _ => Err (IncompatibleCatalog "quarantine intent has an invalid object locator")
  end.

Definition encode_size (size : Z) : AssetResult Z :=
  if size <=? I64_MAX then Ok size
  else Err (InvalidInput "asset size" "must fit in SQLite's signed 64-bit INTEGER range").

(** ** Catalog queries *)

(** [decode_object]: the columns are typed, the hash is checked. *)
Definition decode_object (h : str) (row : ObjectRow) : AssetResult AssetObject :=
  h ← map_err (fun _ => AssetDatabase) (AssetHash_parse h);
  Ok (mkAssetObject h (row_size row) (row_mime row) (row_path row) (row_state row) (row_verified row) (row_created row)).

Definition get_object_row (h : str) (c : Catalog) : AssetResult (option AssetObject) :=
  match asset_objects c !! h with
  | None => Ok None
  | Some row => object ← decode_object h row; Ok (Some object)
  end.

(** [hash > after], and everything without a cursor. *)
Definition after_cursor (after : option str) (h : str) : bool :=
  match after with None => true | Some a => match str_cmp a h with Lt => true | _ => false end end.

(** [SELECT .. ORDER BY hash LIMIT fetch] over the keys that satisfy a condition. *)
Definition select_keys {V} (p : str -> V -> bool) (after : option str) (fetch : Z) (m : gmap str V) : list str :=
  take (Z.to_nat fetch)
    (sort_by str_cmp (map fst (List.filter (fun kv => after_cursor after kv.1 && p kv.1 kv.2) (map_to_list m)))).

Definition row_active (row : ObjectRow) : bool := match row_state row with Active => true | _ => false end.
Definition hash_active (h : str) (c : Catalog) : bool :=
  match asset_objects c !! h with Some row => row_active row | None => false end.

(** [INSERT OR IGNORE INTO asset_refs .. SELECT ..] for the hashes selected. *)
Definition insert_refs (owner : AssetOwner) (hashes : list str) (now : Z) (c : Catalog) : AssetResult Catalog :=
  foldM_result (fun c h => insert_ref owner h now c) c hashes.

(** [asset_objects.relative_path] is unique. *)
Definition path_taken (h path : str) (c : Catalog) : bool :=
  existsb (fun kv => negb (str_eqb kv.1 h) && str_eqb (row_path kv.2) path) (map_to_list (asset_objects c)).

(** The constraints of [asset_objects] that a row may break: the form of the hash and the
    path of another object. *)
Definition put_object_unique (h : str) (row : ObjectRow) (c : Catalog) : AssetResult Catalog :=
  if negb (is_ok (AssetHash_parse h)) || path_taken h (row_path row) c then Err AssetDatabase
  else Ok (put_object h row c).

(** [INSERT INTO asset_quarantine_intents]: the name is the primary key. *)
Definition insert_intent (intent : QuarantineIntent) (c : Catalog) : AssetResult Catalog :=
  match asset_quarantine_intents c !! intent_name intent with
  | Some _ => Err AssetDatabase
  | None => Ok (set_intents (<[intent_name intent := intent]> (asset_quarantine_intents c)) c)
  end.

Definition with_phase (phase : QuarantinePhase) (i : QuarantineIntent) : QuarantineIntent :=
  mkIntent (intent_name i) (intent_operation i) phase (source_relative_path i) (intent_hash i) (intent_reason i)
    (intent_created i).

(** [UPDATE asset_quarantine_intents SET phase = 'moved' WHERE name = ?]. *)
Definition mark_intent_moved (name : str) (c : Catalog) : Catalog :=
  set_intents (alter (with_phase Moved) name (asset_quarantine_intents c)) c.

Definition delete_intent (name : str) (c : Catalog) : Catalog :=
  set_intents (delete name (asset_quarantine_intents c)) c.

Definition with_state (state : AssetState) (quarantine_name : option str) (row : ObjectRow) : ObjectRow :=
  mkObjectRow (row_size row) (row_mime row) (row_path row) state quarantine_name (row_verified row) (row_created row).

Definition touch_lease (now : Z) (l : Lease) : Lease := mkLease (lease_created l) (Z.max (lease_updated l) now).

Section store.
Context `{AssetSystem}.

(** ** Locators *)

(** [object_locator(hash, false)]. *)
Definition find_locator (h : str) : AssetM (option str) :=
  first ← open_child OBJECTS_DIRECTORY (first_shard h);
  match first with
  | None => mret None
  | Some first => open_child first (second_shard h)
  end.

(** [object_locator(hash, true)], which [ensure_object_parent] calls. *)
Definition ensure_object_parent (h : str) : AssetM str :=
  first ← open_or_create_child OBJECTS_DIRECTORY (first_shard h);
  second ← open_or_create_child first (second_shard h);
  _ ← sync;
  _ ← sync;
  mret second.

Definition resolve_object_relative_path (value : str) : AssetM (option (str * str)) :=
  _ ← lift (validate_object_relative_path value);
  match split_on SLASH value with
  | [_; first_name; second_name; file_name] =>
      first ← open_child OBJECTS_DIRECTORY first_name;
      match first with
      | None => mret None
      | Some first =>
          second ← open_child first second_name;
          mret ((fun second => (second, file_name)) <$> second)
      end
  | _ => fail (IncompatibleCatalog "quarantine intent has an invalid object locator")
  end.

(** ** Quarantine *)

(** The transaction at the end of [complete_quarantine_move]. *)
Definition finalize_move (intent : QuarantineIntent) (c : Catalog) : Catalog :=
  let c := put_quarantine (intent_name intent)
             (mkQuarantineRow (intent_hash intent) (intent_reason intent) (intent_created intent)) c in
  let c := match intent_hash intent with
           | Some h => update_object h (with_state Quarantined (Some (intent_name intent))) c
           | None => c
           end in
  delete_intent (intent_name intent) c.

Definition complete_quarantine_move (intent : QuarantineIntent) (source : option (str * str)) : AssetM unit :=
  let name := intent_name intent in
  _ ← when_ (bool_decide (intent_phase intent = Prepared))
        (target_exists ← file_exists QUARANTINE_DIRECTORY name;
         source_exists ← match source with
                         | Some (directory, source_name) => file_exists directory source_name
                         | None => mret false
                         end;
         _ ← match source, source_exists, target_exists with
             | Some (directory, source_name), true, false =>
                 move_file_no_replace directory source_name QUARANTINE_DIRECTORY name
             | Some (directory, source_name), true, true =>
                 same ← same_file_as directory source_name QUARANTINE_DIRECTORY name;
                 if same : bool then
                   _ ← remove_existing directory source_name;
                   sync
                 else fail UnsafeFilesystem
             | _, _, true => mret tt
             | _, _, false => fail UnsafeFilesystem
             end;
         _ ← connection;
         execute (fun c => Ok (mark_intent_moved name c)));
  _ ← connection;
  c ← query (finalize_move intent);
  commit c.

Definition quarantine_file (directory name source_path : str) (original : option str) (reason : string) (now : Z) :
  AssetM str :=
  _ ← open_existing directory name;
  drawn ← ask sys_uuid;
  let target := default (lit "unknown") original ++ lit "-" ++ drawn ++ lit ".quarantine" in
  _ ← lift (validate_internal_name target);
  _ ← lift (validate_object_relative_path source_path);
  _ ← connection;
  let intent := mkIntent target Move Prepared (Some source_path) original reason now in
  _ ← execute (insert_intent intent);
  _ ← complete_quarantine_move intent (Some (directory, name));
  mret target.

(** The transaction at the end of [complete_quarantine_purge]. *)
Definition missing_if_in (name : str) (row : ObjectRow) : ObjectRow :=
  if bool_decide (row_state row = Quarantined /\ row_quarantine_name row = Some name)
  then with_state Missing None row else row.

Definition finalize_purge (name : str) (c : Catalog) : Catalog :=
  let c := foldr (fun h c => update_object h (missing_if_in name) c) c (map fst (map_to_list (asset_objects c))) in
  delete_intent name (delete_quarantine name c).

Definition complete_quarantine_purge (intent : QuarantineIntent) : AssetM unit :=
  let name := intent_name intent in
  _ ← when_ (bool_decide (intent_phase intent = Prepared))
        (opened ← open_file QUARANTINE_DIRECTORY name;
         _ ← match opened with
             | Some _ => _ ← remove_existing QUARANTINE_DIRECTORY name; sync
             | None => sync
             end;
         _ ← connection;
         execute (fun c => Ok (mark_intent_moved name c)));
  _ ← connection;
  c ← query (finalize_purge name);
  commit c.

Definition purge_quarantine_file (name : str) : AssetM unit :=
  _ ← connection;
  row ← query (fun c => asset_quarantine c !! name);
  match row with
  | None => mret tt
  | Some row =>
      original ← match original_hash row with
                 | Some h => h ← lift (AssetHash_parse h); mret (Some h)
                 | None => mret None
                 end;
      let intent := mkIntent name Purge Prepared None original (quarantine_reason row) (quarantine_created row) in
      _ ← execute (insert_intent intent);
      complete_quarantine_purge intent
  end.

(** [ORDER BY created_at_ms, name]. *)
Definition intent_cmp (a b : QuarantineIntent) : comparison :=
  match intent_created a ?= intent_created b with
  | Eq => str_cmp (intent_name a) (intent_name b)
  | different => different
  end.

(** [decode_quarantine_intent]. *)
Definition decode_quarantine_intent (i : QuarantineIntent) : AssetResult QuarantineIntent :=
  _ ← map_err (fun _ => AssetDatabase) (validate_internal_name (intent_name i));
  _ ← match intent_operation i, source_relative_path i with
      | Move, Some path => map_err (fun _ => AssetDatabase) (validate_object_relative_path path)
      | Purge, None => Ok tt
      | _, _ => Err AssetDatabase
      end;
  let reason := lit (intent_reason i) in
  _ ← ensure (negb (is_empty reason || (len reason >? 256) || contains_nul reason || (intent_created i <? 0)))
        AssetDatabase;
  _ ← match intent_hash i with
      | Some h => _ ← map_err (fun _ => AssetDatabase) (AssetHash_parse h); Ok tt
      | None => Ok tt
      end;
  Ok i.

Definition recover_intent (_ : unit) (intent : QuarantineIntent) : AssetM unit :=
  match intent_operation intent with
  | Move =>
      match source_relative_path intent with
      | None => fail (IncompatibleCatalog "quarantine move intent has no source locator")
      | Some path =>
          source ← resolve_object_relative_path path;
          complete_quarantine_move intent source
      end
  | Purge => complete_quarantine_purge intent
  end.

Definition recover_quarantine_intents : AssetM unit :=
  _ ← connection;
  rows ← query (fun c => sort_by intent_cmp (map snd (map_to_list (asset_quarantine_intents c))));
  intents ← lift (mapM_result decode_quarantine_intent rows);
  forM_faulty recover_intent tt intents.

(** ** Ingestion *)

(** What [reader.read] returns in turn: chunks of at most a buffer, or an I/O error; an
    empty chunk or the end of the list is the end of the stream. *)
Inductive Read : Type := ReadChunk (chunk : bytes) | ReadError.

Record CopiedObject : Type := mkCopied {
  copied_data : bytes;
  copied_size : Z;
  copied_prefix : bytes;
  copied_tail : bytes;
}.

Definition update_tail (tail chunk : bytes) : bytes :=
  if TAIL_BYTES <=? len chunk then drop (length chunk - Z.to_nat TAIL_BYTES) chunk
  else
    let tail := tail ++ chunk in
    if len tail >? TAIL_BYTES then drop (length tail - Z.to_nat TAIL_BYTES) tail else tail.

Definition extend_prefix (prefix chunk : bytes) : bytes :=
  if len prefix <? PROBE_BYTES then prefix ++ take (Z.to_nat (PROBE_BYTES - len prefix)) chunk else prefix.

Definition finish_copy (copied : CopiedObject) : AssetM CopiedObject :=
  if copied_size copied =? 0 then fail UnsupportedContent else mret copied.

Fixpoint copy_and_hash (reads : list Read) (inode : Z) (copied : CopiedObject) : AssetM CopiedObject :=
  _ ← check_cancelled;
  match reads with
  | [] => finish_copy copied
  | ReadError :: _ => fail AssetIo
  | ReadChunk chunk :: reads' =>
      if is_empty chunk then finish_copy copied
      else
        size ← lift (add_read (max_object_bytes sys_limits) (copied_size copied) (len chunk));
        _ ← effect;
        _ ← modify (append_contents inode chunk);
        copy_and_hash reads' inode
          (mkCopied (copied_data copied ++ chunk) size (extend_prefix (copied_prefix copied) chunk)
             (update_tail (copied_tail copied) chunk))
  end.

(** [allocate_staging]: up to eight names. *)
Fixpoint allocate_staging_loop (attempts : nat) (now : Z) : AssetM (str * Z) :=
  match attempts with
  | O => fail (InvalidInput "staging file" "could not allocate a unique staging name")
  | S attempts' =>
      drawn ← ask sys_uuid;
      let name := drawn ++ lit ".partial" in
      _ ← connection;
      inserted ← execute_count (insert_staging name now);
      if inserted : bool then
        created ← attempt (create_new_file STAGING_DIRECTORY name);
        match created with
        | Ok (Some inode) => mret (name, inode)
        | Ok None =>
            _ ← execute (fun c => Ok (delete_staging name c));
            allocate_staging_loop attempts' now
        | Err AssetIo =>
            _ ← execute (fun c => Ok (delete_staging name c));
            fail AssetIo
        | Err e => fail e
        end
      else allocate_staging_loop attempts' now
  end.

Definition allocate_staging : AssetM (str * Z) :=
  now ← now_ms;
  allocate_staging_loop 8 now.

Definition remove_staging_record (name : str) : AssetM unit :=
  _ ← connection;
  execute (fun c => Ok (delete_staging name c)).

Definition cleanup_staged_file (name : str) : AssetM unit :=
  _ ← remove_file STAGING_DIRECTORY name;
  _ ← sync;
  remove_staging_record name.

Definition matches_expectation (actual : str * Z) (h : str) (size : Z) : bool :=
  str_eqb actual.1 h && (actual.2 =? size).

Definition prepare_destination (directory h : str) (size now : Z) : AssetM bool :=
  opened ← open_file directory h;
  match opened with
  | None => mret false
  | Some inode =>
      actual ← hash_open_file inode;
      if matches_expectation actual h size then mret true
      else
        _ ← quarantine_file directory h (relative_object_path h) (Some h)
              "object path content did not match its hash" now;
        mret false
  end.

Definition publish_or_deduplicate (staging_name directory h : str) (size : Z) : AssetM bool :=
  linked ← hard_link_to STAGING_DIRECTORY staging_name directory h;
  if linked : bool then mret false
  else
    inode ← open_existing directory h;
    actual ← hash_open_file inode;
    if matches_expectation actual h size then mret true else fail (HashMetadataConflict h).

Definition destination_matches_expectation (directory h : str) (size : Z) : AssetM bool :=
  opened ← open_file directory h;
  match opened with
  | None => mret false
  | Some inode =>
      actual ← hash_open_file inode;
      if matches_expectation actual h size then mret true else fail (HashMetadataConflict h)
  end.

(** [active_bytes] of the ledger less what the hash itself holds. *)
Definition active_bytes_without (h : str) (c : Catalog) : Z :=
  active_bytes (asset_totals c) - match asset_objects c !! h with Some row => active_size row | None => 0 end.

Definition projected_bytes (h : str) (size : Z) (c : Catalog) : Z :=
  let without := active_bytes_without h c in
  saturating_add U64_MAX (if 0 <=? without then without else U64_MAX) size.

(** The statements of the transaction of [ingest]: the upsert and the reference. *)
Definition ingest_rows (h : str) (size : Z) (mime : AssetMime) (now : Z) (owner : option AssetOwner) (c : Catalog) :
  AssetResult Catalog :=
  size ← encode_size size;
  let created := match asset_objects c !! h with Some row => row_created row | None => now end in
  c ← put_object_unique h (mkObjectRow size mime (relative_object_path h) Active None now created) c;
  match owner with Some owner => insert_ref owner h now c | None => Ok c end.

Definition get_object (h : str) : AssetM (option AssetObject) :=
  _ ← connection;
  r ← query (get_object_row h);
  lift r.

(** The closure of [ingest]. *)
Definition ingest_staged (reads : list Read) (request : IngestRequest) (staging_name : str) (inode : Z) :
  AssetM IngestOutcome :=
  copied ← copy_and_hash reads inode (mkCopied [] 0 [] []);
  _ ← sync;
  let size := copied_size copied in
  mime ← lift (validate_mime sys_limits (declared_mime request) (copied_prefix copied) (copied_tail copied) size);
  let h := digest_hash (copied_data copied) in
  now ← now_ms;
  directory ← ensure_object_parent h;
  initially_deduplicated ← prepare_destination directory h size now;
  _ ← connection;
  c ← query id;
  _ ← lift (ensure (negb (projected_bytes h size c >? max_total_bytes sys_limits))
              (LimitExceeded "total asset quota" (max_total_bytes sys_limits)));
  still ← (if initially_deduplicated : bool then destination_matches_expectation directory h size else mret false);
  deduplicated ← (if still : bool then mret true else publish_or_deduplicate staging_name directory h size);
  _ ← effect;
  c ← lift (ingest_rows h size mime now (ingest_owner request) c);
  _ ← sync;
  _ ← commit c;
  object ← get_object h;
  match object with
  | Some object => mret (mkIngestOutcome object deduplicated)
  | None => fail (AssetNotFound h)
  end.

Definition ingest (reads : list Read) (request : IngestRequest) : AssetM IngestOutcome :=
  _ ← lift (validate_request request);
  _ ← mutation_guard;
  '(staging_name, inode) ← allocate_staging;
  result ← attempt (ingest_staged reads request staging_name inode);
  cleanup ← attempt (cleanup_staged_file staging_name);
  match result, cleanup with
  | Ok value, Ok _ => mret value
  | Err e, _ => fail e
  | Ok _, Err e => fail e
  end.

(** ** Listing and reading *)

Record AssetObjectPage : Type := mkObjectPage { page_objects : list AssetObject; page_cursor : option str }.

(** [truncate(limit)] and the cursor of the last element when there is more. *)
Definition cut_page (limit : Z) (keys : list str) : list str * option str :=
  let page := take (Z.to_nat limit) keys in
  (page, if len keys >? limit then head (rev page) else None).

Definition list_objects (after : option str) (limit : Z) : AssetM AssetObjectPage :=
  _ ← lift (validate_page_size limit);
  _ ← connection;
  c ← query id;
  let keys := select_keys (fun _ _ => true) after (limit + 1) (asset_objects c) in
  rows ← lift (mapM_result (fun h => get_object_row h c) keys);
  let page := take (Z.to_nat limit) (omap (fun row => row) rows) in
  mret (mkObjectPage page (if len keys >? limit then object_hash <$> head (rev page) else None)).

Definition stats : AssetM AssetStats := _ ← connection; query asset_totals.

Definition verify_catalog_ledger : AssetM AssetStats :=
  _ ← connection; r ← query verify_derived_totals; lift r.

Definition open_object (h : str) : AssetM (Z * AssetObject) :=
  found ← get_object h;
  match found with
  | None => fail (AssetNotFound h)
  | Some object =>
      if negb (bool_decide (object_state object = Active)) then fail (NotActive h (AssetState_as_str (object_state object)))
      else
        locator ← find_locator h;
        match locator with
        | None => fail (AssetNotFound h)
        | Some directory =>
            inode ← open_existing directory h;
            size ← gets (fun d => len (file_data d inode));
            if negb (size =? object_size object) then fail UnsafeFilesystem else mret (inode, object)
        end
  end.

(** [export_object]: the bytes written, in the order of the writes. *)
Fixpoint export_loop (fuel : nat) (rest written : bytes) : AssetM bytes :=
  _ ← check_cancelled;
  _ ← effect;
  answer ← ask sys_read_size;
  match rest with
  | [] => mret written
  | _ :: _ =>
      match fuel with
      | O => exhausted
      | S fuel' =>
          let n := read_length answer rest in
          _ ← effect;
          export_loop fuel' (drop n rest) (written ++ take n rest)
      end
  end.

Definition export_object (h : str) : AssetM (bytes * Z) :=
  '(inode, _) ← open_object h;
  data ← gets (fun d => file_data d inode);
  written ← export_loop (length data) data [];
  _ ← effect;
  mret (written, Z.min U64_MAX (len written)).

(** ** References *)

(** One reference of [add_refs]. *)
Definition add_ref (now : Z) (c : Catalog) (r : AssetReference) : AssetResult Catalog :=
  _ ← validate_owner (ref_owner r);
  match asset_objects c !! ref_hash r with
  | None => Err (AssetNotFound (ref_hash r))
  | Some row =>
      if row_active row then insert_ref (ref_owner r) (ref_hash r) now c
      else Err (NotActive (ref_hash r) (AssetState_as_str (row_state row)))
  end.

Definition add_refs (refs : list AssetReference) : AssetM unit :=
  if is_empty refs then mret tt
  else
    _ ← mutation_guard;
    _ ← connection;
    c ← query id;
    now ← now_ms;
    c ← lift (foldM_result (add_ref now) c refs);
    commit c.

Definition remove_ref (acc : Catalog * Z) (r : AssetReference) : AssetResult (Catalog * Z) :=
  _ ← validate_owner (ref_owner r);
  let '(c, removed) := acc in
  let '(c, n) := delete_ref (ref_owner r) (ref_hash r) c in
  Ok (c, saturating_add U64_MAX removed n).

Definition remove_refs (refs : list AssetReference) : AssetM Z :=
  if is_empty refs then mret 0
  else
    _ ← mutation_guard;
    _ ← connection;
    c ← query id;
    '(c, removed) ← lift (foldM_result remove_ref (c, 0) refs);
    _ ← commit c;
    mret removed.

Definition remove_owner_refs (owner : AssetOwner) : AssetM Z :=
  _ ← lift (validate_owner owner);
  _ ← mutation_guard;
  _ ← connection;
  execute_count (delete_owner_refs owner).
End store.
