(* ===== verification/AssetSessions.v ===== *)
(** * Assets: sessions

    The sessions of [crates/lorepia-assets/src/store.rs]: the leases of temporary owners
    with their promotion, rollback and recovery, and the leases and pins of backup
    snapshots. *)

From stdpp Require Import gmap.
From S2P Require Import Prelude Bytes Utf8 Sorting ToolPolicy AssetModel AssetCatalog Faults AssetFs AssetStore.

Section sessions.
Context `{AssetSystem}.

(** ** Temporary-owner sessions *)

Definition session_error (reason : string) : AssetError := InvalidInput "temporary owner session" reason.

Definition begin_session (owner : AssetOwner) (now : Z) (c : Catalog) : AssetResult Catalog :=
  match asset_temporary_owner_sessions c !! owner with
  | Some _ => Err (session_error "session already exists")
  | None => Ok (set_temporary_sessions (<[owner := mkLease now now]> (asset_temporary_owner_sessions c)) c)
  end.

Definition begin_temporary_owner_session (owner : AssetOwner) : AssetM unit :=
  _ ← lift (validate_owner owner);
  _ ← mutation_guard;
  _ ← connection;
  c ← query id;
  if Z.of_nat (size (asset_temporary_owner_sessions c)) >=? MAX_TEMPORARY_OWNER_SESSIONS
  then fail (session_error "live session limit of 128 has been reached")
  else
    now ← now_ms;
    c ← lift (begin_session owner now c);
    commit c.

Definition session_is_live (owner : AssetOwner) (c : Catalog) : bool :=
  is_some (asset_temporary_owner_sessions c !! owner).

Definition touch_session (owner : AssetOwner) (now : Z) (c : Catalog) : Catalog * bool :=
  (set_temporary_sessions (alter (touch_lease now) owner (asset_temporary_owner_sessions c)) c, session_is_live owner c).

Definition renew_temporary_owner_session (owner : AssetOwner) : AssetM bool :=
  _ ← lift (validate_owner owner);
  _ ← mutation_guard;
  _ ← connection;
  now ← now_ms;
  execute_count (touch_session owner now).

Definition temporary_owner_session_is_live (owner : AssetOwner) : AssetM bool :=
  _ ← lift (validate_owner owner);
  _ ← connection;
  query (session_is_live owner).

Definition delete_session (owner : AssetOwner) (c : Catalog) : Catalog :=
  set_temporary_sessions (delete owner (asset_temporary_owner_sessions c)) c.

Definition finish_empty (owner : AssetOwner) (c : Catalog) : AssetResult Catalog :=
  if negb (len (owner_hashes c owner) =? 0)
  then Err (session_error "empty session unexpectedly owns asset references")
  else if negb (session_is_live owner c) then Err (session_error "session is not live")
  else Ok (delete_session owner c).

Definition finish_empty_temporary_owner_session (owner : AssetOwner) : AssetM unit :=
  _ ← lift (validate_owner owner);
  _ ← mutation_guard;
  _ ← connection;
  r ← query (finish_empty owner);
  c ← lift r;
  commit c.

(** The checks of [commit_temporary_owner_refs] inside its transaction. *)
Definition check_promotion (temporary : AssetOwner) (expected : Z) (c : Catalog) : AssetResult unit :=
  let hashes := owner_hashes c temporary in
  if negb (session_is_live temporary c) then Err (session_error "session is not live")
  else if expected >? I64_MAX
  then Err (InvalidInput "temporary owner references" "expected unique reference count is too large")
  else if negb (len hashes =? expected)
  then Err (InvalidInput "temporary owner references"
              "admitted unique reference count did not match the expected batch")
  else
    match List.find (fun h => negb (hash_active h c)) hashes with
    | Some h => Err (NotActive h (match asset_objects c !! h with
                                  | Some row => AssetState_as_str (row_state row)
                                  | None => []
                                  end))
    | None => Ok tt
    end.

(** Its statements. *)
Definition promote_refs (temporary final : AssetOwner) (expected now : Z) (c : Catalog) : AssetResult (Catalog * Z) :=
  c ← insert_refs final (owner_hashes c temporary) now c;
  let '(c, promoted) := delete_owner_refs temporary c in
  if (promoted =? 0) || negb (promoted =? expected)
  then Err (IncompatibleCatalog "temporary owner promotion count changed inside one transaction")
  else if negb (session_is_live temporary c)
  then Err (IncompatibleCatalog "temporary owner session disappeared during promotion")
  else Ok (delete_session temporary c, promoted).

Definition commit_temporary_owner_refs (temporary final : AssetOwner) (expected : Z) : AssetM Z :=
  _ ← lift (validate_owner temporary);
  _ ← lift (validate_owner final);
  if str_eqb (owner_type temporary) (owner_type final)
  then fail (InvalidInput "temporary owner" "temporary and final owner types must differ")
  else if expected =? 0
  then fail (InvalidInput "temporary owner references" "expected unique reference count must be greater than zero")
  else
    _ ← mutation_guard;
    _ ← connection;
    c ← query id;
    _ ← lift (check_promotion temporary expected c);
    now ← now_ms;
    '(c, promoted) ← lift (promote_refs temporary final expected now c);
    _ ← commit c;
    mret promoted.

(** ** Rollback and recovery *)

Definition has_other_reference (owner : AssetOwner) (h : str) (c : Catalog) : bool :=
  exists_ref (fun o h' => str_eqb h' h && negb (bool_decide (o = owner))) c.

(** [remove_file] of an object that may be gone, with the sync after an unlink. *)
Definition unlink_object (h : str) : AssetM unit :=
  locator ← find_locator h;
  match locator with
  | None => mret tt
  | Some directory =>
      removed ← remove_file directory h;
      when_ removed sync
  end.

(** The statements of one round of the rollback. *)
Definition rollback_rows (owner : AssetOwner) (h : str) (orphan : bool) (c : Catalog) : Catalog * Z :=
  let '(c, _) := delete_ref owner h c in
  if orphan then delete_orphan h c else (c, 0).

Definition rollback_one (owner : AssetOwner) (next_hash : str) : AssetM Z :=
  h ← lift (AssetHash_parse next_hash);
  c ← query id;
  let orphan := hash_active h c && negb (has_other_reference owner h c) in
  _ ← when_ orphan (unlink_object h);
  _ ← effect;
  let '(c, n) := rollback_rows owner h orphan c in
  _ ← commit c;
  mret n.

Fixpoint rollback_loop (fuel : nat) (owner : AssetOwner) (removed : Z) : AssetM Z :=
  _ ← connection;
  next ← query (fun c => head (owner_hashes c owner));
  match next with
  | None => mret removed
  | Some next_hash =>
      match fuel with
      | O => exhausted
      | S fuel' =>
          n ← rollback_one owner next_hash;
          rollback_loop fuel' owner (saturating_add U64_MAX removed n)
      end
  end.

(** The rounds of the rollback are at most the references of the owner. *)
Definition rollback_temporary_owner_locked (owner : AssetOwner) : AssetM Z :=
  rounds ← gets (fun d => length (owner_hashes (catalog d) owner));
  removed ← rollback_loop rounds owner 0;
  _ ← connection;
  _ ← execute (fun c => Ok (delete_session owner c));
  mret removed.

Definition rollback_temporary_owner (owner : AssetOwner) : AssetM Z :=
  _ ← lift (validate_owner owner);
  _ ← mutation_guard;
  rollback_temporary_owner_locked owner.

(** The candidates of one recovery round: expired leases of the type, and owners of the
    type with references and no lease. *)
Definition stale_sessions (kind : str) (stale_before : Z) (c : Catalog) : list (str * bool) :=
  map (fun kv => (owner_id kv.1, true))
    (List.filter (fun kv => str_eqb (owner_type kv.1) kind && (lease_updated kv.2 <? stale_before))
       (map_to_list (asset_temporary_owner_sessions c))).

Definition orphan_owners (kind : str) (c : Catalog) : list (str * bool) :=
  map (fun k => (owner_id k.1, false))
    (List.filter (fun k => str_eqb (owner_type k.1) kind && negb (session_is_live k.1 c))
       (map fst (map_to_list (asset_refs c)))).

Definition candidate_cmp (a b : str * bool) : comparison := str_cmp a.1 b.1.

Definition recovery_candidate (kind : str) (stale_before : Z) (c : Catalog) : option (str * bool) :=
  head (sort_by candidate_cmp (stale_sessions kind stale_before c ++ orphan_owners kind c)).

(** [DELETE FROM asset_temporary_owner_sessions WHERE .. AND lease_updated_at_ms < ?]. *)
Definition claim_session (owner : AssetOwner) (stale_before : Z) (c : Catalog) : option Catalog :=
  match asset_temporary_owner_sessions c !! owner with
  | Some lease => if lease_updated lease <? stale_before then Some (delete_session owner c) else None
  | None => None
  end.

Fixpoint recover_loop (fuel : nat) (kind : str) (stale_before removed : Z) : AssetM Z :=
  _ ← connection;
  c ← query id;
  match recovery_candidate kind stale_before c with
  | None => _ ← commit c; mret removed
  | Some (id, has_lease) =>
      match fuel with
      | O => exhausted
      | S fuel' =>
          match (if has_lease : bool then claim_session (mkOwner kind id) stale_before c else Some c) with
          | None => _ ← commit c; recover_loop fuel' kind stale_before removed
          | Some c =>
              _ ← commit c;
              owner ← lift (AssetOwner_new kind id);
              n ← rollback_temporary_owner_locked owner;
              recover_loop fuel' kind stale_before (saturating_add U64_MAX removed n)
          end
      end
  end.

(** Sessions and references together bound the rounds of a recovery. *)
Definition recovery_bound (c : Catalog) : nat := size (asset_temporary_owner_sessions c) + size (asset_refs c).

Definition recover_temporary_owner_type_before (kind : str) (stale_before : Z) : AssetM Z :=
  if stale_before <? 0
  then fail (InvalidInput "temporary owner stale cutoff" "must be non-negative milliseconds since epoch")
  else
    _ ← lift (AssetOwner_new kind (lit "recovery-probe"));
    _ ← mutation_guard;
    rounds ← gets (fun d => recovery_bound (catalog d));
    recover_loop rounds kind stale_before 0.

Definition I64_MIN : Z := - 2 ^ 63.
(** [i64::saturating_sub]. *)
Definition i64_saturating_sub (a b : Z) : Z := Z.max I64_MIN (Z.min I64_MAX (a - b)).

Definition recover_temporary_owner_type (kind : str) : AssetM Z :=
  now ← now_ms;
  recover_temporary_owner_type_before kind (i64_saturating_sub now TEMPORARY_OWNER_LEASE_TIMEOUT_MS).

(** [SELECT DISTINCT owner_type .. ORDER BY owner_type LIMIT 128]. *)
Definition expired_types (cutoff : Z) (c : Catalog) : list str :=
  take (Z.to_nat MAX_TEMPORARY_OWNER_SESSIONS)
    (sort_by str_cmp (remove_dups
       (map (fun kv => owner_type kv.1)
          (List.filter (fun kv => lease_updated kv.2 <? cutoff) (map_to_list (asset_temporary_owner_sessions c)))))).

Definition recover_expired_temporary_owner_sessions : AssetM Z :=
  now ← now_ms;
  let cutoff := i64_saturating_sub now TEMPORARY_OWNER_LEASE_TIMEOUT_MS in
  _ ← connection;
  kinds ← query (expired_types cutoff);
  forM_faulty (fun removed kind =>
    n ← recover_temporary_owner_type_before kind cutoff;
    mret (saturating_add U64_MAX removed n)) 0 kinds.

(** ** Backup snapshots *)

Definition backup_owner (session_id : str) : AssetOwner := mkOwner BACKUP_OWNER_TYPE session_id.

Record BackupSnapshotCleanup : Type := mkBackupCleanup { removed_sessions : list str; released_pins : Z }.
Record BackupSnapshotLease : Type := mkBackupLease {
  lease_session : str;
  pinned_objects : Z;
  lease_updated_at_ms : Z;
}.

Definition delete_backup_session (session_id : str) (c : Catalog) : Catalog :=
  set_backup_sessions (delete session_id (asset_backup_sessions c)) c.

Definition release_session (session_id : str) (c : Catalog) : Catalog * Z :=
  let '(c, removed) := delete_owner_refs (backup_owner session_id) c in
  (delete_backup_session session_id c, removed).

(** [ORDER BY lease_updated_at_ms, session_id]. *)
Definition session_cmp (a b : str * Lease) : comparison :=
  match lease_updated a.2 ?= lease_updated b.2 with
  | Eq => str_cmp a.1 b.1
  | different => different
  end.

Definition stale_backup_sessions (stale_before limit : Z) (c : Catalog) : list str :=
  take (Z.to_nat limit)
    (map fst (sort_by session_cmp
       (List.filter (fun kv => lease_updated kv.2 <=? stale_before) (map_to_list (asset_backup_sessions c))))).

Definition release_stale (acc : Catalog * Z) (session_id : str) : AssetResult (Catalog * Z) :=
  let '(c, released) := acc in
  let '(c, removed) := release_session session_id c in
  released ← ok_or (checked_add U64_MAX released removed) (IncompatibleCatalog "backup cleanup pin count overflowed");
  Ok (c, released).

Definition cleanup_stale_backup_sessions_in_transaction (stale_before limit : Z) (c : Catalog) :
  AssetResult (Catalog * BackupSnapshotCleanup) :=
  let sessions := stale_backup_sessions stale_before limit c in
  '(c, released) ← foldM_result release_stale (c, 0) sessions;
  Ok (c, mkBackupCleanup sessions released).

(** The session row and the pins of [begin_backup_snapshot]. *)
Definition pin_active (session_id : str) (now : Z) (c : Catalog) : AssetResult Catalog :=
  insert_refs (backup_owner session_id)
    (map fst (List.filter (fun kv => row_active kv.2) (map_to_list (asset_objects c)))) now c.

Definition open_backup_session (session_id : str) (now : Z) (c : Catalog) : AssetResult Catalog :=
  '(c, _) ← cleanup_stale_backup_sessions_in_transaction
              (i64_saturating_sub now BACKUP_SNAPSHOT_LEASE_TIMEOUT_MS) MAX_BACKUP_SNAPSHOT_SESSIONS c;
  c ← match asset_backup_sessions c !! session_id with
      | None =>
          if Z.of_nat (size (asset_backup_sessions c)) >=? MAX_BACKUP_SNAPSHOT_SESSIONS
          then Err (InvalidInput "backup snapshot session" "live session limit of 128 has been reached")
          else Ok (set_backup_sessions (<[session_id := mkLease now now]> (asset_backup_sessions c)) c)
      | Some _ =>
          let c := set_backup_sessions (alter (touch_lease now) session_id (asset_backup_sessions c)) c in
          Ok (delete_owner_refs (backup_owner session_id) c).1
      end;
  pin_active session_id now c.

(** The deletions in the copy: export pins, import references and every session. *)
Definition delete_refs_where (p : AssetOwner -> bool) (c : Catalog) : Catalog :=
  foldr (fun k c => if p k.1 then (delete_ref k.1 k.2 c).1 else c) c (map fst (map_to_list (asset_refs c))).

Definition clean_snapshot (c : Catalog) : Catalog :=
  let c := delete_refs_where (fun o => str_eqb (owner_type o) BACKUP_OWNER_TYPE) c in
  let c := set_backup_sessions ∅ c in
  let c := delete_refs_where
             (fun o => str_eqb (owner_type o) IMPORT_TEMPORARY_OWNER_TYPE || session_is_live o c) c in
  set_temporary_sessions ∅ c.

(** The rounds of the page copy: what [continue_copy] answers in each; the step of the
    last round is the one that is done. *)
Fixpoint copy_pages (rounds : list bool) : AssetM unit :=
  match rounds with
  | [] => mret tt
  | go_on :: rounds' =>
      if go_on then _ ← effect; copy_pages rounds' else fail SnapshotCancelled
  end.

Definition write_snapshot (target : str) (rounds : list bool) : AssetM Catalog :=
  _ ← effect;
  c ← gets catalog;
  _ ← modify (fun d => set_snapshots (<[target := c]> (snapshots d)) d);
  _ ← copy_pages rounds;
  _ ← effect;
  _ ← modify (fun d => set_snapshots (<[target := clean_snapshot c]> (snapshots d)) d);
  _ ← effect;
  mret (clean_snapshot c).

Definition abandon_backup_snapshot_on_connection (session_id : str) : AssetM Z :=
  '(c, removed) ← query (release_session session_id);
  _ ← commit c;
  mret removed.

Definition begin_backup_snapshot (session_id target : str) (rounds : list bool) : AssetM Catalog :=
  _ ← lift (validate_backup_session_id session_id);
  _ ← effect;
  existing ← gets (fun d => is_some (snapshots d !! target));
  if existing : bool then fail UnsafeFilesystem
  else
    _ ← mutation_guard;
    _ ← connection;
    now ← now_ms;
    r ← query (open_backup_session session_id now);
    c ← lift r;
    _ ← commit c;
    result ← attempt (write_snapshot target rounds);
    match result with
    | Ok c => mret c
    | Err e =>
        _ ← attempt (_ ← effect; modify (fun d => set_snapshots (delete target (snapshots d)) d));
        _ ← abandon_backup_snapshot_on_connection session_id;
        fail e
    end.

Definition renew_backup_snapshot (session_id : str) : AssetM (option BackupSnapshotLease) :=
  _ ← lift (validate_backup_session_id session_id);
  _ ← mutation_guard;
  _ ← connection;
  now ← now_ms;
  c ← query id;
  match asset_backup_sessions c !! session_id with
  | None => _ ← commit c; mret None
  | Some lease =>
      let lease := touch_lease now lease in
      _ ← commit (set_backup_sessions (<[session_id := lease]> (asset_backup_sessions c)) c);
      mret (Some (mkBackupLease session_id (len (owner_hashes c (backup_owner session_id))) (lease_updated lease)))
  end.

Definition abandon_backup_snapshot (session_id : str) : AssetM Z :=
  _ ← lift (validate_backup_session_id session_id);
  _ ← mutation_guard;
  _ ← connection;
  abandon_backup_snapshot_on_connection session_id.

Definition release_backup_snapshot (session_id : str) : AssetM Z := abandon_backup_snapshot session_id.

Definition cleanup_stale_backup_snapshots (stale_before limit : Z) : AssetM BackupSnapshotCleanup :=
  if stale_before <? 0
  then fail (InvalidInput "backup snapshot stale cutoff" "must be non-negative milliseconds since epoch")
  else if (limit =? 0) || (limit >? MAX_BACKUP_SNAPSHOT_SESSIONS)
  then fail (InvalidInput "backup snapshot cleanup limit" "must be between 1 and 128")
  else
    _ ← mutation_guard;
    _ ← connection;
    r ← query (cleanup_stale_backup_sessions_in_transaction stale_before limit);
    '(c, cleanup) ← lift r;
    _ ← commit c;
    mret cleanup.

Definition cleanup_expired_backup_snapshots : AssetM BackupSnapshotCleanup :=
  now ← now_ms;
  cleanup_stale_backup_snapshots (i64_saturating_sub now BACKUP_SNAPSHOT_LEASE_TIMEOUT_MS) MAX_BACKUP_SNAPSHOT_SESSIONS.
End sessions.
