(* ===== verification/AssetMaintenance.v ===== *)
(** * Assets: maintenance

    The maintenance of [crates/lorepia-assets/src/store.rs]: reconciliation of the catalog
    with the object files and of a shard with the catalog, mark and sweep, the cleanup of
    staging and quarantine, and opening the store with its migrations and recovery. *)

From stdpp Require Import gmap.
From S2P Require Import Prelude Bytes Utf8 Sorting ToolPolicy AssetModel AssetCatalog Faults AssetFs AssetStore AssetSessions.

Section maintenance.
Context `{AssetSystem}.

(** ** Reconciliation *)

Inductive ReconcileFindingKind : Type :=
  | FoundMissing | FoundCorrupt | FoundRestored | MetadataPathRepaired
  | FilesystemOrphanQuarantined | InvalidEntryQuarantined | FoundUnsafeEntry.

Record ReconcileFinding : Type := mkFinding {
  finding_hash : option str;
  finding_kind : ReconcileFindingKind;
}.

Record ReconcilePage : Type := mkReconcilePage {
  checked : Z;
  reconcile_findings : list ReconcileFinding;
  reconcile_cursor : option str;
}.

Definition with_path (path : str) (row : ObjectRow) : ObjectRow :=
  mkObjectRow (row_size row) (row_mime row) path (row_state row) (row_quarantine_name row) (row_verified row)
    (row_created row).

(** [UPDATE asset_objects SET relative_path = ? WHERE hash = ?]. *)
Definition repair_path (h : str) (c : Catalog) : AssetResult Catalog :=
  match asset_objects c !! h with
  | Some row => put_object_unique h (with_path (relative_object_path h) row) c
  | None => Ok c
  end.

Definition restore_row (now : Z) (row : ObjectRow) : ObjectRow :=
  mkObjectRow (row_size row) (row_mime row) (row_path row) Active None now (row_created row).

(** What opening the object file of a row yields: the directory and the inode, nothing,
    or an unsafe entry. *)
Definition open_located (h : str) : AssetM (AssetResult (option (str * Z))) :=
  locator ← find_locator h;
  match locator with
  | None => mret (Ok None)
  | Some directory =>
      opened ← attempt (open_file directory h);
      mret match opened with
           | Ok (Some inode) => Ok (Some (directory, inode))
           | Ok None => Ok None
           | Err e => Err e
           end
  end.

Definition reconcile_object (now : Z) (found : list ReconcileFinding) (object : AssetObject) :
  AssetM (list ReconcileFinding) :=
  let h := object_hash object in
  let finding kind := mkFinding (Some h) kind in
  _ ← check_cancelled;
  found ← (if negb (str_eqb (relative_path object) (relative_object_path h))
           then _ ← execute (repair_path h); mret (found ++ [finding MetadataPathRepaired])
           else mret found);
  opened ← open_located h;
  match opened with
  | Ok None =>
      if negb (bool_decide (object_state object = Missing))
      then _ ← execute (fun c => Ok (update_object h (with_state Missing None) c));
           mret (found ++ [finding FoundMissing])
      else mret found
  | Err UnsafeFilesystem => mret (found ++ [finding FoundUnsafeEntry])
  | Err e => fail e
  | Ok (Some (directory, inode)) =>
      actual ← hash_open_file inode;
      if negb (matches_expectation actual h (object_size object))
      then _ ← quarantine_file directory h (relative_object_path h) (Some h) "catalog hash or size mismatch" now;
           mret (found ++ [finding FoundCorrupt])
      else
        _ ← execute (fun c => Ok (update_object h (restore_row now) c));
        mret (if bool_decide (object_state object = Active) then found else found ++ [finding FoundRestored])
  end.

Definition reconcile_catalog_page (after : option str) (limit : Z) : AssetM ReconcilePage :=
  _ ← lift (validate_page_size limit);
  _ ← mutation_guard;
  page ← list_objects after (Z.min (saturating_add U16_MAX limit 1) MAX_PAGE_SIZE);
  let has_more := (len (page_objects page) >? limit) || is_some (page_cursor page) in
  let objects := take (Z.to_nat limit) (page_objects page) in
  now ← now_ms;
  _ ← connection;
  found ← forM_faulty (reconcile_object now) [] objects;
  mret (mkReconcilePage (len objects) found
          (if has_more then object_hash <$> head (rev objects) else None)).

(** ** Mark and sweep *)

Record MarkSweepPage : Type := mkMarkSweepPage { swept : list str; sweep_cursor : option str }.

(** An object old enough that nothing refers to. *)
Definition is_orphan (before : Z) (c : Catalog) (h : str) : bool :=
  match asset_objects c !! h with
  | Some row => (row_created row <=? before) && negb (has_reference h c)
  | None => false
  end.

(** [open_file] followed by [remove_file] and a sync. *)
Definition remove_opened (directory name : str) : AssetM unit :=
  opened ← open_file directory name;
  match opened with
  | None => mret tt
  | Some _ => _ ← remove_existing directory name; sync
  end.

Definition sweep_one (before : Z) (removed : list str) (h : str) : AssetM (list str) :=
  _ ← check_cancelled;
  c ← query id;
  if negb (is_orphan before c h) then _ ← commit c; mret removed
  else
    locator ← find_locator h;
    _ ← match locator with Some directory => remove_opened directory h | None => mret tt end;
    _ ← effect;
    _ ← commit (delete_orphan h c).1;
    mret (removed ++ [h]).

Definition mark_sweep_page (after : option str) (limit before : Z) : AssetM MarkSweepPage :=
  _ ← lift (validate_page_size limit);
  if before <? 0 then fail (InvalidInput "orphan cutoff" "must not be negative")
  else
    _ ← mutation_guard;
    _ ← connection;
    c ← query id;
    let keys := select_keys (fun h _ => is_orphan before c h) after (limit + 1) (asset_objects c) in
    hashes ← lift (mapM_result AssetHash_parse keys);
    let '(page, cursor) := cut_page limit hashes in
    removed ← forM_faulty (sweep_one before) [] page;
    mret (mkMarkSweepPage removed cursor).

(** ** Cleanup of staging and quarantine *)

Record CleanupPage : Type := mkCleanupPage { removed_names : list str; cleanup_cursor : option str }.

Inductive InternalTable : Type := StagingTable | QuarantineTable.

Definition cleanup_names (table : InternalTable) (after : option str) (fetch before : Z) (c : Catalog) : list str :=
  match table with
  | StagingTable => select_keys (fun _ created => created <=? before) after fetch (asset_staging c)
  | QuarantineTable => select_keys (fun _ row => quarantine_created row <=? before) after fetch (asset_quarantine c)
  end.

Definition cleanup_one (table : InternalTable) (_ : unit) (name : str) : AssetM unit :=
  _ ← lift (validate_internal_name name);
  match table with
  | StagingTable =>
      opened ← open_file STAGING_DIRECTORY name;
      _ ← match opened with
          | Some _ => _ ← remove_existing STAGING_DIRECTORY name; sync
          | None => sync
          end;
      execute (fun c => Ok (delete_staging name c))
  | QuarantineTable => purge_quarantine_file name
  end.

Definition cleanup_internal (table : InternalTable) (after : option str) (limit before : Z) : AssetM CleanupPage :=
  _ ← lift (validate_page_size limit);
  if before <? 0 then fail (InvalidInput "cleanup cutoff" "must not be negative")
  else
    _ ← mutation_guard;
    _ ← connection;
    names ← query (cleanup_names table after (limit + 1) before);
    let '(page, cursor) := cut_page limit names in
    _ ← forM_faulty (cleanup_one table) tt page;
    mret (mkCleanupPage page cursor).

Definition cleanup_staging_page := cleanup_internal StagingTable.
Definition purge_quarantine_page := cleanup_internal QuarantineTable.

(** ** Shard reconciliation *)

Record ShardReconciler : Type := mkShardReconciler {
  shard : str;
  shard_directory : option str;
  shard_entries : option (list str);
  shard_pending : list str;
}.

Record ShardReconcilePage : Type := mkShardPage {
  examined : Z;
  shard_findings : list ReconcileFinding;
  shard_cursor : option str;
  shard_has_more : bool;
}.

(** The names of a directory, in the order the listing yields them. *)
Definition directory_names (directory : str) (d : Disk) : list str :=
  map snd (List.filter (fun k => str_eqb k.1 directory) (map fst (map_to_list (entries d)))).

Definition begin_shard_reconciliation (name : str) : AssetM ShardReconciler :=
  _ ← lift (validate_shard name);
  first ← open_child OBJECTS_DIRECTORY (take 2 name);
  directory ← match first with Some first => open_child first (drop 2 name) | None => mret None end;
  names ← match directory with
          | Some directory => _ ← effect; names ← gets (directory_names directory); mret (Some names)
          | None => mret None
          end;
  mret (mkShardReconciler name directory names []).

Definition shard_path (name file : str) : str := child (child (child OBJECTS_DIRECTORY (take 2 name)) (drop 2 name)) file.

Definition reconcile_shard_entry (name directory entry : str) (now : Z) : AssetM (option ReconcileFinding) :=
  match utf8_decode entry with
  | None => mret (Some (mkFinding None FoundUnsafeEntry))
  | Some _ =>
      opened ← attempt (open_file directory entry);
      match opened with
      | Ok None => mret None
      | Err UnsafeFilesystem => mret (Some (mkFinding None FoundUnsafeEntry))
      | Err e => fail e
      | Ok (Some _) =>
          let h := match AssetHash_parse entry with Ok h => Some h | Err _ => None end in
          let expected := match h with Some h => starts_with h name | None => false end in
          catalogued ← match h with
                       | Some h => if expected then r ← query (get_object_row h); found ← lift r; mret (is_some found) else mret false
                       | None => mret false
                       end;
          if catalogued : bool then mret None
          else
            let reason := (if expected then "filesystem object has no catalog row"
                           else "object shard contains an invalid filename")%string in
            _ ← quarantine_file directory entry (shard_path name entry) h reason now;
            mret (Some (mkFinding h (if expected then FilesystemOrphanQuarantined else InvalidEntryQuarantined)))
      end
  end.

(** Fill [pending] up to [limit + 1] entries. *)
Fixpoint fill_pending (limit : Z) (names pending : list str) : AssetM (option (list str) * list str) :=
  if len pending <? limit + 1 then
    match names with
    | [] => mret (None, pending)
    | name :: names' => _ ← effect; fill_pending limit names' (pending ++ [name])
    end
  else mret (Some names, pending).

(** Examine up to [limit] entries: the findings, the last name, what stays pending. *)
Fixpoint examine_pending (name : str) (directory : str) (now : Z) (limit : nat) (pending : list str)
  (found : list ReconcileFinding) (count : Z) (last_name : option str) :
  AssetM (list ReconcileFinding * Z * option str * list str) :=
  match limit, pending with
  | S limit', entry :: pending' =>
      _ ← check_cancelled;
      finding ← reconcile_shard_entry name directory entry now;
      examine_pending name directory now limit' pending'
        (match finding with Some f => found ++ [f] | None => found end) (count + 1) (Some (from_utf8_lossy entry))
  | _, _ => mret (found, count, last_name, pending)
  end.

Definition next_page (self : ShardReconciler) (limit : Z) : AssetM (ShardReconciler * ShardReconcilePage) :=
  _ ← lift (validate_page_size limit);
  _ ← mutation_guard;
  '(names, pending) ← match shard_entries self with
                      | Some names => fill_pending limit names (shard_pending self)
                      | None => mret (None, shard_pending self)
                      end;
  _ ← connection;
  now ← now_ms;
  '(found, count, last_name, pending) ←
    examine_pending (shard self) (default [] (shard_directory self)) now (Z.to_nat limit) pending [] 0 None;
  let has_more := negb (is_empty pending) || is_some names in
  mret (mkShardReconciler (shard self) (shard_directory self) names pending,
        mkShardPage count found (if has_more then last_name else None) has_more).

(** ** Opening the store *)

(** [migrate_v2_to_v3]: legacy export pins have no lease and go. *)
Definition migrate_v2_to_v3 (c : Catalog) : Catalog :=
  set_backup_sessions ∅ (delete_refs_where (fun o => str_eqb (owner_type o) BACKUP_OWNER_TYPE) c).

(** [migrate_v3_to_v4]: import references get an expired lease. *)
Definition migrate_v3_to_v4 (c : Catalog) : Catalog :=
  set_temporary_sessions
    (list_to_map
       (map (fun k => (k.1, mkLease 0 0))
          (List.filter (fun k => str_eqb (owner_type k.1) IMPORT_TEMPORARY_OWNER_TYPE)
             (map fst (map_to_list (asset_refs c)))))) c.

(** One migration and the version it sets, in one transaction. *)
Definition migrate (f : Catalog -> Catalog) (version : Z) : AssetM unit :=
  _ ← effect;
  modify (fun d => set_version version (set_catalog (f (catalog d)) d)).

Definition verify_schema : AssetM unit := effect.

Definition verify_totals : AssetM unit :=
  r ← query verify_derived_totals;
  _ ← lift r;
  mret tt.

Definition initialize : AssetM unit :=
  _ ← connection;
  version ← gets user_version;
  _ ← (if version =? 0 then
         _ ← migrate (fun _ => empty_catalog) 1;
         _ ← migrate (set_intents ∅) 2;
         _ ← migrate migrate_v2_to_v3 3;
         migrate migrate_v3_to_v4 4
       else if version =? 1 then
         _ ← verify_schema;
         _ ← verify_totals;
         _ ← migrate (set_intents ∅) 2;
         _ ← migrate migrate_v2_to_v3 3;
         migrate migrate_v3_to_v4 4
       else if version =? 2 then
         _ ← verify_schema;
         _ ← verify_totals;
         _ ← migrate migrate_v2_to_v3 3;
         migrate migrate_v3_to_v4 4
       else if version =? 3 then
         _ ← verify_schema;
         _ ← verify_totals;
         migrate migrate_v3_to_v4 4
       else if version =? 4 then mret tt
       else fail (SchemaVersion version 4));
  _ ← verify_schema;
  verify_totals.

Definition open_store : AssetM unit :=
  _ ← effect;
  _ ← modify (fun d => set_directories ({[OBJECTS_DIRECTORY; STAGING_DIRECTORY; QUARANTINE_DIRECTORY]} ∪ directories d) d);
  _ ← sync;
  _ ← initialize;
  _ ← recover_quarantine_intents;
  _ ← cleanup_expired_backup_snapshots;
  _ ← recover_expired_temporary_owner_sessions;
  mret tt.
End maintenance.
