(* ===== verification/AssetLedger.v ===== *)
(** * Assets: the ledger at every point

    Every operation of the store keeps the quota ledger exact, the references resolved and
    the rows within the constraints of the schema, wherever it stops.  The tactic [store_step] takes a step of a computation
    with the rule of [AssetFs] for the operation at its head. *)

From stdpp Require Import gmap.
From S2P Require Import Prelude Bytes Utf8 Sorting ToolPolicy ToolApproval AssetModel AssetCatalog Faults AssetFs AssetStore AssetSessions AssetMaintenance.

Ltac store_step :=
  lazymatch goal with
  | |- wp _ _ (_ ≫= _) _ _ => apply wp_bind; store_step
  | |- wp _ _ effect _ _ => apply wp_effect
  | |- wp _ _ sync _ _ => apply wp_effect
  | |- wp _ _ connection _ _ => apply wp_effect
  | |- wp _ _ mutation_guard _ _ => apply wp_effect
  | |- wp _ _ verify_schema _ _ => apply wp_effect
  | |- wp _ _ now_ms _ _ => apply wp_now; [|intros ? ?]
  | |- wp _ _ check_cancelled _ _ => apply wp_check_cancelled
  | |- wp _ _ (query _) _ _ => apply wp_query
  | |- wp _ _ (commit _) _ _ => apply wp_commit
  | |- wp _ _ (execute _) _ _ => apply wp_execute; [|intros ? ?]
  | |- wp _ _ (execute_count _) _ _ => apply wp_execute_count
  | |- wp _ _ (open_child _ _) _ _ => apply wp_open_child; [|intros ?|intros ?]
  | |- wp _ _ (open_or_create_child _ _) _ _ => apply wp_open_or_create_child; [|intros ?|cbn zeta; split]
  | |- wp _ _ (open_file _ _) _ _ => apply wp_open_file; [|intros ?|intros ? ?]
  | |- wp _ _ (open_existing _ _) _ _ => apply wp_open_existing; [|intros ? ?]
  | |- wp _ _ (file_exists _ _) _ _ => apply wp_file_exists; [|intros ?|intros ? ?]
  | |- wp _ _ (same_file_as _ _ _ _) _ _ => apply wp_same_file_as; [|intros ? ? ? ?]
  | |- wp _ _ (create_new_file _ _) _ _ => apply wp_create_new_file; [|intros ?|intros ?]
  | |- wp _ _ (hard_link_to _ _ _ _) _ _ => apply wp_hard_link_to; [|intros ?|intros ? ? ?; cbn zeta; split]
  | |- wp _ _ (remove_file _ _) _ _ => apply wp_remove_file; [|intros ?|intros ?]
  | |- wp _ _ (remove_existing _ _) _ _ => apply wp_remove_existing; [|intros ?]
  | |- wp _ _ (move_file_no_replace _ _ _ _) _ _ => apply wp_move_file; [|intros ? ? ?; cbn zeta; split_and!]
  | |- wp _ _ (hash_open_file _) _ _ => apply wp_hash_open_file
  | |- wp _ _ (match ?x with _ => _ end) _ _ => destruct x eqn:?
  | |- _ => wp_step
  end.

(** Run a computation whose file operations do not matter for the invariant. *)
Ltac store_run := intros; repeat (first [assumption | progress store_step]; intros).

Lemma wp_find_locator `{AssetSystem} X I h (Q : option str -> Disk -> Prop) d :
  (faulty \/ one_component (first_shard h) = false \/ one_component (second_shard h) = false -> I d) ->
  (child OBJECTS_DIRECTORY (first_shard h) ∉ directories d \/ (object_place h).1 ∉ directories d -> Q None d) ->
  ((object_place h).1 ∈ directories d -> Q (Some (object_place h).1) d) ->
  wp X I (find_locator h) Q d.
Proof.
  intros HI HN HS. unfold find_locator. apply wp_bind, wp_open_child; [tauto|intros Hn; apply wp_ret; auto|]. intros Hf.
  apply wp_open_child; [tauto|auto|auto].
Qed.

(** ** Rows that pass the schema

    What the code validates or derives before it writes a row is what the constraints of
    the table ask for. *)

Lemma hash_parsed h h' : AssetHash_parse h = Ok h' -> h' = h /\ hex_text 64 h.
Proof.
  unfold AssetHash_parse. intros Hp. pass guard Hp. apply Ok_inj in Hp. subst h'. zify_bool. by split.
Qed.

(** A SHA-256 digest has 32 bytes, so that its text is a hash. *)
Lemma digest_parses `{AssetSystem} bs :
  length (sys_sha256 bs) = 32%nat -> AssetHash_parse (digest_hash bs) = Ok (digest_hash bs).
Proof.
  intros Hlen. unfold AssetHash_parse, digest_hash. rewrite hex_encode_length. unfold len at 1. rewrite Hlen. cbn [negb orb].
  change (2 * Z.of_nat 32 =? 64) with true. cbn [negb orb].
  assert (Hhex : forallb is_lower_hex (hex_encode (sys_sha256 bs)) = true); [|by rewrite Hhex].
  assert (Hd : forall n, 0 <= n < 16 -> is_lower_hex (hex_digit n) = true).
  { intros n Hn. assert (Hc : forallb (fun k => is_lower_hex (hex_digit (Z.of_nat k))) (seq 0 16) = true) by done.
    rewrite forallb_forall in Hc. specialize (Hc (Z.to_nat n)). rewrite Z2Nat.id in Hc by lia. apply Hc, in_seq. lia. }
  clear Hlen. unfold hex_encode. induction (sys_sha256 bs) as [|b rest IH]; [done|]. cbn [map concat app forallb].
  pose proof (byte_val_range b). rewrite !Hd; [done| |].
  - change 15 with (Z.ones 4). rewrite Z.land_ones by lia. apply Z.mod_pos_bound. lia.
  - rewrite Z.shiftr_div_pow2 by lia. split; [apply Z.div_pos; lia|apply Z.div_lt_upper_bound; lia].
Qed.

Lemma digest_hex `{AssetSystem} bs : length (sys_sha256 bs) = 32%nat -> hex_text 64 (digest_hash bs).
Proof. intros Hd%digest_parses. by apply hash_parsed in Hd as [_ Hd]. Qed.

Lemma session_id_hex id : validate_backup_session_id id = Ok tt -> hex_text 32 id.
Proof. unfold validate_backup_session_id. intros Hp. pass guard Hp. zify_bool. by split. Qed.

Lemma internal_name_text name : validate_internal_name name = Ok tt -> name_text name.
Proof.
  unfold validate_internal_name. intros Hp. pass guard Hp. zify_bool. split; [|done].
  destruct name; [done|]. unfold len in *. cbn [length] in *. lia.
Qed.

Lemma object_path_length path : validate_object_relative_path path = Ok tt -> 1 <= len path <= 256.
Proof.
  unfold validate_object_relative_path. intros Hp. rewrite <- (join_split_on SLASH path).
  destruct (split_on SLASH path) as [|objects [|first [|second [|name [|? ?]]]]]; try done.
  pass guard Hp as Ho. apply negb_false_iff, str_eqb_eq in Ho as ->. apply bind_Ok in Hp as ([] & Hs & Hn).
  revert Hs. unfold validate_shard. destruct (_ || _) eqn:Hf; [done|intros _].
  destruct (validate_internal_name name) as [[]|] eqn:Hi; [|done]. apply internal_name_text in Hi as [Hi _].
  zify_bool. unfold len in *. cbn [join]. rewrite !length_app in *. cbn [length]. change (length OBJECTS_DIRECTORY) with 7%nat. lia.
Qed.

(** An object that a query returns has its row and a hash for a key. *)
Lemma get_object_row_Some h c object :
  get_object_row h c = Ok (Some object) ->
  object_hash object = h /\ AssetHash_parse h = Ok h /\
  exists row, asset_objects c !! h = Some row /\ object_size object = row_size row.
Proof.
  unfold get_object_row, decode_object. destruct (asset_objects c !! h) as [row|]; [|done]. intros (object' & Hdec & Ho)%bind_Ok.
  apply Ok_inj in Ho. injection Ho as ->. apply bind_Ok in Hdec as (h' & Hp & Ho). apply Ok_inj in Ho. subst object.
  destruct (AssetHash_parse h) as [h1|] eqn:Hparse; [|done]. apply Ok_inj in Hp. subst h1.
  destruct (hash_parsed h h' Hparse) as [-> _]. cbn. split_and!; [done|done|by exists row].
Qed.

Lemma row_changes h row now path name :
  object_check h row -> 0 <= now ->
  object_check h (with_state Missing None row) /\ object_check h (with_state Quarantined (Some name) row) /\
  object_check h (missing_if_in name row) /\ object_check h (restore_row now row) /\ object_check h (with_path path row).
Proof.
  intros [Hh Hs Hq Hv Hc] Hnow. assert (Hm : object_check h (with_state Missing None row)).
  { split; cbn; [done|done| |done|done]. split; [done|]. by intros [? ?]. }
  split_and!; [done| | | |done].
  - split; cbn; [done|done| |done|done]. split; [by eexists|done].
  - unfold missing_if_in. by case_bool_decide.
  - split; cbn; [done|done| |done|done]. split; [done|]. by intros [? ?].
Qed.

Lemma touched_lease now l : lease_check l -> lease_check (touch_lease now l).
Proof. unfold lease_check, touch_lease. cbn. lia. Qed.

Lemma path_not_taken h path c : path_taken h path c = false -> path_free h path (asset_objects c).
Proof.
  intros Hf h' row Hrow Hp. apply not_true_iff_false in Hf. destruct (str_eqb h' h) eqn:He; [by apply str_eqb_eq|].
  exfalso. apply Hf. apply existsb_exists. exists (h', row). split.
  - apply list_elem_of_In. by apply elem_of_map_to_list.
  - cbn. rewrite He, Hp. apply str_eqb_refl.
Qed.

(** ** Transactions *)

Create HintDb catalog.
#[export] Hint Resolve delete_ref_ok delete_refs_ok delete_orphan_ok insert_staging_ok delete_staging_ok delete_quarantine_ok : catalog.
#[export] Hint Extern 1 (0 <= _) => lia : catalog.
#[export] Hint Extern 1 (original_check _) => cbn; tauto : catalog.
#[export] Hint Extern 1 (reason_check _) => by vm_compute : catalog.

Lemma mark_intent_moved_ok name c : catalog_ok c -> catalog_ok (mark_intent_moved name c).
Proof.
  intros Hc. apply set_intents_ok; [|done]. apply map_Forall_alter; [|apply Hc]. by intros i [? ? ? ? ? ?].
Qed.

Lemma delete_intent_ok name c : catalog_ok c -> catalog_ok (delete_intent name c).
Proof. intros Hc. apply set_intents_ok; [|done]. apply map_Forall_delete, Hc. Qed.

Lemma delete_session_ok owner c : catalog_ok c -> catalog_ok (delete_session owner c).
Proof. intros Hc. apply set_temporary_sessions_ok; [|done]. apply map_Forall_delete, Hc. Qed.

Lemma delete_backup_session_ok id c : catalog_ok c -> catalog_ok (delete_backup_session id c).
Proof. intros Hc. apply set_backup_sessions_ok; [|done]. apply map_Forall_delete, Hc. Qed.

Lemma touch_session_ok owner now c : catalog_ok c -> catalog_ok (touch_session owner now c).1.
Proof. intros Hc. apply set_temporary_sessions_ok; [|done]. apply map_Forall_alter; [apply touched_lease|apply Hc]. Qed.

Lemma empty_catalog_ok : catalog_ok empty_catalog.
Proof.
  split; [by vm_compute|intros o h now Hr; done|]. split; cbn; try apply map_Forall_empty.
Qed.
#[export] Hint Resolve mark_intent_moved_ok delete_intent_ok delete_session_ok delete_backup_session_ok touch_session_ok : catalog.

Lemma delete_owner_refs_ok owner c : catalog_ok c -> catalog_ok (delete_owner_refs owner c).1.
Proof. unfold delete_owner_refs. auto with catalog. Qed.

Lemma insert_refs_ok owner hashes now c c' :
  0 <= now -> catalog_ok c -> insert_refs owner hashes now c = Ok c' -> catalog_ok c'.
Proof. intros Hnow Hc. apply foldM_result_inv; [|done]. intros a h a' Ha. by apply insert_ref_ok. Qed.

Lemma put_object_unique_ok h row c c' :
  (hex_text 64 h -> object_check h row) -> catalog_ok c -> put_object_unique h row c = Ok c' -> catalog_ok c'.
Proof.
  intros Hrow Hc. unfold put_object_unique. intros Hr. pass guard Hr as Hg. apply orb_false_iff in Hg as [Hh Hp].
  apply Ok_inj in Hr. subst c'. destruct (AssetHash_parse h) as [h'|] eqn:Hparse; [|done].
  apply put_object_ok; [done| |by apply path_not_taken]. apply Hrow. by apply hash_parsed in Hparse as [_ Hparse].
Qed.

Lemma insert_intent_ok i c c' :
  intent_check (intent_name i) i -> catalog_ok c -> insert_intent i c = Ok c' -> catalog_ok c'.
Proof.
  intros Hi Hc. unfold insert_intent. case_match; [done|]. intros [= <-]. apply set_intents_ok; [|done].
  apply map_Forall_insert_2; [done|apply Hc].
Qed.

Lemma finalize_move_ok i c : intent_check (intent_name i) i -> catalog_ok c -> catalog_ok (finalize_move i c).
Proof.
  intros Hi Hc. unfold finalize_move. apply delete_intent_ok.
  assert (Hq : catalog_ok (put_quarantine (intent_name i) (mkQuarantineRow (intent_hash i) (intent_reason i) (intent_created i)) c)).
  { apply put_quarantine_ok; [|done]. by destruct Hi. }
  destruct (intent_hash i); [|done]. apply update_object_ok; [|done|done]. intros row Hrow. by apply (row_changes _ row 0 []).
Qed.

Lemma finalize_purge_ok name c : catalog_ok c -> catalog_ok (finalize_purge name c).
Proof.
  intros Hc. unfold finalize_purge. apply delete_intent_ok, delete_quarantine_ok.
  induction (map fst (map_to_list (asset_objects c))) as [|h hs IH]; cbn [foldr]; [done|]. apply update_object_ok; [| |done].
  - intros row Hrow. by apply (row_changes _ row 0 []).
  - intros row. unfold missing_if_in. by case_bool_decide.
Qed.

Lemma ingest_rows_ok h size mime now owner c c' :
  0 <= size -> 0 <= now -> catalog_ok c -> ingest_rows h size mime now owner c = Ok c' -> catalog_ok c'.
Proof.
  intros Hsize Hnow Hc. unfold ingest_rows. intros (s & Hs & Hr)%bind_Ok. apply bind_Ok in Hr as (c1 & H1 & Hr).
  assert (s = size) as -> by (unfold encode_size in Hs; destruct (_ <=? _); congruence).
  apply put_object_unique_ok in H1; [|intros Hh|done].
  - destruct owner; [by eapply insert_ref_ok|congruence].
  - split; cbn; [done|done| |done|].
    + split; [done|]. by intros [? ?].
    + destruct (asset_objects c !! h) as [row|] eqn:Hrow; [|done]. by apply (rows_objects c (ok_rows c Hc)) in Hrow as [].
Qed.

Lemma add_refs_ok now refs c c' :
  0 <= now -> catalog_ok c -> foldM_result (add_ref now) c refs = Ok c' -> catalog_ok c'.
Proof.
  intros Hnow Hc. apply foldM_result_inv; [|done]. intros a r a' Ha. unfold add_ref. intros (_ & _ & Hr)%bind_Ok.
  repeat case_match; simplify_eq; try done. by eapply insert_ref_ok.
Qed.

Lemma remove_refs_ok refs c c' n : catalog_ok c -> foldM_result remove_ref (c, 0) refs = Ok (c', n) -> catalog_ok c'.
Proof.
  intros Hc Hf. cut (catalog_ok (c', n).1); [done|]. revert Hf.
  apply (foldM_result_inv (fun acc => catalog_ok acc.1)); [|done].
  intros [a k] r a' Ha. unfold remove_ref. intros (_ & _ & Hr)%bind_Ok.
  pose proof (delete_ref_ok (ref_owner r) (ref_hash r) a Ha). destruct (delete_ref _ _ a). by simplify_eq.
Qed.

Lemma rollback_rows_ok owner h orphan c : catalog_ok c -> catalog_ok (rollback_rows owner h orphan c).1.
Proof.
  intros Hc. unfold rollback_rows. pose proof (delete_ref_ok owner h c Hc) as H1. destruct (delete_ref owner h c).
  destruct orphan; [by apply delete_orphan_ok|done].
Qed.

Lemma release_session_ok id c : catalog_ok c -> catalog_ok (release_session id c).1.
Proof.
  intros Hc. unfold release_session. pose proof (delete_owner_refs_ok (backup_owner id) c Hc) as H1.
  destruct (delete_owner_refs _ c). cbn. auto with catalog.
Qed.

Lemma cleanup_stale_ok before limit c c' r :
  catalog_ok c -> cleanup_stale_backup_sessions_in_transaction before limit c = Ok (c', r) -> catalog_ok c'.
Proof.
  intros Hc. unfold cleanup_stale_backup_sessions_in_transaction. intros ([c1 n] & Hf & Hr)%bind_Ok. simplify_eq/=.
  cut (catalog_ok (c', n).1); [done|]. revert Hf. apply (foldM_result_inv (fun acc => catalog_ok acc.1)); [|done].
  intros [a k] id a' Ha. unfold release_stale. pose proof (release_session_ok id a Ha). destruct (release_session id a).
  intros (pins & _ & Hr)%bind_Ok. by simplify_eq.
Qed.

Lemma open_backup_session_ok id now c c' :
  hex_text 32 id -> 0 <= now -> catalog_ok c -> open_backup_session id now c = Ok c' -> catalog_ok c'.
Proof.
  intros Hid Hnow Hc. unfold open_backup_session. intros ([c1 r] & H1 & Hr)%bind_Ok. apply cleanup_stale_ok in H1; [|done].
  apply bind_Ok in Hr as (c2 & H2 & Hr). unfold pin_active in Hr. eapply insert_refs_ok; [done| |exact Hr].
  destruct (asset_backup_sessions c1 !! id).
  - apply Ok_inj in H2. subst c2. apply delete_owner_refs_ok, set_backup_sessions_ok; [|done].
    apply map_Forall_alter; [|apply H1]. intros lease [Hh Hl]. split; [done|by apply touched_lease].
  - pass guard H2. apply Ok_inj in H2. subst c2. apply set_backup_sessions_ok; [|done].
    apply map_Forall_insert_2; [|apply H1]. split; [done|]. unfold lease_check. cbn. lia.
Qed.

Lemma promote_refs_ok temporary final expected now c c' n :
  0 <= now -> catalog_ok c -> promote_refs temporary final expected now c = Ok (c', n) -> catalog_ok c'.
Proof.
  intros Hnow Hc. unfold promote_refs. intros (c1 & H1 & Hr)%bind_Ok. apply insert_refs_ok in H1; [|done|done].
  pose proof (delete_owner_refs_ok temporary c1 H1). destruct (delete_owner_refs temporary c1).
  pass guard Hr. pass guard Hr. simplify_eq. auto with catalog.
Qed.

Lemma delete_refs_where_ok p c : catalog_ok c -> catalog_ok (delete_refs_where p c).
Proof.
  intros Hc. unfold delete_refs_where. induction (map fst (map_to_list (asset_refs c))) as [|k ks IH]; cbn [foldr]; [done|].
  destruct (p k.1); auto with catalog.
Qed.

Lemma missing_row_ok h c : catalog_ok c -> catalog_ok (update_object h (with_state Missing None) c).
Proof. apply update_object_ok; [|done]. intros row Hrow. by apply (row_changes h row 0 [] []). Qed.

Lemma restored_row_ok h now c : 0 <= now -> catalog_ok c -> catalog_ok (update_object h (restore_row now) c).
Proof. intros Hnow. apply update_object_ok; [|done]. intros row Hrow. by apply (row_changes h row now [] []). Qed.

#[export] Hint Resolve empty_catalog_ok delete_owner_refs_ok missing_row_ok restored_row_ok finalize_move_ok finalize_purge_ok rollback_rows_ok
  release_session_ok delete_refs_where_ok : catalog.

(** The tables that the migrations add. *)
Lemma migrations_ok c :
  catalog_ok c -> catalog_ok (set_intents ∅ c) /\ catalog_ok (migrate_v2_to_v3 c) /\ catalog_ok (migrate_v3_to_v4 c).
Proof.
  intros Hc. split_and!.
  - apply set_intents_ok; [apply map_Forall_empty|done].
  - apply set_backup_sessions_ok; [apply map_Forall_empty|auto with catalog].
  - apply set_temporary_sessions_ok; [|done]. intros o lease Hl. apply elem_of_list_to_map_2, list_elem_of_In, in_map_iff in Hl.
    destruct Hl as (k & [= _ <-] & _). by vm_compute.
Qed.

(** The catalog is the result of a transaction that may reject it. *)
Ltac catalog_from_result :=
  match goal with
  | E : insert_refs _ _ _ _ = Ok ?c |- catalog_ok ?c => eapply insert_refs_ok; [| |exact E]; [lia|]
  | E : insert_intent _ _ = Ok ?c |- catalog_ok ?c => eapply insert_intent_ok; [| |exact E]; [assumption|]
  | E : foldM_result (add_ref _) _ _ = Ok ?c |- catalog_ok ?c => eapply add_refs_ok; [| |exact E]; [lia|]
  | E : foldM_result remove_ref _ _ = Ok (?c, _) |- catalog_ok ?c => eapply remove_refs_ok; [|exact E]
  | E : cleanup_stale_backup_sessions_in_transaction _ _ _ = Ok (?c, _) |- catalog_ok ?c =>
      eapply cleanup_stale_ok; [|exact E]
  | E : open_backup_session _ _ _ = Ok ?c |- catalog_ok ?c => eapply open_backup_session_ok; [| | |exact E]; [assumption|lia|]
  | E : promote_refs _ _ _ _ _ = Ok (?c, _) |- catalog_ok ?c => eapply promote_refs_ok; [| |exact E]; [lia|]
  | E : _ = (?c, ?n) |- catalog_ok ?c => change (catalog_ok (c, n).1); rewrite <- E; clear E
  end.

(** ** Operations *)

Section ledger.
Context `{AssetSystem}.
Hypothesis Hsha : forall bs, length (sys_sha256 bs) = 32%nat.

Let I (d : Disk) : Prop := catalog_ok (catalog d).

Ltac ok :=
  unfold I in *;
  repeat match goal with E : Ok _ = Ok _ |- _ => apply Ok_inj in E; subst end;
  cbn [catalog set_catalog set_entries set_directories set_snapshots set_version append_contents create_entry fst id];
  repeat catalog_from_result; auto 4 with catalog.

(** Go on after a computation that keeps [I]. *)
Ltac after lem := eapply wp_post; [apply lem; ok|]; cbn beta.

Ltac run :=
  intros;
  repeat (first [assumption | lazymatch goal with |- I _ => solve [ok] | |- wp _ _ _ _ _ => progress store_step | |- _ => solve [ok] end];
          intros).

Lemma find_locator_ok h : keeps I (find_locator h).
Proof. intros d Hd. unfold find_locator. store_run. Qed.
Lemma ensure_object_parent_ok h : keeps I (ensure_object_parent h).
Proof. intros d Hd. unfold ensure_object_parent. store_run. Qed.
Lemma resolve_ok path : keeps I (resolve_object_relative_path path).
Proof. intros d Hd. unfold resolve_object_relative_path. store_run. Qed.

Lemma complete_move_ok intent source :
  intent_check (intent_name intent) intent -> keeps I (complete_quarantine_move intent source).
Proof. intros Hi d Hd. unfold complete_quarantine_move. run. Qed.

Lemma quarantine_file_ok dir name path original reason now :
  original_check original -> reason_check reason -> 0 <= now ->
  keeps I (quarantine_file dir name path original reason now).
Proof.
  intros Ho Hr Hnow d Hd. unfold quarantine_file. store_step; [done|]. store_step.
  apply wp_bind, wp_lift; [intros [] Htarget%internal_name_text|done]. apply wp_bind, wp_lift; [intros [] Hpath%object_path_length|done].
  set (intent := mkIntent _ Move Prepared (Some path) original reason now).
  assert (Hi : intent_check (intent_name intent) intent) by (split; done). clearbody intent. run. after complete_move_ok. run.
Qed.

Lemma complete_purge_ok intent : keeps I (complete_quarantine_purge intent).
Proof. intros d Hd. unfold complete_quarantine_purge. run. Qed.

Lemma purge_file_ok name : name_text name -> keeps I (purge_quarantine_file name).
Proof.
  intros Hname d Hd. unfold purge_quarantine_file. store_step; [done|]. store_step; [done|].
  destruct (asset_quarantine (catalog d) !! name) as [row|] eqn:Hrow; [|by store_step].
  apply (rows_quarantine _ (ok_rows _ Hd)) in Hrow as [Hh Hr Hc]. apply wp_bind.
  eapply (wp_post _ _ _ (fun original d' => I d' /\ original_check original)).
  - destruct (original_hash row) as [h|]; [|by store_step]. apply wp_bind, wp_lift; [|done].
    intros h' [-> Hhex]%hash_parsed. by store_step.
  - intros original d1 [Hd1 Ho].
    set (i := mkIntent name Purge Prepared None original (quarantine_reason row) (quarantine_created row)).
    assert (Hi : intent_check (intent_name i) i) by (split; done). clearbody i. run. apply complete_purge_ok. ok.
Qed.

Lemma decoded_intent i i' : decode_quarantine_intent i = Ok i' -> i' = i.
Proof.
  unfold decode_quarantine_intent. intros (_ & _ & Hr)%bind_Ok. apply bind_Ok in Hr as (_ & _ & Hr).
  apply bind_Ok in Hr as (_ & _ & Hr). apply bind_Ok in Hr as (_ & _ & Hr). by apply Ok_inj in Hr.
Qed.

Lemma recover_intents_ok : keeps I recover_quarantine_intents.
Proof.
  intros d Hd. unfold recover_quarantine_intents. store_step; [done|]. store_step; [done|]. apply wp_bind, wp_lift; [|done].
  intros intents Hdec%mapM_result_Ok. apply (Forall2_Forall_r _ (fun i => intent_check (intent_name i) i)) in Hdec.
  - apply (wp_forM _ _ _ (fun _ => I)); [|done]. intros ? i d' Hin Hd'. rewrite List.Forall_forall in Hdec. apply list_elem_of_In, Hdec in Hin as Hi.
    unfold recover_intent. run; [after resolve_ok; run; by apply complete_move_ok|by apply complete_purge_ok].
  - apply List.Forall_forall. intros i Hin%list_elem_of_In i' ->%decoded_intent. rewrite sort_by_perm, list_elem_of_In, in_map_iff in Hin.
    destruct Hin as ([name i1] & <- & Hin). apply list_elem_of_In, elem_of_map_to_list, (rows_intents _ (ok_rows _ Hd)) in Hin.
    cbn. by rewrite (ic_key _ _ Hin).
Qed.

Lemma allocate_staging_ok : keeps I allocate_staging.
Proof.
  intros d Hd. unfold allocate_staging. store_step; [done|]. generalize 8%nat. intros n. revert d Hd.
  induction n as [|n IH]; intros d Hd; cbn [allocate_staging_loop]; run; apply IH; ok.
Qed.

Lemma copy_ok reads inode copied d :
  0 <= copied_size copied -> I d ->
  wp I I (copy_and_hash reads inode copied) (fun copied' d' => I d' /\ 0 <= copied_size copied') d.
Proof.
  revert copied d. induction reads as [|[chunk|] reads IH]; intros copied d Hc Hd; cbn [copy_and_hash]; unfold finish_copy.
  - run.
  - store_step; [done|]. destruct (is_empty chunk); [run|]. apply wp_bind, wp_lift; [|done].
    intros size Hsize%add_read_Ok. run. apply IH; [|ok]. cbn. pose proof (len_nonneg chunk). lia.
  - run.
Qed.

Lemma prepare_ok dir h size now : hex_text 64 h -> 0 <= now -> keeps I (prepare_destination dir h size now).
Proof. intros Hh Hnow d Hd. unfold prepare_destination. run. after quarantine_file_ok. run. Qed.

Lemma publish_ok name dir h size : keeps I (publish_or_deduplicate name dir h size).
Proof. intros d Hd. unfold publish_or_deduplicate. run. Qed.

Lemma destination_ok dir h size : keeps I (destination_matches_expectation dir h size).
Proof. intros d Hd. unfold destination_matches_expectation. run. Qed.

Lemma ingest_staged_ok reads request name inode : keeps I (ingest_staged reads request name inode).
Proof.
  intros d Hd. unfold ingest_staged, get_object. store_step. eapply wp_post; [by apply copy_ok|].
  intros copied d0 [Hd0 Hsize]. pose proof (digest_hex (copied_data copied) (Hsha _)) as Hhex. run. after ensure_object_parent_ok. run.
  after prepare_ok. intros dedup d1 Hd1. store_step; [done|]. store_step; [done|].
  assert (Hc : catalog_ok (id (catalog d1))) by done. revert Hc. generalize (id (catalog d1)). intros c Hc.
  store_step; [|done].
  apply wp_bind. eapply (wp_post _ _ _ (fun _ => I)); [destruct dedup; [by apply destination_ok|by wp_step]|].
  intros still d2 Hd2. apply wp_bind.
  eapply (wp_post _ _ _ (fun _ => I)); [destruct still; [by wp_step|by apply publish_ok]|]. intros shared d3 Hd3.
  store_step; [done|]. apply wp_bind, wp_lift; [|done]. intros rows Hrows%ingest_rows_ok; [|done|lia|done].
  clear -Hrows Hd3. run.
Qed.

Lemma cleanup_staged_ok name : keeps I (cleanup_staged_file name).
Proof. intros d Hd. unfold cleanup_staged_file, remove_staging_record. run. Qed.

Lemma ingest_ok reads request : keeps I (ingest reads request).
Proof.
  intros d Hd. unfold ingest. run. after allocate_staging_ok. intros [name inode] d1 Hd1. store_step.
  eapply wp_mono; [done| | |by apply ingest_staged_ok].
  - intros d2 Hd2 e. store_step. eapply wp_mono; [done| | |by apply cleanup_staged_ok]; run.
  - intros outcome d2 Hd2. store_step. eapply wp_mono; [done| | |by apply cleanup_staged_ok]; run.
Qed.

Lemma references_ok refs owner : keeps I (add_refs refs) /\ keeps I (remove_refs refs) /\ keeps I (remove_owner_refs owner).
Proof.
  split_and!; intros d Hd; unfold add_refs, remove_refs, remove_owner_refs; run.
Qed.

Lemma temporary_sessions_ok owner :
  keeps I (begin_temporary_owner_session owner) /\ keeps I (renew_temporary_owner_session owner) /\
    keeps I (finish_empty_temporary_owner_session owner).
Proof.
  split_and!; intros d Hd.
  - unfold begin_temporary_owner_session, begin_session. run. case_match; simplify_eq.
    unfold I. cbn. apply set_temporary_sessions_ok; [|done]. apply map_Forall_insert_2; [|apply Hd]. unfold lease_check. cbn. lia.
  - unfold renew_temporary_owner_session. run.
  - unfold finish_empty_temporary_owner_session, finish_empty. run.
    repeat case_match; simplify_eq. run.
Qed.

Lemma promotion_ok temporary final expected : keeps I (commit_temporary_owner_refs temporary final expected).
Proof. intros d Hd. unfold commit_temporary_owner_refs. run. Qed.

Lemma unlink_object_ok h : keeps I (unlink_object h).
Proof. intros d Hd. unfold unlink_object. run. after find_locator_ok. run. Qed.

Lemma rollback_one_ok owner h : keeps I (rollback_one owner h).
Proof.
  intros d Hd. unfold rollback_one. run; after unlink_object_ok; run.
Qed.

Lemma rollback_loop_ok fuel owner removed : keeps I (rollback_loop fuel owner removed).
Proof.
  revert removed. induction fuel as [|fuel IH]; intros removed d Hd; cbn [rollback_loop]; run; try done.
  after rollback_one_ok. intros. by apply IH.
Qed.

Lemma rollback_locked_ok owner : keeps I (rollback_temporary_owner_locked owner).
Proof. intros d Hd. unfold rollback_temporary_owner_locked. run. after rollback_loop_ok. run. Qed.

Lemma rollback_ok owner : keeps I (rollback_temporary_owner owner).
Proof. intros d Hd. unfold rollback_temporary_owner. run. by apply rollback_locked_ok. Qed.

Lemma recover_loop_ok fuel kind before removed : keeps I (recover_loop fuel kind before removed).
Proof.
  revert removed. induction fuel as [|fuel IH]; intros removed d Hd; cbn [recover_loop]; unfold claim_session; run;
    try done.
  all: try (repeat case_match; simplify_eq).
  all: try by apply IH.
  all: run; after rollback_locked_ok; intros; by apply IH.
Qed.

Lemma recover_before_ok kind before : keeps I (recover_temporary_owner_type_before kind before).
Proof. intros d Hd. unfold recover_temporary_owner_type_before. run. by apply recover_loop_ok. Qed.

Lemma recover_ok kind : keeps I (recover_temporary_owner_type kind) /\ keeps I recover_expired_temporary_owner_sessions.
Proof.
  split; intros d Hd.
  - unfold recover_temporary_owner_type. run. by apply recover_before_ok.
  - unfold recover_expired_temporary_owner_sessions. run. apply wp_forM; [|done]. intros. store_step. after recover_before_ok. run.
Qed.

Lemma copy_pages_ok rounds : keeps I (copy_pages rounds).
Proof. induction rounds as [|b rounds IH]; intros d Hd; cbn [copy_pages]; run. by apply IH. Qed.

Lemma write_snapshot_ok target rounds : keeps I (write_snapshot target rounds).
Proof. intros d Hd. unfold write_snapshot. run. after copy_pages_ok. run. Qed.

Lemma abandon_ok id : keeps I (abandon_backup_snapshot_on_connection id).
Proof. intros d Hd. unfold abandon_backup_snapshot_on_connection. run. Qed.

Lemma begin_backup_ok id target rounds : keeps I (begin_backup_snapshot id target rounds).
Proof.
  intros d Hd. unfold begin_backup_snapshot. apply wp_bind, wp_lift; [intros [] Hid%session_id_hex|done]. run. eapply wp_mono; [done| | |apply write_snapshot_ok; ok].
  - intros d1 Hd1 e. run; (after abandon_ok; run).
  - run.
Qed.

Lemma backup_ok id before limit :
  keeps I (renew_backup_snapshot id) /\ keeps I (abandon_backup_snapshot id) /\
    keeps I (cleanup_stale_backup_snapshots before limit) /\ keeps I cleanup_expired_backup_snapshots.
Proof.
  assert (Hs : forall before limit, keeps I (cleanup_stale_backup_snapshots before limit)).
  { intros b l d Hd. unfold cleanup_stale_backup_snapshots. run. }
  split_and!; [| |done|]; intros d Hd.
  - unfold renew_backup_snapshot. apply wp_bind, wp_lift; [intros [] Hid%session_id_hex|done]. run.
    unfold I. cbn. apply set_backup_sessions_ok; [|done]. apply map_Forall_insert_2; [|apply Hd]. split; [done|].
    apply touched_lease. by apply (rows_backups _ (ok_rows _ Hd) id).
  - unfold abandon_backup_snapshot. run. by apply abandon_ok.
  - unfold cleanup_expired_backup_snapshots. run. by apply Hs.
Qed.

Lemma open_located_ok h : keeps I (open_located h).
Proof. intros d Hd. unfold open_located. run. after find_locator_ok. run. Qed.

Lemma repair_path_ok h c c' : catalog_ok c -> repair_path h c = Ok c' -> catalog_ok c'.
Proof.
  intros Hc. unfold repair_path. destruct (asset_objects c !! h) as [row|] eqn:Hrow; [|congruence].
  apply put_object_unique_ok; [|done]. intros _. apply (rows_objects _ (ok_rows _ Hc)) in Hrow. by apply (row_changes h row 0 _ []).
Qed.

Lemma reconcile_object_ok now found object :
  hex_text 64 (object_hash object) -> 0 <= now -> keeps I (reconcile_object now found object).
Proof.
  intros Hh Hnow d Hd. unfold reconcile_object. store_step; [done|]. apply wp_bind.
  eapply (wp_post _ _ _ (fun _ => I)); [run; by eapply repair_path_ok|].
  intros found' d1 Hd1. store_step. after open_located_ok. run; (after quarantine_file_ok; run).
Qed.

Lemma list_objects_ok after limit d :
  I d -> wp I I (list_objects after limit) (fun page d' => I d' /\ Forall (fun o => hex_text 64 (object_hash o)) (page_objects page)) d.
Proof.
  intros Hd. unfold list_objects. apply wp_bind, wp_lift; [|done]. intros _ _. store_step; [done|].
  apply wp_bind, wp_query; [done|]. unfold id. apply wp_bind, wp_lift; [|done]. intros rows Hrows%mapM_result_Ok. store_step.
  split; [done|]. apply Forall_take. clear -Hrows.
  induction Hrows as [|k row ks rows Hk _ IH]; cbn; [constructor|]. destruct row as [object|]; [|done].
  constructor; [|done]. apply get_object_row_Some in Hk as (-> & [_ Hhex]%hash_parsed & _). done.
Qed.

Lemma reconcile_page_ok cursor limit : keeps I (reconcile_catalog_page cursor limit).
Proof.
  intros d Hd. unfold reconcile_catalog_page. run. eapply wp_post; [by apply list_objects_ok|]. intros page d1 [Hd1 Hpage]. run.
  eapply (wp_post _ _ _ (fun _ => I)); [apply wp_forM; [|done]|by intros; store_step].
  intros found object d2 Hin Hd2. apply reconcile_object_ok; [|lia|done].
  apply (Forall_take _ (Z.to_nat limit)) in Hpage. rewrite List.Forall_forall in Hpage. by apply Hpage, list_elem_of_In.
Qed.

Lemma sweep_one_ok before removed h : keeps I (sweep_one before removed h).
Proof. intros d Hd. unfold sweep_one, remove_opened. run. after find_locator_ok. run. Qed.

Lemma mark_sweep_ok cursor limit before : keeps I (mark_sweep_page cursor limit before).
Proof.
  intros d Hd. unfold mark_sweep_page. run.
  eapply wp_post; [apply keeps_forM; [apply sweep_one_ok|done]|]. run.
Qed.

Lemma cleanup_internal_ok table cursor limit before : keeps I (cleanup_internal table cursor limit before).
Proof.
  intros d Hd. unfold cleanup_internal. run. eapply wp_post; [apply keeps_forM; [|done]|run].
  intros u name d' Hd'. unfold cleanup_one. apply wp_bind, wp_lift; [intros [] Hname%internal_name_text|done].
  run. by apply purge_file_ok.
Qed.

Lemma shard_entry_ok name directory entry now : 0 <= now -> keeps I (reconcile_shard_entry name directory entry now).
Proof.
  intros Hnow d Hd. unfold reconcile_shard_entry. destruct (AssetHash_parse entry) as [h|] eqn:Hp.
  - apply hash_parsed in Hp as [-> Hhex]. run; destruct (starts_with entry name); after quarantine_file_ok; run.
  - run; (after quarantine_file_ok; run).
Qed.

Lemma fill_pending_ok limit names pending : keeps I (fill_pending limit names pending).
Proof.
  revert pending. induction names as [|name names IH]; intros pending d Hd; cbn [fill_pending]; run. by apply IH.
Qed.

Lemma examine_ok name directory now limit pending found count last :
  0 <= now -> keeps I (examine_pending name directory now limit pending found count last).
Proof.
  intros Hnow. revert pending found count last. induction limit as [|limit IH]; intros [|e pending] found count last d Hd;
    cbn [examine_pending]; run. after shard_entry_ok. intros. by apply IH.
Qed.

Lemma next_page_ok self limit : keeps I (next_page self limit).
Proof.
  intros d Hd. unfold next_page. store_step; [|done]. store_step; [done|]. apply wp_bind.
  eapply (wp_post _ _ _ (fun _ => I)); [destruct (shard_entries self); [by apply fill_pending_ok|by wp_step]|].
  intros [names pending] d1 Hd1. run. after examine_ok. intros [[[f n] l] p] d2 Hd2. by store_step.
Qed.

Lemma migrate_ok f version : (forall c, catalog_ok c -> catalog_ok (f c)) -> keeps I (migrate f version).
Proof. intros Hf d Hd. unfold migrate. run. Qed.

Lemma verify_totals_ok : keeps I verify_totals.
Proof. intros d Hd. unfold verify_totals. run. Qed.

Lemma initialize_ok : keeps I initialize.
Proof.
  assert (H1 : keeps I (migrate (fun _ => empty_catalog) 1)) by (apply migrate_ok; auto with catalog).
  assert (H2 : keeps I (migrate (set_intents ∅) 2)) by (apply migrate_ok; apply migrations_ok).
  assert (H3 : keeps I (migrate migrate_v2_to_v3 3)) by (apply migrate_ok; apply migrations_ok).
  assert (H4 : keeps I (migrate migrate_v3_to_v4 4)) by (apply migrate_ok; apply migrations_ok).
  assert (Hv : keeps I verify_schema) by (intros d Hd; run).
  pose proof verify_totals_ok. intros d Hd. unfold initialize. run.
  all: repeat lazymatch goal with
       | |- wp _ _ (_ ≫= _) _ _ => apply wp_bind
       | |- wp _ _ (mret _) _ _ => apply wp_ret
       | |- wp _ _ (fail _) _ _ => by apply wp_fail
       | |- wp _ _ _ _ _ => eapply wp_post; [first [by apply H1|by apply H2|by apply H3|by apply H4|by apply Hv|by apply H0]|]; intros
       | |- _ => done
       end.
Qed.

Lemma open_store_ok : keeps I open_store.
Proof.
  intros d Hd. unfold open_store. run. after initialize_ok. run. after recover_intents_ok. run.
  after (proj2 (proj2 (proj2 (backup_ok [] 0 0)))). run. after (proj2 (recover_ok [])). run.
Qed.
End ledger.
