(* ===== verification/AssetRollback.v ===== *)
(** * Assets: rollback and recovery

    What [rollback_temporary_owner] leaves: the references of the owner are gone, the
    active objects that only it referred to are gone with their files, and everything else
    is as before.  The same holds of a rollback that was interrupted, any number of times,
    and then completed.  The loops of rollback and recovery end within their bounds. *)

From stdpp Require Import gmap.
From S2P Require Import Prelude Bytes Utf8 Sorting ToolPolicy AssetModel AssetCatalog Faults AssetFs AssetStore AssetSessions AssetMaintenance AssetLedger.

(** ** References of an owner *)

Lemma elem_of_owner_hashes c owner h : h ∈ owner_hashes c owner <-> is_Some (asset_refs c !! (owner, h)).
Proof.
  unfold owner_hashes, str_le_list. rewrite sort_by_perm. rewrite list_elem_of_In, in_map_iff. split.
  - intros ([o h'] & Hh & Hin). cbn in Hh. subst h'. apply List.filter_In in Hin as [Hin Ho].
    apply bool_decide_eq_true_1 in Ho. cbn in Ho. subst o.
    apply in_map_iff in Hin as ([[o h'] now] & Hk & Hin). cbn in Hk. simplify_eq.
    apply list_elem_of_In, elem_of_map_to_list in Hin. by eexists.
  - intros [now Hn]. exists (owner, h). split; [done|]. apply List.filter_In. split; [|by apply bool_decide_eq_true_2].
    apply in_map_iff. exists ((owner, h), now). split; [done|]. by apply list_elem_of_In, elem_of_map_to_list.
Qed.

Lemma exists_ref_true p c : exists_ref p c = true <-> exists o h, is_Some (asset_refs c !! (o, h)) /\ p o h = true.
Proof.
  unfold exists_ref. rewrite existsb_exists. split.
  - intros ([o h] & Hin & Hp). apply in_map_iff in Hin as ([k now] & Hk & Hin). cbn in Hk. subst k.
    apply list_elem_of_In, elem_of_map_to_list in Hin. exists o, h. split; [by eexists|done].
  - intros (o & h & [now Hn] & Hp). exists (o, h). split; [|done]. apply in_map_iff.
    exists ((o, h), now). split; [done|]. by apply list_elem_of_In, elem_of_map_to_list.
Qed.

Lemma has_reference_true h c : has_reference h c = true <-> exists o, is_Some (asset_refs c !! (o, h)).
Proof.
  unfold has_reference. rewrite exists_ref_true. split.
  - intros (o & h' & Hr & Hh). apply str_eqb_eq in Hh. subst. by exists o.
  - intros (o & Hr). exists o, h. split; [done|apply str_eqb_refl].
Qed.

Lemma has_other_reference_true owner h c :
  has_other_reference owner h c = true <-> exists o, o <> owner /\ is_Some (asset_refs c !! (o, h)).
Proof.
  unfold has_other_reference. rewrite exists_ref_true. split.
  - intros (o & h' & Hr & Hh). apply andb_true_iff in Hh as [Hh Ho]. apply str_eqb_eq in Hh. subst.
    apply negb_true_iff, bool_decide_eq_false_1 in Ho. by exists o.
  - intros (o & Ho & Hr). exists o, h. split; [done|]. rewrite str_eqb_refl. cbn. by rewrite bool_decide_eq_false_2.
Qed.

Lemma filter_perm {A} (p : A -> bool) l l' : l ≡ₚ l' -> List.filter p l ≡ₚ List.filter p l'.
Proof.
  induction 1 as [|x l l' _ IH|x y l|l1 l2 l3 _ IH1 _ IH2]; cbn [List.filter]; [done| | |by rewrite IH1].
  - destruct (p x); [by constructor|done].
  - destruct (p x), (p y); try done. apply Permutation_swap.
Qed.

Lemma owner_hashes_delete c c' owner h now :
  asset_refs c !! (owner, h) = Some now -> asset_refs c' = delete (owner, h) (asset_refs c) ->
  length (owner_hashes c owner) = S (length (owner_hashes c' owner)).
Proof.
  intros Hn Hc. unfold owner_hashes, str_le_list. rewrite !(Permutation_length (sort_by_perm _ _)), !length_map.
  rewrite Hc. pose proof (map_to_list_delete (asset_refs c) (owner, h) now Hn) as Hp.
  apply (Permutation_map fst), (filter_perm (fun k => bool_decide (k.1 = owner))) in Hp. rewrite <- Hp. cbn.
  by rewrite bool_decide_eq_true_2.
Qed.

(** ** One round *)

(** An active object that nobody else refers to. *)
Definition orphaned (owner : AssetOwner) (c : Catalog) (h : str) : bool :=
  hash_active h c && negb (has_other_reference owner h c).

Lemma delete_ref_fields owner h c :
  let c' := (delete_ref owner h c).1 in
  asset_refs c' = delete (owner, h) (asset_refs c) /\ asset_objects c' = asset_objects c /\
  asset_temporary_owner_sessions c' = asset_temporary_owner_sessions c /\
  asset_quarantine_intents c' = asset_quarantine_intents c /\ asset_backup_sessions c' = asset_backup_sessions c.
Proof.
  cbn zeta. unfold delete_ref. destruct (asset_refs c !! (owner, h)) eqn:Hn; [done|]. cbn. by rewrite delete_id.
Qed.

Lemma rollback_rows_fields owner h c :
  let c' := (rollback_rows owner h (orphaned owner c h) c).1 in
  asset_refs c' = delete (owner, h) (asset_refs c) /\
  asset_objects c' = (if orphaned owner c h then delete h (asset_objects c) else asset_objects c) /\
  asset_temporary_owner_sessions c' = asset_temporary_owner_sessions c /\
  asset_quarantine_intents c' = asset_quarantine_intents c.
Proof.
  cbn zeta. unfold rollback_rows. pose proof (delete_ref_fields owner h c) as (Hr & Ho & Ht & Hi & _). cbn zeta in *.
  destruct (delete_ref owner h c) as [c1 n]. cbn in Hr, Ho, Ht, Hi. destruct (orphaned owner c h) eqn:Horph; [|done].
  unfold delete_orphan. destruct (asset_objects c1 !! h) as [row|] eqn:Hrow.
  - destruct (has_reference h c1) eqn:Href; [exfalso|cbn; by rewrite Ho].
    apply has_reference_true in Href as [o Hs]. rewrite Hr in Hs.
    apply andb_true_iff in Horph as [_ Hn]. apply negb_true_iff in Hn. apply not_true_iff_false in Hn. apply Hn.
    apply has_other_reference_true. destruct Hs as [now Hs]. apply lookup_delete_Some in Hs as [Hne Hs].
    exists o. split; [congruence|by eexists].
  - cbn. rewrite <- Ho, (delete_id (asset_objects c1) h Hrow). done.
Qed.

(** ** What a rollback leaves *)

(** The references of [owner] that [c] no longer has. *)
Definition released (owner : AssetOwner) (c0 c : Catalog) (h : str) : Prop :=
  is_Some (asset_refs c0 !! (owner, h)) /\ asset_refs c !! (owner, h) = None.

(** An object directory that has an entry exists. *)
Definition directories_ok (d : Disk) : Prop :=
  forall h e, entries d !! object_place h = Some e ->
    child OBJECTS_DIRECTORY (first_shard h) ∈ directories d /\ (object_place h).1 ∈ directories d.

(** [d] is [d0] after some part of the rollback of [owner]. *)
Record partly_rolled_back (owner : AssetOwner) (d0 d : Disk) : Prop := {
  rb_others : forall o h, o <> owner -> asset_refs (catalog d) !! (o, h) = asset_refs (catalog d0) !! (o, h);
  rb_own : forall h now, asset_refs (catalog d) !! (owner, h) = Some now -> asset_refs (catalog d0) !! (owner, h) = Some now;
  rb_kept : forall h, (orphaned owner (catalog d0) h = false \/ ~ released owner (catalog d0) (catalog d) h) ->
    asset_objects (catalog d) !! h = asset_objects (catalog d0) !! h;
  rb_gone : forall h, released owner (catalog d0) (catalog d) h -> orphaned owner (catalog d0) h = true ->
    asset_objects (catalog d) !! h = None /\ entries d !! object_place h = None;
  rb_files : forall p, entries d !! p = entries d0 !! p \/
    exists h, p = object_place h /\ is_Some (asset_refs (catalog d0) !! (owner, h)) /\
              orphaned owner (catalog d0) h = true /\ entries d !! p = None;
  rb_sessions : forall o, o <> owner ->
    asset_temporary_owner_sessions (catalog d) !! o = asset_temporary_owner_sessions (catalog d0) !! o;
  rb_contents : contents d = contents d0;
  rb_directories : directories d = directories d0;
}.

(** A completed rollback. *)
Record rolled_back (owner : AssetOwner) (d0 d : Disk) : Prop := {
  done_others : forall o h, o <> owner -> asset_refs (catalog d) !! (o, h) = asset_refs (catalog d0) !! (o, h);
  done_own : forall h, asset_refs (catalog d) !! (owner, h) = None;
  done_objects : forall h, asset_objects (catalog d) !! h =
    if bool_decide (is_Some (asset_refs (catalog d0) !! (owner, h))) && orphaned owner (catalog d0) h then None
    else asset_objects (catalog d0) !! h;
  done_files : forall h, entries d !! object_place h =
    if bool_decide (is_Some (asset_refs (catalog d0) !! (owner, h))) && orphaned owner (catalog d0) h then None
    else entries d0 !! object_place h;
  done_contents : contents d = contents d0;
  done_session : asset_temporary_owner_sessions (catalog d) !! owner = None;
  done_sessions : forall o, o <> owner ->
    asset_temporary_owner_sessions (catalog d) !! o = asset_temporary_owner_sessions (catalog d0) !! o;
}.

Lemma partly_refl owner d : partly_rolled_back owner d d.
Proof.
  split; try done; [|by left]. intros h [[now Hs] Hn]. congruence.
Qed.

Lemma object_place_inj h h' : object_place h = object_place h' -> h = h'.
Proof. unfold object_place. congruence. Qed.

Section partly.
Context (owner : AssetOwner) (d0 d : Disk) (h : str).
Hypothesis Hd : partly_rolled_back owner d0 d.
Hypothesis Hown : is_Some (asset_refs (catalog d) !! (owner, h)).

Lemma own_initially : is_Some (asset_refs (catalog d0) !! (owner, h)).
Proof. destruct Hown as [now Hn]. eexists. by apply (rb_own _ _ _ Hd). Qed.

Lemma orphaned_stable : orphaned owner (catalog d) h = orphaned owner (catalog d0) h.
Proof.
  unfold orphaned, hash_active. rewrite (rb_kept _ _ _ Hd h).
  - f_equal. f_equal. apply Bool.eq_iff_eq_true. rewrite !has_other_reference_true.
    split; intros (o & Ho & Hs); exists o; (split; [done|]); [rewrite <- (rb_others _ _ _ Hd)|rewrite (rb_others _ _ _ Hd)]; done.
  - right. intros [_ Hn]. destruct Hown. congruence.
Qed.

Lemma partly_unlink :
  orphaned owner (catalog d0) h = true ->
  partly_rolled_back owner d0 (set_entries (delete (object_place h) (entries d)) d).
Proof.
  intros Ho. destruct Hd. split; cbn; try done.
  - intros h' Hr Ho'. destruct (rb_gone0 h' Hr Ho') as [Hg He]. split; [done|]. by apply lookup_delete_None; right.
  - intros p. destruct (decide (object_place h = p)) as [<-|Hne].
    + right. exists h. split_and!; [done|apply own_initially|done|apply lookup_delete_eq].
    + rewrite lookup_delete_ne by done. apply rb_files0.
Qed.

Lemma partly_commit :
  (orphaned owner (catalog d0) h = true -> entries d !! object_place h = None) ->
  partly_rolled_back owner d0 (set_catalog (rollback_rows owner h (orphaned owner (catalog d) h) (catalog d)).1 d).
Proof.
  intros He. pose proof (rollback_rows_fields owner h (catalog d)) as (Hr & Ho & Ht & _). cbn zeta in *.
  pose proof orphaned_stable as Hst. destruct Hd.
  assert (Hrel : forall h', h' <> h ->
    released owner (catalog d0) (rollback_rows owner h (orphaned owner (catalog d) h) (catalog d)).1 h' <->
    released owner (catalog d0) (catalog d) h').
  { intros h' Hne. unfold released. rewrite Hr, lookup_delete_ne by congruence. done. }
  assert (Hrh : released owner (catalog d0) (rollback_rows owner h (orphaned owner (catalog d) h) (catalog d)).1 h).
  { split; [apply own_initially|]. rewrite Hr. apply lookup_delete_eq. }
  split; cbn; try done.
  - intros o h' Hne. rewrite Hr, lookup_delete_ne by congruence. by apply rb_others0.
  - intros h' now Hs. rewrite Hr in Hs. apply lookup_delete_Some in Hs as [_ Hs]. by apply rb_own0.
  - intros h' Hk. rewrite Ho, Hst. destruct (decide (h' = h)) as [->|Hne].
    + destruct Hk as [Hk|Hk]; [|done]. rewrite Hk. apply rb_kept0. by left.
    + rewrite Hrel in Hk by done. destruct (orphaned owner (catalog d0) h); [rewrite lookup_delete_ne by done|]; by apply rb_kept0.
  - intros h' Hk Horph. rewrite Ho, Hst. destruct (decide (h' = h)) as [->|Hne].
    + rewrite Horph, lookup_delete_eq. auto.
    + rewrite Hrel in Hk by done. destruct (rb_gone0 h' Hk Horph) as [Hg Hf]. split; [|done].
      destruct (orphaned owner (catalog d0) h); [rewrite lookup_delete_ne by done|]; done.
  - intros o Hne. rewrite Ht. by apply rb_sessions0.
Qed.
End partly.

Section rollback.
Context `{AssetSystem}.
Context (owner : AssetOwner) (d0 : Disk).
Hypothesis Hdirs : directories_ok d0.

Let I := partly_rolled_back owner d0.

(** No entry without its directories, also later. *)
Lemma locator_none d h :
  I d -> child OBJECTS_DIRECTORY (first_shard h) ∉ directories d \/ (object_place h).1 ∉ directories d ->
  entries d !! object_place h = None.
Proof.
  intros Hd Hn. rewrite (rb_directories _ _ _ Hd) in Hn. destruct (rb_files _ _ _ Hd (object_place h)) as [He|(? & _ & _ & _ & He)];
    [|done]. rewrite He. destruct (entries d0 !! object_place h) as [e|] eqn:Hs; [|done].
  apply Hdirs in Hs. tauto.
Qed.

Lemma unlink_partly X h d :
  I d -> is_Some (asset_refs (catalog d) !! (owner, h)) -> orphaned owner (catalog d0) h = true ->
  wp X I (unlink_object h) (fun _ d' => I d' /\ catalog d' = catalog d /\ entries d' !! object_place h = None) d.
Proof.
  intros Hd Hown Ho. unfold unlink_object. apply wp_bind, wp_find_locator; [done| |].
  - intros Hn. store_step. split_and!; [done|done|by apply (locator_none d h)].
  - intros _. apply wp_bind, wp_remove_file; [done| |].
    + intros He. by store_step.
    + intros He. pose proof (partly_unlink owner d0 d h Hd Hown Ho) as Hp. store_step; [|done].
      apply wp_effect; [done|]. split_and!; [done|done|apply lookup_delete_eq].
Qed.

Lemma rollback_one_partly X h d :
  I d -> is_Some (asset_refs (catalog d) !! (owner, h)) ->
  wp X I (rollback_one owner h)
    (fun _ d' => I d' /\ length (owner_hashes (catalog d) owner) = S (length (owner_hashes (catalog d') owner))) d.
Proof.
  intros Hd Hown. unfold rollback_one. apply wp_bind, wp_lift; [|done]. intros h' Hh.
  assert (h' = h) as -> by (unfold AssetHash_parse in Hh; pass guard Hh; congruence). clear Hh.
  apply wp_bind, wp_query; [done|]. unfold id. fold (orphaned owner (catalog d) h).
  pose proof (orphaned_stable owner d0 d h Hd Hown) as Hst. apply wp_bind.
  eapply (wp_post _ _ _ (fun _ d' => I d' /\ catalog d' = catalog d /\
            (orphaned owner (catalog d0) h = true -> entries d' !! object_place h = None))).
  { apply wp_when; rewrite Hst; intros Ho; [|split_and!; [done|done|congruence]]. eapply wp_post; [by apply unlink_partly|]. naive_solver. }
  intros _ d1 (Hd1 & Hc1 & He1). apply wp_bind, wp_effect; [done|]. rewrite <- Hc1 in *.
  pose proof (partly_commit owner d0 d1 h Hd1 Hown He1) as Hp.
  pose proof (rollback_rows_fields owner h (catalog d1)) as (Hr & _).
  destruct (rollback_rows owner h (orphaned owner (catalog d1) h) (catalog d1)) as [c n]. cbn [fst] in *.
  apply wp_bind, wp_commit; [done|]. store_step. split; [done|]. destruct Hown as [now Hn]. by eapply owner_hashes_delete.
Qed.

(** As many rounds as the owner has references are enough. *)
Lemma rollback_loop_partly X fuel removed d :
  I d -> (length (owner_hashes (catalog d) owner) <= fuel)%nat ->
  wp X I (rollback_loop fuel owner removed) (fun _ d' => I d' /\ owner_hashes (catalog d') owner = []) d.
Proof.
  revert removed d. induction fuel as [|fuel IH]; intros removed d Hd Hf; cbn [rollback_loop];
    (apply wp_bind, wp_effect; [done|]); (apply wp_bind, wp_query; [done|]);
    destruct (owner_hashes (catalog d) owner) as [|h hs] eqn:Hh; cbn [head].
  - by store_step.
  - cbn in Hf. lia.
  - by store_step.
  - apply wp_bind. eapply wp_post; [apply rollback_one_partly; [done|]|].
    + apply elem_of_owner_hashes. rewrite Hh. left.
    + intros n d' [Hd' Hl]. rewrite Hh in Hl. cbn in Hl, Hf. apply IH; [done|]. lia.
Qed.

Lemma rollback_locked_partly X d :
  I d -> wp X I (rollback_temporary_owner_locked owner) (fun _ d' => rolled_back owner d0 d' /\ I d') d.
Proof.
  intros Hd. unfold rollback_temporary_owner_locked. store_step. apply wp_bind.
  eapply wp_post; [by apply rollback_loop_partly|]. intros n d1 [Hd1 Hh]. store_step; [done|].
  apply wp_bind, wp_execute; [done|]. intros c [= <-]. store_step.
  assert (Hnone : forall h, asset_refs (catalog d1) !! (owner, h) = None).
  { intros h. apply eq_None_not_Some. rewrite <- elem_of_owner_hashes, Hh. apply not_elem_of_nil. }
  assert (Hp : I (set_catalog (delete_session owner (catalog d1)) d1)).
  { destruct Hd1. split; cbn; try done. intros o Hne. rewrite lookup_delete_ne by congruence. auto. }
  split; [|done]. destruct Hd1. split; cbn; try done.
  - intros h. destruct (bool_decide (is_Some _)) eqn:Hs; cbn [andb].
    + apply bool_decide_eq_true_1 in Hs. destruct (orphaned owner (catalog d0) h) eqn:Ho; [|by apply rb_kept0; left].
      by apply rb_gone0.
    + apply bool_decide_eq_false_1 in Hs. apply rb_kept0. right. by intros [? _].
  - intros h. destruct (bool_decide (is_Some _)) eqn:Hs; cbn [andb].
    + apply bool_decide_eq_true_1 in Hs. destruct (orphaned owner (catalog d0) h) eqn:Ho; [by apply rb_gone0|].
      destruct (rb_files0 (object_place h)) as [?|(h' & Hp' & _ & Ho' & _)]; [done|]. apply object_place_inj in Hp'. congruence.
    + apply bool_decide_eq_false_1 in Hs. destruct (rb_files0 (object_place h)) as [?|(h' & Hp' & Hs' & _ & _)]; [done|].
      apply object_place_inj in Hp'. congruence.
  - apply lookup_delete_eq.
  - intros o Hne. rewrite lookup_delete_ne by congruence. auto.
Qed.
End rollback.

(** ** The loops end *)

Section termination.
Context `{AssetSystem}.

Let T (d : Disk) : Prop := True.

Lemma unlink_keeps_catalog h d : wp (fun _ => False) T (unlink_object h) (fun _ d' => catalog d' = catalog d) d.
Proof. unfold unlink_object. apply wp_bind, wp_find_locator; [done| |]; intros _; store_run; done. Qed.

Lemma rollback_one_rows owner h d :
  wp (fun _ => False) T (rollback_one owner h)
    (fun _ d' => catalog d' = (rollback_rows owner h (orphaned owner (catalog d) h) (catalog d)).1) d.
Proof.
  unfold rollback_one. apply wp_bind, wp_lift; [|done]. intros h' Hh.
  assert (h' = h) as -> by (unfold AssetHash_parse in Hh; pass guard Hh; congruence). clear Hh.
  apply wp_bind, wp_query; [done|]. unfold id. fold (orphaned owner (catalog d) h). apply wp_bind.
  eapply (wp_post _ _ _ (fun _ d' => catalog d' = catalog d)).
  { apply wp_when; intros _; [apply unlink_keeps_catalog|done]. }
  intros _ d1 Hd1. apply wp_bind, wp_effect; [done|]. destruct (rollback_rows _ _ _ _) as [c n].
  apply wp_bind, wp_commit; [done|]. by store_step.
Qed.

Lemma rollback_loop_counts fuel owner removed d :
  (length (owner_hashes (catalog d) owner) <= fuel)%nat ->
  wp (fun _ => False) T (rollback_loop fuel owner removed)
    (fun _ d' => (size (asset_refs (catalog d')) + length (owner_hashes (catalog d) owner) = size (asset_refs (catalog d)))%nat /\
                 asset_temporary_owner_sessions (catalog d') = asset_temporary_owner_sessions (catalog d)) d.
Proof.
  revert removed d. induction fuel as [|fuel IH]; intros removed d Hf; cbn [rollback_loop];
    (apply wp_bind, wp_effect; [done|]); (apply wp_bind, wp_query; [done|]);
    destruct (owner_hashes (catalog d) owner) as [|h hs] eqn:Hh; cbn [head].
  - store_step. cbn. split; [lia|done].
  - cbn in Hf. lia.
  - store_step. cbn. split; [lia|done].
  - assert (is_Some (asset_refs (catalog d) !! (owner, h))) as [now Hn].
    { apply elem_of_owner_hashes. rewrite Hh. left. }
    pose proof (rollback_rows_fields owner h (catalog d)) as (Hr & _ & Hs & _). cbn zeta in *.
    apply wp_bind. eapply wp_post; [apply rollback_one_rows|]. intros n d' Hd'. rewrite <- Hd' in Hr, Hs.
    pose proof (owner_hashes_delete _ _ owner h now Hn Hr) as Hl. rewrite Hh in Hl. cbn in Hl, Hf.
    eapply wp_post; [apply IH; lia|]. intros m d'' [Hc Ht]. split; [|congruence].
    pose proof (size_delete_Z _ _ _ Hn) as Hz. rewrite <- Hr in Hz. cbn. lia.
Qed.

Lemma rollback_counts owner d :
  wp (fun _ => False) T (rollback_temporary_owner_locked owner)
    (fun _ d' => (size (asset_refs (catalog d')) + length (owner_hashes (catalog d) owner) = size (asset_refs (catalog d)))%nat /\
                 asset_temporary_owner_sessions (catalog d') = delete owner (asset_temporary_owner_sessions (catalog d))) d.
Proof.
  unfold rollback_temporary_owner_locked. store_step. apply wp_bind. eapply wp_post; [by apply rollback_loop_counts|].
  intros n d1 [H1 H2]. apply wp_bind, wp_effect; [done|]. apply wp_bind, wp_execute; [done|]. intros c [= <-].
  store_step. cbn. by rewrite H2.
Qed.

(** A candidate has an expired lease, or references without a lease. *)
Lemma recovery_candidate_spec kind before c id has_lease :
  recovery_candidate kind before c = Some (id, has_lease) ->
  if has_lease : bool
  then exists lease, asset_temporary_owner_sessions c !! mkOwner kind id = Some lease /\ lease_updated lease < before
  else exists h, is_Some (asset_refs c !! (mkOwner kind id, h)).
Proof.
  unfold recovery_candidate. intros Hc.
  assert (Hin : (id, has_lease) ∈ stale_sessions kind before c ++ orphan_owners kind c).
  { rewrite <- (sort_by_perm candidate_cmp). destruct (sort_by _ _); [done|]. cbn in Hc. simplify_eq. left. }
  apply elem_of_app in Hin as [Hin|Hin]; apply list_elem_of_In, in_map_iff in Hin.
  - destruct Hin as ([[k i] lease] & Heq & Hin). cbn in Heq. simplify_eq. apply List.filter_In in Hin as [Hin Hp].
    apply andb_true_iff in Hp as [Hk Hl]. cbn in Hk, Hl. apply str_eqb_eq in Hk. subst. zify_bool.
    exists lease. split; [|done]. by apply elem_of_map_to_list, list_elem_of_In.
  - destruct Hin as ([[k i] h] & Heq & Hin). cbn in Heq. simplify_eq. apply List.filter_In in Hin as [Hin Hp].
    apply andb_true_iff in Hp as [Hk _]. cbn in Hk. apply str_eqb_eq in Hk. subst.
    apply in_map_iff in Hin as ([o now] & Ho & Hin). cbn in Ho. subst. exists h, now.
    by apply elem_of_map_to_list, list_elem_of_In.
Qed.

Lemma recover_loop_total fuel kind before removed d :
  (recovery_bound (catalog d) <= fuel)%nat -> wp (fun _ => False) T (recover_loop fuel kind before removed) (fun _ _ => True) d.
Proof.
  revert removed d. induction fuel as [|fuel IH]; intros removed d Hf; cbn [recover_loop];
    (apply wp_bind, wp_effect; [done|]); (apply wp_bind, wp_query; [done|]); unfold id;
    destruct (recovery_candidate kind before (catalog d)) as [[oid has_lease]|] eqn:Hc.
  2, 4: apply wp_bind, wp_commit; [done|]; by store_step.
  all: apply recovery_candidate_spec in Hc; unfold recovery_bound in Hf.
  - exfalso. destruct has_lease.
    + destruct Hc as (lease & Hl & _). rewrite (map_size_empty_inv (asset_temporary_owner_sessions (catalog d))) in Hl by lia.
      done.
    + destruct Hc as (h & now & Hl). rewrite (map_size_empty_inv (asset_refs (catalog d))) in Hl by lia. done.
  - assert (Hgo : forall c, (if has_lease then asset_temporary_owner_sessions c = delete (mkOwner kind oid) (asset_temporary_owner_sessions (catalog d))
                             else asset_temporary_owner_sessions c = asset_temporary_owner_sessions (catalog d)) ->
      asset_refs c = asset_refs (catalog d) ->
      wp (fun _ => False) T (_ ← commit c; owner ← lift (AssetOwner_new kind oid); n ← rollback_temporary_owner_locked owner;
                  recover_loop fuel kind before (saturating_add U64_MAX removed n)) (fun _ _ => True) d).
    { intros c Hses Hrefs. apply wp_bind, wp_commit; [done|]. apply wp_bind, wp_lift; [|done]. intros owner Ho.
      assert (owner = mkOwner kind oid) as ->.
      { unfold AssetOwner_new in Ho. apply bind_Ok in Ho as (? & _ & Ho). apply bind_Ok in Ho as (? & _ & Ho). by injection Ho. }
      apply wp_bind. eapply wp_post; [apply rollback_counts|]. cbn. intros n d' [Hr Hs]. apply IH. unfold recovery_bound.
      rewrite Hs. destruct has_lease.
      - destruct Hc as (lease & Hl & _). rewrite Hses, Hrefs in *. pose proof (size_delete_Z _ _ _ Hl).
        rewrite delete_delete_eq. lia.
      - destruct Hc as (h & Hh). rewrite Hses.
        assert (Hin : h ∈ owner_hashes c (mkOwner kind oid)) by (apply elem_of_owner_hashes; by rewrite Hrefs).
        assert (Hle : (size (delete (mkOwner kind oid) (asset_temporary_owner_sessions (catalog d))) <=
                       size (asset_temporary_owner_sessions (catalog d)))%nat).
        { destruct (asset_temporary_owner_sessions (catalog d) !! mkOwner kind oid) as [lease|] eqn:Hl.
          - pose proof (size_delete_Z _ _ _ Hl). lia.
          - by rewrite delete_id. }
        rewrite Hrefs in Hr. destruct (owner_hashes c (mkOwner kind oid)); [by apply elem_of_nil in Hin|]. cbn in Hr. lia. }
    destruct has_lease; [|by apply Hgo].
    destruct Hc as (lease & Hl & Hlt). unfold claim_session at 1. rewrite Hl.
    apply Z.ltb_lt in Hlt. rewrite Hlt. by apply Hgo.
Qed.

Lemma rollback_terminates owner : terminates (rollback_temporary_owner owner).
Proof.
  intros d. unfold rollback_temporary_owner. apply wp_bind, wp_lift; [|done]. intros _ _.
  apply wp_bind, wp_effect; [done|]. eapply wp_post; [apply rollback_counts|done].
Qed.

(** Recovery of a type always ends: each round claims an expired lease or removes references. *)
Theorem recovery_terminates kind before d t :
  (recover_temporary_owner_type_before kind before (mkWorld t d)).2 <> Err None.
Proof.
  assert (Hw : wp (fun _ => False) T (recover_temporary_owner_type_before kind before) (fun _ _ => True) d).
  { unfold recover_temporary_owner_type_before. destruct (before <? 0); [by store_step|].
    apply wp_bind, wp_lift; [|done]. intros _ _. apply wp_bind, wp_effect; [done|]. store_step. by apply recover_loop_total. }
  by eapply wp_run_total.
Qed.
End termination.

(** ** Interrupted rollbacks *)

(** One attempt, which may fail or stop anywhere. *)
Definition rollback_attempt (owner : AssetOwner) (d d' : Disk) : Prop :=
  exists (sys : AssetSystem) t, d' = disk (rollback_temporary_owner owner (mkWorld t d)).1.

Lemma rollback_partly `{AssetSystem} owner d0 d X :
  directories_ok d0 -> partly_rolled_back owner d0 d ->
  wp X (partly_rolled_back owner d0) (rollback_temporary_owner owner)
    (fun _ d' => rolled_back owner d0 d' /\ partly_rolled_back owner d0 d') d.
Proof.
  intros Hdirs Hd. unfold rollback_temporary_owner. apply wp_bind, wp_lift; [|done]. intros _ _.
  apply wp_bind, wp_effect; [done|]. by apply rollback_locked_partly.
Qed.

(** C38: A rollback that returns, after any number of attempts that failed or were interrupted
    at any point, leaves what an undisturbed one leaves: the references of the owner and
    its session are gone, the active objects only it referred to are gone with their
    files, and the references, objects and files of everybody else are as before. *)
Theorem interrupted_rollback_completes (sys : AssetSystem) owner d0 d t w n :
  directories_ok d0 -> rtc (rollback_attempt owner) d0 d ->
  rollback_temporary_owner owner (mkWorld t d) = (w, Ok n) -> rolled_back owner d0 (disk w).
Proof.
  intros Hdirs Hatt Hrun. assert (Hd : partly_rolled_back owner d0 d).
  { clear Hrun. revert d Hatt. apply rtc_ind_r; [apply partly_refl|]. intros d1 d2 _ (sys' & t' & ->) IH.
    eapply wp_run_end; [by apply (rollback_partly (H := sys'))|done|by intros ? ? []]. }
  eapply (wp_run_Ok (fun _ => True)) in Hrun; [|by apply rollback_partly]. apply Hrun.
Qed.
