(* ===== verification/AssetSurvival.v ===== *)
(** * Assets: what is referred to survives

    An object that is stored, active and referred to by a permanent owner keeps its row,
    its reference and its exact bytes through every operation of the store that does not
    release that reference, wherever the operation fails or stops.

    [survives owner h data d] is the invariant: the row is active and of the right size,
    the reference is there, the file holds [data], no pending quarantine move concerns the
    object, no other directory has an entry of that name, inodes are fresh, and no session
    of the owner's type exists. *)

From stdpp Require Import gmap.
From S2P Require Import Prelude Sorting Bytes Utf8 ToolPolicy AssetModel AssetCatalog Faults AssetFs AssetStore AssetSessions AssetMaintenance AssetLedger AssetRollback.

(** Where a quarantine intent finds its source. *)
Definition resolved_place (path : str) : option (str * str) :=
  match split_on SLASH path with
  | [_; first_name; second_name; file_name] => Some (child (child OBJECTS_DIRECTORY first_name) second_name, file_name)
  | _ => None
  end.

(** A pending move that does not concern [h]. *)
Definition harmless_intent (h : str) (i : QuarantineIntent) : Prop :=
  intent_operation i = Move ->
  intent_name i <> h /\ intent_hash i <> Some h /\
  forall path, source_relative_path i = Some path -> resolved_place path <> Some (object_place h).

Section survival.
Context (owner : AssetOwner) (h : str) (data : bytes).

Record catalog_keeps (c : Catalog) : Prop := {
  ck_row : exists row, asset_objects c !! h = Some row /\ row_state row = Active /\ row_size row = len data;
  ck_ref : is_Some (asset_refs c !! (owner, h));
  ck_intents : forall name i, asset_quarantine_intents c !! name = Some i -> harmless_intent h i;
  ck_sessions : forall o lease, asset_temporary_owner_sessions c !! o = Some lease -> owner_type o <> owner_type owner;
}.

Definition files_keep (d : Disk) : Prop :=
  (forall p i, entries d !! p = Some (FileEntry i) -> i < next_inode d) /\
  (exists i, entries d !! object_place h = Some (FileEntry i) /\ contents d !! i = Some data) /\
  (forall dir e, entries d !! (dir, h) = Some e -> dir = (object_place h).1) /\
  child OBJECTS_DIRECTORY (first_shard h) ∈ directories d /\ (object_place h).1 ∈ directories d /\
  user_version d = 4.

Definition survives (d : Disk) : Prop := catalog_keeps (catalog d) /\ files_keep d.

(** ** Catalog updates *)

Lemma put_object_keeps h' row c :
  catalog_keeps c -> (h' = h -> row_state row = Active /\ row_size row = len data) -> catalog_keeps (put_object h' row c).
Proof.
  intros [Hrow Href Hint Hses] Hh. split; [|done|done|done]. cbn. destruct (decide (h' = h)) as [->|Hne].
  - exists row. rewrite lookup_insert_eq. naive_solver.
  - by rewrite lookup_insert_ne.
Qed.

Lemma update_object_keeps h' f c :
  catalog_keeps c -> (h' = h -> forall row, row_state row = Active -> row_size row = len data ->
                                row_state (f row) = Active /\ row_size (f row) = len data) ->
  catalog_keeps (update_object h' f c).
Proof.
  intros Hc Hh. unfold update_object. destruct (asset_objects c !! h') as [row|] eqn:Hr; [|done].
  apply put_object_keeps; [done|]. intros ->. destruct (ck_row c Hc) as (row' & Hr' & Hs & Hz). simplify_eq. auto.
Qed.

Lemma insert_ref_keeps o h' now c c' : catalog_keeps c -> insert_ref o h' now c = Ok c' -> catalog_keeps c'.
Proof.
  intros [Hrow Href Hint Hses]. unfold insert_ref. repeat case_match; intros [= <-]; [done|]. split; [done| |done|done].
  cbn. destruct (decide ((o, h') = (owner, h))) as [->|Hne]; [rewrite lookup_insert_eq; by eexists|by rewrite lookup_insert_ne].
Qed.

Lemma insert_refs_keeps o hashes now c c' : catalog_keeps c -> insert_refs o hashes now c = Ok c' -> catalog_keeps c'.
Proof. intros Hc. apply foldM_result_inv; [|done]. intros a h' a'. apply insert_ref_keeps. Qed.

Lemma delete_ref_keeps o h' c : catalog_keeps c -> (o, h') <> (owner, h) -> catalog_keeps (delete_ref o h' c).1.
Proof.
  intros [Hrow Href Hint Hses] Hne. pose proof (delete_ref_fields o h' c) as (Hr & Ho & Ht & Hi & _). cbn zeta in *.
  split; [by rewrite Ho| |by rewrite Hi|by rewrite Ht]. by rewrite Hr, lookup_delete_ne.
Qed.

Lemma delete_refs_keeps o hashes c : catalog_keeps c -> o <> owner -> catalog_keeps (delete_refs o hashes c).1.
Proof.
  intros Hc Hne. revert c Hc. induction hashes as [|h' hashes IH]; intros c Hc; cbn [delete_refs]; [done|].
  pose proof (delete_ref_keeps o h' c Hc) as H1. destruct (delete_ref o h' c) as [c1 n]. cbn [fst] in H1.
  specialize (IH c1 (H1 ltac:(congruence))). by destruct (delete_refs o hashes c1).
Qed.

Lemma delete_owner_refs_keeps o c : catalog_keeps c -> o <> owner -> catalog_keeps (delete_owner_refs o c).1.
Proof. apply delete_refs_keeps. Qed.

Lemma delete_refs_where_keeps p c : catalog_keeps c -> p owner = false -> catalog_keeps (delete_refs_where p c).
Proof.
  intros Hc Hp. unfold delete_refs_where. induction (map fst (map_to_list (asset_refs c))) as [|[o h'] ks IH]; cbn [foldr]; [done|].
  cbn [fst snd]. destruct (p o) eqn:Ho; [|done]. apply delete_ref_keeps; [done|]. congruence.
Qed.

Lemma delete_orphan_keeps h' c : catalog_keeps c -> catalog_keeps (delete_orphan h' c).1.
Proof.
  intros Hc. unfold delete_orphan. destruct (asset_objects c !! h') as [row|] eqn:Hr; [|done].
  destruct (has_reference h' c) eqn:Hh; [done|]. destruct Hc as [Hrow Href Hint Hses]. split; [|done|done|done]. cbn.
  rewrite lookup_delete_ne; [done|]. intros ->. apply not_true_iff_false in Hh. apply Hh, has_reference_true. by exists owner.
Qed.

Lemma rollback_rows_keeps o h' orphan c : catalog_keeps c -> o <> owner -> catalog_keeps (rollback_rows o h' orphan c).1.
Proof.
  intros Hc Hne. unfold rollback_rows. pose proof (delete_ref_keeps o h' c Hc ltac:(congruence)) as H1.
  destruct (delete_ref o h' c). destruct orphan; [by apply delete_orphan_keeps|done].
Qed.

Lemma staging_keeps name now c :
  catalog_keeps c -> catalog_keeps (insert_staging name now c).1 /\ catalog_keeps (delete_staging name c).
Proof.
  intros [Hrow Href Hint Hses]. unfold insert_staging, delete_staging. destruct (asset_staging c !! name); done.
Qed.

Lemma put_quarantine_keeps name row c : catalog_keeps c -> catalog_keeps (put_quarantine name row c).
Proof. by intros [Hrow Href Hint Hses]. Qed.
Lemma delete_quarantine_keeps name c : catalog_keeps c -> catalog_keeps (delete_quarantine name c).
Proof. intros [Hrow Href Hint Hses]. unfold delete_quarantine. destruct (asset_quarantine c !! name); done. Qed.

Lemma delete_intent_keeps name c : catalog_keeps c -> catalog_keeps (delete_intent name c).
Proof.
  intros [Hrow Href Hint Hses]. split; [done|done| |done]. cbn. intros n i Hi. apply lookup_delete_Some in Hi as [_ Hi].
  by eapply Hint.
Qed.

Lemma mark_intent_moved_keeps name c : catalog_keeps c -> catalog_keeps (mark_intent_moved name c).
Proof.
  intros [Hrow Href Hint Hses]. split; [done|done| |done]. cbn. intros n i Hi.
  destruct (decide (name = n)) as [->|Hne].
  - rewrite lookup_alter_eq in Hi. destruct (asset_quarantine_intents c !! n) as [i'|] eqn:Hn; [|done]. cbn in Hi. simplify_eq.
    apply Hint in Hn. exact Hn.
  - rewrite lookup_alter_ne in Hi by done. by eapply Hint.
Qed.

Lemma insert_intent_keeps i c c' :
  catalog_keeps c -> harmless_intent h i -> insert_intent i c = Ok c' -> catalog_keeps c'.
Proof.
  intros [Hrow Href Hint Hses] Hi. unfold insert_intent. case_match; [done|]. intros [= <-]. split; [done|done| |done]. cbn.
  intros n j Hj. destruct (decide (intent_name i = n)) as [<-|Hne].
  - rewrite lookup_insert_eq in Hj. by simplify_eq.
  - rewrite lookup_insert_ne in Hj by done. by eapply Hint.
Qed.

Lemma finalize_move_keeps i c : catalog_keeps c -> intent_hash i <> Some h -> catalog_keeps (finalize_move i c).
Proof.
  intros Hc Hi. unfold finalize_move. apply delete_intent_keeps. apply (put_quarantine_keeps (intent_name i)) with
    (row := mkQuarantineRow (intent_hash i) (intent_reason i) (intent_created i)) in Hc.
  destruct (intent_hash i) as [h'|]; [|done]. apply update_object_keeps; [done|]. congruence.
Qed.

Lemma finalize_purge_keeps name c : catalog_keeps c -> catalog_keeps (finalize_purge name c).
Proof.
  intros Hc. unfold finalize_purge. apply delete_intent_keeps, delete_quarantine_keeps.
  induction (map fst (map_to_list (asset_objects c))) as [|h' hs IH]; cbn [foldr]; [done|].
  apply update_object_keeps; [done|]. intros -> row Hs Hz. unfold missing_if_in. rewrite bool_decide_eq_false_2; [done|].
  intros [Hq _]. congruence.
Qed.

Lemma put_object_unique_keeps h' row c c' :
  catalog_keeps c -> (h' = h -> row_state row = Active /\ row_size row = len data) ->
  put_object_unique h' row c = Ok c' -> catalog_keeps c'.
Proof. intros Hc Hr. unfold put_object_unique. intros Hp. pass guard Hp. simplify_eq. by apply put_object_keeps. Qed.

Lemma set_sessions_keeps s c :
  catalog_keeps c -> (forall o lease, s !! o = Some lease -> owner_type o <> owner_type owner) ->
  catalog_keeps (set_temporary_sessions s c).
Proof. intros [Hrow Href Hint Hses] Hs. by split. Qed.

Lemma set_backup_keeps s c : catalog_keeps c -> catalog_keeps (set_backup_sessions s c).
Proof. by intros [Hrow Href Hint Hses]. Qed.

(** ** File updates *)

Lemma link_keeps d dir name i :
  files_keep d -> name <> h -> i < next_inode d -> files_keep (set_entries (<[(dir, name) := FileEntry i]> (entries d)) d).
Proof.
  intros (Hi & (j & Hj & Hc) & Hs & Hd1 & Hd2 & Hv) Hn Hlt. unfold files_keep. cbn. split_and!; try done.
  - intros p k. destruct (decide ((dir, name) = p)) as [<-|Hne]; [rewrite lookup_insert_eq; naive_solver|].
    rewrite lookup_insert_ne by done. apply Hi.
  - exists j. split; [|done]. rewrite lookup_insert_ne; [done|]. unfold object_place. congruence.
  - intros dir' e. rewrite lookup_insert_ne by congruence. apply Hs.
Qed.

Lemma unlink_keeps d p : files_keep d -> p <> object_place h -> files_keep (set_entries (delete p (entries d)) d).
Proof.
  intros (Hi & (j & Hj & Hc) & Hs & Hd1 & Hd2 & Hv) Hp. unfold files_keep. cbn. split_and!; try done.
  - intros q k Hk. apply lookup_delete_Some in Hk as [_ Hk]. by eapply Hi.
  - exists j. by rewrite lookup_delete_ne.
  - intros dir e Hk. apply lookup_delete_Some in Hk as [_ Hk]. by eapply Hs.
Qed.

Lemma create_keeps d dir name : files_keep d -> name <> h -> files_keep (create_entry (dir, name) d).
Proof.
  intros (Hi & (j & Hj & Hc) & Hs & Hd1 & Hd2 & Hv) Hn. unfold files_keep. cbn. split_and!; try done.
  - intros p k. destruct (decide ((dir, name) = p)) as [<-|Hne].
    + rewrite lookup_insert_eq. intros [= <-]. lia.
    + rewrite lookup_insert_ne by done. intros Hk. apply Hi in Hk. lia.
  - exists j. rewrite lookup_insert_ne by (unfold object_place; congruence). split; [done|].
    rewrite lookup_insert_ne; [done|]. apply Hi in Hj. lia.
  - intros dir' e. rewrite lookup_insert_ne by congruence. apply Hs.
Qed.

Lemma append_keeps d inode chunk :
  files_keep d -> entries d !! object_place h <> Some (FileEntry inode) -> files_keep (append_contents inode chunk d).
Proof.
  intros (Hi & (j & Hj & Hc) & Hs & Hd1 & Hd2 & Hv) Hne. unfold files_keep. cbn. split_and!; try done.
  exists j. split; [done|]. rewrite lookup_insert_ne; [done|]. congruence.
Qed.

Lemma directories_keep d dirs : files_keep d -> directories d ⊆ dirs -> files_keep (set_directories dirs d).
Proof. intros (Hi & Hf & Hs & Hd1 & Hd2 & Hv) Hsub. unfold files_keep. cbn. split_and!; try done; set_solver. Qed.

(** The file of the object holds the data. *)
Lemma survivor_data d i : files_keep d -> entries d !! object_place h = Some (FileEntry i) -> file_data d i = data.
Proof. intros (_ & (j & Hj & Hc) & _) Hi. unfold file_data. rewrite Hj in Hi. simplify_eq. by rewrite Hc. Qed.
End survival.

(** ** Names *)

Lemma hash_bytes h b : AssetHash_parse h = Ok h -> b ∈ h -> is_lower_hex b = true.
Proof.
  unfold AssetHash_parse. intros Hp Hb. pass guard Hp. zify_bool.
  match goal with E : forallb _ _ = true |- _ => rewrite forallb_forall in E; apply E end. by apply list_elem_of_In.
Qed.

(** Staging and quarantine names have a dot, which no hash has. *)
Lemma dotted_name h before after : AssetHash_parse h = Ok h -> before ++ lit "." ++ after <> h.
Proof.
  intros Hp <-. apply (hash_bytes _ (byte_of 46)) in Hp; [done|]. apply elem_of_app. right. left.
Qed.

Lemma hash_no_slash h : AssetHash_parse h = Ok h -> SLASH ∉ h.
Proof. intros Hp Hs. apply (hash_bytes _ SLASH) in Hp; [done|done]. Qed.

Lemma hex_encode_no_slash bs : SLASH ∉ hex_encode bs.
Proof.
  assert (Hd : forall n, hex_digit n <> SLASH).
  { intros n. unfold hex_digit. destruct (nth_in_or_default (Z.to_nat n) HEX (byte_of 0)) as [Hin|Hz]; [|by rewrite Hz].
    intros Heq. rewrite Heq in Hin. cbn in Hin. intuition discriminate. }
  unfold hex_encode. induction bs as [|b bs IH]; cbn [map concat]; [apply not_elem_of_nil|].
  rewrite elem_of_app, !elem_of_cons, elem_of_nil. naive_solver.
Qed.

(** The place that a path of four components resolves to. *)
Lemma resolved_object_path first second name :
  SLASH ∉ first -> SLASH ∉ second -> SLASH ∉ name ->
  resolved_place (child (child (child OBJECTS_DIRECTORY first) second) name)
  = Some (child (child OBJECTS_DIRECTORY first) second, name).
Proof.
  intros Hf Hs Hn. assert (Ho : SLASH ∉ OBJECTS_DIRECTORY) by (refine (bool_decide_unpack _ _); by vm_compute).
  assert (Hsplit : split_on SLASH (child (child (child OBJECTS_DIRECTORY first) second) name)
                   = [OBJECTS_DIRECTORY; first; second; name]).
  { unfold child. rewrite <- ?(assoc_L (++)). cbn [app]. rewrite <- ?(assoc_L (++)). cbn [app].
    rewrite split_on_app by done. rewrite <- ?(assoc_L (++)). cbn [app].
    rewrite split_on_app by done. rewrite split_on_app by done. by rewrite split_on_no. }
  unfold resolved_place. by rewrite Hsplit.
Qed.

(** * Assets: every operation keeps what survives

    The invariant of [AssetSurvival] through each operation of the store. *)

(** ** The bytes of a stream *)

(** What the reads of a stream hand over before its end. *)
Fixpoint stream (reads : list Read) : bytes :=
  match reads with
  | ReadChunk chunk :: reads' => if is_empty chunk then [] else chunk ++ stream reads'
  | _ => []
  end.

Definition last_bytes (n : nat) (bs : bytes) : bytes := drop (length bs - n) bs.

Lemma update_tail_last bs chunk :
  update_tail (last_bytes 16 bs) chunk = last_bytes 16 (bs ++ chunk).
Proof.
  unfold update_tail, last_bytes. change (Z.to_nat TAIL_BYTES) with 16%nat. unfold len, TAIL_BYTES.
  destruct (16 <=? Z.of_nat (length chunk)) eqn:H1; zify_bool.
  - rewrite length_app, drop_app_ge by lia. f_equal. lia.
  - set (tail := drop (length bs - 16) bs).
    assert (Ht : length tail = Nat.min (length bs) 16) by (unfold tail; rewrite length_drop; lia).
    destruct (Z.of_nat (length (tail ++ chunk)) >? 16) eqn:H2; zify_bool; rewrite length_app in *.
    + rewrite drop_app_le by lia. rewrite Ht. unfold tail. rewrite drop_drop, length_app. rewrite drop_app_le by lia. f_equal. f_equal. lia.
    + rewrite drop_app_le by lia. f_equal. unfold tail. f_equal. lia.
Qed.

Lemma extend_prefix_take bs chunk :
  extend_prefix (take (Z.to_nat PROBE_BYTES) bs) chunk = take (Z.to_nat PROBE_BYTES) (bs ++ chunk).
Proof.
  unfold extend_prefix, len. assert (Hp : Z.of_nat (Z.to_nat PROBE_BYTES) = PROBE_BYTES) by done.
  generalize dependent (Z.to_nat PROBE_BYTES). intros n Hp. rewrite <- Hp. clear Hp. rewrite length_take.
  rewrite take_app. destruct (_ <? _) eqn:Hlt; zify_bool.
  - f_equal. f_equal. lia.
  - replace (n - length bs)%nat with 0%nat by lia. by rewrite take_0, app_nil_r.
Qed.

(** What the copy has read so far, in whatever chunks it came. *)
Definition copied_so_far (bs : bytes) : CopiedObject :=
  mkCopied bs (len bs) (take (Z.to_nat PROBE_BYTES) bs) (last_bytes 16 bs).

Section operations.
Context `{AssetSystem} (owner : AssetOwner) (h : str) (data : bytes).
Hypothesis Hparse : AssetHash_parse h = Ok h.
Hypothesis Hdigest : digest_hash data = h.

#[local] Abbreviation I := (survives owner h data).
#[local] Abbreviation CK := (catalog_keeps owner h data).
#[local] Abbreviation FK := (files_keep h data).

Lemma keep_catalog d c : I d -> CK c -> I (set_catalog c d).
Proof. intros [_ Hf] Hc. by split. Qed.

Lemma keep_files d d' : I d -> catalog d' = catalog d -> FK d' -> I d'.
Proof. intros [Hc _] He Hf. split; [by rewrite He|done]. Qed.

(** Run a computation over steps that change neither. *)
Ltac run := intros; repeat (first [assumption | lazymatch goal with |- wp _ _ _ _ _ => progress store_step end]; intros).
Ltac oks := repeat match goal with E : Ok _ = Ok ?x |- _ => apply Ok_inj in E; subst x end.
Ltac after lem := eapply wp_post; [apply lem; try done|]; cbn beta.

Lemma quarantine_place name : (QUARANTINE_DIRECTORY, name) <> object_place h.
Proof. unfold object_place, child, OBJECTS_DIRECTORY, QUARANTINE_DIRECTORY. intros Heq. injection Heq. done. Qed.
Lemma staging_place name : (STAGING_DIRECTORY, name) <> object_place h.
Proof. unfold object_place, child, OBJECTS_DIRECTORY, STAGING_DIRECTORY. intros Heq. injection Heq. done. Qed.

(** ** Quarantine *)

(** The source of a move is not the object. *)
Definition other_source (source : option (str * str)) : Prop :=
  match source with Some place => place <> object_place h | None => True end.

Lemma complete_move_keeps intent source :
  intent_name intent <> h -> intent_hash intent <> Some h -> other_source source ->
  keeps I (complete_quarantine_move intent source).
Proof.
  intros Hname Hhash Hsrc d Hd. unfold complete_quarantine_move. apply wp_bind.
  eapply (wp_post _ _ _ (fun _ => I)).
  2:{ intros _ d1 Hd1. run. destruct Hd1 as [Hc Hf]. split; [by apply finalize_move_keeps|done]. }
  assert (Hmoved : forall d', I d' -> wp I I (_ ← connection; execute (fun c => Ok (mark_intent_moved (intent_name intent) c)))
                                        (fun _ => I) d').
  { intros d' Hd'. run. oks. apply keep_catalog; [done|]. by apply mark_intent_moved_keeps, Hd'. }
  assert (Hun : forall dir sname d', (dir, sname) <> object_place h -> I d' -> I (set_entries (delete (dir, sname) (entries d')) d')).
  { intros dir sname d' Hne Hd'. eapply keep_files; [done..|]. by apply unlink_keeps; [apply Hd'|]. }
  apply wp_when; [intros _|done]. apply wp_bind, wp_file_exists; [done| |]; [intros Ht|intros j Ht];
    (destruct source as [[dir sname]|]; [apply wp_bind, wp_file_exists; [done| |]; [intros Hs|intros k Hs]|apply wp_bind, wp_ret]).
  - by apply wp_bind, wp_fail.
  - apply wp_bind, wp_move_file; [done|]. intros i Hi _. cbn zeta.
    assert (H1 : I (set_entries (<[(QUARANTINE_DIRECTORY, intent_name intent) := FileEntry i]> (entries d)) d)).
    { eapply keep_files; [done..|]. apply link_keeps; [apply Hd|done|]. destruct Hd as [_ [Hin _]]. by eapply Hin. }
    split_and!; [done|by apply Hun|apply Hmoved; by apply Hun].
  - by apply wp_bind, wp_fail.
  - apply wp_bind, wp_ret. by apply Hmoved.
  - apply wp_bind, wp_bind, wp_same_file_as; [done|]. intros i i' _ _. destruct (i =? i'); [|by apply wp_fail].
    apply wp_bind, wp_remove_existing; [done|]. intros _.
    apply wp_effect; [intros _; by apply Hun|]. apply Hmoved. by apply Hun.
  - apply wp_bind, wp_ret. by apply Hmoved.
Qed.

Lemma quarantine_file_keeps dir name path original reason now :
  (dir, name) <> object_place h -> original <> Some h -> resolved_place path <> Some (object_place h) ->
  keeps I (quarantine_file dir name path original reason now).
Proof.
  intros Hplace Horig Hpath d Hd. unfold quarantine_file. run. 
  assert (Hname : default (lit "unknown") original ++ lit "-" ++ sys_uuid t ++ lit ".quarantine" <> h).
  { replace (default (lit "unknown") original ++ lit "-" ++ sys_uuid t ++ lit ".quarantine")
      with ((default (lit "unknown") original ++ lit "-" ++ sys_uuid t) ++ lit "." ++ lit "quarantine")
      by (rewrite <- !(assoc_L (++)); done).
    by apply dotted_name. }
  after complete_move_keeps.
  - apply keep_catalog; [done|]. eapply insert_intent_keeps; [apply Hd| |eassumption].
    intros _. cbn. split_and!; [done|done|]. intros p [= <-]. done.
  - run.
Qed.

Lemma complete_purge_keeps intent : keeps I (complete_quarantine_purge intent).
Proof.
  intros d Hd. unfold complete_quarantine_purge. apply wp_bind. eapply (wp_post _ _ _ (fun _ => I)).
  2:{ intros _ d1 Hd1. run. destruct Hd1 as [Hc Hf]. split; [by apply finalize_purge_keeps|done]. }
  assert (Hd' : I (set_entries (delete (QUARANTINE_DIRECTORY, intent_name intent) (entries d)) d)).
  { eapply keep_files; [done..|]. apply unlink_keeps; [apply Hd|apply quarantine_place]. }
  run; oks; apply keep_catalog; try done; apply mark_intent_moved_keeps; apply Hd || apply Hd'.
Qed.

Lemma purge_file_keeps name : keeps I (purge_quarantine_file name).
Proof.
  intros d Hd. unfold purge_quarantine_file. run; apply complete_purge_keeps, keep_catalog; try done;
    (eapply insert_intent_keeps; [apply Hd| |eassumption]); done.
Qed.

Lemma recover_intents_keeps : keeps I recover_quarantine_intents.
Proof.
  intros d Hd. unfold recover_quarantine_intents. store_step; [done|]. apply wp_bind, wp_query; [done|].
  apply wp_bind, wp_lift; [|done]. intros intents Hint. apply (wp_forM _ _ _ (fun _ => I)); [|done].
  intros u i d' Hin Hd'.
  assert (Hharm : harmless_intent h i).
  { apply mapM_result_Ok in Hint. apply list_elem_of_lookup in Hin as [k Hk].
    destruct (Forall2_lookup_r _ _ _ _ _ Hint Hk) as (j & Hj & Hdec).
    assert (j = i) as ->.
    { unfold decode_quarantine_intent in Hdec. repeat (apply bind_Ok in Hdec as (? & _ & Hdec)). congruence. }
    apply list_elem_of_lookup_2 in Hj. rewrite sort_by_perm in Hj. apply list_elem_of_fmap in Hj as ([n i'] & -> & Hn).
    apply elem_of_map_to_list in Hn. by eapply (ck_intents _ _ _ _ (proj1 Hd)). }
  unfold recover_intent. destruct (intent_operation i) eqn:Hop; [|by apply complete_purge_keeps].
  destruct (source_relative_path i) as [path|] eqn:Hpath; [|by apply wp_fail].
  destruct (Hharm Hop) as (Hn & Hhash & Hsrc). unfold resolve_object_relative_path. apply wp_bind.
  eapply (wp_post _ _ _ (fun source d'' => I d'' /\ other_source source)).
  2:{ intros source d'' [Hd'' Hs]. by apply complete_move_keeps. }
  specialize (Hsrc path Hpath). unfold resolved_place in Hsrc.
  destruct (split_on SLASH path) as [|p1 [|p2 [|p3 [|p4 [|]]]]]; run; split; try done.
  intros Heq. apply Hsrc. f_equal. exact Heq.
Qed.

(** ** Ingestion *)

(** The inode of a staged file is not the object's. *)
Definition apart (inode : Z) (d : Disk) : Prop := entries d !! object_place h <> Some (FileEntry inode).

Lemma copy_keeps reads inode bs d :
  I d -> apart inode d ->
  wp I I (copy_and_hash reads inode (copied_so_far bs))
    (fun copied d' => I d' /\ apart inode d' /\ copied = copied_so_far (bs ++ stream reads)) d.
Proof.
  revert bs d. induction reads as [|[chunk|] reads IH]; intros bs d Hd Ha; cbn [copy_and_hash stream];
    (apply wp_bind, wp_check_cancelled; [done|]).
  - unfold finish_copy. destruct (_ =? 0); [by apply wp_fail|]. store_step. by rewrite app_nil_r.
  - destruct (is_empty chunk); [unfold finish_copy; destruct (_ =? 0); [by apply wp_fail|]; store_step; by rewrite app_nil_r|].
    apply wp_bind, wp_lift; [|done]. intros size ->%add_read_Ok. apply wp_bind, wp_effect; [done|]. store_step.
    cbn [copied_data copied_size copied_prefix copied_tail copied_so_far].
    rewrite extend_prefix_take, update_tail_last.
    replace (len bs + len chunk) with (len (bs ++ chunk)) by (unfold len; rewrite length_app; lia).
    rewrite (assoc_L (++)). apply (IH (bs ++ chunk)); [|done].
    eapply keep_files; [done..|]. by apply append_keeps; [apply Hd|].
  - by apply wp_fail.
Qed.

Lemma allocate_keeps d :
  I d -> wp I I allocate_staging (fun r d' => I d' /\ apart r.2 d') d.
Proof.
  intros Hd. unfold allocate_staging. store_step; [done|]. generalize 8%nat. intros n. revert d Hd.
  assert (Hdel : forall d' name, I d' -> I (set_catalog (delete_staging name (catalog d')) d')).
  { intros d' name Hd'. apply keep_catalog; [done|]. by apply (staging_keeps _ _ _ name 0), Hd'. }
  induction n as [|n IH]; intros d Hd; cbn [allocate_staging_loop]; [by apply wp_fail|].
  store_step. store_step; [done|]. apply wp_bind, wp_execute_count; [done|].
  set (name := sys_uuid t ++ lit ".partial").
  assert (Hd1 : I (set_catalog (insert_staging name now (catalog d)).1 d)).
  { apply keep_catalog; [done|]. by apply staging_keeps, Hd. }
  destruct (insert_staging name now (catalog d)).2; [|by apply IH].
  assert (Hname : name <> h) by by apply (dotted_name h (sys_uuid t) (lit "partial")).
  store_step. apply wp_create_new_file.
  - intros _ e. assert (wp I I (fail (A := str * Z) e) (fun r d' => I d' /\ apart r.2 d') (set_catalog (insert_staging name now (catalog d)).1 d))
      by by apply wp_fail.
    destruct e; try done. store_step; [done|]. oks. apply wp_fail. by apply Hdel.
  - intros _. store_step; [done|]. oks. apply IH. by apply Hdel.
  - intros Hnone. store_step. split.
    + eapply keep_files; [done..|]. apply create_keeps; [apply Hd1|done].
    + unfold apart. cbn. destruct Hd as [_ (Hi & (j & Hj & _) & _)].
      rewrite lookup_insert_ne by apply staging_place. rewrite Hj. apply Hi in Hj. intros [= ->]. lia.
Qed.

Lemma ensure_parent_keeps h' d :
  I d -> wp I I (ensure_object_parent h') (fun dir d' => I d' /\ dir = (object_place h').1 /\ entries d' = entries d) d.
Proof.
  intros Hd. unfold ensure_object_parent.
  assert (Hset : forall d' x, I d' -> I (set_directories ({[x]} ∪ directories d') d')).
  { intros d' x Hd'. eapply keep_files; [done..|]. apply directories_keep; [apply Hd'|set_solver]. }
  run; try (by repeat apply Hset); try (split_and!; [by repeat apply Hset|done|done]).
Qed.

(** The object that an ingest writes: another one, or the same bytes. *)
Definition compatible (h' : str) (size : Z) : Prop := SLASH ∉ h' /\ (h' = h -> size = len data).

Lemma elem_of_take_drop {A} (x : A) n m (l : list A) : x ∈ take n (drop m l) -> x ∈ l.
Proof. intros Hx. apply elem_of_take in Hx as (i & Hi & _). rewrite lookup_drop in Hi. by eapply list_elem_of_lookup_2. Qed.

Lemma relative_path_place h' : SLASH ∉ h' -> resolved_place (relative_object_path h') = Some (object_place h').
Proof.
  intros Hs. unfold relative_object_path, object_place, first_shard, second_shard.
  assert (Ht : SLASH ∉ take 2 h') by (intros Hin; apply Hs; apply (elem_of_take_drop _ 2 0); by rewrite drop_0).
  assert (Hd : SLASH ∉ take 2 (drop 2 h')) by (intros Hin; apply Hs; by eapply elem_of_take_drop).
  by rewrite resolved_object_path.
Qed.

Lemma matches_refl h' n : matches_expectation (h', n) h' n = true.
Proof. unfold matches_expectation. cbn [fst snd]. by rewrite str_eqb_refl, Z.eqb_refl. Qed.

Lemma survivor_hash X (Q : str * Z -> Disk -> Prop) d i :
  I d -> entries d !! object_place h = Some (FileEntry i) -> Q (h, len data) d -> wp X I (hash_open_file i) Q d.
Proof. intros Hd Hi HQ. apply wp_hash_open_file; [done|]. by rewrite (survivor_data h data d i (proj2 Hd) Hi), Hdigest. Qed.

Lemma prepare_keeps h' size now d :
  I d -> compatible h' size -> wp I I (prepare_destination (object_place h').1 h' size now) (fun _ => I) d.
Proof.
  intros Hd [Hs Hc]. unfold prepare_destination. apply wp_bind, wp_open_file; [done| |]; [intros _; by store_step|].
  intros i Hi. destruct (decide (h' = h)) as [->|Hne].
  - apply wp_bind, survivor_hash; [done|exact Hi|]. rewrite Hc by done. rewrite matches_refl. by store_step.
  - apply wp_bind, wp_hash_open_file; [done|]. destruct (matches_expectation _ _ _); [by store_step|].
    apply wp_bind. after quarantine_file_keeps; [| | |run].
    + unfold object_place. congruence.
    + congruence.
    + rewrite relative_path_place by done. intros [= Heq]. by apply Hne.
Qed.

Lemma publish_keeps name h' size d :
  I d -> wp I I (publish_or_deduplicate name (object_place h').1 h' size) (fun _ => I) d.
Proof.
  intros Hd. unfold publish_or_deduplicate. apply wp_bind, wp_hard_link_to; [done| |].
  - intros _. run.
  - intros i Hi Ht. cbn zeta.
    assert (Hne : h' <> h) by (intros ->; destruct Hd as [_ (_ & (j & Hj & _) & _)]; change ((object_place h).1, h) with (object_place h) in Ht; congruence).
    assert (Hd' : I (set_entries (<[((object_place h').1, h') := FileEntry i]> (entries d)) d)).
    { eapply keep_files; [done..|]. apply link_keeps; [apply Hd|done|]. destruct Hd as [_ [Hin _]]. by eapply Hin. }
    split; [done|]. by store_step.
Qed.

Lemma destination_keeps dir h' size : keeps I (destination_matches_expectation dir h' size).
Proof. intros d Hd. unfold destination_matches_expectation. run. Qed.

Lemma ingest_rows_keeps h' size mime now o c c' :
  CK c -> compatible h' size -> ingest_rows h' size mime now o c = Ok c' -> CK c'.
Proof.
  intros Hc [_ Hs]. unfold ingest_rows. intros (size' & Hz & Hr)%bind_Ok.
  assert (size' = size) as -> by (unfold encode_size in Hz; destruct (_ <=? _); congruence).
  apply bind_Ok in Hr as (c1 & H1 & Hr). apply (put_object_unique_keeps owner h data) in H1; [|done|cbn; auto].
  destruct o; [by eapply insert_ref_keeps|congruence].
Qed.

(** The bytes are not another stream with the hash of the object. *)
Definition no_collision (bs : bytes) : Prop := digest_hash bs = h -> len bs = len data.

Lemma ingest_staged_keeps reads request name inode d :
  I d -> apart inode d -> no_collision (stream reads) ->
  wp I I (ingest_staged reads request name inode) (fun _ => I) d.
Proof.
  intros Hd Ha Hcol. unfold ingest_staged. apply wp_bind. eapply wp_post; [by apply (copy_keeps reads inode [])|].
  intros copied d1 (Hd1 & _ & ->). cbn [app copied_size copied_data copied_prefix copied_tail copied_so_far].
  assert (Hcomp : compatible (digest_hash (stream reads)) (len (stream reads))).
  { split; [apply hex_encode_no_slash|]. exact Hcol. }
  apply wp_bind, wp_effect; [done|]. apply wp_bind, wp_lift; [|done]. intros mime _. store_step; [done|].
  apply wp_bind. eapply wp_post; [by apply ensure_parent_keeps|]. intros dir d2 (Hd2 & -> & _).
  apply wp_bind. eapply wp_post; [by apply prepare_keeps|]. intros dedup d3 Hd3.
  apply wp_bind, wp_effect; [done|]. apply wp_bind, wp_query; [done|]. unfold id.
  pose proof (proj1 Hd3) as Hc. revert Hc. generalize (catalog d3). intros c Hc.
  apply wp_bind, wp_lift; [|done]. intros _ _. apply wp_bind.
  eapply (wp_post _ _ _ (fun _ => I)); [destruct dedup; [by apply destination_keeps|by wp_step]|].
  intros still d4 Hd4. apply wp_bind.
  eapply (wp_post _ _ _ (fun _ => I)); [destruct still; [by wp_step|by apply publish_keeps]|]. intros shared d5 Hd5.
  apply wp_bind, wp_effect; [done|]. apply wp_bind, wp_lift; [|done]. intros rows Hrows.
  apply ingest_rows_keeps in Hrows; [|done|done]. pose proof (keep_catalog d5 rows Hd5 Hrows) as Hd6.
  clear -Hd5 Hd6. unfold get_object. run.
Qed.

Lemma cleanup_staged_keeps name : keeps I (cleanup_staged_file name).
Proof.
  intros d Hd. unfold cleanup_staged_file, remove_staging_record.
  assert (Hd' : I (set_entries (delete (STAGING_DIRECTORY, name) (entries d)) d)).
  { eapply keep_files; [done..|]. apply unlink_keeps; [apply Hd|apply staging_place]. }
  run; oks; apply keep_catalog; try done; by apply (staging_keeps _ _ _ name 0), Hd.
Qed.

Lemma ingest_keeps reads request : no_collision (stream reads) -> keeps I (ingest reads request).
Proof.
  intros Hcol d Hd. unfold ingest. apply wp_bind, wp_lift; [|done]. intros _ _. store_step; [done|].
  apply wp_bind. eapply wp_post; [by apply allocate_keeps|]. intros [name inode] d1 [Hd1 Ha]. store_step.
  eapply wp_mono; [done| | |by apply ingest_staged_keeps].
  - intros d2 Hd2 e. store_step. eapply wp_mono; [done| | |by apply cleanup_staged_keeps]; run.
  - intros outcome d2 Hd2. store_step. eapply wp_mono; [done| | |by apply cleanup_staged_keeps]; run.
Qed.

(** ** References and sessions *)

Lemma add_refs_keeps refs : keeps I (add_refs refs).
Proof.
  intros d Hd. unfold add_refs. run. apply keep_catalog; [done|].
  match goal with E : foldM_result _ _ _ = Ok _ |- _ => revert E end.
  apply foldM_result_inv; [|apply Hd]. intros c r c' Hc. unfold add_ref. intros (_ & _ & Hr)%bind_Ok.
  repeat case_match; try done. by eapply insert_ref_keeps.
Qed.

Lemma remove_refs_keeps refs : (forall r, r ∈ refs -> ref_owner r <> owner \/ ref_hash r <> h) -> keeps I (remove_refs refs).
Proof.
  intros Hrefs d Hd. unfold remove_refs. destruct (is_empty refs); [by store_step|]. store_step; [done|]. store_step; [done|].
  apply wp_bind, wp_query; [done|]. unfold id. apply wp_bind, wp_lift; [|done]. intros [c n] Hf.
  apply wp_bind, wp_commit; [done|]. store_step. apply keep_catalog; [done|].
  cut (CK (c, n).1); [done|]. revert Hf. assert (H0 : CK (catalog d, 0).1) by apply Hd. revert H0.
  generalize (catalog d, 0). clear -Hrefs. induction refs as [|r refs IH]; intros acc Hacc Hf; cbn [foldM_result] in Hf; [congruence|].
  apply bind_Ok in Hf as (acc' & Hr & Hf). eapply (IH); [|clear Hf|exact Hf].
  { intros r' Hr'. apply Hrefs. by right. }
  unfold remove_ref in Hr. apply bind_Ok in Hr as (_ & _ & Hr). destruct acc as [c1 k]. cbn in Hacc.
  assert (Hne : (ref_owner r, ref_hash r) <> (owner, h)) by (destruct (Hrefs r ltac:(left)); congruence).
  pose proof (delete_ref_keeps owner h data (ref_owner r) (ref_hash r) c1 Hacc Hne) as H1.
  destruct (delete_ref _ _ c1). apply Ok_inj in Hr. by subst acc'.
Qed.

Lemma remove_owner_refs_keeps o : o <> owner -> keeps I (remove_owner_refs o).
Proof.
  intros Hne d Hd. unfold remove_owner_refs. run. apply keep_catalog; [done|]. by apply delete_owner_refs_keeps; [apply Hd|].
Qed.

Lemma begin_session_keeps o : owner_type o <> owner_type owner -> keeps I (begin_temporary_owner_session o).
Proof.
  intros Hne d Hd. unfold begin_temporary_owner_session, begin_session. run. apply keep_catalog; [done|].
  match goal with E : _ = Ok ?c |- CK ?c => revert E; case_match; [done|]; intros [= <-] end.
  apply set_sessions_keeps; [apply Hd|]. intros o' lease Ho. destruct (decide (o = o')) as [<-|Hno]; [done|].
  rewrite lookup_insert_ne in Ho by done. by eapply (ck_sessions _ _ _ _ (proj1 Hd)).
Qed.

Lemma renew_session_keeps o : keeps I (renew_temporary_owner_session o).
Proof.
  intros d Hd. unfold renew_temporary_owner_session. run. apply keep_catalog; [done|].
  apply set_sessions_keeps; [apply Hd|]. intros o' lease Ho. destruct (decide (o = o')) as [<-|Hno].
  - rewrite lookup_alter_eq in Ho. destruct (asset_temporary_owner_sessions (catalog d) !! o) eqn:Hs; [|done].
    by eapply (ck_sessions _ _ _ _ (proj1 Hd)).
  - rewrite lookup_alter_ne in Ho by done. by eapply (ck_sessions _ _ _ _ (proj1 Hd)).
Qed.

Lemma delete_session_keeps o c : CK c -> CK (delete_session o c).
Proof.
  intros Hc. apply set_sessions_keeps; [done|]. intros o' lease Ho. apply lookup_delete_Some in Ho as [_ Ho].
  by eapply (ck_sessions _ _ _ _ Hc).
Qed.

Lemma finish_empty_keeps o : keeps I (finish_empty_temporary_owner_session o).
Proof.
  intros d Hd. unfold finish_empty_temporary_owner_session, finish_empty. run. apply keep_catalog; [done|].
  match goal with E : _ = Ok ?c |- CK ?c => pass guard E; pass guard E; apply Ok_inj in E; subst c end.
  apply delete_session_keeps, Hd.
Qed.

Lemma promotion_keeps temporary final expected :
  temporary <> owner -> keeps I (commit_temporary_owner_refs temporary final expected).
Proof.
  intros Hne d Hd. unfold commit_temporary_owner_refs. run. apply keep_catalog; [done|].
  match goal with E : promote_refs _ _ _ _ _ = Ok _ |- _ => rename E into Hp end. unfold promote_refs in Hp.
  apply bind_Ok in Hp as (c1 & Hins & Hp). apply (insert_refs_keeps owner h data) in Hins; [|apply Hd].
  pose proof (delete_owner_refs_keeps owner h data temporary c1 Hins Hne) as Hdel. destruct (delete_owner_refs temporary c1).
  pass guard Hp. pass guard Hp. apply Ok_inj in Hp. injection Hp as <- <-. by apply delete_session_keeps.
Qed.

(** ** Rollback and recovery *)

Lemma unlink_object_keeps h' : h' <> h -> keeps I (unlink_object h').
Proof.
  intros Hne d Hd. unfold unlink_object. apply wp_bind, wp_find_locator; [done|intros _; by store_step|]. intros _.
  assert (Hd' : I (set_entries (delete (object_place h') (entries d)) d)).
  { eapply keep_files; [done..|]. apply unlink_keeps; [apply Hd|]. intros Heq. by apply object_place_inj in Heq. }
  run.
Qed.

Lemma rollback_one_keeps o h' : o <> owner -> keeps I (rollback_one o h').
Proof.
  intros Hne d Hd. unfold rollback_one. apply wp_bind, wp_lift; [|done]. intros h'' _.
  apply wp_bind, wp_query; [done|]. unfold id. apply wp_bind. eapply (wp_post _ _ _ (fun _ d' => I d')).
  { apply wp_when; intros Ho; [|done]. apply unlink_object_keeps; [|done]. intros ->.
    apply andb_true_iff in Ho as [_ Ho]. apply negb_true_iff, not_true_iff_false in Ho. apply Ho, has_other_reference_true.
    exists owner. split; [done|apply (proj1 Hd)]. }
  intros _ d1 Hd1. apply wp_bind, wp_effect; [done|].
  pose proof (rollback_rows_keeps owner h data o h'' (hash_active h'' (catalog d) && negb (has_other_reference o h'' (catalog d)))
                (catalog d) (proj1 Hd) Hne) as Hr.
  destruct (rollback_rows _ _ _ _) as [c n]. run. by apply keep_catalog.
Qed.

Lemma rollback_loop_keeps fuel o removed : o <> owner -> keeps I (rollback_loop fuel o removed).
Proof.
  intros Hne. revert removed. induction fuel as [|fuel IH]; intros removed d Hd; cbn [rollback_loop]; run; try done.
  after rollback_one_keeps. intros. by apply IH.
Qed.

Lemma rollback_locked_keeps o : o <> owner -> keeps I (rollback_temporary_owner_locked o).
Proof.
  intros Hne d Hd. unfold rollback_temporary_owner_locked. store_step. apply wp_bind. after rollback_loop_keeps.
  intros n d1 Hd1. run. oks. apply keep_catalog; [done|]. apply delete_session_keeps, Hd1.
Qed.

Lemma rollback_keeps o : o <> owner -> keeps I (rollback_temporary_owner o).
Proof. intros Hne d Hd. unfold rollback_temporary_owner. run. by apply rollback_locked_keeps. Qed.

Lemma recover_loop_keeps fuel kind before removed : kind <> owner_type owner -> keeps I (recover_loop fuel kind before removed).
Proof.
  intros Hne. revert removed. induction fuel as [|fuel IH]; intros removed d Hd; cbn [recover_loop].
  - run.
  - store_step; [done|]. apply wp_bind, wp_query; [done|]. unfold id.
    destruct (recovery_candidate kind before (catalog d)) as [[oid has_lease]|]; [|by run].
    assert (Hgo : forall c, CK c ->
      wp I I (_ ← commit c; o ← lift (AssetOwner_new kind oid); n ← rollback_temporary_owner_locked o;
                 recover_loop fuel kind before (saturating_add U64_MAX removed n)) (fun _ => I) d).
    { intros c Hc. pose proof (keep_catalog d c Hd Hc) as Hd'. apply wp_bind, wp_commit; [done|]. apply wp_bind, wp_lift; [|done].
      intros o Ho. apply wp_bind. after rollback_locked_keeps; [|intros; by apply IH]. intros ->.
      unfold AssetOwner_new in Ho. apply bind_Ok in Ho as (? & _ & Ho). apply bind_Ok in Ho as (? & _ & Ho).
      injection Ho as Ho. by rewrite <- Ho in Hne. }
    destruct has_lease; [|by apply Hgo, Hd]. unfold claim_session. destruct (_ !! mkOwner kind oid) as [lease|].
    + destruct (lease_updated lease <? before); [|by run; apply IH]. apply Hgo, delete_session_keeps, Hd.
    + run. by apply IH.
Qed.

Lemma recover_before_keeps kind before : kind <> owner_type owner -> keeps I (recover_temporary_owner_type_before kind before).
Proof. intros Hne d Hd. unfold recover_temporary_owner_type_before. run. by apply recover_loop_keeps. Qed.

Lemma recover_expired_keeps : keeps I recover_expired_temporary_owner_sessions.
Proof.
  intros d Hd. unfold recover_expired_temporary_owner_sessions. store_step; [done|]. store_step; [done|].
  apply wp_bind, wp_query; [done|]. apply (wp_forM _ _ _ (fun _ => I)); [|done]. intros removed kind d' Hin Hd'.
  apply wp_bind. after recover_before_keeps; [|by run].
  unfold expired_types in Hin. apply elem_of_take in Hin as (i & Hi & _). apply list_elem_of_lookup_2 in Hi.
  rewrite sort_by_perm, elem_of_remove_dups in Hi. apply list_elem_of_fmap in Hi as ([o lease] & -> & Ho).
  apply list_elem_of_In, List.filter_In in Ho as [Ho _]. apply list_elem_of_In, elem_of_map_to_list in Ho.
  by eapply (ck_sessions _ _ _ _ (proj1 Hd)).
Qed.

(** ** Backups *)

Section backups.
Hypothesis Hback : owner_type owner <> BACKUP_OWNER_TYPE.

Lemma backup_owner_other id : backup_owner id <> owner.
Proof. intros Heq. apply Hback. by rewrite <- Heq. Qed.

Lemma release_session_keeps id c : CK c -> CK (release_session id c).1.
Proof.
  intros Hc. unfold release_session. pose proof (delete_owner_refs_keeps owner h data (backup_owner id) c Hc (backup_owner_other id)) as Hd.
  destruct (delete_owner_refs _ c). by apply set_backup_keeps.
Qed.

Lemma cleanup_stale_keeps before limit c c' r :
  CK c -> cleanup_stale_backup_sessions_in_transaction before limit c = Ok (c', r) -> CK c'.
Proof.
  intros Hc. unfold cleanup_stale_backup_sessions_in_transaction. intros ([c1 n] & Hf & Hr)%bind_Ok.
  apply Ok_inj in Hr. injection Hr as <- <-.
  cut (CK (c1, n).1); [done|]. revert Hf. apply (foldM_result_inv (fun acc => CK acc.1)); [|done].
  intros [a k] id a' Ha. unfold release_stale. pose proof (release_session_keeps id a Ha). destruct (release_session id a).
  intros (pins & _ & Hr)%bind_Ok. apply Ok_inj in Hr. by subst a'.
Qed.

Lemma open_backup_keeps id now c c' : CK c -> open_backup_session id now c = Ok c' -> CK c'.
Proof.
  intros Hc. unfold open_backup_session. intros ([c1 r] & Hs & Hr)%bind_Ok. apply cleanup_stale_keeps in Hs; [|done].
  apply bind_Ok in Hr as (c2 & Hc2 & Hr). eapply insert_refs_keeps; [|exact Hr]. revert Hc2.
  case_match; [|case_match; [done|]]; intros Hc2; apply Ok_inj in Hc2; subst c2; [|by apply set_backup_keeps].
  apply delete_owner_refs_keeps; [by apply set_backup_keeps|apply backup_owner_other].
Qed.

Lemma copy_pages_keeps rounds : keeps I (copy_pages rounds).
Proof. induction rounds as [|b rounds IH]; intros d Hd; cbn [copy_pages]; run. by apply IH. Qed.

Lemma begin_backup_keeps id target rounds : keeps I (begin_backup_snapshot id target rounds).
Proof.
  assert (Habandon : keeps I (abandon_backup_snapshot_on_connection id)).
  { intros d Hd. unfold abandon_backup_snapshot_on_connection. apply wp_bind, wp_query; [done|].
    pose proof (release_session_keeps id (catalog d) (proj1 Hd)) as Hr. destruct (release_session id (catalog d)).
    run. by apply keep_catalog. }
  assert (Hwrite : keeps I (write_snapshot target rounds)).
  { intros d Hd. unfold write_snapshot. run. after copy_pages_keeps. run. }
  intros d Hd. unfold begin_backup_snapshot. run. eapply wp_mono; [done| | |apply Hwrite].
  - intros d1 Hd1 e. store_step. store_step.
    + intros _ e'. apply wp_bind. after Habandon. run.
    + store_step. apply wp_bind. after Habandon. run.
  - run.
  - apply keep_catalog; [done|]. eapply open_backup_keeps; [apply Hd|eassumption].
Qed.

Lemma backup_keeps id before limit :
  keeps I (renew_backup_snapshot id) /\ keeps I (abandon_backup_snapshot id) /\
    keeps I (cleanup_stale_backup_snapshots before limit) /\ keeps I cleanup_expired_backup_snapshots.
Proof.
  assert (Hs : forall before limit, keeps I (cleanup_stale_backup_snapshots before limit)).
  { intros b l d Hd. unfold cleanup_stale_backup_snapshots. run. apply keep_catalog; [done|].
    eapply cleanup_stale_keeps; [apply Hd|eassumption]. }
  split_and!; [| |done|]; intros d Hd.
  - unfold renew_backup_snapshot. run. apply keep_catalog; [done|]. by apply set_backup_keeps, Hd.
  - unfold abandon_backup_snapshot, abandon_backup_snapshot_on_connection. store_step; [|done]. run. apply keep_catalog; [done|].
    match goal with E : release_session _ _ = (?c, ?n) |- CK ?c => change (CK (c, n).1); rewrite <- E end.
    apply release_session_keeps, Hd.
  - unfold cleanup_expired_backup_snapshots. run. by apply Hs.
Qed.
End backups.

(** ** Reconciliation *)

Lemma located_file h' d :
  I d -> wp I I (open_located h')
    (fun r d' => d' = d /\ match r with
                           | Ok None => h' <> h
                           | Ok (Some (dir, i)) => dir = (object_place h').1 /\ entries d !! object_place h' = Some (FileEntry i)
                           | Err _ => True
                           end) d.
Proof.
  intros Hd. destruct Hd as [Hc Hf]. pose proof Hf as (_ & (j & Hj & _) & _ & Hd1 & Hd2 & _). assert (Hd : I d) by done.
  unfold open_located. apply wp_bind, wp_find_locator; [done| |].
  - intros Hn. store_step. split; [done|]. intros ->. tauto.
  - intros _. apply wp_bind, wp_attempt, wp_open_file; [by intros; store_step| |].
    + intros Hn. store_step. split; [done|]. intros ->. change ((object_place h).1, h) with (object_place h) in Hn. congruence.
    + intros i Hi. by store_step.
Qed.

(** A row of the object as a listing shows it. *)
Definition listed_right (object : AssetObject) : Prop :=
  SLASH ∉ object_hash object /\ (object_hash object = h -> object_size object = len data).

Lemma reconcile_object_keeps now found object : listed_right object -> keeps I (reconcile_object now found object).
Proof.
  intros [Hslash Hlist] d Hd. unfold reconcile_object. store_step; [done|]. apply wp_bind.
  eapply (wp_post _ _ _ (fun _ => I)).
  { run. apply keep_catalog; [done|]. match goal with E : repair_path _ _ = Ok _ |- _ => revert E end.
    unfold repair_path. destruct (asset_objects (catalog d) !! object_hash object) as [row|] eqn:Hrow.
    - apply put_object_unique_keeps; [apply Hd|]. intros Heq. cbn.
      destruct (ck_row _ _ _ _ (proj1 Hd)) as (row' & Hr & Hs & Hz). rewrite Heq, Hr in Hrow. injection Hrow as <-. done.
    - intros Hr. apply Ok_inj in Hr as <-. apply Hd. }
  intros found' d1 Hd1. apply wp_bind. eapply wp_post; [by apply located_file|]. intros opened d2 [-> Ho].
  destruct opened as [[[dir i]|]|e]; [|run; oks; apply keep_catalog; [done|]|run].
  - destruct Ho as [-> Hi]. destruct (decide (object_hash object = h)) as [Heq|Hne].
    + rewrite Heq in Hi. apply wp_bind, survivor_hash; [done|done|].
      rewrite Heq, (Hlist Heq), matches_refl. cbn [negb]. run. oks. apply keep_catalog; [done|].
      apply update_object_keeps; [apply Hd1|done].
    + apply wp_bind, wp_hash_open_file; [done|]. destruct (negb _).
      * apply wp_bind. after quarantine_file_keeps; [| | |run].
        -- unfold object_place. congruence.
        -- congruence.
        -- rewrite relative_path_place by done. intros [= Heq]. by apply Hne.
      * run. oks. apply keep_catalog; [done|]. apply update_object_keeps; [apply Hd1|done].
  - apply update_object_keeps; [apply Hd1|done].
Qed.

Lemma list_objects_keeps cursor limit d :
  I d -> wp I I (list_objects cursor limit) (fun page d' => I d' /\ Forall listed_right (page_objects page)) d.
Proof.
  intros Hd. unfold list_objects. apply wp_bind, wp_lift; [|done]. intros _ _. store_step; [done|].
  apply wp_bind, wp_query; [done|]. unfold id. apply wp_bind, wp_lift; [|done]. intros rows Hrows. store_step. split; [done|].
  cbn [page_objects]. apply Forall_take. apply mapM_result_Ok in Hrows. clear -Hrows Hd.
  induction Hrows as [|k row ks rows Hk _ IH]; cbn; [constructor|]. destruct row as [object|]; [|done].
  constructor; [|done]. apply get_object_row_Some in Hk as (Hh & Hpk & row & Hrow & Hsize).
  split; rewrite Hh; [by apply hash_no_slash|]. intros ->. destruct (ck_row _ _ _ _ (proj1 Hd)) as (row' & Hr & _ & Hz). congruence.
Qed.

Lemma reconcile_page_keeps cursor limit : keeps I (reconcile_catalog_page cursor limit).
Proof.
  intros d Hd. unfold reconcile_catalog_page. apply wp_bind, wp_lift; [|done]. intros _ _. store_step; [done|].
  apply wp_bind. eapply wp_post; [by apply list_objects_keeps|]. intros page d1 [Hd1 Hlist]. store_step; [done|]. store_step; [done|].
  apply wp_bind. eapply (wp_post _ _ _ (fun _ => I)); [|intros; by store_step]. apply (wp_forM _ _ _ (fun _ => I)); [|done].
  intros found object d2 Hin Hd2. apply reconcile_object_keeps; [|done]. apply elem_of_take in Hin as (i & Hi & _).
  by eapply Forall_lookup_1.
Qed.

(** ** Mark and sweep, cleanup *)

Lemma sweep_one_keeps before removed h' : keeps I (sweep_one before removed h').
Proof.
  intros d Hd. unfold sweep_one. store_step; [done|]. apply wp_bind, wp_query; [done|]. unfold id.
  destruct (is_orphan before (catalog d) h') eqn:Ho; cbn [negb]; [|by run].
  assert (Hne : h' <> h).
  { intros ->. unfold is_orphan in Ho. case_match; [|done]. apply andb_true_iff in Ho as [_ Ho].
    apply negb_true_iff, not_true_iff_false in Ho. apply Ho, has_reference_true. exists owner. apply (proj1 Hd). }
  pose proof (delete_orphan_keeps owner h data h' (catalog d) (proj1 Hd)) as Hc.
  assert (Hd' : I (set_entries (delete (object_place h') (entries d)) d)).
  { eapply keep_files; [done..|]. apply unlink_keeps; [apply Hd|]. intros Heq. by apply object_place_inj in Heq. }
  apply wp_bind, wp_find_locator; [done| |].
  - intros _. run. by apply keep_catalog.
  - intros _. unfold remove_opened. run; by apply keep_catalog.
Qed.

Lemma mark_sweep_keeps cursor limit before : keeps I (mark_sweep_page cursor limit before).
Proof.
  intros d Hd. unfold mark_sweep_page. run.
  eapply wp_post; [apply keeps_forM; [apply sweep_one_keeps|done]|]. run.
Qed.

Lemma cleanup_internal_keeps table cursor limit before : keeps I (cleanup_internal table cursor limit before).
Proof.
  intros d Hd. unfold cleanup_internal. run. eapply wp_post; [apply keeps_forM; [|done]|run].
  intros u name d' Hd'. unfold cleanup_one. apply wp_bind, wp_lift; [|done]. intros _ _. destruct table; [|by apply purge_file_keeps].
  assert (Hd2 : I (set_entries (delete (STAGING_DIRECTORY, name) (entries d')) d')).
  { eapply keep_files; [done..|]. apply unlink_keeps; [apply Hd'|apply staging_place]. }
  run; oks; apply keep_catalog; try done; by apply (staging_keeps _ _ _ name 0), Hd'.
Qed.

(** ** Shards *)

(** The directory of a reconciler is the one of its shard. *)
Definition shard_ok (name directory : str) : Prop :=
  validate_shard name = Ok tt /\ directory = child (child OBJECTS_DIRECTORY (take 2 name)) (drop 2 name).

Lemma shard_bytes name : validate_shard name = Ok tt -> length name = 4%nat /\ SLASH ∉ name.
Proof.
  unfold validate_shard. intros Hv. pass guard Hv. zify_bool. split; [unfold len in *; lia|]. intros Hs.
  match goal with E : forallb _ _ = true |- _ => rewrite forallb_forall in E; apply list_elem_of_In, E in Hs end. done.
Qed.

(** An entry of the name of the object lies in its own shard. *)
Lemma own_shard name directory : shard_ok name directory -> directory = (object_place h).1 -> starts_with h name = true.
Proof.
  intros [Hv ->] Heq. apply shard_bytes in Hv as [Hlen _]. apply starts_with_app.
  unfold object_place, first_shard, second_shard, child in Heq. cbn [fst] in Heq.
  assert (Hh : length h = 64%nat).
  { clear -Hparse. unfold AssetHash_parse in Hparse. pass guard Hparse as Hg. apply orb_false_iff in Hg as [Hg _].
    apply negb_false_iff, Z.eqb_eq in Hg. unfold len in Hg. lia. }
  rewrite <- !(assoc_L (++)) in Heq. apply app_inv_head in Heq. cbn [app] in Heq. injection Heq as Heq.
  apply app_inj_1 in Heq as [H1 H2]; [|rewrite !length_take; lia]. injection H2 as H2.
  exists (drop 4 h). rewrite <- (take_drop 2 h) at 1. rewrite <- (take_drop 2 (drop 2 h)) at 1.
  rewrite <- H1, <- H2, drop_drop, (assoc_L (++)), take_drop. done.
Qed.

Lemma parse_same value h' : AssetHash_parse value = Ok h' -> h' = value.
Proof. unfold AssetHash_parse. intros Hp. pass guard Hp. congruence. Qed.

Lemma shard_entry_keeps name directory entry now :
  shard_ok name directory -> keeps I (reconcile_shard_entry name directory entry now).
Proof.
  intros Hshard d Hd. unfold reconcile_shard_entry. destruct (utf8_decode entry); [|by store_step]. apply wp_bind, wp_attempt.
  destruct (one_component entry) eqn:Hone; [|apply wp_open_file_bad; [done|]; intros e; destruct e; run].
  apply wp_open_file; [intros _ e; destruct e; run|intros _; by store_step|]. intros i Hi.
  destruct (decide (entry = h)) as [->|Hne].
  - assert (Hstart : starts_with h name = true).
    { apply (own_shard name directory Hshard). destruct Hd as [_ (_ & _ & Hs & _)]. by eapply Hs. }
    rewrite Hparse, Hstart. apply wp_bind, wp_bind, wp_query; [done|]. unfold get_object_row, decode_object.
    destruct (ck_row _ _ _ _ (proj1 Hd)) as (row & Hr & _). rewrite Hr, Hparse.
    apply wp_bind, wp_lift; [|done]. intros found Hf. cbn in Hf. apply Ok_inj in Hf. subst found. store_step. cbn [is_some]. by apply wp_ret.
  - destruct Hshard as [Hv Hdir]. pose proof (shard_bytes name Hv) as [Hlen Hslash].
    assert (Hentry : SLASH ∉ entry).
    { unfold one_component in Hone. zify_bool. intros Hin. match goal with E : existsb _ _ = false |- _ => revert E end.
      apply not_false_iff_true, existsb_exists. exists SLASH. split; [by apply list_elem_of_In|apply byte_eqb_refl]. }
    assert (Hq : forall original reason, original = None \/ original = Some entry ->
      keeps I (quarantine_file directory entry (shard_path name entry) original reason now)).
    { intros original reason Horig. apply quarantine_file_keeps.
      - unfold object_place. congruence.
      - destruct Horig as [-> | ->]; congruence.
      - unfold shard_path. rewrite resolved_object_path; [unfold object_place; congruence| | |done].
        + intros Hin. apply Hslash. apply (elem_of_take_drop _ 2 0). by rewrite drop_0.
        + intros Hin. apply Hslash. apply list_elem_of_lookup in Hin as [k Hk]. rewrite lookup_drop in Hk.
          by eapply list_elem_of_lookup_2. }
    destruct (AssetHash_parse entry) as [h'|e] eqn:Hp; [apply parse_same in Hp; subst h'|].
    + run; after Hq; try (by right); run.
    + run; after Hq; try (by left); run.
Qed.

Lemma fill_pending_keeps limit names pending : keeps I (fill_pending limit names pending).
Proof. revert pending. induction names as [|name names IH]; intros pending d Hd; cbn [fill_pending]; run. by apply IH. Qed.

Lemma examine_keeps name directory now limit pending found count last :
  shard_ok name directory -> keeps I (examine_pending name directory now limit pending found count last).
Proof.
  intros Hs. revert pending found count last. induction limit as [|limit IH]; intros [|e pending] found count last d Hd;
    cbn [examine_pending]; run. after shard_entry_keeps. intros. by apply IH.
Qed.

(** A reconciler as [begin_shard_reconciliation] and [next_page] return it. *)
Definition reconciler_ok (self : ShardReconciler) : Prop :=
  (forall directory, shard_directory self = Some directory -> shard_ok (shard self) directory) /\
  (shard_directory self = None -> shard_entries self = None /\ shard_pending self = []).

Lemma next_page_keeps self limit : reconciler_ok self -> keeps I (next_page self limit).
Proof.
  intros [Hs Hn] d Hd. unfold next_page. store_step; [|done]. store_step; [done|]. apply wp_bind.
  destruct (shard_directory self) as [directory|] eqn:Hdir.
  - eapply (wp_post _ _ _ (fun _ => I)); [destruct (shard_entries self); [by apply fill_pending_keeps|by wp_step]|].
    intros [names pending] d1 Hd1. run. after examine_keeps; [by apply Hs|]. intros [[[f n] l] p] d2 Hd2. by store_step.
  - destruct (Hn eq_refl) as [-> ->]. store_step. store_step; [done|]. store_step; [done|]. store_step.
    destruct (Z.to_nat limit); cbn [examine_pending]; by repeat store_step.
Qed.

(** ** Opening the store *)

Lemma initialize_keeps : keeps I initialize.
Proof.
  intros d Hd. unfold initialize. store_step; [done|]. store_step.
  assert (Hver : user_version d = 4) by apply (proj2 Hd). rewrite Hver. cbn [Z.eqb Pos.eqb]. store_step.
  unfold verify_totals. run.
Qed.

Lemma open_store_keeps : owner_type owner <> BACKUP_OWNER_TYPE -> keeps I open_store.
Proof.
  intros Hback d Hd. unfold open_store. store_step; [done|]. store_step.
  assert (Hd1 : I (set_directories ({[OBJECTS_DIRECTORY; STAGING_DIRECTORY; QUARANTINE_DIRECTORY]} ∪ directories d) d)).
  { eapply keep_files; [done..|]. apply directories_keep; [apply Hd|set_solver]. }
  store_step; [done|]. apply wp_bind. after initialize_keeps. intros _ d2 Hd2. apply wp_bind. after recover_intents_keeps.
  intros _ d3 Hd3. apply wp_bind. after (proj2 (proj2 (proj2 (backup_keeps Hback [] 0 0)))). intros _ d4 Hd4. apply wp_bind.
  after recover_expired_keeps. run.
Qed.
End operations.
