(* ===== verification/AssetGuarantees.v ===== *)
(** * Assets: the guarantees of the store

    The operations of the store as one type, sequences of them in which every run may fail
    or stop at any effect, and what holds at the end: the ledger is exact, and an object
    that a permanent owner refers to is still there, byte for byte. *)

From stdpp Require Import gmap.
From S2P Require Import Prelude Bytes Utf8 Sorting ToolPolicy AssetModel AssetCatalog Faults AssetFs AssetStore AssetSessions AssetMaintenance AssetLedger AssetRollback AssetSurvival.

Inductive StoreOp : Type :=
  | OpOpen
  | OpIngest (reads : list Read) (request : IngestRequest)
  | OpAddRefs (refs : list AssetReference)
  | OpRemoveRefs (refs : list AssetReference)
  | OpRemoveOwnerRefs (o : AssetOwner)
  | OpBeginSession (o : AssetOwner)
  | OpRenewSession (o : AssetOwner)
  | OpFinishSession (o : AssetOwner)
  | OpPromote (temporary final : AssetOwner) (expected : Z)
  | OpRollback (o : AssetOwner)
  | OpRecover (kind : str) (stale_before : Z)
  | OpRecoverExpired
  | OpBeginBackup (session_id target : str) (rounds : list bool)
  | OpRenewBackup (session_id : str)
  | OpReleaseBackup (session_id : str)
  | OpCleanupBackups (stale_before limit : Z)
  | OpReconcile (after : option str) (limit : Z)
  | OpSweep (after : option str) (limit before : Z)
  | OpCleanup (table : InternalTable) (after : option str) (limit before : Z)
  | OpShardPage (self : ShardReconciler) (limit : Z).

Definition discard {A} (m : AssetM A) : AssetM unit := _ ← m; mret tt.

Definition run_op `{AssetSystem} (op : StoreOp) : AssetM unit :=
  match op with
  | OpOpen => open_store
  | OpIngest reads request => discard (ingest reads request)
  | OpAddRefs refs => add_refs refs
  | OpRemoveRefs refs => discard (remove_refs refs)
  | OpRemoveOwnerRefs o => discard (remove_owner_refs o)
  | OpBeginSession o => begin_temporary_owner_session o
  | OpRenewSession o => discard (renew_temporary_owner_session o)
  | OpFinishSession o => finish_empty_temporary_owner_session o
  | OpPromote temporary final expected => discard (commit_temporary_owner_refs temporary final expected)
  | OpRollback o => discard (rollback_temporary_owner o)
  | OpRecover kind stale_before => discard (recover_temporary_owner_type_before kind stale_before)
  | OpRecoverExpired => discard recover_expired_temporary_owner_sessions
  | OpBeginBackup session_id target rounds => discard (begin_backup_snapshot session_id target rounds)
  | OpRenewBackup session_id => discard (renew_backup_snapshot session_id)
  | OpReleaseBackup session_id => discard (release_backup_snapshot session_id)
  | OpCleanupBackups stale_before limit => discard (cleanup_stale_backup_snapshots stale_before limit)
  | OpReconcile after limit => discard (reconcile_catalog_page after limit)
  | OpSweep after limit before => discard (mark_sweep_page after limit before)
  | OpCleanup table after limit before => discard (cleanup_internal table after limit before)
  | OpShardPage self limit => discard (next_page self limit)
  end.

(** One operation on a machine of the given SHA-256: it may fail or stop anywhere. *)
Definition op_step (sha : bytes -> bytes) (op : StoreOp) (d d' : Disk) : Prop :=
  exists (sys : AssetSystem) t, sys_sha256 = sha /\ d' = disk (run_op op (mkWorld t d)).1.

Inductive op_steps (sha : bytes -> bytes) : list StoreOp -> Disk -> Disk -> Prop :=
  | no_steps d : op_steps sha [] d d
  | more_steps op ops d1 d2 d3 : op_step sha op d1 d2 -> op_steps sha ops d2 d3 -> op_steps sha (op :: ops) d1 d3.

Lemma discard_keeps {A} I (m : AssetM A) : keeps I m -> keeps I (discard m).
Proof. intros Hm. unfold discard. apply keeps_bind; [done|]. intros a d Hd. by apply wp_ret. Qed.

(** An invariant of every operation is one of every sequence. *)
Lemma steps_keep sha (I : Disk -> Prop) ops d d' :
  (forall (sys : AssetSystem) op, sys_sha256 = sha -> op ∈ ops -> keeps I (run_op op)) ->
  op_steps sha ops d d' -> I d -> I d'.
Proof.
  intros Hop Hs. induction Hs as [|op ops d1 d2 d3 (sys & t & Hsha & ->) _ IH]; [done|]. intros Hd.
  apply IH.
  - intros sys' op' Hsha' Hin. apply Hop; [done|]. by right.
  - apply keeps_run; [|done]. apply Hop; [done|]. left.
Qed.

Lemma run_op_ok `{AssetSystem} op :
  (forall bs, length (sys_sha256 bs) = 32%nat) -> keeps (fun d => catalog_ok (catalog d)) (run_op op).
Proof.
  intros Hsha. destruct op; cbn [run_op]; try apply discard_keeps.
  - by apply open_store_ok.
  - by apply ingest_ok.
  - by apply (references_ok refs (mkOwner [] [])).
  - by apply (references_ok refs (mkOwner [] [])).
  - by apply (references_ok [] o).
  - by apply temporary_sessions_ok.
  - by apply temporary_sessions_ok.
  - by apply temporary_sessions_ok.
  - by apply promotion_ok.
  - by apply rollback_ok.
  - by apply recover_before_ok.
  - by apply (recover_ok []).
  - by apply begin_backup_ok.
  - by apply (backup_ok session_id 0 0).
  - by apply (backup_ok session_id 0 0).
  - by apply (backup_ok [] stale_before limit).
  - by apply reconcile_page_ok.
  - by apply mark_sweep_ok.
  - by apply cleanup_internal_ok.
  - by apply next_page_ok.
Qed.

(** C40: Whatever fails or stops where, on a machine whose digest has the 32 bytes of SHA-256: the
    quota ledger counts exactly the objects, active bytes, references, missing objects,
    quarantined and staged files of the catalog, so that [verify_derived_totals] accepts it;
    every reference has its object; every row passes the [CHECK]s of its table and no two
    objects share a path ([rows_ok]), and so does the row of the ledger itself. *)
Theorem ledger_is_exact sha ops d d' :
  (forall bs, length (sha bs) = 32%nat) -> op_steps sha ops d d' -> catalog_ok (catalog d) ->
  ledger_exact (catalog d') /\ verify_derived_totals (catalog d') = Ok (asset_totals (catalog d')) /\
  refs_resolve (catalog d') /\ rows_ok (catalog d') /\ totals_check (asset_totals (catalog d')).
Proof.
  intros Hsha Hs Hd. assert (Hok : catalog_ok (catalog d')).
  { eapply (steps_keep sha (fun d => catalog_ok (catalog d))); [|done|done]. intros sys op <- _. by apply run_op_ok. }
  split_and!; [apply Hok| |apply Hok|apply Hok|by apply totals_of_ok].
  unfold verify_derived_totals. rewrite bool_decide_eq_true_2; [done|]. apply Hok.
Qed.

(** ** Survival *)

(** An owner that no session and no backup manages. *)
Definition permanent (owner : AssetOwner) : Prop := owner_type owner <> BACKUP_OWNER_TYPE.

(** The operation does not release the reference of [owner] to the object: it does not
    remove it, roll back, recover or promote the owner, or begin a session of the owner's
    type, whose recovery would roll the owner back.  Nor does it hand in other bytes of
    another length with the same hash. *)
Definition spares (sha : bytes -> bytes) (owner : AssetOwner) (h : str) (data : bytes) (op : StoreOp) : Prop :=
  match op with
  | OpIngest reads _ => hex_encode (sha (stream reads)) = h -> len (stream reads) = len data
  | OpRemoveRefs refs => forall r, r ∈ refs -> ref_owner r <> owner \/ ref_hash r <> h
  | OpRemoveOwnerRefs o | OpRollback o => o <> owner
  | OpBeginSession o => owner_type o <> owner_type owner
  | OpPromote temporary _ _ => temporary <> owner
  | OpRecover kind _ => kind <> owner_type owner
  | OpShardPage self _ => reconciler_ok self
  | _ => True
  end.

Lemma run_op_keeps `{AssetSystem} owner h data op :
  AssetHash_parse h = Ok h -> digest_hash data = h -> permanent owner -> spares sys_sha256 owner h data op ->
  keeps (survives owner h data) (run_op op).
Proof.
  intros Hp Hdig Hperm Hsp. destruct op; cbn [run_op spares] in *; try apply discard_keeps.
  - by apply open_store_keeps.
  - by apply ingest_keeps.
  - by apply add_refs_keeps.
  - by apply remove_refs_keeps.
  - by apply remove_owner_refs_keeps.
  - by apply begin_session_keeps.
  - by apply renew_session_keeps.
  - by apply finish_empty_keeps.
  - by apply promotion_keeps.
  - by apply rollback_keeps.
  - by apply recover_before_keeps.
  - by apply recover_expired_keeps.
  - by apply begin_backup_keeps.
  - by apply (backup_keeps owner h data Hperm session_id 0 0).
  - by apply (backup_keeps owner h data Hperm session_id 0 0).
  - by apply (backup_keeps owner h data Hperm [] stale_before limit).
  - by apply reconcile_page_keeps.
  - by apply mark_sweep_keeps.
  - by apply cleanup_internal_keeps.
  - by apply next_page_keeps.
Qed.

Lemma steps_survive sha owner h data ops d d' :
  AssetHash_parse h = Ok h -> hex_encode (sha data) = h -> permanent owner ->
  Forall (spares sha owner h data) ops -> op_steps sha ops d d' -> survives owner h data d -> survives owner h data d'.
Proof.
  intros Hp Hdig Hperm Hsp Hs. eapply steps_keep; [|exact Hs]. intros sys op <- Hin.
  apply run_op_keeps; [done|done|done|]. rewrite List.Forall_forall in Hsp. by apply Hsp, list_elem_of_In.
Qed.

(** ** Promotion is atomic *)

Lemma insert_refs_fields o hashes now c c' :
  insert_refs o hashes now c = Ok c' ->
  (forall o' h, is_Some (asset_refs c' !! (o', h)) <-> is_Some (asset_refs c !! (o', h)) \/ (o' = o /\ h ∈ hashes)) /\
  asset_objects c' = asset_objects c /\ asset_temporary_owner_sessions c' = asset_temporary_owner_sessions c.
Proof.
  unfold insert_refs. revert c. induction hashes as [|h hashes IH]; intros c Hf; cbn [foldM_result] in Hf.
  - simplify_eq. split; [|done]. intros o' h. rewrite elem_of_nil. tauto.
  - apply bind_Ok in Hf as (c1 & Hi & Hf). apply IH in Hf as (Hr & Ho & Ht).
    assert (Hone : (forall o' h', is_Some (asset_refs c1 !! (o', h')) <-> is_Some (asset_refs c !! (o', h')) \/ (o' = o /\ h' = h)) /\
                   asset_objects c1 = asset_objects c /\ asset_temporary_owner_sessions c1 = asset_temporary_owner_sessions c).
    { unfold insert_ref in Hi. destruct (asset_refs c !! (o, h)) eqn:Hn.
      - simplify_eq. split; [|done]. intros o' h'. split; [by left|]. intros [?|[-> ->]]; [done|]. rewrite Hn. by eexists.
      - case_match; simplify_eq. split; [|done]. intros o' h'. cbn.
        destruct (decide ((o, h) = (o', h'))) as [Heq|Hne]; [injection Heq as <- <-|].
        + rewrite lookup_insert_eq. split; [by right|by eexists].
        + rewrite lookup_insert_ne by done. naive_solver. }
    destruct Hone as (Hr1 & Ho1 & Ht1). split_and!; [|congruence|congruence]. intros o' h'. rewrite Hr, Hr1, elem_of_cons. tauto.
Qed.

Lemma delete_refs_fields o hashes c :
  let c' := (delete_refs o hashes c).1 in
  (forall o' h, asset_refs c' !! (o', h) = if bool_decide (o' = o /\ h ∈ hashes) then None else asset_refs c !! (o', h)) /\
  asset_objects c' = asset_objects c /\ asset_temporary_owner_sessions c' = asset_temporary_owner_sessions c.
Proof.
  cbn zeta. revert c. induction hashes as [|h hashes IH]; intros c; cbn [delete_refs].
  - split; [|done]. intros o' h. rewrite bool_decide_eq_false_2; [done|]. intros [_ Hin]. by apply elem_of_nil in Hin.
  - pose proof (delete_ref_fields o h c) as (Hr & Ho & Ht & _). cbn zeta in *. destruct (delete_ref o h c) as [c1 n]. cbn [fst] in *.
    specialize (IH c1) as (Hr1 & Ho1 & Ht1). destruct (delete_refs o hashes c1) as [c2 m]. cbn [fst] in *.
    split_and!; [|congruence|congruence]. intros o' h'. rewrite Hr1, Hr.
    destruct (decide (o' = o)) as [->|Hne].
    + destruct (decide (h' = h)) as [->|Hnh].
      * rewrite lookup_delete_eq. rewrite (bool_decide_eq_true_2 (o = o /\ h ∈ h :: hashes)) by (split; [done|left]).
        by case_bool_decide.
      * rewrite lookup_delete_ne by congruence. repeat case_bool_decide; try done; set_solver.
    + rewrite lookup_delete_ne by congruence. rewrite !bool_decide_eq_false_2 by tauto. done.
Qed.

(** What a promotion does: every reference of the temporary owner becomes one of the final
    owner, the session ends, and nothing else changes. *)
Record promoted (temporary final : AssetOwner) (c c' : Catalog) : Prop := {
  pr_final : forall h, is_Some (asset_refs c' !! (final, h)) <->
                       is_Some (asset_refs c !! (final, h)) \/ is_Some (asset_refs c !! (temporary, h));
  pr_temporary : forall h, asset_refs c' !! (temporary, h) = None;
  pr_others : forall o h, o <> temporary -> o <> final -> is_Some (asset_refs c' !! (o, h)) <-> is_Some (asset_refs c !! (o, h));
  pr_active : forall h, is_Some (asset_refs c !! (temporary, h)) -> hash_active h c = true;
  pr_objects : asset_objects c' = asset_objects c;
  pr_session : is_Some (asset_temporary_owner_sessions c !! temporary) /\
               asset_temporary_owner_sessions c' = delete temporary (asset_temporary_owner_sessions c);
}.

Lemma promote_refs_promotes temporary final expected now c c' n :
  owner_type temporary <> owner_type final -> check_promotion temporary expected c = Ok tt ->
  promote_refs temporary final expected now c = Ok (c', n) ->
  n = expected /\ len (owner_hashes c temporary) = expected /\ promoted temporary final c c'.
Proof.
  intros Hne Hcheck Hp. unfold check_promotion in Hcheck. pass guard Hcheck as Hlive. pass guard Hcheck as Hbig. pass guard Hcheck as Hcount.
  destruct (List.find _ _) eqn:Hfind; [done|]. unfold promote_refs in Hp.
  apply bind_Ok in Hp as (c1 & Hins & Hp). apply insert_refs_fields in Hins as (Hr & Ho & Ht).
  pose proof (delete_refs_fields temporary (owner_hashes c1 temporary) c1) as (Hr2 & Ho2 & Ht2). cbn zeta in *.
  unfold delete_owner_refs in Hp. destruct (delete_refs temporary (owner_hashes c1 temporary) c1) as [c2 m]. cbn [fst] in *.
  pass guard Hp as Hm. pass guard Hp as Hlive2. simplify_eq. zify_bool. split_and!; [done|done|].
  assert (Hft : final <> temporary) by congruence.
  split; cbn [delete_session set_temporary_sessions asset_refs asset_objects asset_temporary_owner_sessions].
  - intros h. rewrite Hr2, bool_decide_eq_false_2 by tauto. rewrite Hr, elem_of_owner_hashes. tauto.
  - intros h. rewrite Hr2. case_bool_decide as Hb; [done|]. apply eq_None_not_Some. intros Hs. apply Hb. split; [done|].
    by apply elem_of_owner_hashes.
  - intros o h Hot Hof. rewrite Hr2, bool_decide_eq_false_2 by tauto. rewrite Hr. tauto.
  - intros h Hs. apply elem_of_owner_hashes, list_elem_of_In in Hs. apply (find_none _ _ Hfind) in Hs. by apply negb_false_iff in Hs.
  - congruence.
  - split; [|congruence]. unfold session_is_live, is_some in Hlive. destruct (_ !! temporary); [by eexists|done].
Qed.

(** C39: [commit_temporary_owner_refs] is all or nothing: when it returns, it has promoted the
    expected number of references, all to active objects; when it fails, wherever it
    stops, the whole store is unchanged. *)
Theorem promotion_is_atomic (sys : AssetSystem) temporary final expected d t :
  match commit_temporary_owner_refs temporary final expected (mkWorld t d) with
  | (w, Ok n) => n = expected /\ promoted temporary final (catalog d) (catalog (disk w)) /\
                 entries (disk w) = entries d /\ contents (disk w) = contents d
  | (w, Err _) => disk w = d
  end.
Proof.
  assert (Hw : wp (fun d' => d' = d) (fun d' => d' = d) (commit_temporary_owner_refs temporary final expected)
    (fun n d' => n = expected /\ promoted temporary final (catalog d) (catalog d') /\ entries d' = entries d /\ contents d' = contents d) d).
  { unfold commit_temporary_owner_refs. apply wp_bind, wp_lift; [|done]. intros _ _. apply wp_bind, wp_lift; [|done]. intros _ _.
    destruct (str_eqb _ _) eqn:Hty; [by apply wp_fail|]. apply str_eqb_neq in Hty. destruct (expected =? 0); [by apply wp_fail|].
    store_step; [done|]. store_step; [done|]. apply wp_bind, wp_query; [done|]. unfold id. apply wp_bind, wp_lift; [|done]. intros [] Hcheck.
    store_step; [done|]. apply wp_bind, wp_lift; [|done]. intros [c n] Hp. apply wp_bind, wp_commit; [done|]. apply wp_ret.
    apply promote_refs_promotes in Hp as (-> & _ & Hpr); done. }
  specialize (Hw t). destruct (commit_temporary_owner_refs _ _ _ _) as [w [n|[e|]]]; done.
Qed.
