(* ===== verification/AssetIngest.v ===== *)
(** * Assets: a successful ingest

    An ingest that returns has stored the bytes of its stream: the row is active, the
    reference of the owner is there, and the object file holds bytes of the right hash and
    length, so that [AssetSurvival] takes over.  A later read returns those bytes. *)

From stdpp Require Import gmap.
From S2P Require Import Prelude Bytes Utf8 Sorting ToolPolicy ToolApproval AssetModel AssetCatalog Faults AssetFs AssetStore AssetSessions AssetMaintenance AssetLedger AssetRollback AssetSurvival AssetGuarantees.

Section ingest.
Context `{AssetSystem} (owner : AssetOwner) (h : str).

(** The store before the ingest: every file has contents, no file with the name of the
    object lies outside its place, no pending quarantine move concerns the object, the
    owner's type has no session, and the schema is the current one.  The third condition
    excludes the states a failed move leaves behind, the second those that something other
    than the store makes: in [AssetExamples], [stale_intent_harms_good_object] and
    [misplaced_copy_quarantines_object] show a good object quarantined without them. *)
Definition ready (d : Disk) : Prop :=
  (forall p i, entries d !! p = Some (FileEntry i) -> i < next_inode d /\ is_Some (contents d !! i)) /\
  (forall dir e, entries d !! (dir, h) = Some e -> dir = (object_place h).1) /\
  (forall name i, asset_quarantine_intents (catalog d) !! name = Some i -> harmless_intent h i) /\
  (forall o lease, asset_temporary_owner_sessions (catalog d) !! o = Some lease -> owner_type o <> owner_type owner) /\
  user_version d = 4.

Hypothesis Hparse : AssetHash_parse h = Ok h.

Let T (_ : Disk) : Prop := True.

(** The staged file and what it holds. *)
Definition staged (name : str) (inode : Z) (bs : bytes) (d : Disk) : Prop :=
  entries d !! (STAGING_DIRECTORY, name) = Some (FileEntry inode) /\ contents d !! inode = Some bs.

Lemma ready_catalog d c :
  ready d -> asset_quarantine_intents c = asset_quarantine_intents (catalog d) ->
  asset_temporary_owner_sessions c = asset_temporary_owner_sessions (catalog d) -> ready (set_catalog c d).
Proof. intros (Hi & Hs & Hint & Hses & Hv) H1 H2. unfold ready. cbn. by rewrite H1, H2. Qed.

Lemma staging_fields name now c :
  let c1 := (insert_staging name now c).1 in let c2 := delete_staging name c in
  (asset_quarantine_intents c1 = asset_quarantine_intents c /\ asset_temporary_owner_sessions c1 = asset_temporary_owner_sessions c) /\
  (asset_quarantine_intents c2 = asset_quarantine_intents c /\ asset_temporary_owner_sessions c2 = asset_temporary_owner_sessions c).
Proof. cbn zeta. unfold insert_staging, delete_staging. destruct (asset_staging c !! name); done. Qed.

Lemma allocate_ready d : ready d -> wp T T allocate_staging (fun r d' => ready d' /\ staged r.1 r.2 [] d') d.
Proof.
  intros Hd. unfold allocate_staging. store_step; [done|]. generalize 8%nat. intros n. revert d Hd.
  induction n as [|n IH]; intros d Hd; cbn [allocate_staging_loop]; [by apply wp_fail|].
  store_step. store_step; [done|]. apply wp_bind, wp_execute_count; [done|].
  set (name := sys_uuid t ++ lit ".partial").
  pose proof (staging_fields name now (catalog d)) as [[F1 F2] _].
  assert (Hd1 : ready (set_catalog (insert_staging name now (catalog d)).1 d)) by by apply ready_catalog.
  destruct (insert_staging name now (catalog d)).2; [|by apply IH].
  assert (Hname : name <> h) by by apply (dotted_name h (sys_uuid t) (lit "partial")).
  store_step. apply wp_create_new_file.
  - intros _ e. destruct e; try (by apply wp_fail). store_step; [done|]. by apply wp_fail.
  - intros _. apply wp_bind, wp_execute; [done|]. intros c Hc%Ok_inj. subst c. apply IH. apply ready_catalog; [done|..]; apply (staging_fields name 0).
  - intros Hnone. store_step. destruct Hd1 as (Hi & Hs & Hint & Hses & Hv). split.
    + unfold ready. cbn. split_and!; try done.
      * intros p i. destruct (decide ((STAGING_DIRECTORY, name) = p)) as [<-|Hne].
        -- rewrite lookup_insert_eq. intros [= <-]. rewrite lookup_insert_eq. split; [lia|by eexists].
        -- rewrite lookup_insert_ne by done. intros Hp. destruct (Hi p i Hp) as [Hlt Hc]. cbn in Hlt, Hc. split; [lia|].
           rewrite lookup_insert_ne by lia. done.
      * intros dir e. rewrite lookup_insert_ne by congruence. apply Hs.
    + split; cbn; by rewrite lookup_insert_eq.
Qed.

Lemma copy_ready reads name inode bs d :
  ready d -> staged name inode bs d ->
  wp T T (copy_and_hash reads inode (copied_so_far bs))
    (fun copied d' => ready d' /\ staged name inode (bs ++ stream reads) d' /\ copied = copied_so_far (bs ++ stream reads)) d.
Proof.
  revert bs d. induction reads as [|[chunk|] reads IH]; intros bs d Hd Ha; cbn [copy_and_hash stream];
    (apply wp_bind, wp_check_cancelled; [done|]).
  - unfold finish_copy. destruct (_ =? 0); [by apply wp_fail|]. store_step. by rewrite app_nil_r.
  - destruct (is_empty chunk); [unfold finish_copy; destruct (_ =? 0); [by apply wp_fail|]; store_step; by rewrite app_nil_r|].
    apply wp_bind, wp_lift; [|done]. intros size ->%add_read_Ok. apply wp_bind, wp_effect; [done|]. store_step.
    cbn [copied_data copied_size copied_prefix copied_tail copied_so_far].
    rewrite extend_prefix_take, update_tail_last.
    replace (len bs + len chunk) with (len (bs ++ chunk)) by (unfold len; rewrite length_app; lia).
    rewrite (assoc_L (++)). apply (IH (bs ++ chunk)).
    + destruct Hd as (Hi & Hs & Hint & Hses & Hv). unfold ready. cbn. split_and!; try done. intros p i Hp.
      destruct (Hi p i Hp) as [Hlt Hc]. split; [done|]. destruct (decide (inode = i)) as [<-|Hne]; [rewrite lookup_insert_eq; by eexists|].
      by rewrite lookup_insert_ne.
    + destruct Ha as [He Hc]. split; [done|]. cbn. by rewrite lookup_insert_eq, Hc.
  - by apply wp_fail.
Qed.

(** The directories of the object are there. *)
Definition placed (d : Disk) : Prop :=
  child OBJECTS_DIRECTORY (first_shard h) ∈ directories d /\ (object_place h).1 ∈ directories d.

Lemma ensure_parent_ready name inode bs d :
  ready d -> staged name inode bs d ->
  wp T T (ensure_object_parent h) (fun dir d' => dir = (object_place h).1 /\ ready d' /\ staged name inode bs d' /\ placed d') d.
Proof.
  intros Hd Hs. unfold ensure_object_parent.
  assert (Hset : forall dirs, ready (set_directories dirs d) /\ staged name inode bs (set_directories dirs d)) by done.
  store_run; try done; (split_and!; [done|apply Hset|apply Hset|]); unfold placed, object_place; cbn [fst]; set_solver.
Qed.

(** The object file holds bytes of the hash and the size. *)
Definition published (size : Z) (d : Disk) : Prop :=
  exists i data, entries d !! object_place h = Some (FileEntry i) /\ contents d !! i = Some data /\
                 digest_hash data = h /\ len data = size.

Lemma hash_published size d i :
  ready d -> entries d !! object_place h = Some (FileEntry i) ->
  matches_expectation (digest_hash (file_data d i), len (file_data d i)) h size = true -> published size d.
Proof.
  intros (Hi & _) He Hm. destruct (Hi _ _ He) as [_ [data Hdata]]. exists i, data. unfold file_data in Hm. rewrite Hdata in Hm.
  cbn in Hm. unfold matches_expectation in Hm. apply andb_true_iff in Hm as [H1 H2]. apply str_eqb_eq in H1. apply Z.eqb_eq in H2. done.
Qed.

(** What the rest of the ingest relies on. *)
Definition prepared (name : str) (inode : Z) (bs : bytes) (d : Disk) : Prop :=
  ready d /\ staged name inode bs d /\ placed d.

Lemma prepared_link name inode bs d target i :
  prepared name inode bs d -> target <> h -> entries d !! (QUARANTINE_DIRECTORY, target) = None ->
  entries d !! object_place h = Some (FileEntry i) ->
  prepared name inode bs (set_entries (<[(QUARANTINE_DIRECTORY, target) := FileEntry i]> (entries d)) d).
Proof.
  intros ((Hi & Hs & Hint & Hses & Hv) & [He Hc] & Hp) Hne Hnone Hi'. split_and!; [|split; cbn; [|done]|done].
  - unfold ready. cbn. split_and!; try done.
    + intros p j. destruct (decide ((QUARANTINE_DIRECTORY, target) = p)) as [<-|Hnp].
      * rewrite lookup_insert_eq. intros [= <-]. by eapply Hi.
      * rewrite lookup_insert_ne by done. apply Hi.
    + intros dir e. rewrite lookup_insert_ne by congruence. apply Hs.
  - rewrite lookup_insert_ne; [done|]. unfold QUARANTINE_DIRECTORY, STAGING_DIRECTORY. intros [=].
Qed.

Lemma prepared_unlink name inode bs d :
  prepared name inode bs d -> prepared name inode bs (set_entries (delete (object_place h) (entries d)) d).
Proof.
  intros ((Hi & Hs & Hint & Hses & Hv) & [He Hc] & Hp). split_and!; [|split; cbn; [|done]|done].
  - unfold ready. cbn. split_and!; try done.
    + intros p j Hj. apply lookup_delete_Some in Hj as [_ Hj]. by eapply Hi.
    + intros dir e Hj. apply lookup_delete_Some in Hj as [_ Hj]. by eapply Hs.
  - rewrite lookup_delete_ne; [done|]. intros Heq. by apply (staging_place h name).
Qed.

(** While the move runs its own intent is pending. *)
Definition prepared_but (target name : str) (inode : Z) (bs : bytes) (d : Disk) : Prop :=
  prepared name inode bs (set_catalog (delete_intent target (catalog d)) d).

Lemma move_ready intent name inode bs d :
  intent_name intent <> h -> intent_phase intent = Prepared -> prepared_but (intent_name intent) name inode bs d ->
  wp T T (complete_quarantine_move intent (Some (object_place h)))
    (fun _ d' => prepared name inode bs d' /\ entries d' !! object_place h = None) d.
Proof.
  intros Hname Hphase Hd. unfold complete_quarantine_move. apply wp_bind.
  eapply (wp_post _ _ _ (fun _ d' => prepared_but (intent_name intent) name inode bs d' /\ entries d' !! object_place h = None)).
  2:{ intros _ d1 [Hd1 Hn]. store_step; [done|]. apply wp_bind, wp_query; [done|]. apply wp_commit; [done|]. split; [|done].
      destruct Hd1 as (Hr & Hs & Hp). split_and!; [|done|done].
      destruct Hr as (Hi & Hst & Hint & Hses & Hv). unfold ready. cbn. split_and!; try done.
      - intros n i. unfold finalize_move. cbn. destruct (intent_hash intent) as [h'|]; [|apply Hint].
        unfold update_object. case_match; apply Hint.
      - intros o lease. unfold finalize_move. cbn. destruct (intent_hash intent) as [h'|]; [|apply Hses].
        unfold update_object. case_match; apply Hses. }
  rewrite Hphase. apply wp_when; [intros _|done].
  assert (Hmoved : forall d', prepared_but (intent_name intent) name inode bs d' -> entries d' !! object_place h = None ->
    wp T T (_ ← connection; execute (fun c => Ok (mark_intent_moved (intent_name intent) c)))
      (fun _ d'' => prepared_but (intent_name intent) name inode bs d'' /\ entries d'' !! object_place h = None) d').
  { intros d' Hd' Hn. store_step; [done|]. apply wp_execute; [done|]. intros c Hc. apply Ok_inj in Hc. subst c. split; [|done].
    destruct Hd' as (Hr & Hs & Hp). split_and!; [|done|done]. destruct Hr as (Hi & Hst & Hint & Hses & Hv).
    unfold ready. cbn. split_and!; try done. intros n i Hni. apply lookup_delete_Some in Hni as [Hne Hni].
    rewrite lookup_alter_ne in Hni by done. apply (Hint n). cbn. by rewrite lookup_delete_ne. }
  destruct (object_place h) as [dir sname] eqn:Hplace.
  apply wp_bind, wp_file_exists; [done| |]; [intros Ht|intros j Ht]; (apply wp_bind, wp_file_exists; [done| |]; [intros Hs|intros k Hs]).
  - by apply wp_bind, wp_fail.
  - apply wp_bind, wp_move_file; [done|]. intros i Hi _. cbn zeta. split_and!; [done|done|]. apply Hmoved.
    + rewrite <- Hplace in *.
      pose proof (prepared_unlink _ _ _ _ (prepared_link _ _ _ _ (intent_name intent) i Hd Hname Ht Hi)) as Hpr. exact Hpr.
    + cbn. rewrite <- Hplace. apply lookup_delete_eq.
  - apply wp_bind, wp_ret. apply Hmoved; [done|]. exact Hs.
  - apply wp_bind, wp_bind, wp_same_file_as; [done|]. intros i i' _ _. destruct (i =? i'); [|by apply wp_fail].
    apply wp_bind, wp_remove_existing; [done|]. intros _. apply wp_effect; [done|]. apply Hmoved.
    + rewrite <- Hplace in *. pose proof (prepared_unlink _ _ _ _ Hd) as Hpr. exact Hpr.
    + cbn. rewrite <- Hplace. apply lookup_delete_eq.
Qed.

Lemma quarantine_ready name inode bs reason now d :
  prepared name inode bs d ->
  wp T T (quarantine_file (object_place h).1 h (relative_object_path h) (Some h) reason now)
    (fun _ d' => prepared name inode bs d' /\ entries d' !! object_place h = None) d.
Proof.
  intros Hd. unfold quarantine_file. store_step; [done|]. store_step. apply wp_bind, wp_lift; [|done]. intros _ _.
  apply wp_bind, wp_lift; [|done]. intros _ _. store_step; [done|]. apply wp_bind, wp_execute; [done|]. intros c Hc.
  change (default (lit "unknown") (Some h)) with h in *. set (target := h ++ lit "-" ++ sys_uuid t ++ lit ".quarantine") in *.
  assert (Htarget : target <> h).
  { unfold target. replace (h ++ lit "-" ++ sys_uuid t ++ lit ".quarantine")
      with ((h ++ lit "-" ++ sys_uuid t) ++ lit "." ++ lit "quarantine") by (rewrite <- !(assoc_L (++)); done).
    by apply dotted_name. }
  apply wp_bind. eapply wp_post; [apply (move_ready _ name inode bs); [done|done|]|].
  - unfold insert_intent in Hc. cbn [intent_name] in Hc.
    destruct (asset_quarantine_intents (catalog d) !! target) eqn:Hnone; [done|]. apply Ok_inj in Hc. subst c.
    destruct Hd as (Hr & Hs & Hp). split_and!; [|done|done]. destruct Hr as (Hi & Hst & Hint & Hses & Hv).
    unfold ready. cbn. split_and!; try done. intros n j Hj. apply (Hint n). rewrite delete_insert_id in Hj; done.
  - intros u d' [Hd' Hn]. by store_step.
Qed.

Lemma prepare_ready name inode bs size now d :
  prepared name inode bs d ->
  wp T T (prepare_destination (object_place h).1 h size now)
    (fun dedup d' => prepared name inode bs d' /\ (dedup = true -> published size d')) d.
Proof.
  intros Hd. unfold prepare_destination. apply wp_bind, wp_open_file; [done|intros _; by store_step|].
  intros i Hi. apply wp_bind, wp_hash_open_file; [done|]. destruct (matches_expectation _ _ _) eqn:Hm.
  - store_step. split; [done|]. intros _. eapply hash_published; [apply Hd|exact Hi|done].
  - apply wp_bind. eapply wp_post; [by apply quarantine_ready|]. intros _ d' [Hd' _]. by store_step.
Qed.

Lemma publish_ready name inode bs size d :
  prepared name inode bs d -> digest_hash bs = h -> len bs = size ->
  wp T T (publish_or_deduplicate name (object_place h).1 h size) (fun _ d' => prepared name inode bs d' /\ published size d') d.
Proof.
  intros Hd Hdig Hlen. unfold publish_or_deduplicate. apply wp_bind, wp_hard_link_to; [done| |].
  - intros _. store_step; [done|]. apply wp_bind, wp_hash_open_file; [done|]. destruct (matches_expectation _ _ _) eqn:Hm; [|by apply wp_fail].
    store_step. split; [done|]. by eapply hash_published; [apply Hd|..].
  - intros i Hi Hn. cbn zeta. split; [done|]. store_step. destruct Hd as (Hr & [He Hc] & Hp).
    assert (i = inode) as -> by (rewrite He in Hi; by injection Hi). destruct Hr as (Hin & Hst & Hint & Hses & Hv). split.
    + split_and!; [|split; cbn; [|done]|done].
      * unfold ready. cbn [entries next_inode contents catalog user_version set_entries]. split_and!; try done.
        -- intros p j. destruct (decide (((object_place h).1, h) = p)) as [<-|Hne].
           ++ rewrite lookup_insert_eq. intros [= <-]. by eapply Hin.
           ++ rewrite lookup_insert_ne by done. apply Hin.
        -- intros dir e. destruct (decide ((object_place h).1 = dir)) as [<-|Hne]; [done|].
           rewrite lookup_insert_ne by congruence. apply Hst.
      * rewrite lookup_insert_ne; [done|]. intros Heq. by apply (staging_place h name).
    + exists inode, bs. split_and!; [|done|done|done]. cbn. apply lookup_insert_eq.
Qed.

Lemma destination_ready name inode bs size d :
  prepared name inode bs d ->
  wp T T (destination_matches_expectation (object_place h).1 h size)
    (fun still d' => prepared name inode bs d' /\ (still = true -> published size d')) d.
Proof.
  intros Hd. unfold destination_matches_expectation. apply wp_bind, wp_open_file; [done|intros _; by store_step|].
  intros i Hi. apply wp_bind, wp_hash_open_file; [done|]. destruct (matches_expectation _ _ _) eqn:Hm; [|by apply wp_fail].
  store_step. split; [done|]. intros _. eapply hash_published; [apply Hd|exact Hi|done].
Qed.

Lemma ingest_rows_stores size mime now c c' :
  ingest_rows h size mime now (Some owner) c = Ok c' ->
  (exists row, asset_objects c' !! h = Some row /\ row_state row = Active /\ row_size row = size /\ row_mime row = mime) /\
  is_Some (asset_refs c' !! (owner, h)) /\
  asset_quarantine_intents c' = asset_quarantine_intents c /\
  asset_temporary_owner_sessions c' = asset_temporary_owner_sessions c.
Proof.
  unfold ingest_rows. intros (size' & Hz & Hr)%bind_Ok.
  assert (size' = size) as -> by (unfold encode_size in Hz; destruct (_ <=? _); congruence).
  apply bind_Ok in Hr as (c1 & Hput & Hr). unfold put_object_unique in Hput. pass guard Hput. apply Ok_inj in Hput. subst c1.
  unfold insert_ref in Hr. cbn in Hr. destruct (asset_refs c !! (owner, h)) as [n|] eqn:Href.
  - apply Ok_inj in Hr. subst c'. cbn. rewrite lookup_insert_eq. split_and!; [by eexists|rewrite Href; by eexists|done|done].
  - rewrite lookup_insert_eq in Hr. apply Ok_inj in Hr. subst c'. cbn. rewrite !lookup_insert_eq.
    split_and!; [by eexists|by eexists|done|done].
Qed.

(** What a returned object says. *)
Definition outcome_right (bs : bytes) (outcome : IngestOutcome) : Prop :=
  object_hash (outcome_object outcome) = h /\ object_size (outcome_object outcome) = len bs /\
  object_state (outcome_object outcome) = Active.

Lemma ingest_staged_stores reads request name inode d :
  ready d -> staged name inode [] d -> ingest_owner request = Some owner -> digest_hash (stream reads) = h ->
  wp T T (ingest_staged reads request name inode)
    (fun outcome d' => outcome_right (stream reads) outcome /\
       exists data, digest_hash data = h /\ len data = len (stream reads) /\ survives owner h data d') d.
Proof.
  intros Hd Hs Howner Hdig. unfold ingest_staged. apply wp_bind. eapply wp_post; [by apply (copy_ready reads name inode [])|].
  intros copied d1 (Hd1 & Hs1 & ->). cbn [app] in Hs1. cbn [app copied_size copied_data copied_prefix copied_tail copied_so_far].
  rewrite Hdig. set (size := len (stream reads)).
  apply wp_bind, wp_effect; [done|]. apply wp_bind, wp_lift; [|done]. intros mime _. store_step; [done|].
  apply wp_bind. eapply wp_post; [by apply ensure_parent_ready|]. intros dir d2 (-> & Hp2).
  apply wp_bind. eapply wp_post; [by apply (prepare_ready name inode (stream reads))|]. intros dedup d3 [Hp3 Hpub3].
  apply wp_bind, wp_effect; [done|]. apply wp_bind, wp_query; [done|]. unfold id.
  apply wp_bind, wp_lift; [|done]. intros _ _. apply wp_bind.
  eapply (wp_post _ _ _ (fun still d' => prepared name inode (stream reads) d' /\ (still = true -> published size d'))).
  { destruct dedup; [by apply destination_ready|by wp_step]. }
  intros still d4 [Hp4 Hpub4]. apply wp_bind.
  eapply (wp_post _ _ _ (fun _ d' => prepared name inode (stream reads) d' /\ published size d')).
  { destruct still; [wp_step; split; [done|by apply Hpub4]|by apply publish_ready]. }
  intros shared d5 [Hp5 (i & data & Hi & Hc & Hdata & Hlen)].
  apply wp_bind, wp_effect; [done|]. apply wp_bind, wp_lift; [|done]. intros rows Hrows. rewrite Howner in Hrows.
  apply ingest_rows_stores in Hrows as ((row & Hrow & Hact & Hsize & _) & Href & Hints & Hsess).
  apply wp_bind, wp_effect; [done|]. apply wp_bind, wp_commit; [done|].
  assert (Hsurv : survives owner h data (set_catalog rows d5)).
  { destruct Hp3 as ((_ & _ & Hint3 & Hses3 & _) & _ & _).
    destruct Hp5 as ((Hin & Hst & _ & _ & Hv) & _ & [Hd51 Hd52]). split.
    - split; cbn; [exists row; by rewrite Hlen|done| |].
      + rewrite Hints. apply Hint3.
      + rewrite Hsess. apply Hses3.
    - split_and!; try done; [intros p j Hj; by eapply Hin|by exists i]. }
  unfold get_object. apply wp_bind, wp_bind, wp_effect; [done|]. apply wp_bind, wp_query; [done|].
  apply wp_lift; [|done]. intros found Hf. unfold get_object_row in Hf. cbn [catalog set_catalog] in Hf. rewrite Hrow in Hf.
  unfold decode_object in Hf. rewrite Hparse in Hf. cbn in Hf. apply Ok_inj in Hf. subst found. store_step.
  split; [|by exists data]. split_and!; cbn; [done|by rewrite Hsize|done].
Qed.

(** The whole ingest. *)
Lemma ingest_stores reads request d :
  ready d -> ingest_owner request = Some owner -> digest_hash (stream reads) = h ->
  wp T T (ingest reads request)
    (fun outcome d' => outcome_right (stream reads) outcome /\
       exists data, digest_hash data = h /\ len data = len (stream reads) /\ survives owner h data d') d.
Proof.
  intros Hd Howner Hdig. unfold ingest. apply wp_bind, wp_lift; [|done]. intros _ _. store_step; [done|].
  apply wp_bind. eapply wp_post; [by apply allocate_ready|]. intros [name inode] d1 [Hd1 Hs1]. cbn in Hs1. store_step.
  eapply wp_mono; [done| | |by apply ingest_staged_stores].
  - intros d2 _ e. store_step. intros t. destruct (cleanup_staged_file name _) as [w [a|[e'|]]]; done.
  - intros outcome d2 (Hout & data & Hdata & Hlen & Hsurv). store_step.
    eapply wp_mono; [| | |by apply (cleanup_staged_keeps owner h data)]; cbn; [done| |].
    + intros d3 _ e. by apply wp_fail.
    + intros u d3 Hd3. apply wp_ret. split; [done|]. by exists data.
Qed.
End ingest.

(** ** The quota *)

Section quota.
Context `{AssetSystem}.
Hypothesis Hlimits : max_total_bytes sys_limits <= I64_MAX.

Let T (_ : Disk) : Prop := True.

Definition within_quota (d : Disk) : Prop := active_bytes (asset_totals (catalog d)) <= max_total_bytes sys_limits.

Lemma ingest_rows_quota h size mime now o c c' :
  projected_bytes h size c <= max_total_bytes sys_limits -> ingest_rows h size mime now o c = Ok c' ->
  active_bytes (asset_totals c') <= max_total_bytes sys_limits.
Proof.
  intros Hp. unfold ingest_rows. intros (size' & Hz & Hr)%bind_Ok.
  assert (size' = size) as -> by (unfold encode_size in Hz; destruct (_ <=? _); congruence).
  apply bind_Ok in Hr as (c1 & Hput & Hr). unfold put_object_unique in Hput. pass guard Hput. apply Ok_inj in Hput. subst c1.
  assert (Hsame : forall c0 c2 o', insert_ref o' h now c0 = Ok c2 -> active_bytes (asset_totals c2) = active_bytes (asset_totals c0)).
  { intros c0 c2 o'. unfold insert_ref. destruct (asset_refs c0 !! (o', h)); [congruence|].
    destruct (asset_objects c0 !! h); [|done]. intros Hi. apply Ok_inj in Hi. subst c2. cbn. lia. }
  assert (Hle : active_bytes (asset_totals (put_object h (mkObjectRow size mime (relative_object_path h) Active None now
                   match asset_objects c !! h with Some row => row_created row | None => now end) c)) <= max_total_bytes sys_limits).
  { unfold projected_bytes, saturating_add, active_bytes_without in Hp. unfold I64_MAX in Hlimits. unfold U64_MAX in Hp.
    unfold put_object. cbn [asset_totals]. destruct (asset_objects c !! h) as [row|]; cbn in *;
      destruct (0 <=? _) eqn:Hz0 in Hp; zify_bool; lia. }
  destruct o; [by rewrite (Hsame _ _ _ Hr)|]. apply Ok_inj in Hr. by subst c'.
Qed.

Lemma ingest_staged_quota reads request name inode d :
  wp T T (ingest_staged reads request name inode) (fun _ => within_quota) d.
Proof.
  assert (Hany : forall A (m : AssetM A) d, wp T T m (fun _ _ => True) d).
  { intros A m d' t. by destruct (m (mkWorld t d')) as [w [a|[e|]]]. }
  unfold ingest_staged. apply wp_bind. eapply wp_post; [apply Hany|]. intros copied d1 _.
  store_step; [done|]. apply wp_bind, wp_lift; [|done]. intros mime _. store_step; [done|].
  apply wp_bind. eapply wp_post; [apply Hany|]. intros dir d2 _. apply wp_bind. eapply wp_post; [apply Hany|]. intros dedup d3 _.
  store_step; [done|]. apply wp_bind, wp_query; [done|]. unfold id. apply wp_bind, wp_lift; [|done]. intros u Hq.
  apply ensure_Ok, negb_true_iff in Hq. apply wp_bind. eapply wp_post; [apply Hany|]. intros still d4 _.
  apply wp_bind. eapply wp_post; [apply Hany|]. intros shared d5 _. store_step; [done|].
  apply wp_bind, wp_lift; [|done]. intros rows Hrows. store_step; [done|]. apply wp_bind, wp_commit; [done|].
  apply ingest_rows_quota in Hrows; [|zify_bool; lia].
  assert (Hin : within_quota (set_catalog rows d5)) by exact Hrows. clear -Hin. unfold get_object. store_run; done.
Qed.

(** A successful ingest leaves the active bytes of the catalog within the total quota. *)
Theorem ingest_respects_quota reads request d t w outcome :
  ingest reads request (mkWorld t d) = (w, Ok outcome) ->
  active_bytes (asset_totals (catalog (disk w))) <= max_total_bytes sys_limits.
Proof.
  intros Hrun. apply (wp_run_Ok T T _ (fun _ => within_quota)) in Hrun; [exact Hrun|]. clear Hrun. unfold ingest.
  apply wp_bind, wp_lift; [|done]. intros _ _. store_step; [done|]. apply wp_bind.
  eapply (wp_post _ _ _ (fun _ _ => True)); [intros t'; by destruct (allocate_staging _) as [w' [a|[e|]]]|].
  intros [name inode] d1 _. store_step. eapply wp_mono; [done| | |apply ingest_staged_quota].
  - intros d2 _ e. store_step. intros t'. destruct (cleanup_staged_file name _) as [w' [a|[e'|]]]; done.
  - intros a d2 Hd2. store_step. unfold cleanup_staged_file, remove_staging_record. store_run; try done.
    all: match goal with E : Ok _ = Ok ?c |- _ => apply Ok_inj in E; subst c end.
    all: unfold within_quota, delete_staging; cbn; case_match; [cbn|]; unfold within_quota in Hd2; cbn in *; lia.
Qed.
End quota.

(** ** Reading back *)

Section export.
Context `{AssetSystem}.
Hypothesis no_fault : forall t, sys_fault t = None.
Hypothesis not_cancelled : forall t, sys_cancelled t = false.

Let F (_ : Disk) : Prop := False.

Lemma not_faulty : ~ faulty.
Proof. intros (t & e & He). by rewrite no_fault in He. Qed.
Lemma not_cancels : ~ cancels.
Proof. intros (t & He). by rewrite not_cancelled in He. Qed.

Lemma one_component_hex s : s <> [] -> forallb is_lower_hex s = true -> one_component s = true.
Proof.
  intros Hne Hhex. rewrite forallb_forall in Hhex. unfold one_component. repeat (apply andb_true_iff; split).
  - by apply negb_true_iff, is_empty_false.
  - apply negb_true_iff, not_true_iff_false. intros (b & Hb & Heq)%existsb_exists. apply byte_eqb_eq in Heq. subst b.
    by apply Hhex in Hb.
  - apply negb_true_iff, str_eqb_neq. intros ->. specialize (Hhex (byte_of 46) (or_introl eq_refl)). done.
  - apply negb_true_iff, str_eqb_neq. intros ->. specialize (Hhex (byte_of 46) (or_introl eq_refl)). done.
Qed.

Lemma hash_components h :
  AssetHash_parse h = Ok h ->
  one_component h = true /\ one_component (first_shard h) = true /\ one_component (second_shard h) = true.
Proof.
  unfold AssetHash_parse. intros Hp. pass guard Hp as Hg. apply orb_false_iff in Hg as [Hlen Hhex].
  apply negb_false_iff in Hlen, Hhex. apply Z.eqb_eq in Hlen. unfold len in Hlen.
  assert (Hsub : forall n m, forallb is_lower_hex (take n (drop m h)) = true).
  { intros n m. rewrite forallb_forall in *. intros b Hb. apply Hhex. apply list_elem_of_In in Hb. apply list_elem_of_In.
    by eapply elem_of_take_drop. }
  split_and!; apply one_component_hex; try done.
  - intros ->. cbn in Hlen. lia.
  - unfold first_shard. intros He. apply (f_equal length) in He. rewrite length_take in He. cbn [length] in He. lia.
  - apply (Hsub 2%nat 0%nat).
  - unfold second_shard. intros He. apply (f_equal length) in He. rewrite length_take, length_drop in He. cbn [length] in He. lia.
  - apply Hsub.
Qed.

Lemma export_loop_all fuel rest written (Q : bytes -> Disk -> Prop) d :
  (length rest <= fuel)%nat -> Q (written ++ rest) d -> wp F F (export_loop fuel rest written) Q d.
Proof.
  pose proof not_faulty. pose proof not_cancels.
  revert rest written. induction fuel as [|fuel IH]; intros rest written Hf HQ; cbn [export_loop];
    (apply wp_bind, wp_check_cancelled; [done|]); (apply wp_bind, wp_effect; [done|]); wp_step;
    destruct rest as [|b rest]; try (wp_step; rewrite app_nil_r in HQ; exact HQ).
  - cbn in Hf. lia.
  - pose proof (read_length_bounds (sys_read_size t) b rest) as [Hlo Hhi].
    generalize dependent (read_length (sys_read_size t) (b :: rest)). intros n Hlo Hhi.
    apply wp_bind, wp_effect; [done|]. apply IH.
    + rewrite length_drop. cbn [length] in *. lia.
    + by rewrite <- (assoc_L (++)), take_drop.
Qed.

(** What survives can be read back. *)
Lemma export_survivor owner h data d :
  AssetHash_parse h = Ok h -> survives owner h data d ->
  wp F F (export_object h) (fun r _ => r = (data, Z.min U64_MAX (len data))) d.
Proof.
  intros Hp [Hc Hf]. pose proof not_faulty. destruct (hash_components h Hp) as (Hone & Hfirst & Hsecond).
  destruct (ck_row _ _ _ _ Hc) as (row & Hrow & Hact & Hsize). pose proof Hf as (_ & (i & Hi & Hcont) & _ & Hd1 & Hd2 & _).
  unfold export_object. apply wp_bind. unfold open_object, get_object.
  apply wp_bind, wp_bind, wp_effect; [done|]. apply wp_bind, wp_query; [done|]. unfold get_object_row, decode_object.
  rewrite Hrow, Hp. apply wp_lift; [|done]. intros found Hfound. cbn in Hfound. apply Ok_inj in Hfound. subst found.
  cbn [object_state object_size]. rewrite Hact. rewrite bool_decide_eq_true_2 by done. cbn [negb].
  apply wp_bind, wp_find_locator; [intros [?|[?|?]]; congruence|tauto|]. intros _.
  apply wp_bind, wp_open_existing.
  - unfold unopenable. change ((object_place h).1, h) with (object_place h). intros [[?|[?|?]]|?]; congruence.
  - intros j Hj. change ((object_place h).1, h) with (object_place h) in Hj. rewrite Hi in Hj. injection Hj as <-.
    wp_step. unfold file_data. rewrite Hcont. cbn [default]. change (default [] (Some data)) with data.
    rewrite Hsize, Z.eqb_refl. cbn [negb]. apply wp_ret. wp_step. unfold file_data. rewrite Hcont.
    change (default [] (Some data)) with data. apply wp_bind, export_loop_all; [done|]. apply wp_bind, wp_effect; [done|]. by wp_step.
Qed.
End export.

(** C37: The bytes of a successful ingest survive, for an owner that is not a backup, when the
    store was [ready]: no pending quarantine move concerned the object, no file with its
    name lay elsewhere, and the owner's type had no session.  Then, whatever operations run
    afterwards, failing or stopping wherever they do, as long as each of them [spares] the
    object (it does not release the owner's reference, begins no session of the owner's
    type, and hands in no bytes of another length with the same hash), a read without
    faults returns bytes of the hash and length that were ingested, always the same ones. *)
Theorem ingested_bytes_survive (sys : AssetSystem) reads request owner d t w outcome :
  let h := digest_hash (stream reads) in
  (forall bs, length (sys_sha256 bs) = 32%nat) -> permanent owner -> ingest_owner request = Some owner ->
  ready owner h d -> ingest reads request (mkWorld t d) = (w, Ok outcome) ->
  object_hash (outcome_object outcome) = h /\
  exists data, digest_hash data = h /\ len data = len (stream reads) /\
    forall ops d', op_steps sys_sha256 ops (disk w) d' -> Forall (spares sys_sha256 owner h data) ops ->
      forall (sys' : AssetSystem) t', (forall n, sys_fault n = None) -> (forall n, sys_cancelled n = false) ->
        (export_object h (mkWorld t' d')).2 = Ok (data, Z.min U64_MAX (len data)).
Proof.
  intros h Hsha Hperm Howner Hready Hrun.
  assert (Hparse : AssetHash_parse h = Ok h) by by apply digest_parses.
  eapply (wp_run_Ok (fun _ => True)) in Hrun; [|by apply (ingest_stores owner h Hparse reads request)].
  destruct Hrun as ((Hhash & _ & _) & data & Hdata & Hlen & Hsurv). split; [done|]. exists data. split_and!; [done|done|].
  intros ops d' Hops Hspare sys' t' Hnf Hnc.
  assert (Hsurv' : survives owner h data d') by by eapply steps_survive.
  pose proof (export_survivor Hnf Hnc owner h data d' Hparse Hsurv' t') as Hw.
  destruct (export_object h (mkWorld t' d')) as [w' [r|[e|]]]; [|destruct Hw|destruct Hw].
  cbn [snd]. f_equal. exact Hw.
Qed.
