(* ===== verification/AssetExamples.v ===== *)
(** * Assets: runs

    Concrete runs of the store: the witnesses of its theorems, and two runs in which a
    good object ends up in quarantine. *)

From stdpp Require Import gmap.
From S2P Require Import Prelude Bytes Utf8 Sorting ToolPolicy AssetModel AssetCatalog Faults AssetFs AssetStore AssetSessions AssetMaintenance AssetLedger AssetRollback AssetSurvival AssetGuarantees AssetIngest.

Module AssetExample.

(** A digest that keeps the first 32 bytes. *)
Definition sha (bs : bytes) : bytes := take 32 (bs ++ replicate 32 (byte_of 0)).

Lemma sha_length bs : length (sha bs) = 32%nat.
Proof. unfold sha. rewrite length_take, length_app, length_replicate. lia. Qed.

Definition limits : AssetLimits := mkAssetLimits 1000 100000 32768 32768 268435456.

(** A machine on which the effect at one tick fails. *)
Definition machine (fault : nat -> option AssetError) : AssetSystem :=
  Build_AssetSystem fault (fun _ => 1000000000) (fun t => hex_encode (u64_to_be_bytes (Z.of_nat t))) (fun _ => false) (fun _ => 7%nat) sha limits.

Definition calm : AssetSystem := machine (fun _ => None).
Definition failing_at (n : nat) : AssetSystem := machine (fun t => if Nat.eqb t n then Some AssetIo else None).

Definition empty_disk : Disk := mkDisk empty_catalog ∅ 0 ∅ ∅ ∅ 4.

Definition song : bytes := lit "fLaC" ++ replicate 40 (byte_of 1).
Definition song_hash : str := hex_encode (sha song).
Definition reads : list Read := [ReadChunk (take 10 song); ReadChunk (drop 10 song)].

Definition card : AssetOwner := mkOwner (lit "character-card") (lit "aria").
Definition request : IngestRequest := mkIngestRequest Flac None (Some card).

Definition after_ingest : World Disk * result (option AssetError) IngestOutcome := ingest (H := calm) reads request (mkWorld 0 empty_disk).
Definition is_fine {A} (r : World Disk * result (option AssetError) A) : bool := is_ok r.2.

(** ** A stale intent *)

(** The object path holds other bytes. *)
Definition corrupt_disk : Disk :=
  mkDisk empty_catalog {[0 := lit "junk"]} 1 {[object_place song_hash := FileEntry 0]}
    {[child OBJECTS_DIRECTORY (first_shard song_hash); (object_place song_hash).1]} ∅ 4.

Definition first_try (n : nat) := ingest (H := failing_at n) reads request (mkWorld 0 corrupt_disk).
Definition second_try (n : nat) := ingest (H := calm) reads request (mkWorld 100 (disk (first_try n).1)).
Definition reopened (n : nat) := open_store (H := calm) (mkWorld 200 (disk (second_try n).1)).
Definition state_of (d : Disk) : option AssetState := row_state <$> asset_objects (catalog d) !! song_hash.

(** The first ingest fails while it moves the corrupt file away and leaves its intent; the
    second succeeds and the object is good.  Opening the store then completes the old
    intent: it takes the good file away and quarantines the object (a failure before the
    hard link), or refuses to open at all (a failure after it). *)
Theorem stale_intent_harms_good_object :
  (is_fine (first_try 30), is_fine (second_try 30), state_of (disk (second_try 30).1)) = (false, true, Some Active) /\
  entry_data (disk (second_try 30).1) (object_place song_hash) = Some song /\
  is_fine (reopened 30) = true /\ state_of (disk (reopened 30).1) = Some Quarantined /\
  entry_data (disk (reopened 30).1) (object_place song_hash) = None /\
  (is_fine (first_try 34), is_fine (second_try 34)) = (false, true) /\ (reopened 34).2 = Err (Some UnsafeFilesystem).
Proof. split_and!; by vm_compute. Qed.

(** ** A misplaced copy *)

Definition ingested : World Disk * result (option AssetError) IngestOutcome :=
  ingest (H := calm) reads request (mkWorld 0 empty_disk).

(** A copy of the object file lies in the directory of another shard. *)
Definition with_copy (d : Disk) : Disk :=
  set_directories ({[child OBJECTS_DIRECTORY (lit "00"); child (child OBJECTS_DIRECTORY (lit "00")) (lit "00")]} ∪ directories d)
    (set_entries (<[(child (child OBJECTS_DIRECTORY (lit "00")) (lit "00"), song_hash) := FileEntry 0]> (entries d)) d).

Definition reconcile_shard (name : str) : AssetM ShardReconcilePage :=
  self ← begin_shard_reconciliation (H := calm) name;
  '(_, page) ← next_page (H := calm) self 10;
  mret page.

Definition reconciled := reconcile_shard (lit "0000") (mkWorld 100 (with_copy (disk ingested.1))).

(** Reconciling that shard quarantines the copy under the hash of the object, which marks
    the good object, whose own file is untouched, as quarantined. *)
Theorem misplaced_copy_quarantines_object :
  state_of (disk ingested.1) = Some Active /\ is_fine reconciled = true /\
  entry_data (disk reconciled.1) (object_place song_hash) = Some song /\
  state_of (disk reconciled.1) = Some Quarantined /\
  (open_object (H := calm) song_hash (mkWorld 200 (disk reconciled.1))).2 = Err (Some (NotActive song_hash (lit "quarantined"))).
Proof. split_and!; by vm_compute. Qed.

(** ** Witnesses *)

Definition outcome : IngestOutcome :=
  match ingested.2 with Ok o => o | Err _ => mkIngestOutcome (mkAssetObject [] 0 Flac [] Missing 0 0) false end.

Lemma ingested_run : ingest (H := calm) reads request (mkWorld 0 empty_disk) = (ingested.1, Ok outcome).
Proof.
  assert (Hok : is_fine ingested = true) by by vm_compute. change (ingested = (ingested.1, Ok outcome)).
  unfold outcome. destruct ingested as [w [o|e]]; [done|]. discriminate Hok.
Qed.

Lemma empty_ready h : ready card h empty_disk.
Proof. unfold ready. split_and!; [| | | |done]; intros ? ?; cbn; by rewrite lookup_empty. Qed.

Lemma ingested_bytes_survive_witness :
  exists data, len data = 44 /\
    forall d', op_steps sha [OpSweep None 10 5000000000; OpOpen; OpIngest reads request] (disk ingested.1) d' ->
      (export_object (H := calm) song_hash (mkWorld 0 d')).2 = Ok (data, Z.min U64_MAX (len data)).
Proof.
  destruct (ingested_bytes_survive calm reads request card empty_disk 0 ingested.1 outcome) as (_ & data & Hd & Hl & Hs).
  - exact sha_length.
  - intros Heq. by vm_compute in Heq.
  - done.
  - apply empty_ready.
  - exact ingested_run.
  - exists data. split; [by rewrite Hl; vm_compute|]. intros d' Hsteps. apply (Hs _ _ Hsteps); [|done|done].
    repeat constructor. intros _. by rewrite Hl.
Defined.

Lemma ledger_is_exact_witness :
  exists d', is_Some (asset_objects (catalog d') !! song_hash) /\ rows_ok (catalog d') /\
    verify_derived_totals (catalog d') = Ok (mkAssetStats 1 44 1 0 0 0).
Proof.
  exists (disk (run_op (H := calm) (OpIngest reads request) (mkWorld 0 empty_disk)).1).
  destruct (ledger_is_exact sha [OpIngest reads request] empty_disk
              (disk (run_op (H := calm) (OpIngest reads request) (mkWorld 0 empty_disk)).1)) as (_ & Hv & _ & Hrows & _).
  - exact sha_length.
  - apply more_steps with (d2 := disk (run_op (H := calm) (OpIngest reads request) (mkWorld 0 empty_disk)).1); [|constructor].
    by exists calm, 0%nat.
  - apply empty_catalog_ok.
  - split; [apply is_Some_alt; by vm_compute|]. split; [exact Hrows|]. rewrite Hv. by vm_compute.
Defined.

Lemma ingest_respects_quota_witness : active_bytes (asset_totals (catalog (disk ingested.1))) <= 100000.
Proof.
  assert (Hl : max_total_bytes (sys_limits (AssetSystem := calm)) <= I64_MAX) by by vm_compute.
  exact (ingest_respects_quota (H := calm) Hl reads request empty_disk 0 ingested.1 outcome ingested_run).
Defined.

(** An import session that is rolled back, first in vain. *)
Definition import : AssetOwner := mkOwner IMPORT_TEMPORARY_OWNER_TYPE (lit "s1").
Definition imported : Disk :=
  disk (ingest (H := calm) reads (mkIngestRequest Flac None (Some import)) (mkWorld 0 empty_disk)).1.
Definition half_rolled_back : Disk := disk (rollback_temporary_owner (H := failing_at 108) import (mkWorld 100 imported)).1.
Definition rolled_back_run := rollback_temporary_owner (H := calm) import (mkWorld 200 half_rolled_back).

#[local] Instance Entry_eq_dec : EqDecision Entry.
Proof. solve_decision. Defined.

Lemma imported_directories : directories_ok imported.
Proof.
  intros h e He. assert (Hent : entries imported = {[object_place song_hash := FileEntry 0]}).
  { refine (bool_decide_unpack _ _). by vm_compute. }
  rewrite Hent in He. apply lookup_singleton_Some in He as [Hp _]. apply object_place_inj in Hp. subst h.
  split; refine (bool_decide_unpack _ _); by vm_compute.
Qed.

(** The interruption is after the unlink: the file is gone, the row and its reference are not. *)
Lemma interrupted_rollback_completes_witness :
  entries half_rolled_back !! object_place song_hash = None /\ state_of half_rolled_back = Some Active /\
  rolled_back import imported (disk rolled_back_run.1).
Proof.
  split; [by vm_compute|]. split; [by vm_compute|].
  apply (interrupted_rollback_completes calm import imported half_rolled_back 200 rolled_back_run.1 1).
  - exact imported_directories.
  - apply rtc_once. by exists (failing_at 108), 100%nat.
  - assert (Hr : rolled_back_run.2 = Ok 1) by by vm_compute. change (rolled_back_run = (rolled_back_run.1, Ok 1)).
    rewrite <- Hr. by destruct rolled_back_run.
Defined.
End AssetExample.
