(* ===== verification/ChatModel.v ===== *)
(** * Conversation storage: data model

    [crates/lorepia-storage/src]: [error.rs], [id.rs] and [model.rs], and the validations
    of [store.rs] that look at their arguments only.  An identifier is the string it
    wraps, a timestamp the integer it wraps; the functions that parse them say which
    strings and integers the newtypes admit.  The names of types that the provider stream
    also uses from other crates carry the prefix it gives them ([Storage] or [Stored]). *)

From S2P Require Import Prelude Bytes Utf8.

Inductive StorageError : Type :=
  | PathUnavailable
  | Database
  | FutureSchema (found supported : Z)
  | IncompatibleSchema (reason : string)
  | InvalidInput (field reason : string)
  | NotFound (entity : string)
  | Conflict (entity : string)
  | InvalidState (expected actual : string)
  | SequenceMismatch (expected actual : Z)
  | ClockBeforeEpoch
  | SnapshotCancelled.

#[export] Instance StorageError_eq_dec : EqDecision StorageError.
Proof. solve_decision. Defined.

Abbreviation StorageResult := (result StorageError).

Definition CURRENT_SCHEMA_VERSION : Z := 3.
Definition MAX_ID_BYTES : Z := 128.
Definition MAX_MODEL_ID_BYTES : Z := 256.
Definition MAX_CHAT_TITLE_BYTES : Z := 1024.
Definition MAX_USER_MESSAGE_BYTES : Z := 64 * 1024.
Definition MAX_MESSAGE_BYTES : Z := 1024 * 1024.
Definition MAX_MESSAGE_PAGE_BYTES : Z := 2 * 1024 * 1024.
Definition MAX_CHECKPOINT_BYTES : Z := 64 * 1024.
Definition MAX_PROVIDER_RESPONSE_ID_BYTES : Z := 256.
Definition MAX_STREAM_OWNER_LABEL_BYTES : Z := 128.
Definition MAX_BRANCH_DEPTH : Z := 1000000.
Definition MAX_RENDERED_HTML_BYTES : Z := 2 * 1024 * 1024.
Definition MAX_RENDER_CACHE_EVICTION : Z := 1000.
Definition MAX_PAGE_SIZE : Z := 200.
Definition MAX_SEARCH_QUERY_CHARS : Z := 256.
Definition MAX_SHORT_QUERY_SCAN_ROWS : Z := 4096.
Definition MAX_SAFE_INTEGER : Z := 9007199254740991.
Definition I64_MAX : Z := 2 ^ 63 - 1.

(** [value.contains('\0')]. *)
Definition has_nul (s : str) : bool := existsb (fun b => byte_val b =? 0) s.

(** [value.chars().any(char::is_control)]. *)
Definition has_control (s : str) : bool := existsb is_control (chars s).

(** ** Identifiers *)

Definition is_lower_hex (b : byte) : bool := is_ascii_digit b || in_range b 97 102.

Definition validate_id (value : str) (field : string) : StorageResult unit :=
  ensure ((len value =? 32) && forallb is_lower_hex value)
    (InvalidInput field "must be exactly 32 lowercase hexadecimal characters").

Definition parse_id (field : string) (value : str) : StorageResult str :=
  _ ← validate_id value field; mret value.

Definition ChatId_parse : str -> StorageResult str := parse_id "chat ID".
Definition MessageId_parse : str -> StorageResult str := parse_id "message ID".
Definition RequestStateId_parse : str -> StorageResult str := parse_id "request state ID".
Definition StreamGeneration_parse : str -> StorageResult str := parse_id "stream generation".

Definition CharacterId_parse (value : str) : StorageResult str :=
  _ ← ensure (negb (is_empty value || (len value >? MAX_ID_BYTES)))
        (InvalidInput "character ID" "must contain between 1 and 128 bytes");
  _ ← ensure (negb (has_nul value)) (InvalidInput "character ID" "contains a null character");
  mret value.

Definition ModelId_parse (value : str) : StorageResult str :=
  _ ← ensure (negb (is_empty value)) (InvalidInput "model ID" "must not be empty");
  _ ← ensure (len value <=? MAX_MODEL_ID_BYTES) (InvalidInput "model ID" "exceeds the byte limit");
  _ ← ensure (negb (has_control value)) (InvalidInput "model ID" "contains a control character");
  mret value.

Definition label_byte (b : byte) : bool := is_ascii_alphanumeric b || one_of "-/:_" b.

Definition StreamOwnerLabel_parse (value : str) : StorageResult str :=
  _ ← ensure (negb (is_empty value || (len value >? MAX_STREAM_OWNER_LABEL_BYTES)))
        (InvalidInput "stream owner label" "must contain between 1 and 128 bytes");
  _ ← ensure (forallb label_byte value)
        (InvalidInput "stream owner label" "contains a character outside the native label alphabet");
  mret value.

Definition TimestampMillis_new (value : Z) : StorageResult Z :=
  _ ← ensure (negb ((value <? 0) || (value >? MAX_SAFE_INTEGER)))
        (InvalidInput "timestamp" "must be a non-negative safe integer");
  mret value.

(** [TimestampMillis::now] of a clock in milliseconds since the epoch. *)
Definition TimestampMillis_now (clock : Z) : StorageResult Z :=
  _ ← ensure (0 <=? clock) ClockBeforeEpoch;
  _ ← ensure (clock <=? I64_MAX) (InvalidInput "timestamp" "exceeds the database range");
  TimestampMillis_new clock.

(** ** Records *)

Inductive StorageProviderId : Type := StOpenAi | StAnthropic | StDeepSeek | StOllamaCloud | StGemini | StVertexAi.

Inductive StoredMessageRole : Type := RoleUser | RoleAssistant.

Inductive StoredMessageStatus : Type := MessageComplete | MessagePartial | MessageFailed.

Inductive StorageFailureCode : Type :=
  | NetworkUnavailable | AuthenticationFailed | RateLimited | ProviderRejected | FailureTimeout
  | ProtocolViolation | ResponseTooLarge | FailureInternal | AppRestarted.

Inductive StorageRequestStatus : Type :=
  | RequestRunning | RequestCompleted | RequestCancelled | RequestFailed | RequestInterrupted.

Inductive TerminalOutcome : Type :=
  | OutcomeCompleted
  | OutcomeCancelled
  | OutcomeFailed (code : StorageFailureCode).

Inductive Theme : Type := ThemeSystem | ThemeLight | ThemeDark.
Inductive DefaultMode : Type := ModeChat | ModeStory.

#[export] Instance StorageProviderId_eq_dec : EqDecision StorageProviderId.
Proof. solve_decision. Defined.
#[export] Instance StoredMessageRole_eq_dec : EqDecision StoredMessageRole.
Proof. solve_decision. Defined.
#[export] Instance StoredMessageStatus_eq_dec : EqDecision StoredMessageStatus.
Proof. solve_decision. Defined.
#[export] Instance StorageFailureCode_eq_dec : EqDecision StorageFailureCode.
Proof. solve_decision. Defined.
#[export] Instance StorageRequestStatus_eq_dec : EqDecision StorageRequestStatus.
Proof. solve_decision. Defined.
#[export] Instance TerminalOutcome_eq_dec : EqDecision TerminalOutcome.
Proof. solve_decision. Defined.

(** [RequestStatus::as_str]. *)
Definition request_status_str (status : StorageRequestStatus) : string :=
  match status with
  | RequestRunning => "running"
  | RequestCompleted => "completed"
  | RequestCancelled => "cancelled"
  | RequestFailed => "failed"
  | RequestInterrupted => "interrupted"
  end.

Record ProviderSelection : Type := mkSelection {
  sel_provider : StorageProviderId;
  sel_model : str;
}.

Record Chat : Type := mkChat {
  ch_id : str;
  ch_character : str;
  ch_title : str;
  ch_revision : Z;
  ch_created : Z;
  ch_updated : Z;
}.

Record StoredMessage : Type := mkMessage {
  sm_id : str;
  sm_chat : str;
  sm_parent : option str;
  sm_sibling : Z;
  sm_depth : Z;
  sm_ordinal : Z;
  sm_role : StoredMessageRole;
  sm_status : StoredMessageStatus;
  sm_text : str;
  sm_created : Z;
  sm_updated : Z;
  sm_completed : option Z;
}.

Record StorageTokenUsage : Type := mkStorageUsage {
  su_input : Z;
  su_output : Z;
  su_cached : Z;
  su_reasoning : Z;
}.

Definition StorageTokenUsage_default : StorageTokenUsage := mkStorageUsage 0 0 0 0.

Record RequestState : Type := mkRequest {
  rs_id : str;
  rs_chat : str;
  rs_user : str;
  rs_assistant : str;
  rs_selection : ProviderSelection;
  rs_owner : str;
  rs_generation : str;
  rs_status : StorageRequestStatus;
  rs_delivered : Z;
  rs_durable : Z;
  rs_acked : option Z;
  rs_response_id : option str;
  rs_usage : option StorageTokenUsage;
  rs_failure : option StorageFailureCode;
  rs_started : Z;
  rs_updated : Z;
  rs_finished : option Z;
}.

Record CreateChat : Type := mkCreateChat { cc_character : str; cc_title : str; cc_at : Z }.
Record ChatCursor : Type := mkChatCursor { cur_updated : Z; cur_chat : str }.
Record ChatPage : Type := mkChatPage { page_chats : list Chat; page_next : option ChatCursor }.
Record MessagePage : Type := mkMessagePage { mp_messages : list StoredMessage; mp_next : option Z }.
Record MessageOrdinalCursor : Type := mkOrdinalCursor { oc_chat : str; oc_ordinal : Z }.
Record RecentMessagePage : Type := mkRecentPage {
  rp_messages : list StoredMessage;
  rp_older : option MessageOrdinalCursor;
}.
Record BranchCursor : Type := mkBranchCursor { bc_sibling : Z; bc_message : str }.
Record BranchPage : Type := mkBranchPage {
  bp_messages : list StoredMessage;
  bp_next : option BranchCursor;
}.
Record MessageTimelineCursor : Type := mkTimelineCursor { tc_created : Z; tc_message : str }.
Record MessageTimelinePage : Type := mkTimelinePage {
  tp_messages : list StoredMessage;
  tp_next : option MessageTimelineCursor;
}.
Record ActivePathEntry : Type := mkPathEntry { pe_position : Z; pe_message : StoredMessage }.
Record ActivePathPage : Type := mkPathPage {
  pp_entries : list ActivePathEntry;
  pp_next : option Z;
}.
Record ActivePathSelection : Type := mkPathSelection {
  ps_chat : str;
  ps_leaf : str;
  ps_length : Z;
}.
Record SelectActivePath : Type := mkSelectPath {
  sp_chat : str;
  sp_expected : option str;
  sp_leaf : str;
  sp_at : Z;
}.
Record AppendBranchMessage : Type := mkAppend {
  ab_chat : str;
  ab_parent : option str;
  ab_expected : option str;
  ab_role : StoredMessageRole;
  ab_text : str;
  ab_at : Z;
}.
Record AppendedBranchMessage : Type := mkAppended {
  ad_message : StoredMessage;
  ad_path : ActivePathSelection;
}.
Record CachedRender : Type := mkCachedRender {
  cr_message : str;
  cr_version : Z;
  cr_html : str;
  cr_last_used : Z;
}.
Record RenderCacheCas : Type := mkCas { cas_version : Z; cas_last_used : Z }.
Record PutRenderCache : Type := mkPutCache {
  pc_message : str;
  pc_version : Z;
  pc_html : str;
  pc_expected : option RenderCacheCas;
  pc_at : Z;
}.
Record EvictRenderCache : Type := mkEvict { ev_older_than : Z; ev_limit : Z }.
Record RenderCacheEviction : Type := mkEviction { evicted_entries : Z; evicted_html_bytes : Z }.
Record BeginTurn : Type := mkBeginTurn {
  bt_chat : str;
  bt_selection : ProviderSelection;
  bt_owner : str;
  bt_generation : str;
  bt_user_text : str;
  bt_started : Z;
}.
Record StartedTurn : Type := mkStarted {
  st_request : str;
  st_user : str;
  st_assistant : str;
  st_user_ordinal : Z;
  st_assistant_ordinal : Z;
  st_owner : str;
  st_generation : str;
  st_delivered : Z;
  st_durable : Z;
  st_acked : option Z;
}.
Record ResponseCheckpoint : Type := mkCheckpoint {
  rc_request : str;
  rc_owner : str;
  rc_generation : str;
  rc_expected_durable : Z;
  rc_through : Z;
  rc_text : str;
  rc_response_id : option str;
  rc_usage : option StorageTokenUsage;
  rc_at : Z;
}.
Record DeliveryCheckpoint : Type := mkDelivery {
  dc_request : str;
  dc_owner : str;
  dc_generation : str;
  dc_expected_delivered : Z;
  dc_through : Z;
  dc_at : Z;
}.
Record CumulativeAck : Type := mkAck {
  ca_request : str;
  ca_owner : str;
  ca_generation : str;
  ca_expected_acked : option Z;
  ca_through : Z;
  ca_at : Z;
}.
Record ResponseProgress : Type := mkProgress {
  pr_request : str;
  pr_assistant : str;
  pr_delivered : Z;
  pr_durable : Z;
  pr_acked : option Z;
  pr_text_bytes : Z;
  pr_status : StorageRequestStatus;
  pr_updated : Z;
}.
Record StreamSequenceProgress : Type := mkSequence {
  sq_request : str;
  sq_owner : str;
  sq_generation : str;
  sq_delivered : Z;
  sq_durable : Z;
  sq_acked : option Z;
  sq_status : StorageRequestStatus;
  sq_updated : Z;
}.
Record ProviderModelIds : Type := mkModelIds {
  mi_openai : str;
  mi_anthropic : str;
  mi_deepseek : str;
  mi_ollama_cloud : str;
  mi_gemini : str;
}.
Record AppPreferences : Type := mkPreferences {
  ap_provider : StorageProviderId;
  ap_models : ProviderModelIds;
  ap_theme : Theme;
  ap_mode : DefaultMode;
  ap_revision : Z;
  ap_updated : Z;
}.
Record UpdatePreferences : Type := mkUpdatePreferences {
  up_expected : Z;
  up_provider : StorageProviderId;
  up_models : ProviderModelIds;
  up_theme : Theme;
  up_mode : DefaultMode;
  up_at : Z;
}.

#[export] Instance StorageTokenUsage_eq_dec : EqDecision StorageTokenUsage.
Proof. solve_decision. Defined.
#[export] Instance ProviderSelection_eq_dec : EqDecision ProviderSelection.
Proof. solve_decision. Defined.
#[export] Instance StoredMessage_eq_dec : EqDecision StoredMessage.
Proof. solve_decision. Defined.
#[export] Instance RequestState_eq_dec : EqDecision RequestState.
Proof. solve_decision. Defined.

(** [ProviderModelIds::get]. *)
Definition model_id_of (ids : ProviderModelIds) (provider : StorageProviderId) : option str :=
  match provider with
  | StOpenAi => Some (mi_openai ids)
  | StAnthropic => Some (mi_anthropic ids)
  | StDeepSeek => Some (mi_deepseek ids)
  | StOllamaCloud => Some (mi_ollama_cloud ids)
  | StGemini => Some (mi_gemini ids)
  | StVertexAi => None
  end.

Definition MessageOrdinalCursor_new (chat_id : str) (ordinal : Z) : StorageResult MessageOrdinalCursor :=
  _ ← ensure (negb ((ordinal =? 0) || (ordinal >? MAX_SAFE_INTEGER)))
        (InvalidInput "message cursor ordinal" "must be between 1 and the safe integer limit");
  mret (mkOrdinalCursor chat_id ordinal).

Definition RendererVersion_new (value : Z) : StorageResult Z :=
  _ ← ensure (negb ((value =? 0) || (value >? MAX_SAFE_INTEGER)))
        (InvalidInput "renderer version" "must be between 1 and the safe integer limit");
  mret value.

(** ** Integers of the database *)

Definition encode_u64 (value : Z) (field : string) : StorageResult Z :=
  _ ← ensure (value <=? MAX_SAFE_INTEGER) (InvalidInput field "exceeds the safe integer range");
  _ ← ensure (value <=? I64_MAX) (InvalidInput field "exceeds the database range");
  mret value.

Definition decode_u64 (value : Z) (field : string) : StorageResult Z :=
  _ ← ensure (0 <=? value)
        (IncompatibleSchema
           (if String.eqb field "message ordinal" then "message ordinal is negative"
            else if String.eqb field "request sequence" then "request sequence is negative"
            else "numeric value is outside the supported range"));
  _ ← ensure (value <=? MAX_SAFE_INTEGER)
        (IncompatibleSchema "numeric value exceeds the safe integer range");
  mret value.

Definition ensure_revision_can_advance (value : Z) (field : string) : StorageResult unit :=
  ensure (value <? MAX_SAFE_INTEGER) (InvalidInput field "cannot advance beyond the safe integer range").

Definition encode_usage (usage : StorageTokenUsage) : StorageResult StorageTokenUsage :=
  i ← encode_u64 (su_input usage) "input token usage";
  o ← encode_u64 (su_output usage) "output token usage";
  c ← encode_u64 (su_cached usage) "cached input token usage";
  r ← encode_u64 (su_reasoning usage) "reasoning token usage";
  mret (mkStorageUsage i o c r).

Definition decode_usage (usage : StorageTokenUsage) : StorageResult StorageTokenUsage :=
  i ← decode_u64 (su_input usage) "input token usage";
  o ← decode_u64 (su_output usage) "output token usage";
  c ← decode_u64 (su_cached usage) "cached input token usage";
  r ← decode_u64 (su_reasoning usage) "reasoning token usage";
  mret (mkStorageUsage i o c r).

(** [option.map(f).transpose()]. *)
Definition transpose {A B} (f : A -> StorageResult B) (o : option A) : StorageResult (option B) :=
  match o with
  | None => mret None
  | Some a => b ← f a; mret (Some b)
  end.

(** ** Validation of arguments *)

Definition text_limit (value : str) (limit : Z) (field : string) : StorageResult unit :=
  _ ← ensure (len value <=? limit) (InvalidInput field "exceeds the byte limit");
  ensure (negb (has_nul value)) (InvalidInput field "contains a null character").

Definition validate_chat_title (title : str) : StorageResult unit :=
  text_limit title MAX_CHAT_TITLE_BYTES "chat title".

Definition validate_user_message (content : str) : StorageResult unit :=
  _ ← ensure (negb (is_empty (trim content))) (InvalidInput "user message" "must not be blank");
  text_limit content MAX_USER_MESSAGE_BYTES "user message".

Definition validate_complete_message (role : StoredMessageRole) (text : str) : StorageResult unit :=
  match role with
  | RoleUser => validate_user_message text
  | RoleAssistant => text_limit text MAX_MESSAGE_BYTES "assistant message"
  end.

Definition validate_rendered_html (html : str) : StorageResult unit :=
  text_limit html MAX_RENDERED_HTML_BYTES "rendered HTML".

Definition validate_branch_depth (depth : Z) : StorageResult unit :=
  ensure (depth <=? MAX_BRANCH_DEPTH) (InvalidInput "message depth" "exceeds the branch depth limit").

Definition validate_page_size (limit : Z) : StorageResult unit :=
  ensure (negb ((limit =? 0) || (limit >? MAX_PAGE_SIZE))) (InvalidInput "page size" "must be between 1 and 200").

Definition validate_search_query (query : str) : StorageResult unit :=
  _ ← ensure (negb ((len (chars query) =? 0) || (len (chars query) >? MAX_SEARCH_QUERY_CHARS)))
        (InvalidInput "search query" "must contain between 1 and 256 characters");
  ensure (negb (existsb (Z.eqb 0) (chars query))) (InvalidInput "search query" "contains a null character").

Definition validate_persisted_text (value : str) (max_bytes : Z) (field : string) : StorageResult unit :=
  ensure (negb ((len value >? max_bytes) || has_nul value))
    (IncompatibleSchema
       (if String.eqb field "chat title" then "chat title violates the storage contract"
        else if String.eqb field "message text" then "message text violates the storage contract"
        else "stored text violates the storage contract")).

Definition validate_model_preference (model_id : str) : StorageResult unit :=
  _ ← ensure (len model_id <=? MAX_MODEL_ID_BYTES)
        (InvalidInput "model ID preference" "exceeds the byte limit");
  ensure (negb (has_control model_id)) (InvalidInput "model ID preference" "contains a control character").

Definition validate_model_preferences (ids : ProviderModelIds) : StorageResult unit :=
  forM_result validate_model_preference
    [mi_openai ids; mi_anthropic ids; mi_deepseek ids; mi_ollama_cloud ids; mi_gemini ids].

Definition validate_response_id (id : str) : StorageResult unit :=
  _ ← ensure (negb (is_empty id || (len id >? MAX_PROVIDER_RESPONSE_ID_BYTES)))
        (InvalidInput "provider response ID" "has an invalid byte length");
  ensure (negb (has_control id)) (InvalidInput "provider response ID" "contains a control character").

Definition validate_checkpoint (checkpoint : ResponseCheckpoint) : StorageResult unit :=
  _ ← ensure (rc_expected_durable checkpoint <? rc_through checkpoint)
        (InvalidInput "checkpoint sequence" "must advance beyond the expected sequence");
  _ ← encode_u64 (rc_expected_durable checkpoint) "durable sequence";
  _ ← encode_u64 (rc_through checkpoint) "durable sequence";
  _ ← text_limit (rc_text checkpoint) MAX_CHECKPOINT_BYTES "checkpoint text";
  _ ← transpose validate_response_id (rc_response_id checkpoint);
  _ ← transpose encode_usage (rc_usage checkpoint);
  mret tt.

Definition validate_delivery_checkpoint (checkpoint : DeliveryCheckpoint) : StorageResult unit :=
  _ ← encode_u64 (dc_expected_delivered checkpoint) "delivered sequence";
  _ ← encode_u64 (dc_through checkpoint) "delivered sequence";
  next ← ok_or (checked_add U64_MAX (dc_expected_delivered checkpoint) 1)
           (InvalidInput "delivered sequence" "cannot advance beyond the supported range");
  ensure (dc_through checkpoint =? next)
    (InvalidInput "delivered sequence" "must advance by exactly one contiguous sequence").

Definition validate_acked (sequence : Z) : StorageResult Z :=
  _ ← ensure (negb (sequence =? 0))
        (InvalidInput "acknowledged sequence" "zero is represented by no acknowledgement");
  encode_u64 sequence "acknowledged sequence".

Definition validate_cumulative_ack (ack : CumulativeAck) : StorageResult unit :=
  let previous := default 0 (ca_expected_acked ack) in
  _ ← transpose validate_acked (ca_expected_acked ack);
  _ ← encode_u64 (ca_through ack) "acknowledged sequence";
  ensure (previous <? ca_through ack)
    (InvalidInput "acknowledged sequence" "must cumulatively advance beyond the previous acknowledgement").

Definition validate_stream_sequence_invariant (delivered durable : Z) (acked : option Z) : StorageResult unit :=
  ensure (negb ((durable >? delivered) ||
                match acked with None => false | Some a => (a =? 0) || (a >? durable) end))
    (IncompatibleSchema "stream journal sequence invariant failed").
