(* ===== verification/ChatStore.v ===== *)
(** * Conversation storage: the tables and the operations

    [crates/lorepia-storage/src/store.rs] and the recovery of [migration.rs].  The database
    is a record of its tables; a column whose [CHECK] lists its values is the enumeration
    it stands for.  A statement that inserts or updates rows goes through the constraints
    of the schema ([CHECK], [UNIQUE], foreign keys and the trigger on parents), which say
    when SQLite refuses it.  An operation is a state-passing function; [transaction]
    discards what a failed one wrote.  Identifiers drawn by [Uuid::new_v4] are
    arguments. *)

From stdpp Require Import gmap.
From S2P Require Import Prelude Sorting Bytes Utf8 ChatModel.

Record Db : Type := mkDb {
  chats : gmap str Chat;
  messages : gmap str StoredMessage;
  requests : gmap str RequestState;
  active_path : gmap str (gmap Z str);
  render_cache : gmap str CachedRender;
  settings : option AppPreferences;
}.

Abbreviation StoreM := (ST Db StorageError).

Definition set_chats (c : gmap str Chat) (db : Db) : Db :=
  mkDb c (messages db) (requests db) (active_path db) (render_cache db) (settings db).
Definition set_messages (m : gmap str StoredMessage) (db : Db) : Db :=
  mkDb (chats db) m (requests db) (active_path db) (render_cache db) (settings db).
Definition set_requests (r : gmap str RequestState) (db : Db) : Db :=
  mkDb (chats db) (messages db) r (active_path db) (render_cache db) (settings db).
Definition set_active_path (p : gmap str (gmap Z str)) (db : Db) : Db :=
  mkDb (chats db) (messages db) (requests db) p (render_cache db) (settings db).
Definition set_render_cache (c : gmap str CachedRender) (db : Db) : Db :=
  mkDb (chats db) (messages db) (requests db) (active_path db) c (settings db).
Definition set_settings (s : option AppPreferences) (db : Db) : Db :=
  mkDb (chats db) (messages db) (requests db) (active_path db) (render_cache db) s.

(** The state right after the migrations of a new file. *)
Definition empty_db : Db :=
  mkDb ∅ ∅ ∅ ∅ ∅
    (Some (mkPreferences StOpenAi (mkModelIds [] [] [] [] []) ThemeSystem ModeChat 0 0)).

(** [transaction_with_behavior(Immediate)] up to [commit]. *)
Definition transaction {A} (body : StoreM A) : StoreM A := fun db =>
  match body db with
  | (db', Ok a) => (db', Ok a)
  | (_, Err e) => (db, Err e)
  end.

Definition gets {A} (f : Db -> A) : StoreM A := fun db => (db, Ok (f db)).
Definition update (f : Db -> StorageResult Db) : StoreM unit := fun db =>
  match f db with Ok db' => (db', Ok tt) | Err e => (db, Err e) end.

(** ** Queries *)

Definition rows_of {A} (keep : A -> bool) (table : gmap str A) : list A :=
  List.filter keep (map snd (map_to_list table)).

(** [SELECT ... WHERE keep ORDER BY cmp LIMIT limit]. *)
Definition select {A} (keep : A -> bool) (cmp : A -> A -> comparison) (limit : Z) (table : gmap str A) : list A :=
  take (Z.to_nat limit) (sort_by cmp (rows_of keep table)).

(** [SELECT max(f)]. *)
Definition max_of {A} (f : A -> Z) (rows : list A) : option Z :=
  foldr (fun a acc => Some (match acc with None => f a | Some z => Z.max (f a) z end)) None rows.

Definition min_of {A} (f : A -> Z) (rows : list A) : option Z :=
  foldr (fun a acc => Some (match acc with None => f a | Some z => Z.min (f a) z end)) None rows.

Definition in_chat (chat_id : str) (m : StoredMessage) : bool := bool_decide (sm_chat m = chat_id).

Definition path_of (chat_id : str) (db : Db) : gmap Z str := default ∅ (active_path db !! chat_id).

(** The rows of [active_path JOIN messages], by position. *)
Definition path_rows (chat_id : str) (db : Db) : list (Z * StoredMessage) :=
  omap (fun row => match messages db !! row.2 with
                   | Some m => if in_chat chat_id m then Some (row.1, m) else None
                   | None => None
                   end)
    (sort_by (fun a b => a.1 ?= b.1) (map_to_list (path_of chat_id db))).

(** ** Constraints of the schema *)

Definition between (lo x hi : Z) : bool := (lo <=? x) && (x <=? hi).
Definition opt_all {A} (p : A -> bool) (o : option A) : bool := match o with None => true | Some a => p a end.

Definition id_check (id : str) : bool := (len id =? 32) && forallb is_lower_hex id.

Definition chat_check (c : Chat) : bool :=
  between 1 (ch_revision c) MAX_SAFE_INTEGER && between 0 (ch_created c) MAX_SAFE_INTEGER &&
  between (ch_created c) (ch_updated c) MAX_SAFE_INTEGER && id_check (ch_id c) &&
  between 1 (len (ch_character c)) 128 && (len (ch_title c) <=? 1024).

Definition message_check (m : StoredMessage) : bool :=
  between 1 (sm_sibling m) MAX_SAFE_INTEGER && between 0 (sm_depth m) MAX_SAFE_INTEGER &&
  between 1 (sm_ordinal m) MAX_SAFE_INTEGER && between 0 (sm_created m) MAX_SAFE_INTEGER &&
  between (sm_created m) (sm_updated m) MAX_SAFE_INTEGER &&
  opt_all (fun t => between (sm_created m) t MAX_SAFE_INTEGER) (sm_completed m) &&
  id_check (sm_id m) && opt_all id_check (sm_parent m) && (len (sm_text m) <=? 1048576) &&
  match sm_role m, sm_status m with RoleUser, MessageComplete => true | RoleUser, _ => false | RoleAssistant, _ => true end &&
  match sm_status m with MessageComplete => is_some (sm_completed m) | _ => negb (is_some (sm_completed m)) end &&
  match sm_parent m with None => sm_depth m =? 0 | Some _ => 1 <=? sm_depth m end.

Definition usage_check (u : StorageTokenUsage) : bool :=
  between 0 (su_input u) MAX_SAFE_INTEGER && between 0 (su_output u) MAX_SAFE_INTEGER &&
  between 0 (su_cached u) MAX_SAFE_INTEGER && between 0 (su_reasoning u) MAX_SAFE_INTEGER.

Definition status_check (r : RequestState) : bool :=
  match rs_status r with
  | RequestRunning => negb (is_some (rs_finished r)) && negb (is_some (rs_failure r))
  | RequestCompleted | RequestCancelled => is_some (rs_finished r) && negb (is_some (rs_failure r))
  | RequestFailed => is_some (rs_finished r) && is_some (rs_failure r) &&
                     negb (bool_decide (rs_failure r = Some AppRestarted))
  | RequestInterrupted => is_some (rs_finished r) && bool_decide (rs_failure r = Some AppRestarted)
  end.

Definition request_check (r : RequestState) : bool :=
  between 0 (rs_delivered r) MAX_SAFE_INTEGER && between 0 (rs_durable r) MAX_SAFE_INTEGER &&
  opt_all (fun a => between 1 a MAX_SAFE_INTEGER) (rs_acked r) && opt_all usage_check (rs_usage r) &&
  between 0 (rs_started r) MAX_SAFE_INTEGER && between (rs_started r) (rs_updated r) MAX_SAFE_INTEGER &&
  opt_all (fun t => between (rs_started r) t MAX_SAFE_INTEGER) (rs_finished r) &&
  id_check (rs_id r) && between 1 (len (rs_owner r)) 128 && forallb label_byte (rs_owner r) &&
  id_check (rs_generation r) && between 1 (len (sel_model (rs_selection r))) 256 &&
  opt_all (fun id => between 1 (len id) 256) (rs_response_id r) &&
  opt_all (fun a => a <=? rs_durable r) (rs_acked r) && (rs_durable r <=? rs_delivered r) &&
  status_check r.

Definition cache_check (c : CachedRender) : bool :=
  between 1 (cr_version c) MAX_SAFE_INTEGER && (len (cr_html c) <=? 2097152) &&
  between 0 (cr_last_used c) MAX_SAFE_INTEGER.

(** [UNIQUE(chat_id, ordinal)], the two unique sibling indexes and the foreign keys with
    the trigger [messages_parent_bi]. *)
Definition message_unique (table : gmap str StoredMessage) (m : StoredMessage) : bool :=
  negb (existsb (fun o => in_chat (sm_chat m) o &&
                  ((sm_ordinal o =? sm_ordinal m) ||
                   (bool_decide (sm_parent o = sm_parent m) && (sm_sibling o =? sm_sibling m))))
          (rows_of (fun _ => true) table)).

Definition parent_ok (table : gmap str StoredMessage) (m : StoredMessage) : bool :=
  opt_all (fun p => match table !! p with
                    | Some parent => in_chat (sm_chat m) parent && (sm_depth parent + 1 =? sm_depth m)
                    | None => false
                    end) (sm_parent m).

Definition insert_message (entity : string) (m : StoredMessage) (db : Db) : StorageResult Db :=
  _ ← ensure (message_check m && negb (is_some (messages db !! sm_id m)) && message_unique (messages db) m &&
              is_some (chats db !! sm_chat m) && parent_ok (messages db) m)
        (Conflict entity);
  mret (set_messages (<[sm_id m := m]> (messages db)) db).

Definition update_message (m : StoredMessage) (db : Db) : StorageResult Db :=
  _ ← ensure (message_check m) Database;
  mret (set_messages (<[sm_id m := m]> (messages db)) db).

Definition is_running (r : RequestState) : bool := bool_decide (rs_status r = RequestRunning).

Definition running_in (chat_id : str) (db : Db) : bool :=
  existsb (fun r => bool_decide (rs_chat r = chat_id) && is_running r) (rows_of (fun _ => true) (requests db)).

Definition message_of (chat_id id : str) (table : gmap str StoredMessage) : bool :=
  match table !! id with Some m => in_chat chat_id m | None => false end.

Definition insert_request (r : RequestState) (db : Db) : StorageResult Db :=
  _ ← ensure (request_check r && negb (is_some (requests db !! rs_id r)) &&
              negb (existsb (fun o => bool_decide (rs_generation o = rs_generation r))
                      (rows_of (fun _ => true) (requests db))) &&
              negb (is_running r && running_in (rs_chat r) db) &&
              is_some (chats db !! rs_chat r) && message_of (rs_chat r) (rs_user r) (messages db) &&
              message_of (rs_chat r) (rs_assistant r) (messages db))
        (Conflict "active request");
  mret (set_requests (<[rs_id r := r]> (requests db)) db).

Definition update_request (r : RequestState) (db : Db) : StorageResult Db :=
  _ ← ensure (request_check r) Database;
  mret (set_requests (<[rs_id r := r]> (requests db)) db).

(** [INSERT INTO active_path] of one row: primary key, [UNIQUE(chat_id, message_id)] and the
    foreign keys. *)
Definition insert_path (chat_id : str) (position : Z) (message_id : str) (db : Db) : StorageResult Db :=
  _ ← ensure (between 0 position MAX_SAFE_INTEGER && negb (is_some (path_of chat_id db !! position)) &&
              negb (existsb (fun row => bool_decide (row.2 = message_id)) (map_to_list (path_of chat_id db))) &&
              message_of chat_id message_id (messages db))
        Database;
  mret (set_active_path (<[chat_id := <[position := message_id]> (path_of chat_id db)]> (active_path db)) db).

(** [UPDATE chats SET updated_at_ms = max(updated_at_ms, at) WHERE id = chat_id]. *)
Definition with_updated (at_ms : Z) (c : Chat) : Chat :=
  mkChat (ch_id c) (ch_character c) (ch_title c) (ch_revision c) (ch_created c) (Z.max (ch_updated c) at_ms).

Definition touch_chat (chat_id : str) (at_ms : Z) (db : Db) : StorageResult Db :=
  match chats db !! chat_id with
  | None => mret db
  | Some c =>
      _ ← ensure (chat_check (with_updated at_ms c)) Database;
      mret (set_chats (<[chat_id := with_updated at_ms c]> (chats db)) db)
  end.

(** ** Rows as values *)

Definition decode_chat (raw : Chat) : StorageResult Chat :=
  _ ← validate_persisted_text (ch_title raw) MAX_CHAT_TITLE_BYTES "chat title";
  _ ← ChatId_parse (ch_id raw);
  _ ← CharacterId_parse (ch_character raw);
  _ ← decode_u64 (ch_revision raw) "chat revision";
  _ ← TimestampMillis_new (ch_created raw);
  _ ← TimestampMillis_new (ch_updated raw);
  mret raw.

Definition decode_message (raw : StoredMessage) : StorageResult StoredMessage :=
  _ ← validate_persisted_text (sm_text raw) MAX_MESSAGE_BYTES "message text";
  _ ← MessageId_parse (sm_id raw);
  _ ← ChatId_parse (sm_chat raw);
  _ ← transpose MessageId_parse (sm_parent raw);
  _ ← decode_u64 (sm_sibling raw) "message sibling ordinal";
  _ ← decode_u64 (sm_depth raw) "message depth";
  _ ← decode_u64 (sm_ordinal raw) "message ordinal";
  _ ← TimestampMillis_new (sm_created raw);
  _ ← TimestampMillis_new (sm_updated raw);
  _ ← transpose TimestampMillis_new (sm_completed raw);
  mret raw.

Definition decode_request_state (raw : RequestState) : StorageResult RequestState :=
  _ ← transpose decode_usage (rs_usage raw);
  _ ← decode_u64 (rs_delivered raw) "delivered sequence";
  _ ← decode_u64 (rs_durable raw) "durable sequence";
  _ ← transpose (fun a => decode_u64 a "acknowledged sequence") (rs_acked raw);
  _ ← validate_stream_sequence_invariant (rs_delivered raw) (rs_durable raw) (rs_acked raw);
  _ ← RequestStateId_parse (rs_id raw);
  _ ← ChatId_parse (rs_chat raw);
  _ ← MessageId_parse (rs_user raw);
  _ ← MessageId_parse (rs_assistant raw);
  _ ← ModelId_parse (sel_model (rs_selection raw));
  _ ← StreamOwnerLabel_parse (rs_owner raw);
  _ ← StreamGeneration_parse (rs_generation raw);
  _ ← TimestampMillis_new (rs_started raw);
  _ ← TimestampMillis_new (rs_updated raw);
  _ ← transpose TimestampMillis_new (rs_finished raw);
  mret raw.

Definition decode_preferences (raw : AppPreferences) : StorageResult AppPreferences :=
  _ ← validate_model_preferences (ap_models raw);
  _ ← decode_u64 (ap_revision raw) "settings revision";
  _ ← TimestampMillis_new (ap_updated raw);
  mret raw.

Definition load_request_state (id : str) : StoreM RequestState :=
  row ← gets (fun db => requests db !! id);
  raw ← st_lift (ok_or row (NotFound "request state"));
  st_lift (decode_request_state raw).

Definition query_message (id : str) : StoreM StoredMessage :=
  row ← gets (fun db => messages db !! id);
  st_lift (ok_or row (NotFound "message")).

Definition ensure_chat_exists (chat_id : str) : StoreM unit :=
  exists_ ← gets (fun db => is_some (chats db !! chat_id));
  st_lift (ensure exists_ (NotFound "chat")).

Definition current_active_leaf (chat_id : str) : StoreM (option (str * Z)) :=
  rows ← gets (path_rows chat_id);
  st_lift (transpose (fun row => id ← MessageId_parse (sm_id row.2);
                                 depth ← decode_u64 (sm_depth row.2) "message depth";
                                 mret (id, depth))
             (head (reverse rows))).

Definition ensure_expected_active_leaf (chat_id : str) (expected : option str) : StoreM unit :=
  leaf ← current_active_leaf chat_id;
  st_lift (ensure (bool_decide (fst <$> leaf = expected)) (Conflict "active path")).

Definition message_depth (chat_id message_id : str) : StoreM Z :=
  row ← gets (fun db => messages db !! message_id);
  m ← st_lift (ok_or (match row with Some m => if in_chat chat_id m then Some m else None | None => None end)
                 (NotFound "message"));
  depth ← st_lift (decode_u64 (sm_depth m) "message depth");
  _ ← st_lift (validate_branch_depth depth);
  mret depth.

(** [maximum.unwrap_or(0).checked_add(1)], decoded. *)
Definition next_after (maximum : option Z) (field : string) : StorageResult Z :=
  next ← ok_or (checked_add I64_MAX (default 0 maximum) 1)
           (InvalidInput field "cannot advance beyond the supported range");
  decode_u64 next field.

Definition next_sibling_ordinal (chat_id : str) (parent_id : option str) : StoreM Z :=
  maximum ← gets (fun db => max_of sm_sibling
              (rows_of (fun m => in_chat chat_id m && bool_decide (sm_parent m = parent_id)) (messages db)));
  st_lift (next_after maximum "message sibling ordinal").

Definition max_ordinal (chat_id : str) (db : Db) : option Z :=
  max_of sm_ordinal (rows_of (in_chat chat_id) (messages db)).

Definition next_message_ordinal (chat_id : str) : StoreM Z :=
  maximum ← gets (max_ordinal chat_id);
  st_lift (next_after maximum "message ordinal").

(** ** The active path *)

(** [WITH RECURSIVE ancestry]: a message and its ancestors in the chat, leaf first. *)
Fixpoint ancestry (fuel : nat) (chat_id id : str) (table : gmap str StoredMessage) : list StoredMessage :=
  match fuel with
  | O => []
  | S fuel' =>
      match table !! id with
      | Some m => if in_chat chat_id m
                  then m :: match sm_parent m with None => [] | Some p => ancestry fuel' chat_id p table end
                  else []
      | None => []
      end
  end.

Definition ancestors (chat_id id : str) (db : Db) : list StoredMessage :=
  ancestry (S (size (messages db))) chat_id id (messages db).

(** The first position at which the ancestry and the stored path differ. *)
Definition first_mismatch (path : gmap Z str) (line : list StoredMessage) : option Z :=
  min_of sm_depth (List.filter (fun m => negb (bool_decide (path !! sm_depth m = Some (sm_id m)))) line).

Definition truncate_path (chat_id : str) (divergence : Z) (db : Db) : Db :=
  set_active_path (<[chat_id := filter (fun row => row.1 < divergence) (path_of chat_id db)]> (active_path db)) db.

Definition insert_suffix (chat_id : str) (suffix : list StoredMessage) (db : Db) : StorageResult Db :=
  foldM_result (fun db m => insert_path chat_id (sm_depth m) (sm_id m) db) db suffix.

Definition replace_active_path (chat_id leaf_id : str) : StoreM Z :=
  leaf_depth ← message_depth chat_id leaf_id;
  path_length ← st_lift (ok_or (checked_add U64_MAX leaf_depth 1)
                   (IncompatibleSchema "active path length exceeds the supported range"));
  _ ← st_lift (encode_u64 leaf_depth "message depth");
  _ ← st_lift (encode_u64 path_length "active path length");
  line ← gets (ancestors chat_id leaf_id);
  path ← gets (path_of chat_id);
  _ ← st_lift (ensure ((len line =? path_length) && bool_decide (min_of sm_depth line = Some 0) &&
                       bool_decide (max_of sm_depth line = Some leaf_depth))
                 (IncompatibleSchema "message ancestry is incomplete or has invalid depth"));
  let divergence := default path_length (first_mismatch path line) in
  _ ← st_lift (ensure (negb ((divergence <? 0) || (divergence >? path_length)))
                 (IncompatibleSchema "active path divergence is outside the ancestry"));
  _ ← st_modify (truncate_path chat_id divergence);
  let suffix := List.filter (fun m => divergence <=? sm_depth m)
                  (sort_by (fun a b => sm_depth a ?= sm_depth b) line) in
  _ ← update (insert_suffix chat_id suffix);
  _ ← st_lift (ensure (len suffix =? path_length - divergence)
                 (IncompatibleSchema "active path suffix was not materialized completely"));
  mret path_length.

(** ** Chats *)

Definition create_chat (id : str) (input : CreateChat) : StoreM Chat :=
  _ ← st_lift (validate_chat_title (cc_title input));
  let chat := mkChat id (cc_character input) (cc_title input) 1 (cc_at input) (cc_at input) in
  _ ← update (fun db =>
        _ ← ensure (chat_check chat && negb (is_some (chats db !! id))) (Conflict "chat");
        mret (set_chats (<[id := chat]> (chats db)) db));
  mret chat.

Definition get_chat (chat_id : str) : StoreM Chat :=
  row ← gets (fun db => chats db !! chat_id);
  raw ← st_lift (ok_or row (NotFound "chat"));
  st_lift (decode_chat raw).

Definition renamed (title : str) (at_ms : Z) (c : Chat) : Chat :=
  mkChat (ch_id c) (ch_character c) title (ch_revision c + 1) (ch_created c) (Z.max (ch_updated c) at_ms).

Definition rename_chat (chat_id : str) (expected_revision : Z) (title : str) (at_ms : Z) : StoreM Chat :=
  _ ← st_lift (validate_chat_title title);
  _ ← st_lift (ensure_revision_can_advance expected_revision "chat revision");
  expected ← st_lift (encode_u64 expected_revision "chat revision");
  transaction (
    row ← gets (fun db => chats db !! chat_id);
    match row with
    | Some c =>
        if ch_revision c =? expected then
          _ ← update (fun db => _ ← ensure (chat_check (renamed title at_ms c)) Database;
                                mret (set_chats (<[chat_id := renamed title at_ms c]> (chats db)) db));
          st_lift (decode_chat (renamed title at_ms c))
        else st_lift (Err (Conflict "chat revision"))
    | None => st_lift (Err (NotFound "chat"))
    end).

(** [DELETE FROM chats] with the cascades of the foreign keys. *)
Definition delete_chat_rows (chat_id : str) (db : Db) : Db :=
  let kept := filter (fun row => sm_chat row.2 <> chat_id) (messages db) in
  mkDb (delete chat_id (chats db)) kept (filter (fun row => rs_chat row.2 <> chat_id) (requests db))
    (delete chat_id (active_path db)) (filter (fun row => is_Some (kept !! row.1)) (render_cache db)) (settings db).

Definition delete_chat (chat_id : str) : StoreM unit :=
  transaction (
    _ ← ensure_chat_exists chat_id;
    running ← gets (running_in chat_id);
    _ ← st_lift (ensure (negb running) (Conflict "chat with an active request"));
    st_modify (delete_chat_rows chat_id)).

(** Descending by time of the last change, then by identifier. *)
Definition chat_cmp (a b : Chat) : comparison :=
  then_with (ch_updated b ?= ch_updated a) (str_cmp (ch_id b) (ch_id a)).

Definition chat_after (before : option ChatCursor) (c : Chat) : bool :=
  match before with
  | None => true
  | Some cur => (ch_updated c <? cur_updated cur) ||
                ((ch_updated c =? cur_updated cur) &&
                 match str_cmp (ch_id c) (cur_chat cur) with Lt => true | _ => false end)
  end.

Definition list_chats (limit : Z) (before : option ChatCursor) : StoreM ChatPage :=
  _ ← st_lift (validate_page_size limit);
  raw ← gets (fun db => select (chat_after before) chat_cmp (limit + 1) (chats db));
  page ← st_lift (mapM_result decode_chat (take (Z.to_nat limit) raw));
  let next := if limit <? len raw
              then (fun c => mkChatCursor (ch_updated c) (ch_id c)) <$> head (reverse page) else None in
  mret (mkChatPage page next).

(** ** Turns and the stream journal *)

Definition begin_turn (request_id user_id assistant_id : str) (input : BeginTurn) : StoreM StartedTurn :=
  _ ← st_lift (validate_user_message (bt_user_text input));
  transaction (
    row ← gets (fun db => chats db !! bt_chat input);
    chat ← st_lift (ok_or row (NotFound "chat"));
    created ← st_lift (TimestampMillis_new (ch_created chat));
    _ ← st_lift (ensure (created <=? bt_started input)
                   (InvalidInput "turn timestamp" "must not predate the chat"));
    last_ordinal ← gets (max_ordinal (bt_chat input));
    user_ordinal ← st_lift (ok_or (checked_add I64_MAX (default 0 last_ordinal) 1)
                      (IncompatibleSchema "message ordinal overflowed"));
    assistant_ordinal ← st_lift (ok_or (checked_add I64_MAX user_ordinal 1)
                           (IncompatibleSchema "message ordinal overflowed"));
    _ ← st_lift (decode_u64 user_ordinal "message ordinal");
    _ ← st_lift (decode_u64 assistant_ordinal "message ordinal");
    leaf ← current_active_leaf (bt_chat input);
    _ ← st_lift (ensure (Bool.eqb (is_some last_ordinal) (is_some leaf))
                   (IncompatibleSchema "chat messages and active path disagree"));
    user_depth ← st_lift (match leaf with
                          | None => mret 0
                          | Some (_, depth) => ok_or (checked_add U64_MAX depth 1)
                                                 (InvalidInput "message depth" "exceeds the branch depth limit")
                          end);
    assistant_depth ← st_lift (ok_or (checked_add U64_MAX user_depth 1)
                         (InvalidInput "message depth" "exceeds the branch depth limit"));
    _ ← st_lift (validate_branch_depth assistant_depth);
    sibling ← next_sibling_ordinal (bt_chat input) (fst <$> leaf);
    let at_ms := bt_started input in
    _ ← st_lift (encode_u64 sibling "message sibling ordinal");
    _ ← st_lift (encode_u64 user_depth "message depth");
    _ ← update (insert_message "message" (mkMessage user_id (bt_chat input) (fst <$> leaf) sibling user_depth user_ordinal
                  RoleUser MessageComplete (bt_user_text input) at_ms at_ms (Some at_ms)));
    _ ← st_lift (encode_u64 assistant_depth "message depth");
    _ ← update (insert_message "message" (mkMessage assistant_id (bt_chat input) (Some user_id) 1 assistant_depth
                  assistant_ordinal RoleAssistant MessagePartial [] at_ms at_ms None));
    _ ← update (insert_path (bt_chat input) user_depth user_id);
    _ ← update (insert_path (bt_chat input) assistant_depth assistant_id);
    _ ← update (insert_request (mkRequest request_id (bt_chat input) user_id assistant_id (bt_selection input)
                  (bt_owner input) (bt_generation input) RequestRunning 0 0 None None None None at_ms at_ms None));
    _ ← update (touch_chat (bt_chat input) at_ms);
    mret (mkStarted request_id user_id assistant_id user_ordinal assistant_ordinal (bt_owner input)
            (bt_generation input) 0 0 None)).

Definition ensure_stream_owned (r : RequestState) (owner generation : str) : StorageResult unit :=
  ensure (bool_decide (rs_owner r = owner) && bool_decide (rs_generation r = generation))
    (Conflict "stream identity").

Definition ensure_running_and_owned (r : RequestState) (owner generation : str) : StorageResult unit :=
  _ ← ensure (is_running r) (InvalidState "running" (request_status_str (rs_status r)));
  ensure_stream_owned r owner generation.

Definition effective_stream_timestamp (r : RequestState) (candidate : Z) : Z :=
  Z.max (Z.max candidate (rs_started r)) (rs_updated r).

Definition with_delivered (seq at_ms : Z) (r : RequestState) : RequestState :=
  mkRequest (rs_id r) (rs_chat r) (rs_user r) (rs_assistant r) (rs_selection r) (rs_owner r) (rs_generation r)
    (rs_status r) seq (rs_durable r) (rs_acked r) (rs_response_id r) (rs_usage r) (rs_failure r) (rs_started r)
    (Z.max (rs_updated r) at_ms) (rs_finished r).

Definition with_acked (seq at_ms : Z) (r : RequestState) : RequestState :=
  mkRequest (rs_id r) (rs_chat r) (rs_user r) (rs_assistant r) (rs_selection r) (rs_owner r) (rs_generation r)
    (rs_status r) (rs_delivered r) (rs_durable r) (Some seq) (rs_response_id r) (rs_usage r) (rs_failure r)
    (rs_started r) (Z.max (rs_updated r) at_ms) (rs_finished r).

Definition sequence_progress (r : RequestState) (delivered : Z) (acked : option Z) (at_ms : Z) : StreamSequenceProgress :=
  mkSequence (rs_id r) (rs_owner r) (rs_generation r) delivered (rs_durable r) acked (rs_status r) at_ms.

Definition record_response_delivery (c : DeliveryCheckpoint) : StoreM StreamSequenceProgress :=
  _ ← st_lift (validate_delivery_checkpoint c);
  transaction (
    r ← load_request_state (dc_request c);
    _ ← st_lift (ensure_running_and_owned r (dc_owner c) (dc_generation c));
    let at_ms := effective_stream_timestamp r (dc_at c) in
    _ ← st_lift (ensure (rs_delivered r =? dc_expected_delivered c)
                   (SequenceMismatch (rs_delivered r) (dc_expected_delivered c)));
    _ ← update (update_request (with_delivered (dc_through c) at_ms r));
    mret (sequence_progress r (dc_through c) (rs_acked r) at_ms)).

Definition acknowledge_response (c : CumulativeAck) : StoreM StreamSequenceProgress :=
  _ ← st_lift (validate_cumulative_ack c);
  transaction (
    r ← load_request_state (ca_request c);
    _ ← st_lift (ensure_stream_owned r (ca_owner c) (ca_generation c));
    let at_ms := effective_stream_timestamp r (ca_at c) in
    _ ← st_lift (ensure (bool_decide (rs_acked r = ca_expected_acked c))
                   (SequenceMismatch (default 0 (rs_acked r)) (default 0 (ca_expected_acked c))));
    _ ← st_lift (ensure (ca_through c <=? rs_durable r)
                   (InvalidInput "acknowledged sequence" "must not advance beyond the durable sequence"));
    _ ← update (update_request (with_acked (ca_through c) at_ms r));
    mret (sequence_progress r (rs_delivered r) (Some (ca_through c)) at_ms)).

Definition validate_response_metadata (r : RequestState) (c : ResponseCheckpoint) : StorageResult unit :=
  _ ← ensure (match rs_response_id r, rc_response_id c with
              | Some a, Some b => bool_decide (a = b)
              | _, _ => true
              end)
        (InvalidInput "provider response ID" "cannot change after it is set");
  ensure (match rs_usage r, rc_usage c with
          | Some a, Some b => negb ((su_input b <? su_input a) || (su_output b <? su_output a) ||
                                    (su_cached b <? su_cached a) || (su_reasoning b <? su_reasoning a))
          | _, _ => true
          end)
    (InvalidInput "token usage" "must be monotonic").

Definition or_else {A} (a b : option A) : option A := match a with Some _ => a | None => b end.

Definition progress_statuses (terminal : option TerminalOutcome) :
    StorageRequestStatus * StoredMessageStatus * option StorageFailureCode :=
  match terminal with
  | None => (RequestRunning, MessagePartial, None)
  | Some OutcomeCompleted => (RequestCompleted, MessageComplete, None)
  | Some OutcomeCancelled => (RequestCancelled, MessagePartial, None)
  | Some (OutcomeFailed code) => (RequestFailed, MessageFailed, Some code)
  end.

Definition with_appended (text : str) (status : StoredMessageStatus) (at_ms : Z) (m : StoredMessage) : StoredMessage :=
  mkMessage (sm_id m) (sm_chat m) (sm_parent m) (sm_sibling m) (sm_depth m) (sm_ordinal m) (sm_role m) status
    (sm_text m ++ text) (sm_created m) (Z.max (sm_updated m) at_ms)
    (match status with MessageComplete => Some at_ms | _ => None end).

Definition with_progress (c : ResponseCheckpoint) (terminal : option TerminalOutcome) (at_ms : Z) (r : RequestState) :
    RequestState :=
  let '(status, _, failure) := progress_statuses terminal in
  mkRequest (rs_id r) (rs_chat r) (rs_user r) (rs_assistant r) (rs_selection r) (rs_owner r) (rs_generation r)
    status (rs_delivered r) (rc_through c) (rs_acked r) (or_else (rc_response_id c) (rs_response_id r))
    (or_else (rc_usage c) (rs_usage r)) failure (rs_started r) (Z.max (rs_updated r) at_ms)
    (match terminal with None => None | Some _ => Some at_ms end).

Definition apply_response_progress (c : ResponseCheckpoint) (terminal : option TerminalOutcome) : StoreM ResponseProgress :=
  _ ← st_lift (validate_checkpoint c);
  r ← load_request_state (rc_request c);
  _ ← st_lift (ensure_running_and_owned r (rc_owner c) (rc_generation c));
  _ ← st_lift (ensure (rs_durable r =? rc_expected_durable c)
                 (SequenceMismatch (rs_durable r) (rc_expected_durable c)));
  _ ← st_lift (ensure (rc_through c <=? rs_delivered r)
                 (InvalidInput "durable sequence" "must not advance beyond the delivered sequence"));
  _ ← st_lift (validate_response_metadata r c);
  let at_ms := effective_stream_timestamp r (rc_at c) in
  row ← gets (fun db => messages db !! rs_assistant r);
  m ← st_lift (ok_or row Database);
  text_bytes ← st_lift (ok_or (checked_add USIZE_MAX (len (sm_text m)) (len (rc_text c)))
                  (InvalidInput "assistant message" "exceeds the byte limit"));
  _ ← st_lift (ensure (text_bytes <=? MAX_MESSAGE_BYTES)
                 (InvalidInput "assistant message" "exceeds the byte limit"));
  _ ← st_lift (transpose encode_usage (or_else (rc_usage c) (rs_usage r)));
  _ ← st_lift (encode_u64 (rc_through c) "request sequence");
  let '(status, message_status, _) := progress_statuses terminal in
  _ ← st_lift (ensure (bool_decide (sm_status m = MessagePartial))
                 (IncompatibleSchema "running request has no partial assistant message"));
  _ ← update (update_message (with_appended (rc_text c) message_status at_ms m));
  _ ← update (update_request (with_progress c terminal at_ms r));
  _ ← update (touch_chat (rs_chat r) at_ms);
  mret (mkProgress (rc_request c) (rs_assistant r) (rs_delivered r) (rc_through c) (rs_acked r) text_bytes status at_ms).

Definition checkpoint_response (c : ResponseCheckpoint) : StoreM ResponseProgress :=
  transaction (apply_response_progress c None).

Definition finish_turn (c : ResponseCheckpoint) (outcome : TerminalOutcome) : StoreM ResponseProgress :=
  _ ← st_lift (ensure (negb (bool_decide (outcome = OutcomeFailed AppRestarted)))
                 (InvalidInput "failure code" "APP_RESTARTED is reserved for startup recovery"));
  transaction (apply_response_progress c (Some outcome)).

Definition complete_turn (c : ResponseCheckpoint) : StoreM ResponseProgress := finish_turn c OutcomeCompleted.
Definition cancel_turn (c : ResponseCheckpoint) : StoreM ResponseProgress := finish_turn c OutcomeCancelled.
Definition fail_turn (c : ResponseCheckpoint) (code : StorageFailureCode) : StoreM ResponseProgress :=
  finish_turn c (OutcomeFailed code).

Definition get_request_state (id : str) : StoreM RequestState := load_request_state id.

(** [recover_interrupted_requests] of [migration.rs], run when the store is opened. *)
Definition with_recovered (at_ms : Z) (m : StoredMessage) : StoredMessage :=
  mkMessage (sm_id m) (sm_chat m) (sm_parent m) (sm_sibling m) (sm_depth m) (sm_ordinal m) (sm_role m) MessagePartial
    (sm_text m) (sm_created m) (Z.max (sm_updated m) at_ms) (sm_completed m).

Definition interrupted (at_ms : Z) (r : RequestState) : RequestState :=
  mkRequest (rs_id r) (rs_chat r) (rs_user r) (rs_assistant r) (rs_selection r) (rs_owner r) (rs_generation r)
    RequestInterrupted (rs_delivered r) (rs_durable r) (rs_acked r) (rs_response_id r) (rs_usage r) (Some AppRestarted)
    (rs_started r) (Z.max (rs_updated r) at_ms) (Some (Z.max (Z.max (rs_updated r) (rs_started r)) at_ms)).

Definition running_rows (db : Db) : list RequestState := rows_of is_running (requests db).

Definition recover_rows (at_ms : Z) (db : Db) : Db :=
  let running := running_rows db in
  mkDb (map_imap (fun id c => Some (if existsb (fun r => bool_decide (rs_chat r = id)) running
                                    then with_updated at_ms c else c)) (chats db))
    (map_imap (fun id m => Some (if existsb (fun r => bool_decide (rs_assistant r = id)) running
                                 then with_recovered at_ms m else m)) (messages db))
    ((fun r => if is_running r then interrupted at_ms r else r) <$> requests db)
    (active_path db) (render_cache db) (settings db).

Definition all_rows {A} (ok : A -> bool) (table : gmap str A) : bool := forallb ok (map snd (map_to_list table)).

Definition recover_interrupted_requests (at_ms : Z) : StoreM Z :=
  transaction (
    count ← gets (fun db => len (running_rows db));
    _ ← update (fun db =>
          let db' := recover_rows at_ms db in
          _ ← ensure (all_rows chat_check (chats db') && all_rows message_check (messages db') &&
                      all_rows request_check (requests db')) Database;
          mret db');
    mret count).

(** ** Branches *)

Definition append_branch_message (message_id : str) (input : AppendBranchMessage) : StoreM AppendedBranchMessage :=
  _ ← st_lift (validate_complete_message (ab_role input) (ab_text input));
  transaction (
    row ← gets (fun db => chats db !! ab_chat input);
    chat ← st_lift (ok_or row (NotFound "chat"));
    created ← st_lift (TimestampMillis_new (ch_created chat));
    _ ← st_lift (ensure (created <=? ab_at input)
                   (InvalidInput "message timestamp" "must not predate the chat"));
    _ ← ensure_expected_active_leaf (ab_chat input) (ab_expected input);
    depth ← match ab_parent input with
            | None => mret 0
            | Some p => parent_depth ← message_depth (ab_chat input) p;
                        st_lift (ok_or (checked_add U64_MAX parent_depth 1)
                                   (InvalidInput "message depth" "exceeds the branch depth limit"))
            end;
    _ ← st_lift (validate_branch_depth depth);
    sibling ← next_sibling_ordinal (ab_chat input) (ab_parent input);
    ordinal ← next_message_ordinal (ab_chat input);
    _ ← st_lift (encode_u64 sibling "message sibling ordinal");
    _ ← st_lift (encode_u64 depth "message depth");
    _ ← st_lift (encode_u64 ordinal "message ordinal");
    _ ← update (insert_message "branch message" (mkMessage message_id (ab_chat input) (ab_parent input) sibling
                  depth ordinal (ab_role input) MessageComplete (ab_text input) (ab_at input) (ab_at input)
                  (Some (ab_at input))));
    path_length ← replace_active_path (ab_chat input) message_id;
    _ ← update (touch_chat (ab_chat input) (ab_at input));
    raw ← query_message message_id;
    message ← st_lift (decode_message raw);
    mret (mkAppended message (mkPathSelection (ab_chat input) message_id path_length))).

Definition select_active_path (input : SelectActivePath) : StoreM ActivePathSelection :=
  transaction (
    _ ← ensure_chat_exists (sp_chat input);
    _ ← ensure_expected_active_leaf (sp_chat input) (sp_expected input);
    path_length ← replace_active_path (sp_chat input) (sp_leaf input);
    _ ← update (touch_chat (sp_chat input) (sp_at input));
    mret (mkPathSelection (sp_chat input) (sp_leaf input) path_length)).

(** ** Reading messages *)

Definition ordinal_cmp (a b : StoredMessage) : comparison := sm_ordinal a ?= sm_ordinal b.

(** One page of a query that asked for one row more than [limit]: the rows kept and
    whether there are more. *)
Definition cut {A} (limit : Z) (rows : list A) : list A * bool :=
  (take (Z.to_nat limit) rows, limit <? len rows).

Definition load_messages (chat_id : str) (after_ordinal : option Z) (limit : Z) : StoreM MessagePage :=
  _ ← st_lift (validate_page_size limit);
  _ ← ensure_chat_exists chat_id;
  encoded ← st_lift (transpose (fun v => encode_u64 v "message ordinal") after_ordinal);
  let after := default 0 encoded in
  raw ← gets (fun db => select (fun m => in_chat chat_id m && (after <? sm_ordinal m)) ordinal_cmp (limit + 1)
                          (messages db));
  page ← st_lift (mapM_result decode_message (cut limit raw).1);
  mret (mkMessagePage page (if (cut limit raw).2 then sm_ordinal <$> head (reverse page) else None)).

Definition MESSAGE_PAGE_ROW_ENVELOPE_BYTES : Z := 1024.

(** The loop of [collect_bounded_message_rows]: what was collected, newest last. *)
Fixpoint collect_rows (rows : list StoredMessage) (limit : Z) (collected : list StoredMessage) (aggregate : Z) :
    StorageResult (list StoredMessage * bool) :=
  match rows with
  | [] => mret (collected, false)
  | m :: rows' =>
      if limit <=? len collected then mret (collected, true) else
      row_bytes ← ok_or (checked_add USIZE_MAX (len (sm_text m)) MESSAGE_PAGE_ROW_ENVELOPE_BYTES)
                    (IncompatibleSchema "message page byte count overflowed");
      projected ← ok_or (checked_add USIZE_MAX aggregate row_bytes)
                    (IncompatibleSchema "message page byte count overflowed");
      if negb (is_empty collected) && (projected >? MAX_MESSAGE_PAGE_BYTES) then mret (collected, true) else
      _ ← ensure (projected <=? MAX_MESSAGE_PAGE_BYTES)
            (IncompatibleSchema "one message exceeds the native page byte budget");
      collect_rows rows' limit (collected ++ [m]) projected
  end.

Definition collect_bounded_message_rows (rows : list StoredMessage) (limit : Z) :
    StorageResult (list StoredMessage * bool) := collect_rows rows limit [] 0.

Definition finish_recent_message_page (chat_id : str) (raw : list StoredMessage) (has_more : bool) :
    StorageResult RecentMessagePage :=
  decoded ← mapM_result decode_message raw;
  let messages := reverse decoded in
  cursor ← (if has_more
            then transpose (fun m => MessageOrdinalCursor_new chat_id (sm_ordinal m)) (head messages)
            else mret None);
  mret (mkRecentPage messages cursor).

(** The position on the active path that a cursor names. *)
Definition cursor_position (chat_id : str) (ordinal : Z) (db : Db) : option Z :=
  head (omap (fun row => if sm_ordinal row.2 =? ordinal then Some row.1 else None) (path_rows chat_id db)).

Definition resolve_cursor (chat_id : str) (before : option MessageOrdinalCursor) : StoreM (option Z) :=
  match before with
  | None => mret None
  | Some cursor =>
      _ ← st_lift (ensure (bool_decide (oc_chat cursor = chat_id))
                     (InvalidInput "message cursor chat ID" "must match the requested chat"));
      ordinal ← st_lift (encode_u64 (oc_ordinal cursor) "message cursor ordinal");
      _ ← st_lift (ensure (negb (ordinal =? 0)) (InvalidInput "message cursor ordinal" "must be at least 1"));
      found ← gets (cursor_position chat_id ordinal);
      position ← st_lift (ok_or found (InvalidInput "message cursor ordinal" "must identify the current active path"));
      mret (Some position)
  end.

Definition before_position (position : option Z) (row : Z * StoredMessage) : bool := opt_all (fun p => row.1 <? p) position.

Definition load_recent_messages (chat_id : str) (before : option MessageOrdinalCursor) (limit : Z) :
    StoreM RecentMessagePage :=
  _ ← st_lift (validate_page_size limit);
  _ ← ensure_chat_exists chat_id;
  position ← resolve_cursor chat_id before;
  rows ← gets (fun db => take (Z.to_nat (limit + 1))
                 (map snd (List.filter (before_position position) (reverse (path_rows chat_id db)))));
  bounded ← st_lift (collect_bounded_message_rows rows limit);
  st_lift (finish_recent_message_page chat_id bounded.1 bounded.2).

Definition decode_active_path_entry (row : Z * StoredMessage) : StorageResult ActivePathEntry :=
  position ← decode_u64 row.1 "active path position";
  message ← decode_message row.2;
  mret (mkPathEntry position message).

Definition load_active_path (chat_id : str) (after_position : option Z) (limit : Z) : StoreM ActivePathPage :=
  _ ← st_lift (validate_page_size limit);
  _ ← ensure_chat_exists chat_id;
  after ← st_lift (transpose (fun v => encode_u64 v "active path position") after_position);
  raw ← gets (fun db => take (Z.to_nat (limit + 1))
                (List.filter (fun row => opt_all (fun p => p <? row.1) after) (path_rows chat_id db)));
  page ← st_lift (mapM_result decode_active_path_entry (cut limit raw).1);
  mret (mkPathPage page (if (cut limit raw).2 then pe_position <$> head (reverse page) else None)).

Definition sibling_cmp (a b : StoredMessage) : comparison :=
  then_with (sm_sibling a ?= sm_sibling b) (str_cmp (sm_id a) (sm_id b)).

Definition after_branch (after : option BranchCursor) (m : StoredMessage) : bool :=
  opt_all (fun c => (bc_sibling c <? sm_sibling m) ||
                    ((sm_sibling m =? bc_sibling c) && match str_cmp (sm_id m) (bc_message c) with Gt => true | _ => false end))
    after.

Definition load_branch_children (chat_id : str) (parent_id : option str) (after : option BranchCursor) (limit : Z) :
    StoreM BranchPage :=
  _ ← st_lift (validate_page_size limit);
  _ ← ensure_chat_exists chat_id;
  _ ← match parent_id with None => mret 0 | Some p => message_depth chat_id p end;
  _ ← st_lift (transpose (fun c => encode_u64 (bc_sibling c) "message sibling ordinal") after);
  raw ← gets (fun db => select (fun m => in_chat chat_id m && bool_decide (sm_parent m = parent_id) && after_branch after m)
                          sibling_cmp (limit + 1) (messages db));
  page ← st_lift (mapM_result decode_message (cut limit raw).1);
  mret (mkBranchPage page (if (cut limit raw).2
                           then (fun m => mkBranchCursor (sm_sibling m) (sm_id m)) <$> head (reverse page) else None)).

Definition created_cmp (a b : StoredMessage) : comparison :=
  then_with (sm_created a ?= sm_created b) (str_cmp (sm_id a) (sm_id b)).

Definition after_timeline (after : option MessageTimelineCursor) (m : StoredMessage) : bool :=
  opt_all (fun c => (tc_created c <? sm_created m) ||
                    ((sm_created m =? tc_created c) && match str_cmp (sm_id m) (tc_message c) with Gt => true | _ => false end))
    after.

Definition load_message_timeline (chat_id : str) (after : option MessageTimelineCursor) (limit : Z) :
    StoreM MessageTimelinePage :=
  _ ← st_lift (validate_page_size limit);
  _ ← ensure_chat_exists chat_id;
  raw ← gets (fun db => select (fun m => in_chat chat_id m && after_timeline after m) created_cmp (limit + 1) (messages db));
  page ← st_lift (mapM_result decode_message (cut limit raw).1);
  mret (mkTimelinePage page (if (cut limit raw).2
                             then (fun m => mkTimelineCursor (sm_created m) (sm_id m)) <$> head (reverse page) else None)).

(** [search_messages]: a short query scans the newest complete messages; a longer one is
    answered by the full-text index, a parameter that ranks the indexed messages. *)
Definition ordinal_desc (a b : StoredMessage) : comparison := sm_ordinal b ?= sm_ordinal a.

Definition is_complete (m : StoredMessage) : bool := bool_decide (sm_status m = MessageComplete).

Definition quoted_phrase (query : str) : str :=
  let q := byte_of 34 in [q] ++ flat_map (fun b => if byte_eqb b q then [q; q] else [b]) query ++ [q].

Definition search_messages (fts_match : str -> list StoredMessage -> list StoredMessage) (chat_id query : str) (limit : Z) :
    StoreM (list StoredMessage) :=
  _ ← st_lift (validate_page_size limit);
  _ ← st_lift (validate_search_query query);
  _ ← ensure_chat_exists chat_id;
  raw ← gets (fun db =>
    if len (chars query) <? 3
    then take (Z.to_nat limit)
           (List.filter (fun m => contains (sm_text m) query)
              (select (fun m => in_chat chat_id m && is_complete m) ordinal_desc MAX_SHORT_QUERY_SCAN_ROWS (messages db)))
    else take (Z.to_nat limit)
           (List.filter (in_chat chat_id) (fts_match (quoted_phrase query) (rows_of is_complete (messages db)))));
  st_lift (mapM_result decode_message raw).

(** ** Rendered messages *)

Definition put_render_cache (input : PutRenderCache) : StoreM CachedRender :=
  _ ← st_lift (validate_rendered_html (pc_html input));
  transaction (
    row ← gets (fun db => messages db !! pc_message input);
    m ← st_lift (ok_or row (NotFound "message"));
    created ← st_lift (TimestampMillis_new (sm_created m));
    _ ← st_lift (ensure (created <=? pc_at input)
                   (InvalidInput "render cache timestamp" "must not predate the message"));
    let cached := mkCachedRender (pc_message input) (pc_version input) (pc_html input) (pc_at input) in
    let put (error : StorageError) := update (fun db =>
          _ ← ensure (cache_check cached) error;
          mret (set_render_cache (<[pc_message input := cached]> (render_cache db)) db)) in
    current ← gets (fun db => render_cache db !! pc_message input);
    _ ← match pc_expected input with
        | None =>
            _ ← st_lift (encode_u64 (pc_version input) "renderer version");
            _ ← st_lift (ensure (negb (is_some current)) (Conflict "render cache"));
            put (Conflict "render cache")
        | Some expected =>
            _ ← st_lift (ensure (cas_last_used expected <=? pc_at input)
                           (InvalidInput "render cache timestamp" "must not move backwards"));
            _ ← st_lift (encode_u64 (pc_version input) "renderer version");
            _ ← st_lift (encode_u64 (cas_version expected) "renderer version");
            match current with
            | None => st_lift (Err (NotFound "render cache"))
            | Some c => if (cr_version c =? cas_version expected) && (cr_last_used c =? cas_last_used expected)
                        then put Database else st_lift (Err (Conflict "render cache revision"))
            end
        end;
    mret cached).

Definition get_render_cache (message_id : str) (version touched_at : Z) : StoreM (option CachedRender) :=
  transaction (
    known ← gets (fun db => is_some (messages db !! message_id));
    _ ← st_lift (ensure known (NotFound "message"));
    wanted ← st_lift (encode_u64 version "renderer version");
    current ← gets (fun db => match render_cache db !! message_id with
                              | Some c => if cr_version c =? wanted then Some c else None
                              | None => None
                              end);
    match current with
    | None => mret None
    | Some c =>
        last_used ← st_lift (TimestampMillis_new (cr_last_used c));
        _ ← st_lift (ensure (last_used <=? touched_at) (InvalidInput "render cache timestamp" "must not move backwards"));
        let touched := mkCachedRender message_id (cr_version c) (cr_html c) touched_at in
        _ ← update (fun db => _ ← ensure (cache_check touched) Database;
                              mret (set_render_cache (<[message_id := touched]> (render_cache db)) db));
        stored ← st_lift (decode_u64 (cr_version c) "renderer version");
        _ ← st_lift (RendererVersion_new stored);
        mret (Some touched)
    end).

Definition lru_cmp (a b : CachedRender) : comparison :=
  then_with (cr_last_used a ?= cr_last_used b) (str_cmp (cr_message a) (cr_message b)).

Definition stale_renders (input : EvictRenderCache) (db : Db) : list CachedRender :=
  select (fun c => cr_last_used c <? ev_older_than input) lru_cmp (ev_limit input) (render_cache db).

Definition evict_render_cache (input : EvictRenderCache) : StoreM RenderCacheEviction :=
  _ ← st_lift (ensure (negb ((ev_limit input =? 0) || (ev_limit input >? MAX_RENDER_CACHE_EVICTION)))
                 (InvalidInput "render cache eviction limit" "must be between 1 and 1000"));
  transaction (
    stale ← gets (stale_renders input);
    _ ← st_modify (fun db => set_render_cache
          (filter (fun row => row.1 ∉ map cr_message stale) (render_cache db)) db);
    entries ← st_lift (decode_u64 (len stale) "render cache eviction count");
    bytes ← st_lift (decode_u64 (foldr (fun c acc => len (cr_html c) + acc) 0 stale) "render cache eviction bytes");
    mret (mkEviction entries bytes)).

(** ** Preferences *)

Definition load_preferences : StoreM AppPreferences :=
  row ← gets settings;
  raw ← st_lift (ok_or row Database);
  st_lift (decode_preferences raw).

Definition save_preferences (u : UpdatePreferences) : StoreM AppPreferences :=
  _ ← st_lift (validate_model_preferences (up_models u));
  _ ← st_lift (ensure_revision_can_advance (up_expected u) "settings revision");
  expected ← st_lift (encode_u64 (up_expected u) "settings revision");
  transaction (
    row ← gets settings;
    match row with
    | None => st_lift (Err (IncompatibleSchema "settings singleton is missing"))
    | Some old =>
        if ap_revision old =? expected then
          let new := mkPreferences (up_provider u) (up_models u) (up_theme u) (up_mode u) (ap_revision old + 1)
                       (Z.max (ap_updated old) (up_at u)) in
          _ ← st_lift (ensure (between 0 (ap_updated new) MAX_SAFE_INTEGER) Database);
          _ ← st_modify (set_settings (Some new));
          st_lift (decode_preferences new)
        else st_lift (Err (Conflict "settings revision"))
    end).

(** ** Checks of the rows, [migration.rs] *)

Definition branch_row_bad (db : Db) (m : StoredMessage) : bool :=
  match sm_parent m with
  | None => negb (sm_depth m =? 0)
  | Some p => match messages db !! p with
              | Some parent => negb (in_chat (sm_chat m) parent && (sm_depth parent + 1 =? sm_depth m))
              | None => true
              end
  end ||
  match sm_status m with MessageComplete => negb (is_some (sm_completed m)) | _ => is_some (sm_completed m) end.

Definition path_row_bad (db : Db) (chat_id : str) (row : Z * StoredMessage) : bool :=
  negb (sm_depth row.2 =? row.1) || ((row.1 =? 0) && is_some (sm_parent row.2)) ||
  ((row.1 >? 0) && match path_of chat_id db !! (row.1 - 1) with
                   | None => true
                   | Some previous => match sm_parent row.2 with Some p => negb (bool_decide (p = previous)) | None => false end
                   end).

Definition path_has_gap (path : gmap Z str) : bool :=
  let positions := map fst (map_to_list path) in
  negb (is_empty positions) &&
  (negb (bool_decide (min_of id positions = Some 0)) ||
   negb (bool_decide (max_of id positions = Some (len positions - 1)))).

Definition path_missing (db : Db) (chat_id : str) : bool :=
  existsb (in_chat chat_id) (rows_of (fun _ => true) (messages db)) && is_empty (map_to_list (path_of chat_id db)).

Definition verify_branch_rows (db : Db) : StorageResult unit :=
  _ ← ensure (negb (existsb (branch_row_bad db) (rows_of (fun _ => true) (messages db))))
        (IncompatibleSchema "message branch invariant failed");
  ensure (forallb (fun entry => negb (existsb (path_row_bad db entry.1) (path_rows entry.1 db)) &&
                                negb (path_has_gap entry.2)) (map_to_list (active_path db)) &&
          negb (existsb (path_missing db) (map fst (map_to_list (chats db)))))
    (IncompatibleSchema "active path invariant failed").

Definition journal_row_bad (r : RequestState) : bool :=
  negb (between 1 (len (rs_owner r)) 128) || negb (forallb label_byte (rs_owner r)) ||
  negb (len (rs_generation r) =? 32) || negb (forallb is_lower_hex (rs_generation r)) ||
  negb (between 0 (rs_delivered r) MAX_SAFE_INTEGER) || negb (between 0 (rs_durable r) MAX_SAFE_INTEGER) ||
  negb (opt_all (fun a => between 1 a MAX_SAFE_INTEGER) (rs_acked r)) ||
  negb (opt_all (fun a => a <=? rs_durable r) (rs_acked r)) || (rs_durable r >? rs_delivered r).

Definition verify_stream_journal_rows (db : Db) : StorageResult unit :=
  ensure (negb (existsb journal_row_bad (rows_of (fun _ => true) (requests db))))
    (IncompatibleSchema "stream journal sequence or identity invariant failed").
