(* ===== verification/ChatInvariant.v ===== *)
(** * Conversation storage: the invariant of the tables

    [db_ok] says what the schema and the operations of [ChatStore] keep together: every
    row satisfies its constraints; messages form trees inside their chat, with distinct
    ordinals and siblings; the active path of a chat is one line of such a tree from its
    root, and there is one as soon as the chat has a message; a running request is the
    only one of its chat and its assistant message is partial; rendered messages exist. *)

From stdpp Require Import gmap.
From S2P Require Import Prelude Sorting Bytes Utf8 ChatModel ChatStore.

(** ** Computations that succeed *)

Section success.
Context {S E A B : Type}.

Lemma st_bind_Ok (m : ST S E A) (f : A -> ST S E B) s s' b :
  (m ≫= f) s = (s', Ok b) -> exists a s1, m s = (s1, Ok a) /\ f a s1 = (s', Ok b).
Proof. unfold mbind, ST_bind. destruct (m s) as [s1 [a|e]]; [eauto|done]. Qed.

Lemma st_lift_Ok (r : result E A) (s s' : S) a : st_lift r s = (s', Ok a) -> s' = s /\ r = Ok a.
Proof. unfold st_lift. intros [= <- ->]. done. Qed.

Lemma st_ret_Ok (a b : A) (s s' : S) : (mret a : ST S E A) s = (s', Ok b) -> s' = s /\ b = a.
Proof. intros [= <- <-]. done. Qed.
End success.

Lemma gets_Ok {A} (f : Db -> A) db db' a : gets f db = (db', Ok a) -> db' = db /\ a = f db.
Proof. intros [= <- <-]. done. Qed.

Lemma update_Ok f db db' u : update f db = (db', Ok u) -> f db = Ok db'.
Proof. unfold update. destruct (f db); [|done]. by intros [= -> _]. Qed.

Lemma st_modify_Ok {S E} (f : S -> S) s s' u : (st_modify f : ST S E unit) s = (s', Ok u) -> s' = f s.
Proof. by intros [= <- _]. Qed.

Lemma transaction_Ok {A} (m : StoreM A) db db' a : transaction m db = (db', Ok a) -> m db = (db', Ok a).
Proof. unfold transaction. destruct (m db) as [db1 [x|e]]; [|done]. by intros [= <- <-]. Qed.

Lemma transaction_Err {A} (m : StoreM A) db db' e : transaction m db = (db', Err e) -> db' = db.
Proof. unfold transaction. destruct (m db) as [db1 [x|e']]; [done|]. by intros [= <- _]. Qed.

Lemma transpose_Ok {A B} (f : A -> StorageResult B) o x :
  transpose f o = Ok x -> match o with None => x = None | Some a => exists b, f a = Ok b /\ x = Some b end.
Proof. destruct o as [a|]; cbn; [|by intros [= <-]]. destruct (f a) eqn:E; [|done]. intros [= <-]. eauto. Qed.

(** Take a successful computation apart, step by step. *)
Ltac check_inv H :=
  lazymatch type of H with
  | ensure _ _ = Ok _ => apply ensure_Ok in H
  | ok_or _ _ = Ok _ => apply ok_or_Ok in H
  | Ok _ = Ok _ => apply Ok_inj in H
  | _ => idtac
  end.
Ltac step_inv H :=
  lazymatch type of H with
  | st_lift _ _ = _ => apply st_lift_Ok in H as [-> H]; check_inv H
  | gets _ _ = _ => apply gets_Ok in H as [-> ->]
  | update _ _ = _ => apply update_Ok in H
  | st_modify _ _ = _ => apply st_modify_Ok in H as ->
  | mret _ _ = _ => apply st_ret_Ok in H as [-> ->]
  | _ => idtac
  end.
Ltac st_inv1 H :=
  lazymatch type of H with
  | (_ ≫= _) _ = _ =>
      let a := fresh "x" in let s := fresh "db" in let H1 := fresh "Hs" in
      apply st_bind_Ok in H as (a & s & H1 & H); step_inv H1
  | transaction _ _ = _ => apply transaction_Ok in H
  end.
Ltac st_inv H := repeat st_inv1 H; step_inv H.

(** A result that was computed by a chain of checks. *)
Ltac ok_inv1 H :=
  let a := fresh "y" in let H1 := fresh "Hr" in
  apply bind_Ok in H as (a & H1 & H); check_inv H1.
Ltac ok_inv H := repeat ok_inv1 H; try (apply ensure_Ok in H); try (apply Ok_inj in H).

(** ** Queries *)

Lemma elem_of_rows_of {A} (keep : A -> bool) (t : gmap str A) x :
  x ∈ rows_of keep t <-> keep x = true /\ exists k, t !! k = Some x.
Proof.
  unfold rows_of. rewrite list_elem_of_filter_bool. f_equiv. rewrite list_elem_of_fmap. split.
  - intros ([k y] & -> & Hy%elem_of_map_to_list). eauto.
  - intros (k & Hk). exists (k, x). split; [done|]. by apply elem_of_map_to_list.
Qed.

Lemma existsb_rows {A} (p : A -> bool) (t : gmap str A) :
  existsb p (rows_of (fun _ => true) t) = false <-> forall k x, t !! k = Some x -> p x = false.
Proof.
  rewrite existsb_false_Forall, list.Forall_forall. split.
  - intros H k x Hk. apply H, elem_of_rows_of. eauto.
  - intros H x [_ [k Hk]]%elem_of_rows_of. eauto.
Qed.

Lemma max_of_ge {A} (f : A -> Z) l x : x ∈ l -> exists z, max_of f l = Some z /\ f x <= z.
Proof.
  induction l as [|y l IH]; [by intros ?%not_elem_of_nil|]. intros [->|Hx]%elem_of_cons; cbn [max_of foldr].
  - fold (max_of f l). destruct (max_of f l); eexists; split; try done; lia.
  - destruct (IH Hx) as (z & Hz & Hle). fold (max_of f l). rewrite Hz. eexists; split; [done|lia].
Qed.

Lemma max_of_None {A} (f : A -> Z) l : max_of f l = None -> l = [].
Proof. destruct l; [done|]. by cbn. Qed.

Lemma min_of_le {A} (f : A -> Z) l x : x ∈ l -> exists z, min_of f l = Some z /\ z <= f x.
Proof.
  induction l as [|y l IH]; [by intros ?%not_elem_of_nil|]. intros [->|Hx]%elem_of_cons; cbn [min_of foldr].
  - fold (min_of f l). destruct (min_of f l); eexists; split; try done; lia.
  - destruct (IH Hx) as (z & Hz & Hle). fold (min_of f l). rewrite Hz. eexists; split; [done|lia].
Qed.

Lemma min_of_elem {A} (f : A -> Z) l z : min_of f l = Some z -> exists x, x ∈ l /\ f x = z.
Proof.
  revert z. induction l as [|y l IH]; intros z; [done|]. cbn [min_of foldr]. fold (min_of f l).
  destruct (min_of f l) as [w|] eqn:E; intros [= <-].
  - destruct (Z.min_dec (f y) w) as [-> | ->]; [exists y; split; [left|done]|].
    destruct (IH w eq_refl) as (x & Hx & Hf). exists x. split; [by right|done].
  - exists y. split; [left|done].
Qed.

(** ** The invariant *)

Definition chats_ok (C : gmap str Chat) : Prop :=
  forall k c, C !! k = Some c -> ch_id c = k /\ chat_check c = true.

Record messages_ok (C : gmap str Chat) (M : gmap str StoredMessage) : Prop := {
  mo_row k m : M !! k = Some m ->
    sm_id m = k /\ message_check m = true /\ is_Some (C !! sm_chat m) /\ parent_ok M m = true;
  mo_ordinal k1 k2 m1 m2 : M !! k1 = Some m1 -> M !! k2 = Some m2 -> sm_chat m1 = sm_chat m2 ->
    sm_ordinal m1 = sm_ordinal m2 -> k1 = k2;
  mo_sibling k1 k2 m1 m2 : M !! k1 = Some m1 -> M !! k2 = Some m2 -> sm_chat m1 = sm_chat m2 ->
    sm_parent m1 = sm_parent m2 -> sm_sibling m1 = sm_sibling m2 -> k1 = k2;
}.

(** [l] is the path of a chat, by position. *)
Definition on_path (p : gmap Z str) (l : list str) : Prop :=
  forall i id, p !! i = Some id <-> 0 <= i /\ l !! Z.to_nat i = Some id.

Definition previous (l : list str) (n : nat) : option str := match n with O => None | S k => l !! k end.

(** [l] is a line of messages of a chat from a root of its trees. *)
Definition line_ok (M : gmap str StoredMessage) (chat_id : str) (l : list str) : Prop :=
  forall n id, l !! n = Some id -> exists m, M !! id = Some m /\ sm_chat m = chat_id /\
    sm_depth m = Z.of_nat n /\ sm_parent m = previous l n.

Definition path_in (P : gmap str (gmap Z str)) (chat_id : str) : gmap Z str := default ∅ (P !! chat_id).

Record paths_ok (M : gmap str StoredMessage) (P : gmap str (gmap Z str)) : Prop := {
  po_line c : exists l, on_path (path_in P c) l /\ line_ok M c l;
  po_total k m : M !! k = Some m -> path_in P (sm_chat m) <> ∅;
}.

Definition partial_assistant (M : gmap str StoredMessage) (r : RequestState) : Prop :=
  exists m, M !! rs_assistant r = Some m /\ sm_status m = MessagePartial /\ sm_created m <= rs_started r.

Record requests_ok (C : gmap str Chat) (M : gmap str StoredMessage) (R : gmap str RequestState) : Prop := {
  ro_row k r : R !! k = Some r -> rs_id r = k /\ request_check r = true /\ is_Some (C !! rs_chat r) /\
    message_of (rs_chat r) (rs_user r) M = true /\ message_of (rs_chat r) (rs_assistant r) M = true;
  ro_partial k r : R !! k = Some r -> is_running r = true -> partial_assistant M r;
  ro_running k1 k2 r1 r2 : R !! k1 = Some r1 -> R !! k2 = Some r2 -> is_running r1 = true ->
    is_running r2 = true -> rs_chat r1 = rs_chat r2 -> k1 = k2;
  ro_generation k1 k2 r1 r2 : R !! k1 = Some r1 -> R !! k2 = Some r2 ->
    rs_generation r1 = rs_generation r2 -> k1 = k2;
}.

Definition cache_ok (M : gmap str StoredMessage) (K : gmap str CachedRender) : Prop :=
  forall k c, K !! k = Some c -> is_Some (M !! k) /\ cr_message c = k /\ cache_check c = true.

Record db_ok (db : Db) : Prop := {
  ok_chats : chats_ok (chats db);
  ok_messages : messages_ok (chats db) (messages db);
  ok_paths : paths_ok (messages db) (active_path db);
  ok_requests : requests_ok (chats db) (messages db) (requests db);
  ok_cache : cache_ok (messages db) (render_cache db);
}.

Lemma empty_db_ok : db_ok empty_db.
Proof.
  split; try split; intros *; cbn; rewrite ?lookup_empty; try done.
  - exists []. split; [|by intros ? ?; rewrite lookup_nil].
    intros i id. unfold path_in. rewrite lookup_empty. cbn. rewrite lookup_empty, lookup_nil. naive_solver.
Qed.

(** ** Frames: a table may grow or change in columns the others do not use *)

(** What other tables use of a message never changes and messages do not go away. *)
Definition keeps_shape (M M' : gmap str StoredMessage) : Prop :=
  forall k m, M !! k = Some m -> exists m', M' !! k = Some m' /\ sm_chat m' = sm_chat m /\
    sm_parent m' = sm_parent m /\ sm_depth m' = sm_depth m /\ sm_created m' = sm_created m.

Definition grows {A} (C C' : gmap str A) : Prop := forall k, is_Some (C !! k) -> is_Some (C' !! k).

Lemma grows_refl {A} (C : gmap str A) : grows C C.
Proof. by intros k. Qed.

Lemma grows_insert {A} (C : gmap str A) k x : grows C (<[k := x]> C).
Proof. intros j Hj. destruct (decide (k = j)) as [->|]; [by rewrite lookup_insert_eq|by rewrite lookup_insert_ne]. Qed.

Lemma messages_ok_grows C C' M : grows C C' -> messages_ok C M -> messages_ok C' M.
Proof.
  intros Hg [Hr Ho Hs]. split; [|done|done]. intros k m (? & ? & ? & ?)%Hr. eauto.
Qed.

Lemma requests_ok_grows C C' M R : grows C C' -> requests_ok C M R -> requests_ok C' M R.
Proof.
  intros Hg [Hr Hp Ho Hs]. split; try done. intros k r (? & ? & ? & ?)%Hr. eauto.
Qed.

Lemma in_chat_true c m : in_chat c m = true <-> sm_chat m = c.
Proof. unfold in_chat. by rewrite bool_decide_eq_true. Qed.

Lemma parent_ok_shape M M' m : keeps_shape M M' -> parent_ok M m = true -> parent_ok M' m = true.
Proof.
  intros Hk. unfold parent_ok. destruct (sm_parent m) as [p|]; [|done]. cbn [opt_all].
  destruct (M !! p) as [q|] eqn:Hp; [|done]. destruct (Hk p q Hp) as (q' & -> & Hc & _ & Hd & _).
  unfold in_chat. by rewrite Hc, Hd.
Qed.

Lemma message_of_shape M M' c id : keeps_shape M M' -> message_of c id M = true -> message_of c id M' = true.
Proof.
  intros Hk. unfold message_of. destruct (M !! id) as [q|] eqn:Hp; [|done].
  destruct (Hk id q Hp) as (q' & -> & Hc & _). unfold in_chat. by rewrite Hc.
Qed.

Lemma line_ok_shape M M' c l : keeps_shape M M' -> line_ok M c l -> line_ok M' c l.
Proof.
  intros Hk Hl n id Hn. destruct (Hl n id Hn) as (m & Hm & Hc & Hd & Hp).
  destruct (Hk id m Hm) as (m' & Hm' & Hc' & Hp' & Hd' & _). exists m'. by rewrite Hc', Hp', Hd'.
Qed.

Lemma cache_ok_shape M M' K : keeps_shape M M' -> cache_ok M K -> cache_ok M' K.
Proof.
  intros Hk Hc k c (Hm & ? & ?)%Hc. destruct Hm as [m Hm]. destruct (Hk k m Hm) as (m' & Hm' & _). eauto.
Qed.

Lemma keeps_shape_insert M k m : M !! k = None -> keeps_shape M (<[k := m]> M).
Proof.
  intros Hk j q Hj. exists q. rewrite lookup_insert_ne by congruence. done.
Qed.

Lemma keeps_shape_update M k m m' : M !! k = Some m -> sm_chat m' = sm_chat m -> sm_parent m' = sm_parent m ->
  sm_depth m' = sm_depth m -> sm_created m' = sm_created m -> keeps_shape M (<[k := m']> M).
Proof.
  intros Hk ? ? ? ? j q Hj. destruct (decide (k = j)) as [->|].
  - rewrite lookup_insert_eq. exists m'. replace q with m by congruence. done.
  - rewrite lookup_insert_ne by done. eauto 6.
Qed.

(** ** Single statements *)

Lemma insert_message_Ok entity m db db' : insert_message entity m db = Ok db' ->
  db' = set_messages (<[sm_id m := m]> (messages db)) db /\ message_check m = true /\
  messages db !! sm_id m = None /\ message_unique (messages db) m = true /\
  is_Some (chats db !! sm_chat m) /\ parent_ok (messages db) m = true.
Proof.
  unfold insert_message. intros H. ok_inv H. zify_bool. subst db'. split; [done|]. split; [done|].
  destruct (messages db !! sm_id m); [done|]. destruct (chats db !! sm_chat m); [|done]. eauto 6.
Qed.

Lemma messages_ok_insert C M m : messages_ok C M -> message_check m = true -> M !! sm_id m = None ->
  message_unique M m = true -> is_Some (C !! sm_chat m) -> parent_ok M m = true ->
  messages_ok C (<[sm_id m := m]> M).
Proof.
  intros [Hr Ho Hs] Hc Hn Hu%negb_true_iff Hch Hp. rewrite existsb_rows in Hu.
  pose proof (keeps_shape_insert M (sm_id m) m Hn) as Hk.
  assert (Hne : forall k m', M !! k = Some m' -> k <> sm_id m) by (intros k m' Hm' ->; congruence).
  assert (Hd : forall k m', M !! k = Some m' -> sm_chat m' = sm_chat m ->
    sm_ordinal m' <> sm_ordinal m /\ (sm_parent m' = sm_parent m -> sm_sibling m' <> sm_sibling m)).
  { intros k m' Hm' Hc'. specialize (Hu k m' Hm'). apply andb_false_iff in Hu as [Hu|Hu].
    { by rewrite <- not_true_iff_false, in_chat_true in Hu. }
    zify_bool. split; [done|]. intros Hpp. rewrite bool_decide_eq_true_2 in * by done. cbn in *. by zify_bool. }
  split.
  - intros k m' Hm'. destruct (decide (sm_id m = k)) as [<-|Hk'].
    + rewrite lookup_insert_eq in Hm'. injection Hm' as <-. split_and!; try done. by eapply parent_ok_shape.
    + rewrite lookup_insert_ne in Hm' by done. destruct (Hr _ _ Hm') as (? & ? & ? & ?).
      split_and!; try done. by eapply parent_ok_shape.
  - intros k1 k2 m1 m2. destruct (decide (sm_id m = k1)) as [<-|H1], (decide (sm_id m = k2)) as [<-|H2];
      rewrite ?lookup_insert_eq, ?lookup_insert_ne by done; try done; [| |by apply Ho].
    + intros [= <-] Hm2 Hcc Hoo. exfalso. by destruct (Hd k2 m2 Hm2 (eq_sym Hcc)) as [[] _].
    + intros Hm1 [= <-] Hcc Hoo. exfalso. by destruct (Hd k1 m1 Hm1 Hcc) as [[] _].
  - intros k1 k2 m1 m2. destruct (decide (sm_id m = k1)) as [<-|H1], (decide (sm_id m = k2)) as [<-|H2];
      rewrite ?lookup_insert_eq, ?lookup_insert_ne by done; try done; [| |by apply Hs].
    + intros [= <-] Hm2 Hcc Hpp Hoo. exfalso. destruct (Hd k2 m2 Hm2 (eq_sym Hcc)) as [_ Hx]. by apply Hx.
    + intros Hm1 [= <-] Hcc Hpp Hoo. exfalso. destruct (Hd k1 m1 Hm1 Hcc) as [_ Hx]. by apply Hx.
Qed.

(** A message may change its text, status and times. *)
Definition same_place (m m' : StoredMessage) : Prop :=
  sm_id m' = sm_id m /\ sm_chat m' = sm_chat m /\ sm_parent m' = sm_parent m /\ sm_depth m' = sm_depth m /\
  sm_ordinal m' = sm_ordinal m /\ sm_sibling m' = sm_sibling m /\ sm_created m' = sm_created m.

Definition places_kept (M M' : gmap str StoredMessage) : Prop :=
  forall k, match M !! k, M' !! k with
            | Some m, Some m' => same_place m m' /\ message_check m' = true
            | None, None => True
            | _, _ => False
            end.

Lemma places_kept_shape M M' : places_kept M M' -> keeps_shape M M'.
Proof.
  intros Hp k m Hk. specialize (Hp k). rewrite Hk in Hp. destruct (M' !! k) as [m'|]; [|done].
  destruct Hp as [(? & ? & ? & ? & ? & ? & ?) _]. eauto 8.
Qed.

Lemma messages_ok_update C M M' : places_kept M M' -> messages_ok C M -> messages_ok C M'.
Proof.
  intros Hp [Hr Ho Hs]. pose proof (places_kept_shape _ _ Hp) as Hk.
  assert (Hback : forall k m', M' !! k = Some m' -> exists m, M !! k = Some m /\ same_place m m' /\ message_check m' = true).
  { intros k m' Hm'. specialize (Hp k). rewrite Hm' in Hp. destruct (M !! k); [eauto|done]. }
  split.
  - intros k m' Hm'. destruct (Hback k m' Hm') as (m & Hm & (Hi & Hc & Hpa & Hd & _) & Hch).
    destruct (Hr k m Hm) as (? & _ & ? & Hpo). split_and!; [congruence|done|by rewrite Hc|].
    eapply parent_ok_shape; [exact Hk|]. revert Hpo. unfold parent_ok. by rewrite Hpa, Hc, Hd.
  - intros k1 k2 m1' m2' H1 H2 Hcc Hoo. apply Hback in H1 as (m1 & H1 & S1 & _). apply Hback in H2 as (m2 & H2 & S2 & _).
    unfold same_place in *. destruct_and!. eapply (Ho k1 k2 m1 m2); congruence.
  - intros k1 k2 m1' m2' H1 H2 Hcc Hpp Hoo. apply Hback in H1 as (m1 & H1 & S1 & _). apply Hback in H2 as (m2 & H2 & S2 & _).
    unfold same_place in *. destruct_and!. eapply (Hs k1 k2 m1 m2); congruence.
Qed.

Lemma places_kept_insert C M m m' : messages_ok C M -> M !! sm_id m = Some m -> same_place m m' -> message_check m' = true ->
  places_kept M (<[sm_id m := m']> M).
Proof.
  intros [Hr _ _] Hm Hs Hc k. destruct (decide (sm_id m = k)) as [<-|].
  - by rewrite Hm, lookup_insert_eq.
  - rewrite lookup_insert_ne by done. destruct (M !! k) as [q|] eqn:Hq; [|done].
    destruct (Hr k q Hq) as (? & ? & _). split; [|done]. by unfold same_place.
Qed.

Lemma paths_ok_update M M' P : places_kept M M' -> paths_ok M P -> paths_ok M' P.
Proof.
  intros Hp [Hl Ht]. split.
  - intros c. destruct (Hl c) as (l & ? & ?). exists l. split; [done|].
    eapply line_ok_shape; [by apply places_kept_shape|done].
  - intros k m' Hm'. specialize (Hp k). rewrite Hm' in Hp. destruct (M !! k) as [m|] eqn:Hm; [|done].
    destruct Hp as [(_ & -> & _) _]. by eapply Ht.
Qed.

Lemma touch_chat_Ok chat_id at_ms db db' : touch_chat chat_id at_ms db = Ok db' ->
  exists C', db' = set_chats C' db /\ grows (chats db) C' /\ (chats_ok (chats db) -> chats_ok C').
Proof.
  unfold touch_chat. destruct (chats db !! chat_id) as [c|] eqn:Hc; intros H.
  - ok_inv H. subst db'. eexists. split_and!; [done|apply grows_insert|].
    intros Hok k c'. destruct (decide (chat_id = k)) as [<-|].
    + rewrite lookup_insert_eq. intros [= <-]. destruct (Hok _ _ Hc). by cbn in *.
    + rewrite lookup_insert_ne by done. apply Hok.
  - injection H as <-. exists (chats db). split_and!; [by destruct db|apply grows_refl|done].
Qed.

Lemma db_ok_chats C' db : grows (chats db) C' -> chats_ok C' -> db_ok db -> db_ok (set_chats C' db).
Proof.
  intros Hg Hc [? ? ? ? ?]. split; cbn; [done|by eapply messages_ok_grows|done|by eapply requests_ok_grows|done].
Qed.

Lemma touch_chat_ok chat_id at_ms db db' : touch_chat chat_id at_ms db = Ok db' -> db_ok db -> db_ok db'.
Proof. intros (C' & -> & Hg & Hc)%touch_chat_Ok Hok. apply db_ok_chats; auto. apply Hc, Hok. Qed.

Lemma update_request_Ok r db db' : update_request r db = Ok db' ->
  request_check r = true /\ db' = set_requests (<[rs_id r := r]> (requests db)) db.
Proof. unfold update_request. intros H. ok_inv H. done. Qed.

(** A request keeps its identity and either keeps its status or stops. *)
Definition same_request (r r' : RequestState) : Prop :=
  rs_id r' = rs_id r /\ rs_chat r' = rs_chat r /\ rs_user r' = rs_user r /\ rs_assistant r' = rs_assistant r /\
  rs_generation r' = rs_generation r /\ rs_started r' = rs_started r /\ (is_running r' = true -> is_running r = true).

Lemma requests_ok_update C M R r r' : requests_ok C M R -> R !! rs_id r = Some r -> same_request r r' ->
  request_check r' = true -> requests_ok C M (<[rs_id r' := r']> R).
Proof.
  intros [Hr Hp Ho Hg] Hl (Hi & Hc & Hu & Ha & Hge & Hs & Hrun) Hck. rewrite Hi.
  assert (Hback : forall k q', <[rs_id r := r']> R !! k = Some q' -> exists q, R !! k = Some q /\
    rs_chat q' = rs_chat q /\ rs_generation q' = rs_generation q /\ (is_running q' = true -> is_running q = true)).
  { intros k q' Hq'. destruct (decide (rs_id r = k)) as [<-|].
    - rewrite lookup_insert_eq in Hq'. injection Hq' as <-. eauto.
    - rewrite lookup_insert_ne in Hq' by done. eauto. }
  split.
  - intros k q'. destruct (decide (rs_id r = k)) as [<-|].
    + rewrite lookup_insert_eq. intros [= <-]. destruct (Hr _ _ Hl) as (? & ? & ? & ? & ?).
      rewrite Hc, Hu, Ha. done.
    + rewrite lookup_insert_ne by done. apply Hr.
  - intros k q'. destruct (decide (rs_id r = k)) as [<-|].
    + rewrite lookup_insert_eq. intros [= <-] Hq. destruct (Hp _ _ Hl (Hrun Hq)) as (m & Hm & ? & ?).
      exists m. by rewrite Ha, Hs.
    + rewrite lookup_insert_ne by done. apply Hp.
  - intros k1 k2 q1 q2 H1 H2 R1 R2 Hcc. apply Hback in H1 as (? & ? & ? & ? & ?). apply Hback in H2 as (? & ? & ? & ? & ?).
    eapply (Ho k1 k2); eauto. congruence.
  - intros k1 k2 q1 q2 H1 H2 Hcc. apply Hback in H1 as (? & ? & ? & ? & ?). apply Hback in H2 as (? & ? & ? & ? & ?).
    eapply (Hg k1 k2); eauto. congruence.
Qed.

Lemma request_ok_lookup db id r : db_ok db -> requests db !! id = Some r -> requests db !! rs_id r = Some r.
Proof. intros [_ _ _ [Hr _ _ _] _] Hl. by destruct (Hr _ _ Hl) as [-> _]. Qed.

Lemma db_ok_request db r r' : db_ok db -> requests db !! rs_id r = Some r -> same_request r r' ->
  request_check r' = true -> db_ok (set_requests (<[rs_id r' := r']> (requests db)) db).
Proof. intros [? ? ? ? ?] ? ? ?. split; cbn; try done. by eapply requests_ok_update. Qed.

Lemma load_request_state_Ok id db db' r : load_request_state id db = (db', Ok r) ->
  db' = db /\ requests db !! id = Some r.
Proof.
  unfold load_request_state. intros H. st_inv H. split; [done|].
  unfold decode_request_state in H. ok_inv H. congruence.
Qed.

Lemma requests_ok_messages C M M' R : places_kept M M' ->
  (forall k r, R !! k = Some r -> is_running r = true -> partial_assistant M' r) ->
  requests_ok C M R -> requests_ok C M' R.
Proof.
  intros Hp Hpart [Hr _ Ho Hg]. pose proof (places_kept_shape _ _ Hp) as Hk. split; try done.
  intros k r (? & ? & ? & ? & ?)%Hr. split_and!; try done; by eapply message_of_shape.
Qed.

(** ** The journal of a stream *)

(** Decided equalities as equations. *)
Ltac undecide := zify_bool;
  repeat match goal with H : bool_decide _ = true |- _ => apply bool_decide_eq_true in H end.

Lemma ensure_stream_owned_Ok r owner generation u : ensure_stream_owned r owner generation = Ok u ->
  rs_owner r = owner /\ rs_generation r = generation.
Proof. unfold ensure_stream_owned. intros H%ensure_Ok. by undecide. Qed.

Lemma ensure_running_and_owned_Ok r owner generation u : ensure_running_and_owned r owner generation = Ok u ->
  is_running r = true /\ rs_owner r = owner /\ rs_generation r = generation.
Proof. unfold ensure_running_and_owned. intros H. ok_inv1 H. by apply ensure_stream_owned_Ok in H. Qed.

Lemma validate_delivery_checkpoint_Ok c u : validate_delivery_checkpoint c = Ok u ->
  dc_through c = dc_expected_delivered c + 1.
Proof.
  unfold validate_delivery_checkpoint. intros H. ok_inv H. zify_bool.
  match goal with Hx : checked_add _ _ _ = Some _ |- _ => apply checked_add_Some in Hx as [-> _] end. done.
Qed.

Lemma validate_cumulative_ack_Ok c u : validate_cumulative_ack c = Ok u ->
  default 0 (ca_expected_acked c) < ca_through c.
Proof. unfold validate_cumulative_ack. intros H. ok_inv H. by zify_bool. Qed.

Lemma validate_checkpoint_Ok c u : validate_checkpoint c = Ok u ->
  rc_expected_durable c < rc_through c.
Proof. unfold validate_checkpoint. intros H. ok_inv H. by zify_bool. Qed.

Lemma record_response_delivery_Ok c db db' p : record_response_delivery c db = (db', Ok p) ->
  exists r, requests db !! dc_request c = Some r /\ is_running r = true /\ rs_owner r = dc_owner c /\
    rs_generation r = dc_generation c /\ rs_delivered r = dc_expected_delivered c /\
    dc_through c = dc_expected_delivered c + 1 /\
    let at_ms := effective_stream_timestamp r (dc_at c) in
    request_check (with_delivered (dc_through c) at_ms r) = true /\
    db' = set_requests (<[rs_id r := with_delivered (dc_through c) at_ms r]> (requests db)) db /\
    p = sequence_progress r (dc_through c) (rs_acked r) at_ms.
Proof.
  unfold record_response_delivery. intros H. st_inv H.
  apply load_request_state_Ok in Hs0 as [-> Hl]. rename x0 into r. exists r.
  apply ensure_running_and_owned_Ok in Hs1 as (? & ? & ?). apply update_request_Ok in Hs3 as [Hck ->].
  apply validate_delivery_checkpoint_Ok in Hs. zify_bool. by split_and!.
Qed.

Lemma acknowledge_response_Ok c db db' p : acknowledge_response c db = (db', Ok p) ->
  exists r, requests db !! ca_request c = Some r /\ rs_owner r = ca_owner c /\
    rs_generation r = ca_generation c /\ rs_acked r = ca_expected_acked c /\
    default 0 (ca_expected_acked c) < ca_through c <= rs_durable r /\
    let at_ms := effective_stream_timestamp r (ca_at c) in
    request_check (with_acked (ca_through c) at_ms r) = true /\
    db' = set_requests (<[rs_id r := with_acked (ca_through c) at_ms r]> (requests db)) db /\
    p = sequence_progress r (rs_delivered r) (Some (ca_through c)) at_ms.
Proof.
  unfold acknowledge_response. intros H. st_inv H.
  apply load_request_state_Ok in Hs0 as [-> Hl]. rename x0 into r. exists r.
  apply update_request_Ok in Hs4 as [Hck ->].
  apply ensure_stream_owned_Ok in Hs1 as [? ?]. apply validate_cumulative_ack_Ok in Hs. undecide. by split_and!.
Qed.

Definition status_of (terminal : option TerminalOutcome) : StorageRequestStatus := (progress_statuses terminal).1.1.
Definition message_status_of (terminal : option TerminalOutcome) : StoredMessageStatus := (progress_statuses terminal).1.2.

Lemma apply_response_progress_Ok c terminal db db' p : apply_response_progress c terminal db = (db', Ok p) ->
  exists r m, requests db !! rc_request c = Some r /\ messages db !! rs_assistant r = Some m /\
    is_running r = true /\ rs_owner r = rc_owner c /\ rs_generation r = rc_generation c /\
    rs_durable r = rc_expected_durable c /\ rc_expected_durable c < rc_through c <= rs_delivered r /\
    sm_status m = MessagePartial /\
    let at_ms := effective_stream_timestamp r (rc_at c) in
    let m' := with_appended (rc_text c) (message_status_of terminal) at_ms m in
    let r' := with_progress c terminal at_ms r in
    message_check m' = true /\ request_check r' = true /\
    (exists C', db' = mkDb C' (<[sm_id m := m']> (messages db)) (<[rs_id r := r']> (requests db)) (active_path db)
                      (render_cache db) (settings db) /\
       grows (chats db) C' /\ (chats_ok (chats db) -> chats_ok C')) /\
    p = mkProgress (rc_request c) (rs_assistant r) (rs_delivered r) (rc_through c) (rs_acked r)
          (len (sm_text m) + len (rc_text c)) (status_of terminal) at_ms.
Proof.
  unfold apply_response_progress. intros H. do 12 st_inv1 H.
  destruct (progress_statuses terminal) as [[status mstatus] failure] eqn:Hst. st_inv H.
  apply load_request_state_Ok in Hs0 as [-> Hl]. rename x0 into r.
  match goal with Hx : messages db !! rs_assistant r = Some ?m |- _ => exists r, m end.
  apply ensure_running_and_owned_Ok in Hs1 as (? & ? & ?). apply validate_checkpoint_Ok in Hs. undecide.
  match goal with Hx : update_message _ _ = _ |- _ => unfold update_message in Hx; ok_inv Hx; subst end.
  match goal with Hx : update_request _ _ = _ |- _ => apply update_request_Ok in Hx as [Hck ->] end.
  match goal with Hx : touch_chat _ _ _ = _ |- _ => apply touch_chat_Ok in Hx as (C' & -> & Hg & Hc) end.
  match goal with Hx : checked_add _ _ _ = Some _ |- _ => apply checked_add_Some in Hx as [-> _] end.
  unfold status_of, message_status_of. rewrite Hst. cbn [fst snd] in *.
  assert (Hid : rs_id (with_progress c terminal (effective_stream_timestamp r (rc_at c)) r) = rs_id r).
  { unfold with_progress. by rewrite Hst. }
  split_and!; try done. exists C'. rewrite Hid. by split_and!.
Qed.

Lemma delivery_ok c db db' p : db_ok db -> record_response_delivery c db = (db', Ok p) -> db_ok db'.
Proof.
  intros Hok (r & Hl & _ & _ & _ & _ & _ & Hck & -> & _)%record_response_delivery_Ok.
  apply (db_ok_request db r (with_delivered _ _ r)); try done. by eapply request_ok_lookup.
Qed.

Lemma acknowledge_ok c db db' p : db_ok db -> acknowledge_response c db = (db', Ok p) -> db_ok db'.
Proof.
  intros Hok (r & Hl & _ & _ & _ & _ & Hck & -> & _)%acknowledge_response_Ok.
  apply (db_ok_request db r (with_acked _ _ r)); try done. by eapply request_ok_lookup.
Qed.

Lemma with_progress_same c terminal at_ms r : is_running r = true -> same_request r (with_progress c terminal at_ms r).
Proof. intros Hr. unfold with_progress. destruct (progress_statuses terminal) as [[s ms] f]. by split_and!. Qed.

Lemma with_progress_running c terminal at_ms r :
  is_running (with_progress c terminal at_ms r) = true -> terminal = None.
Proof. destruct terminal as [[| |]|]; cbn; [done..|]. done. Qed.

Lemma progress_ok c terminal db db' p : db_ok db -> apply_response_progress c terminal db = (db', Ok p) -> db_ok db'.
Proof.
  intros Hok (r & m & Hl & Hm & Hrun & _ & _ & _ & _ & Hst & Hmc & Hrc & (C' & -> & Hg & Hc) & _)%apply_response_progress_Ok.
  set (at_ms := effective_stream_timestamp r (rc_at c)) in *.
  set (m' := with_appended _ _ _ m) in *. set (r' := with_progress c terminal at_ms r) in *.
  pose proof (request_ok_lookup _ _ _ Hok Hl) as Hl'. pose proof (with_progress_same c terminal at_ms r Hrun) as Hsame.
  destruct Hok as [Kc Km Kp Kr Kk]. destruct (mo_row _ _ Km _ _ Hm) as (Hmi & Hmc0 & _).
  assert (Hpk : places_kept (messages db) (<[sm_id m := m']> (messages db))).
  { eapply places_kept_insert; [done|by rewrite Hmi|by split_and!|done]. }
  assert (Hri : rs_id r' = rs_id r) by apply Hsame.
  split; cbn [chats messages requests active_path render_cache].
  - auto.
  - eapply messages_ok_grows; [done|]. by eapply messages_ok_update.
  - by eapply paths_ok_update.
  - eapply requests_ok_grows; [done|]. eapply requests_ok_messages; [done| |].
    2: { rewrite <- Hri. by eapply requests_ok_update. }
    intros k q Hq Hqr. destruct (decide (rs_id r = k)) as [<-|Hk].
    + rewrite lookup_insert_eq in Hq. injection Hq as <-. apply with_progress_running in Hqr as ->.
      destruct (ro_partial _ _ _ Kr _ _ Hl' Hrun) as (m0 & Hm0 & _ & Hcr).
      exists m'. replace (rs_assistant r') with (sm_id m) by (rewrite Hmi; symmetry; apply Hsame).
      rewrite lookup_insert_eq. split_and!; [done|done|]. replace m0 with m in Hcr by congruence. apply Hcr.
    + rewrite lookup_insert_ne in Hq by done. destruct (ro_partial _ _ _ Kr _ _ Hq Hqr) as (mq & Hmq & Hsq & Hcq).
      exists mq. rewrite lookup_insert_ne; [done|]. rewrite Hmi. intros He. apply Hk.
      eapply (ro_running _ _ _ Kr (rs_id r) k r q); eauto.
      destruct (ro_row _ _ _ Kr _ _ Hl') as (_ & _ & _ & _ & Hma). destruct (ro_row _ _ _ Kr _ _ Hq) as (_ & _ & _ & _ & Hqa).
      unfold message_of in *. rewrite <- He, Hm in Hqa. rewrite Hm in Hma. apply in_chat_true in Hma, Hqa. congruence.
  - eapply cache_ok_shape; [by apply places_kept_shape|done].
Qed.
