(* ===== verification/ChatHistory.v ===== *)
(** * Conversation storage: histories of operations

    The active path of a chat as a list, the operations that move it, and what the
    operations of [ChatStore] keep along any history: the invariant of [ChatInvariant], and
    with it the checks that [migration.rs] runs on the rows. *)

From stdpp Require Import gmap sorting.
From S2P Require Import Prelude Sorting Bytes Utf8 ChatModel ChatStore ChatInvariant.

(** ** The active path as a list *)

Definition numbered {A} (l : list A) : list (Z * A) := imap (fun n x => (Z.of_nat n, x)) l.

Lemma numbered_lookup {A} (l : list A) n : numbered l !! n = (fun x => (Z.of_nat n, x)) <$> l !! n.
Proof. unfold numbered. by rewrite list_lookup_imap. Qed.

Lemma elem_of_numbered {A} (l : list A) i x : (i, x) ∈ numbered l <-> 0 <= i /\ l !! Z.to_nat i = Some x.
Proof.
  rewrite list_elem_of_lookup. setoid_rewrite numbered_lookup. split.
  - intros (n & Hn). destruct (l !! n) as [y|] eqn:Hy; [|done]. injection Hn as <- <-.
    rewrite Nat2Z.id. split; [lia|done].
  - intros (Hi & Hx). exists (Z.to_nat i). rewrite Hx. cbn. by rewrite Z2Nat.id.
Qed.

Lemma numbered_snoc {A} (l : list A) x : numbered (l ++ [x]) = numbered l ++ [(len l, x)].
Proof. unfold numbered, len. rewrite imap_app. cbn. by rewrite Nat.add_0_r. Qed.

Lemma numbered_sorted {A} (l : list A) :
  StronglySorted (cmp_le (fun a b : Z * A => a.1 ?= b.1)) (numbered l).
Proof.
  induction l as [|x l IH] using rev_ind; [constructor|]. rewrite numbered_snoc.
  apply StronglySorted_app_2; [|done|by repeat constructor].
  intros [i y] [j z] [Hi Hy]%elem_of_numbered Hz%list_elem_of_singleton. injection Hz as -> ->. unfold cmp_le. cbn.
  apply lookup_lt_Some in Hy. unfold len. rewrite Z.compare_gt_iff. lia.
Qed.

Lemma numbered_unique {A} (l : list A) r1 r2 : r1 ∈ numbered l -> r2 ∈ numbered l -> (r1.1 ?= r2.1) = Eq -> r1 = r2.
Proof.
  destruct r1 as [i x], r2 as [j y]. intros [Hi Hx]%elem_of_numbered [Hj Hy]%elem_of_numbered.
  cbn. intros ->%Z.compare_eq_iff. congruence.
Qed.

(** A sorted list is what sorting any arrangement of it gives. *)
Lemma sort_by_to {A} (cmp : A -> A -> comparison) `{!Comparison cmp} l s : l ≡ₚ s -> StronglySorted (cmp_le cmp) s ->
  (forall a b, a ∈ s -> b ∈ s -> cmp a b = Eq -> a = b) -> sort_by cmp l = s.
Proof.
  intros Hp Hs Hd. rewrite (sort_by_unique cmp l s); [|done|intros a b; rewrite Hp; apply Hd]. clear Hp Hd.
  induction Hs as [|x s Hs IH Hx]; [done|]. cbn [sort_by foldr]. fold (sort_by cmp s). rewrite IH.
  destruct s as [|y s]; [done|]. inversion Hx as [|? ? Hxy]; subst. cbn [sort_insert].
  unfold cmp_le in Hxy. destruct (cmp x y); done.
Qed.

#[export] Instance position_cmp {A} : Comparison (fun a b : Z * A => a.1 ?= b.1).
Proof. apply (Z_compare_cmp fst). Qed.

Lemma on_path_perm p l : on_path p l -> map_to_list p ≡ₚ numbered l.
Proof.
  intros Hp. apply NoDup_Permutation.
  - apply NoDup_map_to_list.
  - apply NoDup_alt. intros i j x. rewrite !numbered_lookup.
    destruct (l !! i), (l !! j); cbn; [|done..]. intros [= <-] [= ? ?]. lia.
  - intros [i id]. by rewrite elem_of_map_to_list, elem_of_numbered.
Qed.

Lemma on_path_sorted p l : on_path p l -> sort_by (fun a b => a.1 ?= b.1) (map_to_list p) = numbered l.
Proof. intros Hp. apply (sort_by_to _); [by apply on_path_perm|apply numbered_sorted|apply numbered_unique]. Qed.

(** The messages of a line. *)
Definition line_messages (M : gmap str StoredMessage) (l : list str) : list StoredMessage := omap (fun id => M !! id) l.

Lemma line_messages_lookup M c l n : line_ok M c l -> line_messages M l !! n = (l !! n) ≫= (fun id => M !! id).
Proof.
  intros Hl. unfold line_messages. assert (Hall : forall id, id ∈ l -> is_Some (M !! id)).
  { intros id (k & Hk)%list_elem_of_lookup. destruct (Hl k id Hk) as (m & Hm & _). eauto. }
  clear Hl. revert n. induction l as [|id l IH]; intros n; [done|].
  destruct (Hall id) as [m Hm]; [left|]. cbn [omap list_omap]. rewrite Hm. destruct n as [|n]; [by cbn; rewrite Hm|].
  cbn. apply IH. intros id' Hid. apply Hall. by right.
Qed.

Lemma path_rows_numbered db c l : on_path (path_of c db) l -> line_ok (messages db) c l ->
  path_rows c db = numbered (line_messages (messages db) l).
Proof.
  intros Hp Hl. unfold path_rows. rewrite (on_path_sorted _ l) by done.
  assert (Hall : forall id, id ∈ l -> exists m, messages db !! id = Some m /\ sm_chat m = c).
  { intros id (k & Hk)%list_elem_of_lookup. destruct (Hl k id Hk) as (m & Hm & Hc & _). eauto. }
  clear Hp Hl. unfold line_messages. induction l as [|id l IH] using rev_ind; [done|].
  rewrite numbered_snoc, !omap_app, IH by (intros ? ?; apply Hall; set_solver).
  destruct (Hall id ltac:(set_solver)) as (m & Hm & Hc). cbn [omap list_omap fst snd]. rewrite Hm.
  rewrite (proj2 (in_chat_true c m) Hc), numbered_snoc. f_equal. f_equal. f_equal. unfold len. f_equal.
  clear IH Hm Hc. induction l as [|y l IH]; [done|]. destruct (Hall y ltac:(set_solver)) as (my & Hy & _).
  cbn [omap list_omap]. rewrite Hy. cbn. f_equal. apply IH. intros z Hz. apply Hall. set_solver.
Qed.

Lemma line_messages_drop M c l n : line_ok M c l -> line_messages M (drop n l) = drop n (line_messages M l).
Proof.
  intros Hl. assert (Hall : forall id, id ∈ l -> is_Some (M !! id)).
  { intros id (k & Hk)%list_elem_of_lookup. destruct (Hl k id Hk) as (m & Hm & _). eauto. }
  clear Hl. unfold line_messages. revert n. induction l as [|id l IH]; intros n; [by destruct n|].
  destruct (Hall id) as [m Hm]; [left|]. destruct n as [|n]; [done|]. cbn [omap list_omap drop]. rewrite Hm. cbn [drop].
  apply IH. intros id' Hid. apply Hall. by right.
Qed.

(** ** Runs that succeed *)

Section run.
Context {A B : Type}.

Lemma st_bind_run (m : StoreM A) (f : A -> StoreM B) db db1 a : m db = (db1, Ok a) -> (m ≫= f) db = f a db1.
Proof. intros H. unfold mbind, ST_bind. by rewrite H. Qed.

Lemma st_lift_run (r : StorageResult A) (f : A -> StoreM B) db a : r = Ok a -> (st_lift r ≫= f) db = f a db.
Proof. by intros ->. Qed.

Lemma st_ensure_run b e (f : unit -> StoreM B) db : b = true -> (st_lift (ensure b e) ≫= f) db = f tt db.
Proof. by intros ->. Qed.

Lemma gets_run (q : Db -> A) (f : A -> StoreM B) db : (gets q ≫= f) db = f (q db) db.
Proof. done. Qed.

Lemma update_run q (f : unit -> StoreM B) db db1 : q db = Ok db1 -> (update q ≫= f) db = f tt db1.
Proof. intros H. unfold mbind, ST_bind, update. by rewrite H. Qed.

Lemma st_modify_run q (f : unit -> StoreM B) db : (st_modify q ≫= f) db = f tt (q db).
Proof. done. Qed.
End run.

(** ** Computations that only read, and computations that are atomic *)

Class Reads {A} (m : StoreM A) : Prop := reads db : (m db).1 = db.

(** A failure leaves the tables as they were. *)
Class Atomic {A} (m : StoreM A) : Prop := atomic db db' e : m db = (db', Err e) -> db' = db.

Section reads.
Context {A B : Type}.

#[export] Instance reads_lift (r : StorageResult A) : Reads (st_lift r : StoreM A).
Proof. by intros db. Qed.

#[export] Instance reads_ret (a : A) : Reads (mret a : StoreM A).
Proof. by intros db. Qed.

#[export] Instance reads_gets (f : Db -> A) : Reads (gets f).
Proof. by intros db. Qed.

#[export] Instance reads_bind (m : StoreM A) (f : A -> StoreM B) : Reads m -> (forall a, Reads (f a)) -> Reads (m ≫= f).
Proof.
  intros Hm Hf db. unfold mbind, ST_bind. specialize (Hm db). destruct (m db) as [db1 [a|e]]; cbn in *; subst; [|done].
  apply Hf.
Qed.

Lemma reads_Ok (m : StoreM A) `{!Reads m} db db' r : m db = (db', r) -> db' = db.
Proof. intros H. pose proof (reads (m := m) db) as Hr. by rewrite H in Hr. Qed.

#[export] Instance atomic_reads (m : StoreM A) : Reads m -> Atomic m | 10.
Proof. intros Hm db db' e H. by eapply reads_Ok. Qed.

#[export] Instance atomic_transaction (m : StoreM A) : Atomic (transaction m).
Proof. intros db db' e. apply transaction_Err. Qed.

#[export] Instance atomic_update f : Atomic (update f).
Proof. intros db db' e. unfold update. destruct (f db); [done|]. by intros [= <- _]. Qed.

#[export] Instance atomic_after_reads (m : StoreM A) (f : A -> StoreM B) : Reads m -> (forall a, Atomic (f a)) -> Atomic (m ≫= f) | 1.
Proof.
  intros Hm Hf db db' e. unfold mbind, ST_bind. specialize (Hm db). destruct (m db) as [db1 [a|e1]]; cbn in Hm; subst db1.
  - apply Hf.
  - by intros [= <- _].
Qed.

#[export] Instance atomic_before_pure (m : StoreM A) (f : A -> B) : Atomic m -> Atomic (x ← m; mret (f x)) | 2.
Proof.
  intros Hm db db' e. unfold mbind, ST_bind. specialize (Hm db). destruct (m db) as [db1 [a|e1]]; [done|].
  intros [= <- _]. by eapply Hm.
Qed.
End reads.

#[export] Hint Extern 1 (Reads (match ?x with _ => _ end)) => destruct x : typeclass_instances.
#[export] Hint Extern 1 (Atomic (match ?x with _ => _ end)) => destruct x : typeclass_instances.

#[export] Instance load_request_state_reads id : Reads (load_request_state id).
Proof. unfold load_request_state. apply _. Qed.
#[export] Instance ensure_chat_exists_reads c : Reads (ensure_chat_exists c).
Proof. unfold ensure_chat_exists. apply _. Qed.
#[export] Instance current_active_leaf_reads c : Reads (current_active_leaf c).
Proof. unfold current_active_leaf. apply _. Qed.
#[export] Instance ensure_expected_active_leaf_reads c e : Reads (ensure_expected_active_leaf c e).
Proof. unfold ensure_expected_active_leaf. apply _. Qed.
#[export] Instance message_depth_reads c id : Reads (message_depth c id).
Proof. unfold message_depth. apply _. Qed.
#[export] Instance next_sibling_ordinal_reads c p : Reads (next_sibling_ordinal c p).
Proof. unfold next_sibling_ordinal. apply _. Qed.
#[export] Instance next_message_ordinal_reads c : Reads (next_message_ordinal c).
Proof. unfold next_message_ordinal. apply _. Qed.
#[export] Instance query_message_reads id : Reads (query_message id).
Proof. unfold query_message. apply _. Qed.

(** Reads do not change the state a step starts from. *)
Ltac same_state := repeat match goal with
  | H : ?m ?db = (?db', _) |- _ =>
      is_var db'; assert (db' = db) by exact (reads_Ok m db db' _ H); subst db'
  end.

(** ** Lines and ancestries *)

Lemma line_ok_snoc M c l id m : line_ok M c l -> M !! id = Some m -> sm_chat m = c -> sm_depth m = len l ->
  sm_parent m = previous (l ++ [id]) (length l) -> line_ok M c (l ++ [id]).
Proof.
  intros Hl Hm Hc Hd Hp n j Hn. destruct (decide (n < length l)%nat) as [Hlt|Hge].
  - rewrite lookup_app_l in Hn by done. destruct (Hl n j Hn) as (q & ? & ? & ? & Hq). exists q.
    split_and!; try done. rewrite Hq. destruct n as [|n]; [done|]. cbn. rewrite lookup_app_l by lia. done.
  - pose proof (lookup_lt_Some _ _ _ Hn) as Hlen. rewrite length_app in Hlen. cbn in Hlen.
    assert (n = length l) as -> by lia. rewrite list_lookup_middle in Hn by done. injection Hn as <-. eauto.
Qed.

Lemma line_ok_prefix M c l1 l2 : line_ok M c (l1 ++ l2) -> line_ok M c l1.
Proof.
  intros Hl n id Hn. destruct (Hl n id) as (m & ? & ? & ? & Hp); [by apply lookup_app_l_Some|].
  exists m. split_and!; try done. rewrite Hp. destruct n as [|n]; [done|]. cbn.
  apply lookup_lt_Some in Hn. by rewrite lookup_app_l by lia.
Qed.

Lemma line_NoDup M c l : line_ok M c l -> NoDup l.
Proof.
  intros Hl. apply NoDup_alt. intros i j id Hi Hj.
  destruct (Hl _ _ Hi) as (m & Hm & _ & Hd & _), (Hl _ _ Hj) as (m' & Hm' & _ & Hd' & _).
  assert (m = m') as -> by congruence. lia.
Qed.

(** A line is determined by its last message. *)
Lemma line_unique M c l1 l2 n id : line_ok M c l1 -> line_ok M c l2 -> length l1 = S n -> length l2 = S n ->
  l1 !! n = Some id -> l2 !! n = Some id -> l1 = l2.
Proof.
  intros H1 H2 Hn1 Hn2 Hl1 Hl2.
  assert (Hdown : forall k, (k <= n)%nat -> l1 !! (n - k)%nat = l2 !! (n - k)%nat).
  { induction k as [|k IH]; intros Hk; [by rewrite Nat.sub_0_r, Hl1, Hl2|].
    destruct (lookup_lt_is_Some_2 l1 (n - k)) as [x Hx]; [lia|]. pose proof Hx as Hx'. rewrite IH in Hx' by lia.
    destruct (H1 _ _ Hx) as (m & Hm & _ & _ & Hp), (H2 _ _ Hx') as (m' & Hm' & _ & _ & Hp').
    assert (m' = m) as -> by congruence. rewrite Hp' in Hp.
    replace (n - k)%nat with (S (n - S k)) in Hp by lia. by cbn in Hp. }
  apply list_eq. intros i. destruct (decide (i <= n)%nat) as [Hi|Hi].
  - replace i with (n - (n - i))%nat by lia. apply Hdown. lia.
  - by rewrite !lookup_ge_None_2 by lia.
Qed.

Lemma line_length M c l : line_ok M c l -> (length l <= size M)%nat.
Proof.
  intros Hl. pose proof (line_NoDup _ _ _ Hl) as Hn.
  rewrite <- (size_list_to_set (C := gset str)) by done. rewrite <- (size_dom (D := gset str)). apply subseteq_size.
  intros id (n & Hid)%elem_of_list_to_set%list_elem_of_lookup.
  destruct (Hl n id Hid) as (m & Hm & _). by apply elem_of_dom_2 in Hm.
Qed.

Lemma message_depth_check m : message_check m = true -> 0 <= sm_depth m <= MAX_SAFE_INTEGER /\
  (sm_parent m = None <-> sm_depth m = 0).
Proof.
  unfold message_check, between. intros H. zify_bool.
  destruct (sm_parent m); zify_bool; split; split; try done; lia.
Qed.

Lemma line_messages_snoc M l id m : M !! id = Some m -> line_messages M (l ++ [id]) = line_messages M l ++ [m].
Proof. intros Hm. unfold line_messages. rewrite omap_app. cbn. by rewrite Hm. Qed.

Lemma line_messages_length M c l : line_ok M c l -> length (line_messages M l) = length l.
Proof.
  intros Hl. induction l as [|id l IH] using rev_ind; [done|].
  destruct (Hl (length l) id) as (m & Hm & _); [by apply list_lookup_middle|].
  rewrite (line_messages_snoc _ _ _ m), !length_app, IH by (done || by eapply line_ok_prefix). done.
Qed.

(** With enough fuel the ancestry of a message is the line from its root. *)
Lemma ancestry_line C M c d id m fuel : messages_ok C M -> M !! id = Some m -> sm_chat m = c ->
  sm_depth m = Z.of_nat d -> (d < fuel)%nat ->
  exists l, length l = S d /\ l !! d = Some id /\ line_ok M c l /\ ancestry fuel c id M = reverse (line_messages M l).
Proof.
  intros Hok. revert id m fuel. induction d as [|d IH]; intros id m fuel Hm Hc Hd Hf;
    (destruct fuel as [|fuel]; [lia|]); cbn [ancestry]; rewrite Hm, (proj2 (in_chat_true c m) Hc);
    destruct (mo_row _ _ Hok _ _ Hm) as (Hi & Hck & _ & Hpo); apply message_depth_check in Hck as [_ Hroot].
  - exists [id]. assert (Hn : sm_parent m = None) by (apply Hroot; lia). rewrite Hn. split_and!; try done.
    + by apply (line_ok_snoc M c [] id m).
    + unfold line_messages. cbn [omap list_omap]. by rewrite Hm.
  - destruct (sm_parent m) as [p|] eqn:Hp; [|destruct Hroot as [Hr _]; specialize (Hr eq_refl); lia].
    unfold parent_ok in Hpo. rewrite Hp in Hpo. cbn [opt_all] in Hpo.
    destruct (M !! p) as [q|] eqn:Hq; [|done]. zify_bool.
    destruct (IH p q fuel) as (l & Hlen & Hlast & Hl & ->);
      first [done | lia | (etrans; [by apply in_chat_true|done]) | idtac].
    exists (l ++ [id]). rewrite length_app, Hlen. cbn. split_and!; [lia| | |].
    + by rewrite list_lookup_middle.
    + apply (line_ok_snoc M c l id m); try done; [unfold len; lia|]. rewrite Hlen, Hp. cbn.
      by rewrite lookup_app_l by lia.
    + by rewrite (line_messages_snoc _ _ _ m), reverse_snoc by done.
Qed.

Lemma ancestors_line db c id m : messages_ok (chats db) (messages db) -> messages db !! id = Some m -> sm_chat m = c ->
  exists l, len l = sm_depth m + 1 /\ l !! Z.to_nat (sm_depth m) = Some id /\ line_ok (messages db) c l /\
    ancestors c id db = reverse (line_messages (messages db) l).
Proof.
  intros Hok Hm Hc. destruct (mo_row _ _ Hok _ _ Hm) as (_ & Hck & _). apply message_depth_check in Hck as [[Hd _] _].
  set (d := Z.to_nat (sm_depth m)). assert (Hz : sm_depth m = Z.of_nat d) by lia.
  destruct (ancestry_line _ _ c d id m (S d) Hok Hm Hc Hz) as (l0 & Hlen0 & _ & Hl0 & _); [lia|].
  apply line_length in Hl0. unfold ancestors.
  destruct (ancestry_line _ _ c d id m (S (size (messages db))) Hok Hm Hc Hz) as (l & Hlen & Hlast & Hl & Ha); [lia|].
  exists l. split_and!; try done. unfold len. lia.
Qed.

(** In a line the message at position [n] has depth [n]. *)
Definition by_depth (ms : list StoredMessage) : Prop := forall n m, ms !! n = Some m -> sm_depth m = Z.of_nat n.

Lemma line_by_depth M c l : line_ok M c l -> by_depth (line_messages M l).
Proof.
  intros Hl n m. rewrite (line_messages_lookup M c) by done. destruct (l !! n) as [id|] eqn:Hn; [|done]. cbn.
  intros Hm. destruct (Hl n id Hn) as (m' & ? & _ & ? & _). congruence.
Qed.

Lemma by_depth_snoc ms m : by_depth (ms ++ [m]) -> by_depth ms /\ sm_depth m = len ms.
Proof.
  intros H. split; [|by apply H, list_lookup_middle]. intros n q Hq. by apply H, lookup_app_l_Some.
Qed.

Lemma by_depth_filter d ms : by_depth ms -> 0 <= d ->
  List.filter (fun m => d <=? sm_depth m) ms = drop (Z.to_nat d) ms.
Proof.
  intros Hb Hd. induction ms as [|m ms IH] using rev_ind; [by rewrite drop_nil|].
  apply by_depth_snoc in Hb as [Hb Hm]. rewrite List.filter_app, IH by done. cbn. rewrite Hm. unfold len.
  destruct (Z.leb_spec d (Z.of_nat (length ms))) as [Hle|Hgt].
  - by rewrite drop_app_le by lia.
  - rewrite !drop_ge by (rewrite ?length_app; cbn; lia). done.
Qed.

#[export] Instance depth_cmp : Comparison (fun a b => sm_depth a ?= sm_depth b).
Proof. apply (Z_compare_cmp sm_depth). Qed.

Lemma by_depth_sorted ms l : by_depth ms -> l ≡ₚ ms -> sort_by (fun a b => sm_depth a ?= sm_depth b) l = ms.
Proof.
  intros Hb Hp. apply (sort_by_to _); [done| |].
  - clear Hp. induction ms as [|m ms IH] using rev_ind; [constructor|]. apply by_depth_snoc in Hb as [Hb Hm].
    apply StronglySorted_app_2; [|by apply IH|by repeat constructor].
    intros a b (n & Ha)%list_elem_of_lookup ->%list_elem_of_singleton. unfold cmp_le.
    rewrite Z.compare_gt_iff, (Hb _ _ Ha), Hm. apply lookup_lt_Some in Ha. unfold len. lia.
  - intros a b (i & Ha)%list_elem_of_lookup (j & Hj)%list_elem_of_lookup Heq%Z.compare_eq_iff.
    rewrite (Hb _ _ Ha), (Hb _ _ Hj) in Heq. assert (i = j) as -> by lia. congruence.
Qed.

Lemma max_of_elem {A} (f : A -> Z) l z : max_of f l = Some z -> exists x, x ∈ l /\ f x = z.
Proof.
  revert z. induction l as [|y l IH]; intros z; [done|]. cbn [max_of foldr]. fold (max_of f l).
  destruct (max_of f l) as [w|] eqn:E; intros [= <-].
  - destruct (Z.max_dec (f y) w) as [-> | ->]; [exists y; split; [left|done]|].
    destruct (IH w eq_refl) as (x & Hx & Hf). exists x. split; [by right|done].
  - exists y. split; [left|done].
Qed.

Lemma by_depth_extremes ms l : by_depth ms -> l ≡ₚ ms -> ms <> [] ->
  min_of sm_depth l = Some 0 /\ max_of sm_depth l = Some (len ms - 1).
Proof.
  intros Hb Hp Hne. destruct (lookup_lt_is_Some_2 ms 0) as [m0 H0]; [destruct ms; [done|cbn; lia]|].
  destruct (lookup_lt_is_Some_2 ms (length ms - 1)) as [m1 H1]; [destruct ms; [done|cbn; lia]|].
  destruct (min_of_le sm_depth l m0) as (z & Hz & Hle).
  { rewrite Hp. by eapply list_elem_of_lookup_2. }
  destruct (max_of_ge sm_depth l m1) as (w & Hw & Hge).
  { rewrite Hp. by eapply list_elem_of_lookup_2. }
  destruct (min_of_elem _ _ _ Hz) as (a & Ha & Hfa). destruct (max_of_elem _ _ _ Hw) as (b & Hb' & Hfb).
  rewrite Hp in Ha, Hb'. apply list_elem_of_lookup in Ha as (i & Ha), Hb' as (j & Hb').
  rewrite (Hb _ _ H0) in Hle. rewrite (Hb _ _ H1) in Hge. rewrite (Hb _ _ Ha) in Hfa. rewrite (Hb _ _ Hb') in Hfb.
  apply lookup_lt_Some in Hb'. rewrite Hz, Hw. unfold len. split; f_equal; lia.
Qed.

Lemma min_of_None {A} (f : A -> Z) l : min_of f l = None -> l = [].
Proof. destruct l; [done|]. by cbn. Qed.

(** Below the first mismatch the stored path is the line already. *)
Lemma first_mismatch_agrees M c (p : gmap Z str) l : (forall k m, M !! k = Some m -> sm_id m = k) -> line_ok M c l ->
  let d := default (len l) (first_mismatch p (reverse (line_messages M l))) in
  0 <= d <= len l /\ forall n id, l !! n = Some id -> Z.of_nat n < d -> p !! Z.of_nat n = Some id.
Proof.
  intros Hids Hl d. pose proof (line_by_depth _ _ _ Hl) as Hb.
  assert (Hget : forall n id, l !! n = Some id -> exists m, line_messages M l !! n = Some m /\ sm_id m = id /\ sm_depth m = Z.of_nat n).
  { intros n id Hn. destruct (Hl n id Hn) as (m & Hm & _ & Hd & _). exists m.
    rewrite (line_messages_lookup M c), Hn by done. cbn. by rewrite (Hids id m Hm). }
  assert (Hin : forall n m, line_messages M l !! n = Some m -> m ∈ reverse (line_messages M l)).
  { intros n m Hn. rewrite elem_of_reverse. by eapply list_elem_of_lookup_2. }
  subst d. unfold first_mismatch. destruct (min_of sm_depth _) as [z|] eqn:Hz; cbn.
  - split.
    + destruct (min_of_elem _ _ _ Hz) as (m & [_ Hm]%list_elem_of_filter_bool & <-).
      rewrite elem_of_reverse, list_elem_of_lookup in Hm. destruct Hm as (n & Hn). rewrite (Hb _ _ Hn).
      apply lookup_lt_Some in Hn. rewrite (line_messages_length M c) in Hn by done. unfold len. lia.
    + intros n id Hn Hlt. destruct (Hget n id Hn) as (m & Hm & <- & Hd). destruct (decide (p !! Z.of_nat n = Some (sm_id m))) as [|Hneq]; [done|].
      destruct (min_of_le sm_depth (List.filter (fun m => negb (bool_decide (p !! sm_depth m = Some (sm_id m)))) (reverse (line_messages M l))) m) as (w & Hw & Hle).
      { apply list_elem_of_filter_bool. split; [|by eapply Hin]. rewrite Hd. by rewrite bool_decide_eq_false_2. }
      assert (w = z) as -> by congruence. lia.
  - split; [unfold len; lia|]. intros n id Hn _. destruct (Hget n id Hn) as (m & Hm & <- & Hd).
    apply min_of_None in Hz. destruct (decide (p !! Z.of_nat n = Some (sm_id m))) as [|Hneq]; [done|]. exfalso.
    eapply (not_elem_of_nil m). rewrite <- Hz. apply list_elem_of_filter_bool. split; [|by eapply Hin].
    rewrite Hd. by rewrite bool_decide_eq_false_2.
Qed.

Lemma truncate_on_path (p : gmap Z str) l0 l d : on_path p l0 -> 0 <= d <= len l ->
  (forall n id, l !! n = Some id -> Z.of_nat n < d -> p !! Z.of_nat n = Some id) ->
  on_path (filter (fun row => row.1 < d) p) (take (Z.to_nat d) l).
Proof.
  intros Hp Hd Hag i id. rewrite map_lookup_filter_Some. cbn. split.
  - intros [Hi Hlt]. destruct (proj1 (Hp i id) Hi) as [H0 _]. split; [done|]. rewrite lookup_take_lt by lia.
    destruct (lookup_lt_is_Some_2 l (Z.to_nat i)) as [x Hx]; [unfold len in Hd; lia|].
    pose proof (Hag _ _ Hx ltac:(lia)) as Hpx. rewrite Z2Nat.id in Hpx by done. congruence.
  - intros [H0 [Hx Hlt]%lookup_take_Some]. split; [|lia].
    pose proof (Hag _ _ Hx ltac:(lia)) as Hpx. by rewrite Z2Nat.id in Hpx by done.
Qed.

(** [P'] is [P] with the path of the chat replaced by [l]. *)
Definition path_moved (c : str) (l : list str) (P P' : gmap str (gmap Z str)) : Prop :=
  on_path (path_in P' c) l /\ forall c', c' <> c -> path_in P' c' = path_in P c'.

Lemma path_in_insert P c p : path_in (<[c := p]> P) c = p.
Proof. unfold path_in. by rewrite lookup_insert_eq. Qed.

Lemma path_in_insert_ne P c c' p : c' <> c -> path_in (<[c := p]> P) c' = path_in P c'.
Proof. intros Hne. unfold path_in. by rewrite lookup_insert_ne. Qed.

Lemma on_path_snoc p l id : on_path p l -> on_path (<[len l := id]> p) (l ++ [id]).
Proof.
  intros Hp i x. unfold len. destruct (decide (i = Z.of_nat (length l))) as [->|Hne].
  - rewrite lookup_insert_eq, Nat2Z.id, list_lookup_middle by done. intuition (congruence || lia).
  - rewrite lookup_insert_ne by done. rewrite (Hp i x). split; intros [H0 Hx]; (split; [done|]).
    + by apply lookup_app_l_Some.
    + apply lookup_lt_Some in Hx as Hlt. rewrite length_app in Hlt. cbn in Hlt. by rewrite lookup_app_l in Hx by lia.
Qed.

Lemma insert_path_run M c l id m db : messages db = M -> on_path (path_of c db) l -> line_ok M c (l ++ [id]) ->
  M !! id = Some m -> message_check m = true ->
  insert_path c (sm_depth m) id db = Ok (set_active_path (<[c := <[len l := id]> (path_of c db)]> (active_path db)) db).
Proof.
  intros <- Hp Hl Hm Hck. apply message_depth_check in Hck as [Hd _].
  destruct (Hl (length l) id) as (m' & Hm' & Hc & Hdep & _); [by apply list_lookup_middle|].
  assert (m' = m) as -> by congruence. unfold insert_path, ensure. rewrite Hdep in *. fold (len l).
  destruct (path_of c db !! len l) as [x|] eqn:Hx.
  { apply Hp in Hx as [_ Hx]. unfold len in Hx. rewrite Nat2Z.id in Hx. apply lookup_lt_Some in Hx. lia. }
  replace (existsb _ _) with false.
  2: { symmetry. apply existsb_false_Forall, list.Forall_forall. intros [i x] [_ Hy]%elem_of_map_to_list%Hp. cbn.
       apply bool_decide_eq_false_2. intros ->. pose proof (line_NoDup _ _ _ Hl) as Hn.
       apply list.NoDup_app in Hn as (_ & Hn & _). apply (Hn id); [by eapply list_elem_of_lookup_2|left]. }
  unfold message_of. rewrite Hm, (proj2 (in_chat_true c m) Hc). unfold between, len in *.
  rewrite (proj2 (Z.leb_le _ _) (proj1 Hd)), (proj2 (Z.leb_le _ _) (proj2 Hd)). done.
Qed.

Lemma insert_suffix_run M c l1 l2 db : messages db = M -> (forall k m, M !! k = Some m -> sm_id m = k /\ message_check m = true) ->
  on_path (path_of c db) l1 -> line_ok M c (l1 ++ l2) ->
  exists P', insert_suffix c (line_messages M l2) db = Ok (set_active_path P' db) /\ path_moved c (l1 ++ l2) (active_path db) P'.
Proof.
  intros HM Hrow. revert l1 db HM. induction l2 as [|id l2 IH]; intros l1 db HM Hp Hl.
  - exists (active_path db). rewrite app_nil_r in *. split; [by destruct db|]. by split.
  - destruct (Hl (length l1) id) as (m & Hm & _); [by apply list_lookup_middle|].
    destruct (Hrow _ _ Hm) as [Hi Hck]. rewrite (cons_middle id l1 l2), app_assoc in Hl.
    unfold insert_suffix, line_messages. cbn [omap list_omap]. rewrite Hm. cbn [foldM_result]. rewrite Hi.
    rewrite (insert_path_run M c l1 id m db) by (done || by eapply line_ok_prefix). cbn [mbind result_bind].
    set (db1 := set_active_path _ db). destruct (IH (l1 ++ [id]) db1) as (P' & Hr & Hmv & Hother); [done| |done|].
    { unfold path_of. subst db1. cbn. rewrite lookup_insert_eq. by apply on_path_snoc. }
    exists P'. rewrite (cons_middle id l1 l2), app_assoc. split; [apply Hr|]. split; [done|].
    intros c' Hc'. rewrite Hother by done. by apply path_in_insert_ne.
Qed.

Lemma message_depth_run c id m db : messages db !! id = Some m -> sm_chat m = c -> message_check m = true ->
  sm_depth m <= MAX_BRANCH_DEPTH -> message_depth c id db = (db, Ok (sm_depth m)).
Proof.
  intros Hm Hc Hck Hd. apply message_depth_check in Hck as [[H0 H1] _].
  unfold message_depth, gets, mbind, ST_bind, st_lift, ok_or. rewrite Hm, (proj2 (in_chat_true c m) Hc).
  unfold decode_u64, validate_branch_depth, ensure.
  by rewrite (proj2 (Z.leb_le _ _) H0), (proj2 (Z.leb_le _ _) H1); cbn; rewrite (proj2 (Z.leb_le _ _) Hd).
Qed.

Lemma message_depth_Ok c id db db' d : message_depth c id db = (db', Ok d) ->
  db' = db /\ exists m, messages db !! id = Some m /\ sm_chat m = c /\ d = sm_depth m /\ d <= MAX_BRANCH_DEPTH.
Proof.
  unfold message_depth. intros H. st_inv H. split; [done|].
  destruct (messages db !! id) as [m|]; [|done]. destruct (in_chat c m) eqn:Hc; [|done].
  match goal with Hx : Some m = Some _ |- _ => injection Hx as <- end. apply in_chat_true in Hc.
  unfold decode_u64, validate_branch_depth in *.
  match goal with Hx : _ ≫= _ = Ok _ |- _ => ok_inv Hx; subst end.
  match goal with Hx : ensure _ _ = _ |- _ => apply ensure_Ok in Hx end. zify_bool. exists m. split_and!; (done || lia).
Qed.

Lemma encode_u64_run v field : v <= MAX_SAFE_INTEGER -> encode_u64 v field = Ok v.
Proof.
  intros Hv. unfold encode_u64, ensure. rewrite (proj2 (Z.leb_le _ _) Hv). cbn.
  rewrite (proj2 (Z.leb_le _ _)); [done|]. unfold MAX_SAFE_INTEGER, I64_MAX in *. lia.
Qed.

(** Moving the active path succeeds for every message of the chat within the depth limit
    and leaves the whole line from the root to that message. *)
Lemma replace_active_path_run db c id m l0 : messages_ok (chats db) (messages db) ->
  on_path (path_of c db) l0 -> messages db !! id = Some m -> sm_chat m = c -> sm_depth m <= MAX_BRANCH_DEPTH ->
  exists P' l, replace_active_path c id db = (set_active_path P' db, Ok (len l)) /\
    len l = sm_depth m + 1 /\ l !! Z.to_nat (sm_depth m) = Some id /\ line_ok (messages db) c l /\
    path_moved c l (active_path db) P'.
Proof.
  intros Hok Hp0 Hm Hc Hd. destruct (ancestors_line db c id m Hok Hm Hc) as (l & Hlen & Hlast & Hl & Ha).
  destruct (mo_row _ _ Hok _ _ Hm) as (_ & Hck & _). pose proof (message_depth_check _ Hck) as [[H0 _] _].
  pose proof (line_by_depth _ _ _ Hl) as Hb. pose proof (line_messages_length _ _ _ Hl) as Hml.
  set (ms := line_messages (messages db) l) in *.
  assert (Hperm : reverse ms ≡ₚ ms) by apply reverse_Permutation.
  destruct (by_depth_extremes ms (reverse ms) Hb Hperm) as [Hmin Hmax].
  { intros E. rewrite E in Hml. unfold len in Hlen. cbn in Hml. lia. }
  destruct (first_mismatch_agrees (messages db) c (path_of c db) l) as [Hdr Hag].
  { intros k q Hq. apply (mo_row _ _ Hok _ _ Hq). } { done. }
  fold ms in Hdr, Hag. set (d := default (len l) (first_mismatch (path_of c db) (reverse ms))) in *.
  set (db1 := truncate_path c d db).
  destruct (insert_suffix_run (messages db) c (take (Z.to_nat d) l) (drop (Z.to_nat d) l) db1) as (P' & Hr & Hmv & Hother).
  { done. } { intros k q Hq. destruct (mo_row _ _ Hok _ _ Hq) as (? & ? & _). done. }
  { unfold path_of, db1, truncate_path. cbn. rewrite lookup_insert_eq. by eapply truncate_on_path. }
  { by rewrite take_drop. }
  rewrite take_drop in Hmv. exists P', l. split_and!; try done.
  2: { split; [done|]. intros c' Hc'. rewrite Hother by done. by apply path_in_insert_ne. }
  assert (Hsuf : List.filter (fun m => d <=? sm_depth m) (sort_by (fun a b => sm_depth a ?= sm_depth b) (reverse ms))
                 = line_messages (messages db) (drop (Z.to_nat d) l)).
  { rewrite (by_depth_sorted ms) by done. rewrite by_depth_filter by (done || lia). symmetry. by apply (line_messages_drop _ c). }
  unfold replace_active_path. rewrite (st_bind_run _ _ _ _ _ (message_depth_run _ _ _ _ Hm Hc Hck Hd)).
  unfold MAX_BRANCH_DEPTH in Hd.
  erewrite st_lift_run by (rewrite checked_add_fits; [done|unfold U64_MAX; lia]). rewrite <- Hlen.
  erewrite !st_lift_run by (apply encode_u64_run; unfold MAX_SAFE_INTEGER; lia). rewrite !gets_run, Ha.
  rewrite st_ensure_run.
  2: { rewrite Hmin, Hmax. rewrite !bool_decide_eq_true_2; [|do 2 f_equal; unfold len in *; lia|done].
       apply andb_true_iff. split; [|done]. unfold len in *. rewrite length_reverse, Hml. lia. }
  fold d. rewrite st_ensure_run by lia. rewrite st_modify_run. fold db1. rewrite Hsuf.
  erewrite update_run by exact Hr. rewrite st_ensure_run; [done|].
  unfold len. rewrite (line_messages_drop _ c), length_drop by done.
  fold ms. rewrite Hml. clearbody d. unfold len in *. apply Z.eqb_eq. lia.
Qed.

(** ** The operations keep the invariant *)

Lemma on_path_nonempty p l n id : on_path p l -> l !! n = Some id -> p <> ∅.
Proof.
  intros Hp Hn ->. pose proof (proj2 (Hp (Z.of_nat n) id)) as H. rewrite Nat2Z.id, lookup_empty in H.
  discriminate H. split; [lia|done].
Qed.

Lemma replace_active_path_Ok db db' c id n l0 : messages_ok (chats db) (messages db) -> on_path (path_of c db) l0 ->
  replace_active_path c id db = (db', Ok n) ->
  exists P' l k, db' = set_active_path P' db /\ n = len l /\ l !! k = Some id /\ len l = Z.of_nat k + 1 /\
    line_ok (messages db) c l /\ path_moved c l (active_path db) P'.
Proof.
  intros Hok Hp Hr. assert (Hm : exists m, messages db !! id = Some m /\ sm_chat m = c /\ sm_depth m <= MAX_BRANCH_DEPTH).
  { unfold replace_active_path in Hr. st_inv1 Hr. apply message_depth_Ok in Hs as (_ & m & ? & ? & -> & ?). eauto. }
  destruct Hm as (m & Hm & Hc & Hd). destruct (mo_row _ _ Hok _ _ Hm) as (_ & Hck & _).
  apply message_depth_check in Hck as [[H0 _] _].
  destruct (replace_active_path_run db c id m l0 Hok Hp Hm Hc Hd) as (P' & l & Hrun & Hlen & Hlast & Hl & Hmv).
  rewrite Hrun in Hr. injection Hr as <- <-. exists P', l, (Z.to_nat (sm_depth m)). split_and!; try done. lia.
Qed.

(** The invariant while messages are added to a chat whose path, [l], may still be short
    of them. *)
Record open_ok (c : str) (l : list str) (db : Db) : Prop := {
  op_chats : chats_ok (chats db);
  op_messages : messages_ok (chats db) (messages db);
  op_requests : requests_ok (chats db) (messages db) (requests db);
  op_cache : cache_ok (messages db) (render_cache db);
  op_path : on_path (path_of c db) l;
  op_line : line_ok (messages db) c l;
  op_lines c' : c' <> c -> exists l', on_path (path_of c' db) l' /\ line_ok (messages db) c' l';
  op_total k m : messages db !! k = Some m -> sm_chat m <> c -> path_of (sm_chat m) db <> ∅;
}.

Lemma db_ok_open c db : db_ok db -> exists l, open_ok c l db.
Proof.
  intros [Hc Hm [Hl Ht] Hr Hk]. destruct (Hl c) as (l & ? & ?). exists l. split; try done.
  - intros c' _. apply Hl.
  - intros k m Hm' _. by eapply Ht.
Qed.

Lemma open_ok_close c l n id db : open_ok c l db -> l !! n = Some id -> db_ok db.
Proof.
  intros [Hc Hm Hr Hk Hp Hl Hls Ht] Hn. split; try done. split.
  - intros c'. destruct (decide (c' = c)) as [->|Hne]; [by exists l|by apply Hls].
  - intros k m Hm'. destruct (decide (sm_chat m = c)) as [->|Hne]; [by eapply on_path_nonempty|by eapply Ht].
Qed.

Lemma requests_ok_new_message C M R k m : M !! k = None -> requests_ok C M R -> requests_ok C (<[k := m]> M) R.
Proof.
  intros Hk [Hr Hp Ho Hg]. pose proof (keeps_shape_insert M k m Hk) as Hs. split; try done.
  - intros j r (? & ? & ? & ? & ?)%Hr. split_and!; try done; by eapply message_of_shape.
  - intros j r Hj Hrun. destruct (Hp j r Hj Hrun) as (q & Hq & ? & ?). exists q.
    rewrite lookup_insert_ne by congruence. done.
Qed.

Lemma open_ok_message c l entity m db db' : open_ok c l db -> sm_chat m = c -> insert_message entity m db = Ok db' ->
  open_ok c l db' /\ messages db' = <[sm_id m := m]> (messages db) /\ messages db !! sm_id m = None /\
  active_path db' = active_path db.
Proof.
  intros [Hc Hm Hr Hk Hp Hl Hls Ht] Hch (-> & Hck & Hnew & Hu & Hchat & Hpar)%insert_message_Ok.
  pose proof (keeps_shape_insert (messages db) (sm_id m) m Hnew) as Hshape.
  split_and!; [split; cbn; try done| done..].
  - by apply messages_ok_insert.
  - by apply requests_ok_new_message.
  - by eapply cache_ok_shape.
  - by eapply line_ok_shape.
  - intros c' Hne. destruct (Hls c' Hne) as (l' & ? & ?). exists l'. split; [done|by eapply line_ok_shape].
  - intros k q. destruct (decide (sm_id m = k)) as [<-|Hne].
    + rewrite lookup_insert_eq. by intros [= <-].
    + rewrite lookup_insert_ne by done. apply Ht.
Qed.

Lemma insert_path_Ok c pos id db db' : insert_path c pos id db = Ok db' ->
  db' = set_active_path (<[c := <[pos := id]> (path_of c db)]> (active_path db)) db.
Proof. unfold insert_path. intros H. ok_inv H. done. Qed.

Lemma open_ok_moved c l l' P' db : open_ok c l db -> line_ok (messages db) c l' -> path_moved c l' (active_path db) P' ->
  open_ok c l' (set_active_path P' db).
Proof.
  intros [Hc Hm Hr Hk Hp Hl Hls Ht] Hl' [Hp' Ho]. split; try done.
  - intros c' Hne. destruct (Hls c' Hne) as (l2 & ? & ?). exists l2. split; [|done].
    unfold path_of. cbn. fold (path_in P' c'). by rewrite Ho.
  - intros k m Hm' Hne. unfold path_of. cbn. fold (path_in P' (sm_chat m)). rewrite Ho by done. by eapply Ht.
Qed.

Lemma open_ok_path c l id pos db db' : open_ok c l db -> insert_path c pos id db = Ok db' -> pos = len l ->
  line_ok (messages db) c (l ++ [id]) -> open_ok c (l ++ [id]) db'.
Proof.
  intros Hok ->%insert_path_Ok -> Hl. eapply open_ok_moved; [done..|]. split.
  - rewrite path_in_insert. apply on_path_snoc, Hok.
  - intros c' Hne. by apply path_in_insert_ne.
Qed.

Lemma open_ok_replace c l id n db db' : open_ok c l db -> replace_active_path c id db = (db', Ok n) -> db_ok db'.
Proof.
  intros Hok Hr. eapply replace_active_path_Ok in Hr as (P' & l' & k & -> & _ & Hk & _ & Hl & Hmv); [|apply Hok..].
  eapply open_ok_close; [by eapply open_ok_moved|done].
Qed.

Lemma select_active_path_ok input db db' s : db_ok db -> select_active_path input db = (db', Ok s) -> db_ok db'.
Proof.
  intros Hok H. unfold select_active_path in H. st_inv H. same_state.
  destruct (db_ok_open (sp_chat input) db Hok) as (l & Ho). eapply touch_chat_ok; [done|]. by eapply open_ok_replace.
Qed.

Lemma append_branch_message_ok id input db db' a : db_ok db -> append_branch_message id input db = (db', Ok a) -> db_ok db'.
Proof.
  intros Hok H. unfold append_branch_message in H. st_inv H. same_state.
  destruct (db_ok_open (ab_chat input) db Hok) as (l & Ho). eapply touch_chat_ok; [done|]. eapply open_ok_replace; [|done].
  eapply open_ok_message; [done| |done]. done.
Qed.

(** The leaf of the active path is the last message of its line. *)
Lemma current_active_leaf_Ok c l db db' leaf : messages_ok (chats db) (messages db) -> on_path (path_of c db) l ->
  line_ok (messages db) c l -> current_active_leaf c db = (db', Ok leaf) ->
  (l = [] /\ leaf = None) \/ exists l' id, l = l' ++ [id] /\ leaf = Some (id, len l').
Proof.
  intros Hok Hp Hl H. unfold current_active_leaf in H. st_inv H. rewrite (path_rows_numbered _ _ l) in H by done.
  destruct l as [|id l _] using rev_ind; [left; split; [done|by injection H]|]. right. exists l, id. split; [done|].
  destruct (Hl (length l) id) as (m & Hm & _ & Hd & _); [by apply list_lookup_middle|].
  destruct (mo_row _ _ Hok _ _ Hm) as (Hi & _).
  rewrite (line_messages_snoc _ _ _ m), numbered_snoc, reverse_snoc in H by done. cbn [head fst snd] in H.
  apply transpose_Ok in H as ([i d] & Hr & ->). unfold MessageId_parse, parse_id, decode_u64 in Hr.
  cbn [fst snd] in Hr. rewrite Hi, Hd in Hr. apply bind_Ok in Hr as (i' & Hi' & Hr). apply bind_Ok in Hr as (d' & Hd' & Hr).
  ok_inv Hi'. ok_inv Hd'. apply Ok_inj in Hr. unfold len in *. congruence.
Qed.

Lemma insert_request_Ok r db db' : insert_request r db = Ok db' ->
  db' = set_requests (<[rs_id r := r]> (requests db)) db /\ request_check r = true /\ requests db !! rs_id r = None /\
  (forall k q, requests db !! k = Some q -> rs_generation q <> rs_generation r) /\
  (is_running r = true -> forall k q, requests db !! k = Some q -> rs_chat q = rs_chat r -> is_running q = false) /\
  is_Some (chats db !! rs_chat r) /\ message_of (rs_chat r) (rs_user r) (messages db) = true /\
  message_of (rs_chat r) (rs_assistant r) (messages db) = true.
Proof.
  unfold insert_request. intros H. ok_inv H. subst db'. zify_bool.
  destruct (requests db !! rs_id r); [done|]. destruct (chats db !! rs_chat r); [|done]. split_and!; try done.
  - intros k q Hq He. match goal with Hx : existsb _ _ = false |- _ => rewrite existsb_rows in Hx; specialize (Hx k q Hq) end.
    by rewrite bool_decide_eq_true_2 in *.
  - intros Hrun k q Hq Hc. match goal with Hx : is_running r && _ = false |- _ => rewrite Hrun in Hx; cbn in Hx end.
    unfold running_in in *. match goal with Hx : existsb _ _ = false |- _ => rewrite existsb_rows in Hx; specialize (Hx k q Hq) end.
    rewrite bool_decide_eq_true_2 in * by done. done.
Qed.

Lemma requests_ok_insert C M R r : requests_ok C M R -> request_check r = true -> R !! rs_id r = None ->
  (forall k q, R !! k = Some q -> rs_generation q <> rs_generation r) ->
  (is_running r = true -> forall k q, R !! k = Some q -> rs_chat q = rs_chat r -> is_running q = false) ->
  is_Some (C !! rs_chat r) -> message_of (rs_chat r) (rs_user r) M = true ->
  message_of (rs_chat r) (rs_assistant r) M = true -> (is_running r = true -> partial_assistant M r) ->
  requests_ok C M (<[rs_id r := r]> R).
Proof.
  intros [Hr Hp Ho Hg] Hck Hn Hgen Hrun Hc Hu Ha Hpart. split.
  - intros k q. destruct (decide (rs_id r = k)) as [<-|].
    + rewrite lookup_insert_eq. by intros [= <-].
    + rewrite lookup_insert_ne by done. apply Hr.
  - intros k q. destruct (decide (rs_id r = k)) as [<-|].
    + rewrite lookup_insert_eq. by intros [= <-].
    + rewrite lookup_insert_ne by done. apply Hp.
  - intros k1 k2 q1 q2. destruct (decide (rs_id r = k1)) as [<-|], (decide (rs_id r = k2)) as [<-|];
      rewrite ?lookup_insert_eq, ?lookup_insert_ne by done; try done; [| |by apply Ho].
    + intros [= <-] H2 R1 R2 Hcc. rewrite (Hrun R1 _ _ H2) in R2; done.
    + intros H1 [= <-] R1 R2 Hcc. rewrite (Hrun R2 _ _ H1) in R1; done.
  - intros k1 k2 q1 q2. destruct (decide (rs_id r = k1)) as [<-|], (decide (rs_id r = k2)) as [<-|];
      rewrite ?lookup_insert_eq, ?lookup_insert_ne by done; try done; [| |by apply Hg].
    + intros [= <-] H2 Hcc. by destruct (Hgen _ _ H2).
    + intros H1 [= <-] Hcc. by destruct (Hgen _ _ H1).
Qed.

Lemma open_ok_request c l r db db' : open_ok c l db -> insert_request r db = Ok db' ->
  (is_running r = true -> partial_assistant (messages db) r) -> open_ok c l db'.
Proof.
  intros [Hc Hm Hr Hk Hp Hl Hls Ht] (-> & ? & ? & ? & ? & ? & ? & ?)%insert_request_Ok Hpart.
  split; cbn; try done. by apply requests_ok_insert.
Qed.

(** A turn adds two messages at the end of the active path. *)
Lemma begin_turn_Ok rid uid aid input db db' t : db_ok db -> begin_turn rid uid aid input db = (db', Ok t) ->
  exists l db1, on_path (path_of (bt_chat input) db) l /\ open_ok (bt_chat input) ((l ++ [uid]) ++ [aid]) db1 /\
    touch_chat (bt_chat input) (bt_started input) db1 = Ok db' /\
    (exists r, requests db1 !! rid = Some r /\ is_running r = true /\ rs_chat r = bt_chat input /\ rs_assistant r = aid).
Proof.
  intros Hok H. unfold begin_turn in H. st_inv H. same_state.
  destruct (db_ok_open (bt_chat input) db Hok) as (l & Ho). exists l.
  assert (Hleaf : x9 = len l /\ fst <$> x7 = previous (l ++ [uid]) (length l)).
  { apply (current_active_leaf_Ok _ l) in Hs7 as [[-> ->]|(l' & id & -> & ->)]; try apply Ho.
    - split; [by injection Hs9 as <-|done].
    - apply ok_or_Ok, checked_add_Some in Hs9 as [-> _]. unfold len. rewrite length_app. split; [cbn; lia|].
      cbn. rewrite Nat.add_comm. cbn. rewrite <- app_assoc. symmetry. by apply list_lookup_middle. }
  destruct Hleaf as [-> Hpar]. apply checked_add_Some in Hs10 as [-> _].
  eapply open_ok_message in Hs15 as (Ho1 & HM1 & Hn1 & _); [|done|done]. cbn [sm_id] in HM1, Hn1.
  assert (Hl1 : line_ok (messages db2) (bt_chat input) (l ++ [uid])).
  { eapply line_ok_snoc; [apply Ho1|by rewrite HM1, lookup_insert_eq|done..]. }
  eapply open_ok_message in Hs17 as (Ho2 & HM2 & Hn2 & _); [|done|done]. cbn [sm_id] in HM2, Hn2.
  assert (Hl2 : line_ok (messages db3) (bt_chat input) (l ++ [uid])).
  { eapply line_ok_shape; [|exact Hl1]. rewrite HM2. by apply keeps_shape_insert. }
  assert (Hl3 : line_ok (messages db3) (bt_chat input) ((l ++ [uid]) ++ [aid])).
  { eapply line_ok_snoc; [exact Hl2|by rewrite HM2, lookup_insert_eq|done| |].
    - cbn. unfold len. rewrite length_app. cbn. lia.
    - cbn. rewrite length_app, Nat.add_comm. cbn. rewrite <- app_assoc. symmetry. by apply list_lookup_middle. }
  pose proof (open_ok_path _ _ _ _ _ _ Ho2 Hs18 eq_refl Hl2) as Ho3.
  assert (HM4 : messages db4 = messages db3) by (by apply insert_path_Ok in Hs18 as ->).
  assert (HM5 : messages db5 = messages db3) by (apply insert_path_Ok in Hs19 as ->; exact HM4).
  assert (Ho4 : open_ok (bt_chat input) ((l ++ [uid]) ++ [aid]) db5).
  { eapply open_ok_path; [exact Ho3|exact Hs19| |by rewrite HM4]. unfold len. rewrite length_app. cbn. lia. }
  exists db6. split_and!; [apply Ho| |done|].
  - eapply open_ok_request; [done|done|]. intros _. rewrite HM5, HM2. eexists. rewrite lookup_insert_eq. by split_and!.
  - apply insert_request_Ok in Hs20 as [-> _]. eexists. cbn. rewrite lookup_insert_eq. by split_and!.
Qed.

Lemma begin_turn_ok rid uid aid input db db' t : db_ok db -> begin_turn rid uid aid input db = (db', Ok t) -> db_ok db'.
Proof.
  intros Hok (l & db1 & _ & Ho & Ht & _)%begin_turn_Ok; [|done]. eapply touch_chat_ok; [done|].
  eapply open_ok_close; [done|]. by apply list_lookup_middle.
Qed.

Lemma create_chat_ok id input db db' c : db_ok db -> create_chat id input db = (db', Ok c) -> db_ok db'.
Proof.
  intros Hok H. unfold create_chat in H. st_inv H. ok_inv Hs0. subst. zify_bool. apply db_ok_chats; [apply grows_insert| |done].
  intros k q. destruct (decide (id = k)) as [<-|].
  - rewrite lookup_insert_eq. by intros [= <-].
  - rewrite lookup_insert_ne by done. apply Hok.
Qed.

Lemma rename_chat_ok id expected title at_ms db db' c : db_ok db -> rename_chat id expected title at_ms db = (db', Ok c) -> db_ok db'.
Proof.
  intros Hok H. unfold rename_chat in H. st_inv H. destruct (chats db !! id) as [q|] eqn:Hq; [|done].
  destruct (ch_revision q =? _); [|done]. st_inv H. ok_inv Hs2. subst.
  apply db_ok_chats; [apply grows_insert| |done]. intros k q'. destruct (decide (id = k)) as [<-|].
  - rewrite lookup_insert_eq. intros [= <-]. split; [|done]. by destruct (ok_chats _ Hok _ _ Hq).
  - rewrite lookup_insert_ne by done. apply Hok.
Qed.

(** What stays when a chat is deleted. *)
Lemma kept_message (M : gmap str StoredMessage) c k m :
  filter (fun row : str * StoredMessage => sm_chat row.2 <> c) M !! k = Some m <-> M !! k = Some m /\ sm_chat m <> c.
Proof. apply map_lookup_filter_Some. Qed.

Lemma kept_lookup (M : gmap str StoredMessage) c k m : M !! k = Some m -> sm_chat m <> c ->
  filter (fun row : str * StoredMessage => sm_chat row.2 <> c) M !! k = Some m.
Proof. intros. by apply kept_message. Qed.

Lemma messages_ok_delete C M c : messages_ok C M ->
  messages_ok (delete c C) (filter (fun row : str * StoredMessage => sm_chat row.2 <> c) M).
Proof.
  intros [Hr Ho Hs]. split.
  - intros k m [Hm Hne]%kept_message. destruct (Hr k m Hm) as (? & ? & ? & Hp). rewrite lookup_delete_ne by done.
    split_and!; try done. revert Hp. unfold parent_ok. destruct (sm_parent m) as [p|]; [|done]. cbn [opt_all].
    destruct (M !! p) as [q|] eqn:Hq; [|done]. destruct (in_chat (sm_chat m) q) eqn:Hc; [|done].
    rewrite (kept_lookup M c p q Hq), Hc; [done|]. apply in_chat_true in Hc. congruence.
  - intros k1 k2 m1 m2 [? ?]%kept_message [? ?]%kept_message. by apply Ho.
  - intros k1 k2 m1 m2 [? ?]%kept_message [? ?]%kept_message. by apply Hs.
Qed.

Lemma message_of_kept M c c' id : c' <> c -> message_of c' id M = true ->
  message_of c' id (filter (fun row : str * StoredMessage => sm_chat row.2 <> c) M) = true.
Proof.
  intros Hne. unfold message_of. destruct (M !! id) as [m|] eqn:Hm; [|done]. intros Hc.
  rewrite (kept_lookup M c id m Hm); [done|]. apply in_chat_true in Hc. congruence.
Qed.

Lemma requests_ok_delete C M R c : requests_ok C M R ->
  requests_ok (delete c C) (filter (fun row : str * StoredMessage => sm_chat row.2 <> c) M)
    (filter (fun row : str * RequestState => rs_chat row.2 <> c) R).
Proof.
  intros [Hr Hp Ho Hg]. split.
  - intros k r [Hk Hne]%map_lookup_filter_Some. cbn in Hne. destruct (Hr k r Hk) as (? & ? & ? & ? & ?).
    rewrite lookup_delete_ne by done. split_and!; try done; by apply message_of_kept.
  - intros k r [Hk Hne]%map_lookup_filter_Some Hrun. cbn in Hne. destruct (Hp k r Hk Hrun) as (m & Hm & ? & ?).
    exists m. split; [|done]. apply kept_lookup; [done|]. destruct (Hr k r Hk) as (_ & _ & _ & _ & Ha).
    unfold message_of in Ha. rewrite Hm in Ha. apply in_chat_true in Ha. congruence.
  - intros k1 k2 r1 r2 [? ?]%map_lookup_filter_Some [? ?]%map_lookup_filter_Some. by apply Ho.
  - intros k1 k2 r1 r2 [? ?]%map_lookup_filter_Some [? ?]%map_lookup_filter_Some. by apply Hg.
Qed.

Lemma paths_ok_delete M P c : paths_ok M P ->
  paths_ok (filter (fun row : str * StoredMessage => sm_chat row.2 <> c) M) (delete c P).
Proof.
  intros [Hl Ht]. split.
  - intros c'. destruct (decide (c' = c)) as [->|Hne].
    + exists []. unfold path_in. rewrite lookup_delete_eq. split; [|by intros n id; rewrite lookup_nil].
      intros i id. cbn. rewrite lookup_empty, lookup_nil. naive_solver.
    + destruct (Hl c') as (l & Hp & Hline). exists l. unfold path_in. rewrite lookup_delete_ne by done. split; [done|].
      intros n id Hn. destruct (Hline n id Hn) as (m & Hm & Hc & ? & ?). exists m. split_and!; try done.
      apply kept_lookup; [done|congruence].
  - intros k m [Hm Hne]%kept_message. unfold path_in. rewrite lookup_delete_ne by done. by eapply Ht.
Qed.

Lemma delete_chat_ok c db db' u : db_ok db -> delete_chat c db = (db', Ok u) -> db_ok db'.
Proof.
  intros Hok H. unfold delete_chat in H. st_inv H. same_state. destruct Hok as [Hc Hm Hp Hr Hk]. split; cbn.
  - intros k q [Hne Hq]%lookup_delete_Some. by apply Hc.
  - by apply messages_ok_delete.
  - by apply paths_ok_delete.
  - by apply requests_ok_delete.
  - intros k e [He Hkept]%map_lookup_filter_Some. by destruct (Hk k e He) as (_ & ? & ?).
Qed.

(** ** Recovery *)

Lemma all_rows_lookup {A} (ok : A -> bool) (t : gmap str A) k x : all_rows ok t = true -> t !! k = Some x -> ok x = true.
Proof.
  unfold all_rows. rewrite forallb_forall. intros H Hk. apply H, list_elem_of_In, list_elem_of_fmap.
  exists (k, x). split; [done|]. by apply elem_of_map_to_list.
Qed.

Lemma recover_Ok at_ms db db' n : recover_interrupted_requests at_ms db = (db', Ok n) ->
  db' = recover_rows at_ms db /\ n = len (running_rows db) /\ all_rows chat_check (chats db') = true /\
  all_rows message_check (messages db') = true /\ all_rows request_check (requests db') = true.
Proof. unfold recover_interrupted_requests. intros H. st_inv H. ok_inv Hs. subst. by zify_bool. Qed.

Lemma recovered_request at_ms db k r : requests (recover_rows at_ms db) !! k = Some r ->
  exists q, requests db !! k = Some q /\ r = (if is_running q then interrupted at_ms q else q) /\ is_running r = false.
Proof.
  cbn. rewrite lookup_fmap. destruct (requests db !! k) as [q|]; [|done]. intros [= <-]. exists q. split_and!; try done.
  by destruct (is_running q) eqn:E.
Qed.

Lemma recovered_message at_ms db k m : messages (recover_rows at_ms db) !! k = Some m ->
  exists q, messages db !! k = Some q /\ (m = q \/ m = with_recovered at_ms q).
Proof.
  cbn. rewrite map_lookup_imap. destruct (messages db !! k) as [q|]; [|done]. cbn. intros [= <-]. exists q.
  split; [done|]. destruct (existsb _ _); auto.
Qed.

Lemma recovered_chat at_ms db k c : chats (recover_rows at_ms db) !! k = Some c ->
  exists q, chats db !! k = Some q /\ ch_id c = ch_id q.
Proof.
  cbn. rewrite map_lookup_imap. destruct (chats db !! k) as [q|]; [|done]. cbn. intros [= <-]. exists q.
  split; [done|]. by destruct (existsb _ _).
Qed.

Lemma recover_grows at_ms db : grows (chats db) (chats (recover_rows at_ms db)).
Proof. intros k [c Hc]. cbn. rewrite map_lookup_imap, Hc. cbn. eauto. Qed.

Lemma recover_places at_ms db : all_rows message_check (messages (recover_rows at_ms db)) = true ->
  places_kept (messages db) (messages (recover_rows at_ms db)).
Proof.
  intros Hall k. destruct (messages (recover_rows at_ms db) !! k) as [m|] eqn:Hm.
  - pose proof (all_rows_lookup _ _ _ _ Hall Hm) as Hck. destruct (recovered_message _ _ _ _ Hm) as (q & -> & Hq).
    split; [|done]. by destruct Hq as [-> | ->]; unfold same_place.
  - cbn in Hm. rewrite map_lookup_imap in Hm. by destruct (messages db !! k).
Qed.

Lemma recover_requests_ok at_ms db db' n : db_ok db -> recover_interrupted_requests at_ms db = (db', Ok n) -> db_ok db'.
Proof.
  intros [Hc Hm Hp [Hr _ Ho Hg] Hk] (-> & _ & Ac & Am & Ar)%recover_Ok.
  pose proof (recover_places _ _ Am) as Hpl. pose proof (places_kept_shape _ _ Hpl) as Hsh.
  pose proof (recover_grows at_ms db) as Hgr. split.
  - intros k c H. destruct (recovered_chat _ _ _ _ H) as (q & Hq & ->). destruct (Hc _ _ Hq). split; [done|].
    by eapply all_rows_lookup in Ac.
  - eapply messages_ok_grows; [done|]. by eapply messages_ok_update.
  - by eapply paths_ok_update.
  - split.
    + intros k r H. pose proof (all_rows_lookup _ _ _ _ Ar H) as Hck. destruct (recovered_request _ _ _ _ H) as (q & Hq & -> & _).
      destruct (Hr k q Hq) as (? & ? & ? & ? & ?). destruct (is_running q); cbn [interrupted rs_id rs_chat rs_user rs_assistant];
        (split_and!; [done|done|by apply Hgr|by eapply message_of_shape|by eapply message_of_shape]).
    + intros k r H Hrun. destruct (recovered_request _ _ _ _ H) as (q & _ & _ & Hn). congruence.
    + intros k1 k2 r1 r2 H1 _ Hrun. destruct (recovered_request _ _ _ _ H1) as (q & _ & _ & Hn). congruence.
    + intros k1 k2 r1 r2 H1 H2 He. destruct (recovered_request _ _ _ _ H1) as (q1 & Hq1 & -> & _).
      destruct (recovered_request _ _ _ _ H2) as (q2 & Hq2 & -> & _). eapply (Hg k1 k2); [done..|].
      by destruct (is_running q1), (is_running q2).
  - by eapply cache_ok_shape.
Qed.

(** ** The cache of rendered messages *)

Lemma cache_ok_put M K c : cache_ok M K -> is_Some (M !! cr_message c) -> cache_check c = true ->
  cache_ok M (<[cr_message c := c]> K).
Proof.
  intros Hk Hm Hc k e. destruct (decide (cr_message c = k)) as [<-|].
  - rewrite lookup_insert_eq. by intros [= <-].
  - rewrite lookup_insert_ne by done. apply Hk.
Qed.

Lemma db_ok_cache K db : cache_ok (messages db) K -> db_ok db -> db_ok (set_render_cache K db).
Proof. intros Hk [? ? ? ? ?]. by split. Qed.

Lemma put_render_cache_ok input db db' c : db_ok db -> put_render_cache input db = (db', Ok c) -> db_ok db'.
Proof.
  intros Hok H. unfold put_render_cache in H. st_inv H.
  assert (Hput : cache_check (mkCachedRender (pc_message input) (pc_version input) (pc_html input) (pc_at input)) = true ->
    db_ok (set_render_cache (<[pc_message input := mkCachedRender (pc_message input) (pc_version input) (pc_html input) (pc_at input)]> (render_cache db)) db)).
  { intros Hck. apply db_ok_cache; [|done]. apply (cache_ok_put _ _ (mkCachedRender _ _ _ _)); [apply Hok|cbn; eauto|done]. }
  destruct (pc_expected input) as [expected|].
  - repeat st_inv1 Hs3. destruct (render_cache db !! pc_message input) as [cur|]; [|done].
    destruct (_ && _); [|done]. step_inv Hs3. ok_inv Hs3. subst. by apply Hput.
  - repeat st_inv1 Hs3. step_inv Hs3. ok_inv Hs3. subst. by apply Hput.
Qed.

Lemma get_render_cache_ok id version touched db db' c : db_ok db -> get_render_cache id version touched db = (db', Ok c) -> db_ok db'.
Proof.
  intros Hok H. unfold get_render_cache in H. repeat st_inv1 H.
  destruct (render_cache db !! id) as [e|] eqn:He; [|by step_inv H]. destruct (cr_version e =? _); [|by step_inv H].
  st_inv H. ok_inv Hs3. subst. apply db_ok_cache; [|done].
  apply (cache_ok_put _ _ (mkCachedRender _ _ _ _)); [apply Hok| |done]. cbn. by destruct (messages db !! id).
Qed.

Lemma evict_render_cache_ok input db db' e : db_ok db -> evict_render_cache input db = (db', Ok e) -> db_ok db'.
Proof.
  intros Hok H. unfold evict_render_cache in H. st_inv H. apply db_ok_cache; [|done].
  intros k c [Hc _]%map_lookup_filter_Some. by apply Hok.
Qed.

Lemma save_preferences_ok u db db' p : db_ok db -> save_preferences u db = (db', Ok p) -> db_ok db'.
Proof.
  intros Hok H. unfold save_preferences in H. repeat st_inv1 H. destruct (settings db) as [old|]; [|done].
  destruct (ap_revision old =? _); [|done]. st_inv H. by destruct Hok.
Qed.

(** ** Histories *)

(** A call to the store, with the identifiers it draws; [OpOpen] is the recovery that runs
    when the store is opened again. *)
Inductive StoreOp : Type :=
  | OpOpen (at_ms : Z)
  | OpCreateChat (id : str) (input : CreateChat)
  | OpGetChat (id : str)
  | OpRenameChat (id : str) (revision : Z) (title : str) (at_ms : Z)
  | OpDeleteChat (id : str)
  | OpListChats (limit : Z) (before : option ChatCursor)
  | OpBeginTurn (request_id user_id assistant_id : str) (input : BeginTurn)
  | OpRecordDelivery (c : DeliveryCheckpoint)
  | OpAcknowledge (c : CumulativeAck)
  | OpCheckpoint (c : ResponseCheckpoint)
  | OpFinishTurn (c : ResponseCheckpoint) (outcome : TerminalOutcome)
  | OpGetRequest (id : str)
  | OpAppend (message_id : str) (input : AppendBranchMessage)
  | OpSelectPath (input : SelectActivePath)
  | OpLoadMessages (chat_id : str) (after : option Z) (limit : Z)
  | OpLoadRecent (chat_id : str) (before : option MessageOrdinalCursor) (limit : Z)
  | OpLoadPath (chat_id : str) (after : option Z) (limit : Z)
  | OpLoadChildren (chat_id : str) (parent : option str) (after : option BranchCursor) (limit : Z)
  | OpLoadTimeline (chat_id : str) (after : option MessageTimelineCursor) (limit : Z)
  | OpPutCache (input : PutRenderCache)
  | OpGetCache (message_id : str) (version touched_at : Z)
  | OpEvictCache (input : EvictRenderCache)
  | OpLoadPreferences
  | OpSavePreferences (u : UpdatePreferences).

Definition void {A} (m : StoreM A) : StoreM unit := _ ← m; mret tt.

Definition exec (op : StoreOp) : StoreM unit :=
  match op with
  | OpOpen at_ms => void (recover_interrupted_requests at_ms)
  | OpCreateChat id input => void (create_chat id input)
  | OpGetChat id => void (get_chat id)
  | OpRenameChat id revision title at_ms => void (rename_chat id revision title at_ms)
  | OpDeleteChat id => delete_chat id
  | OpListChats limit before => void (list_chats limit before)
  | OpBeginTurn r u a input => void (begin_turn r u a input)
  | OpRecordDelivery c => void (record_response_delivery c)
  | OpAcknowledge c => void (acknowledge_response c)
  | OpCheckpoint c => void (checkpoint_response c)
  | OpFinishTurn c outcome => void (finish_turn c outcome)
  | OpGetRequest id => void (get_request_state id)
  | OpAppend id input => void (append_branch_message id input)
  | OpSelectPath input => void (select_active_path input)
  | OpLoadMessages c after limit => void (load_messages c after limit)
  | OpLoadRecent c before limit => void (load_recent_messages c before limit)
  | OpLoadPath c after limit => void (load_active_path c after limit)
  | OpLoadChildren c parent after limit => void (load_branch_children c parent after limit)
  | OpLoadTimeline c after limit => void (load_message_timeline c after limit)
  | OpPutCache input => void (put_render_cache input)
  | OpGetCache id version touched => void (get_render_cache id version touched)
  | OpEvictCache input => void (evict_render_cache input)
  | OpLoadPreferences => void load_preferences
  | OpSavePreferences u => void (save_preferences u)
  end.

(** The tables after a history of calls, failed ones included. *)
Definition run_history (ops : list StoreOp) (db : Db) : Db := foldl (fun db op => (exec op db).1) db ops.

#[export] Instance void_reads {A} (m : StoreM A) : Reads m -> Reads (void m).
Proof. intros ?. unfold void. apply _. Qed.

#[export] Instance void_atomic {A} (m : StoreM A) : Atomic m -> Atomic (void m).
Proof. intros ?. unfold void. apply _. Qed.

Lemma void_Ok {A} (m : StoreM A) db db' u : void m db = (db', Ok u) -> exists a, m db = (db', Ok a).
Proof. unfold void. intros H. st_inv H. eauto. Qed.

(** A call that fails leaves the tables as they were. *)
#[export] Instance exec_atomic op : Atomic (exec op).
Proof.
  destruct op; cbn [exec]; unfold recover_interrupted_requests, create_chat, get_chat, rename_chat, delete_chat, list_chats,
    begin_turn, record_response_delivery, acknowledge_response, checkpoint_response, finish_turn, get_request_state,
    append_branch_message, select_active_path, load_messages, load_recent_messages, resolve_cursor, load_active_path,
    load_branch_children, load_message_timeline, put_render_cache, get_render_cache, evict_render_cache,
    load_preferences, save_preferences; try apply _.
Qed.

Lemma exec_ok op db db' u : db_ok db -> exec op db = (db', Ok u) -> db_ok db'.
Proof.
  intros Hok. destruct op; cbn [exec]; intros H; try (apply void_Ok in H as (a & H)).
  all: first
    [ by eapply recover_requests_ok | by eapply create_chat_ok | by eapply rename_chat_ok | by eapply delete_chat_ok
    | by eapply begin_turn_ok | by eapply delivery_ok | by eapply acknowledge_ok
    | by eapply append_branch_message_ok | by eapply select_active_path_ok | by eapply put_render_cache_ok
    | by eapply get_render_cache_ok | by eapply evict_render_cache_ok | by eapply save_preferences_ok
    | (unfold checkpoint_response in H; apply transaction_Ok in H; by eapply progress_ok)
    | (unfold finish_turn in H; st_inv H; by eapply progress_ok)
    | idtac ].
  all: unfold get_chat, list_chats, get_request_state, load_messages, load_recent_messages, resolve_cursor, load_active_path,
    load_branch_children, load_message_timeline, load_preferences in H; apply reads_Ok in H; [by subst|apply _].
Qed.

Lemma run_history_ok ops db : db_ok db -> db_ok (run_history ops db).
Proof.
  revert db. induction ops as [|op ops IH]; intros db Hok; [done|]. cbn. apply IH.
  destruct (exec op db) as [db' [u|e]] eqn:E; cbn; [by eapply exec_ok|]. apply (atomic (m := exec op)) in E. by subst.
Qed.

(** ** The checks of [migration.rs] on the rows *)

Lemma forallb_lookup {A} (p : A -> bool) l : (forall n x, l !! n = Some x -> p x = true) -> forallb p l = true.
Proof. intros H. apply forallb_forall. intros x (n & Hn)%list_elem_of_In%list_elem_of_lookup. eauto. Qed.

Lemma existsb_lookup_false {A} (p : A -> bool) l : (forall n x, l !! n = Some x -> p x = false) -> existsb p l = false.
Proof.
  intros H. apply existsb_false_Forall, list.Forall_forall. intros x (n & Hn)%list_elem_of_lookup. eauto.
Qed.

Lemma branch_row_good db k m : db_ok db -> messages db !! k = Some m -> branch_row_bad db m = false.
Proof.
  intros Hok Hm. destruct (mo_row _ _ (ok_messages _ Hok) _ _ Hm) as (_ & Hck & _ & Hp).
  pose proof (message_depth_check _ Hck) as [[H0 _] Hroot]. unfold branch_row_bad. apply orb_false_iff. split.
  - unfold parent_ok in Hp. destruct (sm_parent m) as [p|]; cbn [opt_all] in Hp.
    + destruct (messages db !! p); [by rewrite Hp|done].
    + apply negb_false_iff, Z.eqb_eq. by apply Hroot.
  - unfold message_check in Hck. zify_bool. destruct (sm_status m), (sm_completed m); done.
Qed.

Lemma path_row_good db c l n m : on_path (path_of c db) l -> line_ok (messages db) c l ->
  numbered (line_messages (messages db) l) !! n = Some m -> path_row_bad db c m = false.
Proof.
  intros Hp Hl. rewrite numbered_lookup, (line_messages_lookup _ c) by done. destruct (l !! n) as [id|] eqn:Hn; [|done]. cbn.
  destruct (Hl n id Hn) as (q & Hq & _ & Hd & Hpar). rewrite Hq. intros [= <-].
  unfold path_row_bad. cbn [fst snd]. rewrite Hd, Z.eqb_refl, Hpar. destruct n as [|n]; [done|].
  destruct (lookup_lt_is_Some_2 l n) as [prev Hprev]; [apply lookup_lt_Some in Hn; lia|]. cbn [previous]. rewrite Hprev.
  assert (Hpp : path_of c db !! (Z.of_nat (S n) - 1) = Some prev).
  { apply Hp. split; [lia|]. by replace (Z.to_nat (Z.of_nat (S n) - 1)) with n by lia. }
  rewrite Hpp, bool_decide_eq_true_2 by done. cbn [negb orb is_some]. rewrite !andb_false_r, andb_true_r.
  rewrite (proj2 (Z.eqb_neq _ _)) by lia. done.
Qed.

Lemma map_fst_numbered {A} (l : list A) : map fst (numbered l) = map Z.of_nat (seq 0 (length l)).
Proof.
  induction l as [|x l IH] using rev_ind; [done|]. rewrite numbered_snoc, !map_app, IH, length_app, seq_app, map_app.
  done.
Qed.

Lemma path_has_no_gap p l : on_path p l -> path_has_gap p = false.
Proof.
  intros Hp. unfold path_has_gap. set (ps := map fst (map_to_list p)).
  assert (Hperm : ps ≡ₚ map Z.of_nat (seq 0 (length l))).
  { subst ps. rewrite <- map_fst_numbered. by apply Permutation_map, on_path_perm. }
  assert (Hin : forall z, z ∈ ps <-> 0 <= z < len l).
  { intros z. rewrite Hperm, list_elem_of_fmap. unfold len. split.
    - intros (k & -> & Hk%elem_of_seq). lia.
    - intros Hz. exists (Z.to_nat z). rewrite Z2Nat.id, elem_of_seq by lia. split; [done|lia]. }
  assert (Hlen : len ps = len l).
  { unfold len. by rewrite (Permutation_length Hperm), length_map, length_seq. }
  destruct ps as [|z ps'] eqn:E; [done|]. rewrite <- E in *. assert (Hne : 0 < len l).
  { pose proof (proj1 (Hin z)) as Hz. rewrite E in Hz. specialize (Hz ltac:(left)). lia. }
  destruct (min_of_le id ps 0) as (lo & Hlo & ?); [by apply Hin|].
  destruct (max_of_ge id ps (len l - 1)) as (hi & Hhi & ?); [apply Hin; lia|].
  destruct (min_of_elem _ _ _ Hlo) as (a & Ha%Hin & <-). destruct (max_of_elem _ _ _ Hhi) as (b & Hb%Hin & <-).
  unfold id in *. rewrite Hlo, Hhi, Hlen, !bool_decide_eq_true_2 by (f_equal; lia). by rewrite E.
Qed.

Lemma verify_branch_rows_ok db : db_ok db -> verify_branch_rows db = Ok tt.
Proof.
  intros Hok. unfold verify_branch_rows. rewrite (proj2 (existsb_rows (branch_row_bad db) _)).
  2: { intros k m Hm. by eapply branch_row_good. }
  cbn [negb ensure mbind result_bind]. unfold ensure.
  rewrite (forallb_lookup _ (map_to_list (active_path db))).
  2: { intros n [c p] Hn. assert (Hc : active_path db !! c = Some p).
       { apply elem_of_map_to_list. by eapply list_elem_of_lookup_2. }
       destruct (po_line _ _ (ok_paths _ Hok) c) as (l & Hp & Hl). cbn [fst snd].
       rewrite (path_rows_numbered _ _ l) by done. unfold path_in in Hp. rewrite Hc in Hp. cbn in Hp.
       rewrite (path_has_no_gap p l), andb_true_r by done. apply negb_true_iff, existsb_lookup_false. intros k m.
       eapply path_row_good; [|done]. unfold path_of. by rewrite Hc. }
  rewrite existsb_lookup_false; [done|]. intros n c _. unfold path_missing. apply andb_false_iff.
  destruct (existsb (in_chat c) _) eqn:E; [right|by left]. apply existsb_exists in E as (m & Hm & Hc%in_chat_true).
  apply list_elem_of_In, elem_of_rows_of in Hm as [_ [k Hm]]. subst c.
  pose proof (po_total _ _ (ok_paths _ Hok) _ _ Hm) as Hne. unfold path_in in Hne. unfold path_of.
  destruct (map_to_list _) eqn:E; [|done]. by apply map_to_list_empty_iff in E.
Qed.

Lemma verify_stream_journal_rows_ok db : db_ok db -> verify_stream_journal_rows db = Ok tt.
Proof.
  intros Hok. unfold verify_stream_journal_rows. rewrite (proj2 (existsb_rows journal_row_bad _)); [done|].
  intros k r Hr. destruct (ro_row _ _ _ (ok_requests _ Hok) _ _ Hr) as (_ & Hck & _).
  unfold request_check, id_check in Hck. zify_bool. unfold journal_row_bad.
  repeat match goal with H : _ = true |- _ => rewrite H; clear H end. cbn. lia.
Qed.
