(* ===== verification/ChatGuarantees.v ===== *)
(** * Conversation storage: guarantees

    What a caller of the store may rely on after any history of calls: the rows pass the
    checks of [migration.rs]; a selected branch is the active path; pages of recent
    messages list the active path once; the journal of a stream behaves like an append-only
    log ([JournalStep]) that ends once; a restart ends what was running and keeps its text. *)

From stdpp Require Import gmap sorting.
From S2P Require Import Prelude Sorting Bytes Utf8 ChatModel ChatStore ChatInvariant ChatHistory.

(** ** What the schema does not say but the operations keep *)

Record extra_ok (db : Db) : Prop := {
  ex_text k m : messages db !! k = Some m -> has_nul (sm_text m) = false;
  ex_assistant k1 k2 r1 r2 : requests db !! k1 = Some r1 -> requests db !! k2 = Some r2 ->
    rs_assistant r1 = rs_assistant r2 -> k1 = k2;
}.

Definition store_ok (db : Db) : Prop := db_ok db /\ extra_ok db.

Lemma has_nul_app a b : has_nul (a ++ b) = has_nul a || has_nul b.
Proof. apply existsb_app. Qed.

Lemma text_limit_Ok v limit field u : text_limit v limit field = Ok u -> len v <= limit /\ has_nul v = false.
Proof. unfold text_limit. intros H. ok_inv H. by zify_bool. Qed.

Lemma validate_complete_message_Ok role text u : validate_complete_message role text = Ok u -> has_nul text = false.
Proof. destruct role; cbn; intros H; [unfold validate_user_message in H; ok_inv1 H|]; by apply text_limit_Ok in H as [_ ?]. Qed.

Lemma checkpoint_text_Ok c u : validate_checkpoint c = Ok u -> has_nul (rc_text c) = false.
Proof. unfold validate_checkpoint. intros H. ok_inv H. by match goal with Hx : text_limit _ _ _ = _ |- _ => apply text_limit_Ok in Hx as [_ ?] end. Qed.

(** The texts of one table come from another, or are new ones without a null. *)
Lemma ex_text_insert (M : gmap str StoredMessage) k0 m0 : (forall k m, M !! k = Some m -> has_nul (sm_text m) = false) ->
  has_nul (sm_text m0) = false -> forall k m, <[k0 := m0]> M !! k = Some m -> has_nul (sm_text m) = false.
Proof.
  intros H H0 k m. destruct (decide (k0 = k)) as [<-|]; [rewrite lookup_insert_eq; by intros [= <-]|].
  rewrite lookup_insert_ne by done. apply H.
Qed.

(** ** What a call does to messages and requests *)

(** Which request a call writes. *)
Inductive Touch : Type :=
  | TouchNone
  | TouchRequest (id : str)
  | TouchAll.

Definition touched (op : StoreOp) : Touch :=
  match op with
  | OpOpen _ => TouchAll
  | OpBeginTurn id _ _ _ => TouchRequest id
  | OpRecordDelivery c => TouchRequest (dc_request c)
  | OpAcknowledge c => TouchRequest (ca_request c)
  | OpCheckpoint c | OpFinishTurn c _ => TouchRequest (rc_request c)
  | _ => TouchNone
  end.

Inductive Delta (db db' : Db) : Touch -> Prop :=
  | DSame : messages db' = messages db -> requests db' = requests db -> Delta db db' TouchNone
  | DAppend m : messages db' = <[sm_id m := m]> (messages db) -> requests db' = requests db ->
      messages db !! sm_id m = None -> has_nul (sm_text m) = false -> Delta db db' TouchNone
  | DBegin u a r : messages db' = <[sm_id a := a]> (<[sm_id u := u]> (messages db)) ->
      requests db' = <[rs_id r := r]> (requests db) -> messages db !! sm_id u = None -> messages db !! sm_id a = None ->
      requests db !! rs_id r = None -> has_nul (sm_text u) = false -> sm_text a = [] -> rs_assistant r = sm_id a ->
      Delta db db' (TouchRequest (rs_id r))
  | DDeliver r through at_ms : messages db' = messages db -> requests db !! rs_id r = Some r -> is_running r = true ->
      through = rs_delivered r + 1 -> requests db' = <[rs_id r := with_delivered through at_ms r]> (requests db) ->
      Delta db db' (TouchRequest (rs_id r))
  | DAck r through at_ms : messages db' = messages db -> requests db !! rs_id r = Some r ->
      default 0 (rs_acked r) < through <= rs_durable r ->
      requests db' = <[rs_id r := with_acked through at_ms r]> (requests db) -> Delta db db' (TouchRequest (rs_id r))
  | DProgress r m c terminal at_ms : requests db !! rs_id r = Some r -> messages db !! rs_assistant r = Some m ->
      sm_id m = rs_assistant r -> is_running r = true -> rs_durable r < rc_through c <= rs_delivered r ->
      has_nul (rc_text c) = false -> terminal <> Some (OutcomeFailed AppRestarted) ->
      messages db' = <[rs_assistant r := with_appended (rc_text c) (message_status_of terminal) at_ms m]> (messages db) ->
      requests db' = <[rs_id r := with_progress c terminal at_ms r]> (requests db) -> Delta db db' (TouchRequest (rs_id r))
  | DRecover at_ms : db' = recover_rows at_ms db -> Delta db db' TouchAll.

(** Only the deletion of a chat takes rows away. *)
Definition effect (op : StoreOp) (db db' : Db) : Prop :=
  match op with
  | OpDeleteChat c => running_in c db = false /\ db' = delete_chat_rows c db
  | _ => Delta db db' (touched op)
  end.

Lemma extra_ok_same db db' : messages db' = messages db -> requests db' = requests db -> extra_ok db -> extra_ok db'.
Proof. intros Hm Hr [? ?]. split; by rewrite ?Hm, ?Hr. Qed.

Lemma touch_chat_rest c at_ms db db' : touch_chat c at_ms db = Ok db' ->
  messages db' = messages db /\ requests db' = requests db /\ active_path db' = active_path db /\ render_cache db' = render_cache db.
Proof. intros (C' & -> & _)%touch_chat_Ok. done. Qed.

Lemma replace_active_path_rest c id db db' n : replace_active_path c id db = (db', Ok n) ->
  messages db' = messages db /\ requests db' = requests db.
Proof.
  intros H. unfold replace_active_path in H. st_inv H. same_state.
  assert (Hfold : forall ms d d', insert_suffix c ms d = Ok d' -> messages d' = messages d /\ requests d' = requests d).
  { induction ms as [|m ms IH]; intros d d' Hi; [by injection Hi as <-|]. unfold insert_suffix in *. cbn [foldM_result] in Hi.
    apply bind_Ok in Hi as (d1 & Hi1 & Hi). apply IH in Hi as [-> ->]. by apply insert_path_Ok in Hi1 as ->. }
  match goal with Hx : insert_suffix _ _ _ = _ |- _ => apply Hfold in Hx end. done.
Qed.

Lemma begin_turn_delta rid uid aid input db db' t : begin_turn rid uid aid input db = (db', Ok t) ->
  Delta db db' (TouchRequest rid).
Proof.
  intros H. unfold begin_turn in H. st_inv H. same_state.
  match type of Hs15 with insert_message _ ?m _ = _ => set (u := m) in * end.
  match type of Hs17 with insert_message _ ?m _ = _ => set (a := m) in * end.
  match type of Hs20 with insert_request ?q _ = _ => set (r := q) in * end.
  apply touch_chat_rest in Hs21 as (Hm & Hr & _). apply insert_request_Ok in Hs20 as (-> & _ & Hn & _).
  apply insert_path_Ok in Hs19 as ->. apply insert_path_Ok in Hs18 as ->.
  apply insert_message_Ok in Hs17 as (-> & _ & Ha & _). apply insert_message_Ok in Hs15 as (-> & _ & Hu & _).
  cbn [messages set_messages] in *. apply lookup_insert_None in Ha as [Ha _].
  unfold validate_user_message in Hs. ok_inv1 Hs. apply text_limit_Ok in Hs as [_ Hnul].
  by apply (DBegin _ _ u a r).
Qed.

Lemma append_delta id input db db' a : append_branch_message id input db = (db', Ok a) -> Delta db db' TouchNone.
Proof.
  intros H. unfold append_branch_message in H. st_inv H. same_state.
  match goal with Hx : touch_chat _ _ _ = _ |- _ => apply touch_chat_rest in Hx as (Hm & Hr & _) end.
  match goal with Hx : replace_active_path _ _ _ = _ |- _ => apply replace_active_path_rest in Hx as [Hm' Hr'] end.
  match goal with Hx : insert_message _ ?q _ = _ |- _ => set (m := q) in *; apply insert_message_Ok in Hx as (-> & _ & Hn & _) end.
  apply validate_complete_message_Ok in Hs. rewrite Hm' in Hm. rewrite Hr' in Hr. by apply (DAppend _ _ m).
Qed.

Lemma request_ok_id db id r : db_ok db -> requests db !! id = Some r -> rs_id r = id.
Proof. intros Hok Hl. by destruct (ro_row _ _ _ (ok_requests _ Hok) _ _ Hl). Qed.

Lemma progress_delta c terminal db db' p : db_ok db -> terminal <> Some (OutcomeFailed AppRestarted) ->
  apply_response_progress c terminal db = (db', Ok p) -> Delta db db' (TouchRequest (rc_request c)).
Proof.
  intros Hok Ht H. assert (Hnul : has_nul (rc_text c) = false).
  { unfold apply_response_progress in H. st_inv1 H. by eapply checkpoint_text_Ok. }
  apply apply_response_progress_Ok in H as (r & m & Hl & Hm & Hrun & _ & _ & Hd & Hlt & _ & _ & _ & (C' & -> & _) & _).
  destruct (mo_row _ _ (ok_messages _ Hok) _ _ Hm) as (Hi & _). pose proof (request_ok_lookup _ _ _ Hok Hl) as Hl'.
  rewrite <- (request_ok_id _ _ _ Hok Hl).
  eapply (DProgress _ _ r m c terminal); try done; [lia|cbn; by rewrite Hi].
Qed.

Lemma checkpoint_delta c db db' p : db_ok db -> checkpoint_response c db = (db', Ok p) ->
  Delta db db' (TouchRequest (rc_request c)).
Proof. intros Hok H%transaction_Ok. by apply progress_delta in H. Qed.

Lemma finish_delta c outcome db db' p : db_ok db -> finish_turn c outcome db = (db', Ok p) ->
  Delta db db' (TouchRequest (rc_request c)).
Proof.
  intros Hok H. unfold finish_turn in H. st_inv H. apply negb_true_iff, bool_decide_eq_false in Hs.
  apply progress_delta in H; [done|done|]. by intros [= ->].
Qed.

Lemma put_render_cache_rest input db db' c : put_render_cache input db = (db', Ok c) ->
  messages db' = messages db /\ requests db' = requests db.
Proof.
  intros H. unfold put_render_cache in H. st_inv H. destruct (pc_expected input) as [expected|]; repeat st_inv1 Hs3.
  - destruct (render_cache db !! pc_message input) as [cur|]; [|done]. destruct (_ && _); [|done].
    step_inv Hs3. ok_inv Hs3. by subst.
  - step_inv Hs3. ok_inv Hs3. by subst.
Qed.

Lemma get_render_cache_rest id version touched db db' c : get_render_cache id version touched db = (db', Ok c) ->
  messages db' = messages db /\ requests db' = requests db.
Proof.
  intros H. unfold get_render_cache in H. repeat st_inv1 H.
  destruct (render_cache db !! id) as [e|] eqn:He; [|by step_inv H]. destruct (cr_version e =? _); [|by step_inv H].
  st_inv H. ok_inv Hs3. by subst.
Qed.

Lemma exec_effect op db db' u : db_ok db -> exec op db = (db', Ok u) -> effect op db db'.
Proof.
  intros Hok. destruct op; cbn [exec effect touched]; intros H; try (apply void_Ok in H as (a & H)).
  all: first
    [ by eapply begin_turn_delta | by eapply append_delta
    | by eapply checkpoint_delta
    | by eapply finish_delta
    | idtac ].
  all: try (apply DSame; unfold get_chat, list_chats, get_request_state, load_messages, load_recent_messages, resolve_cursor, load_active_path,
    load_branch_children, load_message_timeline, load_preferences in H; (apply reads_Ok in H; [by subst|apply _])).
  - apply recover_Ok in H as [-> _]. by eapply DRecover.
  - unfold create_chat in H. st_inv H. ok_inv Hs0. subst. by apply DSame.
  - unfold rename_chat in H. st_inv H. destruct (chats db !! id) as [q|]; [|done]. destruct (ch_revision q =? _); [|done].
    st_inv H. ok_inv Hs2. subst. by apply DSame.
  - unfold delete_chat in H. st_inv H. same_state. by zify_bool.
  - destruct (record_response_delivery_Ok _ _ _ _ H) as (r & Hl & Hrun & _ & _ & Hd & Hth & _ & -> & _).
    rewrite <- (request_ok_id _ _ _ Hok Hl).
    eapply (DDeliver _ _ r (dc_through c)); [done|by eapply request_ok_lookup|done|lia|done].
  - destruct (acknowledge_response_Ok _ _ _ _ H) as (r & Hl & _ & _ & Ha & Hth & _ & -> & _). rewrite <- Ha in Hth.
    rewrite <- (request_ok_id _ _ _ Hok Hl). by eapply (DAck _ _ r (ca_through c)); [done|eapply request_ok_lookup|..].
  - unfold select_active_path in H. st_inv H. same_state. apply replace_active_path_rest in Hs1 as [Hm Hr].
    apply touch_chat_rest in Hs2 as (Hm' & Hr' & _). apply DSame; congruence.
  - apply put_render_cache_rest in H as [? ?]. by apply DSame.
  - apply get_render_cache_rest in H as [? ?]. by apply DSame.
  - unfold evict_render_cache in H. st_inv H. by apply DSame.
  - unfold save_preferences in H. repeat st_inv1 H. destruct (settings db) as [old|]; [|done].
    destruct (ap_revision old =? _); [|done]. st_inv H. by apply DSame.
Qed.

Definition assistants_distinct (R : gmap str RequestState) : Prop :=
  forall k1 k2 r1 r2, R !! k1 = Some r1 -> R !! k2 = Some r2 -> rs_assistant r1 = rs_assistant r2 -> k1 = k2.

(** The rows of [R'] come from rows of [R] with the same assistant message. *)
Lemma assistants_from R R' : assistants_distinct R ->
  (forall k r', R' !! k = Some r' -> exists r, R !! k = Some r /\ rs_assistant r' = rs_assistant r) -> assistants_distinct R'.
Proof.
  intros Hd Hf k1 k2 r1 r2 H1 H2 He. destruct (Hf _ _ H1) as (q1 & ? & ?), (Hf _ _ H2) as (q2 & ? & ?).
  eapply Hd; eauto. congruence.
Qed.

Lemma assistants_update R r r' : assistants_distinct R -> R !! rs_id r = Some r -> rs_assistant r' = rs_assistant r ->
  assistants_distinct (<[rs_id r := r']> R).
Proof.
  intros Hd Hr Ha. eapply assistants_from; [done|]. intros k q. destruct (decide (rs_id r = k)) as [<-|].
  - rewrite lookup_insert_eq. intros [= <-]. eauto.
  - rewrite lookup_insert_ne by done. eauto.
Qed.

Lemma assistants_new R r : assistants_distinct R -> (forall k q, R !! k = Some q -> rs_assistant q <> rs_assistant r) ->
  assistants_distinct (<[rs_id r := r]> R).
Proof.
  intros Hd Hn k1 k2 r1 r2. destruct (decide (rs_id r = k1)) as [<-|], (decide (rs_id r = k2)) as [<-|];
    rewrite ?lookup_insert_eq, ?lookup_insert_ne by done; try done; [| |by apply Hd].
  - intros [= <-] H2 He. by destruct (Hn _ _ H2).
  - intros H1 [= <-] He. by destruct (Hn _ _ H1).
Qed.

Lemma with_progress_assistant c terminal at_ms r : rs_assistant (with_progress c terminal at_ms r) = rs_assistant r.
Proof. unfold with_progress. by destruct (progress_statuses terminal) as [[? ?] ?]. Qed.

Lemma request_assistant_exists db k r : db_ok db -> requests db !! k = Some r ->
  exists m, messages db !! rs_assistant r = Some m /\ sm_id m = rs_assistant r.
Proof.
  intros Hok Hr. destruct (ro_row _ _ _ (ok_requests _ Hok) _ _ Hr) as (_ & _ & _ & _ & Ha). unfold message_of in Ha.
  destruct (messages db !! rs_assistant r) as [m|] eqn:Hm; [|done]. exists m. split; [done|].
  by destruct (mo_row _ _ (ok_messages _ Hok) _ _ Hm).
Qed.

Lemma extra_ok_delta db db' t : db_ok db -> extra_ok db -> Delta db db' t -> extra_ok db'.
Proof.
  intros Hok [Ht Ha] [Hm Hr|m Hm Hr _ Hn|u a r Hm Hr _ Hfresh _ Hn Htx Hra|r th at_ms Hm Hl _ _ Hr|r th at_ms Hm Hl _ Hr
    |r m c term at_ms Hl Hlm _ _ _ Hn _ Hm Hr|at_ms ->];
    (split; [|change (assistants_distinct (requests db')) || idtac]).
  1-12: rewrite ?Hm, ?Hr; try done.
  - by apply ex_text_insert.
  - apply ex_text_insert; [by apply ex_text_insert|by rewrite Htx].
  - apply assistants_new; [done|]. intros k q Hq He. destruct (request_assistant_exists _ _ _ Hok Hq) as (m & Hmq & _).
    rewrite He, Hra in Hmq. congruence.
  - by apply assistants_update.
  - by apply assistants_update.
  - apply ex_text_insert; [done|]. cbn. rewrite has_nul_app, Hn. by rewrite (Ht _ _ Hlm).
  - apply assistants_update; [done..|apply with_progress_assistant].
  - intros k m (q & Hq & Hmq)%recovered_message. specialize (Ht _ _ Hq). by destruct Hmq as [-> | ->].
  - eapply assistants_from; [exact Ha|]. intros k r (q & Hq & -> & _)%recovered_request. exists q. by destruct (is_running q).
Qed.

Lemma extra_ok_effect op db db' : db_ok db -> extra_ok db -> effect op db db' -> extra_ok db'.
Proof.
  intros Hok Hex. destruct op; try by apply extra_ok_delta. intros [_ ->]. destruct Hex as [Ht Ha]. split.
  - intros k m [Hm _]%kept_message. eauto.
  - eapply assistants_from; [exact Ha|]. intros k r [Hr _]%map_lookup_filter_Some. eauto.
Qed.

(** ** Every state that a history reaches *)

Lemma store_ok_empty : store_ok empty_db.
Proof. split; [apply empty_db_ok|]. split; intros *; cbn; by rewrite lookup_empty. Qed.

Lemma store_ok_step op db : store_ok db -> store_ok (exec op db).1.
Proof.
  intros [Hok Hex]. destruct (exec op db) as [db' [u|e]] eqn:E; cbn.
  - split; [by eapply exec_ok|]. eapply extra_ok_effect; [done..|]. by eapply exec_effect.
  - by apply (atomic (m := exec op)) in E as ->.
Qed.

Lemma store_ok_history ops db : store_ok db -> store_ok (run_history ops db).
Proof. revert db. induction ops as [|op ops IH]; intros db Hok; [done|]. cbn. by apply IH, store_ok_step. Qed.

(** ** The journal of a stream *)

(** A request with the text of its assistant message, as a caller sees them. *)
Record Journal : Type := mkJournal {
  j_status : StorageRequestStatus;
  j_delivered : Z;
  j_durable : Z;
  j_acked : option Z;
  j_text : str;
}.

Definition journal (r : RequestState) (m : StoredMessage) : Journal :=
  mkJournal (rs_status r) (rs_delivered r) (rs_durable r) (rs_acked r) (sm_text m).

Definition journal_of (id : str) (db : Db) : option Journal :=
  r ← requests db !! id;
  m ← messages db !! rs_assistant r;
  Some (journal r m).

(** The abstract journal: events are delivered one at a time while it runs; a prefix of
    what was delivered becomes durable together with its text; the reader acknowledges
    durable events at any time; the last step ends it. *)
Inductive JournalStep : Journal -> Journal -> Prop :=
  | JDeliver d n a t : JournalStep (mkJournal RequestRunning d n a t) (mkJournal RequestRunning (d + 1) n a t)
  | JAck s d n a a' t : default 0 a < a' <= n -> JournalStep (mkJournal s d n a t) (mkJournal s d n (Some a') t)
  | JCheckpoint d n n' a t t' : n < n' <= d ->
      JournalStep (mkJournal RequestRunning d n a t) (mkJournal RequestRunning d n' a (t ++ t'))
  | JFinish s d n n' a t t' : n < n' <= d -> s ∈ [RequestCompleted; RequestCancelled; RequestFailed] ->
      JournalStep (mkJournal RequestRunning d n a t) (mkJournal s d n' a (t ++ t'))
  | JInterrupt d n a t : JournalStep (mkJournal RequestRunning d n a t) (mkJournal RequestInterrupted d n a t).

Definition journal_step (j j' : Journal) : Prop := j' = j \/ JournalStep j j'.

Lemma running_status r : is_running r = true -> rs_status r = RequestRunning.
Proof. apply bool_decide_eq_true. Qed.

Lemma journal_of_Some id db j : journal_of id db = Some j <->
  exists r m, requests db !! id = Some r /\ messages db !! rs_assistant r = Some m /\ j = journal r m.
Proof.
  unfold journal_of. split.
  - destruct (requests db !! id) as [r|] eqn:Hr; [|done]. cbn.
    destruct (messages db !! rs_assistant r) as [m|] eqn:Hm; [|done]. cbn. intros [= <-]. eauto.
  - intros (r & m & -> & Hm & ->). cbn. by rewrite Hm.
Qed.

(** One request and its assistant message change together, by a step of the journal. *)
Lemma journal_update db db' r r' m m' id j : store_ok db -> requests db !! rs_id r = Some r ->
  messages db !! rs_assistant r = Some m -> rs_assistant r' = rs_assistant r ->
  requests db' = <[rs_id r := r']> (requests db) -> messages db' = <[rs_assistant r := m']> (messages db) ->
  JournalStep (journal r m) (journal r' m') -> journal_of id db = Some j ->
  exists j', journal_of id db' = Some j' /\ journal_step j j'.
Proof.
  intros [Hok [_ Hex]] Hr Hm Ha HR HM Hstep (r0 & m0 & Hr0 & Hm0 & ->)%journal_of_Some.
  setoid_rewrite journal_of_Some. rewrite HR, HM. destruct (decide (rs_id r = id)) as [<-|Hne].
  - assert (r0 = r) as -> by congruence. assert (m0 = m) as -> by congruence.
    exists (journal r' m'). split; [|by right]. exists r', m'. by rewrite Ha, !lookup_insert_eq.
  - exists (journal r0 m0). split; [|by left]. exists r0, m0. rewrite !lookup_insert_ne; try done.
    intros He. by apply Hne, (Hex _ _ r r0).
Qed.

Lemma journal_same db db' id j : (forall r, requests db !! id = Some r -> requests db' !! id = Some r /\
    forall m, messages db !! rs_assistant r = Some m -> messages db' !! rs_assistant r = Some m) ->
  journal_of id db = Some j -> exists j', journal_of id db' = Some j' /\ journal_step j j'.
Proof.
  intros H (r & m & Hr & Hm & ->)%journal_of_Some. destruct (H r Hr) as [Hr' Hm']. exists (journal r m). split; [|by left].
  apply journal_of_Some. eauto 6.
Qed.

Lemma progress_step r m c terminal at_ms : is_running r = true -> rs_durable r < rc_through c <= rs_delivered r ->
  JournalStep (journal r m) (journal (with_progress c terminal at_ms r) (with_appended (rc_text c) (message_status_of terminal) at_ms m)).
Proof.
  intros Hrun Hd. unfold journal. rewrite (running_status _ Hrun).
  destruct terminal as [[| |code]|]; cbn; [apply JFinish; [done|set_solver]..|by apply JCheckpoint].
Qed.

(** A journal after a restart: its text and its numbers are as they were, and it has ended. *)
Definition interrupted_journal (j : Journal) : Journal :=
  mkJournal (if bool_decide (j_status j = RequestRunning) then RequestInterrupted else j_status j)
    (j_delivered j) (j_durable j) (j_acked j) (j_text j).

Lemma recovered_text at_ms db k : sm_text <$> messages (recover_rows at_ms db) !! k = sm_text <$> messages db !! k.
Proof. cbn. rewrite map_lookup_imap. destruct (messages db !! k) as [m|]; [|done]. cbn. by destruct (existsb _ _). Qed.

Lemma recover_journal at_ms db id : journal_of id (recover_rows at_ms db) = interrupted_journal <$> journal_of id db.
Proof.
  unfold journal_of. pose proof (recovered_text at_ms db) as Ht.
  replace (requests (recover_rows at_ms db) !! id)
    with ((fun r => if is_running r then interrupted at_ms r else r) <$> requests db !! id) by (cbn; by rewrite lookup_fmap).
  destruct (requests db !! id) as [r|]; [|done]. cbn [fmap option_fmap option_map mbind option_bind].
  replace (rs_assistant (if is_running r then interrupted at_ms r else r)) with (rs_assistant r) by by destruct (is_running r).
  specialize (Ht (rs_assistant r)). destruct (messages (recover_rows at_ms db) !! rs_assistant r) as [m'|],
    (messages db !! rs_assistant r) as [m|]; try done. injection Ht as Ht. cbn. unfold journal, interrupted_journal. cbn. rewrite Ht.
  unfold is_running. by case_bool_decide.
Qed.

Lemma interrupted_journal_step j : journal_step j (interrupted_journal j).
Proof.
  destruct j as [st d n a t]. unfold interrupted_journal. cbn. case_bool_decide; [subst; right; constructor|by left].
Qed.

Lemma delta_journal db db' t id j : store_ok db -> Delta db db' t -> journal_of id db = Some j ->
  exists j', journal_of id db' = Some j' /\ journal_step j j'.
Proof.
  intros Hok HD Hj. pose proof Hok as [Hdb _].
  destruct HD as [Hm Hr|m Hm Hr Hn _|u a r Hm Hr Hu Ha Hn _ _ _|r th at_ms Hm Hl Hrun Hth Hr|r th at_ms Hm Hl Hth Hr
    |r m c term at_ms Hl Hlm _ Hrun Hd _ _ Hm Hr|at_ms ->].
  - eapply journal_same; [|done]. intros r Hid. by rewrite Hr, Hm.
  - eapply journal_same; [|done]. intros r Hid. rewrite Hr, Hm. split; [done|]. intros q Hq.
    rewrite lookup_insert_ne; [done|congruence].
  - eapply journal_same; [|done]. intros q Hid. rewrite Hr, Hm. split; [rewrite lookup_insert_ne; [done|congruence]|].
    intros x Hx. rewrite !lookup_insert_ne; [done|congruence..].
  - destruct (request_assistant_exists _ _ _ Hdb Hl) as (m & Hma & _).
    eapply (journal_update _ _ r (with_delivered th at_ms r) m m); try done; [by rewrite insert_id|].
    unfold journal. cbn. rewrite (running_status _ Hrun), Hth. constructor.
  - destruct (request_assistant_exists _ _ _ Hdb Hl) as (m & Hma & _).
    eapply (journal_update _ _ r (with_acked th at_ms r) m m); try done; [by rewrite insert_id|]. by constructor.
  - eapply (journal_update _ _ r (with_progress c term at_ms r) m); try done; [apply with_progress_assistant|by apply progress_step].
  - exists (interrupted_journal j). split; [by rewrite recover_journal, Hj|apply interrupted_journal_step].
Qed.

Lemma exec_journal op db id j : store_ok db -> (forall c, op <> OpDeleteChat c) -> journal_of id db = Some j ->
  exists j', journal_of id (exec op db).1 = Some j' /\ journal_step j j'.
Proof.
  intros Hok Hop Hj. destruct (exec op db) as [db' [u|e]] eqn:E; cbn.
  - eapply delta_journal; [done| |done]. apply exec_effect in E; [|apply Hok]. destruct op; try done. by destruct (Hop id0).
  - apply (atomic (m := exec op)) in E as ->. exists j. split; [done|by left].
Qed.

(** ** A restart *)

Definition valid_time (at_ms : Z) : bool := between 0 at_ms MAX_SAFE_INTEGER.

Lemma between_max lo x hi y : between lo x hi = true -> y <= hi -> between lo (Z.max x y) hi = true.
Proof. unfold between. intros H ?. zify_bool. lia. Qed.

Lemma all_rows_intro {A} (ok : A -> bool) (t : gmap str A) : (forall k x, t !! k = Some x -> ok x = true) -> all_rows ok t = true.
Proof.
  intros H. unfold all_rows. apply forallb_forall. intros x ([k y] & -> & Hk%elem_of_map_to_list)%list_elem_of_In%list_elem_of_fmap.
  by eapply H.
Qed.

Lemma touched_chat_check at_ms c : chat_check c = true -> at_ms <= MAX_SAFE_INTEGER -> chat_check (with_updated at_ms c) = true.
Proof.
  unfold chat_check. intros H Hat. rewrite !andb_true_iff in *. destruct_and!. cbn.
  split_and!; try done. by apply between_max.
Qed.

Lemma recovered_message_check at_ms m : message_check m = true -> sm_status m = MessagePartial -> at_ms <= MAX_SAFE_INTEGER ->
  message_check (with_recovered at_ms m) = true.
Proof.
  unfold message_check. intros H Hs Hat. rewrite Hs in H. rewrite !andb_true_iff in *. destruct_and!. cbn.
  split_and!; try done. by apply between_max.
Qed.

Lemma interrupted_check at_ms r : request_check r = true -> is_running r = true -> valid_time at_ms = true ->
  request_check (interrupted at_ms r) = true.
Proof.
  unfold request_check, valid_time. intros H _ Hat. rewrite !andb_true_iff in *. destruct_and!. cbn.
  assert (Hmax : at_ms <= MAX_SAFE_INTEGER) by (unfold between in Hat; zify_bool; lia).
  split_and!; try done; [by apply between_max|].
  unfold between in *. zify_bool. lia.
Qed.

Lemma recover_run at_ms db : db_ok db -> valid_time at_ms = true ->
  recover_interrupted_requests at_ms db = (recover_rows at_ms db, Ok (len (running_rows db))).
Proof.
  intros Hok Hat. assert (Hmax : at_ms <= MAX_SAFE_INTEGER) by (unfold valid_time, between in Hat; zify_bool; lia).
  unfold recover_interrupted_requests, transaction. rewrite gets_run. erewrite update_run; [done|].
  unfold ensure. rewrite !all_rows_intro; [done| | |].
  - intros k r. cbn. rewrite lookup_fmap. destruct (requests db !! k) as [q|] eqn:Hq; [|done]. intros [= <-].
    destruct (ro_row _ _ _ (ok_requests _ Hok) _ _ Hq) as (_ & Hck & _). destruct (is_running q) eqn:E; [|done].
    by apply interrupted_check.
  - intros k m. cbn. rewrite map_lookup_imap. destruct (messages db !! k) as [q|] eqn:Hq; [|done]. cbn. intros [= <-].
    destruct (mo_row _ _ (ok_messages _ Hok) _ _ Hq) as (_ & Hck & _). destruct (existsb _ _) eqn:E; [|done].
    apply existsb_exists in E as (r & Hr & He%bool_decide_eq_true). apply list_elem_of_In, elem_of_rows_of in Hr as [Hrun [i Hr]].
    destruct (ro_partial _ _ _ (ok_requests _ Hok) _ _ Hr Hrun) as (m & Hm & Hs & _).
    apply recovered_message_check; [done| |done]. congruence.
  - intros k c. cbn. rewrite map_lookup_imap. destruct (chats db !! k) as [q|] eqn:Hq; [|done]. cbn. intros [= <-].
    destruct (ok_chats _ Hok _ _ Hq) as [_ Hck]. destruct (existsb _ _); [|done]. by apply touched_chat_check.
Qed.

Lemma recovered_not_running at_ms db : running_rows (recover_rows at_ms db) = [].
Proof.
  destruct (running_rows (recover_rows at_ms db)) as [|r rs] eqn:E; [done|]. exfalso.
  assert (Hr : r ∈ running_rows (recover_rows at_ms db)) by (rewrite E; left).
  apply elem_of_rows_of in Hr as [Hrun [k Hk]]. apply recovered_request in Hk as (q & _ & _ & Hn). congruence.
Qed.

(** ** Selecting a branch *)

Definition leaf_of (c : str) (db : Db) : option str := (fun row => sm_id row.2) <$> head (reverse (path_rows c db)).

Lemma id_parse_run field id : id_check id = true -> parse_id field id = Ok id.
Proof. intros H. unfold parse_id, validate_id. unfold id_check in H. by rewrite H. Qed.

Lemma decode_u64_run v field : 0 <= v <= MAX_SAFE_INTEGER -> decode_u64 v field = Ok v.
Proof.
  intros [H0 H1]. unfold decode_u64, ensure. rewrite (proj2 (Z.leb_le _ _) H0). cbn. by rewrite (proj2 (Z.leb_le _ _) H1).
Qed.

Lemma message_id_check m : message_check m = true -> id_check (sm_id m) = true.
Proof. unfold message_check. intros H. by zify_bool. Qed.

Lemma path_row_message db c i m : db_ok db -> (i, m) ∈ path_rows c db -> messages db !! sm_id m = Some m /\ sm_chat m = c.
Proof.
  intros Hok Hin. unfold path_rows in Hin. apply list_elem_of_omap in Hin as ([j id] & _ & Hx). cbn in Hx.
  destruct (messages db !! id) as [q|] eqn:Hq; [|done]. destruct (in_chat c q) eqn:Hc; [|done]. injection Hx as -> ->.
  destruct (mo_row _ _ (ok_messages _ Hok) _ _ Hq) as (Hi & _). apply in_chat_true in Hc. by rewrite Hi.
Qed.

Lemma gets_run_bind {A B D} (q : Db -> A) (f : A -> StoreM B) (g : B -> StoreM D) db :
  ((gets q ≫= f) ≫= g) db = (f (q db) ≫= g) db.
Proof. done. Qed.

Lemma ensure_leaf_run c db : db_ok db -> ensure_expected_active_leaf c (leaf_of c db) db = (db, Ok tt).
Proof.
  intros Hok. unfold ensure_expected_active_leaf, current_active_leaf, leaf_of. rewrite gets_run_bind.
  destruct (head (reverse (path_rows c db))) as [[i m]|] eqn:Hh; cbn [transpose]; [|done].
  destruct (path_row_message db c i m Hok) as [Hm _].
  { apply elem_of_reverse. destruct (reverse _); [done|]. injection Hh as <-. left. }
  destruct (mo_row _ _ (ok_messages _ Hok) _ _ Hm) as (_ & Hck & _). pose proof (message_depth_check _ Hck) as [Hd _].
  erewrite st_lift_run; [|cbn [snd]; unfold MessageId_parse; rewrite (id_parse_run _ _ (message_id_check _ Hck)); cbn; by rewrite decode_u64_run].
  cbn. unfold st_lift, ensure. by rewrite bool_decide_eq_true_2.
Qed.

Lemma touch_chat_run c at_ms db : db_ok db -> at_ms <= MAX_SAFE_INTEGER ->
  exists C', touch_chat c at_ms db = Ok (set_chats C' db).
Proof.
  intros Hok Hat. unfold touch_chat. destruct (chats db !! c) as [q|] eqn:Hq.
  - destruct (ok_chats _ Hok _ _ Hq) as [_ Hck]. unfold ensure. rewrite touched_chat_check by done. eexists. done.
  - exists (chats db). by destruct db.
Qed.

Lemma path_rows_other c c' l P' db : path_moved c l (active_path db) P' -> c' <> c ->
  path_rows c' (set_active_path P' db) = path_rows c' db.
Proof.
  intros [_ Ho] Hne. unfold path_rows. cbn. replace (path_of c' (set_active_path P' db)) with (path_of c' db); [done|].
  unfold path_of. cbn. symmetry. by apply Ho.
Qed.

Lemma select_active_path_run input m db : db_ok db -> messages db !! sp_leaf input = Some m -> sm_chat m = sp_chat input ->
  sm_depth m <= MAX_BRANCH_DEPTH -> sp_expected input = leaf_of (sp_chat input) db -> sp_at input <= MAX_SAFE_INTEGER ->
  exists db', select_active_path input db = (db', Ok (mkPathSelection (sp_chat input) (sp_leaf input) (sm_depth m + 1))) /\
    messages db' = messages db /\
    path_rows (sp_chat input) db' = numbered (reverse (ancestors (sp_chat input) (sp_leaf input) db)) /\
    (forall c, c <> sp_chat input -> path_rows c db' = path_rows c db).
Proof.
  intros Hok Hm Hc Hd Hexp Hat. set (c := sp_chat input) in *.
  destruct (mo_row _ _ (ok_messages _ Hok) _ _ Hm) as (_ & Hck & [ch Hch] & _). rewrite Hc in Hch.
  pose proof (message_depth_check _ Hck) as [[Hd0 _] _].
  destruct (db_ok_open c db Hok) as (l0 & Ho).
  destruct (replace_active_path_run db c (sp_leaf input) m l0) as (P' & l & Hrun & Hlen & Hlast & Hl & Hmv); try apply Ho; try done.
  assert (Hok' : db_ok (set_active_path P' db)).
  { eapply open_ok_close; [by eapply open_ok_moved|done]. }
  destruct (touch_chat_run c (sp_at input) _ Hok' Hat) as (C' & Htouch).
  exists (set_chats C' (set_active_path P' db)). split_and!; [|done| |].
  - unfold select_active_path, transaction. fold c. rewrite Hexp.
    erewrite st_bind_run; [|unfold ensure_chat_exists; rewrite gets_run, Hch; done].
    erewrite st_bind_run; [|by apply ensure_leaf_run]. erewrite st_bind_run; [|exact Hrun].
    erewrite update_run; [|exact Htouch]. by rewrite Hlen.
  - destruct Hmv as [Hp _]. rewrite (path_rows_numbered _ _ l) by done. cbn [messages set_chats set_active_path].
    destruct (ancestors_line db c (sp_leaf input) m) as (l' & Hlen' & Hlast' & Hl' & ->); try done; [apply Hok|].
    rewrite reverse_involutive. do 2 f_equal. unfold len in *.
    eapply (line_unique _ _ _ _ (Z.to_nat (sm_depth m))); try done; lia.
  - intros c' Hne. by eapply (path_rows_other c c' l P' db).
Qed.

(** ** Pages of recent messages *)

(** A collected page is a prefix of the rows, not empty when there are rows, and all of
    them when it says there are no more. *)
Lemma collect_rows_run limit rows collected aggregate : (forall m, m ∈ rows -> len (sm_text m) <= MAX_MESSAGE_BYTES) ->
  1 <= limit -> len collected <= limit -> 0 <= aggregate <= MAX_MESSAGE_PAGE_BYTES -> (collected = [] -> aggregate = 0) ->
  exists k more, collect_rows rows limit collected aggregate = Ok (collected ++ take k rows, more) /\
    (k <= length rows)%nat /\ len collected + Z.of_nat k <= limit /\ (collected = [] -> rows <> [] -> (0 < k)%nat) /\
    more = negb (k =? length rows)%nat.
Proof.
  revert collected aggregate. induction rows as [|m rows IH]; intros collected aggregate Hsize Hlim Hc Hagg Hnil.
  { exists 0%nat, false. cbn. rewrite app_nil_r. split_and!; (done || lia). }
  cbn [collect_rows]. destruct (Z.leb_spec limit (len collected)) as [Hfull|Hroom].
  { exists 0%nat, true. cbn. rewrite app_nil_r. split_and!; try (done || lia). intros ->. unfold len in Hfull. cbn in Hfull. lia. }
  pose proof (Hsize m ltac:(left)) as Hm. unfold MAX_MESSAGE_BYTES, MAX_MESSAGE_PAGE_BYTES, MESSAGE_PAGE_ROW_ENVELOPE_BYTES in *.
  assert (Hlen : 0 <= len (sm_text m)) by (unfold len; lia).
  rewrite checked_add_fits by (unfold USIZE_MAX, U64_MAX; lia). cbn [ok_or mbind result_bind].
  rewrite checked_add_fits by (unfold USIZE_MAX, U64_MAX; lia). cbn [ok_or mbind result_bind].
  destruct (negb (is_empty collected) && _) eqn:Hover.
  { apply andb_true_iff in Hover as [Hne _]. exists 0%nat, true. cbn. rewrite app_nil_r. split_and!; try (done || lia).
    by intros ->. }
  assert (Hfit : aggregate + (len (sm_text m) + 1024) <= 2 * 1024 * 1024).
  { destruct collected as [|x xs]; [rewrite Hnil by done; lia|]. cbn in Hover. zify_bool. lia. }
  rewrite (proj2 (Z.leb_le _ _) Hfit). cbn [ensure mbind result_bind].
  destruct (IH (collected ++ [m]) (aggregate + (len (sm_text m) + 1024))) as (k & more & -> & Hk & Hkl & _ & ->); try lia.
  - intros x Hx. apply Hsize. by right.
  - unfold len in *. rewrite length_app. cbn. lia.
  - intros Happ%app_eq_nil. by destruct Happ.
  - exists (S k), (negb (k =? length rows)%nat). cbn [take]. rewrite <- app_assoc. split_and!; try done.
    + cbn. lia.
    + unfold len in *. rewrite length_app in Hkl. cbn in Hkl. lia.
    + lia.
Qed.

Lemma bind_run {A B} (r : StorageResult A) (f : A -> StorageResult B) a : r = Ok a -> r ≫= f = f a.
Proof. by intros ->. Qed.

Lemma transpose_run {A} (f : A -> StorageResult A) o : (forall a, o = Some a -> f a = Ok a) -> transpose f o = Ok o.
Proof. destruct o as [a|]; [|done]. intros H. cbn. by rewrite (H a eq_refl). Qed.

Lemma timestamp_run t : 0 <= t <= MAX_SAFE_INTEGER -> TimestampMillis_new t = Ok t.
Proof. intros Ht. unfold TimestampMillis_new, ensure. by replace ((t <? 0) || (t >? MAX_SAFE_INTEGER)) with false by lia. Qed.

Lemma decode_message_run db k m : store_ok db -> messages db !! k = Some m -> decode_message m = Ok m.
Proof.
  intros [Hok Hex] Hm. destruct (mo_row _ _ (ok_messages _ Hok) _ _ Hm) as (_ & Hck & [ch Hch] & _).
  destruct (ok_chats _ Hok _ _ Hch) as [Hcid Hcck]. unfold chat_check in Hcck. rewrite !andb_true_iff in Hcck.
  pose proof (ex_text _ Hex _ _ Hm) as Hnul. unfold message_check in Hck. rewrite !andb_true_iff in Hck. destruct_and!.
  unfold decode_message, validate_persisted_text. rewrite Hnul, <- Hcid.
  unfold MessageId_parse, ChatId_parse. unfold between in *. zify_bool.
  replace (len (sm_text m) >? MAX_MESSAGE_BYTES) with false by (unfold MAX_MESSAGE_BYTES; lia). cbn [orb negb ensure mbind result_bind].
  do 2 (erewrite bind_run; [|by apply id_parse_run]).
  erewrite bind_run; [|apply transpose_run; intros p Hp; rewrite Hp in *; by apply id_parse_run].
  do 3 (erewrite bind_run; [|apply decode_u64_run; lia]). do 2 (erewrite bind_run; [|apply timestamp_run; lia]).
  erewrite bind_run; [done|]. apply transpose_run. intros t Ht. rewrite Ht in *. cbn in *. zify_bool. apply timestamp_run. lia.
Qed.

Lemma numbered_filter_lt {A} (l : list A) p : (p <= length l)%nat ->
  List.filter (fun row : Z * A => row.1 <? Z.of_nat p) (numbered l) = numbered (take p l).
Proof.
  revert p. induction l as [|x l IH] using rev_ind; intros p Hp; [by rewrite take_nil|].
  rewrite numbered_snoc, List.filter_app. rewrite length_app in Hp. cbn [List.filter fst]. unfold len.
  destruct (decide (p <= length l)%nat) as [Hle|Hgt].
  - rewrite IH, take_app_le, (proj2 (Z.ltb_ge _ _)) by lia. apply app_nil_r.
  - cbn in Hp. assert (p = S (length l)) as -> by lia. rewrite (proj2 (Z.ltb_lt _ _)) by lia.
    rewrite take_ge by (rewrite length_app; cbn; lia). rewrite numbered_snoc. f_equal. clear IH Hp Hgt.
    apply forallb_filter_id, forallb_forall. intros [i y] [_ Hy]%list_elem_of_In%elem_of_numbered.
    apply lookup_lt_Some in Hy. cbn [fst]. apply Z.ltb_lt. lia.
Qed.

Lemma map_snd_numbered {A} (l : list A) : map snd (numbered l) = l.
Proof. induction l as [|x l IH] using rev_ind; [done|]. by rewrite numbered_snoc, map_app, IH. Qed.

(** The cursor [before] stands for position [p] of the active path. *)
Definition cursor_at (c : str) (ms : list StoredMessage) (before : option MessageOrdinalCursor) (p : nat) : Prop :=
  match before with
  | None => p = length ms
  | Some cursor => oc_chat cursor = c /\ exists m, ms !! p = Some m /\ sm_ordinal m = oc_ordinal cursor
  end.

Definition position_of (before : option MessageOrdinalCursor) (p : nat) : option Z :=
  match before with None => None | Some _ => Some (Z.of_nat p) end.

Lemma cursor_rows c ms before p : cursor_at c ms before p ->
  map snd (List.filter (before_position (position_of before p)) (reverse (numbered ms))) = reverse (take p ms) /\ (p <= length ms)%nat.
Proof.
  intros Hc. unfold before_position, position_of. destruct before as [cur|]; cbn [opt_all].
  - destruct Hc as (_ & m & Hm & _). apply lookup_lt_Some in Hm. split; [|lia].
    rewrite <- (map_snd_numbered (take p ms)), <- numbered_filter_lt by lia.
    unfold reverse. rewrite <- !rev_alt. by rewrite List.filter_rev, map_rev.
  - cbn in Hc. subst p. split; [|done]. rewrite firstn_all. rewrite forallb_filter_id by (by apply forallb_forall).
    unfold reverse. rewrite <- !rev_alt. by rewrite map_rev, map_snd_numbered.
Qed.

(** Ordinals identify the messages of a path. *)
Definition ordinals_distinct (ms : list StoredMessage) : Prop :=
  forall i j m m', ms !! i = Some m -> ms !! j = Some m' -> sm_ordinal m = sm_ordinal m' -> i = j.

Lemma omap_head_unique {A B} (f : A -> option B) l n b : (forall i x y, l !! i = Some x -> f x = Some y -> i = n) ->
  (l !! n) ≫= f = Some b -> head (omap f l) = Some b.
Proof.
  revert n. induction l as [|x l IH]; intros n Hu Hn; [by rewrite lookup_nil in Hn|]. cbn [omap list_omap].
  destruct (f x) as [y|] eqn:Hx.
  - assert (n = 0%nat) as -> by (symmetry; eapply Hu; [|done]; done). cbn in Hn. rewrite Hx in Hn. by injection Hn as ->.
  - destruct n as [|n]; [cbn in Hn; congruence|]. apply (IH n); [|done]. intros i z w Hi Hz.
    specialize (Hu (S i) z w Hi Hz). lia.
Qed.

Lemma cursor_position_run c db ms p m : path_rows c db = numbered ms -> ordinals_distinct ms -> ms !! p = Some m ->
  cursor_position c (sm_ordinal m) db = Some (Z.of_nat p).
Proof.
  intros Hrows Hd Hp. unfold cursor_position. rewrite Hrows. apply omap_head_unique with (n := p).
  - intros i [z x] y. rewrite numbered_lookup. destruct (ms !! i) as [q|] eqn:Hi; [|done]. cbn. intros [= <- <-].
    destruct (Z.eqb_spec (sm_ordinal q) (sm_ordinal m)) as [He|]; [|done]. intros _. by eapply Hd.
  - rewrite numbered_lookup, Hp. cbn. by rewrite Z.eqb_refl.
Qed.

Lemma resolve_cursor_run c ms before p db : path_rows c db = numbered ms -> ordinals_distinct ms ->
  (forall m, m ∈ ms -> 1 <= sm_ordinal m <= MAX_SAFE_INTEGER) -> cursor_at c ms before p ->
  resolve_cursor c before db = (db, Ok (position_of before p)).
Proof.
  intros Hrows Hd Hrange. destruct before as [cur|]; [|done]. intros (Hc & m & Hm & Ho).
  destruct (Hrange m) as [Ho1 Ho2]; [by eapply list_elem_of_lookup_2|]. unfold resolve_cursor.
  rewrite st_ensure_run by (by rewrite bool_decide_eq_true_2). rewrite <- Ho.
  erewrite st_lift_run; [|by apply encode_u64_run]. rewrite st_ensure_run by (apply negb_true_iff, Z.eqb_neq; lia).
  rewrite gets_run. erewrite st_lift_run; [|by erewrite cursor_position_run]. done.
Qed.

(** What the messages of an active path satisfy. *)
Record page_ready (db : Db) (c : str) (ms : list StoredMessage) : Prop := {
  pg_rows : path_rows c db = numbered ms;
  pg_distinct : ordinals_distinct ms;
  pg_row m : m ∈ ms -> 1 <= sm_ordinal m <= MAX_SAFE_INTEGER /\ len (sm_text m) <= MAX_MESSAGE_BYTES /\ decode_message m = Ok m;
}.

Lemma store_page_ready db c : store_ok db -> exists ms, page_ready db c ms /\ (length ms <= size (messages db))%nat.
Proof.
  intros Hst. pose proof Hst as [Hok _]. destruct (po_line _ _ (ok_paths _ Hok) c) as (l & Hp & Hl).
  set (ms := line_messages (messages db) l).
  assert (Hget : forall i m, ms !! i = Some m -> l !! i = Some (sm_id m) /\ messages db !! sm_id m = Some m /\ sm_chat m = c).
  { intros i m Hi. subst ms. rewrite (line_messages_lookup _ c) in Hi by done. destruct (l !! i) as [id|] eqn:Hid; [|done].
    cbn in Hi. destruct (mo_row _ _ (ok_messages _ Hok) _ _ Hi) as (-> & _). split_and!; try done.
    destruct (Hl i id Hid) as (q & ? & ? & _). congruence. }
  exists ms. split; [split|].
  - by apply path_rows_numbered.
  - intros i j m m' Hi Hj He. destruct (Hget _ _ Hi) as (Hli & Hm & Hc), (Hget _ _ Hj) as (Hlj & Hm' & Hc').
    pose proof (mo_ordinal _ _ (ok_messages _ Hok) _ _ _ _ Hm Hm' ltac:(congruence) He) as Hid. rewrite Hid in Hli.
    pose proof (line_NoDup _ _ _ Hl) as Hn. by eapply NoDup_lookup.
  - intros m (i & Hi)%list_elem_of_lookup. destruct (Hget _ _ Hi) as (_ & Hm & _).
    destruct (mo_row _ _ (ok_messages _ Hok) _ _ Hm) as (_ & Hck & _). unfold message_check, between in Hck. zify_bool.
    split_and!; [lia|lia|unfold MAX_MESSAGE_BYTES; lia|by eapply decode_message_run].
  - subst ms. rewrite (line_messages_length _ c) by done. by eapply line_length.
Qed.

Lemma mapM_decode_run ms : (forall m, m ∈ ms -> decode_message m = Ok m) -> mapM_result decode_message ms = Ok ms.
Proof.
  intros H. apply mapM_result_Ok. induction ms as [|m ms IH]; constructor; [apply H; left|].
  apply IH. intros x Hx. apply H. by right.
Qed.

Lemma reverse_take_reverse {A} (l : list A) k : reverse (take k (reverse l)) = drop (length l - k) l.
Proof. unfold reverse. rewrite <- !rev_alt, firstn_rev, rev_involutive. done. Qed.

Lemma finish_page_run c page more :
  (forall m, m ∈ page -> 1 <= sm_ordinal m <= MAX_SAFE_INTEGER /\ decode_message m = Ok m) ->
  finish_recent_message_page c (reverse page) more =
  Ok (mkRecentPage page (if more then (fun m => mkOrdinalCursor c (sm_ordinal m)) <$> head page else None)).
Proof.
  intros Hpage. unfold finish_recent_message_page. rewrite mapM_decode_run.
  2: { intros m Hm. rewrite elem_of_reverse in Hm. by apply Hpage. }
  cbn [mbind result_bind]. rewrite reverse_involutive. destruct more; [|done]. destruct page as [|m page]; [done|].
  destruct (Hpage m) as [Ho _]; [left|]. cbn [head transpose fmap option_fmap option_map].
  unfold MessageOrdinalCursor_new, ensure. replace ((sm_ordinal m =? 0) || (sm_ordinal m >? MAX_SAFE_INTEGER)) with false; [done|].
  symmetry. apply orb_false_iff. split; [apply Z.eqb_neq; lia|rewrite Z.gtb_ltb; apply Z.ltb_ge; lia].
Qed.

Lemma page_run db c ms before p limit : page_ready db c ms -> is_Some (chats db !! c) -> 1 <= limit <= MAX_PAGE_SIZE ->
  cursor_at c ms before p -> exists q next,
    load_recent_messages c before limit db = (db, Ok (mkRecentPage (drop q (take p ms)) next)) /\
    match next with None => q = 0%nat | Some cur => (q < p)%nat /\ cursor_at c ms (Some cur) q end.
Proof.
  intros [Hrows Hd Hrow] [ch Hch] Hlim Hcur. destruct (cursor_rows c ms before p Hcur) as [Hfilter Hple].
  set (old := take p ms) in *. assert (Hold : length old = p) by (subst old; rewrite length_take; lia).
  assert (Hin : forall m, m ∈ old -> m ∈ ms) by (intros m; apply (subseteq_take p)).
  set (rows := take (Z.to_nat (limit + 1)) (reverse old)).
  assert (Hlen : length rows = (Z.to_nat (limit + 1) `min` p)%nat) by (subst rows; by rewrite length_take, length_reverse, Hold).
  assert (Hrin : forall m, m ∈ rows -> m ∈ ms).
  { intros m Hm. apply Hin, elem_of_reverse. revert Hm. apply (subseteq_take (Z.to_nat (limit + 1))). }
  destruct (collect_rows_run limit rows [] 0) as (k & more & Hcol & Hk & Hkl & Hpos & Hmore).
  { intros m Hm. by apply Hrow, Hrin. } { lia. } { unfold len. cbn. lia. } { unfold MAX_MESSAGE_PAGE_BYTES. lia. } { done. }
  cbn [app] in Hcol. change (len (@nil StoredMessage)) with 0 in Hkl.
  assert (Hpage : reverse (take k rows) = drop (p - k) old).
  { subst rows. rewrite take_take, Nat.min_l by lia. by rewrite reverse_take_reverse, Hold. }
  exists (p - k)%nat, (if more then (fun m => mkOrdinalCursor c (sm_ordinal m)) <$> head (drop (p - k) old) else None).
  split.
  - unfold load_recent_messages, validate_page_size. rewrite st_ensure_run.
    2: { apply negb_true_iff, orb_false_iff. split; [apply Z.eqb_neq; lia|rewrite Z.gtb_ltb; apply Z.ltb_ge; lia]. }
    erewrite st_bind_run; [|unfold ensure_chat_exists; rewrite gets_run, Hch; done].
    erewrite st_bind_run; [|apply (resolve_cursor_run c ms before p db); try done; intros m Hm; by apply Hrow].
    rewrite gets_run, Hrows, Hfilter. fold rows. erewrite st_lift_run; [|exact Hcol]. cbn [fst snd].
    unfold st_lift. rewrite <- (reverse_involutive (take k rows)), Hpage. rewrite finish_page_run; [done|].
    intros m Hm. destruct (Hrow m) as (? & _ & ?); [|done]. apply Hin. revert Hm. apply (subseteq_drop (p - k)).
  - rewrite Hmore. destruct (Nat.eqb_spec k (length rows)) as [->|Hne]; cbn [negb]; [lia|].
    assert (Hk0 : (0 < k)%nat).
    { apply Hpos; [done|]. intros E. rewrite E in Hne, Hk. cbn in Hne, Hk. lia. }
    destruct (lookup_lt_is_Some_2 ms (p - k)) as [m Hm]; [lia|].
    assert (Hh : head (drop (p - k) old) = Some m).
    { destruct (drop (p - k) old) as [|x xs] eqn:E.
      - apply (f_equal length) in E. rewrite length_drop, Hold in E. cbn in E. lia.
      - cbn. rewrite <- Hm. transitivity (drop (p - k) old !! 0%nat); [by rewrite E|].
        rewrite lookup_drop, Nat.add_0_r. subst old. rewrite lookup_take_lt by lia. done. }
    rewrite Hh. cbn. split_and!; [lia|done|by exists m].
Qed.

(** Follow the cursors from the newest page to the oldest. *)
Fixpoint read_back (fuel : nat) (c : str) (before : option MessageOrdinalCursor) (limit : Z) (db : Db) :
    option (list StoredMessage) :=
  match fuel with
  | O => None
  | S fuel' =>
      match (load_recent_messages c before limit db).2 with
      | Ok page =>
          match rp_older page with
          | None => Some (rp_messages page)
          | Some cursor => (fun older => older ++ rp_messages page) <$> read_back fuel' c (Some cursor) limit db
          end
      | Err _ => None
      end
  end.

Lemma read_back_run db c ms before p limit fuel : page_ready db c ms -> is_Some (chats db !! c) ->
  1 <= limit <= MAX_PAGE_SIZE -> cursor_at c ms before p -> (p < fuel)%nat ->
  read_back fuel c before limit db = Some (take p ms).
Proof.
  intros Hr Hch Hlim. revert before p. induction fuel as [|fuel IH]; intros before p Hcur Hf; [lia|]. cbn [read_back].
  destruct (page_run db c ms before p limit Hr Hch Hlim Hcur) as (q & next & -> & Hnext). cbn [snd rp_older rp_messages].
  destruct next as [cur|].
  - destruct Hnext as [Hlt Hnext].
    rewrite (IH (Some cur) q) by (done || lia). cbn. f_equal.
    replace (take q ms) with (take q (take p ms)) by (rewrite take_take; f_equal; lia). apply take_drop.
  - subst q. by rewrite drop_0.
Qed.

(** ** Guarantees *)

Section guarantees.
Variable ops : list StoreOp.
#[local] Notation db := (run_history ops empty_db).

Lemma reached_ok : store_ok db.
Proof. apply store_ok_history, store_ok_empty. Qed.

(** C11: After any history of calls, failed ones and restarts included, the rows pass the
    checks on branches, active paths and stream journals that [migration.rs] runs, and a
    chat has at most one running request, whose assistant message is partial. *)
Theorem store_stays_well_formed :
  verify_branch_rows db = Ok tt /\ verify_stream_journal_rows db = Ok tt /\
  (forall k1 k2 r1 r2, requests db !! k1 = Some r1 -> requests db !! k2 = Some r2 -> is_running r1 = true ->
     is_running r2 = true -> rs_chat r1 = rs_chat r2 -> k1 = k2) /\
  (forall k r, requests db !! k = Some r -> is_running r = true ->
     exists m, messages db !! rs_assistant r = Some m /\ sm_status m = MessagePartial).
Proof.
  destruct reached_ok as [Hok _]. split_and!.
  - by apply verify_branch_rows_ok.
  - by apply verify_stream_journal_rows_ok.
  - apply (ok_requests _ Hok).
  - intros k r Hr Hrun. destruct (ro_partial _ _ _ (ok_requests _ Hok) _ _ Hr Hrun) as (m & ? & ? & _). eauto.
Qed.

(** A call that returns an error changes no table. *)
Theorem failed_call_changes_nothing op d d' e : exec op d = (d', Err e) -> d' = d.
Proof. apply (atomic (m := exec op)). Qed.

Definition deletes (op : StoreOp) : bool := match op with OpDeleteChat _ => true | _ => false end.

Lemma journal_history later d id j : store_ok d -> forallb (fun op => negb (deletes op)) later = true ->
  journal_of id d = Some j -> exists j', journal_of id (run_history later d) = Some j' /\ rtc JournalStep j j'.
Proof.
  revert d j. induction later as [|op later IH]; intros d j Hok Hdel Hj; [by exists j|]. cbn in Hdel |- *. zify_bool.
  destruct (exec_journal op d id j Hok) as (j1 & Hj1 & Hs1); [by intros c ->|done|].
  destruct (IH _ _ (store_ok_step op d Hok) ltac:(done) Hj1) as (j' & Hj' & Hs'). exists j'. split; [done|].
  destruct Hs1 as [-> |Hs1]; [done|by eapply rtc_l].
Qed.

(** C12: From any reached state on, and for as long as no chat is deleted, the request of a
    turn and the text of its answer follow the abstract journal: events delivered one by
    one, durable prefixes with their text appended, acknowledgements of durable events, one
    end. *)
Theorem journal_refines_log later id j : forallb (fun op => negb (deletes op)) later = true ->
  journal_of id db = Some j ->
  exists j', journal_of id (run_history later db) = Some j' /\ rtc JournalStep j j'.
Proof. intros. by apply journal_history; [apply reached_ok|..]. Qed.

Lemma finished_steps j j' : rtc JournalStep j j' -> j_status j <> RequestRunning ->
  j_status j' = j_status j /\ j_text j' = j_text j /\ j_delivered j' = j_delivered j /\ j_durable j' = j_durable j.
Proof.
  induction 1 as [|j j1 j' Hs _ IH]; [done|]. intros Hf.
  assert (Hj1 : j_status j1 = j_status j /\ j_text j1 = j_text j /\ j_delivered j1 = j_delivered j /\ j_durable j1 = j_durable j).
  { destruct Hs; cbn in *; done. }
  destruct Hj1 as (E1 & E2 & E3 & E4). rewrite E1 in IH. destruct (IH Hf) as (-> & -> & -> & ->). done.
Qed.

(** A turn ends once: whatever is called afterwards, restarts included, its outcome,
    its text and its sequence numbers stay as they are until the chat is deleted. *)
Theorem finished_turn_is_final later id j : forallb (fun op => negb (deletes op)) later = true ->
  journal_of id db = Some j -> j_status j <> RequestRunning ->
  exists j', journal_of id (run_history later db) = Some j' /\ j_status j' = j_status j /\ j_text j' = j_text j /\
    j_delivered j' = j_delivered j /\ j_durable j' = j_durable j.
Proof.
  intros Hdel Hj Hf. destruct (journal_history later db id j reached_ok Hdel Hj) as (j' & Hj' & Hs).
  exists j'. split; [done|]. by apply finished_steps.
Qed.

(** C13: Opening the store again succeeds and leaves no request running: one that was
    running is interrupted, with the restart as its failure, one that had ended stays as it
    was, no sequence number or acknowledgement of any request changes, and no message
    changes its text. *)
Theorem restart_interrupts_running at_ms : valid_time at_ms = true ->
  exists db', recover_interrupted_requests at_ms db = (db', Ok (len (running_rows db))) /\ running_rows db' = [] /\
    (forall id, journal_of id db' = interrupted_journal <$> journal_of id db) /\
    (forall id r, requests db !! id = Some r -> is_running r = true ->
       rs_failure <$> requests db' !! id = Some (Some AppRestarted)) /\
    (forall id r, requests db !! id = Some r -> is_running r = false -> requests db' !! id = Some r) /\
    (forall k, sm_text <$> messages db' !! k = sm_text <$> messages db !! k).
Proof.
  intros Hat. exists (recover_rows at_ms db).
  split_and!; [apply recover_run; [apply reached_ok|done]|apply recovered_not_running|apply recover_journal| | |apply recovered_text];
    intros id r Hr Hrun; cbn; by rewrite lookup_fmap, Hr; cbn; rewrite Hrun.
Qed.

(** C14: Selecting any message of a chat succeeds when the caller names the current leaf,
    and the path that the incremental update leaves is the whole ancestry of that message,
    root first; the paths of other chats and the messages stay. *)
Theorem selected_path_is_ancestry input m : messages db !! sp_leaf input = Some m -> sm_chat m = sp_chat input ->
  sm_depth m <= MAX_BRANCH_DEPTH -> sp_expected input = leaf_of (sp_chat input) db -> sp_at input <= MAX_SAFE_INTEGER ->
  exists db', select_active_path input db = (db', Ok (mkPathSelection (sp_chat input) (sp_leaf input) (sm_depth m + 1))) /\
    messages db' = messages db /\
    path_rows (sp_chat input) db' = numbered (reverse (ancestors (sp_chat input) (sp_leaf input) db)) /\
    (forall c, c <> sp_chat input -> path_rows c db' = path_rows c db).
Proof. intros. apply select_active_path_run; try done. apply reached_ok. Qed.

(** C15: Reading a chat backwards page by page, whatever the page size, ends and gives every
    message of the active path exactly once, in order. *)
Theorem recent_pages_cover_path c limit : is_Some (chats db !! c) -> 1 <= limit <= MAX_PAGE_SIZE ->
  read_back (S (size (messages db))) c None limit db = Some (map snd (path_rows c db)).
Proof.
  intros Hch Hlim. destruct (store_page_ready db c reached_ok) as (ms & Hready & Hsize).
  rewrite (read_back_run db c ms None (length ms)) by (done || lia). rewrite firstn_all.
  by rewrite (pg_rows _ _ _ Hready), map_snd_numbered.
Qed.
End guarantees.

(** ** A conversation *)

Module ChatExample.

Definition hexid (b : byte) : str := replicate 32 b.
Definition chat_id : str := hexid (byte_of 97).
Definition request_id : str := hexid (byte_of 98).
Definition user_id : str := hexid (byte_of 49).
Definition assistant_id : str := hexid (byte_of 50).
Definition branch_id : str := hexid (byte_of 51).
Definition generation : str := hexid (byte_of 52).
Definition owner : str := lit "main".

Definition opening : list StoreOp :=
  [ OpCreateChat chat_id (mkCreateChat (lit "aria") (lit "First chat") 10);
    OpBeginTurn request_id user_id assistant_id
      (mkBeginTurn chat_id (mkSelection StOpenAi (lit "gpt")) owner generation (lit "Hello") 11);
    OpRecordDelivery (mkDelivery request_id owner generation 0 1 12);
    OpCheckpoint (mkCheckpoint request_id owner generation 0 1 (lit "Hi ") None None 13);
    OpRecordDelivery (mkDelivery request_id owner generation 1 2 14) ].

Definition ending : list StoreOp :=
  [ OpFinishTurn (mkCheckpoint request_id owner generation 1 2 (lit "there") None None 15) OutcomeCompleted ].

(** A second answer to the same message, and the first one selected again. *)
Definition branching : list StoreOp :=
  [ OpAppend branch_id (mkAppend chat_id (Some user_id) (Some assistant_id) RoleAssistant (lit "Yes?") 16) ].

Definition selection : SelectActivePath := mkSelectPath chat_id (Some branch_id) assistant_id 17.

Definition first_answer : StoredMessage :=
  mkMessage assistant_id chat_id (Some user_id) 1 1 2 RoleAssistant MessageComplete (lit "Hi there") 11 15 (Some 15).

Lemma failed_call_witness : exec (OpGetChat chat_id) empty_db = (empty_db, Err (NotFound "chat")) /\ empty_db = empty_db.
Proof.
  split; [reflexivity|].
  apply (failed_call_changes_nothing (OpGetChat chat_id) empty_db empty_db (NotFound "chat")). reflexivity.
Defined.

Lemma journal_refines_witness :
  exists j', journal_of request_id (run_history (ending ++ [OpOpen 20]) (run_history opening empty_db)) = Some j' /\
    rtc JournalStep (mkJournal RequestRunning 2 1 None (lit "Hi ")) j'.
Proof.
  apply (journal_refines_log opening (ending ++ [OpOpen 20]) request_id); [reflexivity|]. by vm_compute.
Defined.

Lemma finished_turn_witness :
  exists j', journal_of request_id (run_history [OpOpen 20] (run_history (opening ++ ending) empty_db)) = Some j' /\
    j_status j' = RequestCompleted /\ j_text j' = lit "Hi there" /\ j_delivered j' = 2 /\ j_durable j' = 2.
Proof.
  apply (finished_turn_is_final (opening ++ ending) [OpOpen 20] request_id (mkJournal RequestCompleted 2 2 None (lit "Hi there")));
    [reflexivity|by vm_compute|done].
Defined.

Lemma restart_witness : valid_time 20 = true /\
  exists db', recover_interrupted_requests 20 (run_history opening empty_db) = (db', Ok (len (running_rows (run_history opening empty_db)))) /\
    running_rows db' = [] /\
    (forall id, journal_of id db' = interrupted_journal <$> journal_of id (run_history opening empty_db)) /\
    (forall id r, requests (run_history opening empty_db) !! id = Some r -> is_running r = true ->
       rs_failure <$> requests db' !! id = Some (Some AppRestarted)) /\
    (forall id r, requests (run_history opening empty_db) !! id = Some r -> is_running r = false -> requests db' !! id = Some r) /\
    (forall k, sm_text <$> messages db' !! k = sm_text <$> messages (run_history opening empty_db) !! k).
Proof. split; [reflexivity|]. apply (restart_interrupts_running opening 20). reflexivity. Defined.

Lemma selected_path_witness :
  exists db', select_active_path selection (run_history (opening ++ ending ++ branching) empty_db)
      = (db', Ok (mkPathSelection chat_id assistant_id 2)) /\
    messages db' = messages (run_history (opening ++ ending ++ branching) empty_db) /\
    path_rows chat_id db' = numbered (reverse (ancestors chat_id assistant_id (run_history (opening ++ ending ++ branching) empty_db))) /\
    (forall c, c <> chat_id -> path_rows c db' = path_rows c (run_history (opening ++ ending ++ branching) empty_db)).
Proof.
  apply (selected_path_is_ancestry (opening ++ ending ++ branching) selection first_answer);
    [by vm_compute|done|done|by vm_compute|done].
Defined.

Lemma recent_pages_witness :
  read_back (S (size (messages (run_history (opening ++ ending ++ branching) empty_db)))) chat_id None 1
      (run_history (opening ++ ending ++ branching) empty_db) =
  Some (map snd (path_rows chat_id (run_history (opening ++ ending ++ branching) empty_db))).
Proof.
  apply (recent_pages_cover_path (opening ++ ending ++ branching) chat_id 1); [|done].
  by apply (bool_decide_unpack _); vm_compute.
Defined.

End ChatExample.
