(* ===== verification/StreamBridge.v ===== *)
(** * Provider streams: tasks

    The tasks of [apps/desktop-mobile/src-tauri/src/provider_stream.rs] that share one
    stream: the bridge, which forwards the events of the provider to the reader's channel
    and to storage and ends the turn, and the commands and the watchdog that run beside
    it.

    [Live] is what they share.  The bridge is a computation of [Faults]: at every point
    where it awaits ([interfere]) an oracle says which steps the other tasks take, and a
    step ([OtherStep]) is what one of them does while it holds the lock of the machine or
    runs one storage call, so every interleaving of critical sections is some oracle.
    Other oracles say which storage calls are refused and when the channel is closed.  A
    run is watched until its [cutoff]: the first await after it ends the run with
    [Err None].  What holds of every run with every cutoff holds at every await. *)

From stdpp Require Import gmap.
From S2P Require Import Prelude Bytes Utf8 Float64 Json ProviderConfig ProviderCompile RuntimeError ChatModel ChatStore ChatInvariant ChatHistory ChatGuarantees Faults.

(** * Provider streams: state and pure parts

    [apps/desktop-mobile/src-tauri/src/provider_stream.rs] without its tasks: errors,
    channel events, the state machine of a stream, the registry of streams, the request
    built from a stored conversation and the failure codes; and the errors of
    [storage_commands.rs].  Instants are milliseconds of a monotonic clock. *)

Definition MAX_ACTIVE_STREAMS : Z := 128.
Definition MAX_IN_FLIGHT : Z := 4.
Definition ACK_TIMEOUT : Z := 30000.
Definition DIRECT_CHANNEL_BUDGET_BYTES : Z := 4096.
Definition MAX_DELTA_FRAGMENT_BYTES : nat := 512.
Definition MAX_WIRE_SEQUENCE : Z := 9007199254740991.
Definition MAX_NON_TERMINAL_SEQUENCE : Z := MAX_WIRE_SEQUENCE - 1.
Definition PER_STREAM_IN_FLIGHT_RESERVATION_BYTES : Z := DIRECT_CHANNEL_BUDGET_BYTES * (MAX_IN_FLIGHT + 1).
Definition GLOBAL_IN_FLIGHT_RESERVATION_BYTES : Z := PER_STREAM_IN_FLIGHT_RESERVATION_BYTES * MAX_ACTIVE_STREAMS.
Definition CHAT_MAX_INPUT_BYTES : Z := 64 * 1024.
Definition CHAT_MAX_OUTPUT_TOKENS : Z := 512.
Definition CHAT_HISTORY_LOAD_LIMIT : Z := 64.
Definition CHAT_CONTEXT_MAX_UTF8_BYTES : Z := 256 * 1024.
Definition STORAGE_FLUSH_BYTES : Z := 4 * 1024.
Definition STORAGE_FLUSH_INTERVAL : Z := 250.
Definition TERMINAL_STORAGE_RETRIES : nat := 2.

(** ** Errors *)

Record StorageCommandError : Type := mkStorageCommandError { sce_code : string; sce_message : string }.

(** [StorageCommandError::from_storage]. *)
Definition StorageCommandError_from_storage (error : StorageError) : StorageCommandError :=
  match error with
  | FutureSchema _ _ => mkStorageCommandError "STORAGE_SCHEMA_TOO_NEW" "local storage was created by a newer app version"
  | IncompatibleSchema _ => mkStorageCommandError "STORAGE_INCOMPATIBLE" "local storage schema is incompatible"
  | PathUnavailable | ClockBeforeEpoch => mkStorageCommandError "STORAGE_UNAVAILABLE" "local storage is unavailable"
  | NotFound entity =>
      if String.eqb entity "chat" then mkStorageCommandError "CHAT_NOT_FOUND" "chat was not found"
      else mkStorageCommandError "STORAGE_WRITE_FAILED" "local storage operation failed"
  | Conflict entity =>
      if String.eqb entity "chat with an active request"
      then mkStorageCommandError "CHAT_ACTIVE_STREAM" "chat has an active response"
      else if String.eqb entity "settings revision"
      then mkStorageCommandError "SETTINGS_CONFLICT" "settings changed concurrently"
      else if String.eqb entity "database lease"
      then mkStorageCommandError "STORAGE_ALREADY_OPEN" "local storage is already open by another app instance"
      else mkStorageCommandError "STORAGE_WRITE_FAILED" "local storage operation failed"
  | InvalidInput _ _ => mkStorageCommandError "STORAGE_INPUT_INVALID" "storage input is invalid"
  | SnapshotCancelled => mkStorageCommandError "STORAGE_OPERATION_CANCELLED" "storage operation was cancelled"
  | InvalidState _ _ | SequenceMismatch _ _ | Database =>
      mkStorageCommandError "STORAGE_WRITE_FAILED" "local storage operation failed"
  end.

Record ProviderCommandError : Type := mkCommandError {
  ce_code : str;
  ce_message : str;
  ce_http_status : option Z;
  ce_retriable : bool;
  ce_runtime_kind : option RuntimeErrorKind;
}.

#[export] Instance ProviderCommandError_eq_dec : EqDecision ProviderCommandError.
Proof. solve_decision. Defined.

Definition command_error (code message : string) : ProviderCommandError :=
  mkCommandError (truncate_utf8 (lit code) 64) (truncate_utf8 (lit message) 512) None false None.

Definition from_runtime (error : RuntimeError) : ProviderCommandError :=
  mkCommandError (truncate_utf8 (RuntimeError.code error) 64) (truncate_utf8 (RuntimeError.message error) 512)
    (RuntimeError.http_status error) (is_retriable error) (Some (RuntimeError.kind error)).

Definition from_storage (error : StorageCommandError) : ProviderCommandError :=
  command_error (sce_code error) (sce_message error).

(** ** Personas *)

Inductive NativeCharacterPersona : Type := Seraphine | Kai | Mira | Yoonseul | Roen | Adel | Noah | Isol.

Definition from_character_id (character_id : str) : option NativeCharacterPersona :=
  if bool_decide (character_id = lit "seraphine") then Some Seraphine
  else if bool_decide (character_id = lit "kai") then Some Kai
  else if bool_decide (character_id = lit "mira") then Some Mira
  else if bool_decide (character_id = lit "yoonseul") then Some Yoonseul
  else if bool_decide (character_id = lit "roen") then Some Roen
  else if bool_decide (character_id = lit "adel") then Some Adel
  else if bool_decide (character_id = lit "noah") then Some Noah
  else if bool_decide (character_id = lit "isol") then Some Isol
  else None.

Definition persona_system_prompt (persona : NativeCharacterPersona) : str :=
  match persona with
  | Seraphine => lit "You are Seraphine, the gentle librarian of an archive that opens only under moonlight. You thoughtfully recommend books and stories, and speak with quiet warmth. Stay in character, answer naturally in the user's language, and never claim access to tools, memories, or facts that are not included in this request."
  | Kai => lit "You are Kai, a solitary lighthouse keeper who counts stars and speaks over a distant radio. Use calm, plain language with occasional imagery of waves, weather, and the night sky. Stay in character, answer naturally in the user's language, and never claim access to tools, memories, or facts that are not included in this request."
  | Mira => lit "You are Mira, a curious cartographer who maps a sleeping city whose alleys subtly change each night. Be observant, imaginative, and gently invite shared exploration without presenting fictional places as real-world facts. Stay in character, answer naturally in the user's language, and never claim access to tools, memories, or facts that are not included in this request."
  | Yoonseul => lit "You are Yoonseul, a warm sea-mail carrier who finds letters set adrift on the waves and delivers them with care. Speak sincerely and use light imagery of letters, tides, and waiting replies. Stay in character, answer naturally in the user's language, and never claim access to tools, memories, or facts that are not included in this request."
  | Roen => lit "You are Roen, a patient tailor who mends worn clothing and helps people put tender memories into words. Favor gentle questions and accept imperfect traces instead of promising to alter or retrieve real memories. Stay in character, answer naturally in the user's language, and never claim access to tools, memories, or facts that are not included in this request."
  | Adel => lit "You are Adel, the courteous conductor of a final train that departs after midnight. Speak politely and without hurry, using restrained journey and station imagery while letting the user choose their destination. Stay in character, answer naturally in the user's language, and never claim access to tools, memories, or facts that are not included in this request."
  | Noah => lit "You are Noah, a relaxed late-night radio DJ whose broadcast is heard on rainy days. Listen without prying, respond with empathy, and frame suggestions like dedications without claiming to play audio or quote song lyrics. Stay in character, answer naturally in the user's language, and never claim access to tools, memories, or facts that are not included in this request."
  | Isol => lit "You are Isol, a kind astronomer who records dreams beside observations of the stars. Be quietly curious and poetic, but never present dream interpretation, divination, or imagined constellations as established fact. Stay in character, answer naturally in the user's language, and never claim access to tools, memories, or facts that are not included in this request."
  end.

Definition native_character_system_prompt (character_id : str) : result ProviderCommandError str :=
  ok_or (persona_system_prompt <$> from_character_id character_id)
    (command_error "CHAT_CHARACTER_UNSUPPORTED" "this chat's character is not supported by the native persona registry").

(** ** Channel events *)

Inductive ProviderChannelEvent : Type :=
  | EvStarted (seq max_in_flight : Z)
  | EvProviderResponseId (seq : Z) (id : str)
  | EvTextDelta (seq : Z) (text : str)
  | EvReasoningDelta (seq : Z) (text : str)
  | EvRefusalDelta (seq : Z) (text : str)
  | EvUsage (seq : Z) (usage : TokenUsage)
  | EvCompleted (seq : Z) (reason : option CompletionReason) (usage : option TokenUsage)
  | EvCancelled (seq : Z)
  | EvFailed (seq : Z) (error : ProviderCommandError).

Inductive TerminalReceipt : Type :=
  | ReceiptCompleted (seq : Z) (reason : option CompletionReason) (usage : option TokenUsage)
  | ReceiptCancelled (seq : Z)
  | ReceiptFailed (seq : Z) (error : ProviderCommandError).

Definition receipt_seq (r : TerminalReceipt) : Z :=
  match r with ReceiptCompleted seq _ _ | ReceiptCancelled seq | ReceiptFailed seq _ => seq end.

Definition event_seq (e : ProviderChannelEvent) : Z :=
  match e with
  | EvStarted seq _ | EvProviderResponseId seq _ | EvTextDelta seq _ | EvReasoningDelta seq _ | EvRefusalDelta seq _
  | EvUsage seq _ | EvCompleted seq _ _ | EvCancelled seq | EvFailed seq _ => seq
  end.

Inductive TerminalKind : Type :=
  | KindCompleted (reason : option CompletionReason) (usage : option TokenUsage)
  | KindCancelled
  | KindFailed (error : ProviderCommandError).

Inductive DeltaKind : Type := DeltaText | DeltaReasoning | DeltaRefusal.

(** ** The state machine of a stream *)

Record StreamMachine : Type := mkMachine {
  last_sent_seq : Z;
  acknowledged_through : option Z;
  last_durable_seq : Z;
  persisted_acked_through : option Z;
  flush_requested_through : option Z;
  ack_deadline : option Z;
  pending_send_seq : option Z;
  lease_failure : option ProviderCommandError;
  terminal : option TerminalReceipt;
  terminal_snapshot_returned : bool;
  terminal_committing : bool;
}.

Definition after_started (now : Z) : StreamMachine :=
  mkMachine 0 None 0 None None (Some (now + ACK_TIMEOUT)) None None None false false.

Definition set_ack_deadline (d : option Z) (m : StreamMachine) : StreamMachine :=
  mkMachine (last_sent_seq m) (acknowledged_through m) (last_durable_seq m) (persisted_acked_through m)
    (flush_requested_through m) d (pending_send_seq m) (lease_failure m) (terminal m) (terminal_snapshot_returned m)
    (terminal_committing m).
Definition set_acknowledged (a : option Z) (m : StreamMachine) : StreamMachine :=
  mkMachine (last_sent_seq m) a (last_durable_seq m) (persisted_acked_through m)
    (flush_requested_through m) (ack_deadline m) (pending_send_seq m) (lease_failure m) (terminal m) (terminal_snapshot_returned m)
    (terminal_committing m).
Definition set_persisted_acked (a : option Z) (m : StreamMachine) : StreamMachine :=
  mkMachine (last_sent_seq m) (acknowledged_through m) (last_durable_seq m) a
    (flush_requested_through m) (ack_deadline m) (pending_send_seq m) (lease_failure m) (terminal m) (terminal_snapshot_returned m)
    (terminal_committing m).
Definition set_flush_requested (f : option Z) (m : StreamMachine) : StreamMachine :=
  mkMachine (last_sent_seq m) (acknowledged_through m) (last_durable_seq m) (persisted_acked_through m)
    f (ack_deadline m) (pending_send_seq m) (lease_failure m) (terminal m) (terminal_snapshot_returned m)
    (terminal_committing m).
Definition set_durable (d : Z) (m : StreamMachine) : StreamMachine :=
  mkMachine (last_sent_seq m) (acknowledged_through m) d (persisted_acked_through m)
    (flush_requested_through m) (ack_deadline m) (pending_send_seq m) (lease_failure m) (terminal m) (terminal_snapshot_returned m)
    (terminal_committing m).
Definition set_pending (p : option Z) (m : StreamMachine) : StreamMachine :=
  mkMachine (last_sent_seq m) (acknowledged_through m) (last_durable_seq m) (persisted_acked_through m)
    (flush_requested_through m) (ack_deadline m) p (lease_failure m) (terminal m) (terminal_snapshot_returned m)
    (terminal_committing m).
Definition set_last_sent (s : Z) (m : StreamMachine) : StreamMachine :=
  mkMachine s (acknowledged_through m) (last_durable_seq m) (persisted_acked_through m)
    (flush_requested_through m) (ack_deadline m) (pending_send_seq m) (lease_failure m) (terminal m) (terminal_snapshot_returned m)
    (terminal_committing m).
Definition set_lease_failure (e : option ProviderCommandError) (m : StreamMachine) : StreamMachine :=
  mkMachine (last_sent_seq m) (acknowledged_through m) (last_durable_seq m) (persisted_acked_through m)
    (flush_requested_through m) (ack_deadline m) (pending_send_seq m) e (terminal m) (terminal_snapshot_returned m)
    (terminal_committing m).
Definition set_terminal (t : option TerminalReceipt) (m : StreamMachine) : StreamMachine :=
  mkMachine (last_sent_seq m) (acknowledged_through m) (last_durable_seq m) (persisted_acked_through m)
    (flush_requested_through m) (ack_deadline m) (pending_send_seq m) (lease_failure m) t (terminal_snapshot_returned m)
    (terminal_committing m).
Definition set_snapshot_returned (b : bool) (m : StreamMachine) : StreamMachine :=
  mkMachine (last_sent_seq m) (acknowledged_through m) (last_durable_seq m) (persisted_acked_through m)
    (flush_requested_through m) (ack_deadline m) (pending_send_seq m) (lease_failure m) (terminal m) b
    (terminal_committing m).
Definition set_committing (b : bool) (m : StreamMachine) : StreamMachine :=
  mkMachine (last_sent_seq m) (acknowledged_through m) (last_durable_seq m) (persisted_acked_through m)
    (flush_requested_through m) (ack_deadline m) (pending_send_seq m) (lease_failure m) (terminal m)
    (terminal_snapshot_returned m) b.

Definition acknowledged_count (m : StreamMachine) : Z :=
  match acknowledged_through m with None => 0 | Some sequence => saturating_add U64_MAX sequence 1 end.

Definition in_flight (m : StreamMachine) : Z :=
  saturating_sub (saturating_add U64_MAX (last_sent_seq m) 1) (acknowledged_count m).

Definition can_evict (m : StreamMachine) : bool :=
  match terminal m with
  | None => false
  | Some receipt => terminal_snapshot_returned m &&
                    match acknowledged_through m with None => false | Some acked => receipt_seq receipt <=? acked end
  end.

Definition beyond (seq : Z) (o : option Z) : bool := match o with None => true | Some a => a <? seq end.

Definition record_ack_progress (now seq : Z) (m : StreamMachine) : StreamMachine :=
  let progressed := beyond seq (acknowledged_through m) in
  let m' := set_acknowledged (Some seq) m in
  if in_flight m' =? 0 then set_ack_deadline None m'
  else if progressed then set_ack_deadline (Some (now + ACK_TIMEOUT)) m' else m'.

Definition note_ack_activity (now seq : Z) (m : StreamMachine) : StreamMachine :=
  if beyond seq (acknowledged_through m) then set_ack_deadline (Some (now + ACK_TIMEOUT)) m else m.

Definition request_flush_through (seq : Z) (m : StreamMachine) : StreamMachine :=
  if last_durable_seq m <? seq
  then set_flush_requested (Some (match flush_requested_through m with None => seq | Some r => Z.max r seq end)) m
  else m.

Definition publish_durable (seq : Z) (m : StreamMachine) : StreamMachine :=
  let durable := Z.max (last_durable_seq m) seq in
  let m' := set_durable durable m in
  match flush_requested_through m' with
  | Some requested => if requested <=? durable then set_flush_requested None m' else m'
  | None => m'
  end.

Definition next_wire_sequence (last_sent maximum : Z) : result ProviderCommandError Z :=
  ok_or (match checked_add U64_MAX last_sent 1 with
         | Some next => if next <=? maximum then Some next else None
         | None => None
         end)
    (command_error "STREAM_SEQUENCE_EXHAUSTED" "provider stream exhausted its JavaScript-safe sequence budget").

(** ** The registry *)

(** What never changes in a [StreamRequestState]; [ri_address] stands for the address of
    its [Arc]. *)
Record StreamIdentity : Type := mkIdentity {
  ri_owner : str;
  ri_generation : str;
  ri_token : str;
  ri_address : nat;
}.

Record ProviderStreamRegistry : Type := mkRegistry {
  registered : gmap str StreamIdentity;
  reserved_in_flight_bytes : Z;
}.

Definition empty_registry : ProviderStreamRegistry := mkRegistry ∅ 0.

(** [insert_new] with the identifiers the loop draws: [None] means that all of [draws]
    are taken and the loop goes on. *)
Definition insert_new (owner : str) (draws : list str) (generation token : str) (address : nat)
    (registry : ProviderStreamRegistry) : ProviderStreamRegistry * result ProviderCommandError (option (str * StreamIdentity)) :=
  if Z.of_nat (size (registered registry)) >=? MAX_ACTIVE_STREAMS
  then (registry, Err (command_error "TOO_MANY_ACTIVE_STREAMS" "too many provider streams are active")) else
  match checked_add USIZE_MAX (reserved_in_flight_bytes registry) PER_STREAM_IN_FLIGHT_RESERVATION_BYTES with
  | None => (registry, Err (command_error "STREAM_CAPACITY_OVERFLOW" "stream byte reservation overflowed"))
  | Some next_reserved =>
      if next_reserved >? GLOBAL_IN_FLIGHT_RESERVATION_BYTES
      then (registry, Err (command_error "STREAM_BYTE_BUDGET_EXHAUSTED" "provider stream byte budget is exhausted"))
      else match List.find (fun id => negb (is_some (registered registry !! id))) (map (app (lit "provider-")) draws) with
           | None => (registry, Ok None)
           | Some request_id =>
               let state := mkIdentity owner generation token address in
               (mkRegistry (<[request_id := state]> (registered registry)) next_reserved, Ok (Some (request_id, state)))
           end
  end.

(** [authenticates]: [ct_eq] compares the bytes. *)
Definition authenticates (state : StreamIdentity) (supplied : str) : bool :=
  (len (ri_token state) =? len supplied) && bool_decide (ri_token state = supplied).

Definition request_not_found : ProviderCommandError := command_error "STREAM_NOT_FOUND" "provider stream was not found".

Definition authenticated (request_id control_token : str) (registry : ProviderStreamRegistry) :
    result ProviderCommandError StreamIdentity :=
  state ← ok_or (registered registry !! request_id) request_not_found;
  if authenticates state control_token then mret state else Err request_not_found.

(** [None] is the panic of the [expect]. *)
Definition remove_if_same (request_id : str) (expected : StreamIdentity) (registry : ProviderStreamRegistry) :
    option ProviderStreamRegistry :=
  match registered registry !! request_id with
  | Some current =>
      if Nat.eqb (ri_address current) (ri_address expected) then
        let left := reserved_in_flight_bytes registry - PER_STREAM_IN_FLIGHT_RESERVATION_BYTES in
        if left <? 0 then None else Some (mkRegistry (delete request_id (registered registry)) left)
      else Some registry
  | None => Some registry
  end.

Definition requests_for_owner (owner_label : str) (registry : ProviderStreamRegistry) : list (str * StreamIdentity) :=
  List.filter (fun entry => bool_decide (ri_owner entry.2 = owner_label)) (map_to_list (registered registry)).

(** ** From a stored conversation to a request *)

Definition is_turn_pair (user assistant : StoredMessage) : bool :=
  bool_decide (sm_role user = RoleUser) && bool_decide (sm_role assistant = RoleAssistant).

Definition is_closed (user assistant : StoredMessage) : bool :=
  bool_decide (sm_status user = MessageComplete) && bool_decide (sm_status assistant = MessageComplete) &&
  negb (is_empty (trim (sm_text user))) && negb (is_empty (trim (sm_text assistant))).

(** The loop of [select_completed_history]: [newest_first] is what is before the cursor,
    read backwards; the pairs come newest first. *)
Fixpoint select_pairs (fuel : nat) (newest_first : list StoredMessage) (max_pairs : nat) (max_utf8_bytes retained_bytes : Z)
    (newest_pairs : list (StoredMessage * StoredMessage)) : list (StoredMessage * StoredMessage) :=
  match fuel with
  | O => newest_pairs
  | S fuel' =>
      if (max_pairs <=? length newest_pairs)%nat then newest_pairs else
      match newest_first with
      | assistant :: ((user :: older) as next) =>
          if negb (is_turn_pair user assistant)
          then select_pairs fuel' next max_pairs max_utf8_bytes retained_bytes newest_pairs
          else if negb (is_closed user assistant)
          then select_pairs fuel' older max_pairs max_utf8_bytes retained_bytes newest_pairs
          else match checked_add USIZE_MAX (len (sm_text user)) (len (sm_text assistant)) with
               | None => newest_pairs
               | Some pair_bytes =>
                   match checked_add USIZE_MAX retained_bytes pair_bytes with
                   | None => newest_pairs
                   | Some projected =>
                       if projected >? max_utf8_bytes then newest_pairs
                       else select_pairs fuel' older max_pairs max_utf8_bytes projected (newest_pairs ++ [(user, assistant)])
                   end
               end
      | _ => newest_pairs
      end
  end.

Definition pair_messages (pair : StoredMessage * StoredMessage) : list ChatMessage :=
  [mkChatMessage User (sm_text pair.1); mkChatMessage Assistant (sm_text pair.2)].

Definition select_completed_history (stored_history : list StoredMessage) (max_messages : nat) (max_utf8_bytes : Z) :
    list ChatMessage :=
  flat_map pair_messages
    (reverse (select_pairs (length stored_history) (reverse stored_history) (Nat.div max_messages 2) max_utf8_bytes 0 [])).

Record ChatProfile : Type := mkProfile { cp_provider : ProviderId; cp_model : str }.

Definition default_options (provider : ProviderId) : result ProviderCommandError ProviderOptions :=
  match provider with
  | OpenAi => Ok (OpenAiOpts (mkOpenAiOptions None None None))
  | Anthropic => Ok (AnthropicOpts (mkAnthropicOptions None None None None))
  | DeepSeek => Ok (DeepSeekOpts (mkDeepSeekOptions None None))
  | OllamaCloud => Ok (OllamaCloudOpts (mkOllamaOptions None))
  | GoogleGemini => Ok (GoogleGeminiOpts (mkGoogleOptions None None [] None))
  | GoogleVertexAi => Err (command_error "VERTEX_OAUTH_NOT_CONFIGURED" "Vertex AI requires a native OAuth access-token flow")
  end.

Section request.
Context {Num : Type} `{!ProviderJson Num}.

Definition build_chat_request (profile : ChatProfile) (user_message character_id : str) (stored_history : list StoredMessage) :
    result ProviderCommandError (ProviderRequest Num) :=
  let model_id := trim (cp_model profile) in
  _ ← ensure (bool_decide (model_id = cp_model profile))
        (command_error "FIRST_CHAT_PROFILE_INVALID" "model identifier must use its canonical form");
  let content := trim user_message in
  _ ← ensure (negb (is_empty content || (len content >? CHAT_MAX_INPUT_BYTES) || has_nul content))
        (command_error "FIRST_CHAT_MESSAGE_INVALID" "chat message is empty or exceeds the product limit");
  system_prompt ← native_character_system_prompt character_id;
  provider_options ← default_options (cp_provider profile);
  let history_byte_budget := CHAT_CONTEXT_MAX_UTF8_BYTES - len system_prompt - len content in
  _ ← ensure ((0 <=? CHAT_CONTEXT_MAX_UTF8_BYTES - len system_prompt) && (0 <=? history_byte_budget))
        (command_error "FIRST_CHAT_MESSAGE_INVALID" "chat message exceeds the native context byte budget");
  let retained_history := select_completed_history stored_history (Z.to_nat CHAT_HISTORY_LOAD_LIMIT) history_byte_budget in
  let messages := [mkChatMessage System system_prompt] ++ retained_history ++ [mkChatMessage User content] in
  let request := ProviderConfig.mkRequest (cp_provider profile) model_id messages
                   (mkGeneration None (Some CHAT_MAX_OUTPUT_TOKENS) None None None None [] None Text Preserve)
                   provider_options None [] in
  _ ← map_err (fun _ => command_error "FIRST_CHAT_PROFILE_INVALID" "provider or model selection is invalid")
        (compile_request request);
  mret request.

Definition storage_provider_selection (request : ProviderRequest Num) : result ProviderCommandError ProviderSelection :=
  let provider_id := match provider request with
                     | OpenAi => StOpenAi
                     | Anthropic => StAnthropic
                     | DeepSeek => StDeepSeek
                     | OllamaCloud => StOllamaCloud
                     | GoogleGemini => StGemini
                     | GoogleVertexAi => StVertexAi
                     end in
  id ← map_err (fun _ => command_error "FIRST_CHAT_PROFILE_INVALID" "provider or model selection is invalid")
         (ModelId_parse (model_id request));
  mret (mkSelection provider_id id).
End request.

(** ** Failure codes and fragments *)

Definition storage_failure_code (error : ProviderCommandError) : StorageFailureCode :=
  if bool_decide (ce_http_status error = Some 401) || bool_decide (ce_http_status error = Some 403)
  then AuthenticationFailed
  else if bool_decide (ce_http_status error = Some 429) then RateLimited
  else if is_some (ce_http_status error) then ProviderRejected
  else match ce_runtime_kind error with
       | Some kind =>
           match kind with
           | DnsResolution | Http => NetworkUnavailable
           | CredentialMismatch | InvalidCredential => AuthenticationFailed
           | HttpStatus | Provider => ProviderRejected
           | Timeout => FailureTimeout
           | StreamTooLarge => ResponseTooLarge
           | UnexpectedContentType | RuntimeError.StreamProtocol => ProtocolViolation
           | InvalidRequest | InvalidEndpoint | UnsafeEndpoint | Cancelled | ConsumerClosed => FailureInternal
           end
       | None =>
           let among names := existsb (fun name => bool_decide (ce_code error = lit name)) names in
           if among ["DNS_TIMEOUT"; "DNS_RESOLUTION_FAILED"; "DNS_NO_ADDRESSES"] then NetworkUnavailable
           else if among ["OVERALL_TIMEOUT"; "RESPONSE_HEADER_TIMEOUT"; "STREAM_IDLE_TIMEOUT"; "STREAM_ACK_TIMEOUT";
                       "STREAM_ACK_DURABILITY_TIMEOUT"; "EXACT_TOKEN_COUNT_TIMEOUT"] then FailureTimeout
           else if among ["STREAM_VISIBLE_OUTPUT_TOO_LARGE"; "STREAM_EVENT_TOO_LARGE"; "PROVIDER_RESPONSE_ID_TOO_LARGE"]
           then ResponseTooLarge
           else if among ["INVALID_STREAM_EVENT"; "STREAM_INTERNAL_STATE"; "STREAM_ALREADY_TERMINAL";
                       "STREAM_SEQUENCE_EXHAUSTED"; "STORAGE_SEQUENCE_INVALID"] then ProtocolViolation
           else if among ["CREDENTIAL_NOT_CONFIGURED"; "CREDENTIAL_UNSUPPORTED"; "CREDENTIAL_INVALID_ENCODING"]
           then AuthenticationFailed
           else if among ["PROVIDER_HTTP_ERROR"; "PROVIDER_FAILED"] then ProviderRejected
           else FailureInternal
       end.

(** [char_indices().nth(1)]: where the second character starts. *)
Fixpoint second_char (s : str) (n : nat) (fuel : nat) : nat :=
  match fuel with
  | O => length s
  | S fuel' => if (length s <=? n)%nat then length s else if is_char_boundary s n then n else second_char s (S n) fuel'
  end.

(** [Utf8Fragments::next]: where the next fragment ends. *)
Definition fragment_end (remaining : str) (max_bytes : nat) : nat :=
  match floor_char_boundary remaining (Nat.min max_bytes (length remaining)) with
  | O => second_char remaining 1 (length remaining)
  | n => n
  end.

Fixpoint fragments (fuel : nat) (remaining : str) (max_bytes : nat) : list str :=
  match fuel with
  | O => []
  | S fuel' => if is_empty remaining then []
               else take (fragment_end remaining max_bytes) remaining ::
                    fragments fuel' (drop (fragment_end remaining max_bytes) remaining) max_bytes
  end.

(** The fragments of a text; each is at least one byte, so its length is enough fuel. *)
Definition split_utf8 (text : str) (max_bytes : nat) : list str := fragments (length text) text (Nat.max max_bytes 1).

Record StreamPersistence : Type := mkPersistence {
  per_request : str;
  per_owner : str;
  per_generation : str;
  per_delivered : Z;
  per_durable : Z;
  per_through : Z;
  per_text : str;
  per_visible_bytes : Z;
  per_response_id : option str;
  per_usage : StorageTokenUsage;
  per_has_usage : bool;
  per_last_at : Z;
  per_flush_deadline : option Z;
}.

Definition StreamPersistence_new (started : StartedTurn) (started_at_ms : Z) : StreamPersistence :=
  mkPersistence (st_request started) (st_owner started) (st_generation started) (st_delivered started)
    (st_durable started) (st_durable started) [] 0 None StorageTokenUsage_default false started_at_ms None.

(** How far an acknowledgement has come; [expected] is what it read of the machine, and
    [AckForce] and [AckCancel] are the two steps of [force_stream_failure]. *)
Inductive AckPhase : Type :=
  | AckWaiting
  | AckReady
  | AckBarrier
  | AckPersist
  | AckStore (expected : option Z)
  | AckStored (expected : option Z)
  | AckRecord
  | AckForce (error : ProviderCommandError)
  | AckCancel.

(** Who holds [ack_gate]. *)
Inductive Gate : Type :=
  | GateFree
  | GateAck (seq : Z) (phase : AckPhase)
  | GateTerminal.

Record Live : Type := mkLive {
  turn : StartedTurn;
  machine : StreamMachine;
  cancel_requested : bool;
  forced_failure : bool;
  cancellation : bool;
  gate : Gate;
  persistence : StreamPersistence;
  store_db : Db;
  channel : list ProviderChannelEvent;
  clock : Z;
}.

Definition set_machine (m : StreamMachine) (l : Live) : Live :=
  mkLive (turn l) m (cancel_requested l) (forced_failure l) (cancellation l) (gate l) (persistence l) (store_db l) (channel l) (clock l).
Definition set_cancel_requested (b : bool) (l : Live) : Live :=
  mkLive (turn l) (machine l) b (forced_failure l) (cancellation l) (gate l) (persistence l) (store_db l) (channel l) (clock l).
Definition set_forced_failure (b : bool) (l : Live) : Live :=
  mkLive (turn l) (machine l) (cancel_requested l) b (cancellation l) (gate l) (persistence l) (store_db l) (channel l) (clock l).
Definition set_cancellation (b : bool) (l : Live) : Live :=
  mkLive (turn l) (machine l) (cancel_requested l) (forced_failure l) b (gate l) (persistence l) (store_db l) (channel l) (clock l).
Definition set_gate (g : Gate) (l : Live) : Live :=
  mkLive (turn l) (machine l) (cancel_requested l) (forced_failure l) (cancellation l) g (persistence l) (store_db l) (channel l) (clock l).
Definition set_persistence (p : StreamPersistence) (l : Live) : Live :=
  mkLive (turn l) (machine l) (cancel_requested l) (forced_failure l) (cancellation l) (gate l) p (store_db l) (channel l) (clock l).
Definition set_store_db (d : Db) (l : Live) : Live :=
  mkLive (turn l) (machine l) (cancel_requested l) (forced_failure l) (cancellation l) (gate l) (persistence l) d (channel l) (clock l).
Definition set_channel (c : list ProviderChannelEvent) (l : Live) : Live :=
  mkLive (turn l) (machine l) (cancel_requested l) (forced_failure l) (cancellation l) (gate l) (persistence l) (store_db l) c (clock l).
Definition set_clock (t : Z) (l : Live) : Live :=
  mkLive (turn l) (machine l) (cancel_requested l) (forced_failure l) (cancellation l) (gate l) (persistence l) (store_db l) (channel l) t.

Definition on_machine (f : StreamMachine -> StreamMachine) (l : Live) : Live := set_machine (f (machine l)) l.

(** ** What other tasks do *)

(** [request_cancel]. *)
Definition request_cancel (l : Live) : Live * bool :=
  if forced_failure l then (l, false)
  else if cancel_requested l then (l, false)
  else (set_cancellation true (set_cancel_requested true l), true).

(** The section of [cancel_provider_stream]. *)
Definition cancel_command (l : Live) : Live * bool :=
  let m := machine l in
  if cancel_requested l || is_some (terminal m) || terminal_committing m || is_some (lease_failure m)
  then (l, false) else request_cancel l.

(** The section of [reset_owner_streams] for one stream. *)
Definition reset_stream (l : Live) : Live * bool :=
  let m := machine l in
  if negb (is_some (terminal m)) && negb (terminal_committing m) && negb (is_some (lease_failure m))
  then request_cancel l else (l, false).

Record ProviderStreamSnapshot : Type := mkSnapshot {
  snap_last_sent : Z;
  snap_acknowledged : option Z;
  snap_in_flight : Z;
  snap_cancel_requested : bool;
  snap_terminal : option TerminalReceipt;
}.

(** The section of [get_provider_stream_snapshot]; also whether the stream is evicted. *)
Definition snapshot_stream (l : Live) : Live * (ProviderStreamSnapshot * bool) :=
  let m := if is_some (terminal (machine l)) then set_snapshot_returned true (machine l) else machine l in
  (set_machine m l,
   (mkSnapshot (last_sent_seq m) (acknowledged_through m) (in_flight m) (cancel_requested l) (terminal m), can_evict m)).

(** The section of [run_ack_watchdog] after its deadline.  The token is cancelled after the
    lock is released, in a step of its own. *)
Definition watchdog_section (l : Live) : Live :=
  let m := machine l in
  if is_some (terminal m) || terminal_committing m || is_some (lease_failure m) || (in_flight m =? 0) ||
     match ack_deadline m with None => true | Some current => clock l <? current end
  then l
  else set_forced_failure true
         (on_machine (set_lease_failure (Some (command_error "STREAM_ACK_TIMEOUT" "provider stream acknowledgements timed out"))) l).

Definition watchdog_cancels (l : Live) : Live :=
  if is_some (lease_failure (machine l)) then set_cancellation true l else l.

(** The section of [force_stream_failure]; the token is cancelled after it. *)
Definition force_stream_failure (error : ProviderCommandError) (l : Live) : Live :=
  let m := machine l in
  if negb (is_some (terminal m)) && negb (terminal_committing m) && negb (is_some (lease_failure m))
  then set_forced_failure true (on_machine (set_lease_failure (Some error)) l) else l.

Definition storage_unavailable : ProviderCommandError := command_error "STORAGE_UNAVAILABLE" "local storage is unavailable".

(** [StorageState::run]: the call is refused before it starts, or it runs to its end.  A
    storage task that panics is not modelled. *)
Definition run_storage {A} (fault : option StorageCommandError) (op : StoreM A) (l : Live) : Live * result ProviderCommandError A :=
  match fault with
  | Some e => (l, Err (from_storage e))
  | None => let '(d, r) := op (store_db l) in
            (set_store_db d l, map_err (fun e => from_storage (StorageCommandError_from_storage e)) r)
  end.

Definition ack_error : ProviderCommandError :=
  command_error "STREAM_STORAGE_IDENTITY_MISMATCH" "local acknowledgement progress was inconsistent".

(** The storage call of [persist_cumulative_ack]; when it fails the acknowledgement goes
    on to end the stream. *)
Definition persist_cumulative_ack (fault : option StorageCommandError) (wall : Z) (seq : Z) (expected : option Z) (l : Live) : Live :=
  let failed e := set_gate (GateAck seq (AckForce e)) in
  match TimestampMillis_now wall with
  | Err _ => failed storage_unavailable l
  | Ok at_ms =>
      let t := turn l in
      match run_storage fault (acknowledge_response (mkAck (st_request t) (st_owner t) (st_generation t) expected seq at_ms)) l with
      | (l', Err e) => failed e l'
      | (l', Ok p) =>
          if bool_decide (sq_request p = st_request t) && bool_decide (sq_owner p = st_owner t) &&
             bool_decide (sq_generation p = st_generation t) && bool_decide (sq_acked p = Some seq) &&
             (seq <=? sq_durable p) && (sq_durable p <=? sq_delivered p)
          then set_gate (GateAck seq (AckStored expected)) l'
          else failed ack_error l'
      end
  end.

(** One step of the acknowledgement that holds the gate.  [fault] and [wall] are what its
    storage call and its clock answer. *)
Definition ack_step (fault : option StorageCommandError) (wall : Z) (seq : Z) (phase : AckPhase) (l : Live) : Live :=
  let m := machine l in
  let release := set_gate GateFree in
  let goto p := set_gate (GateAck seq p) in
  match phase with
  | AckWaiting => if bool_decide (pending_send_seq m = Some seq) then l else goto AckReady l
  | AckReady =>
      if (last_sent_seq m <? seq) || match acknowledged_through m with Some a => seq <? a | None => false end
      then release l
      else if bool_decide (acknowledged_through m = Some seq) then release l
      else match terminal m with
           | Some receipt => if receipt_seq receipt <? seq then release l
                             else goto (if seq =? 0 then AckRecord else AckPersist) l
           | None => goto (if seq =? 0 then AckRecord else AckBarrier)
                       (on_machine (fun m => request_flush_through seq (note_ack_activity (clock l) seq m)) l)
           end
  | AckBarrier =>
      if is_some (lease_failure m) then release l
      else if is_some (terminal m) then goto AckPersist l
      else if terminal_committing m then l
      else if seq <=? last_durable_seq m then goto AckPersist l else l
  | AckPersist => goto (AckStore (persisted_acked_through m)) l
  | AckStore expected =>
      persist_cumulative_ack fault wall seq expected l
  | AckStored expected =>
      if bool_decide (persisted_acked_through m = expected)
      then goto AckRecord (on_machine (set_persisted_acked (Some seq)) l)
      else goto (AckForce (command_error "STREAM_INTERNAL_STATE" "provider acknowledgement state changed concurrently")) l
  | AckRecord => release (on_machine (record_ack_progress (clock l) seq) l)
  | AckForce error => goto AckCancel (force_stream_failure error l)
  | AckCancel => release (set_cancellation true l)
  end.

(** The waits of an acknowledgement end by cancellation or by their deadline. *)
Definition ack_gives_up (timed_out : bool) (seq : Z) (phase : AckPhase) (l : Live) : Live :=
  match phase with
  | AckWaiting => if timed_out || cancellation l then set_gate GateFree l else l
  | AckBarrier =>
      if timed_out
      then set_gate (GateAck seq (AckForce
             (command_error "STREAM_ACK_DURABILITY_TIMEOUT" "provider stream acknowledgement durability timed out"))) l
      else if cancellation l then set_gate GateFree l else l
  | _ => l
  end.

Inductive OtherStep : Type :=
  | StepElapse (d : nat)
  | StepCancelCommand
  | StepCancelOwner
  | StepResetOwner
  | StepSnapshot
  | StepWatchdog
  | StepWatchdogCancels
  | StepAckArrives (seq : Z)
  | StepAck (fault : option StorageCommandError) (wall : Z)
  | StepAckGivesUp (timed_out : bool)
  | StepStorage (op : StoreOp).

(** Whether a call to the store writes this request.  Other tasks do not make such calls:
    the store is not opened again while it is in use, a new turn draws a fresh identifier,
    and the journal is written with the owner and generation of the stream. *)
Definition names_request (id : str) (op : StoreOp) : bool :=
  match touched op with
  | TouchNone => false
  | TouchRequest other => bool_decide (other = id)
  | TouchAll => true
  end.

Definition other_step (s : OtherStep) (l : Live) : Live :=
  match s with
  | StepElapse d => set_clock (clock l + Z.of_nat d) l
  | StepCancelCommand => (cancel_command l).1
  | StepCancelOwner => (request_cancel l).1
  | StepResetOwner => (reset_stream l).1
  | StepSnapshot => (snapshot_stream l).1
  | StepWatchdog => watchdog_section l
  | StepWatchdogCancels => watchdog_cancels l
  | StepAckArrives seq => match gate l with GateFree => if 0 <=? seq then set_gate (GateAck seq AckWaiting) l else l | _ => l end
  | StepAck fault wall => match gate l with GateAck seq phase => ack_step fault wall seq phase l | _ => l end
  | StepAckGivesUp timed_out => match gate l with GateAck seq phase => ack_gives_up timed_out seq phase l | _ => l end
  | StepStorage op => if names_request (st_request (turn l)) op then l else set_store_db (exec op (store_db l)).1 l
  end.

Definition run_others (steps : list OtherStep) (l : Live) : Live := foldl (fun l s => other_step s l) l steps.

(** ** The bridge *)

Class StreamSystem : Type := {
  others : nat -> list OtherStep;
  storage_fault : nat -> option StorageCommandError;
  wall_clock : nat -> Z;
  channel_open : nat -> bool;
  (** [serde_json::to_vec(event).len()]. *)
  wire_length : ProviderChannelEvent -> option Z;
  (** Which ready branch of a [select!] is taken. *)
  prefers_cancellation : nat -> bool;
  cutoff : nat;
}.

Abbreviation Bridge := (Faulty Live ProviderCommandError).

Section bridge.
Context {Sys : StreamSystem}.

Definition interfere : Bridge unit := fun w =>
  if (cutoff <=? tick w)%nat then (w, Err None)
  else (mkWorld (S (tick w)) (run_others (others (tick w)) (disk w)), Ok tt).

(** [state.machine.lock().await] and what follows until the guard is dropped. *)
Definition on_live {A} (body : Live -> Live * result ProviderCommandError A) : Bridge A :=
  fun w => let '(l, r) := body (disk w) in (mkWorld (tick w) l, map_err Some r).

Definition locked {A} (body : Live -> Live * result ProviderCommandError A) : Bridge A :=
  _ ← interfere; on_live body.

Definition locked_update (f : Live -> Live) : Bridge unit := locked (fun l => (f l, Ok tt)).

Definition storage_run {A} (op : StoreM A) : Bridge A :=
  _ ← interfere;
  fault ← ask storage_fault;
  on_live (run_storage fault op).

Definition on_persistence (f : StreamPersistence -> StreamPersistence) : Bridge unit :=
  modify (fun l => set_persistence (f (persistence l)) l).

Definition sequence_error (message : string) : ProviderCommandError := command_error "STORAGE_SEQUENCE_INVALID" message.
Definition internal_state (message : string) : ProviderCommandError := command_error "STREAM_INTERNAL_STATE" message.
Definition stream_cancelled : ProviderCommandError := command_error "STREAM_CANCELLED" "provider stream was cancelled".
Definition write_failed (message : string) : ProviderCommandError := command_error "STORAGE_WRITE_FAILED" message.

Definition ensure_direct_serializable (event : ProviderChannelEvent) : result ProviderCommandError unit :=
  length ← ok_or (wire_length event)
             (command_error "STREAM_EVENT_SERIALIZATION_FAILED" "provider stream event could not be serialized");
  ensure (length <=? DIRECT_CHANNEL_BUDGET_BYTES)
    (command_error "STREAM_EVENT_TOO_LARGE" "provider stream event exceeded the direct IPC budget").

Definition send_direct (event : ProviderChannelEvent) : Bridge unit :=
  _ ← lift (ensure_direct_serializable event);
  open ← ask channel_open;
  _ ← lift (ensure open (command_error "STREAM_CHANNEL_CLOSED" "provider stream event channel is closed"));
  modify (fun l => set_channel (channel l ++ [event]) l).

(** *** [StreamPersistence] *)

Definition response_too_large : ProviderCommandError :=
  command_error "STREAM_VISIBLE_OUTPUT_TOO_LARGE" "provider stream visible output exceeded the product limit".

Definition validate_visible_fragment (text : str) (p : StreamPersistence) : result ProviderCommandError unit :=
  ensure (match checked_add USIZE_MAX (per_visible_bytes p) (len text) with
          | None => false
          | Some bytes => bytes <=? MAX_MESSAGE_BYTES
          end) response_too_large.

Definition stored_usage (u : StorageTokenUsage) (usage : TokenUsage) : StorageTokenUsage :=
  mkStorageUsage (default (su_input u) (input_tokens usage)) (default (su_output u) (output_tokens usage))
    (default (su_cached u) (cached_input_tokens usage)) (default (su_reasoning u) (reasoning_tokens usage)).

Definition merge_usage (usage : TokenUsage) (p : StreamPersistence) : StreamPersistence :=
  mkPersistence (per_request p) (per_owner p) (per_generation p) (per_delivered p) (per_durable p) (per_through p)
    (per_text p) (per_visible_bytes p) (per_response_id p) (stored_usage (per_usage p) usage)
    (per_has_usage p || is_some (input_tokens usage) || is_some (output_tokens usage) ||
     is_some (cached_input_tokens usage) || is_some (reasoning_tokens usage))
    (per_last_at p) (per_flush_deadline p).

Definition add_visible (text : str) (p : StreamPersistence) : StreamPersistence :=
  mkPersistence (per_request p) (per_owner p) (per_generation p) (per_delivered p) (per_durable p) (per_through p)
    (per_text p ++ text) (per_visible_bytes p + len text) (per_response_id p) (per_usage p) (per_has_usage p)
    (per_last_at p) (per_flush_deadline p).

Definition set_response_id (id : option str) (p : StreamPersistence) : StreamPersistence :=
  mkPersistence (per_request p) (per_owner p) (per_generation p) (per_delivered p) (per_durable p) (per_through p)
    (per_text p) (per_visible_bytes p) id (per_usage p) (per_has_usage p) (per_last_at p) (per_flush_deadline p).

Definition set_through (seq : Z) (deadline : option Z) (p : StreamPersistence) : StreamPersistence :=
  mkPersistence (per_request p) (per_owner p) (per_generation p) (per_delivered p) (per_durable p) seq
    (per_text p) (per_visible_bytes p) (per_response_id p) (per_usage p) (per_has_usage p) (per_last_at p) deadline.

Definition set_delivered (seq : Z) (p : StreamPersistence) : StreamPersistence :=
  mkPersistence (per_request p) (per_owner p) (per_generation p) seq (per_durable p) (per_through p)
    (per_text p) (per_visible_bytes p) (per_response_id p) (per_usage p) (per_has_usage p) (per_last_at p) (per_flush_deadline p).

Definition set_per_durable (seq : Z) (p : StreamPersistence) : StreamPersistence :=
  mkPersistence (per_request p) (per_owner p) (per_generation p) (per_delivered p) seq (per_through p)
    (per_text p) (per_visible_bytes p) (per_response_id p) (per_usage p) (per_has_usage p) (per_last_at p) None.

Definition set_payload (text : str) (id : option str) (p : StreamPersistence) : StreamPersistence :=
  mkPersistence (per_request p) (per_owner p) (per_generation p) (per_delivered p) (per_durable p) (per_through p)
    text (per_visible_bytes p) id (per_usage p) (per_has_usage p) (per_last_at p) (per_flush_deadline p).

Definition set_last_at (t : Z) (p : StreamPersistence) : StreamPersistence :=
  mkPersistence (per_request p) (per_owner p) (per_generation p) (per_delivered p) (per_durable p) (per_through p)
    (per_text p) (per_visible_bytes p) (per_response_id p) (per_usage p) (per_has_usage p) t (per_flush_deadline p).

(** [record]: what an event adds to what is to be stored. *)
Definition record (seq : Z) (visible_text : option str) (response_id : option str) (usage : option TokenUsage) : Bridge unit :=
  p ← gets persistence;
  _ ← lift (ensure (seq =? saturating_add U64_MAX (per_through p) 1) (sequence_error "stream persistence sequence is invalid"));
  _ ← match visible_text with
      | Some text =>
          _ ← lift (validate_visible_fragment text p);
          on_persistence (add_visible text)
      | None => mret tt
      end;
  _ ← match response_id with Some id => on_persistence (set_response_id (Some id)) | None => mret tt end;
  _ ← match usage with Some u => on_persistence (merge_usage u) | None => mret tt end;
  modify (fun l => let p := persistence l in
            set_persistence (set_through seq (Some (default (clock l + STORAGE_FLUSH_INTERVAL) (per_flush_deadline p))) p) l).

Definition is_dirty (p : StreamPersistence) : bool := per_durable p <? per_through p.
Definition should_flush_for_size (p : StreamPersistence) : bool := STORAGE_FLUSH_BYTES <=? len (per_text p).
Definition flush_deadline (p : StreamPersistence) : option Z := if is_dirty p then per_flush_deadline p else None.

Definition timestamp : Bridge Z :=
  wall ← ask wall_clock;
  now ← lift (map_err (fun _ => storage_unavailable) (TimestampMillis_now wall));
  _ ← on_persistence (fun p => if per_last_at p <? now then set_last_at now p else p);
  gets (fun l => per_last_at (persistence l)).

Definition checkpoint (through_seq : Z) : Bridge ResponseCheckpoint :=
  at_ms ← timestamp;
  p ← gets persistence;
  _ ← on_persistence (set_payload [] None);
  mret (mkCheckpoint (per_request p) (per_owner p) (per_generation p) (per_durable p) through_seq (per_text p)
          (per_response_id p) (if per_has_usage p then Some (per_usage p) else None) at_ms).

Definition restore_checkpoint_payload (c : ResponseCheckpoint) : Bridge unit :=
  on_persistence (fun p => set_payload (rc_text c ++ per_text p)
                    (match per_response_id p with None => rc_response_id c | Some id => Some id end) p).

Definition enter_terminal_sequence (terminal_seq : Z) : Bridge unit :=
  p ← gets persistence;
  if terminal_seq =? saturating_add U64_MAX (per_through p) 1
  then on_persistence (set_through terminal_seq (per_flush_deadline p))
  else if (terminal_seq =? per_through p) && (per_durable p <? terminal_seq) then mret tt
  else fail (sequence_error "terminal persistence sequence is invalid").

Definition within_acked (acked : option Z) (durable : Z) : bool := match acked with None => true | Some a => a <=? durable end.

Definition record_delivery (seq : Z) : Bridge unit :=
  p ← gets persistence;
  _ ← lift (ensure (seq =? saturating_add U64_MAX (per_delivered p) 1) (sequence_error "stream delivery sequence is invalid"));
  at_ms ← timestamp;
  progress ← storage_run (record_response_delivery
               (mkDelivery (per_request p) (per_owner p) (per_generation p) (per_delivered p) seq at_ms));
  _ ← lift (ensure (bool_decide (sq_request progress = per_request p) && bool_decide (sq_owner progress = per_owner p) &&
                    bool_decide (sq_generation progress = per_generation p) && (sq_delivered progress =? seq) &&
                    (sq_durable progress =? per_durable p) && within_acked (sq_acked progress) (sq_durable progress))
              (command_error "STREAM_STORAGE_IDENTITY_MISMATCH" "local delivery progress was inconsistent"));
  on_persistence (set_delivered seq).

(** What a failed attempt to store puts back. *)
Definition store_checkpoint {A} (op : StoreM A) (accepted : A -> bool) (c : ResponseCheckpoint) (message : string) : Bridge A :=
  r ← attempt (storage_run op);
  match r with
  | Ok a => if accepted a then mret a
            else _ ← restore_checkpoint_payload c; fail (write_failed message)
  | Err e => _ ← restore_checkpoint_payload c; fail e
  end.

Definition flush : Bridge unit :=
  p ← gets persistence;
  if negb (is_dirty p) then on_persistence (fun p => set_through (per_through p) None p)
  else
    let through_seq := per_through p in
    c ← checkpoint through_seq;
    _ ← store_checkpoint (checkpoint_response c)
          (fun progress => bool_decide (pr_request progress = per_request p) && (pr_delivered progress =? per_delivered p) &&
             (pr_durable progress =? through_seq) && within_acked (pr_acked progress) (pr_durable progress))
          c "local storage checkpoint was inconsistent";
    _ ← on_persistence (set_per_durable through_seq);
    locked_update (on_machine (publish_durable through_seq)).

Definition finish (terminal_seq : Z) (outcome : TerminalOutcome) : Bridge unit :=
  _ ← enter_terminal_sequence terminal_seq;
  p ← gets persistence;
  c ← checkpoint terminal_seq;
  _ ← store_checkpoint (finish_turn c outcome)
        (fun progress => bool_decide (pr_request progress = per_request p) && (pr_delivered progress =? terminal_seq) &&
           (pr_durable progress =? terminal_seq) && within_acked (pr_acked progress) (pr_durable progress) &&
           negb (bool_decide (pr_status progress = RequestRunning)))
        c "local storage terminal checkpoint was inconsistent";
  _ ← on_persistence (set_per_durable terminal_seq);
  locked_update (on_machine (publish_durable terminal_seq)).

(** The closure that [fail_after_terminal_error] runs on the store. *)
Definition fail_unless_finished (c : ResponseCheckpoint) (terminal_seq known_durable : Z) : StoreM (StorageRequestStatus * Z) :=
  state ← get_request_state (rc_request c);
  _ ← st_lift (ensure (bool_decide (rs_owner state = rc_owner c) && bool_decide (rs_generation state = rc_generation c))
                 (Conflict "stream identity"));
  if negb (is_running state) then mret (rs_status state, rs_durable state)
  else
    _ ← st_lift (ensure (negb ((rs_delivered state <? terminal_seq) || negb (rs_durable state =? known_durable)))
                   (SequenceMismatch (rs_durable state) known_durable));
    progress ← fail_turn (mkCheckpoint (rc_request c) (rc_owner c) (rc_generation c) (rs_durable state) (rc_through c)
                            (rc_text c) (rc_response_id c) (rc_usage c) (rc_at c)) FailureInternal;
    mret (pr_status progress, pr_durable progress).

Definition fail_after_terminal_error (terminal_seq : Z) : Bridge StorageRequestStatus :=
  p ← gets persistence;
  _ ← lift (ensure (negb (negb (terminal_seq =? per_through p) || (terminal_seq <=? per_durable p)))
              (sequence_error "terminal recovery sequence is invalid"));
  c ← checkpoint terminal_seq;
  found ← store_checkpoint (fail_unless_finished c terminal_seq (per_durable p))
            (fun found => negb (bool_decide (found.1 = RequestRunning)))
            c "local storage terminal recovery was inconsistent";
  _ ← on_persistence (fun p => set_per_durable found.2 (set_payload [] None p));
  _ ← locked_update (on_machine (publish_durable found.2));
  mret found.1.

(** The first try and [TERMINAL_STORAGE_RETRY_DELAYS]. *)
Fixpoint with_retry {A} (retries : nat) (m : Bridge A) : Bridge A :=
  match retries with
  | O => m
  | S n => r ← attempt m;
           match r with
           | Ok a => mret a
           | Err _ => _ ← interfere; with_retry n m
           end
  end.

Definition finish_terminal_with_retry (seq : Z) (outcome : TerminalOutcome) : Bridge unit :=
  with_retry TERMINAL_STORAGE_RETRIES (finish seq outcome).

Definition recover_failed_terminal_with_retry (seq : Z) : Bridge StorageRequestStatus :=
  with_retry TERMINAL_STORAGE_RETRIES (fail_after_terminal_error seq).

(** *** Sending *)

(** The first section of the loop of [send_non_terminal]: reserve a sequence number, or
    nothing while the reader is behind. *)
Definition reserve_send (l : Live) : Live * result ProviderCommandError (option Z) :=
  let m := machine l in
  match lease_failure m with
  | Some error => (l, Err error)
  | None =>
      if cancel_requested l || cancellation l then (l, Err stream_cancelled)
      else if is_some (terminal m) || terminal_committing m
      then (l, Err (command_error "STREAM_ALREADY_TERMINAL" "provider stream already reached a terminal state"))
      else if negb (is_some (pending_send_seq m)) && (in_flight m <? MAX_IN_FLIGHT)
      then match next_wire_sequence (last_sent_seq m) MAX_NON_TERMINAL_SEQUENCE with
           | Err e => (l, Err e)
           | Ok seq => (on_machine (set_pending (Some seq)) l, Ok (Some seq))
           end
      else (l, Ok None)
  end.

(** The second section: commit the reservation or roll it back. *)
Definition commit_send (seq : Z) (sent : result ProviderCommandError unit) (l : Live) : Live * result ProviderCommandError Z :=
  let m := machine l in
  if negb (bool_decide (pending_send_seq m = Some seq))
  then (l, Err (internal_state "provider event reservation was lost"))
  else
    let m := set_pending None m in
    match sent with
    | Ok _ =>
        let had_outstanding := 0 <? in_flight m in
        let m := set_last_sent seq m in
        let m := if negb had_outstanding || negb (is_some (ack_deadline m)) then set_ack_deadline (Some (clock l + ACK_TIMEOUT)) m else m in
        (set_machine m l, Ok seq)
    | Err e => (set_machine m l, Err e)
    end.

Fixpoint send_loop (watched : nat) (make_event : Z -> ProviderChannelEvent) : Bridge Z :=
  reserved ← locked reserve_send;
  match reserved with
  | Some seq =>
      sent ← attempt (send_direct (make_event seq));
      locked (commit_send seq sent)
  | None =>
      _ ← interfere;
      prefers ← ask prefers_cancellation;
      cancelled ← gets cancellation;
      if cancelled && prefers then fail stream_cancelled
      else match watched with
           | O => exhausted
           | S n => send_loop n make_event
           end
  end.

Definition send_non_terminal (make_event : Z -> ProviderChannelEvent) : Bridge Z := send_loop cutoff make_event.

Definition flush_if_requested_or_pressured : Bridge unit :=
  p ← gets persistence;
  pressed ← locked (fun l => (l, Ok (match flush_requested_through (machine l) with
                                     | Some requested => requested <=? per_through p
                                     | None => false
                                     end || (saturating_sub MAX_IN_FLIGHT 1 <=? in_flight (machine l)))));
  if should_flush_for_size p || pressed then flush else mret tt.

Definition is_visible (kind : DeltaKind) : bool := match kind with DeltaReasoning => false | _ => true end.

Definition delta_event (kind : DeltaKind) (text : str) (seq : Z) : ProviderChannelEvent :=
  match kind with
  | DeltaText => EvTextDelta seq text
  | DeltaReasoning => EvReasoningDelta seq text
  | DeltaRefusal => EvRefusalDelta seq text
  end.

Definition forward_fragment (kind : DeltaKind) (fragment : str) : Bridge unit :=
  p ← gets persistence;
  _ ← lift (if is_visible kind then validate_visible_fragment fragment p else Ok tt);
  seq ← send_non_terminal (delta_event kind fragment);
  _ ← record_delivery seq;
  _ ← record seq (if is_visible kind then Some fragment else None) None None;
  flush_if_requested_or_pressured.

Definition forward_text_fragments (text : str) (kind : DeltaKind) : Bridge unit :=
  _ ← lift (ensure (negb (is_empty text)) (command_error "INVALID_STREAM_EVENT" "provider stream text delta was empty"));
  forM_faulty (fun _ fragment => forward_fragment kind fragment) tt (split_utf8 text MAX_DELTA_FRAGMENT_BYTES).

Definition forward_runtime_event (event : ProviderStreamEvent) : Bridge unit :=
  _ ← match event with
      | ProviderResponseId id =>
          _ ← lift (ensure (len id <=? MAX_PROVIDER_RESPONSE_ID_BYTES)
                      (command_error "PROVIDER_RESPONSE_ID_TOO_LARGE" "provider response identifier exceeded the runtime limit"));
          seq ← send_non_terminal (fun seq => EvProviderResponseId seq id);
          _ ← record_delivery seq;
          record seq None (Some id) None
      | TextDelta text => forward_text_fragments text DeltaText
      | ReasoningDelta text => forward_text_fragments text DeltaReasoning
      | RefusalDelta text => forward_text_fragments text DeltaRefusal
      | Usage usage =>
          seq ← send_non_terminal (fun seq => EvUsage seq usage);
          _ ← record_delivery seq;
          record seq None None (Some usage)
      end;
  flush_if_requested_or_pressured.

(** *** The end of a stream *)

Definition gate_free (l : Live) : bool := match gate l with GateFree => true | _ => false end.

(** [state.ack_gate.lock().await]. *)
Fixpoint acquire_gate (watched : nat) : Bridge unit :=
  _ ← interfere;
  free ← gets gate_free;
  if (free : bool) then modify (set_gate GateTerminal)
  else match watched with O => exhausted | S n => acquire_gate n end.

Definition release_gate : Bridge unit := modify (set_gate GateFree).

(** The first section of [send_terminal]: nothing when the stream has ended already,
    otherwise the outcome and its sequence number. *)
Definition begin_terminal (kind : TerminalKind) (l : Live) : Live * result ProviderCommandError (option (TerminalKind * Z)) :=
  let m := machine l in
  if is_some (terminal m) then (l, Ok None)
  else if terminal_committing m
  then (l, Err (command_error "STREAM_TERMINAL_COMMITTING" "provider stream terminal state is already committing"))
  else
    let kind := if cancel_requested l then KindCancelled else kind in
    if is_some (pending_send_seq m) then (l, Err (internal_state "provider stream still had a pending event send"))
    else match next_wire_sequence (last_sent_seq m) MAX_WIRE_SEQUENCE with
         | Err e => (l, Err e)
         | Ok seq => (on_machine (set_committing true) l, Ok (Some (kind, seq)))
         end.

Definition stop_committing {A} (e : ProviderCommandError) : Bridge A :=
  _ ← locked_update (on_machine (set_committing false));
  fail e.

Definition deliver_terminal (seq : Z) : Bridge unit :=
  p ← gets persistence;
  if per_delivered p <? seq then
    r ← attempt (record_delivery seq);
    match r with Ok _ => mret tt | Err e => stop_committing e end
  else if negb (per_delivered p =? seq) then stop_committing (sequence_error "terminal delivery sequence is inconsistent")
  else mret tt.

Definition outcome_of (kind : TerminalKind) : TerminalOutcome :=
  match kind with
  | KindCompleted _ _ => OutcomeCompleted
  | KindCancelled => OutcomeCancelled
  | KindFailed error => OutcomeFailed (storage_failure_code error)
  end.

(** Store the outcome, or find out what is stored; the outcome to publish. *)
Definition commit_terminal (kind : TerminalKind) (seq : Z) : Bridge TerminalKind :=
  let outcome := outcome_of kind in
  committed ← attempt (finish_terminal_with_retry seq outcome);
  match committed with
  | Ok _ => mret kind
  | Err commit_error =>
      recovered ← attempt (recover_failed_terminal_with_retry seq);
      match recovered with
      | Ok RequestCompleted =>
          mret (if bool_decide (outcome = OutcomeCompleted) then kind
                else KindFailed (command_error "STORAGE_TERMINAL_INCONSISTENT" "local storage terminal state was inconsistent"))
      | Ok RequestCancelled => mret KindCancelled
      | Ok RequestFailed | Ok RequestInterrupted => mret (KindFailed commit_error)
      | Ok RequestRunning =>
          mret (KindFailed (command_error "STORAGE_TERMINAL_INCONSISTENT" "local storage terminal state was inconsistent"))
      | Err e => stop_committing e
      end
  end.

Definition reserve_terminal (seq : Z) (l : Live) : Live * result ProviderCommandError unit :=
  if is_some (pending_send_seq (machine l))
  then (on_machine (set_committing false) l,
        Err (internal_state "provider stream acquired a conflicting terminal send reservation"))
  else (on_machine (set_pending (Some seq)) l, Ok tt).

Definition terminal_event (kind : TerminalKind) (seq : Z) : ProviderChannelEvent :=
  match kind with
  | KindCompleted reason usage => EvCompleted seq reason usage
  | KindCancelled => EvCancelled seq
  | KindFailed error => EvFailed seq error
  end.

Definition receipt_of (kind : TerminalKind) (seq : Z) : TerminalReceipt :=
  match kind with
  | KindCompleted reason usage => ReceiptCompleted seq reason usage
  | KindCancelled => ReceiptCancelled seq
  | KindFailed error => ReceiptFailed seq error
  end.

Definition publish_terminal (kind : TerminalKind) (seq : Z) (l : Live) : Live * result ProviderCommandError unit :=
  let m := machine l in
  if negb (bool_decide (pending_send_seq m = Some seq))
  then (on_machine (set_committing false) l, Err (internal_state "provider terminal send reservation was lost"))
  else (set_machine (set_committing false (set_terminal (Some (receipt_of kind seq)) (set_last_sent seq (set_pending None m)))) l, Ok tt).

(** The part of [send_terminal] that holds [ack_gate]. *)
Definition settle_terminal (kind : TerminalKind) : Bridge (option (TerminalKind * Z)) :=
  begun ← locked (begin_terminal kind);
  match begun with
  | None => mret None
  | Some (kind, seq) =>
      _ ← deliver_terminal seq;
      _ ← match kind with KindCompleted _ (Some usage) => on_persistence (merge_usage usage) | _ => mret tt end;
      kind ← commit_terminal kind seq;
      _ ← locked (reserve_terminal seq);
      mret (Some (kind, seq))
  end.

Definition send_terminal (kind : TerminalKind) : Bridge unit :=
  _ ← acquire_gate cutoff;
  settled ← attempt (settle_terminal kind);
  _ ← release_gate;
  match settled with
  | Err e => fail e
  | Ok None => mret tt
  | Ok (Some (kind, seq)) =>
      _ ← attempt (send_direct (terminal_event kind seq));
      locked (publish_terminal kind seq)
  end.

(** *** The whole bridge *)

(** What the [select!] of [run_stream_bridge] can see; the timer may fire at any time while
    there is a deadline, which includes the time at which it does. *)
Inductive Arrival : Type :=
  | FlushNotified
  | EventArrives (event : ProviderStreamEvent)
  | EventsClosed (outcome : result RuntimeError ProviderRunOutcome)
  | RunEnds (outcome : result RuntimeError ProviderRunOutcome) (queued : list ProviderStreamEvent)
  | FlushTimer.

Definition cancel_and_report {A} (e : ProviderCommandError) : Bridge (result ProviderCommandError A) :=
  _ ← modify (set_cancellation true); mret (Err e).

(** The loop: the result of the run, or of the first event that could not be forwarded. *)
Fixpoint bridge_loop (arrivals : list Arrival) : Bridge (result ProviderCommandError ProviderRunOutcome) :=
  match arrivals with
  | [] => exhausted
  | FlushNotified :: rest =>
      r ← attempt flush;
      match r with Ok _ => bridge_loop rest | Err e => cancel_and_report e end
  | FlushTimer :: rest =>
      p ← gets persistence;
      match flush_deadline p with
      | None => bridge_loop rest
      | Some _ => r ← attempt flush;
                  match r with Ok _ => bridge_loop rest | Err e => cancel_and_report e end
      end
  | EventArrives event :: rest =>
      r ← attempt (forward_runtime_event event);
      match r with Ok _ => bridge_loop rest | Err e => cancel_and_report e end
  | EventsClosed outcome :: _ => mret (map_err from_runtime outcome)
  | RunEnds outcome queued :: _ =>
      r ← attempt (forM_faulty (fun _ event => forward_runtime_event event) tt queued);
      mret (match r with Ok _ => map_err from_runtime outcome | Err e => Err e end)
  end.

Definition terminal_kind (lease : option ProviderCommandError) (cancelled : bool)
    (outcome : result ProviderCommandError ProviderRunOutcome) : TerminalKind :=
  match lease with
  | Some error => KindFailed error
  | None => if cancelled then KindCancelled
            else match outcome with
                 | Ok RunCancelled => KindCancelled
                 | Ok (Completed reason usage) => KindCompleted reason usage
                 | Err error => KindFailed error
                 end
  end.

(** [run_stream_bridge] up to the first try of [send_terminal]; the outcome it tries to
    publish. *)
Definition run_events (arrivals : list Arrival) : Bridge TerminalKind :=
  outcome ← bridge_loop arrivals;
  flushed ← attempt flush;
  outcome ← match flushed with
            | Ok _ => mret outcome
            | Err e => cancel_and_report e
            end;
  locked (fun l => (l, Ok (terminal_kind (lease_failure (machine l)) (cancel_requested l) outcome))).

(** [recover_terminal_until_durable], for a number of rounds. *)
Fixpoint recover_terminal_until_durable (rounds : nat) (kind : TerminalKind) : Bridge unit :=
  match rounds with
  | O => exhausted
  | S n => _ ← interfere;
           r ← attempt (send_terminal kind);
           match r with
           | Ok _ => mret tt
           | Err _ => recover_terminal_until_durable n kind
           end
  end.

Definition run_stream_bridge (arrivals : list Arrival) : Bridge unit :=
  kind ← run_events arrivals;
  r ← attempt (send_terminal kind);
  match r with
  | Ok _ => mret tt
  | Err _ => recover_terminal_until_durable cutoff kind
  end.
End bridge.

(** ** The start of a stream *)

(** The state of the stream right after [Started] was sent. *)
Definition live_started (t : StartedTurn) (started_at_ms now : Z) (db : Db) : Live :=
  mkLive t (after_started now) false false false GateFree (StreamPersistence_new t started_at_ms) db
    [EvStarted 0 MAX_IN_FLIGHT] now.

(** The closure of [persist_rejected_start]. *)
Definition persist_rejected_start (started : StartedTurn) (at_ms : Z) : StoreM unit :=
  let id := st_request started in
  let terminal_seq := saturating_add U64_MAX (st_durable started) 1 in
  current ← get_request_state id;
  _ ← st_lift (ensure (bool_decide (rs_owner current = st_owner started) && bool_decide (rs_generation current = st_generation started))
                 (Conflict "stream identity"));
  if negb (is_running current) then mret tt else
  current ← (if rs_delivered current =? st_delivered started
             then _ ← record_response_delivery (mkDelivery id (st_owner started) (st_generation started) (st_delivered started)
                                                  terminal_seq at_ms);
                  get_request_state id
             else mret current);
  if negb (is_running current) then mret tt else
  _ ← st_lift (ensure ((rs_delivered current =? terminal_seq) && (rs_durable current =? st_durable started))
                 (SequenceMismatch terminal_seq (rs_delivered current)));
  _ ← fail_turn (mkCheckpoint id (st_owner started) (st_generation started) (st_durable started) terminal_seq [] None None at_ms)
        FailureInternal;
  mret tt.

(** ** The command that starts a stream *)

(** What [start_provider_stream] shares with the rest of the application. *)
Record Desk : Type := mkDesk {
  desk_registry : ProviderStreamRegistry;
  desk_db : Db;
  desk_channel : list ProviderChannelEvent;
}.

Definition set_desk_registry (r : ProviderStreamRegistry) (d : Desk) : Desk := mkDesk r (desk_db d) (desk_channel d).
Definition set_desk_db (db : Db) (d : Desk) : Desk := mkDesk (desk_registry d) db (desk_channel d).
Definition set_desk_channel (c : list ProviderChannelEvent) (d : Desk) : Desk := mkDesk (desk_registry d) (desk_db d) c.

Definition load_persisted_chat_context (chat_id : str) : StoreM (str * list StoredMessage) :=
  chat ← get_chat chat_id;
  history ← load_recent_messages chat_id None CHAT_HISTORY_LOAD_LIMIT;
  mret (ch_character chat, rp_messages history).

(** [bind_started_turn]; [bound] is the identifier bound so far. *)
Definition bind_started_turn (state : StreamIdentity) (bound : option str) (started : StartedTurn) : result ProviderCommandError str :=
  _ ← ensure (bool_decide (st_owner started = ri_owner state) && bool_decide (st_generation started = ri_generation state) &&
              (st_delivered started =? 0) && (st_durable started =? 0) && negb (is_some (st_acked started)))
        (command_error "STREAM_STORAGE_IDENTITY_MISMATCH" "local stream identity did not match the request owner");
  _ ← ensure (negb (is_some bound))
        (command_error "STREAM_STORAGE_IDENTITY_MISMATCH" "local stream identity was already bound");
  mret (st_request started).

Class StartSystem (Num : Type) : Type := {
  start_fault : nat -> option StorageCommandError;
  start_clock : nat -> Z;
  start_channel : nat -> bool;
  start_length : ProviderChannelEvent -> option Z;
  (** [load_provider_credential]: how it fails, if it does. *)
  load_provider_credential : ProviderRequest Num -> option ProviderCommandError;
}.

Abbreviation Start := (Faulty Desk ProviderCommandError).

Section start.
Context {Num : Type} `{!ProviderJson Num} {Sys : StartSystem Num}.

Definition desk_storage {A} (op : StoreM A) : Start A :=
  fault ← ask start_fault;
  match fault with
  | Some e => fail (from_storage e)
  | None => fun w => let '(db, r) := op (desk_db (disk w)) in
                     (mkWorld (tick w) (set_desk_db db (disk w)),
                      map_err (fun e => Some (from_storage (StorageCommandError_from_storage e))) r)
  end.

(** [remove_if_same]; [Err None] is its panic. *)
Definition release (request_id : str) (state : StreamIdentity) : Start unit := fun w =>
  match remove_if_same request_id state (desk_registry (disk w)) with
  | Some r => (mkWorld (tick w) (set_desk_registry r (disk w)), Ok tt)
  | None => (w, Err None)
  end.

Fixpoint start_retry (retries : nat) (m : Start unit) : Start unit :=
  match retries with
  | O => m
  | S n => r ← attempt m;
           match r with Ok _ => mret tt | Err _ => start_retry n m end
  end.

Definition fail_started_turn (started : StartedTurn) (at_ms : Z) : Start unit :=
  start_retry TERMINAL_STORAGE_RETRIES (desk_storage (persist_rejected_start started at_ms)).

(** [retire_rejected_start] and, when it returns [false], the task that it leaves behind. *)
Definition retire_rejected_start (started : StartedTurn) (at_ms : Z) (request_id : str) (state : StreamIdentity) : Start bool :=
  r ← attempt (fail_started_turn started at_ms);
  match r with
  | Ok _ => _ ← release request_id state; mret true
  | Err _ => mret false
  end.

Fixpoint retire_later (rounds : nat) (started : StartedTurn) (at_ms : Z) (request_id : str) (state : StreamIdentity) : Start unit :=
  match rounds with
  | O => mret tt
  | S n => retired ← retire_rejected_start started at_ms request_id state;
           if (retired : bool) then mret tt else retire_later n started at_ms request_id state
  end.

Definition send_started : Start unit :=
  let event := EvStarted 0 MAX_IN_FLIGHT in
  _ ← lift (length ← ok_or (start_length event)
                       (command_error "STREAM_EVENT_SERIALIZATION_FAILED" "provider stream event could not be serialized");
            ensure (length <=? DIRECT_CHANNEL_BUDGET_BYTES)
              (command_error "STREAM_EVENT_TOO_LARGE" "provider stream event exceeded the direct IPC budget"));
  open ← ask start_channel;
  _ ← lift (ensure open (command_error "STREAM_CHANNEL_CLOSED" "provider stream event channel is closed"));
  modify (fun d => set_desk_channel (desk_channel d ++ [event]) d).

(** [registry.insert_new]; [Err None] while all drawn identifiers are taken. *)
Definition enter_registry (owner : str) (draws : list str) (generation token : str) (address : nat) : Start (str * StreamIdentity) :=
  fun w => match insert_new owner draws generation token address (desk_registry (disk w)) with
           | (r, Ok (Some entered)) => (mkWorld (tick w) (set_desk_registry r (disk w)), Ok entered)
           | (_, Ok None) => (w, Err None)
           | (_, Err e) => (w, Err (Some e))
           end.

Definition current_user_text (request : ProviderRequest Num) : result ProviderCommandError str :=
  ok_or (message ← head (reverse (ProviderConfig.messages request));
         if bool_decide (role message = User) then Some (content message) else None)
    (command_error "FIRST_CHAT_INTERNAL_STATE" "chat request did not end with the current user message").

(** The arguments after [user_message] are what [insert_new] and [begin_turn] draw. *)
Definition start_provider_stream (label chat_id : str) (profile : ChatProfile) (user_message : str)
    (draws : list str) (generation token : str) (address : nat) (request_row user_row assistant_row : str) : Start (str * str) :=
  chat ← lift (map_err (fun _ => command_error "FIRST_CHAT_ID_INVALID" "chat identifier is invalid") (ChatId_parse chat_id));
  context ← desk_storage (load_persisted_chat_context chat);
  request ← lift (build_chat_request profile user_message context.1 context.2);
  selection ← lift (storage_provider_selection request);
  text ← lift (current_user_text request);
  owner ← lift (map_err (fun _ => command_error "STREAM_OWNER_INVALID" "native stream owner label is invalid")
                 (StreamOwnerLabel_parse label));
  entered ← enter_registry owner draws generation token address;
  let '(request_id, state) := (entered : str * StreamIdentity) in
  wall ← ask start_clock;
  at_ms ← lift (map_err (fun _ => storage_unavailable) (TimestampMillis_now wall));
  begun ← attempt (desk_storage (begin_turn request_row user_row assistant_row
            (mkBeginTurn chat selection (ri_owner state) (ri_generation state) text at_ms)));
  match begun with
  | Err e => _ ← release request_id state; fail e
  | Ok started =>
      let reject e := _ ← retire_rejected_start started at_ms request_id state; fail e in
      match bind_started_turn state None started, load_provider_credential request with
      | Err e, _ => reject e
      | Ok _, Some e => reject e
      | Ok _, None =>
          sent ← attempt send_started;
          match sent with
          | Err e => reject e
          | Ok _ => mret (request_id, ri_token state)
          end
      end
  end.
End start.
