(* ===== verification/StreamFacts.v ===== *)
(** * Provider streams: what the tasks keep

    [At o s k l]: the part of the shared state that only the bridge writes is [o], the row
    of the turn in the store is [s], and the reader has acknowledged enough for [k] events.
    Other tasks do not change it ([at_others]), so the bridge can be run step by step on
    [o] and [s] alone.  [Sound] collects what the reader may rely on at every await. *)

From stdpp Require Import gmap.
From S2P Require Import Prelude Bytes Utf8 RuntimeError ChatModel ChatStore ChatInvariant ChatHistory ChatGuarantees Faults StreamBridge.

(** ** What the bridge owns *)

Definition holds_gate (g : Gate) : bool := match g with GateTerminal => true | _ => false end.

Record Owned : Type := mkOwned {
  o_turn : StartedTurn;
  o_sent : Z;
  o_pending : option Z;
  o_committing : bool;
  o_terminal : option TerminalReceipt;
  o_published : Z;
  o_channel : list ProviderChannelEvent;
  o_gate : bool;
  o_delivered : Z;
  o_durable : Z;
  o_through : Z;
  o_text : str;
  o_visible : Z;
}.

Definition owned (l : Live) : Owned :=
  let m := machine l in
  let p := persistence l in
  mkOwned (turn l) (last_sent_seq m) (pending_send_seq m) (terminal_committing m) (terminal m) (last_durable_seq m)
    (channel l) (holds_gate (gate l)) (per_delivered p) (per_durable p) (per_through p) (per_text p) (per_visible_bytes p).

(** ** What the store holds *)

Inductive Stored : Type :=
  | Running (delivered durable : Z) (text : str)
  | Ended (status : StorageRequestStatus) (seq : Z) (text : str).

(** A turn that has ended may be gone with its chat. *)
Definition holds (s : Stored) (l : Live) : Prop :=
  let j := journal_of (st_request (turn l)) (store_db l) in
  match s with
  | Running delivered durable text => exists a, j = Some (mkJournal RequestRunning delivered durable a text)
  | Ended status seq text =>
      status <> RequestRunning /\ (j = None \/ exists a, j = Some (mkJournal status seq seq a text))
  end.

(** ** What every task keeps *)

(** What an acknowledgement has checked when it has come to a phase. *)
Definition promised (g : Gate) (m : StreamMachine) : Prop :=
  match g with
  | GateAck seq phase =>
      0 <= seq /\
      match phase with
      | AckWaiting | AckReady | AckForce _ | AckCancel => True
      | AckBarrier => beyond seq (acknowledged_through m) = true /\ seq <= last_sent_seq m
      | _ => beyond seq (acknowledged_through m) = true /\ seq <= last_sent_seq m /\ seq <= last_durable_seq m
      end
  | _ => True
  end.

Record machine_ok (m : StreamMachine) : Prop := {
  mk_sent : 0 <= last_sent_seq m <= MAX_WIRE_SEQUENCE;
  mk_durable : 0 <= last_durable_seq m;
  mk_acked a : acknowledged_through m = Some a -> 0 <= a <= last_sent_seq m /\ a <= last_durable_seq m;
  mk_terminal r : terminal m = Some r -> receipt_seq r = last_sent_seq m /\ last_durable_seq m = last_sent_seq m;
}.

Definition identified (l : Live) : Prop :=
  let p := persistence l in
  per_request p = st_request (turn l) /\ per_owner p = st_owner (turn l) /\ per_generation p = st_generation (turn l).

Record At (o : Owned) (s : Stored) (k : Z) (l : Live) : Prop := {
  at_owned : owned l = o;
  at_stored : holds s l;
  at_store : store_ok (store_db l);
  at_machine : machine_ok (machine l);
  at_promise : promised (gate l) (machine l);
  at_identity : identified l;
  at_room : k <= acknowledged_count (machine l) + MAX_IN_FLIGHT;
}.

(** *** Calls that do not write the request *)

Lemma journal_exists db id r : db_ok db -> requests db !! id = Some r -> is_Some (journal_of id db).
Proof.
  intros Hok Hr. destruct (request_assistant_exists _ _ _ Hok Hr) as (m & Hm & _). exists (journal r m).
  apply journal_of_Some. eauto.
Qed.

Lemma untouched_request db db' t id : Delta db db' t -> t <> TouchAll -> t <> TouchRequest id ->
  requests db' !! id = requests db !! id.
Proof.
  intros HD Hall Hne. destruct HD as [Hm Hr|m Hm Hr _ _|u a q Hm Hr _ _ _ _ _ _|q th at_ms Hm _ _ _ Hr|q th at_ms Hm _ _ Hr
    |q m c term at_ms _ _ _ _ _ _ _ Hm Hr|at_ms ->]; rewrite ?Hr; try done; rewrite lookup_insert_ne; congruence.
Qed.

Lemma untouched_message db db' t id r m : store_ok db -> Delta db db' t -> t <> TouchAll -> t <> TouchRequest id ->
  requests db !! id = Some r -> messages db !! rs_assistant r = Some m -> messages db' !! rs_assistant r = Some m.
Proof.
  intros [_ [_ Hex]] HD Hall Hne Hid Hx.
  destruct HD as [Hm _|n Hm _ Hn _|u a q Hm _ Hu Ha _ _ _ _|q th at_ms Hm _ _ _ _|q th at_ms Hm _ _ _
    |q n c term at_ms Hl Hlm _ _ _ _ _ Hm _|at_ms ->]; rewrite ?Hm; try done.
  - rewrite lookup_insert_ne; [done|congruence].
  - rewrite !lookup_insert_ne; [done|congruence..].
  - rewrite lookup_insert_ne; [done|]. intros He. apply Hne. f_equal. by apply (Hex _ _ q r).
Qed.

Lemma deleted_journal c db id j : store_ok db -> running_in c db = false -> journal_of id db = Some j ->
  journal_of id (delete_chat_rows c db) = Some j \/
  j_status j <> RequestRunning /\ journal_of id (delete_chat_rows c db) = None.
Proof.
  intros [Hok _] Hrun (r & m & Hr & Hm & ->)%journal_of_Some. destruct (decide (rs_chat r = c)) as [Hc|Hc].
  - right. split.
    + cbn. intros Hs. assert (Hex : running_in c db = true); [|congruence].
      apply existsb_exists. exists r. split; [by apply list_elem_of_In, elem_of_rows_of; eauto|].
      unfold is_running. by rewrite Hs, bool_decide_true.
    + unfold journal_of, delete_chat_rows. cbn. rewrite map_lookup_filter_None_2; [done|]. right. intros q Hq Hne. cbn in Hne. congruence.
  - left. apply journal_of_Some. exists r, m. unfold delete_chat_rows. cbn. split_and!; [| |done].
    + by apply map_lookup_filter_Some_2.
    + apply map_lookup_filter_Some_2; [done|]. cbn.
      destruct (ro_row _ _ _ (ok_requests _ Hok) _ _ Hr) as (_ & _ & _ & _ & Ha). unfold message_of in Ha.
      rewrite Hm in Ha. apply in_chat_true in Ha. congruence.
Qed.

Lemma untouched_journal op db id : store_ok db -> names_request id op = false ->
  let j' := journal_of id (exec op db).1 in
  j' = journal_of id db \/ exists j, journal_of id db = Some j /\ j_status j <> RequestRunning /\ j' = None.
Proof.
  intros Hok Hn. destruct (exec op db) as [db' [u|e]] eqn:E; cbn;
    [|left; by apply (atomic (m := exec op)) in E as ->].
  apply exec_effect in E; [|apply Hok].
  assert (Ht : touched op <> TouchAll /\ touched op <> TouchRequest id).
  { unfold names_request in Hn. destruct (touched op); [done| |done]. apply bool_decide_eq_false in Hn. split; [done|]. by intros [= ->]. }
  destruct Ht as [Ht1 Ht2].
  assert (Hcase : Delta db db' (touched op) \/ exists c, running_in c db = false /\ db' = delete_chat_rows c db).
  { destruct op; cbn in E; eauto. }
  destruct (journal_of id db) as [j|] eqn:Hj.
  - destruct Hcase as [HD|(c & Hrun & ->)]; [left|by destruct (deleted_journal c db id j) as [?|[? ?]]; eauto].
    apply journal_of_Some in Hj as (r & m & Hr & Hm & ->). apply journal_of_Some. exists r, m.
    rewrite (untouched_request _ _ _ _ HD Ht1 Ht2). by split_and!; [|eapply untouched_message|].
  - left. assert (Hr : requests db !! id = None).
    { destruct (requests db !! id) as [r|] eqn:Hr; [|done]. destruct (journal_exists db id r (proj1 Hok) Hr). congruence. }
    assert (Hr' : requests db' !! id = None); [|unfold journal_of; by rewrite Hr'].
    destruct Hcase as [HD|(c & _ & ->)]; [by rewrite (untouched_request _ _ _ _ HD Ht1 Ht2)|].
    cbn. apply map_lookup_filter_None_2. by left.
Qed.

Lemma acknowledged_journal c db db' p : store_ok db -> acknowledge_response c db = (db', Ok p) ->
  exists j a, journal_of (ca_request c) db = Some j /\
    journal_of (ca_request c) db' = Some (mkJournal (j_status j) (j_delivered j) (j_durable j) a (j_text j)).
Proof.
  intros [Hok _] (r & Hl & _ & _ & _ & _ & _ & -> & _)%acknowledge_response_Ok.
  destruct (request_assistant_exists _ _ _ Hok Hl) as (m & Hm & _). exists (journal r m), (Some (ca_through c)). cbn [j_status journal].
  rewrite (request_ok_id _ _ _ Hok Hl). split; apply journal_of_Some; [eauto|].
  eexists _, m. cbn. rewrite lookup_insert_eq. by split_and!.
Qed.

(** *** Steps of other tasks *)

(** The fields that [At] reads of the machine. *)
Definition machine_view (m : StreamMachine) :=
  (last_sent_seq m, acknowledged_through m, last_durable_seq m, pending_send_seq m, terminal m, terminal_committing m).

Definition quiet (l l' : Live) : Prop :=
  turn l' = turn l /\ persistence l' = persistence l /\ channel l' = channel l /\ store_db l' = store_db l /\
  machine_view (machine l') = machine_view (machine l).

Lemma machine_ok_view m m' : machine_view m' = machine_view m -> machine_ok m -> machine_ok m'.
Proof. intros [= E1 E2 E3 E4 E5 E6] [? ? ? ?]. split; rewrite ?E1, ?E2, ?E3, ?E5; done. Qed.

Lemma promised_view g m m' : machine_view m' = machine_view m -> promised g m -> promised g m'.
Proof. intros [= E1 E2 E3 E4 E5 E6]. unfold promised. rewrite E1, E2, E3. done. Qed.

Lemma at_quiet o s k l l' : At o s k l -> quiet l l' -> holds_gate (gate l') = holds_gate (gate l) ->
  promised (gate l') (machine l) -> At o s k l'.
Proof.
  intros [Ho Hs Hst Hm _ Hi Hk] (Et & Ep & Ec & Ed & Em) Hg Hp. pose proof Em as [= E1 E2 E3 E4 E5 E6]. split.
  - rewrite <- Ho. unfold owned. by rewrite Et, Ep, Ec, Hg, E1, E3, E4, E5, E6.
  - revert Hs. unfold holds. by rewrite Et, Ed.
  - by rewrite Ed.
  - by eapply machine_ok_view.
  - by eapply promised_view.
  - revert Hi. unfold identified. by rewrite Et, Ep.
  - revert Hk. unfold acknowledged_count. by rewrite E2.
Qed.

Lemma quiet_force e l : quiet l (force_stream_failure e l).
Proof. unfold force_stream_failure. destruct (_ && _); by repeat split. Qed.

Lemma force_gate e l : gate (force_stream_failure e l) = gate l.
Proof. unfold force_stream_failure. by destruct (_ && _). Qed.

Lemma at_force o s k e l : At o s k l -> At o s k (force_stream_failure e l).
Proof.
  intros Ha. eapply at_quiet; [done|apply quiet_force|by rewrite force_gate|]. rewrite force_gate. apply Ha.
Qed.

(** The gate passes from one acknowledgement to another phase, or is released. *)
Lemma at_set_gate o s k g l : At o s k l -> holds_gate (gate l) = false -> holds_gate g = false -> promised g (machine l) ->
  At o s k (set_gate g l).
Proof. intros Ha Hg Hg' Hp. eapply at_quiet; [done|by repeat split|cbn; congruence|done]. Qed.

Lemma at_release o s k l : At o s k l -> holds_gate (gate l) = false -> At o s k (set_gate GateFree l).
Proof. intros. by apply at_set_gate. Qed.

Lemma at_fail o s k seq phase e l : At o s k l -> gate l = GateAck seq phase -> At o s k (set_gate (GateAck seq (AckForce e)) l).
Proof.
  intros Ha Hg. pose proof (at_promise _ _ _ _ Ha) as Hp. rewrite Hg in Hp. destruct Hp as [Hp _].
  apply at_set_gate; [done|by rewrite Hg|done|done].
Qed.

Lemma request_cancel_quiet l : quiet l (request_cancel l).1 /\ gate (request_cancel l).1 = gate l.
Proof. unfold request_cancel. repeat case_match; by repeat split. Qed.

Lemma at_quiet_same o s k l l' : At o s k l -> quiet l l' -> gate l' = gate l -> At o s k l'.
Proof. intros Ha Hq Hg. eapply at_quiet; [done|done|by rewrite Hg|rewrite Hg; apply Ha]. Qed.

Lemma acked_count_bounds m : machine_ok m -> acknowledged_count m = match acknowledged_through m with None => 0 | Some a => a + 1 end.
Proof.
  intros Hm. unfold acknowledged_count. destruct (acknowledged_through m) as [a|] eqn:E; [|done].
  pose proof (mk_acked _ Hm _ E) as [? _]. pose proof (mk_sent _ Hm) as [_ ?].
  unfold saturating_add, MAX_WIRE_SEQUENCE, U64_MAX in *. lia.
Qed.

Lemma in_flight_value m : machine_ok m -> in_flight m = last_sent_seq m + 1 - acknowledged_count m.
Proof.
  intros Hm. pose proof (mk_sent _ Hm). unfold in_flight. rewrite (acked_count_bounds _ Hm).
  unfold saturating_sub, saturating_add, MAX_WIRE_SEQUENCE, U64_MAX in *.
  destruct (acknowledged_through m) as [a|] eqn:E; [pose proof (mk_acked _ Hm _ E)|]; lia.
Qed.

(** The acknowledgement is recorded. *)
Lemma at_record o s k now seq l : At o s k l -> gate l = GateAck seq AckRecord ->
  At o s k (set_gate GateFree (on_machine (record_ack_progress now seq) l)).
Proof.
  intros [Ho Hs Hst Hm Hp Hi Hk] Hg. rewrite Hg in Hp. cbn in Hp. destruct Hp as (H0 & Hb & Hle & Hd).
  set (m' := record_ack_progress now seq (machine l)).
  assert (Hv : machine_view m' = machine_view (set_acknowledged (Some seq) (machine l))).
  { subst m'. unfold record_ack_progress. by repeat case_match. }
  assert (Hm' : machine_ok (set_acknowledged (Some seq) (machine l))).
  { destruct Hm. split; cbn; try done. by intros a [= <-]. }
  pose proof Hv as [= E1 E2 E3 E4 E5 E6]. split; try done.
  - rewrite <- Ho. unfold owned. cbn. fold m'. by rewrite E1, E3, E4, E5, E6, Hg.
  - eapply machine_ok_view; [exact Hv|done].
  - cbn. fold m'. rewrite acked_count_bounds in Hk by done. rewrite acked_count_bounds by (by eapply machine_ok_view).
    rewrite E2. unfold beyond in Hb. destruct (acknowledged_through (machine l)); zify_bool; lia.
Qed.

Lemma at_stored_change o s k l db : At o s k l -> store_ok db -> holds s (set_store_db db l) -> At o s k (set_store_db db l).
Proof. intros [? ? ? ? ? ? ?] ? ?. by split. Qed.

Lemma store_ok_call {A} op (m : StoreM A) db db' r : exec op = void m -> store_ok db -> m db = (db', r) -> store_ok db'.
Proof.
  intros He Hok Hr. pose proof (store_ok_step op db Hok) as H. rewrite He in H. unfold void in H. unfold mbind, ST_bind in H.
  rewrite Hr in H. by destruct r.
Qed.

Lemma at_acknowledge o s k l c db p : At o s k l -> ca_request c = st_request (turn l) ->
  acknowledge_response c (store_db l) = (db, Ok p) -> At o s k (set_store_db db l).
Proof.
  intros Ha Hc Hr. apply at_stored_change; [done| |].
  - by eapply (store_ok_call (OpAcknowledge c)); [|apply Ha|].
  - destruct (acknowledged_journal _ _ _ _ (at_store _ _ _ _ Ha) Hr) as (j & a & Hj & Hj'). rewrite Hc in *.
    pose proof (at_stored _ _ _ _ Ha) as Hs. unfold holds in *. cbn. rewrite Hj in Hs. rewrite Hj'. destruct s as [d n t|st q t].
    + destruct Hs as [a' [= ->]]. cbn. eauto.
    + destruct Hs as [Hn [?|[a' [= ->]]]]; [done|]. cbn. eauto.
Qed.

Lemma at_ack_store o s k fault op l l' r : At o s k l -> (exists c, ca_request c = st_request (turn l) /\ op = acknowledge_response c) ->
  run_storage fault op l = (l', r) -> At o s k l' /\ gate l' = gate l.
Proof.
  intros Ha (c & Hc & ->) Hr. unfold run_storage in Hr. destruct fault as [f|]; [by injection Hr as <- _|].
  destruct (acknowledge_response c (store_db l)) as [db [p|e]] eqn:E; injection Hr as <- _; (split; [|done]).
  - by eapply at_acknowledge.
  - apply (atomic (m := acknowledge_response c)) in E as ->. by destruct l.
Qed.

Lemma at_ack_step o s k fault wall seq phase l : At o s k l -> gate l = GateAck seq phase -> At o s k (ack_step fault wall seq phase l).
Proof.
  intros Ha Hg. assert (Hgf : holds_gate (gate l) = false) by by rewrite Hg.
  pose proof (at_promise _ _ _ _ Ha) as Hp. rewrite Hg in Hp. cbn in Hp. pose proof (at_machine _ _ _ _ Ha) as Hm.
  assert (Hnn : seq = 0 -> seq <= last_durable_seq (machine l)) by (intros ->; apply Hm).
  destruct phase as [| | | |expected|expected| |error|]; cbn [ack_step].
  - case_bool_decide; [done|]. apply at_set_gate; try done.
  - destruct (_ || _) eqn:E; [by apply at_release|]. case_bool_decide; [by apply at_release|].
    assert (Hb : beyond seq (acknowledged_through (machine l)) = true).
    { unfold beyond. destruct (acknowledged_through (machine l)) as [a|]; [zify_bool; apply Z.ltb_lt|done].
      assert (a <> seq) by congruence. lia. }
    destruct (terminal (machine l)) as [r|] eqn:Et.
    + destruct (mk_terminal _ Hm _ Et). destruct (receipt_seq r <? seq) eqn:E2; [by apply at_release|].
      apply at_set_gate; try done. cbn. split; [tauto|]. zify_bool. destruct (seq =? 0); split_and!; try done; lia.
    + eapply at_quiet; [done| |cbn; by rewrite Hg|].
      * unfold quiet, on_machine, request_flush_through, note_ack_activity. split_and!; try done. cbn.
        by repeat case_match.
      * cbn. split; [tauto|]. zify_bool. destruct (seq =? 0) eqn:E2; zify_bool; split_and!; try done; lia.
  - destruct Hp as (H0 & Hb & Hle). destruct (lease_failure _); [by apply at_release|]. cbn.
    destruct (terminal (machine l)) as [r|] eqn:Et; cbn.
    + destruct (mk_terminal _ Hm _ Et). apply at_set_gate; try done. cbn. split_and!; try done. lia.
    + destruct (terminal_committing _); [done|]. destruct (_ <=? _) eqn:E; [|done]. zify_bool.
      apply at_set_gate; try done.
  - by apply at_set_gate.
  - unfold persist_cumulative_ack. destruct (TimestampMillis_now wall) as [at_ms|]; [|by eapply at_fail].
    destruct (run_storage _ _ l) as [l' [p|e]] eqn:E; (eapply (at_ack_store o s k) in E as [Ha' Hg']; [|done|by eexists; split; [|reflexivity]]).
    + assert (Hgf' : holds_gate (gate l') = false) by congruence. destruct (_ && _); [|by eapply at_fail; [|rewrite Hg'; exact Hg]].
      pose proof (at_promise _ _ _ _ Ha') as Hp'. rewrite Hg', Hg in Hp'. by apply at_set_gate.
    + eapply at_fail; [done|by rewrite Hg'].
  - case_bool_decide; [|by eapply at_fail]. eapply at_quiet; [done|by repeat split|cbn; by rewrite Hg|done].
  - by apply at_record.
  - apply at_set_gate; [by apply at_force|by rewrite force_gate|done|]. cbn. tauto.
  - apply at_release; [|done]. eapply at_quiet_same; [exact Ha|by repeat split|done].
Qed.

Lemma at_other o s k step l : At o s k l -> At o s k (other_step step l).
Proof.
  intros Ha. destruct step as [d| | | | | | |seq|fault wall|late|op]; cbn [other_step].
  - eapply at_quiet_same; [exact Ha|by repeat split|done].
  - unfold cancel_command. destruct (_ || _); [done|]. destruct (request_cancel_quiet l). by eapply at_quiet_same.
  - destruct (request_cancel_quiet l). by eapply at_quiet_same.
  - unfold reset_stream. destruct (_ && _); [|done]. destruct (request_cancel_quiet l). by eapply at_quiet_same.
  - eapply at_quiet_same; [done| |done]. unfold snapshot_stream, quiet. cbn. split_and!; try done. by destruct (is_some _).
  - unfold watchdog_section. destruct (_ || _); [done|]. eapply at_quiet_same; [exact Ha|by repeat split|done].
  - unfold watchdog_cancels. destruct (is_some _); [|done]. eapply at_quiet_same; [exact Ha|by repeat split|done].
  - destruct (gate l) eqn:Hg; try done. destruct (0 <=? seq) eqn:E; [|done]. zify_bool. apply at_set_gate; try done. by rewrite Hg.
  - destruct (gate l) eqn:Hg; try done. by apply at_ack_step.
  - destruct (gate l) as [|seq phase|] eqn:Hg; try done. assert (holds_gate (gate l) = false) by by rewrite Hg.
    destruct phase; cbn [ack_gives_up]; try done.
    + destruct (late || cancellation l); [by apply at_release|done].
    + destruct late; [by eapply at_fail|]. destruct (cancellation l); [by apply at_release|done].
  - destruct (names_request _ _) eqn:E; [done|]. apply at_stored_change; [done|by apply store_ok_step, Ha|].
    pose proof (untouched_journal op (store_db l) _ (at_store _ _ _ _ Ha) E) as Hj. pose proof (at_stored _ _ _ _ Ha) as Hs.
    cbn in Hj. unfold holds in *. cbn. destruct s as [d n t|st q t].
    + destruct Hs as [a Hs]. rewrite Hs in Hj. destruct Hj as [-> |(j & [= <-] & Hn & _)]; [eauto|done].
    + destruct Hs as [Hn Hs]. split; [done|]. destruct Hj as [-> |(j & _ & _ & ->)]; [done|by left].
Qed.

Lemma at_others o s k steps l : At o s k l -> At o s k (run_others steps l).
Proof. revert l. induction steps as [|st steps IH]; intros l Ha; [done|]. by apply IH, at_other. Qed.

(** ** What the bridge's calls do to the row *)

Lemma journal_acked id db j : store_ok db -> journal_of id db = Some j -> within_acked (j_acked j) (j_durable j) = true.
Proof.
  intros [Hok _] (r & m & Hr & _ & ->)%journal_of_Some. destruct (ro_row _ _ _ (ok_requests _ Hok) _ _ Hr) as (_ & Hck & _).
  unfold request_check in Hck. rewrite !andb_true_iff in Hck. destruct_and!. cbn. by destruct (rs_acked r).
Qed.

Lemma delivered_journal c db db' p j : store_ok db -> journal_of (dc_request c) db = Some j ->
  record_response_delivery c db = (db', Ok p) ->
  store_ok db' /\ j_status j = RequestRunning /\ j_delivered j = dc_expected_delivered c /\
  journal_of (dc_request c) db' = Some (mkJournal RequestRunning (dc_through c) (j_durable j) (j_acked j) (j_text j)) /\
  sq_request p = dc_request c /\ sq_owner p = dc_owner c /\ sq_generation p = dc_generation c /\
  sq_delivered p = dc_through c /\ sq_durable p = j_durable j /\ sq_acked p = j_acked j.
Proof.
  intros Hok Hj Hrun. assert (Hok' : store_ok db') by by eapply (store_ok_call (OpRecordDelivery c)).
  destruct Hok as [Hok _].
  apply record_response_delivery_Ok in Hrun as (r & Hl & Hr & Ho & Hg & Hd & _ & _ & -> & ->).
  apply journal_of_Some in Hj as (r' & m & Hr' & Hm & ->). assert (r' = r) as -> by congruence.
  pose proof (request_ok_id _ _ _ Hok Hl) as Hid. pose proof (running_status _ Hr) as Hs. cbn. split_and!; try done.
  apply journal_of_Some. eexists _, m. cbn. rewrite Hid, lookup_insert_eq. split_and!; try done.
  unfold journal. cbn. by rewrite Hs.
Qed.

Lemma progressed_journal c terminal db db' p j : store_ok db -> journal_of (rc_request c) db = Some j ->
  apply_response_progress c terminal db = (db', Ok p) ->
  j_status j = RequestRunning /\ j_durable j = rc_expected_durable c /\
  journal_of (rc_request c) db' = Some (mkJournal (status_of terminal) (j_delivered j) (rc_through c) (j_acked j) (j_text j ++ rc_text c)) /\
  pr_request p = rc_request c /\ pr_delivered p = j_delivered j /\ pr_durable p = rc_through c /\ pr_acked p = j_acked j /\
  within_acked (pr_acked p) (pr_durable p) = true /\ pr_status p = status_of terminal.
Proof.
  intros Hok Hj Hrun. pose proof (journal_acked _ _ _ Hok Hj) as Hack. destruct Hok as [Hok _].
  apply apply_response_progress_Ok in Hrun as (r & m & Hl & Hm & Hr & _ & _ & Hd & Hlt & _ & _ & _ & (C' & -> & _) & ->).
  apply journal_of_Some in Hj as (r' & m' & Hr' & Hm' & ->). assert (r' = r) as -> by congruence. assert (m' = m) as -> by congruence.
  pose proof (request_ok_id _ _ _ Hok Hl) as Hid. pose proof (running_status _ Hr) as Hs. cbn in *. split_and!; try done.
  - apply journal_of_Some. eexists _, _. cbn. rewrite Hid, lookup_insert_eq, with_progress_assistant.
    destruct (mo_row _ _ (ok_messages _ Hok) _ _ Hm) as (-> & _). rewrite lookup_insert_eq. split_and!; try done.
    unfold journal, with_progress, status_of. by destruct terminal as [[| |]|].
  - unfold within_acked in *. destruct (rs_acked r); [|done]. zify_bool. apply Z.leb_le. lia.
Qed.

Lemma progress_text c terminal db db' p : apply_response_progress c terminal db = (db', Ok p) -> has_nul (rc_text c) = false.
Proof. intros H. unfold apply_response_progress in H. st_inv1 H. by eapply checkpoint_text_Ok. Qed.

Lemma checkpointed_store_ok c db db' p : store_ok db -> checkpoint_response c db = (db', Ok p) -> store_ok db'.
Proof. apply (store_ok_call (OpCheckpoint c)); done. Qed.

Lemma finished_store_ok c outcome db db' p : store_ok db -> finish_turn c outcome db = (db', Ok p) -> store_ok db'.
Proof. apply (store_ok_call (OpFinishTurn c outcome)); done. Qed.

Lemma finish_turn_progress c outcome db db' p : finish_turn c outcome db = (db', Ok p) ->
  apply_response_progress c (Some outcome) db = (db', Ok p).
Proof. intros H. unfold finish_turn in H. st_inv H. done. Qed.

(** *** Changes of what the bridge owns *)

Definition own_pending (x : option Z) (o : Owned) : Owned :=
  mkOwned (o_turn o) (o_sent o) x (o_committing o) (o_terminal o) (o_published o) (o_channel o) (o_gate o)
    (o_delivered o) (o_durable o) (o_through o) (o_text o) (o_visible o).
Definition own_sent (n : Z) (o : Owned) : Owned :=
  mkOwned (o_turn o) n (o_pending o) (o_committing o) (o_terminal o) (o_published o) (o_channel o) (o_gate o)
    (o_delivered o) (o_durable o) (o_through o) (o_text o) (o_visible o).
Definition own_committing (b : bool) (o : Owned) : Owned :=
  mkOwned (o_turn o) (o_sent o) (o_pending o) b (o_terminal o) (o_published o) (o_channel o) (o_gate o)
    (o_delivered o) (o_durable o) (o_through o) (o_text o) (o_visible o).
Definition own_terminal (r : TerminalReceipt) (o : Owned) : Owned :=
  mkOwned (o_turn o) (o_sent o) (o_pending o) (o_committing o) (Some r) (o_published o) (o_channel o) (o_gate o)
    (o_delivered o) (o_durable o) (o_through o) (o_text o) (o_visible o).
Definition own_published (n : Z) (o : Owned) : Owned :=
  mkOwned (o_turn o) (o_sent o) (o_pending o) (o_committing o) (o_terminal o) n (o_channel o) (o_gate o)
    (o_delivered o) (o_durable o) (o_through o) (o_text o) (o_visible o).
Definition own_event (e : ProviderChannelEvent) (o : Owned) : Owned :=
  mkOwned (o_turn o) (o_sent o) (o_pending o) (o_committing o) (o_terminal o) (o_published o) (o_channel o ++ [e]) (o_gate o)
    (o_delivered o) (o_durable o) (o_through o) (o_text o) (o_visible o).
Definition own_gate (b : bool) (o : Owned) : Owned :=
  mkOwned (o_turn o) (o_sent o) (o_pending o) (o_committing o) (o_terminal o) (o_published o) (o_channel o) b
    (o_delivered o) (o_durable o) (o_through o) (o_text o) (o_visible o).
Definition own_delivered (n : Z) (o : Owned) : Owned :=
  mkOwned (o_turn o) (o_sent o) (o_pending o) (o_committing o) (o_terminal o) (o_published o) (o_channel o) (o_gate o)
    n (o_durable o) (o_through o) (o_text o) (o_visible o).
Definition own_durable (n : Z) (o : Owned) : Owned :=
  mkOwned (o_turn o) (o_sent o) (o_pending o) (o_committing o) (o_terminal o) (o_published o) (o_channel o) (o_gate o)
    (o_delivered o) n (o_through o) (o_text o) (o_visible o).
Definition own_through (n : Z) (o : Owned) : Owned :=
  mkOwned (o_turn o) (o_sent o) (o_pending o) (o_committing o) (o_terminal o) (o_published o) (o_channel o) (o_gate o)
    (o_delivered o) (o_durable o) n (o_text o) (o_visible o).
Definition own_text (t : str) (o : Owned) : Owned :=
  mkOwned (o_turn o) (o_sent o) (o_pending o) (o_committing o) (o_terminal o) (o_published o) (o_channel o) (o_gate o)
    (o_delivered o) (o_durable o) (o_through o) t (o_visible o).
Definition own_visible (n : Z) (o : Owned) : Owned :=
  mkOwned (o_turn o) (o_sent o) (o_pending o) (o_committing o) (o_terminal o) (o_published o) (o_channel o) (o_gate o)
    (o_delivered o) (o_durable o) (o_through o) (o_text o) n.

(** The bridge changes the machine. *)
Lemma at_machine_step o s k f l o' : At o s k l -> owned (on_machine f l) = o' ->
  acknowledged_through (f (machine l)) = acknowledged_through (machine l) ->
  last_sent_seq (machine l) <= last_sent_seq (f (machine l)) <= MAX_WIRE_SEQUENCE ->
  last_durable_seq (machine l) <= last_durable_seq (f (machine l)) ->
  (forall r, terminal (f (machine l)) = Some r -> receipt_seq r = last_sent_seq (f (machine l)) /\
     last_durable_seq (f (machine l)) = last_sent_seq (f (machine l))) ->
  At o' s k (on_machine f l).
Proof.
  intros [Ho Hs Hst [M1 M2 M3 M4] Hp Hi Hk] Ho' Ha Hsent Hd Ht. split; try done.
  - cbn. split; [lia|lia| |done]. intros a. rewrite Ha. intros Ea. specialize (M3 _ Ea). lia.
  - cbn. revert Hp. unfold promised. rewrite Ha. destruct (gate l) as [|seq [| | | | | | | |]|]; try done; intros; destruct_and!; split_and!; done || lia.
  - cbn. unfold acknowledged_count. by rewrite Ha.
Qed.

Lemma at_persistence_step o s k p l o' : At o s k l -> owned (set_persistence p l) = o' ->
  per_request p = per_request (persistence l) /\ per_owner p = per_owner (persistence l) /\
  per_generation p = per_generation (persistence l) -> At o' s k (set_persistence p l).
Proof.
  intros [Ho Hs Hst Hm Hp (I1 & I2 & I3) Hk] Ho' (E1 & E2 & E3). split; try done.
  unfold identified. cbn. by rewrite E1, E2, E3.
Qed.

Lemma at_event o s k e l : At o s k l -> At (own_event e o) s k (set_channel (channel l ++ [e]) l).
Proof. intros [Ho Hs Hst Hm Hp Hi Hk]. subst o. by split. Qed.

Lemma at_take_gate o s k l : At o s k l -> At (own_gate true o) s k (set_gate GateTerminal l).
Proof. intros [Ho Hs Hst Hm Hp Hi Hk]. subst o. by split. Qed.

Lemma at_free_gate o s k l : At o s k l -> At (own_gate false o) s k (set_gate GateFree l).
Proof. intros [Ho Hs Hst Hm Hp Hi Hk]. subst o. by split. Qed.

Lemma at_row o s s' k l db : At o s k l -> store_ok db -> holds s' (set_store_db db l) -> At o s' k (set_store_db db l).
Proof. intros [Ho Hs Hst Hm Hp Hi Hk] ? ?. by split. Qed.

Lemma at_less o s k k' l : At o s k l -> k' <= k -> At o s k' l.
Proof. intros [Ho Hs Hst Hm Hp Hi Hk] ?. split; try done. lia. Qed.

(** ** What the reader may rely on *)

(** The text that the reader sees. *)
Definition event_text (e : ProviderChannelEvent) : str :=
  match e with EvTextDelta _ text | EvRefusalDelta _ text => text | _ => [] end.
Definition shown (ch : list ProviderChannelEvent) : str := flat_map event_text ch.

Definition final_status (e : ProviderChannelEvent) : option StorageRequestStatus :=
  match e with
  | EvCompleted _ _ _ => Some RequestCompleted
  | EvCancelled _ => Some RequestCancelled
  | EvFailed _ _ => Some RequestFailed
  | _ => None
  end.
Definition is_final (e : ProviderChannelEvent) : bool := is_some (final_status e).
Definition has_final (ch : list ProviderChannelEvent) : bool := existsb is_final ch.

Definition receipt_status (r : TerminalReceipt) : StorageRequestStatus :=
  match r with
  | ReceiptCompleted _ _ _ => RequestCompleted
  | ReceiptCancelled _ => RequestCancelled
  | ReceiptFailed _ _ => RequestFailed
  end.

(** Events are numbered from zero, without a gap. *)
Definition in_order (ch : list ProviderChannelEvent) : Prop := map event_seq ch = seqZ 0 (len ch).

Record sound (ch : list ProviderChannelEvent) (published : Z) (t : option TerminalReceipt) (s : Stored) (k : Z) : Prop := {
  so_order : in_order ch;
  so_last front e : ch = front ++ [e] -> has_final front = false;
  so_room : len ch <= k + (if has_final ch then 1 else 0);
  so_row : match s with
           | Running _ durable text => text `prefix_of` shown ch /\ published <= durable /\ has_final ch = false /\ t = None
           | Ended status seq text => text = shown ch /\ published <= seq /\
               (forall e, e ∈ ch -> is_final e = true -> final_status e = Some status /\ event_seq e = seq) /\
               (forall r, t = Some r -> receipt_status r = status /\ receipt_seq r = seq)
           end;
}.

Definition Sound (l : Live) : Prop :=
  exists o s k, At o s k l /\ sound (o_channel o) (o_published o) (o_terminal o) s k.

(** The channel holds the events up to [n] and no final one. *)
Definition clean (ch : list ProviderChannelEvent) (n : Z) : Prop := in_order ch /\ len ch = n + 1 /\ has_final ch = false.

Lemma has_final_app a b : has_final (a ++ b) = has_final a || has_final b.
Proof. apply existsb_app. Qed.

Lemma shown_app a b : shown (a ++ b) = shown a ++ shown b.
Proof. apply flat_map_app. Qed.

Lemma in_order_snoc ch e : in_order ch -> event_seq e = len ch -> in_order (ch ++ [e]).
Proof.
  unfold in_order. intros Hch He. rewrite map_app, Hch. cbn. unfold len in *. rewrite length_app. cbn.
  rewrite He. replace (Z.of_nat (length ch + 1)) with (Z.of_nat (length ch) + 1) by lia.
  rewrite seqZ_app by lia. by f_equal.
Qed.

Lemma len_snoc {A} (l : list A) x : len (l ++ [x]) = len l + 1.
Proof. unfold len. rewrite length_app. cbn. lia. Qed.

Lemma clean_snoc ch n e : clean ch n -> event_seq e = n + 1 -> is_final e = false -> clean (ch ++ [e]) (n + 1).
Proof.
  intros (Ho & Hl & Hf) He Hn. split_and!; [apply in_order_snoc; [done|lia]|rewrite len_snoc; lia|].
  rewrite has_final_app, Hf. cbn. by rewrite Hn.
Qed.

Lemma clean_front ch n front e : clean ch n -> ch = front ++ [e] -> has_final front = false.
Proof. intros (_ & _ & Hf) ->. rewrite has_final_app in Hf. by apply orb_false_iff in Hf as [? _]. Qed.

Lemma no_final ch e : has_final ch = false -> e ∈ ch -> is_final e = false.
Proof.
  intros Hf He. destruct (is_final e) eqn:E; [|done]. assert (has_final ch = true); [|congruence].
  apply existsb_exists. exists e. split; [by apply list_elem_of_In|done].
Qed.

Lemma sound_running ch n p a d x k : clean ch n -> n + 1 <= k -> x `prefix_of` shown ch -> p <= d ->
  sound ch p None (Running a d x) k.
Proof.
  intros Hc Hk Hx Hp. pose proof Hc as (Ho & Hl & Hf). split; [done|by intros; eapply clean_front| |done]. rewrite Hf. lia.
Qed.

Lemma sound_ended ch n p st q k : clean ch n -> n + 1 <= k -> p <= q -> sound ch p None (Ended st q (shown ch)) k.
Proof.
  intros Hc Hk Hp. pose proof Hc as (Ho & Hl & Hf). split; [done|by intros; eapply clean_front|rewrite Hf; lia|].
  split_and!; [done|done| |done]. intros e He Hfe. by rewrite (no_final ch e) in Hfe.
Qed.

(** The final event, or none when the channel is closed. *)
Lemma sound_final ch n p e r st q k : clean ch n -> n + 1 <= k -> p <= q -> q = n + 1 -> final_status e = Some st -> event_seq e = q ->
  (forall r', r = Some r' -> receipt_status r' = st /\ receipt_seq r' = q) ->
  sound (ch ++ [e]) p r (Ended st q (shown (ch ++ [e]))) k.
Proof.
  intros Hc Hk Hp Hq He Hs Hr. pose proof Hc as (Ho & Hl & Hf). split.
  - apply in_order_snoc; [done|lia].
  - intros front e' [-> _]%app_inj_tail. done.
  - rewrite has_final_app, Hf, len_snoc. cbn. unfold is_final. rewrite He. cbn. lia.
  - split_and!; [done|done| |done]. intros e' [He'|He'%list_elem_of_singleton]%elem_of_app Hfe; [|by subst].
    by rewrite (no_final ch e') in Hfe.
Qed.

Lemma sound_silent ch n p r st q k : clean ch n -> n + 1 <= k -> p <= q ->
  (forall r', r = Some r' -> receipt_status r' = st /\ receipt_seq r' = q) -> sound ch p r (Ended st q (shown ch)) k.
Proof.
  intros Hc Hk Hp Hr. destruct (sound_ended ch n p st q k Hc Hk Hp) as [S1 S2 S3 (S4 & S5 & S6 & _)]. by split.
Qed.

(** ** Running the bridge *)

Section bridge_rules.
Context {Sys : StreamSystem}.

Lemma wp_interfere (I : Live -> Prop) (Q : unit -> Live -> Prop) o s k l : At o s k l ->
  sound (o_channel o) (o_published o) (o_terminal o) s k -> (forall l', At o s k l' -> Q tt l') -> wp Sound I interfere Q l.
Proof.
  intros Ha Hs HQ t. unfold interfere. cbn. destruct (_ <=? _)%nat; [by exists o, s, k|]. cbn. by apply HQ, at_others.
Qed.

Lemma wp_on_live {A} (X I : Live -> Prop) (body : Live -> Live * result ProviderCommandError A) (Q : A -> Live -> Prop) l :
  match body l with (l', Ok a) => Q a l' | (l', Err _) => I l' end -> wp X I (on_live body) Q l.
Proof. intros H t. unfold on_live. cbn. by destruct (body l) as [l' [a|e]]. Qed.

Lemma wp_locked {A} (I : Live -> Prop) (body : Live -> Live * result ProviderCommandError A) (Q : A -> Live -> Prop) o s k l :
  At o s k l -> sound (o_channel o) (o_published o) (o_terminal o) s k ->
  (forall l', At o s k l' -> match body l' with (l'', Ok a) => Q a l'' | (l'', Err _) => I l'' end) ->
  wp Sound I (locked body) Q l.
Proof. intros Ha Hs HQ. apply wp_bind. eapply wp_interfere; [done..|]. intros l' Ha'. by apply wp_on_live, HQ. Qed.

Lemma wp_update (I : Live -> Prop) f (Q : unit -> Live -> Prop) o s k l : At o s k l ->
  sound (o_channel o) (o_published o) (o_terminal o) s k -> (forall l', At o s k l' -> Q tt (f l')) ->
  wp Sound I (locked_update f) Q l.
Proof. intros Ha Hs HQ. unfold locked_update. by eapply wp_locked. Qed.

Lemma set_store_db_same l : set_store_db (store_db l) l = l.
Proof. by destruct l. Qed.

Lemma wp_storage {A} (I : Live -> Prop) (op : StoreM A) (Q : A -> Live -> Prop) o s k l : Atomic op -> At o s k l ->
  sound (o_channel o) (o_published o) (o_terminal o) s k -> (forall l', At o s k l' -> I l') ->
  (forall l' db a, At o s k l' -> op (store_db l') = (db, Ok a) -> Q a (set_store_db db l')) ->
  wp Sound I (storage_run op) Q l.
Proof.
  intros Hop Ha Hs HI HQ. apply wp_bind. eapply wp_interfere; [done..|]. intros l' Ha'. wp_step. apply wp_on_live.
  unfold run_storage. match goal with |- context [storage_fault ?t] => destruct (storage_fault t) end; [by apply HI|].
  destruct (op (store_db l')) as [db [a|e]] eqn:E; cbn; [by apply HQ|]. apply (atomic (m := op)) in E as ->.
  rewrite set_store_db_same. by apply HI.
Qed.

Lemma wp_send_direct (X I : Live -> Prop) e (Q : unit -> Live -> Prop) o s k l : At o s k l -> I l ->
  (forall l', At (own_event e o) s k l' -> Q tt l') -> wp X I (send_direct e) Q l.
Proof. intros Ha HI HQ. unfold send_direct. wp_step; [|done]. wp_step. wp_step; [|done]. wp_step. by apply HQ, at_event. Qed.

(** The persistence keeps what [owned] shows of it. *)
Lemma at_same_view o s k p l : At o s k l -> owned (set_persistence p l) = owned l ->
  per_request p = per_request (persistence l) /\ per_owner p = per_owner (persistence l) /\
  per_generation p = per_generation (persistence l) -> At o s k (set_persistence p l).
Proof. intros Ha Ho Hi. eapply at_persistence_step; [done| |done]. rewrite Ho. apply Ha. Qed.

Lemma wp_timestamp (X I : Live -> Prop) (Q : Z -> Live -> Prop) o s k l : At o s k l -> I l ->
  (forall at_ms l', At o s k l' -> Q at_ms l') -> wp X I timestamp Q l.
Proof.
  intros Ha HI HQ. unfold timestamp, on_persistence. wp_step. wp_step; [|done]. wp_step. wp_step. apply HQ.
  apply at_same_view; [done|..]; by destruct (_ <? _).
Qed.
End bridge_rules.

(** ** A stream that has not ended *)

(** What the store has and what the bridge still has to store are the text the reader sees,
    but for [rest]. *)
Record opened (rest : str) (o : Owned) (s : Stored) (k : Z) : Prop := {
  op_row : exists txt, s = Running (o_delivered o) (o_durable o) txt /\ txt ++ o_text o ++ rest = shown (o_channel o);
  op_durable : 0 <= o_durable o <= o_through o;
  op_through : o_through o <= o_delivered o;
  op_published : o_published o <= o_durable o;
  op_clean : clean (o_channel o) (o_sent o);
  op_room : o_sent o + 1 <= k;
  op_sent : 0 <= o_sent o <= MAX_WIRE_SEQUENCE;
  op_terminal : o_terminal o = None;
}.

Lemma opened_sound rest o s k : opened rest o s k -> sound (o_channel o) (o_published o) (o_terminal o) s k.
Proof.
  intros [(txt & -> & Htxt) _ _ Hp Hc Hk _ ->]. eapply sound_running; [done..| |done]. rewrite <- Htxt. by apply prefix_app_r.
Qed.

Section operations.
Context {Sys : StreamSystem}.

Lemma wp_ensure (X I : Live -> Prop) b (e : ProviderCommandError) (Q : unit -> Live -> Prop) l :
  (b = true -> Q tt l) -> (b = false -> I l) -> wp X I (lift (ensure b e)) Q l.
Proof. intros HQ HI. apply wp_lift; unfold ensure; destruct b; intros x; try done; intros _; [destruct x; by apply HQ|by apply HI]. Qed.

(** *** Sending an event *)

Lemma wp_reserved (I : Live -> Prop) (Q : Z -> Live -> Prop) e seq rest o s k l :
  opened rest o s k -> o_pending o = None -> seq = o_sent o + 1 -> event_seq e = seq -> is_final e = false ->
  seq + 1 <= k -> seq <= MAX_WIRE_SEQUENCE -> At (own_pending (Some seq) o) s k l ->
  (forall l', At o s k l' -> I l') -> (forall l', At (own_event e (own_sent seq o)) s k l' -> Q seq l') ->
  wp Sound I (sent ← attempt (send_direct e); locked (commit_send seq sent)) Q l.
Proof.
  intros Ho Hpend Hseq He Hf Hk Hmax Ha HI HQ. wp_step. pose proof (opened_sound _ _ _ _ Ho) as Hs.
  assert (Hcommit : forall sent o1 l1, At o1 s k l1 -> sound (o_channel o1) (o_published o1) (o_terminal o1) s k ->
    o_pending o1 = Some seq -> o_sent o1 = o_sent o -> o_terminal o1 = None ->
    (forall l', At (own_pending None (match sent with Ok _ => own_sent seq o1 | Err _ => o1 end)) s k l' ->
       match sent with Ok _ => Q seq l' | Err _ => I l' end) ->
    wp Sound I (locked (commit_send seq sent)) Q l1).
  { intros sent o1 l1 Ha1 Hs1 Hp1 Hsent1 Ht1 HP. eapply wp_locked; [done|exact Hs1|]. intros l2 Ha2. unfold commit_send.
    pose proof (at_owned _ _ _ _ Ha2) as Ho2. subst o1. cbn in Hp1, Hsent1, Ht1. rewrite Hp1, bool_decide_true by done. cbn [negb].
    pose proof (op_sent _ _ _ _ Ho). destruct sent as [[]|e1].
    - apply HP. match goal with |- At _ _ _ (set_machine ?m l2) => change (set_machine m l2) with (on_machine (fun _ => m) l2) end.
      eapply at_machine_step; [exact Ha2|..].
      + unfold owned. cbn. by repeat case_match.
      + by destruct (_ || _).
      + destruct (_ || _); cbn; lia.
      + by destruct (_ || _).
      + intros r. destruct (_ || _); cbn; congruence.
    - apply HP. change (set_machine (set_pending None (machine l2)) l2) with (on_machine (set_pending None) l2).
      eapply at_machine_step; [exact Ha2|done|done|cbn; pose proof (mk_sent _ (at_machine _ _ _ _ Ha2)); lia|done|].
      cbn. congruence. }
  destruct Ho as [(txt & -> & Htxt) Hd Ht Hp Hc Hroom Hsent Hterm]. eapply wp_send_direct; [exact Ha| |].
  - intros e1. eapply Hcommit; [exact Ha|exact Hs|done|done|done|]. cbn. intros l' Ha'. apply HI. destruct o. cbn in *. by subst.
  - intros l1 Ha1. eapply Hcommit; [exact Ha1| |done|done|done|].
    + cbn. rewrite Hterm. eapply (sound_running _ seq); [|done| |done].
      * rewrite Hseq. apply clean_snoc; [done|lia|done].
      * rewrite shown_app, <- Htxt. by do 2 apply prefix_app_r.
    + cbn. intros l' Ha'. apply HQ. destruct o. cbn in *. by subst.
Qed.

Lemma opened_room rest o s k k' : opened rest o s k -> k <= k' -> opened rest o s k'.
Proof. intros [? ? ? ? ? ? ? ?] ?. split; try done. lia. Qed.

(** A reservation: the reader has acknowledged enough for one more event. *)
Lemma reserve_send_at o s k l l' r : At o s k l -> o_pending o = None -> reserve_send l = (l', r) ->
  match r with
  | Ok (Some seq) => seq = o_sent o + 1 /\ seq <= MAX_NON_TERMINAL_SEQUENCE /\ At (own_pending (Some seq) o) s (Z.max k (seq + 1)) l'
  | _ => At o s k l'
  end.
Proof.
  intros Ha Hpend Hr. unfold reserve_send in Hr. pose proof (at_owned _ _ _ _ Ha) as Ho. subst o. cbn in *.
  destruct (lease_failure _); [by injection Hr as <- <-|]. destruct (_ || _); [by injection Hr as <- <-|].
  destruct (is_some (terminal _) || _) eqn:Ht; [by injection Hr as <- <-|]. rewrite Hpend in Hr. cbn in Hr.
  destruct (_ <? _) eqn:Hf; [|by injection Hr as <- <-]. unfold next_wire_sequence, checked_add in Hr.
  pose proof (at_machine _ _ _ _ Ha) as Hm. pose proof (mk_sent _ Hm) as Hsent. rewrite (in_flight_value _ Hm) in Hf. zify_bool.
  destruct (_ <=? U64_MAX); [|by injection Hr as <- <-]. destruct (_ <=? MAX_NON_TERMINAL_SEQUENCE) eqn:Hmax; [|by injection Hr as <- <-].
  cbn in Hr. injection Hr as <- <-. zify_bool. split_and!; [done|done|]. set (seq := last_sent_seq (machine l) + 1) in *.
  assert (Hk : At (owned l) s (Z.max k (seq + 1)) l). { pose proof (at_room _ _ _ _ Ha). destruct Ha. split; try done. lia. }
  eapply at_machine_step; [exact Hk|done|done|cbn; lia|done|]. apply (mk_terminal _ Hm).
Qed.

Lemma wp_send_loop (I : Live -> Prop) (Q : Z -> Live -> Prop) make rest o s k n l :
  opened rest o s k -> o_pending o = None -> (forall seq, event_seq (make seq) = seq /\ is_final (make seq) = false) ->
  At o s k l -> (forall l', At o s k l' -> I l') ->
  (forall seq l', seq = o_sent o + 1 -> seq <= MAX_NON_TERMINAL_SEQUENCE ->
     At (own_event (make seq) (own_sent seq o)) s (Z.max k (seq + 1)) l' -> Q seq l') ->
  wp Sound I (send_loop n make) Q l.
Proof.
  intros Ho Hpend Hmake Ha HI HQ. pose proof (opened_sound _ _ _ _ Ho) as Hs.
  assert (Hbody : forall next l, (forall l', At o s k l' -> wp Sound I next Q l') -> At o s k l ->
    wp Sound I (reserved ← locked reserve_send;
      match reserved with
      | Some seq => sent ← attempt (send_direct (make seq)); locked (commit_send seq sent)
      | None => _ ← interfere;
                prefers ← ask prefers_cancellation;
                cancelled ← gets cancellation;
                if cancelled && prefers then fail stream_cancelled else next
      end) Q l).
  { clear l Ha. intros next l Hnext Ha. wp_step. eapply wp_locked; [done|done|]. intros l1 Ha1.
    destruct (reserve_send l1) as [l2 r] eqn:E. pose proof (reserve_send_at _ _ _ _ _ _ Ha1 Hpend E) as Hr.
    destruct r as [[seq|]|e]; [| |by apply HI].
    - destruct Hr as (Hseq & Hmax & Ha2). destruct (Hmake seq).
      eapply (wp_reserved _ _ _ seq rest o s (Z.max k (seq + 1)));
        [eapply opened_room; [exact Ho|lia]|exact Hpend|exact Hseq|assumption|assumption|lia| |exact Ha2| |].
      + unfold MAX_NON_TERMINAL_SEQUENCE in Hmax. lia.
      + intros l' Ha'. apply HI. eapply at_less; [exact Ha'|lia].
      + intros l' Ha'. by apply HQ.
    - wp_step. eapply wp_interfere; [done|done|]. intros l3 Ha3. wp_step. wp_step. destruct (_ && _); [by wp_step; apply HI|by apply Hnext]. }
  revert l Ha. induction n as [|n IH]; intros l Ha; cbn [send_loop]; (apply Hbody; [|done]); [|done].
  intros l' Ha'. wp_step. by exists o, s, k.
Qed.

(** *** The persistence *)

Lemma running_row o s k l a d x : At o s k l -> s = Running a d x ->
  exists ak, journal_of (st_request (turn l)) (store_db l) = Some (mkJournal RequestRunning a d ak x).
Proof. intros Ha ->. apply (at_stored _ _ _ _ Ha). Qed.

Lemma wp_record_delivery (I : Live -> Prop) (Q : unit -> Live -> Prop) seq o s k l txt :
  At o s k l -> sound (o_channel o) (o_published o) (o_terminal o) s k -> s = Running (o_delivered o) (o_durable o) txt ->
  (forall l', At o s k l' -> I l') ->
  (forall l', seq = saturating_add U64_MAX (o_delivered o) 1 -> At (own_delivered seq o) (Running seq (o_durable o) txt) k l' -> Q tt l') ->
  wp Sound I (record_delivery seq) Q l.
Proof.
  intros Ha Hs Hrow HI HQ. unfold record_delivery. wp_step. pose proof (at_owned _ _ _ _ Ha) as Ho.
  assert (Hper : per_delivered (persistence l) = o_delivered o /\ per_durable (persistence l) = o_durable o) by by subst o.
  destruct Hper as [Hdel Hdur]. destruct (at_identity _ _ _ _ Ha) as (Hr & Hw & Hg).
  assert (Hturn : turn l = o_turn o) by by subst o. set (p := persistence l) in *.
  apply wp_bind, wp_ensure; [|by intros _; apply HI]. intros Hseq%Z.eqb_eq. rewrite Hdel in Hseq.
  apply wp_bind. eapply wp_timestamp; [exact Ha|by apply HI|]. intros at_ms l1 Ha1. apply wp_bind.
  eapply wp_storage; [apply _|exact Ha1|exact Hs|exact HI|]. intros l2 db progress Ha2 Hrun.
  destruct (running_row _ _ _ _ _ _ _ Ha2 Hrow) as [ak Hj].
  assert (Hturn2 : turn l2 = o_turn o) by (by rewrite <- (at_owned _ _ _ _ Ha2)). rewrite Hturn2, <- Hturn, <- Hr in Hj.
  pose proof (journal_acked _ _ _ (at_store _ _ _ _ Ha2) Hj) as Hack.
  pose proof (delivered_journal (mkDelivery _ _ _ _ _ _) _ _ _ _ (at_store _ _ _ _ Ha2) Hj Hrun) as
    (Hok & _ & _ & Hj' & E1 & E2 & E3 & E4 & E5 & E6). cbn in Hj', E1, E2, E3, E4, E5, E6, Hack.
  apply wp_bind, wp_ensure.
  - intros _. apply wp_modify, HQ; [done|].
    assert (Ha3 : At o (Running seq (o_durable o) txt) k (set_store_db db l2)).
    { eapply at_row; [exact Ha2|done|]. cbn. rewrite Hturn2, <- Hturn, <- Hr. eauto. }
    eapply at_persistence_step; [exact Ha3| |done]. by rewrite <- (at_owned _ _ _ _ Ha3).
  - intros Hf. exfalso. rewrite E1, E2, E3, E4, E5, E6, !bool_decide_true, Z.eqb_refl, Hdur, Z.eqb_refl, Hack in Hf by done. done.
Qed.

Definition fits (text : str) (visible : Z) : bool :=
  match checked_add USIZE_MAX visible (len text) with None => false | Some bytes => bytes <=? MAX_MESSAGE_BYTES end.

Lemma wp_record (X I : Live -> Prop) (Q : unit -> Live -> Prop) seq visible id usage o s k l : At o s k l ->
  seq = saturating_add U64_MAX (o_through o) 1 -> (forall text, visible = Some text -> fits text (o_visible o) = true) ->
  (forall l', At (own_through seq (own_text (o_text o ++ default [] visible) (own_visible (o_visible o + len (default [] visible)) o))) s k l' -> Q tt l') ->
  wp X I (record seq visible id usage) Q l.
Proof.
  intros Ha Hseq Hfit HQ. unfold record. wp_step. pose proof (at_owned _ _ _ _ Ha) as Ho. subst o. cbn in Hseq, Hfit.
  apply wp_bind, wp_ensure; [intros _|by rewrite Hseq, Z.eqb_refl].
  set (o1 := own_text (per_text (persistence l) ++ default [] visible) (own_visible (per_visible_bytes (persistence l) + len (default [] visible)) (owned l))).
  assert (H1 : wp X I (match visible with
                       | Some text => _ ← lift (validate_visible_fragment text (persistence l)); on_persistence (add_visible text)
                       | None => mret tt
                       end) (fun _ l' => At o1 s k l') l).
  { subst o1. destruct visible as [text|]; cbn [default].
    - unfold validate_visible_fragment. apply wp_bind, wp_ensure; [intros _|intros Hf; pose proof (Hfit _ eq_refl) as Hf'; unfold fits in Hf'; congruence].
      apply wp_modify. eapply at_persistence_step; [exact Ha|done|done].
    - apply wp_ret. rewrite app_nil_r, Z.add_0_r. exact Ha. }
  apply wp_bind. eapply wp_post; [exact H1|]. intros [] l1 Ha1. apply wp_bind.
  eapply (wp_post _ _ _ (fun _ l' => At o1 s k l')).
  { destruct id; [apply wp_modify|by apply wp_ret]. eapply at_same_view; done. }
  intros [] l2 Ha2. apply wp_bind. eapply (wp_post _ _ _ (fun _ l' => At o1 s k l')).
  { destruct usage; [apply wp_modify|by apply wp_ret]. eapply at_same_view; done. }
  intros [] l3 Ha3. apply wp_modify, HQ. eapply at_persistence_step; [exact Ha3| |done].
  pose proof (at_owned _ _ _ _ Ha3) as Ho3. unfold owned in *. cbn. subst o1. by injection Ho3 as -> -> -> -> -> -> -> -> -> -> _ -> ->.
Qed.

Lemma wp_checkpoint (X I : Live -> Prop) (Q : ResponseCheckpoint -> Live -> Prop) seq o s k l : At o s k l -> (forall l', At o s k l' -> I l') ->
  (forall c l', At (own_text [] o) s k l' -> rc_request c = st_request (o_turn o) -> rc_expected_durable c = o_durable o ->
     rc_through c = seq -> rc_text c = o_text o -> Q c l') -> wp X I (checkpoint seq) Q l.
Proof.
  intros Ha HI HQ. unfold checkpoint. apply wp_bind. eapply wp_timestamp; [exact Ha|by apply HI|]. intros at_ms l1 Ha1.
  wp_step. apply wp_bind, wp_modify. wp_step. pose proof (at_owned _ _ _ _ Ha1) as Ho. apply HQ; try done.
  - eapply at_persistence_step; [exact Ha1|by rewrite <- Ho|done].
  - cbn. rewrite <- Ho. cbn. apply (at_identity _ _ _ _ Ha1).
  - by rewrite <- Ho.
  - by rewrite <- Ho.
Qed.

Lemma wp_restore (X I : Live -> Prop) (Q : unit -> Live -> Prop) c o s k l : At (own_text [] o) s k l -> rc_text c = o_text o ->
  (forall l', At o s k l' -> Q tt l') -> wp X I (restore_checkpoint_payload c) Q l.
Proof.
  intros Ha Hc HQ. apply wp_modify, HQ. eapply at_persistence_step; [exact Ha| |done].
  pose proof (at_owned _ _ _ _ Ha) as Ho. unfold owned in *. cbn. rewrite Hc. destruct o. unfold own_text in Ho. cbn in *.
  injection Ho as -> -> -> -> -> -> -> -> -> -> -> -> ->. by rewrite app_nil_r.
Qed.

Lemma wp_store_checkpoint {A} (I : Live -> Prop) (op : StoreM A) accepted c message (Q : A -> Live -> Prop) o s k l :
  Atomic op -> At (own_text [] o) s k l -> sound (o_channel o) (o_published o) (o_terminal o) s k -> rc_text c = o_text o ->
  (forall l', At o s k l' -> I l') ->
  (forall l' db a, At (own_text [] o) s k l' -> op (store_db l') = (db, Ok a) -> accepted a = true /\ Q a (set_store_db db l')) ->
  wp Sound I (store_checkpoint op accepted c message) Q l.
Proof.
  intros Hop Ha Hs Hc HI HQ. unfold store_checkpoint. wp_step. eapply wp_storage; [done|exact Ha|exact Hs| |].
  - intros l1 Ha1 e. apply wp_bind. eapply wp_restore; [exact Ha1|done|]. intros l2 Ha2. wp_step. by apply HI.
  - intros l1 db a Ha1 Hrun. destruct (HQ _ _ _ Ha1 Hrun) as [-> HQ']. by wp_step.
Qed.

(** *** Storing a prefix *)

Definition flushed (o : Owned) : Owned := own_published (o_through o) (own_durable (o_through o) (own_text [] o)).

Lemma opened_flushed rest o txt k : opened rest o (Running (o_delivered o) (o_durable o) txt) k ->
  opened rest (flushed o) (Running (o_delivered o) (o_through o) (txt ++ o_text o)) k.
Proof.
  intros [(t & [= <-] & Htxt) Hd Ht Hp Hc Hk Hs Hn]. split; cbn; try done; [|lia].
  exists (txt ++ o_text o). by rewrite <- app_assoc.
Qed.

Lemma publish_durable_at o s k seq l : At o s k l -> o_published o <= seq -> o_terminal o = None ->
  At (own_published seq o) s k (on_machine (publish_durable seq) l).
Proof.
  intros Ha Hle Hn. pose proof (at_owned _ _ _ _ Ha) as Ho. subst o. cbn in Hle, Hn.
  pose proof (mk_sent _ (at_machine _ _ _ _ Ha)). eapply at_machine_step; [exact Ha|..];
    unfold publish_durable, owned, on_machine; cbn; rewrite (Z.max_r _ _ Hle); repeat case_match; cbn in *; (done || lia || congruence).
Qed.

Lemma wp_flush (I : Live -> Prop) (Q : unit -> Live -> Prop) rest o s k l : At o s k l -> opened rest o s k ->
  (forall l', At o s k l' -> I l') ->
  (forall o' s' l', At o' s' k l' -> opened rest o' s' k -> o' = o \/ o' = flushed o -> Q tt l') ->
  wp Sound I flush Q l.
Proof.
  intros Ha Hop HI HQ. pose proof (opened_sound _ _ _ _ Hop) as Hs. unfold flush. wp_step.
  pose proof (at_owned _ _ _ _ Ha) as Ho.
  assert (Hper : per_through (persistence l) = o_through o /\ per_durable (persistence l) = o_durable o /\
    per_delivered (persistence l) = o_delivered o) by by subst o. destruct Hper as (Hthr & Hdur & Hdel).
  assert (Hreq : per_request (persistence l) = st_request (o_turn o)) by (rewrite <- Ho; apply (at_identity _ _ _ _ Ha)).
  set (p := persistence l) in *. unfold is_dirty. rewrite Hdur, Hthr. destruct (o_durable o <? o_through o) eqn:Hdirty; cbn [negb].
  2:{ apply wp_modify. eapply (HQ o s); [|done|by left]. eapply at_same_view; [exact Ha|done|done]. }
  apply Z.ltb_lt in Hdirty. wp_step. eapply wp_checkpoint; [exact Ha|exact HI|]. intros c l1 Ha1 Hc1 Hc2 Hc3 Hc4.
  destruct (op_row _ _ _ _ Hop) as (txt & -> & Htxt). apply wp_bind.
  eapply (wp_store_checkpoint _ _ _ _ _ _ o); [apply _|exact Ha1|exact Hs|exact Hc4|exact HI|]. intros l2 db progress Ha2 Hrun.
  destruct (running_row _ _ _ _ _ _ _ Ha2 eq_refl) as [ak Hj].
  assert (Hturn : turn l2 = o_turn o) by exact (f_equal o_turn (at_owned _ _ _ _ Ha2)). rewrite Hturn, <- Hc1 in Hj.
  pose proof (checkpointed_store_ok _ _ _ _ (at_store _ _ _ _ Ha2) Hrun) as Hok.
  apply transaction_Ok in Hrun. destruct (progressed_journal _ _ _ _ _ _ (at_store _ _ _ _ Ha2) Hj Hrun) as
    (_ & _ & Hj' & E1 & E2 & E3 & E4 & E5 & _). cbn in Hj', E2, E4. rewrite Hc3, Hc4 in *. split.
  { rewrite E1, Hc1, Hreq, E2, Hdel, E3, Z.eqb_refl, bool_decide_true by done. rewrite E3 in E5. by rewrite E5, Z.eqb_refl. }
  pose proof (opened_flushed _ _ _ _ Hop) as Hfl. apply wp_bind, wp_modify.
  assert (Ha3 : At (own_durable (o_through o) (own_text [] o)) (Running (o_delivered o) (o_through o) (txt ++ o_text o)) k
    (set_persistence (set_per_durable (o_through o) (persistence (set_store_db db l2))) (set_store_db db l2))).
  { eapply at_persistence_step; [|by rewrite <- (at_owned _ _ _ _ Ha2)|done].
    eapply at_row; [exact Ha2|done|]. cbn. rewrite Hturn, <- Hc1. eauto. }
  destruct Hfl as [F1 F2 F3 F4 F5 F6 F7 F8]. cbn in *.
  eapply wp_update; [exact Ha3| |].
  - cbn. rewrite F8. eapply sound_running; [exact F5|done| |pose proof (op_published _ _ _ _ Hop); lia].
    destruct F1 as (t & [= <-] & E). unfold shown. rewrite <- E. by apply prefix_app_r.
  - intros l4 Ha4. eapply (HQ (flushed o)); [|by split|by right]. apply publish_durable_at; [exact Ha4| |done].
    cbn. pose proof (op_published _ _ _ _ Hop). lia.
Qed.

(** *** Ending the turn *)

(** The end is recorded as delivered, not yet as stored. *)
Record armed (o : Owned) (s : Stored) (k : Z) : Prop := {
  ar_opened : opened [] o s k;
  ar_delivered : o_delivered o = o_sent o + 1;
  ar_through : o_through o = o_sent o \/ o_through o = o_sent o + 1;
  ar_durable : o_durable o <= o_sent o;
  ar_sent : o_sent o + 1 <= MAX_WIRE_SEQUENCE;
}.

Definition ended (o : Owned) : Owned :=
  let seq := o_sent o + 1 in own_published seq (own_durable seq (own_text [] (own_through seq o))).

Lemma armed_through o s k : armed o s k -> armed (own_through (o_sent o + 1) o) s k.
Proof.
  intros [[Hr Hd Ht Hp Hc Hk Hs Hn] Hdel Hthr Hdur Hmax]. split; cbn; try done; [|by right]. split; cbn; try done; lia.
Qed.

Lemma armed_seq o s k : armed o s k -> saturating_add U64_MAX (o_sent o) 1 = o_sent o + 1.
Proof. intros [_ _ _ _ H]. unfold saturating_add, MAX_WIRE_SEQUENCE, U64_MAX in *. lia. Qed.

(** The row of the turn after its end was stored. *)
Lemma at_ended_row o s k l db status seq ak txt : At o s k l -> store_ok db -> status <> RequestRunning ->
  journal_of (st_request (o_turn o)) db = Some (mkJournal status seq seq ak txt) -> At o (Ended status seq txt) k (set_store_db db l).
Proof.
  intros Ha Hok Hst Hj. eapply at_row; [exact Ha|done|]. cbn. split; [done|]. right. exists ak.
  by rewrite (f_equal o_turn (at_owned _ _ _ _ Ha) : turn l = o_turn o).
Qed.

Lemma wp_publish_end (I : Live -> Prop) (Q : unit -> Live -> Prop) status o s k l : armed o s k ->
  At (own_durable (o_sent o + 1) (own_text [] (own_through (o_sent o + 1) o))) (Ended status (o_sent o + 1) (shown (o_channel o))) k l ->
  (forall l', At (ended o) (Ended status (o_sent o + 1) (shown (o_channel o))) k l' -> Q tt l') ->
  wp Sound I (locked_update (on_machine (publish_durable (o_sent o + 1)))) Q l.
Proof.
  intros [[Hr Hd Ht Hp Hc Hk Hs Hn] _ _ Hdur _] Ha HQ. eapply wp_update; [exact Ha| |].
  - cbn. rewrite Hn. eapply sound_ended; [done|done|lia].
  - intros l' Ha'. apply HQ. apply publish_durable_at; [exact Ha'|cbn; lia|done].
Qed.

Lemma wp_enter_terminal (X I : Live -> Prop) (Q : unit -> Live -> Prop) o s k l : At o s k l -> armed o s k ->
  (forall l', At (own_through (o_sent o + 1) o) s k l' -> Q tt l') -> wp X I (enter_terminal_sequence (o_sent o + 1)) Q l.
Proof.
  intros Ha Har HQ. unfold enter_terminal_sequence. wp_step. pose proof (at_owned _ _ _ _ Ha) as Ho.
  assert (Hper : per_through (persistence l) = o_through o /\ per_durable (persistence l) = o_durable o) by by subst o.
  destruct Hper as [-> ->]. pose proof (armed_seq _ _ _ Har) as Hsat. destruct Har as [_ _ Hthr Hdur Hmax].
  destruct (_ =? saturating_add _ _ _) eqn:E.
  - apply wp_modify, HQ. eapply at_persistence_step; [exact Ha|by rewrite <- Ho|done].
  - destruct Hthr as [Hthr|Hthr]; rewrite Hthr in E |- *; [by rewrite Hsat, Z.eqb_refl in E|].
    rewrite Z.eqb_refl. replace (o_durable o <? _) with true by (symmetry; apply Z.ltb_lt; lia). apply wp_ret, HQ.
    by replace (own_through (o_sent o + 1) o) with o by (rewrite <- Hthr; by destruct o).
Qed.

Lemma ending_text o s k txt : opened [] o s k -> s = Running (o_delivered o) (o_durable o) txt -> txt ++ o_text o = shown (o_channel o).
Proof. intros [(t & -> & Ht) _ _ _ _ _ _ _] [= ->]. by rewrite <- Ht, app_nil_r. Qed.

Lemma wp_finish (I : Live -> Prop) (Q : unit -> Live -> Prop) outcome o s k l : At o s k l -> armed o s k ->
  (forall l', At (own_through (o_sent o + 1) o) s k l' -> I l') ->
  (forall l', has_nul (o_text o) = false ->
     At (ended o) (Ended (status_of (Some outcome)) (o_sent o + 1) (shown (o_channel o))) k l' -> Q tt l') ->
  wp Sound I (finish (o_sent o + 1) outcome) Q l.
Proof.
  intros Ha Har HI HQ. unfold finish. apply wp_bind. eapply wp_enter_terminal; [done..|]. clear l Ha. intros l Ha.
  wp_step. assert (Hreq : per_request (persistence l) = st_request (o_turn o)).
  { rewrite (proj1 (at_identity _ _ _ _ Ha)). exact (f_equal (fun o => st_request (o_turn o)) (at_owned _ _ _ _ Ha)). }
  set (p := persistence l) in *. set (seq := o_sent o + 1) in *. set (o1 := own_through seq o) in *.
  apply wp_bind. eapply wp_checkpoint; [exact Ha|exact HI|]. intros c l1 Ha1 Hc1 Hc2 Hc3 Hc4.
  pose proof (armed_through _ _ _ Har) as Har1. fold o1 in Har1.
  pose proof (opened_sound _ _ _ _ (ar_opened _ _ _ Har1)) as Hs.
  destruct (op_row _ _ _ _ (ar_opened _ _ _ Har1)) as (txt & Hrow & _).
  pose proof (ending_text _ _ _ _ (ar_opened _ _ _ Har1) Hrow) as Htxt. apply wp_bind.
  eapply (wp_store_checkpoint _ _ _ _ _ _ o1); [apply _|exact Ha1|exact Hs|exact Hc4|exact HI|]. intros l2 db progress Ha2 Hrun.
  destruct (running_row _ _ _ _ _ _ _ Ha2 Hrow) as [ak Hj].
  rewrite (f_equal o_turn (at_owned _ _ _ _ Ha2) : turn l2 = o_turn o1), <- Hc1 in Hj.
  pose proof (finished_store_ok _ _ _ _ _ (at_store _ _ _ _ Ha2) Hrun) as Hok. apply finish_turn_progress in Hrun.
  destruct (progressed_journal _ _ _ _ _ _ (at_store _ _ _ _ Ha2) Hj Hrun) as (_ & _ & Hj' & E1 & E2 & E3 & E4 & E5 & E6).
  assert (Hnul : has_nul (o_text o) = false).
  { change (o_text o) with (o_text o1). rewrite <- Hc4. by eapply progress_text. }
  cbn [j_delivered j_text j_acked] in Hj', E2, E4. rewrite (ar_delivered _ _ _ Har1) in Hj', E2. change (o_sent o1 + 1) with seq in Hj', E2.
  assert (Ht : txt ++ rc_text c = shown (o_channel o)) by (rewrite Hc4; exact Htxt). rewrite Hc3, Ht in Hj'. rewrite Hc3 in E3.
  assert (Hst : status_of (Some outcome) <> RequestRunning) by by destruct outcome.
  split.
  { rewrite E3 in E5. rewrite E1, Hc1, E2, E3, E5, E6, !Z.eqb_refl, (bool_decide_false _ Hst). rewrite bool_decide_true; [reflexivity|]. rewrite Hreq. reflexivity. }
  apply wp_bind, wp_modify.
  eapply wp_publish_end; [exact Har| |intros; by apply HQ]. eapply at_persistence_step; [| |done].
  - eapply (at_ended_row _ _ _ _ db (status_of (Some outcome)) seq ak); [exact Ha2|done|done|]. rewrite Hc1 in Hj'. exact Hj'.
  - exact (f_equal (own_durable seq) (at_owned _ _ _ _ Ha2)).
Qed.

#[local] Instance fail_unless_finished_atomic c seq known : Atomic (fail_unless_finished c seq known).
Proof. unfold fail_unless_finished, get_request_state, load_request_state. apply _. Qed.

Lemma fail_unless_finished_Ok c seq known db db' found j : store_ok db -> journal_of (rc_request c) db = Some j ->
  j_status j = RequestRunning -> fail_unless_finished c seq known db = (db', Ok found) ->
  store_ok db' /\ found = (RequestFailed, rc_through c) /\
  journal_of (rc_request c) db' = Some (mkJournal RequestFailed (j_delivered j) (rc_through c) (j_acked j) (j_text j ++ rc_text c)) /\
  has_nul (rc_text c) = false.
Proof.
  intros Hok Hj Hst H. unfold fail_unless_finished in H. do 2 st_inv1 H.
  match goal with Hx : get_request_state _ _ = _ |- _ => apply load_request_state_Ok in Hx as [-> Hl] end.
  pose proof Hj as Hj0. apply journal_of_Some in Hj as (r & m & Hr & _ & ->). cbn in Hst.
  match type of Hl with _ = Some ?q => assert (q = r) as -> by congruence end.
  replace (is_running r) with true in H by (symmetry; by apply bool_decide_eq_true). cbn [negb] in H. st_inv H.
  match goal with Hx : fail_turn _ _ _ = _ |- _ => rename Hx into Hf end. unfold fail_turn in Hf.
  pose proof (finished_store_ok _ _ _ _ _ Hok Hf) as Hok'. apply finish_turn_progress in Hf.
  match type of Hf with apply_response_progress ?q _ _ = _ => set (c1 := q) in * end.
  change (rc_request c) with (rc_request c1) in Hj0.
  destruct (progressed_journal _ _ _ _ _ _ Hok Hj0 Hf) as (_ & _ & Hj' & _ & _ & E3 & _ & _ & E6).
  rewrite E3, E6. split_and!; [done|reflexivity|exact Hj'|exact (progress_text _ _ _ _ _ Hf)].
Qed.

Lemma wp_fail_after (I : Live -> Prop) (Q : StorageRequestStatus -> Live -> Prop) o s k l : At o s k l -> armed o s k ->
  o_through o = o_sent o + 1 -> (forall l', At o s k l' -> I l') ->
  (forall l', has_nul (o_text o) = false ->
     At (ended o) (Ended RequestFailed (o_sent o + 1) (shown (o_channel o))) k l' -> Q RequestFailed l') ->
  wp Sound I (fail_after_terminal_error (o_sent o + 1)) Q l.
Proof.
  intros Ha Har Hthr HI HQ. unfold fail_after_terminal_error. wp_step. pose proof (at_owned _ _ _ _ Ha) as Ho.
  assert (Eo : own_through (o_sent o + 1) o = o) by (rewrite <- Hthr; by destruct o).
  apply wp_bind, wp_ensure; [intros _|intros _; by apply HI]. set (p := persistence l) in *. set (seq := o_sent o + 1) in *.
  apply wp_bind. eapply wp_checkpoint; [exact Ha|exact HI|]. intros c l1 Ha1 Hc1 Hc2 Hc3 Hc4.
  pose proof (ar_opened _ _ _ Har) as Hop. pose proof (opened_sound _ _ _ _ Hop) as Hs.
  destruct (op_row _ _ _ _ Hop) as (txt & Hrow & _). pose proof (ending_text _ _ _ _ Hop Hrow) as Htxt. apply wp_bind.
  eapply (wp_store_checkpoint _ _ _ _ _ _ o); [apply _|exact Ha1|exact Hs|exact Hc4|exact HI|]. intros l2 db found Ha2 Hrun.
  destruct (running_row _ _ _ _ _ _ _ Ha2 Hrow) as [ak Hj].
  rewrite (f_equal o_turn (at_owned _ _ _ _ Ha2) : turn l2 = o_turn o), <- Hc1 in Hj.
  destruct (fail_unless_finished_Ok _ _ _ _ _ _ _ (at_store _ _ _ _ Ha2) Hj eq_refl Hrun) as (Hok & -> & Hj' & Hnul).
  rewrite Hc4 in Hnul. cbn [j_delivered j_text j_acked] in Hj'. rewrite (ar_delivered _ _ _ Har), Hc1, Hc3, Hc4, Htxt in Hj'. fold seq in Hj'.
  split; [done|]. cbn [fst snd]. rewrite Hc3. apply wp_bind, wp_modify, wp_bind.
  eapply wp_publish_end; [exact Har| |].
  - eapply at_persistence_step; [by eapply (at_ended_row _ _ _ _ db RequestFailed seq ak); [exact Ha2|done|done|exact Hj']| |done].
    change (o_sent o + 1) with seq. rewrite Eo.
    exact (f_equal (fun o => own_durable seq (own_text [] o)) (at_owned _ _ _ _ Ha2)).
  - intros l3 Ha3. wp_step. by apply HQ.
Qed.

(** A retried operation, when a failed try keeps [P] and a try from [P] leads to [Q]. *)
Lemma wp_with_retry {A} (P : Live -> Prop) (I : Live -> Prop) (m : Bridge A) (Q : A -> Live -> Prop) n l :
  (forall l', P l' -> wp Sound P m Q l') -> (forall l', P l' -> exists o s k, At o s k l' /\
     sound (o_channel o) (o_published o) (o_terminal o) s k /\ forall l'', At o s k l'' -> P l'') ->
  (forall l', P l' -> I l') -> wp Sound P m Q l -> wp Sound I (with_retry n m) Q l.
Proof.
  intros Hm HP HI Hl. revert l Hl. induction n as [|n IH]; intros l Hl; cbn [with_retry].
  - eapply wp_mono; [..|exact Hl]; done.
  - wp_step. eapply wp_mono; [done| | |exact Hl]; cbn beta.
    + intros l1 Hl1 e. destruct (HP _ Hl1) as (o & s & k & Ha & Hs & Hback). wp_step. eapply wp_interfere; [exact Ha|exact Hs|].
      intros l2 Ha2. by apply IH, Hm, Hback.
    + intros a l1 HQ. by wp_step.
Qed.
End operations.
