(* ===== verification/StreamGuarantees.v ===== *)
(** * Provider streams: guarantees

    What the reader of a stream may rely on at every await of the bridge, whatever the
    other tasks, the store and the channel do; before that, the parts without tasks: the
    fragments of a text, the history of a request, the registry and the command that starts
    a stream. *)

From stdpp Require Import gmap.
From S2P Require Import Prelude Bytes Utf8 Json ProviderConfig ProviderCompile ProviderCompileFacts RuntimeError ChatModel ChatStore ChatInvariant ChatHistory ChatGuarantees Faults StreamBridge StreamFacts.

(** ** Fragments of a text *)

Lemma utf8_valid_drop s n : utf8_valid s -> is_char_boundary s n = true -> utf8_valid (drop n s).
Proof.
  rewrite utf8_valid_encode. intros (cs & Hcs & ->). revert n. induction Hcs as [|c cs Hc Hcs IH]; intros n Hn.
  { unfold utf8_encode; simpl. rewrite drop_nil. by eexists. }
  destruct n as [|n]; [rewrite drop_0, utf8_valid_encode; by eexists; split; [constructor|]|].
  rewrite utf8_encode_cons in *. destruct (encode_char_boundary c Hc) as (b0 & rest & He & _ & Hrest).
  destruct (decide (length (utf8_encode_char c) <= S n)%nat) as [Hle|Hlt].
  - rewrite drop_app_ge by done. apply IH. revert Hn. unfold is_char_boundary. rewrite lookup_app_r, length_app by done.
    destruct (S n - length (utf8_encode_char c))%nat eqn:Hsub; [done|].
    destruct (utf8_encode cs !! _); [done|]. rewrite !Nat.eqb_eq. lia.
  - exfalso. revert Hn. unfold is_char_boundary. rewrite lookup_app_l by lia. rewrite He in *. simpl in *.
    destruct (lookup_lt_is_Some_2 rest n) as [b Hb]; [lia|]. rewrite Hb. rewrite Forall_lookup in Hrest. by rewrite (Hrest _ _ Hb).
Qed.

(** The first character ends at a boundary. *)
Lemma first_char_boundary s : utf8_valid s -> s <> [] -> exists n, (1 <= n <= 4)%nat /\ (n <= length s)%nat /\ is_char_boundary s n = true.
Proof.
  rewrite utf8_valid_encode. intros ([|c cs] & Hcs & ->) Hne; [done|]. inversion_clear Hcs as [|? ? Hc Hcs']. rewrite utf8_encode_cons.
  pose proof (utf8_encode_char_length c) as Hl. exists (length (utf8_encode_char c)). split_and!; [lia|lia|rewrite length_app; lia|].
  unfold is_char_boundary. destruct (length (utf8_encode_char c)) as [|n] eqn:E; [lia|]. rewrite lookup_app_r by lia.
  replace (S n - length (utf8_encode_char c))%nat with 0%nat by lia. destruct cs as [|c' cs].
  - unfold utf8_encode. cbn [map concat]. rewrite app_nil_r, E. apply Nat.eqb_refl.
  - rewrite utf8_encode_cons. inversion_clear Hcs' as [|? ? Hc' _].
    destruct (encode_char_boundary c' Hc') as (b0 & rest & -> & Hb & _). cbn. by rewrite Hb.
Qed.

Lemma fragment_end_spec s n : utf8_valid s -> s <> [] -> (4 <= n)%nat ->
  (1 <= fragment_end s n <= n)%nat /\ (fragment_end s n <= length s)%nat /\ is_char_boundary s (fragment_end s n) = true.
Proof.
  intros Hv Hne Hn. destruct (first_char_boundary s Hv Hne) as (m & Hm & Hml & Hb). unfold fragment_end.
  destruct (floor_char_boundary_spec s (n `min` length s)) as [H1 H2].
  pose proof (floor_char_boundary_max s (n `min` length s) m ltac:(lia) Hb) as H3.
  destruct (floor_char_boundary s (n `min` length s)) as [|f]; [lia|]. split_and!; try done; lia.
Qed.

Lemma fragments_spec fuel s n : utf8_valid s -> (4 <= n)%nat -> (length s <= fuel)%nat ->
  concat (fragments fuel s n) = s /\ Forall (fun f => utf8_valid f /\ f <> [] /\ (length f <= n)%nat) (fragments fuel s n).
Proof.
  revert s. induction fuel as [|fuel IH]; intros s Hv Hn Hf; cbn [fragments].
  { by destruct s; cbn in Hf; [|lia]. }
  destruct s as [|b s0] eqn:Es; [done|]. rewrite <- Es in *. assert (Hne : s <> []) by by subst. clear Es s0 b.
  replace (is_empty s) with false by by destruct s.
  destruct (fragment_end_spec s n Hv Hne Hn) as (He & Hl & Hb). set (k := fragment_end s n) in *.
  destruct (IH (drop k s)) as [Hc Hall]; [by apply utf8_valid_drop|done|rewrite length_drop; lia|].
  cbn [concat]. rewrite Hc, take_drop. split; [done|]. constructor; [|done]. split_and!; [by apply utf8_valid_take| |rewrite length_take; lia].
  intros E%(f_equal length). rewrite length_take in E. cbn in E. lia.
Qed.

(** What is shown of a delta is the delta: its fragments are not empty, are whole characters
    of at most [MAX_DELTA_FRAGMENT_BYTES] bytes, and join to the text. *)
Theorem fragments_are_the_text text : utf8_valid text ->
  concat (split_utf8 text MAX_DELTA_FRAGMENT_BYTES) = text /\
  Forall (fun f => utf8_valid f /\ f <> [] /\ (length f <= MAX_DELTA_FRAGMENT_BYTES)%nat) (split_utf8 text MAX_DELTA_FRAGMENT_BYTES).
Proof. intros Hv. apply fragments_spec; [done|unfold MAX_DELTA_FRAGMENT_BYTES; lia|done]. Qed.

(** ** The history sent to the provider *)

(** The closed turns of a conversation, newest first. *)
Fixpoint closed_turns (fuel : nat) (newest_first : list StoredMessage) : list (StoredMessage * StoredMessage) :=
  match fuel with
  | O => []
  | S fuel' =>
      match newest_first with
      | assistant :: ((user :: older) as next) =>
          if negb (is_turn_pair user assistant) then closed_turns fuel' next
          else if is_closed user assistant then (user, assistant) :: closed_turns fuel' older
          else closed_turns fuel' older
      | _ => []
      end
  end.

Definition turn_bytes (pair : StoredMessage * StoredMessage) : Z := len (sm_text pair.1) + len (sm_text pair.2).
Definition total_bytes (pairs : list (StoredMessage * StoredMessage)) : Z := foldr (fun p acc => turn_bytes p + acc) 0 pairs.

(** As many of the newest closed turns as fit. *)
Definition fitting (max_pairs : nat) (max_bytes : Z) (turns : list (StoredMessage * StoredMessage)) (n : nat) : Prop :=
  (n <= length turns)%nat /\ (n <= max_pairs)%nat /\ total_bytes (take n turns) <= max_bytes /\
  (n = length turns \/ n = max_pairs \/ exists next, turns !! n = Some next /\ max_bytes < total_bytes (take n turns) + turn_bytes next).

Lemma fitting_cons max_pairs max_bytes p turns n : turn_bytes p <= max_bytes ->
  fitting max_pairs (max_bytes - turn_bytes p) turns n -> fitting (S max_pairs) max_bytes (p :: turns) (S n).
Proof.
  intros Hp (H1 & H2 & H3 & H4). assert (Ht : total_bytes (take (S n) (p :: turns)) = turn_bytes p + total_bytes (take n turns)) by done.
  unfold fitting. rewrite Ht. split_and!; [cbn; lia|lia|lia|].
  destruct H4 as [->|[->|(next & Hn & Hb)]]; [by left|by right; left|]. right; right. exists next. split; [done|lia].
Qed.

Lemma select_pairs_spec fuel newest max_pairs max_bytes retained acc : 0 <= retained <= max_bytes -> max_bytes <= USIZE_MAX ->
  exists n, select_pairs fuel newest max_pairs max_bytes retained acc = acc ++ take n (closed_turns fuel newest) /\
    fitting (max_pairs - length acc) (max_bytes - retained) (closed_turns fuel newest) n.
Proof.
  intros Hr Hmax. revert newest retained acc Hr. induction fuel as [|fuel IH]; intros newest retained acc Hr; cbn [select_pairs closed_turns].
  { exists 0%nat. rewrite app_nil_r. split; [done|]. unfold fitting. cbn [length firstn total_bytes foldr]. split_and!; [lia..|by left]. }
  assert (Hstop : forall turns, (max_pairs <= length acc)%nat -> fitting (max_pairs - length acc) (max_bytes - retained) turns 0).
  { intros turns Hle. unfold fitting. rewrite take_0. change (total_bytes []) with 0. split_and!; [lia..|]. right; left. lia. }
  destruct (Nat.leb_spec max_pairs (length acc)) as [Hle|Hlt].
  { exists 0%nat. rewrite take_0, app_nil_r. auto. }
  destruct newest as [|assistant [|user older]]; [exists 0%nat; rewrite app_nil_r; split; [done|]; unfold fitting; cbn [length firstn total_bytes foldr]; split_and!; [lia..|by left]..|].
  destruct (is_turn_pair user assistant); cbn [negb]; [|by apply IH].
  destruct (is_closed user assistant); cbn [negb]; [|by apply IH].
  set (p := (user, assistant)). change (len (sm_text user)) with (len (sm_text p.1)). change (len (sm_text assistant)) with (len (sm_text p.2)).
  assert (Hover : max_bytes - retained < turn_bytes p -> exists n, acc = acc ++ take n (p :: closed_turns fuel older) /\
    fitting (max_pairs - length acc) (max_bytes - retained) (p :: closed_turns fuel older) n).
  { intros Hb. exists 0%nat. rewrite app_nil_r. split; [done|]. unfold fitting. cbn [length firstn total_bytes foldr]. split_and!; [lia..|]. right; right. exists p. split; [done|]. unfold turn_bytes in Hb |- *. lia. }
  pose proof (len_nonneg (sm_text p.1)). pose proof (len_nonneg (sm_text p.2)).
  unfold checked_add. destruct (Z.leb_spec (len (sm_text p.1) + len (sm_text p.2)) USIZE_MAX); [|apply Hover; unfold turn_bytes; lia].
  destruct (Z.leb_spec (retained + (len (sm_text p.1) + len (sm_text p.2))) USIZE_MAX); [|apply Hover; unfold turn_bytes; lia].
  rewrite Z.gtb_ltb. destruct (Z.ltb_spec max_bytes (retained + (len (sm_text p.1) + len (sm_text p.2)))) as [Hb|Hb]; [apply Hover; unfold turn_bytes; lia|].
  destruct (IH older (retained + (len (sm_text p.1) + len (sm_text p.2))) (acc ++ [p])) as (n & -> & Hfit); [lia|].
  exists (S n). rewrite <- app_assoc. split; [done|]. rewrite length_app in Hfit. cbn [length] in Hfit.
  replace (max_pairs - length acc)%nat with (S (max_pairs - (length acc + 1)))%nat by lia.
  apply fitting_cons; [unfold turn_bytes; lia|]. unfold turn_bytes.
  by replace (max_bytes - retained - (len (sm_text p.1) + len (sm_text p.2))) with
    (max_bytes - (retained + (len (sm_text p.1) + len (sm_text p.2)))) by lia.
Qed.

(** C21: The history of a request is the newest closed turns of the conversation, whole and in
    order, as many as the limits on messages and bytes allow: the next older one, if any,
    would exceed a limit. *)
Theorem history_is_newest_closed_turns history max_messages max_bytes : 0 <= max_bytes <= USIZE_MAX ->
  let turns := closed_turns (length history) (reverse history) in
  exists n, select_completed_history history max_messages max_bytes = flat_map pair_messages (reverse (take n turns)) /\
    fitting (Nat.div max_messages 2) max_bytes turns n.
Proof.
  intros Hmax. unfold select_completed_history.
  destruct (select_pairs_spec (length history) (reverse history) (Nat.div max_messages 2) max_bytes 0 []) as (n & -> & Hfit); [lia|lia|].
  exists n. split; [done|]. cbn [length] in Hfit. by rewrite Nat.sub_0_r, Z.sub_0_r in Hfit.
Qed.

(** ** The registry *)

Record registry_ok (r : ProviderStreamRegistry) : Prop := {
  rg_bytes : reserved_in_flight_bytes r = PER_STREAM_IN_FLIGHT_RESERVATION_BYTES * Z.of_nat (size (registered r));
  rg_size : Z.of_nat (size (registered r)) <= MAX_ACTIVE_STREAMS;
}.

Lemma insert_new_ok owner draws generation token address r : registry_ok r ->
  registry_ok (insert_new owner draws generation token address r).1 /\
  ((exists id, id ∈ map (app (lit "provider-")) draws /\ registered r !! id = None) ->
   Z.of_nat (size (registered r)) < MAX_ACTIVE_STREAMS ->
   exists id state, (insert_new owner draws generation token address r).2 = Ok (Some (id, state)) /\ registered r !! id = None /\
     registered (insert_new owner draws generation token address r).1 = <[id := state]> (registered r)).
Proof.
  intros [Hb Hs]. unfold insert_new. rewrite Z.geb_leb. destruct (Z.leb_spec MAX_ACTIVE_STREAMS (Z.of_nat (size (registered r)))) as [Hf|Hf].
  { split; [by split|]. intros _ Hlt. lia. }
  unfold checked_add. rewrite Hb. unfold GLOBAL_IN_FLIGHT_RESERVATION_BYTES. set (B := PER_STREAM_IN_FLIGHT_RESERVATION_BYTES) in *.
  assert (HB : 0 < B) by done. assert (Hmax : B * MAX_ACTIVE_STREAMS <= USIZE_MAX) by done.
  assert (Hn : B * Z.of_nat (size (registered r)) + B <= B * MAX_ACTIVE_STREAMS) by nia.
  destruct (Z.leb_spec (B * Z.of_nat (size (registered r)) + B) USIZE_MAX); [|lia]. rewrite Z.gtb_ltb.
  destruct (Z.ltb_spec (B * MAX_ACTIVE_STREAMS) (B * Z.of_nat (size (registered r)) + B)); [lia|].
  destruct (List.find _ _) as [id|] eqn:E.
  - apply find_some in E as [_ E]. destruct (registered r !! id) eqn:Hl; [done|]. cbn [fst snd registered]. split.
    + split; cbn; rewrite map_size_insert_None by done; [lia|lia].
    + intros _ _. eauto.
  - split; [by split|]. intros (id & Hin%list_elem_of_In & Hl) _. pose proof (find_none _ _ E id Hin) as Hx. cbn in Hx. by rewrite Hl in Hx.
Qed.

Lemma remove_if_same_ok id state r : registry_ok r -> exists r', remove_if_same id state r = Some r' /\ registry_ok r'.
Proof.
  intros [Hb Hs]. unfold remove_if_same. destruct (registered r !! id) as [cur|] eqn:Hl; [|by exists r].
  destruct (Nat.eqb _ _); [|by exists r]. assert (Hd : size (delete id (registered r)) = pred (size (registered r))) by by apply map_size_delete_Some.
  assert (Hp : size (registered r) <> 0%nat). { intros E%map_size_empty_iff. by rewrite E, lookup_empty in Hl. }
  assert (HB : 0 < PER_STREAM_IN_FLIGHT_RESERVATION_BYTES) by done. rewrite Hb. destruct (Z.ltb_spec
    (PER_STREAM_IN_FLIGHT_RESERVATION_BYTES * Z.of_nat (size (registered r)) - PER_STREAM_IN_FLIGHT_RESERVATION_BYTES) 0); [nia|].
  eexists. split; [done|]. split; cbn; rewrite Hd; [nia|lia].
Qed.

Inductive RegistryOp : Type :=
  | RegInsert (owner : str) (draws : list str) (generation token : str) (address : nat)
  | RegRemove (id : str) (state : StreamIdentity).

Definition registry_step (op : RegistryOp) (r : ProviderStreamRegistry) : option ProviderStreamRegistry :=
  match op with
  | RegInsert owner draws generation token address => Some (insert_new owner draws generation token address r).1
  | RegRemove id state => remove_if_same id state r
  end.

Fixpoint run_registry (ops : list RegistryOp) (r : ProviderStreamRegistry) : option ProviderStreamRegistry :=
  match ops with [] => Some r | op :: ops => r' ← registry_step op r; run_registry ops r' end.

Lemma registry_step_ok op r : registry_ok r -> exists r', registry_step op r = Some r' /\ registry_ok r'.
Proof.
  intros Hr. destruct op; cbn [registry_step]; [|by apply remove_if_same_ok]. eexists. split; [done|]. by apply insert_new_ok.
Qed.

(** However streams are registered and removed, the release of a reservation never
    panics, the bytes reserved are those of the registered streams and within the global
    budget, and a stream is admitted whenever fewer than [MAX_ACTIVE_STREAMS] are
    registered and some identifier drawn is free. *)
Theorem registry_accounts_for_streams ops : exists r, run_registry ops empty_registry = Some r /\
  reserved_in_flight_bytes r = PER_STREAM_IN_FLIGHT_RESERVATION_BYTES * Z.of_nat (size (registered r)) /\
  reserved_in_flight_bytes r <= GLOBAL_IN_FLIGHT_RESERVATION_BYTES /\
  forall owner draws generation token address, (exists id, id ∈ map (app (lit "provider-")) draws /\ registered r !! id = None) ->
    Z.of_nat (size (registered r)) < MAX_ACTIVE_STREAMS ->
    exists id state, (insert_new owner draws generation token address r).2 = Ok (Some (id, state)) /\ registered r !! id = None.
Proof.
  assert (H : forall ops r, registry_ok r -> exists r', run_registry ops r = Some r' /\ registry_ok r').
  { clear ops. induction ops as [|op ops IH]; intros r Hr; [by exists r|]. cbn [run_registry].
    destruct (registry_step_ok op r Hr) as (r1 & -> & Hr1). by apply IH. }
  destruct (H ops empty_registry) as (r & Hrun & Hr); [by split|]. exists r. pose proof Hr as [Hb Hs]. split_and!; [done|done| |].
  - rewrite Hb. unfold GLOBAL_IN_FLIGHT_RESERVATION_BYTES. assert (0 < PER_STREAM_IN_FLIGHT_RESERVATION_BYTES) by done. nia.
  - intros owner draws generation token address Hfree Hlt.
    destruct (proj2 (insert_new_ok owner draws generation token address r Hr) Hfree Hlt) as (id & state & ? & ? & _). eauto.
Qed.

(** ** A start that is taken back *)

Lemma delivered_state c db db' p : store_ok db -> record_response_delivery c db = (db', Ok p) -> store_ok db'.
Proof. apply (store_ok_call (OpRecordDelivery c)); done. Qed.

Lemma finished_row c outcome db db' p r : store_ok db -> finish_turn c outcome db = (db', Ok p) ->
  requests db' !! rc_request c = Some r -> is_running r = false.
Proof.
  intros [Hok _] Hf%finish_turn_progress Hr.
  apply apply_response_progress_Ok in Hf as (q & m & Hl & _ & _ & _ & _ & _ & _ & _ & _ & _ & (C' & -> & _) & _).
  cbn in Hr. rewrite (request_ok_id _ _ _ Hok Hl), lookup_insert_eq in Hr. injection Hr as <-. destruct (is_running _) eqn:E; [|done].
  by apply with_progress_running in E.
Qed.

(** When a start is taken back the request is not left running. *)
Theorem rejected_start_is_not_running t at_ms db db' u : store_ok db -> persist_rejected_start t at_ms db = (db', Ok u) ->
  store_ok db' /\ forall r, requests db' !! st_request t = Some r -> is_running r = false.
Proof.
  intros Hok H. unfold persist_rejected_start in H. do 2 st_inv1 H.
  apply load_request_state_Ok in Hs as [-> Hl]. destruct (is_running x) eqn:Hrun; cbn [negb] in H.
  2:{ injection H as <- _. split; [done|]. intros r Hr. congruence. }
  apply st_bind_Ok in H as (cur & db1 & Hcur & H).
  assert (Hok1 : store_ok db1 /\ requests db1 !! st_request t = Some cur).
  { destruct (_ =? _).
    - st_inv Hcur. apply load_request_state_Ok in Hcur as [-> ?]. split; [by eapply delivered_state|done].
    - by injection Hcur as <- <-. }
  destruct Hok1 as [Hok1 Hl1]. destruct (is_running cur) eqn:Hrun1; cbn [negb] in H.
  2:{ injection H as <- _. split; [done|]. intros r Hr. congruence. }
  st_inv H. unfold fail_turn in *. split; [by eapply finished_store_ok|]. intros r Hr.
  match goal with Hx : finish_turn ?c _ _ = _ |- _ => by eapply (finished_row c) end.
Qed.

(** ** Starting a stream *)

Definition keeps_store {A} (m : StoreM A) : Prop := forall db db' r, store_ok db -> m db = (db', r) -> store_ok db'.

Lemma keeps_store_call {A} op (m : StoreM A) : exec op = void m -> keeps_store m.
Proof. intros He db db' r Hok Hr. by eapply store_ok_call. Qed.

Lemma keeps_store_bind {A B} (m : StoreM A) (f : A -> StoreM B) : keeps_store m -> (forall a, keeps_store (f a)) -> keeps_store (m ≫= f).
Proof.
  intros Hm Hf db db' r Hok H. unfold mbind, ST_bind in H. destruct (m db) as [db1 [a|e]] eqn:E.
  - eapply Hf; [|exact H]. by eapply Hm.
  - injection H as <- _. by eapply Hm.
Qed.

Lemma keeps_store_lift {A} (r : StorageResult A) : keeps_store (st_lift r).
Proof. intros db db' r' Hok [= <- _]. done. Qed.

Lemma keeps_store_ret {A} (a : A) : keeps_store (mret a).
Proof. intros db db' r' Hok [= <- _]. done. Qed.

Lemma persist_rejected_start_keeps t at_ms : keeps_store (persist_rejected_start t at_ms).
Proof.
  assert (Hget : forall id, keeps_store (get_request_state id)) by (intros id; by apply (keeps_store_call (OpGetRequest id))).
  unfold persist_rejected_start. apply keeps_store_bind; [apply Hget|]. intros current. apply keeps_store_bind; [apply keeps_store_lift|].
  intros _. destruct (is_running current); cbn [negb]; [|apply keeps_store_ret]. apply keeps_store_bind.
  { destruct (_ =? _); [|apply keeps_store_ret]. apply keeps_store_bind; [by eapply (keeps_store_call (OpRecordDelivery _))|intros _; apply Hget]. }
  intros cur. destruct (is_running cur); cbn [negb]; [|apply keeps_store_ret]. apply keeps_store_bind; [apply keeps_store_lift|].
  intros _. apply keeps_store_bind; [by eapply (keeps_store_call (OpFinishTurn _ (OutcomeFailed FailureInternal)))|]. intros _. apply keeps_store_ret.
Qed.

Lemma context_reads chat_id db db' r : load_persisted_chat_context chat_id db = (db', r) -> db' = db.
Proof.
  intros E. unfold load_persisted_chat_context, get_chat, load_recent_messages, resolve_cursor in E. (apply reads_Ok in E; [done|apply _]).
Qed.

Section starting.
Context {Num : Type} `{!ProviderJson Num} {Sys : StartSystem Num}.

Definition not_running (id : str) (db : Db) : Prop := forall r, requests db !! id = Some r -> is_running r = false.

(** Relative to the state before: either the stream is not registered and its request not
    running, or it is registered. *)
Record in_step (d0 : Desk) (row : str) (d : Desk) : Prop := {
  is_registry : registry_ok (desk_registry d);
  is_store : store_ok (desk_db d);
  is_slot : registered (desk_registry d) = registered (desk_registry d0) /\ not_running row (desk_db d) \/
            exists id state, registered (desk_registry d0) !! id = None /\
              registered (desk_registry d) = <[id := state]> (registered (desk_registry d0));
}.

(** The stream is registered. *)
Definition entered (d0 : Desk) (id : str) (state : StreamIdentity) (d : Desk) : Prop :=
  registry_ok (desk_registry d) /\ store_ok (desk_db d) /\ registered (desk_registry d0) !! id = None /\
  registered (desk_registry d) = <[id := state]> (registered (desk_registry d0)).

Lemma entered_in_step d0 row id state d : entered d0 id state d -> in_step d0 row d.
Proof. intros (? & ? & ? & ?). split; eauto. Qed.

Lemma wp_release X I (Q : unit -> Desk -> Prop) d0 row id state d : entered d0 id state d -> not_running row (desk_db d) ->
  (forall d', in_step d0 row d' -> Q tt d') -> wp X I (release id state) Q d.
Proof.
  intros (Hr & Hs & Hfree & Hreg) Hrow HQ t. unfold release. cbn. destruct (remove_if_same_ok id state _ Hr) as (r & E & Hr').
  rewrite E. apply HQ. split; [done|done|]. left. split; [|done]. cbn. unfold remove_if_same in E. rewrite Hreg, lookup_insert_eq in E.
  rewrite Nat.eqb_refl in E. destruct (_ <? _); [done|]. injection E as <-. cbn. by rewrite delete_insert_id.
Qed.

Lemma wp_desk_storage {A} X I (op : StoreM A) (Q : A -> Desk -> Prop) d : I d ->
  (forall db e, op (desk_db d) = (db, Err e) -> I (set_desk_db db d)) ->
  (forall db a, op (desk_db d) = (db, Ok a) -> Q a (set_desk_db db d)) -> wp X I (desk_storage op) Q d.
Proof.
  intros HI He HQ. unfold desk_storage. wp_step. wp_step. match goal with |- context [start_fault ?t] => destruct (start_fault t) end.
  - by wp_step.
  - intros t'. cbn. destruct (op (desk_db d)) as [db [a|e]] eqn:E; cbn; eauto.
Qed.

Lemma wp_fail_started X d0 id state t at_ms n d : entered d0 id state d ->
  wp X (entered d0 id state) (start_retry n (desk_storage (persist_rejected_start t at_ms)))
    (fun _ d' => entered d0 id state d' /\ not_running (st_request t) (desk_db d')) d.
Proof.
  assert (Hone : forall d, entered d0 id state d -> wp X (entered d0 id state) (desk_storage (persist_rejected_start t at_ms))
    (fun _ d' => entered d0 id state d' /\ not_running (st_request t) (desk_db d')) d).
  { clear d. intros d (Hr & Hs & Hf & Hreg). apply wp_desk_storage; [done| |].
    - intros db e E. split_and!; [done|by eapply persist_rejected_start_keeps|done|done].
    - intros db u E. destruct (rejected_start_is_not_running _ _ _ _ _ Hs E) as [Hok Hn]. done. }
  revert d. induction n as [|n IH]; intros d He; cbn [start_retry]; [by apply Hone|]. wp_step.
  eapply wp_mono; [done| | |by apply Hone]; cbn beta; [intros d' He' e; by apply IH|by intros [] d' H; wp_step].
Qed.

Lemma wp_reject {A} X d0 row id state t at_ms e (Q : A -> Desk -> Prop) d : entered d0 id state d -> st_request t = row ->
  wp X (in_step d0 row) (_ ← retire_rejected_start t at_ms id state; fail e) Q d.
Proof.
  intros He <-. wp_step. unfold retire_rejected_start, fail_started_turn. wp_step.
  eapply wp_mono; [done| | |by apply (wp_fail_started X d0 id state)]; cbn beta.
  - intros d' He' e'. wp_step. wp_step. by eapply entered_in_step.
  - intros [] d' [He' Hn]. wp_step. eapply wp_release; [done..|]. intros d2 H2. wp_step. by wp_step.
Qed.

Lemma begin_turn_row rid uid aid input db db' t : begin_turn rid uid aid input db = (db', Ok t) ->
  st_request t = rid /\ exists r, requests db' !! rid = Some r /\ is_running r = true /\ rs_owner r = bt_owner input /\ rs_generation r = bt_generation input.
Proof.
  intros H. unfold begin_turn in H. st_inv H. same_state. split; [done|].
  match type of Hs20 with insert_request ?q _ = _ => set (r := q) in * end.
  apply touch_chat_rest in Hs21 as (_ & Hr & _). apply insert_request_Ok in Hs20 as (-> & _). exists r. rewrite Hr. cbn.
  rewrite lookup_insert_eq. done.
Qed.

Lemma send_started_wp X d (I : Desk -> Prop) (Q : unit -> Desk -> Prop) : I d -> Q tt (set_desk_channel (desk_channel d ++ [EvStarted 0 MAX_IN_FLIGHT]) d) ->
  wp X I send_started Q d.
Proof. intros HI HQ. unfold send_started. wp_step; [|done]. wp_step. wp_step; [|done]. by wp_step. Qed.

Lemma wp_enter (I : Desk -> Prop) (Q : str * StreamIdentity -> Desk -> Prop) owner draws generation token address d0 :
  registry_ok (desk_registry d0) -> store_ok (desk_db d0) -> I d0 ->
  (forall id state d, entered d0 id state d -> desk_db d = desk_db d0 -> desk_channel d = desk_channel d0 -> Q (id, state) d) ->
  wp (fun d => d = d0) I (enter_registry owner draws generation token address) Q d0.
Proof.
  intros Hreg Hst HI HQ t. unfold enter_registry. cbn [tick disk].
  pose proof (proj1 (insert_new_ok owner draws generation token address _ Hreg)) as Hreg'.
  destruct (insert_new _ _ _ _ _ (desk_registry d0)) as [r [[[id state]|]|e]] eqn:E; [|done|done]. apply HQ; [|done|done].
  unfold insert_new in E. destruct (_ >=? _); [done|]. destruct (checked_add _ _ _); [|done]. destruct (_ >? _); [done|].
  destruct (List.find _ _) as [id'|] eqn:Hf; [|done]. injection E as <- <- <-. apply find_some in Hf as [_ Hf].
  destruct (registered (desk_registry d0) !! id') eqn:Hl; [done|]. done.
Qed.

Lemma start_wp label chat_id profile user_message draws generation token address row urow arow d0 :
  registry_ok (desk_registry d0) -> store_ok (desk_db d0) -> not_running row (desk_db d0) ->
  wp (fun d => d = d0) (in_step d0 row)
    (start_provider_stream label chat_id profile user_message draws generation token address row urow arow)
    (fun out d => exists state r, out = (out.1, ri_token state) /\ entered d0 out.1 state d /\
       requests (desk_db d) !! row = Some r /\ is_running r = true /\ rs_owner r = ri_owner state /\ rs_generation r = ri_generation state /\
       desk_channel d = desk_channel d0 ++ [EvStarted 0 MAX_IN_FLIGHT]) d0.
Proof.
  intros Hreg Hst Hrow. assert (H0 : in_step d0 row d0) by (split; auto). unfold start_provider_stream.
  wp_step; [|done]. wp_step.
  assert (Hsame : forall db r, load_persisted_chat_context a (desk_db d0) = (db, r) -> set_desk_db db d0 = d0).
  { intros db r E. apply context_reads in E as ->. by destruct d0. }
  apply wp_desk_storage; [done|by intros db e E; rewrite (Hsame _ _ E)|]. intros db context E. rewrite (Hsame _ _ E). clear E Hsame db.
  wp_step; [|done]. wp_step; [|done]. wp_step; [|done]. wp_step; [|done]. wp_step.
  apply wp_enter; [done..|]. intros id state d He Hdb Hch. wp_step. wp_step; [|by eapply entered_in_step].
  wp_step. wp_step. apply wp_desk_storage.
  - intros e. wp_step. eapply wp_release; [done|by rewrite Hdb|]. intros d' H'. by wp_step.
  - intros db e E e'. apply (atomic (m := begin_turn _ _ _ _)) in E as ->. replace (set_desk_db (desk_db d) d) with d by by destruct d.
    wp_step. eapply wp_release; [done|by rewrite Hdb|]. intros d' H'. by wp_step.
  - intros db started E. destruct (begin_turn_row _ _ _ _ _ _ _ E) as (Hid & r & Hr & Hrun & Hown & Hgen).
    assert (He' : entered d0 id state (set_desk_db db d)).
    { destruct He as (Hx1 & Hx2 & Hx3 & Hx4). split_and!; try done. by eapply (store_ok_call (OpBeginTurn _ _ _ _)). }
    destruct (bind_started_turn state None started) as [b|e]; [|by eapply wp_reject].
    destruct (load_provider_credential _) as [e|]; [by eapply wp_reject|]. wp_step. apply send_started_wp.
    + intros e. by eapply wp_reject.
    + wp_step. exists state, r. cbn in *. rewrite Hch. split_and!; done.
Qed.

(** C20: Starting a stream keeps the rows and the registry in step: with the identifier and token
    that it returns the stream is registered, its request is running and the first event
    was sent; when it fails, the slot is given back only once the request is not running;
    and the release of the slot never panics. *)
Theorem start_keeps_rows_and_slots_in_step label chat_id profile user_message draws generation token address row urow arow d0 start :
  registry_ok (desk_registry d0) -> store_ok (desk_db d0) -> requests (desk_db d0) !! row = None ->
  match start_provider_stream label chat_id profile user_message draws generation token address row urow arow (mkWorld start d0) with
  | (w, Ok (id, tok)) =>
      is_ok (authenticated id tok (desk_registry (disk w))) = true /\
      registered (desk_registry d0) !! id = None /\ registry_ok (desk_registry (disk w)) /\ store_ok (desk_db (disk w)) /\
      (exists r, requests (desk_db (disk w)) !! row = Some r /\ is_running r = true) /\
      desk_channel (disk w) = desk_channel d0 ++ [EvStarted 0 MAX_IN_FLIGHT]
  | (w, Err (Some _)) =>
      registry_ok (desk_registry (disk w)) /\ store_ok (desk_db (disk w)) /\
      (registered (desk_registry (disk w)) = registered (desk_registry d0) -> not_running row (desk_db (disk w)))
  | (w, Err None) => disk w = d0
  end.
Proof.
  intros Hreg Hst Hrow. assert (Hn : not_running row (desk_db d0)) by (intros r; by rewrite Hrow).
  pose proof (start_wp label chat_id profile user_message draws generation token address row urow arow d0 Hreg Hst Hn start) as H.
  destruct (start_provider_stream _ _ _ _ _ _ _ _ _ _ _ _) as [w [[id tok]|[e|]]]; [| |done].
  - destruct H as (state & r & Heq & (H1 & H2 & H3 & H4) & Hr & Hrun & _ & _ & Hch). cbn in Heq, H3, H4. injection Heq as ->.
    split_and!; try done; [|by exists r]. unfold authenticated. rewrite H4, lookup_insert_eq. cbn.
    unfold authenticates. by rewrite Z.eqb_refl, bool_decide_true.
  - destruct H as [H1 H2 H3]. split_and!; try done. intros Heq. destruct H3 as [[_ ?]|(id & state & Hf & Hi)]; [done|].
    exfalso. rewrite Heq in Hi. rewrite Hi, lookup_insert_eq in Hf. done.
Qed.
End starting.

(** ** The phases of a stream *)

(** Everything sent is recorded as delivered and as to be stored. *)
Definition level (o : Owned) (s : Stored) (k : Z) : Prop :=
  opened [] o s k /\ o_delivered o = o_sent o /\ o_through o = o_sent o.

(** The last event was sent, but could not be recorded as delivered. *)
Definition behind (o : Owned) (s : Stored) (k : Z) : Prop :=
  exists rest, opened rest o s k /\ o_delivered o = o_sent o - 1 /\ o_through o = o_sent o - 1.

Definition owned_view (o : Owned) :=
  (o_sent o, o_published o, o_channel o, o_terminal o, o_delivered o, o_durable o, o_through o, o_text o).

Lemma opened_view rest o o' s k : owned_view o' = owned_view o -> opened rest o s k -> opened rest o' s k.
Proof.
  intros [= E1 E2 E3 E4 E5 E6 E7 E8] [? ? ? ? ? ? ? ?]. split; rewrite ?E1, ?E2, ?E3, ?E4, ?E5, ?E6, ?E7, ?E8; done.
Qed.

Lemma level_view o o' s k : owned_view o' = owned_view o -> level o s k -> level o' s k.
Proof. intros E (? & ? & ?). split; [by eapply opened_view|]. injection E as E1 _ _ _ E5 _ E7 _. by rewrite E1, E5, E7. Qed.

Lemma behind_view o o' s k : owned_view o' = owned_view o -> behind o s k -> behind o' s k.
Proof. intros E (rest & ? & ? & ?). exists rest. split; [by eapply opened_view|]. injection E as E1 _ _ _ E5 _ E7 _. by rewrite E1, E5, E7. Qed.

Lemma armed_view o o' s k : owned_view o' = owned_view o -> armed o s k -> armed o' s k.
Proof.
  intros E [? ? ? ? ?]. assert (opened [] o' s k) by by eapply opened_view. injection E as E1 _ _ _ E5 E6 E7 _.
  split; rewrite ?E1, ?E5, ?E6, ?E7; done.
Qed.

(** No task of the stream is in the middle of something. *)
Definition idle (o : Owned) : Prop := o_pending o = None /\ o_committing o = false /\ o_gate o = false.

Definition In (phase : Owned -> Stored -> Z -> Prop) (l : Live) : Prop := exists o s k, At o s k l /\ phase o s k /\ idle o.

Definition ready (o : Owned) (s : Stored) (k : Z) : Prop := level o s k \/ armed o s k.
Definition going (o : Owned) (s : Stored) (k : Z) : Prop := level o s k \/ behind o s k.
Definition unfinished (o : Owned) (s : Stored) (k : Z) : Prop := ready o s k \/ behind o s k.

(** The stream has ended. *)
Definition Finished (l : Live) : Prop :=
  exists o s k, At o s k l /\ sound (o_channel o) (o_published o) (o_terminal o) s k /\ is_Some (o_terminal o).

Lemma ready_view o o' s k : owned_view o' = owned_view o -> ready o s k -> ready o' s k.
Proof. intros E [?|?]; [left; by eapply level_view|right; by eapply armed_view]. Qed.

Lemma ready_opened o s k : ready o s k -> opened [] o s k.
Proof. intros [[? _]|[? _ _ _ _]]; done. Qed.

Lemma ready_sound o s k : ready o s k -> sound (o_channel o) (o_published o) (o_terminal o) s k.
Proof. intros H%ready_opened. by eapply opened_sound. Qed.

Lemma behind_sound o s k : behind o s k -> sound (o_channel o) (o_published o) (o_terminal o) s k.
Proof. intros (rest & H & _). by eapply opened_sound. Qed.

Section terminal.
Context {Sys : StreamSystem}.

Definition kind_status (kind : TerminalKind) : StorageRequestStatus :=
  match kind with KindCompleted _ _ => RequestCompleted | KindCancelled => RequestCancelled | KindFailed _ => RequestFailed end.

Lemma outcome_status kind : status_of (Some (outcome_of kind)) = kind_status kind.
Proof. by destruct kind. Qed.

Lemma committing_at o s k b l : At o s k l -> At (own_committing b o) s k (on_machine (set_committing b) l).
Proof.
  intros Ha. pose proof (at_owned _ _ _ _ Ha) as Ho. pose proof (at_machine _ _ _ _ Ha) as Hm. subst o.
  eapply at_machine_step; [exact Ha|done|done|cbn; pose proof (mk_sent _ Hm); lia|done|apply (mk_terminal _ Hm)].
Qed.

Lemma wp_stop_committing {A} (I : Live -> Prop) (Q : A -> Live -> Prop) e o s k l : At o s k l ->
  sound (o_channel o) (o_published o) (o_terminal o) s k -> (forall l', At (own_committing false o) s k l' -> I l') ->
  wp Sound I (stop_committing e) Q l.
Proof.
  intros Ha Hs HI. unfold stop_committing. wp_step. eapply wp_update; [exact Ha|exact Hs|]. intros l' Ha'. wp_step.
  by apply HI, committing_at.
Qed.

(** The end is stored, as asked or as a failure; or it is not, and nothing changes. *)
Lemma wp_commit_terminal (I : Live -> Prop) (Q : TerminalKind -> Live -> Prop) kind o s k l : At o s k l -> armed o s k ->
  (forall o' l', At (own_committing false o') s k l' -> armed o' s k -> o' = own_through (o_sent o + 1) o -> I l') ->
  (forall kind' l', has_nul (o_text o) = false ->
     At (ended o) (Ended (kind_status kind') (o_sent o + 1) (shown (o_channel o))) k l' -> Q kind' l') ->
  wp Sound I (commit_terminal kind (o_sent o + 1)) Q l.
Proof.
  intros Ha Har HI HQ. unfold commit_terminal. set (o1 := own_through (o_sent o + 1) o).
  pose proof (armed_through _ _ _ Har) as Har1. fold o1 in Har1.
  pose proof (opened_sound _ _ _ _ (ar_opened _ _ _ Har1)) as Hs1.
  assert (Hback : forall l', At o1 s k l' -> exists o2 s2 k2, At o2 s2 k2 l' /\
    sound (o_channel o2) (o_published o2) (o_terminal o2) s2 k2 /\ forall l'', At o2 s2 k2 l'' -> At o1 s k l'').
  { intros l' Ha'. exists o1, s, k. done. }
  wp_step. eapply (wp_with_retry (At o1 s k)); [|exact Hback| |].
  - intros l1 Ha1. eapply (wp_finish _ _ _ o1); [exact Ha1|done|done|]. intros l2 Hn Ha2. wp_step. apply HQ; [exact Hn|].
    rewrite <- outcome_status. exact Ha2.
  - intros l1 Ha1 e1. wp_step. eapply (wp_with_retry (At o1 s k)); [|exact Hback| |].
    + intros l2 Ha2. eapply (wp_fail_after _ _ o1); [exact Ha2|done|done|done|]. intros l3 Hn Ha3. wp_step. by apply (HQ (KindFailed e1)).
    + intros l2 Ha2 e2. eapply wp_stop_committing; [exact Ha2|exact Hs1|]. intros l3 Ha3. by eapply HI.
    + eapply (wp_fail_after _ _ o1); [exact Ha1|done|done|done|]. intros l3 Hn Ha3. wp_step. by apply (HQ (KindFailed e1)).
  - eapply (wp_finish _ _ _ o); [exact Ha|done|done|]. intros l2 Hn Ha2. wp_step. apply HQ; [exact Hn|].
    rewrite <- outcome_status. exact Ha2.
Qed.

(** The first section of [send_terminal], when the stream has not ended. *)
Lemma begin_terminal_at kind o s k l l' r : At o s k l -> opened [] o s k \/ behind o s k -> o_pending o = None -> o_committing o = false ->
  begin_terminal kind l = (l', r) ->
  match r with
  | Ok (Some (_, seq)) => seq = o_sent o + 1 /\ seq <= MAX_WIRE_SEQUENCE /\ At (own_committing true o) s k l'
  | Ok None => False
  | Err _ => At o s k l'
  end.
Proof.
  intros Ha Hop Hpend Hcom Hr. assert (Hterm : o_terminal o = None) by (destruct Hop as [[]|(? & [] & _)]; done).
  pose proof (at_owned _ _ _ _ Ha) as Ho. subst o. cbn in Hpend, Hcom, Hterm. unfold begin_terminal in Hr.
  rewrite Hpend, Hcom, Hterm in Hr. cbn in Hr. unfold next_wire_sequence, checked_add in Hr.
  destruct (_ <=? U64_MAX); [|by injection Hr as <- <-]. destruct (_ <=? MAX_WIRE_SEQUENCE) eqn:Hmax; [|by injection Hr as <- <-].
  cbn in Hr. injection Hr as <- <-. apply Z.leb_le in Hmax. split_and!; [done|done|]. by apply (committing_at (owned l)).
Qed.

(** The terminal event is recorded as delivered. *)
Lemma wp_deliver_terminal (I : Live -> Prop) (Q : unit -> Live -> Prop) o s k l : At o s k l -> ready o s k ->
  o_sent o + 1 <= MAX_WIRE_SEQUENCE ->
  (forall l', At (own_committing false o) s k l' -> I l') ->
  (forall o' s' l', At o' s' k l' -> armed o' s' k -> o' = own_delivered (o_sent o + 1) o -> Q tt l') ->
  wp Sound I (deliver_terminal (o_sent o + 1)) Q l.
Proof.
  intros Ha Hre Hmax HI HQ. unfold deliver_terminal. wp_step. pose proof (at_owned _ _ _ _ Ha) as Ho.
  pose proof (ready_sound _ _ _ Hre) as Hs.
  assert (Hdel : per_delivered (persistence l) = o_delivered o) by by subst o. rewrite Hdel. destruct Hre as [(Hop & Hd & Ht)|Har].
  - rewrite Hd. replace (o_sent o <? o_sent o + 1) with true by (symmetry; apply Z.ltb_lt; lia).
    destruct Hop as [(txt & -> & Htxt) Hdur Hthr Hp Hc Hk Hsent Hn] eqn:E. clear E. wp_step.
    eapply wp_record_delivery; [exact Ha|exact Hs|reflexivity| |].
    + intros l1 Ha1 e. by eapply wp_stop_committing.
    + intros l1 Hseq Ha1. wp_step. eapply HQ; [exact Ha1| |done]. split; cbn; [|done|by left|lia|done].
      split; cbn; try done; [by exists txt|lia].
  - rewrite (ar_delivered _ _ _ Har), Z.ltb_irrefl, Z.eqb_refl. cbn. wp_step.
    eapply HQ; [exact Ha|done|]. rewrite <- (ar_delivered _ _ _ Har). by destruct o.
Qed.

(** [send_terminal] from a stream whose events are all recorded: the end is stored before
    it is published, or the stream can be ended by another try. *)
Lemma wp_settle_terminal (I : Live -> Prop) (Q : option (TerminalKind * Z) -> Live -> Prop) kind o s k l : At o s k l -> ready o s k ->
  o_pending o = None -> o_committing o = false ->
  (forall o' s' l', At o' s' k l' -> ready o' s' k -> o_pending o' = None -> o_committing o' = false -> o_text o' = o_text o -> I l') ->
  (forall kind' o' s' l', At (own_pending (Some (o_sent o' + 1)) (ended o')) (Ended (kind_status kind') (o_sent o' + 1) (shown (o_channel o'))) k l' ->
     armed o' s' k -> has_nul (o_text o) = false -> Q (Some (kind', o_sent o' + 1)) l') ->
  wp Sound I (settle_terminal kind) Q l.
Proof.
  intros Ha Hre Hpend Hcom HI HQ. unfold settle_terminal. wp_step. eapply wp_locked; [exact Ha|by apply ready_sound|]. intros l1 Ha1.
  destruct (begin_terminal kind l1) as [l2 r] eqn:E.
  pose proof (begin_terminal_at _ _ _ _ _ _ _ Ha1 (or_introl (ready_opened _ _ _ Hre)) Hpend Hcom E) as Hr.
  destruct r as [[[kind1 seq]|]|e]; [|done|by eapply HI]. destruct Hr as (-> & Hmax & Ha2). apply wp_bind.
  assert (Hre2 : ready (own_committing true o) s k) by by apply (ready_view o).
  eapply (wp_deliver_terminal _ _ (own_committing true o)); [exact Ha2|exact Hre2|done| |].
  { intros l3 Ha3. eapply HI; [exact Ha3|by apply (ready_view o)|done..]. }
  intros o3 s3 l3 Ha3 Har3 Ho3. apply wp_bind. eapply (wp_post _ _ _ (fun _ => At o3 s3 k)).
  { assert (Hm : forall u, At o3 s3 k (set_persistence (merge_usage u (persistence l3)) l3)) by (intros u; by eapply at_same_view).
    destruct kind1 as [? [u|]| |]; by (apply wp_ret || apply wp_modify). }
  intros [] l4 Ha4. change (o_sent o + 1) with (o_sent (own_committing true o) + 1).
  replace (o_sent (own_committing true o)) with (o_sent o3) by by rewrite Ho3. apply wp_bind.
  eapply wp_commit_terminal; [exact Ha4|done| |].
  - intros o5 l5 Ha5 Har5 Ho5. eapply HI; [exact Ha5| | |done|].
    + right. by apply (armed_view o5).
    + by rewrite Ho5, Ho3.
    + by rewrite Ho5, Ho3.
  - intros kind5 l5 Hnul Ha5. rewrite Ho3 in Hnul. apply wp_bind.
    destruct Har3 as [[Hrow Hd Ht Hp Hc Hk Hsent Hn] Hdel Hthr Hdur Hm3] eqn:E3. clear E3.
    eapply wp_locked; [exact Ha5| |].
    { cbn. rewrite Hn. eapply sound_ended; [done|done|lia]. }
    intros l6 Ha6. unfold reserve_terminal. pose proof (at_owned _ _ _ _ Ha6) as Ho6.
    assert (Hp6 : pending_send_seq (machine l6) = None).
    { change (o_pending (owned l6) = None). rewrite Ho6. cbn. by rewrite Ho3. }
    rewrite Hp6. cbn [is_some]. wp_step. eapply HQ; [|by split|exact Hnul].
    eapply at_machine_step; [exact Ha6| |done|cbn; pose proof (mk_sent _ (at_machine _ _ _ _ Ha6)); lia|done|].
    + exact (f_equal (own_pending (Some (o_sent o3 + 1))) Ho6).
    + apply (mk_terminal _ (at_machine _ _ _ _ Ha6)).
Qed.

Lemma wp_acquire_gate (I : Live -> Prop) (Q : unit -> Live -> Prop) n o s k l : At o s k l ->
  sound (o_channel o) (o_published o) (o_terminal o) s k -> (forall l', At (own_gate true o) s k l' -> Q tt l') ->
  wp Sound I (acquire_gate n) Q l.
Proof.
  intros Ha Hs HQ. revert l Ha. induction n as [|n IH]; intros l Ha; cbn [acquire_gate]; wp_step;
    (eapply wp_interfere; [exact Ha|exact Hs|]; intros l1 Ha1; wp_step; destruct (gate_free l1); [wp_step; by apply HQ, at_take_gate|]).
  - wp_step. by exists o, s, k.
  - by apply IH.
Qed.

Lemma terminal_event_status kind seq : final_status (terminal_event kind seq) = Some (kind_status kind) /\ event_seq (terminal_event kind seq) = seq.
Proof. by destruct kind. Qed.

Lemma receipt_of_status kind seq : receipt_status (receipt_of kind seq) = kind_status kind /\ receipt_seq (receipt_of kind seq) = seq.
Proof. by destruct kind. Qed.

(** The receipt is published, whether the event was sent or not. *)
Lemma wp_publish_terminal (I : Live -> Prop) (Q : unit -> Live -> Prop) kind o s k l : At o s k l ->
  sound (o_channel o) (o_published o) (o_terminal o) s k -> o_pending o = Some (o_sent o + 1) -> o_published o = o_sent o + 1 ->
  o_sent o + 1 <= MAX_WIRE_SEQUENCE ->
  (forall l', At (own_committing false (own_terminal (receipt_of kind (o_sent o + 1)) (own_sent (o_sent o + 1) (own_pending None o)))) s k l' -> Q tt l') ->
  wp Sound I (locked (publish_terminal kind (o_sent o + 1))) Q l.
Proof.
  intros Ha Hs Hpend Hpub Hmax HQ. eapply wp_locked; [exact Ha|exact Hs|]. intros l1 Ha1. unfold publish_terminal.
  pose proof (at_owned _ _ _ _ Ha1) as Ho. destruct (receipt_of_status kind (o_sent o + 1)) as [_ Hr].
  replace (pending_send_seq (machine l1)) with (Some (o_sent o + 1)) by (by rewrite <- Hpend, <- Ho). rewrite bool_decide_true by done. cbn [negb].
  apply HQ. match goal with |- At _ _ _ (set_machine ?m l1) => change (set_machine m l1) with (on_machine (fun _ => m) l1) end.
  assert (Hsent : last_sent_seq (machine l1) = o_sent o) by by rewrite <- Ho.
  assert (Hdur : last_durable_seq (machine l1) = o_sent o + 1) by (rewrite <- Hpub; by rewrite <- Ho).
  eapply at_machine_step; [exact Ha1| |done|cbn; lia|done|].
  - exact (f_equal (fun x => own_committing false (own_terminal (receipt_of kind (o_sent o + 1)) (own_sent (o_sent o + 1) (own_pending None x)))) Ho).
  - cbn. intros r [= <-]. by rewrite Hr, Hdur.
Qed.

(** [P] is what is known of the text that is not stored yet. *)
Definition ready_with (P : str -> Prop) (o : Owned) (s : Stored) (k : Z) : Prop := ready o s k /\ P (o_text o).

Lemma wp_send_terminal (P : str -> Prop) kind l : In (ready_with P) l ->
  wp Sound (In (ready_with P)) (send_terminal kind) (fun _ l' => Finished l' /\ exists x, P x /\ has_nul x = false) l.
Proof.
  intros (o & s & k & Ha & [Hre HP] & Hpend & Hcom & Hgate). unfold send_terminal. wp_step.
  eapply wp_acquire_gate; [exact Ha|by apply ready_sound|]. clear l Ha. intros l Ha. wp_step.
  eapply (wp_settle_terminal _ _ _ (own_gate true o) s k); [exact Ha|by apply (ready_view o)|done|done| |].
  - intros o1 s1 l1 Ha1 Hre1 Hp1 Hc1 Ht1 e. unfold release_gate. wp_step. wp_step. wp_step.
    exists (own_gate false o1), s1, k. split_and!; [by apply at_free_gate| |done].
    split; [by apply (ready_view o1)|cbn; by rewrite Ht1].
  - intros kind1 o1 s1 l1 Ha1 Har Hnul. assert (Hx : exists x, P x /\ has_nul x = false) by by exists (o_text o). unfold release_gate. wp_step. wp_step. set (seq := o_sent o1 + 1) in *.
    destruct Har as [[_ Hd Ht Hp Hc Hk Hsent Hn] _ _ Hdur Hmax]. destruct (terminal_event_status kind1 seq) as [He1 He2].
    destruct (receipt_of_status kind1 seq) as [Hr1 Hr2].
    apply at_free_gate in Ha1. set (o2 := own_gate false (own_pending (Some seq) (ended o1))) in *.
    assert (Hsilent : forall r, (forall r', r = Some r' -> receipt_status r' = kind_status kind1 /\ receipt_seq r' = seq) ->
      sound (o_channel o1) seq r (Ended (kind_status kind1) seq (shown (o_channel o1))) k).
    { intros r Hr. eapply sound_silent; [done|done|lia|done]. }
    wp_step. eapply (wp_send_direct _ _ _ _ o2); [exact Ha1| |].
    + intros e. eapply (wp_publish_terminal _ _ _ o2); [exact Ha1| |done|done|done|].
      * cbn. rewrite Hn. by apply Hsilent.
      * intros l2 Ha2. split; [|done]. eexists _, _, _. split_and!; [exact Ha2| |by eexists]. cbn. apply Hsilent. by intros r' [= <-].
    + intros l2 Ha2. assert (Hev : shown (o_channel o1 ++ [terminal_event kind1 seq]) = shown (o_channel o1)).
      { rewrite shown_app. destruct kind1; apply app_nil_r. }
      assert (Hfinal : forall r, (forall r', r = Some r' -> receipt_status r' = kind_status kind1 /\ receipt_seq r' = seq) ->
        sound (o_channel o1 ++ [terminal_event kind1 seq]) seq r (Ended (kind_status kind1) seq (shown (o_channel o1))) k).
      { intros r Hr. rewrite <- Hev. eapply sound_final; [done|done|lia|done|done|done|done]. }
      eapply (wp_publish_terminal _ _ _ (own_event (terminal_event kind1 seq) o2)); [exact Ha2| |done|done|done|].
      * cbn. rewrite Hn. by apply Hfinal.
      * intros l3 Ha3. split; [|done]. eexists _, _, _. split_and!; [exact Ha3| |by eexists]. cbn. apply Hfinal. by intros r' [= <-].
Qed.

(** When the last event could not be recorded, no try ends the stream. *)
Lemma wp_send_terminal_behind kind l : In behind l -> wp Sound (In behind) (send_terminal kind) (fun _ _ => False) l.
Proof.
  intros (o & s & k & Ha & Hbe & Hpend & Hcom & Hgate). pose proof (behind_sound _ _ _ Hbe) as Hs. unfold send_terminal. wp_step.
  eapply wp_acquire_gate; [exact Ha|done|]. clear l Ha. intros l Ha.
  assert (Hend : forall e l', At (own_committing false (own_gate true o)) s k l' ->
    wp Sound (In behind) (_ ← release_gate; fail (A := unit) e) (fun _ _ => False) l').
  { intros e l' Ha'. unfold release_gate. wp_step. wp_step.
    exists (own_gate false (own_committing false (own_gate true o))), s, k. split_and!; [by apply at_free_gate|by apply (behind_view o)|done]. }
  wp_step. unfold settle_terminal. wp_step. eapply wp_locked; [exact Ha|exact Hs|]. intros l1 Ha1.
  destruct (begin_terminal kind l1) as [l2 r] eqn:E.
  pose proof (begin_terminal_at _ _ _ _ _ _ _ Ha1 (or_intror (behind_view o (own_gate true o) _ _ eq_refl Hbe)) Hpend Hcom E) as Hr.
  destruct r as [[[kind1 seq]|]|e]; [|done|].
  - destruct Hr as (-> & Hmax & Ha2). wp_step. unfold deliver_terminal. wp_step. destruct Hbe as (rest & Hop & Hdel & Hthr) eqn:Eb. clear Eb.
    assert (Hd : per_delivered (persistence l2) = o_sent o - 1).
    { rewrite <- Hdel. exact (f_equal o_delivered (at_owned _ _ _ _ Ha2)). }
    cbn [o_sent own_gate]. rewrite Hd. replace (o_sent o - 1 <? o_sent o + 1) with true by (symmetry; apply Z.ltb_lt; lia). wp_step.
    destruct (op_row _ _ _ _ Hop) as (txt & Hrow & _).
    eapply wp_record_delivery; [exact Ha2|exact Hs|exact Hrow| |].
    + intros l3 Ha3 e. eapply wp_stop_committing; [exact Ha3|exact Hs|]. intros l4 Ha4 e'. by apply Hend.
    + intros l3 Hseq _. exfalso. cbn in Hseq. rewrite Hdel in Hseq. unfold saturating_add in Hseq. lia.
  - intros e'. apply Hend.
    replace (own_committing false (own_gate true o)) with (own_gate true o); [done|]. destruct o. cbn in *. by subst.
Qed.
End terminal.

(** ** Forwarding events *)

Section forwarding.
Context {Sys : StreamSystem}.

Lemma level_behind o s k e : level o s k -> event_seq e = o_sent o + 1 -> is_final e = false -> o_sent o + 1 <= MAX_WIRE_SEQUENCE ->
  behind (own_event e (own_sent (o_sent o + 1) o)) s (Z.max k (o_sent o + 2)).
Proof.
  intros ([(txt & -> & Htxt) Hd Ht Hp Hc Hk Hs Hn] & Hdel & Hthr) He Hf Hmax. exists (event_text e). split_and!; cbn; [|lia|lia].
  split; cbn; try done; try lia; [|by apply clean_snoc].
  exists txt. split; [done|]. rewrite shown_app, <- Htxt. cbn. by rewrite !app_nil_r, app_assoc.
Qed.

(** One event: sent, recorded as delivered, recorded as to be stored. *)
Lemma wp_forward (text : option str) id usage make l : In level l ->
  (forall seq, event_seq (make seq) = seq /\ is_final (make seq) = false /\ event_text (make seq) = default [] text) ->
  (forall o s k t, At o s k l -> text = Some t -> fits t (o_visible o) = true) ->
  wp Sound (In going) (send_non_terminal make) (fun seq => wp Sound (In going) (record_delivery seq) (fun _ l2 =>
    forall Q, (forall l3, In level l3 -> Q tt l3) -> wp Sound (In going) (record seq text id usage) Q l2)) l.
Proof.
  intros (o & s & k & Ha & Hle & Hpend & Hcom & Hgate) Hmake Hfit. specialize (Hfit o s k). pose proof Hle as (Hop & Hdel & Hthr).
  eapply wp_send_loop; [exact Hop|done|intros seq; by destruct (Hmake seq) as (? & ? & _)|exact Ha| |].
  { intros l1 Ha1. exists o, s, k. split_and!; [done|by left|done]. }
  intros seq l1 -> Hmax Ha1. set (seq := o_sent o + 1) in *. destruct (Hmake seq) as (He & Hf & Ht). set (e := make seq) in *.
  assert (Hmax' : seq <= MAX_WIRE_SEQUENCE) by (unfold MAX_NON_TERMINAL_SEQUENCE in Hmax; lia).
  assert (Hbe : behind (own_event e (own_sent seq o)) s (Z.max k (seq + 1))).
  { replace (seq + 1) with (o_sent o + 2) by (subst seq; lia). by apply level_behind. }
  destruct (op_row _ _ _ _ Hop) as (txt & Hrow & Htxt).
  eapply (wp_record_delivery _ _ _ (own_event e (own_sent seq o))); [exact Ha1|by apply behind_sound|exact Hrow| |].
  { intros l2 Ha2. eexists _, _, _. split_and!; [exact Ha2|by right|done]. }
  intros l2 Hseq Ha2 Q HQ. cbn in Hseq, Ha2. eapply wp_record; [exact Ha2| | |].
  - cbn. rewrite Hthr, <- Hdel. exact Hseq.
  - intros t Et. by apply Hfit.
  - intros l3 Ha3. apply HQ. eexists _, _, _. split_and!; [exact Ha3| |done]. split_and!; cbn; try done.
    destruct Hop as [_ Hd Ht' Hp Hc Hk Hs Hn]. split; cbn; try done; try lia.
    + exists txt. split; [done|]. rewrite shown_app, <- Htxt. cbn. rewrite Ht, !app_nil_r. by rewrite app_assoc.
    + apply clean_snoc; [done|by rewrite He|done].
Qed.

Lemma flushed_phase o o' s s' k rest : opened rest o' s' k -> o' = o \/ o' = flushed o ->
  (rest = [] -> level o s k -> level o' s' k) /\
  (o_delivered o = o_sent o - 1 -> o_through o = o_sent o - 1 -> behind o' s' k) /\ (idle o -> idle o').
Proof. intros Hop [-> | ->]; (split_and!; [intros -> (_ & ? & ?); by split_and!|intros; by exists rest|done]). Qed.

Lemma wp_flush_level l : In level l -> wp Sound (In level) flush (fun _ => In level) l.
Proof.
  intros (o & s & k & Ha & Hle & Hi). eapply (wp_flush _ _ []); [exact Ha|apply Hle|by intros; exists o, s, k|].
  intros o' s' l' Ha' Hop' Hc. destruct (flushed_phase o o' s s' k [] Hop' Hc) as (? & _ & ?). exists o', s', k. auto.
Qed.

Lemma wp_flush_behind l : In behind l -> wp Sound (In behind) flush (fun _ => In behind) l.
Proof.
  intros (o & s & k & Ha & Hbe & Hi). pose proof Hbe as (rest & Hop & Hd & Ht).
  eapply (wp_flush _ _ rest); [exact Ha|done|by intros; exists o, s, k|].
  intros o' s' l' Ha' Hop' Hc. destruct (flushed_phase o o' s s' k rest Hop' Hc) as (_ & ? & ?). exists o', s', k. auto.
Qed.

Lemma in_going l : In level l \/ In behind l <-> In going l.
Proof.
  split.
  - intros [(o & s & k & ? & ? & ?)|(o & s & k & ? & ? & ?)]; exists o, s, k; split_and!; try done; [by left|by right].
  - intros (o & s & k & ? & [?|?] & ?); [left|right]; by exists o, s, k.
Qed.

Lemma wp_flush_going l : In going l -> wp Sound (In going) flush (fun _ => In going) l.
Proof.
  intros [H|H]%in_going; (eapply wp_mono; [done| | |(by apply wp_flush_level) || (by apply wp_flush_behind)]); intros; apply in_going; auto.
Qed.

Lemma wp_flush_if l : In level l -> wp Sound (In going) flush_if_requested_or_pressured (fun _ => In level) l.
Proof.
  intros (o & s & k & Ha & Hle & Hi). unfold flush_if_requested_or_pressured. wp_step. wp_step.
  eapply wp_locked; [exact Ha|by eapply opened_sound, Hle|]. intros l1 Ha1. assert (Hl1 : In level l1) by by exists o, s, k.
  destruct (_ || _); [|by wp_step]. eapply wp_mono; [done| | |by apply wp_flush_level]; [|done]. intros; apply in_going; auto.
Qed.

(** The events of the provider. *)

Lemma delta_event_facts kind text seq : event_seq (delta_event kind text seq) = seq /\ is_final (delta_event kind text seq) = false /\
  event_text (delta_event kind text seq) = default [] (if is_visible kind then Some text else None).
Proof. by destruct kind. Qed.

Lemma wp_forward_fragment kind fragment l : In level l -> wp Sound (In going) (forward_fragment kind fragment) (fun _ => In level) l.
Proof.
  intros Hl. unfold forward_fragment. wp_step. wp_step; [|by apply in_going; left]. wp_step.
  eapply wp_post; [eapply (wp_forward (if is_visible kind then Some fragment else None) None None); [exact Hl| |]|].
  - intros seq. apply delta_event_facts.
  - intros o s k t Ha Ht. destruct (is_visible kind); [|done]. injection Ht as <-.
    unfold validate_visible_fragment in H. apply ensure_Ok in H. unfold fits. by rewrite <- (at_owned _ _ _ _ Ha).
  - intros seq l1 H1. wp_step. eapply wp_post; [exact H1|]. intros [] l2 H2. wp_step. apply H2. intros l3 Hl3. by apply wp_flush_if.
Qed.

Lemma wp_forward_text text kind l : In level l -> wp Sound (In going) (forward_text_fragments text kind) (fun _ => In level) l.
Proof.
  intros Hl. unfold forward_text_fragments. wp_step; [|by apply in_going; left].
  apply (wp_forM _ _ _ (fun _ => In level)); [|done]. intros [] fragment l1 _ Hl1. by apply wp_forward_fragment.
Qed.

Lemma wp_forward_runtime_event event l : In level l -> wp Sound (In going) (forward_runtime_event event) (fun _ => In level) l.
Proof.
  intros Hl. unfold forward_runtime_event. wp_step. eapply (wp_post _ _ _ (fun _ => In level)); [|intros [] l1 Hl1; by apply wp_flush_if].
  destruct event as [id|text|text|text|usage]; try by apply wp_forward_text.
  - wp_step; [|by apply in_going; left]. wp_step.
    eapply wp_post; [by eapply (wp_forward None (Some id) None)|]. intros seq l1 H1. wp_step. eapply wp_post; [exact H1|].
    intros [] l2 H2. by apply H2.
  - wp_step. eapply wp_post; [by eapply (wp_forward None None (Some usage))|]. intros seq l1 H1. wp_step. eapply wp_post; [exact H1|].
    intros [] l2 H2. by apply H2.
Qed.
End forwarding.

(** ** The whole bridge *)

Section run.
Context {Sys : StreamSystem}.

Lemma in_sound phase l : (forall o s k, phase o s k -> sound (o_channel o) (o_published o) (o_terminal o) s k) -> In phase l -> Sound l.
Proof. intros Hp (o & s & k & Ha & Hph & _). exists o, s, k. auto. Qed.

Lemma level_sound o s k : level o s k -> sound (o_channel o) (o_published o) (o_terminal o) s k.
Proof. intros (H & _). by eapply opened_sound. Qed.

Lemma in_cancellation phase l : In phase l -> In phase (set_cancellation true l).
Proof. intros (o & s & k & Ha & H). exists o, s, k. split; [|done]. eapply at_quiet_same; [exact Ha|by repeat split|done]. Qed.

Lemma wp_cancel_and_report {A} (X I : Live -> Prop) phase e (Q : result ProviderCommandError A -> Live -> Prop) l :
  In phase l -> (forall l', In phase l' -> Q (Err e) l') -> wp X I (cancel_and_report e) Q l.
Proof. intros Hl HQ. unfold cancel_and_report. wp_step. wp_step. by apply HQ, in_cancellation. Qed.

Lemma level_going l : In level l -> In going l.
Proof. intros. apply in_going. by left. Qed.
#[local] Hint Resolve level_going : core.

Lemma wp_bridge_loop arrivals l : In level l -> wp Sound (fun _ => False) (bridge_loop arrivals) (fun _ => In going) l.
Proof.
  revert l. induction arrivals as [|a arrivals IH]; intros l Hl; cbn [bridge_loop].
  { wp_step. by eapply in_sound; [apply level_sound|]. }
  assert (Hflush : wp Sound (fun _ => False) (r ← attempt flush; match r with Ok _ => bridge_loop arrivals | Err e => cancel_and_report e end)
    (fun _ => In going) l).
  { wp_step. eapply wp_mono; [done| | |by apply wp_flush_level]; cbn beta; [|by intros _ l1 Hl1; apply IH].
    intros l1 Hl1 e. eapply wp_cancel_and_report; [exact Hl1|]. auto. }
  destruct a as [|event|outcome|outcome queued|].
  - exact Hflush.
  - wp_step. eapply wp_mono; [done| | |by apply wp_forward_runtime_event]; cbn beta; [|by intros _ l1 Hl1; apply IH].
    intros l1 Hl1 e. by eapply wp_cancel_and_report.
  - wp_step. auto.
  - wp_step. eapply (wp_mono Sound Sound (In going)); [done| | |eapply (wp_forM _ _ _ (fun _ => In level)); [|exact Hl]]; cbn beta.
    + intros l1 Hl1 e. by wp_step.
    + intros [] l1 Hl1. wp_step. auto.
    + intros [] event l1 _ Hl1. by apply wp_forward_runtime_event.
  - wp_step. destruct (flush_deadline _); [exact Hflush|by apply IH].
Qed.

Lemma wp_run_events arrivals l : In level l -> wp Sound (fun _ => False) (run_events arrivals) (fun _ => In going) l.
Proof.
  intros Hl. unfold run_events. wp_step. eapply wp_post; [by apply wp_bridge_loop|]. intros outcome l1 Hl1. wp_step.
  assert (Hlast : forall r l', In going l' -> wp Sound (fun _ => False)
    (locked (fun l => (l, Ok (terminal_kind (lease_failure (machine l)) (cancel_requested l) r)))) (fun _ => In going) l').
  { intros r l' (o & s & k & Ha & Hph & Hi). eapply wp_locked; [exact Ha| |].
    - destruct Hph; [by apply level_sound|by apply behind_sound].
    - intros l2 Ha2. by exists o, s, k. }
  eapply wp_mono; [done| | |by apply wp_flush_going]; cbn beta.
  - intros l2 Hl2 e. wp_step. eapply wp_cancel_and_report; [exact Hl2|]. intros l3 Hl3. by apply Hlast.
  - intros [] l2 Hl2. wp_step. by apply Hlast.
Qed.

(** A stream that no try can end. *)
Definition stuck (o : Owned) (s : Stored) (k : Z) : Prop := behind o s k \/ ready_with (fun x => has_nul x = true) o s k.

Lemma wp_send_stuck kind l : In stuck l -> wp Sound (In stuck) (send_terminal kind) (fun _ _ => False) l.
Proof.
  intros (o & s & k & Ha & [Hb|Hr] & Hi).
  - eapply wp_mono; [done| | |eapply wp_send_terminal_behind; by exists o, s, k]; [|done].
    intros l1 (o1 & s1 & k1 & ? & ? & ?). exists o1, s1, k1. split_and!; try done. by left.
  - eapply wp_mono; [done| | |eapply wp_send_terminal; by exists o, s, k].
    + intros l1 (o1 & s1 & k1 & ? & ? & ?). exists o1, s1, k1. split_and!; try done. by right.
    + intros _ l1 (_ & x & ? & ?). congruence.
Qed.

Lemma unfinished_sound o s k : unfinished o s k -> sound (o_channel o) (o_published o) (o_terminal o) s k.
Proof. intros [?|?]; [by apply ready_sound|by apply behind_sound]. Qed.

Lemma wp_send_unfinished kind l : In unfinished l -> wp Sound (In unfinished) (send_terminal kind) (fun _ => Finished) l.
Proof.
  intros (o & s & k & Ha & [Hr|Hb] & Hi).
  - eapply wp_mono; [done| | |eapply (wp_send_terminal (fun _ => True)); by exists o, s, k].
    + intros l1 (o1 & s1 & k1 & ? & [? _] & ?). exists o1, s1, k1. split_and!; try done. by left.
    + by intros _ l1 [? _].
  - eapply wp_mono; [done| | |eapply wp_send_terminal_behind; by exists o, s, k]; [|done].
    intros l1 (o1 & s1 & k1 & ? & ? & ?). exists o1, s1, k1. split_and!; try done. by right.
Qed.

Lemma stuck_sound o s k : stuck o s k -> sound (o_channel o) (o_published o) (o_terminal o) s k.
Proof. intros [?|[? _]]; [by apply behind_sound|by apply ready_sound]. Qed.

(** More tries keep what one try keeps. *)
Lemma wp_recover (phase : Owned -> Stored -> Z -> Prop) (Q : unit -> Live -> Prop) rounds kind l :
  (forall o s k, phase o s k -> sound (o_channel o) (o_published o) (o_terminal o) s k) ->
  (forall l, In phase l -> wp Sound (In phase) (send_terminal kind) Q l) ->
  In phase l -> wp Sound (fun _ => False) (recover_terminal_until_durable rounds kind) Q l.
Proof.
  intros Hph Hsend. revert l. induction rounds as [|n IH]; intros l Hl; cbn [recover_terminal_until_durable].
  { wp_step. by eapply in_sound. }
  destruct Hl as (o & s & k & Ha & Hp & Hi). wp_step. eapply wp_interfere; [exact Ha|by apply Hph|]. intros l1 Ha1. wp_step.
  eapply wp_mono; [done| | |apply Hsend; by exists o, s, k]; cbn beta; [|by intros [] l2 HQ; wp_step].
  intros l2 Hl2 e. by apply IH.
Qed.

Lemma going_unfinished l : In going l -> In unfinished l.
Proof. intros (o & s & k & ? & [?|?] & ?); exists o, s, k; split_and!; try done; [by left; left|by right]. Qed.

Lemma wp_run_stream_bridge arrivals l : In level l -> wp Sound (fun _ => False) (run_stream_bridge arrivals) (fun _ => Finished) l.
Proof.
  intros Hl. unfold run_stream_bridge. wp_step. eapply wp_post; [by apply wp_run_events|]. intros kind l1 Hl1%going_unfinished. wp_step.
  eapply wp_mono; [done| | |by apply wp_send_unfinished]; cbn beta; [|by intros [] l2 HF; wp_step].
  intros l2 Hl2 e. eapply wp_recover; [apply unfinished_sound|apply wp_send_unfinished|done].
Qed.

(** *** The start *)

Lemma begun_journal rid uid aid input db db' t : begin_turn rid uid aid input db = (db', Ok t) ->
  journal_of (st_request t) db' = Some (mkJournal RequestRunning 0 0 None []) /\ st_delivered t = 0 /\ st_durable t = 0.
Proof.
  intros H. unfold begin_turn in H. st_inv H. same_state.
  match type of Hs17 with insert_message _ ?m _ = _ => set (a := m) in * end.
  match type of Hs20 with insert_request ?q _ = _ => set (r := q) in * end.
  apply touch_chat_rest in Hs21 as (Hm & Hr & _). apply insert_request_Ok in Hs20 as (-> & _).
  apply insert_path_Ok in Hs19 as ->. apply insert_path_Ok in Hs18 as ->.
  apply insert_message_Ok in Hs17 as (-> & _). cbn [st_request st_delivered st_durable]. split_and!; try done.
  apply journal_of_Some. exists r, a. rewrite Hm, Hr. cbn. rewrite !lookup_insert_eq. done.
Qed.

Lemma started_level t db at_ms now : store_ok db -> journal_of (st_request t) db = Some (mkJournal RequestRunning 0 0 None []) ->
  st_delivered t = 0 -> st_durable t = 0 -> In level (live_started t at_ms now db).
Proof.
  intros Hok Hj Hdel Hdur. exists (owned (live_started t at_ms now db)), (Running 0 0 []), 1. split_and!; [|split_and!; cbn; try done|done].
  - split; try done. by exists None.
  - split; cbn; try done; rewrite ?Hdel, ?Hdur; try done. by exists [].
Qed.
End run.

(** ** Guarantees *)

Section guarantees.
Context {Sys : StreamSystem}.
Variables (ops : list StoreOp) (rid uid aid : str) (input : BeginTurn) (db : Db) (t : StartedTurn).
Hypothesis begun : begin_turn rid uid aid input (run_history ops empty_db) = (db, Ok t).
Variables (arrivals : list Arrival) (at_ms now : Z) (start : nat).

#[local] Notation started := (mkWorld start (live_started t at_ms now db)).
#[local] Notation run := (run_stream_bridge arrivals started).
#[local] Notation reached := (disk run.1).

Lemma started_In : In level (live_started t at_ms now db).
Proof.
  pose proof (store_ok_call (OpBeginTurn rid uid aid input) _ _ _ _ eq_refl (reached_ok ops) begun) as Hok.
  apply begun_journal in begun as (Hj & Hd & Hn). by apply started_level.
Qed.

Lemma reached_Sound : Sound reached.
Proof.
  pose proof (wp_run_stream_bridge arrivals _ started_In start) as H. destruct (run_stream_bridge _ _) as [w [[]|[e|]]]; [|done|done].
  cbn in *. destruct H as (o & s & k & ? & ? & _). by exists o, s, k.
Qed.

(** C16: At every await of the bridge the reader has been sent events numbered from zero without
    a gap, at most one of them final and that one last, and no more than four events, or
    five with the final one, beyond those it has acknowledged. *)
Theorem reader_gets_events_in_order :
  in_order (channel reached) /\ (forall front e, channel reached = front ++ [e] -> has_final front = false) /\
  len (channel reached) <= acknowledged_count (machine reached) + MAX_IN_FLIGHT + (if has_final (channel reached) then 1 else 0).
Proof.
  destruct reached_Sound as (o & s & k & Ha & [S1 S2 S3 _]). pose proof (f_equal o_channel (at_owned _ _ _ _ Ha)) as Hc. cbn in Hc.
  pose proof (at_room _ _ _ _ Ha). rewrite Hc. split_and!; [done|done|lia].
Qed.

(** C17: At every await an acknowledged event is one that was sent and whose text is stored. *)
Theorem acknowledged_events_are_durable a : acknowledged_through (machine reached) = Some a ->
  0 <= a <= last_sent_seq (machine reached) /\
  forall j, journal_of (st_request (turn reached)) (store_db reached) = Some j -> a <= j_durable j.
Proof.
  intros Hack. destruct reached_Sound as (o & s & k & Ha & [_ _ _ Hrow]).
  destruct (mk_acked _ (at_machine _ _ _ _ Ha) _ Hack) as [H1 H2]. split; [done|]. intros j Hj.
  pose proof (f_equal o_published (at_owned _ _ _ _ Ha)) as Hp. cbn in Hp. pose proof (at_stored _ _ _ _ Ha) as Hs. unfold holds in Hs.
  rewrite Hj in Hs. destruct s as [d n x|st q x].
  - destruct Hs as [ak [= ->]]. cbn. lia.
  - destruct Hs as [_ [?|[ak [= ->]]]]; [done|]. cbn. lia.
Qed.

(** What the row of a turn says of its stream. *)
Definition row_matches (status : StorageRequestStatus) (seq : Z) (l : Live) (j : Journal) : Prop :=
  j_status j = status /\ j_delivered j = seq /\ j_durable j = seq /\ j_text j = shown (channel l).

(** C18: The stored text is at every await a prefix of what the reader was sent.  When a receipt
    is published or a final event sent, the row, unless its chat was deleted since, already
    has that outcome and sequence number and exactly the text that the reader was sent; and
    the bridge only returns with a receipt. *)
Theorem published_end_is_stored :
  (forall j, journal_of (st_request (turn reached)) (store_db reached) = Some j ->
     j_text j `prefix_of` shown (channel reached) /\
     (forall r, terminal (machine reached) = Some r -> row_matches (receipt_status r) (receipt_seq r) reached j) /\
     (forall e st, e ∈ channel reached -> final_status e = Some st -> row_matches st (event_seq e) reached j)) /\
  (run.2 = Ok tt -> is_Some (terminal (machine reached))).
Proof.
  split.
  - destruct reached_Sound as (o & s & k & Ha & [_ _ _ Hrow]). intros j Hj. pose proof (at_stored _ _ _ _ Ha) as Hs. unfold holds in Hs.
    rewrite Hj in Hs. pose proof (f_equal o_channel (at_owned _ _ _ _ Ha)) as Hc. pose proof (f_equal o_terminal (at_owned _ _ _ _ Ha)) as Ht.
    cbn in Hc, Ht. unfold row_matches. rewrite Hc, Ht. destruct s as [d n x|st q x].
    + destruct Hs as [ak [= ->]], Hrow as (Hx & _ & Hf & ->). split_and!; [done|done|]. intros e st He Hst.
      pose proof (no_final _ _ Hf He) as Hn. unfold is_final in Hn. by rewrite Hst in Hn.
    + destruct Hs as [_ [?|[ak [= ->]]]]; [done|]. destruct Hrow as (-> & _ & Hf & Hr). split_and!; [done| |].
      * intros r E. by destruct (Hr r E) as [-> ->].
      * intros e st' He Hst. destruct (Hf e He) as [E ->]; [unfold is_final; by rewrite Hst|]. by replace st' with st by congruence.
  - intros Hr. pose proof (wp_run_stream_bridge arrivals _ started_In start) as H. destruct (run_stream_bridge _ _) as [w r].
    cbn in Hr. subst r. destruct H as (o & s & k & Ha & _ & Ht). by rewrite <- (at_owned _ _ _ _ Ha) in Ht.
Qed.

(** C19: When the bridge has read its last event and either has sent an event that it could not
    record as delivered or has text with a null that it could not store, no number of tries
    ends the turn: [recover_terminal_until_durable] never returns. *)
Theorem failed_write_wedges_turn kind w rounds start' :
  run_events arrivals started = (w, Ok kind) ->
  per_delivered (persistence (disk w)) <> last_sent_seq (machine (disk w)) \/ has_nul (per_text (persistence (disk w))) = true ->
  (recover_terminal_until_durable rounds kind (mkWorld start' (disk w))).2 <> Ok tt.
Proof.
  intros Hrun Hbad. pose proof (wp_run_Ok _ _ _ _ _ _ _ _ (wp_run_events arrivals _ started_In) Hrun) as (o & s & k & Ha & Hgo & Hi).
  assert (Hst : In stuck (disk w)).
  { exists o, s, k. split_and!; [done| |done]. pose proof (at_owned _ _ _ _ Ha) as Ho. destruct Hgo as [Hle|Hb]; [|by left].
    destruct Hbad as [Hne|Hnul].
    - destruct Hle as (_ & Hd & _). rewrite <- Ho in Hd. by cbn in Hd.
    - right. split; [by left|]. by rewrite <- Ho. }
  pose proof (wp_recover stuck _ rounds kind _ stuck_sound (wp_send_stuck kind) Hst start') as H.
  destruct (recover_terminal_until_durable _ _ _) as [w' [[]|e]]; [done|]. by cbn.
Qed.
End guarantees.

(** ** A stream *)

Module StreamExample.
Import ChatExample.

(** Acknowledgements of the first two events arrive at every await; [fault] says which
    storage calls are refused. *)
Definition acknowledge (seq : Z) : list OtherStep := StepAckArrives seq :: replicate 7 (StepAck None 30).

Definition system (fault : nat -> option StorageCommandError) (stop : nat) : StreamSystem := {|
  others := fun _ => acknowledge 0 ++ acknowledge 1;
  storage_fault := fault;
  wall_clock := fun _ => 30;
  channel_open := fun _ => true;
  wire_length := fun _ => Some 100;
  prefers_cancellation := fun _ => false;
  cutoff := stop;
|}.

Definition reliable : StreamSystem := system (fun _ => None) 200.

Definition before : list StoreOp := [OpCreateChat chat_id (mkCreateChat (lit "aria") (lit "First chat") 10)].
Definition first_turn : BeginTurn := mkBeginTurn chat_id (mkSelection StOpenAi (lit "gpt")) owner generation (lit "Hello") 11.
Definition opened_db : Db := (begin_turn request_id user_id assistant_id first_turn (run_history before empty_db)).1.
Definition first_started : StartedTurn := mkStarted request_id user_id assistant_id 1 2 owner generation 0 0 None.

Definition answer : list Arrival :=
  [EventArrives (TextDelta (lit "Hi")); EventArrives (TextDelta (lit " there")); RunEnds (Ok (Completed None None)) []].

Lemma run_pair {A B} (x : A * B) b : x.2 = b -> x = (x.1, b).
Proof. by intros <-; destruct x. Qed.

Lemma example_begun : begin_turn request_id user_id assistant_id first_turn (run_history before empty_db) = (opened_db, Ok first_started).
Proof.
  unfold opened_db. refine (run_pair (begin_turn request_id user_id assistant_id first_turn (run_history before empty_db)) _ _).
  by vm_compute.
Qed.

Definition end_of (Sys : StreamSystem) (arrivals : list Arrival) : Live :=
  disk (run_stream_bridge arrivals (mkWorld 0 (live_started first_started 11 0 opened_db))).1.

Example answer_reaches_reader :
  map event_seq (channel (end_of reliable answer)) = [0; 1; 2; 3] /\ shown (channel (end_of reliable answer)) = lit "Hi there" /\
  acknowledged_through (machine (end_of reliable answer)) = Some 1.
Proof. by vm_compute. Qed.

Lemma reader_gets_events_witness :
  let l := end_of reliable answer in
  in_order (channel l) /\ (forall front e, channel l = front ++ [e] -> has_final front = false) /\
  len (channel l) <= acknowledged_count (machine l) + MAX_IN_FLIGHT + (if has_final (channel l) then 1 else 0).
Proof.
  exact (reader_gets_events_in_order (Sys := reliable) before request_id user_id assistant_id first_turn opened_db first_started
           example_begun answer 11 0 0).
Defined.

Lemma acknowledged_events_witness :
  let l := end_of reliable answer in
  0 <= 1 <= last_sent_seq (machine l) /\
  forall j, journal_of (st_request (turn l)) (store_db l) = Some j -> 1 <= j_durable j.
Proof.
  apply (acknowledged_events_are_durable (Sys := reliable) before request_id user_id assistant_id first_turn opened_db first_started
           example_begun answer 11 0 0 1).
  by vm_compute.
Defined.

Lemma published_end_witness :
  let l := end_of reliable answer in
  (forall j, journal_of (st_request (turn l)) (store_db l) = Some j ->
     j_text j `prefix_of` shown (channel l) /\
     (forall r, terminal (machine l) = Some r -> row_matches (receipt_status r) (receipt_seq r) l j) /\
     (forall e st, e ∈ channel l -> final_status e = Some st -> row_matches st (event_seq e) l j)) /\
  is_Some (terminal (machine l)).
Proof.
  destruct (published_end_is_stored (Sys := reliable) before request_id user_id assistant_id first_turn opened_db first_started
              example_begun answer 11 0 0) as [H1 H2].
  split; [exact H1|]. apply H2. by vm_compute.
Defined.

Lemma fragments_witness : utf8_valid (lit "Hi there") /\
  concat (split_utf8 (lit "Hi there") MAX_DELTA_FRAGMENT_BYTES) = lit "Hi there" /\
  Forall (fun f => utf8_valid f /\ f <> [] /\ (length f <= MAX_DELTA_FRAGMENT_BYTES)%nat) (split_utf8 (lit "Hi there") MAX_DELTA_FRAGMENT_BYTES).
Proof.
  assert (Hv : utf8_valid (lit "Hi there")) by by eexists; vm_compute.
  split; [exact Hv|]. exact (fragments_are_the_text (lit "Hi there") Hv).
Defined.

Definition question : StoredMessage := mkMessage user_id chat_id None 1 0 1 RoleUser MessageComplete (lit "Hello") 11 11 (Some 11).

Lemma history_witness :
  let turns := closed_turns 2 (reverse [question; first_answer]) in
  exists n, select_completed_history [question; first_answer] 64 100 = flat_map pair_messages (reverse (take n turns)) /\ fitting 32 100 turns n.
Proof. apply (history_is_newest_closed_turns [question; first_answer] 64 100). by vm_compute. Defined.

Lemma rejected_start_witness : is_Some (requests (persist_rejected_start first_started 12 opened_db).1 !! request_id) /\
  store_ok (persist_rejected_start first_started 12 opened_db).1 /\
  forall r, requests (persist_rejected_start first_started 12 opened_db).1 !! st_request first_started = Some r -> is_running r = false.
Proof.
  split; [by apply (bool_decide_unpack _); vm_compute|].
  assert (Hok : store_ok opened_db) by by eapply (store_ok_call (OpBeginTurn request_id user_id assistant_id first_turn)); [|apply (reached_ok before)|apply example_begun].
  refine (rejected_start_is_not_running first_started 12 opened_db _ tt Hok (run_pair (persist_rejected_start first_started 12 opened_db) (Ok tt) _)).
  by vm_compute.
Defined.

(** *** A start *)

#[local] Existing Instance ProviderCompileFacts.ProviderExample.integers.

Definition starting (wall : Z) : StartSystem Z := {|
  start_fault := fun _ => None;
  start_clock := fun _ => wall;
  start_channel := fun _ => true;
  start_length := fun _ => Some 100;
  load_provider_credential := fun _ => None;
|}.

Definition desk : Desk :=
  mkDesk empty_registry (run_history [OpCreateChat chat_id (mkCreateChat (lit "seraphine") (lit "First chat") 10)] empty_db) [].

#[local] Notation start_at wall :=
  (start_provider_stream (Sys := starting wall) owner chat_id (mkProfile OpenAi (lit "gpt-5")) (lit "Hello") [lit "1"] generation
     (lit "secret") 0 request_id user_id assistant_id (mkWorld 0 desk)).

Lemma start_witness :
  is_ok (start_at 30).2 = true /\
  match start_at 30 with
  | (w, Ok (id, tok)) =>
      is_ok (authenticated id tok (desk_registry (disk w))) = true /\
      registered (desk_registry desk) !! id = None /\ registry_ok (desk_registry (disk w)) /\ store_ok (desk_db (disk w)) /\
      (exists r, requests (desk_db (disk w)) !! request_id = Some r /\ is_running r = true) /\
      desk_channel (disk w) = desk_channel desk ++ [EvStarted 0 MAX_IN_FLIGHT]
  | (w, Err (Some _)) =>
      registry_ok (desk_registry (disk w)) /\ store_ok (desk_db (disk w)) /\
      (registered (desk_registry (disk w)) = registered (desk_registry desk) -> not_running request_id (desk_db (disk w)))
  | (w, Err None) => disk w = desk
  end.
Proof.
  split; [by vm_compute|].
  exact (start_keeps_rows_and_slots_in_step (Sys := starting 30) owner chat_id (mkProfile OpenAi (lit "gpt-5")) (lit "Hello") [lit "1"]
    generation (lit "secret") 0 request_id user_id assistant_id desk 0 ltac:(by split)
    (reached_ok [OpCreateChat chat_id (mkCreateChat (lit "seraphine") (lit "First chat") 10)]) ltac:(by vm_compute)).
Defined.

(** When the clock cannot be read the command fails and the slot stays taken. *)
Example failed_clock_leaks_slot :
  (start_at (-1)).2 = Err (Some storage_unavailable) /\ size (registered (desk_registry (disk (start_at (-1)).1))) = 1%nat.
Proof. by vm_compute. Qed.

(** The [n]th answer of the oracles refuses a storage call. *)
Definition busy : StorageCommandError := mkStorageCommandError "STORAGE_ADMISSION_TIMEOUT" "local storage is busy".
Definition refusing (n : nat) : StreamSystem := system (fun t => if Nat.eqb t n then Some busy else None) 200.

#[local] Notation events_end Sys' arrivals :=
  (run_events (Sys := Sys') arrivals (mkWorld 0 (live_started first_started 11 0 opened_db))).

Definition null_answer : list Arrival := [EventArrives (TextDelta (lit "a" ++ [byte_of 0])); RunEnds (Ok (Completed None None)) []].

Definition refused : TerminalKind := KindFailed (from_storage busy).
Definition rejected : TerminalKind := KindFailed (from_storage (StorageCommandError_from_storage (InvalidInput "turn" "closed"))).

Lemma refused_run : events_end (refusing 5) answer = ((events_end (refusing 5) answer).1, Ok refused).
Proof. refine (run_pair (events_end (refusing 5) answer) (Ok refused) _). by vm_compute. Qed.

Lemma rejected_run : events_end reliable null_answer = ((events_end reliable null_answer).1, Ok rejected).
Proof. refine (run_pair (events_end reliable null_answer) (Ok rejected) _). by vm_compute. Qed.

Lemma refused_gap : per_delivered (persistence (disk (events_end (refusing 5) answer).1)) <>
  last_sent_seq (machine (disk (events_end (refusing 5) answer).1)).
Proof. by vm_compute. Qed.

Lemma rejected_null : has_nul (per_text (persistence (disk (events_end reliable null_answer).1))) = true.
Proof. by vm_compute. Qed.

(** One refused call while an event is recorded, or one null in the text. *)
Lemma failed_write_witness :
  (recover_terminal_until_durable (Sys := refusing 5) 7 refused (mkWorld 50 (disk (events_end (refusing 5) answer).1))).2 <> Ok tt /\
  (recover_terminal_until_durable (Sys := reliable) 7 rejected (mkWorld 50 (disk (events_end reliable null_answer).1))).2 <> Ok tt.
Proof.
  exact (conj
    (failed_write_wedges_turn (Sys := refusing 5) before request_id user_id assistant_id first_turn opened_db first_started
       example_begun answer 11 0 0 refused (events_end (refusing 5) answer).1 7 50 refused_run (or_introl refused_gap))
    (failed_write_wedges_turn (Sys := reliable) before request_id user_id assistant_id first_turn opened_db first_started
       example_begun null_answer 11 0 0 rejected (events_end reliable null_answer).1 7 50 rejected_run (or_intror rejected_null))).
Defined.
End StreamExample.
